(* ===== verification/_CoqProject ===== *)
-Q . S2P
Prelude.v
CStr.v
Printf.v
Io.v
Hex.v
Base64.v
Crc32.v
Parse.v
Suffix.v
Uint128.v
Passthru.v
NvmeConst.v
Commands.v
CommandsWf.v
CommandsView.v
GetLog.v
GetLogSpec.v
AnaLog.v
AnaSpec.v
Discovery.v
DiscoverySpec.v
Mi.v
MiSpec.v
MiAdmin.v
MiCommands.v
MiAem.v
MiAemSpec.v
Ttlv.v
Kmip.v
Nqn.v
Tid.v
DTid.v
Inventory.v
Nbft.v
Ini.v
Conf.v
ConfSpec.v
ConfResolve.v
ConfSecrets.v
ConfLoad.v
ConfApply.v
ConfEmit.v
ConfEmitSpec.v
ConfInstall.v
ConfInstallSpec.v
Exclusion.v
Ctrl.v
CtrlMatch.v
Options.v
CtrlSpec.v
Connect.v
ConnectSpec.v
Walk.v
WalkSpec.v
WalkResult.v
Psk.v
TlsKey.v
KeyRing.v
KeyRingSpec.v
KmipPsk.v
Registry.v
RegistrySpec.v
Time.v
KeysdConfig.v
DiscoverdConfig.v
Dlp.v
Daemon.v
DaemonSpec.v
Sha256.v
Sha256Spec.v
MachineId.v
Work.v
