(* ===== verification/Prelude.v ===== *)
(** * A verification library for nvme-cli, libnvme and its daemons

    nvme-cli is the user-space tooling of NVMe: the library libnvme
    ([libnvme/src/nvme]), the [nvme] command with its plugins ([src],
    [plugins]), helper code shared by all of them ([shared], [daemon-util]),
    and two daemons, the discovery daemon ([discoverd]) and the key daemon
    ([keysd]).  This library models the parts of that code that decide
    something as Rocq functions translated from the C source, and proves what
    makes them correct.  Paths are those under src/.

    ** The parts and how they interact

    - The shared helpers are used by everything else.  A number or a string
      that a user, a file or the kernel supplies goes through [string-util],
      [parse-util], [suffix-util], [time-util], [hex-util], [nqn-util],
      [uuid-util] and [ini-util].
    - libnvme builds admin and I/O commands ([nvme-cmds-*.h]) and sends them
      to a controller, by ioctl, over an io_uring, or as NVMe-MI messages on
      an MCTP socket ([mi.c], [mi-mctp.c]).  Log pages are read in chunks
      ([nvme-cmds.c], [uring.c]); the ANA log page and the discovery log page
      change while they are read.
    - A transport ID (TID, [tid.c]) names a path from a host to a controller.
      Its canonical text is what the tools write to files and compare.
      Exclusion lists ([exclusion.c]) name, as partial TIDs, the connections
      that must not be made.
    - The fabrics configuration is a main file with drop-ins
      ([config-ini.c]), which are resolved into a flat list of connections
      ([config-resolve.c]), applied to a connection ([config.c]) and written
      again ([config-emit.c]).  The firmware leaves connections in the NBFT
      table ([nbft.c]).
    - "nvme connect" and "nvme connect-all" ([fabrics.c]) create controller
      objects, write a line of options to the kernel and link the objects to
      the topology tree ([tree.c]); the walk follows the referrals of
      discovery controllers.  Who owns a connection is in the registry
      ([registry.c]).
    - The discovery daemon keeps an inventory of the connections it wants
      ([discoverd/src/inventory.c]): from firmware, from its configuration,
      from discovery, and from the log pages of the controllers it reached.
      It asks systemd for a unit per connection and tracks what becomes of it
      ([discoverd/src/main.c]).
    - The key daemon takes keys from the configuration or from a KMIP server
      ([keysd/src/kmip-psk.c], [kmip.c], [ttlv.c]) and imports them into the
      kernel's key ring ([import.c]); a key travels in the PSK interchange
      format and is stored under an identity derived from it ([crypto.c]).
    - The daemons run blocking calls in a pool of threads
      ([daemon-util/work.c]) that reports to the event loop.

    ** Files

    Foundations
    - [Prelude] (this file): results and errno, bytes, machine words,
      character codes, lemmas on bit operations, the tactics [to_prop],
      [divmod] and [ndivmod], the hint database [nvme].
    - [CStr]: [shared/string-util.c], [.h] and what they use of the C
      library.  [Printf]: the conversions of integers.
    - [Io]: the monad of functions with effects that return an [int], and its
      rules.

    Shared helpers
    - [Hex], [Base64], [Crc32]: [shared/hex-util.c], [base64-util.c],
      [crc32-util.c].
    - [Parse], [Suffix], [Time], [Uint128]: [shared/parse-util.c],
      [suffix-util.c], [time-util.c], [uint128-util.c] with [int-util.c].
    - [Nqn]: [shared/nqn-util.c], [uuid-util.c].
    - [Ini]: [shared/ini-util.c].
    - [Sha256], [Sha256Spec]: [shared/sha256-util.c]; the module [Fips180] is
      the standard.  [MachineId]: [shared/machine-id-util-linux.c].
    - [Work]: [daemon-util/work.c].

    Commands and transports of libnvme
    - [Passthru], [NvmeConst], [Commands]: the passthrough command, the
      constants and the builders [nvme_init_...]; [CommandsWf] and
      [CommandsView] have their theorems.
    - [GetLog], [GetLogSpec]: [libnvme_get_log] over the ring or one by one.
      [AnaLog], [AnaSpec]: [libnvme_get_ana_log_atomic].  [Discovery],
      [DiscoverySpec]: the discovery log page of [fabrics.c].
    - [Mi], [MiSpec]: [libnvme_mi_submit] over [mi-mctp.c]; [MiAdmin] the
      admin commands, [MiCommands] the commands of the management interface
      and the scan, [MiAem] and [MiAemSpec] the asynchronous events.

    Connections
    - [Tid]: [libnvme/src/nvme/tid.c].  [DTid]: [discoverd/src/tid.c], the
      address comparison of [shared/net-util-linux.c] and [shr_fnv1a_64].
    - [Inventory]: [discoverd/src/inventory.c].  [DiscoverdConfig], [Dlp],
      [Daemon], [DaemonSpec]: [discoverd/src/config.c], [dlp.c] and the
      controllers and event handlers of [main.c].
    - [Exclusion]: [libnvme/src/nvme/exclusion.c].
    - [Nbft]: [libnvme/src/nvme/nbft.c].
    - [Conf], [ConfSpec]: [config-ini.c]; [ConfResolve], [ConfSecrets],
      [ConfLoad]: [config-resolve.c] and [config.c]; [ConfApply]: the second
      part of [config.c]; [ConfEmit], [ConfEmitSpec], [ConfInstall],
      [ConfInstallSpec]: [config-emit.c].
    - [Ctrl], [CtrlMatch], [CtrlSpec]: controllers, subsystems and hosts of
      [tree.c], [tree-linux.c], [tree-fabrics.c]; [Options], [Connect],
      [ConnectSpec]: the connect of [fabrics.c]; [Walk], [WalkSpec],
      [WalkResult]: the discovery walk of [fabrics.c].
    - [Registry], [RegistrySpec]: [registry.c].

    Keys
    - [Psk], [TlsKey]: the interchange format, the derived keys and their
      identities in [crypto.c]; [KeyRing], [KeyRingSpec]: the key ring calls
      of [crypto.c] and [keysd/src/import.c].
    - [Ttlv], [Kmip], [KmipPsk]: [keysd/src/ttlv.c], [kmip.c], [kmip-psk.c];
      [Ttlv.Tree] is the abstract syntax the bytes encode, [KmipSpec] gives
      the messages as trees.  [KeysdConfig]: [keysd/src/config.c] and the
      names of log levels of [daemon-util/log.c].

    Definitions keep the C names.  A loop of a C function is a function of
    its own next to it ([hex_to_ascii_loop], [scan_lines], ...).

    ** How C is modelled

    - A byte is an integer in [0, 256), a C string the list of its bytes in
      front of the NUL, a pointer that may be NULL an [option].  A function
      that writes into the caller's buffer takes and returns the whole buffer.
      Where an access outside of an object is possible in principle, the model
      has it as a value ([Nbft]'s [Fault], [OutOfBounds], [None]) and a
      theorem says that it does not occur.
    - Machine integers are [Z] with the wrap written out ([u8], [u32], [u64]).
    - A function that returns 0 or a negative errno is one into [result], or
      returns the new state and an [option errno].
    - Objects that are shared by pointer are in a store under addresses: the
      controllers of [Ctrl], the copies of a command on the ring in [GetLog].
    - Files are the texts they hold ([Exclusion.excl_fs], [ConfInstall.fsys],
      [Registry.fs]); shared state with threads is a step relation
      ([Work.step], [Inventory.lookup_step]).
    - Code outside of the repository is a parameter: memory ([Tid.Alloc],
      [Inventory.Heap], the [malloc] of several files), [inet_pton] and
      [inet_ntop] ([Tid.Inet] with the laws [Tid.InetLaws]), the interface
      list of [getifaddrs], the kernel with its devices (the environments of
      [GetLog], [Mi] and [Ctrl]), OpenSSL ([TlsKey]), keyutils ([KeyRing] with
      its laws), systemd, sysfs and the state files
      ([Daemon.denv]), the TLS connection to a KMS ([KmipPsk.kmip_tls]), the
      faults of system calls ([ConfInstall], [Registry], [Exclusion.FileIo]), the handler of an
      application ([MiAem]) and the choices of the scheduler in [Work].
      Witnesses instantiate them with concrete functions.
    - The inventory is written against the interface [Inventory.TidOps] with
      the laws [TidLaws]; [discoverd/src/tid.h] implements it, and the
      instance for transport IDs discharges the laws with the lemmas of
      [DTid].

    ** What the theorems show

    - Discovery walk and topology tree: a walk returns, keeps the links of the
      tree, and uses no controller that was freed; it visits each discovery
      controller once as long as its list of visited controllers can grow,
      tries to disconnect what it connected and is not to persist and nothing
      else, and connects nothing that the exclusion lists, asked about it,
      name.  These are about walks that are no dry run and have no hook for I/O
      controllers, with memory for strings.
    - Discovery daemon: with any sequence of events, no unit is tracked twice,
      and each controller it tracks is connected or waits for a timer or a job,
      while timers can be set and a job leaves the name of its device (two
      facts show what happens otherwise); it drops a controller only for a
      reason, and adds one only when the exclusion list and the owner in the
      registry, asked while the event is handled, allow it; the release pass
      settles in one pass, and a restart reads back what was saved.
    - Registry: in every state between two system calls of an operation, and
      whichever of them fail, a reader finds an entry whole or not at all, with
      its stamp unless a call failed; what was written is read back.
    - Keys: after an import the new key can be used and no older key of its
      pair of NQNs is left, but one the kernel refused to revoke, which is
      logged; a key survives export and import; of the texts of the documented
      format exactly those of a key are imported, and the others that are
      imported are characterised; identities carry the HMAC of the two
      NQNs under the retained key and fit the buffers they are written to.  The servers of a KMS are
      asked one by one from the one the caller names on and around, until one
      gives an answer that settles it.  Whatever the configuration file of the
      key daemon holds, the servers that are kept are complete.
    - TTLV and KMIP: any tree of items that fits the depth and size limits is
      encoded and decoded back; the decoder never reads outside of its input;
      the requests are the messages of the protocol; the response parsers
      accept exactly the responses they should and never overrun the caller's
      buffers.
    - Configuration: a configuration is resolved with the cascade of
      parameters its documentation describes, the parser keeps its invariant on
      any text, the emitted text is parsed back, and an installation that fails
      leaves the file system as it was.
    - Transport IDs: parsing the canonical text of a parsed TID gives it
      back; two TIDs are the same for the daemon exactly when their fields are,
      or when there is no memory for either text.
    - Inventory: the referral walk returns the length of the shortest chain
      of referrals within the limit; the updates refine operations on sets and
      a map, whichever allocation fails; the count of pending lookups is right in every interleaving.
    - Exclusions: what add, remove, read and write do to the entries readers
      see, that an add that fails changes nothing, and the two cases in which
      add destroys entries.
    - Commands: the controller reads from a command what the caller meant; in
      particular the storage and reference tags of a command with variable
      sizes are where the specification puts them.  Every sequence of builders
      keeps the members of the command in their C types.
    - Log pages: [libnvme_get_log] fills the caller's buffer with the bytes of
      the page and nothing else; the ANA and discovery log pages are those of
      one moment; the strings of a discovery entry end inside of their fields.
      These hold where the retry hook sends no command again and the ring is
      empty at the start; that the read loses a chunk otherwise, and overruns
      the buffer with forced transfers of 4 KiB, are facts of [GetLogSpec].
    - NVMe-MI: a response handed to the caller fits its integrity check and
      belongs to the request; of one longer than the caller's buffers only the
      leading part does; a corrupted byte is detected; the endpoint may ask for
      more time or answer with an error of its own; event lists are walked
      entry by entry inside of what was received.  The exchanges are those of
      an endpoint that was probed and has no delay between commands.
    - NBFT: the parser never reads outside of the table, and what it returns is
      well formed.
    - Worker pool: in every interleaving each work has one owner, is freed
      once, is reported at most once and not when cancelled; no queued work
      is stranded; after the end of the pool every worker can run and ends; the
      shared structure is freed last and nothing leaks.
    - Shared helpers: base64 and hexadecimal round trips; the CRC against its
      bitwise definition; SHA-256 and HMAC in pieces of any size and alignment
      against the standard; the number, time span and 128-bit conversions;
      quoting yields one shell word; copying stays in its buffer.

    ** Bounds and fuel

    Most recursion is structural on the input.  Elsewhere the fuel is a bound
    the code itself has, and a theorem says that it is enough:
    - [Base64.encode_emit] and [encode_pad] 2 and 3, the most rounds [bits]
      allows; [Ttlv.grow] 64, for it doubles a 64-bit size ([grow_total]);
      [Ttlv.find_loop] the length of its input ([find_loop_fuel]);
      [Inventory.hops] the limit of the source.
    - [GetLog]: the number of chunks ([rounds], [dynamic_rounds], from the
      length); [AnaLog] and [Discovery] the retries of the source.
    - [Mi]: how long an endpoint delays is up to the environment, so the
      theorems about an exchange are for any number of polls; the probe inside
      of a submit does not probe again ([mi_submit_depth]).
    - [Walk]: 9 levels of referrals, one more than the source follows
      ([walk_returns]).
    - [Time.time_loop] the length of the text ([time_loop_returns]),
      [Sha256.process_loop] and [copy_blocks] the length of the data,
      [KmipPsk.on_resolved] the number of servers; [Daemon.backoff_loop] 9, the
      doublings to the largest delay ([backoff_spec]).

    ** Not modelled

    - Input and output without logic of its own: ioctls, sysfs scans, D-Bus,
      Varlink, udev, netlink, mDNS, the terminal, messages to the log; the
      event sources, the construction of units, the control socket and the
      state files of the discovery daemon.
    - OpenSSL, keyutils, TLS and the C library beyond what is stated above;
      floating point entry points of the number parsers.
    - The printing of structures ([src/nvme-print*.c]), the commands of [nvme]
      and the vendor plugins: option handling and formats around library
      calls.  They are most of the lines of the repository, and their
      behaviour is the layout of their output.
    - Privilege separation, other platforms, generated and vendored code. *)

From Stdlib Require Import ZArith Lia Ascii String.
From stdpp Require Import base list gmap numbers.

#[global] Open Scope Z_scope.

(** ** Results of fallible C functions

    A C function that returns [0] or a negative errno, and hands its result
    back through an out parameter, is a function into [result]. *)

(** The errno values the modelled code returns. *)
Inductive errno :=
| EINVAL | ERANGE | ENOMEM | E2BIG | ENOENT | EBADMSG | EOVERFLOW | EPROTO
| EREMOTEIO | ENOTUNIQ | EMSGSIZE | EOPNOTSUPP | EMEDIUMTYPE | ENAMETOOLONG
| ESTALE | EEXIST | EIO | EFBIG | EHOSTUNREACH | ETIMEDOUT | EPERM | EAGAIN
| ENOTSUP | ENODEV | ENOSPC | EBADSLT | EINTR | EALREADY | EISDIR | EACCES
| EADDRINUSE | ECONNREFUSED | EADDRNOTAVAIL | ENOKEY | EKEYREVOKED | ENOTEMPTY.

#[export] Instance errno_eq_dec : EqDecision errno.
Proof. solve_decision. Defined.

Inductive result (A : Type) :=
| Ok (a : A)
| Err (e : errno).
Arguments Ok {A} a.
Arguments Err {A} e.

#[export] Instance result_eq_dec {A} `{EqDecision A} : EqDecision (result A).
Proof. solve_decision. Defined.

#[export] Instance result_ret : MRet result := λ A x, Ok x.
#[export] Instance result_bind : MBind result := λ A B f m,
  match m with Ok x => f x | Err e => Err e end.
#[export] Instance result_fmap : FMap result := λ A B f m,
  match m with Ok x => Ok (f x) | Err e => Err e end.

Definition is_ok {A} (r : result A) : bool :=
  match r with Ok _ => true | Err _ => false end.

Lemma bind_Ok {A B} (m : result A) (f : A → result B) y :
  m ≫= f = Ok y ↔ ∃ x, m = Ok x ∧ f x = Ok y.
Proof. destruct m as [x|e]; cbn; [naive_solver|split; [done|naive_solver]]. Qed.

Lemma bind_Err {A B} (m : result A) (f : A → result B) e :
  m ≫= f = Err e ↔ m = Err e ∨ ∃ x, m = Ok x ∧ f x = Err e.
Proof. destruct m as [x|e']; cbn; naive_solver. Qed.

(** ** Bytes, C strings and machine words

    A byte is an integer in [0, 256); a buffer is a list of bytes; a C string
    is the list of the bytes in front of its terminating NUL. *)

Abbreviation cstr := (list Z) (only parsing).

Definition is_byte (c : Z) : Prop := 0 ≤ c < 256.
Definition bytes (l : list Z) : Prop := Forall is_byte l.
(** A C string holds no NUL. *)
Definition is_cstr (s : list Z) : Prop := Forall (λ c, 0 < c < 256) s.

(** [s[i]] of a C string: its NUL when [i] is the length. *)
Definition char_at (s : list Z) (i : nat) : Z := default 0 (s !! i).

(** A string literal. *)
Definition lit (s : string) : list Z :=
  (λ c, Z.of_N (N_of_ascii c)) <$> list_ascii_of_string s.

Definition u8 (z : Z) : Z := z mod 2 ^ 8.
Definition u16 (z : Z) : Z := z mod 2 ^ 16.
Definition u32 (z : Z) : Z := z mod 2 ^ 32.
Definition u64 (z : Z) : Z := z mod 2 ^ 64.
(** Two's complement reading of a [w]-bit word. *)
Definition to_signed (w z : Z) : Z :=
  if z <? 2 ^ (w - 1) then z else z - 2 ^ w.

(** The integer of a list of little-endian bytes. *)
Fixpoint le (l : list Z) : Z :=
  match l with [] => 0 | b :: l' => b + 256 * le l' end.

(** [n] bytes of a little endian field. *)
Fixpoint to_le (n : nat) (v : Z) : list Z :=
  match n with O => [] | S n' => v mod 256 :: to_le n' (v / 256) end.

Definition UINT32_MAX : Z := 2 ^ 32 - 1.
Definition UINT64_MAX : Z := 2 ^ 64 - 1.

(** Character codes. *)
Abbreviation c_tab := 9 (only parsing).
Abbreviation c_nl := 10 (only parsing).
Abbreviation c_cr := 13 (only parsing).
Abbreviation c_space := 32 (only parsing).
Abbreviation c_hash := 35 (only parsing).
Abbreviation c_percent := 37 (only parsing).
Abbreviation c_quote := 39 (only parsing).
Abbreviation c_plus := 43 (only parsing).
Abbreviation c_comma := 44 (only parsing).
Abbreviation c_minus := 45 (only parsing).
Abbreviation c_dot := 46 (only parsing).
Abbreviation c_0 := 48 (only parsing).
Abbreviation c_9 := 57 (only parsing).
Abbreviation c_colon := 58 (only parsing).
Abbreviation c_semi := 59 (only parsing).
Abbreviation c_eq := 61 (only parsing).
Abbreviation c_A := 65 (only parsing).
Abbreviation c_F := 70 (only parsing).
Abbreviation c_X := 88 (only parsing).
Abbreviation c_Z := 90 (only parsing).
Abbreviation c_lbrack := 91 (only parsing).
Abbreviation c_bslash := 92 (only parsing).
Abbreviation c_rbrack := 93 (only parsing).
Abbreviation c_under := 95 (only parsing).
Abbreviation c_a := 97 (only parsing).
Abbreviation c_f := 102 (only parsing).
Abbreviation c_x := 120 (only parsing).
Abbreviation c_z := 122 (only parsing).

(** [ctype.h] in the C locale. *)
Definition isspace (c : Z) : bool := (c =? 32) || ((9 <=? c) && (c <=? 13)).
Definition isdigit (c : Z) : bool := (48 <=? c) && (c <=? 57).
Definition isxdigit (c : Z) : bool :=
  isdigit c || ((65 <=? c) && (c <=? 70)) || ((97 <=? c) && (c <=? 102)).
Definition isupper (c : Z) : bool := (65 <=? c) && (c <=? 90).
Definition tolower (c : Z) : Z := if isupper c then c + 32 else c.

Example lit_ex : lit "tcp" = [116; 99; 112].
Proof. reflexivity. Qed.

(** ** Bit operations as arithmetic *)

(** Shifting in [n] fresh low bits. *)
Lemma lor_shiftl_add a b n :
  0 ≤ n → 0 ≤ b < 2 ^ n → Z.lor (Z.shiftl a n) b = a * 2 ^ n + b.
Proof.
  intros Hn Hb. rewrite Z.shiftl_mul_pow2 by done.
  assert (Hl : Z.land (a * 2 ^ n) b = 0).
  { apply Z.bits_inj'. intros i Hi. rewrite Z.land_spec, Z.bits_0.
    destruct (Z.ltb_spec i n); [by rewrite Z.mul_pow2_bits_low|].
    rewrite <- (Z.mod_small b (2 ^ n)) by done.
    by rewrite Z.mod_pow2_bits_high, andb_false_r by lia. }
  by rewrite <- Z.lxor_lor, <- Z.add_nocarry_lxor.
Qed.

Lemma u32_small z : 0 ≤ z < 2 ^ 32 → u32 z = z.
Proof. apply Z.mod_small. Qed.
Lemma u64_small z : 0 ≤ z < 2 ^ 64 → u64 z = z.
Proof. apply Z.mod_small. Qed.

Lemma land_ones_mod a n : 0 ≤ n → Z.land a (2 ^ n - 1) = a mod 2 ^ n.
Proof.
  intros Hn. rewrite <- Z.land_ones by done. by rewrite Z.ones_equiv, Z.sub_1_r.
Qed.

(** Goals about division and remainder by constants. *)
Ltac divmod := Z.div_mod_to_equations; lia.
(** The same on [nat]. *)
Ltac ndivmod :=
  zify; rewrite ?Nat2Z.inj_mod, ?Nat2Z.inj_div in *; zify; divmod.

(** Splits a conjunction of boolean tests in a hypothesis into propositions. *)
Ltac to_prop :=
  repeat match goal with
  | H : (_ && _) = true |- _ => apply andb_true_iff in H as [? ?]
  | H : (_ || _) = false |- _ => apply orb_false_iff in H as [? ?]
  | H : negb _ = true |- _ => apply negb_true_iff in H
  | H : negb _ = false |- _ => apply negb_false_iff in H
  | H : (_ =? _) = true |- _ => apply Z.eqb_eq in H
  | H : (_ =? _) = false |- _ => apply Z.eqb_neq in H
  | H : (_ <=? _) = true |- _ => apply Z.leb_le in H
  | H : (_ <=? _) = false |- _ => apply Z.leb_gt in H
  | H : (_ <? _) = true |- _ => apply Z.ltb_lt in H
  | H : (_ <? _) = false |- _ => apply Z.ltb_ge in H
  | H : bool_decide _ = true |- _ => apply bool_decide_eq_true in H
  | H : bool_decide _ = false |- _ => apply bool_decide_eq_false in H
  end.

(** ** The development's hint database: byte ranges *)

Create HintDb nvme.

Lemma bytes_cons c l : bytes (c :: l) ↔ is_byte c ∧ bytes l.
Proof. apply list.Forall_cons. Qed.

Lemma bytes_app l k : bytes (l ++ k) ↔ bytes l ∧ bytes k.
Proof. apply Forall_app. Qed.

Lemma bytes_nil : bytes [].
Proof. constructor. Qed.

Lemma bytes_take n l : bytes l → bytes (take n l).
Proof. apply Forall_take. Qed.

Lemma bytes_drop n l : bytes l → bytes (drop n l).
Proof. apply Forall_drop. Qed.

Lemma bytes_forallb l : forallb (λ c, (0 <=? c) && (c <? 256)) l = true → bytes l.
Proof.
  rewrite forallb_forall. intros H. apply list.Forall_forall. intros c Hc%list_elem_of_In%H.
  apply andb_true_iff in Hc. unfold is_byte. lia.
Qed.

Lemma le_bound l : bytes l → 0 ≤ le l < 2 ^ (8 * Z.of_nat (length l)).
Proof.
  induction l as [|b l IH]; cbn [le length]; [done|]. intros [Hb Hl]%bytes_cons. specialize (IH Hl).
  unfold is_byte in Hb. rewrite Nat2Z.inj_succ.
  replace (8 * Z.succ (Z.of_nat (length l))) with (8 + 8 * Z.of_nat (length l)) by lia.
  rewrite Z.pow_add_r by lia. lia.
Qed.

Lemma to_le_length n v : length (to_le n v) = n.
Proof. revert v. induction n as [|n IH]; intros v; simpl; [done|]. by rewrite IH. Qed.

Lemma to_le_bytes n v : bytes (to_le n v).
Proof.
  revert v. induction n as [|n IH]; intros v; simpl; [constructor|].
  constructor; [|apply IH]. apply Z.mod_pos_bound. lia.
Qed.

Lemma le_to_le n v : 0 ≤ v < 2 ^ (8 * Z.of_nat n) → le (to_le n v) = v.
Proof.
  revert v. induction n as [|n IH]; intros v Hv; cbn [to_le le].
  - replace (8 * Z.of_nat 0) with 0 in Hv by lia. lia.
  - rewrite IH; [pose proof (Z.div_mod v 256); lia|].
    replace (8 * Z.of_nat (S n)) with (8 + 8 * Z.of_nat n) in Hv by lia.
    rewrite Z.pow_add_r in Hv by lia. change (2 ^ 8) with 256 in Hv.
    split; [apply Z.div_pos; lia|apply Z.div_lt_upper_bound; lia].
Qed.

Lemma to_le_le l : bytes l → to_le (length l) (le l) = l.
Proof.
  induction 1 as [|b l Hb Hl IH]; cbn [length to_le le]; [done|]. unfold is_byte in Hb.
  rewrite (Z.mul_comm 256), Z.mod_add, Z.mod_small, Z.div_add, Z.div_small, Z.add_0_l, IH by lia. done.
Qed.

Lemma le_app l k : le (l ++ k) = le l + 2 ^ (8 * Z.of_nat (length l)) * le k.
Proof.
  induction l as [|b l IH]; cbn [le length app]; [lia|]. rewrite IH, Nat2Z.inj_succ.
  replace (8 * Z.succ (Z.of_nat (length l))) with (8 + 8 * Z.of_nat (length l)) by lia.
  rewrite Z.pow_add_r by lia. lia.
Qed.

Lemma cstr_bytes s : is_cstr s → bytes s.
Proof. intros H. eapply list.Forall_impl; [exact H|]. unfold is_byte. simpl. lia. Qed.

Lemma u8_byte z : is_byte (u8 z).
Proof. apply Z.mod_pos_bound. lia. Qed.

#[export] Hint Resolve bytes_nil bytes_take bytes_drop cstr_bytes u8_byte : nvme.
