(* ===== verification/CStr.v ===== *)
(** * C strings: [shared/string-util.c] and [shared/string-util.h]

    The string functions of the C library the code calls ([strspn],
    [strcspn], [strchr], [strtok_r], ...) and every helper of string-util,
    as functions on byte lists.  Functions that write into a caller's buffer
    take the buffer and return it updated; bytes past the string are part of
    the model, so that the bounds theorems speak about the whole buffer. *)

From Stdlib Require Import String.
From stdpp Require Import base list numbers sets.
From S2P Require Import Prelude.

(** ** The C library *)

Fixpoint take_while (p : Z → bool) (s : list Z) : list Z :=
  match s with
  | [] => []
  | c :: s' => if p c then c :: take_while p s' else []
  end.

Fixpoint drop_while (p : Z → bool) (s : list Z) : list Z :=
  match s with
  | [] => []
  | c :: s' => if p c then drop_while p s' else s
  end.

(** Output of a loop that writes [f c] for each character [c]. *)
Fixpoint concat_map (f : Z → list Z) (s : list Z) : list Z :=
  match s with
  | [] => []
  | c :: s' => f c ++ concat_map f s'
  end.

(** Is [c] one of the characters of [set]? *)
Definition in_set (set : list Z) (c : Z) : bool := existsb (Z.eqb c) set.

Definition strspn (s set : list Z) : nat := length (take_while (in_set set) s).
Definition strcspn (s set : list Z) : nat :=
  length (take_while (λ c, negb (in_set set c)) s).
Definition strnlen (b : list Z) (n : nat) : nat :=
  length (take_while (λ c, negb (c =? 0)) (take n b)).

(** The string a buffer holds: the bytes in front of the first NUL. *)
Definition buf_str (b : list Z) : list Z := take_while (λ c, negb (c =? 0)) b.

(** [strchr(s, c)], and the two strings around the character found. *)
Fixpoint split_char (c : Z) (s : list Z) : option (list Z * list Z) :=
  match s with
  | [] => None
  | x :: s' =>
      if x =? c then Some ([], s')
      else '(a, b) ← split_char c s'; Some (x :: a, b)
  end.

(** The strings between the occurrences of [c], empty ones included: what a
    [strsep()] loop yields. *)
Fixpoint fields (c : Z) (s : list Z) : list (list Z) :=
  match s with
  | [] => [[]]
  | x :: s' =>
      if x =? c then [] :: fields c s'
      else match fields c s' with
           | f :: fs => (x :: f) :: fs
           | [] => [[x]]
           end
  end.

Definition nonempty (s : list Z) : bool := negb (length s =? 0)%nat.

(** The tokens a [strtok_r()] loop yields: it skips empty fields. *)
Definition strtok (c : Z) (s : list Z) : list (list Z) :=
  List.filter nonempty (fields c s).

Definition str_eqb (a b : list Z) : bool := bool_decide (a = b).
Definition strcaseeq (a b : list Z) : bool :=
  str_eqb (tolower <$> a) (tolower <$> b).

(** [memcpy(b + off, l, len)] *)
Definition buf_write (b : list Z) (off : nat) (l : list Z) : list Z :=
  take off b ++ l ++ drop (off + length l) b.

(** ** string-util.h *)

(** One step of [strsep]: the token, and the rest or [None] at the end. *)
Definition shr_strsep (stringp : option (list Z)) (delim : list Z) :
    option (list Z * option (list Z)) :=
  s ← stringp;
  let n := strcspn s delim in
  Some (take n s, if decide (n < length s)%nat then Some (drop (S n) s) else None).

Definition shr_streq0 (s1 s2 : option (list Z)) : bool :=
  match s1, s2 with
  | None, None => true
  | Some a, Some b => str_eqb a b
  | _, _ => false
  end.

Definition shr_streqcase0 (s1 s2 : option (list Z)) : bool :=
  match s1, s2 with
  | None, None => true
  | Some a, Some b => strcaseeq a b
  | _, _ => false
  end.

Definition shr_strtolower (s : list Z) : list Z := tolower <$> s.

(** The [end] pointer of [shr_rtrim] walks down while a space precedes it. *)
Fixpoint rtrim_end (s : list Z) (e : nat) : nat :=
  match e with
  | O => O
  | S e' => if isspace (char_at s e') then rtrim_end s e' else e
  end.

Definition shr_rtrim (s : list Z) : list Z := take (rtrim_end s (length s)) s.

Definition shr_buf2str (s : list Z) (sz : nat) : list Z :=
  shr_rtrim (buf_str (take sz s)).

Definition blanks : list Z := [32; 9; 10; 13; 11; 12]. (* " \t\n\r\v\f" *)
Definition shr_ltrim (s : list Z) : list Z := drop (strspn s blanks) s.
Definition shr_trim (s : list Z) : list Z := shr_ltrim (shr_rtrim s).

Definition shr_name_char (c : Z) : bool :=
  ((c_a <=? c) && (c <=? c_z)) || ((c_A <=? c) && (c <=? c_Z)) ||
  ((c_0 <=? c) && (c <=? c_9)) || (c =? c_under) || (c =? c_minus).

Definition shr_valid_name (s : option (list Z)) : bool :=
  match s with
  | None => false
  | Some s => nonempty s && forallb shr_name_char s
  end.

Definition shr_sanitize_name (s : list Z) : list Z :=
  (λ c, if shr_name_char c then c else c_under) <$> s.

Definition shr_startswith (s prefix : list Z) : option (list Z) :=
  if bool_decide (take (length prefix) s = prefix)
  then Some (drop (length prefix) s) else None.

(** The [while (s >= kv && blank)] loop of [shr_kv_strip], from [e - 1] down. *)
Fixpoint kv_rstrip (s : list Z) (e : nat) : nat :=
  match e with
  | O => O
  | S e' => if in_set [32; 9] (char_at s e') then kv_rstrip s e' else e
  end.

Definition shr_kv_strip (kv : list Z) : list Z :=
  let kv := take (strcspn kv [10; 13]) kv in
  let kv := drop (strspn kv [32; 9; 10; 13]) kv in
  if (char_at kv 0 =? c_hash) || (char_at kv 0 =? 0) then []
  else
    let kv := take (strcspn kv [10; 13]) kv in
    let kv := take (strcspn kv [c_hash]) kv in
    take (kv_rstrip kv (length kv)) kv.

Definition shr_kv_keymatch (kv key : list Z) : option (list Z) :=
  value ← shr_startswith kv key;
  if in_set [32; 9; 61] (char_at value 0)
  then Some (drop (strspn value [32; 9; 61]) value) else None.

Definition shr_linelen (s : option (list Z)) : nat :=
  match s with
  | None => O
  | Some s => length (take_while (λ c, negb (c =? c_nl)) s)
  end.

(** ** string-util.c *)

Definition is_ctl (c : Z) : bool := (c <? 32) || (c =? 127).

Definition hex_digit_lc (d : Z) : Z := if d <? 10 then c_0 + d else c_a + (d - 10).

(** [n] of [shr_escape]: the bytes it allocates. *)
Definition shr_escape_size (s : list Z) : nat :=
  foldl (λ n c, (n + if is_ctl c then 4 else 1)%nat) 1%nat s.

Definition shr_escape (s : list Z) : list Z :=
  concat_map (λ c,
    if is_ctl c
    then [c_bslash; c_x; hex_digit_lc (c / 16); hex_digit_lc (c mod 16)]
    else [c]) s.

Definition shr_shell_quote_size (s : list Z) : nat :=
  foldl (λ n c, (n + if (c =? c_quote)%Z then 4 else 1)%nat) 3%nat s.

Definition shr_shell_quote (s : list Z) : list Z :=
  [c_quote] ++
  concat_map (λ c,
    if c =? c_quote then [c_quote; c_bslash; c_quote; c_quote] else [c]) s ++
  [c_quote].

(** Both return the updated buffer with the return value. *)
Definition shr_strscpy (dst src : list Z) (size : nat) : result nat * list Z :=
  if (size =? 0)%nat then (Err E2BIG, dst)
  else
    let len := (length src `min` size)%nat in
    if (len =? size)%nat
    then (Err E2BIG, buf_write dst 0 (take (size - 1) src ++ [0]))
    else (Ok len, buf_write dst 0 (src ++ [0])).

Definition shr_strscat (dst src : list Z) (size : nat) : result nat * list Z :=
  let len := strnlen dst size in
  if (len =? size)%nat then (Err E2BIG, dst)
  else
    let '(n, tail) := shr_strscpy (drop len dst) src (size - len) in
    ((λ n, (len + n)%nat) <$> n, take len dst ++ tail).

(** [text] is the formatted text, [None] when formatting fails. *)
Definition shr_snprintf_append (buf : list Z) (size len : nat)
    (text : option (list Z)) : result () * list Z * nat :=
  if (size =? 0)%nat || (size - 1 <=? len)%nat then (Err E2BIG, buf, len)
  else
    match text with
    | None => (Err EINVAL, buf, len)
    | Some t =>
        let buf' := buf_write buf len (take (size - len - 1) t ++ [0]) in
        if (size - len <=? length t)%nat then (Err E2BIG, buf', (size - 1)%nat)
        else (Ok tt, buf', (len + length t)%nat)
    end.

(** ** Specification of POSIX single-quote lexing

    How a shell reads one word (POSIX, Shell Command Language 2.2): outside
    quotes a backslash makes the next character literal, a single quote opens
    a quoted part in which every character but the closing quote is literal.
    A character that is special outside quotes ends the word and is refused
    here, since the text is then not one word. *)

Definition sh_special (c : Z) : bool :=
  in_set (lit "|&;<>()$`*?[]#~=%!{}" ++ [34; 32; 9; 10]) c.

Fixpoint sh_lex (quoted : bool) (s : list Z) : option (list Z) :=
  match s with
  | [] => if quoted then None else Some []
  | c :: s' =>
      if quoted then
        if c =? c_quote then sh_lex false s' else (c ::.) <$> sh_lex true s'
      else if c =? c_quote then sh_lex true s'
      else if c =? c_bslash then
        match s' with
        | [] => None
        | d :: s'' => (d ::.) <$> sh_lex false s''
        end
      else if sh_special c then None
      else (c ::.) <$> sh_lex false s'
  end.

Definition sh_word (s : list Z) : option (list Z) := sh_lex false s.

(** ** Lemmas on the C library functions *)

Lemma take_while_drop_while p s : take_while p s ++ drop_while p s = s.
Proof. induction s as [|c s IH]; simpl; [done|]. destruct (p c); simpl; congruence. Qed.

Lemma drop_take_while p s : drop (length (take_while p s)) s = drop_while p s.
Proof. induction s as [|c s IH]; simpl; [done|]. destruct (p c); simpl; done. Qed.

Lemma take_take_while p s : take (length (take_while p s)) s = take_while p s.
Proof. induction s as [|c s IH]; simpl; [done|]. destruct (p c); simpl; congruence. Qed.

Lemma take_while_all p s : forallb p (take_while p s) = true.
Proof. induction s as [|c s IH]; simpl; [done|]. destruct (p c) eqn:E; simpl; [by rewrite E|done]. Qed.

Lemma take_while_id p s : forallb p s = true → take_while p s = s.
Proof.
  induction s as [|c s IH]; simpl; [done|].
  intros [-> H]%andb_true_iff. by rewrite IH.
Qed.

Lemma take_while_app_all p l s :
  forallb p l = true → take_while p (l ++ s) = l ++ take_while p s.
Proof.
  induction l as [|c l IH]; simpl; [done|].
  intros [-> H]%andb_true_iff. by rewrite IH.
Qed.

Lemma take_while_app_stop p l c s :
  forallb p l = true → p c = false → take_while p (l ++ c :: s) = l.
Proof.
  intros Hl Hc. rewrite take_while_app_all by done. simpl. by rewrite Hc, app_nil_r.
Qed.

Lemma drop_while_head p s c s' : drop_while p s = c :: s' → p c = false.
Proof.
  induction s as [|x s IH]; simpl; [done|]. destruct (p x) eqn:E; [done|]. congruence.
Qed.

Lemma take_while_length p s : (length (take_while p s) ≤ length s)%nat.
Proof. induction s as [|c s IH]; simpl; [lia|]. destruct (p c); simpl; lia. Qed.

Lemma forallb_Forall p (s : list Z) : forallb p s = true ↔ Forall (λ c, p c = true) s.
Proof.
  induction s as [|c s IH]; simpl; [done|].
  rewrite andb_true_iff, IH, list.Forall_cons. done.
Qed.

Lemma nonempty_spec s : nonempty s = true ↔ s ≠ [].
Proof. destruct s; unfold nonempty; simpl; naive_solver. Qed.

Lemma split_char_spec c s a b :
  split_char c s = Some (a, b) ↔ s = a ++ c :: b ∧ c ∉ a.
Proof.
  revert a b. induction s as [|x s IH]; intros a b; simpl.
  { split; [done|]. by intros [?%app_cons_not_nil _]. }
  destruct (Z.eqb_spec x c) as [->|Hne].
  - split; [intros [= <- <-]; split; [done|set_solver]|].
    intros [H Hin]. destruct a as [|y a]; simplify_eq/=; [done|]. set_solver.
  - destruct (split_char c s) as [[a' b']|] eqn:E; simpl.
    + split.
      * intros [= <- <-]. destruct (proj1 (IH a' b') eq_refl) as [-> ?].
        split; [done|set_solver].
      * intros [H Hin]. destruct a as [|y a]; simplify_eq/=.
        assert (Some (a', b') = Some (a, b)) as [= -> ->]; [|done].
        apply IH. set_solver.
    + split; [done|]. intros [H Hin]. destruct a as [|y a]; simplify_eq/=.
      assert (None = Some (a, b)); [|done]. apply IH. set_solver.
Qed.

Lemma split_char_None c s : split_char c s = None ↔ c ∉ s.
Proof.
  induction s as [|x s IH]; simpl; [set_solver|].
  destruct (Z.eqb_spec x c) as [->|Hne]; [set_solver|].
  destruct (split_char c s) as [[a b]|]; simpl; rewrite elem_of_cons; naive_solver.
Qed.

Lemma in_blanks c : in_set blanks c = isspace c.
Proof.
  unfold in_set, isspace; simpl.
  repeat match goal with |- context [?a =? ?b] => destruct (Z.eqb_spec a b) end;
    repeat match goal with |- context [?a <=? ?b] => destruct (Z.leb_spec a b) end;
    simpl; try done; lia.
Qed.

Lemma take_while_ext p q s : (∀ c, p c = q c) → take_while p s = take_while q s.
Proof. intros H. induction s as [|c s IH]; simpl; [done|]. by rewrite H, IH. Qed.

Lemma drop_while_ext p q s : (∀ c, p c = q c) → drop_while p s = drop_while q s.
Proof. intros H. induction s as [|c s IH]; simpl; [done|]. by rewrite H, IH. Qed.

Lemma fields_single c s : c ∉ s → fields c s = [s].
Proof.
  induction s as [|x s IH]; [done|]. intros Hn. cbn [fields].
  destruct (Z.eqb_spec x c); [set_solver|]. by rewrite IH by set_solver.
Qed.

Lemma fields_sep c s r : c ∉ s → fields c (s ++ c :: r) = s :: fields c r.
Proof.
  induction s as [|x s IH]; intros Hn; cbn [fields app]; [by rewrite Z.eqb_refl|].
  destruct (Z.eqb_spec x c); [set_solver|]. by rewrite IH by set_solver.
Qed.

(** ** Trimming *)

Lemma shr_ltrim_drop_while s : shr_ltrim s = drop_while isspace s.
Proof.
  unfold shr_ltrim, strspn. rewrite drop_take_while. apply drop_while_ext, in_blanks.
Qed.

Lemma rtrim_end_le s e : (rtrim_end s e ≤ e)%nat.
Proof. induction e as [|e IH]; simpl; [lia|]. destruct (isspace _); lia. Qed.

Lemma rtrim_end_spaces s e i :
  (rtrim_end s e ≤ i < e)%nat → isspace (char_at s i) = true.
Proof.
  induction e as [|e IH]; simpl; [lia|].
  destruct (isspace (char_at s e)) eqn:E; [|lia].
  intros [H1 H2]. destruct (decide (i = e)) as [->|]; [done|]. apply IH; lia.
Qed.

Lemma rtrim_end_stop s e :
  (0 < rtrim_end s e)%nat → isspace (char_at s (rtrim_end s e - 1)) = false.
Proof.
  induction e as [|e IH]; simpl; [lia|].
  destruct (isspace (char_at s e)) eqn:E; [done|].
  intros _. by replace (S e - 1)%nat with e by lia.
Qed.

Lemma shr_rtrim_split s :
  ∃ r, s = shr_rtrim s ++ r ∧ forallb isspace r = true.
Proof.
  exists (drop (rtrim_end s (length s)) s).
  split; [by unfold shr_rtrim; rewrite take_drop|].
  apply forallb_Forall, Forall_lookup. intros i c Hi.
  rewrite lookup_drop in Hi.
  pose proof (lookup_lt_Some _ _ _ Hi).
  rewrite <- (rtrim_end_spaces s (length s) (rtrim_end s (length s) + i)) by lia.
  unfold char_at. by rewrite Hi.
Qed.

Lemma shr_rtrim_last s c l : shr_rtrim s = l ++ [c] → isspace c = false.
Proof.
  unfold shr_rtrim. intros H.
  assert (Hlen : length (take (rtrim_end s (length s)) s) = S (length l))
    by (rewrite H, length_app; simpl; lia).
  rewrite length_take in Hlen. pose proof (rtrim_end_le s (length s)).
  rewrite <- (rtrim_end_stop s (length s)) by lia.
  f_equal. unfold char_at.
  rewrite <- (lookup_take_lt s (rtrim_end s (length s))) by lia. rewrite H.
  replace (rtrim_end s (length s) - 1)%nat with (length l) by lia.
  by rewrite lookup_app_r, Nat.sub_diag by lia.
Qed.

(** A string with no space at either end. *)
Definition trimmed (s : list Z) : Prop :=
  isspace (char_at s 0) = false ∧
  ∀ l c, s = l ++ [c] → isspace c = false.

Lemma shr_rtrim_id s : (∀ l c, s = l ++ [c] → isspace c = false) → shr_rtrim s = s.
Proof.
  intros H. unfold shr_rtrim. destruct s as [|c l _] using rev_ind; [done|].
  rewrite length_app, Nat.add_1_r. simpl.
  unfold char_at at 1. rewrite lookup_app_r, Nat.sub_diag by lia. simpl.
  rewrite (H l c eq_refl). rewrite take_ge; [done|]. rewrite length_app; simpl; lia.
Qed.

Lemma isspace_NUL : isspace 0 = false.
Proof. done. Qed.

Lemma shr_trim_id s : trimmed s → shr_trim s = s.
Proof.
  intros [Hh Hl]. unfold shr_trim. rewrite shr_rtrim_id by done.
  rewrite shr_ltrim_drop_while. destruct s as [|c s]; [done|].
  change (char_at (c :: s) 0) with c in Hh. simpl. by rewrite Hh.
Qed.

Lemma shr_trim_trimmed s : trimmed (shr_trim s).
Proof.
  unfold shr_trim. rewrite shr_ltrim_drop_while. split.
  - destruct (drop_while isspace (shr_rtrim s)) as [|c s'] eqn:E; [done|].
    by apply drop_while_head in E.
  - intros l c H. eapply shr_rtrim_last.
    rewrite <- (take_while_drop_while isspace (shr_rtrim s)), H.
    by rewrite app_assoc.
Qed.

Lemma shr_trim_split s :
  ∃ l r, s = l ++ shr_trim s ++ r ∧ forallb isspace l = true ∧ forallb isspace r = true.
Proof.
  destruct (shr_rtrim_split s) as (r & Hs & Hr).
  exists (take_while isspace (shr_rtrim s)), r.
  rewrite take_while_all. split; [|done].
  unfold shr_trim. rewrite shr_ltrim_drop_while, app_assoc, take_while_drop_while. done.
Qed.

Lemma shr_trim_elem c s : c ∈ shr_trim s → c ∈ s.
Proof.
  intros H. destruct (shr_trim_split s) as (l & r & Hs & _). rewrite Hs. set_solver.
Qed.

Lemma rtrim_end_app s t e : (e ≤ length s)%nat → rtrim_end (s ++ t) e = rtrim_end s e.
Proof.
  induction e as [|e IH]; simpl; [done|]. intros He.
  unfold char_at. rewrite lookup_app_l by lia.
  destruct (isspace (default 0 (s !! e))); [apply IH; lia|done].
Qed.

Lemma shr_rtrim_blank s r : forallb isspace r = true → shr_rtrim (s ++ r) = shr_rtrim s.
Proof.
  induction r as [|c r IH] using rev_ind; [by rewrite app_nil_r|].
  rewrite forallb_app. intros [Hr Hc]%andb_true_iff. simpl in Hc. rewrite andb_true_r in Hc.
  rewrite <- IH by done. rewrite app_assoc. unfold shr_rtrim.
  rewrite (length_app _ [c]), Nat.add_1_r. simpl.
  unfold char_at at 1. rewrite lookup_app_r, Nat.sub_diag by lia. simpl. rewrite Hc.
  rewrite rtrim_end_app by lia. apply take_app_le, rtrim_end_le.
Qed.

Lemma drop_while_app_all p l s : forallb p l = true → drop_while p (l ++ s) = drop_while p s.
Proof. induction l as [|c l IH]; simpl; [done|]. by intros [-> ?%IH]%andb_true_iff. Qed.

Lemma trimmed_last s c : trimmed (s ++ [c]) → isspace c = false.
Proof. intros [_ H]. by eapply H. Qed.

(** Trimming finds a trimmed string between blanks. *)
Lemma shr_trim_pad l s r :
  forallb isspace l = true → forallb isspace r = true → trimmed s →
  shr_trim (l ++ s ++ r) = s.
Proof.
  intros Hl Hr Hs. unfold shr_trim. rewrite app_assoc, shr_rtrim_blank by done.
  destruct s as [|c s _] using rev_ind.
  - rewrite app_nil_r. rewrite <- (app_nil_l l), shr_rtrim_blank by done. done.
  - rewrite shr_rtrim_id.
    + rewrite shr_ltrim_drop_while, drop_while_app_all by done.
      rewrite <- shr_ltrim_drop_while. rewrite <- (shr_trim_id (s ++ [c])) at 2 by done.
      unfold shr_trim. rewrite shr_rtrim_id; [done|]. apply Hs.
    + intros k d Heq. rewrite app_assoc in Heq. apply app_inj_tail in Heq as [_ <-].
      by eapply trimmed_last.
Qed.

(** ** Writing into buffers *)

Lemma buf_write_length b off l :
  (off + length l ≤ length b)%nat → length (buf_write b off l) = length b.
Proof.
  intros H. unfold buf_write. rewrite !length_app, length_take, length_drop. lia.
Qed.

Lemma buf_write_before b off l i :
  (off ≤ length b)%nat → (i < off)%nat → buf_write b off l !! i = b !! i.
Proof.
  intros H1 H2. unfold buf_write.
  rewrite lookup_app_l by (rewrite length_take; lia). by apply lookup_take_lt.
Qed.

Lemma buf_write_after b off l i :
  (off + length l ≤ length b)%nat → (off + length l ≤ i)%nat →
  buf_write b off l !! i = b !! i.
Proof.
  intros H1 H2. unfold buf_write.
  rewrite lookup_app_r, lookup_app_r by (rewrite length_take; lia).
  rewrite lookup_drop, length_take. f_equal. lia.
Qed.

Lemma buf_write_lookup b off d i :
  (off + length d ≤ length b)%nat →
  buf_write b off d !! i = if decide (off ≤ i < off + length d)%nat then d !! (i - off)%nat else b !! i.
Proof.
  intros Hl. unfold buf_write. destruct (decide _) as [Hi|Hi].
  - rewrite lookup_app_r by (rewrite length_take; lia). rewrite length_take_le by lia.
    by rewrite lookup_app_l by lia.
  - destruct (decide (i < off)%nat) as [Hlt|Hge].
    + rewrite lookup_app_l by (rewrite length_take; lia). by rewrite lookup_take_lt.
    + rewrite lookup_app_r by (rewrite length_take; lia). rewrite length_take_le by lia.
      rewrite lookup_app_r by lia. rewrite lookup_drop. f_equal. lia.
Qed.

Lemma buf_str_cstr_NUL s r : is_cstr s → buf_str (s ++ 0 :: r) = s.
Proof.
  intros H. unfold buf_str. apply take_while_app_stop; [|done].
  apply forallb_Forall. eapply list.Forall_impl; [exact H|]. intros c; simpl. lia.
Qed.

Lemma is_cstr_take n s : is_cstr s → is_cstr (take n s).
Proof. apply Forall_take. Qed.

Lemma buf_str_is_cstr b : bytes b → is_cstr (buf_str b).
Proof.
  unfold buf_str. induction 1 as [|c b Hc Hb IH]; simpl; [constructor|].
  unfold is_byte in Hc. destruct (Z.eqb_spec c 0); simpl; constructor; [lia|done].
Qed.

(** What [shr_strscpy] leaves in the buffer, whether or not the string fits. *)
Lemma shr_strscpy_result dst src size :
  (0 < size ≤ length dst)%nat →
  snd (shr_strscpy dst src size) = buf_write dst 0 (take (size - 1) src ++ [0]) ∧
  fst (shr_strscpy dst src size) =
    (if (length src <? size)%nat then Ok (length src) else Err E2BIG).
Proof.
  intros H. unfold shr_strscpy.
  destruct (Nat.eqb_spec size 0); [lia|].
  destruct (Nat.ltb_spec (length src) size).
  - rewrite Nat.min_l by lia.
    destruct (Nat.eqb_spec (length src) size); [lia|]. by rewrite take_ge by lia.
  - rewrite Nat.min_r by lia. by rewrite Nat.eqb_refl.
Qed.

Lemma strnlen_take b n : is_cstr (take (strnlen b n) b) ∨ ¬ bytes b.
Proof.
  destruct (decide (Forall (λ c, 0 ≤ c ∧ c < 256) b)) as [Hb|Hb]; [left|by right].
  unfold strnlen.
  assert (Heq : take (length (take_while (λ c, negb (c =? 0)) (take n b))) b =
                take_while (λ c, negb (c =? 0)) (take n b)).
  { pose proof (take_while_length (λ c, negb (c =? 0)) (take n b)) as Hl.
    rewrite length_take in Hl.
    rewrite <- (take_take_while _ (take n b)) at 2. rewrite take_take. f_equal. lia. }
  rewrite Heq. apply (buf_str_is_cstr (take n b)). apply Forall_take. exact Hb.
Qed.

(** The text [shr_escape] writes for one character, and how much room it
    counts for it. *)
Lemma foldl_size (f : Z → nat) (g : Z → list Z) (s : list Z) (n : nat) :
  (∀ c, length (g c) = f c) →
  foldl (λ n c, (n + f c)%nat) n s = (n + length (concat_map g s))%nat.
Proof.
  intros Hg. revert n. induction s as [|c s IH]; intros n; [simpl; lia|].
  simpl. rewrite IH, length_app, Hg. lia.
Qed.

Lemma sh_lex_quoted_body s r :
  sh_lex true (concat_map (λ c,
    if c =? c_quote then [c_quote; c_bslash; c_quote; c_quote] else [c]) s ++ r) =
  (s ++.) <$> sh_lex true r.
Proof.
  induction s as [|c s IH]; simpl.
  { by destruct (sh_lex true r). }
  destruct (Z.eqb_spec c c_quote) as [->|Hne]; simpl.
  - rewrite IH. by destruct (sh_lex true r).
  - rewrite (proj2 (Z.eqb_neq _ _) Hne), IH. by destruct (sh_lex true r).
Qed.

Lemma hex_digit_lc_printable d : 0 ≤ d < 16 → is_ctl (hex_digit_lc d) = false.
Proof.
  intros H. unfold is_ctl, hex_digit_lc. destruct (Z.ltb_spec d 10).
  - rewrite orb_false_iff, Z.ltb_ge, Z.eqb_neq. lia.
  - rewrite orb_false_iff, Z.ltb_ge, Z.eqb_neq. lia.
Qed.

(** ** Properties *)

(** [shr_trim] removes exactly the white space at the two ends of a
    string: the string is the result between two runs of white space, the
    result neither starts nor ends with white space, and trimming again
    changes nothing. *)
Theorem shr_trim_spec s :
  (∃ l r, s = l ++ shr_trim s ++ r ∧
          forallb isspace l = true ∧ forallb isspace r = true) ∧
  trimmed (shr_trim s) ∧ shr_trim (shr_trim s) = shr_trim s.
Proof.
  split; [apply shr_trim_split|]. split; [apply shr_trim_trimmed|].
  apply shr_trim_id, shr_trim_trimmed.
Qed.

(** what [shr_shell_quote] writes is read by a POSIX shell as one word,
    the string unchanged, whatever bytes it holds, and the string with its
    terminator fills exactly the bytes that were allocated. *)
Theorem shr_shell_quote_one_word s :
  sh_word (shr_shell_quote s) = Some s ∧
  shr_shell_quote_size s = S (length (shr_shell_quote s)).
Proof.
  split.
  - unfold sh_word, shr_shell_quote. simpl. rewrite sh_lex_quoted_body. simpl.
    by rewrite app_nil_r.
  - unfold shr_shell_quote_size, shr_shell_quote.
    rewrite (foldl_size (λ c, if (c =? c_quote)%Z then 4 else 1)%nat
      (λ c, if c =? c_quote then [c_quote; c_bslash; c_quote; c_quote] else [c])).
    + rewrite !length_app. simpl. lia.
    + intros c. by destruct (c =? c_quote).
Qed.

(** [shr_escape] leaves no control character in its output, leaves a
    string without control characters as it is, and its output with the
    terminator fills exactly the bytes that were allocated. *)
Theorem shr_escape_printable s :
  bytes s →
  forallb (λ c, negb (is_ctl c)) (shr_escape s) = true ∧
  (forallb (λ c, negb (is_ctl c)) s = true → shr_escape s = s) ∧
  shr_escape_size s = S (length (shr_escape s)).
Proof.
  intros Hb. split; [|split].
  - unfold shr_escape. induction Hb as [|c s Hc Hs IH]; simpl; [done|].
    unfold is_byte in Hc.
    destruct (is_ctl c) eqn:E; simpl; rewrite ?E; simpl; rewrite ?IH; try done.
    rewrite !hex_digit_lc_printable; [done|..].
    + apply Z.mod_pos_bound; lia.
    + split; [apply Z.div_pos; lia|apply Z.div_lt_upper_bound; lia].
  - clear Hb. unfold shr_escape. induction s as [|c s IH]; simpl; [done|].
    destruct (is_ctl c) eqn:E; simpl; [done|]. intros H. by rewrite IH.
  - unfold shr_escape_size, shr_escape.
    rewrite (foldl_size (λ c, if is_ctl c then 4 else 1)%nat
      (λ c, if is_ctl c then [c_bslash; c_x; hex_digit_lc (c / 16); hex_digit_lc (c mod 16)]
            else [c])); [lia|].
    intros c. by destruct (is_ctl c).
Qed.

Lemma shr_escape_printable_witness :
  forallb (λ c, negb (is_ctl c)) (shr_escape [97; 10; 27]) = true.
Proof.
  refine (proj1 (shr_escape_printable [97; 10; 27] _)).
  repeat constructor; unfold is_byte; lia.
Defined.

Lemma shr_strscpy_post dst src size :
  (size ≤ length dst)%nat → is_cstr src →
  let '(r, dst') := shr_strscpy dst src size in
  length dst' = length dst ∧
  (∀ i, (size ≤ i)%nat → dst' !! i = dst !! i) ∧
  ((0 < size)%nat → buf_str dst' = take (size - 1) src ∧
     dst' !! (length src `min` (size - 1))%nat = Some 0) ∧
  r = if (length src <? size)%nat then Ok (length src) else Err E2BIG.
Proof.
  intros Hsz Hsrc. destruct (shr_strscpy dst src size) as [r dst'] eqn:E.
  destruct (decide (size = 0%nat)) as [->|Hn].
  { unfold shr_strscpy in E. simpl in E. simplify_eq.
    split_and!; [done|done|lia|done]. }
  destruct (shr_strscpy_result dst src size) as [H1 H2]; [lia|].
  rewrite E in H1, H2. simpl in H1, H2. subst.
  assert (Hlen : length (take (size - 1) src ++ [0]) =
                 S (length src `min` (size - 1))) by
    (rewrite length_app, length_take; simpl; lia).
  split_and!; auto.
  - apply buf_write_length. lia.
  - intros i Hi. apply buf_write_after; lia.
  - intros _. unfold buf_write. simpl. rewrite <- app_assoc. split.
    + apply buf_str_cstr_NUL, is_cstr_take, Hsrc.
    + rewrite lookup_app_r by (rewrite length_take; lia). rewrite length_take.
      by replace (_ - _)%nat with 0%nat by lia.
Qed.

(** [shr_strscpy] writes only inside the [size] bytes of its destination,
    leaves there a terminated string that is the longest prefix of the source
    that fits, and returns the length of the source, or -E2BIG exactly when
    the source was cut off. *)
Theorem shr_strscpy_bounded dst src size :
  (size ≤ length dst)%nat → is_cstr src →
  let '(r, dst') := shr_strscpy dst src size in
  length dst' = length dst ∧
  (∀ i, (size ≤ i)%nat → dst' !! i = dst !! i) ∧
  ((0 < size)%nat → buf_str dst' = take (size - 1) src ∧
     dst' !! (length src `min` (size - 1))%nat = Some 0) ∧
  r = if (length src <? size)%nat then Ok (length src) else Err E2BIG.
Proof. apply shr_strscpy_post. Qed.

Lemma shr_strscpy_bounded_witness :
  let '(r, dst') := shr_strscpy [1; 1; 1; 7] [65; 66; 67] 3 in
  length dst' = 4%nat ∧
  (∀ i, (3 ≤ i)%nat → dst' !! i = [1; 1; 1; 7] !! i) ∧
  ((0 < 3)%nat → buf_str dst' = [65; 66] ∧ dst' !! 2%nat = Some 0) ∧
  r = Err E2BIG.
Proof.
  apply (shr_strscpy_bounded [1; 1; 1; 7] [65; 66; 67] 3); [simpl; lia|].
  repeat constructor; lia.
Defined.

Lemma buf_str_app_cstr d r : is_cstr d → buf_str (d ++ r) = d ++ buf_str r.
Proof.
  intros H. apply take_while_app_all, forallb_Forall.
  eapply list.Forall_impl; [exact H|]. intros c; simpl. lia.
Qed.

(** [shr_strscat] appends inside the [size] bytes of its destination: the
    string there becomes the longest prefix of the old string followed by the
    source that fits, terminated; it returns the length of the whole, or
    -E2BIG exactly when something was cut off; a destination without a
    terminator in its [size] bytes is left as it is. *)
Theorem shr_strscat_bounded dst src size :
  (size ≤ length dst)%nat → bytes dst → is_cstr src →
  let d := buf_str (take size dst) in
  let '(r, dst') := shr_strscat dst src size in
  length dst' = length dst ∧
  (∀ i, (size ≤ i)%nat → dst' !! i = dst !! i) ∧
  ((length d < size)%nat →
     buf_str dst' = take (size - 1) (d ++ src) ∧
     r = if (length (d ++ src) <? size)%nat then Ok (length (d ++ src)) else Err E2BIG) ∧
  (length d = size → dst' = dst ∧ r = Err E2BIG).
Proof.
  intros Hsz Hb Hsrc d.
  assert (Hd : is_cstr d) by (apply buf_str_is_cstr, Forall_take, Hb).
  assert (Hdle : (length d ≤ size)%nat).
  { pose proof (take_while_length (λ c, negb (c =? 0)) (take size dst)) as Hl.
    rewrite length_take in Hl. unfold d, buf_str. lia. }
  assert (Htake : take (length d) dst = d).
  { unfold d, buf_str at 2. rewrite <- (take_take_while _ (take size dst)).
    fold (buf_str (take size dst)). fold d. rewrite take_take. f_equal. lia. }
  unfold shr_strscat. change (strnlen dst size) with (length d).
  destruct (Nat.eqb_spec (length d) size) as [Heq|Hne].
  { split_and!; auto. lia. }
  pose proof (shr_strscpy_post (drop (length d) dst) src (size - length d)) as Hp.
  destruct (shr_strscpy (drop (length d) dst) src (size - length d)) as [r t].
  destruct Hp as (Hl & Hout & Hin & Hr); [rewrite length_drop; lia|done|].
  rewrite length_drop in Hl. destruct Hin as [Hstr _]; [lia|].
  split_and!; [..|lia].
  - rewrite length_app, length_take. lia.
  - intros i Hi. rewrite lookup_app_r by (rewrite length_take; lia).
    rewrite Hout by (rewrite length_take; lia). rewrite lookup_drop, length_take.
    f_equal. lia.
  - intros _. rewrite Htake, buf_str_app_cstr, Hstr by done. rewrite take_app.
    rewrite (take_ge d) by lia. split; [f_equal; f_equal; lia|]. subst r.
    rewrite length_app.
    destruct (Nat.ltb_spec (length src) (size - length d)),
      (Nat.ltb_spec (length d + length src) size); try lia; done.
Qed.

Lemma shr_strscat_bounded_witness :
  let '(r, dst') := shr_strscat [65; 0; 1; 1] [66] 4 in
  buf_str dst' = [65; 66] ∧ r = Ok 2%nat.
Proof.
  pose proof (shr_strscat_bounded [65; 0; 1; 1] [66] 4) as H.
  simpl in H. destruct H as (_ & _ & H & _).
  - lia.
  - repeat constructor; unfold is_byte; lia.
  - repeat constructor; lia.
  - apply H. lia.
Defined.

(** [shr_sanitize_name] turns any non-empty string into one that
    [shr_valid_name] accepts, keeps its length, and keeps a valid name. *)
Theorem shr_sanitize_name_valid s :
  length (shr_sanitize_name s) = length s ∧
  shr_valid_name (Some (shr_sanitize_name s)) = nonempty s ∧
  (shr_valid_name (Some s) = true → shr_sanitize_name s = s).
Proof.
  unfold shr_sanitize_name, shr_valid_name. rewrite length_fmap. split; [done|split].
  - rewrite (proj2 (forallb_Forall _ _)).
    + unfold nonempty. by rewrite length_fmap, andb_true_r.
    + apply Forall_fmap, Forall_true. intros c; simpl.
      by destruct (shr_name_char c) eqn:E.
  - rewrite andb_true_iff. intros [_ H%forallb_Forall].
    induction H as [|c l Hc Hl IH]; [done|]. by rewrite fmap_cons, IH, Hc.
Qed.
