(* ===== verification/Printf.v ===== *)
(** * Printing of integers

    The conversions of [printf] the code uses for integers. *)

From stdpp Require Import base list numbers.
From S2P Require Import Prelude.
From S2P Require Import CStr.

(** The decimal digits of a number below [10 ^ fuel], in front of [acc]. *)
Fixpoint decimal (fuel : nat) (n : Z) (acc : list Z) : list Z :=
  match fuel with
  | O => acc
  | S fuel => let acc := (c_0 + n mod 10) :: acc in
              if n <? 10 then acc else decimal fuel (n / 10) acc
  end.

(** ["%d"] of an [int]. *)
Definition print_int (v : Z) : list Z :=
  if v <? 0 then c_minus :: decimal 10 (- v) [] else decimal 10 v [].

(** ["%08x"] of an [unsigned int]. *)
Definition hex_digits (v : Z) : list Z :=
  (λ i, hex_digit_lc (Z.land (Z.shiftr v (4 * (7 - Z.of_nat i))) 15)) <$> seq 0 8.

(** ** Lemmas *)

Lemma decimal_digits fuel n acc :
  0 ≤ n → Forall (λ c, isdigit c = true) acc → Forall (λ c, isdigit c = true) (decimal fuel n acc).
Proof.
  revert n acc. induction fuel as [|fuel IH]; intros n acc Hn Ha; cbn [decimal]; [done|].
  assert (Hd : isdigit (c_0 + n mod 10) = true).
  { unfold isdigit. pose proof (Z.mod_pos_bound n 10 ltac:(lia)). apply andb_true_iff.
    split; apply Z.leb_le; lia. }
  destruct (n <? 10); [by constructor|]. apply IH; [apply Z.div_pos; lia|by constructor].
Qed.

(** The number a text of digits stands for. *)
Definition digits_value (s : list Z) : Z := foldl (λ a c, a * 10 + (c - c_0)) 0 s.

Lemma foldl_digits a s : foldl (λ a c, a * 10 + (c - c_0)) a s = a * 10 ^ Z.of_nat (length s) + digits_value s.
Proof.
  unfold digits_value. revert a. induction s as [|c s IH]; intros a; cbn [foldl length].
  - change (10 ^ Z.of_nat 0) with 1. lia.
  - rewrite IH, (IH (0 * 10 + (c - c_0))). rewrite Nat2Z.inj_succ, Z.pow_succ_r by lia. lia.
Qed.

Lemma decimal_value fuel n acc :
  0 ≤ n < 10 ^ Z.of_nat fuel → (0 < fuel)%nat →
  digits_value (decimal fuel n acc) = n * 10 ^ Z.of_nat (length acc) + digits_value acc.
Proof.
  revert n acc. induction fuel as [|fuel IH]; intros n acc Hn Hf; [lia|]. cbn [decimal].
  assert (Hcons : ∀ d, digits_value ((c_0 + d) :: acc) = d * 10 ^ Z.of_nat (length acc) + digits_value acc).
  { intros d. unfold digits_value. cbn [foldl]. rewrite foldl_digits. unfold digits_value. lia. }
  destruct (Z.ltb_spec n 10) as [Hlt|Hge].
  - rewrite Hcons, Z.mod_small by lia. done.
  - rewrite Nat2Z.inj_succ, Z.pow_succ_r in Hn by lia.
    rewrite IH; [|split; [apply Z.div_pos; lia|apply Z.div_lt_upper_bound; lia]|].
    + rewrite Hcons. cbn [length]. rewrite Nat2Z.inj_succ, Z.pow_succ_r by lia.
      pose proof (Z.div_mod n 10 ltac:(lia)). nia.
    + destruct fuel; [|lia]. change (10 ^ Z.of_nat 0) with 1 in Hn. lia.
Qed.
