(* ===== verification/Io.v ===== *)
(** * Calls with effects

    The C functions that talk to a device change a state (the caller's
    buffers, the endpoint, what was sent so far) and return an [int].  Here
    are the [int], the monad the functions are written in, and the rules the
    proofs about them use. *)

From stdpp Require Import base list numbers.
From S2P Require Import Prelude.
From S2P Require Import CStr.

(** The [int] a command returns: 0, a negative errno or a positive status. *)
Inductive ret := Success | Errno (e : errno) | Status (status : Z).

#[export] Instance ret_eq_dec : EqDecision ret.
Proof. solve_decision. Defined.

Definition is_success (r : ret) : bool := match r with Success => true | _ => false end.
Definition is_errno (r : ret) : bool := match r with Errno _ => true | _ => false end.

(** A call ends with its result, touches memory outside of an object, or the
    fuel was not enough. *)
Inductive run (S A : Type) :=
| Ret (a : A) (s : S)
| Wild
| NoFuel.
Arguments Ret {S A} a s.
Arguments Wild {S A}.
Arguments NoFuel {S A}.

Section Monad.
Context {S : Type}.

Definition bind {A B} (m : S → run S A) (f : A → S → run S B) : S → run S B := λ s,
  match m s with Ret a s' => f a s' | Wild => Wild | NoFuel => NoFuel end.
Definition ret_ {A} (a : A) : S → run S A := λ s, Ret a s.
Definition get {A} (f : S → A) : S → run S A := λ s, Ret (f s) s.
Definition modify (f : S → S) : S → run S unit := λ s, Ret tt (f s).

(** Two programs that agree on the states they get to. *)
Lemma bind_ext {A B} (m : S → run S A) (f g : A → S → run S B) s :
  (∀ a s', m s = Ret a s' → f a s' = g a s') → bind m f s = bind m g s.
Proof. intros H. unfold bind. destruct (m s) eqn:Hm; [by apply H|done..]. Qed.

Lemma bind_first {A B} (m m' : S → run S A) (f : A → S → run S B) s :
  m s = m' s → bind m f s = bind m' f s.
Proof. intros H. unfold bind. by rewrite H. Qed.

(** [m] returns, without touching memory it must not, and [Q] holds. *)
Definition wp {A} (m : S → run S A) (Q : A → S → Prop) (s : S) : Prop :=
  match m s with Ret a s' => Q a s' | Wild | NoFuel => False end.

Lemma wp_bind {A B} (m : S → run S A) (f : A → S → run S B) R Q s :
  wp m R s → (∀ a s', R a s' → wp (f a) Q s') → wp (bind m f) Q s.
Proof. intros Hm Hf. unfold wp, bind in *. destruct (m s); [by apply Hf|done..]. Qed.

Lemma wp_mono {A} (m : S → run S A) (R Q : A → S → Prop) s :
  wp m R s → (∀ a s', R a s' → Q a s') → wp m Q s.
Proof. intros Hm Hf. unfold wp in *. destruct (m s); [by apply Hf|done..]. Qed.

(** [m] touches no memory it must not, and when it returns [Q] holds. *)
Definition wlp {A} (m : S → run S A) (Q : A → S → Prop) (s : S) : Prop :=
  match m s with Ret a s' => Q a s' | Wild => False | NoFuel => True end.

Lemma wlp_bind {A B} (m : S → run S A) (f : A → S → run S B) R Q s :
  wlp m R s → (∀ a s', R a s' → wlp (f a) Q s') → wlp (bind m f) Q s.
Proof. intros Hm Hf. unfold wlp, bind in *. destruct (m s); [by apply Hf|done..]. Qed.

Lemma wlp_mono {A} (m : S → run S A) (R Q : A → S → Prop) s :
  wlp m R s → (∀ a s', R a s' → Q a s') → wlp m Q s.
Proof. intros Hm Hf. unfold wlp in *. destruct (m s); [by apply Hf|done..]. Qed.

Lemma wlp_bind_same {A B} (m : S → run S A) (f : A → S → run S B) Q s :
  wlp m (λ a, wlp (f a) Q) s → wlp (bind m f) Q s.
Proof. intros H. eapply wlp_bind; [exact H|]. by intros. Qed.

Lemma wlp_ret {A} (a : A) (Q : A → S → Prop) s : Q a s → wlp (ret_ a) Q s.
Proof. done. Qed.

Lemma wlp_get {A} (f : S → A) (Q : A → S → Prop) s : Q (f s) s → wlp (get f) Q s.
Proof. done. Qed.

Lemma wlp_modify (f : S → S) (Q : unit → S → Prop) s : Q tt (f s) → wlp (modify f) Q s.
Proof. done. Qed.

(** [m] has no loop that may run out of fuel. *)
Definition live {A} (m : S → run S A) : Prop := ∀ s, m s ≠ NoFuel.

Lemma live_bind {A B} (m : S → run S A) (f : A → S → run S B) :
  live m → (∀ a, live (f a)) → live (bind m f).
Proof. intros Hm Hf s. unfold bind. specialize (Hm s). destruct (m s); [apply Hf|done..]. Qed.

Lemma wlp_live {A} (m : S → run S A) Q s : live m → wlp m Q s → ∃ a s', m s = Ret a s' ∧ Q a s'.
Proof. intros Hl Hw. specialize (Hl s). unfold wlp in Hw. destruct (m s); [eauto|done..]. Qed.

(** *** Objects *)

(** [memcpy] to the start of an object. *)
Definition store (b d : list Z) : S → run S (list Z) := λ s,
  if (length d <=? length b)%nat then Ret (buf_write b 0 d) s else Wild.

(** Reads [n] bytes of an object, from [off] on. *)
Definition load (b : list Z) (off n : nat) : S → run S (list Z) := λ s,
  if (off + n <=? length b)%nat then Ret (take n (drop off b)) s else Wild.

Lemma wlp_load b off n (Q : list Z → S → Prop) s :
  (off + n ≤ length b)%nat → Q (take n (drop off b)) s → wlp (load b off n) Q s.
Proof. intros H HQ. unfold wlp, load. by rewrite (proj2 (Nat.leb_le _ _) H). Qed.

Lemma wlp_store b d (Q : list Z → S → Prop) s :
  (length d ≤ length b)%nat → Q (buf_write b 0 d) s → wlp (store b d) Q s.
Proof. intros H HQ. unfold wlp, store. by rewrite (proj2 (Nat.leb_le _ _) H). Qed.

Lemma live_load b off n : live (load b off n).
Proof. intros s. unfold load. by case_match. Qed.
Lemma live_store b d : live (store b d).
Proof. intros s. unfold store. by case_match. Qed.

End Monad.

Declare Scope io_scope.
Delimit Scope io_scope with io.
Notation "'let!' x := m 'in' k" := (bind m (λ x, k))
  (at level 10, x pattern, m at level 100, k at level 200) : io_scope.
Notation "'do!' m 'in' k" := (bind m (λ _, k))
  (at level 10, m at level 100, k at level 200) : io_scope.
