(* ===== verification/Hex.v ===== *)
(** * Hexadecimal text: [shared/hex-util.c]

    [shr_hex_to_int], [shr_hex_to_ascii] and [shr_bin_to_hex].  The buffer
    [shr_hex_to_ascii] allocates is an argument of the model ([text]), with
    whatever bytes [malloc] left in it: the theorems hold for all of them. *)

From Stdlib Require Import String.
From stdpp Require Import base list numbers sets.
From S2P Require Import Prelude.
From S2P Require Import CStr.

Definition shr_hex_to_int (c : Z) : Z :=
  if (c_0 <=? c) && (c <=? c_9) then c - c_0
  else if (c_A <=? c) && (c <=? c_F) then 10 + (c - c_A)
  else if (c_a <=? c) && (c <=? c_f) then 10 + (c - c_a)
  else -1.

(** The loop of [shr_hex_to_ascii], [for (i = last_index; i >= 0; --i)]: the
    argument [n] is [i + 1]. *)
Fixpoint hex_to_ascii_loop (hex : list Z) (odd : bool) (n : nat) (text : list Z) :
    option (list Z) :=
  match n with
  | O => Some text
  | S i =>
      let last_index := (length hex - 1)%nat in
      if negb ((last_index - i) mod 2 =? 0)%nat then
        let hi := shr_hex_to_int (char_at hex i) in
        let lo := shr_hex_to_int (char_at hex (i + 1)) in
        if (hi <? 0) || (lo <? 0) then None
        else
          let at_ := if odd then (i / 2 + 1)%nat else (i / 2)%nat in
          hex_to_ascii_loop hex odd i (<[at_ := 16 * hi + lo]> text)
      else if (i =? 0)%nat then
        let dec := shr_hex_to_int (char_at hex 0) in
        if dec <? 0 then None
        else hex_to_ascii_loop hex odd i (<[0%nat := dec]> text)
      else hex_to_ascii_loop hex odd i text
  end.

(** [text] is the allocated block, the result the [symbol_count] bytes in
    front of the NUL the code appends.  [None] is the NULL the code returns
    for an empty or malformed string. *)
Definition shr_hex_to_ascii (text : nat → list Z) (hex : list Z) : option (list Z) :=
  let hex_length := length hex in
  if (hex_length =? 0)%nat then None
  else
    let odd := (hex_length mod 2 =? 1)%nat in
    let symbol_count := if odd then (hex_length / 2 + 1)%nat else (hex_length / 2)%nat in
    t ← hex_to_ascii_loop hex odd hex_length (text (symbol_count + 1)%nat);
    Some (take symbol_count (<[symbol_count := 0]> t)).

Definition SHR_HEX_UPPER : Z := 1.
Definition SHR_HEX_REVERSE : Z := 2.

Definition hex_digits (flags : Z) : list Z :=
  if negb (Z.land flags SHR_HEX_UPPER =? 0) then lit "0123456789ABCDEF"
  else lit "0123456789abcdef".

(** [for (i = 0; i < len; i++)], with [n = len - i] iterations left. *)
Fixpoint bin_to_hex_loop (flags : Z) (p : list Z) (len n : nat) (dst : list Z) : list Z :=
  match n with
  | O => dst
  | S n' =>
      let i := (len - n)%nat in
      let b := if negb (Z.land flags SHR_HEX_REVERSE =? 0)
               then char_at p (len - 1 - i) else char_at p i in
      let digits := hex_digits flags in
      let dst := <[(2 * i)%nat := char_at digits (Z.to_nat (Z.shiftr b 4))]> dst in
      let dst := <[(2 * i + 1)%nat := char_at digits (Z.to_nat (Z.land b 15))]> dst in
      bin_to_hex_loop flags p len n' dst
  end.

Definition shr_bin_to_hex (dst : list Z) (size : nat) (src : list Z) (flags : Z) :
    result nat * list Z :=
  let len := length src in
  if (size <? 2 * len + 1)%nat
  then (Err E2BIG, if (size =? 0)%nat then dst else <[0%nat := 0]> dst)
  else (Ok (2 * len)%nat,
        <[(2 * len)%nat := 0]> (bin_to_hex_loop flags src len len dst)).

(** ** Reference: pairs of digits, most significant first *)

Module HexSpec.

Definition digit (c : Z) : option Z :=
  let v := shr_hex_to_int c in if v <? 0 then None else Some v.

Fixpoint pairs (s : list Z) : option (list Z) :=
  match s with
  | [] => Some []
  | h :: l :: s' =>
      hi ← digit h; lo ← digit l; r ← pairs s'; Some ((16 * hi + lo) :: r)
  | [_] => None
  end.

(** An odd number of digits counts as left-padded with a zero. *)
Definition decode (s : list Z) : option (list Z) :=
  if Nat.odd (length s) then pairs (c_0 :: s) else pairs s.

Definition encode (flags : Z) (bs : list Z) : list Z :=
  concat_map (λ b, [char_at (hex_digits flags) (Z.to_nat (b / 16));
                    char_at (hex_digits flags) (Z.to_nat (b mod 16))])
    (if negb (Z.land flags SHR_HEX_REVERSE =? 0) then reverse bs else bs).

End HexSpec.

(** ** Lemmas *)

Lemma shr_hex_to_int_range c : -1 ≤ shr_hex_to_int c < 16.
Proof.
  unfold shr_hex_to_int.
  repeat case_match; repeat match goal with
    | H : (_ && _) = true |- _ => apply andb_true_iff in H as [?%Z.leb_le ?%Z.leb_le]
    end; lia.
Qed.

(** The digits of both cases, as one finite check. *)
Lemma hex_digits_decode flags d :
  0 ≤ d < 16 → shr_hex_to_int (char_at (hex_digits flags) (Z.to_nat d)) = d.
Proof.
  intros H. assert (Hd : In (Z.to_nat d) (seq 0 16)) by (apply in_seq; lia).
  rewrite <- (Z2Nat.id d) at 2 by lia.
  revert Hd. generalize (Z.to_nat d). clear. unfold hex_digits.
  destruct (negb _); simpl; naive_solver.
Qed.

Lemma pairs_cons2 h l s bs :
  HexSpec.pairs (h :: l :: s) = Some bs ↔
  ∃ r, 0 ≤ shr_hex_to_int h ∧ 0 ≤ shr_hex_to_int l ∧ HexSpec.pairs s = Some r ∧
       bs = (16 * shr_hex_to_int h + shr_hex_to_int l) :: r.
Proof.
  simpl. unfold HexSpec.digit.
  destruct (Z.ltb_spec (shr_hex_to_int h) 0); simpl; [split; [done|]; naive_solver lia|].
  destruct (Z.ltb_spec (shr_hex_to_int l) 0); simpl; [split; [done|]; naive_solver lia|].
  destruct (HexSpec.pairs s); simpl; naive_solver.
Qed.

(** Induction two elements at a time. *)
Lemma pair_ind (P : list Z → Prop) :
  P [] → (∀ x, P [x]) → (∀ x y l, P l → P (x :: y :: l)) → ∀ l, P l.
Proof.
  intros H0 H1 H2 l. cut (P l ∧ ∀ x, P (x :: l)); [naive_solver|].
  induction l as [|y l [IH1 IH2]]; split; auto.
Qed.

Lemma pairs_length s bs : HexSpec.pairs s = Some bs → length s = (2 * length bs)%nat.
Proof.
  revert bs. induction s as [| |h l s IH] using pair_ind; intros bs; [naive_solver..|].
  intros (r & _ & _ & Hr & ->)%pairs_cons2. simpl. rewrite (IH r Hr). lia.
Qed.

Lemma pairs_snoc s h l :
  Nat.even (length s) = true →
  HexSpec.pairs (s ++ [h; l]) =
    (r ← HexSpec.pairs s; hi ← HexSpec.digit h; lo ← HexSpec.digit l;
     Some (r ++ [16 * hi + lo])).
Proof.
  induction s as [|x|x y s IH] using pair_ind; [..|].
  - intros _. simpl. by destruct (HexSpec.digit h), (HexSpec.digit l).
  - done.
  - intros Hev. simpl in *. rewrite IH by done.
    destruct (HexSpec.digit x), (HexSpec.digit y), (HexSpec.pairs s),
      (HexSpec.digit h), (HexSpec.digit l); done.
Qed.

Section Decode.
Context (hex : list Z) (k o : nat).
Context (Hlen : length hex = (2 * k + o)%nat) (Ho : (o < 2)%nat).

Let odd : bool := (o =? 1)%nat.

(** Two iterations of the loop decode one pair. *)
Lemma hex_loop_step j text :
  (j < k)%nat →
  hex_to_ascii_loop hex odd (2 * S j + o) text =
  (hi ← HexSpec.digit (char_at hex (2 * j + o));
   lo ← HexSpec.digit (char_at hex (2 * j + o + 1));
   hex_to_ascii_loop hex odd (2 * j + o) (<[(j + o)%nat := 16 * hi + lo]> text)).
Proof.
  intros Hj. replace (2 * S j + o)%nat with (S (S (2 * j + o))) by lia.
  cbn [hex_to_ascii_loop]. rewrite Hlen.
  replace (2 * k + o - 1 - S (2 * j + o))%nat with ((k - j - 1) * 2)%nat by lia.
  rewrite Nat.Div0.mod_mul. change (negb (0 =? 0)%nat) with false. cbn iota.
  replace (S (2 * j + o) =? 0)%nat with false by (symmetry; apply Nat.eqb_neq; lia).
  replace (2 * k + o - 1 - (2 * j + o))%nat with (1 + (k - j - 1) * 2)%nat by lia.
  rewrite Nat.Div0.mod_add. change (negb (1 mod 2 =? 0)%nat) with true. cbn iota.
  replace (if odd then ((2 * j + o) / 2 + 1)%nat else ((2 * j + o) / 2)%nat)
    with (j + o)%nat; cycle 1.
  { replace ((2 * j + o) / 2)%nat with j.
    - unfold odd. destruct (Nat.eqb_spec o 1); lia.
    - symmetry. rewrite Nat.mul_comm, Nat.div_add_l, Nat.div_small by lia. lia. }
  unfold HexSpec.digit.
  destruct (shr_hex_to_int (char_at hex (2 * j + o)) <? 0),
    (shr_hex_to_int (char_at hex (2 * j + o + 1)) <? 0); reflexivity.
Qed.

Lemma take_pair j :
  (j < k)%nat →
  take (2 * S j) (drop o hex) =
  take (2 * j) (drop o hex) ++ [char_at hex (2 * j + o); char_at hex (2 * j + o + 1)].
Proof.
  intros Hj. replace (2 * S j)%nat with (S (S (2 * j))) by lia.
  assert (Hat : ∀ i, (i < 2 * k)%nat → drop o hex !! i = Some (char_at hex (i + o))).
  { intros i Hi. rewrite lookup_drop. unfold char_at.
    destruct (lookup_lt_is_Some_2 hex (o + i)) as [c Hc]; [lia|].
    by rewrite (Nat.add_comm i), Hc. }
  rewrite (take_S_r _ _ (char_at hex (S (2 * j) + o))) by (apply Hat; lia).
  rewrite (take_S_r _ _ (char_at hex (2 * j + o))) by (apply Hat; lia).
  rewrite <- app_assoc. cbn [app]. do 4 f_equal. lia.
Qed.

Lemma hex_loop_pairs j text :
  (j ≤ k)%nat → length text = (k + o + 1)%nat →
  hex_to_ascii_loop hex odd (2 * j + o) text =
  (bs ← HexSpec.pairs (take (2 * j) (drop o hex));
   hex_to_ascii_loop hex odd o (take o text ++ bs ++ drop (o + j) text)).
Proof.
  revert text. induction j as [|j IH]; intros text Hj Ht.
  { simpl. by rewrite Nat.add_0_r, take_drop. }
  rewrite hex_loop_step, take_pair, pairs_snoc; try lia.
  2: { rewrite length_take, length_drop, Hlen, Nat.min_l by lia.
       by rewrite Nat.even_mul. }
  destruct (HexSpec.digit (char_at hex (2 * j + o))) as [hi|];
    [|by destruct (HexSpec.pairs _)].
  destruct (HexSpec.digit (char_at hex (2 * j + o + 1))) as [lo|];
    [|by destruct (HexSpec.pairs _)].
  cbn [mbind option_bind].
  rewrite IH by (rewrite ?length_insert; lia).
  destruct (HexSpec.pairs _) as [bs|]; simpl; [|done].
  f_equal. rewrite take_insert_ge by lia. rewrite <- app_assoc. do 2 f_equal.
  rewrite (drop_S (<[_:=_]> text) (16 * hi + lo) (o + j)); cycle 1.
  { rewrite (Nat.add_comm o), list_lookup_insert_eq by lia. done. }
  rewrite drop_insert_lt by lia. simpl. by rewrite Nat.add_succ_r.
Qed.

End Decode.

Lemma shr_hex_to_ascii_decode text hex :
  (∀ n, length (text n) = n) →
  shr_hex_to_ascii text hex =
  if (length hex =? 0)%nat then None else HexSpec.decode hex.
Proof.
  intros Ht. unfold shr_hex_to_ascii, HexSpec.decode.
  destruct (Nat.eqb_spec (length hex) 0) as [|Hne]; [done|].
  set (k := (length hex / 2)%nat). set (o := (length hex mod 2)%nat).
  assert (Hlen : length hex = (2 * k + o)%nat) by apply Nat.div_mod_eq.
  assert (Ho : (o < 2)%nat) by (apply Nat.mod_upper_bound; lia).
  clearbody k o.
  pose proof (hex_loop_pairs hex k o Hlen Ho k) as Hloop.
  destruct (decide (o = 1%nat)) as [Ho1|Ho1].
  - rewrite Ho1 in *. simpl (1 =? 1)%nat in *. cbn iota.
    replace (Nat.odd (length hex)) with true
      by (rewrite Hlen, Nat.add_comm, Nat.odd_add_mul_2; done).
    rewrite Hlen at 1. rewrite Hloop by (rewrite ?Ht; lia).
    destruct hex as [|c hex]; [simpl in Hne; lia|]. simpl in Hlen.
    change (drop 1 (c :: hex)) with hex. rewrite (take_ge hex) by lia.
    cbn [HexSpec.pairs]. change (HexSpec.digit c_0) with (Some 0). cbn [mbind option_bind].
    destruct (HexSpec.pairs hex) as [bs|] eqn:Hp; cbn [mbind option_bind];
      [|by destruct (HexSpec.digit c)].
    apply pairs_length in Hp.
    cbn [hex_to_ascii_loop]. replace (length (c :: hex) - 1 - 0)%nat with (k * 2)%nat
      by (simpl; lia).
    rewrite Nat.Div0.mod_mul. change (negb (0 =? 0)%nat) with false. cbn iota.
    change (0 =? 0)%nat with true. cbn iota. change (char_at (c :: hex) 0) with c.
    unfold HexSpec.digit. destruct (shr_hex_to_int c <? 0); [done|].
    cbn [mbind option_bind]. f_equal.
    destruct (text (k + 1 + 1)%nat) as [|t0 ts] eqn:E; [by specialize (Ht (k+1+1)%nat); rewrite E in Ht; simpl in Ht; lia|].
    simpl. rewrite (Nat.add_comm k 1). simpl. f_equal.
    rewrite take_insert_ge by lia.
    replace k with (length bs) at 1 by lia. rewrite take_app_length. done.
  - assert (o = 0%nat) as Ho0 by lia. rewrite Ho0 in *. change (0 =? 1)%nat with false.
    cbn iota.
    replace (Nat.odd (length hex)) with false
      by (rewrite Hlen, Nat.add_comm, Nat.odd_add_mul_2; done).
    rewrite Hlen at 1. rewrite Hloop by (rewrite ?Ht; lia).
    change (drop 0 hex) with hex. rewrite (take_ge hex) by lia.
    destruct (HexSpec.pairs hex) as [bs|] eqn:Hp; cbn [mbind option_bind]; [|done].
    apply pairs_length in Hp. cbn [hex_to_ascii_loop mbind option_bind]. f_equal.
    rewrite take_insert_ge, take_0 by lia. cbn [app].
    replace k with (length bs) at 1 by lia. by rewrite take_app_length.
Qed.

Lemma write_pair (dst : list Z) (i : nat) (x y : Z) :
  (S (S i) ≤ length dst)%nat →
  take (S (S i)) (<[S i := y]> (<[i := x]> dst)) = take i dst ++ [x; y].
Proof.
  intros H.
  rewrite (take_S_r _ _ y) by (by rewrite list_lookup_insert_eq by (rewrite length_insert; lia)).
  rewrite take_insert_ge by lia.
  rewrite (take_S_r _ _ x) by (by rewrite list_lookup_insert_eq by lia).
  rewrite take_insert_ge by lia. by rewrite <- app_assoc.
Qed.

Section Encode.
Context (flags : Z) (p : list Z).

Let q : list Z := if negb (Z.land flags SHR_HEX_REVERSE =? 0) then reverse p else p.

Lemma bin_to_hex_source i :
  (i < length p)%nat →
  (if negb (Z.land flags SHR_HEX_REVERSE =? 0)
   then char_at p (length p - 1 - i) else char_at p i) = char_at q i.
Proof.
  intros Hi. unfold q. destruct (negb _); [|done]. unfold char_at.
  rewrite reverse_lookup by done. do 2 f_equal. lia.
Qed.

Lemma length_q : length q = length p.
Proof. unfold q. destruct (negb _); [by rewrite length_reverse|done]. Qed.

Definition hex2 (b : Z) : list Z :=
  [char_at (hex_digits flags) (Z.to_nat (b / 16));
   char_at (hex_digits flags) (Z.to_nat (b mod 16))].

Lemma bin_to_hex_loop_spec n dst :
  (n ≤ length p)%nat → (2 * length p ≤ length dst)%nat →
  bin_to_hex_loop flags p (length p) n dst =
  take (2 * (length p - n)) dst ++ concat_map hex2 (drop (length p - n) q) ++
  drop (2 * length p) dst.
Proof.
  revert dst. induction n as [|n IH]; intros dst Hn Hd.
  { rewrite Nat.sub_0_r, drop_ge by (rewrite length_q; lia). simpl. by rewrite take_drop. }
  cbn [bin_to_hex_loop]. rewrite bin_to_hex_source by lia.
  set (i := (length p - S n)%nat).
  destruct (lookup_lt_is_Some_2 q i) as [b Hb]; [rewrite length_q; lia|].
  rewrite IH by (rewrite ?length_insert; lia).
  replace (length p - n)%nat with (S i) by lia.
  replace (2 * S i)%nat with (S (S (2 * i))) by lia. rewrite Nat.add_1_r.
  rewrite write_pair by lia.
  rewrite (drop_S q b i Hb), drop_insert_lt, drop_insert_lt by lia.
  cbn [concat_map]. rewrite <- !app_assoc. f_equal. unfold char_at at 2 4. rewrite Hb.
  cbn [default from_option id app]. unfold hex2.
  rewrite Z.shiftr_div_pow2 by lia. change 15 with (Z.ones 4).
  by rewrite Z.land_ones by lia.
Qed.
End Encode.

Lemma bin_to_hex_out dst size src flags :
  (2 * length src < size ≤ length dst)%nat →
  shr_bin_to_hex dst size src flags =
  (Ok (2 * length src)%nat,
   HexSpec.encode flags src ++ 0 :: drop (2 * length src + 1) dst).
Proof.
  intros H. unfold shr_bin_to_hex.
  destruct (Nat.ltb_spec size (2 * length src + 1)); [lia|].
  rewrite bin_to_hex_loop_spec by lia. rewrite Nat.sub_diag, Nat.mul_0_r.
  rewrite take_0, drop_0. cbn [app].
  change (concat_map (hex2 flags) _) with (HexSpec.encode flags src). f_equal.
  assert (Hlen : length (HexSpec.encode flags src) = (2 * length src)%nat).
  { unfold HexSpec.encode. rewrite <- (length_q flags src).
    generalize (if negb (Z.land flags SHR_HEX_REVERSE =? 0) then reverse src else src).
    induction l as [|b l IH]; [done|]. cbn [concat_map]. rewrite length_app, IH.
    simpl. lia. }
  rewrite insert_app_r_alt by lia. rewrite Hlen, Nat.sub_diag. f_equal.
  destruct (lookup_lt_is_Some_2 dst (2 * length src)) as [d Hd]; [lia|].
  rewrite (drop_S dst d) by done. by rewrite Nat.add_1_r.
Qed.

Lemma pairs_encode flags (q : list Z) :
  bytes q → HexSpec.pairs (concat_map (hex2 flags) q) = Some q.
Proof.
  induction 1 as [|b q Hb Hq IH]; [done|]. cbn [concat_map hex2 app].
  unfold is_byte in Hb. apply pairs_cons2. exists q.
  rewrite !hex_digits_decode.
  - split_and!; try done; [apply Z.div_pos; lia|apply Z.mod_pos_bound; lia|].
    f_equal. apply Z.div_mod. lia.
  - apply Z.mod_pos_bound. lia.
  - split; [apply Z.div_pos; lia|apply Z.div_lt_upper_bound; lia].
Qed.

Lemma decode_encode flags bs :
  bytes bs →
  HexSpec.decode (HexSpec.encode flags bs) =
  Some (if negb (Z.land flags SHR_HEX_REVERSE =? 0) then reverse bs else bs).
Proof.
  intros H. unfold HexSpec.encode.
  set (q := if negb _ then _ else bs).
  assert (Hq : bytes q).
  { unfold q. destruct (negb _); [by apply Forall_reverse|done]. }
  change (λ b, _) with (hex2 flags).
  pose proof (pairs_encode flags q Hq) as Hp. unfold HexSpec.decode.
  rewrite (pairs_length _ _ Hp), Nat.odd_mul. done.
Qed.

(** ** Properties *)

(** [shr_hex_to_ascii] decodes exactly what its comment says, whatever the
    allocated block held before: NULL for the empty string or a string with a
    character that is no hexadecimal digit, and otherwise the bytes of the
    digit pairs, an odd number of digits read as left-padded with a zero. *)
Theorem shr_hex_to_ascii_spec text hex :
  (∀ n, length (text n) = n) →
  shr_hex_to_ascii text hex =
  if (length hex =? 0)%nat then None else HexSpec.decode hex.
Proof. apply shr_hex_to_ascii_decode. Qed.

Lemma shr_hex_to_ascii_spec_witness :
  shr_hex_to_ascii (λ n, replicate n 255) (lit "a1b") = Some [10; 27].
Proof.
  rewrite (shr_hex_to_ascii_spec (λ n, replicate n 255) (lit "a1b")); [done|].
  intros n. apply length_replicate.
Defined.

(** decoding what [shr_bin_to_hex] wrote gives the bytes back, in reverse
    order exactly when SHR_HEX_REVERSE was set, for both digit cases; the
    encoder writes [2 * len + 1] bytes and leaves the rest of the buffer as it
    was, and when that does not fit it returns -E2BIG and leaves an empty
    string. *)
Theorem shr_bin_to_hex_roundtrip text dst size src flags :
  (∀ n, length (text n) = n) → bytes src → (size ≤ length dst)%nat →
  let '(r, dst') := shr_bin_to_hex dst size src flags in
  length dst' = length dst ∧
  ((2 * length src < size)%nat →
     r = Ok (2 * length src)%nat ∧
     (∀ i, (2 * length src < i)%nat → dst' !! i = dst !! i) ∧
     (src ≠ [] → shr_hex_to_ascii text (take (2 * length src) dst') =
        Some (if negb (Z.land flags SHR_HEX_REVERSE =? 0) then reverse src else src))) ∧
  ((size ≤ 2 * length src)%nat →
     r = Err E2BIG ∧ ((0 < size)%nat → dst' !! 0%nat = Some 0)).
Proof.
  intros Ht Hb Hsz.
  destruct (decide (2 * length src < size)%nat) as [Hfit|Hfit].
  - rewrite bin_to_hex_out by lia.
    pose proof (decode_encode flags src Hb) as Hdec.
    assert (Hlen : length (HexSpec.encode flags src) = (2 * length src)%nat).
    { unfold HexSpec.decode in Hdec. destruct (Nat.odd _) eqn:Ho.
      - apply pairs_length in Hdec. exfalso.
        unfold HexSpec.encode in *. change (λ b, _) with (hex2 flags) in *.
        set (q := if negb _ then _ else src) in *.
        assert (Hev : Nat.even (length (concat_map (hex2 flags) q)) = true).
        { clear. induction q as [|b q IH]; [done|]. done. }
        rewrite <- Nat.negb_even, Hev in Ho. done.
      - apply pairs_length in Hdec. rewrite Hdec.
        destruct (negb _); by rewrite ?length_reverse. }
    split; [rewrite length_app; simpl; rewrite length_drop; lia|].
    split; [|lia]. intros _. split_and!; [done|..].
    + intros i Hi. rewrite lookup_app_r by lia. rewrite Hlen.
      replace (i - 2 * length src)%nat with (S (i - 2 * length src - 1)) by lia.
      simpl. rewrite lookup_drop. f_equal. lia.
    + intros Hne. rewrite take_app_le, take_ge by lia.
      rewrite shr_hex_to_ascii_decode, Hdec by done. rewrite Hlen.
      destruct src; [done|]. by destruct (Nat.eqb_spec (2 * length (z :: src)) 0).
  - unfold shr_bin_to_hex. destruct (Nat.ltb_spec size (2 * length src + 1)); [|lia].
    split; [by destruct (size =? 0)%nat; rewrite ?length_insert|].
    split; [lia|]. intros _. split; [done|]. intros Hpos.
    destruct (Nat.eqb_spec size 0); [lia|]. apply list_lookup_insert_eq. lia.
Qed.

Lemma shr_bin_to_hex_roundtrip_witness :
  shr_hex_to_ascii (λ n, replicate n 7)
    (take 4 (snd (shr_bin_to_hex [9; 9; 9; 9; 9; 9] 6 [18; 254] SHR_HEX_UPPER))) =
  Some [18; 254].
Proof.
  pose proof (shr_bin_to_hex_roundtrip (λ n, replicate n 7) [9; 9; 9; 9; 9; 9] 6
    [18; 254] SHR_HEX_UPPER) as H.
  destruct H as (_ & H & _).
  - intros n. apply length_replicate.
  - repeat constructor; unfold is_byte; lia.
  - simpl; lia.
  - apply H; [simpl; lia|done].
Defined.
