(* ===== verification/Base64.v ===== *)
(** * RFC 4648 base64: [shared/base64-util.c]

    Encoder and decoder as the accumulator loops of the source, with the
    32-bit accumulator wrapping, and the RFC's three-byte groups as the
    reference they are proved against. *)

From Stdlib Require Import String.
From stdpp Require Import base list numbers sets.
From S2P Require Import Prelude.
From S2P Require Import CStr.

Definition base64_table : list Z :=
  Eval vm_compute in
  lit "ABCDEFGHIJKLMNOPQRSTUVWXYZabcdefghijklmnopqrstuvwxyz0123456789+/".

Definition b64 (v : Z) : Z := char_at base64_table (Z.to_nat v).

(** [do { bits -= 6; *cp++ = ...; } while (bits >= 6);] run at most [fuel]
    times: two are enough, since [bits] is below 14 on entry. *)
Fixpoint encode_emit (fuel : nat) (ac bits : Z) : list Z * Z :=
  match fuel with
  | O => ([], bits)
  | S fuel' =>
      let bits := bits - 6 in
      let c := b64 (Z.land (Z.shiftr ac bits) 63) in
      if 6 <=? bits then
        let '(cs, bits) := encode_emit fuel' ac bits in (c :: cs, bits)
      else ([c], bits)
  end.

(** The [for] loop: what it writes, and the final [ac] and [bits]. *)
Fixpoint encode_loop (src : list Z) (ac bits : Z) : list Z * Z * Z :=
  match src with
  | [] => ([], ac, bits)
  | b :: src' =>
      let ac := u32 (Z.lor (Z.shiftl ac 8) b) in
      let '(cs, bits) := encode_emit 2 ac (bits + 8) in
      let '(rest, ac, bits) := encode_loop src' ac bits in
      (cs ++ rest, ac, bits)
  end.

(** [while (bits < 0) { *cp++ = '='; bits += 2; }], [fuel] times at most. *)
Fixpoint encode_pad (fuel : nat) (bits : Z) : list Z :=
  match fuel with
  | O => []
  | S fuel' => if bits <? 0 then c_eq :: encode_pad fuel' (bits + 2) else []
  end.

Definition shr_base64_encode (src : list Z) : list Z :=
  let '(out, ac, bits) := encode_loop src 0 0 in
  let '(tail, bits) :=
    if negb (bits =? 0)
    then ([b64 (Z.land (u32 (Z.shiftl ac (6 - bits))) 63)], bits - 6)
    else ([], bits) in
  out ++ tail ++ encode_pad 3 bits.

(** The [while] loop that counts the padding: the length without it. *)
Fixpoint decode_pad (src : list Z) (srclen pad : nat) : result nat :=
  match srclen with
  | O => Ok O
  | S n =>
      if char_at src n =? c_eq
      then if (2 <? S pad)%nat then Err EINVAL else decode_pad src n (S pad)
      else Ok srclen
  end.

(** [strchr(base64_table, c) - base64_table]; [strchr] also finds the NUL,
    which the code refuses with [!src[i]]. *)
Definition b64_index (c : Z) : option Z :=
  if c =? 0 then None
  else '(i, _) ← list_find (c =.) base64_table; Some (Z.of_nat i).

Fixpoint decode_loop (src : list Z) (ac bits : Z) (out : list Z) : result (list Z) :=
  match src with
  | [] => if negb (Z.land ac (Z.shiftl 1 bits - 1) =? 0) then Err EINVAL else Ok out
  | c :: src' =>
      match b64_index c with
      | None => Err EINVAL
      | Some v =>
          let ac := u32 (Z.lor (Z.shiftl ac 6) v) in
          let bits := bits + 6 in
          if 8 <=? bits
          then decode_loop src' ac (bits - 8) (out ++ [u8 (Z.shiftr ac (bits - 8))])
          else decode_loop src' ac bits out
      end
  end.

Definition shr_base64_decode (src : list Z) : result (list Z) :=
  if negb (length src mod 4 =? 0)%nat then Err EINVAL
  else n ← decode_pad src (length src) 0; decode_loop (take n src) 0 0 [].

(** ** Reference: RFC 4648, section 4 *)

Module Rfc4648.

Fixpoint encode (bs : list Z) : list Z :=
  match bs with
  | a :: b :: c :: bs' =>
      [b64 (a / 4); b64 (a mod 4 * 16 + b / 16);
       b64 (b mod 16 * 4 + c / 64); b64 (c mod 64)] ++ encode bs'
  | [a; b] =>
      [b64 (a / 4); b64 (a mod 4 * 16 + b / 16); b64 (b mod 16 * 4); c_eq]
  | [a] => [b64 (a / 4); b64 (a mod 4 * 16); c_eq; c_eq]
  | [] => []
  end.

End Rfc4648.

(** ** Lemmas *)

Lemma push8 ac b : 0 ≤ b < 256 → u32 (Z.lor (Z.shiftl ac 8) b) = (ac * 256 + b) mod 4294967296.
Proof. intros H. unfold u32. by rewrite lor_shiftl_add by lia. Qed.

Lemma push6 ac v : 0 ≤ v < 64 → u32 (Z.lor (Z.shiftl ac 6) v) = (ac * 64 + v) mod 4294967296.
Proof. intros H. unfold u32. by rewrite lor_shiftl_add by lia. Qed.

Lemma sextet ac n : 0 ≤ n → Z.land (Z.shiftr ac n) 63 = ac / 2 ^ n mod 64.
Proof.
  intros H. rewrite Z.shiftr_div_pow2 by done. change 63 with (Z.ones 6).
  by rewrite Z.land_ones by lia.
Qed.

Lemma emit8 ac : encode_emit 2 ac 8 = ([b64 (ac / 4 mod 64)], 2).
Proof. lazy -[Z.land Z.shiftr b64 Z.div Z.modulo Z.pow]. by rewrite sextet by lia. Qed.

Lemma emit10 ac : encode_emit 2 ac 10 = ([b64 (ac / 16 mod 64)], 4).
Proof. lazy -[Z.land Z.shiftr b64 Z.div Z.modulo Z.pow]. by rewrite sextet by lia. Qed.

Lemma emit12 ac : encode_emit 2 ac 12 = ([b64 (ac / 64 mod 64); b64 (ac mod 64)], 0).
Proof.
  lazy -[Z.land Z.shiftr b64 Z.div Z.modulo Z.pow]. rewrite !sextet by lia. by rewrite Z.pow_0_r, Z.div_1_r.
Qed.

(** Compares two outputs character by character. *)
Ltac chars :=
  repeat match goal with
  | |- _ :: _ = _ :: _ => apply f_equal2
  | |- b64 _ = b64 _ => apply (f_equal b64)
  | |- _ => reflexivity
  end; divmod.

(** Induction three elements at a time. *)
Lemma triple_ind (P : list Z → Prop) :
  P [] → (∀ x, P [x]) → (∀ x y, P [x; y]) →
  (∀ x y z l, P l → P (x :: y :: z :: l)) → ∀ l, P l.
Proof.
  intros H0 H1 H2 H3 l. cut (P l ∧ (∀ x, P (x :: l)) ∧ ∀ x y, P (x :: y :: l)); [naive_solver|].
  induction l as [|z l (IH1 & IH2 & IH3)]; split_and!; auto.
Qed.

(** The code after the [for] loop. *)
Definition encode_finish (r : list Z * Z * Z) : list Z :=
  let '(out, ac, bits) := r in
  let '(tail, bits) :=
    if negb (bits =? 0)
    then ([b64 (Z.land (u32 (Z.shiftl ac (6 - bits))) 63)], bits - 6)
    else ([], bits) in
  out ++ tail ++ encode_pad 3 bits.

Lemma encode_finish_app o r ac bits :
  encode_finish (o ++ r, ac, bits) = o ++ encode_finish (r, ac, bits).
Proof. unfold encode_finish. destruct (negb _); by rewrite <- !app_assoc. Qed.

Lemma encode_loop_finish src ac :
  bytes src → encode_finish (encode_loop src ac 0) = Rfc4648.encode src.
Proof.
  revert ac. induction src as [|a|a b|a b c src IH] using triple_ind; intros ac;
    rewrite ?bytes_cons; unfold is_byte.
  - done.
  - intros [Ha _]. cbn [encode_loop]. rewrite push8 by lia.
    change (0 + 8) with 8. rewrite emit8.
    lazy -[b64 Z.modulo Z.div Z.land Z.shiftl u32 Z.mul Z.add].
    unfold u32. rewrite Z.shiftl_mul_pow2 by lia. rewrite (land_ones_mod _ 6) by lia.
    chars.
  - intros (Ha & Hb & _). cbn [encode_loop].
    rewrite (push8 ac a), (push8 _ b) by lia.
    change (0 + 8) with 8. rewrite emit8. change (2 + 8) with 10. rewrite emit10.
    lazy -[b64 Z.modulo Z.div Z.land Z.shiftl u32 Z.mul Z.add].
    unfold u32. rewrite Z.shiftl_mul_pow2 by lia. rewrite (land_ones_mod _ 6) by lia.
    chars.
  - intros (Ha & Hb & Hc & Hs). cbn [encode_loop].
    rewrite (push8 ac a), (push8 _ b), (push8 _ c) by lia.
    change (0 + 8) with 8. rewrite emit8. change (2 + 8) with 10. rewrite emit10.
    change (4 + 8) with 12. rewrite emit12.
    set (ac3 := (_ * 256 + c) mod _).
    specialize (IH ac3 Hs). destruct (encode_loop src ac3 0) as [[r ac'] bits].
    rewrite !encode_finish_app, IH. unfold ac3. cbn [app Rfc4648.encode].
    chars.
Qed.

(** ** The alphabet *)

Definition sextets : list Z := Eval vm_compute in Z.of_nat <$> seq 0 64.

Lemma sextets_elem v : 0 ≤ v < 64 → In v sextets.
Proof.
  intros H. change sextets with (List.map Z.of_nat (seq 0 64)).
  apply List.in_map_iff. exists (Z.to_nat v). rewrite in_seq. lia.
Qed.

Lemma sextets_check (p : Z → bool) v :
  forallb p sextets = true → 0 ≤ v < 64 → p v = true.
Proof. rewrite List.forallb_forall. intros H Hv. by apply H, sextets_elem. Qed.

Lemma b64_index_b64 v : 0 ≤ v < 64 → b64_index (b64 v) = Some v.
Proof.
  intros Hv. pose proof (sextets_check
    (λ v, bool_decide (b64_index (b64 v) = Some v)) v) as H.
  by rewrite bool_decide_eq_true in H; apply H.
Qed.

Lemma b64_not_pad v : 0 ≤ v < 64 → b64 v ≠ c_eq.
Proof.
  intros Hv. pose proof (sextets_check (λ v, bool_decide (b64 v ≠ c_eq)) v) as H.
  by rewrite bool_decide_eq_true in H; apply H.
Qed.

Lemma b64_index_inv c v : b64_index c = Some v → 0 ≤ v < 64 ∧ b64 v = c.
Proof.
  unfold b64_index. destruct (c =? 0); [done|].
  destruct (list_find (c =.) base64_table) as [[i x]|] eqn:E; [|done].
  apply list_find_Some in E as (Hi & Hx & _). simpl in Hx. intros [= <-].
  pose proof (lookup_lt_Some _ _ _ Hi) as Hl. simpl in Hl.
  split; [lia|]. unfold b64, char_at. by rewrite Nat2Z.id, Hi.
Qed.

(** ** Groups of four characters *)

Lemma octet ac n : 0 ≤ n → u8 (Z.shiftr ac n) = ac / 2 ^ n mod 256.
Proof. intros H. unfold u8. by rewrite Z.shiftr_div_pow2. Qed.

Lemma decode_step v src ac bits out :
  0 ≤ v < 64 → 0 ≤ bits →
  decode_loop (b64 v :: src) ac bits out =
  (let ac := (ac * 64 + v) mod 4294967296 in
   if 8 <=? bits + 6
   then decode_loop src ac (bits + 6 - 8) (out ++ [ac / 2 ^ (bits + 6 - 8) mod 256])
   else decode_loop src ac (bits + 6) out).
Proof.
  intros Hv Hb. cbn [decode_loop]. rewrite b64_index_b64, push6 by done.
  destruct (Z.leb_spec 8 (bits + 6)); [|done]. by rewrite octet by lia.
Qed.

Lemma decode_end ac bits out :
  0 ≤ bits →
  decode_loop [] ac bits out = if ac mod 2 ^ bits =? 0 then Ok out else Err EINVAL.
Proof.
  intros H. cbn [decode_loop]. rewrite Z.shiftl_1_l, land_ones_mod by done.
  by destruct (_ =? 0).
Qed.

Lemma decode_group v0 v1 v2 v3 src ac out :
  0 ≤ v0 < 64 → 0 ≤ v1 < 64 → 0 ≤ v2 < 64 → 0 ≤ v3 < 64 →
  ∃ ac', decode_loop (b64 v0 :: b64 v1 :: b64 v2 :: b64 v3 :: src) ac 0 out =
    decode_loop src ac' 0
      (out ++ [v0 * 4 + v1 / 16; v1 mod 16 * 16 + v2 / 4; v2 mod 4 * 64 + v3]).
Proof.
  intros H0 H1 H2 H3. eexists.
  rewrite decode_step by lia. change (8 <=? 0 + 6) with false. cbn iota zeta.
  rewrite decode_step by lia. change (8 <=? 0 + 6 + 6) with true. cbn iota zeta.
  rewrite decode_step by lia. change (8 <=? 0 + 6 + 6 - 8 + 6) with true. cbn iota zeta.
  rewrite decode_step by lia.
  change (8 <=? 0 + 6 + 6 - 8 + 6 - 8 + 6) with true. cbn iota zeta.
  change (0 + 6 + 6 - 8 + 6 - 8 + 6 - 8) with 0.
  change (0 + 6 + 6 - 8 + 6 - 8) with 2. change (0 + 6 + 6 - 8) with 4.
  rewrite <- !app_assoc. cbn [app].
  match goal with |- decode_loop _ _ _ (_ ++ [?a; ?b; ?c]) = _ =>
    replace a with (v0 * 4 + v1 / 16) by divmod;
    replace b with (v1 mod 16 * 16 + v2 / 4) by divmod;
    replace c with (v2 mod 4 * 64 + v3) by divmod
  end. reflexivity.
Qed.

Lemma decode_tail2 v0 v1 ac out :
  0 ≤ v0 < 64 → 0 ≤ v1 < 64 →
  decode_loop [b64 v0; b64 v1] ac 0 out =
  if v1 mod 16 =? 0 then Ok (out ++ [v0 * 4 + v1 / 16]) else Err EINVAL.
Proof.
  intros H0 H1.
  rewrite decode_step by lia. change (8 <=? 0 + 6) with false. cbn iota zeta.
  rewrite decode_step by lia. change (8 <=? 0 + 6 + 6) with true. cbn iota zeta.
  rewrite decode_end by lia. change (0 + 6 + 6 - 8) with 4. change (2 ^ 4) with 16.
  match goal with |- (if ?a =? 0 then Ok (_ ++ [?b]) else _) = _ =>
    replace a with (v1 mod 16) by divmod;
    replace b with (v0 * 4 + v1 / 16) by divmod
  end. reflexivity.
Qed.

Lemma decode_tail3 v0 v1 v2 ac out :
  0 ≤ v0 < 64 → 0 ≤ v1 < 64 → 0 ≤ v2 < 64 →
  decode_loop [b64 v0; b64 v1; b64 v2] ac 0 out =
  if v2 mod 4 =? 0
  then Ok (out ++ [v0 * 4 + v1 / 16; v1 mod 16 * 16 + v2 / 4]) else Err EINVAL.
Proof.
  intros H0 H1 H2.
  rewrite decode_step by lia. change (8 <=? 0 + 6) with false. cbn iota zeta.
  rewrite decode_step by lia. change (8 <=? 0 + 6 + 6) with true. cbn iota zeta.
  rewrite decode_step by lia. change (8 <=? 0 + 6 + 6 - 8 + 6) with true. cbn iota zeta.
  rewrite decode_end by lia.
  change (0 + 6 + 6 - 8 + 6 - 8) with 2. change (0 + 6 + 6 - 8) with 4.
  rewrite <- app_assoc. cbn [app]. change (2 ^ 2) with 4.
  match goal with |- (if ?a =? 0 then Ok (_ ++ [?b; ?c]) else _) = _ =>
    replace a with (v2 mod 4) by divmod;
    replace b with (v0 * 4 + v1 / 16) by divmod;
    replace c with (v1 mod 16 * 16 + v2 / 4) by divmod
  end. reflexivity.
Qed.

(** ** Body and padding of an encoding *)

Fixpoint enc_body (bs : list Z) : list Z :=
  match bs with
  | a :: b :: c :: bs' =>
      [b64 (a / 4); b64 (a mod 4 * 16 + b / 16);
       b64 (b mod 16 * 4 + c / 64); b64 (c mod 64)] ++ enc_body bs'
  | [a; b] => [b64 (a / 4); b64 (a mod 4 * 16 + b / 16); b64 (b mod 16 * 4)]
  | [a] => [b64 (a / 4); b64 (a mod 4 * 16)]
  | [] => []
  end.

Fixpoint enc_pad (bs : list Z) : nat :=
  match bs with
  | _ :: _ :: _ :: bs' => enc_pad bs'
  | [_; _] => 1
  | [_] => 2
  | [] => 0
  end.

Lemma encode_body_pad bs :
  Rfc4648.encode bs = enc_body bs ++ replicate (enc_pad bs) c_eq.
Proof. induction bs as [| | |a b c bs IH] using triple_ind; simpl; [done..|]. by rewrite IH. Qed.

Lemma enc_body_length bs :
  ∃ k, length (enc_body bs) = (4 * k + (4 - enc_pad bs) `mod` 4)%nat ∧
       (enc_pad bs ≤ 2)%nat.
Proof.
  induction bs as [| | |a b c bs (k & IH & Hp)] using triple_ind;
    cbn [enc_body enc_pad app length].
  - exists 0%nat. split; [reflexivity|lia].
  - exists 0%nat. split; [reflexivity|lia].
  - exists 0%nat. split; [reflexivity|lia].
  - exists (S k). rewrite IH. lia.
Qed.

Lemma enc_body_no_pad bs : bytes bs → c_eq ∉ enc_body bs.
Proof.
  induction bs as [| | |a b c bs IH] using triple_ind; rewrite ?bytes_cons;
    unfold is_byte; intros H; simpl; rewrite ?not_elem_of_cons.
  - apply not_elem_of_nil.
  - destruct H as [H _]. split_and!; try apply not_elem_of_nil;
      apply not_eq_sym, b64_not_pad; divmod.
  - destruct H as (? & ? & _). split_and!; try apply not_elem_of_nil;
      apply not_eq_sym, b64_not_pad; divmod.
  - destruct H as (? & ? & ? & ?). split_and!; [..|by apply IH];
      apply not_eq_sym, b64_not_pad; divmod.
Qed.

Lemma decode_enc_body bs ac out :
  bytes bs → decode_loop (enc_body bs) ac 0 out = Ok (out ++ bs).
Proof.
  revert ac out. induction bs as [|a|a b|a b c bs IH] using triple_ind;
    intros ac out; rewrite ?bytes_cons; unfold is_byte; intros H; cbn [enc_body].
  - rewrite decode_end by lia. rewrite Z.pow_0_r, Z.mod_1_r. by rewrite app_nil_r.
  - destruct H as [H _]. rewrite decode_tail2 by divmod.
    replace (a mod 4 * 16 mod 16) with 0 by divmod. simpl. do 3 f_equal. divmod.
  - destruct H as (? & ? & _). rewrite decode_tail3 by divmod.
    replace (b mod 16 * 4 mod 4) with 0 by divmod. simpl.
    do 2 f_equal. chars.
  - destruct H as (? & ? & ? & ?). cbn [app].
    edestruct decode_group as [ac' ->]; [..|rewrite IH by done]; [divmod..|].
    rewrite <- app_assoc. do 2 f_equal. cbn [app]. chars.
Qed.

(** [decode_pad] counts exactly the trailing padding. *)
Lemma decode_pad_Ok src n pad m :
  decode_pad src n pad = Ok m →
  (m ≤ n)%nat ∧ (pad ≤ 2 → n - m + pad ≤ 2)%nat ∧
  (∀ i, (m ≤ i < n)%nat → char_at src i = c_eq) ∧
  ((0 < m)%nat → char_at src (m - 1) ≠ c_eq).
Proof.
  revert pad. induction n as [|n IH]; intros pad; cbn [decode_pad].
  { intros [= <-]. split_and!; lia. }
  destruct (Z.eqb_spec (char_at src n) c_eq) as [He|He].
  - destruct (Nat.ltb_spec 2 (S pad)); [done|].
    intros (H1 & H2 & H3 & H4)%IH. split_and!; [lia|lia| |done].
    intros i Hi. destruct (decide (i = n)) as [->|]; [done|]. apply H3. lia.
  - intros [= <-]. split_and!; [lia|lia|lia|]. intros _.
    by replace (S n - 1)%nat with n by lia.
Qed.

Lemma decode_pad_replicate body k j pad :
  c_eq ∉ body → (j ≤ k)%nat → (j + pad ≤ 2)%nat →
  decode_pad (body ++ replicate k c_eq) (length body + j) pad = Ok (length body).
Proof.
  intros Hb Hj. revert pad. induction j as [|j IH]; intros pad Hk.
  - rewrite Nat.add_0_r. destruct body as [|c body _] using rev_ind; [done|].
    rewrite length_app. simpl. rewrite Nat.add_1_r. cbn [decode_pad].
    unfold char_at. rewrite <- app_assoc, lookup_app_r, Nat.sub_diag by lia. simpl.
    destruct (Z.eqb_spec c c_eq); [set_solver|done].
  - rewrite Nat.add_succ_r. cbn [decode_pad]. unfold char_at at 1.
    rewrite lookup_app_r, Nat.add_comm, Nat.add_sub by lia.
    rewrite lookup_replicate_2 by lia. simpl.
    destruct (Nat.ltb_spec 2 (S pad)); [lia|].
    rewrite Nat.add_comm. apply IH; lia.
Qed.

Lemma shr_base64_encode_rfc src :
  bytes src → shr_base64_encode src = Rfc4648.encode src.
Proof. apply (encode_loop_finish src 0). Qed.

Lemma decode_body_pad body k :
  c_eq ∉ body → (k ≤ 2)%nat → ((length body + k) mod 4 = 0)%nat →
  shr_base64_decode (body ++ replicate k c_eq) = decode_loop body 0 0 [].
Proof.
  intros Hb Hk Hl. unfold shr_base64_decode.
  rewrite length_app, length_replicate, Hl. cbn [Nat.eqb negb].
  rewrite decode_pad_replicate by (done || lia). cbn [mbind result_bind].
  by rewrite take_app_length.
Qed.

Lemma decode_encode_rfc bs : bytes bs → shr_base64_decode (Rfc4648.encode bs) = Ok bs.
Proof.
  intros Hb. rewrite encode_body_pad.
  destruct (enc_body_length bs) as (k & Hl & Hp).
  rewrite decode_body_pad; [by apply decode_enc_body|by apply enc_body_no_pad|done|].
  ndivmod.
Qed.

(** Induction four elements at a time. *)
Lemma quad_ind (P : list Z → Prop) :
  P [] → (∀ x, P [x]) → (∀ x y, P [x; y]) → (∀ x y z, P [x; y; z]) →
  (∀ x y z w l, P l → P (x :: y :: z :: w :: l)) → ∀ l, P l.
Proof.
  intros H0 H1 H2 H3 H4 l.
  cut (P l ∧ (∀ x, P (x :: l)) ∧ (∀ x y, P (x :: y :: l)) ∧ ∀ x y z, P (x :: y :: z :: l));
    [naive_solver|].
  induction l as [|w l (IH1 & IH2 & IH3 & IH4)]; split_and!; auto.
Qed.

Lemma decode_loop_head c src ac bits out r :
  decode_loop (c :: src) ac bits out = Ok r → ∃ v, 0 ≤ v < 64 ∧ c = b64 v.
Proof.
  cbn [decode_loop]. destruct (b64_index c) as [v|] eqn:E; [|done]. intros _.
  exists v. apply b64_index_inv in E as [? <-]. done.
Qed.

(** Every character of a body the loop accepts is in the alphabet. *)
Lemma decode_loop_alphabet src ac bits out r :
  decode_loop src ac bits out = Ok r → Forall (λ c, ∃ v, 0 ≤ v < 64 ∧ c = b64 v) src.
Proof.
  revert ac bits out. induction src as [|c src IH]; intros ac bits out H; [done|].
  constructor; [by eapply decode_loop_head|].
  cbn [decode_loop] in H. destruct (b64_index c); [|done].
  destruct (8 <=? bits + 6); by eapply IH.
Qed.

(** What the loop accepts is the body of the encoding of what it returns. *)
Lemma decode_loop_inv src ac out r :
  decode_loop src ac 0 out = Ok r → (length src mod 4 ≠ 1)%nat →
  ∃ bs, r = out ++ bs ∧ bytes bs ∧ src = enc_body bs.
Proof.
  intros H. pose proof (decode_loop_alphabet _ _ _ _ _ H) as Ha. revert ac out H Ha.
  induction src as [|x|x y|x y z|x y z w src IH] using quad_ind; intros ac out H Ha Hl.
  - rewrite decode_end, Z.pow_0_r, Z.mod_1_r in H by lia. simpl in H. simplify_eq.
    exists []. rewrite app_nil_r. split_and!; [done|constructor|done].
  - done.
  - rewrite !list.Forall_cons in Ha. destruct Ha as ((v0 & H0 & ->) & (v1 & H1 & ->) & _).
    rewrite decode_tail2 in H by done. destruct (Z.eqb_spec (v1 mod 16) 0); simplify_eq.
    eexists. split; [done|]. split.
    + repeat constructor; divmod.
    + cbn [enc_body]. chars.
  - rewrite !list.Forall_cons in Ha.
    destruct Ha as ((v0 & H0 & ->) & (v1 & H1 & ->) & (v2 & H2 & ->) & _).
    rewrite decode_tail3 in H by done. destruct (Z.eqb_spec (v2 mod 4) 0); simplify_eq.
    eexists. split; [done|]. split.
    + repeat constructor; divmod.
    + cbn [enc_body]. chars.
  - rewrite !list.Forall_cons in Ha.
    destruct Ha as ((v0 & H0 & ->) & (v1 & H1 & ->) & (v2 & H2 & ->) & (v3 & H3 & ->) & Ha).
    destruct (decode_group v0 v1 v2 v3 src ac out) as [ac' E]; [done..|].
    rewrite E in H. apply IH in H as (bs & -> & Hbs & ->); [|done|].
    + eexists. rewrite <- app_assoc. split; [done|]. split.
      * rewrite bytes_app. split; [repeat constructor; divmod|done].
      * cbn [app enc_body]. chars.
    + intros Hm. apply Hl. cbn [length]. revert Hm. ndivmod.
Qed.

Lemma decode_Ok_encode s bs :
  shr_base64_decode s = Ok bs → bytes bs ∧ s = Rfc4648.encode bs.
Proof.
  unfold shr_base64_decode.
  destruct (Nat.eqb_spec (length s mod 4) 0) as [Hm|]; [|done]. cbn [negb].
  destruct (decode_pad s (length s) 0) as [n|] eqn:Hp; [|done]. cbn [mbind result_bind].
  intros H. apply decode_pad_Ok in Hp as (Hn & Hpad & Heq & _).
  assert (Hs : s = take n s ++ replicate (length s - n) c_eq).
  { rewrite <- (take_drop n s) at 1. f_equal. apply list_eq. intros i.
    rewrite lookup_drop. destruct (decide (n + i < length s)%nat) as [Hi|Hi].
    - rewrite lookup_replicate_2 by lia. specialize (Heq (n + i)%nat ltac:(lia)).
      unfold char_at in Heq. destruct (s !! (n + i)%nat) eqn:E; simpl in Heq; congruence.
    - rewrite !lookup_ge_None_2; [done|rewrite length_replicate; lia|lia]. }
  assert (Hlt : length (take n s) = n) by (rewrite length_take; lia).
  apply decode_loop_inv in H as (bs' & -> & Hbs & Hb); [|rewrite Hlt; ndivmod].
  simpl. split; [done|]. rewrite Hs, Hb, encode_body_pad. do 2 f_equal.
  destruct (enc_body_length bs') as (k & Hl & Hk). rewrite <- Hb, Hlt in Hl.
  revert Hm Hn Hpad Hl Hk. clear. ndivmod.
Qed.

(** ** Properties *)

(** the accumulator loop of [shr_base64_encode], with its 32-bit
    wrap-around, produces exactly the RFC 4648 encoding of every byte string,
    padding included. *)
Theorem shr_base64_encode_spec src :
  bytes src → shr_base64_encode src = Rfc4648.encode src.
Proof. apply shr_base64_encode_rfc. Qed.

Lemma shr_base64_encode_spec_witness :
  shr_base64_encode (lit "Ma") = Rfc4648.encode (lit "Ma").
Proof. apply shr_base64_encode_spec. repeat constructor; unfold is_byte; lia. Defined.

(** the decoder accepts exactly the encodings: it returns [bs] for a text
    if and only if [bs] are bytes and the text is the encoding of [bs].  So
    decoding inverts encoding, and no text but the canonical one (length,
    alphabet, padding and zero trailing bits) decodes to a given byte string. *)
Theorem shr_base64_decode_iff s bs :
  shr_base64_decode s = Ok bs ↔ bytes bs ∧ s = shr_base64_encode bs.
Proof.
  split.
  - intros [Hb ->]%decode_Ok_encode. by rewrite shr_base64_encode_rfc.
  - intros [Hb ->]. rewrite shr_base64_encode_rfc by done. by apply decode_encode_rfc.
Qed.
