(* ===== verification/Crc32.v ===== *)
(** * CRC-32: [shared/crc32-util.c]

    The table-driven CRC the TLS key interchange format uses, against the
    shift register it stands for: one bit at a time, polynomial 0xedb88320 in
    reflected order. *)

From Stdlib Require Import String.
From stdpp Require Import base list numbers.
From S2P Require Import Prelude.
From S2P Require Import CStr.

Definition crc32_tab : list Z :=
  [0x00000000; 0x77073096; 0xee0e612c; 0x990951ba; 0x076dc419; 0x706af48f;
   0xe963a535; 0x9e6495a3; 0x0edb8832; 0x79dcb8a4; 0xe0d5e91e; 0x97d2d988;
   0x09b64c2b; 0x7eb17cbd; 0xe7b82d07; 0x90bf1d91; 0x1db71064; 0x6ab020f2;
   0xf3b97148; 0x84be41de; 0x1adad47d; 0x6ddde4eb; 0xf4d4b551; 0x83d385c7;
   0x136c9856; 0x646ba8c0; 0xfd62f97a; 0x8a65c9ec; 0x14015c4f; 0x63066cd9;
   0xfa0f3d63; 0x8d080df5; 0x3b6e20c8; 0x4c69105e; 0xd56041e4; 0xa2677172;
   0x3c03e4d1; 0x4b04d447; 0xd20d85fd; 0xa50ab56b; 0x35b5a8fa; 0x42b2986c;
   0xdbbbc9d6; 0xacbcf940; 0x32d86ce3; 0x45df5c75; 0xdcd60dcf; 0xabd13d59;
   0x26d930ac; 0x51de003a; 0xc8d75180; 0xbfd06116; 0x21b4f4b5; 0x56b3c423;
   0xcfba9599; 0xb8bda50f; 0x2802b89e; 0x5f058808; 0xc60cd9b2; 0xb10be924;
   0x2f6f7c87; 0x58684c11; 0xc1611dab; 0xb6662d3d; 0x76dc4190; 0x01db7106;
   0x98d220bc; 0xefd5102a; 0x71b18589; 0x06b6b51f; 0x9fbfe4a5; 0xe8b8d433;
   0x7807c9a2; 0x0f00f934; 0x9609a88e; 0xe10e9818; 0x7f6a0dbb; 0x086d3d2d;
   0x91646c97; 0xe6635c01; 0x6b6b51f4; 0x1c6c6162; 0x856530d8; 0xf262004e;
   0x6c0695ed; 0x1b01a57b; 0x8208f4c1; 0xf50fc457; 0x65b0d9c6; 0x12b7e950;
   0x8bbeb8ea; 0xfcb9887c; 0x62dd1ddf; 0x15da2d49; 0x8cd37cf3; 0xfbd44c65;
   0x4db26158; 0x3ab551ce; 0xa3bc0074; 0xd4bb30e2; 0x4adfa541; 0x3dd895d7;
   0xa4d1c46d; 0xd3d6f4fb; 0x4369e96a; 0x346ed9fc; 0xad678846; 0xda60b8d0;
   0x44042d73; 0x33031de5; 0xaa0a4c5f; 0xdd0d7cc9; 0x5005713c; 0x270241aa;
   0xbe0b1010; 0xc90c2086; 0x5768b525; 0x206f85b3; 0xb966d409; 0xce61e49f;
   0x5edef90e; 0x29d9c998; 0xb0d09822; 0xc7d7a8b4; 0x59b33d17; 0x2eb40d81;
   0xb7bd5c3b; 0xc0ba6cad; 0xedb88320; 0x9abfb3b6; 0x03b6e20c; 0x74b1d29a;
   0xead54739; 0x9dd277af; 0x04db2615; 0x73dc1683; 0xe3630b12; 0x94643b84;
   0x0d6d6a3e; 0x7a6a5aa8; 0xe40ecf0b; 0x9309ff9d; 0x0a00ae27; 0x7d079eb1;
   0xf00f9344; 0x8708a3d2; 0x1e01f268; 0x6906c2fe; 0xf762575d; 0x806567cb;
   0x196c3671; 0x6e6b06e7; 0xfed41b76; 0x89d32be0; 0x10da7a5a; 0x67dd4acc;
   0xf9b9df6f; 0x8ebeeff9; 0x17b7be43; 0x60b08ed5; 0xd6d6a3e8; 0xa1d1937e;
   0x38d8c2c4; 0x4fdff252; 0xd1bb67f1; 0xa6bc5767; 0x3fb506dd; 0x48b2364b;
   0xd80d2bda; 0xaf0a1b4c; 0x36034af6; 0x41047a60; 0xdf60efc3; 0xa867df55;
   0x316e8eef; 0x4669be79; 0xcb61b38c; 0xbc66831a; 0x256fd2a0; 0x5268e236;
   0xcc0c7795; 0xbb0b4703; 0x220216b9; 0x5505262f; 0xc5ba3bbe; 0xb2bd0b28;
   0x2bb45a92; 0x5cb36a04; 0xc2d7ffa7; 0xb5d0cf31; 0x2cd99e8b; 0x5bdeae1d;
   0x9b64c2b0; 0xec63f226; 0x756aa39c; 0x026d930a; 0x9c0906a9; 0xeb0e363f;
   0x72076785; 0x05005713; 0x95bf4a82; 0xe2b87a14; 0x7bb12bae; 0x0cb61b38;
   0x92d28e9b; 0xe5d5be0d; 0x7cdcefb7; 0x0bdbdf21; 0x86d3d2d4; 0xf1d4e242;
   0x68ddb3f8; 0x1fda836e; 0x81be16cd; 0xf6b9265b; 0x6fb077e1; 0x18b74777;
   0x88085ae6; 0xff0f6a70; 0x66063bca; 0x11010b5c; 0x8f659eff; 0xf862ae69;
   0x616bffd3; 0x166ccf45; 0xa00ae278; 0xd70dd2ee; 0x4e048354; 0x3903b3c2;
   0xa7672661; 0xd06016f7; 0x4969474d; 0x3e6e77db; 0xaed16a4a; 0xd9d65adc;
   0x40df0b66; 0x37d83bf0; 0xa9bcae53; 0xdebb9ec5; 0x47b2cf7f; 0x30b5ffe9;
   0xbdbdf21c; 0xcabac28a; 0x53b39330; 0x24b4a3a6; 0xbad03605; 0xcdd70693;
   0x54de5729; 0x23d967bf; 0xb3667a2e; 0xc4614ab8; 0x5d681b02; 0x2a6f2b94;
   0xb40bbe37; 0xc30c8ea1; 0x5a05df1b; 0x2d02ef8d].

(** [while (size--)]: one table lookup per byte. *)
Fixpoint crc32_loop (crc : Z) (p : list Z) : Z :=
  match p with
  | [] => crc
  | b :: p' =>
      crc32_loop (Z.lxor (char_at crc32_tab (Z.to_nat (Z.land (Z.lxor crc b) 0xFF)))
                         (Z.shiftr crc 8)) p'
  end.

(** [~crc] of a [uint32_t]. *)
Definition not32 (z : Z) : Z := Z.lxor z 0xffffffff.

Definition shr_crc32 (crc : Z) (buf : list Z) : Z :=
  not32 (crc32_loop (not32 crc) buf).

(** ** Reference: the feedback shift register *)

Module CrcSpec.

Definition poly : Z := 0xedb88320.

(** One bit, for the polynomial [p]. *)
Definition shift (p r : Z) : Z :=
  if Z.odd r then Z.lxor (Z.shiftr r 1) p else Z.shiftr r 1.

Definition step (p r b : Z) : Z := Nat.iter 8 (shift p) (Z.lxor r b).

Definition crc32 (crc : Z) (buf : list Z) : Z := not32 (foldl (step poly) (not32 crc) buf).

(** A polynomial of degree 32. *)
Definition degree32 (p : Z) : Prop := 0 ≤ p < 2 ^ 32 ∧ Z.testbit p 31 = true.

End CrcSpec.

(** ** Lemmas *)

Lemma shift_lxor p x y : CrcSpec.shift p (Z.lxor x y) = Z.lxor (CrcSpec.shift p x) (CrcSpec.shift p y).
Proof.
  unfold CrcSpec.shift. rewrite <- !Z.bit0_odd, Z.lxor_spec, Z.shiftr_lxor.
  destruct (Z.testbit x 0), (Z.testbit y 0); simpl;
    apply Z.bits_inj'; intros n Hn; rewrite !Z.lxor_spec;
    destruct (Z.testbit (Z.shiftr x 1) n), (Z.testbit (Z.shiftr y 1) n),
      (Z.testbit p n); done.
Qed.

Lemma iter_shift_lxor p n x y :
  Nat.iter n (CrcSpec.shift p) (Z.lxor x y) =
  Z.lxor (Nat.iter n (CrcSpec.shift p) x) (Nat.iter n (CrcSpec.shift p) y).
Proof. induction n as [|n IH]; simpl; [done|]. by rewrite IH, shift_lxor. Qed.

Lemma shift_shiftl p y k : 0 < k → CrcSpec.shift p (Z.shiftl y k) = Z.shiftl y (k - 1).
Proof.
  intros Hk. unfold CrcSpec.shift. rewrite <- Z.bit0_odd, Z.shiftl_spec_low by lia.
  rewrite Z.shiftr_shiftl_l by lia. done.
Qed.

Lemma iter_shift_shiftl p n y k :
  Z.of_nat n ≤ k → Nat.iter n (CrcSpec.shift p) (Z.shiftl y k) = Z.shiftl y (k - Z.of_nat n).
Proof.
  induction n as [|n IH]; intros Hk; [simpl; f_equal; lia|].
  change (Nat.iter (S n) ?f ?x) with (f (Nat.iter n f x)).
  rewrite IH, shift_shiftl by lia. f_equal. lia.
Qed.

(** The low byte and the rest of the register. *)
Lemma low_byte_split x : x = Z.lxor (Z.land x 0xFF) (Z.shiftl (Z.shiftr x 8) 8).
Proof.
  apply Z.bits_inj'. intros n Hn. change 0xFF with (Z.ones 8).
  rewrite Z.lxor_spec, Z.land_spec, Z.shiftl_spec by done.
  destruct (Z.ltb_spec n 8).
  - rewrite Z.ones_spec_low, (Z.testbit_neg_r _ (n - 8)) by lia.
    by rewrite andb_true_r, xorb_false_r.
  - rewrite Z.ones_spec_high, andb_false_r, Z.shiftr_spec by lia.
    simpl. f_equal. lia.
Qed.

(** The table holds eight shifts of each byte value. *)
Lemma crc32_tab_correct :
  forallb (λ i, char_at crc32_tab i =? Nat.iter 8 (CrcSpec.shift CrcSpec.poly) (Z.of_nat i))
    (seq 0 256) = true.
Proof. vm_compute. reflexivity. Qed.

Lemma crc32_tab_lookup i :
  0 ≤ i < 256 → char_at crc32_tab (Z.to_nat i) = Nat.iter 8 (CrcSpec.shift CrcSpec.poly) i.
Proof.
  intros H. pose proof crc32_tab_correct as Ht. rewrite List.forallb_forall in Ht.
  specialize (Ht (Z.to_nat i)). rewrite Z.eqb_eq, Z2Nat.id in Ht by lia.
  apply Ht, in_seq. lia.
Qed.

Lemma shiftr8_byte c b : is_byte b → Z.shiftr (Z.lxor c b) 8 = Z.shiftr c 8.
Proof.
  unfold is_byte. intros H. rewrite Z.shiftr_lxor.
  rewrite (Z.shiftr_div_pow2 b) by lia. rewrite (Z.div_small b) by lia.
  apply Z.lxor_0_r.
Qed.

Lemma crc32_step c b :
  is_byte b →
  Z.lxor (char_at crc32_tab (Z.to_nat (Z.land (Z.lxor c b) 0xFF))) (Z.shiftr c 8) =
  CrcSpec.step CrcSpec.poly c b.
Proof.
  intros Hb. unfold CrcSpec.step.
  rewrite (low_byte_split (Z.lxor c b)) at 2. rewrite iter_shift_lxor.
  rewrite iter_shift_shiftl, Z.shiftl_0_r by lia. rewrite shiftr8_byte by done.
  f_equal. apply crc32_tab_lookup. change 0xFF with (Z.ones 8).
  rewrite Z.land_ones by lia. apply Z.mod_pos_bound. lia.
Qed.

Lemma crc32_loop_spec p c : bytes p → crc32_loop c p = foldl (CrcSpec.step CrcSpec.poly) c p.
Proof.
  intros H. revert c. induction H as [|b p Hb Hp IH]; intros c; simpl; [done|].
  by rewrite crc32_step, IH.
Qed.

Lemma crc32_loop_app p q c : crc32_loop c (p ++ q) = crc32_loop (crc32_loop c p) q.
Proof. revert c. induction p as [|b p IH]; intros c; simpl; [done|]. apply IH. Qed.

Lemma not32_involutive z : not32 (not32 z) = z.
Proof. unfold not32. by rewrite Z.lxor_assoc, Z.lxor_nilpotent, Z.lxor_0_r. Qed.

(** *** The register step is injective on 32-bit values *)

Definition word32 (z : Z) : Prop := 0 ≤ z < 2 ^ 32.

Lemma word32_bits z : word32 z ↔ 0 ≤ z ∧ ∀ n, 32 ≤ n → Z.testbit z n = false.
Proof.
  unfold word32. split.
  - intros [H1 H2]. split; [done|]. intros n Hn.
    rewrite <- (Z.mod_small z (2 ^ 32)) by lia. apply Z.mod_pow2_bits_high. lia.
  - intros [H1 H2]. split; [done|].
    assert (z = z mod 2 ^ 32) as ->; [|apply Z.mod_pos_bound; lia].
    apply Z.bits_inj'. intros n Hn. destruct (Z.ltb_spec n 32).
    + by rewrite Z.mod_pow2_bits_low.
    + rewrite Z.mod_pow2_bits_high, H2 by lia. done.
Qed.

Lemma word32_lxor x y : word32 x → word32 y → word32 (Z.lxor x y).
Proof.
  rewrite !word32_bits. intros [Hx1 Hx2] [Hy1 Hy2]. split; [by apply Z.lxor_nonneg|].
  intros n Hn. by rewrite Z.lxor_spec, Hx2, Hy2.
Qed.

Lemma word32_shiftr x k : 0 ≤ k → word32 x → word32 (Z.shiftr x k).
Proof.
  intros Hk. rewrite !word32_bits. intros [H1 H2]. split; [by apply Z.shiftr_nonneg|].
  intros n Hn. rewrite Z.shiftr_spec by lia. apply H2. lia.
Qed.

Lemma byte_word32 b : is_byte b → word32 b.
Proof. unfold is_byte, word32. lia. Qed.

#[export] Hint Resolve word32_lxor byte_word32 : nvme.

Section Register.
Context (p : Z) (Hp : CrcSpec.degree32 p).

Lemma word32_shift x : word32 x → word32 (CrcSpec.shift p x).
Proof using Hp.
  intros H. unfold CrcSpec.shift.
  destruct (Z.odd x); [apply word32_lxor; [|apply Hp]|]; by apply word32_shiftr.
Qed.

Lemma word32_iter n x : word32 x → word32 (Nat.iter n (CrcSpec.shift p) x).
Proof using Hp. induction n; simpl; auto using word32_shift. Qed.

(** The feedback bit is the top bit of the result. *)
Lemma shift_zero x : word32 x → CrcSpec.shift p x = 0 → x = 0.
Proof using Hp.
  intros Hx H. pose proof Hx as [H0 Hbits]%word32_bits.
  assert (Htop : Z.testbit (CrcSpec.shift p x) 31 = Z.testbit x 0).
  { unfold CrcSpec.shift. rewrite <- Z.bit0_odd.
    destruct (Z.testbit x 0); rewrite ?Z.lxor_spec, Z.shiftr_spec, Hbits by lia; [|done].
    by rewrite (proj2 Hp). }
  rewrite H, Z.bits_0 in Htop.
  unfold CrcSpec.shift in H. rewrite <- Z.bit0_odd, <- Htop in H.
  apply Z.bits_inj'. intros n Hn. rewrite Z.bits_0.
  destruct (decide (n = 0)) as [->|]; [done|].
  replace n with (n - 1 + 1) by lia. rewrite <- Z.shiftr_spec, H by lia. apply Z.bits_0.
Qed.

Lemma iter_shift_zero n x : word32 x → Nat.iter n (CrcSpec.shift p) x = 0 → x = 0.
Proof using Hp.
  intros Hx. induction n as [|n IH]; simpl; [done|].
  intros H%shift_zero; auto using word32_iter.
Qed.

Lemma step_lxor c1 c2 b1 b2 :
  Z.lxor (CrcSpec.step p c1 b1) (CrcSpec.step p c2 b2) =
  Nat.iter 8 (CrcSpec.shift p) (Z.lxor (Z.lxor c1 c2) (Z.lxor b1 b2)).
Proof.
  unfold CrcSpec.step. rewrite <- iter_shift_lxor. f_equal.
  apply Z.bits_inj'. intros n _. rewrite !Z.lxor_spec.
  destruct (Z.testbit c1 n), (Z.testbit c2 n), (Z.testbit b1 n), (Z.testbit b2 n); done.
Qed.

Lemma word32_step c b : word32 c → is_byte b → word32 (CrcSpec.step p c b).
Proof using Hp. unfold CrcSpec.step. auto using word32_iter with nvme. Qed.

Lemma word32_foldl q c : word32 c → bytes q → word32 (foldl (CrcSpec.step p) c q).
Proof using Hp.
  intros Hc H. revert c Hc. induction H as [|b q Hb Hq IH]; intros c Hc; simpl; [done|].
  apply IH. by apply word32_step.
Qed.

Lemma step_inj c1 c2 b1 b2 :
  word32 c1 → word32 c2 → is_byte b1 → is_byte b2 →
  CrcSpec.step p c1 b1 = CrcSpec.step p c2 b2 → Z.lxor c1 c2 = Z.lxor b1 b2.
Proof using Hp.
  intros H1 H2 Hb1 Hb2 H.
  assert (Hz : Z.lxor (CrcSpec.step p c1 b1) (CrcSpec.step p c2 b2) = 0)
    by (rewrite H; apply Z.lxor_nilpotent).
  rewrite step_lxor in Hz. apply iter_shift_zero in Hz; [|auto 7 with nvme].
  by apply Z.lxor_eq.
Qed.

Lemma foldl_step_inj q c1 c2 :
  word32 c1 → word32 c2 → bytes q →
  foldl (CrcSpec.step p) c1 q = foldl (CrcSpec.step p) c2 q → c1 = c2.
Proof using Hp.
  intros H1 H2 H. revert c1 c2 H1 H2.
  induction H as [|b q Hb Hq IH]; intros c1 c2 H1 H2; simpl; [done|].
  intros E%IH; [|by apply word32_step..].
  apply step_inj in E; [|done..]. rewrite Z.lxor_nilpotent in E. by apply Z.lxor_eq.
Qed.

(** Two buffers that differ in one byte leave different registers. *)
Lemma register_detects_byte c q b1 b2 r :
  word32 c → bytes q → bytes r → is_byte b1 → is_byte b2 → b1 ≠ b2 →
  foldl (CrcSpec.step p) c (q ++ b1 :: r) ≠ foldl (CrcSpec.step p) c (q ++ b2 :: r).
Proof using Hp.
  intros Hc Hq Hr H1 H2 Hne E. rewrite !foldl_app in E. simpl in E.
  assert (Hw : word32 (foldl (CrcSpec.step p) c q)) by by apply word32_foldl.
  apply foldl_step_inj in E; [|by apply word32_step..|done].
  apply step_inj in E; [|done..]. rewrite Z.lxor_nilpotent in E.
  apply Hne. by apply Z.lxor_eq.
Qed.
End Register.

Lemma poly_degree : CrcSpec.degree32 CrcSpec.poly.
Proof. done. Qed.

(** ** Properties *)

(** the table-driven [shr_crc32] computes the CRC-32 of the shift register
    with polynomial 0xedb88320 for every initial value and every buffer. *)
Theorem shr_crc32_bitwise crc buf :
  bytes buf → shr_crc32 crc buf = CrcSpec.crc32 crc buf.
Proof. intros H. unfold shr_crc32, CrcSpec.crc32. by rewrite crc32_loop_spec. Qed.

Lemma shr_crc32_bitwise_witness :
  shr_crc32 0 (lit "123456789") = CrcSpec.crc32 0 (lit "123456789") ∧
  CrcSpec.crc32 0 (lit "123456789") = 0xcbf43926.
Proof.
  split; [|vm_compute; reflexivity].
  apply shr_crc32_bitwise. repeat constructor; unfold is_byte; simpl; lia.
Defined.

(** the CRC of a buffer can be computed piece by piece, feeding the CRC of
    the first part into the call for the second. *)
Theorem shr_crc32_incremental crc p q :
  shr_crc32 (shr_crc32 crc p) q = shr_crc32 crc (p ++ q).
Proof. unfold shr_crc32. by rewrite not32_involutive, crc32_loop_app. Qed.

(** the CRC detects every error confined to one byte: changing one byte of
    a buffer changes its CRC, wherever the byte is. *)
Theorem shr_crc32_detects_byte_error crc p b1 b2 q :
  0 ≤ crc < 2 ^ 32 → bytes p → bytes q → is_byte b1 → is_byte b2 → b1 ≠ b2 →
  shr_crc32 crc (p ++ b1 :: q) ≠ shr_crc32 crc (p ++ b2 :: q).
Proof.
  intros Hc Hp Hq H1 H2 Hne E. apply (f_equal not32) in E. unfold shr_crc32 in E.
  rewrite !not32_involutive, !crc32_loop_spec in E
    by (rewrite bytes_app, bytes_cons; done).
  revert E. apply register_detects_byte; try done. by apply word32_lxor.
Qed.

Lemma shr_crc32_detects_byte_error_witness :
  shr_crc32 0 ([1; 2] ++ 3 :: [4]) ≠ shr_crc32 0 ([1; 2] ++ 7 :: [4]).
Proof.
  apply shr_crc32_detects_byte_error; try done; try lia;
    repeat constructor; unfold is_byte; lia.
Defined.
