(* ===== verification/Parse.v ===== *)
(** * Parsing numbers: [shared/parse-util.c]

    The C library's [strtoull]/[strtoll] with base detection and range errors,
    and on top of them the checked parsers: booleans, bounded integers, comma
    separated lists, 128-bit lists.  The floating point entry point
    [shr_parse_double] is not modelled. *)

From Stdlib Require Import String.
From stdpp Require Import base list numbers sets.
From S2P Require Import Prelude.
From S2P Require Import CStr.

(** ** [strtoull] and [strtoll] *)

(** The value of a digit in any base up to 36; 36 for other characters. *)
Definition digit_val (c : Z) : Z :=
  if isdigit c then c - 48
  else if (97 <=? c) && (c <=? 122) then c - 87
  else if (65 <=? c) && (c <=? 90) then c - 55
  else 36.

(** Digits of [base] from the front: their value on top of [acc], the rest. *)
Fixpoint scan_digits (base acc : Z) (s : list Z) : Z * list Z :=
  match s with
  | [] => (acc, [])
  | c :: s' =>
      if digit_val c <? base then scan_digits base (acc * base + digit_val c) s'
      else (acc, s)
  end.

(** With [base] 0, a "0x" in front of a hexadecimal digit selects 16, a "0"
    selects 8, anything else 10. *)
Definition detect_base (base : Z) (s : list Z) : Z * list Z :=
  let hex := (char_at s 0 =? c_0) && ((char_at s 1 =? c_x) || (char_at s 1 =? c_X)) &&
             (digit_val (char_at s 2) <? 16) in
  if base =? 0 then
    if hex then (16, drop 2 s)
    else if char_at s 0 =? c_0 then (8, s) else (10, s)
  else if (base =? 16) && hex then (16, drop 2 s) else (base, s).

(** [Some (negative, magnitude, rest)], or [None] when there is no digit, in
    which case [*endptr] is the string itself. *)
Definition scan_int (base : Z) (s : list Z) : option (bool * Z * list Z) :=
  let s := drop_while isspace s in
  let '(neg, s) :=
    if char_at s 0 =? c_minus then (true, drop 1 s)
    else if char_at s 0 =? c_plus then (false, drop 1 s) else (false, s) in
  let '(b, s) := detect_base base s in
  if digit_val (char_at s 0) <? b
  then let '(m, rest) := scan_digits b 0 s in Some (neg, m, rest)
  else None.

Record strto := Strto {
  st_val : Z;
  st_erange : bool;      (* errno == ERANGE *)
  st_end : list Z;       (* what *endptr points to *)
  st_conv : bool;        (* endptr moved *)
}.

Definition strtoull (base : Z) (s : list Z) : strto :=
  match scan_int base s with
  | None => Strto 0 false s false
  | Some (neg, m, rest) =>
      if UINT64_MAX <? m then Strto UINT64_MAX true rest true
      else Strto (if neg then u64 (- m) else m) false rest true
  end.

Definition INT64_MAX : Z := 2 ^ 63 - 1.
Definition INT64_MIN : Z := - 2 ^ 63.

Definition strtoll (base : Z) (s : list Z) : strto :=
  match scan_int base s with
  | None => Strto 0 false s false
  | Some (neg, m, rest) =>
      let v := if neg then - m else m in
      if INT64_MAX <? v then Strto INT64_MAX true rest true
      else if v <? INT64_MIN then Strto INT64_MIN true rest true
      else Strto v false rest true
  end.

(** ** parse-util.c *)

Definition bool_yes : list (list Z) :=
  [lit "1"; lit "yes"; lit "y"; lit "true"; lit "t"; lit "on"].
Definition bool_no : list (list Z) :=
  [lit "0"; lit "no"; lit "n"; lit "false"; lit "f"; lit "off"].

Definition shr_parse_bool (value : list Z) : result bool :=
  if existsb (strcaseeq value) bool_yes then Ok true
  else if existsb (strcaseeq value) bool_no then Ok false
  else Err EINVAL.

Definition shr_has_leading_zero (s : list Z) : bool :=
  (char_at s 0 =? c_0) && isdigit (char_at s 1).

Definition shr_parse_u64 (s : option (list Z)) (max : Z) : result Z :=
  match s with
  | None => Err EINVAL
  | Some s =>
      if negb (isdigit (char_at s 0)) || shr_has_leading_zero s then Err EINVAL
      else
        let r := strtoull 0 s in
        if negb (st_conv r) || nonempty (st_end r) then Err EINVAL
        else if st_erange r || (max <? st_val r) then Err ERANGE
        else Ok (st_val r)
  end.

Definition shr_parse_s64 (s : option (list Z)) (min max : Z) : result Z :=
  match s with
  | None => Err EINVAL
  | Some s =>
      let digits := if char_at s 0 =? c_minus then drop 1 s else s in
      if negb (isdigit (char_at digits 0)) || shr_has_leading_zero digits then Err EINVAL
      else
        let r := strtoll 0 s in
        if negb (st_conv r) || nonempty (st_end r) then Err EINVAL
        else if st_erange r || (st_val r <? min) || (max <? st_val r) then Err ERANGE
        else Ok (st_val r)
  end.

#[global] Arguments shr_parse_u64 : simpl never.
#[global] Arguments shr_parse_s64 : simpl never.

(** The loop of DEFINE_SHR_PARSE_CSV_FUNC over the [strsep] tokens; [val] is
    what it has stored, [None] the return value -1. *)
Fixpoint parse_csv_loop (max : Z) (max_length : nat) (toks : list (list Z))
    (val : list Z) : option (list Z) :=
  match toks with
  | [] => Some val
  | tok :: toks' =>
      if negb (nonempty tok) then parse_csv_loop max max_length toks' val
      else if (max_length <=? length val)%nat then None
      else
        match shr_parse_u64 (Some (shr_trim tok)) max with
        | Err _ => None
        | Ok v => parse_csv_loop max max_length toks' (val ++ [v])
        end
  end.

Definition shr_parse_csv (max : Z) (string : option (list Z)) (max_length : nat) :
    option (list Z) :=
  match string with
  | None | Some [] => Some []
  | Some s => parse_csv_loop max max_length (fields c_comma s) []
  end.

Definition shr_parse_csv_int := shr_parse_csv (2 ^ 31 - 1).
Definition shr_parse_csv_ushort := shr_parse_csv (2 ^ 16 - 1).
Definition shr_parse_csv_uint := shr_parse_csv UINT32_MAX.
Definition shr_parse_csv_ulonglong := shr_parse_csv UINT64_MAX.
Definition shr_parse_csv_uchar := shr_parse_csv 255.

Definition UINT128_MAX : Z := 2 ^ 128 - 1.
Definition u128 (z : Z) : Z := z mod 2 ^ 128.

(** The digit loop of [shr_parse_csv_uint128]; its [return -1] is -EPERM. *)
Fixpoint parse_u128_digits (base v : Z) (src : list Z) : result Z :=
  match src with
  | [] => Ok v
  | c :: src' =>
      let digit :=
        if (c_0 <=? c) && (c <=? c_9) then Some (c - c_0)
        else if (base =? 16) && (c_a <=? c) && (c <=? c_f) then Some (c - c_a + 10)
        else if (base =? 16) && (c_A <=? c) && (c <=? c_F) then Some (c - c_A + 10)
        else None in
      match digit with
      | None => Err EPERM
      | Some d =>
          if (UINT128_MAX - d) / base <? v then Err ERANGE
          else parse_u128_digits base (u128 (v * base + d)) src'
      end
  end.

Definition parse_u128 (tok : list Z) : result Z :=
  let hex := (char_at tok 0 =? c_0) && ((char_at tok 1 =? c_x) || (char_at tok 1 =? c_X)) in
  if negb hex && shr_has_leading_zero tok then Err EINVAL
  else
    let base := if hex then 16 else 10 in
    let src := if hex then drop 2 tok else tok in
    if negb (nonempty src) then Err EINVAL else parse_u128_digits base 0 src.

Fixpoint parse_csv_u128_loop (max_length : nat) (toks : list (list Z))
    (val : list Z) : result (list Z) :=
  match toks with
  | [] => Ok val
  | tok :: toks' =>
      if negb (nonempty tok) then parse_csv_u128_loop max_length toks' val
      else if (max_length <=? length val)%nat then Err EINVAL
      else v ← parse_u128 (shr_trim tok);
           parse_csv_u128_loop max_length toks' (val ++ [v])
  end.

Definition shr_parse_csv_uint128 (string : option (list Z)) (max_length : nat) :
    result (list Z) :=
  match string with
  | None | Some [] => Ok []
  | Some s => parse_csv_u128_loop max_length (fields c_comma s) []
  end.

(** ** Reference: the numerals the parsers accept *)

Module Numeral.

(** The value of a string of digits. *)
Definition value (base : Z) (s : list Z) : Z := foldl (λ a c, a * base + digit_val c) 0 s.

(** A decimal numeral without leading zeros, or "0x" and hexadecimal digits. *)
Inductive numeral : list Z → Z → Prop :=
| num_dec s :
    s ≠ [] → forallb isdigit s = true → (char_at s 0 ≠ c_0 ∨ s = [c_0]) →
    numeral s (value 10 s)
| num_hex x s :
    (x = c_x ∨ x = c_X) → s ≠ [] → forallb isxdigit s = true →
    numeral (c_0 :: x :: s) (value 16 s).

End Numeral.

(** ** Lemmas *)

(** Splits on the comparisons of variables first, then on the rest. *)
Ltac cases_leb :=
  repeat match goal with
  | |- context [?a <=? ?b] => is_var a; destruct (Z.leb_spec a b)
  | |- context [?b <=? ?a] => is_var a; destruct (Z.leb_spec b a)
  | |- context [?a =? ?b] => is_var a; destruct (Z.eqb_spec a b)
  end; simpl;
  repeat match goal with
  | |- context [?a <=? ?b] => destruct (Z.leb_spec a b)
  | |- context [?a <? ?b] => destruct (Z.ltb_spec a b)
  | |- context [?a =? ?b] => destruct (Z.eqb_spec a b)
  end; try done; try lia.

Lemma digit_val_dec c : (digit_val c <? 10) = isdigit c.
Proof. unfold digit_val, isdigit. cases_leb. Qed.

Lemma digit_val_hex c : (digit_val c <? 16) = isxdigit c.
Proof. unfold digit_val, isxdigit, isdigit. cases_leb. Qed.

Lemma digit_val_nonneg c : 0 ≤ digit_val c.
Proof. unfold digit_val, isdigit. cases_leb. Qed.

Lemma digit_val_of_digit c : isdigit c = true → digit_val c = c - c_0.
Proof. unfold digit_val. by intros ->. Qed.

Lemma isdigit_range c : isdigit c = true ↔ c_0 ≤ c ≤ c_9.
Proof. unfold isdigit. rewrite andb_true_iff, !Z.leb_le. done. Qed.

Lemma scan_digits_app base acc ds rest :
  forallb (λ c, digit_val c <? base) ds = true →
  scan_digits base acc (ds ++ rest) =
  scan_digits base (foldl (λ a c, a * base + digit_val c) acc ds) rest.
Proof.
  revert acc. induction ds as [|c ds IH]; intros acc; simpl; [done|].
  intros [-> H]%andb_true_iff. by apply IH.
Qed.

Lemma scan_digits_spec base acc s :
  ∃ ds rest, s = ds ++ rest ∧ forallb (λ c, digit_val c <? base) ds = true ∧
    scan_digits base acc s = (foldl (λ a c, a * base + digit_val c) acc ds, rest) ∧
    (rest = [] ∨ (digit_val (char_at rest 0) <? base) = false).
Proof.
  revert acc. induction s as [|c s IH]; intros acc; simpl.
  { exists [], []. split_and!; auto. }
  destruct (digit_val c <? base) eqn:E.
  - destruct (IH (acc * base + digit_val c)) as (ds & rest & -> & H1 & H2 & H3).
    exists (c :: ds), rest. simpl. rewrite E, H1. done.
  - exists [], (c :: s). split_and!; try done. by right.
Qed.

Lemma forallb_ext (p q : Z → bool) l : (∀ c, p c = q c) → forallb p l = forallb q l.
Proof. intros H. induction l; simpl; [done|]. by rewrite H, IHl. Qed.

Lemma value_nonneg base acc s :
  0 ≤ base → 0 ≤ acc → 0 ≤ foldl (λ a c, a * base + digit_val c) acc s.
Proof.
  revert acc. induction s as [|c s IH]; intros acc Hb Ha; simpl; [done|].
  apply IH; [done|]. pose proof (digit_val_nonneg c). nia.
Qed.

(** A string of digits of [base], scanned to its end. *)
Lemma scan_digits_all base acc s :
  forallb (λ c, digit_val c <? base) s = true →
  scan_digits base acc s = (foldl (λ a c, a * base + digit_val c) acc s, []).
Proof. intros H. rewrite <- (app_nil_r s) at 1. by rewrite scan_digits_app. Qed.

Lemma scan_digits_nil base acc s m :
  scan_digits base acc s = (m, []) → forallb (λ c, digit_val c <? base) s = true ∧
  m = foldl (λ a c, a * base + digit_val c) acc s.
Proof.
  destruct (scan_digits_spec base acc s) as (ds & rest & -> & H1 & H2 & _).
  rewrite H2. intros [= <- ->]. by rewrite app_nil_r.
Qed.

Lemma scan_digits_nonneg base acc s m rest :
  0 ≤ base → 0 ≤ acc → scan_digits base acc s = (m, rest) → 0 ≤ m.
Proof.
  intros Hb Ha. destruct (scan_digits_spec base acc s) as (ds & r & -> & _ & H2 & _).
  rewrite H2. intros [= <- _]. by apply value_nonneg.
Qed.

(** In front of a digit there is neither white space nor a sign. *)
Lemma scan_int_digit base s :
  isdigit (char_at s 0) = true →
  scan_int base s =
  (let '(b, s) := detect_base base s in
   if digit_val (char_at s 0) <? b
   then let '(m, rest) := scan_digits b 0 s in Some (false, m, rest) else None).
Proof.
  intros H. unfold scan_int. destruct s as [|c s]; [done|].
  change (char_at (c :: s) 0) with c in H. pose proof H as Hr%isdigit_range.
  assert (drop_while isspace (c :: s) = c :: s) as ->.
  { simpl. unfold isspace. cases_leb. }
  change (char_at (c :: s) 0) with c.
  destruct (Z.eqb_spec c c_minus), (Z.eqb_spec c c_plus); try lia. done.
Qed.

Lemma numeral_head s v : Numeral.numeral s v → isdigit (char_at s 0) = true.
Proof.
  intros [s' H1 H2 _|x s' _ _ _]; [|done].
  destruct s'; [done|]. simpl in H2. by apply andb_true_iff in H2 as [H2 _].
Qed.

Lemma numeral_leading_zero s v :
  Numeral.numeral s v → shr_has_leading_zero s = false.
Proof.
  intros [s' H1 H2 H3|x s' Hx _ _]; unfold shr_has_leading_zero.
  - destruct H3 as [H3| ->]; [|done]. by rewrite (proj2 (Z.eqb_neq _ _) H3).
  - change (char_at (c_0 :: x :: s') 1) with x. destruct Hx as [-> | ->]; done.
Qed.

Lemma numeral_nonneg s v : Numeral.numeral s v → 0 ≤ v.
Proof. intros [s' _ _ _|x s' _ _ _]; apply value_nonneg; lia. Qed.

(** With base 0, a string that starts with a digit and has no leading zero is
    scanned to its end exactly when it is a numeral. *)
Lemma scan_int_numeral s :
  isdigit (char_at s 0) = true → shr_has_leading_zero s = false →
  ∃ m rest, scan_int 0 s = Some (false, m, rest) ∧ 0 ≤ m ∧
    (rest = [] → Numeral.numeral s m) ∧
    (∀ v, Numeral.numeral s v → rest = [] ∧ m = v).
Proof.
  intros Hd Hz. rewrite scan_int_digit by done. unfold detect_base.
  change (0 =? 0) with true. cbn iota.
  destruct s as [|c s]; [done|]. change (char_at (c :: s) 0) with c in *.
  unfold shr_has_leading_zero in Hz. change (char_at (c :: s) 0) with c in Hz.
  destruct (Z.eqb_spec c c_0) as [->|Hc]; cbn [andb] in *.
  - destruct s as [|d s].
    { (* "0" *) exists 0, []. split_and!; try done.
      - intros _. by apply (Numeral.num_dec [c_0]); [|done|right].
      - intros v Hv. inversion Hv; done. }
    change (char_at (c_0 :: d :: s) 1) with d in *.
    change (char_at (c_0 :: d :: s) 2) with (char_at s 0).
    destruct (((d =? c_x) || (d =? c_X)) && (digit_val (char_at s 0) <? 16)) eqn:Hx.
    + (* hexadecimal *)
      apply andb_true_iff in Hx as [Hx Hh]. change (drop 2 (c_0 :: d :: s)) with s.
      rewrite Hh. destruct (scan_digits 16 0 s) as [m rest] eqn:E.
      exists m, rest. split_and!; [done|by eapply scan_digits_nonneg in E; lia|..].
      * intros ->. apply scan_digits_nil in E as [H1 ->].
        apply Numeral.num_hex; [|by destruct s|].
        -- apply orb_true_iff in Hx as [?%Z.eqb_eq|?%Z.eqb_eq]; auto.
        -- rewrite <- H1. apply forallb_ext. intros. by rewrite digit_val_hex.
      * intros v Hv. inversion Hv as [s' _ Hdig _|x s' _ _ Hdig]; subst.
        -- simpl in Hdig. rewrite Hz in Hdig. done.
        -- rewrite scan_digits_all in E; [by simplify_eq|].
           rewrite <- Hdig. apply forallb_ext. intros. by rewrite digit_val_hex.
    + (* "0" and something that is no digit *)
      exists 0, (d :: s).
      assert (H8 : (digit_val d <? 8) = false).
      { pose proof (digit_val_dec d) as H10. rewrite Hz in H10.
        apply Z.ltb_ge in H10. apply Z.ltb_ge. lia. }
      split_and!; try done.
      * change (digit_val (char_at (c_0 :: d :: s) 0) <? 8) with true. cbn iota.
        cbn [scan_digits]. change (digit_val c_0 <? 8) with true. cbn iota.
        by rewrite H8.
      * intros v Hv. inversion Hv as [s' _ Hdig _|x s' Hx' Hne Hdig]; subst.
        -- simpl in Hdig. rewrite Hz in Hdig. done.
        -- exfalso. destruct s as [|e s]; [done|]. simpl in Hdig.
           apply andb_true_iff in Hdig as [Hdig _].
           change (char_at (e :: s) 0) with e in Hx. rewrite digit_val_hex, Hdig in Hx.
           destruct Hx' as [-> | ->]; done.
  - (* decimal *)
    change (char_at (c :: s) 0) with c. rewrite digit_val_dec, Hd.
    destruct (scan_digits 10 0 (c :: s)) as [m rest] eqn:E.
    exists m, rest. split_and!; [done|by eapply scan_digits_nonneg in E; lia|..].
    + intros ->. apply scan_digits_nil in E as [H1 ->]. apply Numeral.num_dec; [done| |by left].
      rewrite <- H1. apply forallb_ext. intros. by rewrite digit_val_dec.
    + intros v Hv. inversion Hv as [s' _ Hdig _|x s' _ _ Hdig]; subst; [|done].
      rewrite scan_digits_all in E; [by simplify_eq|].
      rewrite <- Hdig. apply forallb_ext. intros. by rewrite digit_val_dec.
Qed.

Lemma drop_while_app p b t :
  forallb p b = true → (t = [] ∨ p (char_at t 0) = false) → drop_while p (b ++ t) = t.
Proof.
  induction b as [|c b IH]; cbn [forallb app].
  - intros _ [->|Ht]; [done|]. destruct t as [|c t]; [done|]. cbn [drop_while]. cbn in Ht. by rewrite Ht.
  - intros [Hc Hb]%andb_true_iff Ht. cbn [drop_while]. rewrite Hc. by apply IH.
Qed.

(** What a conversion of decimal digits reads: blanks, a sign or none, and all
    the digits behind it. *)
Lemma scan_int_10 s neg m rest :
  scan_int 10 s = Some (neg, m, rest) ↔
  ∃ blanks sign ds, s = blanks ++ sign ++ ds ++ rest ∧ forallb isspace blanks = true ∧
    ds ≠ [] ∧ forallb isdigit ds = true ∧ isdigit (char_at rest 0) = false ∧
    m = Numeral.value 10 ds ∧ (if neg then sign = [c_minus] else sign = [] ∨ sign = [c_plus]).
Proof.
  split.
  - unfold scan_int, detect_base. cbv zeta. set (t := drop_while isspace s).
    assert (Hs : s = take_while isspace s ++ t) by (by rewrite take_while_drop_while).
    assert (Hb : forallb isspace (take_while isspace s) = true).
    { clear. induction s as [|c s IH]; [done|]. cbn [take_while]. destruct (isspace c) eqn:E; [|done].
      cbn [forallb]. by rewrite E. }
    set (p := if char_at t 0 =? c_minus then _ else _). intros Hscan.
    assert (Hp : ∃ sign, t = sign ++ p.2 ∧ if p.1 then sign = [c_minus] else sign = [] ∨ sign = [c_plus]).
    { unfold p. destruct t as [|c t']; [exists []; split; [done|by left]|]. cbn.
      destruct (Z.eqb_spec c c_minus) as [->|]; [by exists [c_minus]; split|].
      destruct (Z.eqb_spec c c_plus) as [->|]; [exists [c_plus]; split; [done|by right]|].
      exists []. split; [done|by left]. }
    destruct Hp as (sign & Ht & Hsign). destruct p as [neg' u]. cbn in *.
    destruct (digit_val (char_at u 0) <? 10) eqn:E0; [|done].
    destruct (scan_digits_spec 10 0 u) as (ds & r & -> & Hd & Hsd & Hr). rewrite Hsd in Hscan.
    injection Hscan as -> <- <-. rewrite (forallb_ext _ _ _ digit_val_dec) in Hd.
    exists (take_while isspace s), sign, ds. rewrite <- Ht. split_and!; try done.
    + intros ->. cbn in E0. destruct Hr as [->|Hr]; [by vm_compute in E0|congruence].
    + rewrite <- digit_val_dec. by destruct Hr as [->|?].
  - intros (blanks & sign & ds & -> & Hb & Hne & Hd & Hr & -> & Hsign). unfold scan_int, detect_base. cbv zeta.
    assert (Hds : forallb (λ c, digit_val c <? 10) ds = true) by (by rewrite (forallb_ext _ _ _ digit_val_dec)).
    destruct ds as [|d ds]; [done|]. pose proof Hd as [Hd0 _]%andb_true_iff.
    assert (Hsp : isspace d = false ∧ d ≠ c_minus ∧ d ≠ c_plus).
    { apply isdigit_range in Hd0. unfold isspace. split; [|lia].
      apply orb_false_iff. rewrite andb_false_iff, Z.eqb_neq, !Z.leb_gt. lia. }
    destruct Hsp as (Hsp & Hm & Hp).
    rewrite drop_while_app; [|done|right; destruct neg; [by subst sign|by destruct Hsign as [-> | ->]]].
    assert (Hscan : scan_digits 10 0 (d :: ds ++ rest) = (Numeral.value 10 (d :: ds), rest)).
    { rewrite app_comm_cons, scan_digits_app by done. unfold Numeral.value.
      destruct rest as [|c rest]; [done|]. cbn [scan_digits]. cbn in Hr. by rewrite digit_val_dec, Hr. }
    assert (Hdv : (digit_val d <? 10) = true) by (by rewrite digit_val_dec).
    destruct neg; [subst sign|destruct Hsign as [-> | ->]].
    + cbn -[scan_digits digit_val]. by rewrite Hdv, Hscan.
    + change (char_at ([] ++ (d :: ds) ++ rest) 0) with d.
      rewrite (proj2 (Z.eqb_neq _ _) Hm), (proj2 (Z.eqb_neq _ _) Hp). cbn -[scan_digits digit_val].
      by rewrite Hdv, Hscan.
    + cbn -[scan_digits digit_val]. by rewrite Hdv, Hscan.
Qed.

Lemma strtoull_scan base s m rest :
  scan_int base s = Some (false, m, rest) →
  strtoull base s =
  if UINT64_MAX <? m then Strto UINT64_MAX true rest true else Strto m false rest true.
Proof. intros H. unfold strtoull. by rewrite H. Qed.

Lemma nonempty_false s : nonempty s = false ↔ s = [].
Proof. destruct s; done. Qed.

(** What [shr_parse_u64] returns, by cases. *)
Lemma shr_parse_u64_cases s max :
  (∃ v, Numeral.numeral s v ∧
     shr_parse_u64 (Some s) max =
       if (UINT64_MAX <? v) || (max <? v) then Err ERANGE else Ok v) ∨
  ((∀ v, ¬ Numeral.numeral s v) ∧ shr_parse_u64 (Some s) max = Err EINVAL) ∨
  UINT64_MAX < max.
Proof.
  destruct (Z.ltb_spec UINT64_MAX max); [by right; right|].
  unfold shr_parse_u64.
  destruct (isdigit (char_at s 0)) eqn:Hd; [|right; left; split; [|done]].
  2: { intros v Hv%numeral_head. congruence. }
  destruct (shr_has_leading_zero s) eqn:Hz; [right; left; split; [|done]|].
  { intros v Hv%numeral_leading_zero. congruence. }
  cbn [negb orb].
  destruct (scan_int_numeral s Hd Hz) as (m & rest & Hs & Hm & H1 & H2).
  rewrite (strtoull_scan _ _ _ _ Hs).
  assert (Hrest : st_end (if UINT64_MAX <? m then Strto UINT64_MAX true rest true
                          else Strto m false rest true) = rest) by (by destruct (_ <? m)).
  assert (Hconv : st_conv (if UINT64_MAX <? m then Strto UINT64_MAX true rest true
                          else Strto m false rest true) = true) by (by destruct (_ <? m)).
  rewrite Hrest, Hconv. cbn [negb orb].
  destruct rest as [|c rest]; cbn [nonempty length Nat.eqb negb].
  - left. exists m. split; [by apply H1|]. by destruct (UINT64_MAX <? m) eqn:E.
  - right; left. split; [|done]. intros v [? ?]%H2. done.
Qed.

(** [strtoll] on an optional minus sign and a digit. *)
Lemma scan_int_minus s :
  isdigit (char_at s 0) = true →
  scan_int 0 (c_minus :: s) = (λ '(_, m, r), (true, m, r)) <$> scan_int 0 s.
Proof.
  intros H. rewrite (scan_int_digit 0 s) by done. unfold scan_int.
  change (drop_while isspace (c_minus :: s)) with (c_minus :: s).
  change (char_at (c_minus :: s) 0 =? c_minus) with true. cbn iota.
  change (drop 1 (c_minus :: s)) with s.
  destruct (detect_base 0 s) as [b s']. destruct (_ <? b); [|done].
  by destruct (scan_digits b 0 s').
Qed.

(** A decimal or hexadecimal numeral with an optional minus sign. *)
Inductive signed_numeral : list Z → Z → Prop :=
| sn_pos s v : Numeral.numeral s v → signed_numeral s v
| sn_neg s v : Numeral.numeral s v → signed_numeral (c_minus :: s) (- v).

Lemma numeral_not_minus s v : Numeral.numeral s v → char_at s 0 ≠ c_minus.
Proof. intros H%numeral_head. intros E. by rewrite E in H. Qed.

Lemma strtoll_scan s neg m rest :
  scan_int 0 s = Some (neg, m, rest) →
  st_end (strtoll 0 s) = rest ∧ st_conv (strtoll 0 s) = true ∧
  let v := if neg then - m else m in
  ∀ lo hi, INT64_MIN ≤ lo → hi ≤ INT64_MAX →
    st_erange (strtoll 0 s) || (st_val (strtoll 0 s) <? lo) || (hi <? st_val (strtoll 0 s)) =
    negb ((lo <=? v) && (v <=? hi)) ∧
    (lo ≤ v ≤ hi → st_val (strtoll 0 s) = v).
Proof.
  intros H. unfold strtoll. rewrite H.
  set (v := if neg then - m else m). clearbody v. cbn zeta.
  destruct (Z.ltb_spec INT64_MAX v); [|destruct (Z.ltb_spec v INT64_MIN)];
    simpl; split_and!; auto; intros lo hi Hlo Hhi.
  - split; [|lia]. destruct (Z.leb_spec lo v), (Z.leb_spec v hi); try done; lia.
  - split; [|lia]. destruct (Z.leb_spec lo v), (Z.leb_spec v hi); try done; lia.
  - split; [|done].
    destruct (Z.leb_spec lo v), (Z.leb_spec v hi), (Z.ltb_spec v lo), (Z.ltb_spec hi v);
      try done; lia.
Qed.

(** ** Properties *)

(** [shr_parse_u64] accepts exactly the numerals (decimal without leading
    zeros, or 0x and hexadecimal digits; no white space, no sign) whose value
    is at most [max], and returns that value; it returns -ERANGE exactly for a
    numeral above [max], also when the value does not fit 64 bits, and -EINVAL
    for every other string. *)
Theorem shr_parse_u64_spec s max :
  0 ≤ max ≤ UINT64_MAX →
  (∀ v, shr_parse_u64 (Some s) max = Ok v ↔ Numeral.numeral s v ∧ v ≤ max) ∧
  (shr_parse_u64 (Some s) max = Err ERANGE ↔ ∃ v, Numeral.numeral s v ∧ max < v) ∧
  (shr_parse_u64 (Some s) max = Err EINVAL ↔ ∀ v, ¬ Numeral.numeral s v).
Proof.
  intros Hmax.
  assert (Huniq : ∀ v w, Numeral.numeral s v → Numeral.numeral s w → v = w).
  { intros v w Hv Hw.
    destruct (scan_int_numeral s) as (m & rest & _ & _ & _ & H);
      [by eapply numeral_head|by eapply numeral_leading_zero|].
    destruct (H v Hv), (H w Hw). congruence. }
  destruct (shr_parse_u64_cases s max) as [(w & Hw & ->)|[[Hno ->]|]]; [..|lia].
  - destruct (Z.ltb_spec UINT64_MAX w), (Z.ltb_spec max w); try lia; simpl;
      split_and!; intros; split; intros; destruct_and?; try done; try naive_solver lia.
    all: try (assert (v = w) as -> by eauto); try done; try lia.
    destruct H1 as (v & Hv & ?). assert (v = w) by eauto. lia.
  - split_and!; intros; split; intros; destruct_and?; try done; naive_solver.
Qed.

Lemma shr_parse_u64_spec_witness :
  shr_parse_u64 (Some (lit "0xff")) 300 = Ok 255 ∧ Numeral.numeral (lit "0xff") 255.
Proof.
  assert (H : shr_parse_u64 (Some (lit "0xff")) 300 = Ok 255) by (vm_compute; reflexivity).
  split; [exact H|].
  apply (proj1 (shr_parse_u64_spec (lit "0xff") 300 ltac:(split; vm_compute; discriminate))
           255). exact H.
Defined.

Lemma numeral_functional s v w : Numeral.numeral s v → Numeral.numeral s w → v = w.
Proof.
  intros Hv Hw.
  destruct (scan_int_numeral s) as (m & rest & _ & _ & _ & H);
    [by eapply numeral_head|by eapply numeral_leading_zero|].
  destruct (H v Hv), (H w Hw). congruence.
Qed.

(** The sign and the digits [shr_parse_s64] looks at. *)
Lemma shr_parse_s64_scan s :
  let digits := if char_at s 0 =? c_minus then drop 1 s else s in
  isdigit (char_at digits 0) = true → shr_has_leading_zero digits = false →
  ∃ m rest, scan_int 0 s = Some (char_at s 0 =? c_minus, m, rest) ∧
    (rest = [] → signed_numeral s (if char_at s 0 =? c_minus then - m else m)) ∧
    (∀ v, signed_numeral s v →
       rest = [] ∧ v = if char_at s 0 =? c_minus then - m else m).
Proof.
  intros digits Hd Hz. unfold digits in *. destruct (Z.eqb_spec (char_at s 0) c_minus) as [E|E].
  - destruct s as [|c s]; [done|]. change (char_at (c :: s) 0) with c in E. subst c.
    change (drop 1 (c_minus :: s)) with s in *.
    destruct (scan_int_numeral s Hd Hz) as (m & rest & Hs & Hm & H1 & H2).
    exists m, rest. rewrite scan_int_minus, Hs by done. split; [done|]. split.
    + intros Hr. by apply sn_neg, H1.
    + intros v Hv. inversion Hv as [? ? Hn|? w Hn]; subst.
      * by apply numeral_not_minus in Hn.
      * by destruct (H2 w Hn) as [-> ->].
  - destruct (scan_int_numeral s Hd Hz) as (m & rest & Hs & Hm & H1 & H2).
    exists m, rest. split; [done|]. split; [by intros ?; apply sn_pos, H1|].
    intros v Hv. inversion Hv as [? ? Hn|? w Hn]; subst; [|done].
    by destruct (H2 v Hn) as [-> ->].
Qed.

Lemma signed_numeral_guards s v :
  signed_numeral s v →
  let digits := if char_at s 0 =? c_minus then drop 1 s else s in
  isdigit (char_at digits 0) = true ∧ shr_has_leading_zero digits = false.
Proof.
  intros [s' v' Hn|s' v' Hn].
  - pose proof (numeral_not_minus _ _ Hn) as E%Z.eqb_neq. rewrite E. cbn zeta.
    split; [by eapply numeral_head|by eapply numeral_leading_zero].
  - change (char_at (c_minus :: s') 0 =? c_minus) with true. cbn zeta iota.
    change (drop 1 (c_minus :: s')) with s'.
    split; [by eapply numeral_head|by eapply numeral_leading_zero].
Qed.

(** [shr_parse_s64] accepts exactly a numeral with an optional minus sign
    whose value lies in [min, max], and returns that value; a value outside
    the bounds, also one that does not fit 64 bits, is -ERANGE, and every other
    string is -EINVAL. *)
Theorem shr_parse_s64_spec s min max :
  INT64_MIN ≤ min → max ≤ INT64_MAX →
  (∀ v, shr_parse_s64 (Some s) min max = Ok v ↔ signed_numeral s v ∧ min ≤ v ≤ max) ∧
  (shr_parse_s64 (Some s) min max = Err ERANGE ↔
     ∃ v, signed_numeral s v ∧ ¬ (min ≤ v ≤ max)).
Proof.
  intros Hmin Hmax. unfold shr_parse_s64.
  set (digits := if char_at s 0 =? c_minus then drop 1 s else s).
  destruct (negb (isdigit (char_at digits 0)) || shr_has_leading_zero digits) eqn:Hg.
  { assert (Hno : ∀ v, ¬ signed_numeral s v).
    { intros v [H1 H2]%signed_numeral_guards. fold digits in H1, H2.
      by rewrite H1, H2 in Hg. }
    split; [intros v|]; split; [done|naive_solver|done|naive_solver]. }
  to_prop.
  destruct (shr_parse_s64_scan s) as (m & rest & Hs & H1 & H2); [done..|].
  destruct (strtoll_scan _ _ _ _ Hs) as (-> & -> & Hv). cbn zeta in Hv.
  set (v := if char_at s 0 =? c_minus then - m else m) in *. clearbody v.
  destruct (Hv min max Hmin Hmax) as [-> Hval]. cbn [negb orb].
  destruct (nonempty rest) eqn:Hr.
  { apply nonempty_spec in Hr.
    split; [intros w|]; split; [done|by intros [[? _]%H2 _]|done|by intros (w & [? _]%H2 & _)]. }
  apply nonempty_false in Hr.
  destruct (Z.leb_spec min v), (Z.leb_spec v max); cbn [negb andb].
  1: { rewrite Hval by lia. split.
       - intros w. split; [by intros [= <-]; auto|]. by intros [[_ ->]%H2 _].
       - split; [done|]. intros (w & [_ ->]%H2 & Hw). lia. }
  all: split; [intros w; split; [done|intros [[_ ->]%H2 Hw]; lia]|];
    split; [intros _; exists v; split; [auto|lia]|done].
Qed.

Lemma shr_parse_s64_spec_witness :
  shr_parse_s64 (Some (lit "-42")) (-100) 100 = Ok (-42) ∧ signed_numeral (lit "-42") (-42).
Proof.
  assert (H : shr_parse_s64 (Some (lit "-42")) (-100) 100 = Ok (-42)) by (vm_compute; reflexivity).
  split; [exact H|].
  apply (proj1 (shr_parse_s64_spec (lit "-42") (-100) 100
           ltac:(vm_compute; discriminate) ltac:(vm_compute; discriminate)) (-42)).
  exact H.
Defined.

Lemma parse_csv_loop_spec max n toks val vals :
  (length val ≤ n)%nat →
  parse_csv_loop max n toks val = Some vals ↔
  ∃ vs, vals = val ++ vs ∧ (length vals ≤ n)%nat ∧
    Forall2 (λ tok v, shr_parse_u64 (Some (shr_trim tok)) max = Ok v)
      (List.filter nonempty toks) vs.
Proof.
  revert val. induction toks as [|tok toks IH]; intros val Hn; simpl.
  { split.
    - intros [= <-]. exists []. by rewrite app_nil_r.
    - intros (vs & -> & _ & H%Forall2_nil_inv_l). subst. by rewrite app_nil_r. }
  destruct (nonempty tok); simpl; [|by apply IH].
  destruct (Nat.leb_spec n (length val)) as [Hfull|Hroom].
  { split; [done|]. intros (vs & -> & Hl & H). inversion H; subst.
    rewrite length_app in Hl. simpl in Hl. lia. }
  destruct (shr_parse_u64 (Some (shr_trim tok)) max) as [v|e] eqn:E; cbn iota.
  - rewrite IH by (rewrite length_app; simpl; lia). split.
    + intros (vs & -> & Hl & H). exists (v :: vs). rewrite <- app_assoc in Hl |- *.
      split_and!; [done|done|by constructor].
    + intros (vs & -> & Hl & H). inversion H as [|? w ? ws Hw Hws]; subst.
      assert (w = v) as -> by congruence. exists ws. by rewrite <- app_assoc.
  - split; [done|]. intros (vs & _ & _ & H). inversion H; subst. congruence.
Qed.

(** a comma separated list parses to [vals] exactly when its non-empty
    fields, trimmed, are numerals at most [max] with the values [vals], and
    there are at most [max_length] of them: the function never stores past the
    caller's array. *)
Theorem shr_parse_csv_spec max s n vals :
  s ≠ [] →
  shr_parse_csv max (Some s) n = Some vals ↔
  (length vals ≤ n)%nat ∧
  Forall2 (λ tok v, shr_parse_u64 (Some (shr_trim tok)) max = Ok v)
    (List.filter nonempty (fields c_comma s)) vals.
Proof.
  intros Hs. unfold shr_parse_csv. destruct s as [|c s]; [done|].
  rewrite parse_csv_loop_spec by (simpl; lia). simpl. naive_solver.
Qed.

Lemma shr_parse_csv_spec_witness :
  (length [1; 2] ≤ 4)%nat ∧
  Forall2 (λ tok v, shr_parse_u64 (Some (shr_trim tok)) 255 = Ok v)
    (List.filter nonempty (fields c_comma (lit "1,,0x2 "))) [1; 2].
Proof.
  apply (shr_parse_csv_spec 255 (lit "1,,0x2 ") 4 [1; 2]); [done|].
  vm_compute. reflexivity.
Defined.

(** The digit test of [shr_parse_csv_uint128] in terms of [digit_val]. *)
Lemma u128_digit base c :
  base = 10 ∨ base = 16 →
  (if (c_0 <=? c) && (c <=? c_9) then Some (c - c_0)
   else if (base =? 16) && (c_a <=? c) && (c <=? c_f) then Some (c - c_a + 10)
   else if (base =? 16) && (c_A <=? c) && (c <=? c_F) then Some (c - c_A + 10)
   else None) = if digit_val c <? base then Some (digit_val c) else None.
Proof.
  unfold digit_val, isdigit. intros [-> | ->].
  - change (10 =? 16) with false. cases_leb.
  - change (16 =? 16) with true. cbn [andb]. cases_leb; f_equal; lia.
Qed.

Lemma value_mono base acc s :
  1 ≤ base → 0 ≤ acc → acc ≤ foldl (λ a c, a * base + digit_val c) acc s.
Proof.
  revert acc. induction s as [|c s IH]; intros acc Hb Ha; simpl; [lia|].
  pose proof (digit_val_nonneg c). etransitivity; [|apply IH; [done|nia]]. nia.
Qed.

Lemma parse_u128_digits_spec base v src w :
  base = 10 ∨ base = 16 → 0 ≤ v ≤ UINT128_MAX →
  parse_u128_digits base v src = Ok w ↔
  forallb (λ c, digit_val c <? base) src = true ∧
  w = foldl (λ a c, a * base + digit_val c) v src ∧ w ≤ UINT128_MAX.
Proof.
  intros Hb. revert v. induction src as [|c src IH]; intros v Hv.
  { simpl. split; [intros [= <-]; split_and!; [done..|lia]|]. by intros (_ & -> & _). }
  cbn [parse_u128_digits forallb foldl]. rewrite u128_digit by done.
  pose proof (digit_val_nonneg c) as Hd.
  destruct (digit_val c <? base) eqn:E; [|split; [done|by intros [? _]]].
  apply Z.ltb_lt in E.
  assert (Hiff : (UINT128_MAX - digit_val c) / base < v ↔
                 UINT128_MAX < v * base + digit_val c).
  { destruct Hb as [-> | ->]; divmod. }
  destruct (Z.ltb_spec ((UINT128_MAX - digit_val c) / base) v) as [Ho|Ho].
  - split; [done|]. intros (_ & -> & Hw). apply Hiff in Ho.
    pose proof (value_mono base (v * base + digit_val c) src ltac:(lia) ltac:(nia)). lia.
  - assert (Hfit : v * base + digit_val c ≤ UINT128_MAX).
    { destruct (Z.le_gt_cases (v * base + digit_val c) UINT128_MAX) as [|Hgt]; [done|].
      apply Hiff in Hgt. lia. }
    unfold u128. rewrite Z.mod_small by (unfold UINT128_MAX in *; nia).
    rewrite IH by nia. simpl. naive_solver.
Qed.

Lemma parse_u128_spec tok v :
  parse_u128 tok = Ok v ↔ Numeral.numeral tok v ∧ v ≤ UINT128_MAX.
Proof.
  unfold parse_u128.
  destruct ((char_at tok 0 =? c_0) && ((char_at tok 1 =? c_x) || (char_at tok 1 =? c_X)))
    eqn:Hh; cbn [negb andb].
  - apply andb_true_iff in Hh as [H0%Z.eqb_eq Hx].
    destruct tok as [|c [|x s]]; [done|by simpl in Hx|].
    change (char_at (c :: x :: s) 0) with c in H0. subst c.
    change (char_at (c_0 :: x :: s) 1) with x in Hx. change (drop 2 (c_0 :: x :: s)) with s.
    destruct (nonempty s) eqn:Hs; cbn [negb].
    + apply nonempty_spec in Hs.
      rewrite parse_u128_digits_spec by (auto || (unfold UINT128_MAX; lia)). split.
      * intros (H1 & -> & H2). split; [|done]. apply Numeral.num_hex; [|done|].
        -- apply orb_true_iff in Hx as [?%Z.eqb_eq|?%Z.eqb_eq]; auto.
        -- rewrite <- H1. apply forallb_ext. intros. by rewrite digit_val_hex.
      * intros [Hn Hv]. inversion Hn as [s' _ Hdig _|x' s' _ _ Hdig]; subst.
        -- exfalso. simpl in Hdig. apply andb_true_iff in Hdig as [Hdig _].
           apply orb_true_iff in Hx as [?%Z.eqb_eq|?%Z.eqb_eq]; by subst x.
        -- split_and!; [|done|done]. rewrite <- Hdig.
           apply forallb_ext. intros. by rewrite digit_val_hex.
    + apply nonempty_false in Hs. subst s. split; [done|]. intros [Hn _].
      inversion Hn as [s' _ Hdig _|x' s' _ Hne _]; subst; [|done].
      exfalso. simpl in Hdig. rewrite andb_true_r in Hdig.
      apply orb_true_iff in Hx as [?%Z.eqb_eq|?%Z.eqb_eq]; by subst x.
  - destruct (shr_has_leading_zero tok) eqn:Hz.
    { split; [done|]. by intros [?%numeral_leading_zero _]; congruence. }
    destruct (nonempty tok) eqn:Hs; cbn [negb].
    + apply nonempty_spec in Hs.
      rewrite parse_u128_digits_spec by (auto || (unfold UINT128_MAX; lia)). split.
      * intros (H1 & -> & H2). split; [|done].
        assert (Hdig : forallb isdigit tok = true).
        { rewrite <- H1. apply forallb_ext. intros. by rewrite digit_val_dec. }
        apply Numeral.num_dec; [done|done|].
        unfold shr_has_leading_zero in Hz.
        destruct (Z.eqb_spec (char_at tok 0) c_0) as [E|]; [right|by left].
        destruct tok as [|c [|d s]]; [done|by change (char_at [c] 0) with c in E; subst|].
        simpl in Hdig, Hz. change (char_at (c :: d :: s) 1) with d in Hz.
        rewrite Hz, andb_false_r in Hdig. done.
      * intros [Hn Hv]. inversion Hn as [s' _ Hdig _|x' s' Hx' _ Hdig]; subst.
        -- split_and!; [|done|done]. rewrite <- Hdig.
           apply forallb_ext. intros. by rewrite digit_val_dec.
        -- exfalso. change (char_at (c_0 :: x' :: s') 1) with x' in Hh.
           destruct Hx' as [-> | ->]; done.
    + apply nonempty_false in Hs. subst tok. split; [done|]. intros [Hn _].
      by inversion Hn.
Qed.

(** every value [shr_parse_csv_uint128] stores is the exact value of its
    field's numeral: the overflow check before each digit lets through exactly
    the values that fit 128 bits, so the 128-bit multiplication never wraps,
    and at most [max_length] values are stored. *)
Theorem shr_parse_csv_uint128_exact s n vals :
  s ≠ [] →
  shr_parse_csv_uint128 (Some s) n = Ok vals ↔
  (length vals ≤ n)%nat ∧
  Forall2 (λ tok v, Numeral.numeral (shr_trim tok) v ∧ v ≤ UINT128_MAX)
    (List.filter nonempty (fields c_comma s)) vals.
Proof.
  intros Hs. unfold shr_parse_csv_uint128. destruct s as [|c s]; [done|].
  set (toks := fields c_comma (c :: s)). clearbody toks. clear Hs.
  assert (Hgen : ∀ val, (length val ≤ n)%nat →
    parse_csv_u128_loop n toks val = Ok vals ↔
    ∃ vs, vals = val ++ vs ∧ (length vals ≤ n)%nat ∧
      Forall2 (λ tok v, Numeral.numeral (shr_trim tok) v ∧ v ≤ UINT128_MAX)
        (List.filter nonempty toks) vs).
  2: { rewrite Hgen by (simpl; lia). simpl. naive_solver. }
  induction toks as [|tok toks IH]; intros val Hn; cbn [parse_csv_u128_loop List.filter].
  { split.
    - intros [= <-]. exists []. by rewrite app_nil_r.
    - intros (vs & -> & _ & H%Forall2_nil_inv_l). subst. by rewrite app_nil_r. }
  destruct (nonempty tok); cbn [negb]; [|by apply IH].
  destruct (Nat.leb_spec n (length val)) as [Hfull|Hroom].
  { split; [done|]. intros (vs & -> & Hl & H). inversion H; subst.
    rewrite length_app in Hl. simpl in Hl. lia. }
  destruct (parse_u128 (shr_trim tok)) as [v|e] eqn:E; cbn [mbind result_bind].
  - rewrite IH by (rewrite length_app; simpl; lia). split.
    + intros (vs & -> & Hl & H). exists (v :: vs). rewrite <- app_assoc in Hl |- *.
      split_and!; [done|done|]. constructor; [by apply parse_u128_spec|done].
    + intros (vs & -> & Hl & H). inversion H as [|? w ? ws Hw Hws]; subst.
      apply parse_u128_spec in Hw. assert (w = v) as -> by congruence.
      exists ws. by rewrite <- app_assoc.
  - split; [done|]. intros (vs & _ & _ & H). inversion H as [|? w ? ws Hw Hws]; subst.
    apply parse_u128_spec in Hw. congruence.
Qed.

Lemma shr_parse_csv_uint128_exact_witness :
  (length [2 ^ 128 - 1] ≤ 1)%nat ∧
  Forall2 (λ tok v, Numeral.numeral (shr_trim tok) v ∧ v ≤ UINT128_MAX)
    (List.filter nonempty (fields c_comma (lit "0xffffffffffffffffffffffffffffffff,")))
    [2 ^ 128 - 1].
Proof.
  apply (shr_parse_csv_uint128_exact (lit "0xffffffffffffffffffffffffffffffff,") 1
    [2 ^ 128 - 1]); [done|].
  vm_compute. reflexivity.
Defined.
