(* ===== verification/Suffix.v ===== *)
(** * Numbers with SI and binary suffixes: [shared/suffix-util.c]

    The integer parsers on top of the checked number parsers, and the choice
    of a binary suffix for printing; the floating point functions
    ([shr_suffix_si_get], [shr_suffix_dbinary_get], [shr_suffix_si_get_ld])
    are not modelled. *)

From Stdlib Require Import String.
From stdpp Require Import base list numbers sets.
From S2P Require Import Prelude.
From S2P Require Import CStr.
From S2P Require Import Parse.

(** [si_suffixes]: the suffix character and the power of ten. *)
Definition si_suffixes : list (Z * nat) :=
  Eval vm_compute in
  [(char_at (lit "Q") 0, 30%nat); (char_at (lit "R") 0, 27%nat);
   (char_at (lit "Y") 0, 24%nat); (char_at (lit "Z") 0, 21%nat);
   (char_at (lit "E") 0, 18%nat); (char_at (lit "P") 0, 15%nat);
   (char_at (lit "T") 0, 12%nat); (char_at (lit "G") 0, 9%nat);
   (char_at (lit "M") 0, 6%nat); (char_at (lit "k") 0, 3%nat)].

Definition mul10 (v : Z) : option Z :=
  if UINT64_MAX / 10 <? v then None else Some (u64 (v * 10)).

(** [n] times [mul10]. *)
Fixpoint mul10_loop (n : nat) (v : Z) : option Z :=
  match n with
  | O => Some v
  | S n' => v ← mul10 v; mul10_loop n' v
  end.

(** The digits after the point: [frac], [frac_len] and the rest. *)
Fixpoint si_frac_loop (frac : Z) (frac_len : nat) (p : list Z) :
    option (Z * nat * list Z) :=
  match p with
  | [] => Some (frac, frac_len, [])
  | c :: p' =>
      if isdigit c then
        if (19 <=? frac_len)%nat then si_frac_loop frac (S frac_len) p'
        else frac ← mul10 frac; si_frac_loop (u64 (frac + (c - c_0))) (S frac_len) p'
      else Some (frac, frac_len, p)
  end.

Fixpoint div10_loop (n : nat) (v : Z) : Z :=
  match n with O => v | S n' => div10_loop n' (v / 10) end.

(** The body of the loop over [si_suffixes] for the matching entry. *)
Definition si_scale (num frac : Z) (frac_len exponent : nat) : result Z :=
  match mul10_loop exponent num with
  | None => Err EINVAL
  | Some v =>
      let frac_len := (frac_len `min` 19)%nat in
      match mul10_loop (exponent - frac_len) frac with
      | None => Err EINVAL
      | Some frac =>
          let frac := div10_loop (frac_len - exponent) frac in
          if UINT64_MAX - v <? frac then Err EINVAL else Ok (u64 (v + frac))
      end
  end.

(** The value, whether there was a suffix, and what [*endptr] points to. *)
Definition suffix_si_parse (str : list Z) : result (Z * bool * list Z) :=
  if negb (isdigit (char_at str 0)) || shr_has_leading_zero str then Err EINVAL
  else
    let r := strtoull 0 str in
    if negb (st_conv r) || st_erange r then Err EINVAL
    else
      let num := st_val r in
      let p := st_end r in
      let fraction :=
        if char_at p 0 =? c_dot then
          if isdigit (char_at p 1) then si_frac_loop 0 0 (drop 1 p) else None
        else Some (0, 0%nat, p) in
      match fraction with
      | None => Err EINVAL
      | Some (frac, frac_len, p) =>
          match p with
          | [] => Ok (num, false, [])
          | [c] =>
              match list_find (λ s, fst s = c) si_suffixes with
              | None => Err EINVAL
              | Some (_, (_, exponent)) =>
                  v ← si_scale num frac frac_len exponent; Ok (v, true, [])
              end
          | _ => Err EINVAL
          end
      end.

Definition shr_suffix_si_parse (str : list Z) : result (Z * list Z) :=
  '(v, _, e) ← suffix_si_parse str; Ok (v, e).

Definition shr_suffix_si_parse_units (str : list Z) (align unit : Z) : result Z :=
  if unit =? 0 then Err EINVAL
  else
    '(bytes, suffix, _) ← suffix_si_parse str;
    if negb suffix then Ok bytes
    else
      let rem := if align =? 0 then 0 else bytes mod align in
      if negb (rem =? 0) then
        if UINT64_MAX - (align - rem) <? bytes then Err ERANGE
        else Ok (u64 (bytes + (align - rem)) / unit)
      else Ok (bytes / unit).

(** [binary_suffixes]: the shift and the two characters. *)
Definition binary_suffixes : list (Z * list Z) :=
  Eval vm_compute in
  [(50, lit "Pi"); (40, lit "Ti"); (30, lit "Gi"); (20, lit "Mi"); (10, lit "Ki")].

(** The scaled value and the suffix.  C's division truncates. *)
Definition shr_suffix_binary_get (value : Z) : Z * list Z :=
  match list_find (λ s, 2 ^ fst s ≤ Z.abs value) binary_suffixes with
  | Some (_, (shift, suffix)) => ((value + 2 ^ (shift - 1)) ÷ 2 ^ shift, suffix)
  | None => (value, [])
  end.

Definition shr_suffix_binary_parse (str : list Z) : result (Z * list Z) :=
  if negb (isdigit (char_at str 0)) || shr_has_leading_zero str then Err EINVAL
  else
    let r := strtoull 0 str in
    if negb (st_conv r) || st_erange r then Err EINVAL
    else
      let ret := st_val r in
      match st_end r with
      | [] => Ok (ret, [])
      | [p0; p1] =>
          match list_find (λ s, tolower p0 = tolower (char_at (snd s) 0) ∧
                                tolower p1 = tolower (char_at (snd s) 1)) binary_suffixes with
          | None => Err EINVAL
          | Some (_, (shift, _)) =>
              if Z.shiftr UINT64_MAX shift <? ret then Err EINVAL
              else Ok (u64 (Z.shiftl ret shift), [])
          end
      | _ => Err EINVAL
      end.

Example si_ex : shr_suffix_si_parse (lit "1.5k") = Ok (1500, []).
Proof. vm_compute. reflexivity. Qed.
Example bin_ex : shr_suffix_binary_parse (lit "0x10Ki") = Ok (16384, []).
Proof. vm_compute. reflexivity. Qed.
