(* ===== verification/Uint128.v ===== *)
(** * 128-bit integers: [shared/uint128-util.c] and [shared/int-util.c]

    NVMe reports many counters as 16 little-endian bytes; the code keeps them
    as four 32-bit words, the most significant first, and prints them in
    decimal, digit by digit from the end of a buffer of 60 bytes.  The buffer
    is modelled with its bound: a store in front of it is [OutOfBounds].

    The conversions to [long double] are not modelled. *)

From Stdlib Require Import String.
From stdpp Require Import base list numbers.
From S2P Require Import Prelude.
From S2P Require Import CStr.
From S2P Require Import Parse.

(** ** shared/int-util.c *)

(** The loop of [int_to_long]: [n] bytes are left to read. *)
Fixpoint int_to_long_loop (data : list Z) (n : nat) (result : Z) : Z :=
  match n with
  | O => result
  | S n' => int_to_long_loop data n' (u64 (u64 (Z.shiftl result 8) + char_at data n'))
  end.

Definition int_to_long (bits : Z) (data : list Z) : Z :=
  int_to_long_loop data (Z.to_nat ((bits + 8 - 1) / 8)) 0.
Definition int48_to_long (data : list Z) : Z := int_to_long 48 data.
Definition int56_to_long (data : list Z) : Z := int_to_long 56 data.

(** ** shared/uint128-util.c *)

(** The words, the most significant first. *)
Record shr_uint128_t := { words0 : Z; words1 : Z; words2 : Z; words3 : Z }.

Definition le128_to_cpu (data : list Z) : shr_uint128_t :=
  let word i := le (take 4 (drop (4 * i) data)) in
  {| words0 := word 3%nat; words1 := word 2%nat; words2 := word 1%nat; words3 := word 0%nat |}.

(** What printing ends with: the text at [str + idx], a store in front of
    [str], or the fuel was not enough. *)
Inductive text := Text (s : list Z) | OutOfBounds | OutOfFuel.

Definition sizeof_str : nat := 60.

(** [str[--idx] = c]: [used] is [str] from [idx] on. *)
Definition push (c : Z) (used : list Z) : option (list Z) :=
  if (length used <? sizeof_str)%nat then Some (c :: used) else None.

(** The loop that copies the separator, its last byte first. *)
Definition push_sep (sep used : list Z) : option (list Z) :=
  foldl (λ u c, u ≫= push c) (Some used) (rev sep).

(** The four divisions of a round: the quotient and the last digit. *)
Definition div10 (val : shr_uint128_t) : shr_uint128_t * Z :=
  let rem := words0 val in
  let d0 := rem / 10 in
  let rem := u64 (u64 (Z.shiftl (u64 (rem - d0 * 10)) 32) + words1 val) in
  let d1 := rem / 10 in
  let rem := u64 (u64 (Z.shiftl (u64 (rem - d1 * 10)) 32) + words2 val) in
  let d2 := rem / 10 in
  let rem := u64 (u64 (Z.shiftl (u64 (rem - d2 * 10)) 32) + words3 val) in
  let d3 := rem / 10 in
  let rem := u64 (rem - d3 * 10) in
  ({| words0 := u32 d0; words1 := u32 d1; words2 := u32 d2; words3 := u32 d3 |}, rem).

Definition uint128_is_zero (val : shr_uint128_t) : bool :=
  (words0 val =? 0) && (words1 val =? 0) && (words2 val =? 0) && (words3 val =? 0).

(** The [do ... while] loop.  [cl] is 1 when the text is localized. *)
Fixpoint to_str_loop (fuel : nat) (sep : list Z) (cl : nat) (val : shr_uint128_t) (used : list Z) : text :=
  match fuel with
  | O => OutOfFuel
  | S fuel' =>
      let at_sep := nonempty sep && (length used mod (3 + cl) =? 0)%nat in
      match (if at_sep then push_sep sep used else Some used) with
      | None => OutOfBounds
      | Some used =>
          let '(val, rem) := div10 val in
          match push (c_0 + rem) used with
          | None => OutOfBounds
          | Some used => if uint128_is_zero val then Text used else to_str_loop fuel' sep cl val used
          end
      end
  end.

(** [thousands_sep] is that of the locale; a value has at most 39 digits. *)
Definition uint128_to_str (thousands_sep : list Z) (val : shr_uint128_t) (l10n : bool) : text :=
  to_str_loop 39 (if l10n then thousands_sep else []) (if l10n then 1 else 0) val [0].
Definition uint128_t_to_string (val : shr_uint128_t) : text := uint128_to_str [] val false.
Definition uint128_t_to_l10n_string (thousands_sep : list Z) (val : shr_uint128_t) : text :=
  uint128_to_str thousands_sep val true.

(** ** Reference *)

Module Decimal.

Definition is_word (w : Z) : Prop := 0 ≤ w < 2 ^ 32.
Definition wf (v : shr_uint128_t) : Prop :=
  is_word (words0 v) ∧ is_word (words1 v) ∧ is_word (words2 v) ∧ is_word (words3 v).
Definition value (v : shr_uint128_t) : Z :=
  words0 v * 2 ^ 96 + words1 v * 2 ^ 64 + words2 v * 2 ^ 32 + words3 v.

(** At most [n] decimal digits of a number, the ones first. *)
Fixpoint digits (n : nat) (v : Z) : list Z :=
  match n with
  | O => []
  | S n' => (c_0 + v mod 10) :: if v / 10 =? 0 then [] else digits n' (v / 10)
  end.

(** A separator between digits, the ones first, after every three; [i]
    digits are in front of the list. *)
Fixpoint insert_sep (sep : list Z) (i : nat) (l : list Z) : list Z :=
  match l with
  | [] => []
  | d :: l' => (if (0 <? i)%nat && (i mod 3 =? 0)%nat then rev sep else []) ++ d :: insert_sep sep (S i) l'
  end.

End Decimal.

(** ** Lemmas *)

Import Decimal.

(** One round of long division: the remainder of the word above is carried
    into the next word. *)
Lemma carry_word rem w :
  0 ≤ rem < 10 → is_word w →
  u64 (u64 (Z.shiftl (u64 rem) 32) + w) = rem * 2 ^ 32 + w.
Proof.
  unfold is_word. intros Hr Hw. rewrite (u64_small rem) by lia. rewrite Z.shiftl_mul_pow2 by lia.
  rewrite (u64_small (rem * 2 ^ 32)) by lia. apply u64_small. lia.
Qed.

Lemma div10_spec v q r :
  wf v → div10 v = (q, r) → wf q ∧ value q = value v / 10 ∧ r = value v mod 10.
Proof.
  intros (H0 & H1 & H2 & H3). unfold div10.
  assert (∀ a, a - a / 10 * 10 = a mod 10) as Hm by (intros; divmod).
  rewrite !Hm. rewrite !carry_word by (done || (apply Z.mod_pos_bound; lia)).
  unfold is_word in *. intros [= <- <-]. unfold wf, value, is_word. cbn [words0 words1 words2 words3].
  rewrite !u32_small, u64_small by divmod. split_and!; divmod.
Qed.

Lemma uint128_is_zero_spec v : wf v → uint128_is_zero v = (value v =? 0).
Proof.
  unfold wf, is_word, uint128_is_zero, value. intros (H0 & H1 & H2 & H3).
  destruct (Z.eqb_spec (words0 v) 0), (Z.eqb_spec (words1 v) 0), (Z.eqb_spec (words2 v) 0),
    (Z.eqb_spec (words3 v) 0); cbn [andb]; symmetry; (apply Z.eqb_eq || apply Z.eqb_neq); lia.
Qed.

Lemma push_sep_spec sep used :
  (length sep + length used ≤ sizeof_str)%nat → push_sep sep used = Some (sep ++ used).
Proof.
  unfold push_sep. rewrite <- (rev_involutive sep) at 1 3. generalize (rev sep) as l. clear sep.
  intros l. rewrite length_rev. revert used. induction l as [|c l IH]; intros used Hl; cbn; [done|].
  cbn [length] in Hl. unfold push at 2.
  replace (length used <? sizeof_str)%nat with true by (symmetry; apply Nat.ltb_lt; lia).
  rewrite IH by (cbn [length]; lia). by rewrite <- app_assoc.
Qed.

(** The bytes in use after [i] digits and the separators between them. *)
Definition used_len (sep : list Z) (i : nat) : nat := 1 + i + length sep * ((i - 1) / 3).

Lemma used_len_mod i : ((1 + i + (i - 1) / 3) mod 4 =? 0)%nat = ((0 <? i)%nat && (i mod 3 =? 0)%nat).
Proof.
  destruct i as [|j]; [done|]. replace (S j - 1)%nat with j by lia. cbn [Nat.ltb Nat.leb andb].
  pose proof (Nat.mod_upper_bound j 3 ltac:(lia)). rewrite (Nat.div_mod_eq j 3) at 1 3.
  set (q := (j / 3)%nat). set (r := (j mod 3)%nat) in *.
  replace (1 + S (3 * q + r) + q)%nat with (2 + r + q * 4)%nat by lia.
  replace (S (3 * q + r))%nat with (S r + q * 3)%nat by lia. rewrite !Nat.Div0.mod_add.
  by destruct r as [|[|[|r]]]; [| | |lia].
Qed.

Lemma at_sep_spec sep i :
  (length sep ≤ 1)%nat →
  nonempty sep && (used_len sep i mod 4 =? 0)%nat = nonempty sep && ((0 <? i)%nat && (i mod 3 =? 0)%nat).
Proof.
  intros Hs. destruct sep as [|c [|? ?]]; [done| |cbn in Hs; lia]. unfold used_len. cbn [nonempty andb length].
  by rewrite Nat.mul_1_l, used_len_mod.
Qed.

Lemma used_len_S sep i :
  (length sep ≤ 1)%nat →
  (used_len sep i + length (if (0 <? i)%nat && (i mod 3 =? 0)%nat then rev sep else []) + 1 =
   used_len sep (S i))%nat.
Proof.
  intros Hs. unfold used_len. destruct i as [|j]; [cbn; lia|]. cbn [Nat.ltb Nat.leb andb].
  replace (S j - 1)%nat with j by lia. replace (S (S j) - 1)%nat with (S j) by lia.
  destruct (Nat.eqb_spec (S j mod 3) 0) as [E|E].
  - rewrite length_rev. assert (S j / 3 = S (j / 3))%nat as -> by ndivmod. lia.
  - assert (S j / 3 = j / 3)%nat as -> by ndivmod. cbn [length]. lia.
Qed.

Lemma used_len_mono sep i j : (i ≤ j)%nat → (used_len sep i ≤ used_len sep j)%nat.
Proof.
  intros Hij. unfold used_len. assert ((i - 1) / 3 ≤ (j - 1) / 3)%nat by (apply Nat.Div0.div_le_mono; lia).
  nia.
Qed.

Lemma to_str_loop_spec n sep cl v used i :
  (length sep ≤ 1)%nat → sep = [] ∨ cl = 1%nat → wf v → value v < 10 ^ Z.of_nat n → (0 < n)%nat →
  length used = used_len sep i → (used_len sep (i + n) ≤ sizeof_str)%nat →
  to_str_loop n sep cl v used = Text (rev (insert_sep sep i (digits n (value v))) ++ used).
Proof.
  intros Hs Hcl. revert v used i. induction n as [|n IH]; intros v used i Hv Hlt Hn Hu Hfit; [lia|].
  cbn [to_str_loop digits insert_sep].
  assert (nonempty sep && (length used mod (3 + cl) =? 0)%nat =
          nonempty sep && ((0 <? i)%nat && (i mod 3 =? 0)%nat)) as ->.
  { rewrite Hu. destruct Hcl as [-> | ->]; [done|]. by apply at_sep_spec. }
  assert (∀ b : bool, (if nonempty sep && b then push_sep sep used else Some used) =
    if b then push_sep sep used else Some used) as ->
    by (intros []; by destruct sep).
  pose proof (used_len_S sep i Hs) as HS.
  pose proof (used_len_mono sep (S i) (i + S n) ltac:(lia)) as Hle.
  set (b := (0 <? i)%nat && (i mod 3 =? 0)%nat) in *. set (pre := if b then rev sep else []) in *.
  assert ((if b then push_sep sep used else Some used) = Some (rev pre ++ used)) as ->.
  { unfold pre in *. destruct b; [|done].
    rewrite length_rev in HS. rewrite rev_involutive, push_sep_spec by lia. done. }
  destruct (div10 v) as [q r] eqn:E. apply div10_spec in E as (Hq & Hval & ->); [|done].
  unfold push. rewrite length_app, length_rev.
  replace (length pre + length used <? sizeof_str)%nat with true by (symmetry; apply Nat.ltb_lt; lia).
  rewrite uint128_is_zero_spec, Hval by done. rewrite rev_app_distr. cbn [rev].
  destruct (Z.eqb_spec (value v / 10) 0) as [Hz|Hz]; [cbn; done|].
  assert (0 ≤ value v) by (unfold value, wf, is_word in *; lia).
  rewrite Nat2Z.inj_succ, Z.pow_succ_r in Hlt by lia.
  rewrite (IH q _ (S i)); [| |rewrite Hval; apply Z.div_lt_upper_bound; lia| | |].
  - rewrite Hval, <- !app_assoc. done.
  - done.
  - destruct n; [|lia]. exfalso. apply Hz. apply Z.div_small. cbn in Hlt. lia.
  - cbn [length]. rewrite length_app, length_rev. lia.
  - by rewrite Nat.add_succ_comm.
Qed.

(** *** The digits are the decimal numeral *)

Lemma digits_ne n v : (0 < n)%nat → digits n v ≠ [].
Proof. by destruct n; [lia|]. Qed.

Lemma digits_isdigit n v : forallb isdigit (digits n v) = true.
Proof.
  revert v. induction n as [|n IH]; intros v; cbn [digits forallb]; [done|]. apply andb_true_iff. split.
  - unfold isdigit. apply andb_true_iff. rewrite !Z.leb_le. divmod.
  - destruct (_ =? 0); [done|apply IH].
Qed.

Lemma digits_value n v :
  0 ≤ v < 10 ^ Z.of_nat n → (0 < n)%nat → Numeral.value 10 (rev (digits n v)) = v.
Proof.
  revert v. induction n as [|n IH]; intros v Hv Hn; [lia|]. cbn [digits rev].
  unfold Numeral.value in *. rewrite foldl_app. cbn [foldl].
  assert (digit_val (c_0 + v mod 10) = v mod 10) as ->.
  { unfold digit_val, isdigit.
    replace ((c_0 <=? c_0 + v mod 10) && (c_0 + v mod 10 <=? c_9)) with true; [lia|].
    symmetry. apply andb_true_iff. rewrite !Z.leb_le. divmod. }
  rewrite Nat2Z.inj_succ, Z.pow_succ_r in Hv by lia.
  destruct (Z.eqb_spec (v / 10) 0) as [Hz|Hz]; [cbn [rev foldl]; divmod|].
  rewrite IH; [divmod| |].
  - split; [divmod|apply Z.div_lt_upper_bound; lia].
  - destruct n; [|lia]. exfalso. apply Hz. apply Z.div_small. cbn in Hv. lia.
Qed.

Lemma digits_leading n v :
  0 ≤ v < 10 ^ Z.of_nat n → (0 < n)%nat →
  char_at (rev (digits n v)) 0 ≠ c_0 ∨ rev (digits n v) = [c_0].
Proof.
  revert v. induction n as [|n IH]; intros v Hv Hn; [lia|]. cbn [digits rev].
  rewrite Nat2Z.inj_succ, Z.pow_succ_r in Hv by lia.
  destruct (Z.eqb_spec (v / 10) 0) as [Hz|Hz].
  - cbn [rev app]. destruct (Z.eq_dec v 0) as [->|Hnz]; [by right|]. left. unfold char_at. cbn. divmod.
  - left. destruct n as [|n]; [exfalso; apply Hz; apply Z.div_small; cbn in Hv; lia|].
    destruct (IH (v / 10)) as [H|H]; [split; [divmod|apply Z.div_lt_upper_bound; lia]|lia| |].
    + unfold char_at in *. destruct (rev (digits (S n) (v / 10))) as [|d l] eqn:E; [|exact H].
      apply (f_equal (@rev Z)) in E. rewrite rev_involutive in E. by apply digits_ne in E; [|lia].
    + exfalso. apply Hz.
      rewrite <- (digits_value (S n) (v / 10)); [by rewrite H| |lia].
      split; [divmod|apply Z.div_lt_upper_bound; lia].
Qed.

Lemma value_bound v : wf v → 0 ≤ value v < 2 ^ 128.
Proof. unfold wf, is_word, value. lia. Qed.

Lemma int_to_long_loop_spec data n acc :
  bytes data → (n ≤ length data)%nat → (n ≤ 8)%nat → 0 ≤ acc < 2 ^ (64 - 8 * Z.of_nat n) →
  int_to_long_loop data n acc = acc * 2 ^ (8 * Z.of_nat n) + le (take n data).
Proof.
  intros Hb. revert acc. induction n as [|n IH]; intros acc Hn H8 Ha; cbn [int_to_long_loop].
  { rewrite take_0. cbn [le]. change (2 ^ (8 * Z.of_nat 0)) with 1. lia. }
  destruct (lookup_lt_is_Some_2 data n) as [c Hc]; [lia|].
  assert (is_byte c) as Hbc by (eapply list.Forall_lookup_1; [exact Hb|exact Hc]).
  unfold char_at. rewrite Hc. cbn [default from_option id]. unfold is_byte in Hbc.
  assert (2 ^ (64 - 8 * Z.of_nat n) = 256 * 2 ^ (64 - 8 * Z.of_nat (S n))) as Hp.
  { rewrite <- (Z.pow_add_r 2 8) by lia. f_equal. lia. }
  assert (2 ^ (64 - 8 * Z.of_nat n) ≤ 2 ^ 64) by (apply Z.pow_le_mono_r; lia).
  rewrite Z.shiftl_mul_pow2 by lia. change (2 ^ 8) with 256.
  rewrite (u64_small (acc * 256)), u64_small by lia.
  rewrite IH by lia. rewrite (take_S_r _ _ _ Hc), le_app, length_take_le by lia. cbn [le].
  rewrite Nat2Z.inj_succ. replace (8 * Z.succ (Z.of_nat n)) with (8 + 8 * Z.of_nat n) by lia.
  rewrite Z.pow_add_r by lia. lia.
Qed.

(** ** Theorems *)

(** [uint128_t_to_string] stays inside of its buffer for every value and
    writes the value's decimal numeral without leading zeros, which
    [shr_parse_csv_uint128] reads back as the same value.  The localized
    text, with an empty separator or one of a single byte, is the same digits
    with a separator after every three from the right, and fits too. *)
Theorem uint128_to_string_spec v :
  Decimal.wf v →
  ∃ s, uint128_t_to_string v = Text (s ++ [0]) ∧ Numeral.numeral s (Decimal.value v) ∧
    (∀ w, parse_u128 s = Ok w ↔ w = Decimal.value v) ∧
    ∀ sep, (length sep ≤ 1)%nat →
      uint128_t_to_l10n_string sep v = Text (rev (Decimal.insert_sep sep 0 (rev s)) ++ [0]).
Proof.
  intros Hv. pose proof (value_bound v Hv) as Hb.
  assert (0 ≤ value v < 10 ^ Z.of_nat 39) as Hb' by (change (10 ^ Z.of_nat 39) with (10 ^ 39); lia).
  exists (rev (digits 39 (value v))).
  assert (Numeral.numeral (rev (digits 39 (value v))) (value v)) as Hnum.
  { rewrite <- (digits_value 39 (value v)) at 2 by (done || lia). apply Numeral.num_dec.
    - intros E%(f_equal (@rev Z)). rewrite rev_involutive in E. by apply digits_ne in E; [|lia].
    - apply forallb_forall. intros c Hc%in_rev. revert c Hc. apply forallb_forall, digits_isdigit.
    - apply digits_leading; [done|lia]. }
  split_and!; [|done| |].
  - unfold uint128_t_to_string, uint128_to_str.
    rewrite (to_str_loop_spec 39 [] 0 v [0] 0); [|cbn; lia|by left|done|apply Hb'|lia|done|vm_compute; lia].
    do 2 f_equal. clear. generalize 0%nat as i, (digits 39 (value v)) as l.
    intros i l. f_equal. revert i. induction l as [|d l IH]; intros i; cbn [insert_sep]; [done|].
    destruct (_ && _); cbn [rev app]; by rewrite IH.
  - intros w. rewrite parse_u128_spec. split.
    + intros [Hw _]. by eapply numeral_functional.
    + intros ->. split; [done|unfold UINT128_MAX; lia].
  - intros sep Hs. rewrite rev_involutive. unfold uint128_t_to_l10n_string, uint128_to_str.
    apply (to_str_loop_spec 39 sep 1 v [0] 0); [done|by right|done|apply Hb'|lia| |].
    + by unfold used_len; cbn; rewrite Nat.mul_0_r.
    + assert ((39 - 1) / 3 = 12)%nat as E by reflexivity. unfold used_len, sizeof_str. cbn [Nat.add].
      rewrite E. lia.
Qed.

Lemma uint128_to_string_spec_witness :
  uint128_t_to_string {| words0 := 2 ^ 32 - 1; words1 := 5; words2 := 0; words3 := 7 |} =
    Text (lit "340282366841710301041343990206772019207" ++ [0]) ∧
  ∃ s, uint128_t_to_string {| words0 := 2 ^ 32 - 1; words1 := 5; words2 := 0; words3 := 7 |} =
    Text (s ++ [0]).
Proof.
  split; [vm_compute; reflexivity|].
  destruct (uint128_to_string_spec {| words0 := 2 ^ 32 - 1; words1 := 5; words2 := 0; words3 := 7 |})
    as (s & Hs & _); [|by exists s].
  unfold Decimal.wf, Decimal.is_word. cbn. lia.
Defined.

(** [le128_to_cpu] of 16 bytes, and [int48_to_long] and [int56_to_long] of
    at least 6 and 7 bytes, are the little-endian integers of these bytes; the
    64-bit arithmetic never wraps. *)
Theorem le_bytes_spec data :
  bytes data →
  (length data = 16%nat → Decimal.wf (le128_to_cpu data) ∧ Decimal.value (le128_to_cpu data) = le data) ∧
  ((6 ≤ length data)%nat → int48_to_long data = le (take 6 data)) ∧
  ((7 ≤ length data)%nat → int56_to_long data = le (take 7 data)).
Proof.
  intros Hb. split_and!.
  - intros Hl. unfold wf, value, is_word, le128_to_cpu. cbn [words0 words1 words2 words3 Nat.mul Nat.add].
    assert (∀ i, 0 ≤ le (take 4 (drop i data)) < 2 ^ 32) as Hw.
    { intros i. assert (bytes (take 4 (drop i data))) as Hbi by auto with nvme.
      pose proof (le_bound _ Hbi) as Hi. split; [lia|]. eapply Z.lt_le_trans; [apply Hi|].
      apply Z.pow_le_mono_r; [lia|]. rewrite length_take. lia. }
    split; [split_and!; apply Hw|].
    clear Hb Hw. do 16 (destruct data as [|? data]; [discriminate Hl|]). destruct data; [|discriminate Hl]. cbn [drop take le]. lia.
  - intros Hl. unfold int48_to_long, int_to_long. change (Z.to_nat _) with 6%nat.
    by rewrite int_to_long_loop_spec by (done || lia).
  - intros Hl. unfold int56_to_long, int_to_long. change (Z.to_nat _) with 7%nat.
    by rewrite int_to_long_loop_spec by (done || lia).
Qed.

Lemma le_bytes_spec_witness : int48_to_long [1; 2; 3; 4; 5; 6] = le [1; 2; 3; 4; 5; 6].
Proof.
  refine (proj1 (proj2 (le_bytes_spec [1; 2; 3; 4; 5; 6] _)) _); [apply bytes_forallb; reflexivity|cbn; lia].
Defined.

(** In a locale with a separator of more than one byte, such as the three
    bytes of a narrow no-break space, the digits are not grouped in threes,
    and a value of 18 digits is written in front of the buffer. *)
Theorem uint128_l10n_multibyte :
  let nnbsp := [226; 128; 175] in
  uint128_t_to_l10n_string nnbsp {| words0 := 0; words1 := 0; words2 := 0; words3 := 12345 |} =
    Text (lit "1" ++ nnbsp ++ lit "2" ++ nnbsp ++ lit "345" ++ [0]) ∧
  uint128_t_to_l10n_string nnbsp {| words0 := 0; words1 := 0; words2 := 23283064; words3 := 1569325056 |} =
    OutOfBounds.
Proof. split; vm_compute; reflexivity. Qed.
