(* ===== verification/Passthru.v ===== *)
(** * The passthrough command: [libnvme/src/nvme/lib-types.h]

    [struct libnvme_passthru_cmd], which every command of the library is
    built in, with one setter per field that is assigned, and the fields of a
    command dword: [NVME_FIELD_ENCODE] of [nvme-cmds-base.h], [NVME_GET],
    [NVME_SET] and [NVME_VAL] of [nvme-types-base.h].  The lemmas here say that fields
    of a dword that do not overlap can be read back. *)

From stdpp Require Import base list numbers.
From S2P Require Import Prelude.

(** ** The command *)

Record libnvme_passthru_cmd := {
  opcode : Z;
  flags : Z;
  rsvd1 : Z;
  nsid : Z;
  cdw2 : Z;
  cdw3 : Z;
  metadata : Z;
  addr : Z;
  metadata_len : Z;
  data_len : Z;
  cdw10 : Z;
  cdw11 : Z;
  cdw12 : Z;
  cdw13 : Z;
  cdw14 : Z;
  cdw15 : Z;
  timeout_ms : Z;
  rsvd2 : Z;
  cmd_result : Z }.

Abbreviation passthru := libnvme_passthru_cmd (only parsing).

(** [memset(cmd, 0, sizeof( *cmd))] *)
Definition cmd_zero : passthru :=
  {| opcode := 0; flags := 0; rsvd1 := 0; nsid := 0; cdw2 := 0; cdw3 := 0; metadata := 0; addr
     := 0; metadata_len := 0; data_len := 0; cdw10 := 0; cdw11 := 0; cdw12 := 0; cdw13 := 0;
     cdw14 := 0; cdw15 := 0; timeout_ms := 0; rsvd2 := 0; cmd_result := 0 |}.

(** Assignments. *)
Definition set_opcode (c : passthru) (v : Z) : passthru :=
  {| opcode := v; flags := flags c; rsvd1 := rsvd1 c; nsid := nsid c; cdw2 := cdw2 c; cdw3 := cdw3
     c; metadata := metadata c; addr := addr c; metadata_len := metadata_len c; data_len := data_len
     c; cdw10 := cdw10 c; cdw11 := cdw11 c; cdw12 := cdw12 c; cdw13 := cdw13 c; cdw14 := cdw14 c;
     cdw15 := cdw15 c; timeout_ms := timeout_ms c; rsvd2 := rsvd2 c; cmd_result := cmd_result c |}.
Definition set_flags (c : passthru) (v : Z) : passthru :=
  {| opcode := opcode c; flags := v; rsvd1 := rsvd1 c; nsid := nsid c; cdw2 := cdw2 c; cdw3 := cdw3
     c; metadata := metadata c; addr := addr c; metadata_len := metadata_len c; data_len := data_len
     c; cdw10 := cdw10 c; cdw11 := cdw11 c; cdw12 := cdw12 c; cdw13 := cdw13 c; cdw14 := cdw14 c;
     cdw15 := cdw15 c; timeout_ms := timeout_ms c; rsvd2 := rsvd2 c; cmd_result := cmd_result c |}.
Definition set_timeout_ms (c : passthru) (v : Z) : passthru :=
  {| opcode := opcode c; flags := flags c; rsvd1 := rsvd1 c; nsid := nsid c; cdw2 := cdw2 c; cdw3 :=
     cdw3 c; metadata := metadata c; addr := addr c; metadata_len := metadata_len c; data_len :=
     data_len c; cdw10 := cdw10 c; cdw11 := cdw11 c; cdw12 := cdw12 c; cdw13 := cdw13 c; cdw14 :=
     cdw14 c; cdw15 := cdw15 c; timeout_ms := v; rsvd2 := rsvd2 c; cmd_result := cmd_result c |}.
Definition set_result (c : passthru) (v : Z) : passthru :=
  {| opcode := opcode c; flags := flags c; rsvd1 := rsvd1 c; nsid := nsid c; cdw2 := cdw2 c; cdw3 :=
     cdw3 c; metadata := metadata c; addr := addr c; metadata_len := metadata_len c; data_len :=
     data_len c; cdw10 := cdw10 c; cdw11 := cdw11 c; cdw12 := cdw12 c; cdw13 := cdw13 c; cdw14 :=
     cdw14 c; cdw15 := cdw15 c; timeout_ms := timeout_ms c; rsvd2 := rsvd2 c; cmd_result := v |}.
Definition set_nsid (c : passthru) (v : Z) : passthru :=
  {| opcode := opcode c; flags := flags c; rsvd1 := rsvd1 c; nsid := v; cdw2 := cdw2 c; cdw3 := cdw3
     c; metadata := metadata c; addr := addr c; metadata_len := metadata_len c; data_len := data_len
     c; cdw10 := cdw10 c; cdw11 := cdw11 c; cdw12 := cdw12 c; cdw13 := cdw13 c; cdw14 := cdw14 c;
     cdw15 := cdw15 c; timeout_ms := timeout_ms c; rsvd2 := rsvd2 c; cmd_result := cmd_result c |}.
Definition set_cdw2 (c : passthru) (v : Z) : passthru :=
  {| opcode := opcode c; flags := flags c; rsvd1 := rsvd1 c; nsid := nsid c; cdw2 := v; cdw3 := cdw3
     c; metadata := metadata c; addr := addr c; metadata_len := metadata_len c; data_len := data_len
     c; cdw10 := cdw10 c; cdw11 := cdw11 c; cdw12 := cdw12 c; cdw13 := cdw13 c; cdw14 := cdw14 c;
     cdw15 := cdw15 c; timeout_ms := timeout_ms c; rsvd2 := rsvd2 c; cmd_result := cmd_result c |}.
Definition set_cdw3 (c : passthru) (v : Z) : passthru :=
  {| opcode := opcode c; flags := flags c; rsvd1 := rsvd1 c; nsid := nsid c; cdw2 := cdw2 c; cdw3 :=
     v; metadata := metadata c; addr := addr c; metadata_len := metadata_len c; data_len := data_len
     c; cdw10 := cdw10 c; cdw11 := cdw11 c; cdw12 := cdw12 c; cdw13 := cdw13 c; cdw14 := cdw14 c;
     cdw15 := cdw15 c; timeout_ms := timeout_ms c; rsvd2 := rsvd2 c; cmd_result := cmd_result c |}.
Definition set_metadata (c : passthru) (v : Z) : passthru :=
  {| opcode := opcode c; flags := flags c; rsvd1 := rsvd1 c; nsid := nsid c; cdw2 := cdw2 c; cdw3 :=
     cdw3 c; metadata := v; addr := addr c; metadata_len := metadata_len c; data_len := data_len c;
     cdw10 := cdw10 c; cdw11 := cdw11 c; cdw12 := cdw12 c; cdw13 := cdw13 c; cdw14 := cdw14 c; cdw15
     := cdw15 c; timeout_ms := timeout_ms c; rsvd2 := rsvd2 c; cmd_result := cmd_result c |}.
Definition set_addr (c : passthru) (v : Z) : passthru :=
  {| opcode := opcode c; flags := flags c; rsvd1 := rsvd1 c; nsid := nsid c; cdw2 := cdw2 c; cdw3 :=
     cdw3 c; metadata := metadata c; addr := v; metadata_len := metadata_len c; data_len := data_len
     c; cdw10 := cdw10 c; cdw11 := cdw11 c; cdw12 := cdw12 c; cdw13 := cdw13 c; cdw14 := cdw14 c;
     cdw15 := cdw15 c; timeout_ms := timeout_ms c; rsvd2 := rsvd2 c; cmd_result := cmd_result c |}.
Definition set_metadata_len (c : passthru) (v : Z) : passthru :=
  {| opcode := opcode c; flags := flags c; rsvd1 := rsvd1 c; nsid := nsid c; cdw2 := cdw2 c; cdw3 :=
     cdw3 c; metadata := metadata c; addr := addr c; metadata_len := v; data_len := data_len c;
     cdw10 := cdw10 c; cdw11 := cdw11 c; cdw12 := cdw12 c; cdw13 := cdw13 c; cdw14 := cdw14 c; cdw15
     := cdw15 c; timeout_ms := timeout_ms c; rsvd2 := rsvd2 c; cmd_result := cmd_result c |}.
Definition set_data_len (c : passthru) (v : Z) : passthru :=
  {| opcode := opcode c; flags := flags c; rsvd1 := rsvd1 c; nsid := nsid c; cdw2 := cdw2 c; cdw3 :=
     cdw3 c; metadata := metadata c; addr := addr c; metadata_len := metadata_len c; data_len := v;
     cdw10 := cdw10 c; cdw11 := cdw11 c; cdw12 := cdw12 c; cdw13 := cdw13 c; cdw14 := cdw14 c; cdw15
     := cdw15 c; timeout_ms := timeout_ms c; rsvd2 := rsvd2 c; cmd_result := cmd_result c |}.
Definition set_cdw10 (c : passthru) (v : Z) : passthru :=
  {| opcode := opcode c; flags := flags c; rsvd1 := rsvd1 c; nsid := nsid c; cdw2 := cdw2 c; cdw3 :=
     cdw3 c; metadata := metadata c; addr := addr c; metadata_len := metadata_len c; data_len :=
     data_len c; cdw10 := v; cdw11 := cdw11 c; cdw12 := cdw12 c; cdw13 := cdw13 c; cdw14 := cdw14 c;
     cdw15 := cdw15 c; timeout_ms := timeout_ms c; rsvd2 := rsvd2 c; cmd_result := cmd_result c |}.
Definition set_cdw11 (c : passthru) (v : Z) : passthru :=
  {| opcode := opcode c; flags := flags c; rsvd1 := rsvd1 c; nsid := nsid c; cdw2 := cdw2 c; cdw3 :=
     cdw3 c; metadata := metadata c; addr := addr c; metadata_len := metadata_len c; data_len :=
     data_len c; cdw10 := cdw10 c; cdw11 := v; cdw12 := cdw12 c; cdw13 := cdw13 c; cdw14 := cdw14 c;
     cdw15 := cdw15 c; timeout_ms := timeout_ms c; rsvd2 := rsvd2 c; cmd_result := cmd_result c |}.
Definition set_cdw12 (c : passthru) (v : Z) : passthru :=
  {| opcode := opcode c; flags := flags c; rsvd1 := rsvd1 c; nsid := nsid c; cdw2 := cdw2 c; cdw3 :=
     cdw3 c; metadata := metadata c; addr := addr c; metadata_len := metadata_len c; data_len :=
     data_len c; cdw10 := cdw10 c; cdw11 := cdw11 c; cdw12 := v; cdw13 := cdw13 c; cdw14 := cdw14 c;
     cdw15 := cdw15 c; timeout_ms := timeout_ms c; rsvd2 := rsvd2 c; cmd_result := cmd_result c |}.
Definition set_cdw13 (c : passthru) (v : Z) : passthru :=
  {| opcode := opcode c; flags := flags c; rsvd1 := rsvd1 c; nsid := nsid c; cdw2 := cdw2 c; cdw3 :=
     cdw3 c; metadata := metadata c; addr := addr c; metadata_len := metadata_len c; data_len :=
     data_len c; cdw10 := cdw10 c; cdw11 := cdw11 c; cdw12 := cdw12 c; cdw13 := v; cdw14 := cdw14 c;
     cdw15 := cdw15 c; timeout_ms := timeout_ms c; rsvd2 := rsvd2 c; cmd_result := cmd_result c |}.
Definition set_cdw14 (c : passthru) (v : Z) : passthru :=
  {| opcode := opcode c; flags := flags c; rsvd1 := rsvd1 c; nsid := nsid c; cdw2 := cdw2 c; cdw3 :=
     cdw3 c; metadata := metadata c; addr := addr c; metadata_len := metadata_len c; data_len :=
     data_len c; cdw10 := cdw10 c; cdw11 := cdw11 c; cdw12 := cdw12 c; cdw13 := cdw13 c; cdw14 := v;
     cdw15 := cdw15 c; timeout_ms := timeout_ms c; rsvd2 := rsvd2 c; cmd_result := cmd_result c |}.
Definition set_cdw15 (c : passthru) (v : Z) : passthru :=
  {| opcode := opcode c; flags := flags c; rsvd1 := rsvd1 c; nsid := nsid c; cdw2 := cdw2 c; cdw3 :=
     cdw3 c; metadata := metadata c; addr := addr c; metadata_len := metadata_len c; data_len :=
     data_len c; cdw10 := cdw10 c; cdw11 := cdw11 c; cdw12 := cdw12 c; cdw13 := cdw13 c; cdw14 :=
     cdw14 c; cdw15 := v; timeout_ms := timeout_ms c; rsvd2 := rsvd2 c; cmd_result := cmd_result c |}.

(** Every field has a value of its type. *)
Definition cmd_wf (c : passthru) : Prop :=
  0 ≤ opcode c < 2 ^ 8 ∧
  0 ≤ flags c < 2 ^ 8 ∧
  0 ≤ rsvd1 c < 2 ^ 16 ∧
  0 ≤ nsid c < 2 ^ 32 ∧
  0 ≤ cdw2 c < 2 ^ 32 ∧
  0 ≤ cdw3 c < 2 ^ 32 ∧
  0 ≤ metadata c < 2 ^ 64 ∧
  0 ≤ addr c < 2 ^ 64 ∧
  0 ≤ metadata_len c < 2 ^ 32 ∧
  0 ≤ data_len c < 2 ^ 32 ∧
  0 ≤ cdw10 c < 2 ^ 32 ∧
  0 ≤ cdw11 c < 2 ^ 32 ∧
  0 ≤ cdw12 c < 2 ^ 32 ∧
  0 ≤ cdw13 c < 2 ^ 32 ∧
  0 ≤ cdw14 c < 2 ^ 32 ∧
  0 ≤ cdw15 c < 2 ^ 32 ∧
  0 ≤ timeout_ms c < 2 ^ 32 ∧
  0 ≤ rsvd2 c < 2 ^ 32 ∧
  0 ≤ cmd_result c < 2 ^ 64.

(** A value of a [w]-bit unsigned type. *)
Definition in_width (w v : Z) : Prop := 0 ≤ v < 2 ^ w.

(** ** Fields of a dword *)

Declare Scope cmd_scope.
Delimit Scope cmd_scope with cmd.
Infix ".|" := Z.lor (at level 52, left associativity) : cmd_scope.
#[local] Open Scope cmd_scope.

Definition NVME_FIELD_ENCODE (value shift mask : Z) : Z := u32 (Z.shiftl (Z.land (u32 value) mask) shift).

(** [NVME_GET], [NVME_SET] and [NVME_VAL] of a field. *)
Definition NVME_GET (value shift mask : Z) : Z := Z.land (Z.shiftr value shift) mask.
Definition NVME_SET (value shift mask : Z) : Z := u32 (Z.shiftl (Z.land (u32 value) mask) shift).
Definition NVME_VAL (shift mask : Z) : Z := u32 (Z.shiftl (u32 mask) shift).

(** ** Lemmas *)

Lemma u32_land z : u32 z = Z.land z (Z.ones 32).
Proof. unfold u32. by rewrite Z.land_ones by lia. Qed.

Lemma testbit_above a n i : 0 ≤ n → 0 ≤ a < 2 ^ n → n ≤ i → Z.testbit a i = false.
Proof.
  intros Hn Ha Hi. destruct (Z.eq_dec a 0) as [->|Hz]; [apply Z.bits_0|].
  apply Z.bits_above_log2; [lia|]. apply Z.log2_lt_pow2; [lia|].
  eapply Z.lt_le_trans; [apply Ha|]. apply Z.pow_le_mono_r; lia.
Qed.

Lemma lor_bound n a b : 0 ≤ n → 0 ≤ a < 2 ^ n → 0 ≤ b < 2 ^ n → 0 ≤ a .| b < 2 ^ n.
Proof.
  intros Hn Ha Hb. assert (a .| b = (a .| b) mod 2 ^ n) as ->; [|apply Z.mod_pos_bound; lia].
  apply Z.bits_inj'. intros i Hi.
  destruct (Z.lt_ge_cases i n) as [Hlt|Hge].
  - by rewrite Z.mod_pow2_bits_low.
  - rewrite Z.mod_pow2_bits_high, Z.lor_spec by lia.
    by rewrite !(testbit_above _ n) by lia.
Qed.

Lemma shiftr_bound n a k : 0 ≤ k → 0 ≤ a < 2 ^ n → 0 ≤ Z.shiftr a k < 2 ^ n.
Proof.
  intros Hk Ha. rewrite Z.shiftr_div_pow2 by done. split; [apply Z.div_pos; lia|].
  eapply Z.le_lt_trans; [apply Z.div_le_upper_bound with (q := a)|apply Ha]; nia.
Qed.

(** The bits of an encoded field. *)
Lemma encode_spec v s m i :
  0 ≤ s → 0 ≤ i →
  Z.testbit (NVME_FIELD_ENCODE v s m) i =
  (i <? 32) && (s <=? i) && Z.testbit m (i - s) && Z.testbit v (i - s).
Proof.
  intros Hs Hi. unfold NVME_FIELD_ENCODE. rewrite !u32_land, Z.land_spec, Z.shiftl_spec by lia.
  rewrite Z.testbit_ones_nonneg by lia.
  destruct (Z.ltb_spec i 32); cbn [andb]; [|by rewrite andb_false_r]. rewrite andb_true_r.
  destruct (Z.leb_spec s i); cbn [andb]; [|apply Z.testbit_neg_r; lia].
  rewrite !Z.land_spec, Z.testbit_ones_nonneg by lia.
  replace (i - s <? 32) with true by (symmetry; apply Z.ltb_lt; lia).
  rewrite andb_true_r. apply andb_comm.
Qed.

Lemma get_lor a b s m : NVME_GET (a .| b) s m = NVME_GET a s m .| NVME_GET b s m.
Proof. unfold NVME_GET. by rewrite Z.shiftr_lor, Z.land_lor_distr_l. Qed.

(** A field reads back as the value, cut to the mask ... *)
Lemma get_own v s m : 0 ≤ s → 0 ≤ m → Z.shiftl m s < 2 ^ 32 → NVME_GET (NVME_FIELD_ENCODE v s m) s m = Z.land v m.
Proof.
  intros Hs Hm Hb. unfold NVME_GET. apply Z.bits_inj'. intros i Hi.
  rewrite !Z.land_spec, Z.shiftr_spec, encode_spec by lia. replace (i + s - s) with i by lia.
  destruct (Z.testbit m i) eqn:E; [|by rewrite !andb_false_r].
  assert (i + s < 32) as Hlt.
  { apply Z.nle_gt. intros Hge. assert (0 ≤ Z.shiftl m s) by (apply Z.shiftl_nonneg; lia).
    pose proof (testbit_above (Z.shiftl m s) 32 (i + s) ltac:(lia) ltac:(lia) Hge) as Hf.
    rewrite Z.shiftl_spec in Hf by lia. replace (i + s - s) with i in Hf by lia. congruence. }
  replace (i + s <? 32) with true by (symmetry; apply Z.ltb_lt; lia).
  replace (s <=? i + s) with true by (symmetry; apply Z.leb_le; lia).
  cbn [andb]. by rewrite !andb_true_r.
Qed.

(** ... and other fields do not show in it. *)
Lemma get_other v s m s' m' :
  0 ≤ s → 0 ≤ s' → Z.land (Z.shiftl m s) (Z.shiftl m' s') = 0 → NVME_GET (NVME_FIELD_ENCODE v s' m') s m = 0.
Proof.
  intros Hs Hs' Hd. unfold NVME_GET. apply Z.bits_inj'. intros i Hi.
  rewrite Z.land_spec, Z.shiftr_spec, encode_spec, Z.bits_0 by lia.
  destruct (Z.testbit m i) eqn:E; [|by rewrite andb_false_r].
  destruct (Z.leb_spec s' (i + s)); [|by rewrite andb_false_r].
  apply (f_equal (λ z, Z.testbit z (i + s))) in Hd.
  rewrite Z.land_spec, !Z.shiftl_spec, Z.bits_0 in Hd by lia. replace (i + s - s) with i in Hd by lia.
  rewrite E in Hd. cbn [andb] in Hd. by rewrite Hd, !andb_false_r.
Qed.

Lemma land_id k v : 0 ≤ k → 0 ≤ v < 2 ^ k → Z.land v (2 ^ k - 1) = v.
Proof. intros Hk Hv. rewrite land_ones_mod by done. by apply Z.mod_small. Qed.

Lemma get_zero s m : NVME_GET 0 s m = 0.
Proof. unfold NVME_GET. by rewrite Z.shiftr_0_l. Qed.

(** [NVME_GET] of a dword made of disjoint fields. *)
Ltac get_fields :=
  rewrite ?get_lor;
  repeat first
    [ rewrite get_own by (vm_compute; congruence)
    | rewrite get_other by (vm_compute; congruence)
    | rewrite get_zero ];
  rewrite ?Z.lor_0_r, ?Z.lor_0_l.

(** *** Widths *)

Lemma u8_width v : in_width 8 (u8 v).
Proof. by apply Z.mod_pos_bound. Qed.
Lemma u16_width v : in_width 16 (u16 v).
Proof. by apply Z.mod_pos_bound. Qed.
Lemma u32_width v : in_width 32 (u32 v).
Proof. by apply Z.mod_pos_bound. Qed.
Lemma u64_width v : in_width 64 (u64 v).
Proof. by apply Z.mod_pos_bound. Qed.
Lemma encode_width v s m : in_width 32 (NVME_FIELD_ENCODE v s m).
Proof. apply u32_width. Qed.
Lemma b2z_width b : in_width 1 (Z.b2z b).
Proof. by destruct b. Qed.
Lemma lor_width w a b : 0 ≤ w → in_width w a → in_width w b → in_width w (a .| b).
Proof. apply lor_bound. Qed.
Lemma shiftr_width w a k : 0 ≤ k → in_width w a → in_width w (Z.shiftr a k).
Proof. apply shiftr_bound. Qed.
Lemma width_le w w' v : w ≤ w' → in_width w v → in_width w' v.
Proof.
  unfold in_width. intros Hw Hv. split; [lia|]. eapply Z.lt_le_trans; [apply Hv|].
  by apply Z.pow_le_mono_r.
Qed.

(** A term without variables. *)
Ltac is_closed v :=
  lazymatch v with
  | ?f ?a => is_closed f; is_closed a
  | _ => tryif is_var v then fail else idtac
  end.

(** The value of a field that was assigned. *)
Ltac read_field :=
  cbn [cdw10 cdw11 cdw12 cdw13 cdw14 cdw15
       set_opcode set_flags set_nsid set_cdw2 set_cdw3 set_metadata set_addr set_metadata_len
       set_data_len set_cdw10 set_cdw11 set_cdw12 set_cdw13 set_cdw14 set_cdw15 set_timeout_ms
       cmd_zero].

(** A value has the width of the field it is stored to. *)
Ltac in_width :=
  lazymatch goal with
  | H : in_width ?w ?v |- in_width ?w' ?v => apply (width_le w); [vm_compute; congruence|exact H]
  | |- in_width _ (if ?b then _ else _) => destruct b; in_width
  | |- in_width ?w (u8 _) => apply (width_le 8); [vm_compute; congruence|apply u8_width]
  | |- in_width ?w (u16 _) => apply (width_le 16); [vm_compute; congruence|apply u16_width]
  | |- in_width ?w (u32 _) => apply (width_le 32); [vm_compute; congruence|apply u32_width]
  | |- in_width ?w (u64 _) => apply (width_le 64); [vm_compute; congruence|apply u64_width]
  | |- in_width _ (NVME_FIELD_ENCODE _ _ _) => apply (width_le 32); [vm_compute; congruence|apply encode_width]
  | |- in_width _ (Z.b2z _) => apply (width_le 1); [vm_compute; congruence|apply b2z_width]
  | |- in_width _ (Z.lor _ _) => apply lor_width; [vm_compute; congruence|in_width|in_width]
  | H : cmd_wf ?c |- in_width _ (cdw10 ?c) => unfold cmd_wf in H; unfold in_width; tauto
  | |- in_width _ (cdw10 _) => progress read_field; in_width
  | |- in_width _ (cdw11 _) => progress read_field; in_width
  | |- in_width _ (cdw12 _) => progress read_field; in_width
  | |- in_width _ (cdw13 _) => progress read_field; in_width
  | |- in_width _ (cdw14 _) => progress read_field; in_width
  | |- in_width _ (Z.shiftr _ _) => apply shiftr_width; [vm_compute; congruence|in_width]
  | |- in_width _ ?v => is_closed v; split; vm_compute; congruence
  end.

Lemma set_opcode_wf c v : cmd_wf c → in_width 8 v → cmd_wf (set_opcode c v).
Proof. unfold cmd_wf, in_width. cbn. tauto. Qed.
Lemma set_flags_wf c v : cmd_wf c → in_width 8 v → cmd_wf (set_flags c v).
Proof. unfold cmd_wf, in_width. cbn. tauto. Qed.
Lemma set_nsid_wf c v : cmd_wf c → in_width 32 v → cmd_wf (set_nsid c v).
Proof. unfold cmd_wf, in_width. cbn. tauto. Qed.
Lemma set_cdw2_wf c v : cmd_wf c → in_width 32 v → cmd_wf (set_cdw2 c v).
Proof. unfold cmd_wf, in_width. cbn. tauto. Qed.
Lemma set_cdw3_wf c v : cmd_wf c → in_width 32 v → cmd_wf (set_cdw3 c v).
Proof. unfold cmd_wf, in_width. cbn. tauto. Qed.
Lemma set_metadata_wf c v : cmd_wf c → in_width 64 v → cmd_wf (set_metadata c v).
Proof. unfold cmd_wf, in_width. cbn. tauto. Qed.
Lemma set_addr_wf c v : cmd_wf c → in_width 64 v → cmd_wf (set_addr c v).
Proof. unfold cmd_wf, in_width. cbn. tauto. Qed.
Lemma set_metadata_len_wf c v : cmd_wf c → in_width 32 v → cmd_wf (set_metadata_len c v).
Proof. unfold cmd_wf, in_width. cbn. tauto. Qed.
Lemma set_data_len_wf c v : cmd_wf c → in_width 32 v → cmd_wf (set_data_len c v).
Proof. unfold cmd_wf, in_width. cbn. tauto. Qed.
Lemma set_cdw10_wf c v : cmd_wf c → in_width 32 v → cmd_wf (set_cdw10 c v).
Proof. unfold cmd_wf, in_width. cbn. tauto. Qed.
Lemma set_cdw11_wf c v : cmd_wf c → in_width 32 v → cmd_wf (set_cdw11 c v).
Proof. unfold cmd_wf, in_width. cbn. tauto. Qed.
Lemma set_cdw12_wf c v : cmd_wf c → in_width 32 v → cmd_wf (set_cdw12 c v).
Proof. unfold cmd_wf, in_width. cbn. tauto. Qed.
Lemma set_cdw13_wf c v : cmd_wf c → in_width 32 v → cmd_wf (set_cdw13 c v).
Proof. unfold cmd_wf, in_width. cbn. tauto. Qed.
Lemma set_cdw14_wf c v : cmd_wf c → in_width 32 v → cmd_wf (set_cdw14 c v).
Proof. unfold cmd_wf, in_width. cbn. tauto. Qed.
Lemma set_cdw15_wf c v : cmd_wf c → in_width 32 v → cmd_wf (set_cdw15 c v).
Proof. unfold cmd_wf, in_width. cbn. tauto. Qed.
Lemma set_timeout_ms_wf c v : cmd_wf c → in_width 32 v → cmd_wf (set_timeout_ms c v).
Proof. unfold cmd_wf, in_width. cbn. tauto. Qed.
Lemma cmd_zero_wf : cmd_wf cmd_zero.
Proof. unfold cmd_wf. cbn. lia. Qed.

(** One assignment to a field. *)
Ltac set_wf :=
  lazymatch goal with
  | |- cmd_wf (set_opcode _ _) => apply set_opcode_wf; [|in_width]
  | |- cmd_wf (set_flags _ _) => apply set_flags_wf; [|in_width]
  | |- cmd_wf (set_nsid _ _) => apply set_nsid_wf; [|in_width]
  | |- cmd_wf (set_cdw2 _ _) => apply set_cdw2_wf; [|in_width]
  | |- cmd_wf (set_cdw3 _ _) => apply set_cdw3_wf; [|in_width]
  | |- cmd_wf (set_metadata _ _) => apply set_metadata_wf; [|in_width]
  | |- cmd_wf (set_addr _ _) => apply set_addr_wf; [|in_width]
  | |- cmd_wf (set_metadata_len _ _) => apply set_metadata_len_wf; [|in_width]
  | |- cmd_wf (set_data_len _ _) => apply set_data_len_wf; [|in_width]
  | |- cmd_wf (set_cdw10 _ _) => apply set_cdw10_wf; [|in_width]
  | |- cmd_wf (set_cdw11 _ _) => apply set_cdw11_wf; [|in_width]
  | |- cmd_wf (set_cdw12 _ _) => apply set_cdw12_wf; [|in_width]
  | |- cmd_wf (set_cdw13 _ _) => apply set_cdw13_wf; [|in_width]
  | |- cmd_wf (set_cdw14 _ _) => apply set_cdw14_wf; [|in_width]
  | |- cmd_wf (set_cdw15 _ _) => apply set_cdw15_wf; [|in_width]
  | |- cmd_wf (set_timeout_ms _ _) => apply set_timeout_ms_wf; [|in_width]
  | |- cmd_wf cmd_zero => apply cmd_zero_wf
  | |- cmd_wf (if ?b then _ else _) => destruct b
  | H : cmd_wf ?c |- cmd_wf ?c => exact H
  end.
