(* ===== verification/NvmeConst.v ===== *)
(** * Constants: the enumerations and sizes the commands use

    The shifts and masks of the fields of [nvme-cmds-base.h] and the other
    headers, opcodes and identifiers, with the values of the source, and the
    sizes of the structures that commands transfer. *)

From stdpp Require Import base numbers.
From S2P Require Import Prelude.

(** ** nvme-cmds-base.h *)

Definition NVME_LOG_CDW10_LID_SHIFT : Z := 0.
Definition NVME_LOG_CDW10_LSP_SHIFT : Z := 8.
Definition NVME_LOG_CDW10_NUMDL_SHIFT : Z := 16.
Definition NVME_LOG_CDW10_RAE_SHIFT : Z := 15.
Definition NVME_LOG_CDW11_LSI_SHIFT : Z := 16.
Definition NVME_LOG_CDW11_NUMDU_SHIFT : Z := 0.
Definition NVME_LOG_CDW14_CSI_SHIFT : Z := 24.
Definition NVME_LOG_CDW10_LID_MASK : Z := 0xff.
Definition NVME_LOG_CDW10_LSP_MASK : Z := 0x7f.
Definition NVME_LOG_CDW10_NUMDL_MASK : Z := 0xffff.
Definition NVME_LOG_CDW10_RAE_MASK : Z := 0x1.
Definition NVME_LOG_CDW11_LSI_MASK : Z := 0xffff.
Definition NVME_LOG_CDW11_NUMDU_MASK : Z := 0xffff.
Definition NVME_LOG_CDW14_CSI_MASK : Z := 0xff.
Definition NVME_IDENTIFY_CDW10_CNS_SHIFT : Z := 0.
Definition NVME_IDENTIFY_CDW10_CNTID_SHIFT : Z := 16.
Definition NVME_IDENTIFY_CDW11_CNSSPECID_SHIFT : Z := 0.
Definition NVME_IDENTIFY_CDW11_CSI_SHIFT : Z := 24.
Definition NVME_IDENTIFY_CDW11_DOMID_SHIFT : Z := 0.
Definition NVME_IDENTIFY_CDW11_ENGGID_SHIFT : Z := 0.
Definition NVME_IDENTIFY_CDW11_FIDX_SHIFT : Z := 0.
Definition NVME_IDENTIFY_CDW14_UUID_SHIFT : Z := 0.
Definition NVME_IDENTIFY_CDW10_CNS_MASK : Z := 0xff.
Definition NVME_IDENTIFY_CDW10_CNTID_MASK : Z := 0xffff.
Definition NVME_IDENTIFY_CDW11_CNSSPECID_MASK : Z := 0xffff.
Definition NVME_IDENTIFY_CDW11_CSI_MASK : Z := 0xff.
Definition NVME_IDENTIFY_CDW11_DOMID_MASK : Z := 0xffff.
Definition NVME_IDENTIFY_CDW11_ENGGID_MASK : Z := 0xffff.
Definition NVME_IDENTIFY_CDW11_FIDX_MASK : Z := 0xffff.
Definition NVME_IDENTIFY_CDW14_UUID_MASK : Z := 0x7f.
Definition NVME_ABORT_CDW10_SQID_SHIFT : Z := 0.
Definition NVME_ABORT_CDW10_CID_SHIFT : Z := 16.
Definition NVME_ABORT_CDW10_SQID_MASK : Z := 0xffff.
Definition NVME_ABORT_CDW10_CID_MASK : Z := 0xffff.
Definition NVME_SET_FEATURES_CDW10_FID_SHIFT : Z := 0.
Definition NVME_SET_FEATURES_CDW10_SV_SHIFT : Z := 31.
Definition NVME_SET_FEATURES_CDW11_NUM_SHIFT : Z := 0.
Definition NVME_SET_FEATURES_CDW10_FID_MASK : Z := 0xff.
Definition NVME_SET_FEATURES_CDW10_SV_MASK : Z := 0x1.
Definition NVME_SET_FEATURES_CDW11_NUM_MASK : Z := 0x3f.
Definition NVME_GET_FEATURES_CDW10_FID_SHIFT : Z := 0.
Definition NVME_GET_FEATURES_CDW10_SEL_SHIFT : Z := 8.
Definition NVME_GET_FEATURES_CDW10_FID_MASK : Z := 0xff.
Definition NVME_GET_FEATURES_CDW10_SEL_MASK : Z := 0x7.
Definition NVME_NAMESPACE_MGMT_CDW10_SEL_SHIFT : Z := 0.
Definition NVME_NAMESPACE_MGMT_CDW11_CSI_SHIFT : Z := 24.
Definition NVME_NAMESPACE_MGMT_CDW10_SEL_MASK : Z := 0xf.
Definition NVME_NAMESPACE_MGMT_CDW11_CSI_MASK : Z := 0xff.
Definition NVME_FW_COMMIT_CDW10_BPID_SHIFT : Z := 31.
Definition NVME_FW_COMMIT_CDW10_CA_SHIFT : Z := 3.
Definition NVME_FW_COMMIT_CDW10_FS_SHIFT : Z := 0.
Definition NVME_FW_COMMIT_CDW10_BPID_MASK : Z := 0x1.
Definition NVME_FW_COMMIT_CDW10_CA_MASK : Z := 0x7.
Definition NVME_FW_COMMIT_CDW10_FS_MASK : Z := 0x7.
Definition NVME_NAMESPACE_ATTACH_CDW10_SEL_SHIFT : Z := 0.
Definition NVME_NAMESPACE_ATTACH_CDW10_SEL_MASK : Z := 0xf.
Definition NVME_DIRECTIVE_CDW11_DOPER_SHIFT : Z := 0.
Definition NVME_DIRECTIVE_CDW11_DPSEC_SHIFT : Z := 16.
Definition NVME_DIRECTIVE_CDW11_DTYPE_SHIFT : Z := 8.
Definition NVME_DIRECTIVE_SEND_IDENTIFY_CDW12_DTYPE_SHIFT : Z := 1.
Definition NVME_DIRECTIVE_SEND_IDENTIFY_CDW12_ENDIR_SHIFT : Z := 0.
Definition NVME_DIRECTIVE_CDW11_DOPER_MASK : Z := 0xff.
Definition NVME_DIRECTIVE_CDW11_DPSEC_MASK : Z := 0xffff.
Definition NVME_DIRECTIVE_CDW11_DTYPE_MASK : Z := 0xff.
Definition NVME_DIRECTIVE_SEND_IDENTIFY_CDW12_DTYPE_MASK : Z := 0x1.
Definition NVME_DIRECTIVE_SEND_IDENTIFY_CDW12_ENDIR_MASK : Z := 0x1.
Definition NVME_DEVICE_SELF_TEST_CDW10_STC_SHIFT : Z := 0.
Definition NVME_DEVICE_SELF_TEST_CDW10_STC_MASK : Z := 0xf.
Definition NVME_VIRT_MGMT_CDW10_ACT_SHIFT : Z := 0.
Definition NVME_VIRT_MGMT_CDW10_CNTLID_SHIFT : Z := 16.
Definition NVME_VIRT_MGMT_CDW10_RT_SHIFT : Z := 8.
Definition NVME_VIRT_MGMT_CDW11_NR_SHIFT : Z := 0.
Definition NVME_VIRT_MGMT_CDW10_ACT_MASK : Z := 0xf.
Definition NVME_VIRT_MGMT_CDW10_CNTLID_MASK : Z := 0xffff.
Definition NVME_VIRT_MGMT_CDW10_RT_MASK : Z := 0x7.
Definition NVME_VIRT_MGMT_CDW11_NR_MASK : Z := 0xffff.
Definition NVME_CAPACITY_MGMT_CDW10_ELID_SHIFT : Z := 16.
Definition NVME_CAPACITY_MGMT_CDW10_OPER_SHIFT : Z := 0.
Definition NVME_CAPACITY_MGMT_CDW11_CAPL_SHIFT : Z := 0.
Definition NVME_CAPACITY_MGMT_CDW12_CAPU_SHIFT : Z := 0.
Definition NVME_CAPACITY_MGMT_CDW10_ELID_MASK : Z := 0xffff.
Definition NVME_CAPACITY_MGMT_CDW10_OPER_MASK : Z := 0xf.
Definition NVME_CAPACITY_MGMT_CDW11_CAPL_MASK : Z := 0xffffffff.
Definition NVME_CAPACITY_MGMT_CDW12_CAPU_MASK : Z := 0xffffffff.
Definition NVME_LOCKDOWN_CDW10_IFC_SHIFT : Z := 5.
Definition NVME_LOCKDOWN_CDW10_OFI_SHIFT : Z := 8.
Definition NVME_LOCKDOWN_CDW10_PRHBT_SHIFT : Z := 4.
Definition NVME_LOCKDOWN_CDW10_SCP_SHIFT : Z := 0.
Definition NVME_LOCKDOWN_CDW10_CSEL_SHIFT : Z := 16.
Definition NVME_LOCKDOWN_CDW14_UIDX_SHIFT : Z := 0.
Definition NVME_LOCKDOWN_CDW14_CSS_SHIFT : Z := 16.
Definition NVME_LOCKDOWN_CDW10_IFC_MASK : Z := 0x3.
Definition NVME_LOCKDOWN_CDW10_OFI_MASK : Z := 0xff.
Definition NVME_LOCKDOWN_CDW10_PRHBT_MASK : Z := 0x1.
Definition NVME_LOCKDOWN_CDW10_SCP_MASK : Z := 0xf.
Definition NVME_LOCKDOWN_CDW10_CSEL_MASK : Z := 0xf.
Definition NVME_LOCKDOWN_CDW14_UIDX_MASK : Z := 0x7f.
Definition NVME_LOCKDOWN_CDW14_CSS_MASK : Z := 0xffff.
Definition NVME_FORMAT_CDW10_LBAFL_SHIFT : Z := 0.
Definition NVME_FORMAT_CDW10_LBAFU_SHIFT : Z := 12.
Definition NVME_FORMAT_CDW10_MSET_SHIFT : Z := 4.
Definition NVME_FORMAT_CDW10_PIL_SHIFT : Z := 8.
Definition NVME_FORMAT_CDW10_PI_SHIFT : Z := 5.
Definition NVME_FORMAT_CDW10_SES_SHIFT : Z := 9.
Definition NVME_FORMAT_CDW10_LBAFL_MASK : Z := 0xf.
Definition NVME_FORMAT_CDW10_LBAFU_MASK : Z := 0x3.
Definition NVME_FORMAT_CDW10_MSET_MASK : Z := 0x1.
Definition NVME_FORMAT_CDW10_PIL_MASK : Z := 0x1.
Definition NVME_FORMAT_CDW10_PI_MASK : Z := 0x7.
Definition NVME_FORMAT_CDW10_SES_MASK : Z := 0x7.
Definition NVME_SECURITY_NSSF_SHIFT : Z := 0.
Definition NVME_SECURITY_SECP_SHIFT : Z := 24.
Definition NVME_SECURITY_SPSP0_SHIFT : Z := 8.
Definition NVME_SECURITY_SPSP1_SHIFT : Z := 16.
Definition NVME_SECURITY_NSSF_MASK : Z := 0xff.
Definition NVME_SECURITY_SECP_MASK : Z := 0xffff.
Definition NVME_SECURITY_SPSP0_MASK : Z := 0xff.
Definition NVME_SECURITY_SPSP1_MASK : Z := 0xff.
Definition NVME_SANITIZE_CDW10_AUSE_SHIFT : Z := 3.
Definition NVME_SANITIZE_CDW10_EMVS_SHIFT : Z := 10.
Definition NVME_SANITIZE_CDW10_NDAS_SHIFT : Z := 9.
Definition NVME_SANITIZE_CDW10_OIPBP_SHIFT : Z := 8.
Definition NVME_SANITIZE_CDW10_OWPASS_SHIFT : Z := 4.
Definition NVME_SANITIZE_CDW10_SANACT_SHIFT : Z := 0.
Definition NVME_SANITIZE_CDW10_PREQ_SHIFT : Z := 11.
Definition NVME_SANITIZE_CDW10_AUSE_MASK : Z := 0x1.
Definition NVME_SANITIZE_CDW10_EMVS_MASK : Z := 0x1.
Definition NVME_SANITIZE_CDW10_NDAS_MASK : Z := 0x1.
Definition NVME_SANITIZE_CDW10_OIPBP_MASK : Z := 0x1.
Definition NVME_SANITIZE_CDW10_OWPASS_MASK : Z := 0xf.
Definition NVME_SANITIZE_CDW10_SANACT_MASK : Z := 0x7.
Definition NVME_SANITIZE_CDW10_PREQ_MASK : Z := 0x1.
Definition NVME_SANITIZE_NS_CDW10_PREQ_SHIFT : Z := 4.
Definition NVME_SANITIZE_NS_CDW10_PREQ_MASK : Z := 0x1.
Definition NVME_GET_LBA_STATUS_CDW13_ATYPE_SHIFT : Z := 24.
Definition NVME_GET_LBA_STATUS_CDW13_RL_SHIFT : Z := 0.
Definition NVME_GET_LBA_STATUS_CDW13_ATYPE_MASK : Z := 0xff.
Definition NVME_GET_LBA_STATUS_CDW13_RL_MASK : Z := 0xffff.
Definition NVME_IOCS_COMMON_CDW10_SLBAL_SHIFT : Z := 0.
Definition NVME_IOCS_COMMON_CDW11_SLBAU_SHIFT : Z := 0.
Definition NVME_IOCS_COMMON_CDW12_NLB_SHIFT : Z := 0.
Definition NVME_IOCS_COMMON_CDW13_CEV_SHIFT : Z := 0.
Definition NVME_IOCS_COMMON_CDW13_DSPEC_SHIFT : Z := 16.
Definition NVME_IOCS_COMMON_CDW14_ELBTL_SHIFT : Z := 0.
Definition NVME_IOCS_COMMON_CDW15_ELBATM_SHIFT : Z := 16.
Definition NVME_IOCS_COMMON_CDW15_ELBAT_SHIFT : Z := 0.
Definition NVME_IOCS_COMMON_CDW2_ELBTU_SHIFT : Z := 0.
Definition NVME_IOCS_COMMON_CDW3_ELBTU_SHIFT : Z := 0.
Definition NVME_IOCS_COMMON_CDW10_SLBAL_MASK : Z := 0xffffffff.
Definition NVME_IOCS_COMMON_CDW11_SLBAU_MASK : Z := 0xffffffff.
Definition NVME_IOCS_COMMON_CDW12_CETYPE_MASK : Z := 0xf.
Definition NVME_IOCS_COMMON_CDW12_NLB_MASK : Z := 0xffff.
Definition NVME_IOCS_COMMON_CDW13_CEV_MASK : Z := 0xffff.
Definition NVME_IOCS_COMMON_CDW13_DSPEC_MASK : Z := 0xffff.
Definition NVME_IOCS_COMMON_CDW14_ELBTL_MASK : Z := 0xffffffff.
Definition NVME_IOCS_COMMON_CDW15_ELBATM_MASK : Z := 0xffff.
Definition NVME_IOCS_COMMON_CDW15_ELBAT_MASK : Z := 0xffff.
Definition NVME_IOCS_COMMON_CDW2_ELBTU_MASK : Z := 0xffff.
Definition NVME_IOCS_COMMON_CDW3_ELBTU_MASK : Z := 0xffffffff.
Definition NVME_IOCS_COMMON_CDW12_CONTROL_SHIFT : Z := 16.
Definition NVME_IOCS_COMMON_CDW13_DSM_SHIFT : Z := 0.
Definition NVME_IOCS_COMMON_CDW12_CONTROL_MASK : Z := 0xffff.
Definition NVME_IOCS_COMMON_CDW13_DSM_MASK : Z := 0xff.
Definition NVME_DIM_TAS_SHIFT : Z := 0.
Definition NVME_DIM_TAS_MASK : Z := 0xf.
Definition NVME_DSM_CDW10_NR_SHIFT : Z := 0.
Definition NVME_DSM_CDW11_AD_SHIFT : Z := 2.
Definition NVME_DSM_CDW11_IDR_SHIFT : Z := 0.
Definition NVME_DSM_CDW11_IDW_SHIFT : Z := 1.
Definition NVME_DSM_CDW10_NR_MASK : Z := 0xff.
Definition NVME_DSM_CDW11_AD_MASK : Z := 0x1.
Definition NVME_DSM_CDW11_IDR_MASK : Z := 0x1.
Definition NVME_DSM_CDW11_IDW_MASK : Z := 0x1.
Definition NVME_RESV_REGISTER_CDW10_CPTPL_SHIFT : Z := 30.
Definition NVME_RESV_REGISTER_CDW10_DISNSRS_SHIFT : Z := 4.
Definition NVME_RESV_REGISTER_CDW10_IEKEY_SHIFT : Z := 3.
Definition NVME_RESV_REGISTER_CDW10_RREGA_SHIFT : Z := 0.
Definition NVME_RESV_REGISTER_CDW10_CPTPL_MASK : Z := 0x3.
Definition NVME_RESV_REGISTER_CDW10_DISNSRS_MASK : Z := 0x1.
Definition NVME_RESV_REGISTER_CDW10_IEKEY_MASK : Z := 0x1.
Definition NVME_RESV_REGISTER_CDW10_RREGA_MASK : Z := 0x7.
Definition NVME_RESV_REPORT_CDW11_DISNSRS_SHIFT : Z := 1.
Definition NVME_RESV_REPORT_CDW11_EDS_SHIFT : Z := 0.
Definition NVME_RESV_REPORT_CDW11_DISNSRS_MASK : Z := 0x1.
Definition NVME_RESV_REPORT_CDW11_EDS_MASK : Z := 0x1.
Definition NVME_RESV_ACQUIRE_CDW10_DISNSRS_SHIFT : Z := 4.
Definition NVME_RESV_ACQUIRE_CDW10_IEKEY_SHIFT : Z := 3.
Definition NVME_RESV_ACQUIRE_CDW10_RACQA_SHIFT : Z := 0.
Definition NVME_RESV_ACQUIRE_CDW10_RTYPE_SHIFT : Z := 8.
Definition NVME_RESV_ACQUIRE_CDW10_DISNSRS_MASK : Z := 0x1.
Definition NVME_RESV_ACQUIRE_CDW10_IEKEY_MASK : Z := 0x1.
Definition NVME_RESV_ACQUIRE_CDW10_RACQA_MASK : Z := 0x7.
Definition NVME_RESV_ACQUIRE_CDW10_RTYPE_MASK : Z := 0xff.
Definition NVME_IO_MGMT_RECV_CDW10_MOS_SHIFT : Z := 16.
Definition NVME_IO_MGMT_RECV_CDW10_MO_SHIFT : Z := 0.
Definition NVME_IO_MGMT_RECV_CDW10_MOS_MASK : Z := 0xffff.
Definition NVME_IO_MGMT_RECV_CDW10_MO_MASK : Z := 0xff.
Definition NVME_RESV_RELEASE_CDW10_DISNSRS_SHIFT : Z := 4.
Definition NVME_RESV_RELEASE_CDW10_IEKEY_SHIFT : Z := 3.
Definition NVME_RESV_RELEASE_CDW10_RRELA_SHIFT : Z := 0.
Definition NVME_RESV_RELEASE_CDW10_RTYPE_SHIFT : Z := 8.
Definition NVME_RESV_RELEASE_CDW10_DISNSRS_MASK : Z := 0x1.
Definition NVME_RESV_RELEASE_CDW10_IEKEY_MASK : Z := 0x1.
Definition NVME_RESV_RELEASE_CDW10_RRELA_MASK : Z := 0x7.
Definition NVME_RESV_RELEASE_CDW10_RTYPE_MASK : Z := 0xff.
Definition NVME_CANCEL_CDW10_SQID_SHIFT : Z := 0.
Definition NVME_CANCEL_CDW10_SQID_MASK : Z := 0xffff.
Definition NVME_CANCEL_CDW10_CID_SHIFT : Z := 16.
Definition NVME_CANCEL_CDW10_CID_MASK : Z := 0xffff.
Definition NVME_CANCEL_CDW11_ACODE_SHIFT : Z := 0.
Definition NVME_CANCEL_CDW11_ACODE_MASK : Z := 0x3.
Definition NVME_COPY_CDW12_CETYPE_SHIFT : Z := 16.
Definition NVME_COPY_CDW12_DESFMT_SHIFT : Z := 8.
Definition NVME_COPY_CDW12_DTYPE_SHIFT : Z := 20.
Definition NVME_COPY_CDW12_FUA_SHIFT : Z := 30.
Definition NVME_COPY_CDW12_LR_SHIFT : Z := 31.
Definition NVME_COPY_CDW12_NR_SHIFT : Z := 0.
Definition NVME_COPY_CDW12_PRINFOR_SHIFT : Z := 12.
Definition NVME_COPY_CDW12_PRINFOW_SHIFT : Z := 26.
Definition NVME_COPY_CDW12_STCR_SHIFT : Z := 25.
Definition NVME_COPY_CDW12_STCW_SHIFT : Z := 24.
Definition NVME_COPY_CDW12_CETYPE_MASK : Z := 0xf.
Definition NVME_COPY_CDW12_DESFMT_MASK : Z := 0xf.
Definition NVME_COPY_CDW12_DTYPE_MASK : Z := 0xf.
Definition NVME_COPY_CDW12_FUA_MASK : Z := 0x1.
Definition NVME_COPY_CDW12_LR_MASK : Z := 0x1.
Definition NVME_COPY_CDW12_NR_MASK : Z := 0xff.
Definition NVME_COPY_CDW12_PRINFOR_MASK : Z := 0xf.
Definition NVME_COPY_CDW12_PRINFOW_MASK : Z := 0xf.
Definition NVME_COPY_CDW12_STCR_MASK : Z := 0x1.
Definition NVME_COPY_CDW12_STCW_MASK : Z := 0x1.
Definition NVME_IO_MGMT_SEND_CDW10_MOS_SHIFT : Z := 16.
Definition NVME_IO_MGMT_SEND_CDW10_MO_SHIFT : Z := 0.
Definition NVME_IO_MGMT_SEND_CDW10_MOS_MASK : Z := 0xffff.
Definition NVME_IO_MGMT_SEND_CDW10_MO_MASK : Z := 0xff.
Definition NVME_ZNS_MGMT_SEND_SEL_SHIFT : Z := 8.
Definition NVME_ZNS_MGMT_SEND_ZM_SHIFT : Z := 16.
Definition NVME_ZNS_MGMT_SEND_ZSASO_SHIFT : Z := 9.
Definition NVME_ZNS_MGMT_SEND_ZSA_SHIFT : Z := 0.
Definition NVME_ZNS_MGMT_SEND_SEL_MASK : Z := 0x1.
Definition NVME_ZNS_MGMT_SEND_ZM_MASK : Z := 0xff.
Definition NVME_ZNS_MGMT_SEND_ZSASO_MASK : Z := 0x1.
Definition NVME_ZNS_MGMT_SEND_ZSA_MASK : Z := 0xff.
Definition NVME_ZNS_MGMT_RECV_ZRASPF_SHIFT : Z := 16.
Definition NVME_ZNS_MGMT_RECV_ZRAS_SHIFT : Z := 8.
Definition NVME_ZNS_MGMT_RECV_ZRA_SHIFT : Z := 0.
Definition NVME_ZNS_MGMT_RECV_ZRASPF_MASK : Z := 0x1.
Definition NVME_ZNS_MGMT_RECV_ZRAS_MASK : Z := 0xff.
Definition NVME_ZNS_MGMT_RECV_ZRA_MASK : Z := 0xff.
Definition NVME_MI_ADMIN_CFLAGS_ISH_SHIFT : Z := 2.
Definition NVME_MI_ADMIN_CFLAGS_ISH_MASK : Z := 0x1.
Definition NVME_CSI_NVM : Z := 0.
Definition NVME_TELEMETRY_DA_CTRL_DETERMINE : Z := 0.
Definition NVME_LOG_LID_PREDICTABLE_LAT_NVMSET : Z := 10.
Definition NVME_LOG_LID_PREDICTABLE_LAT_AGG : Z := 11.
Definition NVME_LOG_LID_ANA : Z := 12.
Definition NVME_LOG_LID_PERSISTENT_EVENT : Z := 13.
Definition NVME_LOG_LID_LBA_STATUS : Z := 14.
Definition NVME_LOG_LID_ENDURANCE_GRP_EVT : Z := 15.
Definition NVME_LOG_LID_MEDIA_UNIT_STATUS : Z := 16.
Definition NVME_LOG_LID_SUPPORTED_CAP_CONFIG_LIST : Z := 17.
Definition NVME_LOG_LID_FID_SUPPORTED_EFFECTS : Z := 18.
Definition NVME_LOG_LID_CMD_AND_FEAT_LOCKDOWN : Z := 20.
Definition NVME_LOG_LID_BOOT_PARTITION : Z := 21.
Definition NVME_LOG_LID_ROTATIONAL_MEDIA_INFO : Z := 22.
Definition NVME_LOG_LID_DISPERSED_NS_PARTICIPATING_NSS : Z := 23.
Definition NVME_LOG_LID_MGMT_ADDR_LIST : Z := 24.
Definition NVME_LOG_LID_POWER_MEASUREMENT : Z := 37.
Definition NVME_LOG_LID_VOLTAGE_MEASUREMENT : Z := 39.
Definition NVME_LOG_LID_PHY_RX_EOM : Z := 25.
Definition NVME_LOG_LID_REACHABILITY_GROUPS : Z := 26.
Definition NVME_LOG_LID_REACHABILITY_ASSOCIATIONS : Z := 27.
Definition NVME_LOG_LID_CHANGED_ALLOC_NS : Z := 28.
Definition NVME_LOG_LID_FDP_CONFIGS : Z := 32.
Definition NVME_LOG_LID_FDP_RUH_USAGE : Z := 33.
Definition NVME_LOG_LID_FDP_EVENTS : Z := 35.
Definition NVME_LOG_LID_RATE_LIMITING : Z := 40.
Definition NVME_LOG_LID_HOST_ADDRESSABLE_NS : Z := 133.
Definition NVME_LOG_LID_RESERVATION : Z := 128.
Definition NVME_LOG_LID_SANITIZE : Z := 129.
Definition NVME_LOG_LID_MFG_DEFAULT_CONFIG : Z := 36.
Definition NVME_LOG_LID_DEV_PERSONALITY : Z := 29.
Definition NVME_IDENTIFY_CNS_NS : Z := 0.
Definition NVME_IDENTIFY_CNS_CTRL : Z := 1.
Definition NVME_IDENTIFY_CNS_NS_ACTIVE_LIST : Z := 2.
Definition NVME_IDENTIFY_CNS_NS_DESC_LIST : Z := 3.
Definition NVME_IDENTIFY_CNS_NVMSET_LIST : Z := 4.
Definition NVME_IDENTIFY_CNS_CSI_NS : Z := 5.
Definition NVME_IDENTIFY_CNS_CSI_CTRL : Z := 6.
Definition NVME_IDENTIFY_CNS_CSI_NS_ACTIVE_LIST : Z := 7.
Definition NVME_IDENTIFY_CNS_CSI_INDEPENDENT_ID_NS : Z := 8.
Definition NVME_IDENTIFY_CNS_NS_USER_DATA_FORMAT : Z := 9.
Definition NVME_IDENTIFY_CNS_CSI_NS_USER_DATA_FORMAT : Z := 10.
Definition NVME_IDENTIFY_CNS_ALLOCATED_NS_LIST : Z := 16.
Definition NVME_IDENTIFY_CNS_ALLOCATED_NS : Z := 17.
Definition NVME_IDENTIFY_CNS_NS_CTRL_LIST : Z := 18.
Definition NVME_IDENTIFY_CNS_CTRL_LIST : Z := 19.
Definition NVME_IDENTIFY_CNS_PRIMARY_CTRL_CAP : Z := 20.
Definition NVME_IDENTIFY_CNS_SECONDARY_CTRL_LIST : Z := 21.
Definition NVME_IDENTIFY_CNS_NS_GRANULARITY : Z := 22.
Definition NVME_IDENTIFY_CNS_UUID_LIST : Z := 23.
Definition NVME_IDENTIFY_CNS_DOMAIN_LIST : Z := 24.
Definition NVME_IDENTIFY_CNS_ENDURANCE_GROUP_ID : Z := 25.
Definition NVME_IDENTIFY_CNS_CSI_ALLOCATED_NS_LIST : Z := 26.
Definition NVME_IDENTIFY_CNS_CSI_ID_NS_DATA_STRUCTURE : Z := 27.
Definition NVME_IDENTIFY_CNS_COMMAND_SET_STRUCTURE : Z := 28.
Definition NVME_IDENTIFY_CNS_UNDERLYING_NS_LIST : Z := 29.
Definition NVME_IDENTIFY_CNS_PORTS_LIST : Z := 30.
Definition NVME_IDENTIFY_CNS_IOCS_IND_ID_ALLOC_NS : Z := 31.
Definition NVME_IDENTIFY_CNS_SUPPORTED_CTRL_STATE_FORMATS : Z := 32.
Definition NVME_IDENTIFY_CNS_UNDERLYING_CTRL_LIST : Z := 33.
Definition NVME_IDENTIFY_CNS_EXPORTED_NVM_SUBSYS_TEMPLATE_UUID_LIST : Z := 34.
Definition NVME_FEAT_ARBITRATION_BURST_SHIFT : Z := 0.
Definition NVME_FEAT_ARBITRATION_LPW_SHIFT : Z := 8.
Definition NVME_FEAT_ARBITRATION_MPW_SHIFT : Z := 16.
Definition NVME_FEAT_ARBITRATION_HPW_SHIFT : Z := 24.
Definition NVME_FEAT_PWRMGMT_PS_SHIFT : Z := 0.
Definition NVME_FEAT_PWRMGMT_WH_SHIFT : Z := 5.
Definition NVME_FEAT_TT_TMPTH_SHIFT : Z := 0.
Definition NVME_FEAT_TT_TMPSEL_SHIFT : Z := 16.
Definition NVME_FEAT_TT_THSEL_SHIFT : Z := 20.
Definition NVME_FEAT_TT_TMPTHH_SHIFT : Z := 22.
Definition NVME_FEAT_ERROR_RECOVERY_TLER_SHIFT : Z := 0.
Definition NVME_FEAT_ERROR_RECOVERY_DULBE_SHIFT : Z := 16.
Definition NVME_FEAT_VWC_WCE_SHIFT : Z := 0.
Definition NVME_FEAT_IRQC_THR_SHIFT : Z := 0.
Definition NVME_FEAT_IRQC_TIME_SHIFT : Z := 8.
Definition NVME_FEAT_ICFG_IV_SHIFT : Z := 0.
Definition NVME_FEAT_ICFG_CD_SHIFT : Z := 16.
Definition NVME_FEAT_WA_DN_SHIFT : Z := 0.
Definition NVME_FEAT_APST_APSTE_SHIFT : Z := 0.
Definition NVME_FEAT_HCTM_TMT2_SHIFT : Z := 0.
Definition NVME_FEAT_HCTM_TMT1_SHIFT : Z := 16.
Definition NVME_FEAT_NOPS_NOPPME_SHIFT : Z := 0.
Definition NVME_FEAT_RRL_NVMSETID_SHIFT : Z := 0.
Definition NVME_FEAT_RRL_RRL_SHIFT : Z := 0.
Definition NVME_FEAT_PLM_NVMSETID_SHIFT : Z := 0.
Definition NVME_FEAT_PLM_LPE_SHIFT : Z := 0.
Definition NVME_FEAT_PLMW_WS_SHIFT : Z := 0.
Definition NVME_FEAT_LBAS_LSIRI_SHIFT : Z := 0.
Definition NVME_FEAT_LBAS_LSIPI_SHIFT : Z := 16.
Definition NVME_FEAT_SANITIZE_NODRM_SHIFT : Z := 0.
Definition NVME_FEAT_EG_ENDGID_SHIFT : Z := 0.
Definition NVME_FEAT_EG_EGCW_SHIFT : Z := 16.
Definition NVME_FEAT_SPM_PBSLC_SHIFT : Z := 0.
Definition NVME_FEAT_HOSTID_EXHID_SHIFT : Z := 0.
Definition NVME_FEAT_RESP_PTPL_SHIFT : Z := 0.
Definition NVME_FEAT_WP_WPS_SHIFT : Z := 0.
Definition NVME_FEAT_IOCSP_IOCSCI_SHIFT : Z := 0.
Definition NVME_LM_CTRL_DATA_QUEUE_ETPT_SHIFT : Z := 31.
Definition NVME_FEAT_RATE_LIMITING_TGT_SHIFT : Z := 16.
Definition NVME_FEAT_RATE_LIMITING_TID_SHIFT : Z := 0.
Definition NVME_FEAT_SPINUP_CONTROL_SHIFT : Z := 0.
Definition NVME_FEAT_PLS_MODE_SHIFT : Z := 0.
Definition NVME_FEAT_PERFC_ATTRI_SHIFT : Z := 0.
Definition NVME_FEAT_PERFC_RVSPA_SHIFT : Z := 8.
Definition NVME_FEAT_FDP_INDEX_SHIFT : Z := 8.
Definition NVME_FEAT_FDP_ENABLED_SHIFT : Z := 0.
Definition NVME_FEAT_FDPE_PHNDL_SHIFT : Z := 0.
Definition NVME_FEAT_FDPE_NOET_SHIFT : Z := 16.
Definition NVME_FEAT_FDP_EVENTS_ENABLE_SHIFT : Z := 0.
Definition NVME_FEAT_CDP_PERID_SHIFT : Z := 0.
Definition NVME_FEAT_POWER_LIMIT_PLS_SHIFT : Z := 16.
Definition NVME_FEAT_POWER_LIMIT_PLV_SHIFT : Z := 0.
Definition NVME_FEAT_POWER_THRESH_EPT_SHIFT : Z := 31.
Definition NVME_FEAT_POWER_THRESH_PMTS_SHIFT : Z := 20.
Definition NVME_FEAT_POWER_THRESH_PTS_SHIFT : Z := 16.
Definition NVME_FEAT_POWER_THRESH_PTV_SHIFT : Z := 0.
Definition NVME_FEAT_POWER_MEAS_SMT_SHIFT : Z := 16.
Definition NVME_FEAT_POWER_MEAS_PMTS_SHIFT : Z := 4.
Definition NVME_FEAT_POWER_MEAS_ACT_SHIFT : Z := 0.
Definition NVME_FEAT_VOLTAGE_THRESHOLD_VSENS_SHIFT : Z := 29.
Definition NVME_FEAT_VOLTAGE_THRESHOLD_OVT_SHIFT : Z := 14.
Definition NVME_FEAT_VOLTAGE_THRESHOLD_UVT_SHIFT : Z := 0.
Definition NVME_FEAT_VOLTAGE_MEASUREMENT_ACT_SHIFT : Z := 0.
Definition NVME_HOST_METADATA_EA_SHIFT : Z := 13.
Definition NVME_FEAT_BPWPC_BP0WPS_SHIFT : Z := 0.
Definition NVME_FEAT_BPWPC_BP1WPS_SHIFT : Z := 3.
Definition NVME_NS_MGMT_SEL_RESTORE_DEFAULT_CONFIG : Z := 2.
Definition NVME_DIRECTIVE_SEND_IDENTIFY_DOPER_ENDIR : Z := 1.
Definition NVME_DIRECTIVE_DTYPE_IDENTIFY : Z := 0.
Definition NVME_DIRECTIVE_SEND_STREAMS_DOPER_RELEASE_IDENTIFIER : Z := 1.
Definition NVME_DIRECTIVE_DTYPE_STREAMS : Z := 1.
Definition NVME_DIRECTIVE_SEND_STREAMS_DOPER_RELEASE_RESOURCE : Z := 2.
Definition NVME_DIRECTIVE_RECEIVE_IDENTIFY_DOPER_PARAM : Z := 1.
Definition NVME_DIRECTIVE_RECEIVE_STREAMS_DOPER_PARAM : Z := 1.
Definition NVME_DIRECTIVE_RECEIVE_STREAMS_DOPER_RESOURCE : Z := 3.
Definition NVME_DIRECTIVE_RECEIVE_STREAMS_DOPER_STATUS : Z := 2.
Definition NVME_CAPACITY_MGMT_OPER_RESTORE_DEFAULT_CONFIG : Z := 5.
Definition NVME_MANAGE_EXPORT_NVMS_RECV_CDW10_SEL_SHIFT : Z := 0.
Definition NVME_MANAGE_EXPORT_NVMS_RECV_CDW10_MOS_SHIFT : Z := 8.
Definition NVME_MANAGE_EXPORT_NVMS_RECV_CDW10_MOSE_SHIFT : Z := 16.
Definition NVME_MANAGE_EXPORT_NVMS_RECV_CDW14_MOSI_SHIFT : Z := 16.
Definition NVME_MANAGE_EXPORT_NVMS_RECV_SEL_CREATE : Z := 0.
Definition NVME_EXPORT_NVMS_CREATE_CDW11_ENSTI_SHIFT : Z := 0.
Definition NVME_MANAGE_EXPORT_NVMS_RECV_SEL_LIST_SUBSYSTEMS : Z := 1.
Definition NVME_MANAGE_EXPORT_NVMS_RECV_SEL_LIST_NAMESPACES : Z := 2.
Definition NVME_MANAGE_EXPORT_NVMS_RECV_SEL_LIST_CONTROLLERS : Z := 3.
Definition NVME_MANAGE_EXPORT_NVMS_RECV_SEL_LIST_PORTS : Z := 4.
Definition NVME_MANAGE_EXPORT_NS_CDW10_SEL_SHIFT : Z := 0.
Definition NVME_MANAGE_EXPORT_NS_CDW10_MOS_SHIFT : Z := 8.
Definition NVME_MANAGE_EXPORT_NS_CDW14_ESUBID_SHIFT : Z := 16.
Definition NVME_MANAGE_EXPORT_NVMS_SEND_CDW10_SEL_SHIFT : Z := 0.
Definition NVME_MANAGE_EXPORT_NVMS_SEND_CDW10_MOS_SHIFT : Z := 8.
Definition NVME_MANAGE_EXPORT_NVMS_SEND_CDW10_MOSE_SHIFT : Z := 16.
Definition NVME_MANAGE_EXPORT_NVMS_SEND_CDW14_ESUBID_SHIFT : Z := 16.
Definition NVME_MANAGE_EXPORT_NVMS_SEND_SEL_DELETE : Z := 1.
Definition NVME_MANAGE_EXPORT_NVMS_SEND_SEL_CHANGE_ACCESS_MODE : Z := 2.
Definition NVME_MANAGE_EXPORT_NVMS_SEND_SEL_GRANT_HOST_ACCESS : Z := 3.
Definition NVME_MANAGE_EXPORT_NVMS_SEND_SEL_REVOKE_HOST_ACCESS : Z := 4.
Definition NVME_MANAGE_EXPORT_NVMS_SEND_SEL_ASSOCIATE_CONTROLLERS : Z := 5.
Definition NVME_MANAGE_EXPORT_NVMS_SEND_SEL_SET_CONFIG_STATE : Z := 6.
Definition NVME_LM_TRACK_SEND_SEL_SHIFT : Z := 0.
Definition NVME_LM_TRACK_SEND_MOS_SHIFT : Z := 16.
Definition NVME_LM_TRACK_RECV_SEL_SHIFT : Z := 0.
Definition NVME_LM_TRACKED_MEMORY_CHANGES_CNTLID_SHIFT : Z := 0.
Definition NVME_LM_MIGRATION_SEND_SEL_SHIFT : Z := 0.
Definition NVME_LM_MIGRATION_SEND_MOS_SHIFT : Z := 16.
Definition NVME_LM_MIGRATION_SEND_UIDX_SHIFT : Z := 0.
Definition NVME_LM_STYPE_SHIFT : Z := 16.
Definition NVME_LM_SUSPEND_CNTLID_SHIFT : Z := 0.
Definition NVME_LM_RESUME_CNTLID_SHIFT : Z := 0.
Definition NVME_LM_SET_CONTROLLER_STATE_CSUUIDI_SHIFT : Z := 24.
Definition NVME_LM_SET_CONTROLLER_STATE_CSVI_SHIFT : Z := 16.
Definition NVME_LM_SET_CONTROLLER_STATE_CNTLID_SHIFT : Z := 0.
Definition NVME_LM_GET_CONTROLLER_STATE_CSUIDXP_SHIFT : Z := 24.
Definition NVME_LM_GET_CONTROLLER_STATE_CSUUIDI_SHIFT : Z := 16.
Definition NVME_LM_GET_CONTROLLER_STATE_CNTLID_SHIFT : Z := 0.
Definition NVME_LM_MIGRATION_RECV_SEL_SHIFT : Z := 0.
Definition NVME_LM_MIGRATION_RECV_MOS_SHIFT : Z := 16.
Definition NVME_LM_MIGRATION_RECV_UIDX_SHIFT : Z := 0.
Definition NVME_LM_CREATE_CDQ_CNTLID_SHIFT : Z := 0.
Definition NVME_LM_CDQ_SEL_SHIFT : Z := 0.
Definition NVME_LM_CDQ_MOS_SHIFT : Z := 16.
Definition NVME_LM_CREATE_CDQ_PC_SHIFT : Z := 0.
Definition NVME_LM_CQS_SHIFT : Z := 16.
Definition NVME_LM_DELETE_CDQ_CDQID_SHIFT : Z := 0.

(** ** nvme-types-base.h *)

Definition NVME_NSID_ALL : Z := 4294967295.
Definition NVME_NSID_NONE : Z := 0.
Definition NVME_UUID_NONE : Z := 0.
Definition NVME_IDENTIFY_DATA_SIZE : Z := 4096.
Definition NVME_LOG_TELEM_BLOCK_SIZE : Z := 512.
Definition NVME_STREAM_ID_MAX : Z := 65535.
Definition NVME_CSI_ZNS : Z := 2.
Definition NVME_CSI_SLM : Z := 3.
Definition NVME_REG_CAP : Z := 0.
Definition NVME_REG_ASQ : Z := 40.
Definition NVME_REG_ACQ : Z := 48.
Definition NVME_REG_BPMBL : Z := 72.
Definition NVME_REG_CMBMSC : Z := 80.
Definition NVME_LOG_TELEM_HOST_LSP_RETAIN : Z := 0.
Definition NVME_LOG_TELEM_HOST_LSP_CREATE : Z := 1.
Definition NVME_HOST_METADATA_EA_MASK : Z := 0x3.
Definition NVME_CROSS_CTRL_RESET_CDW10_ICID_SHIFT : Z := 0.
Definition NVME_CROSS_CTRL_RESET_CDW10_ICID_MASK : Z := 0xffff.
Definition NVME_CROSS_CTRL_RESET_CDW10_CIU_SHIFT : Z := 16.
Definition NVME_CROSS_CTRL_RESET_CDW10_CIU_MASK : Z := 0xff.
Definition NVME_CROSS_CTRL_RESET_LSP_RMC : Z := 1.
Definition NVME_FABRIC_ZONING_RECV_CDW12_NUMD_SHIFT : Z := 0.
Definition NVME_FABRIC_ZONING_RECV_CDW12_NUMD_MASK : Z := 0xfffffff.
Definition NVME_FABRIC_ZONING_RECV_CDW12_ZDKC : Z := 268435456.
Definition NVME_FABRIC_ZONING_SEND_CDW12_NUMD_SHIFT : Z := 0.
Definition NVME_FABRIC_ZONING_SEND_CDW12_NUMD_MASK : Z := 0xfffffff.
Definition NVME_FABRIC_ZONING_SEND_CDW12_ZDKC : Z := 268435456.
Definition NVME_FABRIC_ZONING_SEND_CDW12_LF : Z := -2147483648.
Definition NVME_MANAGE_EXPORT_NVMS_RECV_CDW10_SEL_MASK : Z := 0xff.
Definition NVME_MANAGE_EXPORT_NVMS_RECV_CDW10_MOS_MASK : Z := 0xff.
Definition NVME_MANAGE_EXPORT_NVMS_RECV_CDW10_MOSE_MASK : Z := 0xffff.
Definition NVME_MANAGE_EXPORT_NVMS_RECV_CDW14_MOSI_MASK : Z := 0xffff.
Definition NVME_EXPORT_NVMS_CREATE_CDW11_ENSTI_MASK : Z := 0xff.
Definition NVME_EXPORT_NVMS_CREATE_CDW11_TR : Z := -2147483648.
Definition NVME_EXPORT_NVMS_CREATE_MOS_RA : Z := 1.
Definition NVME_MANAGE_EXPORT_NS_SEL_ASSOCIATE : Z := 1.
Definition NVME_MANAGE_EXPORT_NS_SEL_DISASSOCIATE : Z := 2.
Definition NVME_MANAGE_EXPORT_NS_CDW10_SEL_MASK : Z := 0xff.
Definition NVME_MANAGE_EXPORT_NS_CDW10_MOS_MASK : Z := 0xff.
Definition NVME_MANAGE_EXPORT_NS_CDW14_ESUBIDV : Z := 128.
Definition NVME_MANAGE_EXPORT_NS_CDW14_ESUBID_MASK : Z := 0xffff.
Definition NVME_EXPORT_NVMS_CHANGE_ACCESS_MODE_MOS_RA : Z := 1.
Definition NVME_MANAGE_EXPORT_NVMS_SEND_CDW10_SEL_MASK : Z := 0xff.
Definition NVME_MANAGE_EXPORT_NVMS_SEND_CDW10_MOS_MASK : Z := 0xff.
Definition NVME_MANAGE_EXPORT_NVMS_SEND_CDW10_MOSE_MASK : Z := 0xffff.
Definition NVME_MANAGE_EXPORT_NVMS_SEND_CDW14_ESUBIDV : Z := 128.
Definition NVME_MANAGE_EXPORT_NVMS_SEND_CDW14_ESUBID_MASK : Z := 0xffff.
Definition NVME_MANAGE_EXPORT_PORT_SEL_CREATE : Z := 1.
Definition NVME_MANAGE_EXPORT_PORT_SEL_DELETE : Z := 2.
Definition NVME_MANAGE_EXPORT_PORT_CDW10_SEL_SHIFT : Z := 0.
Definition NVME_MANAGE_EXPORT_PORT_CDW10_SEL_MASK : Z := 0xff.
Definition NVME_MANAGE_EXPORT_PORT_CDW10_MOS_SHIFT : Z := 8.
Definition NVME_MANAGE_EXPORT_PORT_CDW10_MOS_MASK : Z := 0xff.
Definition NVME_EXPORT_PORT_CREATE_MOS_GEPID : Z := 1.
Definition NVME_SDLP_CDW10_TLID_SHIFT : Z := 0.
Definition NVME_SDLP_CDW10_TLID_MASK : Z := 0xff.
Definition NVME_SDLP_CDW10_TLSP_SHIFT : Z := 8.
Definition NVME_SDLP_CDW10_TLSP_MASK : Z := 0x7f.
Definition NVME_SDLP_CDW10_SC_SHIFT : Z := 17.
Definition NVME_SDLP_CDW10_SC_MASK : Z := 0xff.
Definition NVME_SDLP_CDW10_SCT_SHIFT : Z := 25.
Definition NVME_SDLP_CDW10_SCT_MASK : Z := 0x7.
Definition NVME_SDLP_CDW10_RLPS_SHIFT : Z := 30.
Definition NVME_SDLP_CDW10_RLPS_MASK : Z := 0x3.
Definition NVME_SCT_CMD_SPECIFIC : Z := 1.
Definition nvme_admin_get_log_page : Z := 0x2.
Definition nvme_admin_identify : Z := 0x6.
Definition nvme_admin_abort_cmd : Z := 0x8.
Definition nvme_admin_set_features : Z := 0x9.
Definition nvme_admin_get_features : Z := 0xa.
Definition nvme_admin_async_event : Z := 0xc.
Definition nvme_admin_ns_mgmt : Z := 0xd.
Definition nvme_admin_fw_commit : Z := 0x10.
Definition nvme_admin_fw_download : Z := 0x11.
Definition nvme_admin_dev_self_test : Z := 0x14.
Definition nvme_admin_ns_attach : Z := 0x15.
Definition nvme_admin_keep_alive : Z := 0x18.
Definition nvme_admin_directive_send : Z := 0x19.
Definition nvme_admin_directive_recv : Z := 0x1a.
Definition nvme_admin_virtual_mgmt : Z := 0x1c.
Definition nvme_admin_capacity_mgmt : Z := 0x20.
Definition nvme_admin_discovery_info_mgmt : Z := 0x21.
Definition nvme_admin_fabric_zoning_recv : Z := 0x22.
Definition nvme_admin_lockdown : Z := 0x24.
Definition nvme_admin_fabric_zoning_lookup : Z := 0x25.
Definition nvme_admin_clear_export_nvm_res : Z := 0x28.
Definition nvme_admin_fabric_zoning_send : Z := 0x29.
Definition nvme_admin_manage_export_nvms_receive : Z := 0x2a.
Definition nvme_admin_manage_export_nvms_send : Z := 0x2d.
Definition nvme_admin_manage_export_ns : Z := 0x31.
Definition nvme_admin_manage_export_port : Z := 0x35.
Definition nvme_admin_cross_ctrl_reset : Z := 0x38.
Definition nvme_admin_send_disc_log_page : Z := 0x39.
Definition nvme_admin_track_send : Z := 0x3d.
Definition nvme_admin_track_receive : Z := 0x3e.
Definition nvme_admin_migration_send : Z := 0x41.
Definition nvme_admin_migration_receive : Z := 0x42.
Definition nvme_admin_ctrl_data_queue : Z := 0x45.
Definition nvme_admin_fabrics : Z := 0x7f.
Definition nvme_admin_format_nvm : Z := 0x80.
Definition nvme_admin_security_send : Z := 0x81.
Definition nvme_admin_security_recv : Z := 0x82.
Definition nvme_admin_sanitize_nvm : Z := 0x84.
Definition nvme_admin_get_lba_status : Z := 0x86.
Definition nvme_admin_sanitize_ns : Z := 0x8c.
Definition NVME_LOG_LID_SUPPORTED_LOG_PAGES : Z := 0.
Definition NVME_LOG_LID_ERROR : Z := 1.
Definition NVME_LOG_LID_SMART : Z := 2.
Definition NVME_LOG_LID_FW_SLOT : Z := 3.
Definition NVME_LOG_LID_CHANGED_ATTACHED_NS : Z := 4.
Definition NVME_LOG_LID_CMD_EFFECTS : Z := 5.
Definition NVME_LOG_LID_DEVICE_SELF_TEST : Z := 6.
Definition NVME_LOG_LID_TELEMETRY_HOST : Z := 7.
Definition NVME_LOG_LID_TELEMETRY_CTRL : Z := 8.
Definition NVME_LOG_LID_ENDURANCE_GROUP : Z := 9.
Definition NVME_LOG_LID_MI_CMD_SUPPORTED_EFFECTS : Z := 19.
Definition NVME_LOG_LID_CROSS_CTRL_RESET : Z := 30.
Definition NVME_LOG_LID_LOST_HOST_COMMUNICATION : Z := 31.
Definition NVME_LOG_LID_DISCOVERY : Z := 112.
Definition NVME_LOG_LID_HOST_DISCOVERY : Z := 113.
Definition NVME_LOG_LID_AVE_DISCOVERY : Z := 114.
Definition NVME_LOG_LID_PULL_MODEL_DDC_REQ : Z := 115.
Definition NVME_LOG_LID_ZNS_CHANGED_ZONES : Z := 191.
Definition NVME_FEAT_FID_ARBITRATION : Z := 1.
Definition NVME_FEAT_FID_POWER_MGMT : Z := 2.
Definition NVME_FEAT_FID_LBA_RANGE : Z := 3.
Definition NVME_FEAT_FID_TEMP_THRESH : Z := 4.
Definition NVME_FEAT_FID_ERR_RECOVERY : Z := 5.
Definition NVME_FEAT_FID_VOLATILE_WC : Z := 6.
Definition NVME_FEAT_FID_NUM_QUEUES : Z := 7.
Definition NVME_FEAT_FID_IRQ_COALESCE : Z := 8.
Definition NVME_FEAT_FID_IRQ_CONFIG : Z := 9.
Definition NVME_FEAT_FID_WRITE_ATOMIC : Z := 10.
Definition NVME_FEAT_FID_ASYNC_EVENT : Z := 11.
Definition NVME_FEAT_FID_AUTO_PST : Z := 12.
Definition NVME_FEAT_FID_HOST_MEM_BUF : Z := 13.
Definition NVME_FEAT_FID_TIMESTAMP : Z := 14.
Definition NVME_FEAT_FID_KATO : Z := 15.
Definition NVME_FEAT_FID_HCTM : Z := 16.
Definition NVME_FEAT_FID_NOPSC : Z := 17.
Definition NVME_FEAT_FID_RRL : Z := 18.
Definition NVME_FEAT_FID_PLM_CONFIG : Z := 19.
Definition NVME_FEAT_FID_PLM_WINDOW : Z := 20.
Definition NVME_FEAT_FID_LBA_STS_INTERVAL : Z := 21.
Definition NVME_FEAT_FID_HOST_BEHAVIOR : Z := 22.
Definition NVME_FEAT_FID_SANITIZE : Z := 23.
Definition NVME_FEAT_FID_ENDURANCE_EVT_CFG : Z := 24.
Definition NVME_FEAT_FID_IOCS_PROFILE : Z := 25.
Definition NVME_FEAT_FID_SPINUP_CONTROL : Z := 26.
Definition NVME_FEAT_FID_POWER_LOSS_SIGNAL : Z := 27.
Definition NVME_FEAT_FID_PERF_CHARACTERISTICS : Z := 28.
Definition NVME_FEAT_FID_FDP : Z := 29.
Definition NVME_FEAT_FID_FDP_EVENTS : Z := 30.
Definition NVME_FEAT_FID_NS_ADMIN_LABEL : Z := 31.
Definition NVME_FEAT_FID_CTRL_DATA_QUEUE : Z := 33.
Definition NVME_FEAT_FID_CONF_DEV_PERSONALITY : Z := 34.
Definition NVME_FEAT_FID_POWER_LIMIT : Z := 35.
Definition NVME_FEAT_FID_POWER_THRESH : Z := 36.
Definition NVME_FEAT_FID_POWER_MEASUREMENT : Z := 37.
Definition NVME_FEAT_FID_VOLTAGE_THRESHOLD : Z := 38.
Definition NVME_FEAT_FID_VOLTAGE_MEASUREMENT : Z := 39.
Definition NVME_FEAT_FID_RATE_LIMITING : Z := 40.
Definition NVME_FEAT_FID_EMB_MGMT_CTRL_ADDR : Z := 120.
Definition NVME_FEAT_FID_HOST_MGMT_AGENT_ADDR : Z := 121.
Definition NVME_FEAT_FID_ENH_CTRL_METADATA : Z := 125.
Definition NVME_FEAT_FID_CTRL_METADATA : Z := 126.
Definition NVME_FEAT_FID_NS_METADATA : Z := 127.
Definition NVME_FEAT_FID_SW_PROGRESS : Z := 128.
Definition NVME_FEAT_FID_HOST_ID : Z := 129.
Definition NVME_FEAT_FID_RESV_NF_MASK : Z := 0x82.
Definition NVME_FEAT_FID_RESV_PERSIST : Z := 131.
Definition NVME_FEAT_FID_WRITE_PROTECT : Z := 132.
Definition NVME_FEAT_FID_BP_WRITE_PROTECT : Z := 133.
Definition NVME_FEAT_ARBITRATION_BURST_MASK : Z := 0x7.
Definition NVME_FEAT_ARBITRATION_LPW_MASK : Z := 0xff.
Definition NVME_FEAT_ARBITRATION_MPW_MASK : Z := 0xff.
Definition NVME_FEAT_ARBITRATION_HPW_MASK : Z := 0xff.
Definition NVME_FEAT_PWRMGMT_PS_MASK : Z := 0x1f.
Definition NVME_FEAT_PWRMGMT_WH_MASK : Z := 0x7.
Definition NVME_FEAT_TT_TMPTH_MASK : Z := 0xffff.
Definition NVME_FEAT_TT_TMPSEL_MASK : Z := 0xf.
Definition NVME_FEAT_TT_THSEL_MASK : Z := 0x3.
Definition NVME_FEAT_TT_TMPTHH_MASK : Z := 0x7.
Definition NVME_FEAT_ERROR_RECOVERY_TLER_MASK : Z := 0xffff.
Definition NVME_FEAT_ERROR_RECOVERY_DULBE_MASK : Z := 0x1.
Definition NVME_FEAT_VWC_WCE_MASK : Z := 0x1.
Definition NVME_FEAT_IRQC_THR_MASK : Z := 0xff.
Definition NVME_FEAT_IRQC_TIME_MASK : Z := 0xff.
Definition NVME_FEAT_ICFG_IV_MASK : Z := 0xffff.
Definition NVME_FEAT_ICFG_CD_MASK : Z := 0x1.
Definition NVME_FEAT_WA_DN_MASK : Z := 0x1.
Definition NVME_FEAT_APST_APSTE_MASK : Z := 0x1.
Definition NVME_FEAT_HCTM_TMT2_MASK : Z := 0xffff.
Definition NVME_FEAT_HCTM_TMT1_MASK : Z := 0xffff.
Definition NVME_FEAT_NOPS_NOPPME_MASK : Z := 0x1.
Definition NVME_FEAT_RRL_NVMSETID_MASK : Z := 0xffff.
Definition NVME_FEAT_RRL_RRL_MASK : Z := 0xff.
Definition NVME_FEAT_PLM_NVMSETID_MASK : Z := 0xffff.
Definition NVME_FEAT_PLM_LPE_MASK : Z := 0x1.
Definition NVME_FEAT_PLMW_WS_MASK : Z := 0x7.
Definition NVME_FEAT_LBAS_LSIRI_MASK : Z := 0xffff.
Definition NVME_FEAT_LBAS_LSIPI_MASK : Z := 0xffff.
Definition NVME_FEAT_EG_ENDGID_MASK : Z := 0xffff.
Definition NVME_FEAT_EG_EGCW_MASK : Z := 0xff.
Definition NVME_FEAT_FDPE_PHNDL_MASK : Z := 0xffff.
Definition NVME_FEAT_FDPE_NOET_MASK : Z := 0xff.
Definition NVME_FEAT_SPM_PBSLC_MASK : Z := 0xff.
Definition NVME_FEAT_HOSTID_EXHID_MASK : Z := 0x1.
Definition NVME_FEAT_WP_WPS_MASK : Z := 0x7.
Definition NVME_FEAT_IOCSP_IOCSCI_MASK : Z := 0x1ff.
Definition NVME_FEAT_SPINUP_CONTROL_MASK : Z := 0x1.
Definition NVME_FEAT_PLS_MODE_MASK : Z := 0x3.
Definition NVME_FEAT_PERFC_ATTRI_MASK : Z := 0xff.
Definition NVME_FEAT_PERFC_RVSPA_MASK : Z := 0x1.
Definition NVME_FEAT_FDP_ENABLED_MASK : Z := 0x1.
Definition NVME_FEAT_FDP_INDEX_MASK : Z := 0xff.
Definition NVME_FEAT_FDP_EVENTS_ENABLE_MASK : Z := 0x1.
Definition NVME_FEAT_BPWPC_BP0WPS_MASK : Z := 0x7.
Definition NVME_FEAT_BPWPC_BP1WPS_MASK : Z := 0x7.
Definition NVME_FEAT_SANITIZE_NODRM_MASK : Z := 0x1.
Definition NVME_FEAT_RESP_PTPL_MASK : Z := 0x1.
Definition NVME_FEAT_CDP_CHPS : Z := 512.
Definition NVME_FEAT_CDP_PERFS : Z := 256.
Definition NVME_FEAT_CDP_PERID_MASK : Z := 0xff.
Definition NVME_FEAT_POWER_LIMIT_PLV_MASK : Z := 0xffff.
Definition NVME_FEAT_POWER_LIMIT_PLS_MASK : Z := 0x3.
Definition NVME_FEAT_POWER_THRESH_PTV_MASK : Z := 0xffff.
Definition NVME_FEAT_POWER_THRESH_PTS_MASK : Z := 0x3.
Definition NVME_FEAT_POWER_THRESH_PMTS_MASK : Z := 0xf.
Definition NVME_FEAT_POWER_THRESH_EPT_MASK : Z := 0x1.
Definition NVME_FEAT_POWER_MEAS_ACT_MASK : Z := 0xf.
Definition NVME_FEAT_POWER_MEAS_PMTS_MASK : Z := 0xf.
Definition NVME_FEAT_POWER_MEAS_SMT_MASK : Z := 0xffff.
Definition NVME_FEAT_VOLTAGE_THRESHOLD_UVT_MASK : Z := 0x3fff.
Definition NVME_FEAT_VOLTAGE_THRESHOLD_OVT_MASK : Z := 0x3fff.
Definition NVME_FEAT_VOLTAGE_THRESHOLD_EVT : Z := 268435456.
Definition NVME_FEAT_VOLTAGE_THRESHOLD_VSENS_MASK : Z := 0x3.
Definition NVME_FEAT_VOLTAGE_MEASUREMENT_ACT_MASK : Z := 0xf.
Definition NVME_FEAT_RATE_LIMITING_TID_MASK : Z := 0xffff.
Definition NVME_FEAT_RATE_LIMITING_TGT_MASK : Z := 0xff.
Definition NVME_NS_MGMT_SEL_CREATE : Z := 0.
Definition NVME_NS_MGMT_SEL_DELETE : Z := 1.
Definition NVME_NS_ATTACH_SEL_CTRL_ATTACH : Z := 0.
Definition NVME_NS_ATTACH_SEL_CTRL_DEATTACH : Z := 1.
Definition NVME_LOG_ANA_LSP_RGO_GROUPS_ONLY : Z := 1.
Definition nvme_fabrics_type_property_set : Z := 0x0.
Definition nvme_fabrics_type_property_get : Z := 0x4.
Definition nvme_fabrics_type_auth_send : Z := 0x5.
Definition nvme_fabrics_type_auth_receive : Z := 0x6.
Definition nvme_cmd_flush : Z := 0x0.
Definition nvme_cmd_write : Z := 0x1.
Definition nvme_cmd_read : Z := 0x2.
Definition nvme_cmd_write_uncor : Z := 0x4.
Definition nvme_cmd_compare : Z := 0x5.
Definition nvme_cmd_write_zeroes : Z := 0x8.
Definition nvme_cmd_dsm : Z := 0x9.
Definition nvme_cmd_verify : Z := 0xc.
Definition nvme_cmd_resv_register : Z := 0xd.
Definition nvme_cmd_resv_report : Z := 0xe.
Definition nvme_cmd_resv_acquire : Z := 0x11.
Definition nvme_cmd_io_mgmt_recv : Z := 0x12.
Definition nvme_cmd_resv_release : Z := 0x15.
Definition nvme_cmd_cancel : Z := 0x18.
Definition nvme_cmd_copy : Z := 0x19.
Definition nvme_cmd_io_mgmt_send : Z := 0x1d.
Definition nvme_zns_cmd_mgmt_send : Z := 0x79.
Definition nvme_zns_cmd_mgmt_recv : Z := 0x7a.
Definition nvme_zns_cmd_append : Z := 0x7d.
Definition NVME_LM_CDQ_MOS_MASK : Z := 0xffff.
Definition NVME_LM_CDQ_SEL_MASK : Z := 0xff.
Definition NVME_LM_SEL_CREATE_CDQ : Z := 0.
Definition NVME_LM_SEL_DELETE_CDQ : Z := 1.
Definition NVME_LM_CQS_MASK : Z := 0xffff.
Definition NVME_LM_CREATE_CDQ_PC : Z := 1.
Definition NVME_LM_CREATE_CDQ_PC_MASK : Z := 0x1.
Definition NVME_LM_CREATE_CDQ_CNTLID_MASK : Z := 0xffff.
Definition NVME_LM_DELETE_CDQ_CDQID_MASK : Z := 0xffff.
Definition NVME_LM_TRACK_SEND_MOS_MASK : Z := 0xffff.
Definition NVME_LM_TRACK_SEND_SEL_MASK : Z := 0xff.
Definition NVME_LM_TRACK_RECV_SEL_MASK : Z := 0xff.
Definition NVME_LM_TRACKED_MEMORY_CHANGES_CNTLID_MASK : Z := 0xffff.
Definition NVME_LM_MIGRATION_SEND_MOS_MASK : Z := 0xffff.
Definition NVME_LM_MIGRATION_SEND_SEL_MASK : Z := 0xff.
Definition NVME_LM_SEL_SUSPEND : Z := 0.
Definition NVME_LM_SEL_RESUME : Z := 1.
Definition NVME_LM_SEL_SET_CONTROLLER_STATE : Z := 2.
Definition NVME_LM_MIGRATION_SEND_UIDX_MASK : Z := 0x7f.
Definition NVME_LM_DUDMQ : Z := -2147483648.
Definition NVME_LM_STYPE_MASK : Z := 0xff.
Definition NVME_LM_SUSPEND_CNTLID_MASK : Z := 0xffff.
Definition NVME_LM_RESUME_CNTLID_MASK : Z := 0xffff.
Definition NVME_LM_SET_CONTROLLER_STATE_CSUUIDI_MASK : Z := 0xff.
Definition NVME_LM_SET_CONTROLLER_STATE_CSVI_MASK : Z := 0xff.
Definition NVME_LM_SET_CONTROLLER_STATE_CNTLID_MASK : Z := 0xffff.
Definition NVME_LM_MIGRATION_RECV_MOS_MASK : Z := 0xffff.
Definition NVME_LM_MIGRATION_RECV_SEL_MASK : Z := 0xff.
Definition NVME_LM_SEL_GET_CONTROLLER_STATE : Z := 0.
Definition NVME_LM_MIGRATION_RECV_UIDX_MASK : Z := 0x7f.
Definition NVME_LM_GET_CONTROLLER_STATE_CSUIDXP_MASK : Z := 0xff.
Definition NVME_LM_GET_CONTROLLER_STATE_CSUUIDI_MASK : Z := 0xff.
Definition NVME_LM_GET_CONTROLLER_STATE_CNTLID_MASK : Z := 0xffff.
Definition NVME_LM_CTRL_DATA_QUEUE_ETPT_MASK : Z := 0x1.
Definition NVME_VOLTAGE_MEASUREMENT_ACT_START : Z := 1.

(** ** nvme-types-nvm.h *)

Definition NVME_NVM_PIF_16B_GUARD : Z := 0.
Definition NVME_NVM_PIF_32B_GUARD : Z := 1.
Definition NVME_NVM_PIF_64B_GUARD : Z := 2.
Definition NVME_IO_MGMT_RECV_RUH_STATUS : Z := 1.
Definition NVME_IO_MGMT_SEND_RUH_UPDATE : Z := 1.

(** ** nvme-types-zns.h *)

Definition NVME_ZNS_ZRA_REPORT_ZONES : Z := 0.
Definition NVME_ZNS_ZRA_EXTENDED_REPORT_ZONES : Z := 1.

(** ** ioctl.h *)

Definition NVME_LOG_PAGE_PDU_SIZE : Z := 4096.

(** ** Sizes of structures *)

Definition sizeof_nvme_ana_group_desc : Z := 32.
Definition sizeof_nvme_ana_log : Z := 16.
Definition sizeof_nvme_associate_ns_data : Z := 576.
Definition sizeof_nvme_cmd_effects_log : Z := 4096.
Definition sizeof_nvme_copy_range_f0 : Z := 32.
Definition sizeof_nvme_copy_range_f1 : Z := 40.
Definition sizeof_nvme_copy_range_f2 : Z := 32.
Definition sizeof_nvme_copy_range_f3 : Z := 40.
Definition sizeof_nvme_ctrl_list : Z := 4096.
Definition sizeof_nvme_disassociate_ns_data : Z := 320.
Definition sizeof_nvme_endurance_group_log : Z := 512.
Definition sizeof_nvme_error_log_page : Z := 64.
Definition sizeof_nvme_exported_nvm_subsys_create_data : Z := 256.
Definition sizeof_nvme_exported_nvm_subsys_nqn_data : Z := 256.
Definition sizeof_nvme_exported_nvm_subsys_template_uuid_list : Z := 4096.
Definition sizeof_nvme_exported_port_create_data : Z := 320.
Definition sizeof_nvme_exported_port_delete_data : Z := 320.
Definition sizeof_nvme_feat_auto_pst : Z := 256.
Definition sizeof_nvme_feat_host_behavior : Z := 512.
Definition sizeof_nvme_fid_supported_effects_log : Z := 1024.
Definition sizeof_nvme_firmware_slot : Z := 512.
Definition sizeof_nvme_host_mem_buf_attrs : Z := 4096.
Definition sizeof_nvme_host_metadata : Z := 4096.
Definition sizeof_nvme_id_ctrl : Z := 4096.
Definition sizeof_nvme_id_directives : Z := 4096.
Definition sizeof_nvme_id_domain_list : Z := 4096.
Definition sizeof_nvme_id_endurance_group_list : Z := 4096.
Definition sizeof_nvme_id_independent_id_ns : Z := 4096.
Definition sizeof_nvme_id_iocs : Z := 4096.
Definition sizeof_nvme_id_ns : Z := 4096.
Definition sizeof_nvme_id_ns_granularity_list : Z := 4096.
Definition sizeof_nvme_id_nvmset_list : Z := 4096.
Definition sizeof_nvme_id_uuid_list : Z := 4096.
Definition sizeof_nvme_lba_range_type : Z := 4096.
Definition sizeof_nvme_lba_status_log : Z := 16.
Definition sizeof_nvme_lm_ctrl_data_queue_fid_data : Z := 8.
Definition sizeof_nvme_lockdown_log : Z := 512.
Definition sizeof_nvme_media_unit_stat_log : Z := 16.
Definition sizeof_nvme_mfg_default_config_status_log : Z := 2.
Definition sizeof_nvme_mgmt_addr_desc : Z := 512.
Definition sizeof_nvme_mi_cmd_supported_effects_log : Z := 4096.
Definition sizeof_nvme_ns_list : Z := 4096.
Definition sizeof_nvme_ns_mgmt_host_sw_specified : Z := 4096.
Definition sizeof_nvme_nvmset_predictable_lat_log : Z := 512.
Definition sizeof_nvme_perf_characteristics : Z := 4096.
Definition sizeof_nvme_plm_config : Z := 512.
Definition sizeof_nvme_primary_ctrl_cap : Z := 4096.
Definition sizeof_nvme_rate_limiting_data : Z := 1024.
Definition sizeof_nvme_resv_notification_log : Z := 64.
Definition sizeof_nvme_sanitize_log_page : Z := 512.
Definition sizeof_nvme_secondary_ctrl_list : Z := 4096.
Definition sizeof_nvme_self_test_log : Z := 564.
Definition sizeof_nvme_smart_log : Z := 512.
Definition sizeof_nvme_streams_directive_params : Z := 32.
Definition sizeof_nvme_streams_directive_status : Z := 2.
Definition sizeof_nvme_supported_cap_config_list_log : Z := 16.
Definition sizeof_nvme_supported_ctrl_state_formats : Z := 4096.
Definition sizeof_nvme_supported_log_pages : Z := 1024.
Definition sizeof_nvme_telemetry_log : Z := 512.
Definition sizeof_nvme_timestamp : Z := 8.
Definition sizeof_nvme_underlying_ns_list : Z := 3856.
Definition sizeof_nvme_voltage_measurement_start_data : Z := 4096.
Definition sizeof_nvme_zns_changed_zone_log : Z := 4096.
Definition sizeof_nvme_zns_id_ctrl : Z := 4096.
Definition sizeof_nvme_zns_id_ns : Z := 4096.
