(* ===== verification/Commands.v ===== *)
(** * Command builders: [nvme-cmds-base.h], [nvme-cmds-fabrics.h],
    [nvme-cmds-nvm.h], [nvme-cmds-zns.h] and [nvme-cmds-mi.h]

    The [nvme_init_...] functions, each with the command it fills as its
    first argument and as its result.  A pointer is an address.  An argument
    has the width of its C type; conversions are written out where the C
    type is narrower than the value. *)

From stdpp Require Import base list numbers.
From S2P Require Import Prelude.
From S2P Require Import Passthru.
From S2P Require Import NvmeConst.

#[local] Open Scope cmd_scope.

(** ** nvme-cmds-base.h *)

Definition nvme_init_get_log_lpo (cmd : passthru) (lpo : Z) : passthru :=
  let cmd := set_cdw12 cmd (u32 (Z.land lpo 0xffffffff)) in
  set_cdw13 cmd (u32 (Z.shiftr lpo 32)).

Definition nvme_init_get_log (cmd : passthru) (nsid lid csi data len : Z) : passthru :=
  let numd := u32 ((Z.shiftr len 2) - 1) in
  let numdu := u16 (Z.shiftr numd 16) in
  let numdl := u16 (Z.land numd 0xffff) in
  let cdw10 := NVME_FIELD_ENCODE lid NVME_LOG_CDW10_LID_SHIFT NVME_LOG_CDW10_LID_MASK .|
      NVME_FIELD_ENCODE numdl NVME_LOG_CDW10_NUMDL_SHIFT NVME_LOG_CDW10_NUMDL_MASK in
  let cdw11 := NVME_FIELD_ENCODE numdu NVME_LOG_CDW11_NUMDU_SHIFT NVME_LOG_CDW11_NUMDU_MASK in
  let cdw14 := NVME_FIELD_ENCODE csi NVME_LOG_CDW14_CSI_SHIFT NVME_LOG_CDW14_CSI_MASK in
  let cmd := cmd_zero in
  let cmd := set_opcode cmd nvme_admin_get_log_page in
  let cmd := set_nsid cmd nsid in
  let cmd := set_cdw10 cmd cdw10 in
  let cmd := set_cdw11 cmd cdw11 in
  let cmd := set_cdw14 cmd cdw14 in
  let cmd := set_data_len cmd len in
  set_addr cmd (u64 data).

Definition nvme_init_get_log_supported_log_pages (cmd : passthru) (csi log : Z) : passthru :=
  nvme_init_get_log cmd NVME_NSID_ALL NVME_LOG_LID_SUPPORTED_LOG_PAGES csi log
      sizeof_nvme_supported_log_pages.

Definition nvme_init_get_log_error (cmd : passthru) (nr_entries err_log : Z) : passthru :=
  nvme_init_get_log cmd NVME_NSID_ALL NVME_LOG_LID_ERROR NVME_CSI_NVM err_log
      (u32 (u64 (sizeof_nvme_error_log_page * nr_entries))).

Definition nvme_init_get_log_smart (cmd : passthru) (nsid smart_log : Z) : passthru :=
  nvme_init_get_log cmd nsid NVME_LOG_LID_SMART NVME_CSI_NVM smart_log sizeof_nvme_smart_log.

Definition nvme_init_get_log_fw_slot (cmd : passthru) (fw_log : Z) : passthru :=
  nvme_init_get_log cmd NVME_NSID_ALL NVME_LOG_LID_FW_SLOT NVME_CSI_NVM fw_log
      sizeof_nvme_firmware_slot.

Definition nvme_init_get_log_changed_ns (cmd : passthru) (ns_log : Z) : passthru :=
  nvme_init_get_log cmd NVME_NSID_ALL NVME_LOG_LID_CHANGED_ATTACHED_NS NVME_CSI_NVM ns_log
      sizeof_nvme_ns_list.

Definition nvme_init_get_log_cmd_effects (cmd : passthru) (csi effects_log : Z) : passthru :=
  nvme_init_get_log cmd NVME_NSID_ALL NVME_LOG_LID_CMD_EFFECTS csi effects_log
      sizeof_nvme_cmd_effects_log.

Definition nvme_init_get_log_device_self_test (cmd : passthru) (log : Z) : passthru :=
  nvme_init_get_log cmd NVME_NSID_ALL NVME_LOG_LID_DEVICE_SELF_TEST NVME_CSI_NVM log
      sizeof_nvme_self_test_log.

Definition nvme_init_get_log_telemetry_host (cmd : passthru) (lpo log len : Z) : passthru :=
  let cmd := nvme_init_get_log cmd NVME_NSID_NONE NVME_LOG_LID_TELEMETRY_HOST NVME_CSI_NVM log len in
  let cmd := set_cdw10 cmd ((cdw10 cmd) .|
      NVME_FIELD_ENCODE NVME_LOG_TELEM_HOST_LSP_RETAIN NVME_LOG_CDW10_LSP_SHIFT
        NVME_LOG_CDW10_LSP_MASK) in
  nvme_init_get_log_lpo cmd lpo.

Definition nvme_init_get_log_create_telemetry_host_mcda (cmd : passthru) (mcda log : Z) : passthru :=
  let cmd := nvme_init_get_log cmd NVME_NSID_NONE NVME_LOG_LID_TELEMETRY_HOST NVME_CSI_NVM log
      sizeof_nvme_telemetry_log in
  set_cdw10 cmd ((cdw10 cmd) .| NVME_FIELD_ENCODE ((u32 (Z.shiftl mcda 1)) .|
      NVME_LOG_TELEM_HOST_LSP_CREATE) NVME_LOG_CDW10_LSP_SHIFT NVME_LOG_CDW10_LSP_MASK).

Definition nvme_init_get_log_create_telemetry_host (cmd : passthru) (log : Z) : passthru :=
  nvme_init_get_log_create_telemetry_host_mcda cmd NVME_TELEMETRY_DA_CTRL_DETERMINE log.

Definition nvme_init_get_log_telemetry_ctrl (cmd : passthru) (lpo log len : Z) : passthru :=
  let cmd := nvme_init_get_log cmd NVME_NSID_NONE NVME_LOG_LID_TELEMETRY_CTRL NVME_CSI_NVM log len in
  nvme_init_get_log_lpo cmd lpo.

Definition nvme_init_get_log_endurance_group (cmd : passthru) (endgid log : Z) : passthru :=
  let cmd := nvme_init_get_log cmd NVME_NSID_NONE NVME_LOG_LID_ENDURANCE_GROUP NVME_CSI_NVM log
      sizeof_nvme_endurance_group_log in
  set_cdw11 cmd ((cdw11 cmd) .|
      NVME_FIELD_ENCODE endgid NVME_LOG_CDW11_LSI_SHIFT NVME_LOG_CDW11_LSI_MASK).

Definition nvme_init_get_log_predictable_lat_nvmset (cmd : passthru) (nvmsetid log : Z) : passthru :=
  let cmd := nvme_init_get_log cmd NVME_NSID_NONE NVME_LOG_LID_PREDICTABLE_LAT_NVMSET NVME_CSI_NVM log
      sizeof_nvme_nvmset_predictable_lat_log in
  set_cdw11 cmd ((cdw11 cmd) .|
      NVME_FIELD_ENCODE nvmsetid NVME_LOG_CDW11_LSI_SHIFT NVME_LOG_CDW11_LSI_MASK).

Definition nvme_init_get_log_predictable_lat_event (cmd : passthru) (lpo log len : Z) : passthru :=
  let cmd := nvme_init_get_log cmd NVME_NSID_NONE NVME_LOG_LID_PREDICTABLE_LAT_AGG NVME_CSI_NVM log
      len in
  let cmd := set_cdw12 cmd (u32 (Z.land lpo 0xffffffff)) in
  set_cdw13 cmd (u32 (Z.shiftr lpo 32)).

Definition nvme_init_get_log_ana (cmd : passthru) (lsp lpo log len : Z) : passthru :=
  let cmd := nvme_init_get_log cmd NVME_NSID_NONE NVME_LOG_LID_ANA NVME_CSI_NVM log len in
  let cmd := set_cdw10 cmd ((cdw10 cmd) .|
      NVME_FIELD_ENCODE lsp NVME_LOG_CDW10_LSP_SHIFT NVME_LOG_CDW10_LSP_MASK) in
  let cmd := set_cdw12 cmd (u32 (Z.land lpo 0xffffffff)) in
  set_cdw13 cmd (u32 (Z.shiftr lpo 32)).

Definition nvme_init_get_log_ana_groups (cmd : passthru) (log len : Z) : passthru :=
  nvme_init_get_log_ana cmd NVME_LOG_ANA_LSP_RGO_GROUPS_ONLY 0 log len.

Definition nvme_init_get_log_persistent_event (cmd : passthru) (action pevent_log len : Z) : passthru :=
  let cmd := nvme_init_get_log cmd NVME_NSID_ALL NVME_LOG_LID_PERSISTENT_EVENT NVME_CSI_NVM pevent_log
      len in
  set_cdw10 cmd ((cdw10 cmd) .|
      NVME_FIELD_ENCODE action NVME_LOG_CDW10_LSP_SHIFT NVME_LOG_CDW10_LSP_MASK).

Definition nvme_init_get_log_lba_status (cmd : passthru) (lpo log len : Z) : passthru :=
  let cmd := nvme_init_get_log cmd NVME_NSID_NONE NVME_LOG_LID_LBA_STATUS NVME_CSI_NVM log len in
  let cmd := set_cdw12 cmd (u32 (Z.land lpo 0xffffffff)) in
  set_cdw13 cmd (u32 (Z.shiftr lpo 32)).

Definition nvme_init_get_log_endurance_grp_evt (cmd : passthru) (lpo log len : Z) : passthru :=
  let cmd := nvme_init_get_log cmd NVME_NSID_NONE NVME_LOG_LID_ENDURANCE_GRP_EVT NVME_CSI_NVM log len in
  nvme_init_get_log_lpo cmd lpo.

Definition nvme_init_get_log_media_unit_stat (cmd : passthru) (domid mus : Z) : passthru :=
  let cmd := nvme_init_get_log cmd NVME_NSID_NONE NVME_LOG_LID_MEDIA_UNIT_STATUS NVME_CSI_NVM mus
      sizeof_nvme_media_unit_stat_log in
  set_cdw11 cmd ((cdw11 cmd) .|
      NVME_FIELD_ENCODE domid NVME_LOG_CDW11_LSI_SHIFT NVME_LOG_CDW11_LSI_MASK).

Definition nvme_init_get_log_support_cap_config_list (cmd : passthru) (domid cap : Z) : passthru :=
  let cmd := nvme_init_get_log cmd NVME_NSID_NONE NVME_LOG_LID_SUPPORTED_CAP_CONFIG_LIST NVME_CSI_NVM
      cap sizeof_nvme_supported_cap_config_list_log in
  set_cdw11 cmd ((cdw11 cmd) .|
      NVME_FIELD_ENCODE domid NVME_LOG_CDW11_LSI_SHIFT NVME_LOG_CDW11_LSI_MASK).

Definition nvme_init_get_log_fid_supported_effects (cmd : passthru) (csi log : Z) : passthru :=
  nvme_init_get_log cmd NVME_NSID_NONE NVME_LOG_LID_FID_SUPPORTED_EFFECTS csi log
      sizeof_nvme_fid_supported_effects_log.

Definition nvme_init_get_log_lockdown (cmd : passthru) (cnscp cntlid lockdown_log : Z) : passthru :=
  let cmd := nvme_init_get_log cmd NVME_NSID_ALL NVME_LOG_LID_CMD_AND_FEAT_LOCKDOWN NVME_CSI_NVM
      lockdown_log sizeof_nvme_lockdown_log in
  let cmd := set_cdw10 cmd ((cdw10 cmd) .|
      NVME_FIELD_ENCODE cnscp NVME_LOG_CDW10_LSP_SHIFT NVME_LOG_CDW10_LSP_MASK) in
  set_cdw11 cmd ((cdw11 cmd) .|
      NVME_FIELD_ENCODE cntlid NVME_LOG_CDW11_LSI_SHIFT NVME_LOG_CDW11_LSI_MASK).

Definition nvme_init_get_log_boot_partition (cmd : passthru) (lsp part len : Z) : passthru :=
  let cmd := nvme_init_get_log cmd NVME_NSID_NONE NVME_LOG_LID_BOOT_PARTITION NVME_CSI_NVM part len in
  set_cdw10 cmd ((cdw10 cmd) .| NVME_FIELD_ENCODE lsp NVME_LOG_CDW10_LSP_SHIFT NVME_LOG_CDW10_LSP_MASK).

Definition nvme_init_get_log_rotational_media_info (cmd : passthru) (endgid log len : Z) : passthru :=
  let cmd := nvme_init_get_log cmd NVME_NSID_NONE NVME_LOG_LID_ROTATIONAL_MEDIA_INFO NVME_CSI_NVM log
      len in
  set_cdw11 cmd ((cdw11 cmd) .|
      NVME_FIELD_ENCODE endgid NVME_LOG_CDW11_LSI_SHIFT NVME_LOG_CDW11_LSI_MASK).

Definition nvme_init_get_log_dispersed_ns_participating_nss (cmd : passthru)
    (nsid log len : Z) : passthru :=
  nvme_init_get_log cmd nsid NVME_LOG_LID_DISPERSED_NS_PARTICIPATING_NSS NVME_CSI_NVM log len.

Definition nvme_init_get_log_mgmt_addr_list (cmd : passthru) (log len : Z) : passthru :=
  nvme_init_get_log cmd NVME_NSID_ALL NVME_LOG_LID_MGMT_ADDR_LIST NVME_CSI_NVM log len.

Definition nvme_init_get_log_power_measurement (cmd : passthru) (log len : Z) : passthru :=
  nvme_init_get_log cmd NVME_NSID_ALL NVME_LOG_LID_POWER_MEASUREMENT NVME_CSI_NVM log len.

Definition nvme_init_get_log_voltage_measurement (cmd : passthru) (log len : Z) : passthru :=
  nvme_init_get_log cmd NVME_NSID_ALL NVME_LOG_LID_VOLTAGE_MEASUREMENT NVME_CSI_NVM log len.

Definition nvme_init_get_log_phy_rx_eom (cmd : passthru) (lsp controller log len : Z) : passthru :=
  let cmd := nvme_init_get_log cmd NVME_NSID_NONE NVME_LOG_LID_PHY_RX_EOM NVME_CSI_NVM log len in
  let cmd := set_cdw10 cmd ((cdw10 cmd) .|
      NVME_FIELD_ENCODE lsp NVME_LOG_CDW10_LSP_SHIFT NVME_LOG_CDW10_LSP_MASK) in
  set_cdw11 cmd ((cdw11 cmd) .|
      NVME_FIELD_ENCODE controller NVME_LOG_CDW11_LSI_SHIFT NVME_LOG_CDW11_LSI_MASK).

Definition nvme_init_get_log_reachability_groups (cmd : passthru) (rgo : bool)
    (log len : Z) : passthru :=
  let cmd := nvme_init_get_log cmd NVME_NSID_ALL NVME_LOG_LID_REACHABILITY_GROUPS NVME_CSI_NVM log
      len in
  set_cdw10 cmd ((cdw10 cmd) .|
      NVME_FIELD_ENCODE (Z.b2z rgo) NVME_LOG_CDW10_LSP_SHIFT NVME_LOG_CDW10_LSP_MASK).

Definition nvme_init_get_log_reachability_associations (cmd : passthru) (rao : bool)
    (log len : Z) : passthru :=
  let cmd := nvme_init_get_log cmd NVME_NSID_ALL NVME_LOG_LID_REACHABILITY_ASSOCIATIONS NVME_CSI_NVM log
      len in
  set_cdw10 cmd ((cdw10 cmd) .|
      NVME_FIELD_ENCODE (Z.b2z rao) NVME_LOG_CDW10_LSP_SHIFT NVME_LOG_CDW10_LSP_MASK).

Definition nvme_init_get_log_changed_alloc_ns (cmd : passthru) (log len : Z) : passthru :=
  nvme_init_get_log cmd NVME_NSID_ALL NVME_LOG_LID_CHANGED_ALLOC_NS NVME_CSI_NVM log len.

Definition nvme_init_get_log_fdp_configurations (cmd : passthru) (egid lpo log len : Z) : passthru :=
  let cmd := nvme_init_get_log cmd NVME_NSID_NONE NVME_LOG_LID_FDP_CONFIGS NVME_CSI_NVM log len in
  let cmd := set_cdw11 cmd ((cdw11 cmd) .|
      NVME_FIELD_ENCODE egid NVME_LOG_CDW11_LSI_SHIFT NVME_LOG_CDW11_LSI_MASK) in
  nvme_init_get_log_lpo cmd lpo.

Definition nvme_init_get_log_reclaim_unit_handle_usage (cmd : passthru)
    (egid lpo log len : Z) : passthru :=
  let cmd := nvme_init_get_log cmd NVME_NSID_NONE NVME_LOG_LID_FDP_RUH_USAGE NVME_CSI_NVM log len in
  let cmd := set_cdw11 cmd ((cdw11 cmd) .|
      NVME_FIELD_ENCODE egid NVME_LOG_CDW11_LSI_SHIFT NVME_LOG_CDW11_LSI_MASK) in
  nvme_init_get_log_lpo cmd lpo.

Definition nvme_init_get_log_fdp_events (cmd : passthru) (host_events : bool)
    (egid lpo log len : Z) : passthru :=
  let cmd := nvme_init_get_log cmd NVME_NSID_NONE NVME_LOG_LID_FDP_EVENTS NVME_CSI_NVM log len in
  let cmd := set_cdw10 cmd ((cdw10 cmd) .|
      NVME_FIELD_ENCODE (if host_events then 0x1 else 0x0) NVME_LOG_CDW10_LSP_SHIFT
        NVME_LOG_CDW10_LSP_MASK) in
  let cmd := set_cdw11 cmd ((cdw11 cmd) .|
      NVME_FIELD_ENCODE egid NVME_LOG_CDW11_LSI_SHIFT NVME_LOG_CDW11_LSI_MASK) in
  nvme_init_get_log_lpo cmd lpo.

Definition nvme_init_get_log_rate_limiting (cmd : passthru) (lpo log len : Z) : passthru :=
  let cmd := nvme_init_get_log cmd NVME_NSID_NONE NVME_LOG_LID_RATE_LIMITING NVME_CSI_NVM log len in
  nvme_init_get_log_lpo cmd lpo.

Definition nvme_init_get_log_host_addressable_ns (cmd : passthru) (lpo log len : Z) : passthru :=
  let cmd := nvme_init_get_log cmd NVME_NSID_NONE NVME_LOG_LID_HOST_ADDRESSABLE_NS NVME_CSI_SLM log
      len in
  nvme_init_get_log_lpo cmd lpo.

Definition nvme_init_get_log_reservation (cmd : passthru) (log : Z) : passthru :=
  nvme_init_get_log cmd NVME_NSID_ALL NVME_LOG_LID_RESERVATION NVME_CSI_NVM log
      sizeof_nvme_resv_notification_log.

Definition nvme_init_get_log_sanitize (cmd : passthru) (log : Z) : passthru :=
  nvme_init_get_log cmd NVME_NSID_ALL NVME_LOG_LID_SANITIZE NVME_CSI_NVM log
      sizeof_nvme_sanitize_log_page.

Definition nvme_init_get_log_mfg_default_config_status (cmd : passthru) (log : Z) : passthru :=
  nvme_init_get_log cmd NVME_NSID_NONE NVME_LOG_LID_MFG_DEFAULT_CONFIG NVME_CSI_NVM log
      sizeof_nvme_mfg_default_config_status_log.

Definition nvme_init_get_log_dev_personality (cmd : passthru) (log len : Z) : passthru :=
  nvme_init_get_log cmd NVME_NSID_NONE NVME_LOG_LID_DEV_PERSONALITY NVME_CSI_NVM log len.

Definition nvme_init_identify (cmd : passthru) (nsid csi cns data len : Z) : passthru :=
  let cdw10 := NVME_FIELD_ENCODE cns NVME_IDENTIFY_CDW10_CNS_SHIFT NVME_IDENTIFY_CDW10_CNS_MASK in
  let cdw11 := NVME_FIELD_ENCODE csi NVME_IDENTIFY_CDW11_CSI_SHIFT NVME_IDENTIFY_CDW11_CSI_MASK in
  let cmd := cmd_zero in
  let cmd := set_opcode cmd nvme_admin_identify in
  let cmd := set_nsid cmd nsid in
  let cmd := set_cdw10 cmd cdw10 in
  let cmd := set_cdw11 cmd cdw11 in
  let cmd := set_data_len cmd len in
  set_addr cmd (u64 data).

Definition nvme_init_identify_ns (cmd : passthru) (nsid id : Z) : passthru :=
  nvme_init_identify cmd nsid NVME_CSI_NVM NVME_IDENTIFY_CNS_NS id sizeof_nvme_id_ns.

Definition nvme_init_identify_ctrl (cmd : passthru) (id : Z) : passthru :=
  nvme_init_identify cmd NVME_NSID_NONE NVME_CSI_NVM NVME_IDENTIFY_CNS_CTRL id sizeof_nvme_id_ctrl.

Definition nvme_init_identify_active_ns_list (cmd : passthru) (nsid list : Z) : passthru :=
  nvme_init_identify cmd nsid NVME_CSI_NVM NVME_IDENTIFY_CNS_NS_ACTIVE_LIST list sizeof_nvme_ns_list.

Definition nvme_init_identify_ns_descs_list (cmd : passthru) (nsid descs : Z) : passthru :=
  nvme_init_identify cmd nsid NVME_CSI_NVM NVME_IDENTIFY_CNS_NS_DESC_LIST descs NVME_IDENTIFY_DATA_SIZE.

Definition nvme_init_identify_nvmset_list (cmd : passthru) (nsid nvmsetid nvmset : Z) : passthru :=
  let cmd := nvme_init_identify cmd nsid NVME_CSI_NVM NVME_IDENTIFY_CNS_NVMSET_LIST nvmset
      sizeof_nvme_id_nvmset_list in
  set_cdw11 cmd ((cdw11 cmd) .|
      NVME_FIELD_ENCODE nvmsetid NVME_IDENTIFY_CDW11_CNSSPECID_SHIFT
        NVME_IDENTIFY_CDW11_CNSSPECID_MASK).

Definition nvme_init_identify_csi_ns (cmd : passthru) (nsid csi uidx data : Z) : passthru :=
  let cmd := nvme_init_identify cmd nsid csi NVME_IDENTIFY_CNS_CSI_NS data NVME_IDENTIFY_DATA_SIZE in
  set_cdw14 cmd ((cdw14 cmd) .|
      NVME_FIELD_ENCODE uidx NVME_IDENTIFY_CDW14_UUID_SHIFT NVME_IDENTIFY_CDW14_UUID_MASK).

Definition nvme_init_identify_csi_ctrl (cmd : passthru) (csi data : Z) : passthru :=
  nvme_init_identify cmd NVME_NSID_NONE csi NVME_IDENTIFY_CNS_CSI_CTRL data NVME_IDENTIFY_DATA_SIZE.

Definition nvme_init_identify_csi_active_ns_list (cmd : passthru) (nsid csi ns_list : Z) : passthru :=
  nvme_init_identify cmd nsid csi NVME_IDENTIFY_CNS_CSI_NS_ACTIVE_LIST ns_list sizeof_nvme_ns_list.

Definition nvme_init_identify_csi_independent_identify_id_ns (cmd : passthru)
    (nsid ns : Z) : passthru :=
  nvme_init_identify cmd nsid NVME_CSI_NVM NVME_IDENTIFY_CNS_CSI_INDEPENDENT_ID_NS ns
      sizeof_nvme_id_independent_id_ns.

Definition nvme_init_identify_ns_user_data_format (cmd : passthru)
    (csi fidx uidx data : Z) : passthru :=
  let cmd := nvme_init_identify cmd NVME_NSID_NONE csi NVME_IDENTIFY_CNS_NS_USER_DATA_FORMAT data
      NVME_IDENTIFY_DATA_SIZE in
  let cmd := set_cdw11 cmd ((cdw11 cmd) .|
      NVME_FIELD_ENCODE fidx NVME_IDENTIFY_CDW11_FIDX_SHIFT NVME_IDENTIFY_CDW11_FIDX_MASK) in
  set_cdw14 cmd ((cdw14 cmd) .|
      NVME_FIELD_ENCODE uidx NVME_IDENTIFY_CDW14_UUID_SHIFT NVME_IDENTIFY_CDW14_UUID_MASK).

Definition nvme_init_identify_csi_ns_user_data_format (cmd : passthru)
    (csi fidx uidx data : Z) : passthru :=
  let cmd := nvme_init_identify cmd NVME_NSID_NONE csi NVME_IDENTIFY_CNS_CSI_NS_USER_DATA_FORMAT data
      NVME_IDENTIFY_DATA_SIZE in
  let cmd := set_cdw11 cmd ((cdw11 cmd) .|
      NVME_FIELD_ENCODE fidx NVME_IDENTIFY_CDW11_FIDX_SHIFT NVME_IDENTIFY_CDW11_FIDX_MASK) in
  set_cdw14 cmd ((cdw14 cmd) .|
      NVME_FIELD_ENCODE uidx NVME_IDENTIFY_CDW14_UUID_SHIFT NVME_IDENTIFY_CDW14_UUID_MASK).

Definition nvme_init_identify_allocated_ns_list (cmd : passthru) (nsid ns_list : Z) : passthru :=
  nvme_init_identify cmd nsid NVME_CSI_NVM NVME_IDENTIFY_CNS_ALLOCATED_NS_LIST ns_list
      sizeof_nvme_ns_list.

Definition nvme_init_identify_allocated_ns (cmd : passthru) (nsid ns : Z) : passthru :=
  nvme_init_identify cmd nsid NVME_CSI_NVM NVME_IDENTIFY_CNS_ALLOCATED_NS ns sizeof_nvme_id_ns.

Definition nvme_init_identify_ns_ctrl_list (cmd : passthru) (nsid cntid cntlist : Z) : passthru :=
  let cmd := nvme_init_identify cmd nsid NVME_CSI_NVM NVME_IDENTIFY_CNS_NS_CTRL_LIST cntlist
      sizeof_nvme_ctrl_list in
  set_cdw10 cmd ((cdw10 cmd) .|
      NVME_FIELD_ENCODE cntid NVME_IDENTIFY_CDW10_CNTID_SHIFT NVME_IDENTIFY_CDW10_CNTID_MASK).

Definition nvme_init_identify_ctrl_list (cmd : passthru) (cntid cntlist : Z) : passthru :=
  let cmd := nvme_init_identify cmd NVME_NSID_NONE NVME_CSI_NVM NVME_IDENTIFY_CNS_CTRL_LIST cntlist
      sizeof_nvme_ctrl_list in
  set_cdw10 cmd ((cdw10 cmd) .|
      NVME_FIELD_ENCODE cntid NVME_IDENTIFY_CDW10_CNTID_SHIFT NVME_IDENTIFY_CDW10_CNTID_MASK).

Definition nvme_init_identify_primary_ctrl_cap (cmd : passthru) (cntid cap : Z) : passthru :=
  let cmd := nvme_init_identify cmd NVME_NSID_NONE NVME_CSI_NVM NVME_IDENTIFY_CNS_PRIMARY_CTRL_CAP cap
      sizeof_nvme_primary_ctrl_cap in
  set_cdw10 cmd ((cdw10 cmd) .|
      NVME_FIELD_ENCODE cntid NVME_IDENTIFY_CDW10_CNTID_SHIFT NVME_IDENTIFY_CDW10_CNTID_MASK).

Definition nvme_init_identify_secondary_ctrl_list (cmd : passthru) (cntid sc_list : Z) : passthru :=
  let cmd := nvme_init_identify cmd NVME_NSID_NONE NVME_CSI_NVM NVME_IDENTIFY_CNS_SECONDARY_CTRL_LIST
      sc_list sizeof_nvme_secondary_ctrl_list in
  set_cdw10 cmd ((cdw10 cmd) .|
      NVME_FIELD_ENCODE cntid NVME_IDENTIFY_CDW10_CNTID_SHIFT NVME_IDENTIFY_CDW10_CNTID_MASK).

Definition nvme_init_identify_ns_granularity (cmd : passthru) (gr_list : Z) : passthru :=
  nvme_init_identify cmd NVME_NSID_NONE NVME_CSI_NVM NVME_IDENTIFY_CNS_NS_GRANULARITY gr_list
      sizeof_nvme_id_ns_granularity_list.

Definition nvme_init_identify_uuid_list (cmd : passthru) (uuid_list : Z) : passthru :=
  nvme_init_identify cmd NVME_UUID_NONE NVME_CSI_NVM NVME_IDENTIFY_CNS_UUID_LIST uuid_list
      sizeof_nvme_id_uuid_list.

Definition nvme_init_identify_domain_list (cmd : passthru) (domid list : Z) : passthru :=
  let cmd := nvme_init_identify cmd NVME_NSID_NONE NVME_CSI_NVM NVME_IDENTIFY_CNS_DOMAIN_LIST list
      sizeof_nvme_id_domain_list in
  set_cdw11 cmd ((cdw11 cmd) .|
      NVME_FIELD_ENCODE domid NVME_IDENTIFY_CDW11_DOMID_SHIFT NVME_IDENTIFY_CDW11_DOMID_MASK).

Definition nvme_init_identify_endurance_group_id (cmd : passthru) (enggid list : Z) : passthru :=
  let cmd := nvme_init_identify cmd NVME_NSID_NONE NVME_CSI_NVM NVME_IDENTIFY_CNS_ENDURANCE_GROUP_ID
      list sizeof_nvme_id_endurance_group_list in
  set_cdw11 cmd ((cdw11 cmd) .|
      NVME_FIELD_ENCODE enggid NVME_IDENTIFY_CDW11_ENGGID_SHIFT NVME_IDENTIFY_CDW11_ENGGID_MASK).

Definition nvme_init_identify_csi_allocated_ns_list (cmd : passthru)
    (nsid csi ns_list : Z) : passthru :=
  nvme_init_identify cmd nsid csi NVME_IDENTIFY_CNS_CSI_ALLOCATED_NS_LIST ns_list sizeof_nvme_ns_list.

Definition nvme_init_identify_csi_id_ns_data_structure (cmd : passthru)
    (nsid csi data : Z) : passthru :=
  nvme_init_identify cmd nsid csi NVME_IDENTIFY_CNS_CSI_ID_NS_DATA_STRUCTURE data
      NVME_IDENTIFY_DATA_SIZE.

Definition nvme_init_identify_command_set_structure (cmd : passthru) (cntid iocs : Z) : passthru :=
  let cmd := nvme_init_identify cmd NVME_NSID_NONE NVME_CSI_NVM NVME_IDENTIFY_CNS_COMMAND_SET_STRUCTURE
      iocs sizeof_nvme_id_iocs in
  set_cdw10 cmd ((cdw10 cmd) .|
      NVME_FIELD_ENCODE cntid NVME_IDENTIFY_CDW10_CNTID_SHIFT NVME_IDENTIFY_CDW10_CNTID_MASK).

Definition nvme_init_identify_underlying_ns_list (cmd : passthru) (idx list : Z) : passthru :=
  let cmd := nvme_init_identify cmd NVME_NSID_NONE NVME_CSI_NVM NVME_IDENTIFY_CNS_UNDERLYING_NS_LIST
      list sizeof_nvme_underlying_ns_list in
  set_cdw11 cmd ((cdw11 cmd) .|
      NVME_FIELD_ENCODE idx NVME_IDENTIFY_CDW11_CNSSPECID_SHIFT NVME_IDENTIFY_CDW11_CNSSPECID_MASK).

Definition nvme_init_identify_ports_list (cmd : passthru) (list len : Z) : passthru :=
  nvme_init_identify cmd NVME_NSID_NONE NVME_CSI_NVM NVME_IDENTIFY_CNS_PORTS_LIST list len.

Definition nvme_init_identify_iocs_ind_id_alloc_ns (cmd : passthru) (nsid ns : Z) : passthru :=
  nvme_init_identify cmd nsid NVME_CSI_NVM NVME_IDENTIFY_CNS_IOCS_IND_ID_ALLOC_NS ns
      sizeof_nvme_id_independent_id_ns.

Definition nvme_init_identify_supported_ctrl_state_formats (cmd : passthru) (formats : Z) : passthru :=
  nvme_init_identify cmd NVME_NSID_NONE NVME_CSI_NVM NVME_IDENTIFY_CNS_SUPPORTED_CTRL_STATE_FORMATS
      formats sizeof_nvme_supported_ctrl_state_formats.

Definition nvme_init_identify_underlying_ctrl_list (cmd : passthru) (cntid cntlist : Z) : passthru :=
  let cmd := nvme_init_identify cmd NVME_NSID_NONE NVME_CSI_NVM NVME_IDENTIFY_CNS_UNDERLYING_CTRL_LIST
      cntlist sizeof_nvme_ctrl_list in
  set_cdw10 cmd ((cdw10 cmd) .|
      NVME_FIELD_ENCODE cntid NVME_IDENTIFY_CDW10_CNTID_SHIFT NVME_IDENTIFY_CDW10_CNTID_MASK).

Definition nvme_init_identify_exported_nvm_subsys_template_uuid_list (cmd : passthru)
    (list : Z) : passthru :=
  nvme_init_identify cmd NVME_NSID_NONE NVME_CSI_NVM
      NVME_IDENTIFY_CNS_EXPORTED_NVM_SUBSYS_TEMPLATE_UUID_LIST list
      sizeof_nvme_exported_nvm_subsys_template_uuid_list.

Definition nvme_init_abort (cmd : passthru) (sqid cid : Z) : passthru :=
  let cmd := cmd_zero in
  let cmd := set_opcode cmd nvme_admin_abort_cmd in
  set_cdw10 cmd (NVME_FIELD_ENCODE cid NVME_ABORT_CDW10_CID_SHIFT NVME_ABORT_CDW10_CID_MASK .|
      NVME_FIELD_ENCODE sqid NVME_ABORT_CDW10_SQID_SHIFT NVME_ABORT_CDW10_SQID_MASK).

Definition nvme_init_async_event (cmd : passthru) : passthru :=
  let cmd := cmd_zero in
  set_opcode cmd nvme_admin_async_event.

Definition nvme_init_set_features (cmd : passthru) (fid : Z) (sv : bool) : passthru :=
  let cdw10 := NVME_FIELD_ENCODE fid NVME_SET_FEATURES_CDW10_FID_SHIFT
        NVME_SET_FEATURES_CDW10_FID_MASK .|
      NVME_FIELD_ENCODE (Z.b2z sv) NVME_SET_FEATURES_CDW10_SV_SHIFT NVME_SET_FEATURES_CDW10_SV_MASK in
  let cmd := cmd_zero in
  let cmd := set_opcode cmd nvme_admin_set_features in
  set_cdw10 cmd cdw10.

Definition nvme_init_set_features_arbitration (cmd : passthru) (sv : bool)
    (ab lpw mpw hpw : Z) : passthru :=
  let cmd := nvme_init_set_features cmd NVME_FEAT_FID_ARBITRATION sv in
  set_cdw11 cmd
        (NVME_FIELD_ENCODE ab NVME_FEAT_ARBITRATION_BURST_SHIFT NVME_FEAT_ARBITRATION_BURST_MASK .|
      NVME_FIELD_ENCODE lpw NVME_FEAT_ARBITRATION_LPW_SHIFT NVME_FEAT_ARBITRATION_LPW_MASK .|
      NVME_FIELD_ENCODE mpw NVME_FEAT_ARBITRATION_MPW_SHIFT NVME_FEAT_ARBITRATION_MPW_MASK .|
      NVME_FIELD_ENCODE hpw NVME_FEAT_ARBITRATION_HPW_SHIFT NVME_FEAT_ARBITRATION_HPW_MASK).

Definition nvme_init_set_features_power_mgmt (cmd : passthru) (sv : bool) (ps wh : Z) : passthru :=
  let cmd := nvme_init_set_features cmd NVME_FEAT_FID_POWER_MGMT sv in
  set_cdw11 cmd (NVME_FIELD_ENCODE ps NVME_FEAT_PWRMGMT_PS_SHIFT NVME_FEAT_PWRMGMT_PS_MASK .|
      NVME_FIELD_ENCODE wh NVME_FEAT_PWRMGMT_WH_SHIFT NVME_FEAT_PWRMGMT_WH_MASK).

Definition nvme_init_set_features_lba_range (cmd : passthru) (nsid : Z) (sv : bool)
    (num data : Z) : passthru :=
  let cmd := nvme_init_set_features cmd NVME_FEAT_FID_LBA_RANGE sv in
  let cmd := set_nsid cmd nsid in
  let cmd := set_cdw11 cmd
      (NVME_FIELD_ENCODE (num - 1) NVME_SET_FEATURES_CDW11_NUM_SHIFT
      NVME_SET_FEATURES_CDW11_NUM_MASK) in
  let cmd := set_data_len cmd sizeof_nvme_lba_range_type in
  set_addr cmd (u64 data).

Definition nvme_init_set_features_temp_thresh (cmd : passthru) (sv : bool)
    (tmpth tmpsel thsel tmpthh : Z) : passthru :=
  let cmd := nvme_init_set_features cmd NVME_FEAT_FID_TEMP_THRESH sv in
  set_cdw11 cmd (NVME_FIELD_ENCODE tmpth NVME_FEAT_TT_TMPTH_SHIFT NVME_FEAT_TT_TMPTH_MASK .|
      NVME_FIELD_ENCODE tmpsel NVME_FEAT_TT_TMPSEL_SHIFT NVME_FEAT_TT_TMPSEL_MASK .|
      NVME_FIELD_ENCODE thsel NVME_FEAT_TT_THSEL_SHIFT NVME_FEAT_TT_THSEL_MASK .|
      NVME_FIELD_ENCODE tmpthh NVME_FEAT_TT_TMPTHH_SHIFT NVME_FEAT_TT_TMPTHH_MASK).

Definition nvme_init_set_features_err_recovery (cmd : passthru) (nsid : Z) (sv : bool) (tler : Z)
    (dulbe : bool) : passthru :=
  let cmd := nvme_init_set_features cmd NVME_FEAT_FID_ERR_RECOVERY sv in
  let cmd := set_nsid cmd nsid in
  set_cdw11 cmd
        (NVME_FIELD_ENCODE tler NVME_FEAT_ERROR_RECOVERY_TLER_SHIFT
        NVME_FEAT_ERROR_RECOVERY_TLER_MASK .|
      NVME_FIELD_ENCODE (Z.b2z dulbe) NVME_FEAT_ERROR_RECOVERY_DULBE_SHIFT
        NVME_FEAT_ERROR_RECOVERY_DULBE_MASK).

Definition nvme_init_set_features_volatile_wc (cmd : passthru) (sv wce : bool) : passthru :=
  let cmd := nvme_init_set_features cmd NVME_FEAT_FID_VOLATILE_WC sv in
  set_cdw11 cmd (NVME_FIELD_ENCODE (Z.b2z wce) NVME_FEAT_VWC_WCE_SHIFT NVME_FEAT_VWC_WCE_MASK).

Definition nvme_init_set_features_irq_coalesce (cmd : passthru) (sv : bool) (thr time : Z) : passthru :=
  let cmd := nvme_init_set_features cmd NVME_FEAT_FID_IRQ_COALESCE sv in
  set_cdw11 cmd (NVME_FIELD_ENCODE thr NVME_FEAT_IRQC_THR_SHIFT NVME_FEAT_IRQC_THR_MASK .|
      NVME_FIELD_ENCODE time NVME_FEAT_IRQC_TIME_SHIFT NVME_FEAT_IRQC_TIME_MASK).

Definition nvme_init_set_features_irq_config (cmd : passthru) (sv : bool) (iv : Z)
    (cd : bool) : passthru :=
  let cmd := nvme_init_set_features cmd NVME_FEAT_FID_IRQ_CONFIG sv in
  set_cdw11 cmd (NVME_FIELD_ENCODE iv NVME_FEAT_ICFG_IV_SHIFT NVME_FEAT_ICFG_IV_MASK .|
      NVME_FIELD_ENCODE (Z.b2z cd) NVME_FEAT_ICFG_CD_SHIFT NVME_FEAT_ICFG_CD_MASK).

Definition nvme_init_set_features_write_atomic (cmd : passthru) (sv dn : bool) : passthru :=
  let cmd := nvme_init_set_features cmd NVME_FEAT_FID_WRITE_ATOMIC sv in
  set_cdw11 cmd (NVME_FIELD_ENCODE (Z.b2z dn) NVME_FEAT_WA_DN_SHIFT NVME_FEAT_WA_DN_MASK).

Definition nvme_init_set_features_async_event (cmd : passthru) (sv : bool) (events : Z) : passthru :=
  let cmd := nvme_init_set_features cmd NVME_FEAT_FID_ASYNC_EVENT sv in
  set_cdw11 cmd events.

Definition nvme_init_set_features_auto_pst (cmd : passthru) (sv apste : bool) (apst : Z) : passthru :=
  let cmd := nvme_init_set_features cmd NVME_FEAT_FID_AUTO_PST sv in
  let cmd := set_cdw11 cmd
      (NVME_FIELD_ENCODE (Z.b2z apste) NVME_FEAT_APST_APSTE_SHIFT NVME_FEAT_APST_APSTE_MASK) in
  let cmd := set_data_len cmd sizeof_nvme_feat_auto_pst in
  set_addr cmd (u64 apst).

Definition nvme_init_set_features_hctm (cmd : passthru) (sv : bool) (tmt2 tmt1 : Z) : passthru :=
  let cmd := nvme_init_set_features cmd NVME_FEAT_FID_HCTM sv in
  set_cdw11 cmd (NVME_FIELD_ENCODE tmt2 NVME_FEAT_HCTM_TMT2_SHIFT NVME_FEAT_HCTM_TMT2_MASK .|
      NVME_FIELD_ENCODE tmt1 NVME_FEAT_HCTM_TMT1_SHIFT NVME_FEAT_HCTM_TMT1_MASK).

Definition nvme_init_set_features_nopsc (cmd : passthru) (sv noppme : bool) : passthru :=
  let cmd := nvme_init_set_features cmd NVME_FEAT_FID_NOPSC sv in
  set_cdw11 cmd
      (NVME_FIELD_ENCODE (Z.b2z noppme) NVME_FEAT_NOPS_NOPPME_SHIFT NVME_FEAT_NOPS_NOPPME_MASK).

Definition nvme_init_set_features_rrl (cmd : passthru) (sv : bool) (nvmsetid rrl : Z) : passthru :=
  let cmd := nvme_init_set_features cmd NVME_FEAT_FID_RRL sv in
  let cmd := set_cdw11 cmd
      (NVME_FIELD_ENCODE nvmsetid NVME_FEAT_RRL_NVMSETID_SHIFT NVME_FEAT_RRL_NVMSETID_MASK) in
  set_cdw12 cmd (NVME_FIELD_ENCODE rrl NVME_FEAT_RRL_RRL_SHIFT NVME_FEAT_RRL_RRL_MASK).

Definition nvme_init_set_features_plm_config (cmd : passthru) (sv : bool) (nvmsetid : Z) (lpe : bool)
    (data : Z) : passthru :=
  let cmd := nvme_init_set_features cmd NVME_FEAT_FID_PLM_CONFIG sv in
  let cmd := set_cdw11 cmd
      (NVME_FIELD_ENCODE nvmsetid NVME_FEAT_PLM_NVMSETID_SHIFT NVME_FEAT_PLM_NVMSETID_MASK) in
  let cmd := set_cdw12 cmd
      (NVME_FIELD_ENCODE (Z.b2z lpe) NVME_FEAT_PLM_LPE_SHIFT NVME_FEAT_PLM_LPE_MASK) in
  let cmd := set_data_len cmd sizeof_nvme_plm_config in
  set_addr cmd (u64 data).

Definition nvme_init_set_features_plm_window (cmd : passthru) (sv : bool)
    (nvmsetid wsel : Z) : passthru :=
  let cmd := nvme_init_set_features cmd NVME_FEAT_FID_PLM_WINDOW sv in
  let cmd := set_cdw11 cmd
      (NVME_FIELD_ENCODE nvmsetid NVME_FEAT_PLM_NVMSETID_SHIFT NVME_FEAT_PLM_NVMSETID_MASK) in
  set_cdw12 cmd (NVME_FIELD_ENCODE wsel NVME_FEAT_PLMW_WS_SHIFT NVME_FEAT_PLMW_WS_MASK).

Definition nvme_init_set_features_lba_sts_interval (cmd : passthru) (sv : bool)
    (lsiri lsipi : Z) : passthru :=
  let cmd := nvme_init_set_features cmd NVME_FEAT_FID_LBA_STS_INTERVAL sv in
  set_cdw11 cmd (NVME_FIELD_ENCODE lsiri NVME_FEAT_LBAS_LSIRI_SHIFT NVME_FEAT_LBAS_LSIRI_MASK .|
      NVME_FIELD_ENCODE lsipi NVME_FEAT_LBAS_LSIPI_SHIFT NVME_FEAT_LBAS_LSIPI_MASK).

Definition nvme_init_set_features_host_behavior (cmd : passthru) (sv : bool) (data : Z) : passthru :=
  let cmd := nvme_init_set_features cmd NVME_FEAT_FID_HOST_BEHAVIOR sv in
  let cmd := set_data_len cmd sizeof_nvme_feat_host_behavior in
  set_addr cmd (u64 data).

Definition nvme_init_set_features_sanitize (cmd : passthru) (sv nodrm : bool) : passthru :=
  let cmd := nvme_init_set_features cmd NVME_FEAT_FID_SANITIZE sv in
  set_cdw11 cmd
      (NVME_FIELD_ENCODE (Z.b2z nodrm) NVME_FEAT_SANITIZE_NODRM_SHIFT NVME_FEAT_SANITIZE_NODRM_MASK).

Definition nvme_init_set_features_endurance_evt_cfg (cmd : passthru) (sv : bool)
    (endgid egcw : Z) : passthru :=
  let cmd := nvme_init_set_features cmd NVME_FEAT_FID_ENDURANCE_EVT_CFG sv in
  set_cdw11 cmd (NVME_FIELD_ENCODE endgid NVME_FEAT_EG_ENDGID_SHIFT NVME_FEAT_EG_ENDGID_MASK .|
      NVME_FIELD_ENCODE egcw NVME_FEAT_EG_EGCW_SHIFT NVME_FEAT_EG_EGCW_MASK).

Definition nvme_init_set_features_sw_progress (cmd : passthru) (sv : bool) (pbslc : Z) : passthru :=
  let cmd := nvme_init_set_features cmd NVME_FEAT_FID_SW_PROGRESS sv in
  set_cdw11 cmd (NVME_FIELD_ENCODE pbslc NVME_FEAT_SPM_PBSLC_SHIFT NVME_FEAT_SPM_PBSLC_MASK).

Definition nvme_init_set_features_host_id (cmd : passthru) (sv exhid : bool) (hostid : Z) : passthru :=
  let cmd := nvme_init_set_features cmd NVME_FEAT_FID_HOST_ID sv in
  let cmd := set_cdw11 cmd
      (NVME_FIELD_ENCODE (Z.b2z exhid) NVME_FEAT_HOSTID_EXHID_SHIFT NVME_FEAT_HOSTID_EXHID_MASK) in
  let cmd := set_data_len cmd (if exhid then 16 else 8) in
  set_addr cmd (u64 hostid).

Definition nvme_init_set_features_resv_nf_mask (cmd : passthru) (nsid : Z) (sv : bool)
    (mask : Z) : passthru :=
  let cmd := nvme_init_set_features cmd NVME_FEAT_FID_RESV_NF_MASK sv in
  let cmd := set_nsid cmd nsid in
  set_cdw11 cmd mask.

Definition nvme_init_set_features_resv_persist (cmd : passthru) (nsid : Z)
    (sv ptpl : bool) : passthru :=
  let cmd := nvme_init_set_features cmd NVME_FEAT_FID_RESV_PERSIST sv in
  let cmd := set_nsid cmd nsid in
  set_cdw11 cmd (NVME_FIELD_ENCODE (Z.b2z ptpl) NVME_FEAT_RESP_PTPL_SHIFT NVME_FEAT_RESP_PTPL_MASK).

Definition nvme_init_set_features_write_protect (cmd : passthru) (nsid : Z) (sv : bool)
    (wps : Z) : passthru :=
  let cmd := nvme_init_set_features cmd NVME_FEAT_FID_WRITE_PROTECT sv in
  let cmd := set_nsid cmd nsid in
  set_cdw11 cmd (NVME_FIELD_ENCODE wps NVME_FEAT_WP_WPS_SHIFT NVME_FEAT_WP_WPS_MASK).

Definition nvme_init_set_features_iocs_profile (cmd : passthru) (sv : bool) (iocsci : Z) : passthru :=
  let cmd := nvme_init_set_features cmd NVME_FEAT_FID_IOCS_PROFILE sv in
  set_cdw11 cmd (NVME_FIELD_ENCODE iocsci NVME_FEAT_IOCSP_IOCSCI_SHIFT NVME_FEAT_IOCSP_IOCSCI_MASK).

Definition nvme_init_lm_set_features_ctrl_data_queue (cmd : passthru) (cdqid hp tpt : Z)
    (etpt : bool) : passthru :=
  let cmd := nvme_init_set_features cmd NVME_FEAT_FID_CTRL_DATA_QUEUE false in
  let cmd := set_cdw11 cmd (cdqid .|
      NVME_FIELD_ENCODE (Z.b2z etpt) NVME_LM_CTRL_DATA_QUEUE_ETPT_SHIFT
        NVME_LM_CTRL_DATA_QUEUE_ETPT_MASK) in
  let cmd := set_cdw12 cmd hp in
  set_cdw13 cmd tpt.

Definition nvme_init_set_features_rate_limiting (cmd : passthru) (sv : bool)
    (target tid data : Z) : passthru :=
  let cmd := nvme_init_set_features cmd NVME_FEAT_FID_RATE_LIMITING sv in
  let cmd := set_cdw11 cmd
        (NVME_FIELD_ENCODE target NVME_FEAT_RATE_LIMITING_TGT_SHIFT NVME_FEAT_RATE_LIMITING_TGT_MASK .|
      NVME_FIELD_ENCODE tid NVME_FEAT_RATE_LIMITING_TID_SHIFT NVME_FEAT_RATE_LIMITING_TID_MASK) in
  let cmd := set_data_len cmd sizeof_nvme_rate_limiting_data in
  set_addr cmd (u64 data).

Definition nvme_init_set_features_spinup_control (cmd : passthru) (sv sce : bool) : passthru :=
  let cmd := nvme_init_set_features cmd NVME_FEAT_FID_SPINUP_CONTROL sv in
  set_cdw11 cmd
      (NVME_FIELD_ENCODE (Z.b2z sce) NVME_FEAT_SPINUP_CONTROL_SHIFT NVME_FEAT_SPINUP_CONTROL_MASK).

Definition nvme_init_set_features_power_loss_signal (cmd : passthru) (sv : bool)
    (plsm : Z) : passthru :=
  let cmd := nvme_init_set_features cmd NVME_FEAT_FID_POWER_LOSS_SIGNAL sv in
  set_cdw11 cmd (NVME_FIELD_ENCODE plsm NVME_FEAT_PLS_MODE_SHIFT NVME_FEAT_PLS_MODE_MASK).

Definition nvme_init_set_features_perf_characteristics (cmd : passthru) (sv : bool) (attri : Z)
    (rvspa : bool) (data : Z) : passthru :=
  let cmd := nvme_init_set_features cmd NVME_FEAT_FID_PERF_CHARACTERISTICS sv in
  let cmd := set_cdw11 cmd
        (NVME_FIELD_ENCODE attri NVME_FEAT_PERFC_ATTRI_SHIFT NVME_FEAT_PERFC_ATTRI_MASK .|
      NVME_FIELD_ENCODE (Z.b2z rvspa) NVME_FEAT_PERFC_RVSPA_SHIFT NVME_FEAT_PERFC_RVSPA_MASK) in
  let cmd := set_data_len cmd sizeof_nvme_perf_characteristics in
  set_addr cmd (u64 data).

Definition nvme_init_set_features_fdp (cmd : passthru) (sv : bool) (endgid fdpcidx : Z)
    (fdpe : bool) : passthru :=
  let cmd := nvme_init_set_features cmd NVME_FEAT_FID_FDP sv in
  let cmd := set_cdw11 cmd endgid in
  set_cdw12 cmd (NVME_FIELD_ENCODE fdpcidx NVME_FEAT_FDP_INDEX_SHIFT NVME_FEAT_FDP_INDEX_MASK .|
      NVME_FIELD_ENCODE (Z.b2z fdpe) NVME_FEAT_FDP_ENABLED_SHIFT NVME_FEAT_FDP_ENABLED_MASK).

Definition nvme_init_set_features_fdp_events (cmd : passthru) (sv : bool) (phndl : Z) (fdpee : bool)
    (event_types noet : Z) : passthru :=
  let cmd := nvme_init_set_features cmd NVME_FEAT_FID_FDP_EVENTS sv in
  let cmd := set_cdw11 cmd
        (NVME_FIELD_ENCODE phndl NVME_FEAT_FDPE_PHNDL_SHIFT NVME_FEAT_FDPE_PHNDL_MASK .|
      NVME_FIELD_ENCODE noet NVME_FEAT_FDPE_NOET_SHIFT NVME_FEAT_FDPE_NOET_MASK) in
  let cmd := set_cdw12 cmd
      (NVME_FIELD_ENCODE (Z.b2z fdpee) NVME_FEAT_FDP_EVENTS_ENABLE_SHIFT
      NVME_FEAT_FDP_EVENTS_ENABLE_MASK) in
  let cmd := set_data_len cmd noet in
  set_addr cmd (u64 event_types).

Definition nvme_init_set_features_ns_admin_label (cmd : passthru) (nsid : Z) (sv : bool)
    (label : Z) : passthru :=
  let cmd := nvme_init_set_features cmd NVME_FEAT_FID_NS_ADMIN_LABEL sv in
  let cmd := set_nsid cmd nsid in
  let cmd := set_data_len cmd 256 in
  set_addr cmd (u64 label).

Definition nvme_init_set_features_personality (cmd : passthru) (sv : bool) (perid : Z)
    (chps perfs : bool) (cdw11 data len : Z) : passthru :=
  let cmd := nvme_init_set_features cmd NVME_FEAT_FID_CONF_DEV_PERSONALITY sv in
  let cmd := set_cdw11 cmd cdw11 in
  let cmd := set_cdw13 cmd
        (NVME_FIELD_ENCODE perid NVME_FEAT_CDP_PERID_SHIFT NVME_FEAT_CDP_PERID_MASK .|
      (if chps then NVME_FEAT_CDP_CHPS else 0) .| (if perfs then NVME_FEAT_CDP_PERFS else 0)) in
  let cmd := set_data_len cmd len in
  set_addr cmd (u64 data).

Definition nvme_init_set_features_power_limit (cmd : passthru) (sv : bool) (pls plv : Z) : passthru :=
  let cmd := nvme_init_set_features cmd NVME_FEAT_FID_POWER_LIMIT sv in
  set_cdw13 cmd (NVME_FIELD_ENCODE pls NVME_FEAT_POWER_LIMIT_PLS_SHIFT NVME_FEAT_POWER_LIMIT_PLS_MASK .|
      NVME_FIELD_ENCODE plv NVME_FEAT_POWER_LIMIT_PLV_SHIFT NVME_FEAT_POWER_LIMIT_PLV_MASK).

Definition nvme_init_set_features_power_threshold (cmd : passthru) (sv ept : bool)
    (pmts pts ptv : Z) : passthru :=
  let cmd := nvme_init_set_features cmd NVME_FEAT_FID_POWER_THRESH sv in
  set_cdw11 cmd
        (NVME_FIELD_ENCODE (Z.b2z ept) NVME_FEAT_POWER_THRESH_EPT_SHIFT
        NVME_FEAT_POWER_THRESH_EPT_MASK .|
      NVME_FIELD_ENCODE pmts NVME_FEAT_POWER_THRESH_PMTS_SHIFT NVME_FEAT_POWER_THRESH_PMTS_MASK .|
      NVME_FIELD_ENCODE pts NVME_FEAT_POWER_THRESH_PTS_SHIFT NVME_FEAT_POWER_THRESH_PTS_MASK .|
      NVME_FIELD_ENCODE ptv NVME_FEAT_POWER_THRESH_PTV_SHIFT NVME_FEAT_POWER_THRESH_PTV_MASK).

Definition nvme_init_set_features_power_measurement (cmd : passthru) (sv : bool)
    (act pmts smt actsp : Z) : passthru :=
  let cmd := nvme_init_set_features cmd NVME_FEAT_FID_POWER_MEASUREMENT sv in
  let cmd := set_cdw11 cmd
        (NVME_FIELD_ENCODE smt NVME_FEAT_POWER_MEAS_SMT_SHIFT NVME_FEAT_POWER_MEAS_SMT_MASK .|
      NVME_FIELD_ENCODE pmts NVME_FEAT_POWER_MEAS_PMTS_SHIFT NVME_FEAT_POWER_MEAS_PMTS_MASK .|
      NVME_FIELD_ENCODE act NVME_FEAT_POWER_MEAS_ACT_SHIFT NVME_FEAT_POWER_MEAS_ACT_MASK) in
  set_cdw12 cmd actsp.

Definition nvme_init_set_features_voltage_threshold (cmd : passthru) (sv : bool) (vsens : Z)
    (evt : bool) (ovt uvt : Z) : passthru :=
  let cmd := nvme_init_set_features cmd NVME_FEAT_FID_VOLTAGE_THRESHOLD sv in
  set_cdw11 cmd
        (NVME_FIELD_ENCODE vsens NVME_FEAT_VOLTAGE_THRESHOLD_VSENS_SHIFT
        NVME_FEAT_VOLTAGE_THRESHOLD_VSENS_MASK .|
      (if evt then NVME_FEAT_VOLTAGE_THRESHOLD_EVT else 0) .|
      NVME_FIELD_ENCODE ovt NVME_FEAT_VOLTAGE_THRESHOLD_OVT_SHIFT
        NVME_FEAT_VOLTAGE_THRESHOLD_OVT_MASK .|
      NVME_FIELD_ENCODE uvt NVME_FEAT_VOLTAGE_THRESHOLD_UVT_SHIFT NVME_FEAT_VOLTAGE_THRESHOLD_UVT_MASK).

Definition nvme_init_set_features_emb_mgmt_ctrl_addr (cmd : passthru) (sv : bool)
    (data : Z) : passthru :=
  let cmd := nvme_init_set_features cmd NVME_FEAT_FID_EMB_MGMT_CTRL_ADDR sv in
  let cmd := set_data_len cmd sizeof_nvme_mgmt_addr_desc in
  set_addr cmd (u64 data).

Definition nvme_init_set_features_host_mgmt_agent_addr (cmd : passthru) (sv : bool)
    (data : Z) : passthru :=
  let cmd := nvme_init_set_features cmd NVME_FEAT_FID_HOST_MGMT_AGENT_ADDR sv in
  let cmd := set_data_len cmd sizeof_nvme_mgmt_addr_desc in
  set_addr cmd (u64 data).

Definition nvme_init_set_features_enh_ctrl_metadata (cmd : passthru) (sv : bool)
    (ea data : Z) : passthru :=
  let cmd := nvme_init_set_features cmd NVME_FEAT_FID_ENH_CTRL_METADATA sv in
  let cmd := set_cdw11 cmd
      (NVME_FIELD_ENCODE ea NVME_HOST_METADATA_EA_SHIFT NVME_HOST_METADATA_EA_MASK) in
  let cmd := set_data_len cmd sizeof_nvme_host_metadata in
  set_addr cmd (u64 data).

Definition nvme_init_set_features_ctrl_metadata (cmd : passthru) (sv : bool) (ea data : Z) : passthru :=
  let cmd := nvme_init_set_features cmd NVME_FEAT_FID_CTRL_METADATA sv in
  let cmd := set_cdw11 cmd
      (NVME_FIELD_ENCODE ea NVME_HOST_METADATA_EA_SHIFT NVME_HOST_METADATA_EA_MASK) in
  let cmd := set_data_len cmd sizeof_nvme_host_metadata in
  set_addr cmd (u64 data).

Definition nvme_init_set_features_ns_metadata (cmd : passthru) (sv : bool) (ea data : Z) : passthru :=
  let cmd := nvme_init_set_features cmd NVME_FEAT_FID_NS_METADATA sv in
  let cmd := set_cdw11 cmd
      (NVME_FIELD_ENCODE ea NVME_HOST_METADATA_EA_SHIFT NVME_HOST_METADATA_EA_MASK) in
  let cmd := set_data_len cmd sizeof_nvme_host_metadata in
  set_addr cmd (u64 data).

Definition nvme_init_set_features_bp_write_protect (cmd : passthru) (sv : bool)
    (bp0wps bp1wps : Z) : passthru :=
  let cmd := nvme_init_set_features cmd NVME_FEAT_FID_BP_WRITE_PROTECT sv in
  set_cdw11 cmd (NVME_FIELD_ENCODE bp0wps NVME_FEAT_BPWPC_BP0WPS_SHIFT NVME_FEAT_BPWPC_BP0WPS_MASK .|
      NVME_FIELD_ENCODE bp1wps NVME_FEAT_BPWPC_BP1WPS_SHIFT NVME_FEAT_BPWPC_BP1WPS_MASK).

Definition nvme_init_get_features (cmd : passthru) (fid sel : Z) : passthru :=
  let cdw10 := NVME_FIELD_ENCODE fid NVME_GET_FEATURES_CDW10_FID_SHIFT
        NVME_GET_FEATURES_CDW10_FID_MASK .|
      NVME_FIELD_ENCODE sel NVME_GET_FEATURES_CDW10_SEL_SHIFT NVME_GET_FEATURES_CDW10_SEL_MASK in
  let cmd := cmd_zero in
  let cmd := set_opcode cmd nvme_admin_get_features in
  set_cdw10 cmd cdw10.

Definition nvme_init_get_features_arbitration (cmd : passthru) (sel : Z) : passthru :=
  nvme_init_get_features cmd NVME_FEAT_FID_ARBITRATION sel.

Definition nvme_init_get_features_power_mgmt (cmd : passthru) (sel : Z) : passthru :=
  nvme_init_get_features cmd NVME_FEAT_FID_POWER_MGMT sel.

Definition nvme_init_get_features_lba_range (cmd : passthru) (nsid sel lrt : Z) : passthru :=
  let cmd := nvme_init_get_features cmd NVME_FEAT_FID_LBA_RANGE sel in
  let cmd := set_nsid cmd nsid in
  let cmd := set_data_len cmd sizeof_nvme_lba_range_type in
  set_addr cmd (u64 lrt).

Definition nvme_init_get_features_temp_thresh (cmd : passthru) (sel tmpsel thsel : Z) : passthru :=
  let cmd := nvme_init_get_features cmd NVME_FEAT_FID_TEMP_THRESH sel in
  set_cdw11 cmd (NVME_FIELD_ENCODE tmpsel NVME_FEAT_TT_TMPSEL_SHIFT NVME_FEAT_TT_TMPSEL_MASK .|
      NVME_FIELD_ENCODE thsel NVME_FEAT_TT_THSEL_SHIFT NVME_FEAT_TT_THSEL_MASK).

Definition nvme_init_get_features_err_recovery (cmd : passthru) (nsid sel : Z) : passthru :=
  let cmd := nvme_init_get_features cmd NVME_FEAT_FID_ERR_RECOVERY sel in
  set_nsid cmd nsid.

Definition nvme_init_get_features_volatile_wc (cmd : passthru) (sel : Z) : passthru :=
  nvme_init_get_features cmd NVME_FEAT_FID_VOLATILE_WC sel.

Definition nvme_init_get_features_num_queues (cmd : passthru) (sel : Z) : passthru :=
  nvme_init_get_features cmd NVME_FEAT_FID_NUM_QUEUES sel.

Definition nvme_init_get_features_irq_coalesce (cmd : passthru) (sel : Z) : passthru :=
  nvme_init_get_features cmd NVME_FEAT_FID_IRQ_COALESCE sel.

Definition nvme_init_get_features_irq_config (cmd : passthru) (sel iv : Z) (cd : bool) : passthru :=
  let cdw11 := NVME_FIELD_ENCODE iv NVME_FEAT_ICFG_IV_SHIFT NVME_FEAT_ICFG_IV_MASK .|
      NVME_FIELD_ENCODE (Z.b2z cd) NVME_FEAT_ICFG_CD_SHIFT NVME_FEAT_ICFG_CD_MASK in
  let cmd := nvme_init_get_features cmd NVME_FEAT_FID_IRQ_CONFIG sel in
  set_cdw11 cmd cdw11.

Definition nvme_init_get_features_write_atomic (cmd : passthru) (sel : Z) : passthru :=
  nvme_init_get_features cmd NVME_FEAT_FID_WRITE_ATOMIC sel.

Definition nvme_init_get_features_async_event (cmd : passthru) (sel : Z) : passthru :=
  nvme_init_get_features cmd NVME_FEAT_FID_ASYNC_EVENT sel.

Definition nvme_init_get_features_auto_pst (cmd : passthru) (sel apst : Z) : passthru :=
  let cmd := nvme_init_get_features cmd NVME_FEAT_FID_AUTO_PST sel in
  let cmd := set_data_len cmd sizeof_nvme_feat_auto_pst in
  set_addr cmd (u64 apst).

Definition nvme_init_get_features_host_mem_buf (cmd : passthru) (sel attrs : Z) : passthru :=
  let cmd := nvme_init_get_features cmd NVME_FEAT_FID_HOST_MEM_BUF sel in
  let cmd := set_data_len cmd sizeof_nvme_host_mem_buf_attrs in
  set_addr cmd (u64 attrs).

Definition nvme_init_get_features_timestamp (cmd : passthru) (sel ts : Z) : passthru :=
  let cmd := nvme_init_get_features cmd NVME_FEAT_FID_TIMESTAMP sel in
  let cmd := set_data_len cmd sizeof_nvme_timestamp in
  set_addr cmd (u64 ts).

Definition nvme_init_get_features_kato (cmd : passthru) (sel : Z) : passthru :=
  nvme_init_get_features cmd NVME_FEAT_FID_KATO sel.

Definition nvme_init_get_features_hctm (cmd : passthru) (sel : Z) : passthru :=
  nvme_init_get_features cmd NVME_FEAT_FID_HCTM sel.

Definition nvme_init_get_features_nopsc (cmd : passthru) (sel : Z) : passthru :=
  nvme_init_get_features cmd NVME_FEAT_FID_NOPSC sel.

Definition nvme_init_get_features_rrl (cmd : passthru) (sel : Z) : passthru :=
  nvme_init_get_features cmd NVME_FEAT_FID_RRL sel.

Definition nvme_init_get_features_plm_config (cmd : passthru) (sel nvmsetid plmc : Z) : passthru :=
  let cmd := nvme_init_get_features cmd NVME_FEAT_FID_PLM_CONFIG sel in
  let cmd := set_cdw11 cmd
      (NVME_FIELD_ENCODE nvmsetid NVME_FEAT_PLM_NVMSETID_SHIFT NVME_FEAT_PLM_NVMSETID_MASK) in
  let cmd := set_data_len cmd sizeof_nvme_plm_config in
  set_addr cmd (u64 plmc).

Definition nvme_init_get_features_plm_window (cmd : passthru) (sel nvmsetid : Z) : passthru :=
  let cmd := nvme_init_get_features cmd NVME_FEAT_FID_PLM_WINDOW sel in
  set_cdw11 cmd (NVME_FIELD_ENCODE nvmsetid NVME_FEAT_PLM_NVMSETID_SHIFT NVME_FEAT_PLM_NVMSETID_MASK).

Definition nvme_init_get_features_lba_sts_interval (cmd : passthru) (sel : Z) : passthru :=
  nvme_init_get_features cmd NVME_FEAT_FID_LBA_STS_INTERVAL sel.

Definition nvme_init_get_features_host_behavior (cmd : passthru) (sel fhb : Z) : passthru :=
  let cmd := nvme_init_get_features cmd NVME_FEAT_FID_HOST_BEHAVIOR sel in
  let cmd := set_data_len cmd sizeof_nvme_feat_host_behavior in
  set_addr cmd (u64 fhb).

Definition nvme_init_get_features_sanitize (cmd : passthru) (sel : Z) : passthru :=
  nvme_init_get_features cmd NVME_FEAT_FID_SANITIZE sel.

Definition nvme_init_get_features_endurance_event_cfg (cmd : passthru) (sel endgid : Z) : passthru :=
  let cmd := nvme_init_get_features cmd NVME_FEAT_FID_ENDURANCE_EVT_CFG sel in
  set_cdw11 cmd (NVME_FIELD_ENCODE endgid NVME_FEAT_EG_ENDGID_SHIFT NVME_FEAT_EG_ENDGID_MASK).

Definition nvme_init_get_features_sw_progress (cmd : passthru) (sel : Z) : passthru :=
  nvme_init_get_features cmd NVME_FEAT_FID_SW_PROGRESS sel.

Definition nvme_init_get_features_host_id (cmd : passthru) (sel : Z) (exhid : bool)
    (hostid len : Z) : passthru :=
  let cmd := nvme_init_get_features cmd NVME_FEAT_FID_HOST_ID sel in
  let cmd := set_cdw11 cmd
      (NVME_FIELD_ENCODE (Z.b2z exhid) NVME_FEAT_HOSTID_EXHID_SHIFT NVME_FEAT_HOSTID_EXHID_MASK) in
  let cmd := set_data_len cmd len in
  set_addr cmd (u64 hostid).

Definition nvme_init_get_features_resv_nf_mask (cmd : passthru) (nsid sel : Z) : passthru :=
  let cmd := nvme_init_get_features cmd NVME_FEAT_FID_RESV_NF_MASK sel in
  set_nsid cmd nsid.

Definition nvme_init_get_features_resv_persist (cmd : passthru) (nsid sel : Z) : passthru :=
  let cmd := nvme_init_get_features cmd NVME_FEAT_FID_RESV_PERSIST sel in
  set_nsid cmd nsid.

Definition nvme_init_get_features_write_protect (cmd : passthru) (nsid sel : Z) : passthru :=
  let cmd := nvme_init_get_features cmd NVME_FEAT_FID_WRITE_PROTECT sel in
  set_nsid cmd nsid.

Definition nvme_init_get_features_iocs_profile (cmd : passthru) (sel : Z) : passthru :=
  nvme_init_get_features cmd NVME_FEAT_FID_IOCS_PROFILE sel.

Definition nvme_init_lm_get_features_ctrl_data_queue (cmd : passthru) (sel cdqid qfd : Z) : passthru :=
  let cmd := nvme_init_get_features cmd NVME_FEAT_FID_CTRL_DATA_QUEUE sel in
  let cmd := set_data_len cmd sizeof_nvme_lm_ctrl_data_queue_fid_data in
  let cmd := set_addr cmd (u64 qfd) in
  set_cdw11 cmd cdqid.

Definition nvme_init_get_features_rate_limiting (cmd : passthru) (sel target tid data : Z) : passthru :=
  let cmd := nvme_init_get_features cmd NVME_FEAT_FID_RATE_LIMITING sel in
  let cmd := set_cdw11 cmd
        (NVME_FIELD_ENCODE target NVME_FEAT_RATE_LIMITING_TGT_SHIFT NVME_FEAT_RATE_LIMITING_TGT_MASK .|
      NVME_FIELD_ENCODE tid NVME_FEAT_RATE_LIMITING_TID_SHIFT NVME_FEAT_RATE_LIMITING_TID_MASK) in
  let cmd := set_data_len cmd sizeof_nvme_rate_limiting_data in
  set_addr cmd (u64 data).

Definition nvme_init_get_features_spinup_control (cmd : passthru) (sel : Z) : passthru :=
  nvme_init_get_features cmd NVME_FEAT_FID_SPINUP_CONTROL sel.

Definition nvme_init_get_features_power_loss_signal (cmd : passthru) (sel : Z) : passthru :=
  nvme_init_get_features cmd NVME_FEAT_FID_POWER_LOSS_SIGNAL sel.

Definition nvme_init_get_features_perf_characteristics (cmd : passthru)
    (sel attri data : Z) : passthru :=
  let cmd := nvme_init_get_features cmd NVME_FEAT_FID_PERF_CHARACTERISTICS sel in
  let cmd := set_cdw11 cmd
      (NVME_FIELD_ENCODE attri NVME_FEAT_PERFC_ATTRI_SHIFT NVME_FEAT_PERFC_ATTRI_MASK) in
  let cmd := set_data_len cmd sizeof_nvme_perf_characteristics in
  set_addr cmd (u64 data).

Definition nvme_init_get_features_fdp (cmd : passthru) (sel endgid : Z) : passthru :=
  let cmd := nvme_init_get_features cmd NVME_FEAT_FID_FDP sel in
  set_cdw11 cmd endgid.

Definition nvme_init_get_features_fdp_events (cmd : passthru) (sel phndl data len : Z) : passthru :=
  let cmd := nvme_init_get_features cmd NVME_FEAT_FID_FDP_EVENTS sel in
  let cmd := set_cdw11 cmd
      (NVME_FIELD_ENCODE phndl NVME_FEAT_FDPE_PHNDL_SHIFT NVME_FEAT_FDPE_PHNDL_MASK) in
  let cmd := set_data_len cmd len in
  set_addr cmd (u64 data).

Definition nvme_init_get_features_ns_admin_label (cmd : passthru) (sel label : Z) : passthru :=
  let cmd := nvme_init_get_features cmd NVME_FEAT_FID_NS_ADMIN_LABEL sel in
  let cmd := set_data_len cmd 256 in
  set_addr cmd (u64 label).

Definition nvme_init_get_features_personality (cmd : passthru) (sel perid data len : Z) : passthru :=
  let cmd := nvme_init_get_features cmd NVME_FEAT_FID_CONF_DEV_PERSONALITY sel in
  let cmd := set_cdw13 cmd
      (NVME_FIELD_ENCODE perid NVME_FEAT_CDP_PERID_SHIFT NVME_FEAT_CDP_PERID_MASK) in
  let cmd := set_data_len cmd len in
  set_addr cmd (u64 data).

Definition nvme_init_get_features_power_limit (cmd : passthru) (sel : Z) : passthru :=
  nvme_init_get_features cmd NVME_FEAT_FID_POWER_LIMIT sel.

Definition nvme_init_get_features_power_threshold (cmd : passthru) (sel : Z) : passthru :=
  nvme_init_get_features cmd NVME_FEAT_FID_POWER_THRESH sel.

Definition nvme_init_get_features_power_measurement (cmd : passthru) (sel : Z) : passthru :=
  nvme_init_get_features cmd NVME_FEAT_FID_POWER_MEASUREMENT sel.

Definition nvme_init_get_features_voltage_threshold (cmd : passthru) (sel vsens : Z) : passthru :=
  let cmd := nvme_init_get_features cmd NVME_FEAT_FID_VOLTAGE_THRESHOLD sel in
  set_cdw11 cmd
      (NVME_FIELD_ENCODE vsens NVME_FEAT_VOLTAGE_THRESHOLD_VSENS_SHIFT
      NVME_FEAT_VOLTAGE_THRESHOLD_VSENS_MASK).

Definition nvme_init_get_features_voltage_measurement (cmd : passthru) (sel data len : Z) : passthru :=
  let cmd := nvme_init_get_features cmd NVME_FEAT_FID_VOLTAGE_MEASUREMENT sel in
  let cmd := set_data_len cmd len in
  set_addr cmd (u64 data).

Definition nvme_init_get_features_emb_mgmt_ctrl_addr (cmd : passthru) (sel data : Z) : passthru :=
  let cmd := nvme_init_get_features cmd NVME_FEAT_FID_EMB_MGMT_CTRL_ADDR sel in
  let cmd := set_data_len cmd sizeof_nvme_mgmt_addr_desc in
  set_addr cmd (u64 data).

Definition nvme_init_get_features_host_mgmt_agent_addr (cmd : passthru) (sel data : Z) : passthru :=
  let cmd := nvme_init_get_features cmd NVME_FEAT_FID_HOST_MGMT_AGENT_ADDR sel in
  let cmd := set_data_len cmd sizeof_nvme_mgmt_addr_desc in
  set_addr cmd (u64 data).

Definition nvme_init_get_features_enh_ctrl_metadata (cmd : passthru) (sel data : Z) : passthru :=
  let cmd := nvme_init_get_features cmd NVME_FEAT_FID_ENH_CTRL_METADATA sel in
  let cmd := set_data_len cmd sizeof_nvme_host_metadata in
  set_addr cmd (u64 data).

Definition nvme_init_get_features_ctrl_metadata (cmd : passthru) (sel data : Z) : passthru :=
  let cmd := nvme_init_get_features cmd NVME_FEAT_FID_CTRL_METADATA sel in
  let cmd := set_data_len cmd sizeof_nvme_host_metadata in
  set_addr cmd (u64 data).

Definition nvme_init_get_features_ns_metadata (cmd : passthru) (sel data : Z) : passthru :=
  let cmd := nvme_init_get_features cmd NVME_FEAT_FID_NS_METADATA sel in
  let cmd := set_data_len cmd sizeof_nvme_host_metadata in
  set_addr cmd (u64 data).

Definition nvme_init_get_features_bp_write_protect (cmd : passthru) (sel : Z) : passthru :=
  nvme_init_get_features cmd NVME_FEAT_FID_BP_WRITE_PROTECT sel.

Definition nvme_init_ns_mgmt (cmd : passthru) (nsid sel csi data : Z) : passthru :=
  let cmd := cmd_zero in
  let cmd := set_opcode cmd nvme_admin_ns_mgmt in
  let cmd := set_nsid cmd nsid in
  let cmd := set_data_len cmd
      (u32 (if negb (data =? 0) then sizeof_nvme_ns_mgmt_host_sw_specified else 0)) in
  let cmd := set_addr cmd (u64 data) in
  let cmd := set_cdw10 cmd
      (NVME_FIELD_ENCODE sel NVME_NAMESPACE_MGMT_CDW10_SEL_SHIFT NVME_NAMESPACE_MGMT_CDW10_SEL_MASK) in
  set_cdw11 cmd
      (NVME_FIELD_ENCODE csi NVME_NAMESPACE_MGMT_CDW11_CSI_SHIFT NVME_NAMESPACE_MGMT_CDW11_CSI_MASK).

Definition nvme_init_ns_mgmt_create (cmd : passthru) (csi data : Z) : passthru :=
  nvme_init_ns_mgmt cmd NVME_NSID_NONE NVME_NS_MGMT_SEL_CREATE csi data.

Definition nvme_init_ns_mgmt_delete (cmd : passthru) (nsid : Z) : passthru :=
  nvme_init_ns_mgmt cmd nsid NVME_NS_MGMT_SEL_DELETE NVME_CSI_NVM 0.

Definition nvme_init_ns_mgmt_restore_default_config (cmd : passthru) : passthru :=
  nvme_init_ns_mgmt cmd NVME_NSID_NONE NVME_NS_MGMT_SEL_RESTORE_DEFAULT_CONFIG 0 0.

Definition nvme_init_fw_commit (cmd : passthru) (fs ca : Z) (bpid : bool) : passthru :=
  let cmd := cmd_zero in
  let cmd := set_opcode cmd nvme_admin_fw_commit in
  set_cdw10 cmd (NVME_FIELD_ENCODE fs NVME_FW_COMMIT_CDW10_FS_SHIFT NVME_FW_COMMIT_CDW10_FS_MASK .|
      NVME_FIELD_ENCODE ca NVME_FW_COMMIT_CDW10_CA_SHIFT NVME_FW_COMMIT_CDW10_CA_MASK .|
      NVME_FIELD_ENCODE (Z.b2z bpid) NVME_FW_COMMIT_CDW10_BPID_SHIFT NVME_FW_COMMIT_CDW10_BPID_MASK).

Definition nvme_init_dev_self_test (cmd : passthru) (nsid stc : Z) : passthru :=
  let cmd := cmd_zero in
  let cmd := set_opcode cmd nvme_admin_dev_self_test in
  let cmd := set_nsid cmd nsid in
  set_cdw10 cmd
      (NVME_FIELD_ENCODE stc NVME_DEVICE_SELF_TEST_CDW10_STC_SHIFT
      NVME_DEVICE_SELF_TEST_CDW10_STC_MASK).

Definition nvme_init_ns_attach (cmd : passthru) (nsid sel ctrlist : Z) : passthru :=
  let cmd := cmd_zero in
  let cmd := set_opcode cmd nvme_admin_ns_attach in
  let cmd := set_nsid cmd nsid in
  let cmd := set_data_len cmd sizeof_nvme_ctrl_list in
  let cmd := set_addr cmd (u64 ctrlist) in
  set_cdw10 cmd
      (NVME_FIELD_ENCODE sel NVME_NAMESPACE_ATTACH_CDW10_SEL_SHIFT
      NVME_NAMESPACE_ATTACH_CDW10_SEL_MASK).

Definition nvme_init_ns_attach_ctrls (cmd : passthru) (nsid ctrlist : Z) : passthru :=
  nvme_init_ns_attach cmd nsid NVME_NS_ATTACH_SEL_CTRL_ATTACH ctrlist.

Definition nvme_init_ns_detach_ctrls (cmd : passthru) (nsid ctrlist : Z) : passthru :=
  nvme_init_ns_attach cmd nsid NVME_NS_ATTACH_SEL_CTRL_DEATTACH ctrlist.

Definition nvme_init_keep_alive (cmd : passthru) : passthru :=
  let cmd := cmd_zero in
  set_opcode cmd nvme_admin_keep_alive.

Definition nvme_init_directive_send (cmd : passthru) (nsid doper dtype dspec data len : Z) : passthru :=
  let cmd := cmd_zero in
  let cmd := set_opcode cmd nvme_admin_directive_send in
  let cmd := set_nsid cmd nsid in
  let cmd := set_data_len cmd len in
  let cmd := set_addr cmd (u64 data) in
  let cmd := set_cdw10 cmd (if negb (len =? 0) then u32 ((Z.shiftr len 2) - 1) else 0) in
  set_cdw11 cmd
        (NVME_FIELD_ENCODE doper NVME_DIRECTIVE_CDW11_DOPER_SHIFT NVME_DIRECTIVE_CDW11_DOPER_MASK .|
      NVME_FIELD_ENCODE dtype NVME_DIRECTIVE_CDW11_DTYPE_SHIFT NVME_DIRECTIVE_CDW11_DTYPE_MASK .|
      NVME_FIELD_ENCODE dspec NVME_DIRECTIVE_CDW11_DPSEC_SHIFT NVME_DIRECTIVE_CDW11_DPSEC_MASK).

Definition nvme_init_directive_send_id_endir (cmd : passthru) (nsid : Z) (endir : bool)
    (dtype id : Z) : passthru :=
  let cmd := nvme_init_directive_send cmd nsid NVME_DIRECTIVE_SEND_IDENTIFY_DOPER_ENDIR
      NVME_DIRECTIVE_DTYPE_IDENTIFY 0 id sizeof_nvme_id_directives in
  set_cdw12 cmd
        (NVME_FIELD_ENCODE dtype NVME_DIRECTIVE_SEND_IDENTIFY_CDW12_DTYPE_SHIFT
        NVME_DIRECTIVE_SEND_IDENTIFY_CDW12_DTYPE_MASK .|
      NVME_FIELD_ENCODE (Z.b2z endir) NVME_DIRECTIVE_SEND_IDENTIFY_CDW12_ENDIR_SHIFT
        NVME_DIRECTIVE_SEND_IDENTIFY_CDW12_ENDIR_MASK).

Definition nvme_init_directive_send_stream_release_identifier (cmd : passthru)
    (nsid stream_id : Z) : passthru :=
  nvme_init_directive_send cmd nsid NVME_DIRECTIVE_SEND_STREAMS_DOPER_RELEASE_IDENTIFIER
      NVME_DIRECTIVE_DTYPE_STREAMS stream_id 0 0.

Definition nvme_init_directive_send_stream_release_resource (cmd : passthru) (nsid : Z) : passthru :=
  nvme_init_directive_send cmd nsid NVME_DIRECTIVE_SEND_STREAMS_DOPER_RELEASE_RESOURCE
      NVME_DIRECTIVE_DTYPE_STREAMS 0 0 0.

Definition nvme_init_directive_recv (cmd : passthru) (nsid doper dtype dspec data len : Z) : passthru :=
  let cmd := cmd_zero in
  let cmd := set_opcode cmd nvme_admin_directive_recv in
  let cmd := set_nsid cmd nsid in
  let cmd := set_data_len cmd len in
  let cmd := set_addr cmd (u64 data) in
  let cmd := set_cdw10 cmd (if negb (len =? 0) then u32 ((Z.shiftr len 2) - 1) else 0) in
  set_cdw11 cmd
        (NVME_FIELD_ENCODE doper NVME_DIRECTIVE_CDW11_DOPER_SHIFT NVME_DIRECTIVE_CDW11_DOPER_MASK .|
      NVME_FIELD_ENCODE dtype NVME_DIRECTIVE_CDW11_DTYPE_SHIFT NVME_DIRECTIVE_CDW11_DTYPE_MASK .|
      NVME_FIELD_ENCODE dspec NVME_DIRECTIVE_CDW11_DPSEC_SHIFT NVME_DIRECTIVE_CDW11_DPSEC_MASK).

Definition nvme_init_directive_recv_identify_parameters (cmd : passthru) (nsid id : Z) : passthru :=
  nvme_init_directive_recv cmd nsid NVME_DIRECTIVE_RECEIVE_IDENTIFY_DOPER_PARAM
      NVME_DIRECTIVE_DTYPE_IDENTIFY 0 id sizeof_nvme_id_directives.

Definition nvme_init_directive_recv_stream_parameters (cmd : passthru) (nsid parms : Z) : passthru :=
  nvme_init_directive_recv cmd nsid NVME_DIRECTIVE_RECEIVE_STREAMS_DOPER_PARAM
      NVME_DIRECTIVE_DTYPE_STREAMS 0 parms sizeof_nvme_streams_directive_params.

Definition nvme_init_directive_recv_stream_allocate (cmd : passthru) (nsid nsr : Z) : passthru :=
  let cmd := nvme_init_directive_recv cmd nsid NVME_DIRECTIVE_RECEIVE_STREAMS_DOPER_RESOURCE
      NVME_DIRECTIVE_DTYPE_STREAMS 0 0 0 in
  set_cdw12 cmd nsr.

Definition nvme_init_virtual_mgmt (cmd : passthru) (act rt cntlid nr : Z) : passthru :=
  let cmd := cmd_zero in
  let cmd := set_opcode cmd nvme_admin_virtual_mgmt in
  let cmd := set_cdw10 cmd
        (NVME_FIELD_ENCODE act NVME_VIRT_MGMT_CDW10_ACT_SHIFT NVME_VIRT_MGMT_CDW10_ACT_MASK .|
      NVME_FIELD_ENCODE rt NVME_VIRT_MGMT_CDW10_RT_SHIFT NVME_VIRT_MGMT_CDW10_RT_MASK .|
      NVME_FIELD_ENCODE cntlid NVME_VIRT_MGMT_CDW10_CNTLID_SHIFT NVME_VIRT_MGMT_CDW10_CNTLID_MASK) in
  set_cdw11 cmd (NVME_FIELD_ENCODE nr NVME_VIRT_MGMT_CDW11_NR_SHIFT NVME_VIRT_MGMT_CDW11_NR_MASK).

Definition nvme_init_capacity_mgmt (cmd : passthru) (oper elid cap : Z) : passthru :=
  let cmd := cmd_zero in
  let cmd := set_opcode cmd nvme_admin_capacity_mgmt in
  let cmd := set_cdw10 cmd
        (NVME_FIELD_ENCODE oper NVME_CAPACITY_MGMT_CDW10_OPER_SHIFT
        NVME_CAPACITY_MGMT_CDW10_OPER_MASK .|
      NVME_FIELD_ENCODE elid NVME_CAPACITY_MGMT_CDW10_ELID_SHIFT NVME_CAPACITY_MGMT_CDW10_ELID_MASK) in
  let cmd := set_cdw11 cmd
      (NVME_FIELD_ENCODE cap NVME_CAPACITY_MGMT_CDW11_CAPL_SHIFT NVME_CAPACITY_MGMT_CDW11_CAPL_MASK) in
  set_cdw12 cmd
      (NVME_FIELD_ENCODE (Z.shiftr cap 32) NVME_CAPACITY_MGMT_CDW12_CAPU_SHIFT
      NVME_CAPACITY_MGMT_CDW12_CAPU_MASK).

Definition nvme_init_capacity_mgmt_restore_default_config (cmd : passthru) : passthru :=
  nvme_init_capacity_mgmt cmd NVME_CAPACITY_MGMT_OPER_RESTORE_DEFAULT_CONFIG 0 0.

Definition nvme_init_dim_send (cmd : passthru) (tas data len : Z) : passthru :=
  let cmd := cmd_zero in
  let cmd := set_opcode cmd nvme_admin_discovery_info_mgmt in
  let cmd := set_data_len cmd len in
  let cmd := set_addr cmd (u64 data) in
  set_cdw10 cmd (NVME_FIELD_ENCODE tas NVME_DIM_TAS_SHIFT NVME_DIM_TAS_MASK).

Definition nvme_init_clear_export_nvm_res (cmd : passthru) : passthru :=
  let cmd := cmd_zero in
  set_opcode cmd nvme_admin_clear_export_nvm_res.

Definition nvme_init_manage_export_nvms_receive (cmd : passthru)
    (sel mos mose mosi ol ou numdl data len : Z) : passthru :=
  let cmd := cmd_zero in
  let cmd := set_opcode cmd nvme_admin_manage_export_nvms_receive in
  let cmd := set_data_len cmd len in
  let cmd := set_addr cmd (u64 data) in
  let cmd := set_cdw10 cmd
        (NVME_FIELD_ENCODE sel NVME_MANAGE_EXPORT_NVMS_RECV_CDW10_SEL_SHIFT
        NVME_MANAGE_EXPORT_NVMS_RECV_CDW10_SEL_MASK .|
      NVME_FIELD_ENCODE mos NVME_MANAGE_EXPORT_NVMS_RECV_CDW10_MOS_SHIFT
        NVME_MANAGE_EXPORT_NVMS_RECV_CDW10_MOS_MASK .|
      NVME_FIELD_ENCODE mose NVME_MANAGE_EXPORT_NVMS_RECV_CDW10_MOSE_SHIFT
        NVME_MANAGE_EXPORT_NVMS_RECV_CDW10_MOSE_MASK) in
  let cmd := set_cdw12 cmd ol in
  let cmd := set_cdw13 cmd ou in
  let cmd := set_cdw14 cmd
      (NVME_FIELD_ENCODE mosi NVME_MANAGE_EXPORT_NVMS_RECV_CDW14_MOSI_SHIFT
      NVME_MANAGE_EXPORT_NVMS_RECV_CDW14_MOSI_MASK) in
  set_cdw15 cmd numdl.

Definition nvme_init_manage_export_nvms_receive_create (cmd : passthru) (tr : bool) (ensti : Z)
    (ra : bool) (data : Z) : passthru :=
  let mos := if ra then NVME_EXPORT_NVMS_CREATE_MOS_RA else 0 in
  let cmd := nvme_init_manage_export_nvms_receive cmd NVME_MANAGE_EXPORT_NVMS_RECV_SEL_CREATE mos 0 0 0
      0 0 data sizeof_nvme_exported_nvm_subsys_create_data in
  set_cdw11 cmd
        (NVME_FIELD_ENCODE ensti NVME_EXPORT_NVMS_CREATE_CDW11_ENSTI_SHIFT
        NVME_EXPORT_NVMS_CREATE_CDW11_ENSTI_MASK .|
      (u32 (if tr then NVME_EXPORT_NVMS_CREATE_CDW11_TR else 0))).

Definition nvme_init_manage_export_nvms_receive_list_subsystems (cmd : passthru)
    (esubid list len : Z) : passthru :=
  let numdl := if negb (len =? 0) then u32 ((Z.shiftr len 2) - 1) else 0 in
  nvme_init_manage_export_nvms_receive cmd NVME_MANAGE_EXPORT_NVMS_RECV_SEL_LIST_SUBSYSTEMS 0 0 esubid 0
      0 numdl list len.

Definition nvme_init_manage_export_nvms_receive_list_namespaces (cmd : passthru)
    (nsid list len : Z) : passthru :=
  let numdl := if negb (len =? 0) then u32 ((Z.shiftr len 2) - 1) else 0 in
  let cmd := nvme_init_manage_export_nvms_receive cmd NVME_MANAGE_EXPORT_NVMS_RECV_SEL_LIST_NAMESPACES 0
      0 0 0 0 numdl list len in
  set_nsid cmd nsid.

Definition nvme_init_manage_export_nvms_receive_list_controllers (cmd : passthru)
    (ecntlid list len : Z) : passthru :=
  let numdl := if negb (len =? 0) then u32 ((Z.shiftr len 2) - 1) else 0 in
  nvme_init_manage_export_nvms_receive cmd NVME_MANAGE_EXPORT_NVMS_RECV_SEL_LIST_CONTROLLERS 0 ecntlid 0
      0 0 numdl list len.

Definition nvme_init_manage_export_nvms_receive_list_ports (cmd : passthru)
    (epid list len : Z) : passthru :=
  let numdl := if negb (len =? 0) then u32 ((Z.shiftr len 2) - 1) else 0 in
  nvme_init_manage_export_nvms_receive cmd NVME_MANAGE_EXPORT_NVMS_RECV_SEL_LIST_PORTS 0 epid 0 0 0
      numdl list len.

Definition nvme_init_manage_export_ns (cmd : passthru) (sel mos : Z) (esubidv : bool)
    (esubid data len : Z) : passthru :=
  let cmd := cmd_zero in
  let cmd := set_opcode cmd nvme_admin_manage_export_ns in
  let cmd := set_data_len cmd len in
  let cmd := set_addr cmd (u64 data) in
  let cmd := set_cdw10 cmd
        (NVME_FIELD_ENCODE sel NVME_MANAGE_EXPORT_NS_CDW10_SEL_SHIFT
        NVME_MANAGE_EXPORT_NS_CDW10_SEL_MASK .|
      NVME_FIELD_ENCODE mos NVME_MANAGE_EXPORT_NS_CDW10_MOS_SHIFT
        NVME_MANAGE_EXPORT_NS_CDW10_MOS_MASK) in
  set_cdw14 cmd
        (NVME_FIELD_ENCODE esubid NVME_MANAGE_EXPORT_NS_CDW14_ESUBID_SHIFT
        NVME_MANAGE_EXPORT_NS_CDW14_ESUBID_MASK .|
      (if esubidv then NVME_MANAGE_EXPORT_NS_CDW14_ESUBIDV else 0)).

Definition nvme_init_manage_export_ns_associate (cmd : passthru) (andsf : Z) (esubidv : bool)
    (esubid data : Z) : passthru :=
  nvme_init_manage_export_ns cmd NVME_MANAGE_EXPORT_NS_SEL_ASSOCIATE andsf esubidv esubid data
      sizeof_nvme_associate_ns_data.

Definition nvme_init_manage_export_ns_disassociate (cmd : passthru) (esubidv : bool)
    (esubid data : Z) : passthru :=
  nvme_init_manage_export_ns cmd NVME_MANAGE_EXPORT_NS_SEL_DISASSOCIATE 0 esubidv esubid data
      sizeof_nvme_disassociate_ns_data.

Definition nvme_init_manage_export_nvms_send (cmd : passthru) (sel mos mose : Z) (esubidv : bool)
    (esubid data len : Z) : passthru :=
  let cmd := cmd_zero in
  let cmd := set_opcode cmd nvme_admin_manage_export_nvms_send in
  let cmd := set_data_len cmd len in
  let cmd := set_addr cmd (u64 data) in
  let cmd := set_cdw10 cmd
        (NVME_FIELD_ENCODE sel NVME_MANAGE_EXPORT_NVMS_SEND_CDW10_SEL_SHIFT
        NVME_MANAGE_EXPORT_NVMS_SEND_CDW10_SEL_MASK .|
      NVME_FIELD_ENCODE mos NVME_MANAGE_EXPORT_NVMS_SEND_CDW10_MOS_SHIFT
        NVME_MANAGE_EXPORT_NVMS_SEND_CDW10_MOS_MASK .|
      NVME_FIELD_ENCODE mose NVME_MANAGE_EXPORT_NVMS_SEND_CDW10_MOSE_SHIFT
        NVME_MANAGE_EXPORT_NVMS_SEND_CDW10_MOSE_MASK) in
  set_cdw14 cmd
        (NVME_FIELD_ENCODE esubid NVME_MANAGE_EXPORT_NVMS_SEND_CDW14_ESUBID_SHIFT
        NVME_MANAGE_EXPORT_NVMS_SEND_CDW14_ESUBID_MASK .|
      (if esubidv then NVME_MANAGE_EXPORT_NVMS_SEND_CDW14_ESUBIDV else 0)).

Definition nvme_init_manage_export_nvms_send_delete (cmd : passthru) (esubidv : bool)
    (esubid data : Z) : passthru :=
  nvme_init_manage_export_nvms_send cmd NVME_MANAGE_EXPORT_NVMS_SEND_SEL_DELETE 0 0 esubidv esubid
      (if esubidv then 0 else data)
      (u32 (if esubidv then 0 else sizeof_nvme_exported_nvm_subsys_nqn_data)).

Definition nvme_init_manage_export_nvms_send_change_access_mode (cmd : passthru) (ra esubidv : bool)
    (esubid data : Z) : passthru :=
  let mos := if ra then NVME_EXPORT_NVMS_CHANGE_ACCESS_MODE_MOS_RA else 0 in
  nvme_init_manage_export_nvms_send cmd NVME_MANAGE_EXPORT_NVMS_SEND_SEL_CHANGE_ACCESS_MODE mos 0
      esubidv esubid (if esubidv then 0 else data)
      (u32 (if esubidv then 0 else sizeof_nvme_exported_nvm_subsys_nqn_data)).

Definition nvme_init_manage_export_nvms_send_grant_host_access (cmd : passthru)
    (data len : Z) : passthru :=
  nvme_init_manage_export_nvms_send cmd NVME_MANAGE_EXPORT_NVMS_SEND_SEL_GRANT_HOST_ACCESS 0 0 false 0
      data len.

Definition nvme_init_manage_export_nvms_send_revoke_host_access (cmd : passthru)
    (data len : Z) : passthru :=
  nvme_init_manage_export_nvms_send cmd NVME_MANAGE_EXPORT_NVMS_SEND_SEL_REVOKE_HOST_ACCESS 0 0 false 0
      data len.

Definition nvme_init_manage_export_nvms_send_associate_controllers (cmd : passthru)
    (esubid data len : Z) : passthru :=
  nvme_init_manage_export_nvms_send cmd NVME_MANAGE_EXPORT_NVMS_SEND_SEL_ASSOCIATE_CONTROLLERS 0 0 true
      esubid data len.

Definition nvme_init_manage_export_nvms_send_set_config_state (cmd : passthru) (esubidv : bool)
    (esubid data len : Z) : passthru :=
  let cmd := nvme_init_manage_export_nvms_send cmd NVME_MANAGE_EXPORT_NVMS_SEND_SEL_SET_CONFIG_STATE 0 0
      esubidv esubid data len in
  set_cdw15 cmd (u32 (if negb (len =? 0) then (u32 (len - 1)) / 4 else 0)).

Definition nvme_init_lockdown (cmd : passthru) (scp prhbt ifc ofi uidx csel css : Z) : passthru :=
  let cmd := cmd_zero in
  let cmd := set_opcode cmd nvme_admin_lockdown in
  let cmd := set_cdw10 cmd
        (NVME_FIELD_ENCODE ofi NVME_LOCKDOWN_CDW10_OFI_SHIFT NVME_LOCKDOWN_CDW10_OFI_MASK .|
      NVME_FIELD_ENCODE ifc NVME_LOCKDOWN_CDW10_IFC_SHIFT NVME_LOCKDOWN_CDW10_IFC_MASK .|
      NVME_FIELD_ENCODE prhbt NVME_LOCKDOWN_CDW10_PRHBT_SHIFT NVME_LOCKDOWN_CDW10_PRHBT_MASK .|
      NVME_FIELD_ENCODE scp NVME_LOCKDOWN_CDW10_SCP_SHIFT NVME_LOCKDOWN_CDW10_SCP_MASK .|
      NVME_FIELD_ENCODE csel NVME_LOCKDOWN_CDW10_CSEL_SHIFT NVME_LOCKDOWN_CDW10_CSEL_MASK) in
  set_cdw14 cmd (NVME_FIELD_ENCODE uidx NVME_LOCKDOWN_CDW14_UIDX_SHIFT NVME_LOCKDOWN_CDW14_UIDX_MASK .|
      NVME_FIELD_ENCODE css NVME_LOCKDOWN_CDW14_CSS_SHIFT NVME_LOCKDOWN_CDW14_CSS_MASK).

Definition nvme_init_lm_track_send (cmd : passthru) (sel mos cdqid data len : Z) : passthru :=
  let cmd := cmd_zero in
  let cmd := set_opcode cmd nvme_admin_track_send in
  let cmd := set_data_len cmd len in
  let cmd := set_addr cmd (u64 data) in
  let cmd := set_cdw10 cmd
        (NVME_FIELD_ENCODE sel NVME_LM_TRACK_SEND_SEL_SHIFT NVME_LM_TRACK_SEND_SEL_MASK .|
      NVME_FIELD_ENCODE mos NVME_LM_TRACK_SEND_MOS_SHIFT NVME_LM_TRACK_SEND_MOS_MASK) in
  set_cdw11 cmd cdqid.

Definition nvme_init_lm_track_receive (cmd : passthru) (sel cntlid data len : Z) : passthru :=
  let cmd := cmd_zero in
  let cmd := set_opcode cmd nvme_admin_track_receive in
  let cmd := set_addr cmd (u64 data) in
  let cmd := set_data_len cmd len in
  let cmd := set_cdw10 cmd
      (NVME_FIELD_ENCODE sel NVME_LM_TRACK_RECV_SEL_SHIFT NVME_LM_TRACK_RECV_SEL_MASK) in
  let cmd := set_cdw11 cmd
      (NVME_FIELD_ENCODE cntlid NVME_LM_TRACKED_MEMORY_CHANGES_CNTLID_SHIFT
      NVME_LM_TRACKED_MEMORY_CHANGES_CNTLID_MASK) in
  set_cdw12 cmd (if negb (len =? 0) then u32 ((u32 (len - 1)) / 4) else 0).

Definition nvme_init_lm_cdq_create (cmd : passthru) (mos cntlid cdqsize data : Z) : passthru :=
  let cmd := cmd_zero in
  let cqs := u16
      (NVME_FIELD_ENCODE cntlid NVME_LM_CREATE_CDQ_CNTLID_SHIFT NVME_LM_CREATE_CDQ_CNTLID_MASK) in
  let cmd := set_opcode cmd nvme_admin_ctrl_data_queue in
  let cmd := set_data_len cmd (u32 (Z.shiftl cdqsize 2)) in
  let cmd := set_addr cmd (u64 data) in
  let cmd := set_cdw10 cmd
        (NVME_FIELD_ENCODE NVME_LM_SEL_CREATE_CDQ NVME_LM_CDQ_SEL_SHIFT NVME_LM_CDQ_SEL_MASK .|
      NVME_FIELD_ENCODE mos NVME_LM_CDQ_MOS_SHIFT NVME_LM_CDQ_MOS_MASK) in
  let cmd := set_cdw11 cmd
        (NVME_FIELD_ENCODE NVME_LM_CREATE_CDQ_PC NVME_LM_CREATE_CDQ_PC_SHIFT
        NVME_LM_CREATE_CDQ_PC_MASK .|
      NVME_FIELD_ENCODE cqs NVME_LM_CQS_SHIFT NVME_LM_CQS_MASK) in
  set_cdw12 cmd cdqsize.

Definition nvme_init_lm_cdq_delete (cmd : passthru) (mos cdqid : Z) : passthru :=
  let cmd := cmd_zero in
  let cmd := set_opcode cmd nvme_admin_ctrl_data_queue in
  let cmd := set_cdw10 cmd
        (NVME_FIELD_ENCODE NVME_LM_SEL_DELETE_CDQ NVME_LM_CDQ_SEL_SHIFT NVME_LM_CDQ_SEL_MASK .|
      NVME_FIELD_ENCODE mos NVME_LM_CDQ_MOS_SHIFT NVME_LM_CDQ_MOS_MASK) in
  set_cdw11 cmd (NVME_FIELD_ENCODE cdqid NVME_LM_DELETE_CDQ_CDQID_SHIFT NVME_LM_DELETE_CDQ_CDQID_MASK).

Definition nvme_init_format_nvm (cmd : passthru) (nsid lbaf mset pi pil ses : Z) : passthru :=
  let cmd := cmd_zero in
  let cmd := set_opcode cmd nvme_admin_format_nvm in
  let cmd := set_nsid cmd nsid in
  set_cdw10 cmd (NVME_FIELD_ENCODE lbaf NVME_FORMAT_CDW10_LBAFL_SHIFT NVME_FORMAT_CDW10_LBAFL_MASK .|
      NVME_FIELD_ENCODE mset NVME_FORMAT_CDW10_MSET_SHIFT NVME_FORMAT_CDW10_MSET_MASK .|
      NVME_FIELD_ENCODE pi NVME_FORMAT_CDW10_PI_SHIFT NVME_FORMAT_CDW10_PI_MASK .|
      NVME_FIELD_ENCODE pil NVME_FORMAT_CDW10_PIL_SHIFT NVME_FORMAT_CDW10_PIL_MASK .|
      NVME_FIELD_ENCODE ses NVME_FORMAT_CDW10_SES_SHIFT NVME_FORMAT_CDW10_SES_MASK .|
      NVME_FIELD_ENCODE (Z.shiftr lbaf 4) NVME_FORMAT_CDW10_LBAFU_SHIFT NVME_FORMAT_CDW10_LBAFU_MASK).

Definition nvme_init_security_send (cmd : passthru) (nsid nssf spsp secp tl data len : Z) : passthru :=
  let cmd := cmd_zero in
  let cmd := set_opcode cmd nvme_admin_security_send in
  let cmd := set_nsid cmd nsid in
  let cmd := set_data_len cmd len in
  let cmd := set_addr cmd (u64 data) in
  let cmd := set_cdw10 cmd (NVME_FIELD_ENCODE secp NVME_SECURITY_SECP_SHIFT NVME_SECURITY_SECP_MASK .|
      NVME_FIELD_ENCODE spsp NVME_SECURITY_SPSP0_SHIFT NVME_SECURITY_SPSP0_MASK .|
      NVME_FIELD_ENCODE (Z.shiftr spsp 8) NVME_SECURITY_SPSP1_SHIFT NVME_SECURITY_SPSP1_MASK .|
      NVME_FIELD_ENCODE nssf NVME_SECURITY_NSSF_SHIFT NVME_SECURITY_NSSF_MASK) in
  set_cdw11 cmd tl.

Definition nvme_init_security_receive (cmd : passthru)
    (nsid nssf spsp secp al data len : Z) : passthru :=
  let cmd := cmd_zero in
  let cmd := set_opcode cmd nvme_admin_security_recv in
  let cmd := set_nsid cmd nsid in
  let cmd := set_data_len cmd len in
  let cmd := set_addr cmd (u64 data) in
  let cmd := set_cdw10 cmd (NVME_FIELD_ENCODE secp NVME_SECURITY_SECP_SHIFT NVME_SECURITY_SECP_MASK .|
      NVME_FIELD_ENCODE spsp NVME_SECURITY_SPSP0_SHIFT NVME_SECURITY_SPSP0_MASK .|
      NVME_FIELD_ENCODE (Z.shiftr spsp 8) NVME_SECURITY_SPSP1_SHIFT NVME_SECURITY_SPSP1_MASK .|
      NVME_FIELD_ENCODE nssf NVME_SECURITY_NSSF_SHIFT NVME_SECURITY_NSSF_MASK) in
  set_cdw11 cmd al.

Definition nvme_init_sanitize_nvm (cmd : passthru) (sanact : Z) (ause : bool) (owpass : Z)
    (oipbp ndas emvs preq : bool) (ovrpat : Z) : passthru :=
  let cmd := cmd_zero in
  let cmd := set_opcode cmd nvme_admin_sanitize_nvm in
  let cmd := set_cdw10 cmd
        (NVME_FIELD_ENCODE sanact NVME_SANITIZE_CDW10_SANACT_SHIFT NVME_SANITIZE_CDW10_SANACT_MASK .|
      NVME_FIELD_ENCODE (Z.b2z ause) NVME_SANITIZE_CDW10_AUSE_SHIFT NVME_SANITIZE_CDW10_AUSE_MASK .|
      NVME_FIELD_ENCODE owpass NVME_SANITIZE_CDW10_OWPASS_SHIFT NVME_SANITIZE_CDW10_OWPASS_MASK .|
      NVME_FIELD_ENCODE (Z.b2z oipbp) NVME_SANITIZE_CDW10_OIPBP_SHIFT NVME_SANITIZE_CDW10_OIPBP_MASK .|
      NVME_FIELD_ENCODE (Z.b2z ndas) NVME_SANITIZE_CDW10_NDAS_SHIFT NVME_SANITIZE_CDW10_NDAS_MASK .|
      NVME_FIELD_ENCODE (Z.b2z emvs) NVME_SANITIZE_CDW10_EMVS_SHIFT NVME_SANITIZE_CDW10_EMVS_MASK .|
      NVME_FIELD_ENCODE (Z.b2z preq) NVME_SANITIZE_CDW10_PREQ_SHIFT NVME_SANITIZE_CDW10_PREQ_MASK) in
  set_cdw11 cmd ovrpat.

Definition nvme_init_get_lba_status (cmd : passthru) (nsid slba mndw atype rl lbas : Z) : passthru :=
  let cmd := cmd_zero in
  let cmd := set_opcode cmd nvme_admin_get_lba_status in
  let cmd := set_nsid cmd nsid in
  let cmd := set_data_len cmd (u32 (Z.shiftl (u32 (mndw + 1)) 2)) in
  let cmd := set_addr cmd (u64 lbas) in
  let cmd := set_cdw10 cmd (u32 (Z.land slba 0xffffffff)) in
  let cmd := set_cdw11 cmd (u32 (Z.shiftr slba 32)) in
  let cmd := set_cdw12 cmd mndw in
  set_cdw13 cmd
        (NVME_FIELD_ENCODE rl NVME_GET_LBA_STATUS_CDW13_RL_SHIFT NVME_GET_LBA_STATUS_CDW13_RL_MASK .|
      NVME_FIELD_ENCODE atype NVME_GET_LBA_STATUS_CDW13_ATYPE_SHIFT
        NVME_GET_LBA_STATUS_CDW13_ATYPE_MASK).

Definition nvme_init_sanitize_ns (cmd : passthru) (sanact : Z) (ause emvs preq : bool) : passthru :=
  let cmd := cmd_zero in
  let cmd := set_opcode cmd nvme_admin_sanitize_ns in
  set_cdw10 cmd
        (NVME_FIELD_ENCODE sanact NVME_SANITIZE_CDW10_SANACT_SHIFT NVME_SANITIZE_CDW10_SANACT_MASK .|
      NVME_FIELD_ENCODE (Z.b2z ause) NVME_SANITIZE_CDW10_AUSE_SHIFT NVME_SANITIZE_CDW10_AUSE_MASK .|
      NVME_FIELD_ENCODE (Z.b2z emvs) NVME_SANITIZE_CDW10_EMVS_SHIFT NVME_SANITIZE_CDW10_EMVS_MASK .|
      NVME_FIELD_ENCODE (Z.b2z preq) NVME_SANITIZE_NS_CDW10_PREQ_SHIFT
        NVME_SANITIZE_NS_CDW10_PREQ_MASK).

(** ** nvme-cmds-fabrics.h *)

Definition nvme_init_get_log_discovery (cmd : passthru) (lpo log len : Z) : passthru :=
  let cmd := nvme_init_get_log cmd NVME_NSID_NONE NVME_LOG_LID_DISCOVERY NVME_CSI_NVM log len in
  nvme_init_get_log_lpo cmd lpo.

Definition nvme_init_get_log_host_discovery (cmd : passthru) (allhoste : bool)
    (log len : Z) : passthru :=
  let cmd := nvme_init_get_log cmd NVME_NSID_ALL NVME_LOG_LID_HOST_DISCOVERY NVME_CSI_NVM log len in
  set_cdw10 cmd ((cdw10 cmd) .|
      NVME_FIELD_ENCODE (Z.b2z allhoste) NVME_LOG_CDW10_LSP_SHIFT NVME_LOG_CDW10_LSP_MASK).

Definition nvme_init_get_log_ave_discovery (cmd : passthru) (log len : Z) : passthru :=
  nvme_init_get_log cmd NVME_NSID_ALL NVME_LOG_LID_AVE_DISCOVERY NVME_CSI_NVM log len.

Definition nvme_init_get_log_pull_model_ddc_req (cmd : passthru) (log len : Z) : passthru :=
  nvme_init_get_log cmd NVME_NSID_ALL NVME_LOG_LID_PULL_MODEL_DDC_REQ NVME_CSI_NVM log len.

Definition nvme_init_cross_ctrl_reset (cmd : passthru) (icid ciu cirn : Z) : passthru :=
  let cmd := cmd_zero in
  let cmd := set_opcode cmd nvme_admin_cross_ctrl_reset in
  let cmd := set_cdw10 cmd
        (NVME_FIELD_ENCODE icid NVME_CROSS_CTRL_RESET_CDW10_ICID_SHIFT
        NVME_CROSS_CTRL_RESET_CDW10_ICID_MASK .|
      NVME_FIELD_ENCODE ciu NVME_CROSS_CTRL_RESET_CDW10_CIU_SHIFT
        NVME_CROSS_CTRL_RESET_CDW10_CIU_MASK) in
  let cmd := set_cdw12 cmd (u32 cirn) in
  set_cdw13 cmd (u32 (Z.shiftr cirn 32)).

Definition nvme_init_fabric_zoning_lookup (cmd : passthru) (data len : Z) : passthru :=
  let cmd := cmd_zero in
  let cmd := set_opcode cmd nvme_admin_fabric_zoning_lookup in
  let cmd := set_data_len cmd len in
  set_addr cmd (u64 data).

Definition nvme_init_fabric_zoning_receive (cmd : passthru) (zdk zdo : Z) (zdkc : bool)
    (numd data len : Z) : passthru :=
  let cmd := cmd_zero in
  let cmd := set_opcode cmd nvme_admin_fabric_zoning_recv in
  let cmd := set_data_len cmd len in
  let cmd := set_addr cmd (u64 data) in
  let cmd := set_cdw10 cmd zdk in
  let cmd := set_cdw11 cmd zdo in
  set_cdw12 cmd
        (NVME_FIELD_ENCODE numd NVME_FABRIC_ZONING_RECV_CDW12_NUMD_SHIFT
        NVME_FABRIC_ZONING_RECV_CDW12_NUMD_MASK .|
      (if zdkc then NVME_FABRIC_ZONING_RECV_CDW12_ZDKC else 0)).

Definition nvme_init_fabric_zoning_send (cmd : passthru) (zdk zdo : Z) (lf zdkc : bool)
    (numd data len : Z) : passthru :=
  let cmd := cmd_zero in
  let cmd := set_opcode cmd nvme_admin_fabric_zoning_send in
  let cmd := set_data_len cmd len in
  let cmd := set_addr cmd (u64 data) in
  let cmd := set_cdw10 cmd zdk in
  let cmd := set_cdw11 cmd zdo in
  set_cdw12 cmd
        (NVME_FIELD_ENCODE numd NVME_FABRIC_ZONING_SEND_CDW12_NUMD_SHIFT
        NVME_FABRIC_ZONING_SEND_CDW12_NUMD_MASK .|
      (if zdkc then NVME_FABRIC_ZONING_SEND_CDW12_ZDKC else 0) .|
      (u32 (if lf then NVME_FABRIC_ZONING_SEND_CDW12_LF else 0))).

Definition nvme_init_send_discovery_log_page (cmd : passthru)
    (rlps sct sc tlsp tlid ndws tlpo data len : Z) : passthru :=
  let cmd := cmd_zero in
  let cmd := set_opcode cmd nvme_admin_send_disc_log_page in
  let cmd := set_data_len cmd len in
  let cmd := set_addr cmd (u64 data) in
  let cmd := set_cdw10 cmd
        (NVME_FIELD_ENCODE rlps NVME_SDLP_CDW10_RLPS_SHIFT NVME_SDLP_CDW10_RLPS_MASK .|
      NVME_FIELD_ENCODE sct NVME_SDLP_CDW10_SCT_SHIFT NVME_SDLP_CDW10_SCT_MASK .|
      NVME_FIELD_ENCODE sc NVME_SDLP_CDW10_SC_SHIFT NVME_SDLP_CDW10_SC_MASK .|
      NVME_FIELD_ENCODE tlsp NVME_SDLP_CDW10_TLSP_SHIFT NVME_SDLP_CDW10_TLSP_MASK .|
      NVME_FIELD_ENCODE tlid NVME_SDLP_CDW10_TLID_SHIFT NVME_SDLP_CDW10_TLID_MASK) in
  let cmd := set_cdw11 cmd ndws in
  let cmd := set_cdw12 cmd (u32 tlpo) in
  set_cdw13 cmd (u32 (Z.shiftr tlpo 32)).

Definition nvme_init_manage_export_port (cmd : passthru) (sel mos data len : Z) : passthru :=
  let cmd := cmd_zero in
  let cmd := set_opcode cmd nvme_admin_manage_export_port in
  let cmd := set_data_len cmd len in
  let cmd := set_addr cmd (u64 data) in
  set_cdw10 cmd
        (NVME_FIELD_ENCODE sel NVME_MANAGE_EXPORT_PORT_CDW10_SEL_SHIFT
        NVME_MANAGE_EXPORT_PORT_CDW10_SEL_MASK .|
      NVME_FIELD_ENCODE mos NVME_MANAGE_EXPORT_PORT_CDW10_MOS_SHIFT
        NVME_MANAGE_EXPORT_PORT_CDW10_MOS_MASK).

Definition nvme_init_manage_export_port_create (cmd : passthru) (gepid : bool) (data : Z) : passthru :=
  let mos := if gepid then NVME_EXPORT_PORT_CREATE_MOS_GEPID else 0 in
  nvme_init_manage_export_port cmd NVME_MANAGE_EXPORT_PORT_SEL_CREATE mos data
      sizeof_nvme_exported_port_create_data.

Definition nvme_init_manage_export_port_delete (cmd : passthru) (data : Z) : passthru :=
  nvme_init_manage_export_port cmd NVME_MANAGE_EXPORT_PORT_SEL_DELETE 0 data
      sizeof_nvme_exported_port_delete_data.

Definition nvme_init_get_log_lost_host_comm (cmd : passthru) (rae : bool) (log len : Z) : passthru :=
  let cmd := nvme_init_get_log cmd NVME_NSID_ALL NVME_LOG_LID_LOST_HOST_COMMUNICATION NVME_CSI_NVM log
      len in
  set_cdw10 cmd ((cdw10 cmd) .|
      NVME_FIELD_ENCODE (Z.b2z rae) NVME_LOG_CDW10_RAE_SHIFT NVME_LOG_CDW10_RAE_MASK).

Definition nvme_init_auth_send (cmd : passthru) (spsp secp tl data len : Z) : passthru :=
  let cmd := cmd_zero in
  let cmd := set_opcode cmd nvme_admin_fabrics in
  let cmd := set_nsid cmd nvme_fabrics_type_auth_send in
  let cmd := set_data_len cmd len in
  let cmd := set_addr cmd (u64 data) in
  let cmd := set_cdw10 cmd (NVME_FIELD_ENCODE secp NVME_SECURITY_SECP_SHIFT NVME_SECURITY_SECP_MASK .|
      NVME_FIELD_ENCODE spsp NVME_SECURITY_SPSP0_SHIFT NVME_SECURITY_SPSP0_MASK .|
      NVME_FIELD_ENCODE (Z.shiftr spsp 8) NVME_SECURITY_SPSP1_SHIFT NVME_SECURITY_SPSP1_MASK) in
  set_cdw11 cmd tl.

Definition nvme_init_auth_receive (cmd : passthru) (spsp secp al data len : Z) : passthru :=
  let cmd := cmd_zero in
  let cmd := set_opcode cmd nvme_admin_fabrics in
  let cmd := set_nsid cmd nvme_fabrics_type_auth_receive in
  let cmd := set_data_len cmd len in
  let cmd := set_addr cmd (u64 data) in
  let cmd := set_cdw10 cmd (NVME_FIELD_ENCODE secp NVME_SECURITY_SECP_SHIFT NVME_SECURITY_SECP_MASK .|
      NVME_FIELD_ENCODE spsp NVME_SECURITY_SPSP0_SHIFT NVME_SECURITY_SPSP0_MASK .|
      NVME_FIELD_ENCODE (Z.shiftr spsp 8) NVME_SECURITY_SPSP1_SHIFT NVME_SECURITY_SPSP1_MASK) in
  set_cdw11 cmd al.

(** ** nvme-cmds-nvm.h *)

Definition nvme_init_flush (cmd : passthru) (nsid : Z) : passthru :=
  let cmd := cmd_zero in
  let cmd := set_opcode cmd nvme_cmd_flush in
  set_nsid cmd nsid.

Definition nvme_init_cancel (cmd : passthru) (nsid sqid cid acode : Z) : passthru :=
  let cmd := cmd_zero in
  let cmd := set_opcode cmd nvme_cmd_cancel in
  let cmd := set_nsid cmd nsid in
  let cmd := set_cdw10 cmd
        (NVME_FIELD_ENCODE cid NVME_CANCEL_CDW10_CID_SHIFT NVME_CANCEL_CDW10_CID_MASK .|
      NVME_FIELD_ENCODE sqid NVME_CANCEL_CDW10_SQID_SHIFT NVME_CANCEL_CDW10_SQID_MASK) in
  set_cdw11 cmd (NVME_FIELD_ENCODE acode NVME_CANCEL_CDW11_ACODE_SHIFT NVME_CANCEL_CDW11_ACODE_MASK).

Definition nvme_init_io (cmd : passthru)
    (opcode nsid slba data data_len metadata metadata_len : Z) : passthru :=
  let cmd := cmd_zero in
  let cmd := set_opcode cmd opcode in
  let cmd := set_nsid cmd nsid in
  let cmd := set_metadata cmd (u64 metadata) in
  let cmd := set_addr cmd (u64 data) in
  let cmd := set_metadata_len cmd metadata_len in
  let cmd := set_data_len cmd data_len in
  let cmd := set_cdw10 cmd
      (NVME_FIELD_ENCODE slba NVME_IOCS_COMMON_CDW10_SLBAL_SHIFT NVME_IOCS_COMMON_CDW10_SLBAL_MASK) in
  set_cdw11 cmd
      (NVME_FIELD_ENCODE (Z.shiftr slba 32) NVME_IOCS_COMMON_CDW11_SLBAU_SHIFT
      NVME_IOCS_COMMON_CDW11_SLBAU_MASK).

Definition nvme_init_write (cmd : passthru)
    (nsid slba nlb control dspec dsm cev data data_len metadata metadata_len : Z) : passthru :=
  let cmd := nvme_init_io cmd nvme_cmd_write nsid slba data data_len metadata metadata_len in
  let cmd := set_cdw12 cmd
        (NVME_FIELD_ENCODE nlb NVME_IOCS_COMMON_CDW12_NLB_SHIFT NVME_IOCS_COMMON_CDW12_NLB_MASK .|
      NVME_FIELD_ENCODE control NVME_IOCS_COMMON_CDW12_CONTROL_SHIFT
        NVME_IOCS_COMMON_CDW12_CONTROL_MASK) in
  set_cdw13 cmd
        (NVME_FIELD_ENCODE dspec NVME_IOCS_COMMON_CDW13_DSPEC_SHIFT NVME_IOCS_COMMON_CDW13_DSPEC_MASK .|
      NVME_FIELD_ENCODE dsm NVME_IOCS_COMMON_CDW13_DSM_SHIFT NVME_IOCS_COMMON_CDW13_DSM_MASK .|
      NVME_FIELD_ENCODE cev NVME_IOCS_COMMON_CDW13_CEV_SHIFT NVME_IOCS_COMMON_CDW13_CEV_MASK).

Definition nvme_init_read (cmd : passthru)
    (nsid slba nlb control dsm cev data data_len metadata metadata_len : Z) : passthru :=
  let cmd := nvme_init_io cmd nvme_cmd_read nsid slba data data_len metadata metadata_len in
  let cmd := set_cdw12 cmd
        (NVME_FIELD_ENCODE nlb NVME_IOCS_COMMON_CDW12_NLB_SHIFT NVME_IOCS_COMMON_CDW12_NLB_MASK .|
      NVME_FIELD_ENCODE control NVME_IOCS_COMMON_CDW12_CONTROL_SHIFT
        NVME_IOCS_COMMON_CDW12_CONTROL_MASK) in
  set_cdw13 cmd
        (NVME_FIELD_ENCODE dsm NVME_IOCS_COMMON_CDW13_DSM_SHIFT NVME_IOCS_COMMON_CDW13_DSM_MASK .|
      NVME_FIELD_ENCODE cev NVME_IOCS_COMMON_CDW13_CEV_SHIFT NVME_IOCS_COMMON_CDW13_CEV_MASK).

Definition nvme_init_write_uncorrectable (cmd : passthru)
    (nsid slba nlb control dspec : Z) : passthru :=
  let cmd := nvme_init_io cmd nvme_cmd_write_uncor nsid slba 0 0 0 0 in
  let cmd := set_cdw12 cmd
        (NVME_FIELD_ENCODE nlb NVME_IOCS_COMMON_CDW12_NLB_SHIFT NVME_IOCS_COMMON_CDW12_NLB_MASK .|
      NVME_FIELD_ENCODE control NVME_IOCS_COMMON_CDW12_CONTROL_SHIFT
        NVME_IOCS_COMMON_CDW12_CONTROL_MASK) in
  set_cdw13 cmd
      (NVME_FIELD_ENCODE dspec NVME_IOCS_COMMON_CDW13_DSPEC_SHIFT NVME_IOCS_COMMON_CDW13_DSPEC_MASK).

Definition nvme_init_compare (cmd : passthru)
    (nsid slba nlb control cev data data_len metadata metadata_len : Z) : passthru :=
  let cmd := nvme_init_io cmd nvme_cmd_compare nsid slba data data_len metadata metadata_len in
  let cmd := set_cdw12 cmd
        (NVME_FIELD_ENCODE nlb NVME_IOCS_COMMON_CDW12_NLB_SHIFT NVME_IOCS_COMMON_CDW12_NLB_MASK .|
      NVME_FIELD_ENCODE control NVME_IOCS_COMMON_CDW12_CONTROL_SHIFT
        NVME_IOCS_COMMON_CDW12_CONTROL_MASK) in
  set_cdw13 cmd
      (NVME_FIELD_ENCODE cev NVME_IOCS_COMMON_CDW13_CEV_SHIFT NVME_IOCS_COMMON_CDW13_CEV_MASK).

Definition nvme_init_write_zeros (cmd : passthru)
    (nsid slba nlb control dspec dsm cev : Z) : passthru :=
  let cmd := nvme_init_io cmd nvme_cmd_write_zeroes nsid slba 0 0 0 0 in
  let cmd := set_cdw12 cmd
        (NVME_FIELD_ENCODE nlb NVME_IOCS_COMMON_CDW12_NLB_SHIFT NVME_IOCS_COMMON_CDW12_NLB_MASK .|
      NVME_FIELD_ENCODE control NVME_IOCS_COMMON_CDW12_CONTROL_SHIFT
        NVME_IOCS_COMMON_CDW12_CONTROL_MASK) in
  set_cdw13 cmd
        (NVME_FIELD_ENCODE dspec NVME_IOCS_COMMON_CDW13_DSPEC_SHIFT NVME_IOCS_COMMON_CDW13_DSPEC_MASK .|
      NVME_FIELD_ENCODE dsm NVME_IOCS_COMMON_CDW13_DSM_SHIFT NVME_IOCS_COMMON_CDW13_DSM_MASK .|
      NVME_FIELD_ENCODE cev NVME_IOCS_COMMON_CDW13_CEV_SHIFT NVME_IOCS_COMMON_CDW13_CEV_MASK).

Definition nvme_init_dsm (cmd : passthru) (nsid nr idr idw ad data len : Z) : passthru :=
  let cmd := cmd_zero in
  let cmd := set_opcode cmd nvme_cmd_dsm in
  let cmd := set_nsid cmd nsid in
  let cmd := set_data_len cmd len in
  let cmd := set_addr cmd (u64 data) in
  let cmd := set_cdw10 cmd
      (NVME_FIELD_ENCODE (nr - 1) NVME_DSM_CDW10_NR_SHIFT NVME_DSM_CDW10_NR_MASK) in
  set_cdw11 cmd (NVME_FIELD_ENCODE idr NVME_DSM_CDW11_IDR_SHIFT NVME_DSM_CDW11_IDR_MASK .|
      NVME_FIELD_ENCODE idw NVME_DSM_CDW11_IDW_SHIFT NVME_DSM_CDW11_IDW_MASK .|
      NVME_FIELD_ENCODE ad NVME_DSM_CDW11_AD_SHIFT NVME_DSM_CDW11_AD_MASK).

Definition nvme_init_verify (cmd : passthru)
    (nsid slba nlb control cev data data_len metadata metadata_len : Z) : passthru :=
  let cmd := nvme_init_io cmd nvme_cmd_verify nsid slba data data_len metadata metadata_len in
  let cmd := set_cdw12 cmd
        (NVME_FIELD_ENCODE nlb NVME_IOCS_COMMON_CDW12_NLB_SHIFT NVME_IOCS_COMMON_CDW12_NLB_MASK .|
      NVME_FIELD_ENCODE control NVME_IOCS_COMMON_CDW12_CONTROL_SHIFT
        NVME_IOCS_COMMON_CDW12_CONTROL_MASK) in
  set_cdw13 cmd
      (NVME_FIELD_ENCODE cev NVME_IOCS_COMMON_CDW13_CEV_SHIFT NVME_IOCS_COMMON_CDW13_CEV_MASK).

Definition nvme_init_resv_report (cmd : passthru) (nsid : Z) (eds disnsrs : bool)
    (report len : Z) : passthru :=
  let cmd := cmd_zero in
  let cmd := set_opcode cmd nvme_cmd_resv_report in
  let cmd := set_nsid cmd nsid in
  let cmd := set_data_len cmd len in
  let cmd := set_addr cmd (u64 report) in
  let cmd := set_cdw10 cmd (u32 ((Z.shiftr len 2) - 1)) in
  set_cdw11 cmd
        (NVME_FIELD_ENCODE (Z.b2z eds) NVME_RESV_REPORT_CDW11_EDS_SHIFT
        NVME_RESV_REPORT_CDW11_EDS_MASK .|
      NVME_FIELD_ENCODE (Z.b2z disnsrs) NVME_RESV_REPORT_CDW11_DISNSRS_SHIFT
        NVME_RESV_REPORT_CDW11_DISNSRS_MASK).

Definition nvme_init_io_mgmt_recv (cmd : passthru) (nsid mo mos data len : Z) : passthru :=
  let cmd := cmd_zero in
  let cmd := set_opcode cmd nvme_cmd_io_mgmt_recv in
  let cmd := set_nsid cmd nsid in
  let cmd := set_data_len cmd len in
  let cmd := set_addr cmd (u64 data) in
  let cmd := set_cdw10 cmd
        (NVME_FIELD_ENCODE mo NVME_IO_MGMT_RECV_CDW10_MO_SHIFT NVME_IO_MGMT_RECV_CDW10_MO_MASK .|
      NVME_FIELD_ENCODE mos NVME_IO_MGMT_RECV_CDW10_MOS_SHIFT NVME_IO_MGMT_RECV_CDW10_MOS_MASK) in
  set_cdw11 cmd (u32 ((Z.shiftr len 2) - 1)).

Definition nvme_init_fdp_reclaim_unit_handle_status (cmd : passthru) (nsid data len : Z) : passthru :=
  nvme_init_io_mgmt_recv cmd nsid NVME_IO_MGMT_RECV_RUH_STATUS 0 data len.

Definition nvme_init_io_mgmt_send (cmd : passthru) (nsid mo mos data len : Z) : passthru :=
  let cmd := cmd_zero in
  let cmd := set_opcode cmd nvme_cmd_io_mgmt_send in
  let cmd := set_nsid cmd nsid in
  let cmd := set_data_len cmd len in
  let cmd := set_addr cmd (u64 data) in
  set_cdw10 cmd
        (NVME_FIELD_ENCODE mo NVME_IO_MGMT_SEND_CDW10_MO_SHIFT NVME_IO_MGMT_SEND_CDW10_MO_MASK .|
      NVME_FIELD_ENCODE mos NVME_IO_MGMT_SEND_CDW10_MOS_SHIFT NVME_IO_MGMT_SEND_CDW10_MOS_MASK).

Definition nvme_init_fdp_reclaim_unit_handle_update (cmd : passthru) (nsid pids npids : Z) : passthru :=
  let mos := u16 (u32 (npids - 1)) in
  let len := u32 (u64 (npids * 2)) in
  nvme_init_io_mgmt_send cmd nsid NVME_IO_MGMT_SEND_RUH_UPDATE mos pids len.

Definition nvme_init_app_tag (cmd : passthru) (lbat lbatm : Z) : passthru :=
  set_cdw15 cmd
        (NVME_FIELD_ENCODE lbat NVME_IOCS_COMMON_CDW15_ELBAT_SHIFT NVME_IOCS_COMMON_CDW15_ELBAT_MASK .|
      NVME_FIELD_ENCODE lbatm NVME_IOCS_COMMON_CDW15_ELBATM_SHIFT NVME_IOCS_COMMON_CDW15_ELBATM_MASK).

(** ** nvme-cmds-zns.h *)

Definition nvme_init_get_log_zns_changed_zones (cmd : passthru) (nsid log : Z) : passthru :=
  nvme_init_get_log cmd nsid NVME_LOG_LID_ZNS_CHANGED_ZONES NVME_CSI_ZNS log
      sizeof_nvme_zns_changed_zone_log.

Definition nvme_init_zns_identify_ns (cmd : passthru) (nsid data : Z) : passthru :=
  nvme_init_identify cmd nsid NVME_CSI_ZNS NVME_IDENTIFY_CNS_CSI_NS data sizeof_nvme_zns_id_ns.

Definition nvme_init_zns_identify_ctrl (cmd : passthru) (id : Z) : passthru :=
  nvme_init_identify cmd NVME_NSID_NONE NVME_CSI_ZNS NVME_IDENTIFY_CNS_CSI_CTRL id
      sizeof_nvme_zns_id_ctrl.

Definition nvme_init_zns_mgmt_send (cmd : passthru) (nsid slba zsa : Z) (selall : bool)
    (zsaso zm data len : Z) : passthru :=
  let cmd := cmd_zero in
  let cmd := set_opcode cmd nvme_zns_cmd_mgmt_send in
  let cmd := set_nsid cmd nsid in
  let cmd := set_data_len cmd len in
  let cmd := set_addr cmd (u64 data) in
  let cmd := set_cdw10 cmd (u32 (Z.land slba 0xffffffff)) in
  let cmd := set_cdw11 cmd (u32 (Z.shiftr slba 32)) in
  set_cdw13 cmd (NVME_FIELD_ENCODE zsa NVME_ZNS_MGMT_SEND_ZSA_SHIFT NVME_ZNS_MGMT_SEND_ZSA_MASK .|
      NVME_FIELD_ENCODE (Z.b2z selall) NVME_ZNS_MGMT_SEND_SEL_SHIFT NVME_ZNS_MGMT_SEND_SEL_MASK .|
      NVME_FIELD_ENCODE zsaso NVME_ZNS_MGMT_SEND_ZSASO_SHIFT NVME_ZNS_MGMT_SEND_ZSASO_MASK .|
      NVME_FIELD_ENCODE zm NVME_ZNS_MGMT_SEND_ZM_SHIFT NVME_ZNS_MGMT_SEND_ZM_MASK).

Definition nvme_init_zns_mgmt_recv (cmd : passthru) (nsid slba zra zras : Z) (zraspf : bool)
    (data len : Z) : passthru :=
  let cmd := cmd_zero in
  let cmd := set_opcode cmd nvme_zns_cmd_mgmt_recv in
  let cmd := set_nsid cmd nsid in
  let cmd := set_data_len cmd len in
  let cmd := set_addr cmd (u64 data) in
  let cmd := set_cdw10 cmd (u32 (Z.land slba 0xffffffff)) in
  let cmd := set_cdw11 cmd (u32 (Z.shiftr slba 32)) in
  let cmd := set_cdw12 cmd (u32 ((Z.shiftr len 2) - 1)) in
  set_cdw13 cmd (NVME_FIELD_ENCODE zra NVME_ZNS_MGMT_RECV_ZRA_SHIFT NVME_ZNS_MGMT_RECV_ZRA_MASK .|
      NVME_FIELD_ENCODE zras NVME_ZNS_MGMT_RECV_ZRAS_SHIFT NVME_ZNS_MGMT_RECV_ZRAS_MASK .|
      NVME_FIELD_ENCODE (Z.b2z zraspf) NVME_ZNS_MGMT_RECV_ZRASPF_SHIFT NVME_ZNS_MGMT_RECV_ZRASPF_MASK).

Definition nvme_init_zns_report_zones (cmd : passthru) (nsid slba opts : Z) (extended partial : bool)
    (data len : Z) : passthru :=
  let zra := if extended then NVME_ZNS_ZRA_EXTENDED_REPORT_ZONES else NVME_ZNS_ZRA_REPORT_ZONES in
  let zras := u16 opts in
  let zraspf := partial in
  nvme_init_zns_mgmt_recv cmd nsid slba zra zras zraspf data len.

(** ** nvme-cmds-mi.h *)

Definition nvme_init_get_log_mi_cmd_supported_effects (cmd : passthru) (log : Z) : passthru :=
  nvme_init_get_log cmd NVME_NSID_NONE NVME_LOG_LID_MI_CMD_SUPPORTED_EFFECTS NVME_CSI_NVM log
      sizeof_nvme_mi_cmd_supported_effects_log.

Definition nvme_init_mi_cmd_flags (cmd : passthru) (ish : bool) : passthru :=
  set_flags cmd
      (u8 (NVME_FIELD_ENCODE (Z.b2z ish) NVME_MI_ADMIN_CFLAGS_ISH_SHIFT NVME_MI_ADMIN_CFLAGS_ISH_MASK)).

(** ** Builders with branches, errors or a payload *)

Definition nvme_init_set_features_voltage_measurement (cmd : passthru) (sv : bool) (act data : Z) : passthru :=
  let cmd := nvme_init_set_features cmd NVME_FEAT_FID_VOLTAGE_MEASUREMENT sv in
  let cmd := set_cdw11 cmd (NVME_FIELD_ENCODE act NVME_FEAT_VOLTAGE_MEASUREMENT_ACT_SHIFT
      NVME_FEAT_VOLTAGE_MEASUREMENT_ACT_MASK) in
  if (act =? NVME_VOLTAGE_MEASUREMENT_ACT_START) && negb (data =? 0) then
    let cmd := set_data_len cmd sizeof_nvme_voltage_measurement_start_data in
    set_addr cmd (u64 data)
  else cmd.

(** The bytes of the little-endian integers a payload is made of. *)
Fixpoint le_bytes (n : nat) (v : Z) : list Z :=
  match n with O => [] | S n' => v mod 256 :: le_bytes n' (v / 256) end.

(** The command, and the bytes of [ts]. *)
Definition nvme_init_set_features_timestamp (cmd : passthru) (sv : bool) (tstmp ts : Z) : passthru * list Z :=
  let cmd := nvme_init_set_features cmd NVME_FEAT_FID_TIMESTAMP sv in
  let cmd := set_data_len cmd sizeof_nvme_timestamp in
  (set_addr cmd (u64 ts), le_bytes 8 tstmp).

Definition nvme_init_fw_download (cmd : passthru) (data len offset : Z) : result passthru :=
  if negb (Z.land len 0x3 =? 0) || (len =? 0) then Err EINVAL
  else if negb (Z.land offset 0x3 =? 0) then Err EINVAL
  else
    let cmd := cmd_zero in
    let cmd := set_opcode cmd nvme_admin_fw_download in
    let cmd := set_data_len cmd len in
    let cmd := set_addr cmd (u64 data) in
    let cmd := set_cdw10 cmd (u32 (Z.shiftr len 2 - 1)) in
    Ok (set_cdw11 cmd (Z.shiftr offset 2)).

Definition nvme_init_directive_recv_stream_status (cmd : passthru) (nsid nr_entries id : Z) : result passthru :=
  if NVME_STREAM_ID_MAX <? nr_entries then Err EINVAL
  else Ok (nvme_init_directive_recv cmd nsid NVME_DIRECTIVE_RECEIVE_STREAMS_DOPER_STATUS
             NVME_DIRECTIVE_DTYPE_STREAMS 0 id
             (u32 (u64 (sizeof_nvme_streams_directive_status + u64 (nr_entries * 2))))).

Definition nvme_init_lm_migration_send (cmd : passthru) (sel mos cntlid stype : Z) (dudmq : bool)
    (csvi csuuidi cso uidx data len : Z) : passthru :=
  let cdw10 := NVME_FIELD_ENCODE sel NVME_LM_MIGRATION_SEND_SEL_SHIFT NVME_LM_MIGRATION_SEND_SEL_MASK .|
      NVME_FIELD_ENCODE mos NVME_LM_MIGRATION_SEND_MOS_SHIFT NVME_LM_MIGRATION_SEND_MOS_MASK in
  let cdw14 := NVME_FIELD_ENCODE uidx NVME_LM_MIGRATION_SEND_UIDX_SHIFT NVME_LM_MIGRATION_SEND_UIDX_MASK in
  let cdw11 :=
    if sel =? NVME_LM_SEL_SUSPEND then
      let cdw11 := NVME_FIELD_ENCODE stype NVME_LM_STYPE_SHIFT NVME_LM_STYPE_MASK .|
          NVME_FIELD_ENCODE cntlid NVME_LM_SUSPEND_CNTLID_SHIFT NVME_LM_SUSPEND_CNTLID_MASK in
      if dudmq then cdw11 .| u32 NVME_LM_DUDMQ else cdw11
    else if sel =? NVME_LM_SEL_RESUME then
      NVME_FIELD_ENCODE cntlid NVME_LM_RESUME_CNTLID_SHIFT NVME_LM_RESUME_CNTLID_MASK
    else if sel =? NVME_LM_SEL_SET_CONTROLLER_STATE then
      NVME_FIELD_ENCODE csuuidi NVME_LM_SET_CONTROLLER_STATE_CSUUIDI_SHIFT
        NVME_LM_SET_CONTROLLER_STATE_CSUUIDI_MASK .|
      NVME_FIELD_ENCODE csvi NVME_LM_SET_CONTROLLER_STATE_CSVI_SHIFT
        NVME_LM_SET_CONTROLLER_STATE_CSVI_MASK .|
      NVME_FIELD_ENCODE cntlid NVME_LM_SET_CONTROLLER_STATE_CNTLID_SHIFT
        NVME_LM_SET_CONTROLLER_STATE_CNTLID_MASK
    else 0 in
  let cmd := cmd_zero in
  let cmd := set_opcode cmd nvme_admin_migration_send in
  let cmd := set_data_len cmd len in
  let cmd := set_addr cmd (u64 data) in
  let cmd := set_cdw10 cmd cdw10 in
  let cmd := set_cdw11 cmd cdw11 in
  let cmd := set_cdw12 cmd (u32 cso) in
  let cmd := set_cdw13 cmd (u32 (Z.shiftr cso 32)) in
  let cmd := set_cdw14 cmd cdw14 in
  set_cdw15 cmd (u32 (len / 4)).

Definition nvme_init_lm_migration_recv (cmd : passthru) (offset mos cntlid csuuidi sel uidx csuidxp data
    len : Z) : passthru :=
  let '(cdw11, data_len) :=
    if sel =? NVME_LM_SEL_GET_CONTROLLER_STATE then
      (NVME_FIELD_ENCODE csuidxp NVME_LM_GET_CONTROLLER_STATE_CSUIDXP_SHIFT
         NVME_LM_GET_CONTROLLER_STATE_CSUIDXP_MASK .|
       NVME_FIELD_ENCODE csuuidi NVME_LM_GET_CONTROLLER_STATE_CSUUIDI_SHIFT
         NVME_LM_GET_CONTROLLER_STATE_CSUUIDI_MASK .|
       NVME_FIELD_ENCODE cntlid NVME_LM_GET_CONTROLLER_STATE_CNTLID_SHIFT
         NVME_LM_GET_CONTROLLER_STATE_CNTLID_MASK, len)
    else (0, 0) in
  let cmd := cmd_zero in
  let cmd := set_opcode cmd nvme_admin_migration_receive in
  let cmd := set_data_len cmd data_len in
  let cmd := set_addr cmd (u64 data) in
  let cmd := set_cdw10 cmd
      (NVME_FIELD_ENCODE sel NVME_LM_MIGRATION_RECV_SEL_SHIFT NVME_LM_MIGRATION_RECV_SEL_MASK .|
       NVME_FIELD_ENCODE mos NVME_LM_MIGRATION_RECV_MOS_SHIFT NVME_LM_MIGRATION_RECV_MOS_MASK) in
  let cmd := set_cdw11 cmd cdw11 in
  let cmd := set_cdw12 cmd (u32 offset) in
  let cmd := set_cdw13 cmd (u32 (Z.shiftr offset 32)) in
  let cmd := set_cdw14 cmd
      (NVME_FIELD_ENCODE uidx NVME_LM_MIGRATION_RECV_UIDX_SHIFT NVME_LM_MIGRATION_RECV_UIDX_MASK) in
  set_cdw15 cmd (if negb (len =? 0) then u32 (u32 (len - 1) / 4) else 0).

Definition nvme_init_get_log_cross_ctrl_reset (cmd : passthru) (rmc : bool) (log len : Z) : passthru :=
  let cmd := nvme_init_get_log cmd NVME_NSID_ALL NVME_LOG_LID_CROSS_CTRL_RESET NVME_CSI_NVM log len in
  if rmc then
    set_cdw10 cmd (cdw10 cmd .|
      NVME_FIELD_ENCODE NVME_CROSS_CTRL_RESET_LSP_RMC NVME_LOG_CDW10_LSP_SHIFT NVME_LOG_CDW10_LSP_MASK)
  else cmd.

Definition nvme_is_64bit_reg (offset : Z) : bool :=
  (offset =? NVME_REG_CAP) || (offset =? NVME_REG_ASQ) || (offset =? NVME_REG_ACQ) ||
  (offset =? NVME_REG_BPMBL) || (offset =? NVME_REG_CMBMSC).

Definition nvme_init_set_property (cmd : passthru) (offset value : Z) : passthru :=
  let cmd := cmd_zero in
  let cmd := set_opcode cmd nvme_admin_fabrics in
  let cmd := set_nsid cmd nvme_fabrics_type_property_set in
  let cmd := set_cdw10 cmd (Z.b2z (nvme_is_64bit_reg offset)) in
  let cmd := set_cdw11 cmd offset in
  let cmd := set_cdw12 cmd (u32 (Z.land value 0xffffffff)) in
  set_cdw13 cmd (u32 (Z.shiftr value 32)).

Definition nvme_init_get_property (cmd : passthru) (offset : Z) : passthru :=
  let cmd := cmd_zero in
  let cmd := set_opcode cmd nvme_admin_fabrics in
  let cmd := set_nsid cmd nvme_fabrics_type_property_get in
  let cmd := set_cdw10 cmd (Z.b2z (nvme_is_64bit_reg offset)) in
  set_cdw11 cmd offset.

(** The command, and the bytes of the payload. *)
Definition nvme_init_resv_register (cmd : passthru) (nsid rrega : Z) (iekey disnsrs : bool)
    (cptpl crkey nrkey payload : Z) : passthru * list Z :=
  let cmd := cmd_zero in
  let cmd := set_opcode cmd nvme_cmd_resv_register in
  let cmd := set_nsid cmd nsid in
  let cmd := set_data_len cmd (2 * 8) in
  let cmd := set_addr cmd (u64 payload) in
  let cmd := set_cdw10 cmd
      (NVME_FIELD_ENCODE rrega NVME_RESV_REGISTER_CDW10_RREGA_SHIFT NVME_RESV_REGISTER_CDW10_RREGA_MASK .|
       NVME_FIELD_ENCODE (Z.b2z iekey) NVME_RESV_REGISTER_CDW10_IEKEY_SHIFT
         NVME_RESV_REGISTER_CDW10_IEKEY_MASK .|
       NVME_FIELD_ENCODE (Z.b2z disnsrs) NVME_RESV_REGISTER_CDW10_DISNSRS_SHIFT
         NVME_RESV_REGISTER_CDW10_DISNSRS_MASK .|
       NVME_FIELD_ENCODE cptpl NVME_RESV_REGISTER_CDW10_CPTPL_SHIFT
         NVME_RESV_REGISTER_CDW10_CPTPL_MASK) in
  (cmd, le_bytes 8 crkey ++ le_bytes 8 nrkey).

Definition nvme_init_resv_acquire (cmd : passthru) (nsid racqa : Z) (iekey disnsrs : bool)
    (rtype crkey prkey payload : Z) : passthru * list Z :=
  let cmd := cmd_zero in
  let cmd := set_opcode cmd nvme_cmd_resv_acquire in
  let cmd := set_nsid cmd nsid in
  let cmd := set_data_len cmd (2 * 8) in
  let cmd := set_addr cmd (u64 payload) in
  let cmd := set_cdw10 cmd
      (NVME_FIELD_ENCODE racqa NVME_RESV_ACQUIRE_CDW10_RACQA_SHIFT NVME_RESV_ACQUIRE_CDW10_RACQA_MASK .|
       NVME_FIELD_ENCODE (Z.b2z iekey) NVME_RESV_ACQUIRE_CDW10_IEKEY_SHIFT
         NVME_RESV_ACQUIRE_CDW10_IEKEY_MASK .|
       NVME_FIELD_ENCODE (Z.b2z disnsrs) NVME_RESV_ACQUIRE_CDW10_DISNSRS_SHIFT
         NVME_RESV_ACQUIRE_CDW10_DISNSRS_MASK .|
       NVME_FIELD_ENCODE rtype NVME_RESV_ACQUIRE_CDW10_RTYPE_SHIFT
         NVME_RESV_ACQUIRE_CDW10_RTYPE_MASK) in
  (cmd, le_bytes 8 crkey ++ le_bytes 8 prkey).

Definition nvme_init_resv_release (cmd : passthru) (nsid rrela : Z) (iekey disnsrs : bool)
    (rtype crkey payload : Z) : passthru * list Z :=
  let cmd := cmd_zero in
  let cmd := set_opcode cmd nvme_cmd_resv_release in
  let cmd := set_nsid cmd nsid in
  let cmd := set_data_len cmd 8 in
  let cmd := set_addr cmd (u64 payload) in
  let cmd := set_cdw10 cmd
      (NVME_FIELD_ENCODE rrela NVME_RESV_RELEASE_CDW10_RRELA_SHIFT NVME_RESV_RELEASE_CDW10_RRELA_MASK .|
       NVME_FIELD_ENCODE (Z.b2z iekey) NVME_RESV_RELEASE_CDW10_IEKEY_SHIFT
         NVME_RESV_RELEASE_CDW10_IEKEY_MASK .|
       NVME_FIELD_ENCODE (Z.b2z disnsrs) NVME_RESV_RELEASE_CDW10_DISNSRS_SHIFT
         NVME_RESV_RELEASE_CDW10_DISNSRS_MASK .|
       NVME_FIELD_ENCODE rtype NVME_RESV_RELEASE_CDW10_RTYPE_SHIFT
         NVME_RESV_RELEASE_CDW10_RTYPE_MASK) in
  (cmd, le_bytes 8 crkey).

Definition nvme_init_copy (cmd : passthru) (nsid sdlba nr desfmt prinfor prinfow cetype dtype : Z)
    (stcw stcr fua lr : bool) (cev dspec cpydsc : Z) : passthru :=
  let data_len :=
    if desfmt =? 1 then u32 (u64 (nr * sizeof_nvme_copy_range_f1))
    else if desfmt =? 2 then u32 (u64 (nr * sizeof_nvme_copy_range_f2))
    else if desfmt =? 3 then u32 (u64 (nr * sizeof_nvme_copy_range_f3))
    else u32 (u64 (nr * sizeof_nvme_copy_range_f0)) in
  let cmd := nvme_init_io cmd nvme_cmd_copy nsid sdlba cpydsc data_len 0 0 in
  let cmd := set_cdw12 cmd
      (NVME_FIELD_ENCODE (nr - 1) NVME_COPY_CDW12_NR_SHIFT NVME_COPY_CDW12_NR_MASK .|
       NVME_FIELD_ENCODE desfmt NVME_COPY_CDW12_DESFMT_SHIFT NVME_COPY_CDW12_DESFMT_MASK .|
       NVME_FIELD_ENCODE prinfor NVME_COPY_CDW12_PRINFOR_SHIFT NVME_COPY_CDW12_PRINFOR_MASK .|
       NVME_FIELD_ENCODE cetype NVME_COPY_CDW12_CETYPE_SHIFT NVME_COPY_CDW12_CETYPE_MASK .|
       NVME_FIELD_ENCODE dtype NVME_COPY_CDW12_DTYPE_SHIFT NVME_COPY_CDW12_DTYPE_MASK .|
       NVME_FIELD_ENCODE (Z.b2z stcw) NVME_COPY_CDW12_STCW_SHIFT NVME_COPY_CDW12_STCW_MASK .|
       NVME_FIELD_ENCODE (Z.b2z stcr) NVME_COPY_CDW12_STCR_SHIFT NVME_COPY_CDW12_STCR_MASK .|
       NVME_FIELD_ENCODE prinfow NVME_COPY_CDW12_PRINFOW_SHIFT NVME_COPY_CDW12_PRINFOW_MASK .|
       NVME_FIELD_ENCODE (Z.b2z fua) NVME_COPY_CDW12_FUA_SHIFT NVME_COPY_CDW12_FUA_MASK .|
       NVME_FIELD_ENCODE (Z.b2z lr) NVME_COPY_CDW12_LR_SHIFT NVME_COPY_CDW12_LR_MASK) in
  set_cdw13 cmd
    (NVME_FIELD_ENCODE cev NVME_IOCS_COMMON_CDW13_CEV_SHIFT NVME_IOCS_COMMON_CDW13_CEV_MASK .|
     NVME_FIELD_ENCODE dspec NVME_IOCS_COMMON_CDW13_DSPEC_SHIFT NVME_IOCS_COMMON_CDW13_DSPEC_MASK).

(** The dwords 2, 3 and 14 of the tags, or -EINVAL. *)
Definition var_size_tags (pif sts reftag storage_tag : Z) : result (Z * Z * Z) :=
  let elbtl v := NVME_FIELD_ENCODE v NVME_IOCS_COMMON_CDW14_ELBTL_SHIFT NVME_IOCS_COMMON_CDW14_ELBTL_MASK in
  let elbtu3 v := NVME_FIELD_ENCODE v NVME_IOCS_COMMON_CDW3_ELBTU_SHIFT NVME_IOCS_COMMON_CDW3_ELBTU_MASK in
  let elbtu2 v := NVME_FIELD_ENCODE v NVME_IOCS_COMMON_CDW2_ELBTU_SHIFT NVME_IOCS_COMMON_CDW2_ELBTU_MASK in
  if pif =? NVME_NVM_PIF_16B_GUARD then
    if 32 <? sts then Err EINVAL
    else
      let cdw14 := elbtl reftag in
      let cdw14 := cdw14 .| elbtl (u64 (Z.shiftl storage_tag (32 - sts))) in
      Ok (0, 0, cdw14)
  else if pif =? NVME_NVM_PIF_32B_GUARD then
    if (sts <? 16) || (64 <? sts) then Err EINVAL
    else
      let cdw14 := elbtl reftag in
      let cdw3 := elbtu3 (Z.shiftr reftag 32) in
      let cdw14 := if 16 <? sts
        then cdw14 .| elbtl (Z.land (u64 (Z.shiftl storage_tag (80 - sts))) 0xffff0000) else cdw14 in
      let cdw3 := if 48 <=? sts
        then cdw3 .| elbtu3 (Z.shiftr storage_tag (sts - 48))
        else cdw3 .| elbtu3 (u64 (Z.shiftl storage_tag (48 - sts))) in
      let cdw2 := elbtu2 (Z.shiftr storage_tag (sts - 16)) in
      Ok (cdw2, cdw3, cdw14)
  else if pif =? NVME_NVM_PIF_64B_GUARD then
    if 48 <? sts then Err EINVAL
    else
      let cdw14 := elbtl reftag in
      let cdw3 := elbtu3 (Z.land (Z.shiftr reftag 32) 0xffff) in
      let cdw14 := cdw14 .| elbtl (u64 (Z.shiftl storage_tag (48 - sts))) in
      let cdw3 := if 16 <=? sts
        then cdw3 .| elbtu3 (Z.land (Z.shiftr storage_tag (sts - 16)) 0xffff)
        else cdw3 .| elbtu3 (Z.land (u64 (Z.shiftl storage_tag (16 - sts))) 0xffff) in
      Ok (0, cdw3, cdw14)
  else Err EINVAL.

Definition nvme_init_var_size_tags (cmd : passthru) (pif sts reftag storage_tag : Z) : result passthru :=
  '(cdw2, cdw3, cdw14) ← var_size_tags pif sts reftag storage_tag;
  Ok (set_cdw14 (set_cdw3 (set_cdw2 cmd cdw2) cdw3) cdw14).

Definition nvme_init_zns_append (cmd : passthru) (nsid zslba nlb control cev dspec data data_len metadata
    metadata_len : Z) : passthru :=
  let cmd := cmd_zero in
  let cmd := set_opcode cmd nvme_zns_cmd_append in
  let cmd := set_nsid cmd nsid in
  let cmd := set_metadata cmd (u64 metadata) in
  let cmd := set_addr cmd (u64 data) in
  let cmd := set_metadata_len cmd metadata_len in
  let cmd := set_data_len cmd data_len in
  let cmd := set_cdw10 cmd
      (NVME_FIELD_ENCODE zslba NVME_IOCS_COMMON_CDW10_SLBAL_SHIFT NVME_IOCS_COMMON_CDW10_SLBAL_MASK) in
  let cmd := set_cdw11 cmd (NVME_FIELD_ENCODE (Z.shiftr zslba 32) NVME_IOCS_COMMON_CDW11_SLBAU_SHIFT
      NVME_IOCS_COMMON_CDW11_SLBAU_MASK) in
  let cmd := set_cdw12 cmd
      (NVME_FIELD_ENCODE nlb NVME_IOCS_COMMON_CDW12_NLB_SHIFT NVME_IOCS_COMMON_CDW12_NLB_MASK .|
       NVME_FIELD_ENCODE control NVME_IOCS_COMMON_CDW12_CONTROL_SHIFT
         NVME_IOCS_COMMON_CDW12_CONTROL_MASK) in
  let cmd := set_cdw13 cmd
      (NVME_FIELD_ENCODE dspec NVME_IOCS_COMMON_CDW13_DSPEC_SHIFT NVME_IOCS_COMMON_CDW13_DSPEC_MASK) in
  if negb (Z.land control NVME_IOCS_COMMON_CDW12_CETYPE_MASK =? 0) then
    set_cdw13 cmd (cdw13 cmd .|
      NVME_FIELD_ENCODE cev NVME_IOCS_COMMON_CDW13_CEV_SHIFT NVME_IOCS_COMMON_CDW13_CEV_MASK)
  else cmd.
