(* ===== verification/CommandsWf.v ===== *)
(** * Every command is well-formed

    A command is built by a sequence of calls of builders, which start from
    any contents of the command or change it: [build] has one rule for each
    builder, with the widths of the types of its arguments. *)

From stdpp Require Import base list numbers relations.
From S2P Require Import Prelude.
From S2P Require Import Passthru.
From S2P Require Import NvmeConst.
From S2P Require Import Commands.

Inductive build : libnvme_passthru_cmd → libnvme_passthru_cmd → Prop :=
| b_get_log_lpo cmd lpo : in_width 64 lpo → build cmd (nvme_init_get_log_lpo cmd lpo)
| b_get_log cmd nsid lid csi data len : in_width 32 nsid → in_width 32 lid → in_width 32 csi →
    in_width 32 len → build cmd (nvme_init_get_log cmd nsid lid csi data len)
| b_get_log_supported_log_pages cmd csi log : in_width 32 csi → build cmd
    (nvme_init_get_log_supported_log_pages cmd csi log)
| b_get_log_error cmd nr_entries err_log : in_width 32 nr_entries → build cmd
    (nvme_init_get_log_error cmd nr_entries err_log)
| b_get_log_smart cmd nsid smart_log : in_width 32 nsid → build cmd (nvme_init_get_log_smart cmd
    nsid smart_log)
| b_get_log_fw_slot cmd fw_log : build cmd (nvme_init_get_log_fw_slot cmd fw_log)
| b_get_log_changed_ns cmd ns_log : build cmd (nvme_init_get_log_changed_ns cmd ns_log)
| b_get_log_cmd_effects cmd csi effects_log : in_width 32 csi → build cmd
    (nvme_init_get_log_cmd_effects cmd csi effects_log)
| b_get_log_device_self_test cmd log : build cmd (nvme_init_get_log_device_self_test cmd log)
| b_get_log_telemetry_host cmd lpo log len : in_width 64 lpo → in_width 32 len → build cmd
    (nvme_init_get_log_telemetry_host cmd lpo log len)
| b_get_log_create_telemetry_host_mcda cmd mcda log : in_width 32 mcda → build cmd
    (nvme_init_get_log_create_telemetry_host_mcda cmd mcda log)
| b_get_log_create_telemetry_host cmd log : build cmd (nvme_init_get_log_create_telemetry_host cmd
    log)
| b_get_log_telemetry_ctrl cmd lpo log len : in_width 64 lpo → in_width 32 len → build cmd
    (nvme_init_get_log_telemetry_ctrl cmd lpo log len)
| b_get_log_endurance_group cmd endgid log : in_width 16 endgid → build cmd
    (nvme_init_get_log_endurance_group cmd endgid log)
| b_get_log_predictable_lat_nvmset cmd nvmsetid log : in_width 16 nvmsetid → build cmd
    (nvme_init_get_log_predictable_lat_nvmset cmd nvmsetid log)
| b_get_log_predictable_lat_event cmd lpo log len : in_width 64 lpo → in_width 32 len → build cmd
    (nvme_init_get_log_predictable_lat_event cmd lpo log len)
| b_get_log_ana cmd lsp lpo log len : in_width 32 lsp → in_width 64 lpo → in_width 32 len → build
    cmd (nvme_init_get_log_ana cmd lsp lpo log len)
| b_get_log_ana_groups cmd log len : in_width 32 len → build cmd (nvme_init_get_log_ana_groups cmd
    log len)
| b_get_log_persistent_event cmd action pevent_log len : in_width 32 action → in_width 32 len →
    build cmd (nvme_init_get_log_persistent_event cmd action pevent_log len)
| b_get_log_lba_status cmd lpo log len : in_width 64 lpo → in_width 32 len → build cmd
    (nvme_init_get_log_lba_status cmd lpo log len)
| b_get_log_endurance_grp_evt cmd lpo log len : in_width 64 lpo → in_width 32 len → build cmd
    (nvme_init_get_log_endurance_grp_evt cmd lpo log len)
| b_get_log_media_unit_stat cmd domid mus : in_width 16 domid → build cmd
    (nvme_init_get_log_media_unit_stat cmd domid mus)
| b_get_log_support_cap_config_list cmd domid cap : in_width 16 domid → build cmd
    (nvme_init_get_log_support_cap_config_list cmd domid cap)
| b_get_log_fid_supported_effects cmd csi log : in_width 32 csi → build cmd
    (nvme_init_get_log_fid_supported_effects cmd csi log)
| b_get_log_lockdown cmd cnscp cntlid lockdown_log : in_width 8 cnscp → in_width 16 cntlid → build
    cmd (nvme_init_get_log_lockdown cmd cnscp cntlid lockdown_log)
| b_get_log_boot_partition cmd lsp part len : in_width 8 lsp → in_width 32 len → build cmd
    (nvme_init_get_log_boot_partition cmd lsp part len)
| b_get_log_rotational_media_info cmd endgid log len : in_width 16 endgid → in_width 32 len → build
    cmd (nvme_init_get_log_rotational_media_info cmd endgid log len)
| b_get_log_dispersed_ns_participating_nss cmd nsid log len : in_width 32 nsid → in_width 32 len →
    build cmd (nvme_init_get_log_dispersed_ns_participating_nss cmd nsid log len)
| b_get_log_mgmt_addr_list cmd log len : in_width 32 len → build cmd
    (nvme_init_get_log_mgmt_addr_list cmd log len)
| b_get_log_power_measurement cmd log len : in_width 32 len → build cmd
    (nvme_init_get_log_power_measurement cmd log len)
| b_get_log_voltage_measurement cmd log len : in_width 32 len → build cmd
    (nvme_init_get_log_voltage_measurement cmd log len)
| b_get_log_phy_rx_eom cmd lsp controller log len : in_width 8 lsp → in_width 16 controller →
    in_width 32 len → build cmd (nvme_init_get_log_phy_rx_eom cmd lsp controller log len)
| b_get_log_reachability_groups cmd rgo log len : in_width 32 len → build cmd
    (nvme_init_get_log_reachability_groups cmd rgo log len)
| b_get_log_reachability_associations cmd rao log len : in_width 32 len → build cmd
    (nvme_init_get_log_reachability_associations cmd rao log len)
| b_get_log_changed_alloc_ns cmd log len : in_width 32 len → build cmd
    (nvme_init_get_log_changed_alloc_ns cmd log len)
| b_get_log_fdp_configurations cmd egid lpo log len : in_width 16 egid → in_width 64 lpo → in_width
    32 len → build cmd (nvme_init_get_log_fdp_configurations cmd egid lpo log len)
| b_get_log_reclaim_unit_handle_usage cmd egid lpo log len : in_width 16 egid → in_width 64 lpo →
    in_width 32 len → build cmd (nvme_init_get_log_reclaim_unit_handle_usage cmd egid lpo log len)
| b_get_log_fdp_events cmd host_events egid lpo log len : in_width 16 egid → in_width 64 lpo →
    in_width 32 len → build cmd (nvme_init_get_log_fdp_events cmd host_events egid lpo log len)
| b_get_log_rate_limiting cmd lpo log len : in_width 64 lpo → in_width 32 len → build cmd
    (nvme_init_get_log_rate_limiting cmd lpo log len)
| b_get_log_host_addressable_ns cmd lpo log len : in_width 64 lpo → in_width 32 len → build cmd
    (nvme_init_get_log_host_addressable_ns cmd lpo log len)
| b_get_log_reservation cmd log : build cmd (nvme_init_get_log_reservation cmd log)
| b_get_log_sanitize cmd log : build cmd (nvme_init_get_log_sanitize cmd log)
| b_get_log_mfg_default_config_status cmd log : build cmd
    (nvme_init_get_log_mfg_default_config_status cmd log)
| b_get_log_dev_personality cmd log len : in_width 32 len → build cmd
    (nvme_init_get_log_dev_personality cmd log len)
| b_identify cmd nsid csi cns data len : in_width 32 nsid → in_width 32 csi → in_width 32 cns →
    in_width 32 len → build cmd (nvme_init_identify cmd nsid csi cns data len)
| b_identify_ns cmd nsid id : in_width 32 nsid → build cmd (nvme_init_identify_ns cmd nsid id)
| b_identify_ctrl cmd id : build cmd (nvme_init_identify_ctrl cmd id)
| b_identify_active_ns_list cmd nsid list : in_width 32 nsid → build cmd
    (nvme_init_identify_active_ns_list cmd nsid list)
| b_identify_ns_descs_list cmd nsid descs : in_width 32 nsid → build cmd
    (nvme_init_identify_ns_descs_list cmd nsid descs)
| b_identify_nvmset_list cmd nsid nvmsetid nvmset : in_width 32 nsid → in_width 16 nvmsetid → build
    cmd (nvme_init_identify_nvmset_list cmd nsid nvmsetid nvmset)
| b_identify_csi_ns cmd nsid csi uidx data : in_width 32 nsid → in_width 32 csi → in_width 8 uidx →
    build cmd (nvme_init_identify_csi_ns cmd nsid csi uidx data)
| b_identify_csi_ctrl cmd csi data : in_width 32 csi → build cmd (nvme_init_identify_csi_ctrl cmd
    csi data)
| b_identify_csi_active_ns_list cmd nsid csi ns_list : in_width 32 nsid → in_width 32 csi → build
    cmd (nvme_init_identify_csi_active_ns_list cmd nsid csi ns_list)
| b_identify_csi_independent_identify_id_ns cmd nsid ns : in_width 32 nsid → build cmd
    (nvme_init_identify_csi_independent_identify_id_ns cmd nsid ns)
| b_identify_ns_user_data_format cmd csi fidx uidx data : in_width 32 csi → in_width 16 fidx →
    in_width 8 uidx → build cmd (nvme_init_identify_ns_user_data_format cmd csi fidx uidx data)
| b_identify_csi_ns_user_data_format cmd csi fidx uidx data : in_width 32 csi → in_width 16 fidx →
    in_width 8 uidx → build cmd (nvme_init_identify_csi_ns_user_data_format cmd csi fidx uidx data)
| b_identify_allocated_ns_list cmd nsid ns_list : in_width 32 nsid → build cmd
    (nvme_init_identify_allocated_ns_list cmd nsid ns_list)
| b_identify_allocated_ns cmd nsid ns : in_width 32 nsid → build cmd
    (nvme_init_identify_allocated_ns cmd nsid ns)
| b_identify_ns_ctrl_list cmd nsid cntid cntlist : in_width 32 nsid → in_width 16 cntid → build cmd
    (nvme_init_identify_ns_ctrl_list cmd nsid cntid cntlist)
| b_identify_ctrl_list cmd cntid cntlist : in_width 16 cntid → build cmd
    (nvme_init_identify_ctrl_list cmd cntid cntlist)
| b_identify_primary_ctrl_cap cmd cntid cap : in_width 16 cntid → build cmd
    (nvme_init_identify_primary_ctrl_cap cmd cntid cap)
| b_identify_secondary_ctrl_list cmd cntid sc_list : in_width 16 cntid → build cmd
    (nvme_init_identify_secondary_ctrl_list cmd cntid sc_list)
| b_identify_ns_granularity cmd gr_list : build cmd (nvme_init_identify_ns_granularity cmd gr_list)
| b_identify_uuid_list cmd uuid_list : build cmd (nvme_init_identify_uuid_list cmd uuid_list)
| b_identify_domain_list cmd domid list : in_width 16 domid → build cmd
    (nvme_init_identify_domain_list cmd domid list)
| b_identify_endurance_group_id cmd enggid list : in_width 16 enggid → build cmd
    (nvme_init_identify_endurance_group_id cmd enggid list)
| b_identify_csi_allocated_ns_list cmd nsid csi ns_list : in_width 32 nsid → in_width 32 csi → build
    cmd (nvme_init_identify_csi_allocated_ns_list cmd nsid csi ns_list)
| b_identify_csi_id_ns_data_structure cmd nsid csi data : in_width 32 nsid → in_width 32 csi → build
    cmd (nvme_init_identify_csi_id_ns_data_structure cmd nsid csi data)
| b_identify_command_set_structure cmd cntid iocs : in_width 16 cntid → build cmd
    (nvme_init_identify_command_set_structure cmd cntid iocs)
| b_identify_underlying_ns_list cmd idx list : in_width 16 idx → build cmd
    (nvme_init_identify_underlying_ns_list cmd idx list)
| b_identify_ports_list cmd list len : in_width 32 len → build cmd (nvme_init_identify_ports_list
    cmd list len)
| b_identify_iocs_ind_id_alloc_ns cmd nsid ns : in_width 32 nsid → build cmd
    (nvme_init_identify_iocs_ind_id_alloc_ns cmd nsid ns)
| b_identify_supported_ctrl_state_formats cmd formats : build cmd
    (nvme_init_identify_supported_ctrl_state_formats cmd formats)
| b_identify_underlying_ctrl_list cmd cntid cntlist : in_width 16 cntid → build cmd
    (nvme_init_identify_underlying_ctrl_list cmd cntid cntlist)
| b_identify_exported_nvm_subsys_template_uuid_list cmd list : build cmd
    (nvme_init_identify_exported_nvm_subsys_template_uuid_list cmd list)
| b_abort cmd sqid cid : in_width 16 sqid → in_width 16 cid → build cmd (nvme_init_abort cmd sqid
    cid)
| b_async_event cmd : build cmd (nvme_init_async_event cmd)
| b_set_features cmd fid sv : in_width 8 fid → build cmd (nvme_init_set_features cmd fid sv)
| b_set_features_arbitration cmd sv ab lpw mpw hpw : in_width 8 ab → in_width 8 lpw → in_width 8 mpw
    → in_width 8 hpw → build cmd (nvme_init_set_features_arbitration cmd sv ab lpw mpw hpw)
| b_set_features_power_mgmt cmd sv ps wh : in_width 8 ps → in_width 8 wh → build cmd
    (nvme_init_set_features_power_mgmt cmd sv ps wh)
| b_set_features_lba_range cmd nsid sv num data : in_width 32 nsid → in_width 8 num → build cmd
    (nvme_init_set_features_lba_range cmd nsid sv num data)
| b_set_features_temp_thresh cmd sv tmpth tmpsel thsel tmpthh : in_width 16 tmpth → in_width 8
    tmpsel → in_width 32 thsel → in_width 8 tmpthh → build cmd (nvme_init_set_features_temp_thresh
    cmd sv tmpth tmpsel thsel tmpthh)
| b_set_features_err_recovery cmd nsid sv tler dulbe : in_width 32 nsid → in_width 16 tler → build
    cmd (nvme_init_set_features_err_recovery cmd nsid sv tler dulbe)
| b_set_features_volatile_wc cmd sv wce : build cmd (nvme_init_set_features_volatile_wc cmd sv wce)
| b_set_features_irq_coalesce cmd sv thr time : in_width 8 thr → in_width 8 time → build cmd
    (nvme_init_set_features_irq_coalesce cmd sv thr time)
| b_set_features_irq_config cmd sv iv cd : in_width 16 iv → build cmd
    (nvme_init_set_features_irq_config cmd sv iv cd)
| b_set_features_write_atomic cmd sv dn : build cmd (nvme_init_set_features_write_atomic cmd sv dn)
| b_set_features_async_event cmd sv events : in_width 32 events → build cmd
    (nvme_init_set_features_async_event cmd sv events)
| b_set_features_auto_pst cmd sv apste apst : build cmd (nvme_init_set_features_auto_pst cmd sv
    apste apst)
| b_set_features_timestamp cmd sv tstmp ts : in_width 64 tstmp → build cmd (fst
    (nvme_init_set_features_timestamp cmd sv tstmp ts))
| b_set_features_hctm cmd sv tmt2 tmt1 : in_width 16 tmt2 → in_width 16 tmt1 → build cmd
    (nvme_init_set_features_hctm cmd sv tmt2 tmt1)
| b_set_features_nopsc cmd sv noppme : build cmd (nvme_init_set_features_nopsc cmd sv noppme)
| b_set_features_rrl cmd sv nvmsetid rrl : in_width 16 nvmsetid → in_width 8 rrl → build cmd
    (nvme_init_set_features_rrl cmd sv nvmsetid rrl)
| b_set_features_plm_config cmd sv nvmsetid lpe data : in_width 16 nvmsetid → build cmd
    (nvme_init_set_features_plm_config cmd sv nvmsetid lpe data)
| b_set_features_plm_window cmd sv nvmsetid wsel : in_width 16 nvmsetid → in_width 32 wsel → build
    cmd (nvme_init_set_features_plm_window cmd sv nvmsetid wsel)
| b_set_features_lba_sts_interval cmd sv lsiri lsipi : in_width 16 lsiri → in_width 16 lsipi → build
    cmd (nvme_init_set_features_lba_sts_interval cmd sv lsiri lsipi)
| b_set_features_host_behavior cmd sv data : build cmd (nvme_init_set_features_host_behavior cmd sv
    data)
| b_set_features_sanitize cmd sv nodrm : build cmd (nvme_init_set_features_sanitize cmd sv nodrm)
| b_set_features_endurance_evt_cfg cmd sv endgid egcw : in_width 16 endgid → in_width 8 egcw → build
    cmd (nvme_init_set_features_endurance_evt_cfg cmd sv endgid egcw)
| b_set_features_sw_progress cmd sv pbslc : in_width 8 pbslc → build cmd
    (nvme_init_set_features_sw_progress cmd sv pbslc)
| b_set_features_host_id cmd sv exhid hostid : build cmd (nvme_init_set_features_host_id cmd sv
    exhid hostid)
| b_set_features_resv_nf_mask cmd nsid sv mask : in_width 32 nsid → in_width 32 mask → build cmd
    (nvme_init_set_features_resv_nf_mask cmd nsid sv mask)
| b_set_features_resv_persist cmd nsid sv ptpl : in_width 32 nsid → build cmd
    (nvme_init_set_features_resv_persist cmd nsid sv ptpl)
| b_set_features_write_protect cmd nsid sv wps : in_width 32 nsid → in_width 32 wps → build cmd
    (nvme_init_set_features_write_protect cmd nsid sv wps)
| b_set_features_iocs_profile cmd sv iocsci : in_width 16 iocsci → build cmd
    (nvme_init_set_features_iocs_profile cmd sv iocsci)
| b_lm_set_features_ctrl_data_queue cmd cdqid hp tpt etpt : in_width 16 cdqid → in_width 32 hp →
    in_width 32 tpt → build cmd (nvme_init_lm_set_features_ctrl_data_queue cmd cdqid hp tpt etpt)
| b_set_features_rate_limiting cmd sv target tid data : in_width 8 target → in_width 16 tid → build
    cmd (nvme_init_set_features_rate_limiting cmd sv target tid data)
| b_set_features_spinup_control cmd sv sce : build cmd (nvme_init_set_features_spinup_control cmd sv
    sce)
| b_set_features_power_loss_signal cmd sv plsm : in_width 8 plsm → build cmd
    (nvme_init_set_features_power_loss_signal cmd sv plsm)
| b_set_features_perf_characteristics cmd sv attri rvspa data : in_width 8 attri → build cmd
    (nvme_init_set_features_perf_characteristics cmd sv attri rvspa data)
| b_set_features_fdp cmd sv endgid fdpcidx fdpe : in_width 16 endgid → in_width 8 fdpcidx → build
    cmd (nvme_init_set_features_fdp cmd sv endgid fdpcidx fdpe)
| b_set_features_fdp_events cmd sv phndl fdpee event_types noet : in_width 16 phndl → in_width 8
    noet → build cmd (nvme_init_set_features_fdp_events cmd sv phndl fdpee event_types noet)
| b_set_features_ns_admin_label cmd nsid sv label : in_width 32 nsid → build cmd
    (nvme_init_set_features_ns_admin_label cmd nsid sv label)
| b_set_features_personality cmd sv perid chps perfs cdw11 data len : in_width 8 perid → in_width 32
    cdw11 → in_width 32 len → build cmd (nvme_init_set_features_personality cmd sv perid chps perfs
    cdw11 data len)
| b_set_features_power_limit cmd sv pls plv : in_width 8 pls → in_width 16 plv → build cmd
    (nvme_init_set_features_power_limit cmd sv pls plv)
| b_set_features_power_threshold cmd sv ept pmts pts ptv : in_width 8 pmts → in_width 8 pts →
    in_width 16 ptv → build cmd (nvme_init_set_features_power_threshold cmd sv ept pmts pts ptv)
| b_set_features_power_measurement cmd sv act pmts smt actsp : in_width 8 act → in_width 8 pmts →
    in_width 16 smt → in_width 32 actsp → build cmd (nvme_init_set_features_power_measurement cmd sv
    act pmts smt actsp)
| b_set_features_voltage_threshold cmd sv vsens evt ovt uvt : in_width 8 vsens → in_width 16 ovt →
    in_width 16 uvt → build cmd (nvme_init_set_features_voltage_threshold cmd sv vsens evt ovt uvt)
| b_set_features_voltage_measurement cmd sv act data : in_width 8 act → build cmd
    (nvme_init_set_features_voltage_measurement cmd sv act data)
| b_set_features_emb_mgmt_ctrl_addr cmd sv data : build cmd
    (nvme_init_set_features_emb_mgmt_ctrl_addr cmd sv data)
| b_set_features_host_mgmt_agent_addr cmd sv data : build cmd
    (nvme_init_set_features_host_mgmt_agent_addr cmd sv data)
| b_set_features_enh_ctrl_metadata cmd sv ea data : in_width 8 ea → build cmd
    (nvme_init_set_features_enh_ctrl_metadata cmd sv ea data)
| b_set_features_ctrl_metadata cmd sv ea data : in_width 8 ea → build cmd
    (nvme_init_set_features_ctrl_metadata cmd sv ea data)
| b_set_features_ns_metadata cmd sv ea data : in_width 8 ea → build cmd
    (nvme_init_set_features_ns_metadata cmd sv ea data)
| b_set_features_bp_write_protect cmd sv bp0wps bp1wps : in_width 8 bp0wps → in_width 8 bp1wps →
    build cmd (nvme_init_set_features_bp_write_protect cmd sv bp0wps bp1wps)
| b_get_features cmd fid sel : in_width 8 fid → in_width 32 sel → build cmd (nvme_init_get_features
    cmd fid sel)
| b_get_features_arbitration cmd sel : in_width 32 sel → build cmd
    (nvme_init_get_features_arbitration cmd sel)
| b_get_features_power_mgmt cmd sel : in_width 32 sel → build cmd (nvme_init_get_features_power_mgmt
    cmd sel)
| b_get_features_lba_range cmd nsid sel lrt : in_width 32 nsid → in_width 32 sel → build cmd
    (nvme_init_get_features_lba_range cmd nsid sel lrt)
| b_get_features_temp_thresh cmd sel tmpsel thsel : in_width 32 sel → in_width 8 tmpsel → in_width
    32 thsel → build cmd (nvme_init_get_features_temp_thresh cmd sel tmpsel thsel)
| b_get_features_err_recovery cmd nsid sel : in_width 32 nsid → in_width 32 sel → build cmd
    (nvme_init_get_features_err_recovery cmd nsid sel)
| b_get_features_volatile_wc cmd sel : in_width 32 sel → build cmd
    (nvme_init_get_features_volatile_wc cmd sel)
| b_get_features_num_queues cmd sel : in_width 32 sel → build cmd (nvme_init_get_features_num_queues
    cmd sel)
| b_get_features_irq_coalesce cmd sel : in_width 32 sel → build cmd
    (nvme_init_get_features_irq_coalesce cmd sel)
| b_get_features_irq_config cmd sel iv cd : in_width 32 sel → in_width 16 iv → build cmd
    (nvme_init_get_features_irq_config cmd sel iv cd)
| b_get_features_write_atomic cmd sel : in_width 32 sel → build cmd
    (nvme_init_get_features_write_atomic cmd sel)
| b_get_features_async_event cmd sel : in_width 32 sel → build cmd
    (nvme_init_get_features_async_event cmd sel)
| b_get_features_auto_pst cmd sel apst : in_width 32 sel → build cmd
    (nvme_init_get_features_auto_pst cmd sel apst)
| b_get_features_host_mem_buf cmd sel attrs : in_width 32 sel → build cmd
    (nvme_init_get_features_host_mem_buf cmd sel attrs)
| b_get_features_timestamp cmd sel ts : in_width 32 sel → build cmd
    (nvme_init_get_features_timestamp cmd sel ts)
| b_get_features_kato cmd sel : in_width 32 sel → build cmd (nvme_init_get_features_kato cmd sel)
| b_get_features_hctm cmd sel : in_width 32 sel → build cmd (nvme_init_get_features_hctm cmd sel)
| b_get_features_nopsc cmd sel : in_width 32 sel → build cmd (nvme_init_get_features_nopsc cmd sel)
| b_get_features_rrl cmd sel : in_width 32 sel → build cmd (nvme_init_get_features_rrl cmd sel)
| b_get_features_plm_config cmd sel nvmsetid plmc : in_width 32 sel → in_width 16 nvmsetid → build
    cmd (nvme_init_get_features_plm_config cmd sel nvmsetid plmc)
| b_get_features_plm_window cmd sel nvmsetid : in_width 32 sel → in_width 16 nvmsetid → build cmd
    (nvme_init_get_features_plm_window cmd sel nvmsetid)
| b_get_features_lba_sts_interval cmd sel : in_width 32 sel → build cmd
    (nvme_init_get_features_lba_sts_interval cmd sel)
| b_get_features_host_behavior cmd sel fhb : in_width 32 sel → build cmd
    (nvme_init_get_features_host_behavior cmd sel fhb)
| b_get_features_sanitize cmd sel : in_width 32 sel → build cmd (nvme_init_get_features_sanitize cmd
    sel)
| b_get_features_endurance_event_cfg cmd sel endgid : in_width 32 sel → in_width 16 endgid → build
    cmd (nvme_init_get_features_endurance_event_cfg cmd sel endgid)
| b_get_features_sw_progress cmd sel : in_width 32 sel → build cmd
    (nvme_init_get_features_sw_progress cmd sel)
| b_get_features_host_id cmd sel exhid hostid len : in_width 32 sel → in_width 32 len → build cmd
    (nvme_init_get_features_host_id cmd sel exhid hostid len)
| b_get_features_resv_nf_mask cmd nsid sel : in_width 32 nsid → in_width 32 sel → build cmd
    (nvme_init_get_features_resv_nf_mask cmd nsid sel)
| b_get_features_resv_persist cmd nsid sel : in_width 32 nsid → in_width 32 sel → build cmd
    (nvme_init_get_features_resv_persist cmd nsid sel)
| b_get_features_write_protect cmd nsid sel : in_width 32 nsid → in_width 32 sel → build cmd
    (nvme_init_get_features_write_protect cmd nsid sel)
| b_get_features_iocs_profile cmd sel : in_width 32 sel → build cmd
    (nvme_init_get_features_iocs_profile cmd sel)
| b_lm_get_features_ctrl_data_queue cmd sel cdqid qfd : in_width 32 sel → in_width 16 cdqid → build
    cmd (nvme_init_lm_get_features_ctrl_data_queue cmd sel cdqid qfd)
| b_get_features_rate_limiting cmd sel target tid data : in_width 32 sel → in_width 8 target →
    in_width 16 tid → build cmd (nvme_init_get_features_rate_limiting cmd sel target tid data)
| b_get_features_spinup_control cmd sel : in_width 32 sel → build cmd
    (nvme_init_get_features_spinup_control cmd sel)
| b_get_features_power_loss_signal cmd sel : in_width 32 sel → build cmd
    (nvme_init_get_features_power_loss_signal cmd sel)
| b_get_features_perf_characteristics cmd sel attri data : in_width 32 sel → in_width 8 attri →
    build cmd (nvme_init_get_features_perf_characteristics cmd sel attri data)
| b_get_features_fdp cmd sel endgid : in_width 32 sel → in_width 16 endgid → build cmd
    (nvme_init_get_features_fdp cmd sel endgid)
| b_get_features_fdp_events cmd sel phndl data len : in_width 32 sel → in_width 16 phndl → in_width
    32 len → build cmd (nvme_init_get_features_fdp_events cmd sel phndl data len)
| b_get_features_ns_admin_label cmd sel label : in_width 32 sel → build cmd
    (nvme_init_get_features_ns_admin_label cmd sel label)
| b_get_features_personality cmd sel perid data len : in_width 32 sel → in_width 8 perid → in_width
    32 len → build cmd (nvme_init_get_features_personality cmd sel perid data len)
| b_get_features_power_limit cmd sel : in_width 32 sel → build cmd
    (nvme_init_get_features_power_limit cmd sel)
| b_get_features_power_threshold cmd sel : in_width 32 sel → build cmd
    (nvme_init_get_features_power_threshold cmd sel)
| b_get_features_power_measurement cmd sel : in_width 32 sel → build cmd
    (nvme_init_get_features_power_measurement cmd sel)
| b_get_features_voltage_threshold cmd sel vsens : in_width 32 sel → in_width 8 vsens → build cmd
    (nvme_init_get_features_voltage_threshold cmd sel vsens)
| b_get_features_voltage_measurement cmd sel data len : in_width 32 sel → in_width 32 len → build
    cmd (nvme_init_get_features_voltage_measurement cmd sel data len)
| b_get_features_emb_mgmt_ctrl_addr cmd sel data : in_width 32 sel → build cmd
    (nvme_init_get_features_emb_mgmt_ctrl_addr cmd sel data)
| b_get_features_host_mgmt_agent_addr cmd sel data : in_width 32 sel → build cmd
    (nvme_init_get_features_host_mgmt_agent_addr cmd sel data)
| b_get_features_enh_ctrl_metadata cmd sel data : in_width 32 sel → build cmd
    (nvme_init_get_features_enh_ctrl_metadata cmd sel data)
| b_get_features_ctrl_metadata cmd sel data : in_width 32 sel → build cmd
    (nvme_init_get_features_ctrl_metadata cmd sel data)
| b_get_features_ns_metadata cmd sel data : in_width 32 sel → build cmd
    (nvme_init_get_features_ns_metadata cmd sel data)
| b_get_features_bp_write_protect cmd sel : in_width 32 sel → build cmd
    (nvme_init_get_features_bp_write_protect cmd sel)
| b_ns_mgmt cmd nsid sel csi data : in_width 32 nsid → in_width 32 sel → in_width 8 csi → build cmd
    (nvme_init_ns_mgmt cmd nsid sel csi data)
| b_ns_mgmt_create cmd csi data : in_width 8 csi → build cmd (nvme_init_ns_mgmt_create cmd csi data)
| b_ns_mgmt_delete cmd nsid : in_width 32 nsid → build cmd (nvme_init_ns_mgmt_delete cmd nsid)
| b_ns_mgmt_restore_default_config cmd : build cmd (nvme_init_ns_mgmt_restore_default_config cmd)
| b_fw_commit cmd fs ca bpid : in_width 8 fs → in_width 32 ca → build cmd (nvme_init_fw_commit cmd
    fs ca bpid)
| b_fw_download cmd data len offset cmd' : in_width 32 len → in_width 32 offset →
    nvme_init_fw_download cmd data len offset = Ok cmd' → build cmd cmd'
| b_dev_self_test cmd nsid stc : in_width 32 nsid → in_width 32 stc → build cmd
    (nvme_init_dev_self_test cmd nsid stc)
| b_ns_attach cmd nsid sel ctrlist : in_width 32 nsid → in_width 32 sel → build cmd
    (nvme_init_ns_attach cmd nsid sel ctrlist)
| b_ns_attach_ctrls cmd nsid ctrlist : in_width 32 nsid → build cmd (nvme_init_ns_attach_ctrls cmd
    nsid ctrlist)
| b_ns_detach_ctrls cmd nsid ctrlist : in_width 32 nsid → build cmd (nvme_init_ns_detach_ctrls cmd
    nsid ctrlist)
| b_keep_alive cmd : build cmd (nvme_init_keep_alive cmd)
| b_directive_send cmd nsid doper dtype dspec data len : in_width 32 nsid → in_width 32 doper →
    in_width 32 dtype → in_width 16 dspec → in_width 32 len → build cmd (nvme_init_directive_send
    cmd nsid doper dtype dspec data len)
| b_directive_send_id_endir cmd nsid endir dtype id : in_width 32 nsid → in_width 32 dtype → build
    cmd (nvme_init_directive_send_id_endir cmd nsid endir dtype id)
| b_directive_send_stream_release_identifier cmd nsid stream_id : in_width 32 nsid → in_width 16
    stream_id → build cmd (nvme_init_directive_send_stream_release_identifier cmd nsid stream_id)
| b_directive_send_stream_release_resource cmd nsid : in_width 32 nsid → build cmd
    (nvme_init_directive_send_stream_release_resource cmd nsid)
| b_directive_recv cmd nsid doper dtype dspec data len : in_width 32 nsid → in_width 32 doper →
    in_width 32 dtype → in_width 16 dspec → in_width 32 len → build cmd (nvme_init_directive_recv
    cmd nsid doper dtype dspec data len)
| b_directive_recv_identify_parameters cmd nsid id : in_width 32 nsid → build cmd
    (nvme_init_directive_recv_identify_parameters cmd nsid id)
| b_directive_recv_stream_parameters cmd nsid parms : in_width 32 nsid → build cmd
    (nvme_init_directive_recv_stream_parameters cmd nsid parms)
| b_directive_recv_stream_allocate cmd nsid nsr : in_width 32 nsid → in_width 16 nsr → build cmd
    (nvme_init_directive_recv_stream_allocate cmd nsid nsr)
| b_directive_recv_stream_status cmd nsid nr_entries id cmd' : in_width 32 nsid → in_width 32
    nr_entries → nvme_init_directive_recv_stream_status cmd nsid nr_entries id = Ok cmd' → build cmd
    cmd'
| b_virtual_mgmt cmd act rt cntlid nr : in_width 32 act → in_width 32 rt → in_width 16 cntlid →
    in_width 16 nr → build cmd (nvme_init_virtual_mgmt cmd act rt cntlid nr)
| b_capacity_mgmt cmd oper elid cap : in_width 8 oper → in_width 16 elid → in_width 64 cap → build
    cmd (nvme_init_capacity_mgmt cmd oper elid cap)
| b_capacity_mgmt_restore_default_config cmd : build cmd
    (nvme_init_capacity_mgmt_restore_default_config cmd)
| b_dim_send cmd tas data len : in_width 8 tas → in_width 32 len → build cmd (nvme_init_dim_send cmd
    tas data len)
| b_clear_export_nvm_res cmd : build cmd (nvme_init_clear_export_nvm_res cmd)
| b_manage_export_nvms_receive cmd sel mos mose mosi ol ou numdl data len : in_width 8 sel →
    in_width 8 mos → in_width 16 mose → in_width 16 mosi → in_width 32 ol → in_width 32 ou →
    in_width 32 numdl → in_width 32 len → build cmd (nvme_init_manage_export_nvms_receive cmd sel
    mos mose mosi ol ou numdl data len)
| b_manage_export_nvms_receive_create cmd tr ensti ra data : in_width 8 ensti → build cmd
    (nvme_init_manage_export_nvms_receive_create cmd tr ensti ra data)
| b_manage_export_nvms_receive_list_subsystems cmd esubid list len : in_width 16 esubid → in_width
    32 len → build cmd (nvme_init_manage_export_nvms_receive_list_subsystems cmd esubid list len)
| b_manage_export_nvms_receive_list_namespaces cmd nsid list len : in_width 32 nsid → in_width 32
    len → build cmd (nvme_init_manage_export_nvms_receive_list_namespaces cmd nsid list len)
| b_manage_export_nvms_receive_list_controllers cmd ecntlid list len : in_width 16 ecntlid →
    in_width 32 len → build cmd (nvme_init_manage_export_nvms_receive_list_controllers cmd ecntlid
    list len)
| b_manage_export_nvms_receive_list_ports cmd epid list len : in_width 16 epid → in_width 32 len →
    build cmd (nvme_init_manage_export_nvms_receive_list_ports cmd epid list len)
| b_manage_export_ns cmd sel mos esubidv esubid data len : in_width 8 sel → in_width 8 mos →
    in_width 16 esubid → in_width 32 len → build cmd (nvme_init_manage_export_ns cmd sel mos esubidv
    esubid data len)
| b_manage_export_ns_associate cmd andsf esubidv esubid data : in_width 8 andsf → in_width 16 esubid
    → build cmd (nvme_init_manage_export_ns_associate cmd andsf esubidv esubid data)
| b_manage_export_ns_disassociate cmd esubidv esubid data : in_width 16 esubid → build cmd
    (nvme_init_manage_export_ns_disassociate cmd esubidv esubid data)
| b_manage_export_nvms_send cmd sel mos mose esubidv esubid data len : in_width 8 sel → in_width 8
    mos → in_width 16 mose → in_width 16 esubid → in_width 32 len → build cmd
    (nvme_init_manage_export_nvms_send cmd sel mos mose esubidv esubid data len)
| b_manage_export_nvms_send_delete cmd esubidv esubid data : in_width 16 esubid → build cmd
    (nvme_init_manage_export_nvms_send_delete cmd esubidv esubid data)
| b_manage_export_nvms_send_change_access_mode cmd ra esubidv esubid data : in_width 16 esubid →
    build cmd (nvme_init_manage_export_nvms_send_change_access_mode cmd ra esubidv esubid data)
| b_manage_export_nvms_send_grant_host_access cmd data len : in_width 32 len → build cmd
    (nvme_init_manage_export_nvms_send_grant_host_access cmd data len)
| b_manage_export_nvms_send_revoke_host_access cmd data len : in_width 32 len → build cmd
    (nvme_init_manage_export_nvms_send_revoke_host_access cmd data len)
| b_manage_export_nvms_send_associate_controllers cmd esubid data len : in_width 16 esubid →
    in_width 32 len → build cmd (nvme_init_manage_export_nvms_send_associate_controllers cmd esubid
    data len)
| b_manage_export_nvms_send_set_config_state cmd esubidv esubid data len : in_width 16 esubid →
    in_width 32 len → build cmd (nvme_init_manage_export_nvms_send_set_config_state cmd esubidv
    esubid data len)
| b_lockdown cmd scp prhbt ifc ofi uidx csel css : in_width 8 scp → in_width 8 prhbt → in_width 8
    ifc → in_width 8 ofi → in_width 8 uidx → in_width 8 csel → in_width 16 css → build cmd
    (nvme_init_lockdown cmd scp prhbt ifc ofi uidx csel css)
| b_lm_track_send cmd sel mos cdqid data len : in_width 8 sel → in_width 16 mos → in_width 16 cdqid
    → in_width 32 len → build cmd (nvme_init_lm_track_send cmd sel mos cdqid data len)
| b_lm_track_receive cmd sel cntlid data len : in_width 8 sel → in_width 16 cntlid → in_width 32 len
    → build cmd (nvme_init_lm_track_receive cmd sel cntlid data len)
| b_lm_migration_send cmd sel mos cntlid stype dudmq csvi csuuidi cso uidx data len : in_width 16
    sel → in_width 16 mos → in_width 16 cntlid → in_width 8 stype → in_width 8 csvi → in_width 16
    csuuidi → in_width 64 cso → in_width 8 uidx → in_width 32 len → build cmd
    (nvme_init_lm_migration_send cmd sel mos cntlid stype dudmq csvi csuuidi cso uidx data len)
| b_lm_migration_recv cmd offset mos cntlid csuuidi sel uidx csuidxp data len : in_width 64 offset →
    in_width 16 mos → in_width 16 cntlid → in_width 16 csuuidi → in_width 8 sel → in_width 8 uidx →
    in_width 8 csuidxp → in_width 32 len → build cmd (nvme_init_lm_migration_recv cmd offset mos
    cntlid csuuidi sel uidx csuidxp data len)
| b_lm_cdq_create cmd mos cntlid cdqsize data : in_width 16 mos → in_width 16 cntlid → in_width 32
    cdqsize → build cmd (nvme_init_lm_cdq_create cmd mos cntlid cdqsize data)
| b_lm_cdq_delete cmd mos cdqid : in_width 16 mos → in_width 16 cdqid → build cmd
    (nvme_init_lm_cdq_delete cmd mos cdqid)
| b_format_nvm cmd nsid lbaf mset pi pil ses : in_width 32 nsid → in_width 8 lbaf → in_width 32 mset
    → in_width 32 pi → in_width 32 pil → in_width 32 ses → build cmd (nvme_init_format_nvm cmd nsid
    lbaf mset pi pil ses)
| b_security_send cmd nsid nssf spsp secp tl data len : in_width 32 nsid → in_width 8 nssf →
    in_width 16 spsp → in_width 8 secp → in_width 32 tl → in_width 32 len → build cmd
    (nvme_init_security_send cmd nsid nssf spsp secp tl data len)
| b_security_receive cmd nsid nssf spsp secp al data len : in_width 32 nsid → in_width 8 nssf →
    in_width 16 spsp → in_width 8 secp → in_width 32 al → in_width 32 len → build cmd
    (nvme_init_security_receive cmd nsid nssf spsp secp al data len)
| b_sanitize_nvm cmd sanact ause owpass oipbp ndas emvs preq ovrpat : in_width 32 sanact → in_width
    8 owpass → in_width 32 ovrpat → build cmd (nvme_init_sanitize_nvm cmd sanact ause owpass oipbp
    ndas emvs preq ovrpat)
| b_get_lba_status cmd nsid slba mndw atype rl lbas : in_width 32 nsid → in_width 64 slba → in_width
    32 mndw → in_width 32 atype → in_width 16 rl → build cmd (nvme_init_get_lba_status cmd nsid slba
    mndw atype rl lbas)
| b_sanitize_ns cmd sanact ause emvs preq : in_width 32 sanact → build cmd (nvme_init_sanitize_ns
    cmd sanact ause emvs preq)
| b_get_log_discovery cmd lpo log len : in_width 64 lpo → in_width 32 len → build cmd
    (nvme_init_get_log_discovery cmd lpo log len)
| b_get_log_host_discovery cmd allhoste log len : in_width 32 len → build cmd
    (nvme_init_get_log_host_discovery cmd allhoste log len)
| b_get_log_ave_discovery cmd log len : in_width 32 len → build cmd (nvme_init_get_log_ave_discovery
    cmd log len)
| b_get_log_pull_model_ddc_req cmd log len : in_width 32 len → build cmd
    (nvme_init_get_log_pull_model_ddc_req cmd log len)
| b_cross_ctrl_reset cmd icid ciu cirn : in_width 16 icid → in_width 8 ciu → in_width 64 cirn →
    build cmd (nvme_init_cross_ctrl_reset cmd icid ciu cirn)
| b_fabric_zoning_lookup cmd data len : in_width 32 len → build cmd (nvme_init_fabric_zoning_lookup
    cmd data len)
| b_fabric_zoning_receive cmd zdk zdo zdkc numd data len : in_width 32 zdk → in_width 32 zdo →
    in_width 32 numd → in_width 32 len → build cmd (nvme_init_fabric_zoning_receive cmd zdk zdo zdkc
    numd data len)
| b_fabric_zoning_send cmd zdk zdo lf zdkc numd data len : in_width 32 zdk → in_width 32 zdo →
    in_width 32 numd → in_width 32 len → build cmd (nvme_init_fabric_zoning_send cmd zdk zdo lf zdkc
    numd data len)
| b_send_discovery_log_page cmd rlps sct sc tlsp tlid ndws tlpo data len : in_width 8 rlps →
    in_width 8 sct → in_width 8 sc → in_width 8 tlsp → in_width 8 tlid → in_width 32 ndws → in_width
    64 tlpo → in_width 32 len → build cmd (nvme_init_send_discovery_log_page cmd rlps sct sc tlsp
    tlid ndws tlpo data len)
| b_manage_export_port cmd sel mos data len : in_width 8 sel → in_width 8 mos → in_width 32 len →
    build cmd (nvme_init_manage_export_port cmd sel mos data len)
| b_manage_export_port_create cmd gepid data : build cmd (nvme_init_manage_export_port_create cmd
    gepid data)
| b_manage_export_port_delete cmd data : build cmd (nvme_init_manage_export_port_delete cmd data)
| b_get_log_cross_ctrl_reset cmd rmc log len : in_width 32 len → build cmd
    (nvme_init_get_log_cross_ctrl_reset cmd rmc log len)
| b_get_log_lost_host_comm cmd rae log len : in_width 32 len → build cmd
    (nvme_init_get_log_lost_host_comm cmd rae log len)
| b_set_property cmd offset value : in_width 32 offset → in_width 64 value → build cmd
    (nvme_init_set_property cmd offset value)
| b_get_property cmd offset : in_width 32 offset → build cmd (nvme_init_get_property cmd offset)
| b_auth_send cmd spsp secp tl data len : in_width 16 spsp → in_width 8 secp → in_width 32 tl →
    in_width 32 len → build cmd (nvme_init_auth_send cmd spsp secp tl data len)
| b_auth_receive cmd spsp secp al data len : in_width 16 spsp → in_width 8 secp → in_width 32 al →
    in_width 32 len → build cmd (nvme_init_auth_receive cmd spsp secp al data len)
| b_flush cmd nsid : in_width 32 nsid → build cmd (nvme_init_flush cmd nsid)
| b_cancel cmd nsid sqid cid acode : in_width 32 nsid → in_width 16 sqid → in_width 16 cid →
    in_width 32 acode → build cmd (nvme_init_cancel cmd nsid sqid cid acode)
| b_io cmd opcode nsid slba data data_len metadata metadata_len : in_width 8 opcode → in_width 32
    nsid → in_width 64 slba → in_width 32 data_len → in_width 32 metadata_len → build cmd
    (nvme_init_io cmd opcode nsid slba data data_len metadata metadata_len)
| b_write cmd nsid slba nlb control dspec dsm cev data data_len metadata metadata_len : in_width 32
    nsid → in_width 64 slba → in_width 16 nlb → in_width 16 control → in_width 16 dspec → in_width 8
    dsm → in_width 8 cev → in_width 32 data_len → in_width 32 metadata_len → build cmd
    (nvme_init_write cmd nsid slba nlb control dspec dsm cev data data_len metadata metadata_len)
| b_read cmd nsid slba nlb control dsm cev data data_len metadata metadata_len : in_width 32 nsid →
    in_width 64 slba → in_width 16 nlb → in_width 16 control → in_width 8 dsm → in_width 16 cev →
    in_width 32 data_len → in_width 32 metadata_len → build cmd (nvme_init_read cmd nsid slba nlb
    control dsm cev data data_len metadata metadata_len)
| b_write_uncorrectable cmd nsid slba nlb control dspec : in_width 32 nsid → in_width 64 slba →
    in_width 16 nlb → in_width 16 control → in_width 16 dspec → build cmd
    (nvme_init_write_uncorrectable cmd nsid slba nlb control dspec)
| b_compare cmd nsid slba nlb control cev data data_len metadata metadata_len : in_width 32 nsid →
    in_width 64 slba → in_width 16 nlb → in_width 16 control → in_width 8 cev → in_width 32 data_len
    → in_width 32 metadata_len → build cmd (nvme_init_compare cmd nsid slba nlb control cev data
    data_len metadata metadata_len)
| b_write_zeros cmd nsid slba nlb control dspec dsm cev : in_width 32 nsid → in_width 64 slba →
    in_width 16 nlb → in_width 16 control → in_width 16 dspec → in_width 8 dsm → in_width 8 cev →
    build cmd (nvme_init_write_zeros cmd nsid slba nlb control dspec dsm cev)
| b_dsm cmd nsid nr idr idw ad data len : in_width 32 nsid → in_width 16 nr → in_width 8 idr →
    in_width 8 idw → in_width 8 ad → in_width 32 len → build cmd (nvme_init_dsm cmd nsid nr idr idw
    ad data len)
| b_verify cmd nsid slba nlb control cev data data_len metadata metadata_len : in_width 32 nsid →
    in_width 64 slba → in_width 16 nlb → in_width 16 control → in_width 8 cev → in_width 32 data_len
    → in_width 32 metadata_len → build cmd (nvme_init_verify cmd nsid slba nlb control cev data
    data_len metadata metadata_len)
| b_resv_register cmd nsid rrega iekey disnsrs cptpl crkey nrkey payload : in_width 32 nsid →
    in_width 32 rrega → in_width 32 cptpl → in_width 64 crkey → in_width 64 nrkey → build cmd (fst
    (nvme_init_resv_register cmd nsid rrega iekey disnsrs cptpl crkey nrkey payload))
| b_resv_report cmd nsid eds disnsrs report len : in_width 32 nsid → in_width 32 len → build cmd
    (nvme_init_resv_report cmd nsid eds disnsrs report len)
| b_resv_acquire cmd nsid racqa iekey disnsrs rtype crkey prkey payload : in_width 32 nsid →
    in_width 32 racqa → in_width 32 rtype → in_width 64 crkey → in_width 64 prkey → build cmd (fst
    (nvme_init_resv_acquire cmd nsid racqa iekey disnsrs rtype crkey prkey payload))
| b_io_mgmt_recv cmd nsid mo mos data len : in_width 32 nsid → in_width 8 mo → in_width 16 mos →
    in_width 32 len → build cmd (nvme_init_io_mgmt_recv cmd nsid mo mos data len)
| b_fdp_reclaim_unit_handle_status cmd nsid data len : in_width 32 nsid → in_width 32 len → build
    cmd (nvme_init_fdp_reclaim_unit_handle_status cmd nsid data len)
| b_resv_release cmd nsid rrela iekey disnsrs rtype crkey payload : in_width 32 nsid → in_width 32
    rrela → in_width 32 rtype → in_width 64 crkey → build cmd (fst (nvme_init_resv_release cmd nsid
    rrela iekey disnsrs rtype crkey payload))
| b_copy cmd nsid sdlba nr desfmt prinfor prinfow cetype dtype stcw stcr fua lr cev dspec cpydsc :
    in_width 32 nsid → in_width 64 sdlba → in_width 16 nr → in_width 8 desfmt → in_width 8 prinfor →
    in_width 8 prinfow → in_width 8 cetype → in_width 8 dtype → in_width 16 cev → in_width 16 dspec
    → build cmd (nvme_init_copy cmd nsid sdlba nr desfmt prinfor prinfow cetype dtype stcw stcr fua
    lr cev dspec cpydsc)
| b_io_mgmt_send cmd nsid mo mos data len : in_width 32 nsid → in_width 8 mo → in_width 16 mos →
    in_width 32 len → build cmd (nvme_init_io_mgmt_send cmd nsid mo mos data len)
| b_fdp_reclaim_unit_handle_update cmd nsid pids npids : in_width 32 nsid → in_width 32 npids →
    build cmd (nvme_init_fdp_reclaim_unit_handle_update cmd nsid pids npids)
| b_app_tag cmd lbat lbatm : in_width 16 lbat → in_width 16 lbatm → build cmd (nvme_init_app_tag cmd
    lbat lbatm)
| b_var_size_tags cmd pif sts reftag storage_tag cmd' : in_width 8 pif → in_width 8 sts → in_width
    64 reftag → in_width 64 storage_tag → nvme_init_var_size_tags cmd pif sts reftag storage_tag =
    Ok cmd' → build cmd cmd'
| b_get_log_zns_changed_zones cmd nsid log : in_width 32 nsid → build cmd
    (nvme_init_get_log_zns_changed_zones cmd nsid log)
| b_zns_identify_ns cmd nsid data : in_width 32 nsid → build cmd (nvme_init_zns_identify_ns cmd nsid
    data)
| b_zns_identify_ctrl cmd id : build cmd (nvme_init_zns_identify_ctrl cmd id)
| b_zns_mgmt_send cmd nsid slba zsa selall zsaso zm data len : in_width 32 nsid → in_width 64 slba →
    in_width 32 zsa → in_width 8 zsaso → in_width 8 zm → in_width 32 len → build cmd
    (nvme_init_zns_mgmt_send cmd nsid slba zsa selall zsaso zm data len)
| b_zns_mgmt_recv cmd nsid slba zra zras zraspf data len : in_width 32 nsid → in_width 64 slba →
    in_width 32 zra → in_width 16 zras → in_width 32 len → build cmd (nvme_init_zns_mgmt_recv cmd
    nsid slba zra zras zraspf data len)
| b_zns_report_zones cmd nsid slba opts extended partial data len : in_width 32 nsid → in_width 64
    slba → in_width 32 opts → in_width 32 len → build cmd (nvme_init_zns_report_zones cmd nsid slba
    opts extended partial data len)
| b_zns_append cmd nsid zslba nlb control cev dspec data data_len metadata metadata_len : in_width
    32 nsid → in_width 64 zslba → in_width 16 nlb → in_width 16 control → in_width 16 cev → in_width
    16 dspec → in_width 32 data_len → in_width 32 metadata_len → build cmd (nvme_init_zns_append cmd
    nsid zslba nlb control cev dspec data data_len metadata metadata_len)
| b_get_log_mi_cmd_supported_effects cmd log : build cmd (nvme_init_get_log_mi_cmd_supported_effects
    cmd log)
| b_mi_cmd_flags cmd ish : build cmd (nvme_init_mi_cmd_flags cmd ish).

(** The builders, to be unfolded into their assignments. *)
Create HintDb builders.
#[export] Hint Unfold
  nvme_init_get_log nvme_init_get_log_lpo nvme_init_get_log_supported_log_pages
  nvme_init_get_log_error nvme_init_get_log_smart nvme_init_get_log_fw_slot
  nvme_init_get_log_changed_ns nvme_init_get_log_cmd_effects nvme_init_get_log_device_self_test
  nvme_init_get_log_telemetry_host nvme_init_get_log_create_telemetry_host
  nvme_init_get_log_create_telemetry_host_mcda nvme_init_get_log_telemetry_ctrl
  nvme_init_get_log_endurance_group nvme_init_get_log_predictable_lat_nvmset
  nvme_init_get_log_predictable_lat_event nvme_init_get_log_ana nvme_init_get_log_ana_groups
  nvme_init_get_log_persistent_event nvme_init_get_log_lba_status
  nvme_init_get_log_endurance_grp_evt nvme_init_get_log_media_unit_stat
  nvme_init_get_log_support_cap_config_list nvme_init_get_log_fid_supported_effects
  nvme_init_get_log_lockdown nvme_init_get_log_boot_partition
  nvme_init_get_log_rotational_media_info nvme_init_get_log_dispersed_ns_participating_nss
  nvme_init_get_log_mgmt_addr_list nvme_init_get_log_power_measurement
  nvme_init_get_log_voltage_measurement nvme_init_get_log_phy_rx_eom
  nvme_init_get_log_reachability_groups nvme_init_get_log_reachability_associations
  nvme_init_get_log_changed_alloc_ns nvme_init_get_log_fdp_configurations
  nvme_init_get_log_reclaim_unit_handle_usage nvme_init_get_log_fdp_events
  nvme_init_get_log_rate_limiting nvme_init_get_log_host_addressable_ns
  nvme_init_get_log_reservation nvme_init_get_log_sanitize
  nvme_init_get_log_mfg_default_config_status nvme_init_get_log_dev_personality nvme_init_identify
  nvme_init_identify_ns nvme_init_identify_ctrl nvme_init_identify_active_ns_list
  nvme_init_identify_ns_descs_list nvme_init_identify_nvmset_list nvme_init_identify_csi_ns
  nvme_init_identify_csi_ctrl nvme_init_identify_csi_active_ns_list
  nvme_init_identify_csi_independent_identify_id_ns nvme_init_identify_ns_user_data_format
  nvme_init_identify_csi_ns_user_data_format nvme_init_identify_allocated_ns_list
  nvme_init_identify_allocated_ns nvme_init_identify_ns_ctrl_list nvme_init_identify_ctrl_list
  nvme_init_identify_primary_ctrl_cap nvme_init_identify_secondary_ctrl_list
  nvme_init_identify_ns_granularity nvme_init_identify_uuid_list nvme_init_identify_domain_list
  nvme_init_identify_endurance_group_id nvme_init_identify_csi_allocated_ns_list
  nvme_init_identify_csi_id_ns_data_structure nvme_init_identify_command_set_structure
  nvme_init_identify_underlying_ns_list nvme_init_identify_ports_list
  nvme_init_identify_iocs_ind_id_alloc_ns nvme_init_identify_supported_ctrl_state_formats
  nvme_init_identify_underlying_ctrl_list nvme_init_identify_exported_nvm_subsys_template_uuid_list
  nvme_init_abort nvme_init_async_event nvme_init_set_features nvme_init_set_features_arbitration
  nvme_init_set_features_power_mgmt nvme_init_set_features_lba_range
  nvme_init_set_features_temp_thresh nvme_init_set_features_err_recovery
  nvme_init_set_features_volatile_wc nvme_init_set_features_irq_coalesce
  nvme_init_set_features_irq_config nvme_init_set_features_write_atomic
  nvme_init_set_features_async_event nvme_init_set_features_auto_pst
  nvme_init_set_features_timestamp nvme_init_set_features_hctm nvme_init_set_features_nopsc
  nvme_init_set_features_rrl nvme_init_set_features_plm_config nvme_init_set_features_plm_window
  nvme_init_set_features_lba_sts_interval nvme_init_set_features_host_behavior
  nvme_init_set_features_sanitize nvme_init_set_features_endurance_evt_cfg
  nvme_init_set_features_sw_progress nvme_init_set_features_host_id
  nvme_init_set_features_resv_nf_mask nvme_init_set_features_resv_persist
  nvme_init_set_features_write_protect nvme_init_set_features_iocs_profile
  nvme_init_lm_set_features_ctrl_data_queue nvme_init_set_features_rate_limiting
  nvme_init_set_features_spinup_control nvme_init_set_features_power_loss_signal
  nvme_init_set_features_perf_characteristics nvme_init_set_features_fdp
  nvme_init_set_features_fdp_events nvme_init_set_features_ns_admin_label
  nvme_init_set_features_personality nvme_init_set_features_power_limit
  nvme_init_set_features_power_threshold nvme_init_set_features_power_measurement
  nvme_init_set_features_voltage_threshold nvme_init_set_features_voltage_measurement
  nvme_init_set_features_emb_mgmt_ctrl_addr nvme_init_set_features_host_mgmt_agent_addr
  nvme_init_set_features_enh_ctrl_metadata nvme_init_set_features_ctrl_metadata
  nvme_init_set_features_ns_metadata nvme_init_set_features_bp_write_protect nvme_init_get_features
  nvme_init_get_features_arbitration nvme_init_get_features_power_mgmt
  nvme_init_get_features_lba_range nvme_init_get_features_temp_thresh
  nvme_init_get_features_err_recovery nvme_init_get_features_volatile_wc
  nvme_init_get_features_num_queues nvme_init_get_features_irq_coalesce
  nvme_init_get_features_irq_config nvme_init_get_features_write_atomic
  nvme_init_get_features_async_event nvme_init_get_features_auto_pst
  nvme_init_get_features_host_mem_buf nvme_init_get_features_timestamp nvme_init_get_features_kato
  nvme_init_get_features_hctm nvme_init_get_features_nopsc nvme_init_get_features_rrl
  nvme_init_get_features_plm_config nvme_init_get_features_plm_window
  nvme_init_get_features_lba_sts_interval nvme_init_get_features_host_behavior
  nvme_init_get_features_sanitize nvme_init_get_features_endurance_event_cfg
  nvme_init_get_features_sw_progress nvme_init_get_features_host_id
  nvme_init_get_features_resv_nf_mask nvme_init_get_features_resv_persist
  nvme_init_get_features_write_protect nvme_init_get_features_iocs_profile
  nvme_init_lm_get_features_ctrl_data_queue nvme_init_get_features_rate_limiting
  nvme_init_get_features_spinup_control nvme_init_get_features_power_loss_signal
  nvme_init_get_features_perf_characteristics nvme_init_get_features_fdp
  nvme_init_get_features_fdp_events nvme_init_get_features_ns_admin_label
  nvme_init_get_features_personality nvme_init_get_features_power_limit
  nvme_init_get_features_power_threshold nvme_init_get_features_power_measurement
  nvme_init_get_features_voltage_threshold nvme_init_get_features_voltage_measurement
  nvme_init_get_features_emb_mgmt_ctrl_addr nvme_init_get_features_host_mgmt_agent_addr
  nvme_init_get_features_enh_ctrl_metadata nvme_init_get_features_ctrl_metadata
  nvme_init_get_features_ns_metadata nvme_init_get_features_bp_write_protect nvme_init_ns_mgmt
  nvme_init_ns_mgmt_create nvme_init_ns_mgmt_delete nvme_init_ns_mgmt_restore_default_config
  nvme_init_fw_commit nvme_init_fw_download nvme_init_dev_self_test nvme_init_ns_attach
  nvme_init_ns_attach_ctrls nvme_init_ns_detach_ctrls nvme_init_keep_alive nvme_init_directive_send
  nvme_init_directive_send_id_endir nvme_init_directive_send_stream_release_identifier
  nvme_init_directive_send_stream_release_resource nvme_init_directive_recv
  nvme_init_directive_recv_identify_parameters nvme_init_directive_recv_stream_parameters
  nvme_init_directive_recv_stream_allocate nvme_init_directive_recv_stream_status
  nvme_init_virtual_mgmt nvme_init_capacity_mgmt nvme_init_capacity_mgmt_restore_default_config
  nvme_init_dim_send nvme_init_clear_export_nvm_res nvme_init_manage_export_nvms_receive
  nvme_init_manage_export_nvms_receive_create nvme_init_manage_export_nvms_receive_list_subsystems
  nvme_init_manage_export_nvms_receive_list_namespaces
  nvme_init_manage_export_nvms_receive_list_controllers
  nvme_init_manage_export_nvms_receive_list_ports nvme_init_manage_export_ns
  nvme_init_manage_export_ns_associate nvme_init_manage_export_ns_disassociate
  nvme_init_manage_export_nvms_send nvme_init_manage_export_nvms_send_delete
  nvme_init_manage_export_nvms_send_change_access_mode
  nvme_init_manage_export_nvms_send_grant_host_access
  nvme_init_manage_export_nvms_send_revoke_host_access
  nvme_init_manage_export_nvms_send_associate_controllers
  nvme_init_manage_export_nvms_send_set_config_state nvme_init_lockdown nvme_init_lm_track_send
  nvme_init_lm_track_receive nvme_init_lm_migration_send nvme_init_lm_migration_recv
  nvme_init_lm_cdq_create nvme_init_lm_cdq_delete nvme_init_format_nvm nvme_init_security_send
  nvme_init_security_receive nvme_init_sanitize_nvm nvme_init_get_lba_status nvme_init_sanitize_ns
  nvme_init_get_log_discovery nvme_init_get_log_host_discovery nvme_init_get_log_ave_discovery
  nvme_init_get_log_pull_model_ddc_req nvme_init_cross_ctrl_reset nvme_init_fabric_zoning_lookup
  nvme_init_fabric_zoning_receive nvme_init_fabric_zoning_send nvme_init_send_discovery_log_page
  nvme_init_manage_export_port nvme_init_manage_export_port_create
  nvme_init_manage_export_port_delete nvme_init_get_log_cross_ctrl_reset
  nvme_init_get_log_lost_host_comm nvme_init_set_property nvme_init_get_property nvme_init_auth_send
  nvme_init_auth_receive nvme_init_flush nvme_init_cancel nvme_init_io nvme_init_write
  nvme_init_read nvme_init_write_uncorrectable nvme_init_compare nvme_init_write_zeros nvme_init_dsm
  nvme_init_verify nvme_init_resv_register nvme_init_resv_report nvme_init_resv_acquire
  nvme_init_io_mgmt_recv nvme_init_fdp_reclaim_unit_handle_status nvme_init_resv_release
  nvme_init_copy nvme_init_io_mgmt_send nvme_init_fdp_reclaim_unit_handle_update nvme_init_app_tag
  nvme_init_var_size_tags nvme_init_get_log_zns_changed_zones nvme_init_zns_identify_ns
  nvme_init_zns_identify_ctrl nvme_init_zns_mgmt_send nvme_init_zns_mgmt_recv
  nvme_init_zns_report_zones nvme_init_zns_append nvme_init_get_log_mi_cmd_supported_effects
  nvme_init_mi_cmd_flags : builders.

Lemma var_size_tags_width pif sts reftag tag c2 c3 c14 :
  var_size_tags pif sts reftag tag = Ok (c2, c3, c14) → in_width 32 c2 ∧ in_width 32 c3 ∧ in_width 32 c14.
Proof.
  unfold var_size_tags. repeat match goal with |- (if ?b then _ else _) = _ → _ => destruct b end; try done;
    intros [= <- <- <-]; split_and!; in_width.
Qed.

(** The checks of a builder that can fail. *)
Ltac passed_checks :=
  repeat match goal with
  | H : (if ?b then Err _ else _) = Ok _ |- _ => destruct b; [discriminate H|]
  | H : Ok _ = Ok _ |- _ => injection H as <-
  end.

Lemma build_wf c c' : build c c' → cmd_wf c → cmd_wf c'.
Proof.
  intros Hb Hc. destruct Hb; autounfold with builders in *; cbv zeta in *; cbn [fst]; passed_checks;
    repeat set_wf.
  - (* lm_migration_recv *) destruct (sel =? _); repeat set_wf.
  - (* var_size_tags *)
    match goal with H : _ ≫= _ = Ok _ |- _ => apply bind_Ok in H as ([[c2 c3] c14] & Ht & [= <-]) end.
    apply var_size_tags_width in Ht as (? & ? & ?). repeat set_wf.
Qed.

(** Every command made by any sequence of builders, called with arguments of
    their C types and from a command that is zero, has each member of the
    structure in the range of its C type.  (Where the fields of a dword are
    placed is the subject of CommandsView.) *)
Theorem commands_wf c : rtc build cmd_zero c → cmd_wf c.
Proof.
  intros Hr. refine (rtc_ind_r (λ c, cmd_wf c) _ _ _ c Hr); [apply cmd_zero_wf|].
  intros d e _ Hb Hd. by eapply build_wf.
Qed.

Lemma commands_wf_witness :
  cmd_wf (nvme_init_get_log_lpo (nvme_init_get_log cmd_zero 1 NVME_LOG_LID_ANA 0 4096 8192) (2 ^ 33)).
Proof.
  apply commands_wf. eapply rtc_l.
  - apply (b_get_log cmd_zero 1 NVME_LOG_LID_ANA 0 4096 8192); vm_compute; split; congruence.
  - apply rtc_once. apply b_get_log_lpo. vm_compute. split; congruence.
Defined.
