(* ===== verification/CommandsView.v ===== *)
(** * What the controller reads

    The controller takes a command apart again: [View] is its side of the
    fields, after the figures of the NVMe specification the constants are
    named for.  The theorems say that it reads what the caller of a builder
    meant. *)

From stdpp Require Import base list numbers.
From S2P Require Import Prelude.
From S2P Require Import Passthru.
From S2P Require Import NvmeConst.
From S2P Require Import Commands.

#[local] Open Scope cmd_scope.

Module View.

(** Get Log Page: the page, how many bytes of it and from which offset. *)
Definition lid (c : libnvme_passthru_cmd) : Z :=
  NVME_GET (cdw10 c) NVME_LOG_CDW10_LID_SHIFT NVME_LOG_CDW10_LID_MASK.
Definition lsp (c : libnvme_passthru_cmd) : Z :=
  NVME_GET (cdw10 c) NVME_LOG_CDW10_LSP_SHIFT NVME_LOG_CDW10_LSP_MASK.
Definition rae (c : libnvme_passthru_cmd) : Z :=
  NVME_GET (cdw10 c) NVME_LOG_CDW10_RAE_SHIFT NVME_LOG_CDW10_RAE_MASK.
Definition lsi (c : libnvme_passthru_cmd) : Z :=
  NVME_GET (cdw11 c) NVME_LOG_CDW11_LSI_SHIFT NVME_LOG_CDW11_LSI_MASK.
Definition log_csi (c : libnvme_passthru_cmd) : Z :=
  NVME_GET (cdw14 c) NVME_LOG_CDW14_CSI_SHIFT NVME_LOG_CDW14_CSI_MASK.
Definition numd (c : libnvme_passthru_cmd) : Z :=
  NVME_GET (cdw10 c) NVME_LOG_CDW10_NUMDL_SHIFT NVME_LOG_CDW10_NUMDL_MASK +
  2 ^ 16 * NVME_GET (cdw11 c) NVME_LOG_CDW11_NUMDU_SHIFT NVME_LOG_CDW11_NUMDU_MASK.
Definition log_bytes (c : libnvme_passthru_cmd) : Z := 4 * (numd c + 1).
Definition lpo (c : libnvme_passthru_cmd) : Z := cdw12 c + 2 ^ 32 * cdw13 c.

(** I/O commands: the first block, the number of blocks minus one, and the
    control bits. *)
Definition slba (c : libnvme_passthru_cmd) : Z := cdw10 c + 2 ^ 32 * cdw11 c.
Definition nlb (c : libnvme_passthru_cmd) : Z :=
  NVME_GET (cdw12 c) NVME_IOCS_COMMON_CDW12_NLB_SHIFT NVME_IOCS_COMMON_CDW12_NLB_MASK.
Definition control (c : libnvme_passthru_cmd) : Z :=
  NVME_GET (cdw12 c) NVME_IOCS_COMMON_CDW12_CONTROL_SHIFT NVME_IOCS_COMMON_CDW12_CONTROL_MASK.

(** The storage and reference tags: dwords 2, 3 and 14 as one number, and its
    size for each guard format: 16-bit (0), 32-bit (1) and 64-bit (2) guards. *)
Definition tags (c : libnvme_passthru_cmd) : Z := cdw14 c + 2 ^ 32 * cdw3 c + 2 ^ 64 * cdw2 c.
Definition tag_bits (pif : Z) : Z := if pif =? 0 then 32 else if pif =? 1 then 80 else 48.
(** The sizes of the storage tag that a format allows. *)
Definition sts_ok (pif sts : Z) : bool :=
  if pif =? 0 then sts <=? 32
  else if pif =? 1 then (16 <=? sts) && (sts <=? 64)
  else if pif =? 2 then sts <=? 48
  else false.

End View.

(** ** Lemmas *)

Lemma land_width k v : 0 ≤ k → in_width k v → Z.land v (2 ^ k - 1) = v.
Proof. apply land_id. Qed.

Lemma encode_full v : NVME_FIELD_ENCODE v 0 0xffffffff = u32 v.
Proof.
  unfold NVME_FIELD_ENCODE. rewrite Z.shiftl_0_r. change 0xffffffff with (2 ^ 32 - 1).
  rewrite land_width by (lia || apply u32_width). apply Z.mod_small, u32_width.
Qed.

Lemma u32_lor a b : u32 (a .| b) = u32 a .| u32 b.
Proof. rewrite !u32_land. apply Z.land_lor_distr_l. Qed.

Lemma u32_u64 a : u32 (u64 a) = u32 a.
Proof. unfold u32, u64. divmod. Qed.

(** A 64-bit value in two dwords. *)
Lemma split64 v : in_width 64 v → u32 v + 2 ^ 32 * u32 (Z.shiftr v 32) = v.
Proof. unfold in_width, u32. intros Hv. rewrite Z.shiftr_div_pow2 by lia. divmod. Qed.

Lemma land_low v : u32 (Z.land v 0xffffffff) = u32 v.
Proof. change 0xffffffff with (2 ^ 32 - 1). rewrite land_ones_mod by lia. unfold u32. divmod. Qed.

Lemma numd_split n :
  in_width 32 n → Z.land (u16 (Z.land n 0xffff)) 0xffff + 2 ^ 16 * Z.land (u16 (Z.shiftr n 16)) 0xffff = n.
Proof.
  unfold in_width, u16. intros Hn. change 0xffff with (2 ^ 16 - 1).
  rewrite !land_ones_mod, Z.shiftr_div_pow2 by lia. divmod.
Qed.

(** ** Theorems *)

(** A Get Log Page command asks for exactly the page and command set the
    caller named, for as many bytes as its buffer has, from offset 0; setting
    the offset afterwards changes the offset to exactly the 64-bit value
    given and nothing else.  The length has to be a multiple of 4, as the
    command counts dwords. *)
Theorem get_log_view cmd ns id csi data len off :
  in_width 32 ns → in_width 8 id → in_width 8 csi → in_width 64 data → in_width 32 len →
  4 ≤ len → len mod 4 = 0 → in_width 64 off →
  let c := nvme_init_get_log cmd ns id csi data len in
  let c' := nvme_init_get_log_lpo c off in
  (opcode c = nvme_admin_get_log_page ∧ nsid c = ns ∧ View.lid c = id ∧ View.log_csi c = csi ∧
   View.lsp c = 0 ∧ View.rae c = 0 ∧ View.lsi c = 0 ∧
   View.log_bytes c = len ∧ data_len c = len ∧ addr c = data ∧ View.lpo c = 0) ∧
  View.lpo c' = off ∧ View.lid c' = id ∧ View.log_bytes c' = len ∧ addr c' = data.
Proof.
  intros Hns Hid Hcsi Hd Hl H4 Hm Ho. cbv zeta.
  assert (∀ n, in_width 32 n → Z.shiftr n 2 - 1 = n / 4 - 1) as Hs
    by (intros n _; by rewrite Z.shiftr_div_pow2 by lia).
  assert (in_width 32 (len / 4 - 1)) as Hw by (unfold in_width in *; split; divmod).
  unfold View.lid, View.log_csi, View.lsp, View.rae, View.lsi, View.log_bytes, View.numd, View.lpo,
    nvme_init_get_log_lpo, nvme_init_get_log. cbn. rewrite Hs by done.
  rewrite (u32_small (len / 4 - 1)), (u64_small data), land_low by done.
  pose proof (numd_split _ Hw) as Hn. pose proof (land_width 8 id ltac:(lia) Hid) as Hi.
  pose proof (land_width 8 csi ltac:(lia) Hcsi) as Hc.
  split_and!; try done; get_fields; try done; [|by apply split64|];
    (etransitivity; [apply (f_equal (λ n, 4 * (n + 1))); exact Hn|divmod]).
Qed.

Lemma get_log_view_witness :
  View.log_bytes (nvme_init_get_log cmd_zero 1 NVME_LOG_LID_ANA 0 4096 8192) = 8192.
Proof.
  apply (get_log_view cmd_zero 1 NVME_LOG_LID_ANA 0 4096 8192 0);
    vm_compute; first [reflexivity|congruence|split; congruence].
Defined.

(** The commands that move blocks name exactly the namespace, the 64-bit
    first block, the number of blocks and the control bits the caller
    gave, and the buffers it gave. *)
Theorem io_view cmd ns slba nlb control dspec dsm cev data len md mdlen c :
  in_width 32 ns → in_width 64 slba → in_width 16 nlb → in_width 16 control → in_width 64 data →
  in_width 64 md →
  c ∈ [nvme_init_read cmd ns slba nlb control dsm cev data len md mdlen;
       nvme_init_write cmd ns slba nlb control dspec dsm cev data len md mdlen;
       nvme_init_compare cmd ns slba nlb control cev data len md mdlen;
       nvme_init_verify cmd ns slba nlb control cev data len md mdlen;
       nvme_init_zns_append cmd ns slba nlb control cev dspec data len md mdlen] →
  nsid c = ns ∧ View.slba c = slba ∧ View.nlb c = nlb ∧ View.control c = control ∧
  addr c = data ∧ data_len c = len ∧ metadata c = md ∧ metadata_len c = mdlen.
Proof.
  intros Hns Hs Hn Hc Hd Hm. pose proof (split64 slba Hs) as Hsl.
  pose proof (land_width 16 nlb ltac:(lia) Hn) as Hnl. pose proof (land_width 16 control ltac:(lia) Hc) as Hcl.
  rewrite !elem_of_cons. intros H. repeat destruct H as [->|H]; [..|by apply not_elem_of_nil in H];
    unfold View.slba, View.nlb, View.control, nvme_init_read, nvme_init_write, nvme_init_compare,
      nvme_init_verify, nvme_init_zns_append, nvme_init_io; cbv zeta;
    try match goal with |- context [negb (?a =? ?b)] => destruct (negb (a =? b)) end;
    cbn; rewrite ?encode_full, ?(u64_small data), ?(u64_small md) by done;
    split_and!; try done; get_fields; try done.
Qed.

Lemma io_view_witness :
  View.slba (nvme_init_write cmd_zero 1 (2 ^ 40 + 5) 7 0 0 0 0 4096 4096 0 0) = 2 ^ 40 + 5.
Proof.
  apply (io_view cmd_zero 1 (2 ^ 40 + 5) 7 0 0 0 0 4096 4096 0 0);
    [vm_compute; split; congruence..|]. right. left.
Defined.

(** *** Storage and reference tags *)

Lemma u32_shiftl_high a k : 32 ≤ k → u32 (Z.shiftl a k) = 0.
Proof.
  intros Hk. unfold u32. rewrite Z.shiftl_mul_pow2 by lia.
  replace (2 ^ k) with (2 ^ (k - 32) * 2 ^ 32) by (rewrite <- Z.pow_add_r by lia; f_equal; lia).
  rewrite Z.mul_assoc. by apply Z_mod_mult.
Qed.

(** The bits that the mask [0xffff0000] drops are zero. *)
Lemma land_high16 a k : 16 ≤ k → Z.land (u64 (Z.shiftl a k)) 0xffff0000 = Z.land (u64 (Z.shiftl a k)) 0xffffffff.
Proof.
  intros Hk. apply Z.bits_inj'. intros i Hi. rewrite !Z.land_spec.
  destruct (Z.lt_ge_cases i 16) as [Hlt|Hge].
  - replace (Z.testbit (u64 (Z.shiftl a k)) i) with false; [done|]. unfold u64.
    rewrite Z.mod_pow2_bits_low, Z.shiftl_spec, Z.testbit_neg_r by lia. done.
  - f_equal. change 0xffff0000 with (Z.shiftl (Z.ones 16) 16). change 0xffffffff with (Z.ones 32).
    rewrite Z.shiftl_spec, !Z.testbit_ones_nonneg by lia.
    destruct (Z.ltb_spec (i - 16) 16), (Z.ltb_spec i 32); lia || done.
Qed.

Lemma encode_low16 v : in_width 16 v → NVME_FIELD_ENCODE v 0 0xffff = v.
Proof.
  intros Hv. unfold NVME_FIELD_ENCODE. rewrite Z.shiftl_0_r. unfold in_width in Hv.
  rewrite (u32_small v) by lia. change 0xffff with (2 ^ 16 - 1). rewrite land_id by lia.
  apply u32_small. lia.
Qed.

(** The tags of a number of up to 96 bits in three dwords. *)
Lemma split_tags x :
  0 ≤ x < 2 ^ 96 → u32 x + 2 ^ 32 * u32 (Z.shiftr x 32) + 2 ^ 64 * Z.shiftr x 64 = x.
Proof. intros Hx. unfold u32. rewrite !Z.shiftr_div_pow2 by lia. divmod. Qed.

Lemma shiftr_width_pow w n v : 0 ≤ n ≤ w → in_width w v → in_width (w - n) (Z.shiftr v n).
Proof.
  unfold in_width. intros Hn Hv. rewrite Z.shiftr_div_pow2 by lia. split; [apply Z.div_pos; lia|].
  apply Z.div_lt_upper_bound; [lia|]. rewrite <- Z.pow_add_r by lia. replace (n + (w - n)) with w by lia. lia.
Qed.
Lemma shiftl_width_pow w n v : 0 ≤ n → 0 ≤ w → in_width w v → in_width (w + n) (Z.shiftl v n).
Proof.
  unfold in_width. intros Hn Hw Hv. rewrite Z.shiftl_mul_pow2, Z.pow_add_r by lia.
  pose proof (Z.pow_pos_nonneg 2 n). nia.
Qed.
Lemma shiftr_small n v : 0 ≤ n → in_width n v → Z.shiftr v n = 0.
Proof. unfold in_width. intros Hn Hv. rewrite Z.shiftr_div_pow2 by lia. by apply Z.div_small. Qed.

(** The value in the tag field: the storage tag above the reference tag. *)
Definition tag_value (pif sts reftag storage_tag : Z) : Z :=
  Z.shiftl storage_tag (View.tag_bits pif - sts) .| reftag.

Lemma tag_value_bound b sts reftag tag :
  0 ≤ sts ≤ b → in_width sts tag → in_width (b - sts) reftag → in_width b (Z.shiftl tag (b - sts) .| reftag).
Proof.
  intros Hb Ht Hr. apply lor_width; [lia| |apply (width_le (b - sts)); [lia|done]].
  replace b with (sts + (b - sts)) at 1 by lia. apply shiftl_width_pow; [lia|lia|done].
Qed.

(** The dwords above the lowest of a shifted tag. *)
Lemma shiftr_tag_up a k n : 0 ≤ n ≤ k → Z.shiftr (Z.shiftl a k) n = Z.shiftl a (k - n).
Proof. intros Hn. by rewrite Z.shiftr_shiftl_l by lia. Qed.
Lemma shiftr_tag_down a k n : 0 ≤ k ≤ n → Z.shiftr (Z.shiftl a k) n = Z.shiftr a (n - k).
Proof. intros Hn. by rewrite Z.shiftr_shiftl_r by lia. Qed.

Lemma u32_mask a : u32 (Z.land a 0xffffffff) = u32 a.
Proof. apply land_low. Qed.

Lemma u32_mask16 a : in_width 16 a → u32 (Z.land a 0xffff) = u32 a.
Proof. intros Ha. f_equal. by apply (land_width 16). Qed.

(** The dwords of the tags are the dwords of [tag_value]. *)
Lemma var_size_tags_value pif sts reftag tag :
  View.sts_ok pif sts = true → 0 ≤ sts → in_width sts tag → in_width (View.tag_bits pif - sts) reftag →
  let x := tag_value pif sts reftag tag in
  var_size_tags pif sts reftag tag = Ok (Z.shiftr x 64, u32 (Z.shiftr x 32), u32 x).
Proof.
  unfold View.sts_ok, View.tag_bits, var_size_tags, tag_value, View.tag_bits,
    NVME_NVM_PIF_16B_GUARD, NVME_NVM_PIF_32B_GUARD, NVME_NVM_PIF_64B_GUARD.
  intros Hok Hs Ht Hr. cbv zeta. rewrite !encode_full.
  destruct (pif =? 0); [|destruct (pif =? 1);
    [|destruct (pif =? 2); [|done]]]; to_prop;
    rewrite !Z.shiftr_lor, !u32_lor, ?u32_u64.
  - replace (32 <? sts) with false by (symmetry; apply Z.ltb_ge; lia).
    assert (in_width 32 (Z.shiftl tag (32 - sts))) as Hx.
    { replace 32 with (sts + (32 - sts)) at 1 by lia. apply shiftl_width_pow; [lia|lia|done]. }
    assert (in_width 32 reftag) as Hy by (apply (width_le (32 - sts)); [lia|done]).
    rewrite !(shiftr_small 64), !(shiftr_small 32) by (lia || done || (apply (width_le 32); [lia|done])).
    cbn. by rewrite Z.lor_comm.
  - replace ((sts <? 16) || (64 <? sts)) with false
      by (symmetry; apply orb_false_iff; rewrite !Z.ltb_ge; lia).
    assert (in_width 64 reftag) as Hy by (apply (width_le (80 - sts)); [lia|done]).
    rewrite (shiftr_small 64 reftag), Z.lor_0_r, (shiftr_tag_down tag (80 - sts) 64) by (lia || done).
    replace (64 - (80 - sts)) with (sts - 16) by lia.
    rewrite encode_low16 by (replace 16 with (sts - (sts - 16)) at 1 by lia; apply shiftr_width_pow; [lia|done]).
    do 2 f_equal; [f_equal|].
    + destruct (Z.leb_spec 48 sts); rewrite Z.lor_comm; f_equal; f_equal.
      * rewrite shiftr_tag_down by lia. f_equal. lia.
      * rewrite shiftr_tag_up by lia. f_equal. lia.
    + rewrite Z.lor_comm. destruct (Z.ltb_spec 16 sts).
      * by rewrite land_high16, u32_mask, u32_u64 by lia.
      * by rewrite (u32_shiftl_high tag), Z.lor_0_l by lia.
  - replace (48 <? sts) with false by (symmetry; apply Z.ltb_ge; lia).
    assert (in_width 48 (Z.shiftl tag (48 - sts))) as Hx.
    { replace 48 with (sts + (48 - sts)) at 1 by lia. apply shiftl_width_pow; [lia|lia|done]. }
    assert (in_width 48 reftag) as Hy by (apply (width_le (48 - sts)); [lia|done]).
    rewrite !(shiftr_small 64) by (lia || (apply (width_le 48); [lia|done])).
    do 2 f_equal; [f_equal|by rewrite Z.lor_comm].
    pose proof (shiftr_width_pow 48 32 reftag ltac:(lia) Hy) as Hy'.
    pose proof (shiftr_width_pow 48 32 _ ltac:(lia) Hx) as Hx'.
    rewrite (u32_mask16 (Z.shiftr reftag 32)) by done.
    destruct (Z.leb_spec 16 sts); rewrite Z.lor_comm; f_equal.
    + rewrite shiftr_tag_down in * by lia. replace (32 - (48 - sts)) with (sts - 16) in * by lia.
      by rewrite u32_mask16.
    + rewrite shiftr_tag_up in * by lia. replace (48 - sts - 32) with (16 - sts) in * by lia.
      rewrite (u64_small (Z.shiftl _ _)) by (apply (width_le 16); [lia|done]). by rewrite u32_mask16.
Qed.

Lemma sts_ok_false pif sts reftag tag :
  View.sts_ok pif sts = false → var_size_tags pif sts reftag tag = Err EINVAL.
Proof.
  unfold View.sts_ok, var_size_tags, NVME_NVM_PIF_16B_GUARD, NVME_NVM_PIF_32B_GUARD, NVME_NVM_PIF_64B_GUARD. cbv zeta.
  destruct (pif =? 0); [|destruct (pif =? 1);
    [|destruct (pif =? 2); [|done]]]; intros H.
  - by replace (32 <? sts) with true by (symmetry; apply Z.ltb_lt; to_prop; lia).
  - replace ((sts <? 16) || (64 <? sts)) with true; [done|]. symmetry. rewrite orb_true_iff, !Z.ltb_lt.
    apply andb_false_iff in H as [H|H]; to_prop; lia.
  - by replace (48 <? sts) with true by (symmetry; apply Z.ltb_lt; to_prop; lia).
Qed.

(** C34: [nvme_init_var_size_tags] refuses, with EINVAL, every guard format
    but the three of the NVMe specification and every size of the storage tag
    that the format does not allow (more than 32 bits with a 16-bit guard, less
    than 16 or more than 64 with a 32-bit guard, more than 48 with a 64-bit
    guard).  Otherwise, when the storage tag fits into its size and the
    reference tag into the bits that are left (tags with more bits are not
    covered: the code does not check them), the field of 32, 80 or 48 bits over
    dwords 14, 3 and 2 holds the storage tag directly above the reference tag,
    whatever the two sizes and wherever they meet a border of a dword, and no
    other field of the command changes. *)
Theorem var_size_tags_spec cmd pif sts reftag tag :
  (View.sts_ok pif sts = false → nvme_init_var_size_tags cmd pif sts reftag tag = Err EINVAL) ∧
  (View.sts_ok pif sts = true → 0 ≤ sts → in_width sts tag → in_width (View.tag_bits pif - sts) reftag →
   ∃ c, nvme_init_var_size_tags cmd pif sts reftag tag = Ok c ∧
     View.tags c = tag * 2 ^ (View.tag_bits pif - sts) + reftag ∧
     set_cdw14 (set_cdw3 (set_cdw2 c (cdw2 cmd)) (cdw3 cmd)) (cdw14 cmd) = cmd).
Proof.
  unfold nvme_init_var_size_tags. split; [intros E; by rewrite sts_ok_false|]. intros E Hs Ht Hr.
  rewrite var_size_tags_value by done. eexists. split; [reflexivity|]. split; [|by destruct cmd].
  assert (0 ≤ sts ≤ View.tag_bits pif ∧ View.tag_bits pif ≤ 80) as [Hb Hb'].
  { revert E. unfold View.sts_ok, View.tag_bits.
    destruct (pif =? 0); [|destruct (pif =? 1); [|destruct (pif =? 2); [|done]]]; intros; to_prop; lia. }
  pose proof (tag_value_bound _ _ _ _ Hb Ht Hr) as Hx. fold (tag_value pif sts reftag tag) in Hx.
  unfold View.tags. cbn. rewrite split_tags.
  - unfold tag_value. by rewrite lor_shiftl_add by (done || lia).
  - apply (width_le (View.tag_bits pif)); [lia|done].
Qed.

Lemma var_size_tags_spec_witness :
  (∃ c, nvme_init_var_size_tags cmd_zero 1 40 0x123456789a 0xabcdef0123 = Ok c ∧
     View.tags c = 0xabcdef0123 * 2 ^ 40 + 0x123456789a) ∧
  nvme_init_var_size_tags cmd_zero 2 49 5 7 = Err EINVAL.
Proof.
  destruct (var_size_tags_spec cmd_zero 1 40 0x123456789a 0xabcdef0123) as [_ Hok].
  destruct (var_size_tags_spec cmd_zero 2 49 5 7) as [Hno _]. split; [|apply Hno; reflexivity].
  destruct Hok as (c & Hc & Ht & _); [reflexivity|lia|vm_compute; split; congruence..|].
  exists c. split; [exact Hc|exact Ht].
Defined.
