(* ===== verification/GetLog.v ===== *)
(** * Reading log pages: [libnvme/src/nvme/nvme-cmds.c] over
    [libnvme/src/nvme/uring.c]

    [libnvme_get_log] reads a log page with one or more Get Log Page commands.
    On a controller's character device it queues them on an io_uring and
    waits for them at the end; elsewhere it sends them one by one.  A request
    on the ring holds a copy of the command for the kernel and a pointer to
    the caller's command, which the loop goes on to change: both are in the
    state here.

    The kernel and the controller are parameters: what the [n]-th command
    they see returns, which request of the ring is completed next, and
    whether the ring and the allocator accept a request. *)

From stdpp Require Import base list numbers.
From S2P Require Import Prelude.
From S2P Require Import CStr.
From S2P Require Import Io.
From S2P Require Import Passthru.
From S2P Require Import NvmeConst.
From S2P Require Import Commands.
From S2P Require Import CommandsView.

#[local] Open Scope cmd_scope.

(** ** The handle *)

Inductive handle_type := TYPE_UNKNOWN | DIRECT | MI | LOOPBACK | PRIVSEP.
Inductive libnvme_io_uring_state := URING_UNKNOWN | URING_NOT_AVAILABLE | URING_AVAILABLE.

#[export] Instance handle_type_eq_dec : EqDecision handle_type.
Proof. solve_decision. Defined.
#[export] Instance uring_state_eq_dec : EqDecision libnvme_io_uring_state.
Proof. solve_decision. Defined.

(** What does not change: the type of the handle, the timeout and whether
    the context forces transfers of 4 KiB. *)
Record handle := { h_type : handle_type; ns_chardev : bool; h_timeout : Z; force_4k : bool }.

(** What changes: the caller's buffer, the caller's command, the requests on
    the ring as the kernel has them, the state of the ring, and the commands
    the kernel has seen. *)
Record state := {
  mem : list Z;
  the_cmd : libnvme_passthru_cmd;
  ring : list libnvme_passthru_cmd;
  uring_state : libnvme_io_uring_state;
  sent : list libnvme_passthru_cmd }.

Definition set_mem (m : list Z) (s : state) : state :=
  {| mem := m; the_cmd := the_cmd s; ring := ring s; uring_state := uring_state s; sent := sent s |}.
Definition set_the_cmd (c : libnvme_passthru_cmd) (s : state) : state :=
  {| mem := mem s; the_cmd := c; ring := ring s; uring_state := uring_state s; sent := sent s |}.
Definition set_ring (r : list libnvme_passthru_cmd) (s : state) : state :=
  {| mem := mem s; the_cmd := the_cmd s; ring := r; uring_state := uring_state s; sent := sent s |}.
Definition set_uring_state (u : libnvme_io_uring_state) (s : state) : state :=
  {| mem := mem s; the_cmd := the_cmd s; ring := ring s; uring_state := u; sent := sent s |}.
Definition see (c : libnvme_passthru_cmd) (s : state) : state :=
  {| mem := mem s; the_cmd := the_cmd s; ring := ring s; uring_state := uring_state s;
     sent := sent s ++ [c] |}.

Abbreviation M A := (state → run state A) (only parsing).

#[local] Open Scope io_scope.

(** ** The environment *)

Record env := {
  (** the [n]-th command: its result and the bytes it transfers *)
  kernel : nat → libnvme_passthru_cmd → ret * list Z;
  (** [libnvme_probe_uring] and [libnvme_open_uring] *)
  open_uring : ret;
  (** after [n] commands: [calloc] succeeds, [io_uring_submit] and
      [io_uring_wait_cqe] return, a request of the ring is picked *)
  calloc_ok : nat → bool;
  uring_submit : nat → ret;
  wait_cqe : nat → ret;
  pick : nat → nat;
  (** the hook of the application *)
  decide_retry : nat → bool }.

(** The status code type of a completion. *)
Definition NVME_SCT_SHIFT : Z := 8.
Definition NVME_SCT_MASK : Z := 7.
Definition nvme_status_code_type (status_field : Z) : Z :=
  NVME_GET (u16 status_field) NVME_SCT_SHIFT NVME_SCT_MASK.

Definition NVME_URING_ENTRIES : nat := 16.

Section GetLog.
Context (E : env) (h : handle) (base : Z).

(** The hook may ask for a command again at most this often. *)
Context (retries : nat).

(** The address [a] is in the caller's buffer, which begins at [base]. *)
Definition dma (a : Z) (d : list Z) : M unit := λ s,
  if (base <=? a) && (a - base + Z.of_nat (length d) <=? Z.of_nat (length (mem s)))
  then Ret tt (set_mem (buf_write (mem s) (Z.to_nat (a - base)) d) s) else Wild.

(** The kernel runs a command. *)
Definition kernel_run (c : libnvme_passthru_cmd) : M ret :=
  let! n := get (λ s, length (sent s)) in
  let '(r, d) := kernel E n c in
  do! modify (see c) in
  do! dma (addr c) (take (Z.to_nat (data_len c)) d) in
  ret_ r.

(** ** uring.c *)

Definition uring_takes_admin : bool := negb (ns_chardev h).

Definition transport_handle_open_uring : M ret :=
  match open_uring E with
  | Success => do! modify (set_uring_state URING_AVAILABLE) in ret_ Success
  | e => do! modify (set_uring_state URING_NOT_AVAILABLE) in ret_ e
  end.

(** The request goes to its place on the ring. *)
Definition nvme_submit_uring_cmd (place : list libnvme_passthru_cmd → list libnvme_passthru_cmd) : M ret :=
  let! n := get (λ s, length (sent s)) in
  match uring_submit E n with
  | Success => do! modify (λ s, set_ring (place (ring s)) s) in ret_ Success
  | e => ret_ e
  end.

(** A command without a timeout takes that of the handle. *)
Definition default_timeout : M unit :=
  modify (λ s, if (timeout_ms (the_cmd s) =? 0) && negb (h_timeout h =? 0)
               then set_the_cmd (set_timeout_ms (the_cmd s) (h_timeout h)) s else s).

Definition libnvme_submit_admin_passthru : M ret :=
  let! u := get uring_state in
  if bool_decide (u = URING_NOT_AVAILABLE) then ret_ (Errno ENOTSUP)
  else if negb uring_takes_admin then ret_ (Errno ENOTSUP)
  else
    let! r := (if bool_decide (u = URING_UNKNOWN) then transport_handle_open_uring else ret_ Success) in
    if negb (is_success r) then ret_ r
    else
      let! pending := get (λ s, length (ring s)) in
      if (NVME_URING_ENTRIES <=? pending)%nat then ret_ (Errno EAGAIN)
      else
        do! default_timeout in
        let! n := get (λ s, length (sent s)) in
        if negb (calloc_ok E n) then ret_ (Errno ENOMEM)
        else
          let! c := get the_cmd in
          nvme_submit_uring_cmd (λ l, l ++ [c]).

(** [libnvme_reap_passthru]: an error of the call, or the status of one
    completed request.  A request that is retried is sent again from the
    caller's command, in place of its old copy. *)
Fixpoint libnvme_reap_passthru (fuel : nat) : M (ret + ret) :=
  match fuel with
  | O => λ _, NoFuel
  | S fuel' =>
      let! u := get uring_state in
      if bool_decide (u = URING_NOT_AVAILABLE) then ret_ (inl (Errno ENOTSUP))
      else
        let! l := get ring in
        match l with
        | [] => ret_ (inl (Errno EAGAIN))
        | c0 :: _ =>
            let! n := get (λ s, length (sent s)) in
            match wait_cqe E n with
            | Success =>
                let i := (pick E n mod length l)%nat in
                let c := default c0 (l !! i) in
                let! err := kernel_run c in
                if is_errno err && decide_retry E n then
                  let! c' := get the_cmd in
                  let! r := nvme_submit_uring_cmd (λ l, <[i := c']> l) in
                  if is_success r then libnvme_reap_passthru fuel'
                  else do! modify (λ s, set_ring (delete i (ring s)) s) in ret_ (inr r)
                else do! modify (λ s, set_ring (delete i (ring s)) s) in ret_ (inr err)
            | e => ret_ (inl e)
            end
        end
  end.

(** The loop of [libnvme_wait_passthru]. *)
Fixpoint wait_loop (fuel : nat) (r : ret) : M ret :=
  match fuel with
  | O => λ _, NoFuel
  | S fuel' =>
      let! l := get ring in
      match l with
      | [] => ret_ r
      | _ :: _ =>
          let! x := libnvme_reap_passthru (S retries) in
          match x with
          | inl e => ret_ e
          | inr status => wait_loop fuel' (if is_success r then status else r)
          end
      end
  end.

Definition libnvme_wait_passthru (fuel : nat) : M ret :=
  let! u := get uring_state in
  if bool_decide (u = URING_NOT_AVAILABLE) then ret_ (Errno ENOTSUP) else wait_loop fuel Success.

(** ** ioctl-linux.c *)

(** The loop of [ioctl_passthru64], and of the transport to the privileged
    process. *)
Fixpoint ioctl_passthru64 (fuel : nat) (c : libnvme_passthru_cmd) : M ret :=
  match fuel with
  | O => λ _, NoFuel
  | S fuel' =>
      let! n := get (λ s, length (sent s)) in
      let! err := kernel_run c in
      if is_errno err && decide_retry E n then ioctl_passthru64 fuel' c else ret_ err
  end.

(** Without the ring; what the transports do with a command is the kernel
    here. *)
Definition no_uring : M ret :=
  let! c := get the_cmd in
  match h_type h with
  | DIRECT | PRIVSEP => ioctl_passthru64 (S retries) c
  | MI | LOOPBACK => kernel_run c
  | TYPE_UNKNOWN => ret_ (Errno ENOTSUP)
  end.

Definition libnvme_exec_admin_passthru : M ret :=
  do! default_timeout in
  let! u := get uring_state in
  if negb (bool_decide (h_type h = DIRECT)) then no_uring
  else if bool_decide (u = URING_NOT_AVAILABLE) then no_uring
  else
    let! err := libnvme_submit_admin_passthru in
    if bool_decide (err = Errno ENOTSUP) then no_uring
    else if negb (is_success err) then ret_ err
    else
      let! x := libnvme_reap_passthru (S retries) in
      match x with inl e => ret_ e | inr status => ret_ status end.

(** ** nvme-cmds.c *)

Definition submit_get_log_cmd : M ret :=
  let! u := get uring_state in
  if negb (bool_decide (h_type h = DIRECT)) then libnvme_exec_admin_passthru
  else if bool_decide (u = URING_NOT_AVAILABLE) then libnvme_exec_admin_passthru
  else
    let! err := libnvme_submit_admin_passthru in
    if bool_decide (err = Errno ENOTSUP) then libnvme_exec_admin_passthru else ret_ err.

Definition wait_get_log_cmd (fuel : nat) : M ret :=
  let! u := get uring_state in
  if negb (bool_decide (h_type h = DIRECT)) then ret_ Success
  else if bool_decide (u = URING_NOT_AVAILABLE) then ret_ Success
  else libnvme_wait_passthru fuel.

(** The fields a chunk of [xfer] bytes at [offset] sets. *)
Definition chunk_cmd (c : libnvme_passthru_cmd) (cdw10' cdw11' start offset xfer addr' : Z) (rae : bool) :
    libnvme_passthru_cmd :=
  let lpo := u64 (start + offset) in
  let numd := u32 (Z.shiftr xfer 2 - 1) in
  let numdu := u16 (Z.shiftr numd 16) in
  let numdl := u16 (Z.land numd 0xffff) in
  let c := set_cdw10 c (cdw10' .| NVME_SET (Z.b2z rae) NVME_LOG_CDW10_RAE_SHIFT NVME_LOG_CDW10_RAE_MASK .|
                        NVME_SET numdl NVME_LOG_CDW10_NUMDL_SHIFT NVME_LOG_CDW10_NUMDL_MASK) in
  let c := set_cdw11 c (cdw11' .| NVME_SET numdu NVME_LOG_CDW11_NUMDU_SHIFT NVME_LOG_CDW11_NUMDU_MASK) in
  let c := set_cdw12 c (u32 (Z.land lpo 0xffffffff)) in
  let c := set_cdw13 c (u32 (Z.shiftr lpo 32)) in
  let c := set_data_len c (u32 xfer) in
  set_addr c addr'.

(** The [do ... while] loop of [libnvme_get_log]. *)
Fixpoint get_log_loop (fuel : nat) (data_len start cdw10' cdw11' xfer_len offset ptr : Z) (rae : bool) : M ret :=
  match fuel with
  | O => λ _, NoFuel
  | S fuel' =>
      let xfer :=
        if force_4k h then NVME_LOG_PAGE_PDU_SIZE
        else if xfer_len <? u64 (data_len - offset) then xfer_len else u64 (data_len - offset) in
      let rae' := (u64 (offset + xfer) <? data_len) || rae in
      do! modify (λ s, set_the_cmd (chunk_cmd (the_cmd s) cdw10' cdw11' start offset xfer ptr rae') s) in
      let! r := submit_get_log_cmd in
      if negb (is_success r) then ret_ r
      else if u64 (offset + xfer) <? data_len
           then get_log_loop fuel' data_len start cdw10' cdw11' xfer_len (u64 (offset + xfer))
                  (u64 (ptr + xfer)) rae
           else ret_ Success
  end.

Definition LID_LSP : Z :=
  NVME_VAL NVME_LOG_CDW10_LID_SHIFT NVME_LOG_CDW10_LID_MASK .|
  NVME_VAL NVME_LOG_CDW10_LSP_SHIFT NVME_LOG_CDW10_LSP_MASK.
Definition LSI : Z := NVME_VAL NVME_LOG_CDW11_LSI_SHIFT NVME_LOG_CDW11_LSI_MASK.

(** A transfer needs at most this many rounds. *)
Definition rounds (data_len xfer_len : Z) : nat := S (Z.to_nat (data_len / xfer_len)).

(** The command is the caller's: [the_cmd] of the state. *)
Definition libnvme_get_log (rae : bool) (xfer_len : Z) : M ret :=
  if xfer_len <? 4 then ret_ (Errno EINVAL)
  else
    let! c := get the_cmd in
    let start := Z.shiftl (cdw13 c) 32 .| cdw12 c in
    let cdw10' := Z.land (cdw10 c) LID_LSP in
    let cdw11' := Z.land (cdw11 c) LSI in
    let xfer_len := if force_4k h then NVME_LOG_PAGE_PDU_SIZE else xfer_len in
    let! r := get_log_loop (rounds (data_len c) xfer_len) (data_len c) start cdw10' cdw11' xfer_len 0
                (addr c) rae in
    if negb (is_success r) then ret_ r
    else let! n := get (λ s, length (ring s)) in wait_get_log_cmd (S n).

(** A smaller chunk may do where this result came back. *)
Definition can_shrink (r : ret) : bool :=
  match r with
  | Success => false
  | Errno _ => true
  | Status st => nvme_status_code_type st <=? NVME_SCT_CMD_SPECIFIC
  end.

Definition shrink (xfer_len : Z) : Z := Z.land (xfer_len / 2) (u32 (Z.lnot (NVME_LOG_PAGE_PDU_SIZE - 1))).

(** A chunk is sent and waited for. *)
Definition send_chunk (cdw10' cdw11' start offset xfer ptr : Z) (rae : bool) : M ret :=
  do! modify (λ s, set_the_cmd (chunk_cmd (the_cmd s) cdw10' cdw11' start offset xfer ptr rae) s) in
  let! r := submit_get_log_cmd in
  let! n := get (λ s, length (ring s)) in
  if is_success r then wait_get_log_cmd (S n) else ret_ r.

(** The loop of [libnvme_get_log_dynamic_chunk]; [continue] goes on to its
    condition. *)
Fixpoint dynamic_loop (fuel : nat) (data_len start cdw10' cdw11' xfer_len offset ptr : Z) (rae : bool) : M ret :=
  match fuel with
  | O => λ _, NoFuel
  | S fuel' =>
      let xfer := if xfer_len <? u64 (data_len - offset) then xfer_len else u64 (data_len - offset) in
      let rae' := (u64 (offset + xfer) <? data_len) || rae in
      let! r := send_chunk cdw10' cdw11' start offset xfer ptr rae' in
      if can_shrink r then
        let xfer_len := shrink xfer_len in
        if xfer_len <? NVME_LOG_PAGE_PDU_SIZE then ret_ r
        else if offset <? data_len
             then dynamic_loop fuel' data_len start cdw10' cdw11' xfer_len offset ptr rae
             else ret_ Success
      else if negb (is_success r) then ret_ r
      else if u64 (offset + xfer) <? data_len
           then dynamic_loop fuel' data_len start cdw10' cdw11' xfer_len (u64 (offset + xfer))
                  (u64 (ptr + xfer)) rae
           else ret_ Success
  end.

(** Each round shrinks the chunk or reads one of at least the smaller of
    [xfer_len] and 4 KiB. *)
Definition dynamic_rounds (data_len xfer_len : Z) : nat :=
  Z.to_nat (Z.log2 xfer_len) + rounds data_len (Z.min xfer_len NVME_LOG_PAGE_PDU_SIZE).

Definition libnvme_get_log_dynamic_chunk (rae : bool) (xfer_len : Z) : M ret :=
  if xfer_len <? 4 then ret_ (Errno EINVAL)
  else
    let! c := get the_cmd in
    let start := Z.shiftl (cdw13 c) 32 .| cdw12 c in
    let cdw10' := Z.land (cdw10 c) LID_LSP in
    let cdw11' := Z.land (cdw11 c) LSI in
    let xfer_len := if force_4k h then NVME_LOG_PAGE_PDU_SIZE else xfer_len in
    dynamic_loop (dynamic_rounds (data_len c) xfer_len) (data_len c) start cdw10' cdw11' xfer_len 0
      (addr c) rae.

End GetLog.
