(* ===== verification/GetLogSpec.v ===== *)
(** * [libnvme_get_log] reads the page

    The theorems of [GetLog]: every byte of the caller's buffer comes from
    the log page, at the place it has there; no command writes outside of
    the buffer; the loops end.  And what happens with more chunks than the
    ring has room for, or when a request on the ring is retried. *)

From stdpp Require Import base list numbers.
From S2P Require Import Prelude.
From S2P Require Import CStr.
From S2P Require Import Io.
From S2P Require Import Passthru.
From S2P Require Import NvmeConst.
From S2P Require Import Commands.
From S2P Require Import CommandsView.
From S2P Require Import GetLog.

#[local] Open Scope cmd_scope.

(** ** The fields of a chunk *)

Lemma nvme_set_encode v s m : NVME_SET v s m = NVME_FIELD_ENCODE v s m.
Proof. done. Qed.

(** A field of a dword that a mask keeps or clears. *)
Lemma get_land_keep a m' s m :
  0 ≤ s → Z.land (Z.shiftl m s) m' = Z.shiftl m s → NVME_GET (Z.land a m') s m = NVME_GET a s m.
Proof.
  intros Hs Hm. unfold NVME_GET. apply Z.bits_inj'. intros i Hi.
  rewrite !Z.land_spec, !Z.shiftr_spec, Z.land_spec by lia.
  apply (f_equal (λ z, Z.testbit z (i + s))) in Hm.
  rewrite Z.land_spec, Z.shiftl_spec in Hm by lia. replace (i + s - s) with i in Hm by lia.
  destruct (Z.testbit m i); [|by rewrite !andb_false_r]. cbn [andb] in Hm. by rewrite Hm, !andb_true_r.
Qed.

Lemma get_land_clear a m' s m :
  0 ≤ s → Z.land (Z.shiftl m s) m' = 0 → NVME_GET (Z.land a m') s m = 0.
Proof.
  intros Hs Hm. unfold NVME_GET. apply Z.bits_inj'. intros i Hi.
  rewrite Z.land_spec, Z.shiftr_spec, Z.land_spec, Z.bits_0 by lia.
  apply (f_equal (λ z, Z.testbit z (i + s))) in Hm.
  rewrite Z.land_spec, Z.shiftl_spec, Z.bits_0 in Hm by lia. replace (i + s - s) with i in Hm by lia.
  destruct (Z.testbit m i); [|by rewrite andb_false_r]. cbn [andb] in Hm. by rewrite Hm, andb_false_r.
Qed.

(** [NVME_GET] of a dword with a masked part. *)
Ltac get_masked :=
  rewrite ?nvme_set_encode, ?get_lor;
  repeat first
    [ rewrite get_land_keep by (vm_compute; congruence)
    | rewrite get_land_clear by (vm_compute; congruence)
    | rewrite get_own by (vm_compute; congruence)
    | rewrite get_other by (vm_compute; congruence) ];
  rewrite ?Z.lor_0_r, ?Z.lor_0_l.

(** A chunk asks for its part of the page the first command named. *)
Lemma chunk_cmd_view c c0 start offset xfer a rae :
  4 ≤ xfer < 2 ^ 32 → xfer mod 4 = 0 → 0 ≤ start + offset < 2 ^ 64 →
  let k := chunk_cmd c (Z.land (cdw10 c0) LID_LSP) (Z.land (cdw11 c0) LSI) start offset xfer a rae in
  View.lid k = View.lid c0 ∧ View.lsp k = View.lsp c0 ∧ View.lsi k = View.lsi c0 ∧
  View.rae k = Z.b2z rae ∧ View.lpo k = start + offset ∧ View.log_bytes k = xfer ∧
  data_len k = xfer ∧ addr k = a ∧ opcode k = opcode c ∧ nsid k = nsid c ∧ timeout_ms k = timeout_ms c.
Proof.
  intros Hx Hm Hs. cbv zeta.
  assert (in_width 32 (xfer / 4 - 1)) as Hw by (unfold in_width; split; divmod).
  assert (Z.shiftr xfer 2 - 1 = xfer / 4 - 1) as Hsh by (by rewrite Z.shiftr_div_pow2 by lia).
  unfold View.lid, View.lsp, View.lsi, View.rae, View.lpo, View.log_bytes, View.numd, chunk_cmd. cbn.
  rewrite Hsh, (u32_small (xfer / 4 - 1)), (u32_small xfer), (u64_small (start + offset)), land_low by (done || lia).
  pose proof (numd_split _ Hw) as Hn.
  split_and!; try done; get_masked; try done.
  - by destruct rae.
  - by apply split64.
  - etransitivity; [apply (f_equal (λ n, 4 * (n + 1))); exact Hn|divmod].
Qed.

Section Spec.
Context (E : env) (h : handle) (base : Z) (retries : nat).

(** The log page [id], for the log specific field [lp], byte by byte, as it
    is when the [n]-th command is run: a Get Log Page command that succeeds
    returns the bytes it asks for. *)
Context (page : nat → Z → Z) (id lp : Z).
Definition serves : Prop := ∀ n c d,
  View.lid c = id → View.lsp c = lp → kernel E n c = (Success, d) →
  d = page n <$> seqZ (View.lpo c) (View.log_bytes c).
Hypothesis Hserves : serves.

(** The read: [total] bytes of the page from [start] on, to the address [P],
    from the state with the buffer [m0] and [t0] commands sent. *)
Context (start P total : Z) (m0 : list Z) (t0 : nat).
Hypothesis HP : base ≤ P ∧ P + total < 2 ^ 64 ∧ P - base + total ≤ Z.of_nat (length m0) ∧ 0 ≤ total.
Hypothesis Hstart : 0 ≤ start ∧ start + total ≤ 2 ^ 64.

(** The bytes before [low] are read and no longer part of a command. *)
Context (low : Z).
Hypothesis Hlow : 0 ≤ low.

(** A command for the [l] bytes at [o] of the read. *)
Definition chunk (c : libnvme_passthru_cmd) (o l : Z) : Prop :=
  View.lid c = id ∧ View.lsp c = lp ∧ View.lpo c = start + o ∧ View.log_bytes c = l ∧ data_len c = l ∧
  addr c = P + o ∧ low ≤ o ∧ 0 < l ∧ o + l ≤ total.

(** The byte [i] of the read is in the buffer; or on its way. *)
Definition filled (s : state) (i : Z) : Prop :=
  ∃ t, (t0 ≤ t < length (sent s))%nat ∧ mem s !! Z.to_nat (P - base + i) = Some (page t (start + i)).
Definition covered (s : state) (i : Z) : Prop :=
  filled s i ∨ ∃ c o l, c ∈ ring s ∧ chunk c o l ∧ o ≤ i < o + l.

Definition outside (j : nat) : Prop := Z.of_nat j < P - base ∨ P - base + total ≤ Z.of_nat j.

Record sane (s : state) : Prop := {
  s_length : length (mem s) = length m0;
  s_low : ∀ i, 0 ≤ i < low → filled s i;
  s_time : (t0 ≤ length (sent s))%nat;
  s_outside : ∀ j, outside j → mem s !! j = m0 !! j;
  s_ring : ∀ c, c ∈ ring s → ∃ o l, chunk c o l;
  s_pending : (length (ring s) ≤ NVME_URING_ENTRIES)%nat;
  s_avail : ring s ≠ [] → uring_state s = URING_AVAILABLE ∧ h_type h = DIRECT }.

Lemma wp_kernel_run s c o l :
  sane s → chunk c o l →
  wp (kernel_run E base c) (λ r s',
    sane s' ∧ ring s' = ring s ∧ the_cmd s' = the_cmd s ∧ uring_state s' = uring_state s ∧
    sent s' = sent s ++ [c] ∧
    (r = Success → ∀ i, 0 ≤ i → filled s i ∨ o ≤ i < o + l → filled s' i)) s.
Proof using Hlow HP Hserves Hstart.
  intros Hs (Hid & Hlp & Hlpo & Hlb & Hdl & Ha & Ho & Hl & Hol). unfold wp, kernel_run, bind, get, modify, ret_.
  destruct (kernel E (length (sent s)) c) as [r d] eqn:Ek. unfold dma. cbn [mem see set_mem].
  set (d' := take (Z.to_nat (data_len c)) d).
  assert (Z.of_nat (length d') ≤ l) as Hd' by (unfold d'; rewrite length_take; lia).
  rewrite (s_length _ Hs).
  replace ((base <=? addr c) && (addr c - base + Z.of_nat (length d') <=? Z.of_nat (length m0))) with true
    by (symmetry; apply andb_true_iff; lia).
  pose proof (s_length _ Hs) as HL. pose proof (s_time _ Hs) as HT.
  assert (Z.to_nat (addr c - base) + length d' ≤ length (mem s))%nat as Hfit by lia.
  split_and!; [|done..|].
  - split; cbn [mem sent ring set_mem see].
    + by rewrite buf_write_length.
    + intros i Hi. destruct (s_low _ Hs i Hi) as (t & Ht & E'). exists t. cbn [mem sent set_mem see].
      rewrite length_app. split; [lia|]. rewrite buf_write_lookup by done. by rewrite decide_False by lia.
    + rewrite length_app. lia.
    + intros j Hj. rewrite buf_write_lookup by done. destruct (decide _) as [Hi|].
      * unfold outside in Hj. lia.
      * by apply (s_outside _ Hs).
    + apply (s_ring _ Hs).
    + apply (s_pending _ Hs).
    + apply (s_avail _ Hs).
  - intros -> i Hi Hf. pose proof (Hserves _ _ _ Hid Hlp Ek) as Hd.
    assert (d' = d) as Hdd.
    { unfold d'. apply take_ge. rewrite Hd, length_fmap, length_seqZ. lia. }
    assert (length d = Z.to_nat l) as Hld by (rewrite Hd, length_fmap, length_seqZ; lia).
    rewrite Hdd in *. unfold filled. cbn [mem sent set_mem see].
    destruct (decide (o ≤ i < o + l)) as [Hin|Hout].
    + exists (length (sent s)). rewrite length_app. cbn [length]. split; [lia|].
      rewrite buf_write_lookup by lia. rewrite decide_True by lia.
      rewrite Hd, list_lookup_fmap, (lookup_seqZ_lt _ _ (Z.to_nat (P - base + i) - Z.to_nat (addr c - base))) by lia.
      cbn. do 2 f_equal. lia.
    + destruct Hf as [(t & Ht & E')|]; [|lia]. exists t. rewrite length_app. split; [lia|].
      rewrite buf_write_lookup by lia. rewrite decide_False by lia. done.
Qed.

(** No command is sent a second time. *)
Hypothesis Hretry : ∀ n, decide_retry E n = false.

(** The commands that were sent or are on the ring. *)
Definition cnt (s : state) : nat := length (sent s) + length (ring s).

(** What a step keeps: if it succeeds, what was covered still is, and there
    are no more commands. *)
Definition keeps (s : state) (r : ret) (s' : state) : Prop :=
  sane s' ∧ (r = Success → (cnt s' ≤ cnt s)%nat ∧ ∀ i, 0 ≤ i → covered s i → covered s' i).

Lemma chunk_inj c o l o' l' : chunk c o l → chunk c o' l' → o' = o ∧ l' = l.
Proof. unfold chunk. lia. Qed.

Lemma chunk_timeout c t o l : chunk c o l → chunk (set_timeout_ms c t) o l.
Proof. done. Qed.

Lemma sane_cmd s c : sane s → sane (set_the_cmd c s).
Proof. by intros []. Qed.

Lemma elem_of_delete {A} (l : list A) i x : x ∈ l → l !! i = Some x ∨ x ∈ delete i l.
Proof.
  intros (j & Hj)%list_elem_of_lookup. destruct (decide (j = i)) as [->|Hne]; [by left|right].
  rewrite list_elem_of_lookup. destruct (decide (j < i)%nat).
  - exists j. by rewrite list_lookup_delete_lt.
  - exists (j - 1)%nat. rewrite list_lookup_delete_ge by lia. by replace (S (j - 1)) with j by lia.
Qed.

Lemma delete_elem_of {A} (l : list A) i x : x ∈ delete i l → x ∈ l.
Proof.
  intros (j & Hj)%list_elem_of_lookup. apply list_elem_of_lookup. destruct (decide (j < i)%nat).
  - exists j. by rewrite list_lookup_delete_lt in Hj.
  - exists (S j). by rewrite list_lookup_delete_ge in Hj by lia.
Qed.

Lemma wp_reap s k :
  sane s →
  wp (libnvme_reap_passthru E base (S k)) (λ x s',
    match x with
    | inl e => sane s' ∧ e ≠ Success
    | inr r => keeps s r s' ∧ length (ring s') = pred (length (ring s)) ∧ ring s ≠ []
    end) s.
Proof using Hlow HP Hserves Hstart Hretry.
  intros Hs. cbn [libnvme_reap_passthru]. unfold wp, bind at 1, get at 1.
  destruct (bool_decide _); [by split|].
  unfold bind at 1, get at 1. destruct (ring s) as [|c0 l0] eqn:Hr; [by split|].
  rewrite <- Hr. unfold bind at 1, get at 1.
  destruct (wait_cqe E _) eqn:Ew; [|by split..].
  set (i := (pick E (length (sent s)) mod length (ring s))%nat).
  assert (i < length (ring s))%nat as Hi by (apply Nat.mod_upper_bound; by rewrite Hr).
  destruct (lookup_lt_is_Some_2 _ _ Hi) as [c Hc]. rewrite Hc. change (default c0 (Some c)) with c.
  destruct (s_ring _ Hs c) as (o & l & Hcl); [by eapply list_elem_of_lookup_2|].
  pose proof (wp_kernel_run s c o l Hs Hcl) as Hk. unfold wp in Hk. unfold bind at 1, ret_, modify.
  destruct (kernel_run E base c s) as [r s1| |]; [|done..].
  destruct Hk as (Hs1 & Hr1 & Ht1 & Hu1 & Hx1 & Hf).
  rewrite Hretry, andb_false_r. unfold bind. cbn [ring set_ring].
  assert (length (delete i (ring s1)) = pred (length (ring s))) as Hdl.
  { rewrite Hr1. rewrite length_delete by done. lia. }
  split_and!; [split| |by rewrite Hr].
  - destruct Hs1. split; cbn [mem sent ring set_ring uring_state]; try done.
    + intros x Hx%delete_elem_of. auto.
    + rewrite Hdl, <- Hr1. lia.
    + intros _. apply s_avail0. by rewrite Hr1, Hr.
  - intros ->. split.
    { unfold cnt. cbn [sent ring set_ring]. rewrite Hx1, length_app, Hdl. cbn. lia. }
    intros j Hj [Hfj|(c' & o' & l' & Hin & Hc' & Hj')].
    + left. by apply Hf; [..|left].
    + destruct (elem_of_delete _ i _ Hin) as [Hci|Hd].
      * left. apply Hf; [done..|right]. simplify_eq. by destruct (chunk_inj _ _ _ _ _ Hcl Hc') as [-> ->].
      * right. exists c', o', l'. cbn [ring set_ring]. by rewrite Hr1.
  - done.
Qed.

Lemma wp_wait_loop fuel s r :
  sane s → (length (ring s) < fuel)%nat →
  wp (wait_loop E base retries fuel r) (λ r' s',
    keeps s r' s' ∧ (r' = Success → r = Success ∧ ring s' = [])) s.
Proof using Hlow HP Hserves Hstart Hretry.
  revert s r. induction fuel as [|fuel IH]; intros s r Hs Hf; [lia|].
  cbn [wait_loop]. unfold wp, bind at 1, get at 1. destruct (ring s) as [|c0 l0] eqn:Hr.
  - by split; [split|].
  - fold (wp (bind (libnvme_reap_passthru E base (S retries)) (λ x, match x with
      inl e => ret_ e | inr status => wait_loop E base retries fuel (if is_success r then status else r) end))
      (λ r' s', keeps s r' s' ∧ (r' = Success → r = Success ∧ ring s' = [])) s).
    eapply wp_bind; [by apply wp_reap|]. intros [e|st] s1.
    + intros [Hs1 He]. by split; [split|].
    + intros ([Hs1 Hk] & Hlen & _). eapply wp_mono.
      { apply IH; [done|]. rewrite Hlen, Hr. cbn in *. lia. }
      cbn beta. intros r' s' ([Hs' Hk'] & He).
      assert (r' = Success → st = Success ∧ r = Success ∧ ring s' = []) as Hall.
      { intros Hr'. destruct (He Hr') as [Hq ->]. by destruct r. }
      split; [split; [done|]|naive_solver]. intros Hr'. destruct (Hall Hr') as (Hst & _).
      destruct (Hk Hst), (Hk' Hr'). split; [lia|auto].
Qed.

(** A chunk is sent: if that succeeds, it is covered, too. *)
Definition adds (o l : Z) (s : state) (r : ret) (s' : state) : Prop :=
  sane s' ∧ (r = Success → (cnt s' ≤ S (cnt s))%nat ∧
    ∀ i, 0 ≤ i → covered s i ∨ o ≤ i < o + l → covered s' i).

Lemma wp_default_timeout s :
  wp (default_timeout h) (λ _ s', ∃ c, s' = set_the_cmd c s ∧
    ∀ o l, chunk (the_cmd s) o l → chunk c o l) s.
Proof.
  unfold wp, default_timeout, modify. destruct (_ && _).
  - eexists. split; [done|]. done.
  - exists (the_cmd s). by destruct s.
Qed.

Lemma wp_submit_admin s o l :
  sane s → chunk (the_cmd s) o l → h_type h = DIRECT →
  wp (libnvme_submit_admin_passthru E h) (λ r s',
    adds o l s r s' ∧ chunk (the_cmd s') o l ∧ (r ≠ Success → (cnt s' ≤ cnt s)%nat) ∧
    ∀ i, covered s i → covered s' i) s.
Proof.
  intros Hs Hc Hd. unfold libnvme_submit_admin_passthru.
  unfold wp, bind at 1, get at 1. destruct (bool_decide (_ = URING_NOT_AVAILABLE)) eqn:Hna; [done|].
  apply bool_decide_eq_false in Hna. destruct (negb _); [done|].
  set (m := if bool_decide _ then _ else _).
  assert (wp m (λ r s', sane s' ∧ the_cmd s' = the_cmd s ∧ mem s' = mem s ∧ sent s' = sent s ∧
    ring s' = ring s ∧ (r = Success → uring_state s' = URING_AVAILABLE)) s) as Hm.
  { unfold m. case_bool_decide as Hu; [|unfold wp, ret_; by destruct (uring_state s)].
    assert (ring s = []) as Hr.
    { destruct (ring s) eqn:Hr; [done|]. destruct (s_avail _ Hs); congruence. }
    unfold wp, transport_handle_open_uring. destruct (open_uring E); unfold bind, modify, ret_.
    all: split_and!; try done; destruct Hs; split; cbn; try done; by rewrite Hr. }
  eapply wp_bind; [exact Hm|]. clear m Hm. intros r s1 (Hs1 & Hc1 & Hm1 & Hx1 & Hr1 & Hu1).
  assert (∀ i, covered s i → covered s1 i) as Hcov.
  { intros i. unfold covered, filled. by rewrite Hm1, Hx1, Hr1. }
  assert (cnt s1 = cnt s) as Hcnt by (unfold cnt; by rewrite Hx1, Hr1).
  assert (∀ e, e ≠ Success → adds o l s e s1 ∧ chunk (the_cmd s1) o l ∧ (e ≠ Success → (cnt s1 ≤ cnt s)%nat) ∧
    ∀ i, covered s i → covered s1 i) as Hfail by (intros e He; rewrite Hc1; split_and!; (done || lia)).
  destruct r; [|by apply Hfail..]. specialize (Hu1 eq_refl). cbn [is_success negb].
  unfold wp, bind at 1, get at 1. destruct (Nat.leb_spec NVME_URING_ENTRIES (length (ring s1))); [by apply Hfail|].
  eapply wp_bind; [apply wp_default_timeout|]. intros _ s2 (c & -> & Hc2).
  assert (sane (set_the_cmd c s1)) as Hs2 by by apply sane_cmd.
  rewrite Hc1 in Hc2. specialize (Hc2 _ _ Hc).
  assert (cnt (set_the_cmd c s1) ≤ cnt s)%nat as Hcnt2 by (change (cnt s1 ≤ cnt s)%nat; lia).
  unfold wp, bind at 1, get at 1. destruct (negb _); [done|]. unfold bind at 1, get at 1.
  unfold nvme_submit_uring_cmd. unfold bind at 1, get at 1. destruct (uring_submit E _); [|done..].
  unfold bind, modify, ret_. cbn [the_cmd set_the_cmd set_ring].
  assert (∀ i, covered s1 i → covered (set_ring (ring s1 ++ [c]) (set_the_cmd c s1)) i) as Hcov2.
  { intros i [Hf|(c' & o' & l' & Hin & Hrest)]; [by left|right].
    exists c', o', l'. split; [|done]. cbn. apply elem_of_app. by left. }
  split_and!; [split|done|done|by intros i Hi; apply Hcov2, Hcov].
  - destruct Hs2. split; cbn in *; try done.
    + intros x [Hx|Hx]%elem_of_app; [auto|]. apply list_elem_of_singleton in Hx as ->. eauto.
    + rewrite length_app. cbn. lia.
  - intros _. split.
    { rewrite <- Hcnt. unfold cnt. cbn [sent ring set_ring set_the_cmd]. rewrite length_app. cbn. lia. }
    intros i Hi [Hci|Hin]; [by apply Hcov2, Hcov|right]. exists c, o, l. split; [|done].
    cbn. apply elem_of_app. right. by apply list_elem_of_singleton.
Qed.

Lemma wp_kernel_adds s o l c : sane s → chunk c o l → wp (kernel_run E base c) (adds o l s) s.
Proof using Hlow HP Hserves Hstart.
  intros Hs Hc. eapply wp_mono; [by apply wp_kernel_run|]. cbn beta.
  intros r s1 (Hs1 & Hr1 & _ & _ & Hx1 & Hf). split; [done|]. intros ->. split.
  { unfold cnt. rewrite Hx1, Hr1, length_app. cbn. lia. }
  intros i Hi [[Hfi|Hri]|Hin].
  - left. auto.
  - right. by rewrite Hr1.
  - left. auto.
Qed.

Lemma wp_ioctl s o l k c :
  sane s → chunk c o l → wp (ioctl_passthru64 E base (S k) c) (adds o l s) s.
Proof using Hlow HP Hserves Hstart Hretry.
  intros Hs Hc. cbn [ioctl_passthru64]. unfold wp, bind at 1, get at 1.
  eapply wp_bind; [by apply wp_kernel_adds|]. intros r s1 Ha. by rewrite Hretry, andb_false_r.
Qed.

Lemma wp_no_uring s o l :
  sane s → chunk (the_cmd s) o l → wp (no_uring E h base retries) (adds o l s) s.
Proof using Hlow HP Hserves Hstart Hretry.
  intros Hs Hc. unfold wp, no_uring, bind, get. destruct (h_type h); try (by apply wp_ioctl).
  - done.
  - by apply wp_kernel_adds.
  - by apply wp_kernel_adds.
Qed.

Lemma wp_exec_admin s o l :
  sane s → chunk (the_cmd s) o l → wp (libnvme_exec_admin_passthru E h base retries) (adds o l s) s.
Proof using Hlow HP Hserves Hstart Hretry.
  intros Hs Hc. unfold libnvme_exec_admin_passthru. eapply wp_bind; [apply wp_default_timeout|].
  intros _ s1 (c & -> & Hc1). specialize (Hc1 _ _ Hc). pose proof (sane_cmd s c Hs) as Hs1.
  unfold wp, bind at 1, get at 1.
  assert (∀ s', sane s' → chunk (the_cmd s') o l → (cnt s' ≤ cnt s)%nat → (∀ i, covered s i → covered s' i) →
    wp (no_uring E h base retries) (adds o l s) s') as Hio.
  { intros s' Hs' Hc' Hn Hcov. eapply wp_mono; [by apply wp_no_uring|].
    intros r s2 [Hs2 Hk]. split; [done|]. intros Hr. destruct (Hk Hr) as [Hn2 Hk2].
    split; [lia|]. intros i Hi Hor. apply Hk2; naive_solver. }
  case_bool_decide as Hd; cbn [negb]; [|by apply Hio].
  case_bool_decide; [by apply Hio|].
  eapply wp_bind; [by apply wp_submit_admin|]. cbn beta. intros err s2 ([Hs2 Ha] & Hc2 & Hn2 & Hcov).
  case_bool_decide; [apply Hio; try done; apply Hn2; congruence|]. destruct err; cbn [is_success negb]; [|done..].
  eapply wp_bind; [by apply wp_reap|]. intros [e|st] s3; [by intros [? ?]|].
  intros ([Hs3 Hk3] & _). split; [done|]. intros ->. destruct (Ha eq_refl) as [Hn3 Ha3], (Hk3 eq_refl) as [Hn4 Hk4].
  split; [exact (Nat.le_trans _ _ _ Hn4 Hn3)|]. intros i Hi Hor. apply Hk4; [done|]. by apply Ha3.
Qed.

Lemma wp_submit_get_log s o l :
  sane s → chunk (the_cmd s) o l → wp (submit_get_log_cmd E h base retries) (adds o l s) s.
Proof using Hlow HP Hserves Hstart Hretry.
  intros Hs Hc. unfold submit_get_log_cmd. unfold wp, bind at 1, get at 1.
  case_bool_decide as Hd; cbn [negb]; [|by apply wp_exec_admin].
  case_bool_decide; [by apply wp_exec_admin|].
  eapply wp_bind; [by apply wp_submit_admin|]. cbn beta. intros err s1 ([Hs1 Ha] & Hc1 & Hn1 & Hcov).
  case_bool_decide as He; [|done]. eapply wp_mono; [by apply wp_exec_admin|].
  intros r s2 [Hs2 Hk]. split; [done|]. intros Hr. destruct (Hk Hr) as [Hn2 Hk2].
  assert (cnt s1 ≤ cnt s)%nat by (apply Hn1; congruence).
  split; [lia|]. intros i Hi Hor. apply Hk2; naive_solver.
Qed.

(** ** The loop over the chunks *)

Context (c0 : libnvme_passthru_cmd) (xfer_len : Z).
Hypothesis Hc0 : View.lid c0 = id ∧ View.lsp c0 = lp.
Hypothesis Hxfer : 4 ≤ xfer_len < 2 ^ 32 ∧ xfer_len mod 4 = 0.
Hypothesis Htotal : 0 < total < 2 ^ 32 ∧ total mod 4 = 0 ∧ 0 ≤ P.
Hypothesis H4k : force_4k h = true → xfer_len = NVME_LOG_PAGE_PDU_SIZE ∧ total mod xfer_len = 0.

(** The bytes of the next chunk. *)
Definition next (o : Z) : Z := Z.min xfer_len (total - o).

Lemma next_spec o :
  0 ≤ o < total → o mod xfer_len = 0 →
  (if force_4k h then NVME_LOG_PAGE_PDU_SIZE
   else if xfer_len <? u64 (total - o) then xfer_len else u64 (total - o)) = next o ∧
  4 ≤ next o < 2 ^ 32 ∧ next o mod 4 = 0 ∧ o + next o ≤ total ∧
  (o + next o < total → (o + next o) mod xfer_len = 0 ∧ next o = xfer_len).
Proof using HP Hstart Hxfer Htotal H4k.
  intros Ho Hm. unfold next. rewrite u64_small by lia.
  apply Z.mod_divide in Hm as [q ->]; [|lia].
  destruct Hxfer as [Hx Hx4]. apply Z.mod_divide in Hx4 as [a Hx4]; [|lia].
  destruct Htotal as (Ht & Ht4 & _). apply Z.mod_divide in Ht4 as [b Ht4]; [|lia].
  assert (4 ≤ Z.min xfer_len (total - q * xfer_len)) by nia.
  split_and!; try lia.
  - destruct (force_4k h); [|destruct (Z.ltb_spec xfer_len (total - q * xfer_len)); lia].
    destruct (H4k eq_refl) as [<- Hd]. apply Z.mod_divide in Hd as [d Hd]; [|lia].
    assert (q < d) by nia. rewrite Z.min_l by nia. done.
  - apply Z.mod_divide; [lia|].
    destruct (Z.min_spec xfer_len (total - q * xfer_len)) as [[_ ->] | [_ ->]]; [by exists a|].
    exists (b - q * a). nia.
  - intros Hlt. split; [|lia]. apply Z.mod_divide; [lia|]. exists (q + 1). lia.
Qed.

Lemma wp_get_log_loop fuel s o rae :
  sane s → low ≤ o < total → o mod xfer_len = 0 → total - o ≤ Z.of_nat fuel * xfer_len →
  (∀ i, 0 ≤ i < o → covered s i) →
  wp (get_log_loop E h base retries fuel total start (Z.land (cdw10 c0) LID_LSP) (Z.land (cdw11 c0) LSI)
        xfer_len o (P + o) rae)
     (λ r s', sane s' ∧ (r = Success → (Z.of_nat (cnt s') - Z.of_nat (cnt s) - 1) * xfer_len < total - o ∧
        ∀ i, 0 ≤ i < total → covered s' i)) s.
Proof using Hlow HP Hserves Hstart Hretry Hc0 Hxfer Htotal H4k.
  revert s o. induction fuel as [|fuel IH]; intros s o Hs Ho Hm Hf Hcov; [lia|].
  cbn [get_log_loop].
  destruct (next_spec o ltac:(lia) Hm) as (-> & Hn & Hn4 & Hle & Hmore).
  set (x := next o) in *. rewrite (u64_small (o + x)) by lia.
  unfold wp, bind at 1, modify at 1.
  set (rae' := (_ || _) : bool).
  set (k := chunk_cmd _ _ _ _ _ _ _ _).
  assert (chunk k o x) as Hk.
  { destruct (chunk_cmd_view (the_cmd s) c0 start o x (P + o) rae') as (V1 & V2 & _ & _ & V5 & V6 & V7 & V8 & _);
      [lia..|]. destruct Hc0 as [E1 E2]. unfold chunk. rewrite <- E1, <- E2. split_and!; (done || lia). }
  eapply wp_bind; [by apply (wp_submit_get_log _ o x); [apply sane_cmd|]|].
  cbn beta. intros r s1 [Hs1 Ha]. destruct r; cbn [is_success negb]; [|done..].
  destruct (Ha eq_refl) as [Hcnt Ha']. change (cnt (set_the_cmd k s)) with (cnt s) in Hcnt.
  assert (∀ i, 0 ≤ i < o + x → covered s1 i) as Hcov1.
  { intros i Hi. apply Ha'; [lia|]. destruct (decide (i < o)); [left; apply (Hcov i); lia|right; lia]. }
  destruct (Z.ltb_spec (o + x) total) as [Hlt|Hge].
  - destruct (Hmore Hlt) as [Hm1 Hx]. rewrite (u64_small (P + o + x)) by lia.
    replace (P + o + x) with (P + (o + x)) by lia. eapply wp_mono; [apply IH; (done || lia)|].
    cbn beta. intros r s' [Hs' Hr]. split; [done|]. intros He. destruct (Hr He). split; [|done]. nia.
  - split; [done|]. intros _. split; [nia|]. intros i Hi. apply Hcov1. lia.
Qed.
(** ** Waiting at the end *)

Lemma wp_wait_get_log s :
  sane s →
  wp (wait_get_log_cmd E h base retries (S (length (ring s))))
     (λ r s', sane s' ∧ (r = Success → ring s' = [] ∧ (cnt s' ≤ cnt s)%nat ∧
        ∀ i, 0 ≤ i → covered s i → filled s' i)) s.
Proof using Hlow HP Hserves Hstart Hretry.
  intros Hs. unfold wp, wait_get_log_cmd, bind at 1, get at 1.
  assert (∀ s' i, ring s' = [] → covered s' i → filled s' i) as Hfill.
  { intros s' i Hn [Hf|(c & o & l & Hin & _)]; [done|]. rewrite Hn in Hin. by apply elem_of_nil in Hin. }
  assert (h_type h ≠ DIRECT ∨ uring_state s = URING_NOT_AVAILABLE → ring s = []) as Hempty.
  { intros Hor. destruct (ring s) eqn:Hr; [done|]. destruct (s_avail _ Hs); [by rewrite Hr|].
    destruct Hor; congruence. }
  case_bool_decide; cbn [negb]; [|by split; [|intros _; split_and!; auto]].
  case_bool_decide; [by split; [|intros _; split_and!; auto]|].
  unfold libnvme_wait_passthru, bind, get. rewrite bool_decide_eq_false_2 by done.
  eapply wp_mono; [by apply wp_wait_loop; [|lia]|].
  cbn beta. intros r' s' [[Hs' Hk] He]. split; [done|]. intros Hr. destruct (He Hr) as [_ Hn].
  destruct (Hk Hr). split_and!; [done..|]. intros i Hi Hc. apply Hfill; auto.
Qed.

End Spec.

(** ** [libnvme_get_log] *)

(** The caller's command [c], its buffer and the chunk size are such that
    the read fits: whole dwords, inside of the buffer and of the page. *)
Record fits (base : Z) (c : libnvme_passthru_cmd) (m : list Z) (xfer_len : Z) : Prop := {
  f_wf : cmd_wf c;
  f_base : 0 ≤ base ≤ addr c ∧ addr c - base + data_len c ≤ Z.of_nat (length m) ∧ addr c + data_len c < 2 ^ 64;
  f_page : View.lpo c + data_len c ≤ 2 ^ 64;
  f_len : 0 < data_len c ∧ data_len c mod 4 = 0;
  f_xfer : 4 ≤ xfer_len < 2 ^ 32 ∧ xfer_len mod 4 = 0 }.

(** The effective chunk size is one of whole dwords, too. *)
Lemma fits_4k (h : handle) base c m xfer_len :
  fits base c m xfer_len → fits base c m (if force_4k h then NVME_LOG_PAGE_PDU_SIZE else xfer_len).
Proof. intros []. split; try done. by destruct (force_4k h). Qed.

(** What the buffer holds after the read of [c] that began in [s] and ended
    in [s']: every byte is that of the page while one of the commands of the
    read was run. *)
Definition page_read (base : Z) (page : nat → Z → Z) (c : libnvme_passthru_cmd) (s s' : state) : Prop :=
  ∀ i, 0 ≤ i < data_len c → ∃ t, (length (sent s) ≤ t < length (sent s'))%nat ∧
    mem s' !! Z.to_nat (addr c - base + i) = Some (page t (View.lpo c + i)).

(** The read took as few commands as its chunks allow. *)
Definition commands_needed (h : handle) (xfer_len : Z) (c : libnvme_passthru_cmd) (s s' : state) : Prop :=
  (Z.of_nat (length (sent s')) - Z.of_nat (length (sent s)) - 1) *
    (if force_4k h then NVME_LOG_PAGE_PDU_SIZE else xfer_len) < data_len c.

(** What is not part of the read is not changed. *)
Definition rest_kept (base : Z) (c : libnvme_passthru_cmd) (s s' : state) : Prop :=
  length (mem s') = length (mem s) ∧
  ∀ j, outside base (addr c) (data_len c) j → mem s' !! j = mem s !! j.

(** The start of the page as the code reads it from the command. *)
Lemma lpo_spec c : cmd_wf c → Z.lor (Z.shiftl (cdw13 c) 32) (cdw12 c) = View.lpo c ∧ 0 ≤ View.lpo c ∧ data_len c < 2 ^ 32.
Proof.
  unfold cmd_wf, View.lpo. intros Hw. rewrite lor_shiftl_add by lia. lia.
Qed.

Lemma rounds_enough n x : 0 ≤ n → 0 < x → n ≤ Z.of_nat (rounds n x) * x.
Proof.
  intros Hn Hx. unfold rounds. pose proof (Z.div_mod n x). pose proof (Z.mod_pos_bound n x).
  rewrite Nat2Z.inj_succ, Z2Nat.id by (apply Z.div_pos; lia). nia.
Qed.

(** The read begins with nothing on the ring. *)
Lemma sane_start h base page id lp start P total s :
  ring s = [] → sane h base page id lp start P total (mem s) (length (sent s)) 0 s.
Proof. intros Hr. split; rewrite ?Hr; try done; [lia|by intros ? ?%elem_of_nil|cbn; lia]. Qed.

Lemma get_log_wp E h base retries page s rae xfer_len :
  serves E page (View.lid (the_cmd s)) (View.lsp (the_cmd s)) → (∀ n, decide_retry E n = false) →
  ring s = [] → fits base (the_cmd s) (mem s) xfer_len →
  (force_4k h = true → data_len (the_cmd s) mod NVME_LOG_PAGE_PDU_SIZE = 0) →
  wp (libnvme_get_log E h base retries rae xfer_len) (λ r s',
    rest_kept base (the_cmd s) s s' ∧ (length (sent s) ≤ length (sent s'))%nat ∧
    (length (ring s') ≤ NVME_URING_ENTRIES)%nat ∧
    (r = Success → ring s' = [] ∧ page_read base page (the_cmd s) s s' ∧
      commands_needed h xfer_len (the_cmd s) s s')) s.
Proof.
  intros Hserves Hretry Hring Hfits H4. unfold libnvme_get_log.
  destruct (f_xfer _ _ _ _ Hfits) as [Hx _]. rewrite (proj2 (Z.ltb_ge _ _)) by lia.
  apply (fits_4k h) in Hfits. cbv zeta. set (x := if force_4k h then _ else _) in *.
  unfold wp, bind at 1, get at 1. set (c := the_cmd s) in *.
  destruct Hfits as [Hw Hb Hp Hl Hxm].
  destruct (lpo_spec c Hw) as [-> Hlpo].
  pose proof (sane_start h base page (View.lid c) (View.lsp c) (View.lpo c) (addr c) (data_len c) s Hring) as Hs.
  eapply wp_bind.
  { rewrite <- (Z.add_0_r (addr c)) at 1.
    eapply (wp_get_log_loop E h base retries page (View.lid c) (View.lsp c) Hserves (View.lpo c) (addr c) (data_len c)
      (mem s) (length (sent s)) ltac:(lia) ltac:(lia) 0); try done; try lia.
    - intros Hf. subst x. rewrite Hf. auto.
    - rewrite Z.sub_0_r. apply rounds_enough; lia. }
  cbn beta. intros r s1 [Hs1 Hcov].
  destruct r; cbn [is_success negb]; [|split_and!; [split; apply Hs1|apply Hs1..|done]|
    split_and!; [split; apply Hs1|apply Hs1..|done]].
  unfold wp, bind, get. eapply wp_mono.
  { eapply (wp_wait_get_log E h base retries page (View.lid c) (View.lsp c) Hserves (View.lpo c) (addr c) (data_len c)
      (mem s) (length (sent s)) ltac:(lia) ltac:(lia) 0); try done; (lia || auto). }
  cbn beta. intros r' s' [Hs' He]. split_and!; [split; apply Hs'|apply Hs'..|].
  intros Hr. destruct (He Hr) as (Hn & Hcnt & Hf), (Hcov eq_refl) as [Hneed Hall].
  split_and!; [done| |].
  - intros i Hi. apply Hf; [lia|]. by apply Hall.
  - unfold commands_needed. fold x. unfold cnt in *. rewrite Hn, Hring in *. cbn [length] in *. nia.
Qed.

(** C8: a read of a log page.  The conditions are: no command is sent again
    by the retry hook ([decide_retry] is never true, as with the hook of the
    library itself, with --no-retries of nvme-cli, or when no command fails
    with EAGAIN or EINTR; when the hook asks for a chunk again over the ring
    the read may lose it, [get_log_retry_loses_chunk]); no request is pending
    on the ring at the start; the command, its buffer and the chunk size fit
    ([fits]: whole dwords, inside of the buffer, no wrap around, members in the
    range of their C types); with transfers forced to 4 KiB the length is a
    multiple of 4 KiB (otherwise the buffer is overrun, [get_log_4k_overflow]);
    and a Get Log Page command that succeeds returns the bytes it asks for
    ([serves]).  Then the read returns, writes nothing outside of the part of
    the buffer it was given, and leaves no more requests pending than the ring
    has entries, whatever fails.  If it returns success, no request is pending,
    it took no more commands than there are chunks, and each byte of the part
    is the byte of the log page at its offset, as it was when one of the
    commands of this read was run: no chunk is lost, doubled or misplaced, over
    the ring or without it, in whatever order the requests complete. *)
Theorem libnvme_get_log_reads E h base retries page s rae xfer_len :
  serves E page (View.lid (the_cmd s)) (View.lsp (the_cmd s)) → (∀ n, decide_retry E n = false) →
  ring s = [] → fits base (the_cmd s) (mem s) xfer_len →
  (force_4k h = true → data_len (the_cmd s) mod NVME_LOG_PAGE_PDU_SIZE = 0) →
  ∃ r s', libnvme_get_log E h base retries rae xfer_len s = Ret r s' ∧
    rest_kept base (the_cmd s) s s' ∧ (length (ring s') ≤ NVME_URING_ENTRIES)%nat ∧
    (r = Success → ring s' = [] ∧ page_read base page (the_cmd s) s s' ∧
      commands_needed h xfer_len (the_cmd s) s s').
Proof.
  intros H1 H2 H3 H4 H5. pose proof (get_log_wp E h base retries page s rae xfer_len H1 H2 H3 H4 H5) as Hw.
  unfold wp in Hw. destruct (libnvme_get_log _ _ _ _ _ _ _); [|done..]. eexists _, _. split; [done|tauto].
Qed.

(** ** Where the results come from *)

(** Whenever [m] returns, its result has [P]. *)
Definition yields {A} (m : state → run state A) (P : A → Prop) : Prop :=
  ∀ s, match m s with Ret a _ => P a | _ => True end.

Lemma yields_bind {A B} (m : state → run state A) (f : A → state → run state B) R P :
  yields m R → (∀ a, R a → yields (f a) P) → yields (bind m f) P.
Proof. intros Hm Hf s. unfold bind. specialize (Hm s). destruct (m s); [by apply Hf|done..]. Qed.

Lemma yields_any {A} (m : state → run state A) : yields m (λ _, True).
Proof. intros s. by destruct (m s). Qed.

Lemma yields_then {A B} (m : state → run state A) (f : A → state → run state B) P :
  (∀ a, yields (f a) P) → yields (bind m f) P.
Proof. intros Hf. eapply yields_bind; [apply yields_any|auto]. Qed.

Lemma yields_ret {A} (a : A) (P : A → Prop) : P a → yields (ret_ a) P.
Proof. by intros H s. Qed.

Section Results.
Context (E : env) (h : handle) (base : Z) (retries : nat) (P : ret → Prop).

(** The results of the library itself, and those of the kernel. *)
Definition library_results : Prop :=
  P Success ∧ P (Errno EINVAL) ∧ P (Errno ENOTSUP) ∧ P (Errno EAGAIN) ∧ P (Errno ENOMEM).
Definition kernel_results : Prop :=
  P (open_uring E) ∧ ∀ n, P (uring_submit E n) ∧ P (wait_cqe E n) ∧ ∀ c, P (kernel E n c).1.
Hypothesis Hlib : library_results.
Hypothesis Hker : kernel_results.

Ltac results :=
  repeat match goal with
    | |- ∀ _, _ => intro
    | |- yields (ret_ _) _ =>
        apply yields_ret; destruct Hlib as (? & ? & ? & ? & ?); assumption
    | |- yields (bind (get _) _) _ => apply yields_then
    | |- yields (bind (modify _) _) _ => apply yields_then
    | |- yields (bind (default_timeout _) _) _ => apply yields_then
    | |- yields (if ?b then _ else _) _ => destruct b
    | _ => progress cbv zeta
    end.

Lemma yields_kernel_run c : yields (kernel_run E base c) P.
Proof using Hker.
  unfold kernel_run. apply yields_then. intros n. destruct (kernel E n c) as [r d] eqn:Ek.
  do 2 (apply yields_then; intros _). apply yields_ret. destruct Hker as [_ Hk]. destruct (Hk n) as (_ & _ & Hc).
  specialize (Hc c). by rewrite Ek in Hc.
Qed.

Lemma yields_submit place : yields (nvme_submit_uring_cmd E place) P.
Proof using Hlib Hker.
  unfold nvme_submit_uring_cmd. apply yields_then. intros n. destruct Hker as [_ Hk]. destruct (Hk n) as (Hu & _).
  destruct (uring_submit E n); [apply yields_then; intros _|..]; by apply yields_ret.
Qed.

Lemma yields_submit_admin : yields (libnvme_submit_admin_passthru E h) P.
Proof using Hlib Hker.
  unfold libnvme_submit_admin_passthru. results.
  eapply (yields_bind _ _ P).
  - results. unfold transport_handle_open_uring. destruct Hker as [Ho _].
    destruct (open_uring E); apply yields_then; intros _; by apply yields_ret.
  - results. apply yields_submit.
Qed.

Lemma yields_reap fuel : yields (libnvme_reap_passthru E base fuel) (λ x, match x with inl r | inr r => P r end).
Proof using Hlib Hker.
  induction fuel as [|fuel IH]; [done|]. cbn [libnvme_reap_passthru]. results.
  destruct a0; results. destruct Hker as [_ Hk]. destruct (Hk a1) as (_ & Hw & _).
  destruct (wait_cqe E a1); [|by apply yields_ret..].
  eapply yields_bind; [apply yields_kernel_run|]. results.
  eapply yields_bind; [apply yields_submit|]. results; try done.
Qed.

Lemma yields_wait_loop fuel r : P r → yields (wait_loop E base retries fuel r) P.
Proof using Hlib Hker.
  revert r. induction fuel as [|fuel IH]; intros r Hr; [done|]. cbn [wait_loop].
  apply yields_then. intros [|c l]; [by apply yields_ret|].
  eapply yields_bind; [apply yields_reap|]. intros [e|st] Hx; [by apply yields_ret|].
  apply IH. by destruct r.
Qed.

Lemma yields_ioctl fuel c : yields (ioctl_passthru64 E base fuel c) P.
Proof using Hlib Hker.
  induction fuel as [|fuel IH]; [done|]. cbn [ioctl_passthru64]. apply yields_then. intros n.
  eapply yields_bind; [apply yields_kernel_run|]. results; try done.
Qed.

Lemma yields_exec : yields (libnvme_exec_admin_passthru E h base retries) P.
Proof using Hlib Hker.
  assert (yields (no_uring E h base retries) P) as Hno.
  { unfold no_uring. results. destruct (h_type h); results; first [apply yields_ioctl|apply yields_kernel_run]. }
  unfold libnvme_exec_admin_passthru. results; try done.
  eapply yields_bind; [apply yields_submit_admin|]. results; try done.
  eapply yields_bind; [apply yields_reap|]. intros [e|st] Hx; by apply yields_ret.
Qed.

Lemma yields_get_log rae xfer_len : yields (libnvme_get_log E h base retries rae xfer_len) P.
Proof using Hlib Hker.
  assert (yields (submit_get_log_cmd E h base retries) P) as Hsub.
  { unfold submit_get_log_cmd. results; try apply yields_exec.
    eapply yields_bind; [apply yields_submit_admin|]. results; apply yields_exec. }
  assert (∀ f, yields (wait_get_log_cmd E h base retries f) P) as Hwait.
  { intros f. unfold wait_get_log_cmd, libnvme_wait_passthru. results. apply yields_wait_loop, Hlib. }
  assert (∀ f a b c d e o p r, yields (get_log_loop E h base retries f a b c d e o p r) P) as Hloop.
  { induction f as [|f IH]; [done|]. intros. cbn [get_log_loop]. apply yields_then. intros _.
    eapply yields_bind; [apply Hsub|]. results. apply IH. }
  unfold libnvme_get_log. results. eapply yields_bind; [apply Hloop|]. results. apply Hwait.
Qed.
End Results.

(** ** [libnvme_get_log_dynamic_chunk] *)

(** A mask that clears the lowest [k] bits. *)
Lemma land_high a k w :
  0 ≤ k → 0 ≤ w → 0 ≤ a < 2 ^ (w + k) → Z.land a (Z.shiftl (Z.ones w) k) = 2 ^ k * (a / 2 ^ k).
Proof.
  intros Hk Hw Ha.
  assert (Z.land a (Z.shiftl (Z.ones w) k) = Z.shiftl (Z.land (Z.shiftr a k) (Z.ones w)) k) as ->.
  { apply Z.bits_inj'. intros i Hi. rewrite Z.land_spec, !Z.shiftl_spec by lia.
    destruct (decide (i < k)).
    - by rewrite !(Z.testbit_neg_r _ (i - k)), andb_false_r by lia.
    - rewrite Z.land_spec, Z.shiftr_spec by lia. by replace (i - k + k) with i by lia. }
  rewrite Z.land_ones, Z.shiftr_div_pow2, Z.shiftl_mul_pow2 by lia. rewrite Z.mod_small; [lia|].
  split; [apply Z.div_pos; lia|]. apply Z.div_lt_upper_bound; [lia|].
  rewrite <- Z.pow_add_r by lia. rewrite Z.add_comm. lia.
Qed.

(** A chunk shrinks to whole units of 4 KiB, and at least to its half. *)
Lemma shrink_spec x :
  0 ≤ x < 2 ^ 32 →
  shrink x = 4096 * (x / 8192) ∧ 2 * shrink x ≤ x ∧ shrink x mod 4 = 0.
Proof.
  intros Hx. assert (shrink x = 4096 * (x / 8192)) as E.
  { unfold shrink. change (u32 _) with (Z.shiftl (Z.ones 20) 12). rewrite land_high by divmod. divmod. }
  rewrite E. split_and!; [done|divmod..].
Qed.

Section Dynamic.
Context (E : env) (h : handle) (base : Z) (retries : nat) (page : nat → Z → Z) (c0 : libnvme_passthru_cmd).
Context (start P total : Z) (m0 : list Z) (t0 : nat).
Hypothesis Hserves : serves E page (View.lid c0) (View.lsp c0).
Hypothesis Hretry : ∀ n, decide_retry E n = false.
Hypothesis HP : base ≤ P ∧ P + total < 2 ^ 64 ∧ P - base + total ≤ Z.of_nat (length m0) ∧ 0 ≤ total.
Hypothesis Hstart : 0 ≤ start ∧ start + total ≤ 2 ^ 64.
Hypothesis Htotal : 0 < total < 2 ^ 32 ∧ total mod 4 = 0 ∧ 0 ≤ P.

Abbreviation sane' := (sane h base page (View.lid c0) (View.lsp c0) start P total m0 t0).
Abbreviation filled' := (filled base page start P t0).

(** When the ring is empty what was read can no longer change. *)
Lemma sane_advance low low' s :
  sane' low s → ring s = [] → (∀ i, low ≤ i < low' → filled' s i) → sane' low' s.
Proof.
  intros [] Hr Hf. split; try done.
  - intros i Hi. destruct (decide (i < low)); [apply s_low0; lia|apply Hf; lia].
  - intros c. rewrite Hr. by intros ?%elem_of_nil.
Qed.

(** One round: the chunk is sent and waited for. *)
Lemma wp_send_chunk o x rae a s :
  sane' o s → 0 ≤ o → 4 ≤ x < 2 ^ 32 → x mod 4 = 0 → o + x ≤ total → a = P + o →
  wp (send_chunk E h base retries (Z.land (cdw10 c0) LID_LSP) (Z.land (cdw11 c0) LSI) start o x a rae)
     (λ r s', sane' o s' ∧ (r = Success → sane' (o + x) s' ∧ ring s' = [])) s.
Proof using HP Hserves Hstart Hretry.
  intros Hs Ho Hx Hx4 Hle ->. unfold wp, send_chunk, bind at 1, modify at 1.
  set (k := chunk_cmd _ _ _ _ _ _ _ _).
  assert (chunk (View.lid c0) (View.lsp c0) start P total o k o x) as Hk.
  { destruct (chunk_cmd_view (the_cmd s) c0 start o x (P + o) rae) as (V1 & V2 & _ & _ & V5 & V6 & V7 & V8 & _);
      [lia..|]. unfold chunk. split_and!; (done || lia). }
  eapply wp_bind; [eapply wp_submit_get_log;
    [exact Hserves|exact HP|exact Hstart|exact Ho|exact Hretry|by apply sane_cmd|exact Hk]|].
  cbn beta. intros r s1 [Hs1 Ha]. unfold wp, bind at 1, get at 1.
  destruct r; cbn [is_success]; [|done..]. specialize (Ha eq_refl).
  eapply wp_mono; [eapply wp_wait_get_log;
    [exact Hserves|exact HP|exact Hstart|exact Ho|exact Hretry|exact Hs1]|]. cbn beta. intros r s' [Hs' He].
  split; [done|]. intros Hr. destruct (He Hr) as (Hn & _ & Hf). split; [|done].
  apply (sane_advance o); [done..|]. intros i Hi. apply Hf; [lia|]. apply Ha; [lia|by right].
Qed.

Lemma wp_dynamic_loop m fuel k s o x rae :
  sane' o s → 0 ≤ o < total → o mod 4 = 0 → 4 ≤ x < 2 ^ 32 → x mod 4 = 0 →
  4 ≤ m ≤ x → m ≤ NVME_LOG_PAGE_PDU_SIZE →
  total - o ≤ k * m → k + Z.log2 x ≤ Z.of_nat fuel →
  wp (dynamic_loop E h base retries fuel total start (Z.land (cdw10 c0) LID_LSP) (Z.land (cdw11 c0) LSI)
        x o (P + o) rae)
     (λ r s', (∃ low, sane' low s') ∧ (r = Success → sane' total s' ∧ ring s' = [])) s.
Proof using HP Hserves Hstart Hretry Htotal.
  revert k s o x. induction fuel as [|fuel IH]; intros k s o x Hs Ho Ho4 Hx Hx4 Hm Hm4 Hk Hf.
  { pose proof (Z.log2_nonneg x). nia. }
  cbn [dynamic_loop]. rewrite (u64_small (total - o)) by lia.
  set (y := if x <? total - o then x else total - o).
  assert (y = Z.min x (total - o)) as Hy by (unfold y; destruct (Z.ltb_spec x (total - o)); lia).
  assert (4 ≤ y ∧ y mod 4 = 0) as [Hy1 Hy4].
  { destruct Htotal as (_ & Ht4 & _).
    assert ((total - o) mod 4 = 0) by (rewrite Zminus_mod, Ht4, Ho4; done).
    destruct (Z.min_spec x (total - o)) as [[_ E'] | [_ E']]; rewrite E' in Hy; rewrite Hy; split; try done;
      [lia|divmod]. }
  rewrite (u64_small (o + y)) by lia.
  eapply wp_bind; [apply wp_send_chunk; (done || lia)|]. cbn beta. intros r s1 [Hs1 Hok].
  destruct (can_shrink r) eqn:Hsh.
  - rewrite (proj2 (Z.ltb_lt o total)) by lia.
    destruct (Z.ltb_spec (shrink x) NVME_LOG_PAGE_PDU_SIZE) as [|Hge].
    + split; [by exists o|]. intros ->. by destruct (Hok eq_refl).
    + destruct (shrink_spec x) as (_ & Hs2 & Hs4); [lia|]. change NVME_LOG_PAGE_PDU_SIZE with 4096 in *.
      pose proof (Z.log2_le_mono _ _ Hs2) as Hlog. rewrite Z.log2_double in Hlog by lia.
      apply (IH k); (done || lia).
  - destruct r; cbn [is_success negb]; [|by split; [exists o|]..].
    destruct (Hok eq_refl) as [Hs2 Hn].
    destruct (Z.ltb_spec (o + y) total) as [Hlt|Hge].
    + rewrite (u64_small (P + o + y)) by lia. replace (P + o + y) with (P + (o + y)) by lia.
      apply (IH (k - 1)); try done; try lia. divmod.
    + assert (o + y = total) as Heq by lia. rewrite Heq in Hs2. split; [by exists total|done].
Qed.
End Dynamic.

(** C9: a read with chunks that shrink where the transport or the controller
    refuses them.  The conditions are: no command is sent again by the retry
    hook ([decide_retry] is never true, as with the hook of the library itself,
    with --no-retries of nvme-cli, or when no command fails with EAGAIN or
    EINTR; a hook that asks for a command again for ever keeps the read from
    returning); no request is pending on the ring at the start; the command,
    its buffer and the chunk size fit ([fits], as for a read with chunks of one
    size); and a Get Log Page command that succeeds returns the bytes it asks
    for ([serves]).  Then the read returns, as a round either reads a chunk or
    at least halves the chunk size, down to 4 KiB; nothing outside of the
    buffer is written, forced transfers of 4 KiB included, and on success every
    byte is that of the log page, however many chunks failed on the way: what
    was read before a failure is kept and a chunk that failed is read again. *)
Theorem dynamic_chunk_reads E h base retries page s rae xfer_len :
  serves E page (View.lid (the_cmd s)) (View.lsp (the_cmd s)) → (∀ n, decide_retry E n = false) →
  ring s = [] → fits base (the_cmd s) (mem s) xfer_len →
  ∃ r s', libnvme_get_log_dynamic_chunk E h base retries rae xfer_len s = Ret r s' ∧
    rest_kept base (the_cmd s) s s' ∧ (length (ring s') ≤ NVME_URING_ENTRIES)%nat ∧
    (r = Success → ring s' = [] ∧ page_read base page (the_cmd s) s s').
Proof.
  intros Hserves Hretry Hring Hfits. unfold libnvme_get_log_dynamic_chunk.
  destruct (f_xfer _ _ _ _ Hfits) as [Hx _]. rewrite (proj2 (Z.ltb_ge _ _)) by lia.
  apply (fits_4k h) in Hfits. cbv zeta. set (x := if force_4k h then _ else _) in *.
  unfold bind at 1, get at 1. set (c := the_cmd s) in *.
  destruct Hfits as [Hw Hb Hp Hl Hxm]. destruct (lpo_spec c Hw) as [-> Hlpo].
  pose proof (sane_start h base page (View.lid c) (View.lsp c) (View.lpo c) (addr c) (data_len c) s Hring) as Hs.
  set (m := Z.min x NVME_LOG_PAGE_PDU_SIZE).
  assert (4 ≤ m ≤ x ∧ m ≤ NVME_LOG_PAGE_PDU_SIZE) as Hm by (unfold m; change NVME_LOG_PAGE_PDU_SIZE with 4096; lia).
  assert (data_len c - 0 ≤ Z.of_nat (rounds (data_len c) m) * m) as Hr by (rewrite Z.sub_0_r; apply rounds_enough; lia).
  assert (Z.of_nat (rounds (data_len c) m) + Z.log2 x ≤ Z.of_nat (dynamic_rounds (data_len c) x)) as Hf.
  { unfold dynamic_rounds. fold m. rewrite Nat2Z.inj_add, Z2Nat.id by apply Z.log2_nonneg. lia. }
  pose proof (wp_dynamic_loop E h base retries page c (View.lpo c) (addr c) (data_len c) (mem s)
    (length (sent s)) Hserves Hretry ltac:(lia) ltac:(lia) ltac:(lia) m (dynamic_rounds (data_len c) x)
    (Z.of_nat (rounds (data_len c) m)) s 0 x rae Hs ltac:(lia) eq_refl ltac:(lia) ltac:(lia) ltac:(lia)
    ltac:(lia) Hr Hf) as Hwp.
  rewrite Z.add_0_r in Hwp. unfold wp in Hwp.
  destruct (dynamic_loop _ _ _ _ _ _ _ _ _ _ _ _ _ s) as [r s'| |]; [|done..].
  destruct Hwp as [[low Hs'] Hok].
  exists r, s'. split_and!; [done|split; apply Hs'|apply Hs'|].
  intros Hsuc. destruct (Hok Hsuc) as [Hst Hn]. split; [done|]. exact (s_low _ _ _ _ _ _ _ _ _ _ _ _ Hst).
Qed.

(** ** Runs *)

Module Demo.

(** A controller whose log pages count up, behind a kernel that completes the
    requests of the ring from the last one on. *)
Definition page (n : nat) (i : Z) : Z := i mod 256.
Definition controller (n : nat) (c : libnvme_passthru_cmd) : ret * list Z :=
  (Success, page n <$> seqZ (View.lpo c) (View.log_bytes c)).
Definition E : env := {|
  kernel := controller; open_uring := Success; calloc_ok := λ _, true;
  uring_submit := λ _, Success; wait_cqe := λ _, Success; pick := λ n, (15 - n)%nat;
  decide_retry := λ _, false |}.
Definition h : handle := {| h_type := DIRECT; ns_chardev := false; h_timeout := 0; force_4k := false |}.
Definition cmd (addr len : Z) : libnvme_passthru_cmd :=
  nvme_init_get_log_lpo (nvme_init_get_log cmd_zero NVME_NSID_ALL NVME_LOG_LID_ANA NVME_CSI_NVM addr len) 8.
Definition start (addr len : Z) : state := {|
  mem := replicate (Z.to_nat len) 0; the_cmd := cmd addr len; ring := [];
  uring_state := URING_UNKNOWN; sent := [] |}.

(** A kernel that refuses transfers of more than 4 KiB. *)
Definition small : env := {|
  kernel := λ n c, if View.log_bytes c <=? 4096 then controller n c else (Errno EINVAL, []);
  open_uring := Success; calloc_ok := λ _, true; uring_submit := λ _, Success; wait_cqe := λ _, Success;
  pick := λ _, O; decide_retry := λ _, false |}.

(** A kernel that interrupts the first command, and an application that asks
    for it again. *)
Definition interrupted : env := {|
  kernel := λ n c, match n with O => (Errno EAGAIN, []) | S _ => controller n c end;
  open_uring := Success; calloc_ok := λ _, true; uring_submit := λ _, Success; wait_cqe := λ _, Success;
  pick := λ _, O; decide_retry := λ n, (n =? 0)%nat |}.
Lemma serves_ok i l : serves E page i l.
Proof. intros n c d _ _ He. exact (eq_sym (f_equal snd He)). Qed.

Definition h4k : handle := {| h_type := DIRECT; ns_chardev := false; h_timeout := 0; force_4k := true |}.

End Demo.

Lemma libnvme_get_log_reads_witness :
  ∃ r s', libnvme_get_log Demo.E Demo.h 64 0 false 8 (Demo.start 64 24) = Ret r s' ∧
    rest_kept 64 (Demo.cmd 64 24) (Demo.start 64 24) s' ∧ (length (ring s') ≤ NVME_URING_ENTRIES)%nat ∧
    (r = Success → ring s' = [] ∧ page_read 64 Demo.page (Demo.cmd 64 24) (Demo.start 64 24) s' ∧
      commands_needed Demo.h 8 (Demo.cmd 64 24) (Demo.start 64 24) s').
Proof.
  apply (libnvme_get_log_reads Demo.E Demo.h 64 0 Demo.page (Demo.start 64 24) false 8).
  - apply Demo.serves_ok.
  - done.
  - done.
  - split; vm_compute; intuition congruence.
  - done.
Defined.

Lemma dynamic_chunk_reads_witness :
  ∃ r s', libnvme_get_log_dynamic_chunk Demo.E Demo.h 64 0 false 8 (Demo.start 64 24) = Ret r s' ∧
    rest_kept 64 (Demo.cmd 64 24) (Demo.start 64 24) s' ∧ (length (ring s') ≤ NVME_URING_ENTRIES)%nat ∧
    (r = Success → ring s' = [] ∧ page_read 64 Demo.page (Demo.cmd 64 24) (Demo.start 64 24) s').
Proof.
  apply (dynamic_chunk_reads Demo.E Demo.h 64 0 Demo.page (Demo.start 64 24) false 8).
  - apply Demo.serves_ok.
  - done.
  - done.
  - split; vm_compute; intuition congruence.
Defined.

(** A chunk of 16 KiB that the kernel refuses is read as four. *)
Example dynamic_run :
  match libnvme_get_log_dynamic_chunk Demo.small Demo.h 4096 0 false 16384 (Demo.start 4096 16384) with
  | Ret r s' => r = Success ∧ View.log_bytes <$> sent s' = [16384; 8192; 4096; 4096; 4096; 4096]
  | _ => False
  end.
Proof. vm_compute. by split_and!. Qed.

(** A read of no bytes that fails succeeds: the error is lost where the loop
    goes on to its condition. *)
Theorem dynamic_chunk_error_lost :
  match libnvme_get_log_dynamic_chunk Demo.small Demo.h 4096 0 false 16384
          (set_the_cmd (Demo.cmd 4096 0) (Demo.start 4096 0)) with
  | Ret r s' => r = Success ∧ length (sent s') = 1%nat ∧
      kernel Demo.small 0 (default cmd_zero (head (sent s'))) = (Errno EINVAL, [])
  | _ => False
  end.
Proof. vm_compute. by split_and!. Qed.

(** Over the ring the chunks of a small read arrive, whatever their order. *)
Example get_log_ring_run :
  match libnvme_get_log Demo.E Demo.h 64 0 false 8 (Demo.start 64 24) with
  | Ret r s' => r = Success ∧ mem s' = seqZ 8 24 ∧ View.lpo <$> sent s' = [8; 16; 24]
  | _ => False
  end.
Proof. vm_compute. by split_and!. Qed.

(** A read of more than 16 chunks over the ring fails with [-EAGAIN], as
    nothing takes the completed requests from the ring before the end of the
    loop.  Its requests stay behind: each later admin command on the handle
    fails the same way. *)
Theorem get_log_ring_full :
  match libnvme_get_log Demo.E Demo.h 4096 0 false 4096 (Demo.start 4096 69632) with
  | Ret r s' =>
      r = Errno EAGAIN ∧ length (ring s') = 16%nat ∧ sent s' = [] ∧
      match libnvme_exec_admin_passthru Demo.E Demo.h 4096 0 s' with
      | Ret r' s'' => r' = Errno EAGAIN ∧ sent s'' = []
      | _ => False
      end
  | _ => False
  end.
Proof. vm_compute. by split_and!. Qed.

(** A request of the ring that is sent again is sent from the caller's
    command, which by then holds the last chunk: the read succeeds, and its
    first chunk was never read. *)
Theorem get_log_retry_loses_chunk :
  match libnvme_get_log Demo.interrupted Demo.h 64 1 false 4 (Demo.start 64 8) with
  | Ret r s' => r = Success ∧ mem s' = [0; 0; 0; 0; 12; 13; 14; 15]
  | _ => False
  end.
Proof. vm_compute. by split_and!. Qed.

(** With transfers forced to 4 KiB a read of less than that writes behind
    the caller's buffer. *)
Theorem get_log_4k_overflow :
  libnvme_get_log Demo.E Demo.h4k 4096 0 false 4096 (Demo.start 4096 16) = Wild.
Proof. by vm_compute. Qed.
