(* ===== verification/AnaLog.v ===== *)
(** * The ANA log page: [libnvme_get_ana_log_atomic] of
    [libnvme/src/nvme/nvme-cmds.c]

    The log page of the asymmetric namespace access is a list of groups, each
    with its own list of namespaces: how long the page is shows only while it
    is read.  A page that takes several commands may change between them; the
    code compares the change count before and after, and starts again.

    The pointers of the code are offsets into the log here; the log is the
    caller's buffer, at [base]. *)

From stdpp Require Import base list numbers.
From S2P Require Import Prelude.
From S2P Require Import CStr.
From S2P Require Import Io.
From S2P Require Import Passthru.
From S2P Require Import NvmeConst.
From S2P Require Import Commands.
From S2P Require Import CommandsView.
From S2P Require Import GetLog.
From S2P Require Import GetLogSpec.

#[local] Open Scope io_scope.

(** ** The layout *)

Definition offsetof_nnsids : Z := 4.

(** The [n] bytes at [off], little endian. *)
Definition field (m : list Z) (off : Z) (n : nat) : Z := le (take n (drop (Z.to_nat off) m)).

Definition chgcnt (m : list Z) : Z := field m 0 8.
Definition ngrps (m : list Z) : Z := field m 8 2.

Section Ana.
Context (E : env) (h : handle) (base : Z) (retries : nat).

(** ** The operations *)

(** The loop of [read_ana_chunk]; it also returns [*read]. *)
Fixpoint read_loop (fuel : nat) (lsp : Z) (rae : bool) (read to_read log_end : Z) : M (ret * Z) :=
  match fuel with
  | O => λ _, NoFuel
  | S fuel' =>
      if read <? to_read then
        let len := Z.min (u32 (log_end - read)) NVME_LOG_PAGE_PDU_SIZE in
        do! modify (λ s, set_the_cmd (nvme_init_get_log_ana (the_cmd s) lsp read (base + read) len) s) in
        let! r := libnvme_get_log E h base retries rae NVME_LOG_PAGE_PDU_SIZE in
        if negb (is_success r) then ret_ (r, read)
        else read_loop fuel' lsp rae (read + len) to_read log_end
      else ret_ (Success, read)
  end.

Definition read_ana_chunk (lsp : Z) (rae : bool) (read to_read log_end : Z) : M (ret * Z) :=
  if log_end <? to_read then ret_ (Errno ENOSPC, read)
  else read_loop (S (rounds log_end NVME_LOG_PAGE_PDU_SIZE)) lsp rae read to_read log_end.

(** The loop of [try_read_ana] over the groups; it also returns [*to_read]
    and [*may_retry]. *)
Fixpoint read_groups (n : nat) (lsp : Z) (rae : bool) (log_end read to_read : Z) : M (ret * Z * bool) :=
  match n with
  | O => ret_ (Success, to_read, true)
  | S n' =>
      let group := to_read in
      let to_read := to_read + sizeof_nvme_ana_group_desc in
      let! x := read_ana_chunk lsp rae read to_read log_end in
      let '(r, read) := x in
      if negb (is_success r) then ret_ (r, to_read, bool_decide (r = Errno ENOSPC))
      else
        let! nnsids := get (λ s, field (mem s) (group + offsetof_nnsids) 4) in
        if (log_end - to_read) / 4 <? nnsids then ret_ (Errno ENOSPC, to_read, true)
        else
          let to_read := to_read + nnsids * 4 in
          let! x := read_ana_chunk lsp rae read to_read log_end in
          let '(r, read) := x in
          if negb (is_success r) then ret_ (r, to_read, bool_decide (r = Errno ENOSPC))
          else read_groups n' lsp rae log_end read to_read
  end.

Definition try_read_ana (lsp : Z) (rae : bool) (log_end read to_read : Z) : M (ret * Z * bool) :=
  let! n := get (λ s, ngrps (mem s)) in
  read_groups (Z.to_nat n) lsp rae log_end read to_read.

(** The loop over the attempts; it also returns [*len]. *)
Fixpoint atomic_loop (attempts : nat) (lsp : Z) (rae : bool) (log_end read len : Z) : M (ret * Z) :=
  match attempts with
  | O => ret_ (Errno EAGAIN, len)
  | S attempts' =>
      let! x := try_read_ana lsp rae log_end read sizeof_nvme_ana_log in
      let '(saved_ret, to_read, may_retry) := x in
      let len := u32 to_read in
      if (len <=? NVME_LOG_PAGE_PDU_SIZE) || negb may_retry then ret_ (saved_ret, len)
      else
        let! before := get (λ s, chgcnt (mem s)) in
        let! x := read_ana_chunk lsp rae 0 sizeof_nvme_ana_log log_end in
        let '(r, read) := x in
        if negb (is_success r) then ret_ (r, len)
        else
          let! after := get (λ s, chgcnt (mem s)) in
          if after =? before then ret_ (saved_ret, len)
          else atomic_loop attempts' lsp rae log_end read len
  end.

Definition libnvme_get_ana_log_atomic (rae rgo : bool) (len : Z) (attempts : nat) : M (ret * Z) :=
  let lsp := if rgo then NVME_LOG_ANA_LSP_RGO_GROUPS_ONLY else 0 in
  let log_end := Z.land len (u32 (-4)) in
  match attempts with
  | O => ret_ (Errno EINVAL, len)
  | S _ =>
      let! x := read_ana_chunk lsp rae 0 sizeof_nvme_ana_log log_end in
      let '(r, read) := x in
      if negb (is_success r) then ret_ (r, len)
      else atomic_loop attempts lsp rae log_end read len
  end.
End Ana.
