(* ===== verification/AnaSpec.v ===== *)
(** * The ANA log page is read as it was at one moment

    The theorem of [AnaLog]: what [libnvme_get_ana_log_atomic] returns as a
    success is the whole log page as the controller had it at one moment,
    if the controller counts its changes. *)

From stdpp Require Import base list numbers.
From S2P Require Import Prelude.
From S2P Require Import CStr.
From S2P Require Import Io.
From S2P Require Import Passthru.
From S2P Require Import NvmeConst.
From S2P Require Import Commands.
From S2P Require Import CommandsView.
From S2P Require Import GetLog.
From S2P Require Import GetLogSpec.
From S2P Require Import AnaLog.

#[local] Open Scope io_scope.

(** ** The command of a chunk *)

Lemma get_log_ana_view cmd l off log len :
  in_width 4 l → in_width 32 off → in_width 64 log → in_width 32 len →
  let c := nvme_init_get_log_ana cmd l off log len in
  cmd_wf c ∧ View.lid c = NVME_LOG_LID_ANA ∧ View.lsp c = l ∧ View.lpo c = off ∧ data_len c = len ∧ addr c = log.
Proof.
  intros Hl Ho Ha Hn c. split.
  - unfold c, nvme_init_get_log_ana, nvme_init_get_log. cbv zeta. repeat set_wf.
  - unfold c, View.lid, View.lsp, View.lpo, nvme_init_get_log_ana, nvme_init_get_log. cbn.
    rewrite land_low, (u64_small log) by done. split_and!; try done.
    + get_fields. done.
    + get_fields. apply (land_width 7); [lia|]. unfold in_width in *. lia.
    + apply split64. unfold in_width in *. lia.
Qed.

(** ** The reference *)

(** The bytes of a page at [off], little endian. *)
Definition page_field (p : Z → Z) (off n : Z) : Z := le (p <$> seqZ off n).

(** The end of [n] groups that begin at [off]. *)
Fixpoint groups_end (p : Z → Z) (n : nat) (off : Z) : Z :=
  match n with
  | O => off
  | S n' => groups_end p n' (off + sizeof_nvme_ana_group_desc + 4 * page_field p (off + offsetof_nnsids) 4)
  end.

Definition ana_size (p : Z → Z) : Z :=
  groups_end p (Z.to_nat (page_field p 8 2)) sizeof_nvme_ana_log.

(** The change count tells a page that changed: between two moments with the
    same count the page was the same. *)
Definition counts_changes (page : nat → Z → Z) : Prop := ∀ t1 t2 t,
  (t1 ≤ t ≤ t2)%nat → page_field (page t1) 0 8 = page_field (page t2) 0 8 →
  ∀ i, page t i = page t1 i.

Lemma field_page m p off n :
  0 ≤ off → (∀ i, off ≤ i < off + Z.of_nat n → m !! Z.to_nat i = Some (p i)) →
  field m off n = page_field p off (Z.of_nat n).
Proof.
  intros Ho Hm. unfold field, page_field. f_equal. apply list_eq. intros k.
  rewrite list_lookup_fmap. destruct (decide (k < n)%nat) as [Hk|Hk].
  - rewrite lookup_take_lt, lookup_drop, lookup_seqZ_lt by lia. cbn.
    rewrite <- Hm by lia. f_equal. lia.
  - rewrite lookup_take_ge, lookup_seqZ_ge by lia. done.
Qed.

(** ** The operations *)

Section Spec.
Context (E : env) (h : handle) (base : Z) (retries : nat) (page : nat → Z → Z).
Context (lsp log_end : Z) (m0 : list Z).
Hypothesis Hserves : serves E page NVME_LOG_LID_ANA lsp.
Hypothesis Hbytes : ∀ t i, is_byte (page t i).
Hypothesis Hretry : ∀ n, decide_retry E n = false.
Hypothesis Hspace : kernel_results E (λ r, r ≠ Errno ENOSPC).
Hypothesis H4k : force_4k h = false.
Hypothesis Hlsp : in_width 4 lsp.
Hypothesis Hend : 0 ≤ log_end < 2 ^ 32 ∧ log_end mod 4 = 0 ∧ log_end ≤ Z.of_nat (length m0) ∧
  0 ≤ base ∧ base + log_end < 2 ^ 64.

(** Nothing behind the log is changed. *)
Definition kept (s : state) : Prop :=
  length (mem s) = length m0 ∧ ∀ j, log_end ≤ Z.of_nat j → mem s !! j = m0 !! j.

(** The bytes from [a] to [b] were read, by the command [t0] or later. *)
Definition read_since (s : state) (t0 : nat) (a b : Z) : Prop :=
  ∀ i, a ≤ i < b → ∃ t, (t0 ≤ t < length (sent s))%nat ∧ mem s !! Z.to_nat i = Some (page t i).

(** The bytes before [a] are the same. *)
Definition same_below (s s' : state) (a : Z) : Prop :=
  ∀ i, 0 ≤ i < a → mem s' !! Z.to_nat i = mem s !! Z.to_nat i.

(** One command for [len] bytes at [read]. *)
Lemma wp_read_one s rae read :
  kept s → ring s = [] → 0 ≤ read < log_end → read mod 4 = 0 →
  let len := Z.min (u32 (log_end - read)) NVME_LOG_PAGE_PDU_SIZE in
  len = Z.min (log_end - read) 4096 ∧
  wp (do! modify (λ s, set_the_cmd (nvme_init_get_log_ana (the_cmd s) lsp read (base + read) len) s) in
      libnvme_get_log E h base retries rae NVME_LOG_PAGE_PDU_SIZE) (λ r s',
    kept s' ∧ r ≠ Errno ENOSPC ∧
    (r = Success → ring s' = [] ∧ length (sent s') = S (length (sent s)) ∧
      (∀ i, 0 ≤ i → i < read ∨ read + len ≤ i → mem s' !! Z.to_nat i = mem s !! Z.to_nat i) ∧
      ∀ i, read ≤ i < read + len → mem s' !! Z.to_nat i = Some (page (length (sent s)) i))) s.
Proof using Hserves Hretry Hspace H4k Hlsp Hend.
  intros [Hlen Hkept] Hring Hread Hmod len.
  assert (len = Z.min (log_end - read) 4096) as El by (unfold len; rewrite u32_small by lia; done).
  split; [done|]. unfold wp, bind, modify.
  set (c := nvme_init_get_log_ana _ _ _ _ _).
  destruct (get_log_ana_view (the_cmd s) lsp read (base + read) len) as (Hwf & Hlid & Hlsp' & Hlpo & Hdl & Ha);
    [first [done|unfold in_width; lia]..|]. fold c in Hwf, Hlid, Hlsp', Hlpo, Hdl, Ha.
  pose proof (get_log_wp E h base retries page (set_the_cmd c s) rae NVME_LOG_PAGE_PDU_SIZE) as Hwp.
  change (the_cmd (set_the_cmd c s)) with c in Hwp. rewrite Hlid, Hlsp' in Hwp.
  pose proof (yields_get_log E h base retries (λ r, r ≠ Errno ENOSPC)
    ltac:(split_and!; done) Hspace rae NVME_LOG_PAGE_PDU_SIZE (set_the_cmd c s)) as Hy.
  unfold wp in Hwp. destruct (libnvme_get_log _ _ _ _ _ _ _) as [r s'| |].
  2,3: apply Hwp; try done; [|by rewrite H4k]; split; rewrite ?Hlpo, ?Ha, ?Hdl; try done; cbn; try lia; divmod.
  destruct Hwp as ([Hl Ho] & Ht & _ & Hok); try done; [|by rewrite H4k|].
  { split; rewrite ?Hlpo, ?Ha, ?Hdl; try done; cbn; try lia; divmod. }
  cbn [mem sent set_the_cmd] in *. rewrite Ha, Hdl in Ho.
  split_and!; [|done|].
  - split; [congruence|]. intros j Hj. rewrite Ho by (unfold outside; lia). auto.
  - intros Hr. destruct (Hok Hr) as (Hn & Hpr & Hneed).
    unfold page_read, commands_needed in *. rewrite Hlpo, Ha, ?Hdl, ?H4k in *.
    change NVME_LOG_PAGE_PDU_SIZE with 4096 in *. cbn [sent set_the_cmd] in *.
    assert (length (sent s') = S (length (sent s))) as Hone.
    { destruct (Hpr 0) as (t & Hb & _); [lia|]. nia. }
    split_and!; [done..| |].
    + intros i Hi Hout. apply Ho. unfold outside. lia.
    + intros i Hi. destruct (Hpr (i - read)) as (t & Hb & Hv); [lia|].
      replace t with (length (sent s)) in Hv by lia.
      replace (base + read - base + (i - read)) with i in Hv by lia.
      by replace (read + (i - read)) with i in Hv by lia.
Qed.

(** The loop: it reads up to [to_read] or further. *)
Lemma wp_read_loop fuel s rae read to_read :
  kept s → ring s = [] → 0 ≤ read ≤ log_end → read mod 4 = 0 → to_read ≤ log_end →
  log_end - read ≤ Z.of_nat fuel * 4096 →
  wp (read_loop E h base retries (S fuel) lsp rae read to_read log_end) (λ x s',
    kept s' ∧ x.1 ≠ Errno ENOSPC ∧
    (x.1 = Success → ring s' = [] ∧ read ≤ x.2 ≤ log_end ∧ to_read ≤ x.2 ∧ x.2 mod 4 = 0 ∧
      (length (sent s) ≤ length (sent s'))%nat ∧ same_below s s' read ∧
      read_since s' (length (sent s)) read x.2)) s.
Proof using Hserves Hretry Hspace H4k Hlsp Hend.
  revert s read. induction fuel as [|fuel IH]; intros s read Hk Hring Hread Hmod Hto Hf; cbn [read_loop];
    (destruct (Z.ltb_spec read to_read) as [Hlt|Hge]; [|unfold wp, ret_; cbn; split_and!; try done;
      intros _; split_and!; try done; try lia; intros i Hi; lia]).
  { lia. }
  destruct (wp_read_one s rae read Hk Hring ltac:(lia) Hmod) as [El Hone].
  set (len := Z.min (u32 _) _) in *. unfold wp in Hone. unfold wp, bind at 1, modify at 1.
  unfold bind, modify in Hone. unfold bind at 1.
  destruct (libnvme_get_log _ _ _ _ _ _ _) as [r s1| |]; [|done..].
  destruct Hone as (Hk1 & Hr1 & Hok).
  destruct r; cbn [is_success negb]; [|done..].
  destruct (Hok eq_refl) as (Hn1 & Ht1 & Hsame & Hpage).
  eapply wp_mono; [apply IH; (done || lia || divmod)|].
  cbn beta. intros [r x] s' (Hk' & Hr' & Hok'). cbn [fst snd] in *. split_and!; [done..|].
  intros Hr. destruct (Hok' Hr) as (Hn & Hb & Hle & Hm & Ht & Hs & Hsince). split_and!; try done; try lia.
  - intros i Hi. rewrite Hs by lia. apply Hsame; lia.
  - intros i Hi. destruct (decide (i < read + len)) as [Hin|Hout].
    + exists (length (sent s)). split; [lia|]. rewrite Hs by lia. apply Hpage. lia.
    + destruct (Hsince i) as (t & Hbt & Hv); [lia|]. exists t. split; [lia|done].
Qed.

Lemma wp_read_chunk s rae read to_read :
  kept s → ring s = [] → 0 ≤ read ≤ log_end → read mod 4 = 0 →
  wp (read_ana_chunk E h base retries lsp rae read to_read log_end) (λ x s',
    kept s' ∧ (x.1 = Errno ENOSPC → s' = s) ∧
    (x.1 = Success → ring s' = [] ∧ read ≤ x.2 ≤ log_end ∧ to_read ≤ x.2 ∧ x.2 mod 4 = 0 ∧
      (length (sent s) ≤ length (sent s'))%nat ∧ same_below s s' read ∧
      read_since s' (length (sent s)) read x.2)) s.
Proof using Hserves Hretry Hspace H4k Hlsp Hend.
  intros Hk Hr Hread Hm. unfold read_ana_chunk.
  destruct (Z.ltb_spec log_end to_read) as [Hlt|Hge]; [done|].
  eapply wp_mono.
  - apply wp_read_loop; try done. pose proof (rounds_enough log_end 4096).
    change NVME_LOG_PAGE_PDU_SIZE with 4096. lia.
  - cbn beta. intros x s' (? & ? & ?). split_and!; (done || naive_solver).
Qed.

(** What the groups read so far are: [to_read] bytes of the log, all of them
    read, and the first [read] bytes since [t0]. *)
Record progress (t0 : nat) (s : state) (read to_read : Z) : Prop := {
  g_kept : kept s;
  g_ring : ring s = [];
  g_read : sizeof_nvme_ana_log ≤ to_read ≤ read ∧ read ≤ log_end ∧ read mod 4 = 0;
  g_time : (t0 ≤ length (sent s))%nat;
  g_since : read_since s t0 0 read }.

Lemma progress_step t0 s s' read to_read read' to_read' :
  progress t0 s read to_read → kept s' → ring s' = [] → read ≤ read' ≤ log_end → read' mod 4 = 0 →
  to_read ≤ to_read' ≤ read' → (length (sent s) ≤ length (sent s'))%nat → same_below s s' read →
  read_since s' (length (sent s)) read read' → progress t0 s' read' to_read'.
Proof.
  intros [] Hk Hr Hb Hm Hto Ht Hs Hsince. split; try done; try lia.
  intros i Hi. destruct (decide (i < read)) as [Hlt|Hge].
  - destruct (g_since0 i) as (t & Hbt & Hv); [lia|]. exists t. split; [lia|]. by rewrite Hs by lia.
  - destruct (Hsince i) as (t & Hbt & Hv); [lia|]. exists t. split; [lia|done].
Qed.

(** A field of what was read is not negative. *)
Lemma field_since s t0 b off n :
  read_since s t0 0 b → 0 ≤ off → off + Z.of_nat n ≤ b → 0 ≤ field (mem s) off n.
Proof using Hbytes Hend.
  intros Hs Ho Hb. unfold field. apply le_bound, list.Forall_lookup_2. intros k x Hx.
  apply lookup_take_Some in Hx as [Hx Hk]. rewrite lookup_drop in Hx.
  destruct (Hs (off + Z.of_nat k)) as (t & _ & Hv); [lia|].
  replace (Z.to_nat (off + Z.of_nat k)) with (Z.to_nat off + k)%nat in Hv by lia.
  rewrite Hx in Hv. simplify_eq. apply Hbytes.
Qed.

(** What the loop over the groups leaves, from [s] with [read] bytes read. *)
Definition groups_post (t0 : nat) (n : nat) (s : state) (read to_read : Z) (x : ret * Z * bool) (s' : state) : Prop :=
  let '(r, to', may) := x in
  kept s' ∧ (may = true → ring s' = [] ∧ (length (sent s) ≤ length (sent s'))%nat ∧ same_below s s' read) ∧
  (r = Success → may = true ∧ to_read ≤ to' ≤ log_end ∧ read_since s' t0 0 to' ∧
    ∀ p, (∀ i, 0 ≤ i < to' → mem s' !! Z.to_nat i = Some (p i)) → groups_end p n to_read = to').

Lemma groups_fail t0 n s read to_read e to' s' :
  kept s' → e ≠ Success →
  (e = Errno ENOSPC → ring s' = [] ∧ (length (sent s) ≤ length (sent s'))%nat ∧ same_below s s' read) →
  groups_post t0 n s read to_read (e, to', bool_decide (e = Errno ENOSPC)) s'.
Proof. intros Hk He Hs. split_and!; [done| |done]. intros ?%bool_decide_eq_true. auto. Qed.

Lemma wp_read_groups t0 n s read to_read rae :
  progress t0 s read to_read →
  wp (read_groups E h base retries n lsp rae log_end read to_read) (groups_post t0 n s read to_read) s.
Proof using Hserves Hbytes Hretry Hspace H4k Hlsp Hend.
  revert s read to_read. induction n as [|n IH]; intros s read to_read Hp; cbn [read_groups].
  { destruct Hp as [? ? Hb ? Hs]. unfold wp, ret_, groups_post. split_and!; try done.
    intros _. split_and!; try done; try lia. intros i Hi. apply Hs. lia. }
  pose proof Hp as [Hk Hr Hb Ht Hs]. set (to1 := to_read + sizeof_nvme_ana_group_desc).
  assert (to1 = to_read + 32) as E1 by done. change sizeof_nvme_ana_log with 16 in Hb.
  eapply wp_bind; [apply (wp_read_chunk s rae read to1); (done || lia)|].
  cbn beta. intros [r1 read1] s1 (Hk1 & He1 & Hok1). cbn [fst snd] in *.
  destruct r1; cbn [is_success negb]; [|apply groups_fail; [done..|]; intros He; by rewrite He1..].
  destruct (Hok1 eq_refl) as (Hr1 & Hb1 & Hle1 & Hm1 & Ht1 & Hs1 & Hsince1).
  assert (progress t0 s1 read1 to1) as Hp1 by (eapply progress_step; (done || lia)).
  unfold wp, bind at 1, get at 1.
  set (nn := field (mem s1) (to_read + offsetof_nnsids) 4).
  assert (0 ≤ nn) as Hnn by (eapply field_since; [apply Hp1|unfold offsetof_nnsids; lia..]).
  destruct (Z.ltb_spec ((log_end - to1) / 4) nn) as [Hbig|Hfit].
  { unfold ret_, groups_post. split_and!; try done. }
  eapply wp_bind; [apply (wp_read_chunk s1 rae read1 (to1 + nn * 4)); (done || lia)|].
  cbn beta. intros [r2 read2] s2 (Hk2 & He2 & Hok2). cbn [fst snd] in *.
  destruct r2; cbn [is_success negb]; [|apply groups_fail; [done..|]; intros He; by rewrite He2..].
  destruct (Hok2 eq_refl) as (Hr2 & Hb2 & Hle2 & Hm2 & Ht2 & Hs2 & Hsince2).
  assert (progress t0 s2 read2 (to1 + nn * 4)) as Hp2 by (eapply progress_step; (done || lia)).
  eapply wp_mono; [by apply IH|]. intros [[r to'] may] s' (Hk' & Hmay & Hok'). split_and!; [done| |].
  - intros Hm. destruct (Hmay Hm) as (Hr' & Ht' & Hs'). split_and!; [done|lia|].
    intros i Hi. rewrite Hs', Hs2, Hs1 by lia. done.
  - intros Hr'. destruct (Hok' Hr') as (Hm & Hto & Hsince & Hg). destruct (Hmay Hm) as (_ & _ & Hs').
    split_and!; try done; try lia. intros p Hpg. cbn [groups_end].
    assert (page_field p (to_read + offsetof_nnsids) 4 = nn) as ->.
    { symmetry. apply (field_page _ _ _ 4); unfold offsetof_nnsids; [lia|]. intros i Hi.
      rewrite <- Hpg by lia. by rewrite Hs', Hs2 by lia. }
    rewrite <- (Hg p Hpg). f_equal. lia.
Qed.

(** The first chunk is there, all of it as of the command [t]. *)
Record started (t : nat) (s : state) (read : Z) : Prop := {
  st_kept : kept s;
  st_ring : ring s = [];
  st_read : read = Z.min log_end 4096 ∧ 16 ≤ read;
  st_time : (t < length (sent s))%nat;
  st_page : ∀ i, 0 ≤ i < read → mem s !! Z.to_nat i = Some (page t i) }.

Lemma wp_read_first s rae :
  kept s → ring s = [] →
  wp (read_ana_chunk E h base retries lsp rae 0 sizeof_nvme_ana_log log_end) (λ x s',
    kept s' ∧ (x.1 = Success → started (length (sent s)) s' x.2 ∧
      ∀ i, x.2 ≤ i → mem s' !! Z.to_nat i = mem s !! Z.to_nat i)) s.
Proof using Hserves Hretry Hspace H4k Hlsp Hend.
  intros Hk Hr. unfold read_ana_chunk. change sizeof_nvme_ana_log with 16.
  destruct (Z.ltb_spec log_end 16) as [|Hge]; [done|]. unfold rounds. cbn [read_loop].
  destruct (wp_read_one s rae 0 Hk Hr ltac:(lia) eq_refl) as [El Hone].
  set (len := Z.min (u32 _) _) in *. unfold wp, bind, modify in Hone. unfold wp, bind at 1, modify at 1.
  change (0 <? 16) with true. cbn iota. unfold bind at 1.
  destruct (libnvme_get_log _ _ _ _ _ _ _) as [r s1| |]; [|done..]. destruct Hone as (Hk1 & _ & Hok).
  destruct r; cbn [is_success negb]; [|done..].
  destruct (Hok eq_refl) as (Hn1 & Ht1 & Hout & Hpage).
  rewrite (proj2 (Z.ltb_ge (0 + len) 16)) by lia. split; [done|]. cbn [fst snd]. intros _. split.
  - split; try done; try lia.
  - intros i Hi. apply Hout; lia.
Qed.

(** A field of the first chunk. *)
Lemma started_field t s s' read off n :
  started t s read → same_below s s' read → 0 ≤ off → off + Z.of_nat n ≤ 16 →
  field (mem s') off n = page_field (page t) off (Z.of_nat n).
Proof.
  intros Hst Hs Ho Hn. pose proof (st_read _ _ _ Hst). apply field_page; [done|]. intros i Hi.
  rewrite Hs by lia. apply (st_page _ _ _ Hst). lia.
Qed.

Lemma started_progress t s read : started t s read → progress t s read sizeof_nvme_ana_log.
Proof using Hend.
  intros []. change sizeof_nvme_ana_log with 16. split; try done; try lia.
  - destruct st_read0 as [Er H16]. change sizeof_nvme_ana_log with 16.
    split_and!; [lia..|]. rewrite Er. destruct (Z.min_spec log_end 4096) as [[_ ->] | [_ ->]]; [apply Hend|done].
  - intros i Hi. exists t. split; [lia|auto].
Qed.

(** The log is the page [t], whole. *)
Definition snapshot (t0 : nat) (len : Z) (s : state) : Prop :=
  ring s = [] ∧ len ≤ log_end ∧ ∃ t, (t0 ≤ t < length (sent s))%nat ∧ len = ana_size (page t) ∧
    ∀ i, 0 ≤ i < len → mem s !! Z.to_nat i = Some (page t i).

Hypothesis Hcounts : counts_changes page.

(** The count did not change while the groups were read: the log is a page. *)
Lemma unchanged_snapshot t0 t1 s1 s2 read len :
  (t0 ≤ t1 < length (sent s1))%nat → len ≤ log_end → read_since s1 t1 0 len →
  (∀ p, (∀ i, 0 ≤ i < len → mem s1 !! Z.to_nat i = Some (p i)) →
    groups_end p (Z.to_nat (page_field (page t1) 8 2)) sizeof_nvme_ana_log = len) →
  started (length (sent s1)) s2 read → (∀ i, read ≤ i → mem s2 !! Z.to_nat i = mem s1 !! Z.to_nat i) →
  page_field (page (length (sent s1))) 0 8 = page_field (page t1) 0 8 →
  snapshot t0 len s2.
Proof using Hcounts.
  intros Ht Hlen Hsince Hg Hst Habove Heq.
  assert (∀ t i, (t1 ≤ t ≤ length (sent s1))%nat → page t i = page t1 i) as Hsame
    by (intros t i Hb; by apply (Hcounts t1 (length (sent s1)))).
  pose proof (st_time _ _ _ Hst).
  split_and!; [apply Hst|done|]. exists t1. split_and!; [lia|lia| |].
  - symmetry. apply Hg. intros i Hi. destruct (Hsince i Hi) as (t & Hb & ->). rewrite Hsame by lia. done.
  - intros i Hi. destruct (decide (i < read)).
    + rewrite (st_page _ _ _ Hst) by lia. rewrite Hsame by lia. done.
    + rewrite Habove by lia. destruct (Hsince i Hi) as (t & Hb & ->). rewrite Hsame by lia. done.
Qed.

Lemma wp_atomic_loop t0 attempts t1 s rae read len :
  started t1 s read → (t0 ≤ t1)%nat →
  wp (atomic_loop E h base retries attempts lsp rae log_end read len)
    (λ x s', kept s' ∧ (x.1 = Success → snapshot t0 x.2 s')) s.
Proof using Hserves Hbytes Hretry Hspace H4k Hlsp Hend Hcounts.
  revert t1 s read len. induction attempts as [|k IH]; intros t1 s read len Hst Ht0; cbn [atomic_loop].
  { split; [apply Hst|done]. }
  pose proof (st_read _ _ _ Hst) as [Eread H16]. pose proof (st_time _ _ _ Hst) as Htime.
  unfold try_read_ana.
  assert (ngrps (mem s) = page_field (page t1) 8 2) as Hng
    by (apply (started_field t1 s s read 8 2); (done || lia)).
  eapply wp_bind.
  { unfold wp, bind, get. rewrite Hng. apply (wp_read_groups t1), started_progress, Hst. }
  intros [[r to'] may] s1 (Hk1 & Hmay & Hok). cbv beta iota.
  assert (r = Success → u32 to' = to') as Hu.
  { intros Hr. destruct (Hok Hr) as (_ & Hto & _). change sizeof_nvme_ana_log with 16 in Hto. apply u32_small. lia. }
  destruct ((u32 to' <=? NVME_LOG_PAGE_PDU_SIZE) || negb may) eqn:Hdone.
  - split; [done|]. cbn [fst snd]. intros Hr. rewrite (Hu Hr) in *.
    destruct (Hok Hr) as (-> & Hto & _ & Hg). destruct (Hmay eq_refl) as (Hn & Ht & Hs).
    rewrite orb_false_r in Hdone. apply Z.leb_le in Hdone. change NVME_LOG_PAGE_PDU_SIZE with 4096 in Hdone.
    assert (∀ i, 0 ≤ i < to' → mem s1 !! Z.to_nat i = Some (page t1 i)) as Hall.
    { intros i Hi. rewrite Hs by lia. apply (st_page _ _ _ Hst). lia. }
    split_and!; [done|lia|]. exists t1. split_and!; [lia|lia| |done]. symmetry. by apply Hg.
  - apply orb_false_iff in Hdone as [_ Hm]. destruct may; [|done]. destruct (Hmay eq_refl) as (Hn & Ht & Hs).
    unfold wp, bind at 1, get at 1.
    assert (chgcnt (mem s1) = page_field (page t1) 0 8) as ->
      by (apply (started_field t1 s s1 read 0 8); (done || lia)).
    eapply wp_bind; [by apply wp_read_first|]. intros [r2 read2] s2 [Hk2 Hfirst]. cbn [fst snd] in *.
    destruct r2; cbn [is_success negb]; [|done..]. destruct (Hfirst eq_refl) as [Hst2 Habove].
    unfold wp, bind at 1, get at 1.
    assert (chgcnt (mem s2) = page_field (page (length (sent s1))) 0 8) as ->
      by (apply (started_field _ s2 s2 read2 0 8); (done || lia)).
    destruct (Z.eqb_spec (page_field (page (length (sent s1))) 0 8) (page_field (page t1) 0 8)) as [Heq|].
    + split; [done|]. cbn [fst snd]. intros Hr. rewrite (Hu Hr). destruct (Hok Hr) as (_ & Hto & Hsince & Hg).
      apply (unchanged_snapshot t0 t1 s1 s2 read2); (done || lia).
    + apply (IH (length (sent s1))); [done|lia].
Qed.
End Spec.

(** ** [libnvme_get_ana_log_atomic] *)

(** C6: the ANA log page is read as it was at one moment.  The conditions
    are: no command is sent again by the retry hook ([decide_retry] is never
    true, as with the hook of the library itself, with --no-retries of
    nvme-cli, or when no command fails with EAGAIN or EINTR: a repeated request
    of the ring may lose a chunk, [get_log_retry_loses_chunk]); transfers are
    not forced to 4 KiB (with them a short read overruns its buffer,
    [get_log_4k_overflow]); no request is pending on the ring at the start; the
    buffer has the whole dwords of the length that was given and does not wrap
    around; a Get Log Page command that succeeds returns the bytes of the page
    it asks for ([serves]); the controller counts the changes of the page; and
    the transport does not use ENOSPC, the error that stands for a full buffer.
    Then the call returns, after at most the attempts it was given, and writes
    nothing behind the whole dwords of the buffer, whichever commands fail.  If
    it returns success, the buffer holds the log page of one moment of the
    call, and the length it returns is exactly that of the page: the header,
    and every group with all of its namespaces, however often the page changed
    while it was read. *)
Theorem ana_log_snapshot E h base retries page s rae (rgo : bool) len attempts :
  let lsp := if rgo then NVME_LOG_ANA_LSP_RGO_GROUPS_ONLY else 0 in
  serves E page NVME_LOG_LID_ANA lsp → (∀ t i, is_byte (page t i)) → counts_changes page →
  (∀ n, decide_retry E n = false) → kernel_results E (λ r, r ≠ Errno ENOSPC) → force_4k h = false →
  in_width 32 len → 4 * (len / 4) ≤ Z.of_nat (length (mem s)) → 0 ≤ base → base + len < 2 ^ 64 → ring s = [] →
  ∃ r len' s', libnvme_get_ana_log_atomic E h base retries rae rgo len attempts s = Ret (r, len') s' ∧
    length (mem s') = length (mem s) ∧
    (∀ j, 4 * (len / 4) ≤ Z.of_nat j → mem s' !! j = mem s !! j) ∧
    (r = Success → snapshot page (4 * (len / 4)) (length (sent s)) len' s').
Proof.
  intros lsp Hserves Hbytes Hcounts Hretry Hspace H4k Hlen Hfit Hbase Hwrap Hring.
  unfold libnvme_get_ana_log_atomic. unfold in_width in Hlen.
  change (u32 (-4)) with (Z.shiftl (Z.ones 30) 2). rewrite land_high by lia. change (2 ^ 2) with 4.
  set (log_end := 4 * (len / 4)) in *. fold lsp.
  assert (0 ≤ log_end < 2 ^ 32 ∧ log_end mod 4 = 0 ∧ log_end ≤ Z.of_nat (length (mem s)) ∧
    0 ≤ base ∧ base + log_end < 2 ^ 64) as Hend by (unfold log_end; split_and!; divmod).
  assert (in_width 4 lsp) as Hlsp by (unfold lsp; by destruct rgo).
  assert (kept log_end (mem s) s) as Hk by done.
  set (m := match attempts with O => _ | S _ => _ end).
  assert (wp m (λ x s', kept log_end (mem s) s' ∧
    (x.1 = Success → snapshot page log_end (length (sent s)) x.2 s')) s) as Hwp.
  { unfold m. destruct attempts as [|k]; [done|].
    eapply wp_bind; [by eapply wp_read_first|]. intros [r read] s1 [Hk1 Hok]. cbn [fst snd] in *.
    destruct r; cbn [is_success negb]; [|done..]. destruct (Hok eq_refl) as [Hst _].
    by eapply wp_atomic_loop. }
  unfold wp in Hwp. destruct (m s) as [[r len'] s'| |]; [|done..].
  exists r, len', s'. split; [done|]. destruct Hwp as [[Hl Hrest] Hok]. done.
Qed.

(** ** Runs *)

Module AnaDemo.

(** A page with one group of 2000 namespaces; it changes after the first
    command. *)
Definition changed (t : nat) : Z := match t with O => 0 | S _ => 1 end.
Definition page (t : nat) (i : Z) : Z :=
  if i =? 0 then 7 + changed t else if i =? 8 then 1 else if i =? 20 then 208 else if i =? 21 then 7
  else if i <? 48 then 0 else (i + changed t) mod 256.
Definition E : env := {|
  kernel := λ n c, (Success, page n <$> seqZ (View.lpo c) (View.log_bytes c));
  open_uring := Success; calloc_ok := λ _, true; uring_submit := λ _, Success; wait_cqe := λ _, Success;
  pick := λ _, O; decide_retry := λ _, false |}.
Definition start (len : Z) : state := {|
  mem := replicate (Z.to_nat len) 0; the_cmd := cmd_zero; ring := [];
  uring_state := URING_UNKNOWN; sent := [] |}.

Lemma page_byte t i : is_byte (page t i).
Proof.
  unfold page, is_byte. assert (0 ≤ changed t ≤ 1) as Hc by (by destruct t).
  repeat case_match; first [lia | apply Z.mod_pos_bound; lia].
Qed.

Lemma page_counts : counts_changes page.
Proof.
  intros t1 t2 t Ht Heq i. destruct t1 as [|t1], t2 as [|t2].
  - by replace t with 0%nat by lia.
  - by vm_compute in Heq.
  - lia.
  - destruct t as [|t]; [lia|done].
Qed.

End AnaDemo.

Lemma ana_log_snapshot_witness :
  ∃ r len' s', libnvme_get_ana_log_atomic AnaDemo.E Demo.h 4096 0 false false 8064 3 (AnaDemo.start 8064) =
      Ret (r, len') s' ∧
    length (mem s') = length (mem (AnaDemo.start 8064)) ∧
    (∀ j, 4 * (8064 / 4) ≤ Z.of_nat j → mem s' !! j = mem (AnaDemo.start 8064) !! j) ∧
    (r = Success → snapshot AnaDemo.page (4 * (8064 / 4)) 0 len' s').
Proof.
  apply (ana_log_snapshot AnaDemo.E Demo.h 4096 0 AnaDemo.page (AnaDemo.start 8064) false false 8064 3);
    try done.
  - intros n c d _ _ He. exact (eq_sym (f_equal snd He)).
  - apply AnaDemo.page_byte.
  - apply AnaDemo.page_counts.
Defined.

(** The page changed after its first 4 KiB were read; it is read again. *)
Example ana_log_run :
  match libnvme_get_ana_log_atomic AnaDemo.E Demo.h 4096 0 false false 8064 3 (AnaDemo.start 8064) with
  | Ret (r, len) s' => r = Success ∧ len = 8048 ∧ View.lpo <$> sent s' = [0; 4096; 0; 4096; 0] ∧
      mem s' !! 0%nat = Some 8
  | _ => False
  end.
Proof. vm_compute. by split_and!. Qed.
