(* ===== verification/Discovery.v ===== *)
(** * The discovery log page: [libnvme/src/nvme/fabrics.c]

    [nvme_discovery_log] reads the header of the log page, allocates room for
    as many records as it names, reads them, and reads the header again: the
    page may not have changed meanwhile.  [libnvmf_get_discovery_log] then
    makes the strings of every record safe to use.

    The log is the buffer of [GetLog]; an allocation replaces it by a new one
    at the address the allocator returns. *)

From stdpp Require Import base list numbers.
From S2P Require Import Prelude.
From S2P Require Import CStr.
From S2P Require Import Io.
From S2P Require Import Passthru.
From S2P Require Import NvmeConst.
From S2P Require Import Commands.
From S2P Require Import GetLog.
From S2P Require Import AnaLog.

#[local] Open Scope io_scope.
#[local] Open Scope cmd_scope.

(** ** The layout *)

Definition sizeof_nvmf_discovery_log : Z := 1024.
Definition sizeof_nvmf_disc_log_entry : Z := 1024.
Definition DISCOVERY_HEADER_LEN : Z := 20.
Definition SIZE_MAX : Z := 2 ^ 64 - 1.

Definition genctr (m : list Z) : Z := field m 0 8.
Definition numrec (m : list Z) : Z := field m 8 8.

(** The fields of a record: offset and size. *)
Definition off_trtype : nat := 0.
Definition off_trsvcid : nat := 32.
Definition off_subnqn : nat := 256.
Definition off_traddr : nat := 512.
Definition NVMF_TRSVCID_SIZE : nat := 32.
Definition NVME_NQN_LENGTH : nat := 256.
Definition NVMF_TRADDR_SIZE : nat := 256.
Definition NVMF_TRTYPE_FC : Z := 2.
Definition NVMF_LOG_DISC_LSP_PLEO : Z := 2.

(** ** Memory *)

(** [round_up_checked]. *)
Definition round_up_checked (n s : Z) : option Z :=
  if s =? 0 then None
  else
    let rem := n mod s in
    if rem =? 0 then Some n
    else
      let add := s - rem in
      if SIZE_MAX - add <? n then None else Some (n + add).

(** ** A record *)

(** [shr_rtrim] of the string at [off], in place. *)
Definition rtrim_at (e : list Z) (off : nat) : list Z :=
  let s := buf_str (drop off e) in
  <[(off + rtrim_end s (length s))%nat := 0]> e.

(** The comma of a Fibre Channel address, in place. *)
Definition fix_comma (e : list Z) (off : nat) : list Z :=
  match split_char c_comma (buf_str (drop off e)) with
  | Some (before, _) => <[(off + length before)%nat := c_colon]> e
  | None => e
  end.

Definition sanitize_discovery_log_entry (e : list Z) : list Z :=
  let e := <[(off_trsvcid + NVMF_TRSVCID_SIZE - 1)%nat := 0]> e in
  let e := <[(off_subnqn + NVME_NQN_LENGTH - 1)%nat := 0]> e in
  let e := <[(off_traddr + NVMF_TRADDR_SIZE - 1)%nat := 0]> e in
  let e := rtrim_at e off_trsvcid in
  let e := rtrim_at e off_traddr in
  let e := rtrim_at e off_subnqn in
  if nth off_trtype e 0 =? NVMF_TRTYPE_FC then fix_comma e off_traddr else e.

(** Record [i] of a log, and a log with another one. *)
Definition entry (m : list Z) (i : nat) : list Z := take 1024 (drop (1024 + 1024 * i) m).
Definition set_entry (m : list Z) (i : nat) (e : list Z) : list Z := buf_write m (1024 + 1024 * i) e.

(** The loop over the records. *)
Fixpoint sanitize_entries (m : list Z) (i n : nat) : list Z :=
  match n with
  | O => m
  | S n' => sanitize_entries (set_entry m i (sanitize_discovery_log_entry (entry m i))) (S i) n'
  end.

Section Discovery.
Context (E : env) (h : handle) (retries : nat).

(** The address of the [n]-th allocation; it may fail. *)
Context (alloc : nat → option Z).

(** [libnvme_alloc]: zeroed, in whole pages of 4 KiB. *)
Definition libnvme_alloc (n : nat) (len : Z) : M (option Z) :=
  let len := if len =? 0 then 1 else len in
  match round_up_checked len 0x1000, alloc n with
  | Some len', Some a => do! modify (set_mem (replicate (Z.to_nat len') 0)) in ret_ (Some a)
  | _, _ => ret_ None
  end.

(** The header, or the records: a command of its own each. *)
Definition get_header (log : Z) : M ret :=
  do! modify (λ s, set_the_cmd (nvme_init_get_log_discovery (the_cmd s) 0 log DISCOVERY_HEADER_LEN) s) in
  libnvme_get_log E h log retries false DISCOVERY_HEADER_LEN.

Definition entries_cmd (cmd : libnvme_passthru_cmd) (lsp log entries_size : Z) : libnvme_passthru_cmd :=
  let cmd := nvme_init_get_log_discovery cmd sizeof_nvmf_discovery_log
               (log + sizeof_nvmf_discovery_log) (u32 entries_size) in
  set_cdw10 cmd (cdw10 cmd .| NVME_FIELD_ENCODE lsp NVME_LOG_CDW10_LSP_SHIFT NVME_LOG_CDW10_LSP_MASK).

Definition get_entries (lsp log entries_size : Z) : M ret :=
  do! modify (λ s, set_the_cmd (entries_cmd (the_cmd s) lsp log entries_size) s) in
  libnvme_get_log E h log retries false NVME_LOG_PAGE_PDU_SIZE.

(** One round of the [do ... while] loop, and what follows the loop where it
    ends; [again] is the next round, with the log's address.  The result, too,
    comes with that. *)
Definition disc_round (k : nat) (lsp log : Z) (again : Z → M (ret * Z)) : M (ret * Z) :=
  let! records := get (λ s, numrec (mem s)) in
  let! gen := get (λ s, genctr (mem s)) in
  if records =? 0 then ret_ (Success, log)
  else if (SIZE_MAX - sizeof_nvmf_discovery_log) / sizeof_nvmf_disc_log_entry <? records
  then ret_ (Errno EINVAL, 0)
  else
    let entries_size := sizeof_nvmf_disc_log_entry * records in
    let! a := libnvme_alloc k (sizeof_nvmf_discovery_log + entries_size) in
    match a with
    | None => ret_ (Errno ENOMEM, 0)
    | Some log =>
        let! err := get_entries lsp log entries_size in
        if negb (is_success err) then ret_ (err, 0)
        else
          let! err := get_header log in
          if negb (is_success err) then ret_ (err, 0)
          else
            let! gen' := get (λ s, genctr (mem s)) in
            if negb (gen =? gen') then again log
            else
              let! records' := get (λ s, numrec (mem s)) in
              if negb (records =? records') then ret_ (Errno EBADSLT, 0) else ret_ (Success, log)
    end.

(** [n] more rounds after this one; [k] allocations so far. *)
Fixpoint disc_loop (n k : nat) (lsp log : Z) : M (ret * Z) :=
  disc_round k lsp log (λ log,
    match n with O => ret_ (Errno EAGAIN, 0) | S n' => disc_loop n' (S k) lsp log end).

Definition nvme_discovery_log (max_retries lsp : Z) : M (ret * Z) :=
  let! a := libnvme_alloc 0 sizeof_nvmf_discovery_log in
  match a with
  | None => ret_ (Errno ENOMEM, 0)
  | Some log =>
      let! err := get_header log in
      if negb (is_success err) then ret_ (err, 0)
      else disc_loop (Z.to_nat (max_retries - 1)) 1 lsp log
  end.

Definition libnvmf_get_discovery_log (max_retries lsp : Z) : M (ret * Z) :=
  let! x := nvme_discovery_log max_retries lsp in
  let '(err, log) := x in
  if negb (is_success err) then ret_ (err, 0)
  else
    do! modify (λ s, set_mem (sanitize_entries (mem s) 0 (Z.to_nat (numrec (mem s)))) s) in
    ret_ (Success, log).
End Discovery.
