(* ===== verification/DiscoverySpec.v ===== *)
(** * The discovery log page is read whole and its strings are safe

    The theorems of [Discovery]: [libnvmf_get_discovery_log] returns the log
    page of one moment, with every record made safe; the strings of a record
    are terminated inside of their fields. *)

From stdpp Require Import base list numbers.
From S2P Require Import Prelude.
From S2P Require Import CStr.
From S2P Require Import Io.
From S2P Require Import Passthru.
From S2P Require Import NvmeConst.
From S2P Require Import Commands.
From S2P Require Import CommandsView.
From S2P Require Import GetLog.
From S2P Require Import GetLogSpec.
From S2P Require Import AnaLog.
From S2P Require Import AnaSpec.
From S2P Require Import Discovery.

#[local] Open Scope io_scope.

(** ** Strings in a buffer *)

(** The string [s], with its terminator, is at [off]. *)
Definition cstr_at (e : list Z) (off : nat) (s : list Z) : Prop :=
  (∀ j c, s !! j = Some c → c ≠ 0 ∧ e !! (off + j)%nat = Some c) ∧ e !! (off + length s)%nat = Some 0.

Lemma cstr_at_str e off s : cstr_at e off s → buf_str (drop off e) = s.
Proof.
  intros [Hs H0]. revert off Hs H0. induction s as [|c s IH]; intros off Hs H0.
  - rewrite Nat.add_0_r in H0. by rewrite (drop_S _ _ _ H0).
  - destruct (Hs 0%nat c eq_refl) as [Hc He]. rewrite Nat.add_0_r in He. rewrite (drop_S _ _ _ He).
    unfold buf_str. cbn. rewrite (proj2 (Z.eqb_neq c 0)) by done. cbn. f_equal.
    apply (IH (S off)); [|by rewrite Nat.add_succ_comm]. intros j d Hj.
    destruct (Hs (S j) d Hj) as [Hd He']. by rewrite Nat.add_succ_r in He'.
Qed.

(** A field whose last byte is NUL holds a string. *)
Lemma cstr_at_field e off n :
  e !! (off + n)%nat = Some 0 →
  let s := buf_str (take n (drop off e)) in cstr_at e off s ∧ (length s ≤ n)%nat.
Proof.
  intros H0 s. pose proof (lookup_lt_Some _ _ _ H0) as Hlen.
  assert (∀ j c, s !! j = Some c → c ≠ 0 ∧ (j < n)%nat ∧ e !! (off + j)%nat = Some c) as Hs.
  { intros j c Hj. unfold s, buf_str in Hj.
    pose proof (lookup_lt_Some _ _ _ Hj) as Hjl.
    assert (take n (drop off e) !! j = Some c) as Hj'.
    { rewrite <- (take_while_drop_while (λ c, negb (c =? 0)) (take n (drop off e))).
      by rewrite lookup_app_l. }
    apply lookup_take_Some in Hj' as [Hj' Hn]. rewrite lookup_drop in Hj'. split_and!; try done.
    pose proof (take_while_all (λ c, negb (c =? 0)) (take n (drop off e))) as Hall.
    apply forallb_Forall in Hall. apply (list.Forall_lookup_1 _ _ _ _ Hall) in Hj. lia. }
  assert (length s ≤ n)%nat as Hl.
  { unfold s, buf_str. etrans; [apply take_while_length|]. rewrite length_take. lia. }
  split; [split|done]; [intros j c Hj; naive_solver|].
  destruct (decide (length s = n)) as [->|Hne]; [done|].
  pose proof (take_while_drop_while (λ c, negb (c =? 0)) (take n (drop off e))) as Hsplit.
  fold (buf_str (take n (drop off e))) in Hsplit. fold s in Hsplit.
  destruct (drop_while _ _) as [|c rest] eqn:Hd.
  - apply (f_equal length) in Hsplit. rewrite app_nil_r, length_take, length_drop in Hsplit. lia.
  - apply drop_while_head in Hd. apply negb_false_iff, Z.eqb_eq in Hd as ->.
    assert (take n (drop off e) !! length s = Some 0) as Hz by (rewrite <- Hsplit; by apply list_lookup_middle).
    apply lookup_take_Some in Hz as [Hz _]. by rewrite lookup_drop in Hz.
Qed.

(** A change elsewhere, and a change of what follows the string. *)
Lemma cstr_at_insert e off s i v :
  (i < off ∨ off + length s < i)%nat → cstr_at e off s → cstr_at (<[i := v]> e) off s.
Proof.
  intros Hi [Hs H0]. split; [|by rewrite list_lookup_insert_ne by lia].
  intros j c Hj. pose proof (lookup_lt_Some _ _ _ Hj). rewrite list_lookup_insert_ne by lia. auto.
Qed.

Lemma cstr_at_rtrim e off s : cstr_at e off s → cstr_at (rtrim_at e off) off (shr_rtrim s).
Proof.
  intros Hs. unfold rtrim_at. rewrite (cstr_at_str _ _ _ Hs). unfold shr_rtrim.
  set (k := rtrim_end s (length s)). assert (k ≤ length s)%nat as Hk by apply rtrim_end_le.
  destruct Hs as [Hs H0]. pose proof (lookup_lt_Some _ _ _ H0). split.
  - intros j c Hj. apply lookup_take_Some in Hj as [Hj Hlt]. rewrite list_lookup_insert_ne by lia. auto.
  - rewrite length_take_le by done. rewrite list_lookup_insert_eq by lia. done.
Qed.

(** What the comma becomes. *)
Definition colon (s : list Z) : list Z :=
  match split_char c_comma s with Some (a, b) => a ++ c_colon :: b | None => s end.

Lemma cstr_at_comma e off s : cstr_at e off s → cstr_at (fix_comma e off) off (colon s).
Proof.
  intros Hs. unfold fix_comma, colon. rewrite (cstr_at_str _ _ _ Hs).
  destruct (split_char c_comma s) as [[a b]|] eqn:Hsp; [|done].
  apply split_char_spec in Hsp as [-> _]. destruct Hs as [Hs H0]. pose proof (lookup_lt_Some _ _ _ H0) as Hl.
  rewrite length_app in *. cbn [length] in *. split.
  - intros j c Hj. destruct (decide (j = length a)) as [->|Hne].
    + rewrite list_lookup_middle in Hj by done. simplify_eq. split; [done|].
      by rewrite list_lookup_insert_eq by lia.
    + rewrite list_lookup_insert_ne by lia. apply Hs.
      destruct (decide (j < length a)%nat); [by rewrite !lookup_app_l in * by lia|].
      rewrite !lookup_app_r in * by lia. by destruct (j - length a)%nat eqn:Ej; [lia|].
  - rewrite length_app. cbn [length]. rewrite list_lookup_insert_ne by lia. done.
Qed.

Lemma shr_rtrim_length s : (length (shr_rtrim s) ≤ length s)%nat.
Proof. unfold shr_rtrim. rewrite length_take. lia. Qed.

Lemma colon_length s : length (colon s) = length s.
Proof.
  unfold colon. destruct (split_char c_comma s) as [[a b]|] eqn:Hsp; [|done].
  apply split_char_spec in Hsp as [-> _]. by rewrite !length_app.
Qed.

(** The bytes that the operations on a string do not change. *)
Lemma rtrim_at_other e off s i :
  cstr_at e off s → (i < off ∨ off + length s < i)%nat → rtrim_at e off !! i = e !! i.
Proof.
  intros Hs Hi. unfold rtrim_at. rewrite (cstr_at_str _ _ _ Hs).
  pose proof (rtrim_end_le s (length s)). by rewrite list_lookup_insert_ne by lia.
Qed.

Lemma fix_comma_other e off s i :
  cstr_at e off s → (i < off ∨ off + length s < i)%nat → fix_comma e off !! i = e !! i.
Proof.
  intros Hs Hi. unfold fix_comma. rewrite (cstr_at_str _ _ _ Hs).
  destruct (split_char c_comma s) as [[a b]|] eqn:Hsp; [|done].
  apply split_char_spec in Hsp as [-> _]. rewrite length_app in Hi. cbn in Hi.
  by rewrite list_lookup_insert_ne by lia.
Qed.

Lemma rtrim_at_length e off : length (rtrim_at e off) = length e.
Proof. apply length_insert. Qed.
Lemma fix_comma_length e off : length (fix_comma e off) = length e.
Proof. unfold fix_comma. destruct (split_char _ _) as [[a b]|]; [apply length_insert|done]. Qed.

(** A string stays where it is when another one is changed. *)
Lemma cstr_at_other e e' off s :
  cstr_at e off s → (∀ i, off ≤ i ≤ off + length s → e' !! i = e !! i)%nat → cstr_at e' off s.
Proof.
  intros [Hs H0] Hi. split; [|rewrite Hi by lia; done].
  intros j c Hj. pose proof (lookup_lt_Some _ _ _ Hj). rewrite Hi by lia. auto.
Qed.

(** ** A record *)

Lemma field_insert (e : list Z) off n i v :
  (i < off ∨ off + n ≤ i)%nat → take n (drop off (<[i := v]> e)) = take n (drop off e).
Proof.
  intros Hi. apply list_eq. intros j. destruct (decide (j < n)%nat).
  - rewrite !lookup_take_lt, !lookup_drop by done. by rewrite list_lookup_insert_ne by lia.
  - by rewrite !lookup_take_ge by lia.
Qed.

(** The string a field of [n] bytes may hold, with room for its terminator. *)
Definition field_str (e : list Z) (off n : nat) : list Z := buf_str (take (n - 1) (drop off e)).

(** Not one of the three strings of a record. *)
Definition not_string (i : nat) : Prop :=
  (i < off_trsvcid ∨ off_trsvcid + NVMF_TRSVCID_SIZE ≤ i < off_subnqn ∨
   off_traddr + NVMF_TRADDR_SIZE ≤ i)%nat.

Definition is_fc (e : list Z) : bool := nth off_trtype e 0 =? NVMF_TRTYPE_FC.

(** The strings of the record [e] are safe in [e']: each is terminated in its
    field, is what the field held before its first NUL, without the spaces at
    its end, and a comma in a Fibre Channel address is a colon. *)
Record sanitized (e e' : list Z) : Prop := {
  z_length : length e' = length e;
  z_trsvcid : cstr_at e' off_trsvcid (shr_rtrim (field_str e off_trsvcid NVMF_TRSVCID_SIZE));
  z_subnqn : cstr_at e' off_subnqn (shr_rtrim (field_str e off_subnqn NVME_NQN_LENGTH));
  z_traddr : cstr_at e' off_traddr
    ((if is_fc e then colon else id) (shr_rtrim (field_str e off_traddr NVMF_TRADDR_SIZE)));
  z_other : ∀ i, not_string i → e' !! i = e !! i }.

Lemma field_str_length e off n : (length (field_str e off n) ≤ n - 1)%nat.
Proof. unfold field_str, buf_str. etrans; [apply take_while_length|]. rewrite length_take. lia. Qed.

Lemma terminate e off n :
  (0 < n)%nat → (off + n ≤ length e)%nat →
  cstr_at (<[(off + n - 1)%nat := 0]> e) off (field_str e off n).
Proof.
  intros Hn Hl. destruct (cstr_at_field (<[(off + n - 1)%nat := 0]> e) off (n - 1)) as [Hc _].
  - replace (off + (n - 1))%nat with (off + n - 1)%nat by lia. by rewrite list_lookup_insert_eq by lia.
  - rewrite field_insert in Hc by lia. done.
Qed.

(** The three terminators. *)
Lemma terminate_all e :
  length e = 1024%nat →
  let e1 := <[(off_traddr + NVMF_TRADDR_SIZE - 1)%nat := 0]>
              (<[(off_subnqn + NVME_NQN_LENGTH - 1)%nat := 0]>
                (<[(off_trsvcid + NVMF_TRSVCID_SIZE - 1)%nat := 0]> e)) in
  cstr_at e1 off_trsvcid (field_str e off_trsvcid NVMF_TRSVCID_SIZE) ∧
  cstr_at e1 off_subnqn (field_str e off_subnqn NVME_NQN_LENGTH) ∧
  cstr_at e1 off_traddr (field_str e off_traddr NVMF_TRADDR_SIZE) ∧
  ∀ i, not_string i → e1 !! i = e !! i.
Proof.
  intros Hl. cbv zeta.
  pose proof (field_str_length e off_trsvcid NVMF_TRSVCID_SIZE) as LA.
  pose proof (field_str_length e off_subnqn NVME_NQN_LENGTH) as LB.
  unfold not_string, off_trsvcid, off_subnqn, off_traddr, NVMF_TRSVCID_SIZE, NVME_NQN_LENGTH,
    NVMF_TRADDR_SIZE in *. split_and!.
  - apply cstr_at_insert; [lia|]. apply cstr_at_insert; [lia|]. apply terminate; lia.
  - apply cstr_at_insert; [lia|]. unfold field_str.
    rewrite <- (field_insert e 256 (256 - 1) (32 + 32 - 1) 0) by lia. apply terminate; [lia|].
    rewrite length_insert. lia.
  - unfold field_str. rewrite <- (field_insert e 512 (256 - 1) (32 + 32 - 1) 0) by lia.
    rewrite <- (field_insert _ 512 (256 - 1) (256 + 256 - 1) 0) by lia. apply terminate; [lia|].
    rewrite !length_insert. lia.
  - intros i Hi. by rewrite !list_lookup_insert_ne by lia.
Qed.

(** The strings at three places are trimmed, one after the other. *)
Lemma trim_all e1 A B C :
  cstr_at e1 off_trsvcid A → cstr_at e1 off_subnqn B → cstr_at e1 off_traddr C →
  (length A ≤ NVMF_TRSVCID_SIZE - 1)%nat → (length B ≤ NVME_NQN_LENGTH - 1)%nat →
  (length C ≤ NVMF_TRADDR_SIZE - 1)%nat →
  let e4 := rtrim_at (rtrim_at (rtrim_at e1 off_trsvcid) off_traddr) off_subnqn in
  cstr_at e4 off_trsvcid (shr_rtrim A) ∧ cstr_at e4 off_subnqn (shr_rtrim B) ∧
  cstr_at e4 off_traddr (shr_rtrim C) ∧ ∀ i, not_string i → e4 !! i = e1 !! i.
Proof.
  intros HA HB HC LA LB LC. cbv zeta.
  pose proof (shr_rtrim_length A) as LA'. pose proof (shr_rtrim_length C) as LC'.
  set (e2 := rtrim_at e1 off_trsvcid). set (e3 := rtrim_at e2 off_traddr).
  set (e4 := rtrim_at e3 off_subnqn).
  unfold not_string, off_trsvcid, off_subnqn, off_traddr, NVMF_TRSVCID_SIZE, NVME_NQN_LENGTH,
    NVMF_TRADDR_SIZE in *.
  assert (∀ i, (i < 32 ∨ 32 + length A < i)%nat → e2 !! i = e1 !! i) as O2
    by (intros i; by apply rtrim_at_other).
  assert (cstr_at e2 512 C) as HC2 by (apply (cstr_at_other e1); [done|intros i Hi; apply O2; lia]).
  assert (∀ i, (i < 512 ∨ 512 + length C < i)%nat → e3 !! i = e2 !! i) as O3
    by (intros i; by apply rtrim_at_other).
  assert (cstr_at e3 256 B) as HB3.
  { apply (cstr_at_other e1); [done|]. intros i Hi. rewrite O3, O2 by lia. done. }
  assert (∀ i, (i < 256 ∨ 256 + length B < i)%nat → e4 !! i = e3 !! i) as O4
    by (intros i; by apply rtrim_at_other).
  assert (cstr_at e4 32 (shr_rtrim A)) as HA4.
  { apply (cstr_at_other e2); [by apply cstr_at_rtrim|]. intros i Hi. rewrite O4, O3 by lia. done. }
  assert (cstr_at e4 256 (shr_rtrim B)) as HB4 by by apply cstr_at_rtrim.
  assert (cstr_at e4 512 (shr_rtrim C)) as HC4.
  { apply (cstr_at_other e3); [by apply cstr_at_rtrim|]. intros i Hi. rewrite O4 by lia. done. }
  split_and!; [done..|]. intros i Hi. by rewrite O4, O3, O2 by lia.
Qed.

Lemma sanitize_entry_sanitized e :
  length e = 1024%nat → sanitized e (sanitize_discovery_log_entry e).
Proof.
  intros Hl. unfold sanitize_discovery_log_entry. cbv zeta.
  destruct (terminate_all e Hl) as (HA & HB & HC & Ho).
  set (e1 := <[_ := 0]> (<[_ := 0]> (<[_ := 0]> e))) in *.
  destruct (trim_all e1 _ _ _ HA HB HC) as (HA4 & HB4 & HC4 & Ho4); [apply field_str_length..|].
  set (e4 := rtrim_at (rtrim_at _ _) _) in *.
  assert (length e4 = length e) as L4 by (unfold e4, e1; by rewrite !rtrim_at_length, !length_insert).
  assert (∀ i, not_string i → e4 !! i = e !! i) as Oe by (intros i Hi; by rewrite Ho4, Ho).
  assert ((nth off_trtype e4 0 =? NVMF_TRTYPE_FC) = is_fc e) as ->.
  { unfold is_fc. rewrite !nth_lookup, Oe; [done|]. unfold not_string, off_trtype, off_trsvcid. lia. }
  destruct (is_fc e) eqn:Hfc; [|by split; rewrite ?Hfc].
  pose proof (field_str_length e off_trsvcid NVMF_TRSVCID_SIZE) as LA.
  pose proof (field_str_length e off_subnqn NVME_NQN_LENGTH) as LB.
  pose proof (field_str_length e off_traddr NVMF_TRADDR_SIZE) as LC.
  pose proof (shr_rtrim_length (field_str e off_trsvcid NVMF_TRSVCID_SIZE)) as LA'.
  pose proof (shr_rtrim_length (field_str e off_subnqn NVME_NQN_LENGTH)) as LB'.
  pose proof (shr_rtrim_length (field_str e off_traddr NVMF_TRADDR_SIZE)) as LC'.
  assert (∀ i, (i < off_traddr ∨ off_traddr + NVMF_TRADDR_SIZE ≤ i)%nat → fix_comma e4 off_traddr !! i = e4 !! i) as Oc.
  { intros i Hi. eapply fix_comma_other; [exact HC4|]. unfold NVMF_TRADDR_SIZE in *. lia. }
  unfold not_string, off_trsvcid, off_subnqn, off_traddr, NVMF_TRSVCID_SIZE, NVME_NQN_LENGTH,
    NVMF_TRADDR_SIZE in *.
  split; rewrite ?Hfc; unfold not_string, off_trsvcid, off_subnqn, off_traddr, NVMF_TRSVCID_SIZE, NVME_NQN_LENGTH,
    NVMF_TRADDR_SIZE.
  - by rewrite fix_comma_length.
  - apply (cstr_at_other e4); [done|]. intros i Hi. apply Oc. lia.
  - apply (cstr_at_other e4); [done|]. intros i Hi. apply Oc. lia.
  - by apply cstr_at_comma.
  - intros i Hi. rewrite Oc by lia. apply Oe. lia.
Qed.

(** ** The records of a log *)

Lemma entry_length m i : (1024 + 1024 * S i ≤ length m)%nat → length (entry m i) = 1024%nat.
Proof. intros Hl. unfold entry. rewrite length_take, length_drop. lia. Qed.

Lemma entry_lookup m i j : (j < 1024)%nat → entry m i !! j = m !! (1024 + 1024 * i + j)%nat.
Proof. intros Hj. unfold entry. by rewrite lookup_take_lt, lookup_drop by done. Qed.

Lemma entry_ext m m' i :
  (∀ j, 1024 + 1024 * i ≤ j < 1024 + 1024 * S i → m' !! j = m !! j)%nat → entry m' i = entry m i.
Proof.
  intros Hj. apply list_eq. intros j. destruct (decide (j < 1024)%nat).
  - rewrite !entry_lookup by done. apply Hj. lia.
  - unfold entry. by rewrite !lookup_take_ge by lia.
Qed.

Lemma set_entry_lookup m i e j :
  length e = 1024%nat → (1024 + 1024 * S i ≤ length m)%nat →
  set_entry m i e !! j =
    if decide (1024 + 1024 * i ≤ j < 1024 + 1024 * S i)%nat then e !! (j - (1024 + 1024 * i))%nat else m !! j.
Proof.
  intros He Hl. unfold set_entry. rewrite buf_write_lookup by lia.
  destruct (decide _), (decide _); (done || lia).
Qed.

Lemma sanitize_entries_spec n : ∀ m i,
  (1024 + 1024 * (i + n) ≤ length m)%nat →
  let m' := sanitize_entries m i n in
  length m' = length m ∧
  (∀ j, (j < 1024 + 1024 * i)%nat → m' !! j = m !! j) ∧
  ∀ k, (i ≤ k < i + n)%nat → entry m' k = sanitize_discovery_log_entry (entry m k).
Proof.
  induction n as [|n IH]; intros m i Hl; cbn [sanitize_entries]; [split_and!; [done..|lia]|].
  set (e := sanitize_discovery_log_entry (entry m i)).
  assert (length e = 1024%nat) as He.
  { unfold e. rewrite (z_length _ _ (sanitize_entry_sanitized _ (entry_length m i ltac:(lia)))).
    apply entry_length. lia. }
  assert (∀ j, _) as Hset by (intros j; apply (set_entry_lookup m i e j He); lia).
  assert (length (set_entry m i e) = length m) as Hsl by (unfold set_entry; apply buf_write_length; lia).
  destruct (IH (set_entry m i e) (S i)) as (Hl' & Hlow & Hk); [lia|].
  split_and!; [congruence| |].
  - intros j Hj. rewrite Hlow by lia. rewrite Hset. by rewrite decide_False by lia.
  - intros k Hki. destruct (decide (k = i)) as [->|Hne].
    + fold e. apply list_eq. intros j. destruct (decide (j < 1024)%nat).
      * rewrite entry_lookup by done. rewrite Hlow by lia. rewrite Hset, decide_True by lia. f_equal. lia.
      * trans (@None Z); [|symmetry]; apply lookup_ge_None_2; [|lia].
        unfold entry. rewrite length_take. lia.
    + rewrite Hk by lia. f_equal. apply entry_ext. intros j Hj. rewrite Hset. by rewrite decide_False by lia.
Qed.

(** ** The commands *)

Lemma discovery_view cmd off log len :
  in_width 64 off → in_width 64 log → in_width 32 len →
  let c := nvme_init_get_log_discovery cmd off log len in
  cmd_wf c ∧ View.lid c = NVME_LOG_LID_DISCOVERY ∧ View.lsp c = 0 ∧ View.lpo c = off ∧
  data_len c = len ∧ addr c = log.
Proof.
  intros Ho Ha Hn c. split.
  - unfold c, nvme_init_get_log_discovery, nvme_init_get_log_lpo, nvme_init_get_log. cbv zeta. repeat set_wf.
  - unfold c, View.lid, View.lsp, View.lpo, nvme_init_get_log_discovery, nvme_init_get_log_lpo, nvme_init_get_log.
    cbn. rewrite land_low, (u64_small log) by done. split_and!; try done.
    + get_fields. done.
    + get_fields. done.
    + by apply split64.
Qed.

(** A command for the [len] bytes at [off] of the log at [log]. *)
Record reads_at (c : libnvme_passthru_cmd) (log off len : Z) : Prop := {
  r_wf : cmd_wf c;
  r_lid : View.lid c = NVME_LOG_LID_DISCOVERY;
  r_lsp : View.lsp c = 0;
  r_lpo : View.lpo c = off;
  r_len : data_len c = len;
  r_addr : addr c = log + off }.

Lemma header_cmd_reads cmd log :
  0 ≤ log < 2 ^ 64 → reads_at (nvme_init_get_log_discovery cmd 0 log DISCOVERY_HEADER_LEN) log 0 20.
Proof.
  intros Hl. destruct (discovery_view cmd 0 log DISCOVERY_HEADER_LEN) as (? & ? & ? & ? & ? & ?); [done..|].
  split; (done || lia).
Qed.

Lemma entries_cmd_reads cmd log n :
  0 ≤ log → log + 1024 < 2 ^ 64 → 0 ≤ n < 2 ^ 32 → reads_at (entries_cmd cmd 0 log n) log 1024 n.
Proof.
  intros Hl Hw Hn. unfold entries_cmd. rewrite u32_small by done.
  change sizeof_nvmf_discovery_log with 1024.
  destruct (discovery_view cmd 1024 (log + 1024) n) as (Hwf & Hlid & Hlsp & Hlpo & Hdl & Ha);
    [done|unfold in_width; lia|done|].
  set (c := nvme_init_get_log_discovery _ _ _ _) in *.
  change (NVME_FIELD_ENCODE 0 _ _) with 0. rewrite Z.lor_0_r.
  assert (set_cdw10 c (cdw10 c) = c) as -> by (by destruct c). by split.
Qed.

(** ** The operations *)

Section Spec.
Context (E : env) (h : handle) (retries : nat) (alloc : nat → option Z) (page : nat → Z → Z).
Hypothesis Hserves : serves E page NVME_LOG_LID_DISCOVERY 0.
Hypothesis Hretry : ∀ n, decide_retry E n = false.
Hypothesis H4k : force_4k h = false.
Hypothesis Hbytes : ∀ t i, is_byte (page t i).
Hypothesis Hcounts : counts_changes page.
Hypothesis Hfew : ∀ t, page_field (page t) 8 8 < 2 ^ 22.
Hypothesis Halloc : ∀ n a, alloc n = Some a → 0 ≤ a ∧ a + 2 ^ 33 < 2 ^ 64.

Lemma wp_command f log off len x s :
  (∀ cmd, reads_at (f cmd) log off len) → ring s = [] → 0 ≤ log → log + 2 ^ 33 < 2 ^ 64 → 0 ≤ off ≤ 1024 →
  0 < len < 2 ^ 32 → len mod 4 = 0 → 4 ≤ x < 2 ^ 32 → x mod 4 = 0 → off + len ≤ Z.of_nat (length (mem s)) →
  wp (do! modify (λ s, set_the_cmd (f (the_cmd s)) s) in libnvme_get_log E h log retries false x) (λ r s',
    length (mem s') = length (mem s) ∧
    (r = Success → ring s' = [] ∧ (length (sent s) ≤ length (sent s'))%nat ∧
      (len ≤ x → length (sent s') = S (length (sent s))) ∧
      (∀ i, 0 ≤ i → i < off ∨ off + len ≤ i → mem s' !! Z.to_nat i = mem s !! Z.to_nat i) ∧
      ∀ i, off ≤ i < off + len → ∃ t, (length (sent s) ≤ t < length (sent s'))%nat ∧
        mem s' !! Z.to_nat i = Some (page t i))) s.
Proof using Hserves Hretry H4k.
  intros Hf Hring Hl Hw Ho Hlen Hm Hx Hxm Hfit. destruct (Hf (the_cmd s)) as [Hwf Hlid Hlsp Hlpo Hdl Ha].
  unfold wp, bind, modify. set (c := f (the_cmd s)) in *.
  pose proof (get_log_wp E h log retries page (set_the_cmd c s) false x) as Hwp.
  change (the_cmd (set_the_cmd c s)) with c in Hwp. rewrite Hlid, Hlsp in Hwp.
  specialize (Hwp Hserves Hretry Hring). unfold wp in Hwp.
  assert (fits log c (mem s) x) as Hfits by (split; rewrite ?Hlpo, ?Hdl, ?Ha; (done || lia)).
  specialize (Hwp Hfits ltac:(by rewrite H4k)).
  destruct (libnvme_get_log _ _ _ _ _ _ _) as [r s'| |]; [|done..].
  destruct Hwp as ([Hlen' Hrest] & Ht & _ & Hok). cbn [mem sent set_the_cmd] in *.
  rewrite Ha, Hdl in Hrest. split; [done|]. intros Hr. destruct (Hok Hr) as (Hn & Hpr & Hneed).
  unfold page_read, commands_needed in *. rewrite Hlpo, Ha, ?Hdl, ?H4k in *. cbn [sent set_the_cmd] in *.
  split_and!; [done|done| | |].
  - intros Hone. destruct (Hpr 0) as (t & Hb & _); [lia|]. nia.
  - intros i Hi Hout. apply Hrest. unfold outside. lia.
  - intros i Hi. destruct (Hpr (i - off)) as (t & Hb & Hv); [lia|]. exists t. split; [done|].
    replace (log + off - log + (i - off)) with i in Hv by lia.
    by replace (off + (i - off)) with i in Hv by lia.
Qed.

Lemma wp_alloc n len s :
  0 < len ≤ 2 ^ 33 →
  wp (libnvme_alloc alloc n len) (λ a s',
    match a with
    | None => True
    | Some a => alloc n = Some a ∧ ∃ k, s' = set_mem (replicate k 0) s ∧ len ≤ Z.of_nat k
    end) s.
Proof.
  intros Hl. unfold wp, libnvme_alloc. rewrite (proj2 (Z.eqb_neq len 0)) by lia.
  destruct (round_up_checked len 0x1000) as [len'|] eqn:Hr; [|done].
  destruct (alloc n) as [a|]; [|done]. unfold bind, modify, ret_. split; [done|].
  exists (Z.to_nat len'). split; [done|]. unfold round_up_checked, SIZE_MAX in Hr. change (0x1000 =? 0) with false in Hr.
  cbv iota zeta in Hr. pose proof (Z.mod_pos_bound len 0x1000).
  repeat case_match; simplify_eq; lia.
Qed.

(** The header of the log is that of the page [t]. *)
Definition header_of (t : nat) (s : state) : Prop :=
  (t < length (sent s))%nat ∧ ∀ i, 0 ≤ i < 20 → mem s !! Z.to_nat i = Some (page t i).

Lemma header_field t s off n :
  header_of t s → 0 ≤ off → off + Z.of_nat n ≤ 20 → field (mem s) off n = page_field (page t) off (Z.of_nat n).
Proof. intros [_ Hh] Ho Hn. apply field_page; [done|]. intros i Hi. apply Hh. lia. Qed.

Lemma page_field_nonneg t off n : 0 ≤ page_field (page t) off n.
Proof using Hbytes.
  unfold page_field. apply le_bound. apply list.Forall_forall. intros x (i & -> & _)%list_elem_of_fmap. apply Hbytes.
Qed.

(** The records of the page [t]. *)
Definition records (t : nat) : Z := page_field (page t) 8 8.

(** The log is the page of one moment since the command [t0]: its header, and
    all of its records. *)
Definition log_read (t0 : nat) (s : state) : Prop :=
  ring s = [] ∧ ∃ t, (t0 ≤ t)%nat ∧ header_of t s ∧
    ∀ i, 1024 ≤ i < 1024 + 1024 * records t → mem s !! Z.to_nat i = Some (page t i).

(** The count did not change between the headers. *)
Lemma unchanged_read t0 t1 s1 s2 s3 :
  (t0 ≤ t1 < length (sent s1))%nat → ring s3 = [] →
  (∀ i, 1024 ≤ i < 1024 + 1024 * records t1 → ∃ t, (length (sent s1) ≤ t < length (sent s2))%nat ∧
    mem s2 !! Z.to_nat i = Some (page t i)) →
  header_of (length (sent s2)) s3 → (length (sent s1) ≤ length (sent s2))%nat →
  (∀ i, 20 ≤ i → mem s3 !! Z.to_nat i = mem s2 !! Z.to_nat i) →
  page_field (page t1) 0 8 = page_field (page (length (sent s2))) 0 8 →
  log_read t0 s3 ∧ records t1 = records (length (sent s2)).
Proof using Hcounts.
  intros Ht Hr Hrec Hh Hle Hsame Heq.
  assert (∀ t i, (t1 ≤ t ≤ length (sent s2))%nat → page t i = page t1 i) as Hpage
    by (intros t i Hb; by apply (Hcounts t1 (length (sent s2)))).
  assert (records (length (sent s2)) = records t1) as Hrc.
  { unfold records, page_field. f_equal. apply list_fmap_ext. intros i x _. apply Hpage. lia. }
  split; [|done]. split; [done|]. exists (length (sent s2)). split_and!; [lia|done|].
  rewrite Hrc. intros i Hi. rewrite Hsame by lia. destruct (Hrec i Hi) as (t & Hb & ->).
  by rewrite (Hpage t), (Hpage (length (sent s2))) by lia.
Qed.

Lemma wp_get_header log s :
  ring s = [] → 0 ≤ log → log + 2 ^ 33 < 2 ^ 64 → 1024 ≤ Z.of_nat (length (mem s)) →
  wp (get_header E h retries log) (λ r s', length (mem s') = length (mem s) ∧
    (r = Success → ring s' = [] ∧ header_of (length (sent s)) s' ∧
      ∀ i, 20 ≤ i → mem s' !! Z.to_nat i = mem s !! Z.to_nat i)) s.
Proof using Hserves Hretry H4k.
  intros Hr Hl Hw Hm. eapply wp_mono.
  { apply (wp_command (λ cmd, nvme_init_get_log_discovery cmd 0 log DISCOVERY_HEADER_LEN) log 0 20
      DISCOVERY_HEADER_LEN); try done; try lia. intros cmd. apply header_cmd_reads. lia. }
  cbn beta. intros r s' [Hlen Hok]. split; [done|]. intros He.
  destruct (Hok He) as (Hn & Ht & Hone & Hout & Hpage). specialize (Hone ltac:(done)).
  split_and!; [done| |intros i Hi; apply Hout; lia]. split; [lia|]. intros i Hi.
  destruct (Hpage i) as (t & Hb & ->); [lia|]. by replace t with (length (sent s)) by lia.
Qed.

(** What the loop promises. *)
Definition disc_post (t0 : nat) (x : ret * Z) (s : state) : Prop :=
  x.1 = Success → log_read t0 s ∧ 1024 + 1024 * numrec (mem s) ≤ Z.of_nat (length (mem s)).

Lemma wp_disc_round t0 k t1 log s again :
  ring s = [] → header_of t1 s → (t0 ≤ t1)%nat → 1024 ≤ Z.of_nat (length (mem s)) →
  (∀ log' t s', ring s' = [] → header_of t s' → (t0 ≤ t)%nat → 1024 ≤ Z.of_nat (length (mem s')) →
    wp (again log') (disc_post t0) s') →
  wp (disc_round E h retries alloc k 0 log again) (disc_post t0) s.
Proof using Hserves Hretry H4k Hbytes Hcounts Hfew Halloc.
  intros Hring Hh Ht1 Hmem Hagain. unfold disc_round. unfold wp, bind at 1, get at 1. unfold bind at 1, get at 1.
  assert (numrec (mem s) = records t1) as -> by (apply (header_field t1 s 8 8); (done || lia)).
  assert (genctr (mem s) = page_field (page t1) 0 8) as -> by (apply (header_field t1 s 0 8); (done || lia)).
  pose proof (page_field_nonneg t1 8 8) as H0. fold (records t1) in H0.
  pose proof (Hfew t1) as Hf. fold (records t1) in Hf.
  destruct (Z.eqb_spec (records t1) 0) as [Hz|Hz].
  { intros _. split.
    - split; [done|]. exists t1. split_and!; [done..|]. intros i Hi. lia.
    - assert (numrec (mem s) = records t1) as -> by (apply (header_field t1 s 8 8); (done || lia)). lia. }
  destruct (Z.ltb _ _); [done|]. change sizeof_nvmf_discovery_log with 1024.
  change sizeof_nvmf_disc_log_entry with 1024. cbv zeta.
  eapply wp_bind; [apply wp_alloc; lia|]. intros [a|] s1; [|done]. intros (Ha & len & -> & Hlen).
  destruct (Halloc _ _ Ha) as [Ha0 Ha1].
  eapply wp_bind.
  { apply (wp_command (λ cmd, entries_cmd cmd 0 a (1024 * records t1)) a 1024 (1024 * records t1));
      try done; try lia.
    - intros cmd. apply entries_cmd_reads; lia.
    - divmod.
    - cbn [mem set_mem]. rewrite length_replicate. lia. }
  cbn beta. intros err s2 [Hl2 Hok2]. destruct err; cbn [is_success negb]; [|done..].
  destruct (Hok2 eq_refl) as (Hr2 & Ht2 & _ & _ & Hrec). cbn [mem sent set_mem] in *. rewrite length_replicate in Hl2.
  eapply wp_bind; [apply wp_get_header; (done || lia)|].
  cbn beta. intros err s3 [Hl3 Hok3]. destruct err; cbn [is_success negb]; [|done..].
  destruct (Hok3 eq_refl) as (Hr3 & Hh3 & Hsame).
  unfold wp, bind at 1, get at 1.
  assert (genctr (mem s3) = page_field (page (length (sent s2))) 0 8) as ->
    by (apply (header_field _ s3 0 8); (done || lia)).
  destruct Hh as [Hlt Hh]. destruct (Z.eqb_spec (page_field (page t1) 0 8) (page_field (page (length (sent s2))) 0 8)) as [Heq|Hne];
    cbn [negb].
  - unfold bind at 1, get at 1. assert (numrec (mem s3) = records (length (sent s2))) as Hnr
      by (apply (header_field _ s3 8 8); (done || lia)).
    destruct (unchanged_read t0 t1 s s2 s3) as [Hlog Hrc]; try (done || lia).
    rewrite Hnr, <- Hrc, Z.eqb_refl. cbn [negb]. intros _. split; [done|]. rewrite Hnr, <- Hrc. lia.
  - apply (Hagain a (length (sent s2))); (done || lia).
Qed.

Lemma wp_disc_loop t0 n k t1 log s :
  ring s = [] → header_of t1 s → (t0 ≤ t1)%nat → 1024 ≤ Z.of_nat (length (mem s)) →
  wp (disc_loop E h retries alloc n k 0 log) (disc_post t0) s.
Proof using Hserves Hretry H4k Hbytes Hcounts Hfew Halloc.
  revert k t1 log s. induction n as [|n IH]; intros k t1 log s Hring Hh Ht1 Hm; cbn [disc_loop];
    (apply (wp_disc_round t0 k t1); [done..|]).
  - done.
  - intros log' t s' ? ? ? ?. by eapply IH.
Qed.

(** ** [nvme_discovery_log] *)

Lemma discovery_log_wp max_retries s :
  ring s = [] →
  wp (nvme_discovery_log E h retries alloc max_retries 0) (disc_post (length (sent s))) s.
Proof using Hserves Hretry H4k Hbytes Hcounts Hfew Halloc.
  intros Hring. unfold nvme_discovery_log. change sizeof_nvmf_discovery_log with 1024.
  eapply wp_bind; [apply wp_alloc; lia|]. intros [a|] s1; [|done]. intros (Ha & len & -> & Hlen).
  destruct (Halloc _ _ Ha) as [Ha0 Ha1].
  eapply wp_bind; [apply wp_get_header; try done; cbn [mem set_mem]; rewrite length_replicate; lia|].
  cbn beta. intros err s2 [Hl2 Hok2]. cbn [mem set_mem sent] in *. rewrite length_replicate in Hl2.
  destruct err; cbn [is_success negb]; [|done..]. destruct (Hok2 eq_refl) as (Hr2 & Hh2 & _).
  eapply wp_disc_loop; (done || lia).
Qed.
End Spec.

(** ** [libnvmf_get_discovery_log] *)

(** The bytes of record [k] of a page. *)
Definition page_entry (p : Z → Z) (k : nat) : list Z := p <$> seqZ (1024 + 1024 * Z.of_nat k) 1024.

Lemma entry_page m p k :
  (∀ i, 1024 + 1024 * Z.of_nat k ≤ i < 1024 + 1024 * Z.of_nat (S k) → m !! Z.to_nat i = Some (p i)) →
  entry m k = page_entry p k.
Proof.
  intros Hm. apply list_eq. intros j. unfold page_entry. rewrite list_lookup_fmap.
  destruct (decide (j < 1024)%nat).
  - rewrite entry_lookup, lookup_seqZ_lt by lia. cbn. rewrite <- Hm by lia. f_equal. lia.
  - rewrite lookup_seqZ_ge by lia. unfold entry. by rewrite lookup_take_ge by lia.
Qed.

(** C7: the discovery log page is read as it was at one moment, and what the
    callers get is safe to use.  The conditions are: the page is asked for
    without log specific flags (lsp 0; with them the header is another page's,
    [discovery_log_lsp_header]) and never has 2^22 records or more; no command
    is sent again by the retry hook ([decide_retry] is never true, as with the
    hook of the library itself, with --no-retries of nvme-cli, or when no
    command fails with EAGAIN or EINTR: see [get_log_retry_loses_chunk]);
    transfers are not forced to 4 KiB ([get_log_4k_overflow]); no request is
    pending on the ring at the start; the addresses the allocator gives do not
    wrap around (it may fail at any time); a Get Log Page command that succeeds
    returns the bytes it asks for ([serves]); and the controller counts the
    generations of the page.  Then the call returns, after at most the rounds
    it was given, and nothing outside of the log it allocates is written,
    whichever commands fail.  If it returns success, there is one moment during
    the call such that the log names as many records as the log page did, has
    room for them, and each of them is the record of the page at that moment
    with its strings made safe: terminated inside of their field, without the
    spaces at the end, and with a colon in a Fibre Channel address. *)
Theorem discovery_log_snapshot E h retries alloc page max_retries s :
  serves E page NVME_LOG_LID_DISCOVERY 0 → (∀ n, decide_retry E n = false) → force_4k h = false →
  (∀ t i, is_byte (page t i)) → counts_changes page → (∀ t, records page t < 2 ^ 22) →
  (∀ n a, alloc n = Some a → 0 ≤ a ∧ a + 2 ^ 33 < 2 ^ 64) → ring s = [] →
  ∃ r log s', libnvmf_get_discovery_log E h retries alloc max_retries 0 s = Ret (r, log) s' ∧
    (r = Success → ring s' = [] ∧ ∃ t, (length (sent s) ≤ t < length (sent s'))%nat ∧
      numrec (mem s') = records page t ∧ 1024 + 1024 * records page t ≤ Z.of_nat (length (mem s')) ∧
      ∀ k, Z.of_nat k < records page t → sanitized (page_entry (page t) k) (entry (mem s') k)).
Proof.
  intros Hserves Hretry H4k Hbytes Hcounts Hfew Halloc Hring.
  pose proof (discovery_log_wp E h retries alloc page Hserves Hretry H4k Hbytes Hcounts Hfew Halloc max_retries s Hring) as Hwp.
  unfold libnvmf_get_discovery_log, bind. unfold wp in Hwp.
  destruct (nvme_discovery_log _ _ _ _ _ _ _) as [[r log] s1| |]; [|done..].
  destruct (is_success r) eqn:Hr; cbn [negb]; [|by eexists _, _, _; split; [done|]; destruct r].
  destruct r; [|done..]. destruct (Hwp eq_refl) as [[Hn (t & Ht & [Hlt Hh] & Hrec)] Hlen].
  unfold modify, ret_. eexists _, _, _. split; [done|]. intros _. cbn [mem ring sent set_mem].
  split; [done|]. exists t.
  assert (numrec (mem s1) = records page t) as Hnr.
  { apply (field_page _ _ 8 8); [done|]. intros i Hi. apply Hh. lia. }
  rewrite Hnr in *. pose proof (page_field_nonneg page Hbytes t 8 8) as H0. fold (records page t) in H0.
  destruct (sanitize_entries_spec (Z.to_nat (records page t)) (mem s1) 0) as (Hl & Hlow & Hk); [lia|].
  split_and!; [lia|done| |lia|].
  - apply (field_page _ _ 8 8); [done|]. intros i Hi. rewrite Hlow by lia. apply Hh. lia.
  - intros k Hkr. rewrite Hk by lia. rewrite (entry_page _ (page t)).
    + apply sanitize_entry_sanitized. unfold page_entry. by rewrite length_fmap, length_seqZ.
    + intros i Hi. apply Hrec. lia.
Qed.

(** ** Runs *)

Module DiscDemo.

(** A page of two records that changes after the first command; the address
    of the second is not terminated. *)
Definition gen (t : nat) : Z := match t with O => 0 | S _ => 1 end.
Definition page (t : nat) (i : Z) : Z :=
  if i =? 0 then gen t else if i =? 8 then 2 else if i <? 1024 then 0
  else if i =? 2048 then 2 else if (2560 <=? i) && (i <? 2816) then 65 + (i mod 26) else 32 + gen t.
Definition E : env := {|
  kernel := λ n c, (Success, page n <$> seqZ (View.lpo c) (View.log_bytes c));
  open_uring := Success; calloc_ok := λ _, true; uring_submit := λ _, Success; wait_cqe := λ _, Success;
  pick := λ _, O; decide_retry := λ _, false |}.
Definition start : state := {|
  mem := []; the_cmd := cmd_zero; ring := []; uring_state := URING_UNKNOWN; sent := [] |}.
Definition alloc (n : nat) : option Z := Some (4096 * (1 + Z.of_nat (n mod 8))).

(** A controller with one record for the port of the host and one for
    another port; past its end a page reads as zeros. *)
Definition page_of (lsp : Z) (i : Z) : Z :=
  if i =? 8 then (if lsp =? NVMF_LOG_DISC_LSP_PLEO then 1 else 2)
  else if i <? 1024 then 0 else if i <? 2048 then 80
  else if i <? 3072 then (if lsp =? NVMF_LOG_DISC_LSP_PLEO then 0 else 81) else 0.
Definition ports : env := {|
  kernel := λ n c, (Success, page_of (View.lsp c) <$> seqZ (View.lpo c) (View.log_bytes c));
  open_uring := Success; calloc_ok := λ _, true; uring_submit := λ _, Success; wait_cqe := λ _, Success;
  pick := λ _, O; decide_retry := λ _, false |}.

(** A controller with 65 records. *)
Definition many : env := {|
  kernel := λ n c, (Success, (λ i, if i =? 8 then 65 else 0) <$> seqZ (View.lpo c) (View.log_bytes c));
  open_uring := Success; calloc_ok := λ _, true; uring_submit := λ _, Success; wait_cqe := λ _, Success;
  pick := λ _, O; decide_retry := λ _, false |}.

Lemma disc_page_byte t i : is_byte (page t i).
Proof.
  unfold page, is_byte. assert (0 ≤ gen t ≤ 1) as Hc by (by destruct t).
  pose proof (Z.mod_pos_bound i 26). repeat case_match; lia.
Qed.

Lemma disc_page_counts : counts_changes page.
Proof.
  intros t1 t2 t Ht Heq i. destruct t1 as [|t1], t2 as [|t2].
  - by replace t with 0%nat by lia.
  - by vm_compute in Heq.
  - lia.
  - destruct t as [|t]; [lia|done].
Qed.

End DiscDemo.

Lemma discovery_log_snapshot_witness :
  ∃ r log s', libnvmf_get_discovery_log DiscDemo.E Demo.h 0 DiscDemo.alloc 6 0 DiscDemo.start = Ret (r, log) s' ∧
    (r = Success → ring s' = [] ∧ ∃ t, (0 ≤ t < length (sent s'))%nat ∧
      numrec (mem s') = records DiscDemo.page t ∧
      1024 + 1024 * records DiscDemo.page t ≤ Z.of_nat (length (mem s')) ∧
      ∀ k, Z.of_nat k < records DiscDemo.page t →
        sanitized (page_entry (DiscDemo.page t) k) (entry (mem s') k)).
Proof.
  apply (discovery_log_snapshot DiscDemo.E Demo.h 0 DiscDemo.alloc DiscDemo.page 6 DiscDemo.start); try done.
  - intros n c d _ _ He. exact (eq_sym (f_equal snd He)).
  - apply DiscDemo.disc_page_byte.
  - apply DiscDemo.disc_page_counts.
  - intros n a Ha. unfold DiscDemo.alloc in Ha. injection Ha as <-.
    pose proof (Nat.mod_upper_bound n 8). lia.
Defined.

(** The page changed: its records are read again. *)
Example discovery_log_run :
  match libnvmf_get_discovery_log DiscDemo.E Demo.h 0 DiscDemo.alloc 6 0 DiscDemo.start with
  | Ret (r, log) s' => r = Success ∧ numrec (mem s') = 2 ∧ View.lpo <$> sent s' = [0; 1024; 0; 1024; 0] ∧
      length (buf_str (drop off_traddr (entry (mem s') 1))) = 255%nat ∧
      buf_str (drop off_traddr (entry (mem s') 0)) = replicate 255 33
  | _ => False
  end.
Proof. vm_compute. by split_and!. Qed.

(** With the flag for the entries of the port alone the header is still read
    without it: the log names two records, the page with the flag has one. *)
Theorem discovery_log_lsp_header :
  match libnvmf_get_discovery_log DiscDemo.ports Demo.h 0 DiscDemo.alloc 6 NVMF_LOG_DISC_LSP_PLEO DiscDemo.start with
  | Ret (r, log) s' => r = Success ∧ numrec (mem s') = 2 ∧
      page_field (DiscDemo.page_of NVMF_LOG_DISC_LSP_PLEO) 8 8 = 1 ∧ entry (mem s') 1 = replicate 1024 0
  | _ => False
  end.
Proof. vm_compute. by split_and!. Qed.

(** More than 64 records do not fit on the ring. *)
Theorem discovery_log_ring_full :
  match libnvmf_get_discovery_log DiscDemo.many Demo.h 0 DiscDemo.alloc 6 0 DiscDemo.start with
  | Ret (r, log) s' => r = Errno EAGAIN ∧ length (ring s') = 16%nat
  | _ => False
  end.
Proof. vm_compute. by split_and!. Qed.
