(* ===== verification/Mi.v ===== *)
(** * NVMe-MI messages: [libnvme/src/nvme/mi.c] over [mi-mctp.c]

    A management command is one request message to an endpoint and one
    response from it, over an MCTP socket.  [libnvme_mi_submit] checks the
    lengths, probes the endpoint once for quirks, adds the integrity check
    (MIC), hands the message to the transport and checks what came back;
    [libnvme_mi_mctp_submit] allocates a tag, sends, polls and receives, and
    waits again as long as the endpoint asks for more time.

    The socket, the clock and the allocator are the environment: what a call
    returns is a function of the calls made before it. *)

From Stdlib Require Import String.
From stdpp Require Import base list numbers.
From S2P Require Import Prelude.
From S2P Require Import CStr.
From S2P Require Import Io.
From S2P Require Import Crc32.
From S2P Require Import Passthru.
From S2P Require Import NvmeConst.
From S2P Require Import Commands.

#[local] Open Scope cmd_scope.
#[local] Open Scope io_scope.

(** ** Constants *)

Definition NVME_MI_MSGTYPE_NVME : Z := 0x84.
Definition NVME_MI_MT_CONTROL : Z := 0.
Definition NVME_MI_MT_MI : Z := 1.
Definition NVME_MI_MT_ADMIN : Z := 2.
Definition NVME_MI_MT_PCIE : Z := 4.
Definition NVME_MI_MT_AE : Z := 5.
Definition NVME_MI_ROR_REQ : Z := 0.
Definition NVME_MI_ROR_RSP : Z := 1.
Definition NVME_MI_RESP_MPR : Z := 1.
Definition NVME_STATUS_TYPE_SHIFT : Z := 27.
Definition NVME_STATUS_TYPE_MI : Z := 1.
Definition NVME_DATA_TFR_HOST_TO_CTRL : Z := 1.
Definition NVME_DATA_TFR_CTRL_TO_HOST : Z := 2.
Definition NVME_DATA_TFR_BIDIRECTIONAL : Z := 3.

Definition MCTP_TAG_OWNER : Z := 0x08.
Definition MCTP_TAG_PREALLOC : Z := 0x10.
Definition MCTP_TYPE_NVME : Z := 0x04.
Definition MCTP_TYPE_MIC : Z := 0x80.

Definition LIBNVME_QUIRK_MIN_INTER_COMMAND_TIME : Z := Z.shiftl 1 0.
Definition LIBNVME_QUIRK_CSI_1_NOT_SUPPORTED : Z := Z.shiftl 1 1.

Definition sizeof_msg_hdr : Z := 4.
Definition sizeof_msg_resp : Z := 8.
Definition sizeof_admin_resp_hdr : Z := 20.

(** ** State *)

Record timespec := { tv_sec : Z; tv_nsec : Z }.

Record libnvme_mi_ep := {
  quirks_probed : bool;
  controllers_scanned : bool;
  (** the handles on the endpoint, by controller id *)
  controllers : list Z;
  timeout : Z;
  mprt_max : Z;
  quirks : Z;
  ep_csi : Z;
  inter_command_us : Z;
  last_resp_time : timespec;
  last_resp_time_valid : bool;
  (** the transport's; its size is the length *)
  resp_buf : list Z }.

Definition set_quirks_probed (e : libnvme_mi_ep) (v : bool) : libnvme_mi_ep :=
  {| quirks_probed := v; controllers_scanned := controllers_scanned e; controllers := controllers e;
     timeout := timeout e; mprt_max := mprt_max e; quirks := quirks e; ep_csi := ep_csi e;
     inter_command_us := inter_command_us e; last_resp_time := last_resp_time e;
     last_resp_time_valid := last_resp_time_valid e; resp_buf := resp_buf e |}.
Definition set_controllers (e : libnvme_mi_ep) (scanned : bool) (l : list Z) : libnvme_mi_ep :=
  {| quirks_probed := quirks_probed e; controllers_scanned := scanned; controllers := l;
     timeout := timeout e; mprt_max := mprt_max e; quirks := quirks e; ep_csi := ep_csi e;
     inter_command_us := inter_command_us e; last_resp_time := last_resp_time e;
     last_resp_time_valid := last_resp_time_valid e; resp_buf := resp_buf e |}.
Definition set_timeout (e : libnvme_mi_ep) (v : Z) : libnvme_mi_ep :=
  {| quirks_probed := quirks_probed e; controllers_scanned := controllers_scanned e;
     controllers := controllers e; timeout := v; mprt_max := mprt_max e; quirks := quirks e;
     ep_csi := ep_csi e; inter_command_us := inter_command_us e; last_resp_time := last_resp_time e;
     last_resp_time_valid := last_resp_time_valid e; resp_buf := resp_buf e |}.
Definition set_mprt_max (e : libnvme_mi_ep) (v : Z) : libnvme_mi_ep :=
  {| quirks_probed := quirks_probed e; controllers_scanned := controllers_scanned e;
     controllers := controllers e; timeout := timeout e; mprt_max := v; quirks := quirks e;
     ep_csi := ep_csi e; inter_command_us := inter_command_us e; last_resp_time := last_resp_time e;
     last_resp_time_valid := last_resp_time_valid e; resp_buf := resp_buf e |}.
Definition set_quirks (e : libnvme_mi_ep) (q us : Z) : libnvme_mi_ep :=
  {| quirks_probed := quirks_probed e; controllers_scanned := controllers_scanned e;
     controllers := controllers e; timeout := timeout e; mprt_max := mprt_max e; quirks := q;
     ep_csi := ep_csi e; inter_command_us := us; last_resp_time := last_resp_time e;
     last_resp_time_valid := last_resp_time_valid e; resp_buf := resp_buf e |}.
Definition set_csi (e : libnvme_mi_ep) (v : Z) : libnvme_mi_ep :=
  {| quirks_probed := quirks_probed e; controllers_scanned := controllers_scanned e;
     controllers := controllers e; timeout := timeout e; mprt_max := mprt_max e; quirks := quirks e;
     ep_csi := v; inter_command_us := inter_command_us e; last_resp_time := last_resp_time e;
     last_resp_time_valid := last_resp_time_valid e; resp_buf := resp_buf e |}.
Definition set_resp_time (e : libnvme_mi_ep) (t : timespec) (valid : bool) : libnvme_mi_ep :=
  {| quirks_probed := quirks_probed e; controllers_scanned := controllers_scanned e;
     controllers := controllers e; timeout := timeout e; mprt_max := mprt_max e; quirks := quirks e;
     ep_csi := ep_csi e; inter_command_us := inter_command_us e; last_resp_time := t;
     last_resp_time_valid := valid; resp_buf := resp_buf e |}.
Definition set_resp_buf (e : libnvme_mi_ep) (b : list Z) : libnvme_mi_ep :=
  {| quirks_probed := quirks_probed e; controllers_scanned := controllers_scanned e;
     controllers := controllers e; timeout := timeout e; mprt_max := mprt_max e; quirks := quirks e;
     ep_csi := ep_csi e; inter_command_us := inter_command_us e; last_resp_time := last_resp_time e;
     last_resp_time_valid := last_resp_time_valid e; resp_buf := b |}.

(** The calls to the outside, in order. *)
Inductive event :=
| EvEntry (type : Z) (hdr data : list Z)
| EvExit (type : Z) (hdr data : list Z)
| EvTagAlloc
| EvTagDrop (tag : Z)
| EvSend (tag : Z) (msg : list Z)
| EvRealloc (size : Z)
| EvPoll (timeout : Z)
| EvRecv (room : Z)
| EvClock
| EvSleep (delay : timespec)
| EvHandle.

Record state := { ep : libnvme_mi_ep; trace : list event; last_errno : errno }.

Definition set_ep (e : libnvme_mi_ep) (s : state) : state :=
  {| ep := e; trace := trace s; last_errno := last_errno s |}.

Abbreviation M A := (state → run state A) (only parsing).

Definition get_ep {A} (f : libnvme_mi_ep → A) : M A := get (λ s, f (ep s)).
Definition upd_ep (f : libnvme_mi_ep → libnvme_mi_ep) : M unit := modify (λ s, set_ep (f (ep s)) s).
Definition set_errno (e : errno) : M unit :=
  modify (λ s, {| ep := ep s; trace := trace s; last_errno := e |}).

(** ** The environment *)

Record env := {
  (** [ioctl(SIOCMCTPALLOCTAG)]: the tag *)
  ioctl_tag : list event → errno + Z;
  sendmsg : list event → option errno;
  (** the new bytes at the end of the buffer *)
  realloc : list event → option (list Z);
  poll : list event → errno + Z;
  (** the next message, without its type byte *)
  recvmsg : list event → errno + list Z;
  clock_gettime : list event → option timespec;
  (** [calloc] of a handle *)
  handle_ok : list event → bool;
  (** the bytes of an object on the stack that is not initialised *)
  garbage : list event → nat → Z;
  (** the address of such an object *)
  stack_addr : Z;
  (** of the context *)
  mi_probe_enabled : bool }.

(** A call, and what it returns. *)
Definition call {A} (e : event) (f : list event → A) : M A := λ s,
  let t := trace s ++ [e] in Ret (f t) {| ep := ep s; trace := t; last_errno := last_errno s |}.

(** ** Requests and responses *)

(** The header and the data, of [hdr_len] and [data_len] bytes. *)
Record libnvme_mi_req := { q_hdr : list Z; q_data : list Z; q_mic : Z }.

(** The objects that take the header and the data, and how much of them is
    to be used; afterwards, how much was received. *)
Record libnvme_mi_resp := {
  r_hdr : list Z; r_hdr_len : Z; r_data : list Z; r_data_len : Z; r_mic : Z }.

(** The bytes received. *)
Definition got_hdr (r : libnvme_mi_resp) : list Z := take (Z.to_nat (r_hdr_len r)) (r_hdr r).
Definition got_data (r : libnvme_mi_resp) : list Z := take (Z.to_nat (r_data_len r)) (r_data r).

(** ** The integrity check *)

(** The eight rounds for one byte. *)
Definition mi_crc32_bit (crc : Z) : Z :=
  Z.lxor (Z.shiftr crc 1) (if negb (Z.land crc 1 =? 0) then 0x82F63B78 else 0).

Fixpoint libnvme_mi_crc32_update (crc : Z) (data : list Z) : Z :=
  match data with
  | [] => crc
  | b :: data' => libnvme_mi_crc32_update (Nat.iter 8 mi_crc32_bit (Z.lxor crc b)) data'
  end.

Definition libnvme_mi_calc_req_mic (req : libnvme_mi_req) : libnvme_mi_req :=
  let crc := 0xffffffff in
  let crc := libnvme_mi_crc32_update crc (q_hdr req) in
  let crc := libnvme_mi_crc32_update crc (q_data req) in
  {| q_hdr := q_hdr req; q_data := q_data req; q_mic := not32 crc |}.

(** True when the MIC is wrong. *)
Definition libnvme_mi_verify_resp_mic (resp : libnvme_mi_resp) : bool :=
  let crc := 0xffffffff in
  let crc := libnvme_mi_crc32_update crc (got_hdr resp) in
  let crc := libnvme_mi_crc32_update crc (got_data resp) in
  negb (r_mic resp =? not32 crc).

(** ** Headers *)

Record nvme_mi_admin_req_hdr := {
  a_type : Z; a_nmp : Z; a_meb : Z; a_hrsvd : Z;
  a_opcode : Z; a_flags : Z; a_ctrl_id : Z;
  a_cdw1 : Z; a_cdw2 : Z; a_cdw3 : Z; a_cdw4 : Z; a_cdw5 : Z;
  a_doff : Z; a_dlen : Z; a_rsvd0 : Z; a_rsvd1 : Z;
  a_cdw10 : Z; a_cdw11 : Z; a_cdw12 : Z; a_cdw13 : Z; a_cdw14 : Z; a_cdw15 : Z }.

(** Its 68 bytes. *)
Definition admin_req_bytes (h : nvme_mi_admin_req_hdr) : list Z :=
  [a_type h; a_nmp h; a_meb h; a_hrsvd h; a_opcode h; a_flags h] ++ to_le 2 (a_ctrl_id h) ++
  concat (to_le 4 <$>
    [a_cdw1 h; a_cdw2 h; a_cdw3 h; a_cdw4 h; a_cdw5 h; a_doff h; a_dlen h; a_rsvd0 h; a_rsvd1 h;
     a_cdw10 h; a_cdw11 h; a_cdw12 h; a_cdw13 h; a_cdw14 h; a_cdw15 h]).

(** The message parameters of a request of type [mt]. *)
Definition req_nmp (mt csi : Z) : Z :=
  Z.shiftl NVME_MI_ROR_REQ 7 .| Z.shiftl mt 3 .| Z.land csi 1.

Definition libnvme_mi_admin_init_req (csi ctrl_id opcode : Z) : nvme_mi_admin_req_hdr :=
  {| a_type := NVME_MI_MSGTYPE_NVME; a_nmp := req_nmp NVME_MI_MT_ADMIN csi; a_meb := 0; a_hrsvd := 0;
     a_opcode := opcode; a_flags := 0; a_ctrl_id := ctrl_id;
     a_cdw1 := 0; a_cdw2 := 0; a_cdw3 := 0; a_cdw4 := 0; a_cdw5 := 0; a_doff := 0; a_dlen := 0;
     a_rsvd0 := 0; a_rsvd1 := 0;
     a_cdw10 := 0; a_cdw11 := 0; a_cdw12 := 0; a_cdw13 := 0; a_cdw14 := 0; a_cdw15 := 0 |}.

(** The command of the caller in it. *)
Definition fill_admin_req (h : nvme_mi_admin_req_hdr) (cmd : passthru) : nvme_mi_admin_req_hdr :=
  {| a_type := a_type h; a_nmp := a_nmp h; a_meb := a_meb h; a_hrsvd := a_hrsvd h;
     a_opcode := a_opcode h;
     a_flags := if data_len cmd =? 0 then flags cmd else flags cmd .| 0x1;
     a_ctrl_id := a_ctrl_id h;
     a_cdw1 := nsid cmd; a_cdw2 := cdw2 cmd; a_cdw3 := cdw3 cmd; a_cdw4 := a_cdw4 h;
     a_cdw5 := a_cdw5 h; a_doff := 0;
     a_dlen := if data_len cmd =? 0 then a_dlen h else data_len cmd;
     a_rsvd0 := a_rsvd0 h; a_rsvd1 := a_rsvd1 h;
     a_cdw10 := cdw10 cmd; a_cdw11 := cdw11 cmd; a_cdw12 := cdw12 cmd;
     a_cdw13 := cdw13 cmd; a_cdw14 := cdw14 cmd; a_cdw15 := cdw15 cmd |}.

Definition direction (cmd : passthru) : Z := Z.land (opcode cmd) 0x3.
Definition has_data (cmd : passthru) : bool := negb (addr cmd =? 0) && negb (data_len cmd =? 0).
Definition has_write_data (cmd : passthru) : bool :=
  has_data cmd && (direction cmd =? NVME_DATA_TFR_HOST_TO_CTRL).
Definition has_read_data (cmd : passthru) : bool :=
  has_data cmd && (direction cmd =? NVME_DATA_TFR_CTRL_TO_HOST).

(** The messages of a passthrough command; [buf] is the caller's memory. *)
Definition passthru_req (csi id : Z) (cmd : passthru) (data : list Z) : libnvme_mi_req :=
  {| q_hdr := admin_req_bytes (fill_admin_req (libnvme_mi_admin_init_req csi id (opcode cmd)) cmd);
     q_data := data; q_mic := 0 |}.
Definition passthru_resp (cmd : passthru) (hdr buf : list Z) : libnvme_mi_resp :=
  {| r_hdr := hdr; r_hdr_len := sizeof_admin_resp_hdr;
     r_data := if has_read_data cmd then buf else [];
     r_data_len := if has_read_data cmd then data_len cmd else 0; r_mic := 0 |}.

Definition status_ret (z : Z) : ret := if z =? 0 then Success else Status z.

(** The status of the response, and the result, where there is one. *)
Definition libnvme_mi_admin_parse_status (resp : libnvme_mi_resp) : ret * option Z :=
  if r_hdr_len resp <? sizeof_msg_resp then (Errno EPROTO, None)
  else if negb (char_at (r_hdr resp) 4 =? 0)
       then (Status (char_at (r_hdr resp) 4 .| Z.shiftl NVME_STATUS_TYPE_MI NVME_STATUS_TYPE_SHIFT), None)
  else if r_hdr_len resp <? sizeof_admin_resp_hdr then (Errno EPROTO, None)
  else
    let nvme_result := le (take 4 (drop 8 (r_hdr resp))) in
    let nvme_status := Z.shiftr (le (take 4 (drop 16 (r_hdr resp)))) 17 in
    (status_ret nvme_status, Some nvme_result).

(** ** mi-mctp.c *)

(** [-1], with [errno] set. *)
Definition fail {A} (e : errno) : M (option A) := do! set_errno e in ret_ None.

(** The worst case of the processing time in milliseconds, for a More
    Processing Required response: [buf] holds [len] bytes without the MIC. *)
Definition libnvme_mi_mctp_resp_is_mpr (buf : list Z) (len mic : Z) : option Z :=
  if len <? 8 then None
  else if negb (char_at buf 4 =? NVME_MI_RESP_MPR) then None
  else if negb ((len =? 8) ||
                ((Z.land (Z.shiftr (char_at buf 1) 3) 0x0f =? NVME_MI_MT_ADMIN) &&
                 (len =? sizeof_admin_resp_hdr))) then None
  else
    let crc := not32 (libnvme_mi_crc32_update 0xffffffff (take (Z.to_nat len) buf)) in
    if negb (mic =? crc) then None else Some (le (take 2 (drop 6 buf)) * 100).

(** The timeout to wait with after it: that of the endpoint where it gives
    none, at most [mprt_max]. *)
Definition mpr_timeout (e : libnvme_mi_ep) (mpr_time : Z) : Z :=
  let mpr_time := if mpr_time =? 0 then (if timeout e =? 0 then 0xffff else timeout e) else mpr_time in
  let mpr_time := if negb (mprt_max e =? 0) && (mprt_max e <? mpr_time) then mprt_max e else mpr_time in
  to_signed 32 mpr_time.

(** The linear buffer [buf] with [len] bytes, the MIC taken off, as header and
    data. *)
Definition unpack (buf : list Z) (resp : libnvme_mi_resp) (len mic : Z) : M libnvme_mi_resp :=
  let hdr_len := if len <? r_hdr_len resp then len else r_hdr_len resp in
  let! h := load buf 0 (Z.to_nat hdr_len) in
  let! hdr := store (r_hdr resp) h in
  let len := len - hdr_len in
  let data_len := if len <? r_data_len resp then len else r_data_len resp in
  let! d := load buf (Z.to_nat hdr_len) (Z.to_nat data_len) in
  let! data := store (r_data resp) d in
  ret_ {| r_hdr := hdr; r_hdr_len := hdr_len; r_data := data; r_data_len := data_len; r_mic := mic |}.

Section Transport.
Context (E : env).

Definition libnvme_mi_mctp_tag_alloc : M Z :=
  let! r := call EvTagAlloc (ioctl_tag E) in
  match r with inl _ => ret_ MCTP_TAG_OWNER | inr tag => ret_ tag end.

Definition libnvme_mi_mctp_tag_drop (tag : Z) : M unit :=
  if Z.land tag MCTP_TAG_PREALLOC =? 0 then ret_ tt else call (EvTagDrop tag) (λ _, tt).

(** The response buffer has room for [resp_len] bytes; false when it cannot
    be had. *)
Definition grow_resp_buf (resp_len : Z) : M bool :=
  let! b := get_ep resp_buf in
  if resp_len <=? Z.of_nat (length b) then ret_ true
  else
    let! r := call (EvRealloc resp_len) (realloc E) in
    match r with
    | None => ret_ false
    | Some tail => do! upd_ep (λ e, set_resp_buf e (resize (Z.to_nat resp_len) 0 (b ++ tail))) in ret_ true
    end.

(** [recvmsg] to the buffer behind the type byte; what has no room is lost. *)
Definition receive (room : Z) : M (errno + Z) :=
  let! r := call (EvRecv room) (recvmsg E) in
  match r with
  | inl e => ret_ (inl e)
  | inr m =>
      let m := take (Z.to_nat room) m in
      let! b := get_ep resp_buf in
      if (1 + length m <=? length b)%nat
      then do! upd_ep (λ e, set_resp_buf e (buf_write b 1 m)) in ret_ (inr (Z.of_nat (length m)))
      else λ _, Wild
  end.

(** A message of [len] bytes is behind the type byte: the processing time it
    asks for, or the response. *)
Definition mctp_message (resp : libnvme_mi_resp) (len : Z) : M (option (Z + libnvme_mi_resp)) :=
  if len =? 0 then fail EIO
  else
    do! upd_ep (λ e, set_resp_buf e (buf_write (resp_buf e) 0 [MCTP_TYPE_NVME .| MCTP_TYPE_MIC])) in
    let len := len + 1 in
    if len <? 8 + 4 then fail EPROTO
    else
      let! buf := get_ep resp_buf in
      let! m := load buf (Z.to_nat (len - 4)) 4 in
      let mic := le m in
      let len := len - 4 in
      match libnvme_mi_mctp_resp_is_mpr buf len mic with
      | Some mpr_time => ret_ (Some (inl mpr_time))
      | None => let! r := unpack buf resp len mic in ret_ (Some (inr r))
      end.

(** From [retry:] on. *)
Fixpoint mctp_retry (fuel : nat) (resp : libnvme_mi_resp) (resp_len tmo : Z) : M (option libnvme_mi_resp) :=
  match fuel with
  | O => λ _, NoFuel
  | S fuel' =>
      let! rc := call (EvPoll tmo) (poll E) in
      match rc with
      | inl e => if bool_decide (e = EINTR) then mctp_retry fuel' resp resp_len tmo else fail e
      | inr n =>
          if n =? 0 then fail ETIMEDOUT
          else
            let! r := receive (resp_len - 1) in
            match r with
            | inl e => fail e
            | inr len =>
                let! x := mctp_message resp len in
                match x with
                | None => ret_ None
                | Some (inr r) => ret_ (Some r)
                | Some (inl mpr_time) =>
                    let! tmo := get_ep (λ e, mpr_timeout e mpr_time) in
                    mctp_retry fuel' resp resp_len tmo
                end
            end
      end
  end.

Context (polls : nat).

(** [None] is [-1]. *)
Definition libnvme_mi_mctp_submit (req : libnvme_mi_req) (resp : libnvme_mi_resp) :
    M (option libnvme_mi_resp) :=
  if r_hdr_len resp <? sizeof_msg_resp then fail EINVAL
  else
    let! tag := libnvme_mi_mctp_tag_alloc in
    let! sent := call (EvSend tag (drop 1 (q_hdr req) ++ q_data req ++ to_le 4 (q_mic req))) (sendmsg E) in
    let! r :=
      match sent with
      | Some e => fail e
      | None =>
          let resp_len := r_hdr_len resp + r_data_len resp + 4 in
          let! ok := grow_resp_buf resp_len in
          if negb ok then fail ENOMEM
          else
            let! tmo := get_ep (λ e, if timeout e =? 0 then -1 else to_signed 32 (timeout e)) in
            mctp_retry polls resp resp_len tmo
      end in
    do! libnvme_mi_mctp_tag_drop tag in ret_ r.

(** ** mi.c: the message *)

Definition libnvme_mi_record_resp_time : M unit :=
  let! r := call EvClock (clock_gettime E) in
  match r with
  | Some now => upd_ep (λ e, set_resp_time e now true)
  | None => upd_ep (λ e, set_resp_time e (last_resp_time e) false)
  end.

Definition nsec_per_sec : Z := 1000 * 1000 * 1000.

(** [timespec_cmp(a, b, >=)] *)
Definition timespec_ge (a b : timespec) : bool :=
  if tv_sec a =? tv_sec b then tv_nsec b <=? tv_nsec a else tv_sec b <=? tv_sec a.

Definition timespec_sub (a b : timespec) : timespec :=
  let sec := tv_sec a - tv_sec b in
  let nsec := tv_nsec a - tv_nsec b in
  if nsec <? 0 then {| tv_sec := sec - 1; tv_nsec := nsec + nsec_per_sec |}
  else {| tv_sec := sec; tv_nsec := nsec |}.

(** The earliest time of the next command. *)
Definition next_command (last : timespec) (us : Z) : timespec :=
  let nsec := tv_nsec last + u32 (us * 1000) in
  if nsec_per_sec <? nsec then {| tv_sec := tv_sec last + 1; tv_nsec := nsec - nsec_per_sec |}
  else {| tv_sec := tv_sec last; tv_nsec := nsec |}.

Definition libnvme_mi_insert_delay : M unit :=
  let! e := get_ep id in
  if negb (last_resp_time_valid e) then ret_ tt
  else
    let next := next_command (last_resp_time e) (inter_command_us e) in
    let! r := call EvClock (clock_gettime E) in
    match r with
    | None => ret_ tt
    | Some now =>
        if timespec_ge now next then ret_ tt
        else call (EvSleep (timespec_sub next now)) (λ _, tt)
    end.

Definition libnvme_mi_ep_has_quirk (q : Z) : M bool := get_ep (λ e, negb (Z.land (quirks e) q =? 0)).

(** [libnvme_mi_init_transport_handle]: false when there is no memory. *)
Definition libnvme_mi_init_transport_handle (id : Z) : M bool :=
  let! ok := call EvHandle (handle_ok E) in
  if ok then do! upd_ep (λ e, set_controllers e (controllers_scanned e) (controllers e ++ [id])) in ret_ true
  else ret_ false.

(** [libnvme_close] of the handle added last. *)
Definition close_last : M unit :=
  upd_ep (λ e, set_controllers e (controllers_scanned e) (removelast (controllers e))).

(** The object holds what was on the stack. *)
Definition uninit (n : nat) : M (list Z) := get (λ s, garbage E (trace s) <$> seq 0 n).

(** *** Admin commands *)

Section Submit.
Context (submit : libnvme_mi_req → libnvme_mi_resp → M (ret * libnvme_mi_resp)).

(** [buf] is the memory at [cmd->addr]; the result has the command with its
    result, and the memory. *)
Definition libnvme_mi_admin_admin_passthru (id : Z) (cmd : passthru) (buf : list Z) :
    M (ret * passthru * list Z) :=
  if direction cmd =? NVME_DATA_TFR_BIDIRECTIONAL then ret_ (Errno EINVAL, cmd, buf)
  else if 4096 <? data_len cmd then ret_ (Errno EINVAL, cmd, buf)
  else
    let! csi := get_ep ep_csi in
    let! data := (if has_write_data cmd then load buf 0 (Z.to_nat (data_len cmd)) else ret_ []) in
    let! resp_hdr := uninit 20 in
    let! timeout_save := get_ep timeout in
    do! (if timeout_ms cmd =? 0 then ret_ tt else upd_ep (λ e, set_timeout e (timeout_ms cmd))) in
    let! x := submit (passthru_req csi id cmd data) (passthru_resp cmd resp_hdr buf) in
    let '(rc, resp) := x in
    do! (if timeout_ms cmd =? 0 then ret_ tt else upd_ep (λ e, set_timeout e timeout_save)) in
    let buf := if has_read_data cmd then r_data resp else buf in
    if negb (is_success rc) then ret_ (rc, cmd, buf)
    else
      let '(rc, result) := libnvme_mi_admin_parse_status resp in
      let cmd' := match result with Some v => set_result cmd v | None => cmd end in
      if negb (is_success rc) then ret_ (rc, cmd', buf)
      else if has_read_data cmd && negb (r_data_len resp =? data_len cmd) then ret_ (Errno EPROTO, cmd', buf)
      else ret_ (Success, cmd', buf).

Definition libnvme_mi_compare_vid_mn (id : list Z) (vid : Z) (mn : list Z) : bool :=
  if 40 <=? Z.of_nat (length mn) then false
  else (le (take 2 id) =? vid) && str_eqb (take (length mn) (drop 24 id)) mn.

(** The identification of the controller, up to [rab]. *)
Definition probe_cmd : passthru :=
  set_data_len (nvme_init_identify_ctrl cmd_zero (stack_addr E)) 72.

Definition probe_quirks (id : list Z) : M unit :=
  do! (if libnvme_mi_compare_vid_mn id 0x144d (lit "MZUL2512HCJQ")
       then upd_ep (λ e, set_quirks e (quirks e .| LIBNVME_QUIRK_MIN_INTER_COMMAND_TIME) 1200)
       else ret_ tt) in
  let! q := libnvme_mi_ep_has_quirk LIBNVME_QUIRK_MIN_INTER_COMMAND_TIME in
  if q then libnvme_mi_record_resp_time else ret_ tt.

Definition libnvme_mi_ep_probe : M unit :=
  let! probed := get_ep quirks_probed in
  if probed : bool then ret_ tt
  else
    do! upd_ep (λ e, set_quirks_probed e true) in
    if negb (mi_probe_enabled E) then ret_ tt
    else
      do! upd_ep (λ e, set_quirks e 0 (inter_command_us e)) in
      let! ok := libnvme_mi_init_transport_handle 0 in
      if negb ok then ret_ tt
      else
        let! x := libnvme_mi_admin_admin_passthru 0 probe_cmd (replicate 4096 0) in
        let '(rc, _, id) := x in
        do! (if is_success rc then probe_quirks id else ret_ tt) in
        close_last.

End Submit.

(** The checks on a response with a good MIC. *)
Definition check_resp (req : libnvme_mi_req) (resp : libnvme_mi_resp) : ret :=
  if r_hdr_len resp <? sizeof_msg_hdr then Errno EPROTO
  else if negb (char_at (r_hdr resp) 0 =? NVME_MI_MSGTYPE_NVME) then Errno EPROTO
  else if Z.land (char_at (r_hdr resp) 1) (Z.shiftl NVME_MI_ROR_RSP 7) =? 0 then Errno EIO
  else if negb (Z.land (char_at (r_hdr resp) 1) 0x1 =? Z.land (char_at (q_hdr req) 1) 0x1)
       then Errno EIO
  else Success.

(** The probe sends a command of its own, once: [depth] bounds the nesting. *)
Fixpoint libnvme_mi_submit (depth : nat) (req : libnvme_mi_req) (resp : libnvme_mi_resp) :
    M (ret * libnvme_mi_resp) :=
  match depth with
  | O => λ _, NoFuel
  | S depth' =>
      let hdr_len := Z.of_nat (length (q_hdr req)) in
      if hdr_len <? sizeof_msg_hdr then ret_ (Errno EINVAL, resp)
      else if negb (Z.land hdr_len 0x3 =? 0) then ret_ (Errno EINVAL, resp)
      else if r_hdr_len resp <? sizeof_msg_hdr then ret_ (Errno EINVAL, resp)
      else if negb (Z.land (r_hdr_len resp) 0x3 =? 0) then ret_ (Errno EINVAL, resp)
      else
        do! call (EvEntry (char_at (q_hdr req) 0) (q_hdr req) (q_data req)) (λ _, tt) in
        do! libnvme_mi_ep_probe (libnvme_mi_submit depth') in
        let req := libnvme_mi_calc_req_mic req in
        let! q := libnvme_mi_ep_has_quirk LIBNVME_QUIRK_MIN_INTER_COMMAND_TIME in
        do! (if q then libnvme_mi_insert_delay else ret_ tt) in
        let! rc := libnvme_mi_mctp_submit req resp in
        let! q := libnvme_mi_ep_has_quirk LIBNVME_QUIRK_MIN_INTER_COMMAND_TIME in
        do! (if q then libnvme_mi_record_resp_time else ret_ tt) in
        match rc with
        | None => ret_ (Errno EPERM, resp)
        | Some resp =>
            if libnvme_mi_verify_resp_mic resp then ret_ (Errno EBADMSG, resp)
            else
              match check_resp req resp with
              | Success =>
                  do! call (EvExit (char_at (r_hdr resp) 0) (got_hdr resp) (got_data resp)) (λ _, tt) in
                  ret_ (Success, resp)
              | e => ret_ (e, resp)
              end
        end
  end.

End Transport.
