(* ===== verification/MiSpec.v ===== *)
(** * Exchanges of NVMe-MI messages

    The theorems of [Mi]: a response that is handed to the caller came in
    after the request went out, is intact and is for the command slot of the
    request; no reply of an endpoint makes the library touch memory outside
    of the caller's objects; a tag that was allocated is released; an
    endpoint may ask for more time as often as it likes; and the admin
    command the endpoint sees is the one the caller built. *)

From stdpp Require Import base list numbers.
From S2P Require Import Prelude.
From S2P Require Import CStr.
From S2P Require Import Io.
From S2P Require Import Crc32.
From S2P Require Import Passthru.
From S2P Require Import NvmeConst.
From S2P Require Import Commands.
From S2P Require Import Mi.

#[local] Open Scope cmd_scope.
#[local] Open Scope io_scope.

(** ** The integrity check is CRC-32C *)

Module MiCrc.

(** Castagnoli's polynomial, reflected. *)
Definition poly : Z := 0x82F63B78.

Definition crc32c (l : list Z) : Z := not32 (foldl (CrcSpec.step poly) 0xffffffff l).

(** A message on the wire: the body without its type byte, and the MIC. *)
Definition framed (body : list Z) (m : list Z) : Prop :=
  NVME_MI_MSGTYPE_NVME :: m = body ++ to_le 4 (crc32c body).

End MiCrc.

Lemma mi_poly_degree : CrcSpec.degree32 MiCrc.poly.
Proof. done. Qed.

Lemma mi_crc32_bit_shift r : mi_crc32_bit r = CrcSpec.shift MiCrc.poly r.
Proof.
  unfold mi_crc32_bit, CrcSpec.shift, MiCrc.poly. change 1 with (Z.ones 1) at 2.
  rewrite Z.land_ones by lia. rewrite Zmod_odd. destruct (Z.odd r); [done|]. apply Z.lxor_0_r.
Qed.

Lemma crc32_update_foldl l c : libnvme_mi_crc32_update c l = foldl (CrcSpec.step MiCrc.poly) c l.
Proof.
  revert c. induction l as [|b l IH]; intros c; cbn [libnvme_mi_crc32_update foldl]; [done|].
  rewrite IH. f_equal. unfold CrcSpec.step. generalize (Z.lxor c b). generalize 8%nat as n.
  induction n as [|n IHn]; intros r; [done|].
  change (Nat.iter (S n) ?f ?x) with (f (Nat.iter n f x)). by rewrite IHn, mi_crc32_bit_shift.
Qed.

Lemma crc32c_word l : bytes l → 0 ≤ MiCrc.crc32c l < 2 ^ 32.
Proof.
  intros Hl. apply word32_lxor; [|done]. by apply (word32_foldl _ mi_poly_degree).
Qed.

Lemma calc_req_mic_spec req :
  q_mic (libnvme_mi_calc_req_mic req) = MiCrc.crc32c (q_hdr req ++ q_data req).
Proof. cbn. by rewrite !crc32_update_foldl, <- foldl_app. Qed.

Lemma verify_resp_mic_spec resp :
  libnvme_mi_verify_resp_mic resp = negb (r_mic resp =? MiCrc.crc32c (got_hdr resp ++ got_data resp)).
Proof. unfold libnvme_mi_verify_resp_mic. by rewrite !crc32_update_foldl, <- foldl_app. Qed.

Lemma slot_cases csi : Z.land csi 1 = 0 ∨ Z.land csi 1 = 1.
Proof.
  pose proof (land_ones_mod csi 1) as H. change (2 ^ 1 - 1) with 1 in H. rewrite H by lia.
  pose proof (Z.mod_pos_bound csi (2 ^ 1)). lia.
Qed.

(** ** Rules *)

Lemma wlp_call {A} e (f : list event → A) (Q : A → state → Prop) s :
  Q (f (trace s ++ [e])) {| ep := ep s; trace := trace s ++ [e]; last_errno := last_errno s |} →
  wlp (call e f) Q s.
Proof. done. Qed.

Lemma wlp_fail {A} e (Q : option A → state → Prop) s :
  Q None {| ep := ep s; trace := trace s; last_errno := e |} → wlp (fail e) Q s.
Proof. done. Qed.

(** One step of a program. *)
Ltac wstep :=
  lazymatch goal with
  | |- wlp (bind _ _) _ _ => apply wlp_bind_same
  | |- wlp (ret_ _) _ _ => apply wlp_ret
  | |- wlp (get _) _ _ => apply wlp_get
  | |- wlp (get_ep _) _ _ => apply wlp_get
  | |- wlp (libnvme_mi_ep_has_quirk _) _ _ => apply wlp_get
  | |- wlp (modify _) _ _ => apply wlp_modify
  | |- wlp (upd_ep _) _ _ => apply wlp_modify
  | |- wlp (call _ _) _ _ => apply wlp_call
  | |- wlp (fail _) _ _ => apply wlp_fail
  end; cbn beta.

Lemma buf_write_0 b d : buf_write b 0 d = d ++ drop (length d) b.
Proof. done. Qed.

Lemma take_buf_write_0 b d : take (length d) (buf_write b 0 d) = d.
Proof. rewrite buf_write_0. by rewrite take_app_length. Qed.

(** ** The transport *)

(** The objects of a response hold what may be received. *)
Record resp_ok (r : libnvme_mi_resp) : Prop := {
  ok_hdr : 0 ≤ r_hdr_len r ≤ Z.of_nat (length (r_hdr r));
  ok_data : 0 ≤ r_data_len r ≤ Z.of_nat (length (r_data r)) }.

(** Only the response buffer of the endpoint changed. *)
Definition same_ep (e e' : libnvme_mi_ep) : Prop := ∃ b, e' = set_resp_buf e b.

Lemma same_ep_refl e : same_ep e e.
Proof. exists (resp_buf e). by destruct e. Qed.

Lemma same_ep_trans e1 e2 e3 : same_ep e1 e2 → same_ep e2 e3 → same_ep e1 e3.
Proof. intros [b ->] [b' ->]. exists b'. by destruct e1. Qed.

Lemma same_ep_set e b : same_ep e (set_resp_buf e b).
Proof. by exists b. Qed.

#[export] Hint Resolve same_ep_refl same_ep_set : nvme.

(** A message of [len] bytes, split into header and data. *)
Lemma wlp_unpack b resp len mic s (Q : libnvme_mi_resp → state → Prop) :
  resp_ok resp → 0 ≤ len ≤ Z.of_nat (length b) →
  len ≤ r_hdr_len resp + r_data_len resp →
  (∀ r, resp_ok r → r_mic r = mic → r_hdr_len r = Z.min len (r_hdr_len resp) →
        r_data_len r = len - r_hdr_len r →
        length (r_hdr r) = length (r_hdr resp) →
        r_data r = got_data r ++ drop (Z.to_nat (r_data_len r)) (r_data resp) →
        got_hdr r ++ got_data r = take (Z.to_nat len) b → Q r s) →
  wlp (unpack b resp len mic) Q s.
Proof.
  intros [Hh Hd] Hlen Hfit HQ. unfold unpack.
  assert ((if len <? r_hdr_len resp then len else r_hdr_len resp) = Z.min len (r_hdr_len resp)) as ->
    by (destruct (Z.ltb_spec len (r_hdr_len resp)); lia).
  set (hl := Z.min len (r_hdr_len resp)).
  assert ((if len - hl <? r_data_len resp then len - hl else r_data_len resp) = len - hl) as ->
    by (destruct (Z.ltb_spec (len - hl) (r_data_len resp)); lia).
  repeat wstep. apply wlp_load; [lia|]. rewrite drop_0.
  wstep. apply wlp_store; [rewrite length_take; lia|].
  wstep. apply wlp_load; [lia|]. wstep. apply wlp_store; [rewrite length_take, length_drop; lia|].
  wstep.
  assert (length (take (Z.to_nat hl) b) = Z.to_nat hl) as Lh by (rewrite length_take; lia).
  assert (length (take (Z.to_nat (len - hl)) (drop (Z.to_nat hl) b)) = Z.to_nat (len - hl)) as Ld
    by (rewrite length_take, length_drop; lia).
  apply HQ; cbn [r_hdr r_hdr_len r_data r_data_len r_mic]; try done.
  - split; cbn [r_hdr r_hdr_len r_data r_data_len]; rewrite buf_write_length by lia; lia.
  - rewrite buf_write_length; lia.
  - unfold got_data. cbn [r_data r_data_len]. set (d := take _ (drop _ b)) in *.
    rewrite <- Ld, take_buf_write_0. done.
  - unfold got_hdr, got_data. cbn [r_hdr r_hdr_len r_data r_data_len].
    rewrite <- Lh at 1. rewrite take_buf_write_0. rewrite <- Ld at 1. rewrite take_buf_write_0.
    rewrite take_take_drop. f_equal. lia.
Qed.

Section Exchange.
Context (E : env).

(** The socket delivers bytes. *)
Definition delivers_bytes : Prop := ∀ t m, recvmsg E t = inr m → bytes m.

(** What the calls of one wait do to the outside. *)
Definition waiting (e : event) : Prop :=
  match e with EvPoll _ | EvRecv _ | EvRealloc _ => True | _ => False end.

(** The last call received the message [m], of which [r] has all but the MIC. *)
Definition received (room : Z) (r : libnvme_mi_resp) (t : list event) : Prop :=
  ∃ t' m mic, t = t' ++ [EvRecv room] ∧ recvmsg E t = inr m ∧ length mic = 4%nat ∧
    r_mic r = le mic ∧ NVME_MI_MSGTYPE_NVME :: take (Z.to_nat room) m = got_hdr r ++ got_data r ++ mic.

(** Header and data of [r] are in the objects of [resp]. *)
Record unpacked (resp r : libnvme_mi_resp) : Prop := {
  u_ok : resp_ok r;
  u_hdr : r_hdr_len r ≤ r_hdr_len resp;
  u_min : 8 ≤ r_hdr_len resp → 8 ≤ r_hdr_len r;
  u_data : r_data_len r ≤ r_data_len resp;
  u_hdr_size : length (r_hdr r) = length (r_hdr resp);
  u_rest : r_data r = got_data r ++ drop (Z.to_nat (r_data_len r)) (r_data resp) }.

Lemma u_data_size resp r : resp_ok resp → unpacked resp r → length (r_data r) = length (r_data resp).
Proof.
  intros Hr Hu. pose proof (ok_data _ Hr). pose proof (ok_data _ (u_ok _ _ Hu)). pose proof (u_data _ _ Hu).
  rewrite (u_rest _ _ Hu), length_app, length_drop. unfold got_data. rewrite length_take. lia.
Qed.

(** The buffer holds the message behind its type byte. *)
Lemma buf_split (b m : list Z) :
  (S (length m) ≤ length b)%nat →
  ∃ r, buf_write (buf_write b 1 m) 0 [NVME_MI_MSGTYPE_NVME] = (NVME_MI_MSGTYPE_NVME :: m) ++ r.
Proof.
  intros H. destruct b as [|x b]; cbn in H; [lia|]. exists (drop (length m) b).
  unfold buf_write. cbn. by rewrite drop_0.
Qed.

Lemma wlp_receive room s (Q : errno + Z → state → Prop) :
  0 ≤ room < Z.of_nat (length (resp_buf (ep s))) →
  (let s1 := {| ep := ep s; trace := trace s ++ [EvRecv room]; last_errno := last_errno s |} in
   (∀ e, Q (inl e) s1) ∧
   ∀ m, recvmsg E (trace s1) = inr m →
     let m' := take (Z.to_nat room) m in
     Q (inr (Z.of_nat (length m'))) (set_ep (set_resp_buf (ep s1) (buf_write (resp_buf (ep s)) 1 m')) s1)) →
  wlp (receive E room) Q s.
Proof.
  cbn zeta. intros Hroom [Herr Hok]. unfold receive. repeat wstep.
  destruct (recvmsg E _) as [e|m] eqn:Hm; [wstep; apply Herr|].
  repeat wstep. cbn [ep]. rewrite (proj2 (Nat.leb_le _ _)).
  - repeat wstep. by apply Hok.
  - rewrite length_take. lia.
Qed.

(** The time a message asks for; it has its type byte and its MIC. *)
Definition mpr_of (full : list Z) : option Z :=
  let n := (length full - 4)%nat in
  libnvme_mi_mctp_resp_is_mpr (take n full) (Z.of_nat n) (le (drop n full)).

(** What a message leads to. *)
Definition message_post (resp : libnvme_mi_resp) (m : list Z) (s : state)
    (o : option (Z + libnvme_mi_resp)) (s' : state) : Prop :=
  same_ep (ep s) (ep s') ∧ length (resp_buf (ep s')) = length (resp_buf (ep s)) ∧ trace s' = trace s ∧
  match o with
  | Some (inr r) =>
      unpacked resp r ∧ mpr_of (NVME_MI_MSGTYPE_NVME :: m) = None ∧
      r_hdr_len r = Z.min (Z.of_nat (length m) - 3) (r_hdr_len resp) ∧
      ∃ mic, length mic = 4%nat ∧ r_mic r = le mic ∧
        NVME_MI_MSGTYPE_NVME :: m = got_hdr r ++ got_data r ++ mic
  | Some (inl x) => mpr_of (NVME_MI_MSGTYPE_NVME :: m) = Some x
  | None => (length m < 11)%nat
  end.

(** Only the message is looked at, not what is behind it in the buffer. *)
Lemma is_mpr_prefix full r mic :
  libnvme_mi_mctp_resp_is_mpr (full ++ r) (Z.of_nat (length full)) mic =
  libnvme_mi_mctp_resp_is_mpr full (Z.of_nat (length full)) mic.
Proof.
  unfold libnvme_mi_mctp_resp_is_mpr. destruct (Z.ltb_spec (Z.of_nat (length full)) 8); [done|].
  assert (∀ i, (i < 8)%nat → char_at (full ++ r) i = char_at full i) as Hc.
  { intros i Hi. unfold char_at. by rewrite lookup_app_l by lia. }
  rewrite !Hc by lia. rewrite Nat2Z.id, take_app_length, firstn_all.
  by rewrite drop_app_le, take_app_le by (rewrite ?length_drop; lia).
Qed.

Lemma wlp_mctp_message resp b m s :
  resp_ok resp → (S (length m) ≤ length b)%nat →
  Z.of_nat (length m) ≤ r_hdr_len resp + r_data_len resp + 3 →
  resp_buf (ep s) = buf_write b 1 m →
  wlp (mctp_message resp (Z.of_nat (length m))) (message_post resp m s) s.
Proof.
  intros Hok Hb Hfit Hs. unfold mctp_message.
  destruct (buf_split b m Hb) as [r Hr].
  assert (length (resp_buf (ep s)) = S (length m + length r))%nat as Hl.
  { apply (f_equal length) in Hr. rewrite buf_write_length in Hr by (rewrite buf_write_length; cbn; lia).
    rewrite Hs, Hr. cbn. by rewrite length_app. }
  destruct (Z.eqb_spec (Z.of_nat (length m)) 0); [wstep; split_and!; cbn; auto with nvme lia|].
  repeat wstep. change (MCTP_TYPE_NVME .| MCTP_TYPE_MIC) with NVME_MI_MSGTYPE_NVME.
  rewrite Hs, Hr. destruct (Z.ltb_spec (Z.of_nat (length m) + 1) (8 + 4)).
  { wstep. split_and!; cbn; auto with nvme; [|lia]. rewrite length_app, Hl. done. }
  repeat wstep. cbn [ep resp_buf set_ep set_resp_buf].
  set (full := NVME_MI_MSGTYPE_NVME :: m) in *.
  assert (length full = S (length m)) as Hfull by done.
  apply wlp_load; [rewrite length_app; lia|].
  replace (Z.to_nat (Z.of_nat (length m) + 1 - 4)) with (length full - 4)%nat by lia.
  replace (Z.of_nat (length m) + 1 - 4) with (Z.of_nat (length full - 4)) by lia.
  rewrite drop_app_le, take_app_le by (rewrite ?length_drop; lia).
  rewrite (take_ge (drop _ full)) by (rewrite length_drop; lia).
  assert (libnvme_mi_mctp_resp_is_mpr (full ++ r) (Z.of_nat (length full - 4))
    (le (drop (length full - 4) full)) = mpr_of full) as ->.
  { unfold mpr_of. cbv zeta. rewrite <- (take_drop (length full - 4) full) at 1. rewrite <- app_assoc.
    set (body := take _ full). assert (length full - 4 = length body)%nat as ->
      by (unfold body; rewrite length_take; lia). apply is_mpr_prefix. }
  destruct (mpr_of full) eqn:Hmpr.
  { wstep. split_and!; cbn; auto with nvme. rewrite length_app, Hl. done. }
  wstep. apply wlp_unpack; [done|cbn; rewrite length_app; lia|lia|].
  intros r' Hok' Hmic Hhl Hdl Hh Hd Hgot. wstep.
  rewrite Nat2Z.id, take_app_le in Hgot by lia.
  pose proof (ok_hdr _ Hok). pose proof (ok_data _ Hok).
  split_and!; cbn; auto with nvme.
  - rewrite length_app, Hl. done.
  - split; [done|lia..|done|done].
  - rewrite Hhl. lia.
  - eexists. split; [|split; [exact Hmic|]].
    + rewrite length_drop. lia.
    + rewrite app_assoc, Hgot. symmetry. apply take_drop.
Qed.

Definition retry_post (resp : libnvme_mi_resp) (room : Z) (s : state)
    (o : option libnvme_mi_resp) (s' : state) : Prop :=
  same_ep (ep s) (ep s') ∧ length (resp_buf (ep s')) = length (resp_buf (ep s)) ∧
  (∃ mid, trace s' = trace s ++ mid ∧ Forall waiting mid) ∧
  match o with None => True | Some r => unpacked resp r ∧ received room r (trace s') end.

Lemma retry_post_more resp room s s1 o s' mid :
  same_ep (ep s) (ep s1) → length (resp_buf (ep s1)) = length (resp_buf (ep s)) →
  trace s1 = trace s ++ mid → Forall waiting mid →
  retry_post resp room s1 o s' → retry_post resp room s o s'.
Proof.
  intros He Hl Ht Hw (He' & Hl' & (mid' & Ht' & Hw') & Ho). split_and!; [| |exists (mid ++ mid')|done].
  - by eapply same_ep_trans.
  - congruence.
  - rewrite Ht', Ht, <- app_assoc. split; [done|]. by apply Forall_app.
Qed.

Lemma wlp_mctp_retry fuel resp tmo s :
  resp_ok resp →
  let resp_len := r_hdr_len resp + r_data_len resp + 4 in
  resp_len ≤ Z.of_nat (length (resp_buf (ep s))) →
  wlp (mctp_retry E fuel resp resp_len tmo) (retry_post resp (resp_len - 1) s) s.
Proof.
  intros Hok. pose proof (ok_hdr _ Hok). pose proof (ok_data _ Hok). cbn zeta.
  set (resp_len := r_hdr_len resp + r_data_len resp + 4).
  revert tmo s. induction fuel as [|fuel IH]; intros tmo s Hlen; [done|]. cbn [mctp_retry].
  repeat wstep. destruct (poll E _) as [e|n].
  { destruct (bool_decide _).
    - eapply wlp_mono; [by apply IH|]. intros o s'. eapply (retry_post_more _ _ _ _ _ _ [EvPoll tmo]);
        cbn; auto with nvme. by repeat constructor.
    - repeat wstep. split_and!; cbn; auto with nvme. exists [EvPoll tmo]. split; [done|]. by repeat constructor. }
  destruct (n =? 0).
  { wstep. split_and!; cbn; auto with nvme. exists [EvPoll tmo]. split; [done|]. by repeat constructor. }
  wstep. apply wlp_receive; [cbn; lia|]. cbn zeta. cbn [ep trace last_errno].
  set (room := resp_len - 1) in *.
  assert (Forall waiting [EvPoll tmo; EvRecv room]) as Hwait by by repeat constructor.
  split.
  { intros e. wstep. split_and!; cbn; auto with nvme. rewrite <- app_assoc. eauto. }
  intros m Hm. set (m' := take (Z.to_nat room) m).
  assert (length m' ≤ Z.to_nat room)%nat as Hm' by (unfold m'; rewrite length_take; lia).
  wstep. eapply wlp_mono; [apply (wlp_mctp_message _ (resp_buf (ep s))); [done|lia..|done]|].
  intros o s1 (He & Hl & Ht & Ho). cbn in He, Hl, Ht.
  rewrite buf_write_length in Hl by lia. rewrite <- app_assoc in Ht.
  assert (same_ep (ep s) (ep s1)) as He1 by (eapply same_ep_trans; [apply same_ep_set|done]).
  destruct o as [[t|r]|].
  - repeat wstep. eapply wlp_mono; [apply IH; lia|]. intros o s'.
    eapply (retry_post_more _ _ _ _ _ _ [EvPoll tmo; EvRecv room]); done.
  - wstep. destruct Ho as (Hu & _ & _ & mic & Hmic & Hle & Hfull).
    split_and!; [done|done|eauto|done|].
    exists (trace s ++ [EvPoll tmo]), m, mic. rewrite Ht, <- app_assoc. split_and!; try done.
    by rewrite <- app_assoc in Hm.
  - wstep. split_and!; [done|done|eauto|done].
Qed.

Context (polls : nat).

(** The request on the wire. *)
Definition wire (req : libnvme_mi_req) : list Z := drop 1 (q_hdr req) ++ q_data req ++ to_le 4 (q_mic req).

(** The tag a request gets after the calls [t], and what releases it. *)
Definition tag_after (t : list event) : Z :=
  match ioctl_tag E (t ++ [EvTagAlloc]) with inl _ => MCTP_TAG_OWNER | inr tag => tag end.
Definition drop_tag (tag : Z) : list event :=
  if Z.land tag MCTP_TAG_PREALLOC =? 0 then [] else [EvTagDrop tag].

Definition exchange_post (req : libnvme_mi_req) (resp : libnvme_mi_resp) (s : state)
    (o : option libnvme_mi_resp) (s' : state) : Prop :=
  same_ep (ep s) (ep s') ∧
  let tag := tag_after (trace s) in
  ∃ mid, Forall waiting mid ∧
    let t := trace s ++ [EvTagAlloc; EvSend tag (wire req)] ++ mid in
    trace s' = t ++ drop_tag tag ∧
    match o with
    | None => True
    | Some r => unpacked resp r ∧ received (r_hdr_len resp + r_data_len resp + 3) r t
    end.

Lemma wlp_tag_drop tag s (Q : unit → state → Prop) :
  Q tt {| ep := ep s; trace := trace s ++ drop_tag tag; last_errno := last_errno s |} →
  wlp (libnvme_mi_mctp_tag_drop tag) Q s.
Proof.
  unfold libnvme_mi_mctp_tag_drop, drop_tag. destruct (_ =? 0); intros HQ; wstep; [|done].
  rewrite app_nil_r in HQ. by destruct s.
Qed.

Lemma wlp_grow_resp_buf n s (Q : bool → state → Prop) :
  (∀ s', same_ep (ep s) (ep s') → (∃ mid, trace s' = trace s ++ mid ∧ Forall waiting mid) →
     Q false s') →
  (∀ s', same_ep (ep s) (ep s') → (∃ mid, trace s' = trace s ++ mid ∧ Forall waiting mid) →
     n ≤ Z.of_nat (length (resp_buf (ep s'))) → Q true s') →
  wlp (grow_resp_buf E n) Q s.
Proof.
  intros Hno Hyes. unfold grow_resp_buf. repeat wstep.
  destruct (Z.leb_spec n (Z.of_nat (length (resp_buf (ep s))))).
  { wstep. apply Hyes; auto with nvme. exists []. split; [by rewrite app_nil_r|constructor]. }
  assert (Forall waiting [EvRealloc n]) as Hw by by repeat constructor.
  repeat wstep. destruct (realloc E _) as [tl|].
  - repeat wstep. apply Hyes; cbn; eauto with nvme. rewrite length_resize. lia.
  - wstep. apply Hno; cbn; eauto with nvme.
Qed.

Lemma wlp_mctp_submit req resp s :
  resp_ok resp → 8 ≤ r_hdr_len resp →
  wlp (libnvme_mi_mctp_submit E polls req resp) (exchange_post req resp s) s.
Proof.
  intros Hok Hmin. unfold libnvme_mi_mctp_submit, sizeof_msg_resp.
  destruct (Z.ltb_spec (r_hdr_len resp) 8) as [?|_]; [lia|].
  wstep. apply (wlp_mono _ (λ tag s', tag = tag_after (trace s) ∧
    s' = {| ep := ep s; trace := trace s ++ [EvTagAlloc]; last_errno := last_errno s |})).
  { unfold libnvme_mi_mctp_tag_alloc, tag_after. repeat wstep. by destruct (ioctl_tag E _); wstep. }
  intros tag s1 [-> ->]. set (tag := tag_after (trace s)). fold (wire req).
  wstep. wstep. cbn [ep trace last_errno]. rewrite <- app_assoc. cbn [app].
  set (s2 := {| ep := ep s; trace := _; last_errno := _ |}).
  wstep. eapply (wlp_mono _ (λ o s', same_ep (ep s) (ep s') ∧
    (∃ mid, trace s' = trace s2 ++ mid ∧ Forall waiting mid) ∧
    match o with None => True | Some r => unpacked resp r ∧
      received (r_hdr_len resp + r_data_len resp + 3) r (trace s') end)).
  - assert (∃ mid, trace s2 = trace s2 ++ mid ∧ Forall waiting mid) as Hnil
      by (exists []; split; [by rewrite app_nil_r|constructor]).
    destruct (sendmsg E _) as [e|]; [wstep; cbn; auto with nvme|].
    wstep. apply wlp_grow_resp_buf; intros s3 He [mid3 [Ht3 Hw3]].
    { cbn [negb]. wstep. cbn. split_and!; eauto. }
    intros Hroom. cbn [negb]. repeat wstep.
    eapply wlp_mono; [by apply wlp_mctp_retry|]. intros o s4 (He4 & _ & (mid4 & Ht4 & Hw4) & Ho).
    split_and!; [by eapply same_ep_trans| |].
    + exists (mid3 ++ mid4). rewrite Ht4, Ht3, <- app_assoc. split; [done|]. by apply Forall_app.
    + destruct o as [r|]; [|done]. replace (_ + 3) with (r_hdr_len resp + r_data_len resp + 4 - 1) by lia. done.
  - intros o s3 (He & (mid & Ht & Hw) & Ho). wstep. apply wlp_tag_drop. wstep.
    split; [done|]. exists mid. cbn [ep trace]. cbn zeta. fold tag.
    assert (trace s3 = trace s ++ [EvTagAlloc; EvSend tag (wire req)] ++ mid) as Ht'
      by (rewrite Ht; cbn; by rewrite <- app_assoc).
    rewrite <- Ht'. by split_and!.
Qed.

(** *** The message layer *)

(** What a command leaves as it was. *)
Definition kept (e e' : libnvme_mi_ep) : Prop :=
  timeout e' = timeout e ∧ mprt_max e' = mprt_max e ∧ ep_csi e' = ep_csi e ∧
  controllers e' = controllers e ∧ controllers_scanned e' = controllers_scanned e.

Lemma kept_refl e : kept e e.
Proof. done. Qed.
Lemma kept_trans e1 e2 e3 : kept e1 e2 → kept e2 e3 → kept e1 e3.
Proof. unfold kept. intuition congruence. Qed.
Lemma same_ep_kept e e' : same_ep e e' → kept e e'.
Proof. by intros [b ->]. Qed.

(** The endpoint keeps its settings, and calls were only added. *)
Definition calm (s s' : state) : Prop := kept (ep s) (ep s') ∧ trace s `prefix_of` trace s'.

Lemma calm_refl s : calm s s.
Proof. by split. Qed.
Lemma calm_trans s1 s2 s3 : calm s1 s2 → calm s2 s3 → calm s1 s3.
Proof. intros [] []. split; [by eapply kept_trans|by etransitivity]. Qed.
Lemma calm_call s e : calm s {| ep := ep s; trace := trace s ++ [e]; last_errno := last_errno s |}.
Proof. split; [done|]. by exists [e]. Qed.

Definition same_objects (resp r : libnvme_mi_resp) : Prop :=
  resp_ok r ∧ length (r_hdr r) = length (r_hdr resp) ∧ length (r_data r) = length (r_data resp).

Definition safe_submit (sub : libnvme_mi_req → libnvme_mi_resp → state → run state (ret * libnvme_mi_resp)) : Prop :=
  ∀ req resp s, resp_ok resp →
    wlp (sub req resp) (λ x s', calm s s' ∧ same_objects resp x.2) s.

(** A step that keeps the settings of the endpoint. *)
Lemma wlp_calm_bind {A B} (m : state → run state A) (f : A → state → run state B) Q s0 s :
  calm s0 s → wlp m (λ _ s', calm s s') s → (∀ a s', calm s0 s' → wlp (f a) Q s') → wlp (bind m f) Q s.
Proof. intros H0 Hm Hf. eapply wlp_bind; [exact Hm|]. intros a s' Hs. apply Hf. by eapply calm_trans. Qed.

Lemma wlp_record_resp_time s : wlp (libnvme_mi_record_resp_time E) (λ _ s', calm s s') s.
Proof.
  unfold libnvme_mi_record_resp_time. repeat wstep.
  destruct (clock_gettime E _); wstep; (split; [done|]; by exists [EvClock]).
Qed.

Lemma wlp_insert_delay s : wlp (libnvme_mi_insert_delay E) (λ _ s', calm s s') s.
Proof.
  unfold libnvme_mi_insert_delay. repeat wstep. destruct (negb _); [wstep; apply calm_refl|]. cbn zeta.
  repeat wstep. destruct (clock_gettime E _); [destruct (timespec_ge _ _)|]; wstep; (try apply calm_call).
  eapply calm_trans; apply calm_call.
Qed.

Lemma wlp_when (b : bool) (m : state → run state unit) s :
  wlp m (λ _ s', calm s s') s → wlp (if b then m else ret_ tt) (λ _ s', calm s s') s.
Proof. destruct b; [done|]. intros _. apply calm_refl. Qed.

(** The memory of the caller is as large as the command says. *)
Definition buffer_ok (cmd : passthru) (buf : list Z) : Prop :=
  0 ≤ data_len cmd ∧ (addr cmd ≠ 0 → data_len cmd ≤ Z.of_nat (length buf)).

Lemma wlp_uninit n s (Q : list Z → state → Prop) :
  (∀ l, length l = n → Q l s) → wlp (uninit E n) Q s.
Proof. intros H. unfold uninit. wstep. apply H. by rewrite length_fmap, length_seq. Qed.

Lemma wlp_passthru_safe sub id cmd buf s :
  safe_submit sub → buffer_ok cmd buf →
  wlp (libnvme_mi_admin_admin_passthru E sub id cmd buf)
    (λ x s', calm s s' ∧ length x.2 = length buf) s.
Proof.
  intros Hsub [Hd Hbuf]. unfold libnvme_mi_admin_admin_passthru.
  destruct (_ =? NVME_DATA_TFR_BIDIRECTIONAL); [wstep; by split; [apply calm_refl|]|].
  destruct (4096 <? data_len cmd); [wstep; by split; [apply calm_refl|]|].
  assert (has_data cmd = true → data_len cmd ≤ Z.of_nat (length buf)) as Hhas.
  { unfold has_data. intros H. apply Hbuf. by destruct (Z.eqb_spec (addr cmd) 0). }
  do 3 wstep. apply (wlp_mono _ (λ _ s', s' = s)).
  { destruct (has_write_data cmd) eqn:Eh; [|by wstep]. apply andb_true_iff in Eh as [Eh _].
    apply wlp_load; [|done]. specialize (Hhas Eh). lia. }
  intros wd s' ->. wstep. apply wlp_uninit. intros junk Hj.
  assert (resp_ok (passthru_resp cmd junk buf)) as Hok.
  { unfold passthru_resp, sizeof_admin_resp_hdr. split; cbn; [lia|].
    destruct (has_read_data cmd) eqn:Eh; cbn; [|lia]. apply andb_true_iff in Eh as [Eh _].
    specialize (Hhas Eh). lia. }
  repeat wstep.
  apply (wlp_mono _ (λ _ s1, s1 = s ∨ s1 = set_ep (set_timeout (ep s) (timeout_ms cmd)) s ∧ timeout_ms cmd ≠ 0)).
  { destruct (Z.eqb_spec (timeout_ms cmd) 0); wstep; auto. }
  intros [] s1 Hs1. wstep. eapply wlp_mono; [by apply Hsub|].
  intros [rc r] s2 [Hc Hobj]. cbn [snd] in Hobj.
  wstep. apply (wlp_mono _ (λ _ s3, calm s s3)).
  { destruct (Z.eqb_spec (timeout_ms cmd) 0); wstep.
    - destruct Hs1 as [-> | [_ Hs1]]; done.
    - destruct Hc as [(? & ? & ? & ? & ?) ?].
      destruct Hs1 as [-> | [-> _]]; cbn in *; (split; [repeat split; done|done]). }
  intros [] s3 Hs3.
  assert (length (if has_read_data cmd then r_data r else buf) = length buf) as Hlen.
  { destruct Hobj as (_ & _ & Hl). cbn in Hl. by destruct (has_read_data cmd). }
  destruct (negb (is_success rc)); [by wstep|].
  destruct (libnvme_mi_admin_parse_status r) as [rc' res].
  destruct (negb (is_success rc')); [by wstep|].
  match goal with |- wlp (if ?b then _ else _) _ _ => destruct b end; by wstep.
Qed.

Lemma wlp_probe_quirks id s : wlp (probe_quirks E id) (λ _ s', calm s s') s.
Proof.
  unfold probe_quirks. eapply (wlp_calm_bind _ _ _ s); [apply calm_refl| |].
  - destruct (libnvme_mi_compare_vid_mn _ _ _); wstep; [|apply calm_refl]. by split.
  - intros _ s1 H1. eapply wlp_calm_bind; [exact H1|wstep; apply calm_refl|]. intros q s2 H2.
    eapply wlp_mono; [apply wlp_when, wlp_record_resp_time|]. intros ? s3 H3. by eapply calm_trans.
Qed.

(** The probe's command goes to a handle of its own, which is gone after it. *)
Lemma wlp_ep_probe sub s :
  safe_submit sub → wlp (libnvme_mi_ep_probe E sub) (λ _ s', calm s s') s.
Proof.
  intros Hsub. unfold libnvme_mi_ep_probe. repeat wstep.
  destruct (quirks_probed (ep s)); [wstep; apply calm_refl|]. repeat wstep.
  destruct (negb _); [by wstep; split|]. unfold libnvme_mi_init_transport_handle. repeat wstep.
  match goal with |- wlp (if ?b then _ else _) _ _ => destruct b end; repeat wstep; cbn [negb];
    [|wstep; split; [done|]; by exists [EvHandle]].
  wstep. eapply wlp_mono; [apply wlp_passthru_safe; [done|]|].
  { split; [done|]. intros _. rewrite length_replicate. by vm_compute. }
  intros [[rc cmd'] id] s1 [Hc _]. wstep.
  apply (wlp_mono _ (λ _ s2, calm s1 s2)).
  { apply wlp_when, wlp_probe_quirks. }
  intros [] s2 H2. unfold close_last. wstep. pose proof (calm_trans _ _ _ Hc H2) as [(Ht & Hm & Hcs & Hl & Hsc) Htr].
  cbn in Ht, Hm, Hcs, Hl, Hsc, Htr. split; cbn.
  - repeat split; cbn; try done. rewrite Hl. apply removelast_last.
  - etransitivity; [|exact Htr]. by exists [EvHandle].
Qed.

(** A response that came in after the request, is intact, and answers the
    slot of the request. *)
Definition authentic (req : libnvme_mi_req) (resp r : libnvme_mi_resp) (t0 t : list event) : Prop :=
  ∃ t1 tag mid t2 m,
    t0 `prefix_of` t1 ∧ Forall waiting mid ∧
    let asked := t1 ++ [EvSend tag (wire (libnvme_mi_calc_req_mic req))] ++ mid in
    t = asked ++ t2 ∧ recvmsg E asked = inr m ∧
    MiCrc.framed (got_hdr r ++ got_data r)
      (take (Z.to_nat (r_hdr_len resp + r_data_len resp + 3)) m) ∧
    8 ≤ Z.of_nat (length (got_hdr r)) ≤ r_hdr_len resp ∧
    Z.of_nat (length (got_data r)) ≤ r_data_len resp ∧
    Z.testbit (char_at (got_hdr r) 1) 7 = true ∧
    Z.testbit (char_at (got_hdr r) 1) 0 = Z.testbit (char_at (q_hdr req) 1) 0.

Lemma char_at_take l n i : (i < n)%nat → char_at (take n l) i = char_at l i.
Proof. intros H. unfold char_at. by rewrite lookup_take_lt. Qed.

Lemma land_bit z i : 0 ≤ i → (Z.land z (Z.shiftl 1 i) =? 0) = negb (Z.testbit z i).
Proof.
  intros Hi. destruct (Z.testbit z i) eqn:Hb; cbn [negb].
  - apply Z.eqb_neq. intros H. apply (f_equal (λ x, Z.testbit x i)) in H.
    rewrite Z.land_spec, Hb, Z.shiftl_spec, Z.sub_diag, Z.bits_0 in H by lia. done.
  - apply Z.eqb_eq, Z.bits_inj'. intros j Hj. rewrite Z.land_spec, Z.shiftl_spec, Z.bits_0 by lia.
    destruct (decide (j = i)) as [->|]; [by rewrite Hb|].
    replace (Z.testbit 1 (j - i)) with false; [apply andb_false_r|].
    destruct (Z.ltb_spec (j - i) 0); [by rewrite Z.testbit_neg_r|].
    symmetry. apply (Z.bits_above_log2 1); cbn; lia.
Qed.

(** The checks of [libnvme_mi_submit]. *)
Lemma check_resp_spec req r :
  check_resp req r = Success → 8 ≤ r_hdr_len r →
  Z.testbit (char_at (got_hdr r) 1) 7 = true ∧
  Z.testbit (char_at (got_hdr r) 1) 0 = Z.testbit (char_at (q_hdr req) 1) 0.
Proof.
  unfold check_resp. intros Hc Hl. unfold got_hdr. rewrite char_at_take by lia.
  change NVME_MI_ROR_RSP with 1 in Hc. rewrite land_bit in Hc by lia.
  repeat case_match; try done. split; [by apply negb_false_iff|].
  assert (∀ z, Z.land z 1 = Z.b2z (Z.testbit z 0)) as Hl1.
  { intros z. change 1 with (Z.ones 1). rewrite Z.land_ones by lia. change (2 ^ 1) with 2.
    by rewrite <- Z.bit0_mod. }
  match goal with H : negb (Z.eqb _ _) = false |- _ => apply negb_false_iff, Z.eqb_eq in H; rewrite !Hl1 in H end.
  by apply Z.b2z_inj.
Qed.

Hypothesis Hbytes : delivers_bytes.

(** The MIC that was received is that of the body. *)
Lemma verified_framed room r t :
  received room r t → libnvme_mi_verify_resp_mic r = false →
  ∃ m, recvmsg E t = inr m ∧ MiCrc.framed (got_hdr r ++ got_data r) (take (Z.to_nat room) m).
Proof using Hbytes.
  intros (t' & m & mic & _ & Hm & Hl & Hmic & Hall) Hv. exists m. split; [done|].
  rewrite verify_resp_mic_spec in Hv. apply negb_false_iff, Z.eqb_eq in Hv.
  unfold MiCrc.framed. rewrite <- Hv, Hmic, <- app_assoc, Hall. do 2 f_equal.
  rewrite <- Hl. symmetry. apply to_le_le.
  assert (bytes (NVME_MI_MSGTYPE_NVME :: take (Z.to_nat room) m)) as Hb.
  { constructor; [done|]. apply bytes_take. by eapply Hbytes. }
  rewrite Hall, !bytes_app in Hb. tauto.
Qed.

Lemma mctp_submit_short req resp s :
  r_hdr_len resp < 8 →
  libnvme_mi_mctp_submit E polls req resp s =
  Ret None {| ep := ep s; trace := trace s; last_errno := EINVAL |}.
Proof.
  intros H. unfold libnvme_mi_mctp_submit, sizeof_msg_resp.
  by destruct (Z.ltb_spec (r_hdr_len resp) 8); [|lia].
Qed.

(** What [libnvme_mi_submit] gets from the transport. *)
Definition transport_post (req : libnvme_mi_req) (resp : libnvme_mi_resp) (s : state)
    (o : option libnvme_mi_resp) (s' : state) : Prop :=
  calm s s' ∧
  match o with
  | None => True
  | Some r =>
      same_objects resp r ∧
      (libnvme_mi_verify_resp_mic r = false → check_resp req r = Success →
       authentic req resp r (trace s) (trace s'))
  end.

Lemma wlp_transport req resp s :
  resp_ok resp →
  wlp (libnvme_mi_mctp_submit E polls (libnvme_mi_calc_req_mic req) resp) (transport_post req resp s) s.
Proof using Hbytes.
  intros Hok. destruct (Z.ltb_spec (r_hdr_len resp) 8) as [Hs|Hs].
  { unfold wlp. rewrite mctp_submit_short by done. split; [|done]. by split. }
  eapply wlp_mono; [by apply wlp_mctp_submit|]. intros o s' (He & mid & Hw & Ht & Ho). split.
  { split; [by apply same_ep_kept|]. rewrite Ht, <- app_assoc. by eexists. }
  destruct o as [r|]; [|done]. destruct Ho as [Hu Hr].
  split; [split_and!; [apply Hu|apply Hu|by apply u_data_size]|]. intros Hv Hc.
  destruct (verified_framed _ _ _ Hr Hv) as (m & Hm & Hf).
  pose proof (u_ok _ _ Hu) as [Hh Hd]. pose proof (u_min _ _ Hu Hs) as Hmin.
  pose proof (u_hdr _ _ Hu). pose proof (u_data _ _ Hu).
  destruct (check_resp_spec _ _ Hc Hmin) as [Hror Hslot].
  exists (trace s ++ [EvTagAlloc]), (tag_after (trace s)), mid, (drop_tag (tag_after (trace s))), m.
  rewrite <- !app_assoc. cbn [app]. cbn [app] in Ht, Hm.
  assert (length (got_hdr r) = Z.to_nat (r_hdr_len r)) as -> by (unfold got_hdr; rewrite length_take; lia).
  assert (length (got_data r) = Z.to_nat (r_data_len r)) as -> by (unfold got_data; rewrite length_take; lia).
  split_and!; try done; try lia. by eexists.
Qed.

Definition submit_post (req : libnvme_mi_req) (resp : libnvme_mi_resp) (s : state)
    (x : ret * libnvme_mi_resp) (s' : state) : Prop :=
  calm s s' ∧ same_objects resp x.2 ∧
  (x.1 = Success → authentic req resp x.2 (trace s) (trace s')).

Lemma authentic_mono req resp r t0 t0' t t' :
  t0' `prefix_of` t0 → t `prefix_of` t' → authentic req resp r t0 t → authentic req resp r t0' t'.
Proof.
  intros H0 [k ->] (t1 & tag & mid & t2 & m & Hp & Hw & Ht & Hrest).
  exists t1, tag, mid, (t2 ++ k), m. split; [by etransitivity|]. split; [done|].
  cbv zeta in *. rewrite Ht, <- !app_assoc. done.
Qed.

Lemma wlp_submit depth req resp s :
  resp_ok resp → wlp (libnvme_mi_submit E polls depth req resp) (submit_post req resp s) s.
Proof using Hbytes.
  revert req resp s. induction depth as [|depth IH]; intros req resp s Hok; [done|].
  assert (∀ e s', calm s s' → submit_post req resp s (Errno e, resp) s') as Herr.
  { intros e s' Hc. split; [done|]. by split. }
  cbn [libnvme_mi_submit]. cbn zeta.
  do 4 (match goal with |- wlp (if ?b then _ else _) _ _ => destruct b end;
    [wstep; apply Herr, calm_refl|]).
  eapply (wlp_calm_bind _ _ _ s); [apply calm_refl|wstep; apply calm_call|]. intros _ s1 H1.
  eapply wlp_calm_bind; [exact H1|apply wlp_ep_probe|].
  { intros req' resp' s' Hok'. eapply wlp_mono; [by apply IH|]. by intros x s'' (? & ? & _). }
  intros _ s2 H2. eapply wlp_calm_bind; [exact H2|wstep; apply calm_refl|]. intros q s3 H3.
  eapply wlp_calm_bind; [exact H3|apply wlp_when, wlp_insert_delay|]. intros _ s4 H4.
  wstep. eapply wlp_mono; [by apply wlp_transport|]. intros o s5 [H5 Ho].
  pose proof (calm_trans _ _ _ H4 H5) as H05.
  do 2 wstep.
  eapply wlp_bind; [apply wlp_when, wlp_record_resp_time|]. intros ? s6 H6.
  pose proof (calm_trans _ _ _ H05 H6) as H06.
  destruct o as [r|]; [|wstep; by apply Herr]. destruct Ho as [Hobj Hauth].
  destruct (libnvme_mi_verify_resp_mic r); [wstep; by split|].
  change (check_resp (libnvme_mi_calc_req_mic req) r) with (check_resp req r).
  destruct (check_resp req r); [|wstep; by split..].
  repeat wstep. split_and!; [eapply calm_trans; [done|apply calm_call]|done|]. intros _.
  eapply authentic_mono; [apply H4| |by apply Hauth].
  etransitivity; [apply H6|]. by eexists.
Qed.
End Exchange.

(** ** An endpoint that answers *)

(** One MPR message asking for [x] milliseconds, without its type byte. *)
Definition mpr_message (x : Z) (m : list Z) : Prop :=
  ∃ body, MiCrc.framed body m ∧ bytes body ∧ char_at body 4 = NVME_MI_RESP_MPR ∧
    x = 100 * le (take 2 (drop 6 body)) ∧
    (length body = 8%nat ∨
     length body = 20%nat ∧ Z.land (Z.shiftr (char_at body 1) 3) 0x0f = NVME_MI_MT_ADMIN).

Lemma framed_split body m :
  MiCrc.framed body m →
  let full := NVME_MI_MSGTYPE_NVME :: m in
  let n := (length full - 4)%nat in
  n = length body ∧ take n full = body ∧ drop n full = to_le 4 (MiCrc.crc32c body).
Proof.
  intros ->. cbn zeta. rewrite length_app, to_le_length. replace (_ + 4 - 4)%nat with (length body) by lia.
  by rewrite take_app_length, drop_app_length.
Qed.

Lemma mpr_of_mpr x m : mpr_message x m → mpr_of (NVME_MI_MSGTYPE_NVME :: m) = Some x.
Proof.
  intros (body & Hf & Hb & Hst & -> & Hlen). unfold mpr_of. destruct (framed_split _ _ Hf) as (-> & -> & ->).
  unfold libnvme_mi_mctp_resp_is_mpr. rewrite le_to_le by by apply crc32c_word.
  rewrite Nat2Z.id, firstn_all, crc32_update_foldl. fold (MiCrc.crc32c body). rewrite Z.eqb_refl, Hst.
  cbn [negb Z.eqb]. destruct (Z.ltb_spec (Z.of_nat (length body)) 8) as [?|_]; [lia|].
  destruct Hlen as [-> | [-> ->]]; cbn; f_equal; lia.
Qed.

Lemma mpr_of_other body m :
  MiCrc.framed body m → char_at body 4 ≠ NVME_MI_RESP_MPR → mpr_of (NVME_MI_MSGTYPE_NVME :: m) = None.
Proof.
  intros Hf Hst. unfold mpr_of. destruct (framed_split _ _ Hf) as (-> & -> & ->).
  unfold libnvme_mi_mctp_resp_is_mpr. destruct (_ <? 8); [done|].
  by destruct (Z.eqb_spec (char_at body 4) NVME_MI_RESP_MPR).
Qed.

Section Answers.
Context (E : env).

(** From the calls [t] on, waiting [tmo]: after [n] interruptions and
    requests for more time the message [m] comes in, and the calls are [t'].
    [e] is the endpoint. *)
Inductive answers (room : Z) (e : libnvme_mi_ep) : list event → Z → nat → list Z → list event → Prop :=
| ans_final t tmo k m :
    poll E (t ++ [EvPoll tmo]) = inr k → k ≠ 0 →
    recvmsg E (t ++ [EvPoll tmo; EvRecv room]) = inr m →
    answers room e t tmo 0 m (t ++ [EvPoll tmo; EvRecv room])
| ans_intr t tmo n m t' :
    poll E (t ++ [EvPoll tmo]) = inl EINTR →
    answers room e (t ++ [EvPoll tmo]) tmo n m t' →
    answers room e t tmo (S n) m t'
| ans_mpr t tmo k x w n m t' :
    poll E (t ++ [EvPoll tmo]) = inr k → k ≠ 0 →
    recvmsg E (t ++ [EvPoll tmo; EvRecv room]) = inr w → mpr_message x w → Z.of_nat (length w) ≤ room →
    answers room e (t ++ [EvPoll tmo; EvRecv room]) (mpr_timeout e x) n m t' →
    answers room e t tmo (S n) m t'.

Ltac live :=
  repeat first [ apply live_load | apply live_store | apply live_bind; intros | by intros ? | case_match ].

Lemma live_unpack b resp len mic : live (unpack b resp len mic).
Proof. unfold unpack. live. Qed.

Lemma live_message resp len : live (mctp_message resp len).
Proof. unfold mctp_message, unpack, fail, set_errno, get_ep, upd_ep. live. Qed.

Lemma message_total resp b m s :
  resp_ok resp → (S (length m) ≤ length b)%nat →
  Z.of_nat (length m) ≤ r_hdr_len resp + r_data_len resp + 3 →
  resp_buf (ep s) = buf_write b 1 m →
  ∃ o s', mctp_message resp (Z.of_nat (length m)) s = Ret o s' ∧ message_post resp m s o s'.
Proof. intros. eapply wlp_live; [apply live_message|]. by eapply wlp_mctp_message. Qed.

Lemma mpr_timeout_same e e' x : same_ep e e' → mpr_timeout e' x = mpr_timeout e x.
Proof. by intros [b ->]. Qed.

(** The part of a wait that brings a message in. *)
Lemma retry_receives fuel resp room tmo k m s :
  poll E (trace s ++ [EvPoll tmo]) = inr k → k ≠ 0 →
  recvmsg E (trace s ++ [EvPoll tmo; EvRecv room]) = inr m →
  Z.of_nat (length m) ≤ room < Z.of_nat (length (resp_buf (ep s))) →
  let s1 := {| ep := set_resp_buf (ep s) (buf_write (resp_buf (ep s)) 1 m);
               trace := trace s ++ [EvPoll tmo; EvRecv room]; last_errno := last_errno s |} in
  mctp_retry E (S fuel) resp (room + 1) tmo s =
  bind (mctp_message resp (Z.of_nat (length m)))
    (λ x, match x with
          | None => ret_ None
          | Some (inr r) => ret_ (Some r)
          | Some (inl mpr_time) =>
              bind (get_ep (λ e, mpr_timeout e mpr_time)) (mctp_retry E fuel resp (room + 1))
          end) s1.
Proof.
  intros Hp Hk Hr Hlen. cbn [mctp_retry]. unfold bind at 1, call at 1. cbn zeta. rewrite Hp.
  rewrite (proj2 (Z.eqb_neq k 0)) by done.
  unfold receive. unfold bind at 1 2, call at 1. cbn zeta. cbn [trace ep last_errno].
  rewrite <- app_assoc. cbn [app]. replace (room + 1 - 1) with room by lia. rewrite Hr.
  rewrite take_ge by lia. unfold bind at 1, get_ep at 1, get at 1. cbn [ep].
  by rewrite (proj2 (Nat.leb_le _ _)) by lia.
Qed.

Definition reply_post (resp : libnvme_mi_resp) (m : list Z) (t' : list event) (s : state)
    (o : option libnvme_mi_resp) (s' : state) : Prop :=
  same_ep (ep s) (ep s') ∧ trace s' = t' ∧
  ∃ r mic, o = Some r ∧ unpacked resp r ∧
    r_hdr_len r = Z.min (Z.of_nat (length m) - 3) (r_hdr_len resp) ∧
    length mic = 4%nat ∧ r_mic r = le mic ∧ NVME_MI_MSGTYPE_NVME :: m = got_hdr r ++ got_data r ++ mic.

Lemma retry_answers resp e t tmo n m t' fuel s :
  let room := r_hdr_len resp + r_data_len resp + 3 in
  answers room e t tmo n m t' →
  (n < fuel)%nat → resp_ok resp → trace s = t → same_ep e (ep s) →
  room < Z.of_nat (length (resp_buf (ep s))) →
  (11 ≤ length m)%nat → Z.of_nat (length m) ≤ room → mpr_of (NVME_MI_MSGTYPE_NVME :: m) = None →
  ∃ o s', mctp_retry E fuel resp (room + 1) tmo s = Ret o s' ∧ reply_post resp m t' s o s'.
Proof.
  cbn zeta. set (room := r_hdr_len resp + r_data_len resp + 3). intros Ha.
  revert fuel s. induction Ha as [t tmo k m Hp Hk Hr|t tmo n m t' Hp Ha IH|t tmo k x w n m t' Hp Hk Hr Hx Hwl Ha IH];
    intros fuel s Hfuel Hok Ht He Hb Hm1 Hm2 Hmpr; (destruct fuel as [|fuel]; [lia|]); subst t.
  - rewrite (retry_receives _ _ _ _ k m) by done. cbv zeta.
    set (s1 := {| ep := _; trace := _; last_errno := _ |}).
    destruct (message_total resp (resp_buf (ep s)) m s1) as (o & s' & Hs' & (He' & _ & Ht' & Ho)); [done|lia|lia|done|].
    unfold bind. rewrite Hs'. destruct o as [[x|r]|]; [congruence| |lia].
    destruct Ho as (Hu & _ & Hhl & mic & Hl & Hmic & Hall). eexists _, _. split; [done|].
    split_and!; [eapply same_ep_trans; [apply same_ep_set|exact He']|by rewrite Ht'|eauto 10].
  - cbn [mctp_retry]. unfold bind at 1, call at 1. cbn zeta. rewrite Hp.
    rewrite bool_decide_eq_true_2 by done.
    set (s1 := {| ep := _; trace := _; last_errno := _ |}).
    destruct (IH fuel s1) as (o & s' & Heq & Hpost); [lia|done..|]. by exists o, s'.
  - rewrite (retry_receives _ _ _ _ k w) by (done || lia). cbv zeta.
    set (s1 := {| ep := _; trace := _; last_errno := _ |}).
    destruct (message_total resp (resp_buf (ep s)) w s1) as (o & s' & Hs' & (He' & Hl' & Ht' & Ho)); [done|lia|lia|done|].
    pose proof (mpr_of_mpr _ _ Hx) as Hx'. unfold bind at 1. rewrite Hs'.
    destruct o as [[y|r]|].
    + assert (y = x) as -> by congruence. unfold bind, get_ep, get.
      assert (same_ep (ep s) (ep s')) as Hs1 by (eapply same_ep_trans; [apply same_ep_set|exact He']).
      assert (same_ep e (ep s')) as He2 by by eapply same_ep_trans.
      rewrite (mpr_timeout_same e) by done.
      assert (length (resp_buf (ep s')) = length (resp_buf (ep s))) as Hbl
        by (rewrite Hl'; cbn; apply buf_write_length; lia).
      destruct (IH fuel s') as (o & s2 & Heq & (Hr1 & Hr2 & Hr3)); [lia|done|done|done|lia|done..|].
      rewrite Heq. eexists _, _. split; [done|]. split_and!; [by eapply same_ep_trans|done|done].
    + destruct Ho as (_ & Ho & _). congruence.
    + destruct Hx as (body & Hf & _ & _ & _ & Hlen).
      apply (f_equal length) in Hf. rewrite length_app, to_le_length in Hf. cbn in Hf. lia.
Qed.

(** The calls of a request up to the first wait. *)
Definition asked (req : libnvme_mi_req) (resp : libnvme_mi_resp) (e : libnvme_mi_ep) (t : list event) :
    list event :=
  let n := r_hdr_len resp + r_data_len resp + 4 in
  t ++ [EvTagAlloc; EvSend (tag_after E t) (wire req)] ++
  (if n <=? Z.of_nat (length (resp_buf e)) then [] else [EvRealloc n]).

Definition first_timeout (e : libnvme_mi_ep) : Z :=
  if timeout e =? 0 then -1 else to_signed 32 (timeout e).

(** Sending works, and there is memory. *)
Definition can_send : Prop := ∀ t, sendmsg E t = None ∧ realloc E t ≠ None.
Hypothesis Hsend : can_send.

Lemma mi_grow_total n s :
  ∃ s', grow_resp_buf E n s = Ret true s' ∧ same_ep (ep s) (ep s') ∧
    n ≤ Z.of_nat (length (resp_buf (ep s'))) ∧
    trace s' = trace s ++ (if n <=? Z.of_nat (length (resp_buf (ep s))) then [] else [EvRealloc n]).
Proof using Hsend.
  unfold grow_resp_buf, bind at 1, get_ep at 1, get at 1.
  destruct (Z.leb_spec n (Z.of_nat (length (resp_buf (ep s))))).
  - eexists. split; [done|]. rewrite app_nil_r. auto with nvme.
  - unfold bind, call. cbn zeta. destruct (realloc E _) as [tl|] eqn:Hr; [|by apply Hsend in Hr].
    eexists. split; [done|]. cbn. rewrite length_resize. split_and!; auto with nvme. lia.
Qed.

Lemma mctp_submit_answers polls req resp n m t' s :
  let room := r_hdr_len resp + r_data_len resp + 3 in
  answers room (ep s) (asked req resp (ep s) (trace s)) (first_timeout (ep s)) n m t' →
  (n < polls)%nat → resp_ok resp → 8 ≤ r_hdr_len resp →
  (11 ≤ length m)%nat → Z.of_nat (length m) ≤ room → mpr_of (NVME_MI_MSGTYPE_NVME :: m) = None →
  ∃ o s', libnvme_mi_mctp_submit E polls req resp s = Ret o s' ∧
    reply_post resp m (t' ++ drop_tag (tag_after E (trace s))) s o s'.
Proof using Hsend.
  cbn zeta. set (room := r_hdr_len resp + r_data_len resp + 3). intros Ha Hn Hok Hmin Hm1 Hm2 Hmpr.
  unfold libnvme_mi_mctp_submit, sizeof_msg_resp. destruct (Z.ltb_spec (r_hdr_len resp) 8) as [?|_]; [lia|].
  assert (libnvme_mi_mctp_tag_alloc E s = Ret (tag_after E (trace s))
    {| ep := ep s; trace := trace s ++ [EvTagAlloc]; last_errno := last_errno s |}) as Htag.
  { unfold libnvme_mi_mctp_tag_alloc, bind, call, tag_after. by destruct (ioctl_tag E _). }
  unfold bind at 1. rewrite Htag. set (tag := tag_after E (trace s)) in *. fold (wire req).
  unfold bind at 1, call at 1. cbn zeta. cbn [trace ep last_errno]. rewrite (proj1 (Hsend _)).
  set (s2 := {| ep := _; trace := _; last_errno := _ |}).
  destruct (mi_grow_total (room + 1) s2) as (s3 & Hgrow & He3 & Hb3 & Ht3).
  replace (r_hdr_len resp + r_data_len resp + 4) with (room + 1) by lia.
  unfold bind at 1 2. rewrite Hgrow. cbn [negb].
  unfold bind at 1, get_ep at 1, get at 1.
  assert ((if timeout (ep s3) =? 0 then -1 else to_signed 32 (timeout (ep s3))) = first_timeout (ep s)) as ->
    by (by destruct He3 as [b ->]).
  assert (trace s3 = asked req resp (ep s) (trace s)) as Ht.
  { rewrite Ht3. unfold asked. cbn [trace s2 ep]. rewrite <- !app_assoc. cbn [app]. fold tag.
    by replace (r_hdr_len resp + r_data_len resp + 4) with (room + 1) by lia. }
  destruct (retry_answers resp (ep s) _ _ n m t' polls s3 Ha) as (o & s4 & Heq & (He4 & Ht4 & Hr));
    [done|done|done|done|lia|done..|].
  fold room in Heq. rewrite Heq.
  assert (libnvme_mi_mctp_tag_drop tag s4 = Ret tt
    {| ep := ep s4; trace := trace s4 ++ drop_tag tag; last_errno := last_errno s4 |}) as Hdrop.
  { unfold libnvme_mi_mctp_tag_drop, drop_tag, call. destruct (_ =? 0); [|done].
    rewrite app_nil_r. by destruct s4. }
  unfold bind. rewrite Hdrop. eexists _, _. split; [done|].
  split_and!; [by eapply same_ep_trans|by cbn; rewrite Ht4|done].
Qed.

(** Probed before, and no delay between commands. *)
Definition settled (e : libnvme_mi_ep) : Prop :=
  quirks_probed e = true ∧ Z.land (quirks e) LIBNVME_QUIRK_MIN_INTER_COMMAND_TIME = 0.

Definition entry (req : libnvme_mi_req) : event := EvEntry (char_at (q_hdr req) 0) (q_hdr req) (q_data req).

(** The endpoint answers the request with the message [m] after [n] waits
    more; its calls are [t'] then. *)
Definition replies (polls : nat) (req : libnvme_mi_req) (resp : libnvme_mi_resp) (s : state)
    (m : list Z) (t' : list event) : Prop :=
  ∃ n, (n < polls)%nat ∧
    answers (r_hdr_len resp + r_data_len resp + 3) (ep s)
      (asked (libnvme_mi_calc_req_mic req) resp (ep s) (trace s ++ [entry req])) (first_timeout (ep s)) n m t'.

Lemma has_no_quirk (s : state) :
  settled (ep s) → libnvme_mi_ep_has_quirk LIBNVME_QUIRK_MIN_INTER_COMMAND_TIME s = Ret false s.
Proof. intros [_ H]. unfold libnvme_mi_ep_has_quirk, get_ep, get. by rewrite H. Qed.

Lemma settled_same e e' : same_ep e e' → settled e → settled e'.
Proof. by intros [b ->]. Qed.

Lemma submit_answers polls depth req resp m t' s :
  settled (ep s) → replies polls req resp s m t' →
  4 ≤ Z.of_nat (length (q_hdr req)) → Z.of_nat (length (q_hdr req)) mod 4 = 0 →
  resp_ok resp → 8 ≤ r_hdr_len resp → r_hdr_len resp mod 4 = 0 →
  (11 ≤ length m)%nat → Z.of_nat (length m) ≤ r_hdr_len resp + r_data_len resp + 3 →
  mpr_of (NVME_MI_MSGTYPE_NVME :: m) = None →
  ∃ r s', reply_post resp m (t' ++ drop_tag (tag_after E (trace s ++ [entry req]))) s (Some r) s' ∧
    libnvme_mi_submit E polls (S depth) req resp s =
    (if libnvme_mi_verify_resp_mic r then Ret (Errno EBADMSG, r) s'
     else match check_resp req r with
          | Success => Ret (Success, r) {| ep := ep s'; last_errno := last_errno s';
              trace := trace s' ++ [EvExit (char_at (r_hdr r) 0) (got_hdr r) (got_data r)] |}
          | e => Ret (e, r) s'
          end).
Proof using Hsend.
  intros Hset (n & Hn & Ha) Hq4 Hqm Hok Hr8 Hrm Hm1 Hm2 Hmpr. cbn [libnvme_mi_submit].
  change 0x3 with (2 ^ 2 - 1). rewrite !land_ones_mod by lia. change (2 ^ 2) with 4.
  unfold sizeof_msg_hdr. rewrite Hqm, Hrm.
  destruct (Z.ltb_spec (Z.of_nat (length (q_hdr req))) 4) as [?|_]; [lia|].
  destruct (Z.ltb_spec (r_hdr_len resp) 4) as [?|_]; [lia|]. cbn [negb Z.eqb]. fold (entry req).
  unfold bind at 1, call at 1. cbn zeta. set (s1 := {| ep := _; trace := _; last_errno := _ |}).
  assert (libnvme_mi_ep_probe E (libnvme_mi_submit E polls depth) s1 = Ret tt s1) as Hprobe.
  { unfold libnvme_mi_ep_probe, bind, get_ep, get. cbn [ep s1]. by rewrite (proj1 Hset). }
  unfold bind at 1. rewrite Hprobe. unfold bind at 1. rewrite has_no_quirk by done.
  unfold bind at 1, ret_ at 1.
  destruct (mctp_submit_answers polls (libnvme_mi_calc_req_mic req) resp n m t' s1)
    as (o & s2 & Heq & Hpost); [done..|].
  destruct Hpost as (He & Ht & r & mic & -> & Hpost).
  unfold bind at 1. rewrite Heq. unfold bind at 1. rewrite has_no_quirk by by eapply settled_same.
  unfold bind at 1, ret_ at 1. exists r, s2. split.
  { split_and!; [done|done|]. exists r, mic. by split. }
  change (check_resp (libnvme_mi_calc_req_mic req) r) with (check_resp req r).
  destruct (libnvme_mi_verify_resp_mic r); [done|]. by destruct (check_resp req r).
Qed.

(** Header, data and MIC of a framed reply. *)
Lemma reply_parts body data m h d mic :
  MiCrc.framed (body ++ data) m → NVME_MI_MSGTYPE_NVME :: m = h ++ d ++ mic →
  length h = length body → length mic = 4%nat →
  h = body ∧ d = data ∧ mic = to_le 4 (MiCrc.crc32c (body ++ data)).
Proof.
  unfold MiCrc.framed. intros Hf Ha Hl Hm. rewrite Ha, <- app_assoc in Hf.
  apply app_inj_1 in Hf as [-> Hf]; [|done]. apply app_inj_2 in Hf as [-> ->]; [done|].
  by rewrite to_le_length.
Qed.

(** The whole header and some data arrived in the objects of [resp]. *)
Record delivered (resp : libnvme_mi_resp) (body data : list Z) (r : libnvme_mi_resp) : Prop := {
  d_hdr : r_hdr r = body;
  d_hdr_len : r_hdr_len r = Z.of_nat (length body);
  d_data_len : r_data_len r = Z.of_nat (length data);
  d_data : r_data r = data ++ drop (length data) (r_data resp) }.

(** An intact reply is handed to the caller. *)
Lemma submit_reply polls req resp body data m t' s :
  settled (ep s) → replies polls req resp s m t' →
  4 ≤ Z.of_nat (length (q_hdr req)) → Z.of_nat (length (q_hdr req)) mod 4 = 0 →
  resp_ok resp → r_hdr_len resp = Z.of_nat (length body) → length (r_hdr resp) = length body →
  8 ≤ r_hdr_len resp → r_hdr_len resp mod 4 = 0 →
  Z.of_nat (length data) ≤ r_data_len resp →
  MiCrc.framed (body ++ data) m → bytes (body ++ data) → char_at body 4 ≠ NVME_MI_RESP_MPR →
  (∀ r, r_hdr r = body → r_hdr_len r = Z.of_nat (length body) → check_resp req r = Success) →
  ∃ r s', libnvme_mi_submit E polls 2 req resp s = Ret (Success, r) s' ∧
    same_ep (ep s) (ep s') ∧ delivered resp body data r.
Proof using Hsend.
  intros Hset Hrep Hq4 Hqm Hok Hhl Hhs Hr8 Hrm Hdl Hf Hb Hst Hcheck.
  assert (length m = length body + length data + 3)%nat as Hm.
  { apply (f_equal length) in Hf. rewrite !length_app, to_le_length in Hf. cbn in Hf. lia. }
  assert (char_at (body ++ data) 4 = char_at body 4) as H4 by (unfold char_at; rewrite lookup_app_l by lia; done).
  destruct (submit_answers polls 1 req resp m t' s) as (r & s' & Hpost & Heq); [done..|lia|lia| |].
  { eapply mpr_of_other; [exact Hf|]. by rewrite H4. }
  destruct Hpost as (He & _ & r' & mic & [= <-] & Hu & Hrl & Hml & Hrmic & Hall).
  rewrite Hhl, Hm in Hrl. replace (Z.min _ _) with (Z.of_nat (length body)) in Hrl by lia.
  pose proof (u_ok _ _ Hu) as Hokr. pose proof (ok_hdr _ Hokr) as Hokh. pose proof (ok_data _ Hokr) as Hokd.
  assert (length (r_hdr r) = length body) as Hrh by (by rewrite (u_hdr_size _ _ Hu)).
  assert (got_hdr r = r_hdr r) as Hgh by (unfold got_hdr; rewrite Hrl; apply take_ge; lia).
  destruct (reply_parts _ _ _ _ _ _ Hf Hall) as (Hh & Hdd & ->); [by rewrite Hgh, Hrh|done|].
  assert (r_data_len r = Z.of_nat (length data)) as Hrd.
  { rewrite <- Hdd. unfold got_data. rewrite length_take. lia. }
  assert (libnvme_mi_verify_resp_mic r = false) as Hv.
  { rewrite verify_resp_mic_spec, Hh, Hdd, Hrmic, le_to_le by by apply crc32c_word. by rewrite Z.eqb_refl. }
  rewrite Hgh in Hh. rewrite Hv, (Hcheck r Hh Hrl) in Heq.
  eexists _, _. split; [exact Heq|]. split; [done|]. split; [done..|].
  by rewrite (u_rest _ _ Hu), Hdd, Hrd, Nat2Z.id at 1.
Qed.

(** *** Errors in transfer *)

(** One byte of [m] is another in [m']. *)
Definition one_byte_off (m m' : list Z) : Prop :=
  ∃ p b b' q, m = p ++ b :: q ∧ m' = p ++ b' :: q ∧ b ≠ b' ∧ is_byte b'.

(** The body and the MIC of such a message do not fit. *)
Lemma one_byte_off_mic body m m' body' mic' :
  MiCrc.framed body m → bytes m → one_byte_off m m' →
  NVME_MI_MSGTYPE_NVME :: m' = body' ++ mic' → length mic' = 4%nat →
  MiCrc.crc32c body' ≠ le mic'.
Proof.
  intros Hf Hm (p & b & b' & q & -> & -> & Hne & Hb') Hs Hl Hcrc. unfold MiCrc.framed in Hf.
  pose proof (proj1 (bytes_app _ _) Hm) as [Hp [Hb Hq]%bytes_cons].
  set (x := NVME_MI_MSGTYPE_NVME) in *.
  assert (bytes (x :: p)) as Hxp by by constructor.
  assert (length body' = length body) as Hlb.
  { apply (f_equal length) in Hf, Hs. rewrite length_app in Hs. rewrite length_app, to_le_length in Hf.
    cbn in Hf, Hs. rewrite !length_app in Hf, Hs. cbn in Hf, Hs. lia. }
  destruct (decide (length body ≤ length (x :: p))%nat) as [Hle|Hgt].
  - (* in the MIC *)
    assert (body' = body) as ->.
    { apply (f_equal (take (length body))) in Hf, Hs. rewrite take_app_length in Hf.
      rewrite <- Hlb, take_app_length, Hlb in Hs. etransitivity; [symmetry; exact Hs|].
      etransitivity; [|exact Hf]. rewrite !app_comm_cons. by rewrite !take_app_le by done. }
    assert (bytes mic') as Hbm.
    { assert (bytes (x :: p ++ b' :: q)) as H by (rewrite app_comm_cons; apply bytes_app; split; [done|]; by constructor).
      rewrite Hs, bytes_app in H. tauto. }
    rewrite Hcrc, <- Hl, to_le_le in Hf by done. rewrite <- Hs in Hf.
    injection Hf as Hf. apply app_inv_head in Hf. congruence.
  - (* in the body *)
    assert (∃ r, body = (x :: p) ++ b :: r ∧ body' = (x :: p) ++ b' :: r ∧ bytes r) as (r & Hbody & Hbody' & Hr).
    { exists (take (length body - S (length (x :: p))) q).
      assert (∀ c l, x :: p ++ c :: q = l ++ (drop (length l) (x :: p ++ c :: q)) →
        length l = length body → l = (x :: p) ++ c :: take (length body - S (length (x :: p))) q) as H.
      { intros c l Hc Hlc. apply (f_equal (take (length l))) in Hc. rewrite take_app_length in Hc.
        rewrite <- Hc. rewrite app_comm_cons, take_app_ge by lia. f_equal.
        rewrite Hlc. by destruct (length body - length (x :: p))%nat eqn:En; [lia|];
          replace (length body - S (length (x :: p)))%nat with n by lia. }
      split_and!; [apply H; [|done]..|by apply bytes_take].
      - by rewrite Hf, drop_app_length.
      - by rewrite Hs, drop_app_length. }
    assert (mic' = to_le 4 (MiCrc.crc32c body)) as ->.
    { apply (f_equal (drop (length body))) in Hf, Hs. rewrite drop_app_length in Hf.
      rewrite <- Hlb, drop_app_length, Hlb in Hs. etransitivity; [symmetry; exact Hs|].
      etransitivity; [|exact Hf]. rewrite !app_comm_cons. rewrite !(drop_app_ge (x :: p)) by lia.
      by destruct (length body - length (x :: p))%nat eqn:En; [lia|]. }
    assert (bytes body) as Hbb by (rewrite Hbody; apply bytes_app; split; [done|]; by constructor).
    rewrite le_to_le in Hcrc by by apply crc32c_word.
    apply (f_equal not32) in Hcrc. unfold MiCrc.crc32c in Hcrc. rewrite !not32_involutive in Hcrc.
    revert Hcrc. rewrite Hbody, Hbody'.
    apply (register_detects_byte _ mi_poly_degree); done.
Qed.

Lemma mpr_of_bad m body mic :
  NVME_MI_MSGTYPE_NVME :: m = body ++ mic → length mic = 4%nat → MiCrc.crc32c body ≠ le mic →
  mpr_of (NVME_MI_MSGTYPE_NVME :: m) = None.
Proof.
  intros -> Hl Hne. unfold mpr_of. rewrite length_app, Hl. replace (_ + 4 - 4)%nat with (length body) by lia.
  rewrite take_app_length, drop_app_length. unfold libnvme_mi_mctp_resp_is_mpr.
  rewrite Nat2Z.id, firstn_all, crc32_update_foldl. fold (MiCrc.crc32c body).
  destruct (Z.eqb_spec (le mic) (MiCrc.crc32c body)) as [He|_]; [congruence|]. by repeat case_match.
Qed.
End Answers.

(** ** An endpoint to try things on *)

Module MiSample.

Definition polls_in (t : list event) : nat :=
  length (List.filter (λ e, match e with EvPoll _ => true | _ => false end) t).
Definition recvs_in (t : list event) : nat :=
  length (List.filter (λ e, match e with EvRecv _ => true | _ => false end) t).

(** The first wait is interrupted, then the messages come in. *)
Definition socket (msgs : list (list Z)) : env :=
  {| ioctl_tag := λ _, inr 0x18; sendmsg := λ _, None; realloc := λ _, Some [];
     poll := λ t, if (polls_in t =? 1)%nat then inl EINTR else inr 1;
     recvmsg := λ t, match msgs !! (recvs_in t - 1)%nat with Some m => inr m | None => inl EAGAIN end;
     clock_gettime := λ _, None; handle_ok := λ _, true; garbage := λ _ _, 0xa5; stack_addr := 0x7f00;
     mi_probe_enabled := true |}.

Definition endpoint : libnvme_mi_ep :=
  {| quirks_probed := true; controllers_scanned := false; controllers := []; timeout := 5000;
     mprt_max := 0; quirks := 0; ep_csi := 0; inter_command_us := 0;
     last_resp_time := {| tv_sec := 0; tv_nsec := 0 |}; last_resp_time_valid := false;
     resp_buf := replicate 64 0 |}.
Definition start : state := {| ep := endpoint; trace := []; last_errno := EIO |}.

(** The message with this body. *)
Definition frame (body : list Z) : list Z := drop 1 (body ++ to_le 4 (MiCrc.crc32c body)).

(** Half a second more, please. *)
Definition wait_msg : list Z := frame [0x84; 0x90; 0; 0; 1; 0; 5; 0].
Definition done_body : list Z := [0x84; 0x88; 0; 0; 0; 7; 8; 9; 1; 2; 3; 4].
Definition done_msg : list Z := frame done_body.
Definition bad_msg : list Z := <[9%nat := 99]> done_msg.

Definition request : libnvme_mi_req :=
  {| q_hdr := [0x84; 0x08; 0; 0; 0; 0; 0; 0; 0; 0; 0; 0; 0; 0; 0; 0]; q_data := []; q_mic := 0 |}.
Definition response : libnvme_mi_resp :=
  {| r_hdr := replicate 8 0; r_hdr_len := 8; r_data := replicate 4 0; r_data_len := 4; r_mic := 0 |}.

Lemma response_ok : resp_ok response.
Proof. by repeat split. Qed.

Lemma socket_sends msgs : can_send (socket msgs).
Proof. done. Qed.

Lemma socket_bytes msgs : Forall bytes msgs → delivers_bytes (socket msgs).
Proof.
  intros H t m. cbn. destruct (msgs !! _) as [m'|] eqn:Hm; [|done]. intros [= <-].
  by eapply Forall_lookup_1.
Qed.

Lemma wait_is_mpr : mpr_message 500 wait_msg.
Proof.
  exists [0x84; 0x90; 0; 0; 1; 0; 5; 0]. split_and!; [vm_compute; reflexivity|by apply bytes_forallb|done|
    vm_compute; reflexivity|by left].
Qed.

Lemma replies_after_wait polls m :
  (2 < polls)%nat → ∃ t', replies (socket [wait_msg; m]) polls request response start m t'.
Proof.
  intros Hp. eexists. exists 2%nat. split; [done|].
  eapply ans_intr; [vm_compute; reflexivity|].
  eapply ans_mpr; [vm_compute; reflexivity|done|vm_compute; reflexivity|apply wait_is_mpr|vm_compute; congruence|].
  eapply ans_final; [vm_compute; reflexivity|done|reflexivity].
Qed.

End MiSample.

(** C32: a transfer error in one byte of a response, in its header, its data or
    its MIC, does not go unnoticed: [libnvme_mi_submit] returns [-EBADMSG].  The
    response, which may come after interruptions and requests for more time, has
    11 bytes at least behind the type byte and is not longer than the caller's
    buffers and the MIC have room for.  It is assumed that the endpoint was
    probed before and needs no delay between commands ([settled]), that sending
    works and there is memory ([can_send]), and that the headers of the request
    and the response have whole dwords. *)
Theorem mi_corruption_detected E polls req resp s body m m' t' :
  can_send E → settled (ep s) → replies E polls req resp s m' t' →
  4 ≤ Z.of_nat (length (q_hdr req)) → Z.of_nat (length (q_hdr req)) mod 4 = 0 →
  resp_ok resp → 8 ≤ r_hdr_len resp → r_hdr_len resp mod 4 = 0 →
  MiCrc.framed body m → bytes m → one_byte_off m m' →
  11 ≤ Z.of_nat (length m) ≤ r_hdr_len resp + r_data_len resp + 3 →
  ∃ r s', libnvme_mi_submit E polls 2 req resp s = Ret (Errno EBADMSG, r) s'.
Proof.
  intros Hsend Hset Hrep Hq4 Hqm Hok Hr8 Hrm Hf Hm Hoff Hlen.
  assert (length m' = length m) as Hl'.
  { destruct Hoff as (p & b & b' & q & -> & -> & _). by rewrite !length_app. }
  set (full := NVME_MI_MSGTYPE_NVME :: m'). set (n := (length full - 4)%nat).
  assert (length full = S (length m)) as Hfl by (cbn; lia).
  assert (length (drop n full) = 4%nat) as Hmic by (rewrite length_drop; lia).
  assert (mpr_of full = None) as Hmpr.
  { eapply mpr_of_bad; [symmetry; apply (take_drop n)|done|].
    eapply one_byte_off_mic; [done..|symmetry; apply (take_drop n)|done]. }
  destruct (submit_answers E Hsend polls 1 req resp m' t' s) as (r & s' & Hpost & Heq); [done..|lia|lia|done|].
  destruct Hpost as (_ & _ & r' & mic & [= <-] & Hu & _ & Hlm & Hrm' & Hall).
  assert (libnvme_mi_verify_resp_mic r = true) as Hv.
  { rewrite verify_resp_mic_spec. apply negb_true_iff, Z.eqb_neq. rewrite Hrm'.
    intros He. symmetry in He. revert He. eapply one_byte_off_mic; [done..| |done].
    by rewrite <- app_assoc. }
  rewrite Hv in Heq. eauto.
Qed.

Lemma mi_corruption_detected_witness :
  ∃ r s', libnvme_mi_submit (MiSample.socket [MiSample.wait_msg; MiSample.bad_msg]) 3 2
            MiSample.request MiSample.response MiSample.start = Ret (Errno EBADMSG, r) s'.
Proof.
  destruct (MiSample.replies_after_wait 3 MiSample.bad_msg) as [t' Hr]; [lia|].
  apply (mi_corruption_detected _ _ _ _ _ MiSample.done_body MiSample.done_msg MiSample.bad_msg t');
    try done; [by apply bytes_forallb; vm_compute|].
  exists (take 9 MiSample.done_msg), 3, 99, (drop 10 MiSample.done_msg).
  split_and!; [vm_compute; reflexivity..|done|done].
Defined.

(** C30: when [libnvme_mi_submit] returns 0, the response it hands out was
    received on the socket after the request was sent: header and data are a
    message less its integrity check, which fits them, or, for a message that
    is longer than the caller's two buffers and an integrity check, the leading
    part that has room, its last four bytes being an integrity check that fits
    the rest ([recvmsg] cuts the message off and the code does not look for
    that: [mi_overlong_accepted]).  It is a response, and is for the command
    slot of the request.  Whatever the endpoint sends, and whatever fails,
    nothing is written outside of the caller's two objects, and the timeouts,
    the command slot and the list of controllers stay as they were.  It is
    assumed that the socket delivers bytes and that the two buffers have their
    lengths ([resp_ok]). *)
Theorem mi_submit_authentic E polls req resp s :
  delivers_bytes E → resp_ok resp →
  wlp (libnvme_mi_submit E polls 2 req resp) (submit_post E req resp s) s.
Proof. intros. by apply wlp_submit. Qed.

Definition sample_run : run state (ret * libnvme_mi_resp) :=
  libnvme_mi_submit (MiSample.socket [MiSample.wait_msg; MiSample.done_msg]) 3 2
    MiSample.request MiSample.response MiSample.start.

Lemma mi_submit_authentic_witness :
  match sample_run with
  | Ret (Success, r) s' =>
      authentic (MiSample.socket [MiSample.wait_msg; MiSample.done_msg]) MiSample.request MiSample.response
        r [] (trace s') ∧ got_data r = [1; 2; 3; 4]
  | _ => False
  end.
Proof.
  assert (match sample_run with Ret (Success, r) _ => got_data r = [1; 2; 3; 4] | _ => False end) as Hr
    by (vm_compute; reflexivity).
  assert (delivers_bytes (MiSample.socket [MiSample.wait_msg; MiSample.done_msg])) as Hb
    by (apply MiSample.socket_bytes; apply Forall_cons_2; [|apply Forall_cons_2; [|constructor]];
        apply bytes_forallb; vm_compute; reflexivity).
  pose proof (mi_submit_authentic _ 3 MiSample.request _ MiSample.start Hb MiSample.response_ok) as H.
  unfold wlp in H. change (libnvme_mi_submit _ _ _ _ _ _) with sample_run in H.
  revert H Hr. generalize sample_run. intros [[[|e|z] r] s'| |] H Hr; [|contradiction..].
  destruct H as (_ & _ & Ha). split; [exact (Ha eq_refl)|exact Hr].
Defined.

(** A message with three bytes more than there is room for is taken, without
    them. *)
Fact mi_overlong_accepted :
  match libnvme_mi_submit (MiSample.socket [MiSample.wait_msg; MiSample.done_msg ++ [7; 7; 7]]) 3 2
          MiSample.request MiSample.response MiSample.start with
  | Ret (r, resp) _ => r = Success ∧ got_data resp = [1; 2; 3; 4]
  | _ => False
  end.
Proof. vm_compute. by split. Qed.

(** ** The probe nests once *)

Section Depth.
Context (E : env) (polls : nat).

Lemma passthru_agree sub1 sub2 id cmd buf s :
  (∀ req resp s', quirks_probed (ep s') = true → sub1 req resp s' = sub2 req resp s') →
  quirks_probed (ep s) = true →
  libnvme_mi_admin_admin_passthru E sub1 id cmd buf s = libnvme_mi_admin_admin_passthru E sub2 id cmd buf s.
Proof.
  intros Hsub Hs. unfold libnvme_mi_admin_admin_passthru.
  destruct (_ =? NVME_DATA_TFR_BIDIRECTIONAL); [done|]. destruct (4096 <? data_len cmd); [done|].
  apply bind_ext. intros csi s1 [= <- <-]. apply bind_ext. intros wd s1 Hs1.
  assert (s1 = s) as -> by (revert Hs1; unfold load, ret_; repeat case_match; congruence).
  apply bind_ext. intros junk s1 [= _ <-]. apply bind_ext. intros tmo s1 [= _ <-].
  apply bind_ext. intros [] s1 Hs2. cbn zeta. apply bind_first, Hsub.
  destruct (timeout_ms cmd =? 0); injection Hs2 as <-; done.
Qed.

Lemma probe_agree sub1 sub2 s :
  (∀ req resp s', quirks_probed (ep s') = true → sub1 req resp s' = sub2 req resp s') →
  libnvme_mi_ep_probe E sub1 s = libnvme_mi_ep_probe E sub2 s.
Proof.
  intros Hsub. unfold libnvme_mi_ep_probe. apply bind_ext. intros p s1 [= <- <-].
  destruct (quirks_probed (ep s)); [done|]. apply bind_ext. intros [] s1 [= <-].
  destruct (negb _); [done|]. apply bind_ext. intros [] s1 [= <-]. apply bind_ext. intros ok s1 Hok.
  destruct (negb ok); [done|]. apply bind_first, passthru_agree; [done|].
  unfold libnvme_mi_init_transport_handle, bind, call in Hok. cbn in Hok.
  destruct (handle_ok E _); injection Hok as <- <-; done.
Qed.

(** The checks of the lengths, before anything is done. *)
Ltac length_checks :=
  do 4 (match goal with |- (if ?b then _ else _) _ = (if ?b then _ else _) _ => destruct b; [done|] end).

Lemma submit_probed d d' req resp s :
  quirks_probed (ep s) = true →
  libnvme_mi_submit E polls (S d) req resp s = libnvme_mi_submit E polls (S d') req resp s.
Proof.
  intros Hs. cbn [libnvme_mi_submit]. cbn zeta. length_checks.
  apply bind_ext. intros [] s1 [= <-]. apply bind_first.
  unfold libnvme_mi_ep_probe, bind, get_ep, get. cbn [ep]. by rewrite Hs.
Qed.

(** the command that [libnvme_mi_ep_probe] sends from within
    [libnvme_mi_submit] does not probe again: two levels of the recursion are
    all there are, for every endpoint and every environment. *)
Theorem mi_submit_depth d req resp s :
  libnvme_mi_submit E polls (2 + d) req resp s = libnvme_mi_submit E polls 2 req resp s.
Proof.
  change (2 + d)%nat with (S (S d)). cbn [libnvme_mi_submit]. cbn zeta. length_checks.
  apply bind_ext. intros [] s1 [= <-]. apply bind_first, probe_agree. intros. by apply (submit_probed d 0).
Qed.
End Depth.
