(* ===== verification/MiAdmin.v ===== *)
(** * Admin commands over NVMe-MI

    The theorems of [libnvme_mi_admin_admin_passthru]: the message on the wire
    is the caller's command, and the endpoint's answer is what the caller
    gets. *)

From stdpp Require Import base list numbers.
From S2P Require Import Prelude.
From S2P Require Import CStr.
From S2P Require Import Io.
From S2P Require Import Passthru.
From S2P Require Import NvmeConst.
From S2P Require Import Commands.
From S2P Require Import Mi.
From S2P Require Import MiSpec.

#[local] Open Scope cmd_scope.
#[local] Open Scope io_scope.

(** ** What an endpoint reads from a request *)

Module MiView.

(** The field of [n] bytes at the offset [off] of the message. *)
Definition field (msg : list Z) (off n : nat) : Z := le (take n (drop off msg)).

(** An admin command as it arrives: the slot, the controller, the command
    and the data; [None] for a message whose MIC is wrong. *)
Record admin_command := {
  v_slot : Z; v_ctrl : Z; v_opcode : Z; v_flags : Z; v_nsid : Z; v_cdw2 : Z; v_cdw3 : Z;
  v_doff : Z; v_dlen : Z; v_cdw10 : Z; v_cdw11 : Z; v_cdw12 : Z; v_cdw13 : Z; v_cdw14 : Z; v_cdw15 : Z;
  v_data : list Z }.

(** [w] is without its type byte. *)
Definition decode (w : list Z) : option admin_command :=
  let msg := NVME_MI_MSGTYPE_NVME :: w in
  let n := (length msg - 4)%nat in
  let body := take n msg in
  if negb (field msg n 4 =? MiCrc.crc32c body) then None
  else if (n <? 68)%nat then None
  else if negb (Z.shiftr (field body 1 1) 3 =? NVME_MI_MT_ADMIN) then None
  else Some {|
    v_slot := Z.land (field body 1 1) 1; v_ctrl := field body 6 2; v_opcode := field body 4 1;
    v_flags := field body 5 1; v_nsid := field body 8 4; v_cdw2 := field body 12 4;
    v_cdw3 := field body 16 4; v_doff := field body 28 4; v_dlen := field body 32 4;
    v_cdw10 := field body 44 4; v_cdw11 := field body 48 4; v_cdw12 := field body 52 4;
    v_cdw13 := field body 56 4; v_cdw14 := field body 60 4; v_cdw15 := field body 64 4;
    v_data := drop 68 body |}.

(** The answer of an endpoint: the header, without data, with the status [mi]
    of the management interface. *)
Definition admin_reply (csi mi cdw0 cdw1 status : Z) : list Z :=
  [NVME_MI_MSGTYPE_NVME; Z.shiftl NVME_MI_ROR_RSP 7 .| Z.shiftl NVME_MI_MT_ADMIN 3 .| Z.land csi 1;
   0; 0; mi; 0; 0; 0] ++ to_le 4 cdw0 ++ to_le 4 cdw1 ++ to_le 4 (Z.shiftl status 17).

End MiView.

Lemma admin_req_bytes_length h : length (admin_req_bytes h) = 68%nat.
Proof. done. Qed.

Lemma bytes_concat_to_le n l : bytes (concat (to_le n <$> l)).
Proof. induction l as [|v l IH]; [constructor|]. apply bytes_app. split; [apply to_le_bytes|done]. Qed.

Lemma flags_byte cmd :
  cmd_wf cmd → is_byte (if data_len cmd =? 0 then flags cmd else flags cmd .| 1).
Proof.
  intros (_ & Hf & _). destruct (_ =? 0); [done|]. by apply (lor_bound 8).
Qed.

Lemma admin_req_bytes_bytes csi id cmd :
  cmd_wf cmd → in_width 16 id →
  bytes (admin_req_bytes (fill_admin_req (libnvme_mi_admin_init_req csi id (opcode cmd)) cmd)).
Proof.
  intros Hc Hid. unfold admin_req_bytes.
  cbn [a_type a_nmp a_meb a_hrsvd a_opcode a_flags a_ctrl_id fill_admin_req libnvme_mi_admin_init_req].
  rewrite !bytes_app. split_and!; [|apply to_le_bytes|].
  - repeat constructor; try done; [by destruct (slot_cases csi) as [H|H]; unfold req_nmp; rewrite H..|
      apply Hc|apply Hc|apply flags_byte; done|apply flags_byte; done].
  - apply bytes_concat_to_le.
Qed.

(** the request that [libnvme_mi_admin_admin_passthru] builds can be read
    back: it is intact, for the slot and the controller it is meant for, and
    has the caller's opcode, flags, namespace, dwords, length and data. *)
Theorem passthru_req_roundtrip csi id cmd data :
  cmd_wf cmd → in_width 16 id → bytes data →
  MiView.decode (wire (libnvme_mi_calc_req_mic (passthru_req csi id cmd data))) =
  Some {|
    MiView.v_slot := Z.land csi 1; MiView.v_ctrl := id; MiView.v_opcode := opcode cmd;
    MiView.v_flags := if data_len cmd =? 0 then flags cmd else flags cmd .| 1;
    MiView.v_nsid := nsid cmd; MiView.v_cdw2 := cdw2 cmd; MiView.v_cdw3 := cdw3 cmd;
    MiView.v_doff := 0; MiView.v_dlen := data_len cmd;
    MiView.v_cdw10 := cdw10 cmd; MiView.v_cdw11 := cdw11 cmd; MiView.v_cdw12 := cdw12 cmd;
    MiView.v_cdw13 := cdw13 cmd; MiView.v_cdw14 := cdw14 cmd; MiView.v_cdw15 := cdw15 cmd;
    MiView.v_data := data |}.
Proof.
  intros Hc Hid Hd. pose proof (admin_req_bytes_bytes csi id cmd Hc Hid) as Hb.
  set (hdr := admin_req_bytes _) in *.
  assert (NVME_MI_MSGTYPE_NVME :: wire (libnvme_mi_calc_req_mic (passthru_req csi id cmd data)) =
    (hdr ++ data) ++ to_le 4 (MiCrc.crc32c (hdr ++ data))) as Hw.
  { unfold wire. rewrite calc_req_mic_spec. cbn [q_hdr q_data libnvme_mi_calc_req_mic passthru_req].
    fold hdr. rewrite <- app_assoc. done. }
  unfold MiView.decode. rewrite Hw, length_app, to_le_length.
  replace (_ + 4 - 4)%nat with (length (hdr ++ data)) by lia.
  rewrite take_app_length. unfold MiView.field at 1. rewrite drop_app_length.
  rewrite take_ge by by rewrite to_le_length.
  rewrite le_to_le by (apply crc32c_word, bytes_app; done). rewrite Z.eqb_refl. cbn [negb].
  rewrite length_app. destruct (Nat.ltb_spec (length hdr + length data) 68) as [H|_]; [cbn in H; lia|].
  destruct Hc as (Hop & _ & _ & Hns & H2 & H3 & _ & _ & _ & Hdl & H10 & H11 & H12 & H13 & H14 & H15 & _).
  assert (Z.shiftr (MiView.field (hdr ++ data) 1 1) 3 = NVME_MI_MT_ADMIN ∧
          Z.land (MiView.field (hdr ++ data) 1 1) 1 = Z.land csi 1) as [-> ->].
  { unfold MiView.field. change (take 1 (drop 1 (hdr ++ data))) with [req_nmp NVME_MI_MT_ADMIN csi].
    unfold req_nmp. by destruct (slot_cases csi) as [-> | ->]. }
  cbn [negb Z.eqb]. f_equal. f_equal; try (by apply (le_to_le 4)).
  - by apply (le_to_le 2).
  - apply Z.add_0_r.
  - apply Z.add_0_r.
  - transitivity (le (to_le 4 (if data_len cmd =? 0 then 0 else data_len cmd))); [done|].
    by destruct (Z.eqb_spec (data_len cmd) 0) as [->|]; rewrite le_to_le.
Qed.

Definition sample_cmd : passthru :=
  set_data_len (set_addr (nvme_init_identify_ctrl cmd_zero 0x7f00) 0x7f00) 4096.

Lemma passthru_req_roundtrip_witness :
  MiView.v_dlen <$> MiView.decode (wire (libnvme_mi_calc_req_mic (passthru_req 1 7 sample_cmd []))) = Some 4096.
Proof. rewrite passthru_req_roundtrip; [done| |done|constructor]. repeat split; vm_compute; congruence. Defined.

(** ** The answer *)

Lemma admin_reply_length csi mi cdw0 cdw1 status : length (MiView.admin_reply csi mi cdw0 cdw1 status) = 20%nat.
Proof. done. Qed.

(** The status the caller gets. *)
Definition status_of (mi status : Z) : ret :=
  if mi =? 0 then status_ret status else Status (mi .| Z.shiftl NVME_STATUS_TYPE_MI NVME_STATUS_TYPE_SHIFT).

Lemma parse_reply csi mi cdw0 cdw1 status r :
  0 ≤ cdw0 < 2 ^ 32 → 0 ≤ status < 2 ^ 15 →
  r_hdr r = MiView.admin_reply csi mi cdw0 cdw1 status → r_hdr_len r = 20 →
  libnvme_mi_admin_parse_status r = (status_of mi status, if mi =? 0 then Some cdw0 else None).
Proof.
  intros H0 Hs Hh Hl. unfold libnvme_mi_admin_parse_status, status_of. rewrite Hl, Hh.
  change (20 <? sizeof_msg_resp) with false. change (20 <? sizeof_admin_resp_hdr) with false.
  change (char_at (MiView.admin_reply csi mi cdw0 cdw1 status) 4) with mi.
  destruct (mi =? 0); cbn [negb]; [|done].
  change (take 4 (drop 8 (MiView.admin_reply csi mi cdw0 cdw1 status))) with (to_le 4 cdw0).
  change (take 4 (drop 16 (MiView.admin_reply csi mi cdw0 cdw1 status))) with (to_le 4 (Z.shiftl status 17)).
  rewrite (le_to_le 4 cdw0 H0), le_to_le.
  - by rewrite Z.shiftr_shiftl_l, Z.shiftl_0_r by lia.
  - rewrite Z.shiftl_mul_pow2 by lia. cbn. lia.
Qed.

Lemma check_reply csi id cmd data mi cdw0 cdw1 status r :
  r_hdr r = MiView.admin_reply csi mi cdw0 cdw1 status → r_hdr_len r = 20 →
  check_resp (passthru_req csi id cmd data) r = Success.
Proof.
  intros Hh Hl. unfold check_resp. rewrite Hl, Hh. cbn [passthru_req q_hdr].
  change (20 <? sizeof_msg_hdr) with false.
  change (char_at (MiView.admin_reply csi mi cdw0 cdw1 status) 0) with NVME_MI_MSGTYPE_NVME.
  set (b := char_at (MiView.admin_reply _ _ _ _ _) 1). set (c := char_at _ 1).
  assert (b = Z.shiftl NVME_MI_ROR_RSP 7 .| Z.shiftl NVME_MI_MT_ADMIN 3 .| Z.land csi 1) as -> by done.
  assert (c = req_nmp NVME_MI_MT_ADMIN csi) as -> by done. unfold req_nmp.
  by destruct (slot_cases csi) as [-> | ->].
Qed.

(** What the caller gets for a reply with the two statuses and [n] bytes of
    data. *)
Definition reply_ret (cmd : passthru) (mi status n : Z) : ret :=
  if negb (mi =? 0) then Status (mi .| Z.shiftl NVME_STATUS_TYPE_MI NVME_STATUS_TYPE_SHIFT)
  else if negb (status =? 0) then Status status
  else if has_read_data cmd && negb (n =? data_len cmd) then Errno EPROTO else Success.

(** The endpoint has the timeout of the command. *)
Definition armed (cmd : passthru) (s : state) : state :=
  if timeout_ms cmd =? 0 then s else set_ep (set_timeout (ep s) (timeout_ms cmd)) s.

Definition write_data (cmd : passthru) (buf : list Z) : list Z :=
  if has_write_data cmd then take (Z.to_nat (data_len cmd)) buf else [].

Section Exchange.
Context (E : env) (Hsend : can_send E) (polls : nat).

Lemma admin_reply_bytes csi mi cdw0 cdw1 status :
  is_byte mi → bytes (MiView.admin_reply csi mi cdw0 cdw1 status).
Proof.
  intros Hmi. unfold MiView.admin_reply. rewrite !bytes_app. split_and!; [|apply to_le_bytes..].
  repeat constructor; try done; try apply Hmi; by destruct (slot_cases csi) as [H|H]; rewrite H.
Qed.

(** The exchange of the messages. *)
Lemma passthru_submit id cmd buf s junk data mi status cdw0 cdw1 m t' :
  settled (ep s) → is_byte mi → mi ≠ NVME_MI_RESP_MPR → length junk = 20%nat → resp_ok (passthru_resp cmd junk buf) → bytes data →
  Z.of_nat (length data) ≤ r_data_len (passthru_resp cmd junk buf) →
  MiCrc.framed (MiView.admin_reply (ep_csi (ep s)) mi cdw0 cdw1 status ++ data) m →
  let req := passthru_req (ep_csi (ep s)) id cmd (write_data cmd buf) in
  replies E polls req (passthru_resp cmd junk buf) s m t' →
  ∃ r s', libnvme_mi_submit E polls 2 req (passthru_resp cmd junk buf) s = Ret (Success, r) s' ∧
    same_ep (ep s) (ep s') ∧
    delivered (passthru_resp cmd junk buf) (MiView.admin_reply (ep_csi (ep s)) mi cdw0 cdw1 status) data r.
Proof using Hsend.
  intros Hset Hmi Hmpr Hj Hok Hd Hdl Hf req Hrep.
  apply (submit_reply E Hsend polls _ _ _ _ m t'); try done.
  - apply bytes_app. split; [by apply admin_reply_bytes|done].
  - intros r Hh Hl. by eapply check_reply.
Qed.

(** C31: an endpoint that answers an admin command with an answer that is
    intact, of the slot of the request, with the whole header of an admin
    response, and with no more data than was asked for, after any number of
    interruptions and of requests for more time that the loop has room for (such
    a request, the status MPR, is not the answer itself).
    The caller gets: for a status of the management interface that is not 0,
    that status, and the result of the command is not set; otherwise the result
    and the NVMe status, or for the status 0 success, but -EPROTO when the
    command reads data and the answer has less than was asked for.  The data
    are in the caller's buffer, the memory behind them stays as it was, and the
    endpoint has its timeout again.  It is assumed that the endpoint was probed
    before and needs no delay between commands ([settled]: the first command,
    which also runs the probe, is not covered), that sending works and there is
    memory ([can_send]), and that the command moves data in one direction at
    most, 4096 bytes at most, and its buffer has them. *)
Theorem mi_passthru_exchange id cmd buf s data mi status cdw0 cdw1 m t' :
  settled (ep s) → is_byte mi → mi ≠ NVME_MI_RESP_MPR →
  direction cmd ≠ NVME_DATA_TFR_BIDIRECTIONAL → data_len cmd ≤ 4096 → buffer_ok cmd buf →
  0 ≤ status < 2 ^ 15 → 0 ≤ cdw0 < 2 ^ 32 → bytes data →
  Z.of_nat (length data) ≤ (if has_read_data cmd then data_len cmd else 0) →
  MiCrc.framed (MiView.admin_reply (ep_csi (ep s)) mi cdw0 cdw1 status ++ data) m →
  replies E polls (passthru_req (ep_csi (ep s)) id cmd (write_data cmd buf)) (passthru_resp cmd [] [])
    (armed cmd s) m t' →
  ∃ s', libnvme_mi_admin_admin_passthru E (libnvme_mi_submit E polls 2) id cmd buf s =
    Ret (reply_ret cmd mi status (Z.of_nat (length data)), if mi =? 0 then set_result cmd cdw0 else cmd,
         if has_read_data cmd then data ++ drop (length data) buf else buf) s' ∧
    kept (ep s) (ep s').
Proof using Hsend.
  intros Hset Hmi Hmpr Hdir Hdl [Hd0 Hbuf] Hst Hc0 Hdata Hlen Hf Hrep.
  unfold libnvme_mi_admin_admin_passthru. rewrite (proj2 (Z.eqb_neq _ _) Hdir).
  rewrite (proj2 (Z.ltb_ge 4096 _) Hdl). unfold bind at 1, get_ep at 1, get at 1.
  assert (has_data cmd = true → data_len cmd ≤ Z.of_nat (length buf)) as Hhas.
  { unfold has_data. intros H. apply Hbuf. by destruct (Z.eqb_spec (addr cmd) 0). }
  assert ((if has_write_data cmd then load buf 0 (Z.to_nat (data_len cmd)) else ret_ []) s =
          Ret (write_data cmd buf) s) as Hw.
  { unfold write_data. destruct (has_write_data cmd) eqn:Eh; [|done]. apply andb_true_iff in Eh as [Eh _].
    specialize (Hhas Eh). unfold load. by rewrite (proj2 (Nat.leb_le _ _)) by lia. }
  unfold bind at 1. rewrite Hw. unfold bind at 1, uninit, get at 1. set (junk := garbage E _ <$> _).
  unfold bind at 1, get_ep at 1, get at 1.
  assert ((if timeout_ms cmd =? 0 then ret_ tt else upd_ep (λ e, set_timeout e (timeout_ms cmd))) s =
          Ret tt (armed cmd s)) as Ha by (unfold armed; by destruct (timeout_ms cmd =? 0)).
  unfold bind at 1. rewrite Ha.
  assert (ep_csi (ep (armed cmd s)) = ep_csi (ep s) ∧ settled (ep (armed cmd s))) as [Hcsi Hset'].
  { unfold armed. by destruct (timeout_ms cmd =? 0). }
  assert (length junk = 20%nat) as Hj by (unfold junk; by rewrite length_fmap, length_seq).
  assert (resp_ok (passthru_resp cmd junk buf)) as Hok.
  { unfold passthru_resp, sizeof_admin_resp_hdr. split; cbn; [lia|].
    destruct (has_read_data cmd) eqn:Eh; cbn; [|lia]. apply andb_true_iff in Eh as [Eh _].
    specialize (Hhas Eh). lia. }
  destruct (passthru_submit id cmd buf (armed cmd s) junk data mi status cdw0 cdw1 m t')
    as (r & s1 & Heq & He & [Hrh Hrl Hrdl Hrd]); [done|done|done|done|done|done|done|by rewrite Hcsi|by rewrite Hcsi|].
  rewrite Hcsi in Heq. unfold bind at 1. rewrite Heq.
  set (restore := if timeout_ms cmd =? 0 then _ else _).
  assert (∃ s2, restore s1 = Ret tt s2 ∧ kept (ep s) (ep s2)) as (s2 & Hs2 & Hk).
  { unfold restore, armed in *. destruct (timeout_ms cmd =? 0); (eexists; split; [done|]).
    - by apply same_ep_kept.
    - destruct He as [b He]. cbn. by rewrite He. }
  unfold bind at 1. rewrite Hs2. cbn [is_success negb].
  rewrite (parse_reply (ep_csi (ep (armed cmd s))) mi cdw0 cdw1 status) by done.
  assert ((if has_read_data cmd then r_data r else buf) =
          (if has_read_data cmd then data ++ drop (length data) buf else buf)) as ->.
  { destruct (has_read_data cmd) eqn:Eh; [|done]. rewrite Hrd. cbn. by rewrite Eh. }
  exists s2. split; [|done]. unfold reply_ret, status_of, status_ret. rewrite Hrdl. destruct (mi =? 0); cbn [negb]; [|done].
  destruct (status =? 0); cbn [is_success negb]; [|done]. by destruct (has_read_data cmd && _).
Qed.
End Exchange.

(** Identify, the first four bytes; the reply comes after one wait more. *)
Definition short_cmd : passthru := set_data_len sample_cmd 4.
Definition identify_reply : list Z :=
  MiSample.frame (MiView.admin_reply 0 0 0x11223344 0 0 ++ [0x4d; 0x14; 0x4d; 0x14]).

Lemma mi_passthru_exchange_witness :
  ∃ s', libnvme_mi_admin_admin_passthru (MiSample.socket [MiSample.wait_msg; identify_reply])
      (libnvme_mi_submit (MiSample.socket [MiSample.wait_msg; identify_reply]) 3 2) 0 short_cmd
      (replicate 6 9) MiSample.start =
    Ret (Success, set_result short_cmd 0x11223344, [0x4d; 0x14; 0x4d; 0x14; 9; 9]) s' ∧
    kept (ep MiSample.start) (ep s').
Proof.
  eapply (mi_passthru_exchange _ (MiSample.socket_sends _) 3 0 short_cmd (replicate 6 9) MiSample.start
    [0x4d; 0x14; 0x4d; 0x14] 0 0 0x11223344 0 identify_reply); try done.
  - by apply bytes_forallb.
  - exists 2%nat. split; [lia|].
    eapply ans_intr; [vm_compute; reflexivity|].
    eapply ans_mpr; [vm_compute; reflexivity|done|vm_compute; reflexivity|apply MiSample.wait_is_mpr|
      vm_compute; congruence|].
    eapply ans_final; [vm_compute; reflexivity|done|reflexivity].
Defined.

(** An answer with an error of the management interface: the caller gets it,
    typed as such, and neither the result nor the buffer change. *)
Example mi_passthru_refused :
  let E := MiSample.socket [MiSample.wait_msg; MiSample.frame (MiView.admin_reply 0 3 0x11223344 0 0)] in
  match libnvme_mi_admin_admin_passthru E (libnvme_mi_submit E 3 2) 0 short_cmd (replicate 6 9) MiSample.start with
  | Ret (r, cmd, buf) _ => r = Status (3 .| Z.shiftl 1 27) ∧ cmd = short_cmd ∧ buf = replicate 6 9
  | _ => False
  end.
Proof. vm_compute. done. Qed.
