(* ===== verification/MiCommands.v ===== *)
(** * The commands of NVMe-MI: [libnvme/src/nvme/mi.c]

    Raw transfers, control primitives, the commands to the management
    endpoint, and the scan of its controllers.  Every one builds a request
    and a response object and calls [libnvme_mi_submit]. *)

From stdpp Require Import base list numbers.
From S2P Require Import Prelude.
From S2P Require Import CStr.
From S2P Require Import Io.
From S2P Require Import Crc32.
From S2P Require Import Passthru.
From S2P Require Import NvmeConst.
From S2P Require Import Commands.
From S2P Require Import Mi.
From S2P Require Import MiSpec.

#[local] Open Scope cmd_scope.
#[local] Open Scope io_scope.

(** ** Settings of the endpoint *)

(** The MCTP transport has no [check_timeout]. *)
Definition libnvme_mi_ep_set_timeout (timeout_ms : Z) : state → run state ret :=
  do! upd_ep (λ e, set_timeout e timeout_ms) in ret_ Success.
Definition libnvme_mi_ep_set_mprt_max (mprt_max_ms : Z) : state → run state unit :=
  upd_ep (λ e, set_mprt_max e mprt_max_ms).
Definition libnvme_mi_ep_get_timeout : state → run state Z := get_ep timeout.

Definition libnvme_mi_set_csi (csi : Z) : state → run state ret :=
  let csi_bit := if csi =? 0 then 0 else 1 in
  let! q := libnvme_mi_ep_has_quirk LIBNVME_QUIRK_CSI_1_NOT_SUPPORTED in
  if q && negb (csi_bit =? 0) then ret_ (Errno EPERM)
  else do! upd_ep (λ e, set_csi e csi_bit) in ret_ Success.

(** ** Headers *)

Definition nvme_mi_mi_opcode_mi_data_read : Z := 0x00.
Definition nvme_mi_mi_opcode_subsys_health_status_poll : Z := 0x01.
Definition nvme_mi_mi_opcode_configuration_set : Z := 0x03.
Definition nvme_mi_mi_opcode_configuration_get : Z := 0x04.
Definition nvme_mi_mi_opcode_pda_read : Z := 0x0d.
Definition nvme_mi_mi_opcode_pda_write : Z := 0x0e.
Definition nvme_mi_mi_opcode_pda_write_zeroes : Z := 0x0f.
Definition nvme_mi_dtyp_subsys_info : Z := 0x00.
Definition nvme_mi_dtyp_port_info : Z := 0x01.
Definition nvme_mi_dtyp_ctrl_list : Z := 0x02.
Definition nvme_mi_dtyp_ctrl_info : Z := 0x03.
Definition NVME_MI_CONFIG_AE : Z := 0x4.

Record nvme_mi_mi_req_hdr := {
  m_type : Z; m_nmp : Z; m_meb : Z; m_hrsvd : Z;
  m_opcode : Z; m_rsvd0 : list Z; m_cdw0 : Z; m_cdw1 : Z }.

(** Its 16 bytes. *)
Definition mi_req_bytes (h : nvme_mi_mi_req_hdr) : list Z :=
  [m_type h; m_nmp h; m_meb h; m_hrsvd h; m_opcode h] ++ m_rsvd0 h ++ to_le 4 (m_cdw0 h) ++ to_le 4 (m_cdw1 h).

Definition libnvme_mi_mi_init_req (csi cdw0 opcode : Z) : nvme_mi_mi_req_hdr :=
  {| m_type := NVME_MI_MSGTYPE_NVME; m_nmp := req_nmp NVME_MI_MT_MI csi; m_meb := 0; m_hrsvd := 0;
     m_opcode := opcode; m_rsvd0 := [0; 0; 0]; m_cdw0 := cdw0; m_cdw1 := 0 |}.

(** The assignments to it. *)
Definition with_cdw1 (h : nvme_mi_mi_req_hdr) (v : Z) : nvme_mi_mi_req_hdr :=
  {| m_type := m_type h; m_nmp := m_nmp h; m_meb := m_meb h; m_hrsvd := m_hrsvd h;
     m_opcode := m_opcode h; m_rsvd0 := m_rsvd0 h; m_cdw0 := m_cdw0 h; m_cdw1 := v |}.
Definition with_dformat (h : nvme_mi_mi_req_hdr) (v : Z) : nvme_mi_mi_req_hdr :=
  {| m_type := m_type h; m_nmp := m_nmp h; m_meb := m_meb h; m_hrsvd := m_hrsvd h;
     m_opcode := m_opcode h; m_rsvd0 := [v; 0; 0]; m_cdw0 := m_cdw0 h; m_cdw1 := m_cdw1 h |}.
Definition with_nmp (h : nvme_mi_mi_req_hdr) (nmp : Z) : nvme_mi_mi_req_hdr :=
  {| m_type := NVME_MI_MSGTYPE_NVME; m_nmp := nmp; m_meb := m_meb h; m_hrsvd := m_hrsvd h;
     m_opcode := m_opcode h; m_rsvd0 := m_rsvd0 h; m_cdw0 := m_cdw0 h; m_cdw1 := m_cdw1 h |}.

Definition mk_req (hdr data : list Z) : libnvme_mi_req := {| q_hdr := hdr; q_data := data; q_mic := 0 |}.
Definition mk_resp (hdr : list Z) (hdr_len : Z) (data : list Z) (data_len : Z) : libnvme_mi_resp :=
  {| r_hdr := hdr; r_hdr_len := hdr_len; r_data := data; r_data_len := data_len; r_mic := 0 |}.

(** The status byte of an MI response. *)
Definition resp_status (r : libnvme_mi_resp) : Z := char_at (r_hdr r) 4.

Section Commands.
Context (E : env) (polls : nat).

Abbreviation M A := (state → run state A) (only parsing).

Definition submit : libnvme_mi_req → libnvme_mi_resp → M (ret * libnvme_mi_resp) :=
  libnvme_mi_submit E polls 2.

(** ** Raw transfers *)

(** The header of an admin request with what the library sets. *)
Definition xfer_hdr (h : nvme_mi_admin_req_hdr) (csi id dlen doff : Z) : nvme_mi_admin_req_hdr :=
  {| a_type := NVME_MI_MSGTYPE_NVME; a_nmp := req_nmp NVME_MI_MT_ADMIN csi; a_meb := a_meb h;
     a_hrsvd := a_hrsvd h; a_opcode := a_opcode h; a_flags := 0x3; a_ctrl_id := id;
     a_cdw1 := a_cdw1 h; a_cdw2 := a_cdw2 h; a_cdw3 := a_cdw3 h; a_cdw4 := a_cdw4 h; a_cdw5 := a_cdw5 h;
     a_doff := doff; a_dlen := dlen; a_rsvd0 := a_rsvd0 h; a_rsvd1 := a_rsvd1 h;
     a_cdw10 := a_cdw10 h; a_cdw11 := a_cdw11 h; a_cdw12 := a_cdw12 h; a_cdw13 := a_cdw13 h;
     a_cdw14 := a_cdw14 h; a_cdw15 := a_cdw15 h |}.

(** [data] is the payload behind the request; [resp_hdr] and [resp_data] are
    the caller's buffer for the response. *)
Definition libnvme_mi_admin_xfer (id : Z) (admin_req : nvme_mi_admin_req_hdr) (data : list Z)
    (resp_hdr resp_data : list Z) (resp_data_offset resp_data_size : Z) : M (ret * libnvme_mi_resp) :=
  let req_data_size := Z.of_nat (length data) in
  let resp := mk_resp resp_hdr sizeof_admin_resp_hdr resp_data resp_data_size in
  if 4096 <? resp_data_size then ret_ (Errno EINVAL, resp)
  else if 0xffffffff <? resp_data_offset then ret_ (Errno EINVAL, resp)
  else if negb (Z.land req_data_size 0x3 =? 0) || negb (Z.land resp_data_size 0x3 =? 0) ||
          negb (Z.land resp_data_offset 0x3 =? 0) then ret_ (Errno EINVAL, resp)
  else if negb (req_data_size =? 0) && negb (resp_data_size =? 0) then ret_ (Errno EINVAL, resp)
  else if (resp_data_size =? 0) && negb (resp_data_offset =? 0) then ret_ (Errno EINVAL, resp)
  else
    let! csi := get_ep ep_csi in
    let '(dlen, doff) :=
      if negb (req_data_size =? 0) then (u32 req_data_size, 0)
      else (u32 resp_data_size, u32 resp_data_offset) in
    submit (mk_req (admin_req_bytes (xfer_hdr admin_req csi id dlen doff)) data) resp.

Definition libnvme_mi_mi_xfer (mi_req : nvme_mi_mi_req_hdr) (data resp_hdr resp_data : list Z)
    (resp_data_size : Z) : M (ret * libnvme_mi_resp) :=
  let resp := mk_resp resp_hdr 8 resp_data resp_data_size in
  if 4096 <? resp_data_size then ret_ (Errno EINVAL, resp)
  else
    let! csi := get_ep ep_csi in
    submit (mk_req (mi_req_bytes (with_nmp mi_req (req_nmp NVME_MI_MT_MI csi))) data) resp.

Record nvme_mi_pcie_req_hdr := {
  p_meb : Z; p_hrsvd : Z; p_opcode : Z; p_rsvd : Z; p_ctrlid : Z; p_nmd0 : Z; p_nmd1 : Z; p_nmd2 : Z }.

(** Its 20 bytes, with the type and the parameters the library sets. *)
Definition pcie_req_bytes (csi : Z) (h : nvme_mi_pcie_req_hdr) : list Z :=
  [NVME_MI_MSGTYPE_NVME; req_nmp NVME_MI_MT_PCIE csi; p_meb h; p_hrsvd h; p_opcode h; p_rsvd h] ++
  to_le 2 (p_ctrlid h) ++ to_le 4 (p_nmd0 h) ++ to_le 4 (p_nmd1 h) ++ to_le 4 (p_nmd2 h).

Definition libnvme_mi_pcie_xfer (pcie_req : nvme_mi_pcie_req_hdr) (data resp_hdr resp_data : list Z)
    (resp_data_size : Z) : M (ret * libnvme_mi_resp) :=
  let resp := mk_resp resp_hdr 8 resp_data resp_data_size in
  if 4096 <? resp_data_size then do! set_errno EINVAL in ret_ (Errno EPERM, resp)
  else
    let! csi := get_ep ep_csi in
    let! x := submit (libnvme_mi_calc_req_mic (mk_req (pcie_req_bytes csi pcie_req) data)) resp in
    let '(rc, resp) := x in
    if negb (is_success rc) then ret_ (rc, resp) else ret_ (status_ret (resp_status resp), resp).

(** ** Control primitives *)

Definition libnvme_mi_control_init_req (csi opcode cpsp : Z) : list Z :=
  [NVME_MI_MSGTYPE_NVME; req_nmp NVME_MI_MT_CONTROL csi; 0; 0; opcode; 0] ++ to_le 2 cpsp.

Definition libnvme_mi_control_parse_status (resp : libnvme_mi_resp) : ret * option Z :=
  if r_hdr_len resp <? 8 then (Errno EPROTO, None)
  else if negb (resp_status resp =? 0)
       then (Status (resp_status resp .| Z.shiftl NVME_STATUS_TYPE_MI NVME_STATUS_TYPE_SHIFT), None)
  else (Success, Some (le (take 2 (drop 6 (r_hdr resp))))).

(** With the response, where there is one. *)
Definition libnvme_mi_control (opcode cpsp : Z) : M (ret * option Z) :=
  let! csi := get_ep ep_csi in
  let! hdr := uninit E 8 in
  let! x := submit (mk_req (libnvme_mi_control_init_req csi opcode cpsp) []) (mk_resp hdr 8 [] 0) in
  let '(rc, resp) := x in
  if negb (is_success rc) then ret_ (rc, None) else ret_ (libnvme_mi_control_parse_status resp).

(** ** Commands to the endpoint *)

(** One command: the request and the object for the data; the status of the
    endpoint is an error too. *)
Definition mi_command (req : Z → nvme_mi_mi_req_hdr) (out data : list Z) (data_len : Z) :
    M (ret * libnvme_mi_resp) :=
  let! csi := get_ep ep_csi in
  let! hdr := uninit E 8 in
  let! x := submit (mk_req (mi_req_bytes (req csi)) out) (mk_resp hdr 8 data data_len) in
  let '(rc, resp) := x in
  if negb (is_success rc) then ret_ (rc, resp)
  else ret_ (status_ret (resp_status resp), resp).

(** The result: the data and how much of it was received. *)
Definition libnvme_mi_read_data (cdw0 : Z) (data : list Z) (data_len : Z) : M (ret * list Z * Z) :=
  let! x := mi_command (λ csi, libnvme_mi_mi_init_req csi cdw0 nvme_mi_mi_opcode_mi_data_read) [] data data_len in
  let '(rc, resp) := x in
  ret_ (rc, r_data resp, if is_success rc then r_data_len resp else data_len).

(** A data structure of [n] bytes, all of which must come. *)
Definition read_exactly (cdw0 : Z) (s : list Z) (n : Z) : M (ret * list Z) :=
  let! x := libnvme_mi_read_data cdw0 s n in
  let '(rc, s, len) := x in
  if negb (is_success rc) then ret_ (rc, s)
  else if negb (len =? n) then ret_ (Errno EPROTO, s) else ret_ (Success, s).

Definition libnvme_mi_mi_read_mi_data_subsys (s : list Z) : M (ret * list Z) :=
  read_exactly (Z.shiftl nvme_mi_dtyp_subsys_info 24) s 32.
Definition libnvme_mi_mi_read_mi_data_port (portid : Z) (p : list Z) : M (ret * list Z) :=
  read_exactly (Z.shiftl nvme_mi_dtyp_port_info 24 .| Z.shiftl portid 16) p 32.
Definition libnvme_mi_mi_read_mi_data_ctrl (ctrl_id : Z) (ctrl : list Z) : M (ret * list Z) :=
  read_exactly (Z.shiftl nvme_mi_dtyp_ctrl_info 24 .| ctrl_id) ctrl 32.

(** Any length will do. *)
Definition libnvme_mi_mi_read_mi_data_ctrl_list (start_ctrlid : Z) (l : list Z) : M (ret * list Z) :=
  let! x := libnvme_mi_read_data (Z.shiftl nvme_mi_dtyp_ctrl_list 24 .| Z.shiftl start_ctrlid 16) l 4096 in
  let '(rc, l, _) := x in ret_ (rc, l).

Definition libnvme_mi_mi_subsystem_health_status_poll (clear : bool) (sshs : list Z) : M (ret * list Z) :=
  let! x := mi_command (λ csi, with_cdw1 (libnvme_mi_mi_init_req csi 0 nvme_mi_mi_opcode_subsys_health_status_poll)
                                 (Z.shiftl (Z.b2z clear) 31)) [] sshs 8 in
  let '(rc, resp) := x in
  if negb (is_success rc) then ret_ (rc, r_data resp)
  else if negb (r_data_len resp =? 8) then ret_ (Errno EPROTO, r_data resp) else ret_ (Success, r_data resp).

Definition pda_req (opcode dformat dofst dlen csi : Z) : nvme_mi_mi_req_hdr :=
  with_cdw1 (with_dformat (libnvme_mi_mi_init_req csi dofst opcode) dformat) dlen.

Definition libnvme_mi_mi_pda_read (dformat dofst dlen : Z) (data : list Z) (data_len : Z) :
    M (ret * list Z * Z) :=
  let! x := mi_command (pda_req nvme_mi_mi_opcode_pda_read dformat dofst dlen) [] data data_len in
  let '(rc, resp) := x in
  ret_ (rc, r_data resp, if is_success rc then r_data_len resp else data_len).
Definition libnvme_mi_mi_pda_write (dformat dofst dlen : Z) (data : list Z) : M ret :=
  let! x := mi_command (pda_req nvme_mi_mi_opcode_pda_write dformat dofst dlen) data [] 0 in ret_ x.1.
Definition libnvme_mi_mi_pda_write_zeroes (dformat dofst dlen : Z) : M ret :=
  let! x := mi_command (pda_req nvme_mi_mi_opcode_pda_write_zeroes dformat dofst dlen) [] [] 0 in ret_ x.1.

(** *** Configuration *)

(** The three bytes of the management response. *)
Definition nmresp_of (resp : libnvme_mi_resp) : Z := le (take 3 (drop 5 (r_hdr resp))).

(** The data, its length and the management response. *)
Definition libnvme_mi_mi_config_set_get_ex (opcode dw0 dw1 : Z) (data_out data_in : list Z) (data_in_len : Z) :
    M (ret * list Z * Z * Z) :=
  let! x := mi_command (λ csi, with_cdw1 (libnvme_mi_mi_init_req csi dw0 opcode) dw1) data_out data_in data_in_len in
  let '(rc, resp) := x in
  if negb (is_success rc) then ret_ (rc, r_data resp, data_in_len, 0)
  else ret_ (Success, r_data resp, r_data_len resp, nmresp_of resp).

(** The response is stored on success. *)
Definition libnvme_mi_mi_config_get (dw0 dw1 : Z) : M (ret * option Z) :=
  let! x := libnvme_mi_mi_config_set_get_ex nvme_mi_mi_opcode_configuration_get dw0 dw1 [] [] 0 in
  let '(rc, _, _, nmresp) := x in ret_ (rc, if is_success rc then Some nmresp else None).
Definition libnvme_mi_mi_config_set (dw0 dw1 : Z) : M ret :=
  let! x := libnvme_mi_mi_config_set_get_ex nvme_mi_mi_opcode_configuration_set dw0 dw1 [] [] 0 in
  let '(rc, _, _, _) := x in ret_ rc.

(** ** The controllers of the endpoint *)

(** The [for] loop: handles for the identifiers, until the memory is out. *)
Fixpoint add_controllers (ids : list Z) : M unit :=
  match ids with
  | [] => ret_ tt
  | id :: ids' =>
      let! ok := libnvme_mi_init_transport_handle E id in
      if ok then add_controllers ids' else ret_ tt
  end.

Definition NVME_ID_CTRL_LIST_MAX : Z := 2047.

(** The [i]-th identifier of [struct nvme_ctrl_list]. *)
Definition list_identifier (list : list Z) (i : nat) : Z := le (take 2 (drop (2 + 2 * i) list)).

Definition libnvme_mi_scan_ep (force_rescan : bool) : M ret :=
  let! scanned := get_ep controllers_scanned in
  if scanned && negb force_rescan then ret_ Success
  else
    do! (if scanned : bool then upd_ep (λ e, set_controllers e (controllers_scanned e) []) else ret_ tt) in
    let! list := uninit E 4096 in
    let! x := libnvme_mi_mi_read_mi_data_ctrl_list 0 list in
    let '(rc, list) := x in
    if negb (is_success rc) then ret_ rc
    else
      let n_ctrl := le (take 2 list) in
      if NVME_ID_CTRL_LIST_MAX <? n_ctrl then ret_ (Errno EPROTO)
      else
        do! add_controllers (list_identifier list <$> seq 0 (Z.to_nat n_ctrl)) in
        do! upd_ep (λ e, set_controllers e true (controllers e)) in
        ret_ Success.

End Commands.

(** ** Exchanges *)

(** The answer of an endpoint to an MI command, without data. *)
Definition mi_reply (csi status nmresp : Z) : list Z :=
  [NVME_MI_MSGTYPE_NVME; Z.shiftl NVME_MI_ROR_RSP 7 .| Z.shiftl NVME_MI_MT_MI 3 .| Z.land csi 1; 0; 0; status] ++
  to_le 3 nmresp.

Lemma mi_reply_bytes csi status nmresp : is_byte status → bytes (mi_reply csi status nmresp).
Proof.
  intros Hs. unfold mi_reply. apply bytes_app. split; [|apply to_le_bytes].
  repeat constructor; try done; try apply Hs; by destruct (slot_cases csi) as [H|H]; rewrite H.
Qed.

Section Exchange.
Context (E : env) (Hsend : can_send E) (polls : nat).

(** A request built from [libnvme_mi_mi_init_req]. *)
Definition mi_request (req : Z → nvme_mi_mi_req_hdr) : Prop :=
  ∀ csi, length (m_rsvd0 (req csi)) = 3%nat ∧ m_nmp (req csi) = req_nmp NVME_MI_MT_MI csi.

Lemma check_mi_reply req csi out status nmresp r :
  mi_request req → r_hdr r = mi_reply csi status nmresp → r_hdr_len r = 8 →
  check_resp (mk_req (mi_req_bytes (req csi)) out) r = Success.
Proof.
  intros Hreq Hh Hl. unfold check_resp. rewrite Hl, Hh. cbn [mk_req q_hdr].
  change (8 <? sizeof_msg_hdr) with false.
  change (char_at (mi_reply csi status nmresp) 0) with NVME_MI_MSGTYPE_NVME.
  change (char_at (mi_reply csi status nmresp) 1) with
    (Z.shiftl NVME_MI_ROR_RSP 7 .| Z.shiftl NVME_MI_MT_MI 3 .| Z.land csi 1).
  change (char_at (mi_req_bytes (req csi)) 1) with (m_nmp (req csi)).
  rewrite (proj2 (Hreq csi)). unfold req_nmp. by destruct (slot_cases csi) as [-> | ->].
Qed.

(** an endpoint that answers an MI command, after any number of
    interruptions and of requests for more time that the loop has room for:
    its status is returned, its data and its management response are handed
    over, and the memory behind the data stays as it was. *)
Theorem mi_command_exchange req out buf data_len s data status nmresp m t' :
  settled (ep s) → mi_request req →
  0 ≤ data_len ≤ Z.of_nat (length buf) → Z.of_nat (length data) ≤ data_len → bytes data →
  is_byte status → status ≠ NVME_MI_RESP_MPR → 0 ≤ nmresp < 2 ^ 24 →
  MiCrc.framed (mi_reply (ep_csi (ep s)) status nmresp ++ data) m →
  replies E polls (mk_req (mi_req_bytes (req (ep_csi (ep s)))) out) (mk_resp [] 8 [] data_len) s m t' →
  ∃ r s', mi_command E polls req out buf data_len s = Ret (status_ret status, r) s' ∧
    same_ep (ep s) (ep s') ∧ r_data r = data ++ drop (length data) buf ∧
    r_data_len r = Z.of_nat (length data) ∧ nmresp_of r = nmresp.
Proof using Hsend.
  intros Hset Hreq Hbuf Hlen Hdata Hst Hmpr Hnm Hf Hrep. unfold mi_command.
  unfold bind at 1, get_ep, get at 1. unfold bind at 1, uninit, get at 1. set (hdr := garbage E _ <$> _).
  assert (length hdr = 8%nat) as Hh by (unfold hdr; by rewrite length_fmap, length_seq).
  set (csi := ep_csi (ep s)) in *.
  assert (length (mi_req_bytes (req csi)) = 16%nat) as Hql.
  { unfold mi_req_bytes. rewrite !length_app, !to_le_length, (proj1 (Hreq csi)). done. }
  destruct (submit_reply E Hsend polls (mk_req (mi_req_bytes (req csi)) out) (mk_resp hdr 8 buf data_len)
    (mi_reply csi status nmresp) data m t' s) as (r & s' & Heq & He & [Hrh Hrl Hrdl Hrd]); try done.
  - cbn [mk_req q_hdr]. by rewrite Hql.
  - cbn [mk_req q_hdr]. by rewrite Hql.
  - apply bytes_app. split; [by apply mi_reply_bytes|done].
  - intros r Hr Hl. by eapply check_mi_reply.
  - unfold bind, submit. rewrite Heq. cbn [is_success negb]. exists r, s'.
    unfold resp_status, nmresp_of. rewrite Hrh. split_and!; try done. by apply (le_to_le 3).
Qed.

(** ** The scan *)

(** The data structure an endpoint returns for its controllers. *)
Definition ctrl_list (ids : list Z) : list Z :=
  resize 4096 0 (to_le 2 (Z.of_nat (length ids)) ++ concat (to_le 2 <$> ids)).

Lemma concat_to_le_length n ids : length (concat (to_le n <$> ids)) = (n * length ids)%nat.
Proof. induction ids as [|v ids IH]; cbn; [lia|]. rewrite length_app, to_le_length, IH. lia. Qed.

Lemma list_identifier_spec ids :
  (length ids ≤ 2047)%nat → Forall (in_width 16) ids →
  list_identifier (ctrl_list ids) <$> seq 0 (length ids) = ids.
Proof.
  intros Hn Hw. apply list_eq. intros i. rewrite list_lookup_fmap.
  destruct (decide (i < length ids)%nat) as [Hi|Hi].
  - rewrite lookup_seq_lt by done. cbn [fmap option_fmap option_map Nat.add].
    destruct (lookup_lt_is_Some_2 ids i Hi) as [v Hv]. rewrite Hv. f_equal.
    unfold list_identifier, ctrl_list. rewrite resize_ge by (rewrite length_app, to_le_length, concat_to_le_length; lia).
    rewrite <- (take_drop_middle _ _ _ Hv). rewrite fmap_app, concat_app. cbn [fmap list_fmap concat].
    rewrite <- !app_assoc, app_assoc, drop_app_length'.
    + rewrite take_app_le, take_ge by (by rewrite to_le_length).
      apply (le_to_le 2), (Forall_lookup_1 _ _ _ _ Hw Hv).
    + rewrite length_app, to_le_length, concat_to_le_length, length_take. lia.
  - rewrite (lookup_ge_None_2 (seq _ _)) by (rewrite length_seq; lia).
    by rewrite (lookup_ge_None_2 ids) by lia.
Qed.

Lemma ctrl_list_count ids : (length ids ≤ 2047)%nat → le (take 2 (ctrl_list ids)) = Z.of_nat (length ids).
Proof.
  intros Hn. unfold ctrl_list. rewrite resize_ge by (rewrite length_app, to_le_length, concat_to_le_length; lia).
  rewrite <- app_assoc, take_app_le, take_ge by (by rewrite to_le_length). apply (le_to_le 2). cbn. lia.
Qed.

Lemma ctrl_list_bytes ids : bytes (ctrl_list ids).
Proof.
  unfold ctrl_list. apply Forall_resize; [done|]. apply bytes_app. split; [apply to_le_bytes|].
  induction ids as [|v ids IH]; [constructor|]. apply bytes_app. split; [apply to_le_bytes|done].
Qed.

Lemma add_controllers_all ids s :
  (∀ t, handle_ok E t = true) →
  ∃ s', add_controllers E ids s = Ret tt s' ∧
    ep s' = set_controllers (ep s) (controllers_scanned (ep s)) (controllers (ep s) ++ ids).
Proof.
  intros Hok. revert s. induction ids as [|id ids IH]; intros s.
  - eexists. split; [done|]. rewrite app_nil_r. by destruct (ep s).
  - cbn [add_controllers]. unfold libnvme_mi_init_transport_handle, bind, call. rewrite Hok.
    cbn [upd_ep modify set_ep ep ret_].
    match goal with |- context [add_controllers E ids ?s1] => destruct (IH s1) as (s' & -> & He) end.
    exists s'. split; [done|]. rewrite He. cbn. by rewrite <- app_assoc.
Qed.

(** The command that asks for the controllers. *)
Definition ctrl_list_req (csi : Z) : libnvme_mi_req :=
  mk_req (mi_req_bytes (libnvme_mi_mi_init_req csi (Z.shiftl nvme_mi_dtyp_ctrl_list 24)
                          nvme_mi_mi_opcode_mi_data_read)) [].

(** a scan of an endpoint that returns the list of its controllers: there
    is a handle for each of them, in their order, behind the handles that
    were there before or, for a repeated scan, in their place. *)
Theorem mi_scan_controllers force s ids m t' :
  settled (ep s) → (∀ t, handle_ok E t = true) →
  (length ids ≤ 2047)%nat → Forall (in_width 16) ids →
  controllers_scanned (ep s) && negb force = false →
  MiCrc.framed (mi_reply (ep_csi (ep s)) 0 0 ++ ctrl_list ids) m →
  let e0 := if controllers_scanned (ep s) then set_controllers (ep s) true [] else ep s in
  replies E polls (ctrl_list_req (ep_csi (ep s))) (mk_resp [] 8 [] 4096) (set_ep e0 s) m t' →
  ∃ s', libnvme_mi_scan_ep E polls force s = Ret Success s' ∧
    controllers (ep s') = controllers e0 ++ ids ∧ controllers_scanned (ep s') = true.
Proof using Hsend.
  intros Hset Hok Hn Hw Hgo Hf e0 Hrep. unfold libnvme_mi_scan_ep.
  unfold bind at 1, get_ep at 1, get at 1. rewrite Hgo. set (s0 := set_ep e0 s) in *.
  assert ((if controllers_scanned (ep s) then upd_ep (λ e, set_controllers e (controllers_scanned e) [])
           else ret_ tt) s = Ret tt s0) as H0.
  { unfold s0, e0, upd_ep, modify. destruct (controllers_scanned (ep s)) eqn:Hsc; [by rewrite Hsc|].
    by destruct s. }
  unfold bind at 1. rewrite H0. unfold bind at 1, uninit at 1, get at 1.
  assert (settled (ep s0) ∧ ep_csi (ep s0) = ep_csi (ep s)) as [Hset0 Hcsi].
  { unfold s0, e0. by destruct (controllers_scanned (ep s)). }
  assert (length (ctrl_list ids) = 4096%nat) as Hll by (unfold ctrl_list; apply length_resize).
  set (junk := garbage E _ <$> _).
  assert (length junk = 4096%nat) as Hj by (unfold junk; by rewrite length_fmap, length_seq).
  destruct (mi_command_exchange (λ csi, libnvme_mi_mi_init_req csi (Z.shiftl nvme_mi_dtyp_ctrl_list 24)
      nvme_mi_mi_opcode_mi_data_read) [] junk 4096 s0 (ctrl_list ids) 0 0 m t')
    as (r & s1 & Heq & He & Hrd & _ & _); [done|done|lia|lia|apply ctrl_list_bytes|done|done|done|
    by rewrite Hcsi|by rewrite Hcsi|].
  unfold bind at 1, libnvme_mi_mi_read_mi_data_ctrl_list, libnvme_mi_read_data, bind at 1 2.
  change (Z.shiftl nvme_mi_dtyp_ctrl_list 24 .| Z.shiftl 0 16) with (Z.shiftl nvme_mi_dtyp_ctrl_list 24).
  rewrite Heq. cbn [status_ret Z.eqb ret_ is_success negb].
  rewrite Hrd, drop_ge, app_nil_r by lia. rewrite ctrl_list_count by done.
  destruct (Z.ltb_spec NVME_ID_CTRL_LIST_MAX (Z.of_nat (length ids))) as [H|_];
    [unfold NVME_ID_CTRL_LIST_MAX in H; lia|].
  rewrite Nat2Z.id, list_identifier_spec by done.
  destruct (add_controllers_all ids s1 Hok) as (s2 & Hadd & He2). unfold bind at 1. rewrite Hadd.
  eexists. split; [done|]. cbn. rewrite He2. cbn. by destruct He as [b ->].
Qed.
End Exchange.

(** ** Runs *)

Module ScanSample.

Definition ids : list Z := [1; 0x102; 0xfffe].
Definition list_msg : list Z := MiSample.frame (mi_reply 0 0 0 ++ ctrl_list ids).
Definition E : env := MiSample.socket [MiSample.wait_msg; list_msg].

Lemma list_replies :
  ∃ t', replies E 3 (ctrl_list_req 0) (mk_resp [] 8 [] 4096) MiSample.start list_msg t'.
Proof.
  eexists. exists 2%nat. split; [lia|].
  eapply ans_intr; [vm_compute; reflexivity|].
  eapply ans_mpr; [vm_compute; reflexivity|done|vm_compute; reflexivity|apply MiSample.wait_is_mpr|
    vm_compute; congruence|].
  eapply ans_final; [vm_compute; reflexivity|done|reflexivity].
Qed.

(** An endpoint that was scanned. *)
Definition scanned : state := set_ep (set_controllers MiSample.endpoint true [1; 2]) MiSample.start.

(** The first message is the response; the stack has a list of two. *)
Definition stack : list Z := [2; 0; 0xbe; 0xba; 0xef; 0xbe].
Definition E_short : env :=
  {| ioctl_tag := λ _, inr 0x18; sendmsg := λ _, None; realloc := λ _, Some []; poll := λ _, inr 1;
     recvmsg := λ _, inr (MiSample.frame (mi_reply 0 0 0)); clock_gettime := λ _, None;
     handle_ok := λ _, true; garbage := λ _ i, char_at stack i; stack_addr := 0x7f00;
     mi_probe_enabled := true |}.

End ScanSample.

Lemma mi_command_exchange_witness :
  ∃ r s', mi_command ScanSample.E 3 (λ csi, libnvme_mi_mi_init_req csi (Z.shiftl nvme_mi_dtyp_ctrl_list 24)
      nvme_mi_mi_opcode_mi_data_read) [] (replicate 4096 0) 4096 MiSample.start = Ret (Success, r) s' ∧
    r_data_len r = 4096.
Proof.
  destruct ScanSample.list_replies as [t' Hr].
  destruct (mi_command_exchange ScanSample.E (MiSample.socket_sends _) 3
    (λ csi, libnvme_mi_mi_init_req csi (Z.shiftl nvme_mi_dtyp_ctrl_list 24) nvme_mi_mi_opcode_mi_data_read) []
    (replicate 4096 0) 4096 MiSample.start (ctrl_list ScanSample.ids) 0 0 ScanSample.list_msg t')
    as (r & s' & Heq & _ & _ & Hl & _);
    [done|done|split; vm_compute; congruence|vm_compute; congruence|apply ctrl_list_bytes|done|done|done|
     vm_compute; reflexivity|exact Hr|].
  exists r, s'. split; [exact Heq|]. rewrite Hl. vm_compute. reflexivity.
Defined.

Lemma mi_scan_controllers_witness :
  ∃ s', libnvme_mi_scan_ep ScanSample.E 3 false MiSample.start = Ret Success s' ∧
    controllers (ep s') = ScanSample.ids ∧ controllers_scanned (ep s') = true.
Proof.
  destruct ScanSample.list_replies as [t' Hr].
  eapply (mi_scan_controllers ScanSample.E (MiSample.socket_sends _) 3 false MiSample.start ScanSample.ids
    ScanSample.list_msg t');
    [done|done|cbn; lia|repeat constructor; by vm_compute|done|vm_compute; reflexivity|exact Hr].
Defined.

(** A scan with [force_rescan] whose command fails has closed the handles and
    leaves [controllers_scanned] set: the next scan returns 0 and finds none. *)
Theorem mi_scan_failed_rescan :
  ∃ s1 s2, libnvme_mi_scan_ep (MiSample.socket []) 3 true ScanSample.scanned = Ret (Errno EPERM) s1 ∧
    libnvme_mi_scan_ep (MiSample.socket []) 3 false s1 = Ret Success s2 ∧ controllers (ep s2) = [].
Proof. eexists _, _. split; [vm_compute; reflexivity|]. split; vm_compute; reflexivity. Qed.

(** The length of the list is not checked: a response without data makes the
    scan take the controllers from what was on the stack. *)
Theorem mi_scan_short_list :
  ∃ s', libnvme_mi_scan_ep ScanSample.E_short 3 false MiSample.start = Ret Success s' ∧
    controllers (ep s') = [0xbabe; 0xbeef].
Proof. eexists. split; vm_compute; reflexivity. Qed.
