(* ===== verification/MiAem.v ===== *)
(** * Asynchronous events over NVMe-MI: [libnvme/src/nvme/mi.c], [mi-mctp.c]

    An endpoint reports events in lists of variable-length entries: on its
    own, in an asynchronous event message, and in the responses to the
    commands that enable and acknowledge events.  The library checks a list
    and lets the application walk it, entry by entry, while the list is in a
    buffer on the stack.

    The application's handler is a parameter: how often it asks for the next
    event, and whether it acknowledges. *)

From stdpp Require Import base list numbers.
From S2P Require Import Prelude.
From S2P Require Import CStr.
From S2P Require Import Io.
From S2P Require Import Crc32.
From S2P Require Import Mi.
From S2P Require Import MiSpec.
From S2P Require Import MiCommands.

#[local] Open Scope io_scope.

Infix ".|" := Z.lor (at level 52, left associativity).

(** ** Fields *)

Definition nvme_mi_aem_aeei_get_aee (aeei : Z) : bool := negb (Z.land aeei 0x8000 =? 0).
Definition nvme_mi_aem_aeei_get_aeeid (aeei : Z) : Z := Z.land aeei 0xFF.
Definition nvme_mi_aem_aeei_set_aeeid (aeei aeeid : Z) : Z := u16 (Z.land aeei 0xFF00 .| aeeid).
Definition nvme_mi_aem_aeei_set_aee (aeei : Z) (enabled : bool) : Z :=
  u16 (Z.land aeei 0xFF .| Z.shiftl (Z.b2z enabled) 15).

Definition nvme_mi_aem_aesi_get_aese (aesi : Z) : bool := negb (Z.land aesi 0x8000 =? 0).
Definition nvme_mi_aem_aesi_get_aesid (aesi : Z) : Z := Z.land aesi 0xff.
Definition nvme_mi_aem_aesi_set_aesid (aesi aesid : Z) : Z := u16 (Z.land aesi 0xFF00 .| aesid).
Definition nvme_mi_aem_aesi_set_aee (aesi : Z) (enabled : bool) : Z :=
  u16 (Z.land aesi 0xFF .| Z.shiftl (Z.b2z enabled) 15).

Definition nvme_mi_aem_aemti_get_aemgn (aemti : Z) : Z := Z.land (Z.shiftr aemti 3) 0x1f.

Definition nvme_mi_aem_aeolli_get_aeoltl (aeolli : list Z) : Z :=
  Z.land (char_at aeolli 0 .| Z.shiftl (char_at aeolli 1) 8 .| Z.shiftl (char_at aeolli 2) 16) 0x7FFFFF.

Definition nvme_mi_aem_aeolli_set_aeoltl (aeolli : list Z) (aeoltl : Z) : list Z :=
  [Z.land aeoltl 0xFF; Z.land (Z.shiftr aeoltl 8) 0xFF;
   Z.land (char_at aeolli 2) 128 .| Z.land (Z.shiftr aeoltl 16) 0x7F].

(** ** State *)

Record libnvme_mi_aem_config := {
  (** [enabled_map]: 256 entries *)
  enabled : list bool;
  envfa : bool; empfa : bool; encfa : bool; aemd : Z; aerd : Z }.

(** The pointers are offsets in the response buffer. *)
Record libnvme_mi_event := {
  aeoi : Z; aessi : Z; aeocidi : Z;
  spec_info : nat; spec_info_len : Z; vend_spec_info : nat; vend_spec_info_len : Z }.

Record libnvme_mi_aem_ctx := {
  occ_header : option nat;
  list_current : option nat;
  list_current_index : Z;
  callbacks : libnvme_mi_aem_config;
  last_generation_num : Z }.

(** The endpoint with its context, the transport's buffer for events, the
    response buffer of the call that is running, and the events that were
    handed to the application. *)
Record aem_state := {
  mi : state;
  aem_ctx : option libnvme_mi_aem_ctx;
  resp_buf_aem : list Z;
  response_buffer : list Z;
  handed : list libnvme_mi_event }.

Abbreviation M A := (aem_state → run aem_state A) (only parsing).

Definition set_ctx (c : option libnvme_mi_aem_ctx) (a : aem_state) : aem_state :=
  {| mi := mi a; aem_ctx := c; resp_buf_aem := resp_buf_aem a; response_buffer := response_buffer a;
     handed := handed a |}.
Definition set_response (b : list Z) (a : aem_state) : aem_state :=
  {| mi := mi a; aem_ctx := aem_ctx a; resp_buf_aem := resp_buf_aem a; response_buffer := b;
     handed := handed a |}.
Definition set_aem_buf (b : list Z) (a : aem_state) : aem_state :=
  {| mi := mi a; aem_ctx := aem_ctx a; resp_buf_aem := b; response_buffer := response_buffer a;
     handed := handed a |}.
Definition hand (e : libnvme_mi_event) (a : aem_state) : aem_state :=
  {| mi := mi a; aem_ctx := aem_ctx a; resp_buf_aem := resp_buf_aem a; response_buffer := response_buffer a;
     handed := handed a ++ [e] |}.

(** A call of the message layer. *)
Definition lift {A} (m : state → run state A) : M A := λ a,
  match m (mi a) with
  | Ret x s => Ret x {| mi := s; aem_ctx := aem_ctx a; resp_buf_aem := resp_buf_aem a;
                        response_buffer := response_buffer a; handed := handed a |}
  | Wild => Wild
  | NoFuel => NoFuel
  end.

(** One byte of the response buffer. *)
Definition byte_at (i : nat) : M Z := λ a,
  match response_buffer a !! i with Some v => Ret v a | None => Wild end.

(** ** Occurrence lists *)

Definition sizeof_occ_list_hdr : Z := 7.
Definition sizeof_occ_data : Z := 9.

(** The [for] loop of the check: [n] entries are left, the first is at [cur]. *)
Fixpoint validate_entries (n : nat) (ctx : libnvme_mi_aem_ctx) (aeoltl : Z) (cur : nat) (bytes_so_far : Z) : M ret :=
  match n with
  | O => ret_ Success
  | S n' =>
      let! aelhlen := byte_at cur in
      if negb (aelhlen =? sizeof_occ_data) then ret_ (Errno EPROTO)
      else
        let! aeoi := byte_at (cur + 3) in
        if negb (default false (enabled (callbacks ctx) !! Z.to_nat aeoi)) then ret_ (Errno EPROTO)
        else
          let! aeosil := byte_at (cur + 1) in
          let! aeovsil := byte_at (cur + 2) in
          let offset := sizeof_occ_data + aeosil + aeovsil in
          let bytes_so_far := bytes_so_far + offset in
          if aeoltl <? bytes_so_far then ret_ (Errno EPROTO)
          else validate_entries n' ctx aeoltl (cur + Z.to_nat offset) bytes_so_far
  end.

(** [hdr] is the offset of the header. *)
Definition validate_occ_list_update_ctx (hdr : nat) (len : Z) (check_generation_num : bool) : M ret :=
  let! c := get aem_ctx in
  match c with
  | None => λ _, Wild
  | Some ctx =>
      if len <? sizeof_occ_list_hdr then ret_ (Errno EPROTO)
      else
        let! b := get response_buffer in
        let! h := load b hdr 7 in
        let aeoltl := nvme_mi_aem_aeolli_get_aeoltl (take 3 (drop 2 h)) in
        let aemgn := nvme_mi_aem_aemti_get_aemgn (char_at h 6) in
        if negb (char_at h 1 =? 0) || negb (char_at h 5 =? sizeof_occ_list_hdr) then ret_ (Errno EPROTO)
        else if len <? aeoltl then ret_ (Errno EPROTO)
        else
          let dup := check_generation_num && (last_generation_num ctx =? aemgn) in
          do! (if dup then modify (set_response (<[hdr := 0]> b)) else ret_ tt) in
          let ctx :=
            {| occ_header := Some hdr; list_current := Some (hdr + 7)%nat; list_current_index := 0;
               callbacks := callbacks ctx;
               last_generation_num := if check_generation_num && negb dup then aemgn
                                      else last_generation_num ctx |} in
          do! modify (set_ctx (Some ctx)) in
          let! numaeo := byte_at hdr in
          validate_entries (Z.to_nat numaeo) ctx aeoltl (hdr + 7) (char_at h 5)
  end.

Definition reset_list_info : M unit :=
  modify (λ a, set_ctx (match aem_ctx a with
    | None => None
    | Some c => Some {| occ_header := None; list_current := None; list_current_index := -1;
                        callbacks := callbacks c; last_generation_num := last_generation_num c |}
    end) a).

(** [None] is NULL. *)
Definition libnvme_mi_aem_get_next_event : M (option libnvme_mi_event) :=
  let! c := get aem_ctx in
  match c with
  | Some ctx =>
      match list_current ctx, occ_header ctx with
      | Some cur, Some hdr =>
          if list_current_index ctx =? -1 then ret_ None
          else
            let! numaeo := byte_at hdr in
            if numaeo <=? list_current_index ctx then ret_ None
            else
              let! b := get response_buffer in
              let! d := load b cur 9 in
              let spec := (cur + Z.to_nat (char_at d 0))%nat in
              let vend := (spec + Z.to_nat (char_at d 1))%nat in
              let ev :=
                {| aeoi := char_at d 3; aessi := char_at d 8; aeocidi := le (take 4 (drop 4 d));
                   spec_info := spec; spec_info_len := char_at d 1;
                   vend_spec_info := vend; vend_spec_info_len := char_at d 2 |} in
              do! modify (set_ctx (Some
                    {| occ_header := occ_header ctx;
                       list_current := Some (vend + Z.to_nat (char_at d 2))%nat;
                       list_current_index := list_current_index ctx + 1;
                       callbacks := callbacks ctx; last_generation_num := last_generation_num ctx |})) in
              ret_ (Some ev)
      | _, _ => ret_ None
      end
  | None => ret_ None
  end.

(** ** Supported and enabled events *)

(** [validate_enabled_list] on the bytes received; [len] of them. *)
Definition validate_enabled_list (l : list Z) (len : Z) : M ret :=
  if len <? 5 then ret_ (Errno EPROTO)
  else
    let! h := load l 0 5 in
    let numaes := char_at h 0 in
    let aest := le (take 2 (drop 2 h)) in
    if negb (char_at h 1 =? 0) then ret_ (Errno EPROTO)
    else if negb (char_at h 4 =? 5) then ret_ (Errno EPROTO)
    else if (len <? aest) || negb (aest =? char_at h 4 + numaes * 3) then ret_ (Errno EPROTO)
    else ret_ Success.

(** The loop over the items of the list; they begin at [off]. *)
Fixpoint read_enabled (n off : nat) (l : list Z) (map : list bool) : M (list bool) :=
  match n with
  | O => ret_ map
  | S n' =>
      let! item := load l off 3 in
      let aeei := le (drop 1 item) in
      read_enabled n' (off + 3) l
        (<[Z.to_nat (nvme_mi_aem_aeei_get_aeeid aeei) := nvme_mi_aem_aeei_get_aee aeei]> map)
  end.

(** An item of the list that is sent: its length, and the event. *)
Definition enable_item (i : Z) (on : bool) : list Z :=
  3 :: to_le 2 (nvme_mi_aem_aeei_set_aee (nvme_mi_aem_aeei_set_aeeid 0 i) on).

(** The loop over the 256 events: items for those of the map. *)
Definition sync_items (map : list bool) (on : bool) : list (list Z) :=
  (λ i, enable_item (Z.of_nat i) on) <$> List.filter (λ i, default false (map !! i)) (seq 0 256).

(** A list with its header. *)
Definition enable_list (numaee aeetl : Z) (items : list (list Z)) : list Z :=
  [numaee; 0] ++ to_le 2 aeetl ++ [5] ++ concat items.

Section Aem.
Context (E : env) (polls : nat) (eid : Z).

(** The socket for events: whether the address is complete, the endpoint it
    came from and the message, without its type byte. *)
Context (aem_recvmsg : list event → errno + (bool * Z * list Z)).
(** [malloc] and [socket]. *)
Context (malloc_ok : list event → bool) (aem_socket : list event → errno + Z).
(** The application: how often it asks for an event, and whether it acknowledges. *)
Context (handler : aem_state → Z → nat * bool).

(** *** Receiving *)

(** [-1], with [errno] set. *)
Definition aem_fail {A} (e : errno) : M (option A) := do! lift (set_errno e) in ret_ None.

Definition libnvme_mi_mctp_aem_read (resp : libnvme_mi_resp) : M (option libnvme_mi_resp) :=
  if r_hdr_len resp <? sizeof_msg_hdr then aem_fail EINVAL
  else
    let resp_len := r_hdr_len resp + r_data_len resp + 4 in
    let! b := get resp_buf_aem in
    let! tail := (if resp_len <=? Z.of_nat (length b) then ret_ (Some [])
                  else lift (call (EvRealloc resp_len) (realloc E))) in
    match tail with
    | None => aem_fail ENOMEM
    | Some tail =>
        do! (if resp_len <=? Z.of_nat (length b) then ret_ tt
             else modify (set_aem_buf (resize (Z.to_nat resp_len) 0 (b ++ tail)))) in
        let! r := lift (call (EvRecv (resp_len - 1)) aem_recvmsg) in
        match r with
        | inl e => aem_fail e
        | inr (name_ok, src, m) =>
            let m := take (Z.to_nat (resp_len - 1)) m in
            let! b := get resp_buf_aem in
            if (length b <? 1 + length m)%nat then λ _, Wild
            else
              do! modify (set_aem_buf (buf_write b 1 m)) in
              let len := Z.of_nat (length m) in
              if len =? 0 then aem_fail EIO
              else if negb name_ok then aem_fail EIO
              else if negb (eid =? src) then aem_fail EPROTO
              else
                do! modify (λ a, set_aem_buf (buf_write (resp_buf_aem a) 0 [MCTP_TYPE_NVME .| MCTP_TYPE_MIC]) a) in
                let len := len + 1 in
                if len <? 8 + 4 then aem_fail EPROTO
                else
                  let! buf := get resp_buf_aem in
                  let! mic := load buf (Z.to_nat (len - 4)) 4 in
                  let! r := lift (unpack buf resp (len - 4) (le mic)) in
                  ret_ (Some r)
        end
    end.

(** Until there is nothing left to read. *)
Fixpoint libnvme_mi_mctp_aem_purge (fuel : nat) : M ret :=
  match fuel with
  | O => λ _, NoFuel
  | S fuel' =>
      let! r := lift (call (EvRecv 1) aem_recvmsg) in
      match r with
      | inr (_, _, _ :: _) => libnvme_mi_mctp_aem_purge fuel'
      | _ => ret_ Success
      end
  end.

Definition with_data_len (resp : libnvme_mi_resp) (n : Z) : libnvme_mi_resp :=
  {| r_hdr := r_hdr resp; r_hdr_len := r_hdr_len resp; r_data := r_data resp; r_data_len := n;
     r_mic := r_mic resp |}.

Definition libnvme_mi_async_read (resp : libnvme_mi_resp) : M (ret * libnvme_mi_resp) :=
  let! q := lift (libnvme_mi_ep_has_quirk LIBNVME_QUIRK_MIN_INTER_COMMAND_TIME) in
  do! (if q then lift (libnvme_mi_record_resp_time E) else ret_ tt) in
  let! rc := libnvme_mi_mctp_aem_read resp in
  match rc with
  | None => ret_ (Errno EPERM, resp)
  | Some resp =>
      if libnvme_mi_verify_resp_mic resp then ret_ (Errno EBADMSG, resp)
      else if r_hdr_len resp <? sizeof_msg_hdr then ret_ (Errno EPROTO, resp)
      else if negb (char_at (r_hdr resp) 0 =? NVME_MI_MSGTYPE_NVME) then ret_ (Errno EPROTO, resp)
      else if negb (Z.land (char_at (r_hdr resp) 1) (Z.shiftl NVME_MI_ROR_RSP 7) =? 0)
           then ret_ (Errno EIO, resp)
      else if Z.land (char_at (r_hdr resp) 1) (Z.shiftl NVME_MI_MT_AE 3) =? 0
           then ret_ (Success, with_data_len resp 0)
      else ret_ (Success, resp)
  end.

(** The message goes to the response buffer: the header, then the list. *)
Definition libnvme_mi_get_async_message (aem_msg_len : Z) : M (ret * Z) :=
  let! b := get response_buffer in
  let! x := libnvme_mi_async_read
    {| r_hdr := take 4 b; r_hdr_len := 4; r_data := drop 4 b; r_data_len := aem_msg_len; r_mic := 0 |} in
  let '(rc, resp) := x in
  do! modify (set_response (r_hdr resp ++ r_data resp)) in
  ret_ (rc, if is_success rc then r_data_len resp else aem_msg_len).

(** *** Commands *)

(** The list of the events that are enabled, in an object of [size] bytes. *)
Definition libnvme_mi_mi_config_get_async_event (l : list Z) (size : Z) : M (ret * Z * list Z * Z) :=
  let! x := lift (libnvme_mi_mi_config_set_get_ex E polls nvme_mi_mi_opcode_configuration_get
                    NVME_MI_CONFIG_AE 0 [] l size) in
  let '(rc, l, n, nmresp) := x in
  ret_ (rc, Z.land 0x000F nmresp, l, n).

(** The response goes to the response buffer, at the offset [hdr]. *)
Definition libnvme_mi_mi_config_set_async_event (envfa empfa encfa : bool) (aemd aerd : Z)
    (list : list Z) (hdr : nat) (occ_list_size : Z) : M (ret * Z) :=
  let dw0 := Z.shiftl (Z.b2z envfa) 26 .| Z.shiftl (Z.b2z empfa) 25 .| Z.shiftl (Z.b2z encfa) 24 .|
             Z.shiftl aemd 16 .| Z.shiftl aerd 8 .| NVME_MI_CONFIG_AE in
  let size := Z.of_nat (length list) in
  if (size <? 5) || (size <? 5 + char_at list 0 * 3) then ret_ (Errno EINVAL, occ_list_size)
  else if negb (char_at list 4 =? 5) || negb (char_at list 1 =? 0) then ret_ (Errno EINVAL, occ_list_size)
  else
    let! b := get response_buffer in
    let! x := lift (libnvme_mi_mi_config_set_get_ex E polls nvme_mi_mi_opcode_configuration_set
                      dw0 0 list (drop hdr b) occ_list_size) in
    let '(rc, d, n, _) := x in
    do! modify (set_response (take hdr b ++ d)) in
    ret_ (rc, n).

Definition libnvme_mi_aem_ack (hdr : nat) (occ_list_size : Z) : M (ret * Z) :=
  libnvme_mi_mi_config_set_async_event false false false 0 0 (enable_list 0 5 []) hdr occ_list_size.

(** [num_items] is a [__u8]. *)
Definition aem_sync (envfa empfa encfa : bool) (aemd aerd : Z) (items : list (list Z)) (num_items : Z)
    (hdr : nat) (resp_len : Z) : M (ret * Z) :=
  let num_items := u8 num_items in
  let msg_len := 5 + num_items * 3 in
  let! ok := lift (call EvHandle malloc_ok) in
  if negb ok then ret_ (Errno EPERM, resp_len)
  else
    libnvme_mi_mi_config_set_async_event envfa empfa encfa aemd aerd
      (enable_list num_items (u16 msg_len) (take (Z.to_nat num_items) items)) hdr resp_len.

Definition libnvme_mi_aem_get_enabled : M (ret * list bool) :=
  let none := replicate 256 false in
  let! ok := lift (call EvHandle malloc_ok) in
  if negb ok then ret_ (Errno EPERM, none)
  else
    let! l := lift (uninit E 1280) in
    let! x := libnvme_mi_mi_config_get_async_event l 1280 in
    let '(rc, _, l, n) := x in
    if negb (is_success rc) then ret_ (rc, none)
    else
      let! rc := validate_enabled_list l n in
      if negb (is_success rc) then ret_ (rc, none)
      else
        let! map := read_enabled (Z.to_nat (char_at l 0)) 5 l none in
        ret_ (Success, map).

(** The buffer of the call is its own; the one of the caller stays. *)
Definition with_buffer {A} (b : list Z) (m : M A) : M A :=
  let! old := get response_buffer in
  do! modify (set_response b) in
  let! x := m in
  do! modify (set_response old) in
  ret_ x.

Definition aem_disable_enabled (fuel : nat) : M ret :=
  with_buffer (replicate 4096 0) (
    let! x := libnvme_mi_aem_get_enabled in
    let '(rc, map) := x in
    if negb (is_success rc) then ret_ rc
    else
      let items := sync_items map false in
      let! x := aem_sync false false false 1 0 items (Z.of_nat (length items)) 0 4096 in
      if negb (is_success x.1) then ret_ x.1 else libnvme_mi_mctp_aem_purge fuel).

(** *** Events for the application *)

Fixpoint take_events (k : nat) : M unit :=
  match k with
  | O => ret_ tt
  | S k' =>
      let! e := libnvme_mi_aem_get_next_event in
      match e with
      | Some e => do! modify (hand e) in take_events k'
      | None => take_events k'
      end
  end.

(** [aem_handler]: true is [NVME_MI_AEM_HNA_ACK]. *)
Definition aem_handler (num_events : Z) : M bool :=
  let! x := get (λ a, handler a num_events) in
  do! take_events x.1 in ret_ x.2.

Definition libnvme_mi_aem_open (sd_aem : option Z) : M (ret * option Z) :=
  match sd_aem with
  | Some _ => ret_ (Success, sd_aem)
  | None =>
      let! r := lift (call EvHandle aem_socket) in
      match r with
      | inl e => do! lift (set_errno e) in ret_ (Errno EPERM, None)
      | inr sd => ret_ (Success, Some sd)
      end
  end.

(** After [cleanup_ctx:]. *)
Definition cleanup_ctx (rc : ret) : M ret :=
  do! reset_list_info in
  do! (if is_success rc then ret_ tt else modify (set_ctx None)) in
  ret_ rc.

(** The socket for events is open. *)
Definition libnvme_mi_aem_enable (fuel : nat) (config : libnvme_mi_aem_config) : M ret :=
  with_buffer (replicate 4096 0) (
    let! c := get aem_ctx in
    let! ok := (match c with Some _ => ret_ true | None => lift (call EvHandle malloc_ok) end) in
    if negb ok then ret_ (Errno EPERM)
    else
      do! modify (set_ctx (Some {| occ_header := None; list_current := None; list_current_index := -1;
                                   callbacks := config; last_generation_num := -1 |})) in
      let! rc := aem_disable_enabled fuel in
      if negb (is_success rc) then cleanup_ctx rc
      else
        let items := sync_items (enabled config) true in
        let! x := aem_sync (envfa config) (empfa config) (encfa config) (aemd config) (aerd config)
                    items (Z.of_nat (length items)) 0 4096 in
        let '(rc, response_len) := x in
        if negb (is_success rc) then cleanup_ctx rc
        else
          let! rc := validate_occ_list_update_ctx 0 response_len false in
          if negb (is_success rc) then cleanup_ctx rc
          else
            let! numaeo := byte_at 0 in
            do! (if numaeo =? 0 then ret_ true else aem_handler numaeo) in
            cleanup_ctx Success).

Definition libnvme_mi_aem_disable (fuel : nat) : M ret :=
  let! rc := aem_disable_enabled fuel in
  do! modify (set_ctx None) in ret_ rc.

(** After the handler asked for an acknowledgement. *)
Definition aem_acknowledge : M ret :=
  let! x := libnvme_mi_aem_ack 4 4092 in
  let '(rc, response_len) := x in
  if negb (is_success rc) then ret_ rc
  else if response_len =? 0 then ret_ Success
  else
    let! numaeo := byte_at 4 in
    if numaeo =? 0 then ret_ Success
    else
      let! rc := validate_occ_list_update_ctx 4 response_len false in
      let! numaeo := byte_at 4 in
      do! (if is_success rc && negb (numaeo =? 0) then aem_handler numaeo else ret_ true) in
      ret_ rc.

(** The part of [libnvme_mi_aem_process] up to [cleanup:]. *)
Definition process_message : M ret :=
  let! x := libnvme_mi_get_async_message (4096 - 11) in
  let '(rc, response_len) := x in
  if negb (is_success rc) then ret_ rc
  else if response_len =? 0 then ret_ Success
  else
    let! rc := validate_occ_list_update_ctx 4 response_len true in
    if negb (is_success rc) then ret_ rc
    else
      let! numaeo := byte_at 4 in
      if numaeo =? 0 then ret_ Success
      else
        let! ack := aem_handler numaeo in
        do! reset_list_info in
        if ack then aem_acknowledge else ret_ Success.

Definition libnvme_mi_aem_process : M ret :=
  let! c := get aem_ctx in
  match c with
  | None => ret_ (Errno EPERM)
  | Some _ =>
      with_buffer (replicate 4096 0) (
        do! reset_list_info in
        let! rc := process_message in
        do! reset_list_info in
        ret_ rc)
  end.

End Aem.
