(* ===== verification/MiAemSpec.v ===== *)
(** * Walking lists of asynchronous events

    The theorems of [MiAem]: the application gets the entries of the list the
    endpoint sent, in their order and each once, and they are inside of what
    was received; an event message that comes again is not handed out again;
    and the lists on which the check reads behind the buffer. *)

From stdpp Require Import base list numbers.
From S2P Require Import Prelude.
From S2P Require Import CStr.
From S2P Require Import Io.
From S2P Require Import Crc32.
From S2P Require Import Mi.
From S2P Require Import MiSpec.
From S2P Require Import MiCommands.
From S2P Require Import MiAem.

#[local] Open Scope io_scope.

(** ** The list, as the specification has it *)

Module AemView.

(** The length of the entry at [cur]. *)
Definition entry_size (b : list Z) (cur : nat) : nat :=
  (9 + Z.to_nat (char_at b (cur + 1)) + Z.to_nat (char_at b (cur + 2)))%nat.

Definition entry (b : list Z) (cur : nat) : libnvme_mi_event :=
  {| aeoi := char_at b (cur + 3); aessi := char_at b (cur + 8); aeocidi := le (take 4 (drop (cur + 4) b));
     spec_info := (cur + 9)%nat; spec_info_len := char_at b (cur + 1);
     vend_spec_info := (cur + 9 + Z.to_nat (char_at b (cur + 1)))%nat;
     vend_spec_info_len := char_at b (cur + 2) |}.

(** The [n] entries from [cur] on. *)
Fixpoint entries (n : nat) (b : list Z) (cur : nat) : list libnvme_mi_event :=
  match n with O => [] | S n' => entry b cur :: entries n' b (cur + entry_size b cur) end.

(** They end at [limit] or before, and are of events that are enabled. *)
Fixpoint fits (n : nat) (on : list bool) (b : list Z) (cur limit : nat) : Prop :=
  match n with
  | O => True
  | S n' =>
      char_at b cur = 9 ∧ on !! Z.to_nat (char_at b (cur + 3)) = Some true ∧
      (cur + entry_size b cur ≤ limit)%nat ∧ fits n' on b (cur + entry_size b cur) limit
  end.

(** The information of an event is between [from] and [limit]. *)
Definition inside (from limit : nat) (e : libnvme_mi_event) : Prop :=
  (from ≤ spec_info e)%nat ∧ vend_spec_info e = (spec_info e + Z.to_nat (spec_info_len e))%nat ∧
  (vend_spec_info e + Z.to_nat (vend_spec_info_len e) ≤ limit)%nat.

(** The total length in the header at [hdr], its number of entries and its
    generation. *)
Definition total (b : list Z) (hdr : nat) : Z := le (take 3 (drop (hdr + 2) b)) mod 2 ^ 23.
Definition count (b : list Z) (hdr : nat) : nat := Z.to_nat (char_at b hdr).
Definition generation (b : list Z) (hdr : nat) : Z := char_at b (hdr + 6) / 8.

End AemView.

Lemma char_at_byte b i : bytes b → is_byte (char_at b i).
Proof.
  intros Hb. unfold char_at. destruct (b !! i) as [v|] eqn:Hv; [|done].
  by apply (Forall_lookup_1 _ _ _ _ Hb Hv).
Qed.

Lemma byte_at_ret i a : (i < length (response_buffer a))%nat →
  byte_at i a = Ret (char_at (response_buffer a) i) a.
Proof.
  intros Hi. unfold byte_at, char_at. by destruct (lookup_lt_is_Some_2 _ _ Hi) as [v ->].
Qed.

Lemma char_at_drop b n i : char_at (drop n b) i = char_at b (n + i).
Proof. unfold char_at. by rewrite lookup_drop. Qed.

(** *** Fields of the header *)

Lemma aeoltl_spec b hdr :
  bytes b → (hdr + 5 ≤ length b)%nat →
  nvme_mi_aem_aeolli_get_aeoltl (take 3 (drop 2 (take 7 (drop hdr b)))) = AemView.total b hdr.
Proof.
  intros Hb Hl. unfold nvme_mi_aem_aeolli_get_aeoltl, AemView.total.
  rewrite skipn_firstn_comm, take_take, drop_drop. replace (3 `min` (7 - 2))%nat with 3%nat by done.
  assert (length (take 3 (drop (hdr + 2) b)) = 3%nat) as Hlen by (rewrite length_take, length_drop; lia).
  assert (bytes (take 3 (drop (hdr + 2) b))) as Hbb by by apply bytes_take, bytes_drop.
  destruct (take 3 (drop (hdr + 2) b)) as [|x [|y [|z [|]]]]; try done.
  apply bytes_cons in Hbb as [Hx Hbb]. apply bytes_cons in Hbb as [Hy Hbb]. apply bytes_cons in Hbb as [Hz _].
  unfold is_byte in *. change 0x7FFFFF with (2 ^ 23 - 1). rewrite land_ones_mod by lia. f_equal.
  cbn [le].
  change (char_at [x; y; z] 0) with x. change (char_at [x; y; z] 1) with y. change (char_at [x; y; z] 2) with z.
  rewrite (Z.lor_comm x), lor_shiftl_add, Z.lor_comm, lor_shiftl_add by lia. lia.
Qed.

Lemma aemgn_spec v : is_byte v → nvme_mi_aem_aemti_get_aemgn v = v / 8.
Proof.
  intros Hv. unfold nvme_mi_aem_aemti_get_aemgn, is_byte in *. change 0x1f with (2 ^ 5 - 1).
  rewrite land_ones_mod, Z.shiftr_div_pow2 by lia. apply Z.mod_small. divmod.
Qed.

(** ** The check *)

Lemma entry_size_Z b cur :
  bytes b → Z.of_nat (AemView.entry_size b cur) = sizeof_occ_data + char_at b (cur + 1) + char_at b (cur + 2).
Proof.
  intros Hb. pose proof (char_at_byte b (cur + 1) Hb). pose proof (char_at_byte b (cur + 2) Hb).
  unfold AemView.entry_size, sizeof_occ_data, is_byte in *. lia.
Qed.

(** It accepts the lists that fit, as long as there are four bytes more in
    the buffer behind the list. *)
Lemma validate_entries_spec n ctx b hdr aeoltl cur a :
  bytes b → response_buffer a = b → 0 ≤ aeoltl → (hdr + Z.to_nat aeoltl + 4 ≤ length b)%nat →
  (hdr ≤ cur)%nat → (cur + 4 ≤ length b)%nat →
  ∃ rc, validate_entries n ctx aeoltl cur (Z.of_nat (cur - hdr)) a = Ret rc a ∧
    (rc = Success ↔ AemView.fits n (enabled (callbacks ctx)) b cur (hdr + Z.to_nat aeoltl)).
Proof.
  intros Hb Ha H0 Hl. revert cur. induction n as [|n IH]; intros cur Hcur Hc4; cbn [validate_entries AemView.fits].
  { by exists Success. }
  unfold bind at 1. rewrite byte_at_ret, Ha by (rewrite Ha; lia).
  destruct (Z.eqb_spec (char_at b cur) sizeof_occ_data) as [H9|H9]; cbn [negb];
    [|exists (Errno EPROTO); split; [done|]; split; [done|]; intros [Hx _]; by destruct H9].
  unfold bind at 1. rewrite byte_at_ret, Ha by (rewrite Ha; lia).
  destruct (enabled (callbacks ctx) !! _) as [[]|]; cbn [default from_option id negb];
    [|exists (Errno EPROTO); split; [done|]; split; [done|]; by intros (_ & ? & _)..].
  do 2 (unfold bind at 1; rewrite byte_at_ret, Ha by (rewrite Ha; lia)).
  rewrite <- (entry_size_Z b cur Hb), Nat2Z.id.
  destruct (Z.ltb_spec aeoltl (Z.of_nat (cur - hdr) + Z.of_nat (AemView.entry_size b cur))) as [Hgt|Hle].
  - exists (Errno EPROTO). split; [done|]. split; [done|]. intros (_ & _ & ? & _). lia.
  - replace (Z.of_nat (cur - hdr) + Z.of_nat (AemView.entry_size b cur))
      with (Z.of_nat (cur + AemView.entry_size b cur - hdr)) by lia.
    destruct (IH (cur + AemView.entry_size b cur)%nat) as (rc & Heq & Hrc); [lia|lia|].
    exists rc. split; [done|]. rewrite Hrc. split; [|tauto]. intros ?. split_and!; try done. lia.
Qed.

(** ** The walk *)

(** The context after [i] of the entries, the next at [cur]. *)
Definition walking (a : aem_state) (hdr cur i : nat) : Prop :=
  ∃ ctx, aem_ctx a = Some ctx ∧ occ_header ctx = Some hdr ∧ list_current ctx = Some cur ∧
    list_current_index ctx = Z.of_nat i.

Lemma load_ret {S} (b : list Z) off n (s : S) :
  (off + n ≤ length b)%nat → load b off n s = Ret (take n (drop off b)) s.
Proof. intros H. unfold load. by rewrite (proj2 (Nat.leb_le _ _) H). Qed.

Lemma next_event a b hdr cur i n on limit :
  bytes b → response_buffer a = b → walking a hdr cur i → AemView.count b hdr = (i + n)%nat →
  (hdr < length b)%nat → AemView.fits n on b cur limit → (limit ≤ length b)%nat →
  match n with
  | O => libnvme_mi_aem_get_next_event a = Ret None a
  | S _ => ∃ a', libnvme_mi_aem_get_next_event a = Ret (Some (AemView.entry b cur)) a' ∧
      response_buffer a' = b ∧ handed a' = handed a ∧ walking a' hdr (cur + AemView.entry_size b cur) (S i)
  end.
Proof.
  intros Hb Ha (ctx & Hc & Hh & Hl & Hi) Hn Hhdr Hfit Hlim.
  pose proof (char_at_byte b hdr Hb) as Hcb. unfold AemView.count, is_byte in *.
  destruct n as [|n]; unfold libnvme_mi_aem_get_next_event; unfold bind at 1, get at 1;
    rewrite Hc, Hl, Hh, Hi; (destruct (Z.eqb_spec (Z.of_nat i) (-1)); [lia|]);
    unfold bind at 1; rewrite byte_at_ret, Ha by (by rewrite Ha).
  { by destruct (Z.leb_spec (char_at b hdr) (Z.of_nat i)); [|lia]. }
  destruct (Z.leb_spec (char_at b hdr) (Z.of_nat i)); [lia|].
  destruct Hfit as (H9 & _ & Hle & _). unfold bind at 1, get at 1. rewrite Ha.
  unfold bind at 1. rewrite load_ret by (unfold AemView.entry_size in Hle; lia).
  assert (∀ j, (j < 9)%nat → char_at (take 9 (drop cur b)) j = char_at b (cur + j)) as Hd.
  { intros j Hj. rewrite <- char_at_drop. unfold char_at. by rewrite lookup_take_lt. }
  rewrite !Hd by lia. rewrite Nat.add_0_r, H9. change (Z.to_nat 9) with 9%nat.
  rewrite skipn_firstn_comm, take_take, drop_drop. replace (4 `min` (9 - 4))%nat with 4%nat by done.
  eexists. split; [done|]. split; [done|]. split; [done|]. eexists. split; [done|]. cbn.
  split; [done|]. split; [|lia]. f_equal. unfold AemView.entry_size. lia.
Qed.

(** Asking [k] times yields the next [k] of the [n] entries. *)
Lemma take_events_spec k a b hdr cur i n on limit :
  bytes b → response_buffer a = b → walking a hdr cur i → AemView.count b hdr = (i + n)%nat →
  (hdr < length b)%nat → AemView.fits n on b cur limit → (limit ≤ length b)%nat →
  ∃ a', take_events k a = Ret tt a' ∧ handed a' = handed a ++ take k (AemView.entries n b cur).
Proof.
  intros Hb Ha Hw Hn Hhdr Hfit Hlim. revert a cur i n Ha Hw Hn Hfit.
  induction k as [|k IH]; intros a cur i n Ha Hw Hn Hfit; cbn [take_events].
  { exists a. by rewrite take_0, app_nil_r. }
  pose proof (next_event a b hdr cur i n on limit Hb Ha Hw Hn Hhdr Hfit Hlim) as Hnext.
  unfold bind at 1. destruct n as [|n]; cbn [AemView.entries].
  - rewrite Hnext. destruct (IH a cur i 0%nat) as (a' & Heq & Hh); try done. exists a'. split; [done|].
    rewrite Hh. by destruct k.
  - destruct Hnext as (a1 & -> & Hb1 & Hh1 & Hw1). unfold bind, modify.
    destruct (IH (hand (AemView.entry b cur) a1) (cur + AemView.entry_size b cur)%nat (S i) n)
      as (a' & Heq & Hh); [done|done|lia|apply Hfit|].
    exists a'. split; [done|]. rewrite Hh. cbn. by rewrite Hh1, <- app_assoc.
Qed.

Lemma fits_inside n on b cur limit from :
  AemView.fits n on b cur limit → (from ≤ cur)%nat → Forall (AemView.inside from limit) (AemView.entries n b cur).
Proof.
  revert cur. induction n as [|n IH]; intros cur Hf Hc; cbn; [constructor|].
  destruct Hf as (_ & _ & Hle & Hf). unfold AemView.entry_size in *.
  constructor; [|apply IH; [done|lia]]. unfold AemView.inside. cbn. lia.
Qed.

(** ** Lists *)

(** A list of [len] bytes at [hdr] that is well formed, [n] entries of it. *)
Definition list_ok (on : list bool) (n : nat) (b : list Z) (hdr : nat) (len : Z) : Prop :=
  7 ≤ len ∧ char_at b (hdr + 1) = 0 ∧ char_at b (hdr + 5) = 7 ∧ AemView.total b hdr ≤ len ∧
  AemView.fits n on b (hdr + 7) (hdr + Z.to_nat (AemView.total b hdr)).

Lemma total_bound b hdr : 0 ≤ AemView.total b hdr.
Proof. apply Z.mod_pos_bound. lia. Qed.

Lemma fits_zero n on b hdr cur limit :
  (hdr < cur)%nat → AemView.fits n on (<[hdr := 0]> b) cur limit ↔ AemView.fits n on b cur limit.
Proof.
  assert (∀ i, (hdr < i)%nat → char_at (<[hdr := 0]> b) i = char_at b i) as H.
  { intros i Hi. unfold char_at. by rewrite list_lookup_insert_ne by lia. }
  revert cur. induction n as [|n IH]; intros cur Hc; cbn; [done|].
  unfold AemView.entry_size. rewrite !H by lia. by rewrite IH by lia.
Qed.

(** The state after the check of the header. *)
Lemma validate_header hdr len check a b ctx :
  bytes b → response_buffer a = b → aem_ctx a = Some ctx → 0 ≤ len →
  (hdr + Z.to_nat len + 4 ≤ length b)%nat →
  let dup := check && (last_generation_num ctx =? AemView.generation b hdr) in
  let n := if dup then 0%nat else AemView.count b hdr in
  ∃ rc a', validate_occ_list_update_ctx hdr len check a = Ret rc a' ∧ handed a' = handed a ∧
    (rc = Success ↔ list_ok (enabled (callbacks ctx)) n b hdr len) ∧
    (rc = Success →
      response_buffer a' = (if dup then <[hdr := 0]> b else b) ∧ walking a' hdr (hdr + 7) 0 ∧
      ∃ ctx', aem_ctx a' = Some ctx' ∧ callbacks ctx' = callbacks ctx ∧
        last_generation_num ctx' = if check then AemView.generation b hdr else last_generation_num ctx).
Proof.
  intros Hb Ha Hc H0 Hlen dup n. unfold validate_occ_list_update_ctx.
  unfold bind at 1, get at 1. rewrite Hc. unfold sizeof_occ_list_hdr.
  destruct (Z.ltb_spec len 7) as [H7|H7].
  { exists (Errno EPROTO), a. split_and!; try done. split; [done|]. intros [? _]. lia. }
  unfold bind at 1, get at 1. rewrite Ha. unfold bind at 1. rewrite load_ret by lia.
  rewrite aeoltl_spec by (done || lia).
  assert (∀ j, (j < 7)%nat → char_at (take 7 (drop hdr b)) j = char_at b (hdr + j)) as Hd.
  { intros j Hj. rewrite <- char_at_drop. unfold char_at. by rewrite lookup_take_lt. }
  rewrite !Hd, aemgn_spec by (lia || by apply char_at_byte). fold (AemView.generation b hdr).
  destruct (Z.eqb_spec (char_at b (hdr + 1)) 0) as [H1|H1]; cbn [negb orb];
    [|exists (Errno EPROTO), a; split_and!; try done; split; [done|]; by intros (_ & ? & _)].
  destruct (Z.eqb_spec (char_at b (hdr + 5)) 7) as [H5|H5]; cbn [negb orb];
    [|exists (Errno EPROTO), a; split_and!; try done; split; [done|]; by intros (_ & _ & ? & _)].
  destruct (Z.ltb_spec len (AemView.total b hdr)) as [Ht|Ht].
  { exists (Errno EPROTO), a. split_and!; try done. split; [done|]. intros (_ & _ & _ & ? & _). lia. }
  fold dup. rewrite H5.
  set (b' := if dup then <[hdr := 0]> b else b).
  set (a1 := if dup then set_response (<[hdr := 0]> b) a else a).
  assert ((if dup then modify (set_response (<[hdr := 0]> b)) else ret_ tt) a = Ret tt a1) as H1'
    by (unfold a1; by destruct dup).
  unfold bind at 1. rewrite H1'. unfold bind at 1, modify at 1. set (ctx1 := {| occ_header := _ |}).
  set (a2 := set_ctx (Some ctx1) a1).
  assert (response_buffer a2 = b') as Ha2 by (unfold a2, a1, b'; cbn; destruct dup; done).
  assert (bytes b') as Hb'.
  { unfold b'. destruct dup; [|done]. by apply Forall_insert. }
  assert (length b' = length b) as Hlb by (unfold b'; destruct dup; [apply length_insert|done]).
  assert (Z.to_nat (char_at b' hdr) = n) as Hn.
  { unfold b', n. destruct dup; [|done]. unfold char_at. by rewrite list_lookup_insert_eq by lia. }
  pose proof (total_bound b hdr) as Htb.
  unfold bind at 1. rewrite byte_at_ret, Ha2, Hn by (rewrite Ha2; lia).
  destruct (validate_entries_spec n ctx1 b' hdr (AemView.total b hdr) (hdr + 7) a2) as (rc & Heq & Hrc);
    [done|done|done|lia|lia|lia|].
  replace (Z.of_nat (hdr + 7 - hdr)) with 7 in Heq by lia.
  exists rc, a2. split; [done|]. split; [unfold a2, a1; by destruct dup|]. split.
  - rewrite Hrc. unfold list_ok, b'. destruct dup; [rewrite fits_zero by lia|]; cbn; tauto.
  - intros _. split; [done|]. split; [by exists ctx1|]. exists ctx1. split_and!; try done. cbn.
    fold dup. unfold dup. destruct check; cbn [andb]; [|done].
    by destruct (Z.eqb_spec (last_generation_num ctx) (AemView.generation b hdr)).
Qed.

(** a list of events that is checked and walked.  The check accepts
    exactly the well-formed lists; it and the walk stay inside of the buffer
    when there are four bytes behind the list.  However often the application
    asks for an event, it gets the entries of the list, in their order and
    each once, and their information lies inside of what was received.  A
    message of the generation seen last has no events. *)
Theorem aem_list_walk hdr len check a ctx :
  let b := response_buffer a in
  let dup := check && (last_generation_num ctx =? AemView.generation b hdr) in
  let n := if dup then 0%nat else AemView.count b hdr in
  bytes b → aem_ctx a = Some ctx → 0 ≤ len → (hdr + Z.to_nat len + 4 ≤ length b)%nat →
  ∃ rc a', validate_occ_list_update_ctx hdr len check a = Ret rc a' ∧ handed a' = handed a ∧
    (rc = Success ↔ list_ok (enabled (callbacks ctx)) n b hdr len) ∧
    (rc = Success →
      Forall (AemView.inside (hdr + 7) (hdr + Z.to_nat len)) (AemView.entries n b (hdr + 7)) ∧
      ∀ k, ∃ a'', take_events k a' = Ret tt a'' ∧
        handed a'' = handed a ++ take k (AemView.entries n b (hdr + 7))).
Proof.
  intros b dup n Hb Hc H0 Hlen.
  destruct (validate_header hdr len check a b ctx) as (rc & a' & Heq & Hh & Hiff & Hpost); [done..|].
  fold dup n in Hiff, Hpost.
  exists rc, a'. split_and!; try done. intros Hrc. destruct (Hpost Hrc) as (Hb' & Hw & _).
  pose proof (proj1 Hiff Hrc) as (H7 & _ & _ & Ht & Hfit). pose proof (total_bound b hdr).
  split.
  - eapply list.Forall_impl; [by eapply (fits_inside _ _ _ _ _ (hdr + 7))|].
    intros e (? & ? & ?). unfold AemView.inside. lia.
  - intros k. unfold n in *. fold dup in Hb'. destruct dup.
    + destruct (take_events_spec k a' (<[hdr := 0]> b) hdr (hdr + 7) 0 0 (enabled (callbacks ctx)) (hdr + 7))
        as (a'' & Heq' & Hh'); [by apply Forall_insert|done|done| |by rewrite length_insert; lia|done|
        rewrite length_insert; lia|].
      { unfold AemView.count, char_at. by rewrite list_lookup_insert_eq by lia. }
      exists a''. split; [done|]. by rewrite Hh', Hh.
    + destruct (take_events_spec k a' b hdr (hdr + 7) 0 (AemView.count b hdr) (enabled (callbacks ctx))
        (hdr + Z.to_nat (AemView.total b hdr))) as (a'' & Heq' & Hh'); [done|done|done|done|lia|done|lia|].
      exists a''. split; [done|]. by rewrite Hh', Hh.
Qed.

(** The walk keeps the configuration and the generation. *)
Lemma next_event_ctx a ctx e a' :
  aem_ctx a = Some ctx → libnvme_mi_aem_get_next_event a = Ret e a' →
  ∃ ctx', aem_ctx a' = Some ctx' ∧ callbacks ctx' = callbacks ctx ∧
    last_generation_num ctx' = last_generation_num ctx.
Proof.
  intros Hc. unfold libnvme_mi_aem_get_next_event, bind, get. rewrite Hc.
  unfold byte_at, load, modify, ret_. intros H. repeat case_match; simplify_eq/=; eauto.
Qed.

Lemma take_events_ctx k a ctx :
  aem_ctx a = Some ctx → ∀ a', take_events k a = Ret tt a' →
  ∃ ctx', aem_ctx a' = Some ctx' ∧ callbacks ctx' = callbacks ctx ∧
    last_generation_num ctx' = last_generation_num ctx.
Proof.
  revert a ctx. induction k as [|k IH]; intros a ctx Hc a' H; cbn [take_events] in H.
  { injection H as <-. eauto. }
  unfold bind at 1 in H. destruct (libnvme_mi_aem_get_next_event a) as [e a1| |] eqn:Hn; try done.
  destruct (next_event_ctx _ _ _ _ Hc Hn) as (ctx1 & Hc1 & Hcb & Hg).
  assert (∃ a2, aem_ctx a2 = Some ctx1 ∧ take_events k a2 = Ret tt a') as (a2 & Hc2 & H2).
  { destruct e as [e|]; [|eauto]. unfold bind, modify in H. by exists (hand e a1). }
  destruct (IH _ _ Hc2 _ H2) as (ctx2 & ? & ? & ?). exists ctx2. by rewrite <- Hcb, <- Hg.
Qed.

(** ** An event message *)

Section Process.
Context (E : env) (polls : nat) (eid : Z).
Context (aem_recvmsg : list event → errno + (bool * Z * list Z)) (handler : aem_state → Z → nat * bool).

(** The header of an event message. *)
Definition aem_hdr : list Z := [NVME_MI_MSGTYPE_NVME; Z.shiftl NVME_MI_MT_AE 3; 0; 0].

Lemma lift_ret {A} (m : state → run state A) a x s :
  m (mi a) = Ret x s →
  lift m a = Ret x {| mi := s; aem_ctx := aem_ctx a; resp_buf_aem := resp_buf_aem a;
                      response_buffer := response_buffer a; handed := handed a |}.
Proof. intros H. unfold lift. by rewrite H. Qed.

(** Everything but the response buffer and the transport is as it was. *)
Definition same_client (a a' : aem_state) : Prop :=
  aem_ctx a' = aem_ctx a ∧ handed a' = handed a ∧ response_buffer a' = response_buffer a.

Lemma aem_read_total resp m l a :
  resp_ok resp → r_hdr_len resp = 4 → length (r_hdr resp) = 4%nat →
  r_data_len resp + 8 ≤ Z.of_nat (length (resp_buf_aem a)) →
  aem_recvmsg (trace (mi a) ++ [EvRecv (r_data_len resp + 7)]) = inr (true, eid, m) →
  MiCrc.framed (aem_hdr ++ l) m → (4 ≤ length l)%nat → Z.of_nat (length l) ≤ r_data_len resp → bytes l →
  ∃ r a', libnvme_mi_mctp_aem_read E eid aem_recvmsg resp a = Ret (Some r) a' ∧ same_client a a' ∧
    ep (mi a') = ep (mi a) ∧
    r_hdr_len r = 4 ∧ r_hdr r = aem_hdr ∧ r_data_len r = Z.of_nat (length l) ∧
    r_data r = l ++ drop (length l) (r_data resp) ∧ libnvme_mi_verify_resp_mic r = false.
Proof.
  intros Hok Hh Hhs Hroom Hrecv Hf Hl4 Hll Hlb.
  assert (length m = 7 + length l)%nat as Hm.
  { apply (f_equal length) in Hf. rewrite !length_app, to_le_length in Hf. cbn in Hf. lia. }
  unfold libnvme_mi_mctp_aem_read, sizeof_msg_hdr. rewrite Hh. change (4 <? 4) with false.
  replace (4 + r_data_len resp + 4) with (r_data_len resp + 8) by lia.
  unfold bind at 1, get at 1. rewrite (proj2 (Z.leb_le _ _) Hroom).
  unfold bind at 1, ret_ at 1. unfold bind at 1, ret_ at 1.
  replace (r_data_len resp + 8 - 1) with (r_data_len resp + 7) by lia.
  unfold bind at 1. erewrite lift_ret by (unfold call; reflexivity). rewrite Hrecv.
  rewrite take_ge by lia. unfold bind at 1, get at 1. cbn [resp_buf_aem].
  destruct (Nat.ltb_spec (length (resp_buf_aem a)) (1 + length m)) as [?|_]; [lia|].
  unfold bind at 1, modify at 1. destruct (Z.eqb_spec (Z.of_nat (length m)) 0) as [?|_]; [lia|].
  cbn [negb]. rewrite Z.eqb_refl. cbn [negb]. unfold bind at 1, modify at 1. cbn [resp_buf_aem set_aem_buf].
  destruct (Z.ltb_spec (Z.of_nat (length m) + 1) (8 + 4)) as [?|_]; [lia|].
  unfold bind at 1, get at 1. cbn [resp_buf_aem set_aem_buf].
  change (MCTP_TYPE_NVME .| MCTP_TYPE_MIC) with NVME_MI_MSGTYPE_NVME.
  destruct (buf_split (resp_buf_aem a) m) as [rest ->]; [lia|]. rewrite Hf, <- app_assoc.
  set (body := aem_hdr ++ l) in *. set (mic := to_le 4 (MiCrc.crc32c body)).
  assert (length body = 4 + length l)%nat as Hbl by done.
  replace (Z.of_nat (length m) + 1 - 4) with (Z.of_nat (length body)) by lia. rewrite Nat2Z.id.
  assert (length mic = 4%nat) as Hmic by apply to_le_length.
  unfold bind at 1. rewrite load_ret by (rewrite !length_app; lia).
  rewrite drop_app_length, take_app_le, (take_ge mic) by lia.
  set (s1 := {| ep := _; trace := _; last_errno := _ |}).
  destruct (wlp_live (unpack (body ++ mic ++ rest) resp (Z.of_nat (length body)) (le mic))
    (λ r s, s = s1 ∧ r_mic r = le mic ∧ r_hdr_len r = 4 ∧ r_data_len r = Z.of_nat (length l) ∧
      length (r_hdr r) = 4%nat ∧ r_data r = got_data r ++ drop (Z.to_nat (r_data_len r)) (r_data resp) ∧
      got_hdr r ++ got_data r = body) s1) as (r & s' & Heq & -> & Hr); [apply live_unpack| |].
  { apply wlp_unpack; [done|rewrite length_app; lia|lia|].
    intros r _ Hrm Hrh Hrd Hrs Hrest Hgot. rewrite Nat2Z.id, take_app_length in Hgot.
    split_and!; try done; lia. }
  destruct Hr as (Hrm & Hrh & Hrd & Hrs & Hrest & Hgot).
  unfold bind at 1. erewrite lift_ret by (exact Heq).
  assert (got_hdr r = r_hdr r) as Hgh by (unfold got_hdr; rewrite Hrh; apply take_ge; lia).
  rewrite Hgh in Hgot. apply app_inj_1 in Hgot as [Hhdr Hdata]; [|done].
  eexists _, _. split; [done|]. split_and!; try done; [by rewrite Hrest, Hdata, Hrd, Nat2Z.id|].
  rewrite verify_resp_mic_spec, Hgh, Hhdr, Hdata, Hrm. fold body. unfold mic. rewrite le_to_le.
  - by rewrite Z.eqb_refl.
  - apply crc32c_word, bytes_app. split; [by apply bytes_forallb|done].
Qed.

(** The response buffer with the message in it. *)
Definition message_buffer (l : list Z) : list Z := aem_hdr ++ l ++ replicate (4092 - length l) 0.

Definition AEM_ROOM : Z := 4096 - 11.

Lemma get_async_message_total l m a :
  response_buffer a = replicate 4096 0 → settled (ep (mi a)) →
  4096 ≤ Z.of_nat (length (resp_buf_aem a)) →
  aem_recvmsg (trace (mi a) ++ [EvRecv (AEM_ROOM + 7)]) = inr (true, eid, m) →
  MiCrc.framed (aem_hdr ++ l) m → bytes l → 4 ≤ Z.of_nat (length l) ≤ AEM_ROOM →
  ∃ a', libnvme_mi_get_async_message E eid aem_recvmsg AEM_ROOM a = Ret (Success, Z.of_nat (length l)) a' ∧
    aem_ctx a' = aem_ctx a ∧ handed a' = handed a ∧ response_buffer a' = message_buffer l.
Proof.
  intros Hb Hset Hroom Hrecv Hf Hlb Hl. unfold AEM_ROOM in *.
  unfold libnvme_mi_get_async_message, libnvme_mi_async_read.
  unfold bind at 1, get at 1. rewrite Hb. rewrite take_replicate, drop_replicate.
  set (resp := {| r_hdr := _; r_hdr_len := _; r_data := _; r_data_len := _; r_mic := _ |}).
  unfold bind at 1 2. erewrite lift_ret by (by apply has_no_quirk). unfold bind at 1, ret_ at 1.
  destruct (aem_read_total resp m l {| mi := mi a; aem_ctx := aem_ctx a; resp_buf_aem := resp_buf_aem a;
    response_buffer := response_buffer a; handed := handed a |})
    as (r & a' & Heq & (Hc & Hh & _) & _ & Hrh & Hrhdr & Hrl & Hrd & Hv); try done; [cbn; lia|lia|cbn; lia|].
  unfold bind at 1. rewrite Heq, Hv, Hrh, Hrhdr. change (4 <? sizeof_msg_hdr) with false.
  change (char_at aem_hdr 0 =? NVME_MI_MSGTYPE_NVME) with true.
  change (Z.land (char_at aem_hdr 1) (Z.shiftl NVME_MI_ROR_RSP 7) =? 0) with true.
  change (Z.land (char_at aem_hdr 1) (Z.shiftl NVME_MI_MT_AE 3) =? 0) with false. cbn [negb].
  unfold ret_ at 1. unfold bind, modify, ret_. cbn [is_success]. rewrite Hrhdr, Hrl, Hrd.
  eexists. split; [done|]. split; [done|]. split; [done|].
  cbn [response_buffer set_response r_data resp]. unfold message_buffer. by rewrite drop_replicate.
Qed.

Lemma reset_list_info_ret a :
  ∃ a', reset_list_info a = Ret tt a' ∧ response_buffer a' = response_buffer a ∧ handed a' = handed a ∧
    mi a' = mi a ∧ resp_buf_aem a' = resp_buf_aem a ∧
    ∀ ctx, aem_ctx a = Some ctx → aem_ctx a' = Some {| occ_header := None; list_current := None;
      list_current_index := -1; callbacks := callbacks ctx; last_generation_num := last_generation_num ctx |}.
Proof. eexists. split; [done|]. cbn. split_and!; try done. by intros ctx ->. Qed.

Lemma message_buffer_length l : (length l ≤ 4085)%nat → length (message_buffer l) = 4096%nat.
Proof.
  intros Hl. unfold message_buffer. rewrite !length_app, length_replicate. cbn [length aem_hdr]. lia.
Qed.

Lemma message_buffer_bytes l : bytes l → bytes (message_buffer l).
Proof.
  intros Hl. unfold message_buffer. rewrite !bytes_app. split_and!; [by apply bytes_forallb|done|].
  by apply Forall_replicate.
Qed.

(** The events of a checked list go to the handler, which does not
    acknowledge them. *)
Lemma dispatch_events k n b a ctx on limit :
  (∀ a n, handler a n = (k, false)) → bytes b → aem_ctx a = Some ctx →
  (n ≠ 0%nat → response_buffer a = b ∧ n = AemView.count b 4) →
  walking a 4 11 0 → AemView.fits n on b 11 limit → (limit ≤ length b)%nat → (4 < length b)%nat →
  ∃ a', (if Z.of_nat n =? 0 then ret_ Success
      else let! ack := aem_handler handler (Z.of_nat n) in
           do! reset_list_info in if ack then aem_acknowledge E polls handler else ret_ Success) a =
      Ret Success a' ∧ handed a' = handed a ++ take k (AemView.entries n b 11) ∧
      ∃ ctx', aem_ctx a' = Some ctx' ∧ callbacks ctx' = callbacks ctx ∧
        last_generation_num ctx' = last_generation_num ctx.
Proof.
  intros Hk Hb Hc Hn Hw Hfit Hlim Hlen. destruct (Z.eqb_spec (Z.of_nat n) 0) as [H0|H0].
  { exists a. split; [done|]. replace n with 0%nat by lia. cbn. rewrite take_nil, app_nil_r.
    split; [done|]. by exists ctx. }
  destruct Hn as [Hba Hn]; [lia|].
  unfold aem_handler. unfold bind at 1 2, get at 1. rewrite Hk. cbn [fst snd].
  destruct (take_events_spec k a b 4 11 0 n on limit) as (a4 & Htk & Hh4); [done|done|done|done|done|done|done|].
  unfold bind at 1. rewrite Htk. unfold ret_ at 1.
  destruct (reset_list_info_ret a4) as (a5 & Hr5 & _ & Hh5 & _ & _ & Hc5).
  unfold bind at 1. rewrite Hr5. exists a5. split; [done|]. split; [by rewrite Hh5, Hh4|].
  destruct (take_events_ctx k a ctx Hc a4 Htk) as (ctx4 & Hc4 & Hcb4 & Hg4).
  eexists. split; [by apply Hc5|]. by split.
Qed.

(** C33: an event message that arrives and is well formed.  A handler that asks
    [k] times and does not acknowledge is handed the first [k] events of the
    message; none, when the message has the generation number of the one
    before.  Afterwards the number is remembered and no pointer into the
    buffer of the call is left.  It is assumed that events are enabled, that
    the endpoint was probed before and needs no delay between commands
    ([settled]), that the receive buffer of the transport has 4096 bytes
    already, and that the list has at least a header of four bytes, its entries
    are in their bounds ([list_ok]) and it fits the buffer. *)
Theorem aem_process_events l m k a ctx :
  let b := message_buffer l in
  let n := if last_generation_num ctx =? AemView.generation b 4 then 0%nat else AemView.count b 4 in
  aem_ctx a = Some ctx → settled (ep (mi a)) → 4096 ≤ Z.of_nat (length (resp_buf_aem a)) →
  (∀ a n, handler a n = (k, false)) →
  aem_recvmsg (trace (mi a) ++ [EvRecv (AEM_ROOM + 7)]) = inr (true, eid, m) →
  MiCrc.framed (aem_hdr ++ l) m → bytes l → 4 ≤ Z.of_nat (length l) ≤ AEM_ROOM →
  list_ok (enabled (callbacks ctx)) n b 4 (Z.of_nat (length l)) →
  ∃ a', libnvme_mi_aem_process E polls eid aem_recvmsg handler a = Ret Success a' ∧
    handed a' = handed a ++ take k (AemView.entries n b 11) ∧ response_buffer a' = response_buffer a ∧
    aem_ctx a' = Some {| occ_header := None; list_current := None; list_current_index := -1;
      callbacks := callbacks ctx; last_generation_num := AemView.generation b 4 |}.
Proof.
  intros b n Hc Hset Hbuf Hk Hrecv Hf Hlb Hl Hok.
  unfold libnvme_mi_aem_process. unfold bind at 1, get at 1. rewrite Hc. unfold with_buffer.
  unfold bind at 1, get at 1. unfold bind at 1, modify at 1.
  set (a0 := set_response (replicate 4096 0) a).
  destruct (reset_list_info_ret a0) as (a1 & Hr1 & Hb1 & Hh1 & Hm1 & Hq1 & Hc1). specialize (Hc1 ctx Hc).
  unfold bind at 1 2. rewrite Hr1. set (ctx1 := {| occ_header := None |}) in Hc1.
  assert (message_buffer l = b) as Eb by done. assert (length b = 4096%nat) as Lb
    by (apply message_buffer_length; unfold AEM_ROOM in Hl; lia).
  destruct (get_async_message_total l m a1) as (a2 & Hg & Hc2 & Hh2 & Hb2);
    [done|by rewrite Hm1|by rewrite Hq1|by rewrite Hm1|done|done|done|].
  unfold bind at 1, process_message. unfold bind at 1. unfold AEM_ROOM in Hg. rewrite Hg.
  cbn [is_success negb]. destruct (Z.eqb_spec (Z.of_nat (length l)) 0) as [?|_]; [lia|].
  destruct (validate_header 4 (Z.of_nat (length l)) true a2 b ctx1) as (rc & a3 & Hv & Hh3 & Hiff & Hpost);
    [by apply message_buffer_bytes|done|by rewrite Hc2|lia|unfold AEM_ROOM in Hl; lia|].
  cbn [andb] in Hiff, Hpost. change (last_generation_num ctx1) with (last_generation_num ctx) in Hiff, Hpost.
  fold n in Hiff. pose proof (proj2 Hiff Hok) as ->. destruct (Hpost eq_refl) as (Hb3 & Hw3 & ctx3 & Hc3 & Hcb & Hgen).
  unfold bind at 1. rewrite Hv. cbn [is_success negb].
  assert (response_buffer a3 !! 4%nat = Some (Z.of_nat n)) as Hn3.
  { rewrite Hb3. unfold n. destruct (last_generation_num ctx =? _); [by rewrite list_lookup_insert_eq by lia|].
    destruct (lookup_lt_is_Some_2 b 4) as [v Hv4]; [lia|]. unfold AemView.count, char_at. rewrite Hv4. cbn.
    pose proof (Forall_lookup_1 _ _ _ _ (message_buffer_bytes l Hlb) Hv4) as Hbv. unfold is_byte in Hbv.
    f_equal. lia. }
  unfold bind at 1, byte_at at 1. rewrite Hn3.
  pose proof Hok as (_ & _ & _ & Ht & Hfit).
  destruct (dispatch_events k n b a3 ctx3 (enabled (callbacks ctx)) (4 + Z.to_nat (AemView.total b 4)))
    as (a4 & Hrun & Hh4 & ctx4 & Hc4 & Hcb4 & Hg4);
    [done|by apply message_buffer_bytes|done| |done|done|unfold AEM_ROOM in Hl; lia|lia|].
  { intros Hn. unfold n in *. by destruct (last_generation_num ctx =? _). }
  rewrite Hrun. destruct (reset_list_info_ret a4) as (a5 & Hr5 & _ & Hh5 & _ & _ & Hc5).
  unfold bind at 1. rewrite Hr5. eexists. split; [done|]. cbn.
  split; [by rewrite Hh5, Hh4, Hh3, Hh2, Hh1|]. split; [done|].
  rewrite (Hc5 _ Hc4). by rewrite Hcb4, Hg4, Hcb, Hgen.
Qed.
End Process.

(** ** Runs *)

Module AemSample.

Definition all_on : list bool := replicate 256 true.
Definition config : libnvme_mi_aem_config :=
  {| enabled := all_on; envfa := false; empfa := false; encfa := true; aemd := 1; aerd := 2 |}.
Definition ctx : libnvme_mi_aem_ctx :=
  {| occ_header := None; list_current := None; list_current_index := -1; callbacks := config;
     last_generation_num := -1 |}.
Definition client (c : libnvme_mi_aem_ctx) (b : list Z) : aem_state :=
  {| mi := MiSample.start; aem_ctx := Some c; resp_buf_aem := replicate 4096 0; response_buffer := b;
     handed := [] |}.

(** Two entries: one with two bytes of information, one with none. *)
Definition entry_bytes (sil vsil aeoi : Z) : list Z :=
  [9; sil; vsil; aeoi; 1; 0; 0; 0; 0] ++ replicate (Z.to_nat (sil + vsil)) 0xee.
Definition events : list Z := entry_bytes 1 1 3 ++ entry_bytes 0 0 4.
Definition list_hdr (n total gen : Z) : list Z := [n; 0] ++ to_le 3 total ++ [7; gen * 8].
Definition two : list Z := list_hdr 2 27 5 ++ events.
Definition message : list Z := MiSample.frame (aem_hdr ++ two).
Definition recv (m : list Z) (t : list event) : errno + (bool * Z * list Z) := inr (true, 9, m).

(** Eight entries that fill 4096 bytes, and a count of nine. *)
Definition full_list : list Z :=
  list_hdr 9 4096 5 ++ concat (replicate 7 (entry_bytes 255 255 3)) ++ entry_bytes 255 192 3.

End AemSample.

Lemma aem_list_walk_witness :
  ∃ rc a', validate_occ_list_update_ctx 4 27 true (AemSample.client AemSample.ctx (message_buffer AemSample.two)) =
    Ret rc a' ∧ (rc = Success → ∃ a'', take_events 5 a' = Ret tt a'' ∧ length (handed a'') = 2%nat).
Proof.
  destruct (aem_list_walk 4 27 true (AemSample.client AemSample.ctx (message_buffer AemSample.two)) AemSample.ctx)
    as (rc & a' & Heq & _ & _ & Hpost);
    [by apply bytes_forallb; vm_compute|done|lia|vm_compute; lia|].
  exists rc, a'. split; [exact Heq|]. intros Hrc. destruct (Hpost Hrc) as [_ Hw].
  destruct (Hw 5%nat) as (a'' & Ht & Hh). exists a''. split; [exact Ht|]. rewrite Hh. vm_compute. reflexivity.
Defined.

Lemma aem_process_events_witness :
  ∃ a', libnvme_mi_aem_process (MiSample.socket []) 3 9 (AemSample.recv AemSample.message) (λ _ _, (5%nat, false))
      (AemSample.client AemSample.ctx []) = Ret Success a' ∧ length (handed a') = 2%nat.
Proof.
  destruct (aem_process_events (MiSample.socket []) 3 9 (AemSample.recv AemSample.message) (λ _ _, (5%nat, false))
    AemSample.two AemSample.message 5 (AemSample.client AemSample.ctx []) AemSample.ctx)
    as (a' & Heq & Hh & _ & _);
    [done|done|vm_compute; congruence|done|done|vm_compute; reflexivity|by apply bytes_forallb; vm_compute|
     split; vm_compute; congruence| |].
  - split_and!; vm_compute; try congruence. repeat split; lia.
  - exists a'. split; [exact Heq|]. rewrite Hh. vm_compute. reflexivity.
Defined.

(** The check looks at an entry before it looks whether there is room for one:
    a list that fills the 4096 bytes of [libnvme_mi_aem_enable] and counts one
    entry too many makes it read behind the buffer. *)
Theorem aem_list_overread :
  validate_occ_list_update_ctx 0 4096 false (AemSample.client AemSample.ctx AemSample.full_list) = Wild.
Proof. vm_compute. reflexivity. Qed.

(** The number of items is a [__u8]: a configuration with all 256 events
    sends the list of none, and reports success. *)
Theorem aem_sync_all_events E polls malloc_ok envfa empfa encfa aemd aerd on hdr resp_len a :
  let items := sync_items AemSample.all_on on in
  malloc_ok (trace (mi a) ++ [EvHandle]) = true →
  length items = 256%nat ∧
  ∃ a', aem_sync E polls malloc_ok envfa empfa encfa aemd aerd items (Z.of_nat (length items)) hdr resp_len a =
    libnvme_mi_mi_config_set_async_event E polls envfa empfa encfa aemd aerd (enable_list 0 5 []) hdr resp_len a'.
Proof.
  intros items Hm. assert (length items = 256%nat) as Hl by (vm_compute; reflexivity).
  split; [done|]. rewrite Hl. unfold aem_sync. change (u8 (Z.of_nat 256)) with 0.
  unfold bind, lift, call. rewrite Hm. cbn [negb]. eexists. reflexivity.
Qed.

(** The type of the message is tested as a mask: a message of another type,
    here an MI command, is taken for one with events. *)
Theorem async_read_takes_commands :
  let m := MiSample.frame ([NVME_MI_MSGTYPE_NVME; Z.shiftl NVME_MI_MT_MI 3; 0; 0] ++ AemSample.two) in
  ∃ a', libnvme_mi_aem_process (MiSample.socket []) 3 9 (AemSample.recv m) (λ _ _, (5%nat, false))
      (AemSample.client AemSample.ctx []) = Ret Success a' ∧ length (handed a') = 2%nat.
Proof. eexists. split; vm_compute; reflexivity. Qed.
