(* ===== verification/Ttlv.v ===== *)
(** * KMIP TTLV encoding: [keysd/src/ttlv.c], [keysd/src/ttlv.h]

    The encoder's growing buffer ([ttlv_buf]) with its sticky error and its
    stack of open structures, and the decoder.  [malloc] is a parameter: it
    says for which sizes an allocation succeeds.  A reader is the list of the
    bytes between its [p] and its [end], an item's value the list of its [len]
    bytes.  [Tree] is the abstract syntax the bytes stand for. *)

From stdpp Require Import base list numbers.
From S2P Require Import Prelude.
From S2P Require Import CStr.

(** ** Types and big-endian words *)

Definition TTLV_STRUCTURE : Z := 1.
Definition TTLV_INTEGER : Z := 2.
Definition TTLV_LONG : Z := 3.
Definition TTLV_BIG_INT : Z := 4.
Definition TTLV_ENUM : Z := 5.
Definition TTLV_BOOL : Z := 6.
Definition TTLV_TEXT : Z := 7.
Definition TTLV_BYTES : Z := 8.
Definition TTLV_DATE_TIME : Z := 9.
Definition TTLV_INTERVAL : Z := 10.

Definition TTLV_HDR_LEN : Z := 8.
Definition TTLV_MAX_DEPTH : nat := 16.

(** [(len + 7) & ~(size_t)7] *)
Definition pad8 (len : Z) : Z := Z.land (u64 (len + 7)) (2 ^ 64 - 1 - 7).

Definition put_be32 (v : Z) : list Z :=
  [u8 (Z.shiftr v 24); u8 (Z.shiftr v 16); u8 (Z.shiftr v 8); u8 v].

Definition put_be64 (v : Z) : list Z :=
  put_be32 (u32 (Z.shiftr v 32)) ++ put_be32 (u32 v).

Definition get_be32 (p : list Z) : Z :=
  Z.lor (Z.lor (Z.lor (Z.shiftl (char_at p 0) 24) (Z.shiftl (char_at p 1) 16))
               (Z.shiftl (char_at p 2) 8)) (char_at p 3).

Definition get_be64 (p : list Z) : Z :=
  Z.lor (Z.shiftl (get_be32 p) 32) (get_be32 (drop 4 p)).

(** ** Encoder *)

(** [data] holds the [len] bytes written; [open] has [TTLV_MAX_DEPTH] slots. *)
Record ttlv_buf := {
  data : list Z;
  cap : Z;
  err : option errno;
  depth : nat;
  open : list Z }.

Definition blen (b : ttlv_buf) : Z := Z.of_nat (length (data b)).

Definition set_err (b : ttlv_buf) (e : errno) : ttlv_buf :=
  {| data := data b; cap := cap b; err := Some e; depth := depth b; open := open b |}.
Definition set_data (b : ttlv_buf) (d : list Z) (c : Z) : ttlv_buf :=
  {| data := d; cap := c; err := err b; depth := depth b; open := open b |}.
Definition set_stack (b : ttlv_buf) (n : nat) (o : list Z) : ttlv_buf :=
  {| data := data b; cap := cap b; err := err b; depth := n; open := o |}.
(** A write of [bs] at offset [p]. *)
Definition put (b : ttlv_buf) (p : Z) (bs : list Z) : ttlv_buf :=
  set_data b (list_inserts (Z.to_nat p) bs (data b)) (cap b).

Definition ttlv_buf_init : ttlv_buf :=
  {| data := []; cap := 0; err := None; depth := 0; open := replicate TTLV_MAX_DEPTH 0 |}.

Definition ttlv_buf_free (b : ttlv_buf) : ttlv_buf := ttlv_buf_init.

(** The doubling loop of [reserve]; [None] when doubling would overflow. *)
Fixpoint grow (fuel : nat) (c len b_len : Z) : option Z :=
  match fuel with
  | O => None
  | S fuel' =>
      if u64 (c - b_len) <? len then
        if UINT64_MAX / 2 <? c then None else grow fuel' (u64 (c * 2)) len b_len
      else Some c
  end.

Section Encoder.

(** Does [malloc(size)] succeed? *)
Context (malloc : Z → bool).

(** The offset of the [len] zeroed bytes, [None] for NULL. *)
Definition reserve (b : ttlv_buf) (len : Z) : ttlv_buf * option Z :=
  match err b with
  | Some _ => (b, None)
  | None =>
      let zeros := replicate (Z.to_nat len) 0 in
      if u64 (cap b - blen b) <? len then
        match grow 64 (if cap b =? 0 then 256 else cap b) len (blen b) with
        | None => (set_err b ENOMEM, None)
        | Some c =>
            if malloc c then (set_data b (data b ++ zeros) c, Some (blen b))
            else (set_err b ENOMEM, None)
        end
      else (set_data b (data b ++ zeros) (cap b), Some (blen b))
  end.

(** The offset of the value, [None] for NULL. *)
Definition add_item (b : ttlv_buf) (tag type len : Z) : ttlv_buf * option Z :=
  if UINT32_MAX <? len then
    (match err b with None => set_err b EOVERFLOW | Some _ => b end, None)
  else
    match reserve b (TTLV_HDR_LEN + pad8 len) with
    | (b, None) => (b, None)
    | (b, Some p) =>
        let b := put b p (put_be32 (Z.lor (u32 (Z.shiftl tag 8)) type)) in
        let b := put b (p + 4) (put_be32 len) in
        (b, Some (p + TTLV_HDR_LEN))
    end.

Definition ttlv_begin (b : ttlv_buf) (tag : Z) : ttlv_buf :=
  match err b with
  | Some _ => b
  | None =>
      if (depth b =? TTLV_MAX_DEPTH)%nat then set_err b E2BIG
      else
        let b := set_stack b (depth b) (<[depth b := blen b]> (open b)) in
        match add_item b tag TTLV_STRUCTURE 0 with
        | (b, Some _) => set_stack b (S (depth b)) (open b)
        | (b, None) => b
        end
  end.

Definition ttlv_end (b : ttlv_buf) : ttlv_buf :=
  match err b with
  | Some _ => b
  | None =>
      match depth b with
      | O => set_err b EINVAL
      | S d =>
          let b := set_stack b d (open b) in
          let start := default 0 (open b !! d) in
          let len := u64 (blen b - start - TTLV_HDR_LEN) in
          if UINT32_MAX <? len then set_err b EOVERFLOW
          else put b (start + 4) (put_be32 len)
      end
  end.

Definition ttlv_add_int (b : ttlv_buf) (tag v : Z) : ttlv_buf :=
  match add_item b tag TTLV_INTEGER 4 with
  | (b, Some p) => put b p (put_be32 (u32 v))
  | (b, None) => b
  end.

Definition ttlv_add_long (b : ttlv_buf) (tag v : Z) : ttlv_buf :=
  match add_item b tag TTLV_LONG 8 with
  | (b, Some p) => put b p (put_be64 (u64 v))
  | (b, None) => b
  end.

Definition ttlv_add_enum (b : ttlv_buf) (tag v : Z) : ttlv_buf :=
  match add_item b tag TTLV_ENUM 4 with
  | (b, Some p) => put b p (put_be32 v)
  | (b, None) => b
  end.

Definition ttlv_add_bool (b : ttlv_buf) (tag : Z) (v : bool) : ttlv_buf :=
  match add_item b tag TTLV_BOOL 8 with
  | (b, Some p) => put b p (put_be64 (if v then 1 else 0))
  | (b, None) => b
  end.

Definition add_string (b : ttlv_buf) (tag type : Z) (v : list Z) : ttlv_buf :=
  match add_item b tag type (Z.of_nat (length v)) with
  | (b, Some p) => if nonempty v then put b p v else b
  | (b, None) => b
  end.

Definition ttlv_add_text (b : ttlv_buf) (tag : Z) (s : list Z) : ttlv_buf :=
  add_string b tag TTLV_TEXT s.

Definition ttlv_add_bytes (b : ttlv_buf) (tag : Z) (v : list Z) : ttlv_buf :=
  add_string b tag TTLV_BYTES v.

Definition ttlv_add_date_time (b : ttlv_buf) (tag v : Z) : ttlv_buf :=
  match add_item b tag TTLV_DATE_TIME 8 with
  | (b, Some p) => put b p (put_be64 (u64 v))
  | (b, None) => b
  end.

Definition ttlv_add_interval (b : ttlv_buf) (tag v : Z) : ttlv_buf :=
  match add_item b tag TTLV_INTERVAL 4 with
  | (b, Some p) => put b p (put_be32 v)
  | (b, None) => b
  end.

End Encoder.

(** ** Decoder *)

Record ttlv_item := {
  it_tag : Z;
  it_type : Z;
  it_val : list Z }.

(** [it->len] *)
Definition it_len (it : ttlv_item) : Z := Z.of_nat (length (it_val it)).

(** The bytes between [p] and [end]. *)
Definition ttlv_reader := list Z.

Definition ttlv_reader_init (buf : list Z) : ttlv_reader := buf.

Definition fixed_len (type : Z) : Z :=
  if (type =? TTLV_INTEGER) || (type =? TTLV_ENUM) || (type =? TTLV_INTERVAL) then 4
  else if (type =? TTLV_LONG) || (type =? TTLV_BOOL) || (type =? TTLV_DATE_TIME) then 8
  else 0.

(** [Ok None] at the end, [Ok (Some (it, r))] for an item and the reader
    behind it. *)
Definition ttlv_next (r : ttlv_reader) : result (option (ttlv_item * ttlv_reader)) :=
  let avail := Z.of_nat (length r) in
  if avail =? 0 then Ok None
  else if avail <? TTLV_HDR_LEN then Err EBADMSG
  else
    let hdr := get_be32 r in
    let tag := Z.shiftr hdr 8 in
    let type := Z.land hdr 255 in
    let len := get_be32 (drop 4 r) in
    if (type <? TTLV_STRUCTURE) || (TTLV_INTERVAL <? type) then Err EBADMSG
    else
      let fixed := fixed_len type in
      if negb (fixed =? 0) && negb (len =? fixed) then Err EBADMSG
      else if ((type =? TTLV_STRUCTURE) || (type =? TTLV_BIG_INT)) && negb (len mod 8 =? 0)
      then Err EBADMSG
      else
        let padded := pad8 len in
        if avail - TTLV_HDR_LEN <? padded then Err EBADMSG
        else
          let val := drop (Z.to_nat TTLV_HDR_LEN) r in
          Ok (Some ({| it_tag := tag; it_type := type; it_val := take (Z.to_nat len) val |},
                    drop (Z.to_nat padded) val)).

(** Each round consumes at least a header, so the length is fuel enough. *)
Fixpoint find_loop (fuel : nat) (r : ttlv_reader) (tag : Z) :
    result (option (ttlv_item * ttlv_reader)) :=
  match fuel with
  | O => Ok None
  | S fuel' =>
      match ttlv_next r with
      | Ok (Some (it, r')) =>
          if it_tag it =? tag then Ok (Some (it, r')) else find_loop fuel' r' tag
      | ret => ret
      end
  end.

Definition ttlv_find (r : ttlv_reader) (tag : Z) : result (option (ttlv_item * ttlv_reader)) :=
  find_loop (S (length r)) r tag.

Definition ttlv_open (it : ttlv_item) : result ttlv_reader :=
  if negb (it_type it =? TTLV_STRUCTURE) then Err EBADMSG
  else Ok (ttlv_reader_init (it_val it)).

Definition ttlv_get_int (it : ttlv_item) : result Z :=
  if negb (it_type it =? TTLV_INTEGER) then Err EBADMSG
  else Ok (to_signed 32 (get_be32 (it_val it))).

Definition ttlv_get_long (it : ttlv_item) : result Z :=
  if negb (it_type it =? TTLV_LONG) then Err EBADMSG
  else Ok (to_signed 64 (get_be64 (it_val it))).

Definition ttlv_get_enum (it : ttlv_item) : result Z :=
  if negb (it_type it =? TTLV_ENUM) then Err EBADMSG
  else Ok (get_be32 (it_val it)).

Definition ttlv_get_bool (it : ttlv_item) : result bool :=
  if negb (it_type it =? TTLV_BOOL) then Err EBADMSG
  else
    let raw := get_be64 (it_val it) in
    if 1 <? raw then Err EBADMSG else Ok (negb (raw =? 0)).

(** ** The abstract syntax and its encoding (KMIP 1.4, section 9.1) *)
Module Tree.

Inductive value :=
| VInt (v : Z) | VLong (v : Z) | VEnum (v : Z) | VBool (v : bool)
| VText (s : list Z) | VBytes (s : list Z) | VDate (v : Z) | VInterval (v : Z).

#[warnings="-register-all"]
Inductive tree :=
| Leaf (tag : Z) (v : value)
| Struct (tag : Z) (ts : list tree).

(** Induction with the hypothesis for every child. *)
Lemma tree_rect_all (P : tree → Prop) :
  (∀ tag v, P (Leaf tag v)) → (∀ tag ts, Forall P ts → P (Struct tag ts)) → ∀ t, P t.
Proof.
  intros HL HS. fix IH 1. intros [tag v|tag ts]; [apply HL|]. apply HS.
  induction ts as [|t ts IHts]; constructor; [apply IH|apply IHts].
Qed.

(** [v] in [n] bytes, most significant first. *)
Fixpoint be (n : nat) (v : Z) : list Z :=
  match n with
  | O => []
  | S n' => v / 256 ^ Z.of_nat n' mod 256 :: be n' v
  end.

Definition vtype (v : value) : Z :=
  match v with
  | VInt _ => 2 | VLong _ => 3 | VEnum _ => 5 | VBool _ => 6
  | VText _ => 7 | VBytes _ => 8 | VDate _ => 9 | VInterval _ => 10
  end.

Definition vbytes (v : value) : list Z :=
  match v with
  | VInt v | VEnum v | VInterval v => be 4 v
  | VLong v | VDate v => be 8 v
  | VBool v => be 8 (if v then 1 else 0)
  | VText s | VBytes s => s
  end.

(** Zero bytes up to the next multiple of eight. *)
Definition padding (n : nat) : list Z := replicate ((8 - n mod 8) mod 8) 0.

(** Tag, type, length, value, padding. *)
Definition item (tag type : Z) (val : list Z) : list Z :=
  be 3 tag ++ [type] ++ be 4 (Z.of_nat (length val)) ++ val ++ padding (length val).

Fixpoint encode (t : tree) : list Z :=
  match t with
  | Leaf tag v => item tag (vtype v) (vbytes v)
  | Struct tag ts => item tag 1 (flat_map encode ts)
  end.

Definition encode_all (ts : list tree) : list Z := flat_map encode ts.

Definition tag_of (t : tree) : Z :=
  match t with Leaf tag _ | Struct tag _ => tag end.

Definition wf_value (v : value) : Prop :=
  match v with
  | VInt v => -2 ^ 31 ≤ v < 2 ^ 31
  | VLong v | VDate v => -2 ^ 63 ≤ v < 2 ^ 63
  | VEnum v | VInterval v => 0 ≤ v < 2 ^ 32
  | VBool _ => True
  | VText s | VBytes s => bytes s ∧ Z.of_nat (length s) < 2 ^ 32
  end.

(** Tags of three bytes, values in range and lengths of four bytes. *)
Fixpoint wf (t : tree) : Prop :=
  match t with
  | Leaf tag v => 0 ≤ tag < 2 ^ 24 ∧ wf_value v
  | Struct tag ts =>
      0 ≤ tag < 2 ^ 24 ∧ fold_right and True (map wf ts) ∧
      Z.of_nat (length (encode_all ts)) < 2 ^ 32
  end.

(** How deep the structures of [t] nest. *)
Fixpoint height (t : tree) : nat :=
  match t with
  | Leaf _ _ => 0
  | Struct _ ts => S (fold_right max 0%nat (map height ts))
  end.

(** The calls that write [t]. *)
Definition emit_value (malloc : Z → bool) (b : ttlv_buf) (tag : Z) (v : value) : ttlv_buf :=
  match v with
  | VInt v => ttlv_add_int malloc b tag v
  | VLong v => ttlv_add_long malloc b tag v
  | VEnum v => ttlv_add_enum malloc b tag v
  | VBool v => ttlv_add_bool malloc b tag v
  | VText s => ttlv_add_text malloc b tag s
  | VBytes s => ttlv_add_bytes malloc b tag s
  | VDate v => ttlv_add_date_time malloc b tag v
  | VInterval v => ttlv_add_interval malloc b tag v
  end.

Fixpoint emit (malloc : Z → bool) (b : ttlv_buf) (t : tree) : ttlv_buf :=
  match t with
  | Leaf tag v => emit_value malloc b tag v
  | Struct tag ts => ttlv_end (fold_left (emit malloc) ts (ttlv_begin malloc b tag))
  end.

(** The decoder reads the trees [ts] from the bytes [r]: one item after the
    other, with the right tag, and with the getter of the value's type. *)
Definition leaf_read (it : ttlv_item) (v : value) : Prop :=
  match v with
  | VInt v => ttlv_get_int it = Ok v
  | VLong v => ttlv_get_long it = Ok v
  | VEnum v => ttlv_get_enum it = Ok v
  | VBool v => ttlv_get_bool it = Ok v
  | VText s => it_type it = TTLV_TEXT ∧ it_val it = s
  | VBytes s => it_type it = TTLV_BYTES ∧ it_val it = s
  | VDate v => it_type it = TTLV_DATE_TIME ∧ to_signed 64 (get_be64 (it_val it)) = v
  | VInterval v => it_type it = TTLV_INTERVAL ∧ get_be32 (it_val it) = v
  end.

Inductive reads : ttlv_reader → list tree → Prop :=
| reads_end r : ttlv_next r = Ok None → reads r []
| reads_leaf r it r' v ts :
    ttlv_next r = Ok (Some (it, r')) → leaf_read it v → reads r' ts →
    reads r (Leaf (it_tag it) v :: ts)
| reads_struct r it r' sub us ts :
    ttlv_next r = Ok (Some (it, r')) → ttlv_open it = Ok sub → reads sub us → reads r' ts →
    reads r (Struct (it_tag it) us :: ts).

End Tree.
Import Tree.

(** ** Words and padding *)

Lemma u8_shiftr v k : 0 ≤ k → u8 (Z.shiftr v k) = v / 2 ^ k mod 256.
Proof. intros. unfold u8. by rewrite Z.shiftr_div_pow2. Qed.

Lemma put_be32_be v : put_be32 v = be 4 v.
Proof.
  unfold put_be32. cbn [be]. rewrite !u8_shiftr by lia.
  unfold u8. by rewrite Z.div_1_r.
Qed.

Lemma be_length n v : length (be n v) = n.
Proof. induction n; cbn [be length]; by f_equal. Qed.

Lemma be_bytes n v : bytes (be n v).
Proof. induction n; constructor; [apply Z.mod_pos_bound; lia|done]. Qed.

Lemma be_mod n v k : (n ≤ k)%nat → be n (v mod 256 ^ Z.of_nat k) = be n v.
Proof.
  induction n as [|n IH]; intros Hk; cbn [be]; [done|]. f_equal; [|apply IH; lia].
  replace (Z.of_nat k) with (Z.of_nat n + (1 + (Z.of_nat k - Z.of_nat n - 1))) by lia.
  rewrite Z.pow_add_r, (Z.pow_add_r 256 1) by lia. change (256 ^ 1) with 256.
  set (a := 256 ^ Z.of_nat n). set (b := 256 ^ _).
  assert (0 < a) by (apply Z.pow_pos_nonneg; lia).
  assert (0 < b) by (apply Z.pow_pos_nonneg; lia).
  rewrite Z.rem_mul_r by lia.
  rewrite (Z.mul_comm a), Z.div_add by lia.
  rewrite (Z.div_small (v mod a)) by (apply Z.mod_pos_bound; lia).
  rewrite Z.add_0_l, Z.rem_mul_r by lia. rewrite (Z.mul_comm 256), Z.mod_add, Z.mod_mod; lia.
Qed.

Lemma be_app m n v : be (m + n) v = be m (v / 256 ^ Z.of_nat n) ++ be n v.
Proof.
  induction m as [|m IH]; [done|]. cbn [be Nat.add app]. rewrite IH. f_equal.
  rewrite Z.div_div, <- Z.pow_add_r by lia. do 3 f_equal. lia.
Qed.

Lemma put_be64_be v : put_be64 v = be 8 v.
Proof.
  unfold put_be64, u32. rewrite !put_be32_be. change (2 ^ 32) with (256 ^ Z.of_nat 4).
  rewrite !be_mod by lia. rewrite Z.shiftr_div_pow2 by lia. by rewrite (be_app 4 4).
Qed.

Lemma get_be32_bytes a b c d r :
  is_byte a → is_byte b → is_byte c → is_byte d →
  get_be32 (a :: b :: c :: d :: r) = a * 2 ^ 24 + b * 2 ^ 16 + c * 2 ^ 8 + d.
Proof.
  unfold get_be32, char_at, is_byte. cbn [lookup list_lookup default option_fmap].
  intros. rewrite !Z.shiftl_mul_pow2 by lia.
  assert (E : ∀ x y n, 0 ≤ n → 0 ≤ y < 2 ^ n → Z.lor (x * 2 ^ n) y = x * 2 ^ n + y).
  { intros x y n Hn Hy. pose proof (lor_shiftl_add x y n Hn Hy) as E.
    by rewrite Z.shiftl_mul_pow2 in E. }
  change (Z.lor (Z.lor (Z.lor (a * 2 ^ 24) (b * 2 ^ 16)) (c * 2 ^ 8)) d =
          a * 2 ^ 24 + b * 2 ^ 16 + c * 2 ^ 8 + d).
  rewrite (E a) by lia.
  replace (a * 2 ^ 24 + b * 2 ^ 16) with ((a * 2 ^ 8 + b) * 2 ^ 16) by lia.
  rewrite (E _ (c * 2 ^ 8)) by lia.
  replace ((a * 2 ^ 8 + b) * 2 ^ 16 + c * 2 ^ 8) with ((a * 2 ^ 16 + b * 2 ^ 8 + c) * 2 ^ 8) by lia.
  rewrite E by lia. lia.
Qed.

Lemma mod_byte v : is_byte (v mod 256).
Proof. apply Z.mod_pos_bound. lia. Qed.

Lemma get_be32_be v r : get_be32 (be 4 v ++ r) = v mod 2 ^ 32.
Proof.
  cbn [be app]. rewrite get_be32_bytes by apply mod_byte.
  change (256 ^ Z.of_nat 3) with (2 ^ 24). change (256 ^ Z.of_nat 2) with (2 ^ 16).
  change (256 ^ Z.of_nat 1) with (2 ^ 8). change (256 ^ Z.of_nat 0) with 1. divmod.
Qed.

Lemma get_be64_be v r : get_be64 (be 8 v ++ r) = v mod 2 ^ 64.
Proof.
  unfold get_be64. rewrite (be_app 4 4), <- app_assoc, get_be32_be.
  rewrite drop_app_ge, be_length by (by rewrite be_length). cbn [Nat.sub]. rewrite drop_0.
  rewrite get_be32_be, lor_shiftl_add by (try apply Z.mod_pos_bound; lia).
  change (256 ^ Z.of_nat 4) with (2 ^ 32). divmod.
Qed.

Lemma to_signed_mod w v : 0 < w → -2 ^ (w - 1) ≤ v < 2 ^ (w - 1) → to_signed w (v mod 2 ^ w) = v.
Proof.
  intros Hw Hv. unfold to_signed.
  assert (2 ^ w = 2 * 2 ^ (w - 1)) by (rewrite <- Z.pow_succ_r by lia; f_equal; lia).
  destruct (Z.ltb_spec v 0).
  - replace (v mod 2 ^ w) with (v + 2 ^ w).
    + destruct (Z.ltb_spec (v + 2 ^ w) (2 ^ (w - 1))); lia.
    + symmetry. rewrite <- (Z.mod_add v 1), Z.mul_1_l by lia. apply Z.mod_small. lia.
  - rewrite Z.mod_small by lia. destruct (Z.ltb_spec v (2 ^ (w - 1))); lia.
Qed.

Lemma land_clear3 x : 0 ≤ x < 2 ^ 64 → Z.land x (2 ^ 64 - 1 - 7) = 8 * (x / 8).
Proof.
  intros Hx. change (2 ^ 64 - 1 - 7) with (Z.shiftl (Z.ones 61) 3).
  rewrite (Z.mul_comm 8). change 8 with (2 ^ 3) at 2. rewrite <- Z.shiftl_mul_pow2 by lia.
  change 8 with (2 ^ 3). rewrite <- Z.shiftr_div_pow2 by lia.
  apply Z.bits_inj'. intros i Hi. rewrite Z.land_spec.
  destruct (Z.ltb_spec i 3).
  { rewrite !Z.shiftl_spec_low by lia. by rewrite andb_false_r. }
  rewrite !Z.shiftl_spec, Z.shiftr_spec by lia. replace (i - 3 + 3) with i by lia.
  destruct (Z.ltb_spec i 64).
  - rewrite Z.ones_spec_low by lia. by rewrite andb_true_r.
  - rewrite Z.ones_spec_high by lia. rewrite andb_false_r.
    rewrite <- (Z.mod_small x (2 ^ 64)) by done. by rewrite Z.mod_pow2_bits_high by lia.
Qed.

Lemma padding_length n :
  Z.of_nat (length (padding n)) = (8 - Z.of_nat n mod 8) mod 8.
Proof.
  unfold padding. rewrite length_replicate.
  rewrite Nat2Z.inj_mod, Nat2Z.inj_sub, Nat2Z.inj_mod; [done|].
  pose proof (Nat.mod_upper_bound n 8). lia.
Qed.

Lemma pad8_padding n : Z.of_nat n < 2 ^ 33 →
  pad8 (Z.of_nat n) = Z.of_nat n + Z.of_nat (length (padding n)).
Proof.
  intros Hn. unfold pad8, u64. rewrite padding_length.
  rewrite Z.mod_small, land_clear3 by lia. divmod.
Qed.

Lemma item_length tag type val :
  length (item tag type val) = (8 + length val + length (padding (length val)))%nat.
Proof. unfold item. rewrite !length_app, !be_length. simpl. lia. Qed.

Lemma item_length_8 tag type val : (length (item tag type val) mod 8 = 0)%nat.
Proof.
  rewrite item_length. apply (inj Z.of_nat).
  rewrite Nat2Z.inj_mod, !Nat2Z.inj_add, padding_length. divmod.
Qed.

Lemma encode_all_length_8 ts : (length (encode_all ts) mod 8 = 0)%nat.
Proof.
  induction ts as [|t ts IH]; [done|]. unfold encode_all in *. cbn [flat_map].
  rewrite length_app. assert (length (encode t) mod 8 = 0)%nat.
  { destruct t; apply item_length_8. }
  ndivmod.
Qed.

Lemma padding_encode_all ts : padding (length (encode_all ts)) = [].
Proof. unfold padding. by rewrite encode_all_length_8. Qed.

(** The first four bytes of an item. *)
Lemma header_be tag type :
  0 ≤ tag < 2 ^ 24 → 0 ≤ type < 256 → be 3 tag ++ [type] = be 4 (tag * 256 + type).
Proof.
  intros Ht Hy. rewrite (be_app 3 1). f_equal.
  - f_equal. change (256 ^ Z.of_nat 1) with 256. divmod.
  - cbn [be]. change (256 ^ Z.of_nat 0) with 1. rewrite Z.div_1_r. f_equal. divmod.
Qed.

Lemma header_word tag type :
  0 ≤ tag < 2 ^ 24 → 0 ≤ type < 256 →
  Z.lor (u32 (Z.shiftl tag 8)) type = tag * 256 + type.
Proof.
  intros Ht Hy. unfold u32.
  rewrite Z.mod_small by (rewrite Z.shiftl_mul_pow2; lia).
  by rewrite lor_shiftl_add by lia.
Qed.

(** ** The encoder writes the encoding *)

(** The well-formedness invariant of a buffer: the written bytes fit the
    allocation, and every open structure has its header in the buffer. *)
Record wf_buf (b : ttlv_buf) : Prop := {
  wf_cap : blen b ≤ cap b ≤ UINT64_MAX;
  wf_alloc : cap b = 0 ∨ 256 ≤ cap b;
  wf_open : length (open b) = TTLV_MAX_DEPTH;
  wf_depth : (depth b ≤ TTLV_MAX_DEPTH)%nat;
  wf_starts : Forall (λ s, 0 ≤ s ∧ s + TTLV_HDR_LEN ≤ blen b) (take (depth b) (open b)) }.

(** Memory suffices for a buffer of [n] bytes. *)
Definition roomy (malloc : Z → bool) (n : Z) : Prop :=
  (∀ c, malloc c = true) ∧ n ≤ 2 ^ 62.

Lemma list_inserts_mid (d m k r : list Z) i :
  i = length d → length m = length k →
  list_inserts i k (d ++ m ++ r) = d ++ k ++ r.
Proof.
  intros -> Hl. revert d m Hl. induction k as [|x k IH]; intros d [|y m] Hl; try done.
  cbn [list_inserts]. injection Hl as Hl.
  replace (d ++ (y :: m) ++ r) with ((d ++ [y]) ++ m ++ r) by (by rewrite <- app_assoc).
  replace (S (length d)) with (length (d ++ [y])) by (rewrite length_app; simpl; lia).
  rewrite IH by done. rewrite <- app_assoc. rewrite insert_app_r_alt, Nat.sub_diag by lia. done.
Qed.

Lemma grow_spec fuel c len n c' :
  0 ≤ n ≤ c → c ≤ UINT64_MAX → 256 ≤ c → 0 ≤ len →
  grow fuel c len n = Some c' → n + len ≤ c' ≤ UINT64_MAX ∧ 256 ≤ c'.
Proof.
  revert c. induction fuel as [|fuel IH]; intros c Hn Hc H2 Hl; cbn [grow]; [done|].
  unfold u64, UINT64_MAX in *. rewrite !Z.mod_small by lia.
  destruct (Z.ltb_spec (c - n) len); [|intros [= <-]; lia].
  destruct (Z.ltb_spec ((2 ^ 64 - 1) / 2) c); [done|].
  rewrite Z.mod_small by divmod. apply IH; divmod.
Qed.

Lemma grow_S fuel c len n :
  grow (S fuel) c len n =
  if u64 (c - n) <? len then
    if UINT64_MAX / 2 <? c then None else grow fuel (u64 (c * 2)) len n
  else Some c.
Proof. done. Qed.

Lemma grow_total fuel c len n :
  0 ≤ n ≤ c → c ≤ UINT64_MAX → 256 ≤ c → n + len ≤ 2 ^ 62 → 2 ^ 62 ≤ c * 2 ^ Z.of_nat fuel →
  is_Some (grow (S fuel) c len n).
Proof.
  revert c. induction fuel as [|fuel IH]; intros c Hn Hc H2 Hl Hf; rewrite grow_S;
    unfold UINT64_MAX, u64 in *; rewrite (Z.mod_small (c - n)) by lia.
  - rewrite Z.pow_0_r in Hf. destruct (Z.ltb_spec (c - n) len); [lia|by eexists].
  - destruct (Z.ltb_spec (c - n) len); [|by eexists].
    destruct (Z.ltb_spec ((2 ^ 64 - 1) / 2) c); [divmod|].
    rewrite Z.mod_small by divmod. apply IH; try divmod.
    rewrite Nat2Z.inj_succ, Z.pow_succ_r in Hf by lia. lia.
Qed.

(** [reserve] fails with ENOMEM, or adds [len] zero bytes. *)
Lemma reserve_spec malloc b len :
  wf_buf b → err b = None → 0 ≤ len < 2 ^ 33 →
  (reserve malloc b len = (set_err b ENOMEM, None) ∧ ¬ roomy malloc (blen b + len)) ∨
  ∃ c, reserve malloc b len =
         (set_data b (data b ++ replicate (Z.to_nat len) 0) c, Some (blen b)) ∧
       blen b + len ≤ c ≤ UINT64_MAX ∧ (c = 0 ∨ 256 ≤ c).
Proof.
  intros [Hc Ha _ _ _] He Hl. unfold reserve. rewrite He.
  assert (0 ≤ blen b) by (unfold blen; lia).
  assert (u64 (cap b - blen b) = cap b - blen b) as ->
    by (unfold u64, UINT64_MAX in *; rewrite Z.mod_small; lia).
  destruct (Z.ltb_spec (cap b - blen b) len) as [Hlt|Hge]; [|right; exists (cap b); split; [done|lia]].
  set (c0 := if cap b =? 0 then 256 else cap b).
  assert (Hc0 : blen b ≤ c0 ∧ 256 ≤ c0 ≤ UINT64_MAX).
  { subst c0. destruct (Z.eqb_spec (cap b) 0); unfold UINT64_MAX in *; lia. }
  destruct (grow 64 c0 len (blen b)) as [c|] eqn:Hg.
  - apply grow_spec in Hg; [|lia..].
    destruct (malloc c) eqn:Hm; [right; exists c; split; [done|lia]|].
    left. split; [done|]. intros [Hall _]. by rewrite Hall in Hm.
  - left. split; [done|]. intros [_ Hr].
    destruct (grow_total 63 c0 len (blen b)) as [c Hc']; [lia..| |by rewrite Hg in Hc'].
    change (2 ^ Z.of_nat 63) with (2 ^ 63). lia.
Qed.

Lemma put_spec b d m k r p :
  data b = d ++ m ++ r → p = Z.of_nat (length d) → length m = length k →
  put b p k = set_data b (d ++ k ++ r) (cap b).
Proof.
  intros Hd -> Hl. unfold put. f_equal. rewrite Nat2Z.id, Hd. by apply list_inserts_mid.
Qed.

Lemma add_item_spec malloc b tag type len :
  wf_buf b → err b = None → 0 ≤ tag < 2 ^ 24 → 0 ≤ type < 256 →
  Z.of_nat len < 2 ^ 32 →
  (add_item malloc b tag type (Z.of_nat len) = (set_err b ENOMEM, None) ∧
   ¬ roomy malloc (blen b + 8 + Z.of_nat len + Z.of_nat (length (padding len)))) ∨
  ∃ c, add_item malloc b tag type (Z.of_nat len) =
         (set_data b (data b ++ be 3 tag ++ [type] ++ be 4 (Z.of_nat len) ++
            replicate len 0 ++ padding len) c, Some (blen b + 8)) ∧
       blen b + 8 + Z.of_nat len + Z.of_nat (length (padding len)) ≤ c ≤ UINT64_MAX ∧
       (c = 0 ∨ 256 ≤ c).
Proof.
  intros Hwf He Ht Hy Hl. unfold add_item.
  destruct (Z.ltb_spec UINT32_MAX (Z.of_nat len)); [unfold UINT32_MAX in *; lia|].
  rewrite pad8_padding by lia. change TTLV_HDR_LEN with 8.
  pose proof (padding_length len).
  assert (Z.of_nat (length (padding len)) < 8) by divmod.
  destruct (reserve_spec malloc b (8 + (Z.of_nat len + Z.of_nat (length (padding len)))))
    as [[-> Hr]|(c & -> & Hc & Hc')]; [done..|lia| |].
  { left. split; [done|]. by replace (_ + _ + _) with (blen b + (8 + (Z.of_nat len +
      Z.of_nat (length (padding len))))) by lia. }
  right. exists c. split; [|lia]. rewrite header_word by done. rewrite !put_be32_be.
  assert (Hz : replicate (Z.to_nat (8 + (Z.of_nat len + Z.of_nat (length (padding len))))) 0 =
    replicate 4 0 ++ replicate 4 0 ++ replicate len 0 ++ padding len).
  { unfold padding. rewrite length_replicate, <- !replicate_add. f_equal. lia. }
  rewrite Hz. rewrite (put_spec _ (data b) (replicate 4 0) (be 4 (tag * 256 + type))
    (replicate 4 0 ++ replicate len 0 ++ padding len)) by (done || by rewrite be_length).
  erewrite (put_spec _ (data b ++ be 4 (tag * 256 + type)) (replicate 4 0) (be 4 (Z.of_nat len))
    (replicate len 0 ++ padding len)); cbn [set_data cap data].
  - rewrite <- header_be by done. by rewrite <- !app_assoc.
  - by rewrite <- !app_assoc.
  - unfold blen. rewrite length_app, be_length. lia.
  - done.
Qed.

(** What a sequence of calls on [b] that writes [out] gives: the bytes behind
    the old ones and the same open structures, or ENOMEM when memory is short. *)
Definition outcome (malloc : Z → bool) (b b' : ttlv_buf) (out : list Z) : Prop :=
  (err b' = Some ENOMEM ∧ ¬ roomy malloc (blen b + Z.of_nat (length out))) ∨
  (err b' = None ∧ data b' = data b ++ out ∧ depth b' = depth b ∧
   take (depth b) (open b') = take (depth b) (open b) ∧ wf_buf b').

Lemma roomy_le malloc n m : n ≤ m → roomy malloc m → roomy malloc n.
Proof. intros ? [? ?]. split; [done|lia]. Qed.

Lemma outcome_refl malloc b : wf_buf b → err b = None → outcome malloc b b [].
Proof. intros ??. right. by rewrite app_nil_r. Qed.

Lemma outcome_trans malloc b b1 b2 o1 o2 :
  outcome malloc b b1 o1 →
  (err b1 = Some ENOMEM → b2 = b1) →
  (err b1 = None → wf_buf b1 → depth b1 = depth b → outcome malloc b1 b2 o2) →
  outcome malloc b b2 (o1 ++ o2).
Proof.
  intros [[He Hr]|(He & Hd & Hp & Ho & Hw)] H1 H2.
  - left. rewrite (H1 He). split; [done|]. intros Hr'. apply Hr.
    revert Hr'. apply roomy_le. rewrite length_app. lia.
  - specialize (H2 He Hw Hp). destruct H2 as [[He2 Hr2]|(He2 & Hd2 & Hp2 & Ho2 & Hw2)].
    + left. split; [done|]. intros Hr'. apply Hr2. revert Hr'. apply roomy_le.
      unfold blen. rewrite Hd, !length_app. lia.
    + right. split_and!; [done| |congruence| |done].
      * by rewrite Hd2, Hd, app_assoc.
      * rewrite Hp in Ho2. by rewrite Ho2.
Qed.

Lemma wf_set_data b out c :
  wf_buf b → blen b + Z.of_nat (length out) ≤ c ≤ UINT64_MAX → c = 0 ∨ 256 ≤ c →
  wf_buf (set_data b (data b ++ out) c).
Proof.
  intros [Hc Ha Ho Hd Hs] Hc' Ha'. split; unfold blen in *; simpl; [rewrite length_app; lia|done..|].
  eapply list.Forall_impl; [exact Hs|]. simpl. rewrite length_app. lia.
Qed.

(** Adding a value of type [type] whose bytes are [val]. *)
Lemma add_value_outcome malloc b tag type val :
  wf_buf b → err b = None → 0 ≤ tag < 2 ^ 24 → 0 ≤ type < 256 →
  Z.of_nat (length val) < 2 ^ 32 →
  outcome malloc b
    (match add_item malloc b tag type (Z.of_nat (length val)) with
     | (b, Some p) => put b p val
     | (b, None) => b
     end) (item tag type val).
Proof.
  intros Hw He Ht Hy Hl.
  destruct (add_item_spec malloc b tag type (length val)) as [[-> Hr]|(c & -> & Hc & Hc')];
    [done..| |].
  - left. split; [done|]. intros Hr'. apply Hr. revert Hr'. apply roomy_le.
    rewrite item_length. lia.
  - right. rewrite (put_spec _ (data b ++ be 3 tag ++ [type] ++ be 4 (Z.of_nat (length val)))
      (replicate (length val) 0) val (padding (length val))).
    + assert (Hd : (data b ++ be 3 tag ++ [type] ++ be 4 (Z.of_nat (length val))) ++ val ++
        padding (length val) = data b ++ item tag type val)
        by (unfold item; by rewrite <- !app_assoc).
      rewrite Hd. split_and!; [done..|]. cbn [set_data cap].
      apply wf_set_data with (b := b); [done| |done].
      rewrite item_length. lia.
    + by rewrite <- !app_assoc.
    + unfold blen. rewrite !length_app, !be_length. simpl. lia.
    + by rewrite length_replicate.
Qed.

Lemma put_nil b p : put b p [] = b.
Proof. by destruct b. Qed.

Lemma add_string_outcome malloc b tag type val :
  wf_buf b → err b = None → 0 ≤ tag < 2 ^ 24 → 0 ≤ type < 256 →
  Z.of_nat (length val) < 2 ^ 32 →
  outcome malloc b (add_string malloc b tag type val) (item tag type val).
Proof.
  intros Hw He Ht Hy Hl. pose proof (add_value_outcome malloc b tag type val) as H.
  unfold add_string. destruct (add_item _ _ _ _ _) as [b' [p|]]; [|by apply H].
  destruct val as [|v val]; [|by apply H]. rewrite put_nil in H. by apply H.
Qed.

Lemma put_be32_u32 v : put_be32 (u32 v) = be 4 v.
Proof. rewrite put_be32_be. by apply (be_mod 4 v 4). Qed.

Lemma put_be64_u64 v : put_be64 (u64 v) = be 8 v.
Proof. rewrite put_be64_be. by apply (be_mod 8 v 8). Qed.

Lemma emit_value_outcome malloc b tag v :
  wf_buf b → err b = None → 0 ≤ tag < 2 ^ 24 → wf_value v →
  outcome malloc b (emit_value malloc b tag v) (item tag (vtype v) (vbytes v)).
Proof.
  intros Hw He Ht Hv.
  destruct v; simpl in Hv; cbn [vtype vbytes emit_value];
    try (apply add_string_outcome; (done || lia));
    unfold ttlv_add_int, ttlv_add_long, ttlv_add_enum, ttlv_add_bool, ttlv_add_date_time,
      ttlv_add_interval;
    rewrite ?put_be32_u32, ?put_be64_u64, ?put_be32_be, ?put_be64_be;
    match goal with |- outcome _ _ _ (item _ ?t ?l) =>
      apply (add_value_outcome malloc b tag t l); (done || lia) end.
Qed.

(** A call on a buffer with an error changes nothing. *)
Lemma add_item_err malloc b tag type len e :
  err b = Some e → add_item malloc b tag type len = (b, None).
Proof.
  intros He. unfold add_item, reserve. rewrite He. by destruct (_ <? _).
Qed.

Lemma emit_err malloc t b e : err b = Some e → emit malloc b t = b.
Proof.
  intros He. induction t as [tag v|tag ts IH] using tree_rect_all; cbn [emit].
  - destruct v; cbn [emit_value]; unfold ttlv_add_int, ttlv_add_long, ttlv_add_enum,
      ttlv_add_bool, ttlv_add_date_time, ttlv_add_interval, ttlv_add_text, ttlv_add_bytes,
      add_string; by erewrite add_item_err.
  - assert (ttlv_begin malloc b tag = b) as -> by (unfold ttlv_begin; by rewrite He).
    assert (fold_left (emit malloc) ts b = b) as ->.
    { induction IH as [|t ts Ht _ IH]; cbn [fold_left]; [done|]. by rewrite Ht. }
    unfold ttlv_end. by rewrite He.
Qed.

(** [ttlv_begin] pushes the structure and writes its header, of length 0. *)
Lemma ttlv_begin_outcome malloc b tag :
  wf_buf b → err b = None → 0 ≤ tag < 2 ^ 24 → (depth b < TTLV_MAX_DEPTH)%nat →
  let b' := ttlv_begin malloc b tag in
  (err b' = Some ENOMEM ∧ ¬ roomy malloc (blen b + 8)) ∨
  (err b' = None ∧ data b' = data b ++ item tag 1 [] ∧ depth b' = S (depth b) ∧
   take (S (depth b)) (open b') = take (depth b) (open b) ++ [blen b] ∧ wf_buf b').
Proof.
  intros Hw He Ht Hd. cbn zeta. unfold ttlv_begin. rewrite He.
  destruct (Nat.eqb_spec (depth b) TTLV_MAX_DEPTH); [lia|].
  set (b0 := set_stack b (depth b) (<[depth b:=blen b]> (open b))).
  pose proof Hw as [Hc Ha Ho Hdp Hs].
  assert (Hw0 : wf_buf b0).
  { split; [done|done|simpl; by rewrite length_insert|done|].
    simpl. by rewrite take_insert_ge. }
  destruct (add_item_spec malloc b0 tag 1 0) as [[E Hr]|(c & E & Hc1 & Hc2)]; [done..| |];
    change (Z.of_nat 0) with 0 in E; unfold TTLV_STRUCTURE; rewrite E; clear E.
  - left. split; [done|]. intros Hr'. apply Hr. revert Hr'. apply roomy_le.
    change (blen b0) with (blen b). change (length (padding 0)) with 0%nat. lia.
  - right.
    assert (Hopen : take (S (depth b)) (<[depth b:=blen b]> (open b)) =
      take (depth b) (open b) ++ [blen b]).
    { rewrite (take_S_r _ _ (blen b)); [by rewrite take_insert_ge|].
      apply list_lookup_insert_eq. lia. }
    split_and!; [done|done|done|done|].
    assert (H : wf_buf (set_data b0 (data b0 ++ item tag 1 []) c)).
    { apply wf_set_data; [done| |done]. rewrite item_length.
      change (length (padding (length []))) with 0%nat. simpl. revert Hc1.
      change (length (padding 0)) with 0%nat. lia. }
    destruct H as [H1 H2 H3 H4 H5]. split; [done|done|done|simpl; lia|].
    cbn [set_stack depth open set_data b0] in *. change (open (set_data b0 _ _)) with
      (<[depth b:=blen b]> (open b)).
    rewrite Hopen. apply Forall_app. split.
    + revert H5. cbn [b0 set_stack depth open set_data]. by rewrite take_insert_ge.
    + constructor; [|done]. unfold blen, TTLV_HDR_LEN.
      cbn [data set_stack set_data b0]. rewrite !length_app. simpl. lia.
Qed.

(** [ttlv_end] completes the header of the innermost structure. *)
Lemma ttlv_end_outcome b d tag body start :
  wf_buf b → err b = None → depth b = S (length d) →
  take (depth b) (open b) = d ++ [start] →
  (∃ pre, data b = pre ++ be 3 tag ++ [1] ++ be 4 0 ++ body ∧ start = Z.of_nat (length pre)) →
  Z.of_nat (length body) < 2 ^ 32 →
  let b' := ttlv_end b in
  err b' = None ∧ depth b' = length d ∧ open b' = open b ∧ cap b' = cap b ∧
  data b' = take (Z.to_nat start) (data b) ++ be 3 tag ++ [1] ++
            be 4 (Z.of_nat (length body)) ++ body.
Proof.
  intros Hw He Hd Ho (pre & Hdata & ->) Hl. cbn zeta. unfold ttlv_end. rewrite He, Hd.
  cbn [set_stack open].
  assert (Hstart : open b !! length d = Some (Z.of_nat (length pre))).
  { rewrite <- (lookup_take_lt (open b) (depth b) (length d)) by lia. rewrite Ho.
    rewrite lookup_app_r, Nat.sub_diag by lia. done. }
  rewrite Hstart. cbn [default from_option id].
  set (b0 := set_stack b (length d) (open b)).
  assert (Hb0 : blen b0 = Z.of_nat (length pre) + 8 + Z.of_nat (length body)).
  { unfold blen. cbn [b0 set_stack data]. rewrite Hdata, !length_app, !be_length. simpl. lia. }
  pose proof (wf_cap _ Hw) as Hc. change (blen b) with (blen b0) in Hc.
  rewrite Hb0 in Hc |- *. unfold TTLV_HDR_LEN.
  replace (u64 _) with (Z.of_nat (length body)).
  2:{ unfold u64, UINT64_MAX in *. rewrite Z.mod_small; lia. }
  destruct (Z.ltb_spec UINT32_MAX (Z.of_nat (length body))); [unfold UINT32_MAX in *; lia|].
  rewrite (put_spec _ (pre ++ be 3 tag ++ [1]) (be 4 0) (put_be32 (Z.of_nat (length body))) body).
  - cbn [set_data err depth open cap data b0 set_stack]. split_and!; [done..|].
    rewrite Nat2Z.id, Hdata, take_app_length, put_be32_be. by rewrite <- !app_assoc.
  - cbn [b0 set_stack data]. rewrite Hdata. by rewrite <- !app_assoc.
  - rewrite !length_app, be_length. simpl. lia.
  - done.
Qed.

Lemma wf_buf_same b b' :
  wf_buf b → length (data b') = length (data b) → cap b' = cap b → open b' = open b →
  (depth b' ≤ depth b)%nat → wf_buf b'.
Proof.
  intros [H1 H2 H3 H4 H5] Hl Hc Ho Hd. split; unfold blen in *; rewrite ?Hl, ?Hc, ?Ho; try done.
  - lia.
  - replace (depth b') with (depth b' `min` depth b)%nat by lia. rewrite <- take_take.
    by apply Forall_take.
Qed.

Definition wf_all (ts : list tree) : Prop := fold_right and True (map wf ts).
Definition height_all (ts : list tree) : nat := fold_right max 0%nat (map height ts).

Lemma emit_all_outcome malloc ts b :
  Forall (λ t, ∀ b, wf t → wf_buf b → err b = None →
    (depth b + height t ≤ TTLV_MAX_DEPTH)%nat → outcome malloc b (emit malloc b t) (encode t)) ts →
  wf_all ts → wf_buf b → err b = None → (depth b + height_all ts ≤ TTLV_MAX_DEPTH)%nat →
  outcome malloc b (fold_left (emit malloc) ts b) (encode_all ts).
Proof.
  intros Hts. revert b. induction Hts as [|t ts Ht _ IH]; intros b Hwf Hb He Hh.
  { by apply outcome_refl. }
  destruct Hwf as [Hwt Hwts]. unfold height_all in Hh. cbn [map fold_right] in Hh.
  cbn [fold_left encode_all flat_map].
  eapply (outcome_trans malloc b (emit malloc b t)).
  - apply Ht; [done..|lia].
  - intros He'. clear IH Ht Hwts. induction ts as [|u ts IHt]; cbn [fold_left]; [done|].
    rewrite (emit_err _ _ _ _ He'). apply IHt. cbn [map fold_right] in Hh. lia.
  - intros He' Hb' Hd'. apply IH; [done..|]. rewrite Hd'. unfold height_all. lia.
Qed.

(** One structure: header, children, completed header. *)
Lemma emit_outcome malloc t b :
  wf t → wf_buf b → err b = None → (depth b + height t ≤ TTLV_MAX_DEPTH)%nat →
  outcome malloc b (emit malloc b t) (encode t).
Proof.
  revert b. induction t as [tag v|tag ts IH] using tree_rect_all; intros b Hwf Hb He Hh.
  { destruct Hwf. by apply emit_value_outcome. }
  destruct Hwf as (Ht & Hts & Hl). cbn [height] in Hh. cbn [emit encode].
  pose proof (ttlv_begin_outcome malloc b tag Hb He Ht) as Hbeg. cbn zeta in Hbeg.
  destruct Hbeg as [[He1 Hr]|(He1 & Hd1 & Hp1 & Ho1 & Hw1)]; [lia| |].
  { left. assert (E : ∀ ts b, err b = Some ENOMEM → fold_left (emit malloc) ts b = b).
    { clear. intros ts. induction ts as [|t ts IH]; intros b He; cbn [fold_left]; [done|].
      rewrite (emit_err _ _ _ _ He). by apply IH. }
    rewrite E by done. unfold ttlv_end. rewrite He1. split; [done|].
    intros Hr'. apply Hr. revert Hr'. apply roomy_le. rewrite item_length. lia. }
  destruct (emit_all_outcome malloc ts (ttlv_begin malloc b tag)) as
    [[He2 Hr]|(He2 & Hd2 & Hp2 & Ho2 & Hw2)]; [done..|rewrite Hp1; unfold height_all; lia| |].
  { left. unfold ttlv_end. rewrite He2. split; [done|]. intros Hr'. apply Hr. revert Hr'.
    apply roomy_le. unfold blen. rewrite Hd1, length_app, !item_length.
    change (length (padding (length []))) with 0%nat. unfold encode_all. simpl. lia. }
  set (b2 := fold_left _ _ _) in *.
  assert (Hlen : length (take (depth b) (open b)) = depth b).
  { rewrite length_take. pose proof (wf_open _ Hb). pose proof (wf_depth _ Hb). lia. }
  destruct (ttlv_end_outcome b2 (take (depth b) (open b)) tag (encode_all ts) (blen b)) as
    (He3 & Hp3 & Ho3 & Hc3 & Hd3); try done.
  { by rewrite Hp2, Hlen. }
  { by rewrite Hp2, Hp1, <- Ho1, <- Hp1. }
  { exists (data b). split; [|done]. rewrite Hd2, Hd1. by rewrite <- app_assoc. }
  right. rewrite Hlen in Hp3.
  assert (Hdata : data (ttlv_end b2) = data b ++ item tag 1 (encode_all ts)).
  { rewrite Hd3, Hd2, Hd1, <- app_assoc. unfold blen. rewrite Nat2Z.id, take_app_length.
    unfold item. by rewrite padding_encode_all, app_nil_r. }
  split_and!; [done|done|done| |].
  - rewrite Ho3. apply (f_equal (take (depth b))) in Ho2.
    rewrite !take_take, !Nat.min_l in Ho2 by lia. rewrite Ho2.
    apply (f_equal (take (depth b))) in Ho1. rewrite take_take, Nat.min_l in Ho1 by lia.
    rewrite Ho1, take_app_le by lia. by rewrite take_take, Nat.min_id.
  - apply (wf_buf_same b2); [done| |done|done|lia].
    rewrite Hdata, Hd2, Hd1, !length_app, !item_length, padding_encode_all.
    simpl. lia.
Qed.

(** ** The decoder reads the encoding back *)

Lemma item_split tag type val r :
  item tag type val ++ r =
  be 3 tag ++ [type] ++ be 4 (Z.of_nat (length val)) ++ val ++ padding (length val) ++ r.
Proof. unfold item. by rewrite <- !app_assoc. Qed.

Lemma hdr_split tag type r :
  0 ≤ tag < 2 ^ 24 → 0 ≤ type < 256 →
  get_be32 (be 3 tag ++ [type] ++ r) = tag * 256 + type.
Proof.
  intros. rewrite app_assoc, header_be, get_be32_be by done. apply Z.mod_small. lia.
Qed.

Lemma land_255 x : Z.land x 255 = x mod 256.
Proof. change 255 with (2 ^ 8 - 1). by rewrite land_ones_mod. Qed.

(** [drop] past a prefix of known length. *)
Lemma drop_prefix {A} (l k : list A) n : n = length l → drop n (l ++ k) = k.
Proof. intros ->. apply drop_app_length. Qed.

Lemma take_prefix {A} (l k : list A) n : n = length l → take n (l ++ k) = l.
Proof. intros ->. apply take_app_length. Qed.

Definition fixed_ok (type : Z) (n : nat) : Prop :=
  (fixed_len type = 0 ∨ Z.of_nat n = fixed_len type) ∧
  (type = TTLV_STRUCTURE ∨ type = TTLV_BIG_INT → Z.of_nat n mod 8 = 0).

Lemma ttlv_next_item tag type val r :
  0 ≤ tag < 2 ^ 24 → 1 ≤ type ≤ 10 → Z.of_nat (length val) < 2 ^ 32 →
  fixed_ok type (length val) →
  ttlv_next (item tag type val ++ r) =
  Ok (Some ({| it_tag := tag; it_type := type; it_val := val |}, r)).
Proof.
  intros Ht Hy Hl [Hf Hs]. unfold ttlv_next.
  assert (Hlen : Z.of_nat (length (item tag type val ++ r)) =
    8 + pad8 (Z.of_nat (length val)) + Z.of_nat (length r)).
  { rewrite length_app, item_length, pad8_padding by lia. lia. }
  rewrite Hlen. rewrite pad8_padding by lia. change TTLV_HDR_LEN with 8.
  destruct (Z.eqb_spec (8 + (Z.of_nat (length val) + Z.of_nat (length (padding (length val)))) +
    Z.of_nat (length r)) 0); [lia|].
  destruct (Z.ltb_spec (8 + (Z.of_nat (length val) + Z.of_nat (length (padding (length val)))) +
    Z.of_nat (length r)) 8); [lia|].
  rewrite item_split, hdr_split by lia. rewrite Z.shiftr_div_pow2, land_255 by lia.
  replace ((tag * 256 + type) / 2 ^ 8) with tag by divmod.
  replace ((tag * 256 + type) mod 256) with type by divmod.
  rewrite (app_assoc (be 3 tag)), drop_prefix by (by rewrite length_app, be_length).
  rewrite get_be32_be, Z.mod_small by lia.
  unfold TTLV_STRUCTURE, TTLV_INTERVAL, TTLV_BIG_INT in *.
  destruct (Z.ltb_spec type 1); [lia|]. destruct (Z.ltb_spec 10 type); [lia|]. cbn [orb].
  replace (negb (fixed_len type =? 0) && negb (Z.of_nat (length val) =? fixed_len type))
    with false.
  2:{ destruct Hf as [-> | ->]; [done|]. by rewrite Z.eqb_refl, andb_false_r. }
  replace (((type =? 1) || (type =? 4)) && negb (Z.of_nat (length val) mod 8 =? 0)) with false.
  2:{ destruct (Z.eqb_spec type 1), (Z.eqb_spec type 4); cbn [orb andb]; try done;
      rewrite Hs by tauto; done. }
  rewrite pad8_padding by lia.
  destruct (Z.ltb_spec (8 + (Z.of_nat (length val) + Z.of_nat (length (padding (length val)))) +
    Z.of_nat (length r) - 8) (Z.of_nat (length val) + Z.of_nat (length (padding (length val)))));
    [lia|].
  rewrite <- app_assoc, (app_assoc [type]), app_assoc, drop_prefix
    by (rewrite !length_app, !be_length; simpl; lia).
  rewrite Nat2Z.id, take_prefix by done.
  rewrite (app_assoc val), drop_prefix by (rewrite length_app; lia). done.
Qed.

Lemma vbytes_ok v :
  wf_value v → Z.of_nat (length (vbytes v)) < 2 ^ 32 ∧ fixed_ok (vtype v) (length (vbytes v)) ∧
  1 ≤ vtype v ≤ 10.
Proof.
  intros Hv. unfold fixed_ok, TTLV_STRUCTURE, TTLV_BIG_INT.
  destruct v; cbn [vbytes vtype wf_value] in *; rewrite ?be_length;
    (split; [lia|]); (split; [split; [|lia]|lia]);
    (try by right); by left.
Qed.

(** The item the decoder yields for a leaf has the leaf's value. *)
Lemma leaf_read_value tag v :
  wf_value v →
  leaf_read {| it_tag := tag; it_type := vtype v; it_val := vbytes v |} v.
Proof.
  destruct v; cbn [wf_value leaf_read vtype vbytes]; intros Hv;
    unfold ttlv_get_int, ttlv_get_long, ttlv_get_enum, ttlv_get_bool; cbn [it_type it_val];
    try (split; [done|]); try done.
  all: rewrite <- (app_nil_r (be _ _)), ?get_be32_be, ?get_be64_be.
  all: try (simpl; rewrite ?Z.mod_small, ?to_signed_mod by lia; done).
  by destruct v.
Qed.

Lemma encode_reads t ts r :
  wf t → (∀ us, t = Struct (tag_of t) us → reads (encode_all us) us) →
  reads r ts → reads (encode t ++ r) (t :: ts).
Proof.
  intros Hw Hsub Hr. destruct t as [tag v|tag us]; cbn [encode wf] in *.
  - destruct Hw as [Ht Hv]. pose proof (vbytes_ok v Hv) as (H1 & H2 & H3).
    pose proof (leaf_read_value tag v Hv) as Hl.
    change tag with (it_tag {| it_tag := tag; it_type := vtype v; it_val := vbytes v |}) at 2.
    eapply reads_leaf; [by apply ttlv_next_item|done|done].
  - destruct Hw as (Ht & _ & Hl).
    change tag with (it_tag {| it_tag := tag; it_type := 1; it_val := encode_all us |}) at 2.
    eapply reads_struct; [apply ttlv_next_item; try done|done| |done].
    + split; [by left|]. intros _. pose proof (encode_all_length_8 us) as H8.
      unfold encode_all in H8. apply (f_equal Z.of_nat) in H8. by rewrite Nat2Z.inj_mod in H8.
    + by apply Hsub.
Qed.

Lemma encode_all_reads ts : wf_all ts → reads (encode_all ts) ts.
Proof.
  assert (H : ∀ t, wf t → ∀ ts r, reads r ts → reads (encode t ++ r) (t :: ts)).
  { intros t. induction t as [tag v|tag us IH] using tree_rect_all; intros Hw ts' r Hr.
    - by apply encode_reads.
    - apply encode_reads; [done| |done]. intros vs [= <-].
      destruct Hw as (_ & Hus & _). clear Hr.
      induction IH as [|u us Hu _ IHus]; [by constructor|].
      destruct Hus. apply Hu; [done|]. by apply IHus. }
  intros Hw. induction ts as [|t ts IH]; [by constructor|].
  destruct Hw. apply H; [done|]. by apply IH.
Qed.

(** ** Any bytes: what [ttlv_next] accepts *)

Lemma get_be32_range l : bytes l → 0 ≤ get_be32 l < 2 ^ 32.
Proof.
  intros Hl. assert (Hc : ∀ i, is_byte (char_at l i)).
  { intros i. unfold char_at. destruct (l !! i) as [c|] eqn:E; [|unfold is_byte; simpl; lia].
    by eapply (Forall_lookup_1 is_byte). }
  pose proof (get_be32_bytes _ _ _ _ [] (Hc 0%nat) (Hc 1%nat) (Hc 2%nat) (Hc 3%nat)) as H.
  pose proof (Hc 0%nat). pose proof (Hc 1%nat). pose proof (Hc 2%nat). pose proof (Hc 3%nat).
  change (get_be32 l) with (get_be32 [char_at l 0; char_at l 1; char_at l 2; char_at l 3]).
  unfold is_byte in *. rewrite H. lia.
Qed.

Lemma ttlv_next_cases r it r' :
  bytes r → ttlv_next r = Ok (Some (it, r')) →
  0 ≤ it_tag it < 2 ^ 24 ∧ 1 ≤ it_type it ≤ 10 ∧ fixed_ok (it_type it) (length (it_val it)) ∧
  ∃ hdr pad, r = hdr ++ it_val it ++ pad ++ r' ∧ length hdr = 8%nat ∧
    length pad = length (padding (length (it_val it))).
Proof.
  intros Hr. unfold ttlv_next.
  destruct (Z.eqb_spec (Z.of_nat (length r)) 0) as [|Hne]; [done|].
  destruct (Z.ltb_spec (Z.of_nat (length r)) TTLV_HDR_LEN) as [|Hav]; [done|].
  pose proof (get_be32_range r Hr) as Hh.
  pose proof (get_be32_range (drop 4 r) (bytes_drop 4 r Hr)) as Hn.
  rewrite Z.shiftr_div_pow2, land_255 by lia.
  set (len := get_be32 (drop 4 r)) in *. set (type := get_be32 r mod 256).
  unfold TTLV_STRUCTURE, TTLV_INTERVAL, TTLV_BIG_INT, TTLV_HDR_LEN in *.
  destruct (Z.ltb_spec type 1); [done|]. destruct (Z.ltb_spec 10 type); [done|]. cbn [orb].
  destruct (negb (fixed_len type =? 0) && negb (len =? fixed_len type)) eqn:Ef; [done|].
  destruct (((type =? 1) || (type =? 4)) && negb (len mod 8 =? 0)) eqn:Es; [done|].
  rewrite <- (Z2Nat.id len) by lia. set (n := Z.to_nat len) in *.
  rewrite pad8_padding by lia.
  destruct (Z.ltb_spec (Z.of_nat (length r) - 8) (Z.of_nat n + Z.of_nat (length (padding n))))
    as [|Hpad]; [done|]. intros [= <- <-]. cbn [it_tag it_type it_val]. rewrite !Nat2Z.id.
  assert (Hlen : length (take n (drop (Z.to_nat 8) r)) = n).
  { rewrite length_take, length_drop. lia. }
  rewrite Hlen. split_and!; [divmod..|lia|lia| |].
  - unfold fixed_ok, TTLV_STRUCTURE, TTLV_BIG_INT.
    assert (Z.of_nat n = len) as -> by (subst n; lia). split.
    + apply andb_false_iff in Ef as [E|E]; to_prop; tauto.
    + intros Hy. apply andb_false_iff in Es as [E|E]; to_prop; [lia|done].
  - exists (take 8 r), (take (length (padding n)) (drop n (drop 8 r))).
    split_and!; [|rewrite length_take; lia|rewrite length_take, !length_drop; lia].
    replace (Z.to_nat (Z.of_nat n + Z.of_nat (length (padding n))))
      with (n + length (padding n))%nat by lia.
    change (Z.to_nat 8) with 8%nat. rewrite <- (drop_drop (drop 8 r)).
    by rewrite !take_drop.
Qed.

Lemma ttlv_next_shorter r it r' :
  ttlv_next r = Ok (Some (it, r')) → (length r' < length r)%nat.
Proof.
  unfold ttlv_next. destruct (Z.eqb_spec (Z.of_nat (length r)) 0); [done|].
  destruct (Z.ltb_spec (Z.of_nat (length r)) TTLV_HDR_LEN) as [|Hav]; [done|].
  repeat (case_match; [done|]). intros [= <- <-]. rewrite !length_drop.
  unfold TTLV_HDR_LEN in *. lia.
Qed.

Lemma find_loop_fuel r tag f g :
  (length r < f)%nat → (length r < g)%nat → find_loop f r tag = find_loop g r tag.
Proof.
  revert r g. induction f as [|f IH]; intros r [|g] Hf Hg; try lia. cbn [find_loop].
  destruct (ttlv_next r) as [[[it r']|]|e] eqn:E; [|done..].
  apply ttlv_next_shorter in E. destruct (_ =? _); [done|]. apply IH; lia.
Qed.

(** The loop of [ttlv_find], without fuel. *)
Lemma ttlv_find_eq r tag :
  ttlv_find r tag =
  match ttlv_next r with
  | Ok (Some (it, r')) =>
      if it_tag it =? tag then Ok (Some (it, r')) else ttlv_find r' tag
  | ret => ret
  end.
Proof.
  unfold ttlv_find at 1. cbn [find_loop].
  destruct (ttlv_next r) as [[[it r']|]|e] eqn:E; [|done..].
  apply ttlv_next_shorter in E. destruct (_ =? _); [done|]. apply find_loop_fuel; lia.
Qed.

(** ** Properties *)

(** C1: Whatever trees a caller writes into a fresh buffer (nesting at most
    [TTLV_MAX_DEPTH] deep, values in range), the encoder either ran out of
    memory, says so with ENOMEM and memory really was short, or it reports no
    error, the buffer holds exactly the KMIP encoding of the trees with every
    structure's length filled in, and the decoder reads exactly those trees
    back from it. *)
Theorem ttlv_roundtrip malloc ts :
  wf_all ts → (height_all ts ≤ TTLV_MAX_DEPTH)%nat →
  let b := fold_left (emit malloc) ts ttlv_buf_init in
  (err b = Some ENOMEM ∧ ¬ roomy malloc (Z.of_nat (length (encode_all ts)))) ∨
  (err b = None ∧ depth b = 0%nat ∧ data b = encode_all ts ∧
   reads (ttlv_reader_init (data b)) ts).
Proof.
  intros Hw Hh b.
  assert (Hi : wf_buf ttlv_buf_init) by (split; [done|by left|done|simpl; lia|constructor]).
  destruct (emit_all_outcome malloc ts ttlv_buf_init) as [[He Hr]|(He & Hd & Hp & _ & _)];
    [|done..|by left|right].
  { apply Forall_true. intros t c ????. by apply emit_outcome. }
  split_and!; [done..|]. unfold ttlv_reader_init, b. rewrite Hd. by apply encode_all_reads.
Qed.

Lemma ttlv_roundtrip_witness :
  reads (data (fold_left (emit (λ _, true))
    [Struct 0x420078 [Leaf 0x42006a (VInt (-1)); Leaf 0x420094 (VText [65; 66; 67])]]
    ttlv_buf_init))
    [Struct 0x420078 [Leaf 0x42006a (VInt (-1)); Leaf 0x420094 (VText [65; 66; 67])]].
Proof.
  destruct (ttlv_roundtrip (λ _, true)
    [Struct 0x420078 [Leaf 0x42006a (VInt (-1)); Leaf 0x420094 (VText [65; 66; 67])]])
    as [[_ H]|(_ & _ & _ & H)]; [| |exfalso; apply H|exact H].
  - repeat (split; try lia); repeat constructor; unfold is_byte; lia.
  - vm_compute. lia.
  - split; [done|]. vm_compute. discriminate.
Defined.

(** On any bytes, an item [ttlv_next] accepts lies inside the reader: its
    header, its [len] value bytes and its padding are the next bytes of the
    reader, the new reader is what follows, the type is one of the ten, and
    the length is the one the type prescribes, so that the getters, which read
    four or eight bytes, stay inside the value. *)
Theorem ttlv_next_in_bounds r it r' :
  bytes r → ttlv_next r = Ok (Some (it, r')) →
  (∃ hdr pad, r = hdr ++ it_val it ++ pad ++ r' ∧ length hdr = 8%nat ∧
     Z.of_nat (length pad) = pad8 (it_len it) - it_len it) ∧
  1 ≤ it_type it ≤ 10 ∧
  (fixed_len (it_type it) ≠ 0 → it_len it = fixed_len (it_type it)) ∧
  (is_ok (ttlv_get_int it) || is_ok (ttlv_get_enum it) = true → it_len it = 4) ∧
  (is_ok (ttlv_get_long it) || is_ok (ttlv_get_bool it) = true → it_len it = 8).
Proof.
  intros Hr Hn. pose proof Hn as (Ht & Hy & [Hf Hs] & hdr & pad & E & Hh & Hp)%ttlv_next_cases;
    [|done].
  assert (Hl : Z.of_nat (length (it_val it)) < 2 ^ 32).
  { revert Hn. unfold ttlv_next. repeat (case_match; [done|]). intros [= <- _]. cbn [it_val].
    pose proof (get_be32_range (drop 4 r) (bytes_drop 4 r Hr)). rewrite length_take. lia. }
  split_and!; [|lia|lia| | |].
  - exists hdr, pad. split_and!; [done|done|]. unfold it_len. rewrite pad8_padding by lia. lia.
  - unfold it_len. intros ?. by destruct Hf.
  - unfold ttlv_get_int, ttlv_get_enum, it_len.
    destruct (Z.eqb_spec (it_type it) TTLV_INTEGER) as [E1|];
      [rewrite E1 in Hf; by destruct Hf|].
    destruct (Z.eqb_spec (it_type it) TTLV_ENUM) as [E1|]; [rewrite E1 in Hf; by destruct Hf|done].
  - unfold ttlv_get_long, ttlv_get_bool, it_len.
    destruct (Z.eqb_spec (it_type it) TTLV_LONG) as [E1|];
      [rewrite E1 in Hf; by destruct Hf|].
    destruct (Z.eqb_spec (it_type it) TTLV_BOOL) as [E1|]; [rewrite E1 in Hf; by destruct Hf|done].
Qed.

Lemma ttlv_next_in_bounds_witness :
  it_len {| it_tag := 0x42006a; it_type := 2; it_val := [0; 0; 0; 1] |} = 4.
Proof.
  apply (ttlv_next_in_bounds [66; 0; 106; 2; 0; 0; 0; 4; 0; 0; 0; 1; 0; 0; 0; 0] _ []).
  - repeat constructor; lia.
  - reflexivity.
  - reflexivity.
Defined.
