(* ===== verification/Kmip.v ===== *)
(** * KMIP requests and responses: [keysd/src/kmip.c], [keysd/src/kmip.h]

    The builders of the Locate and Get requests, and the parsers of their
    responses.  A parser returns the [kmip_result] it fills in for the log
    next to its own result. *)

From Stdlib Require Import String.
From stdpp Require Import base list numbers sets.
From S2P Require Import Prelude.
From S2P Require Import CStr.
From S2P Require Import Ttlv.
Import Tree.

(** ** Protocol constants *)

Record kmip_version := { major : Z; minor : Z }.
Definition kmip_v1_4 : kmip_version := {| major := 1; minor := 4 |}.

Definition KMIP_TAG_ATTRIBUTE : Z := 0x420008.
Definition KMIP_TAG_ATTRIBUTE_NAME : Z := 0x42000a.
Definition KMIP_TAG_ATTRIBUTE_VALUE : Z := 0x42000b.
Definition KMIP_TAG_BATCH_COUNT : Z := 0x42000d.
Definition KMIP_TAG_BATCH_ITEM : Z := 0x42000f.
Definition KMIP_TAG_KEY_BLOCK : Z := 0x420040.
Definition KMIP_TAG_KEY_FORMAT_TYPE : Z := 0x420042.
Definition KMIP_TAG_KEY_MATERIAL : Z := 0x420043.
Definition KMIP_TAG_KEY_VALUE : Z := 0x420045.
Definition KMIP_TAG_MAXIMUM_ITEMS : Z := 0x42004f.
Definition KMIP_TAG_NAME_TYPE : Z := 0x420054.
Definition KMIP_TAG_NAME_VALUE : Z := 0x420055.
Definition KMIP_TAG_OBJECT_TYPE : Z := 0x420057.
Definition KMIP_TAG_OPERATION : Z := 0x42005c.
Definition KMIP_TAG_PROTOCOL_VERSION : Z := 0x420069.
Definition KMIP_TAG_PROTOCOL_VERSION_MAJOR : Z := 0x42006a.
Definition KMIP_TAG_PROTOCOL_VERSION_MINOR : Z := 0x42006b.
Definition KMIP_TAG_REQUEST_HEADER : Z := 0x420077.
Definition KMIP_TAG_REQUEST_MESSAGE : Z := 0x420078.
Definition KMIP_TAG_REQUEST_PAYLOAD : Z := 0x420079.
Definition KMIP_TAG_RESPONSE_HEADER : Z := 0x42007a.
Definition KMIP_TAG_RESPONSE_MESSAGE : Z := 0x42007b.
Definition KMIP_TAG_RESPONSE_PAYLOAD : Z := 0x42007c.
Definition KMIP_TAG_RESULT_MESSAGE : Z := 0x42007d.
Definition KMIP_TAG_RESULT_REASON : Z := 0x42007e.
Definition KMIP_TAG_RESULT_STATUS : Z := 0x42007f.
Definition KMIP_TAG_SECRET_DATA : Z := 0x420085.
Definition KMIP_TAG_SYMMETRIC_KEY : Z := 0x42008f.
Definition KMIP_TAG_UNIQUE_IDENTIFIER : Z := 0x420094.

Definition KMIP_OP_LOCATE : Z := 8.
Definition KMIP_OP_GET : Z := 10.
Definition KMIP_OBJ_SYMMETRIC_KEY : Z := 2.
Definition KMIP_OBJ_SECRET_DATA : Z := 7.
Definition KMIP_STATUS_SUCCESS : Z := 0.
Definition KMIP_STATE_ANY : Z := 0.
Definition KMIP_STATE_ACTIVE : Z := 2.
Definition KMIP_NAME_UNINTERPRETED_TEXT : Z := 1.
Definition KMIP_KEY_FORMAT_RAW : Z := 1.
Definition KMIP_KEY_FORMAT_OPAQUE : Z := 2.
Definition LOCATE_MAX_ITEMS : Z := 2.

(** [message] is the text in front of the terminator [copy_text] writes. *)
Record kmip_result := { r_status : Z; r_reason : Z; r_message : list Z }.
Definition kmip_result_zero : kmip_result :=
  {| r_status := 0; r_reason := 0; r_message := [] |}.

(** ** Requests *)
Section Build.
Context (malloc : Z → bool).

Definition begin_request (b : ttlv_buf) (v : kmip_version) (op : Z) : ttlv_buf :=
  let b := ttlv_begin malloc b KMIP_TAG_REQUEST_MESSAGE in
  let b := ttlv_begin malloc b KMIP_TAG_REQUEST_HEADER in
  let b := ttlv_begin malloc b KMIP_TAG_PROTOCOL_VERSION in
  let b := ttlv_add_int malloc b KMIP_TAG_PROTOCOL_VERSION_MAJOR (major v) in
  let b := ttlv_add_int malloc b KMIP_TAG_PROTOCOL_VERSION_MINOR (minor v) in
  let b := ttlv_end b in
  let b := ttlv_add_int malloc b KMIP_TAG_BATCH_COUNT 1 in
  let b := ttlv_end b in
  let b := ttlv_begin malloc b KMIP_TAG_BATCH_ITEM in
  let b := ttlv_add_enum malloc b KMIP_TAG_OPERATION op in
  ttlv_begin malloc b KMIP_TAG_REQUEST_PAYLOAD.

Definition end_request (b : ttlv_buf) : ttlv_buf * option errno :=
  let b := ttlv_end b in
  let b := ttlv_end b in
  let b := ttlv_end b in
  (b, err b).

Definition add_name_attr_v1 (b : ttlv_buf) (name : list Z) : ttlv_buf :=
  let b := ttlv_begin malloc b KMIP_TAG_ATTRIBUTE in
  let b := ttlv_add_text malloc b KMIP_TAG_ATTRIBUTE_NAME (lit "Name") in
  let b := ttlv_begin malloc b KMIP_TAG_ATTRIBUTE_VALUE in
  let b := ttlv_add_text malloc b KMIP_TAG_NAME_VALUE name in
  let b := ttlv_add_enum malloc b KMIP_TAG_NAME_TYPE KMIP_NAME_UNINTERPRETED_TEXT in
  let b := ttlv_end b in
  ttlv_end b.

Definition add_state_attr_v1 (b : ttlv_buf) (state : Z) : ttlv_buf :=
  let b := ttlv_begin malloc b KMIP_TAG_ATTRIBUTE in
  let b := ttlv_add_text malloc b KMIP_TAG_ATTRIBUTE_NAME (lit "State") in
  let b := ttlv_add_enum malloc b KMIP_TAG_ATTRIBUTE_VALUE state in
  ttlv_end b.

Definition kmip_build_locate (b : ttlv_buf) (v : kmip_version) (name : list Z) (state : Z) :
    ttlv_buf * option errno :=
  if negb (major v =? 1) then (b, Some EOPNOTSUPP)
  else
    let b := begin_request b v KMIP_OP_LOCATE in
    let b := ttlv_add_int malloc b KMIP_TAG_MAXIMUM_ITEMS LOCATE_MAX_ITEMS in
    let b := add_name_attr_v1 b name in
    let b := if negb (state =? KMIP_STATE_ANY) then add_state_attr_v1 b state else b in
    end_request b.

Definition kmip_build_get (b : ttlv_buf) (v : kmip_version) (uid : list Z) :
    ttlv_buf * option errno :=
  let b := begin_request b v KMIP_OP_GET in
  let b := ttlv_add_text malloc b KMIP_TAG_UNIQUE_IDENTIFIER uid in
  end_request b.

End Build.

(** ** Responses *)

(** The reader the call leaves behind the structure is never used again. *)
Definition open_struct (r : ttlv_reader) (tag : Z) : result ttlv_reader :=
  match ttlv_find r tag with
  | Ok (Some (it, _)) => ttlv_open it
  | _ => Err EBADMSG
  end.

Definition find_enum (r : ttlv_reader) (tag : Z) : result Z :=
  match ttlv_find r tag with
  | Ok (Some (it, _)) => ttlv_get_enum it
  | _ => Err EBADMSG
  end.

(** The bytes in front of the terminator. *)
Definition copy_text (size : Z) (it : ttlv_item) : list Z :=
  let len := if it_len it <? size - 1 then it_len it else size - 1 in
  take (Z.to_nat len) (it_val it).

Definition read_failure (item : ttlv_reader) (res : kmip_result) : kmip_result :=
  let reason :=
    match ttlv_find item KMIP_TAG_RESULT_REASON with
    | Ok (Some (it, _)) =>
        match ttlv_get_enum it with Ok v => v | Err _ => r_reason res end
    | _ => r_reason res
    end in
  let message :=
    match ttlv_find item KMIP_TAG_RESULT_MESSAGE with
    | Ok (Some (it, _)) =>
        if it_type it =? TTLV_TEXT then copy_text 128 it else r_message res
    | _ => r_message res
    end in
  {| r_status := r_status res; r_reason := reason; r_message := message |}.

Definition check_version (hdr : ttlv_reader) (v : kmip_version) : result unit :=
  match open_struct hdr KMIP_TAG_PROTOCOL_VERSION with
  | Err _ => Err EBADMSG
  | Ok ver =>
      match ttlv_find ver KMIP_TAG_PROTOCOL_VERSION_MAJOR with
      | Ok (Some (it, _)) =>
          match ttlv_get_int it with
          | Ok m => if m =? major v then Ok tt else Err EPROTO
          | Err _ => Err EBADMSG
          end
      | _ => Err EBADMSG
      end
  end.

(** [ttlv_find(&hdr, KMIP_TAG_BATCH_COUNT, ...)] and the checks on it. *)
Definition batch_count_one (hdr : ttlv_reader) : bool :=
  match ttlv_find hdr KMIP_TAG_BATCH_COUNT with
  | Ok (Some (it, _)) =>
      match ttlv_get_int it with Ok count => count =? 1 | Err _ => false end
  | _ => false
  end.

(** The steps up to the batch item. *)
Definition open_batch_item (buf : list Z) (v : kmip_version) : result ttlv_reader :=
  msg ← open_struct (ttlv_reader_init buf) KMIP_TAG_RESPONSE_MESSAGE;
  hdr ← open_struct msg KMIP_TAG_RESPONSE_HEADER;
  _ ← check_version hdr v;
  if negb (batch_count_one hdr) then Err EBADMSG
  else open_struct msg KMIP_TAG_BATCH_ITEM.

Definition open_response (buf : list Z) (v : kmip_version) (op : Z) :
    kmip_result * result ttlv_reader :=
  let res := kmip_result_zero in
  match open_batch_item buf v with
  | Err e => (res, Err e)
  | Ok item =>
      match find_enum item KMIP_TAG_RESULT_STATUS with
      | Err _ => (res, Err EBADMSG)
      | Ok status =>
          let res := {| r_status := status; r_reason := r_reason res;
                        r_message := r_message res |} in
          if negb (status =? KMIP_STATUS_SUCCESS) then (read_failure item res, Err EREMOTEIO)
          else
            match find_enum item KMIP_TAG_OPERATION with
            | Err _ => (res, Err EBADMSG)
            | Ok resp_op =>
                if negb (resp_op =? op) then (res, Err EBADMSG)
                else (res, open_struct item KMIP_TAG_RESPONSE_PAYLOAD)
            end
      end
  end.

(** The part of [kmip_parse_locate] behind [open_response]. *)
Definition read_uid (payload : ttlv_reader) (uid_size : Z) : result (list Z) :=
  ret ← ttlv_find payload KMIP_TAG_UNIQUE_IDENTIFIER;
  match ret with
  | None => Err ENOENT
  | Some (it, payload) =>
      if negb (it_type it =? TTLV_TEXT) || (it_len it =? 0) || in_set (it_val it) 0
      then Err EBADMSG
      else
        ret ← ttlv_find payload KMIP_TAG_UNIQUE_IDENTIFIER;
        match ret with
        | Some _ => Err ENOTUNIQ
        | None =>
            if uid_size <=? it_len it then Err EMSGSIZE else Ok (copy_text uid_size it)
        end
  end.

Definition kmip_parse_locate (buf : list Z) (v : kmip_version) (uid_size : Z) :
    kmip_result * result (list Z) :=
  match open_response buf v KMIP_OP_LOCATE with
  | (res, Err e) => (res, Err e)
  | (res, Ok payload) => (res, read_uid payload uid_size)
  end.

Definition read_key_block (kb : ttlv_reader) (key_size : Z) : result (list Z) :=
  match find_enum kb KMIP_TAG_KEY_FORMAT_TYPE with
  | Err _ => Err EBADMSG
  | Ok format =>
      if negb (format =? KMIP_KEY_FORMAT_RAW) && negb (format =? KMIP_KEY_FORMAT_OPAQUE)
      then Err EOPNOTSUPP
      else
        match open_struct kb KMIP_TAG_KEY_VALUE with
        | Err _ => Err EBADMSG
        | Ok kv =>
            match ttlv_find kv KMIP_TAG_KEY_MATERIAL with
            | Ok (Some (it, _)) =>
                if negb (it_type it =? TTLV_BYTES) || (it_len it =? 0) then Err EBADMSG
                else if key_size <? it_len it then Err EMSGSIZE
                else Ok (it_val it)
            | _ => Err EBADMSG
            end
        end
  end.

(** The part of [kmip_parse_get] behind [open_response]: type and key. *)
Definition read_object (payload : ttlv_reader) (key_size : Z) : result (Z * list Z) :=
  match find_enum payload KMIP_TAG_OBJECT_TYPE with
  | Err _ => Err EBADMSG
  | Ok obj_type =>
      tag ← (if obj_type =? KMIP_OBJ_SYMMETRIC_KEY then Ok KMIP_TAG_SYMMETRIC_KEY
             else if obj_type =? KMIP_OBJ_SECRET_DATA then Ok KMIP_TAG_SECRET_DATA
             else Err EOPNOTSUPP);
      match open_struct payload tag with
      | Err _ => Err EBADMSG
      | Ok obj =>
          match open_struct obj KMIP_TAG_KEY_BLOCK with
          | Err _ => Err EBADMSG
          | Ok kb => key ← read_key_block kb key_size; Ok (obj_type, key)
          end
      end
  end.

Definition kmip_parse_get (buf : list Z) (v : kmip_version) (key_size : Z) :
    kmip_result * result (Z * list Z) :=
  match open_response buf v KMIP_OP_GET with
  | (res, Err e) => (res, Err e)
  | (res, Ok payload) => (res, read_object payload key_size)
  end.

(** ** The messages as trees *)
Module KmipSpec.

(** The first item with a tag, and what follows it. *)
Fixpoint find_tree (tag : Z) (ts : list tree) : option (tree * list tree) :=
  match ts with
  | [] => None
  | t :: ts' => if tag_of t =? tag then Some (t, ts') else find_tree tag ts'
  end.

Definition first (tag : Z) (ts : list tree) : option tree := fst <$> find_tree tag ts.

(** A request (KMIP 1.4, section 7) with one batch item. *)
Definition request (v : kmip_version) (op : Z) (payload : list tree) : tree :=
  Struct KMIP_TAG_REQUEST_MESSAGE
    [Struct KMIP_TAG_REQUEST_HEADER
       [Struct KMIP_TAG_PROTOCOL_VERSION
          [Leaf KMIP_TAG_PROTOCOL_VERSION_MAJOR (VInt (major v));
           Leaf KMIP_TAG_PROTOCOL_VERSION_MINOR (VInt (minor v))];
        Leaf KMIP_TAG_BATCH_COUNT (VInt 1)];
     Struct KMIP_TAG_BATCH_ITEM
       [Leaf KMIP_TAG_OPERATION (VEnum op); Struct KMIP_TAG_REQUEST_PAYLOAD payload]].

Definition name_attr (name : list Z) : tree :=
  Struct KMIP_TAG_ATTRIBUTE
    [Leaf KMIP_TAG_ATTRIBUTE_NAME (VText (lit "Name"));
     Struct KMIP_TAG_ATTRIBUTE_VALUE
       [Leaf KMIP_TAG_NAME_VALUE (VText name); Leaf KMIP_TAG_NAME_TYPE (VEnum 1)]].

Definition state_attr (state : Z) : tree :=
  Struct KMIP_TAG_ATTRIBUTE
    [Leaf KMIP_TAG_ATTRIBUTE_NAME (VText (lit "State"));
     Leaf KMIP_TAG_ATTRIBUTE_VALUE (VEnum state)].

Definition locate_request (v : kmip_version) (name : list Z) (state : Z) : tree :=
  request v 8 (Leaf KMIP_TAG_MAXIMUM_ITEMS (VInt 2) :: name_attr name ::
               (if state =? 0 then [] else [state_attr state])).

Definition get_request (v : kmip_version) (uid : list Z) : tree :=
  request v 10 [Leaf KMIP_TAG_UNIQUE_IDENTIFIER (VText uid)].

(** A response for protocol version [v] with the batch item [it]; items with
    other tags may stand anywhere between. *)
Record response (v : kmip_version) (m it : list tree) : Prop := {
  rsp_body : ∃ msg hdr ver,
    first KMIP_TAG_RESPONSE_MESSAGE m = Some (Struct KMIP_TAG_RESPONSE_MESSAGE msg) ∧
    first KMIP_TAG_RESPONSE_HEADER msg = Some (Struct KMIP_TAG_RESPONSE_HEADER hdr) ∧
    first KMIP_TAG_PROTOCOL_VERSION hdr = Some (Struct KMIP_TAG_PROTOCOL_VERSION ver) ∧
    first KMIP_TAG_PROTOCOL_VERSION_MAJOR ver =
      Some (Leaf KMIP_TAG_PROTOCOL_VERSION_MAJOR (VInt (major v))) ∧
    first KMIP_TAG_BATCH_COUNT hdr = Some (Leaf KMIP_TAG_BATCH_COUNT (VInt 1)) ∧
    first KMIP_TAG_BATCH_ITEM msg = Some (Struct KMIP_TAG_BATCH_ITEM it) }.

(** It reports success of operation [op] with the payload [ps]. *)
Record success (v : kmip_version) (op : Z) (m ps : list tree) : Prop := {
  suc_item : ∃ it,
    response v m it ∧
    first KMIP_TAG_RESULT_STATUS it = Some (Leaf KMIP_TAG_RESULT_STATUS (VEnum 0)) ∧
    first KMIP_TAG_OPERATION it = Some (Leaf KMIP_TAG_OPERATION (VEnum op)) ∧
    first KMIP_TAG_RESPONSE_PAYLOAD it = Some (Struct KMIP_TAG_RESPONSE_PAYLOAD ps) }.

Definition uids (ps : list tree) : list tree :=
  List.filter (λ t, tag_of t =? KMIP_TAG_UNIQUE_IDENTIFIER) ps.

(** What a Locate answers for the identifiers of the payload. *)
Definition locate_answer (ids : list tree) (uid_size : Z) : result (list Z) :=
  match ids with
  | [] => Err ENOENT
  | Leaf _ (VText u) :: others =>
      if negb (nonempty u) || in_set u 0 then Err EBADMSG
      else if negb (length others =? 0)%nat then Err ENOTUNIQ
      else if uid_size <=? Z.of_nat (length u) then Err EMSGSIZE
      else Ok u
  | _ => Err EBADMSG
  end.

(** The object of a Get response: its type and the raw or opaque key. *)
Record object (ps : list tree) (obj_type : Z) (key : list Z) : Prop := {
  obj_key : ∃ tag obj kb kv format,
    first KMIP_TAG_OBJECT_TYPE ps = Some (Leaf KMIP_TAG_OBJECT_TYPE (VEnum obj_type)) ∧
    (obj_type = 2 ∧ tag = KMIP_TAG_SYMMETRIC_KEY ∨ obj_type = 7 ∧ tag = KMIP_TAG_SECRET_DATA) ∧
    first tag ps = Some (Struct tag obj) ∧
    first KMIP_TAG_KEY_BLOCK obj = Some (Struct KMIP_TAG_KEY_BLOCK kb) ∧
    first KMIP_TAG_KEY_FORMAT_TYPE kb = Some (Leaf KMIP_TAG_KEY_FORMAT_TYPE (VEnum format)) ∧
    (format = 1 ∨ format = 2) ∧
    first KMIP_TAG_KEY_VALUE kb = Some (Struct KMIP_TAG_KEY_VALUE kv) ∧
    first KMIP_TAG_KEY_MATERIAL kv = Some (Leaf KMIP_TAG_KEY_MATERIAL (VBytes key)) }.

End KmipSpec.
Import KmipSpec.

(** ** Searching encoded items *)

Definition item_of (t : tree) : ttlv_item :=
  match t with
  | Leaf tag v => {| it_tag := tag; it_type := vtype v; it_val := vbytes v |}
  | Struct tag ts => {| it_tag := tag; it_type := 1; it_val := encode_all ts |}
  end.

Lemma ttlv_next_encode t r :
  wf t → ttlv_next (encode t ++ r) = Ok (Some (item_of t, r)).
Proof.
  destruct t as [tag v|tag ts]; cbn [wf encode item_of].
  - intros [Ht Hv]. pose proof (vbytes_ok v Hv) as (? & ? & ?). by apply ttlv_next_item.
  - intros (Ht & _ & Hl). apply ttlv_next_item; [done|done|done|].
    split; [by left|]. intros _. pose proof (encode_all_length_8 ts) as H8.
    apply (f_equal Z.of_nat) in H8. by rewrite Nat2Z.inj_mod in H8.
Qed.

Lemma item_of_tag t : it_tag (item_of t) = tag_of t.
Proof. by destruct t. Qed.

Lemma ttlv_find_encode ts tag :
  wf_all ts →
  ttlv_find (encode_all ts) tag =
  Ok ((λ '(t, rest), (item_of t, encode_all rest)) <$> find_tree tag ts).
Proof.
  induction ts as [|t ts IH]; intros Hw; rewrite ttlv_find_eq; [done|].
  destruct Hw as [Ht Hts]. unfold encode_all at 1. cbn [flat_map].
  rewrite ttlv_next_encode, item_of_tag by done. cbn [find_tree].
  destruct (_ =? _); [done|]. by apply IH.
Qed.

Lemma wf_children tag us ts us_tag :
  wf_all ts → first tag ts = Some (Struct us_tag us) → wf_all us.
Proof.
  unfold first. induction ts as [|t ts IH]; cbn [find_tree]; [done|]. intros [Ht Hts].
  destruct (_ =? _); [|by apply IH]. cbn. intros [= ->]. by destruct Ht as (_ & ? & _).
Qed.

Lemma first_find ts tag t : first tag ts = Some t → ∃ rest, find_tree tag ts = Some (t, rest).
Proof.
  unfold first. destruct (find_tree tag ts) as [[t' rest]|]; [|done]. intros [= <-]. by exists rest.
Qed.

Lemma first_wf ts tag t : wf_all ts → first tag ts = Some t → wf t.
Proof.
  unfold first. induction ts as [|u ts IH]; cbn [find_tree]; [done|]. intros [Hu Hts].
  destruct (_ =? _); [|by apply IH]. cbn. by intros [= <-].
Qed.

Lemma find_first ts tag t :
  wf_all ts → first tag ts = Some t →
  ∃ rest, ttlv_find (encode_all ts) tag = Ok (Some (item_of t, rest)).
Proof.
  intros Hw [rest Hf]%first_find. rewrite ttlv_find_encode, Hf by done. by eexists.
Qed.

Lemma open_struct_first ts tag us :
  wf_all ts → first tag ts = Some (Struct tag us) →
  open_struct (encode_all ts) tag = Ok (encode_all us) ∧ wf_all us.
Proof.
  intros Hw Hf. split; [|by eapply wf_children].
  unfold open_struct. destruct (find_first ts tag _ Hw Hf) as [rest ->]. done.
Qed.

Lemma find_enum_first ts tag v :
  wf_all ts → first tag ts = Some (Leaf tag (VEnum v)) → find_enum (encode_all ts) tag = Ok v.
Proof.
  intros Hw Hf. pose proof (first_wf _ _ _ Hw Hf) as [_ Hv].
  unfold find_enum. destruct (find_first ts tag _ Hw Hf) as [rest ->].
  apply (leaf_read_value tag (VEnum v)). done.
Qed.

Lemma get_int_first ts tag v :
  wf_all ts → first tag ts = Some (Leaf tag (VInt v)) →
  ∃ it rest, ttlv_find (encode_all ts) tag = Ok (Some (it, rest)) ∧ ttlv_get_int it = Ok v.
Proof.
  intros Hw Hf. pose proof (first_wf _ _ _ Hw Hf) as [_ Hv].
  destruct (find_first ts tag _ Hw Hf) as [rest ->]. eexists _, rest. split; [done|].
  by apply (leaf_read_value tag (VInt v)).
Qed.

(** ** Opening a response *)

Lemma open_batch_item_ok v m it :
  wf_all m → response v m it →
  open_batch_item (encode_all m) v = Ok (encode_all it) ∧ wf_all it.
Proof.
  intros Hw [(msg & hdr & ver & H1 & H2 & H3 & H4 & H5 & H6)].
  unfold open_batch_item, ttlv_reader_init.
  destruct (open_struct_first _ _ _ Hw H1) as [-> Hmsg]. cbn [mbind result_bind].
  destruct (open_struct_first _ _ _ Hmsg H2) as [-> Hhdr]. cbn [mbind result_bind].
  destruct (open_struct_first _ _ _ Hhdr H3) as [Hver Hwver].
  destruct (get_int_first _ _ _ Hwver H4) as (i & rest & Hi & Hg).
  destruct (get_int_first _ _ _ Hhdr H5) as (j & rest' & Hj & Hc).
  assert (check_version (encode_all hdr) v = Ok tt) as ->.
  { unfold check_version. by rewrite Hver, Hi, Hg, Z.eqb_refl. }
  assert (batch_count_one (encode_all hdr) = true) as ->.
  { unfold batch_count_one. by rewrite Hj, Hc. }
  cbn [mbind result_bind negb]. by apply open_struct_first.
Qed.

Lemma open_response_ok v op m ps :
  wf_all m → success v op m ps →
  open_response (encode_all m) v op = (kmip_result_zero, Ok (encode_all ps)) ∧ wf_all ps.
Proof.
  intros Hw [(it & Hr & Hs & Ho & Hp)]. unfold open_response.
  destruct (open_batch_item_ok _ _ _ Hw Hr) as [-> Hwit].
  rewrite (find_enum_first _ _ _ Hwit Hs), (find_enum_first _ _ _ Hwit Ho).
  rewrite Z.eqb_refl. cbn [negb]. destruct (open_struct_first _ _ _ Hwit Hp) as [-> Hwps].
  by rewrite Z.eqb_refl.
Qed.

Lemma uids_find ps :
  uids ps = match find_tree KMIP_TAG_UNIQUE_IDENTIFIER ps with
            | Some (t, rest) => t :: uids rest
            | None => []
            end.
Proof.
  induction ps as [|p ps IH]; [done|]. unfold uids. cbn [List.filter find_tree].
  destruct (_ =? _); [done|]. exact IH.
Qed.

Lemma find_tree_wf tag ts t rest :
  wf_all ts → find_tree tag ts = Some (t, rest) → wf t ∧ wf_all rest.
Proof.
  induction ts as [|u ts IH]; cbn [find_tree]; [done|]. intros [Hu Hts].
  destruct (_ =? _); [|by apply IH]. by intros [= <- <-].
Qed.

Lemma copy_text_all size it : it_len it < size → copy_text size it = it_val it.
Proof.
  unfold copy_text, it_len. intros H. apply take_ge.
  destruct (Z.ltb_spec (Z.of_nat (length (it_val it))) (size - 1)); lia.
Qed.

Lemma read_uid_encode ps uid_size :
  wf_all ps → read_uid (encode_all ps) uid_size = locate_answer (uids ps) uid_size.
Proof.
  intros Hw. unfold read_uid. rewrite ttlv_find_encode, uids_find by done.
  destruct (find_tree _ ps) as [[t rest]|] eqn:E; cbn [fmap option_fmap option_map mbind result_bind];
    [|done].
  destruct (find_tree_wf _ _ _ _ Hw E) as [Ht Hrest].
  destruct t as [tag []|tag us]; try done.
  unfold locate_answer, it_len. cbn [item_of it_type it_val vtype vbytes].
  replace (Z.of_nat (length s) =? 0) with (negb (nonempty s)) by (by destruct s).
  cbn [negb orb Z.eqb Pos.eqb TTLV_TEXT]. destruct (negb (nonempty s) || in_set s 0); [done|].
  rewrite ttlv_find_encode, uids_find by done. cbn [mbind result_bind].
  destruct (find_tree _ rest) as [[t' rest']|]; [done|]. cbn.
  destruct (Z.leb_spec uid_size (Z.of_nat (length s))) as [|Hlt]; [done|].
  by rewrite copy_text_all.
Qed.

(** An upper bound of the length of an encoding. *)
Fixpoint bound (t : tree) : Z :=
  match t with
  | Leaf _ v => 16 + Z.of_nat (length (vbytes v))
  | Struct _ ts => 16 + fold_right Z.add 0 (map bound ts)
  end.

Lemma item_bound tag type val :
  Z.of_nat (length (item tag type val)) ≤ 16 + Z.of_nat (length val).
Proof. rewrite item_length. pose proof (padding_length (length val)). divmod. Qed.

Lemma encode_bound t : Z.of_nat (length (encode t)) ≤ bound t.
Proof.
  induction t as [tag v|tag ts IH] using tree_rect_all; cbn [encode bound]; [apply item_bound|].
  etransitivity; [apply item_bound|]. apply Z.add_le_mono_l.
  induction IH as [|t ts Ht _ IH]; cbn [flat_map map fold_right]; [done|].
  rewrite length_app. lia.
Qed.

Lemma encode_all_bound ts n :
  fold_right Z.add 0 (map bound ts) < n → Z.of_nat (length (encode_all ts)) < n.
Proof.
  revert n. induction ts as [|t ts IH]; intros n; cbn [map fold_right encode_all flat_map]; [done|].
  rewrite length_app. pose proof (encode_bound t). pose proof (IH (n - bound t)).
  unfold encode_all in *. lia.
Qed.

(** Well-formedness of a tree whose strings are short. *)
Ltac wf_tree :=
  repeat match goal with
  | |- _ ∧ _ => split
  | |- True => exact I
  | |- wf _ => cbn [wf map fold_right]
  | |- wf_all _ => unfold wf_all; cbn [map fold_right]
  | |- Z.of_nat (length (encode_all _)) < _ =>
      apply encode_all_bound; cbn [bound map fold_right vbytes length];
      rewrite ?be_length; simpl; lia
  | |- bytes _ => by repeat constructor
  | |- _ ≤ _ < _ => done || lia
  | |- _ < _ => simpl; lia
  | |- _ => done
  | |- wf_value _ => cbn [wf_value]
  | |- fold_right and True _ => cbn [fold_right]
  end.

Lemma request_wf v op ps :
  wf_value (VInt (major v)) → wf_value (VInt (minor v)) → 0 ≤ op < 2 ^ 32 → wf_all ps →
  fold_right Z.add 0 (map bound ps) < 2 ^ 32 - 1000 → wf (request v op ps).
Proof.
  intros Hma Hmi Hop Hps Hb. unfold request. wf_tree.
Qed.

Lemma locate_request_wf v name state :
  wf_value (VInt (major v)) → wf_value (VInt (minor v)) → 0 ≤ state < 2 ^ 32 →
  bytes name → Z.of_nat (length name) < 2 ^ 31 → wf (locate_request v name state).
Proof.
  intros Hma Hmi Hst Hn Hl. apply request_wf; [done..| |].
  - destruct (state =? 0); unfold name_attr, state_attr; wf_tree.
  - destruct (state =? 0); cbn [bound map fold_right vbytes length name_attr state_attr];
      rewrite ?be_length; simpl; lia.
Qed.

Lemma get_request_wf v uid :
  wf_value (VInt (major v)) → wf_value (VInt (minor v)) →
  bytes uid → Z.of_nat (length uid) < 2 ^ 31 → wf (get_request v uid).
Proof.
  intros Hma Hmi Hn Hl. apply request_wf; [done..| |].
  - wf_tree.
  - cbn [bound map fold_right vbytes]. lia.
Qed.

(** The builders make the calls that write the request's tree. *)
Lemma build_locate_emit malloc b v name state :
  major v = 1 →
  let b' := emit malloc b (locate_request v name state) in
  kmip_build_locate malloc b v name state = (b', err b').
Proof.
  intros Hv. cbv zeta. unfold kmip_build_locate. rewrite Hv. unfold locate_request, KMIP_STATE_ANY, request, end_request, begin_request,
    add_name_attr_v1, add_state_attr_v1, name_attr, state_attr, KMIP_OP_LOCATE, LOCATE_MAX_ITEMS,
    KMIP_NAME_UNINTERPRETED_TEXT.
  rewrite Z.eqb_refl. destruct (state =? 0); cbn [negb emit fold_left emit_value]; by rewrite Hv.
Qed.

Lemma build_get_emit malloc b v uid :
  let b' := emit malloc b (get_request v uid) in kmip_build_get malloc b v uid = (b', err b').
Proof.
  cbv zeta. unfold get_request, kmip_build_get, request, end_request, begin_request, KMIP_OP_GET.
  cbn [emit fold_left emit_value]. reflexivity.
Qed.

(** ** Properties *)

(** [kmip_build_locate] and [kmip_build_get] write, into a fresh buffer,
    exactly the encoding of the KMIP request for that name and state, or that
    identifier, when they report success, and fail only with ENOMEM, and with
    EOPNOTSUPP for a Locate whose protocol version is not 1.x. *)
Theorem kmip_build_spec malloc v name state :
  wf_value (VInt (major v)) → wf_value (VInt (minor v)) → 0 ≤ state < 2 ^ 32 →
  bytes name → Z.of_nat (length name) < 2 ^ 31 →
  (∀ b e, kmip_build_locate malloc ttlv_buf_init v name state = (b, e) →
     if major v =? 1 then e = Some ENOMEM ∨ e = None ∧ data b = encode (locate_request v name state)
     else e = Some EOPNOTSUPP) ∧
  (∀ b e, kmip_build_get malloc ttlv_buf_init v name = (b, e) →
     e = Some ENOMEM ∨ e = None ∧ data b = encode (get_request v name)).
Proof.
  intros Hma Hmi Hst Hn Hl.
  assert (Hi : wf_buf ttlv_buf_init) by (split; [done|by left|done|simpl; lia|constructor]).
  assert (Hout : ∀ t, wf t → (height t ≤ 16)%nat →
    err (emit malloc ttlv_buf_init t) = Some ENOMEM ∨
    err (emit malloc ttlv_buf_init t) = None ∧ data (emit malloc ttlv_buf_init t) = encode t).
  { intros t Hw Hh. destruct (emit_outcome malloc t ttlv_buf_init Hw Hi eq_refl Hh)
      as [[? _]|(? & ? & _)]; [by left|by right]. }
  split.
  - intros b e. destruct (Z.eqb_spec (major v) 1) as [Hv|Hv].
    2:{ unfold kmip_build_locate. apply Z.eqb_neq in Hv. rewrite Hv. by intros [= _ <-]. }
    rewrite build_locate_emit by done.
    pose proof (Hout _ (locate_request_wf v name state Hma Hmi Hst Hn Hl)) as Ho.
    generalize dependent (emit malloc ttlv_buf_init (locate_request v name state)).
    intros B Ho [= <- <-]. apply Ho.
    unfold locate_request. destruct (state =? 0); simpl; lia.
  - intros b e. rewrite build_get_emit.
    pose proof (Hout _ (get_request_wf v name Hma Hmi Hn Hl)) as Ho.
    generalize dependent (emit malloc ttlv_buf_init (get_request v name)).
    intros B Ho [= <- <-]. apply Ho. simpl. lia.
Qed.

Lemma kmip_build_spec_witness :
  data (fst (kmip_build_get (λ _, true) ttlv_buf_init kmip_v1_4 (lit "42"))) =
  encode (get_request kmip_v1_4 (lit "42")).
Proof.
  destruct (kmip_build_spec (λ _, true) kmip_v1_4 (lit "42") 0) as [_ Hget];
    [done|done|done|by repeat constructor|done|].
  destruct (Hget _ _ (surjective_pairing _)) as [He|[_ Hd]]; [|exact Hd].
  vm_compute in He. discriminate He.
Defined.

(** A success response to a Locate, whatever other items it carries: no
    identifier is ENOENT, a second one is ENOTUNIQ, an empty or NUL-holding
    one is EBADMSG, one that does not fit the caller's buffer is EMSGSIZE, and
    otherwise the identifier is handed out unchanged. *)
Theorem kmip_parse_locate_spec v m ps uid_size :
  wf_all m → success v KMIP_OP_LOCATE m ps →
  kmip_parse_locate (encode_all m) v uid_size =
  (kmip_result_zero, locate_answer (uids ps) uid_size).
Proof.
  intros Hw Hs. unfold kmip_parse_locate.
  destruct (open_response_ok _ _ _ _ Hw Hs) as [-> Hps]. by rewrite read_uid_encode.
Qed.

(** A response of the test server: header, one batch item. *)
Definition sample_response (op : Z) (payload : list tree) : list tree :=
  [Struct KMIP_TAG_RESPONSE_MESSAGE
     [Struct KMIP_TAG_RESPONSE_HEADER
        [Struct KMIP_TAG_PROTOCOL_VERSION
           [Leaf KMIP_TAG_PROTOCOL_VERSION_MAJOR (VInt 1);
            Leaf KMIP_TAG_PROTOCOL_VERSION_MINOR (VInt 2)];
         Leaf 0x420092 (VDate 1700000000); Leaf KMIP_TAG_BATCH_COUNT (VInt 1)];
      Struct KMIP_TAG_BATCH_ITEM
        [Leaf KMIP_TAG_OPERATION (VEnum op); Leaf KMIP_TAG_RESULT_STATUS (VEnum 0);
         Struct KMIP_TAG_RESPONSE_PAYLOAD payload]]].

Lemma sample_success op ps : success kmip_v1_4 op (sample_response op ps) ps.
Proof.
  split. eexists. split_and!; [split; eexists _, _, _; split_and!|..]; reflexivity.
Qed.

Lemma kmip_parse_locate_spec_witness :
  kmip_parse_locate (encode_all (sample_response 8
    [Leaf KMIP_TAG_UNIQUE_IDENTIFIER (VText (lit "id-7"))])) kmip_v1_4 64 =
  (kmip_result_zero, Ok (lit "id-7")).
Proof.
  apply (kmip_parse_locate_spec kmip_v1_4 _ [Leaf KMIP_TAG_UNIQUE_IDENTIFIER (VText (lit "id-7"))]).
  - unfold sample_response. wf_tree.
  - apply sample_success.
Defined.

Lemma read_object_encode ps obj_type key key_size :
  wf_all ps → object ps obj_type key →
  read_object (encode_all ps) key_size =
  if negb (nonempty key) then Err EBADMSG
  else if key_size <? Z.of_nat (length key) then Err EMSGSIZE else Ok (obj_type, key).
Proof.
  intros Hw [(tag & obj & kb & kv & format & H1 & Htag & H2 & H3 & H4 & Hf & H5 & H6)].
  unfold read_object. rewrite (find_enum_first _ _ _ Hw H1).
  destruct (open_struct_first _ _ _ Hw H2) as [E2 Hobj].
  destruct (open_struct_first _ _ _ Hobj H3) as [E3 Hkb].
  destruct (open_struct_first _ _ _ Hkb H5) as [E5 Hkv].
  destruct (find_first _ _ _ Hkv H6) as [rest E6].
  assert (Hkey : read_key_block (encode_all kb) key_size =
    if negb (nonempty key) then Err EBADMSG
    else if key_size <? Z.of_nat (length key) then Err EMSGSIZE else Ok key).
  { unfold read_key_block. rewrite (find_enum_first _ _ _ Hkb H4), E5, E6.
    unfold it_len. cbn [item_of it_type it_val vbytes vtype].
    replace (Z.of_nat (length key) =? 0) with (negb (nonempty key)) by (by destruct key).
    by destruct Hf as [-> | ->]. }
  destruct Htag as [[-> ->]|[-> ->]]; cbn [mbind result_bind Z.eqb Pos.eqb
    KMIP_OBJ_SYMMETRIC_KEY KMIP_OBJ_SECRET_DATA]; rewrite E2, E3, Hkey;
    by destruct (negb (nonempty key)), (key_size <? Z.of_nat (length key)).
Qed.

(** A success response to a Get that carries a symmetric key or secret
    data in raw or opaque format, whatever other items it carries: the object
    type and exactly the key's bytes are handed out, unless the key is empty
    (EBADMSG) or longer than the caller's buffer (EMSGSIZE). *)
Theorem kmip_parse_get_spec v m ps obj_type key key_size :
  wf_all m → success v KMIP_OP_GET m ps → object ps obj_type key →
  kmip_parse_get (encode_all m) v key_size =
  (kmip_result_zero,
   if negb (nonempty key) then Err EBADMSG
   else if key_size <? Z.of_nat (length key) then Err EMSGSIZE else Ok (obj_type, key)).
Proof.
  intros Hw Hs Ho. unfold kmip_parse_get.
  destruct (open_response_ok _ _ _ _ Hw Hs) as [-> Hps].
  by rewrite (read_object_encode ps obj_type key).
Qed.

Definition sample_key : list tree :=
  [Leaf KMIP_TAG_OBJECT_TYPE (VEnum 2); Leaf KMIP_TAG_UNIQUE_IDENTIFIER (VText (lit "id-7"));
   Struct KMIP_TAG_SYMMETRIC_KEY
     [Struct KMIP_TAG_KEY_BLOCK
        [Leaf KMIP_TAG_KEY_FORMAT_TYPE (VEnum 1);
         Struct KMIP_TAG_KEY_VALUE [Leaf KMIP_TAG_KEY_MATERIAL (VBytes [1; 2; 0; 255])]]]].

Lemma kmip_parse_get_spec_witness :
  kmip_parse_get (encode_all (sample_response 10 sample_key)) kmip_v1_4 32 =
  (kmip_result_zero, Ok (2, [1; 2; 0; 255])).
Proof.
  apply (kmip_parse_get_spec kmip_v1_4 _ sample_key 2 [1; 2; 0; 255] 32).
  - unfold sample_response, sample_key. wf_tree.
  - apply sample_success.
  - split. eexists _, _, _, _, 1. split_and!; [reflexivity|by left|reflexivity..|by left|
      reflexivity|reflexivity].
Defined.

(** ** Arbitrary responses *)

Lemma ttlv_next_err r e : ttlv_next r = Err e → e = EBADMSG.
Proof. unfold ttlv_next. repeat case_match; congruence. Qed.

Lemma find_loop_err fuel r tag e : find_loop fuel r tag = Err e → e = EBADMSG.
Proof.
  revert r. induction fuel as [|fuel IH]; intros r; cbn [find_loop]; [done|].
  destruct (ttlv_next r) as [[[it r']|]|e'] eqn:E; [|done|].
  - destruct (_ =? _); [done|]. apply IH.
  - intros [= <-]. by eapply ttlv_next_err.
Qed.

Lemma ttlv_find_err r tag e : ttlv_find r tag = Err e → e = EBADMSG.
Proof. apply find_loop_err. Qed.

Lemma open_struct_err r tag e : open_struct r tag = Err e → e = EBADMSG.
Proof. unfold open_struct, ttlv_open. repeat case_match; congruence. Qed.

Lemma check_version_err r v e : check_version r v = Err e → e = EBADMSG ∨ e = EPROTO.
Proof. unfold check_version. repeat case_match; intros; simplify_eq; tauto. Qed.

Lemma open_batch_item_err buf v e : open_batch_item buf v = Err e → e = EBADMSG ∨ e = EPROTO.
Proof.
  unfold open_batch_item. rewrite !bind_Err. intros [H%open_struct_err|(msg & _ & H)]; [tauto|].
  revert H. rewrite bind_Err. intros [H%open_struct_err|(hdr & _ & H)]; [tauto|].
  revert H. rewrite bind_Err. intros [H%check_version_err|(? & _ & H)]; [tauto|].
  destruct (negb _); [naive_solver|]. apply open_struct_err in H. tauto.
Qed.

Lemma open_response_result buf v op res ret :
  open_response buf v op = (res, ret) →
  (∀ e, ret = Err e → e ∈ [EREMOTEIO; EPROTO; EBADMSG]) ∧
  (r_status res ≠ 0 ↔ ret = Err EREMOTEIO) ∧ (length (r_message res) ≤ 127)%nat.
Proof.
  unfold open_response.
  destruct (open_batch_item buf v) as [item|e] eqn:Eb.
  2:{ intros [= <- <-]. apply open_batch_item_err in Eb. simpl.
      destruct Eb as [-> | ->]; split_and!;
        try lia; try (split; congruence);
        intros ? [= <-]; set_solver. }
  destruct (find_enum item KMIP_TAG_RESULT_STATUS) as [st|].
  2:{ intros [= <- <-]. simpl. split_and!; [intros ? [= <-]; set_solver|split; congruence|lia]. }
  destruct (Z.eqb_spec st KMIP_STATUS_SUCCESS) as [->|Hst]; cbn [negb].
  - assert (Hz : ∀ e, open_struct item KMIP_TAG_RESPONSE_PAYLOAD = Err e → e = EBADMSG)
      by (intros; by eapply open_struct_err).
    assert (Hb : ∀ ret : result ttlv_reader, (∀ e, ret = Err e → e = EBADMSG) →
      (∀ e, ret = Err e → e ∈ [EREMOTEIO; EPROTO; EBADMSG]) ∧
      (0 ≠ 0 ↔ ret = Err EREMOTEIO) ∧ (0 ≤ 127)%nat).
    { intros r Hr. split_and!; [intros e He%Hr; subst; set_solver|split; [done|]|lia].
      by intros He%Hr. }
    destruct (find_enum item KMIP_TAG_OPERATION) as [o|]; [destruct (negb (o =? op))|];
      intros [= <- <-]; apply Hb; naive_solver.
  - intros [= <- <-]. unfold read_failure, KMIP_STATUS_SUCCESS in *. cbn [r_status r_message].
    split_and!; [intros ? [= <-]; set_solver|done|].
    repeat case_match; simpl; try lia. unfold copy_text. rewrite length_take.
    destruct (Z.ltb_spec (it_len t) (128 - 1)); lia.
Qed.

Lemma in_set_elem l c : in_set l c = true ↔ c ∈ l.
Proof.
  unfold in_set. rewrite existsb_exists, list_elem_of_In.
  split; [intros (x & Hx & ->%Z.eqb_eq); done|]. intros. exists c. by rewrite Z.eqb_refl.
Qed.

Lemma read_uid_result payload size ret :
  read_uid payload size = ret →
  match ret with
  | Ok uid => uid ≠ [] ∧ (0 ∉ uid) ∧ Z.of_nat (length uid) < size
  | Err e => e ∈ [ENOENT; ENOTUNIQ; EMSGSIZE; EBADMSG]
  end.
Proof.
  intros <-. unfold read_uid.
  destruct (ttlv_find payload _) as [[[it r']|]|e] eqn:E; cbn [mbind result_bind]; [|set_solver|].
  2:{ apply ttlv_find_err in E as ->. set_solver. }
  destruct (_ || _) eqn:Eb; [set_solver|]. to_prop.
  destruct (ttlv_find r' _) as [[[it' r'']|]|e] eqn:E'; cbn [mbind result_bind]; [set_solver| |].
  2:{ apply ttlv_find_err in E' as ->. set_solver. }
  destruct (Z.leb_spec size (it_len it)); [set_solver|].
  rewrite copy_text_all by lia. unfold it_len in *. split_and!.
  - intros E0. rewrite E0 in *. done.
  - rewrite <- in_set_elem. congruence.
  - lia.
Qed.

Lemma read_object_result payload size ret :
  read_object payload size = ret →
  match ret with
  | Ok (t, key) => (t = 2 ∨ t = 7) ∧ key ≠ [] ∧ Z.of_nat (length key) ≤ size
  | Err e => e ∈ [EOPNOTSUPP; EMSGSIZE; EBADMSG]
  end.
Proof.
  intros <-. unfold read_object.
  destruct (find_enum payload _) as [t|]; [|set_solver].
  assert (Hk : ∀ kb, match read_key_block kb size with
    | Ok key => key ≠ [] ∧ Z.of_nat (length key) ≤ size
    | Err e => e ∈ [EOPNOTSUPP; EMSGSIZE; EBADMSG] end).
  { intros kb. unfold read_key_block. repeat case_match; try set_solver.
    to_prop. simplify_eq. unfold it_len in *. split; [|lia]. intros E0. by rewrite E0 in *. }
  unfold KMIP_OBJ_SYMMETRIC_KEY, KMIP_OBJ_SECRET_DATA.
  assert (Ho : ∀ tag, t = 2 ∨ t = 7 →
    match match open_struct payload tag with
          | Err _ => Err EBADMSG
          | Ok obj =>
              match open_struct obj KMIP_TAG_KEY_BLOCK with
              | Err _ => Err EBADMSG
              | Ok kb => key ← read_key_block kb size; Ok (t, key)
              end
          end with
    | Ok (t, key) => (t = 2 ∨ t = 7) ∧ key ≠ [] ∧ Z.of_nat (length key) ≤ size
    | Err e => e ∈ [EOPNOTSUPP; EMSGSIZE; EBADMSG]
    end).
  { intros tag Ht. destruct (open_struct payload tag) as [obj|]; [|set_solver].
    destruct (open_struct obj _) as [kb|]; [|set_solver].
    specialize (Hk kb). destruct (read_key_block kb size); cbn [mbind result_bind]; tauto. }
  destruct (Z.eqb_spec t 2); cbn [mbind result_bind]; [by apply Ho; left|].
  destruct (Z.eqb_spec t 7); cbn [mbind result_bind]; [by apply Ho; right|]. set_solver.
Qed.

(** C38: On any response bytes, hostile ones included: an identifier handed
    out is nonempty, holds no NUL and fits the caller's buffer with its
    terminator; a key handed out is nonempty and fits, and its object type is
    one of the two supported; an error is one of the documented ones; the
    status for the log is nonzero exactly when the error is EREMOTEIO, and its
    message fits its 128 bytes. *)
Theorem kmip_parse_safe buf v size res :
  (∀ uid, kmip_parse_locate buf v size = (res, Ok uid) →
     uid ≠ [] ∧ (0 ∉ uid) ∧ Z.of_nat (length uid) < size) ∧
  (∀ t key, kmip_parse_get buf v size = (res, Ok (t, key)) →
     (t = KMIP_OBJ_SYMMETRIC_KEY ∨ t = KMIP_OBJ_SECRET_DATA) ∧ key ≠ [] ∧
     Z.of_nat (length key) ≤ size) ∧
  (∀ e, kmip_parse_locate buf v size = (res, Err e) →
     e ∈ [EREMOTEIO; EPROTO; ENOENT; ENOTUNIQ; EMSGSIZE; EBADMSG] ∧
     (r_status res ≠ 0 ↔ e = EREMOTEIO) ∧ (length (r_message res) ≤ 127)%nat) ∧
  (∀ e, kmip_parse_get buf v size = (res, Err e) →
     e ∈ [EREMOTEIO; EPROTO; EMSGSIZE; EBADMSG; EOPNOTSUPP] ∧
     (r_status res ≠ 0 ↔ e = EREMOTEIO) ∧ (length (r_message res) ≤ 127)%nat).
Proof.
  unfold kmip_parse_locate, kmip_parse_get.
  destruct (open_response buf v KMIP_OP_LOCATE) as [res1 [p1|e1]] eqn:E1;
    apply open_response_result in E1 as (He1 & Hs1 & Hm1);
  destruct (open_response buf v KMIP_OP_GET) as [res2 [p2|e2]] eqn:E2;
    apply open_response_result in E2 as (He2 & Hs2 & Hm2).
  all: split_and!; intros; simplify_eq.
  all: try match goal with
  | H : read_uid _ _ = _ |- _ => apply read_uid_result in H
  | H : read_object _ _ = _ |- _ => apply read_object_result in H
  end; try tauto.
  all: try (specialize (He1 _ eq_refl)); try (specialize (He2 _ eq_refl)).
  all: split_and!; try done; try set_solver; split; intros Hx; try naive_solver.
  all: set_solver.
Qed.
