(* ===== verification/Nqn.v ===== *)
(** * UUIDs, NQNs and host identifiers: [shared/uuid-util.c], [shared/nqn-util.c]

    Strings that may be NULL are options. *)

From Stdlib Require Import String.
From stdpp Require Import base list numbers sets.
From S2P Require Import Prelude.
From S2P Require Import CStr.

Definition SHR_UUID_LEN_STRING : nat := 37.
Definition SHR_NQN_MAX_LEN : nat := 223.
Definition NQN_PREFIX : list Z := lit "nqn.".
Definition NQN_UUID_PREFIX : list Z := lit "nqn.2014-08.org.nvmexpress:uuid:".
Definition NQN_DATE_LEN : nat := 7.
(** The well-known NQN of discovery subsystems. *)
Definition NVME_DISC_SUBSYS_NAME : list Z := lit "nqn.2014-08.org.nvmexpress.discovery".

(** [group] of [shr_uuid_str_valid]. *)
Definition uuid_groups : list nat := [8; 4; 4; 4; 12]%nat.

(** The loop over the groups: [first] is [!g], and the string is the rest
    [str + i].  Reading the NUL stops it, as NUL is no digit. *)
Fixpoint uuid_loop (groups : list nat) (first : bool) (s : list Z) : bool :=
  match groups with
  | [] => true
  | n :: gs =>
      if negb first && negb (char_at s 0 =? c_minus) then false
      else
        let s := if first then s else drop 1 s in
        forallb (λ i, isxdigit (char_at s i)) (seq 0 n) && uuid_loop gs false (drop n s)
  end.

Definition shr_uuid_str_valid (str : option (list Z)) : bool :=
  match str with
  | None => false
  | Some s =>
      if negb (length s =? SHR_UUID_LEN_STRING - 1)%nat then false
      else uuid_loop uuid_groups true s
  end.

(** [%02x] of a byte. *)
Definition x02 (b : Z) : list Z := [hex_digit_lc (b / 16); hex_digit_lc (b mod 16)].

Definition shr_uuid_to_string (uuid : list Z) : list Z :=
  let x i := x02 (char_at uuid i) in
  x 0%nat ++ x 1%nat ++ x 2%nat ++ x 3%nat ++ [c_minus] ++ x 4%nat ++ x 5%nat ++ [c_minus] ++
  x 6%nat ++ x 7%nat ++ [c_minus] ++ x 8%nat ++ x 9%nat ++ [c_minus] ++
  x 10%nat ++ x 11%nat ++ x 12%nat ++ x 13%nat ++ x 14%nat ++ x 15%nat.

Definition shr_fw_to_string (c : list Z) : list Z :=
  map (λ i, let x := char_at c i in if (33 <=? x) && (x <=? 126) then x else c_dot) (seq 0 8).

Definition date_code_valid (p : list Z) : bool :=
  if negb (forallb (λ i, isdigit (char_at p i)) (seq 0 4)) then false
  else if negb (char_at p 4 =? c_minus) || negb (isdigit (char_at p 5)) ||
          negb (isdigit (char_at p 6)) then false
  else
    let month := (char_at p 5 - c_0) * 10 + (char_at p 6 - c_0) in
    (1 <=? month) && (month <=? 12).

Definition charset_valid (nqn : list Z) : bool :=
  forallb (λ c, negb ((c <? 33) || (126 <? c))) nqn.

(** [!strncmp(s, prefix, strlen(prefix))] *)
Definition has_prefix (prefix s : list Z) : bool :=
  bool_decide (take (length prefix) s = prefix).

Definition shr_nqn_valid (nqn : option (list Z)) : bool :=
  match nqn with
  | None => false
  | Some nqn =>
      let len := length nqn in
      if (SHR_NQN_MAX_LEN <? len)%nat then false
      else if negb (has_prefix NQN_PREFIX nqn) then false
      else if negb (charset_valid nqn) then false
      else if has_prefix NQN_UUID_PREFIX nqn then
        shr_uuid_str_valid (Some (drop (length NQN_UUID_PREFIX) nqn))
      else if (len <? length NQN_PREFIX + NQN_DATE_LEN + 2)%nat then false
      else
        let p := drop (length NQN_PREFIX) nqn in
        date_code_valid p && (char_at p NQN_DATE_LEN =? c_dot)
  end.

Definition shr_hostid_valid (hostid : option (list Z)) : bool :=
  shr_uuid_str_valid hostid &&
  negb (shr_streq0 hostid (Some (lit "00000000-0000-0000-0000-000000000000"))).

Definition lower_AF (c : Z) : Z := if (c_A <=? c) && (c <=? c_F) then c + 32 else c.

(** [None] when the function returns false and leaves the string alone. *)
Definition shr_nqn_normalize (nqn : option (list Z)) : option (list Z) :=
  match nqn with
  | None => None
  | Some nqn =>
      if negb (has_prefix NQN_UUID_PREFIX nqn) then None
      else Some (take (length NQN_UUID_PREFIX) nqn ++
                 map lower_AF (drop (length NQN_UUID_PREFIX) nqn))
  end.

(** ** Lemmas *)

Lemma lower_AF_idem c : lower_AF (lower_AF c) = lower_AF c.
Proof.
  unfold lower_AF. destruct ((c_A <=? c) && (c <=? c_F)) eqn:E; [|by rewrite E].
  to_prop. destruct ((c_A <=? c + 32) && (c + 32 <=? c_F)) eqn:E'; [to_prop; lia|done].
Qed.

Lemma lower_AF_hex c : isxdigit (lower_AF c) = isxdigit c.
Proof.
  unfold lower_AF. destruct ((c_A <=? c) && (c <=? c_F)) eqn:E; [|done]. to_prop.
  transitivity true; [|symmetry]; unfold isxdigit, isdigit; rewrite !orb_true_iff, !andb_true_iff; lia.
Qed.

Lemma lower_AF_NUL : lower_AF 0 = 0.
Proof. done. Qed.

Lemma lower_AF_minus c : (lower_AF c =? c_minus) = (c =? c_minus).
Proof.
  unfold lower_AF. destruct ((c_A <=? c) && (c <=? c_F)) eqn:E; [|done]. to_prop.
  destruct (Z.eqb_spec (c + 32) c_minus), (Z.eqb_spec c c_minus); (done || lia).
Qed.

Lemma char_at_map f s i : f 0 = 0 → char_at (map f s) i = f (char_at s i).
Proof.
  intros Hf. unfold char_at. change (map f s) with (f <$> s). rewrite list_lookup_fmap.
  by destruct (s !! i).
Qed.

Lemma uuid_loop_lower gs b s : uuid_loop gs b (map lower_AF s) = uuid_loop gs b s.
Proof.
  revert b s. induction gs as [|n gs IH]; intros b s; [done|]. cbn [uuid_loop].
  rewrite char_at_map, lower_AF_minus by done. destruct (_ && _); [done|].
  assert ((if b then map lower_AF s else drop 1 (map lower_AF s)) =
          map lower_AF (if b then s else drop 1 s)) as ->.
  { destruct b; [done|]. by rewrite <- skipn_map. }
  set (t := if b then s else drop 1 s).
  rewrite <- (IH false (drop n t)), skipn_map. f_equal.
  induction (seq 0 n) as [|i l IHl]; [done|]. cbn [forallb].
  by rewrite IHl, char_at_map, lower_AF_hex.
Qed.

Lemma charset_lower s : charset_valid s = true → charset_valid (map lower_AF s) = true.
Proof.
  unfold charset_valid. rewrite !forallb_Forall, Forall_map. intros H.
  eapply list.Forall_impl; [exact H|]. cbn beta. intros c Hc. unfold lower_AF.
  destruct (_ && _) eqn:E; [|done]. to_prop. apply negb_true_iff, orb_false_iff. lia.
Qed.

Lemma has_prefix_spec p s : has_prefix p s = true ↔ ∃ r, s = p ++ r.
Proof.
  unfold has_prefix. rewrite bool_decide_eq_true. split.
  - intros H. exists (drop (length p) s). by rewrite <- H at 1; rewrite take_drop.
  - intros [r ->]. apply take_app_length.
Qed.

Lemma charset_app s t : charset_valid (s ++ t) = charset_valid s && charset_valid t.
Proof. apply forallb_app. Qed.

Lemma hex_digit_lc_hex d : 0 ≤ d < 16 → isxdigit (hex_digit_lc d) = true ∧ lower_AF (hex_digit_lc d) = hex_digit_lc d.
Proof.
  intros H. assert (d ∈ seqZ 0 16) as Hd by (apply elem_of_seqZ; lia). revert d Hd H.
  assert (A : Forall (λ d, isxdigit (hex_digit_lc d) = true ∧ lower_AF (hex_digit_lc d) = hex_digit_lc d)
    (seqZ 0 16)) by (vm_compute; repeat constructor).
  intros d Hd _. by eapply Forall_forall in A.
Qed.

Lemma hex_digit_lc_inj d e : 0 ≤ d < 16 → 0 ≤ e < 16 → hex_digit_lc d = hex_digit_lc e → d = e.
Proof.
  unfold hex_digit_lc. intros. destruct (Z.ltb_spec d 10), (Z.ltb_spec e 10); lia.
Qed.

Lemma x02_inj b c : is_byte b → is_byte c → x02 b = x02 c → b = c.
Proof.
  unfold is_byte, x02. intros Hb Hc [= H1 H2].
  apply hex_digit_lc_inj in H1; [|divmod..]. apply hex_digit_lc_inj in H2; [|divmod..]. divmod.
Qed.

(** The bytes of a UUID. *)
Definition is_uuid (u : list Z) : Prop := length u = 16%nat ∧ bytes u.

Lemma is_uuid_at u i : is_uuid u → is_byte (char_at u i).
Proof.
  intros [Hl Hb]. unfold char_at. destruct (u !! i) as [c|] eqn:E; [|unfold is_byte; simpl; lia].
  by eapply (Forall_lookup_1 is_byte).
Qed.

Lemma x02_hex b :
  is_byte b → ∃ h l, x02 b = [h; l] ∧ isxdigit h = true ∧ isxdigit l = true ∧
    lower_AF h = h ∧ lower_AF l = l.
Proof.
  intros Hb. eexists _, _. split; [done|]. unfold is_byte in Hb.
  pose proof (hex_digit_lc_hex (b / 16)) as [? ?]; [divmod|].
  pose proof (hex_digit_lc_hex (b mod 16)) as [? ?]; [divmod|]. done.
Qed.

Lemma uuid_to_string_valid u :
  is_uuid u → shr_uuid_str_valid (Some (shr_uuid_to_string u)) = true ∧
  map lower_AF (shr_uuid_to_string u) = shr_uuid_to_string u.
Proof.
  intros Hu. unfold shr_uuid_to_string. cbv zeta.
  repeat match goal with
  | |- context [x02 (char_at u ?i)] =>
      destruct (x02_hex (char_at u i) (is_uuid_at u i Hu)) as (? & ? & -> & ? & ? & ? & ?)
  end.
  split.
  - cbn [app]. unfold shr_uuid_str_valid. cbn [length Nat.eqb Nat.sub SHR_UUID_LEN_STRING negb].
    unfold uuid_groups, char_at.
    cbn [uuid_loop drop negb andb forallb seq lookup list_lookup default from_option id].
    unfold char_at. cbn [lookup list_lookup from_option id].
    repeat match goal with H : isxdigit _ = true |- _ => rewrite H; clear H end. reflexivity.
  - cbn [app map]. repeat match goal with H : lower_AF _ = _ |- _ => rewrite H; clear H end.
    reflexivity.
Qed.

Lemma x02_charset b : is_byte b → charset_valid (x02 b) = true.
Proof.
  unfold is_byte, x02, charset_valid. intros Hb. cbn [forallb].
  assert (A : ∀ d, 0 ≤ d < 16 → 48 ≤ hex_digit_lc d ≤ 102).
  { intros d Hd. unfold hex_digit_lc. destruct (Z.ltb_spec d 10); lia. }
  pose proof (A (b / 16)). pose proof (A (b mod 16)).
  rewrite !andb_true_iff, !negb_true_iff, !orb_false_iff. split_and!; try done; divmod.
Qed.

Lemma uuid_to_string_charset u : is_uuid u → charset_valid (shr_uuid_to_string u) = true.
Proof.
  intros Hu. unfold shr_uuid_to_string. cbv zeta. rewrite !charset_app.
  rewrite !x02_charset by (by apply is_uuid_at). reflexivity.
Qed.

(** ** Properties *)

(** [shr_uuid_to_string] prints every 16-byte UUID as a string that
    [shr_uuid_str_valid] accepts, in lower case, and two different UUIDs
    differently; the host NQN made of it is a valid NQN, and already
    normalized. *)
Theorem shr_uuid_to_string_spec u :
  is_uuid u →
  shr_uuid_str_valid (Some (shr_uuid_to_string u)) = true ∧
  (∀ w, is_uuid w → shr_uuid_to_string w = shr_uuid_to_string u → w = u) ∧
  let nqn := NQN_UUID_PREFIX ++ shr_uuid_to_string u in
  shr_nqn_valid (Some nqn) = true ∧ shr_nqn_normalize (Some nqn) = Some nqn.
Proof.
  intros Hu. destruct (uuid_to_string_valid u Hu) as [Hv Hl]. cbv zeta. split_and!; [done| | |].
  - intros w Hw H. destruct Hu as [Hlu Hbu], Hw as [Hlw Hbw].
    do 17 (destruct u as [|? u]; try discriminate Hlu).
    do 17 (destruct w as [|? w]; try discriminate Hlw).
    repeat match goal with H : bytes (_ :: _) |- _ => apply bytes_cons in H as [? H] end.
    unfold shr_uuid_to_string, char_at in H. cbn [lookup list_lookup from_option id] in H.
    assert (A : ∀ b c s t, is_byte b → is_byte c → x02 b ++ s = x02 c ++ t → b = c ∧ s = t).
    { intros b c s t Hb Hc E. apply app_inj_1 in E as [E ->]; [|done]. split; [|done].
      by apply x02_inj. }
    repeat match goal with
    | H : x02 _ ++ _ = x02 _ ++ _ |- _ => apply A in H as [? H]; [subst|done..]
    | H : [c_minus] ++ _ = [c_minus] ++ _ |- _ => apply app_inv_head in H
    end.
    apply x02_inj in H; [by subst|done..].
  - unfold shr_nqn_valid. rewrite charset_app, uuid_to_string_charset by done.
    assert (length (NQN_UUID_PREFIX ++ shr_uuid_to_string u) = 68)%nat as -> by done.
    assert (has_prefix NQN_PREFIX (NQN_UUID_PREFIX ++ shr_uuid_to_string u) = true) as ->.
    { apply has_prefix_spec. by eexists (drop 4 NQN_UUID_PREFIX ++ _). }
    assert (has_prefix NQN_UUID_PREFIX (NQN_UUID_PREFIX ++ shr_uuid_to_string u) = true) as ->.
    { apply has_prefix_spec. by eexists. }
    rewrite drop_app_length. exact Hv.
  - unfold shr_nqn_normalize.
    assert (has_prefix NQN_UUID_PREFIX (NQN_UUID_PREFIX ++ shr_uuid_to_string u) = true) as ->.
    { apply has_prefix_spec. by eexists. }
    cbn [negb]. by rewrite take_app_length, drop_app_length, Hl.
Qed.

Lemma shr_uuid_to_string_spec_witness :
  shr_nqn_valid (Some (NQN_UUID_PREFIX ++ shr_uuid_to_string (seqZ 200 16))) = true.
Proof.
  apply (shr_uuid_to_string_spec (seqZ 200 16)).
  split; [reflexivity|]. repeat constructor; lia.
Defined.

(** Normalizing a valid UUID NQN keeps it valid and of the same length,
    is idempotent, and NQNs that differ only in the case of the UUID's digits
    become equal. *)
Theorem shr_nqn_normalize_spec n m :
  shr_nqn_valid (Some n) = true → shr_nqn_normalize (Some n) = Some m →
  shr_nqn_valid (Some m) = true ∧ shr_nqn_normalize (Some m) = Some m ∧ length m = length n ∧
  ∀ n' m', shr_nqn_normalize (Some n') = Some m' → map lower_AF n = map lower_AF n' → m = m'.
Proof.
  unfold shr_nqn_normalize. intros Hv.
  destruct (has_prefix NQN_UUID_PREFIX n) eqn:Hp; [|done]. cbn [negb].
  apply has_prefix_spec in Hp as [r ->]. rewrite take_app_length, drop_app_length.
  intros Hm%(inj Some). subst m.
  assert (Hp' : ∀ s, has_prefix NQN_UUID_PREFIX (NQN_UUID_PREFIX ++ s) = true).
  { intros s. apply has_prefix_spec. by eexists. }
  assert (Hq : ∀ s, has_prefix NQN_PREFIX (NQN_UUID_PREFIX ++ s) = true).
  { intros s. apply has_prefix_spec. by eexists (drop 4 NQN_UUID_PREFIX ++ _). }
  assert (Hlen : length (NQN_UUID_PREFIX ++ map lower_AF r) = length (NQN_UUID_PREFIX ++ r)).
  { by rewrite !length_app, length_map. }
  split_and!; [| |done|].
  - revert Hv. unfold shr_nqn_valid. cbv zeta. rewrite Hlen, !Hp', !Hq, !charset_app, !drop_app_length.
    destruct (_ <? _)%nat; [done|]. cbn [negb]. change (charset_valid NQN_UUID_PREFIX) with true.
    cbn [andb]. destruct (charset_valid r) eqn:Ec; [|done]. rewrite charset_lower by done.
    cbn [negb]. unfold shr_uuid_str_valid. rewrite length_map. destruct (negb _); [done|].
    by rewrite uuid_loop_lower.
  - rewrite Hp'. cbn [negb]. rewrite take_app_length, drop_app_length, map_map.
    do 2 f_equal. apply map_ext. apply lower_AF_idem.
  - intros n' m'. destruct (has_prefix NQN_UUID_PREFIX n') eqn:Hn; [|done]. cbn [negb].
    apply has_prefix_spec in Hn as [r' ->]. rewrite take_app_length, drop_app_length.
    intros Hm%(inj Some). subst m'. rewrite !map_app. intros H%app_inj_1; [|done]. by destruct H as [_ ->].
Qed.

Lemma shr_nqn_normalize_spec_witness :
  shr_nqn_normalize (Some (lit "nqn.2014-08.org.nvmexpress:uuid:0123abcd-4567-89ab-cdef-0123456789ab")) =
  Some (lit "nqn.2014-08.org.nvmexpress:uuid:0123abcd-4567-89ab-cdef-0123456789ab").
Proof.
  apply (shr_nqn_normalize_spec
    (lit "nqn.2014-08.org.nvmexpress:uuid:0123ABCD-4567-89ab-cdef-0123456789AB"));
    reflexivity.
Defined.
