(* ===== verification/Tid.v ===== *)
(** * Transport IDs: [libnvme/src/nvme/tid.c]

    A TID names a path between a host and a controller.  The record has the
    struct's eight strings (NULL is [None]) and its two caches.  Memory
    ([strdup], [libnvmf_tid_new]) and the address conversions of the C library
    ([inet_pton], [inet_ntop]) are interfaces: classes whose laws state what
    their documentation promises. *)

From Stdlib Require Import String.
From stdpp Require Import base list numbers sets.
From S2P Require Import Prelude.
From S2P Require Import CStr.
From S2P Require Import Hex.

(** ** Interfaces *)

(** Which allocations succeed. *)
Class Alloc := {
  strdup_ok : list Z → bool;
  tid_new_ok : bool }.

(** [inet_pton] gives the bytes of the address, [inet_ntop] its text. *)
Class Inet := {
  pton4 : list Z → option (list Z);
  ntop4 : list Z → option (list Z);
  pton6 : list Z → option (list Z);
  ntop6 : list Z → option (list Z) }.

Definition INET6_ADDRSTRLEN : nat := 46.

(** A character of the text form of an address. *)
Definition addr_char (c : Z) : bool := isxdigit c || (c =? c_dot) || (c =? c_colon).

(** The text form is short, of address characters, and reads back. *)
Class InetLaws `{Inet} := {
  pton4_len s a : pton4 s = Some a → length a = 4%nat ∧ bytes a;
  pton6_len s a : pton6 s = Some a → length a = 16%nat ∧ bytes a;
  ntop4_pton a : length a = 4%nat ∧ bytes a →
    ∃ s, ntop4 a = Some s ∧ pton4 s = Some a ∧ forallb addr_char s = true ∧
         s ≠ [] ∧ (length s < INET6_ADDRSTRLEN)%nat;
  ntop6_pton a : length a = 16%nat ∧ bytes a →
    ∃ s, ntop6 a = Some s ∧ pton6 s = Some a ∧ pton4 s = None ∧ forallb addr_char s = true ∧
         s ≠ [] ∧ (length s < INET6_ADDRSTRLEN)%nat }.

(** ** Data *)

Record libnvmf_tid := {
  transport : option (list Z);
  traddr : option (list Z);
  trsvcid : option (list Z);
  subsysnqn : option (list Z);
  host_traddr : option (list Z);
  host_iface : option (list Z);
  hostnqn : option (list Z);
  hostid : option (list Z);
  canonical_cache : option (list Z);
  str_cache : option (list Z) }.

#[export] Instance libnvmf_tid_eq_dec : EqDecision libnvmf_tid.
Proof. solve_decision. Defined.

(** [libnvmf_tid_new]: every pointer NULL. *)
Definition tid_null : libnvmf_tid :=
  {| transport := None; traddr := None; trsvcid := None; subsysnqn := None;
     host_traddr := None; host_iface := None; hostnqn := None; hostid := None;
     canonical_cache := None; str_cache := None |}.

(** The eight keys of the canonical form. *)
Inductive field :=
| Transport | Traddr | Trsvcid | Nqn | HostTraddr | HostIface | Hostnqn | Hostid.

#[export] Instance field_eq_dec : EqDecision field.
Proof. solve_decision. Defined.

Definition get (t : libnvmf_tid) (f : field) : option (list Z) :=
  match f with
  | Transport => transport t | Traddr => traddr t | Trsvcid => trsvcid t
  | Nqn => subsysnqn t | HostTraddr => host_traddr t | HostIface => host_iface t
  | Hostnqn => hostnqn t | Hostid => hostid t
  end.

Definition upd (t : libnvmf_tid) (f : field) (v : option (list Z)) : libnvmf_tid :=
  let pick g old := if decide (g = f) then v else old in
  {| transport := pick Transport (transport t); traddr := pick Traddr (traddr t);
     trsvcid := pick Trsvcid (trsvcid t); subsysnqn := pick Nqn (subsysnqn t);
     host_traddr := pick HostTraddr (host_traddr t); host_iface := pick HostIface (host_iface t);
     hostnqn := pick Hostnqn (hostnqn t); hostid := pick Hostid (hostid t);
     canonical_cache := canonical_cache t; str_cache := str_cache t |}.

Definition invalidate_cache (t : libnvmf_tid) : libnvmf_tid :=
  {| transport := transport t; traddr := traddr t; trsvcid := trsvcid t;
     subsysnqn := subsysnqn t; host_traddr := host_traddr t; host_iface := host_iface t;
     hostnqn := hostnqn t; hostid := hostid t; canonical_cache := None; str_cache := None |}.

(** The rest of [s] behind the literal [lit] of a format. *)
Definition scan_lit (l s : list Z) : option (list Z) :=
  if bool_decide (take (length l) s = l) then Some (drop (length l) s) else None.

(** [%16[0-9a-fA-F]]: one to sixteen hex digits. *)
Definition scan_hex16 (s : list Z) : option (list Z) :=
  let n := length (take_while isxdigit (take 16 s)) in
  if (n =? 0)%nat then None else Some (drop n s).

Definition fc_wwn_normalize (s : list Z) : list Z :=
  match split_char c_comma s with
  | Some (a, b) => a ++ c_colon :: b
  | None => s
  end.

(** The [sscanf] converts both and [len] reaches the end. *)
Definition fc_wwn_is_valid (s : list Z) : bool :=
  match (s ← scan_lit (lit "nn-0x") s; s ← scan_hex16 s;
         s ← scan_lit (lit ":pn-0x") s; scan_hex16 s) with
  | Some [] => true
  | _ => false
  end.

Definition is_transport (t : libnvmf_tid) (name : list Z) : bool :=
  match transport t with Some x => str_eqb x name | None => false end.

(** [IN6_IS_ADDR_V4MAPPED] *)
Definition v4mapped (a : list Z) : bool :=
  bool_decide (take 12 a = replicate 10 0 ++ [255; 255]).

(** [strstr(hostnqn, "uuid:")] and the text behind it. *)
Fixpoint behind_uuid (s : list Z) : option (list Z) :=
  match scan_lit (lit "uuid:") s with
  | Some r => Some r
  | None => match s with [] => None | _ :: s' => behind_uuid s' end
  end.

Section Tid.
Context `{Alloc} `{Inet}.

(** [strdup], and [shr_xstrdup] for a pointer that may be NULL. *)
Definition strdup (s : list Z) : option (list Z) := if strdup_ok s then Some s else None.
Definition shr_xstrdup (s : option (list Z)) : option (list Z) := s ≫= strdup.

(** The copy of a field that is set failed. *)
Definition copy_failed (src copy : option (list Z)) : bool :=
  match src, copy with Some _, None => true | _, _ => false end.

Definition libnvme_hostid_from_hostnqn (hostnqn : list Z) : option (list Z) :=
  uuid ← behind_uuid hostnqn; strdup uuid.

Definition canon_ip (inp : list Z) : result (list Z) :=
  let '(host, scope) :=
    match split_char c_percent inp with
    | Some (h, s) => (h, Some (c_percent :: s))
    | None => (inp, None)
    end in
  if (INET6_ADDRSTRLEN <=? length host)%nat then Err EINVAL
  else
    let dup s := match strdup s with Some s => Ok s | None => Err ENOMEM end in
    match pton4 host with
    | Some addr4 =>
        match ntop4 addr4 with None => Err EINVAL | Some canon => dup canon end
    | None =>
        match pton6 host with
        | Some addr6 =>
            if v4mapped addr6 && negb (bool_decide (is_Some scope)) then
              match ntop4 (drop 12 addr6) with None => Err EINVAL | Some canon => dup canon end
            else
              match ntop6 addr6 with
              | None => Err EINVAL
              | Some canon => dup (canon ++ default [] scope)
              end
        | None => Err EINVAL
        end
    end.

(** [traddr], then [host_traddr], through [canon_ip]. *)
Definition canon_field (t : libnvmf_tid) (f : field) : result libnvmf_tid :=
  match get t f with
  | None => Ok t
  | Some a => canon ← canon_ip a; Ok (upd t f (Some canon))
  end.

Definition tid_sanitize_addr (t : libnvmf_tid) : result libnvmf_tid :=
  match transport t with
  | None => Ok t
  | Some tr =>
      if str_eqb tr (lit "fc") then
        let t := upd t Traddr (fc_wwn_normalize <$> traddr t) in
        let t := upd t HostTraddr (fc_wwn_normalize <$> host_traddr t) in
        let bad a := match a with Some a => negb (fc_wwn_is_valid a) | None => false end in
        if bad (traddr t) then Err EINVAL
        else if bad (host_traddr t) then Err EINVAL
        else Ok t
      else if negb (str_eqb tr (lit "tcp")) && negb (str_eqb tr (lit "rdma")) then Ok t
      else t ← canon_field t Traddr; canon_field t HostTraddr
  end.

(** The eight copies of [libnvmf_tid_from_fields] and [libnvmf_tid_dup];
    [None] when one failed. *)
Definition copy_fields (src : field → option (list Z)) : option libnvmf_tid :=
  let c f := shr_xstrdup (src f) in
  let t := {| transport := c Transport; traddr := c Traddr; trsvcid := c Trsvcid;
              subsysnqn := c Nqn; host_traddr := c HostTraddr; host_iface := c HostIface;
              hostnqn := c Hostnqn; hostid := c Hostid;
              canonical_cache := None; str_cache := None |} in
  let failed f := copy_failed (src f) (get t f) in
  if failed Transport || failed Traddr || failed Trsvcid || failed Nqn ||
     failed HostTraddr || failed HostIface || failed Hostnqn || failed Hostid
  then None else Some t.

Definition libnvmf_tid_from_fields (src : field → option (list Z)) : result libnvmf_tid :=
  if negb tid_new_ok then Err ENOMEM
  else
    match copy_fields src with
    | None => Err ENOMEM
    | Some t => tid_sanitize_addr t
    end.

(** The part of [libnvmf_tid_set_identity] that cannot fail. *)
Definition commit_identity (tid : libnvmf_tid)
    (new_subsysnqn new_hostnqn new_hostid derived : option (list Z)) : libnvmf_tid :=
  let t := invalidate_cache tid in
  let t := match new_subsysnqn with Some _ => upd t Nqn new_subsysnqn | None => t end in
  let t := match new_hostnqn with Some _ => upd t Hostnqn new_hostnqn | None => t end in
  match new_hostid, derived with
  | Some _, _ => upd t Hostid new_hostid
  | None, Some _ => upd t Hostid derived
  | None, None => t
  end.

(** The TID after the call, and the error. *)
Definition libnvmf_tid_set_identity (tid : libnvmf_tid) (subsysnqn0 hostnqn0 hostid0 : option (list Z)) :
    libnvmf_tid * option errno :=
  let eff_hostnqn := match hostnqn0 with Some _ => hostnqn0 | None => hostnqn tid end in
  let eff_hostid := match hostid0 with Some _ => hostid0 | None => hostid tid end in
  let derived :=
    match eff_hostid, eff_hostnqn with
    | None, Some n => libnvme_hostid_from_hostnqn n
    | _, _ => None
    end in
  let eff_hostid := match eff_hostid with Some _ => eff_hostid | None => derived end in
  match eff_hostid, eff_hostnqn with
  | Some _, None => (tid, Some EINVAL)
  | _, _ =>
      let new_subsysnqn := shr_xstrdup subsysnqn0 in
      let new_hostnqn := shr_xstrdup hostnqn0 in
      let new_hostid := shr_xstrdup hostid0 in
      if copy_failed subsysnqn0 new_subsysnqn || copy_failed hostnqn0 new_hostnqn ||
         copy_failed hostid0 new_hostid
      then (tid, Some ENOMEM)
      else
        (commit_identity tid new_subsysnqn new_hostnqn new_hostid derived, None)
  end.

Definition libnvmf_tid_dup (tid : option libnvmf_tid) : option libnvmf_tid :=
  tid ← tid; if negb tid_new_ok then None else copy_fields (get tid).

(** ** The parser *)

(** The key of a field, in the order of the tests. *)
Definition key_of (f : field) : list Z :=
  match f with
  | Transport => lit "transport" | Traddr => lit "traddr" | Trsvcid => lit "trsvcid"
  | Nqn => lit "nqn" | HostTraddr => lit "host-traddr" | HostIface => lit "host-iface"
  | Hostnqn => lit "hostnqn" | Hostid => lit "hostid"
  end.

Definition all_fields : list field :=
  [Transport; Traddr; Trsvcid; Nqn; HostTraddr; HostIface; Hostnqn; Hostid].

Definition field_of (key : list Z) : option field :=
  List.find (λ f, str_eqb key (key_of f)) all_fields.

(** One token: the new TID, [bad] and [oom]. *)
Definition parse_token (strict : bool) (t : libnvmf_tid) (tok : list Z) : libnvmf_tid * bool * bool :=
  match split_char c_eq tok with
  | None => (t, if nonempty (shr_trim tok) then strict else false, false)
  | Some (k, v) =>
      let key := shr_trim k in
      let val := shr_trim v in
      if negb (nonempty val) then (t, strict, false)
      else
        match field_of key with
        | Some f => let c := strdup val in (upd t f c, false, negb (bool_decide (is_Some c)))
        | None => (t, strict, false)
        end
  end.

Fixpoint parse_tokens (strict : bool) (t : libnvmf_tid) (toks : list (list Z)) :
    libnvmf_tid * bool * bool :=
  match toks with
  | [] => (t, false, false)
  | tok :: toks' =>
      let '(t, bad, oom) := parse_token strict t tok in
      if bad || oom then (t, bad, oom) else parse_tokens strict t toks'
  end.

Definition tid_parse (strict : bool) (str : option (list Z)) : result libnvmf_tid :=
  match str with
  | None => Err EINVAL
  | Some str =>
      if negb tid_new_ok then Err ENOMEM
      else
        match strdup str with
        | None => Err ENOMEM
        | Some buf =>
            let '(t, bad, oom) := parse_tokens strict tid_null (strtok c_semi buf) in
            if oom then Err ENOMEM
            else if bad then Err EINVAL
            else tid_sanitize_addr t
        end
  end.

Definition libnvmf_tid_parse : option (list Z) → result libnvmf_tid := tid_parse false.
Definition libnvmf_tid_parse_strict : option (list Z) → result libnvmf_tid := tid_parse true.

Definition libnvmf_traddr_is_numeric (a : option (list Z)) : bool :=
  match a with None => false | Some a => is_ok (canon_ip a) end.

End Tid.

Definition libnvmf_tid_is_empty (tid : option libnvmf_tid) : bool :=
  match tid with
  | None => true
  | Some t => forallb (λ f, negb (bool_decide (is_Some (get t f)))) all_fields
  end.

(** ** The canonical form *)

Definition CANONICAL_MAX : nat := 1024.

(** [snprintf] into the rest of [buf]: [n] counts what it would have written. *)
Definition snprintf_at (buf : list Z) (n : nat) (s : list Z) : list Z * nat :=
  (take n buf ++ take (CANONICAL_MAX - n - 1) s, (n + length s)%nat).

Definition canonical_append (t : libnvmf_tid) (st : list Z * nat) (f : field) : list Z * nat :=
  let '(buf, n) := st in
  match get t f with
  | Some v =>
      if (n <? CANONICAL_MAX)%nat then
        snprintf_at buf n ((if (n =? 0)%nat then [] else [c_semi]) ++ key_of f ++ [c_eq] ++ v)
      else st
  | None => st
  end.

(** The text, without the cache. *)
Definition canonical_text (t : libnvmf_tid) : list Z :=
  fst (foldl (canonical_append t) ([], 0%nat) all_fields).

(** The string returned, and the TID with its cache filled in. *)
Definition libnvmf_tid_get_canonical `{Alloc} (t : libnvmf_tid) : libnvmf_tid * option (list Z) :=
  match canonical_cache t with
  | Some c => (t, Some c)
  | None =>
      let c := strdup (canonical_text t) in
      ({| transport := transport t; traddr := traddr t; trsvcid := trsvcid t;
          subsysnqn := subsysnqn t; host_traddr := host_traddr t; host_iface := host_iface t;
          hostnqn := hostnqn t; hostid := hostid t;
          canonical_cache := c; str_cache := str_cache t |}, c)
  end.

Definition str_append (t : libnvmf_tid) (st : list Z * nat * list Z) (f : field) :
    list Z * nat * list Z :=
  let '(buf, n, sep) := st in
  match get t f with
  | Some v =>
      if nonempty v && (n <? CANONICAL_MAX)%nat then (snprintf_at buf n (sep ++ v), lit ", ")
      else st
  | None => st
  end.

Definition str_text (t : libnvmf_tid) : list Z :=
  let '(buf, n, _) :=
    foldl (str_append t) (lit "(", 1%nat, [])
      [Transport; Traddr; Trsvcid; Nqn; HostIface; HostTraddr] in
  if (n <? CANONICAL_MAX)%nat then fst (snprintf_at buf n (lit ")")) else buf.

Definition libnvmf_tid_str `{Alloc} (t : libnvmf_tid) : libnvmf_tid * option (list Z) :=
  match str_cache t with
  | Some c => (t, Some c)
  | None =>
      let c := strdup (str_text t) in
      ({| transport := transport t; traddr := traddr t; trsvcid := trsvcid t;
          subsysnqn := subsysnqn t; host_traddr := host_traddr t; host_iface := host_iface t;
          hostnqn := hostnqn t; hostid := hostid t;
          canonical_cache := canonical_cache t; str_cache := c |}, c)
  end.

(** ** Clean fields

    The fields a parse yields: nonempty, without surrounding blanks and
    without the separator. *)
Definition clean (v : list Z) : Prop := v ≠ [] ∧ trimmed v ∧ (c_semi ∉ v).
Definition clean_tid (t : libnvmf_tid) : Prop := ∀ f v, get t f = Some v → clean v.

Lemma get_upd t f v g : get (upd t f v) g = if decide (g = f) then v else get t g.
Proof. by destruct f, g. Qed.

Lemma upd_caches t f v :
  canonical_cache (upd t f v) = canonical_cache t ∧ str_cache (upd t f v) = str_cache t.
Proof. done. Qed.

Lemma tid_ext a b :
  (∀ f, get a f = get b f) → canonical_cache a = canonical_cache b → str_cache a = str_cache b →
  a = b.
Proof.
  intros H Hc Hs. destruct a, b. simpl in *.
  pose proof (H Transport). pose proof (H Traddr). pose proof (H Trsvcid). pose proof (H Nqn).
  pose proof (H HostTraddr). pose proof (H HostIface). pose proof (H Hostnqn).
  pose proof (H Hostid). simpl in *. by subst.
Qed.

Lemma upd_clean t f v : clean_tid t → clean v → clean_tid (upd t f (Some v)).
Proof. intros Ht Hv g w. rewrite get_upd. case_decide; [by intros [= <-]|apply Ht]. Qed.

Lemma upd_same t f : upd t f (get t f) = t.
Proof. apply tid_ext; [|done..]. intros g. rewrite get_upd. by case_decide; subst. Qed.

(** A string of characters that are neither blank nor [;]. *)
Lemma clean_chars p v :
  (∀ c, p c = true → isspace c = false ∧ c ≠ c_semi) → v ≠ [] → forallb p v = true → clean v.
Proof.
  intros Hp Hv Hall. rewrite forallb_Forall, Forall_forall in Hall.
  assert (Hns : ∀ c, c ∈ v → isspace c = false) by (intros c Hc; apply Hp, Hall, Hc).
  split_and!; [done| |].
  - split.
    + destruct v as [|c v]; [done|]. apply (Hns c). set_solver.
    + intros l c ->. apply Hns. set_solver.
  - intros Hc%Hall%Hp. by destruct Hc.
Qed.

Lemma addr_char_facts c :
  addr_char c = true → isspace c = false ∧ c ≠ c_semi ∧ c ≠ c_percent.
Proof.
  unfold addr_char, isxdigit, isdigit, isspace.
  rewrite !orb_true_iff, !andb_true_iff, orb_false_iff, andb_false_iff. lia.
Qed.

Lemma no_percent s : forallb addr_char s = true → split_char c_percent s = None.
Proof.
  intros Hs. apply split_char_None. rewrite forallb_Forall, Forall_forall in Hs.
  intros Hc%Hs%addr_char_facts. tauto.
Qed.

Lemma clean_addr s : forallb addr_char s = true → s ≠ [] → clean s.
Proof.
  intros Hs Hne. apply (clean_chars addr_char); [|done..].
  intros c Hc%addr_char_facts. tauto.
Qed.

(** A canonical text with the scope of the input behind it. *)
Lemma clean_scope s host rest :
  forallb addr_char s = true → s ≠ [] → clean (host ++ c_percent :: rest) →
  clean (s ++ c_percent :: rest).
Proof.
  intros Hs Hne (_ & [_ Hlast] & Hsemi). destruct (clean_addr s Hs Hne) as (_ & [Hh _] & Hs').
  split_and!; [by destruct s| |set_solver]. split; [by destruct s|].
  intros l c E. destruct rest as [|r rest _] using rev_ind.
  - apply app_inj_tail in E as [_ <-]. done.
  - rewrite app_comm_cons, app_assoc in E. apply app_inj_tail in E as [_ <-].
    eapply Hlast. by rewrite app_comm_cons, app_assoc.
Qed.

Section TidFacts.
Context `{Alloc} `{InetLaws}.

Lemma strdup_inv s c : strdup s = Some c → c = s ∧ strdup s = Some s.
Proof. unfold strdup. destruct (strdup_ok s); [|done]. by intros [= <-]. Qed.

(** The canonical IPv4 text is clean and its own canonical form. *)
Lemma canon_v4 a4 c :
  length a4 = 4%nat ∧ bytes a4 →
  match ntop4 a4 with
  | None => Err EINVAL
  | Some canon => match strdup canon with Some s => Ok s | None => Err ENOMEM end
  end = Ok c → clean c ∧ canon_ip c = Ok c.
Proof.
  intros Hl4 E. destruct (ntop4_pton a4 Hl4) as (s & Hs & Hp & Hch & Hne & Hl).
  rewrite Hs in E. destruct (strdup s) eqn:Ed; [|done]. injection E as <-.
  apply strdup_inv in Ed as [-> Ed]. split; [by apply clean_addr|].
  unfold canon_ip. rewrite no_percent by done. apply Nat.leb_gt in Hl. by rewrite Hl, Hp, Hs, Ed.
Qed.

(** Canonicalizing is idempotent, and keeps a field clean. *)
Lemma canon_ip_idem a c : canon_ip a = Ok c → clean a → clean c ∧ canon_ip c = Ok c.
Proof.
  unfold canon_ip at 1. intros E Hcl.
  destruct (split_char c_percent a) as [[host rest]|] eqn:Ep; destruct (_ <=? _)%nat; try done.
  - apply split_char_spec in Ep as [-> Hhost].
    destruct (pton4 host) as [a4|] eqn:E4; [by eapply canon_v4, E; eapply pton4_len|].
    destruct (pton6 host) as [a6|] eqn:E6; [|done].
    rewrite bool_decide_eq_true_2 in E by done. rewrite andb_false_r in E.
    destruct (ntop6_pton a6) as (s & Hs & Hp & Hp4 & Hch & Hne & Hl); [by eapply pton6_len|].
    rewrite Hs in E. cbn [default from_option id] in E.
    destruct (strdup (s ++ c_percent :: rest)) eqn:Ed; [|done]. injection E as <-.
    apply strdup_inv in Ed as [-> Ed]. split; [by eapply clean_scope|].
    unfold canon_ip. assert (split_char c_percent (s ++ c_percent :: rest) = Some (s, rest)) as ->.
    { apply split_char_spec. split; [done|]. by apply split_char_None, no_percent. }
    apply Nat.leb_gt in Hl. rewrite Hl, Hp4, Hp, Hs.
    rewrite bool_decide_eq_true_2 by done. rewrite andb_false_r.
    cbn [default from_option id]. by rewrite Ed.
  - destruct (pton4 a) as [a4|] eqn:E4; [by eapply canon_v4, E; eapply pton4_len|].
    destruct (pton6 a) as [a6|] eqn:E6; [|done]. pose proof (pton6_len _ _ E6) as Hl6.
    rewrite bool_decide_eq_false_2 in E by (by intros [? ?]). rewrite andb_true_r in E.
    destruct (v4mapped a6) eqn:Ev; [eapply canon_v4, E; rewrite length_drop; destruct Hl6; split;
      [lia|by apply bytes_drop]|].
    destruct (ntop6_pton a6 Hl6) as (s & Hs & Hp & Hp4 & Hch & Hne & Hl).
    rewrite Hs in E. cbn [default from_option id] in E. rewrite app_nil_r in E.
    destruct (strdup s) eqn:Ed; [|done]. injection E as <-.
    apply strdup_inv in Ed as [-> Ed]. split; [by apply clean_addr|].
    unfold canon_ip. rewrite no_percent by done. apply Nat.leb_gt in Hl.
    rewrite Hl, Hp4, Hp, Ev, Hs. cbn [andb default from_option id]. by rewrite app_nil_r, Ed.
Qed.

(** ** Fibre Channel names *)

Lemma scan_lit_inv l s r : scan_lit l s = Some r → s = l ++ r.
Proof.
  unfold scan_lit. case_bool_decide as E; [|done]. intros [= <-].
  by rewrite <- E at 1; rewrite take_drop.
Qed.

Lemma scan_hex16_inv s r :
  scan_hex16 s = Some r → ∃ h, s = h ++ r ∧ forallb isxdigit h = true.
Proof.
  unfold scan_hex16. destruct (_ =? _)%nat; [done|]. intros [= <-].
  exists (take_while isxdigit (take 16 s)). split; [|apply take_while_all].
  set (h := take_while isxdigit (take 16 s)).
  assert (Hh : take (length h) s = h).
  { unfold h. pose proof (take_take_while isxdigit (take 16 s)) as E. rewrite take_take in E.
    rewrite Nat.min_l in E; [done|].
    pose proof (take_while_length isxdigit (take 16 s)). rewrite length_take in *. lia. }
  by rewrite <- Hh at 1; rewrite take_drop.
Qed.

(** The characters of a valid name: no comma, blank or separator. *)
Definition fc_char (c : Z) : bool :=
  negb (isspace c) && negb (c =? c_semi) && negb (c =? c_comma).

Lemma hex_fc_char s : forallb isxdigit s = true → forallb fc_char s = true.
Proof.
  rewrite !forallb_Forall. intros Hs. eapply list.Forall_impl; [exact Hs|]. cbn beta.
  intros c. unfold fc_char, isxdigit, isdigit, isspace.
  rewrite !orb_true_iff, !andb_true_iff, !negb_true_iff, !orb_false_iff, !andb_false_iff. lia.
Qed.

Lemma fc_valid_chars s : fc_wwn_is_valid s = true → forallb fc_char s = true ∧ s ≠ [].
Proof.
  unfold fc_wwn_is_valid.
  destruct (scan_lit (lit "nn-0x") s) as [s1|] eqn:E1; cbn [mbind option_bind]; [|done].
  destruct (scan_hex16 s1) as [s2|] eqn:E2; cbn [mbind option_bind]; [|done].
  destruct (scan_lit (lit ":pn-0x") s2) as [s3|] eqn:E3; cbn [mbind option_bind]; [|done].
  destruct (scan_hex16 s3) as [[|]|] eqn:E4; [|done..]. intros _.
  apply scan_lit_inv in E1 as ->. apply scan_hex16_inv in E2 as (h & -> & Hh).
  apply scan_lit_inv in E3 as ->. apply scan_hex16_inv in E4 as (k & -> & Hk).
  split; [|done]. rewrite app_nil_r, !forallb_app, (hex_fc_char h), (hex_fc_char k) by done. reflexivity.
Qed.

Lemma fc_valid_clean s : fc_wwn_is_valid s = true → clean s ∧ fc_wwn_normalize s = s.
Proof.
  intros [Hs Hne]%fc_valid_chars. split.
  - apply (clean_chars fc_char); [|done..]. unfold fc_char. intros c Hc. to_prop. done.
  - unfold fc_wwn_normalize. destruct (split_char c_comma s) as [[a b]|] eqn:E; [|done].
    apply split_char_spec in E as [-> _]. rewrite forallb_app in Hs. by to_prop.
Qed.

(** ** Sanitizing is idempotent *)

Lemma canon_field_idem t f t' :
  canon_field t f = Ok t' → clean_tid t →
  clean_tid t' ∧ canon_field t' f = Ok t' ∧ ∀ g, g ≠ f → get t' g = get t g.
Proof.
  unfold canon_field. intros E Hc. destruct (get t f) as [a|] eqn:Ef.
  - apply bind_Ok in E as (c & Hcan & [= <-]).
    destruct (canon_ip_idem a c Hcan (Hc f a Ef)) as [Hcl Hid].
    split_and!; [by apply upd_clean| |].
    + rewrite get_upd, decide_True by done. rewrite Hid. cbn [mbind result_bind].
      f_equal. apply tid_ext; [|done..]. intros g. rewrite !get_upd. by case_decide.
    + intros g Hg. by rewrite get_upd, decide_False.
  - injection E as <-. by rewrite Ef.
Qed.

Lemma sanitize_idem t t' :
  tid_sanitize_addr t = Ok t' → clean_tid t → clean_tid t' ∧ tid_sanitize_addr t' = Ok t'.
Proof.
  unfold tid_sanitize_addr. intros E Hc.
  destruct (transport t) as [tr|] eqn:Et; [|injection E as <-; by rewrite Et].
  destruct (str_eqb tr (lit "fc")) eqn:Efc.
  - cbv zeta in E. set (t1 := upd (upd t Traddr _) HostTraddr _) in E.
    destruct (match traddr t1 with Some a => _ | None => _ end) eqn:E1; [done|].
    destruct (match host_traddr t1 with Some a => _ | None => _ end) eqn:E2; [done|].
    injection E as <-.
    assert (Htr : transport t1 = Some tr) by done.
    assert (Hfix : ∀ f a, get t1 f = Some a → f = Traddr ∨ f = HostTraddr →
      clean a ∧ fc_wwn_normalize a = a).
    { intros f a Ha [-> | ->]; apply fc_valid_clean.
      - change (traddr t1 = Some a) in Ha. rewrite Ha in E1. by apply negb_false_iff.
      - change (host_traddr t1 = Some a) in Ha. rewrite Ha in E2. by apply negb_false_iff. }
    split.
    + intros f a Ha. destruct (decide (f = Traddr ∨ f = HostTraddr)); [by apply (Hfix f a)|].
      apply (Hc f). rewrite <- Ha. subst t1. rewrite !get_upd, !decide_False; tauto.
    + rewrite Htr, Efc. cbv zeta.
      assert (Hn : ∀ f, f = Traddr ∨ f = HostTraddr → fc_wwn_normalize <$> get t1 f = get t1 f).
      { intros f Hf. destruct (get t1 f) as [a|] eqn:Ea; [|done]. cbn. f_equal.
        by apply (Hfix f a). }
      assert (Hu1 : upd t1 Traddr (fc_wwn_normalize <$> traddr t1) = t1).
      { change (traddr t1) with (get t1 Traddr). rewrite Hn by tauto. apply upd_same. }
      assert (Hu2 : upd t1 HostTraddr (fc_wwn_normalize <$> host_traddr t1) = t1).
      { change (host_traddr t1) with (get t1 HostTraddr). rewrite Hn by tauto. apply upd_same. }
      by rewrite !Hu1, !Hu2, E1, E2.
  - destruct (negb _ && negb _) eqn:Eip; [injection E as <-; by rewrite Et, Efc, Eip|].
    apply bind_Ok in E as (t1 & E1 & E2).
    destruct (canon_field_idem _ _ _ E1 Hc) as (Hc1 & Hi1 & Hg1).
    destruct (canon_field_idem _ _ _ E2 Hc1) as (Hc2 & Hi2 & Hg2).
    split; [done|].
    assert (transport t' = Some tr) as ->.
    { change (get t' Transport = Some tr). by rewrite Hg2, Hg1. }
    rewrite Efc, Eip. apply bind_Ok. exists t'. split; [|done].
    revert Hi1. unfold canon_field. rewrite (Hg2 Traddr) by done.
    destruct (get t1 Traddr) as [a|] eqn:Ea; [|done]. rewrite !bind_Ok.
    intros (c & Hcan & Hu). exists c. split; [done|]. f_equal. apply tid_ext; [|done..].
    intros g. rewrite get_upd. case_decide; [|done]. subst g. rewrite (Hg2 Traddr), Ea by done.
    injection Hu as Hu. apply (f_equal (λ t, get t Traddr)) in Hu.
    rewrite get_upd, decide_True, Ea in Hu by done. congruence.
Qed.

End TidFacts.

(** ** The canonical form as a specification *)

Fixpoint join (c : Z) (l : list (list Z)) : list Z :=
  match l with
  | [] => []
  | [s] => s
  | s :: l' => s ++ c :: join c l'
  end.

(** "key=value" of a field that is set. *)
Definition seg (t : libnvmf_tid) (f : field) : option (list Z) :=
  (λ v, key_of f ++ c_eq :: v) <$> get t f.

Definition segs (t : libnvmf_tid) (fs : list field) : list (list Z) := omap (seg t) fs.

(** All set fields, joined with [;], however long. *)
Definition canonical_full (t : libnvmf_tid) : list Z := join c_semi (segs t all_fields).

Lemma join_cons c s l : l ≠ [] → join c (s :: l) = s ++ c :: join c l.
Proof. by destruct l. Qed.

Lemma join_snoc c l s :
  join c (l ++ [s]) = join c l ++ (if decide (l = []) then [] else [c]) ++ s.
Proof.
  induction l as [|x l IH]; [done|]. cbn [app].
  rewrite join_cons by (by destruct l). rewrite IH.
  destruct (decide (l = [])) as [->|Hl]; [done|].
  rewrite (join_cons c x l), decide_False by done. by rewrite <- app_assoc.
Qed.

Lemma fields_join c l : l ≠ [] → Forall (λ s, c ∉ s) l → fields c (join c l) = l.
Proof.
  intros Hne Hl. induction Hl as [|s l Hs Hl IH]; [done|].
  destruct (decide (l = [])) as [->|Hl']; [by apply fields_single|].
  rewrite join_cons by done. rewrite fields_sep by done. by rewrite IH.
Qed.

Lemma strtok_join c l :
  Forall (λ s, s ≠ [] ∧ (c ∉ s)) l → strtok c (join c l) = l.
Proof.
  intros Hl. destruct (decide (l = [])) as [->|Hne]; [done|]. unfold strtok.
  rewrite fields_join; [|done|by eapply list.Forall_impl; [exact Hl|naive_solver]].
  clear Hne. induction Hl as [|s l [Hs _] _ IH]; [done|]. cbn [List.filter].
  destruct s; [done|]. by rewrite IH.
Qed.

(** The running buffer of [libnvmf_tid_get_canonical] against the segments
    seen so far. *)
Definition canon_inv (st : list Z * nat) (acc : list (list Z)) : Prop :=
  Forall (λ s, s ≠ []) acc ∧
  fst st = take (CANONICAL_MAX - 1) (join c_semi acc) ∧
  (snd st = length (join c_semi acc) ∨
   (CANONICAL_MAX ≤ snd st ∧ CANONICAL_MAX ≤ length (join c_semi acc))%nat).

Lemma join_nil_iff acc : Forall (λ s : list Z, s ≠ []) acc → length (join c_semi acc) = 0%nat → acc = [].
Proof.
  intros Hacc. destruct Hacc as [|s acc Hs _]; [done|].
  destruct acc; [by destruct s|]. rewrite join_cons, length_app by done. simpl. lia.
Qed.

Lemma canonical_append_inv t st acc f :
  canon_inv st acc → canon_inv (canonical_append t st f) (acc ++ segs t [f]).
Proof.
  destruct st as [buf n]. unfold segs, seg, canonical_append. cbn [omap list_omap].
  intros (Hacc & Hbuf & Hn). simpl in Hbuf, Hn.
  destruct (get t f) as [v|]; cbn [fmap option_fmap option_map];
    [|rewrite app_nil_r; by split_and!].
  assert (Hseg : key_of f ++ c_eq :: v ≠ []) by (by destruct f).
  set (s := key_of f ++ c_eq :: v) in *.
  assert (Hacc' : Forall (λ s, s ≠ []) (acc ++ [s])) by (apply Forall_app; by repeat constructor).
  change (key_of f ++ [c_eq] ++ v) with s. unfold canon_inv. rewrite join_snoc.
  assert (Hlen : (length (join c_semi acc) ≤ length (join c_semi acc ++ (if decide (acc = [])
    then [] else [c_semi]) ++ s))%nat) by (rewrite length_app; lia).
  unfold CANONICAL_MAX in *. destruct (Nat.ltb_spec n 1024).
  - destruct Hn as [Hn|?]; [|lia]. rewrite <- Hn in *. unfold snprintf_at. cbn [fst snd].
    assert ((if (n =? 0)%nat then [] else [c_semi]) = if decide (acc = []) then [] else [c_semi]) as ->.
    { destruct (decide (acc = [])) as [->|Hne]; [by rewrite Hn|].
      destruct (Nat.eqb_spec n 0); [|done]. destruct Hne. apply join_nil_iff; [done|lia]. }
    split_and!; [done| |left; rewrite !length_app; lia].
    set (r := _ ++ s). rewrite Hbuf, take_take, take_app, <- Hn. unfold CANONICAL_MAX.
    f_equal; [|f_equal; lia]. rewrite Hn in *. rewrite !take_ge; [done|lia..].
  - split_and!; [done| |].
    + rewrite Hbuf. rewrite take_app_le; [done|]. simpl. lia.
    + right. simpl. rewrite length_app. lia.
Qed.

Lemma segs_app t a b : segs t (a ++ b) = segs t a ++ segs t b.
Proof. apply omap_app. Qed.

Lemma canonical_fold t fs st acc :
  canon_inv st acc → canon_inv (foldl (canonical_append t) st fs) (acc ++ segs t fs).
Proof.
  revert st acc. induction fs as [|f fs IH]; intros st acc Hi; cbn [foldl].
  { by rewrite app_nil_r. }
  change (f :: fs) with ([f] ++ fs). rewrite segs_app, app_assoc. apply IH. by apply canonical_append_inv.
Qed.

(** The canonical text is the joined fields, cut at the buffer's size. *)
Lemma canonical_text_spec t : canonical_text t = take (CANONICAL_MAX - 1) (canonical_full t).
Proof.
  unfold canonical_text. apply (canonical_fold t all_fields ([], 0%nat) []).
  split_and!; [done|done|by left].
Qed.

(** ** Parsing the canonical form *)

Lemma field_of_key f : field_of (key_of f) = Some f.
Proof. by destruct f. Qed.

Lemma key_facts f : trimmed (key_of f) ∧ (c_eq ∉ key_of f) ∧ (c_semi ∉ key_of f).
Proof.
  assert (A : forallb (λ c, negb (isspace c) && negb (c =? c_eq) && negb (c =? c_semi)) (key_of f) = true)
    by (by destruct f).
  rewrite forallb_Forall, Forall_forall in A. split_and!.
  - split; [by destruct f|]. intros l c E. specialize (A c). rewrite E in A.
    assert (c ∈ l ++ [c]) as Hc by set_solver. apply A in Hc. by to_prop.
  - intros Hc%A. by to_prop.
  - intros Hc%A. by to_prop.
Qed.

(** Memory suffices. *)
Class AllocOk `{Alloc} : Prop := {
  strdup_all s : strdup_ok s = true;
  tid_new_all : tid_new_ok = true }.

Section Parse.
Context `{AllocOk} `{InetLaws}.

Lemma strdup_id s : strdup s = Some s.
Proof. unfold strdup. by rewrite strdup_all. Qed.

Lemma parse_token_seg strict t f v :
  clean v → parse_token strict t (key_of f ++ c_eq :: v) = (upd t f (Some v), false, false).
Proof.
  intros (Hne & Htr & Hs). unfold parse_token. destruct (key_facts f) as (Hk & Heq & _).
  assert (split_char c_eq (key_of f ++ c_eq :: v) = Some (key_of f, v)) as ->.
  { by apply split_char_spec. }
  rewrite !shr_trim_id, field_of_key, strdup_id by done. apply nonempty_spec in Hne. by rewrite Hne.
Qed.

(** The fields of [t] in [fs], written over [t0]. *)
Definition overlay (t t0 : libnvmf_tid) (fs : list field) : libnvmf_tid :=
  foldl (λ u f, match get t f with Some v => upd u f (Some v) | None => u end) t0 fs.

Lemma parse_tokens_segs strict t t0 fs :
  clean_tid t → parse_tokens strict t0 (segs t fs) = (overlay t t0 fs, false, false).
Proof.
  intros Hc. revert t0. induction fs as [|f fs IH]; intros t0; [done|].
  unfold segs, overlay, seg in *. cbn [omap list_omap foldl].
  destruct (get t f) as [v|] eqn:Ev; cbn [fmap option_fmap option_map]; [|apply IH].
  cbn [parse_tokens]. rewrite parse_token_seg by (by eapply Hc). cbn [orb]. apply IH.
Qed.

Lemma overlay_get t t0 fs f :
  get (overlay t t0 fs) f = if decide (f ∈ fs ∧ is_Some (get t f)) then get t f else get t0 f.
Proof.
  revert t0. induction fs as [|g fs IH]; intros t0; cbn [overlay foldl].
  { rewrite decide_False; [done|]. set_solver. }
  unfold overlay in IH. rewrite IH. destruct (get t g) as [v|] eqn:Ev.
  - rewrite get_upd. destruct (decide (f = g)) as [->|Hne].
    + rewrite Ev. destruct (decide (g ∈ g :: fs ∧ is_Some (Some v))) as [_|Hn].
      * clear IH. by case_match.
      * destruct Hn. split; [set_solver|by eexists].
    + apply decide_ext. set_solver.
  - apply decide_ext. rewrite elem_of_cons. split; [naive_solver|].
    intros [[->|?] Hs]; [|done]. rewrite Ev in Hs. by destruct Hs.
Qed.

Lemma overlay_all t :
  canonical_cache t = None → str_cache t = None → overlay t tid_null all_fields = t.
Proof.
  intros Hc Hs. assert (Hcache : ∀ fs t0, canonical_cache (overlay t t0 fs) = canonical_cache t0 ∧
    str_cache (overlay t t0 fs) = str_cache t0).
  { induction fs as [|f fs IH]; intros t0; [done|]. cbn [overlay foldl]. unfold overlay in IH.
    destruct (IH (match get t f with Some v => upd t0 f (Some v) | None => t0 end)) as [-> ->].
    by destruct (get t f). }
  destruct (Hcache all_fields tid_null) as [E1 E2].
  apply tid_ext; [|by rewrite E1|by rewrite E2].
  intros f. rewrite overlay_get. case_decide as Hd; [done|].
  destruct (get t f) as [v|] eqn:Ev; [|by destruct f].
  destruct Hd. split; [|done]. destruct f; set_solver.
Qed.

Lemma segs_clean t fs :
  clean_tid t → Forall (λ s, s ≠ [] ∧ (c_semi ∉ s)) (segs t fs).
Proof.
  intros Hc. apply Forall_forall. intros s Hs. apply list_elem_of_omap in Hs as (f & _ & Hf).
  unfold seg in Hf. destruct (get t f) as [v|] eqn:Ev; [|done]. injection Hf as <-.
  destruct (Hc f v Ev) as (_ & _ & Hv). destruct (key_facts f) as (_ & _ & Hk).
  split; [by destruct f|]. set_solver.
Qed.

(** A clean, sanitized TID is read back from its canonical form. *)
Lemma parse_canonical strict t :
  clean_tid t → tid_sanitize_addr t = Ok t → canonical_cache t = None → str_cache t = None →
  tid_parse strict (Some (canonical_full t)) = Ok t.
Proof.
  intros Hc Hs Hcc Hsc. unfold tid_parse. rewrite tid_new_all, strdup_id. cbn [negb].
  unfold canonical_full. rewrite strtok_join by (by apply segs_clean).
  by rewrite parse_tokens_segs, overlay_all.
Qed.

Lemma parse_token_clean strict t tok t' bad oom :
  c_semi ∉ tok → clean_tid t → canonical_cache t = None → str_cache t = None →
  parse_token strict t tok = (t', bad, oom) →
  clean_tid t' ∧ canonical_cache t' = None ∧ str_cache t' = None.
Proof.
  intros Hs Hc Hcc Hsc. unfold parse_token.
  destruct (split_char c_eq tok) as [[k v]|] eqn:Ek; [|by intros [= <- <- <-]].
  destruct (negb (nonempty (shr_trim v))) eqn:Ev; [by intros [= <- <- <-]|].
  destruct (field_of (shr_trim k)) as [f|]; [|by intros [= <- <- <-]].
  rewrite strdup_id. intros [= <- <- <-]. split; [|done]. apply upd_clean; [done|].
  apply split_char_spec in Ek as [-> _]. apply negb_false_iff, nonempty_spec in Ev.
  split_and!; [done|apply shr_trim_trimmed|]. intros Hv%shr_trim_elem. set_solver.
Qed.

Lemma fields_no_sep c s : Forall (λ f, c ∉ f) (fields c s).
Proof.
  induction s as [|x s IH]; cbn [fields]; [by repeat constructor; set_solver|].
  destruct (Z.eqb_spec x c); [constructor; [set_solver|done]|].
  destruct (fields c s) as [|f fs]; [constructor; [set_solver|done]|].
  inversion IH; subst. constructor; [set_solver|done].
Qed.

Lemma parse_tokens_clean strict toks t t' bad oom :
  Forall (λ f, c_semi ∉ f) toks → clean_tid t → canonical_cache t = None → str_cache t = None →
  parse_tokens strict t toks = (t', bad, oom) →
  clean_tid t' ∧ canonical_cache t' = None ∧ str_cache t' = None.
Proof.
  intros Ht. revert t. induction Ht as [|tok toks Htok _ IH]; intros t Hc Hcc Hsc; cbn [parse_tokens].
  { by intros [= <- <- <-]. }
  destruct (parse_token strict t tok) as [[t1 b1] o1] eqn:E.
  destruct (parse_token_clean _ _ _ _ _ _ Htok Hc Hcc Hsc E) as (? & ? & ?).
  destruct (b1 || o1); [by intros [= <- <- <-]|]. by apply IH.
Qed.

Lemma canon_field_caches t f t' :
  canon_field t f = Ok t' → canonical_cache t' = canonical_cache t ∧ str_cache t' = str_cache t.
Proof.
  unfold canon_field. destruct (get t f); [|by intros [= <-]].
  rewrite bind_Ok. by intros (c & _ & [= <-]).
Qed.

Lemma sanitize_caches t t' :
  tid_sanitize_addr t = Ok t' → canonical_cache t' = canonical_cache t ∧ str_cache t' = str_cache t.
Proof.
  unfold tid_sanitize_addr. destruct (transport t); [|by intros [= <-]].
  destruct (str_eqb _ (lit "fc")).
  { cbv zeta. repeat case_match; intros; by simplify_eq. }
  destruct (_ && _); [by intros [= <-]|]. rewrite bind_Ok.
  intros (t1 & [E1 E2]%canon_field_caches & [-> ->]%canon_field_caches). done.
Qed.

(** What a parse yields. *)
Lemma tid_parse_clean strict s t :
  tid_parse strict (Some s) = Ok t →
  clean_tid t ∧ tid_sanitize_addr t = Ok t ∧ canonical_cache t = None ∧ str_cache t = None.
Proof.
  unfold tid_parse. rewrite tid_new_all, strdup_id. cbn [negb].
  destruct (parse_tokens strict tid_null (strtok c_semi s)) as [[t0 bad] oom] eqn:E.
  apply parse_tokens_clean in E as (Hc & Hcc & Hsc); [|unfold strtok|by intros []|done..].
  2:{ apply Forall_forall. intros f Hf. rewrite list_elem_of_In, filter_In, <- list_elem_of_In in Hf.
      destruct Hf as [Hf _]. revert f Hf. apply Forall_forall, fields_no_sep. }
  destruct oom, bad; try done. intros Hs. destruct (sanitize_idem _ _ Hs Hc) as [? ?].
  apply sanitize_caches in Hs as [-> ->]. done.
Qed.

End Parse.

(** ** Instances

    Memory that never fails, and an address conversion whose text form is the
    address in hexadecimal. *)
Definition all_memory : Alloc := {| strdup_ok := λ _, true; tid_new_ok := true |}.

#[export] Instance all_memory_ok : @AllocOk all_memory.
Proof. by split. Qed.

Definition hex_pton (n : nat) (s : list Z) : option (list Z) :=
  a ← HexSpec.pairs s; if (length a =? n)%nat then Some a else None.

Definition hex_inet : Inet :=
  {| pton4 := hex_pton 4; ntop4 := λ a, Some (concat_map (hex2 0) a);
     pton6 := hex_pton 16; ntop6 := λ a, Some (concat_map (hex2 0) a) |}.

Lemma pairs_bytes s a : HexSpec.pairs s = Some a → bytes a.
Proof.
  revert a. induction s as [|x|h l s IH] using pair_ind; intros a; [intros [= <-]; apply bytes_nil|done|].
  intros (r & Hh & Hl & Hr & ->)%pairs_cons2. apply bytes_cons. split; [|by apply IH].
  pose proof (shr_hex_to_int_range h). pose proof (shr_hex_to_int_range l). unfold is_byte. lia.
Qed.

Lemma hex2_chars b : is_byte b → forallb addr_char (hex2 0 b) = true.
Proof.
  unfold is_byte. intros Hb. assert (A : ∀ d, 0 ≤ d < 16 →
    addr_char (char_at (hex_digits 0) (Z.to_nat d)) = true).
  { intros d Hd. assert (E : Z.to_nat d ∈ seq 0 16) by (apply elem_of_seq; lia).
    revert E. generalize (Z.to_nat d). apply Forall_forall. vm_compute. by repeat constructor. }
  unfold hex2. cbn [forallb]. rewrite !A by divmod. done.
Qed.

Lemma hex_text a :
  bytes a → HexSpec.pairs (concat_map (hex2 0) a) = Some a ∧
  forallb addr_char (concat_map (hex2 0) a) = true ∧
  length (concat_map (hex2 0) a) = (2 * length a)%nat.
Proof.
  intros Ha. pose proof (pairs_encode 0 a Ha) as Hp. split_and!; [done| |by apply pairs_length].
  clear Hp. induction Ha as [|b a Hb Ha IH]; [done|]. cbn [concat_map].
  by rewrite forallb_app, hex2_chars.
Qed.

#[export] Instance hex_inet_laws : @InetLaws hex_inet.
Proof.
  split; cbn [pton4 pton6 ntop4 ntop6 hex_inet]; unfold hex_pton.
  - intros s a. destruct (HexSpec.pairs s) as [b|] eqn:E; [|done]. cbn [mbind option_bind].
    destruct (Nat.eqb_spec (length b) 4); [|done]. intros [= <-]. split; [done|by eapply pairs_bytes].
  - intros s a. destruct (HexSpec.pairs s) as [b|] eqn:E; [|done]. cbn [mbind option_bind].
    destruct (Nat.eqb_spec (length b) 16); [|done]. intros [= <-]. split; [done|by eapply pairs_bytes].
  - intros a [Hl Ha]. destruct (hex_text a Ha) as (Hp & Hc & Hn). eexists. split_and!; [done| |done| |].
    + rewrite Hp. cbn [mbind option_bind]. by rewrite Hl.
    + intros E. rewrite E in Hn. simpl in Hn. lia.
    + rewrite Hn, Hl. unfold INET6_ADDRSTRLEN. lia.
  - intros a [Hl Ha]. destruct (hex_text a Ha) as (Hp & Hc & Hn).
    eexists. split_and!; [done| | |done| |].
    + rewrite Hp. cbn [mbind option_bind]. by rewrite Hl.
    + rewrite Hp. cbn [mbind option_bind]. by rewrite Hl.
    + intros E. rewrite E in Hn. simpl in Hn. lia.
    + rewrite Hn, Hl. unfold INET6_ADDRSTRLEN. lia.
Qed.

(** ** Properties *)

(** C3: Canonical form and parser agree: any TID that parsing a string
    yields, strictly or leniently, is read back unchanged, by either parser,
    from its canonical form, as long as that form fits [CANONICAL_MAX].  It is
    assumed that there is memory ([AllocOk]) and of [inet_pton] and
    [inet_ntop] the laws of [InetLaws]. *)
Theorem tid_canonical_roundtrip `{AllocOk} `{InetLaws} strict strict' s t :
  tid_parse strict (Some s) = Ok t →
  (length (canonical_full t) < CANONICAL_MAX)%nat →
  tid_parse strict' (snd (libnvmf_tid_get_canonical t)) = Ok t.
Proof.
  intros (Hc & Hs & Hcc & Hsc)%tid_parse_clean Hl. unfold libnvmf_tid_get_canonical.
  rewrite Hcc. cbn [snd]. rewrite strdup_id, canonical_text_spec, take_ge by lia.
  by apply parse_canonical.
Qed.

Lemma tid_canonical_roundtrip_witness :
  @libnvmf_tid_parse_strict all_memory hex_inet
    (Some (lit "transport=tcp;traddr=0a000001;trsvcid=8009;nqn=nqn.2014-08.org.nvmexpress.discovery")) =
  @libnvmf_tid_parse all_memory hex_inet
    (Some (lit " trsvcid = 8009 ;nqn=nqn.2014-08.org.nvmexpress.discovery;;transport=tcp; junk;traddr=0A000001")).
Proof.
  symmetry. etransitivity; [|symmetry; apply (@tid_canonical_roundtrip all_memory _ hex_inet _ false true
    (lit " trsvcid = 8009 ;nqn=nqn.2014-08.org.nvmexpress.discovery;;transport=tcp; junk;traddr=0A000001")
    {| transport := Some (lit "tcp"); traddr := Some (lit "0a000001"); trsvcid := Some (lit "8009");
       subsysnqn := Some (lit "nqn.2014-08.org.nvmexpress.discovery"); host_traddr := None;
       host_iface := None; hostnqn := None; hostid := None;
       canonical_cache := None; str_cache := None |})].
  - vm_compute. reflexivity.
  - vm_compute. reflexivity.
  - vm_compute. lia.
Defined.

Lemma shr_xstrdup_ok `{Alloc} s : copy_failed s (shr_xstrdup s) = false → shr_xstrdup s = s.
Proof.
  destruct s as [s|]; [|done]. cbn [shr_xstrdup mbind option_bind]. unfold strdup.
  by destruct (strdup_ok s).
Qed.

Lemma commit_identity_get t s n i d :
  let t' := commit_identity t s n i d in
  (∀ f, f ∈ [Transport; Traddr; Trsvcid; HostTraddr; HostIface] → get t' f = get t f) ∧
  subsysnqn t' = (match s with Some _ => s | None => subsysnqn t end) ∧
  hostnqn t' = (match n with Some _ => n | None => hostnqn t end) ∧
  hostid t' = (match i with
               | Some _ => i
               | None => match d with Some _ => d | None => hostid t end
               end) ∧
  canonical_cache t' = None ∧ str_cache t' = None.
Proof.
  cbv zeta. unfold commit_identity. destruct s, n, i, d; split_and!; try done;
    intros f Hf; destruct f; (done || set_solver).
Qed.

(** [libnvmf_tid_set_identity] is all or nothing: with any error, EINVAL
    for a host ID without a host NQN or ENOMEM, the TID is untouched; on
    success the addressing fields are unchanged, the cached renderings are
    dropped, each NULL argument keeps its field, a missing host ID is derived
    from the host NQN, and a TID with a host ID has a host NQN. *)
Theorem tid_set_identity_spec `{Alloc} t s n i t' e :
  libnvmf_tid_set_identity t s n i = (t', e) →
  match e with
  | Some e =>
      t' = t ∧ (e = EINVAL ∨ e = ENOMEM) ∧
      (e = EINVAL ↔ n = None ∧ hostnqn t = None ∧ is_Some (match i with Some _ => i | None => hostid t end))
  | None =>
      (∀ f, f ∈ [Transport; Traddr; Trsvcid; HostTraddr; HostIface] → get t' f = get t f) ∧
      canonical_cache t' = None ∧ str_cache t' = None ∧
      subsysnqn t' = (match s with Some _ => s | None => subsysnqn t end) ∧
      hostnqn t' = (match n with Some _ => n | None => hostnqn t end) ∧
      hostid t' = (match (match i with Some _ => i | None => hostid t end) with
                   | Some h => Some h
                   | None => hostnqn t' ≫= libnvme_hostid_from_hostnqn
                   end) ∧
      (is_Some (hostid t') → is_Some (hostnqn t'))
  end.
Proof.
  unfold libnvmf_tid_set_identity. cbv zeta.
  set (nqn := match n with Some _ => n | None => hostnqn t end).
  set (id := match i with Some _ => i | None => hostid t end).
  set (derived := match id, nqn with None, Some n => _ | _, _ => None end).
  set (eid := match id with Some _ => id | None => derived end).
  assert (Hnn : nqn = None ↔ n = None ∧ hostnqn t = None) by (subst nqn; destruct n; naive_solver).
  destruct (match eid with Some _ => bool_decide (nqn = None) | None => false end) eqn:Ebad.
  - assert (∃ h, eid = Some h) as [h Eh] by (destruct eid; [by eexists|done]). rewrite Eh in Ebad |- *.
    apply bool_decide_eq_true in Ebad. rewrite Ebad. intros [= <- <-].
    split_and!; [done|by left|]. split; [|done]. intros _.
    destruct (proj1 Hnn Ebad). split_and!; [done..|].
    subst eid derived. rewrite Ebad in Eh. destruct id; [by eexists|done].
  - assert (Hgo : ∀ (A B : libnvmf_tid * option errno),
      match eid, nqn with Some _, None => A | _, _ => B end = B).
    { intros A B. destruct eid, nqn; [done| |done..]. by rewrite bool_decide_eq_true_2 in Ebad. }
    rewrite Hgo. clear Hgo.
    destruct (_ || _) eqn:Ef.
    + intros [= <- <-]. split_and!; [done|by right|]. split; [done|].
      intros (H1 & H2 & H3). exfalso. assert (nqn = None) as En by tauto. rewrite En in *.
      subst eid. rewrite bool_decide_eq_true_2 in Ebad by done. by destruct id; [|destruct H3].
    + to_prop. rewrite !shr_xstrdup_ok by done. intros [= <- <-].
      destruct (commit_identity_get t s n i derived) as (Ha & Hs & Hn & Hi & Hc1 & Hc2).
      assert (Hid : hostid (commit_identity t s n i derived) = eid).
      { rewrite Hi. subst eid derived id. destruct i; [done|].
        destruct (hostid t); [done|]. destruct nqn as [x|]; [|done].
        by destruct (libnvme_hostid_from_hostnqn x). }
      rewrite Hid, Hn. fold nqn. split_and!; try done.
      * subst eid derived. destruct id; [done|]. by destruct nqn.
      * intros [h Eh]. rewrite Eh in Ebad. apply bool_decide_eq_false in Ebad.
        by apply not_eq_None_Some.
Qed.

Lemma tid_set_identity_spec_witness :
  let nqn := lit "nqn.2014-08.org.nvmexpress:uuid:11" in
  hostid (fst (@libnvmf_tid_set_identity all_memory tid_null None (Some nqn) None)) =
  Some (lit "11").
Proof.
  pose proof (@tid_set_identity_spec all_memory tid_null None
    (Some (lit "nqn.2014-08.org.nvmexpress:uuid:11")) None _ None eq_refl) as H.
  apply H.
Defined.
