(* ===== verification/DTid.v ===== *)
(** * TIDs in the discovery daemon: [discoverd/src/tid.c], [discoverd/src/tid.h]

    And the comparison of IP addresses of [shared/net-util-linux.c] they use.
    The interface list of [getifaddrs] is a list of entries. *)

From Stdlib Require Import String.
From stdpp Require Import base list numbers sets.
From S2P Require Import Prelude.
From S2P Require Import CStr.
From S2P Require Import Nqn.
From S2P Require Import Tid.

(** ** IP addresses: [shared/net-util-linux.c] *)

(** An address of the families the code compares, or of another family.  The
    scope id of an IPv6 address takes no part in the comparisons. *)
Inductive sockaddr := SaIn (a : list Z) | SaIn6 (a : list Z) | SaOther.

Record ifaddrs := { ifa_name : list Z; ifa_addr : option sockaddr }.

(** [IN6_IS_ADDR_LINKLOCAL]: fe80::/10. *)
Definition link_local (a : list Z) : bool :=
  (char_at a 0 =? 254) && (Z.land (char_at a 1) 192 =? 128).

Definition sockaddr_copy (a : sockaddr) : option sockaddr :=
  match a with SaOther => None | _ => Some a end.

Definition sockaddrs_eq (a1 a2 : sockaddr) : bool :=
  match a1, a2 with
  | SaIn x, SaIn y => bool_decide (x = y)
  | SaIn6 x, SaIn6 y => bool_decide (x = y)
  | SaIn x, SaIn6 y => v4mapped y && bool_decide (x = drop 12 y)
  | SaIn6 x, SaIn y => v4mapped x && bool_decide (y = drop 12 x)
  | _, _ => false
  end.

Definition same_family (a1 a2 : sockaddr) : bool :=
  match a1, a2 with
  | SaIn _, SaIn _ | SaIn6 _, SaIn6 _ | SaOther, SaOther => true
  | _, _ => false
  end.

Section Net.
Context `{Alloc} `{Inet}.

Definition parse_numeric_addr (addr : list Z) : result sockaddr :=
  match pton4 addr with
  | Some a => Ok (SaIn a)
  | None =>
      match strdup addr with
      | None => Err ENOMEM
      | Some tmp =>
          let host := match split_char c_percent tmp with Some (h, _) => h | None => tmp end in
          match pton6 host with
          | Some a => Ok (SaIn6 a)
          | None => Err EINVAL
          end
      end
  end.

(** The pointers are those of two TIDs: equal only when both are NULL. *)
Definition shr_ipaddrs_eq (addr1 addr2 : option (list Z)) : bool :=
  match addr1, addr2 with
  | None, None => true
  | Some a1, Some a2 =>
      match parse_numeric_addr a1, parse_numeric_addr a2 with
      | Ok sa1, Ok sa2 => sockaddrs_eq sa1 sa2
      | _, _ => false
      end
  | _, _ => false
  end.

Definition shr_ipv6_is_link_local (addr : option (list Z)) : bool :=
  match addr with
  | None => false
  | Some addr =>
      let len := strcspn addr [c_percent] in
      if (INET6_ADDRSTRLEN <=? len)%nat then false
      else match pton6 (take len addr) with Some a => link_local a | None => false end
  end.

Definition shr_iface_matching_addr (iface_list : list ifaddrs) (addr : option (list Z)) :
    option (list Z) :=
  match iface_list, addr with
  | [], _ | _, None => None
  | _, Some addr =>
      match parse_numeric_addr addr with
      | Err _ => None
      | Ok sa =>
          ifa_name <$> List.find (λ i,
            match ifa_addr i ≫= sockaddr_copy with
            | Some a => sockaddrs_eq sa a
            | None => false
            end) iface_list
      end
  end.

Definition shr_iface_primary_addr_matches (iface_list : list ifaddrs) (iface : list Z)
    (addr : option (list Z)) : bool :=
  match iface_list, addr with
  | [], _ | _, None => false
  | _, Some addr =>
      match parse_numeric_addr addr with
      | Err _ => false
      | Ok sa =>
          match List.find (λ i, str_eqb iface (ifa_name i) &&
                  match ifa_addr i with Some a => same_family a sa | None => false end)
                iface_list with
          | Some i =>
              match ifa_addr i ≫= sockaddr_copy with
              | Some a => sockaddrs_eq sa a
              | None => false
              end
          | None => false
          end
      end
  end.

(** ** [discoverd/src/tid.c] *)

(** [libnvmf_get_default_trsvcid] of [libnvme/src/nvme/fabrics.c]. *)
Definition libnvmf_get_default_trsvcid (transport : option (list Z)) (discovery_ctrl : bool) :
    option (list Z) :=
  match transport with
  | None => None
  | Some t =>
      if str_eqb t (lit "tcp") then Some (if discovery_ctrl then lit "8009" else lit "4420")
      else if str_eqb t (lit "rdma") then Some (lit "4420")
      else None
  end.

(** NULL when [libnvmf_tid_from_fields] fails: it clears its out parameter. *)
Definition tid_new (src : field → option (list Z)) (is_dc : bool) : option libnvmf_tid :=
  let svc := match src Trsvcid with
             | Some (_ :: _) => src Trsvcid
             | _ => libnvmf_get_default_trsvcid (src Transport) is_dc
             end in
  match libnvmf_tid_from_fields (λ f, if decide (f = Trsvcid) then svc else src f) with
  | Ok t => Some t
  | Err _ => None
  end.

Definition tid_set_default_host_if_unset (tid : libnvmf_tid) (nqn id : option (list Z)) :
    libnvmf_tid * option errno :=
  match hostnqn tid with
  | Some _ => (tid, None)
  | None =>
      let id := match hostid tid with Some _ => None | None => id end in
      libnvmf_tid_set_identity tid None nqn id
  end.

Definition tid_addr_eq (ip : bool) (a b : option (list Z)) : bool :=
  if ip then shr_ipaddrs_eq a b else shr_streq0 a b.

Definition tcp_host_side_matches (cand_traddr cand_iface : option (list Z))
    (existing : libnvmf_tid) (existing_live : bool) (iface_list : list ifaddrs) : bool :=
  match host_traddr existing with
  | None =>
      match host_iface existing with
      | Some iface =>
          (match cand_iface with Some _ => shr_streq0 cand_iface (Some iface) | None => true end) &&
          (match cand_traddr with
           | Some _ => shr_iface_primary_addr_matches iface_list iface cand_traddr
           | None => true
           end)
      | None => existing_live
      end
  | Some src =>
      (match cand_traddr with Some _ => shr_ipaddrs_eq cand_traddr (Some src) | None => true end) &&
      (match cand_iface with
       | Some _ => shr_streq0 cand_iface (shr_iface_matching_addr iface_list (Some src))
       | None => true
       end)
  end.

Definition tid_link_local_scope (t : libnvmf_tid) : option (list Z) :=
  match traddr t ≫= split_char c_percent with
  | Some (_, scope) => if shr_ipv6_is_link_local (traddr t) then Some scope else None
  | None => None
  end.

Definition tid_scope_link_local (addr : list Z) (scope : option (list Z)) : option (list Z) :=
  match scope with
  | None => strdup addr
  | Some scope =>
      if in_set addr c_percent || negb (shr_ipv6_is_link_local (Some addr)) then strdup addr
      else strdup (addr ++ c_percent :: scope)
  end.

Definition hostid_matches (candidate existing : option (list Z)) : bool :=
  match candidate, existing with
  | Some c, Some e => strcaseeq c e
  | _, _ => true
  end.

Definition tid_matches_existing (candidate existing : libnvmf_tid) (existing_is_dc existing_live : bool)
    (iface_list : list ifaddrs) : bool :=
  let tr := transport candidate in
  let ip := shr_streq0 tr (Some (lit "tcp")) || shr_streq0 tr (Some (lit "rdma")) in
  if negb (shr_streq0 tr (transport existing)) then false
  else if negb (shr_streq0 (trsvcid candidate) (trsvcid existing)) then false
  else if negb (tid_addr_eq ip (traddr candidate) (traddr existing)) then false
  else if negb (shr_streq0 (hostnqn candidate) (hostnqn existing)) then false
  else if negb (hostid_matches (hostid candidate) (hostid existing)) then false
  else if (if shr_streq0 (subsysnqn candidate) (Some NVME_DISC_SUBSYS_NAME)
           then negb existing_is_dc
           else negb (shr_streq0 (subsysnqn candidate) (subsysnqn existing))) then false
  else if shr_streq0 tr (Some (lit "tcp")) then
    match host_traddr candidate, host_iface candidate with
    | None, None => true
    | _, _ => tcp_host_side_matches (host_traddr candidate) (host_iface candidate)
                existing existing_live iface_list
    end
  else
    (match host_traddr candidate, host_traddr existing with
     | Some _, Some _ => tid_addr_eq ip (host_traddr candidate) (host_traddr existing)
     | _, _ => true
     end) &&
    (match host_iface candidate, host_iface existing with
     | Some _, Some _ => shr_streq0 (host_iface candidate) (host_iface existing)
     | _, _ => true
     end).

(** [tid_same] and [tid_target_same] of [discoverd/src/tid.h]. *)
Definition tid_same (a b : libnvmf_tid) : bool :=
  shr_streq0 (snd (libnvmf_tid_get_canonical a)) (snd (libnvmf_tid_get_canonical b)).

Definition tid_target_same (a b : libnvmf_tid) : bool :=
  shr_streq0 (transport a) (transport b) && shr_streq0 (traddr a) (traddr b) &&
  shr_streq0 (trsvcid a) (trsvcid b).

(** FNV-1a, 64 bits. *)
Definition fnv1a_64 (buf : list Z) : Z :=
  foldl (λ hash c, u64 (Z.lxor hash c * 1099511628211)) 14695981039346656037 buf.

(** [%012x] of a 48-bit number. *)
Definition hex12 (v : Z) : list Z :=
  map (λ i, hex_digit_lc (Z.shiftr v (4 * i) mod 16)) [11; 10; 9; 8; 7; 6; 5; 4; 3; 2; 1; 0].

Definition tid_unit_name (t : libnvmf_tid) : option (list Z) :=
  canon ← snd (libnvmf_tid_get_canonical t);
  let hash := Z.land (fnv1a_64 canon) (2 ^ 48 - 1) in
  strdup (lit "nvme-discoverd-" ++ hex12 hash ++ lit ".service").

End Net.

(** ** Lemmas *)

Lemma shr_streq0_spec a b : shr_streq0 a b = true ↔ a = b.
Proof.
  destruct a as [a|], b as [b|]; cbn; try naive_solver. unfold str_eqb.
  rewrite bool_decide_eq_true. naive_solver.
Qed.

Lemma shr_streq0_refl a : shr_streq0 a a = true.
Proof. by apply shr_streq0_spec. Qed.

Lemma strcaseeq_refl a : strcaseeq a a = true.
Proof. unfold strcaseeq, str_eqb. by apply bool_decide_eq_true. Qed.

Lemma sockaddrs_eq_refl a : a ≠ SaOther → sockaddrs_eq a a = true.
Proof. destruct a; cbn; try done; intros _; by rewrite bool_decide_eq_true. Qed.

Section Facts.
Context `{AllocOk} `{InetLaws}.

(** A canonical address is numeric, and equal to itself. *)
Lemma canon_numeric a : canon_ip a = Ok a → ∃ sa, parse_numeric_addr a = Ok sa ∧ sa ≠ SaOther.
Proof.
  intros Hc. unfold parse_numeric_addr. rewrite strdup_id.
  destruct (pton4 a) as [x|] eqn:E4; [by eexists|]. revert Hc. unfold canon_ip.
  destruct (split_char c_percent a) as [[h r]|] eqn:Es.
  - destruct (_ <=? _)%nat; [done|]. destruct (pton4 h) as [x|] eqn:Eh.
    + destruct (ntop4_pton x) as (s & -> & _ & Hch & _ & _); [by eapply pton4_len|].
      rewrite strdup_id. intros [= ->]. apply no_percent in Hch. congruence.
    + destruct (pton6 h) as [x|]; [|done]. intros _. by eexists.
  - destruct (_ <=? _)%nat; [done|]. rewrite E4. destruct (pton6 a); [|done]. intros _. by eexists.
Qed.

Lemma ipaddrs_eq_self a : (∀ x, a = Some x → canon_ip x = Ok x) → shr_ipaddrs_eq a a = true.
Proof.
  intros Ha. destruct a as [a|]; [|done]. cbn [shr_ipaddrs_eq].
  destruct (canon_numeric a (Ha a eq_refl)) as (sa & -> & Hsa). by apply sockaddrs_eq_refl.
Qed.

(** A sanitized TID on an IP transport has canonical addresses. *)
Lemma sanitized_addr t f x :
  tid_sanitize_addr t = Ok t →
  shr_streq0 (transport t) (Some (lit "tcp")) || shr_streq0 (transport t) (Some (lit "rdma")) = true →
  f = Traddr ∨ f = HostTraddr → get t f = Some x → canon_ip x = Ok x.
Proof.
  unfold tid_sanitize_addr. destruct (transport t) as [tr|] eqn:Et; [|done]. cbn [shr_streq0].
  intros Hs Hip Hf Hx.
  assert (str_eqb tr (lit "fc") = false) as Hfc.
  { unfold str_eqb in *. rewrite orb_true_iff, !bool_decide_eq_true in Hip.
    apply bool_decide_eq_false. destruct Hip as [-> | ->]; by vm_compute. }
  rewrite Hfc, <- negb_orb, Hip in Hs. cbn [negb] in Hs.
  apply bind_Ok in Hs as (t1 & E1 & E2). unfold canon_field in *.
  assert (Hg1 : ∀ g, g ≠ Traddr → get t1 g = get t g).
  { intros g Hg. destruct (get t Traddr); [|congruence]. apply bind_Ok in E1 as (c & _ & [= <-]).
    by rewrite get_upd, decide_False. }
  assert (Hg2 : ∀ g, g ≠ HostTraddr → get t g = get t1 g).
  { intros g Hg. destruct (get t1 HostTraddr); [|congruence].
    apply bind_Ok in E2 as (c & _ & E2). injection E2 as E2.
    apply (f_equal (λ t, get t g)) in E2. by rewrite get_upd, decide_False in E2. }
  destruct Hf as [-> | ->].
  - rewrite Hx in E1. apply bind_Ok in E1 as (c & Hc & E1). injection E1 as E1.
    apply (f_equal (λ t, get t Traddr)) in E1. rewrite get_upd, decide_True in E1 by done.
    rewrite <- Hg2, Hx in E1 by done. congruence.
  - rewrite Hg1, Hx in E2 by done. apply bind_Ok in E2 as (c & Hc & E2). injection E2 as E2.
    apply (f_equal (λ t, get t HostTraddr)) in E2. rewrite get_upd, decide_True in E2 by done.
    rewrite Hx in E2. congruence.
Qed.

Lemma addr_eq_self t f :
  tid_sanitize_addr t = Ok t → f = Traddr ∨ f = HostTraddr →
  tid_addr_eq (shr_streq0 (transport t) (Some (lit "tcp")) ||
               shr_streq0 (transport t) (Some (lit "rdma"))) (get t f) (get t f) = true.
Proof.
  intros Hs Hf. unfold tid_addr_eq. destruct (_ || _) eqn:Hip; [|apply shr_streq0_refl].
  apply ipaddrs_eq_self. intros x Hx. by eapply sanitized_addr.
Qed.

End Facts.

(** What is read with some memory is read with enough of it. *)
Section Memory.
Context `{Alloc} `{Inet}.

Lemma parse_token_all_memory strict t tok t' bad :
  parse_token strict t tok = (t', bad, false) → @parse_token all_memory strict t tok = (t', bad, false).
Proof.
  unfold parse_token. destruct (split_char c_eq tok) as [[k v]|]; [|done].
  destruct (negb _); [done|]. destruct (field_of _); [|done].
  unfold strdup. cbn. by destruct (strdup_ok _).
Qed.

Lemma parse_tokens_all_memory strict toks : ∀ t t' bad,
  parse_tokens strict t toks = (t', bad, false) → @parse_tokens all_memory strict t toks = (t', bad, false).
Proof.
  induction toks as [|tok toks IH]; intros t t' bad; cbn [parse_tokens]; [done|].
  destruct (parse_token strict t tok) as [[t1 b] o] eqn:E.
  destruct o; [by rewrite orb_true_r|]. rewrite (parse_token_all_memory _ _ _ _ _ E).
  destruct b; [done|]. apply IH.
Qed.

Lemma canon_ip_all_memory a c : canon_ip a = Ok c → @canon_ip all_memory _ a = Ok c.
Proof.
  unfold canon_ip, strdup. cbn. destruct (split_char c_percent a) as [[h s]|]; cbn;
    repeat (case_match; try done); congruence.
Qed.

Lemma canon_field_all_memory t f t' : canon_field t f = Ok t' → @canon_field all_memory _ t f = Ok t'.
Proof.
  unfold canon_field. destruct (get t f); [|done]. rewrite !bind_Ok.
  intros (c & Hc & Ht). eauto using canon_ip_all_memory.
Qed.

Lemma tid_parse_all_memory strict s t :
  tid_parse strict (Some s) = Ok t → @tid_parse all_memory _ strict (Some s) = Ok t.
Proof.
  unfold tid_parse. destruct (negb tid_new_ok); [done|]. unfold strdup at 1.
  destruct (strdup_ok s); [|done]. cbn.
  destruct (parse_tokens _ _ _) as [[t0 bad] oom] eqn:E. destruct oom; [done|].
  rewrite (parse_tokens_all_memory _ _ _ _ _ E). destruct bad; [done|].
  unfold tid_sanitize_addr. destruct (transport t0) as [tr|]; [|done].
  destruct (str_eqb tr (lit "fc")); [done|]. destruct (_ && _); [done|]. rewrite !bind_Ok.
  intros (t1 & H1 & H2). eauto using canon_field_all_memory.
Qed.

End Memory.

(** ** Properties *)



(** A live connection that the kernel reports with exactly the fields of a
    sanitized candidate serves that candidate: [tid_matches_existing] accepts
    it, for a DC when the candidate asks for the discovery NQN, and, when the
    candidate binds both a source address and an interface on tcp, if that
    address is on that interface. *)
Theorem tid_matches_existing_self `{AllocOk} `{InetLaws} t is_dc ifl :
  tid_sanitize_addr t = Ok t →
  (subsysnqn t = Some NVME_DISC_SUBSYS_NAME → is_dc = true) →
  (host_traddr t = None ∨ host_iface t = None ∨
   shr_iface_matching_addr ifl (host_traddr t) = host_iface t) →
  tid_matches_existing t t is_dc true ifl = true.
Proof.
  intros Hs Hdc Hif. unfold tid_matches_existing. cbv zeta.
  rewrite !shr_streq0_refl. cbn [negb].
  change (traddr t) with (get t Traddr). rewrite addr_eq_self by tauto. cbn [negb].
  assert (hostid_matches (hostid t) (hostid t) = true) as ->.
  { unfold hostid_matches. destruct (hostid t); [apply strcaseeq_refl|done]. }
  cbn [negb].
  assert ((if shr_streq0 (subsysnqn t) (Some NVME_DISC_SUBSYS_NAME) then negb is_dc else false) = false) as ->.
  { destruct (shr_streq0 (subsysnqn t) _) eqn:E; [|done].
    apply shr_streq0_spec in E. by rewrite Hdc. }
  destruct (shr_streq0 (transport t) (Some (lit "tcp"))) eqn:Etcp.
  - unfold tcp_host_side_matches.
    assert (Hself : ∀ x, host_traddr t = Some x → shr_ipaddrs_eq (Some x) (Some x) = true).
    { intros x Hx. apply ipaddrs_eq_self. intros y [= <-].
      apply (sanitized_addr t HostTraddr); [done|by rewrite Etcp|tauto|done]. }
    destruct (host_traddr t) as [x|] eqn:Ex; destruct (host_iface t) as [y|] eqn:Ey; try done.
    + rewrite Hself by done. destruct Hif as [?|[?|Hif]]; [done..|].
      rewrite Hif. by rewrite shr_streq0_refl.
    + by rewrite Hself.
    + by rewrite shr_streq0_refl.
  - apply andb_true_iff. split.
    + destruct (host_traddr t) as [x|] eqn:Ex; [|done].
      pose proof (addr_eq_self t HostTraddr Hs) as Ha. rewrite Etcp in Ha. cbn [get] in Ha.
      rewrite Ex in Ha. cbn [orb] in Ha |- *. apply Ha. tauto.
    + by destruct (host_iface t).
Qed.

Lemma tid_matches_existing_self_witness :
  let t := {| transport := Some (lit "tcp"); traddr := Some (lit "0a000001");
       trsvcid := Some (lit "8009"); subsysnqn := Some NVME_DISC_SUBSYS_NAME;
       host_traddr := Some (lit "0a0000ff"); host_iface := Some (lit "eth0");
       hostnqn := None; hostid := None; canonical_cache := None; str_cache := None |} in
  @tid_matches_existing all_memory hex_inet t t true true
    [{| ifa_name := lit "lo"; ifa_addr := Some (SaIn [127; 0; 0; 1]) |};
     {| ifa_name := lit "eth0"; ifa_addr := Some (SaIn [10; 0; 0; 255]) |}] = true.
Proof.
  apply (@tid_matches_existing_self all_memory _ hex_inet _).
  - vm_compute. reflexivity.
  - intros _. reflexivity.
  - right. right. vm_compute. reflexivity.
Defined.
