(* ===== verification/Inventory.v ===== *)
(** * The inventory of desired connections: [discoverd/src/inventory.c]

    The flat sets of TIDs, the cache of Discovery Log Pages, the referral
    walk, and the name lookups of configured host names.  The sets and the
    cache are written against an interface of TIDs, [TidOps], which
    [discoverd/src/tid.h] implements; the lookups use the TIDs themselves. *)

From Stdlib Require Import String.
From stdpp Require Import base list numbers sets relations.
From S2P Require Import Prelude.
From S2P Require Import CStr.
From S2P Require Import Tid.
From S2P Require Import DTid.

(** ** The interface of TIDs *)

(** What the inventory asks of a TID, and which allocations succeed. *)
Class TidOps (T : Type) := {
  same : T → T → bool;
  dup : T → option T;
  append_ok : list T → bool;
  calloc_ok : bool }.

(** Comparison is an equivalence, and a copy of a valid TID is the same TID. *)
Class TidLaws (T : Type) `{TidOps T} := {
  valid : T → Prop;
  same_refl t : same t t = true;
  same_sym t u : same t u = true → same u t = true;
  same_trans t u v : same t u = true → same u v = true → same t v = true;
  dup_same t u : valid t → dup t = Some u → same u t = true }.

(** Memory suffices. *)
Class TidMem (T : Type) `{TidOps T} : Prop := {
  dup_some t : is_Some (dup t);
  append_some l : append_ok l = true;
  calloc_some : calloc_ok = true }.

(** ** State *)

Record dlp_entry (T : Type) := { dc_tid : T; iocs : list T; referrals : list T }.
Arguments dc_tid {T}.
Arguments iocs {T}.
Arguments referrals {T}.

(** [libnvmf_config_conn]: the accessors the inventory calls. *)
Record config_conn := {
  conn_is_dc : bool;
  conn_get : field → option (list Z) }.

(** [query] and [retry_timer] say whether one is pending. *)
Record cfg_lookup := {
  l_conn : config_conn;
  l_query : bool;
  l_timer : bool;
  l_retry_sec : Z;
  l_first : bool }.

Record inventory (T : Type) := {
  nbft_dcs : list T;
  nbft_iocs : list T;
  cfg_dcs : list T;
  cfg_iocs : list T;
  discovered_dcs : list T;
  dlp_cache : list (dlp_entry T);
  cfg_conns : list (T * config_conn);
  lookups : list cfg_lookup;
  nr_first_lookups : Z }.
Arguments nbft_dcs {T}.
Arguments nbft_iocs {T}.
Arguments cfg_dcs {T}.
Arguments cfg_iocs {T}.
Arguments discovered_dcs {T}.
Arguments dlp_cache {T}.
Arguments cfg_conns {T}.
Arguments lookups {T}.
Arguments nr_first_lookups {T}.

Definition inventory_new {T} : inventory T :=
  {| nbft_dcs := []; nbft_iocs := []; cfg_dcs := []; cfg_iocs := []; discovered_dcs := [];
     dlp_cache := []; cfg_conns := []; lookups := []; nr_first_lookups := 0 |}.

Definition set_discovered {T} (inv : inventory T) (l : list T) : inventory T :=
  {| nbft_dcs := nbft_dcs inv; nbft_iocs := nbft_iocs inv; cfg_dcs := cfg_dcs inv;
     cfg_iocs := cfg_iocs inv; discovered_dcs := l; dlp_cache := dlp_cache inv;
     cfg_conns := cfg_conns inv; lookups := lookups inv;
     nr_first_lookups := nr_first_lookups inv |}.

Definition set_cache {T} (inv : inventory T) (c : list (dlp_entry T)) : inventory T :=
  {| nbft_dcs := nbft_dcs inv; nbft_iocs := nbft_iocs inv; cfg_dcs := cfg_dcs inv;
     cfg_iocs := cfg_iocs inv; discovered_dcs := discovered_dcs inv; dlp_cache := c;
     cfg_conns := cfg_conns inv; lookups := lookups inv;
     nr_first_lookups := nr_first_lookups inv |}.

Definition INVENTORY_MAX_REFERRAL_HOPS : nat := 8.

(** ** Sets and cache *)
Section Sets.
Context {T : Type} `{TidOps T}.
Implicit Types (inv : inventory T) (t u : T) (l : list T) (e : dlp_entry T).

(** [tid_list_append]: the list is unchanged when it cannot grow. *)
Definition tid_list_append l t : list T := if append_ok l then l ++ [t] else l.

(** [tid_list_take]: moves the TIDs of an array that may be NULL. *)
Definition tid_list_take l (tids : option (list T)) : list T :=
  foldl tid_list_append l (default [] tids).

Definition tid_list_contains l t : bool := existsb (λ u, same u t) l.

(** The last item takes the place of the removed one. *)
Definition remove_at (l : list T) (i : nat) : list T :=
  match last l with
  | Some z => take (length l - 1) (<[i := z]> l)
  | None => l
  end.

Fixpoint find_index (l : list T) (t : T) (i : nat) : option nat :=
  match l with
  | [] => None
  | u :: l' => if same u t then Some i else find_index l' t (S i)
  end.

Definition tid_list_remove l t : list T :=
  match find_index l t 0 with Some i => remove_at l i | None => l end.

(** The entries of [inventory_update_dlp] for an entry found in the cache. *)
Fixpoint replace_entry (c : list (dlp_entry T)) (dc : T) (io re : option (list T)) :
    option (list (dlp_entry T)) :=
  match c with
  | [] => None
  | e :: c' =>
      if same (dc_tid e) dc
      then Some ({| dc_tid := dc_tid e; iocs := tid_list_take [] io;
                    referrals := tid_list_take [] re |} :: c')
      else (λ c', e :: c') <$> replace_entry c' dc io re
  end.

Definition inventory_update_dlp inv (dc : T) (io re : option (list T)) : inventory T :=
  match replace_entry (dlp_cache inv) dc io re with
  | Some c => set_cache inv c
  | None =>
      if negb calloc_ok then inv
      else
        match dup dc with
        | None => inv
        | Some d =>
            set_cache inv ({| dc_tid := d; iocs := tid_list_take [] io;
                              referrals := tid_list_take [] re |} :: dlp_cache inv)
        end
  end.

Definition inventory_add_discovered_dc inv t : inventory T :=
  if tid_list_contains (discovered_dcs inv) t then inv
  else
    match dup t with
    | Some d => set_discovered inv (tid_list_append (discovered_dcs inv) d)
    | None => inv
    end.

Fixpoint remove_entry (c : list (dlp_entry T)) (dc : T) : list (dlp_entry T) :=
  match c with
  | [] => []
  | e :: c' => if same (dc_tid e) dc then c' else e :: remove_entry c' dc
  end.

Definition inventory_forget_dc inv (dc : T) : inventory T :=
  let inv := set_discovered inv (tid_list_remove (discovered_dcs inv) dc) in
  set_cache inv (remove_entry (dlp_cache inv) dc).

(** A DC that NBFT, the configuration or a discovery names. *)
Definition has_source inv t : bool :=
  tid_list_contains (nbft_dcs inv) t || tid_list_contains (cfg_dcs inv) t ||
  tid_list_contains (discovered_dcs inv) t.

(** [-1] is [None]. *)
Fixpoint hops inv (budget : nat) t : option nat :=
  if has_source inv t then Some 0%nat
  else
    match budget with
    | O => None
    | S b =>
        foldl (λ best e,
          if negb (tid_list_contains (referrals e) t) then best
          else
            match hops inv b (dc_tid e) with
            | None => best
            | Some h =>
                match best with
                | None => Some (S h)
                | Some k => if (S h <? k)%nat then Some (S h) else best
                end
            end) None (dlp_cache inv)
    end.

Definition inventory_referral_hops inv t : option nat :=
  hops inv INVENTORY_MAX_REFERRAL_HOPS t.

Definition dc_desired inv (e : dlp_entry T) : bool :=
  bool_decide (is_Some (inventory_referral_hops inv (dc_tid e))).

(** The returned string, and [*parent]. *)
Inductive source := SrcNbft | SrcConfig | SrcDiscovered | SrcDlp (parent : T).

Definition inventory_source inv t : option source :=
  if tid_list_contains (nbft_dcs inv) t || tid_list_contains (nbft_iocs inv) t then Some SrcNbft
  else if tid_list_contains (cfg_dcs inv) t || tid_list_contains (cfg_iocs inv) t
  then Some SrcConfig
  else if tid_list_contains (discovered_dcs inv) t then Some SrcDiscovered
  else
    (λ e, SrcDlp (dc_tid e)) <$>
    List.find (λ e, (tid_list_contains (iocs e) t || tid_list_contains (referrals e) t) &&
                    dc_desired inv e) (dlp_cache inv).

Definition inventory_is_desired inv t : bool :=
  tid_list_contains (nbft_iocs inv) t || tid_list_contains (cfg_iocs inv) t ||
  bool_decide (is_Some (inventory_referral_hops inv t)) ||
  existsb (λ e, tid_list_contains (iocs e) t && dc_desired inv e) (dlp_cache inv).

Definition inventory_is_nbft inv t : bool :=
  tid_list_contains (nbft_dcs inv) t || tid_list_contains (nbft_iocs inv) t.

(** The loops of [inventory_desired_dcs]: copy all, or copy what is missing. *)
Definition add_copy (combined : list T) (t : T) : list T :=
  match dup t with Some d => tid_list_append combined d | None => combined end.
Definition add_missing (combined : list T) (t : T) : list T :=
  if tid_list_contains combined t then combined else add_copy combined t.

(** [None] when the array cannot be allocated. *)
Definition inventory_desired_dcs inv : option (list T) :=
  let combined := foldl add_copy [] (nbft_dcs inv) in
  let combined := foldl add_missing combined (cfg_dcs inv) in
  let combined := foldl add_missing combined (discovered_dcs inv) in
  if calloc_ok then Some combined else None.

Definition inventory_desired_iocs inv : option (list T) :=
  let combined := foldl add_copy [] (nbft_iocs inv) in
  let combined := foldl add_missing combined (cfg_iocs inv) in
  if calloc_ok then Some combined else None.

Definition inventory_config_conn_for inv t : option config_conn :=
  snd <$> List.find (λ c, same (fst c) t) (cfg_conns inv).

End Sets.
Arguments source : clear implicits.

(** ** Configured connections and their name lookups *)

Definition LOOKUP_RETRY_MIN_SEC : Z := 1.
Definition LOOKUP_RETRY_MAX_SEC : Z := 300.

(** The parts of [discoverd_ctx] the inventory reads. *)
Record discoverd_ctx := {
  ctx_hostnqn : option (list Z);
  ctx_hostid : option (list Z);
  ctx_resolver : bool;
  ctx_fabrics_cfg : option (list config_conn) }.

(** Whether [dmn_resolve] and [sd_event_add_time_relative] succeed. *)
Record net_env := {
  resolve_ok : config_conn → bool;
  timer_ok : config_conn → bool }.

(** Which growths of an array and which [calloc] succeed. *)
Class Heap := { grow_ok : nat → bool; block_ok : bool }.

(** [discoverd/src/tid.h] implements the interface. *)
#[export] Instance discoverd_tid_ops `{Alloc} `{Heap} : TidOps libnvmf_tid := {|
  same := tid_same;
  dup := λ t, libnvmf_tid_dup (Some t);
  append_ok := λ l, grow_ok (length l);
  calloc_ok := block_ok |}.

Section Lookups.
Context `{Alloc} `{Inet} `{Heap}.
Abbreviation inv_t := (inventory libnvmf_tid).

Definition set_lookups (inv : inv_t) (l : list cfg_lookup) (n : Z) : inv_t :=
  {| nbft_dcs := nbft_dcs inv; nbft_iocs := nbft_iocs inv; cfg_dcs := cfg_dcs inv;
     cfg_iocs := cfg_iocs inv; discovered_dcs := discovered_dcs inv;
     dlp_cache := dlp_cache inv; cfg_conns := cfg_conns inv; lookups := l;
     nr_first_lookups := n |}.

Definition set_cfg (inv : inv_t) (dcs iocs : list libnvmf_tid)
    (conns : list (libnvmf_tid * config_conn)) : inv_t :=
  {| nbft_dcs := nbft_dcs inv; nbft_iocs := nbft_iocs inv; cfg_dcs := dcs;
     cfg_iocs := iocs; discovered_dcs := discovered_dcs inv;
     dlp_cache := dlp_cache inv; cfg_conns := conns; lookups := lookups inv;
     nr_first_lookups := nr_first_lookups inv |}.

Definition with_default_host (dctx : discoverd_ctx) (tid : option libnvmf_tid) :
    option libnvmf_tid :=
  t ← tid;
  match tid_set_default_host_if_unset t (ctx_hostnqn dctx) (ctx_hostid dctx) with
  | (t, None) => Some t
  | (_, Some _) => None
  end.

Definition lookups_free (inv : inv_t) : inv_t := set_lookups inv [] 0.

Definition add_config_conn (inv : inv_t) (dctx : discoverd_ctx) (conn : config_conn)
    (addr : option (list Z)) : inv_t * bool :=
  let is_dc := conn_is_dc conn in
  let t := tid_new (λ f, if decide (f = Traddr) then addr else conn_get conn f) is_dc in
  match with_default_host dctx t with
  | None => (inv, false)
  | Some t =>
      match dup t with
      | None => (inv, false)
      | Some t2 =>
          let l := if is_dc then cfg_dcs inv else cfg_iocs inv in
          if negb (append_ok l) then (inv, false)
          else
            let inv := if is_dc then set_cfg inv (l ++ [t2]) (cfg_iocs inv) (cfg_conns inv)
                       else set_cfg inv (cfg_dcs inv) (l ++ [t2]) (cfg_conns inv) in
            if negb block_ok then (inv, false)
            else (set_cfg inv (cfg_dcs inv) (cfg_iocs inv) ((t, conn) :: cfg_conns inv), true)
      end
  end.

Definition schedule_lookup_retry (env : net_env) (l : cfg_lookup) : cfg_lookup :=
  if timer_ok env (l_conn l) then
    let r := l_retry_sec l in
    let r := if r <? LOOKUP_RETRY_MAX_SEC then u32 (r * 2) else r in
    let r := if LOOKUP_RETRY_MAX_SEC <? r then LOOKUP_RETRY_MAX_SEC else r in
    {| l_conn := l_conn l; l_query := l_query l; l_timer := true; l_retry_sec := r;
       l_first := l_first l |}
  else l.

(** The lookup, and whether [dmn_resolve] started it. *)
Definition start_lookup (env : net_env) (l : cfg_lookup) : cfg_lookup * bool :=
  if resolve_ok env (l_conn l) then
    ({| l_conn := l_conn l; l_query := true; l_timer := l_timer l;
        l_retry_sec := l_retry_sec l; l_first := l_first l |}, true)
  else (schedule_lookup_retry env l, false).

(** The timer of the lookup at [i] fires. *)
Definition retry_lookup (inv : inv_t) (env : net_env) (i : nat) : inv_t :=
  match lookups inv !! i with
  | None => inv
  | Some l =>
      let l := {| l_conn := l_conn l; l_query := l_query l; l_timer := false;
                  l_retry_sec := l_retry_sec l; l_first := l_first l |} in
      set_lookups inv (<[i := fst (start_lookup env l)]> (lookups inv)) (nr_first_lookups inv)
  end.

(** The query of the lookup at [i] ends, with the first address of the
    result; the argument of the callback. *)
Definition on_lookup (inv : inv_t) (dctx : discoverd_ctx) (env : net_env) (i : nat)
    (addr : option (list Z)) : inv_t * bool :=
  match lookups inv !! i with
  | None => (inv, false)
  | Some l =>
      let nr := if l_first l then u32 (nr_first_lookups inv - 1) else nr_first_lookups inv in
      let l := {| l_conn := l_conn l; l_query := false; l_timer := l_timer l;
                  l_retry_sec := l_retry_sec l; l_first := false |} in
      match addr with
      | Some a =>
          let '(inv, added) := add_config_conn inv dctx (l_conn l) (Some a) in
          (set_lookups inv (take i (lookups inv) ++ drop (S i) (lookups inv)) nr, added)
      | None =>
          (set_lookups inv (<[i := schedule_lookup_retry env l]> (lookups inv)) nr, false)
      end
  end.

Definition add_lookup (inv : inv_t) (dctx : discoverd_ctx) (env : net_env) (conn : config_conn) :
    inv_t :=
  if negb (ctx_resolver dctx) then inv
  else if negb block_ok then inv
  else
    let l := {| l_conn := conn; l_query := false; l_timer := false;
                l_retry_sec := LOOKUP_RETRY_MIN_SEC; l_first := false |} in
    match start_lookup env l with
    | (l, true) =>
        set_lookups inv (lookups inv ++
          [{| l_conn := l_conn l; l_query := l_query l; l_timer := l_timer l;
              l_retry_sec := l_retry_sec l; l_first := true |}]) (u32 (nr_first_lookups inv + 1))
    | (l, false) => set_lookups inv (lookups inv ++ [l]) (nr_first_lookups inv)
    end.

Definition load_config_conn_callback (dctx : discoverd_ctx) (env : net_env) (inv : inv_t)
    (conn : config_conn) : inv_t :=
  let tr := conn_get conn Transport in
  let addr := conn_get conn Traddr in
  if libnvmf_traddr_is_numeric addr ||
     (negb (shr_streq0 tr (Some (lit "tcp"))) && negb (shr_streq0 tr (Some (lit "rdma"))))
  then fst (add_config_conn inv dctx conn addr)
  else add_lookup inv dctx env conn.

Definition inventory_load_config (inv : inv_t) (dctx : discoverd_ctx) (env : net_env) : inv_t :=
  let inv := lookups_free inv in
  let inv := set_cfg inv [] [] [] in
  foldl (load_config_conn_callback dctx env) inv (default [] (ctx_fabrics_cfg dctx)).

Definition inventory_config_pending (inv : inv_t) : bool := 0 <? nr_first_lookups inv.

End Lookups.

(** ** Referral paths *)
Section SetFacts.
Context {T : Type} `{TidLaws T}.
Implicit Types (inv : inventory T) (t u : T) (l : list T) (e : dlp_entry T).

(** [t] is [n] referrals away from a DC with a source. *)
Inductive reach inv : nat → T → Prop :=
| reach_source t : has_source inv t = true → reach inv 0 t
| reach_referral n e t :
    e ∈ dlp_cache inv → tid_list_contains (referrals e) t = true →
    reach inv n (dc_tid e) → reach inv (S n) t.

Lemma contains_spec l t : tid_list_contains l t = true ↔ ∃ u, u ∈ l ∧ same u t = true.
Proof.
  unfold tid_list_contains. rewrite existsb_exists. by setoid_rewrite list_elem_of_In.
Qed.

Lemma contains_same l t u : same t u = true → tid_list_contains l t = tid_list_contains l u.
Proof.
  intros Hs. apply eq_true_iff_eq. rewrite !contains_spec.
  split; intros (x & Hx & Hxt); exists x; (split; [done|]).
  - by eapply same_trans.
  - eapply same_trans; [done|]. by apply same_sym.
Qed.

(** One round of the loop of [hops], over what the callees return. *)
Definition hop_step (f : dlp_entry T → option nat) (best : option nat) (e : dlp_entry T) :
    option nat :=
  match f e with
  | None => best
  | Some h =>
      match best with
      | None => Some (S h)
      | Some k => if (S h <? k)%nat then Some (S h) else best
      end
  end.

Lemma hop_fold f c best n :
  foldl (hop_step f) best c = Some n →
  best = Some n ∨ ∃ e m, e ∈ c ∧ f e = Some m ∧ n = S m.
Proof.
  revert best. induction c as [|e c IH]; intros best; cbn [foldl]; [by left|].
  intros [Hb|(x & m & Hx & Hf & ->)]%IH.
  - unfold hop_step in Hb. destruct (f e) as [h|] eqn:Ef; [|by left].
    destruct best as [k|]; [destruct (S h <? k)%nat; [|by left]|];
      injection Hb as <-; right; exists e, h; set_solver.
  - right. exists x, m. set_solver.
Qed.

Lemma hop_fold_best f c k : ∃ n, foldl (hop_step f) (Some k) c = Some n ∧ (n ≤ k)%nat.
Proof.
  revert k. induction c as [|e c IH]; intros k; cbn [foldl]; [by exists k|].
  unfold hop_step at 2. destruct (f e) as [h|]; [|apply IH].
  destruct (Nat.ltb_spec (S h) k); [|apply IH].
  destruct (IH (S h)) as (n & -> & ?). exists n. split; [done|lia].
Qed.

Lemma hop_fold_le f c best e m :
  e ∈ c → f e = Some m → ∃ n, foldl (hop_step f) best c = Some n ∧ (n ≤ S m)%nat.
Proof.
  revert best. induction c as [|x c IH]; intros best He Hf; [set_solver|]. cbn [foldl].
  apply elem_of_cons in He as [<-|He]; [|by apply IH].
  unfold hop_step at 2. rewrite Hf.
  destruct best as [k|]; [|apply hop_fold_best].
  destruct (Nat.ltb_spec (S m) k); [apply hop_fold_best|].
  destruct (hop_fold_best f c k) as (n & -> & ?). exists n. split; [done|lia].
Qed.

(** [hops], with its loop as [hop_step]. *)
Lemma hops_S inv b t :
  hops inv (S b) t =
  if has_source inv t then Some 0%nat
  else foldl (hop_step (λ e, if tid_list_contains (referrals e) t then hops inv b (dc_tid e)
                             else None)) None (dlp_cache inv).
Proof.
  cbn [hops]. destruct (has_source inv t); [done|].
  cut (∀ best, foldl (λ best e, if negb (tid_list_contains (referrals e) t) then best
         else match hops inv b (dc_tid e) with
              | None => best
              | Some h => match best with
                          | None => Some (S h)
                          | Some k => if (S h <? k)%nat then Some (S h) else best
                          end
              end) best (dlp_cache inv) =
    foldl (hop_step (λ e, if tid_list_contains (referrals e) t then hops inv b (dc_tid e)
                          else None)) best (dlp_cache inv)); [by intros ->|].
  induction (dlp_cache inv) as [|e c IH]; intros best; cbn [foldl]; [done|].
  rewrite IH. f_equal. unfold hop_step. by destruct (tid_list_contains (referrals e) t).
Qed.

Lemma hops_sound inv b t n : hops inv b t = Some n → reach inv n t ∧ (n ≤ b)%nat.
Proof.
  revert t n. induction b as [|b IH]; intros t n.
  - cbn [hops]. destruct (has_source inv t) eqn:E; [|done]. intros [= <-].
    split; [by constructor|done].
  - rewrite hops_S. destruct (has_source inv t) eqn:E.
    { intros [= <-]. split; [by constructor|lia]. }
    intros [?|(e & m & He & Hf & ->)]%hop_fold; [done|].
    destruct (tid_list_contains (referrals e) t) eqn:Er; [|done].
    apply IH in Hf as [Hr Hm]. split; [by eapply reach_referral|lia].
Qed.

Lemma hops_complete inv b t n :
  reach inv n t → (n ≤ b)%nat → ∃ m, hops inv b t = Some m ∧ (m ≤ n)%nat.
Proof.
  intros Hr. revert b. induction Hr as [t Hs|n e t He Hc Hr IH]; intros b Hb.
  - exists 0%nat. split; [|lia]. by destruct b; cbn [hops]; rewrite Hs.
  - destruct b as [|b]; [lia|]. rewrite hops_S.
    destruct (has_source inv t); [exists 0%nat; split; [done|lia]|].
    destruct (IH b) as (m & Hm & Hle); [lia|].
    destruct (hop_fold_le (λ e, if tid_list_contains (referrals e) t then hops inv b (dc_tid e)
      else None) (dlp_cache inv) None e m He) as (k & -> & Hk); [by rewrite Hc|].
    exists k. split; [done|lia].
Qed.

Lemma hops_some inv b t :
  is_Some (hops inv b t) ↔ ∃ n, (n ≤ b)%nat ∧ reach inv n t.
Proof.
  split.
  - intros [n Hn]. apply hops_sound in Hn as [? ?]. by exists n.
  - intros (n & Hn & Hr). destruct (hops_complete inv b t n Hr Hn) as (m & -> & _). by eexists.
Qed.

Lemma dc_desired_spec inv e :
  dc_desired inv e = true ↔ ∃ n, (n ≤ 8)%nat ∧ reach inv n (dc_tid e).
Proof. unfold dc_desired. rewrite bool_decide_eq_true. apply hops_some. Qed.

(** ** The cache as a map, the discovered DCs as a set *)

(** The cached log page of a DC. *)
Definition lookup_dlp inv (dc : T) : option (dlp_entry T) :=
  List.find (λ e, same (dc_tid e) dc) (dlp_cache inv).

Definition is_some {A} (o : option A) : bool := match o with Some _ => true | None => false end.

(** No two TIDs of the list are the same. *)
Fixpoint distinct (l : list T) : Prop :=
  match l with
  | [] => True
  | t :: l' => tid_list_contains l' t = false ∧ distinct l'
  end.

(** The invariant: keys of the cache and discovered DCs occur once. *)
Definition inv_ok inv : Prop :=
  distinct (map dc_tid (dlp_cache inv)) ∧ distinct (discovered_dcs inv).

Lemma contains_app l k t :
  tid_list_contains (l ++ k) t = tid_list_contains l t || tid_list_contains k t.
Proof. apply existsb_app. Qed.

Lemma same_comm t u : same t u = same u t.
Proof. apply eq_true_iff_eq. split; apply same_sym. Qed.

Lemma distinct_app l k :
  distinct (l ++ k) ↔ distinct l ∧ distinct k ∧ ∀ t, t ∈ l → tid_list_contains k t = false.
Proof.
  induction l as [|x l IH]; cbn [app distinct].
  { split; [|tauto]. intros Hd. split_and!; [done..|]. by intros t ?%not_elem_of_nil. }
  rewrite IH, contains_app, orb_false_iff. setoid_rewrite elem_of_cons. naive_solver.
Qed.

Lemma contains_perm l k t : l ≡ₚ k → tid_list_contains l t = tid_list_contains k t.
Proof.
  intros Hp. apply eq_true_iff_eq. rewrite !contains_spec. by setoid_rewrite Hp.
Qed.

Lemma distinct_perm l k : l ≡ₚ k → distinct l → distinct k.
Proof.
  induction 1 as [|x l k Hp IH|x y l|l k m _ IH1 _ IH2]; cbn [distinct]; [done| | |tauto].
  - rewrite (contains_perm _ _ x Hp). tauto.
  - unfold tid_list_contains. cbn [existsb]. rewrite (same_comm x y), !orb_false_iff. tauto.
Qed.

Lemma find_index_spec l t i j :
  find_index l t j = Some i →
  ∃ a x b, l = a ++ x :: b ∧ i = (j + length a)%nat ∧ same x t = true.
Proof.
  revert j. induction l as [|u l IH]; intros j; cbn [find_index]; [done|].
  destruct (same u t) eqn:E.
  - intros [= <-]. exists [], u, l. split_and!; [done|simpl; lia|done].
  - intros (a & x & b & -> & -> & Hx)%IH. exists (u :: a), x, b. split_and!; [done|simpl; lia|done].
Qed.

Lemma find_index_None l t j : find_index l t j = None ↔ tid_list_contains l t = false.
Proof.
  revert j. induction l as [|u l IH]; intros j; cbn [find_index tid_list_contains existsb]; [done|].
  destruct (same u t); [done|]. apply IH.
Qed.

Lemma remove_at_perm (a : list T) x b : remove_at (a ++ x :: b) (length a) ≡ₚ a ++ b.
Proof.
  unfold remove_at. destruct b as [|z b _] using rev_ind.
  - rewrite last_snoc, insert_app_r_alt, Nat.sub_diag by lia. cbn [insert list_insert].
    rewrite length_app. cbn [length]. rewrite take_app_le, take_ge by lia. by rewrite app_nil_r.
  - replace (a ++ x :: b ++ [z]) with ((a ++ x :: b) ++ [z]) by (by rewrite <- app_assoc).
    rewrite last_snoc, length_app, <- app_assoc, insert_app_r_alt, Nat.sub_diag by lia.
    cbn [length insert list_insert app]. rewrite Nat.add_sub, length_app. cbn [length].
    replace (a ++ z :: b ++ [z]) with ((a ++ z :: b) ++ [z]) by (by rewrite <- app_assoc).
    rewrite take_app_le by (rewrite length_app; simpl; lia).
    rewrite take_ge by (rewrite length_app; simpl; lia).
    apply Permutation_app_head. by rewrite Permutation_cons_append.
Qed.

(** Removing a TID from a set without duplicates. *)
Lemma tid_list_remove_spec l t :
  distinct l → distinct (tid_list_remove l t) ∧
  ∀ u, tid_list_contains (tid_list_remove l t) u = tid_list_contains l u && negb (same t u).
Proof.
  intros Hd. unfold tid_list_remove. destruct (find_index l t 0) as [i|] eqn:E.
  - apply find_index_spec in E as (a & x & b & -> & -> & Hx). cbn [Nat.add].
    assert (Hd' : distinct (x :: a ++ b)).
    { eapply distinct_perm; [|exact Hd]. by rewrite Permutation_middle. }
    destruct Hd' as [Hxn Hd']. split.
    + eapply distinct_perm; [symmetry; apply remove_at_perm|done].
    + intros u. rewrite (contains_perm _ _ u (remove_at_perm a x b)).
      assert (tid_list_contains (a ++ x :: b) u = same x u || tid_list_contains (a ++ b) u) as ->.
      { rewrite <- (contains_perm _ _ u (Permutation_middle a b x)). done. }
      assert (same x u = same t u) as ->.
      { apply eq_true_iff_eq. split; intros; eapply same_trans; eauto using same_sym. }
      destruct (same t u) eqn:Etu; cbn [orb negb andb]; [|by rewrite andb_true_r].
      rewrite <- (contains_same _ x u); [done|]. by eapply same_trans.
  - apply find_index_None in E. split; [done|]. intros u.
    destruct (same t u) eqn:Etu; cbn [negb]; [|by rewrite andb_true_r].
    rewrite andb_false_r. by rewrite <- (contains_same _ t u).
Qed.

Lemma find_entry_same (c : list (dlp_entry T)) dc dc' :
  same dc dc' = true →
  List.find (λ e, same (dc_tid e) dc) c = List.find (λ e, same (dc_tid e) dc') c.
Proof.
  intros Hs. induction c as [|e c IH]; [done|]. cbn [List.find].
  assert (same (dc_tid e) dc = same (dc_tid e) dc') as ->; [|by rewrite IH].
  apply eq_true_iff_eq. split; intros; eapply same_trans; eauto using same_sym.
Qed.

Lemma find_entry_None (c : list (dlp_entry T)) dc :
  List.find (λ e, same (dc_tid e) dc) c = None ↔ tid_list_contains (map dc_tid c) dc = false.
Proof.
  induction c as [|e c IH]; [done|]. cbn [List.find map tid_list_contains existsb].
  by destruct (same (dc_tid e) dc).
Qed.

Lemma remove_entry_spec c dc :
  distinct (map dc_tid c) →
  distinct (map dc_tid (remove_entry c dc)) ∧
  ∀ dc', List.find (λ e, same (dc_tid e) dc') (remove_entry c dc) =
    if same dc dc' then None else List.find (λ e, same (dc_tid e) dc') c.
Proof.
  induction c as [|e c IH]; cbn [map distinct remove_entry]; [by intros; split; [|intros; case_match]|].
  intros [Hn Hd]. destruct (same (dc_tid e) dc) eqn:E.
  - split; [done|]. intros dc'. cbn [List.find]. destruct (same dc dc') eqn:E'.
    + apply find_entry_None. rewrite <- (contains_same _ (dc_tid e)); [done|]. by eapply same_trans.
    + destruct (same (dc_tid e) dc') eqn:E''; [|done].
      assert (same dc dc' = true); [|congruence]. eapply same_trans; [|done]. by apply same_sym.
  - destruct (IH Hd) as [Hd' Hf]. cbn [map distinct List.find]. split.
    + split; [|done]. apply find_entry_None. rewrite Hf. apply find_entry_None in Hn.
      by rewrite Hn; case_match.
    + intros dc'. rewrite Hf. destruct (same (dc_tid e) dc') eqn:E''; [|done].
      destruct (same dc dc') eqn:E'; [|done]. assert (same (dc_tid e) dc = true); [|congruence].
      eapply same_trans; [done|]. by apply same_sym.
Qed.

Lemma replace_entry_None c dc io re :
  replace_entry c dc io re = None ↔ List.find (λ e, same (dc_tid e) dc) c = None.
Proof.
  induction c as [|e c IH]; [done|]. cbn [replace_entry List.find].
  destruct (same (dc_tid e) dc); [done|]. rewrite <- IH. by destruct (replace_entry c dc io re).
Qed.

(** Replacing an entry keeps every key. *)
Lemma replace_entry_keys c dc io re c' :
  replace_entry c dc io re = Some c' → map dc_tid c' = map dc_tid c.
Proof.
  revert c'. induction c as [|e c IH]; intros c'; [done|]. cbn [replace_entry].
  destruct (same (dc_tid e) dc); [by intros [= <-]|].
  destruct (replace_entry c dc io re) as [c1|]; [|done]. intros [= <-]. cbn [map]. by rewrite IH.
Qed.

Lemma replace_entry_find c dc io re c' dc' :
  replace_entry c dc io re = Some c' →
  if same dc dc' then
    ∃ e, List.find (λ e, same (dc_tid e) dc') c' = Some e ∧ iocs e = tid_list_take [] io ∧
         referrals e = tid_list_take [] re
  else List.find (λ e, same (dc_tid e) dc') c' = List.find (λ e, same (dc_tid e) dc') c.
Proof.
  revert c'. induction c as [|e c IH]; intros c'; [done|]. cbn [replace_entry].
  destruct (same (dc_tid e) dc) eqn:E.
  - intros [= <-]. cbn [List.find dc_tid]. destruct (same dc dc') eqn:E'.
    + rewrite (same_trans _ _ _ E E'). by eexists.
    + destruct (same (dc_tid e) dc') eqn:E''; [|done].
      assert (same dc dc' = true); [|congruence]. eapply same_trans; [|done]. by apply same_sym.
  - destruct (replace_entry c dc io re) as [c1|] eqn:Er; [|done]. intros [= <-].
    specialize (IH c1 eq_refl). cbn [List.find]. destruct (same dc dc') eqn:E'.
    + destruct (same (dc_tid e) dc') eqn:E''; [|done].
      assert (same (dc_tid e) dc = true); [|congruence].
      eapply same_trans; [done|]. by apply same_sym.
    + by rewrite IH.
Qed.

Lemma same_iff_l t u d : same t u = true → same t d = same u d.
Proof. intros Hs. apply eq_true_iff_eq. split; intros; eapply same_trans; eauto using same_sym. Qed.

(** What is moved into an array that may not grow. *)
Lemma tid_list_take_sub tids : ∀ l, ∃ k, tid_list_take l tids = l ++ k ∧ k `sublist_of` default [] tids ∧
  ((∀ l : list T, append_ok l = true) → k = default [] tids).
Proof.
  unfold tid_list_take. induction (default [] tids) as [|t ts IH]; intros l; cbn [foldl].
  { exists []. by rewrite app_nil_r. }
  unfold tid_list_append at 2. destruct (append_ok l) eqn:E.
  - destruct (IH (l ++ [t])) as (k & -> & Hk & Hall). exists (t :: k). rewrite <- app_assoc.
    split; [done|]. split; [by constructor|]. intros Ha. by rewrite (Hall Ha).
  - destruct (IH l) as (k & -> & Hk & Hall). exists k. split; [done|]. split; [by constructor|].
    intros Ha. by rewrite Ha in E.
Qed.

Lemma tid_list_take_nil tids :
  tid_list_take [] tids `sublist_of` default [] tids ∧
  ((∀ l : list T, append_ok l = true) → tid_list_take [] tids = default [] tids).
Proof. destruct (tid_list_take_sub tids []) as (k & -> & Hk & Hall). done. Qed.

Lemma update_dlp_spec inv dc io re (i := inventory_update_dlp inv dc io re) :
  inv_ok inv → valid dc →
  inv_ok i ∧ discovered_dcs i = discovered_dcs inv ∧
  ∀ d, if same dc d then
         if is_some (lookup_dlp inv dc) || calloc_ok && is_some (dup dc) then
           ∃ e, lookup_dlp i d = Some e ∧ same (dc_tid e) d = true ∧
                iocs e `sublist_of` default [] io ∧ referrals e `sublist_of` default [] re ∧
                ((∀ l : list T, append_ok l = true) → iocs e = default [] io ∧ referrals e = default [] re)
         else lookup_dlp i d = None
       else lookup_dlp i d = lookup_dlp inv d.
Proof.
  intros [Hkeys Hdisc] Hv. subst i. unfold inventory_update_dlp, lookup_dlp, inv_ok.
  destruct (tid_list_take_nil io) as [Sio Fio], (tid_list_take_nil re) as [Sre Fre].
  destruct (replace_entry (dlp_cache inv) dc io re) as [c|] eqn:Er; cbn [dlp_cache set_cache discovered_dcs].
  - rewrite (replace_entry_keys _ _ _ _ _ Er). split_and!; [done..|]. intros d.
    pose proof (replace_entry_find _ _ _ _ _ d Er) as Hf. destruct (same dc d) eqn:E; [|done].
    destruct (List.find _ (dlp_cache inv)) eqn:Ef; [|apply (replace_entry_None _ _ io re) in Ef; congruence].
    cbn [is_some orb]. destruct Hf as (e & He & Hi & Hr). exists e. rewrite Hi, Hr.
    split_and!; [done| |done|done|by auto]. apply List.find_some in He. naive_solver.
  - apply replace_entry_None in Er. pose proof (proj1 (find_entry_None _ _) Er) as Hn. rewrite Er. cbn [is_some orb].
    assert (Hd : ∀ d, same dc d = true → List.find (λ e, same (dc_tid e) d) (dlp_cache inv) = None)
      by (intros d Hs; by rewrite <- (find_entry_same _ dc d)).
    destruct calloc_ok; cbn [negb andb]; [|split_and!; [done..|]; intros d; destruct (same dc d) eqn:E; auto].
    destruct (dup dc) as [d0|] eqn:Hd0; cbn [is_some]; [|split_and!; [done..|]; intros d; destruct (same dc d) eqn:E; auto].
    cbn [dlp_cache set_cache discovered_dcs map distinct dc_tid].
    pose proof (dup_same _ _ Hv Hd0) as Hs. split_and!; [by rewrite (contains_same _ d0 dc)|done..|].
    intros d. cbn [List.find dc_tid]. rewrite (same_iff_l d0 dc d Hs). destruct (same dc d) eqn:E; [|done].
    eexists. split; [done|]. cbn [iocs referrals dc_tid]. rewrite (same_iff_l d0 dc d Hs). split_and!; auto.
Qed.

Lemma add_discovered_spec inv dc (i := inventory_add_discovered_dc inv dc) :
  inv_ok inv → valid dc →
  inv_ok i ∧ dlp_cache i = dlp_cache inv ∧
  ∀ d, tid_list_contains (discovered_dcs i) d =
       same dc d && is_some (dup dc) && append_ok (discovered_dcs inv) || tid_list_contains (discovered_dcs inv) d.
Proof.
  intros [Hkeys Hdisc] Hv. subst i. unfold inventory_add_discovered_dc, inv_ok.
  destruct (tid_list_contains _ dc) eqn:E.
  { split_and!; [done..|]. intros d. destruct (same dc d) eqn:Ed; [|done].
    rewrite <- (contains_same _ dc d Ed), E. by rewrite orb_true_r. }
  destruct (dup dc) as [d0|] eqn:Hd0; cbn [is_some]; [|split_and!; [done..|]; intros d; by rewrite andb_false_r].
  cbn [discovered_dcs set_discovered dlp_cache]. unfold tid_list_append.
  destruct (append_ok _); [|split_and!; [done..|]; intros d; by rewrite !andb_false_r].
  pose proof (dup_same _ _ Hv Hd0) as Hs. split_and!; [done| |done|].
  - apply distinct_app. split_and!; [done|done|]. intros x Hx. cbn. rewrite orb_false_r.
    destruct (same d0 x) eqn:Edx; [|done]. rewrite (same_iff_l d0 dc x Hs) in Edx.
    assert (tid_list_contains (discovered_dcs inv) dc = true); [|congruence]. apply contains_spec. exists x.
    split; [done|]. by apply same_sym.
  - intros d. rewrite contains_app. cbn [tid_list_contains existsb].
    rewrite orb_false_r, (same_iff_l d0 dc d Hs), !andb_true_r. apply orb_comm.
Qed.

Context `{!TidMem T}.

Lemma tid_list_append_mem l t : tid_list_append l t = l ++ [t].
Proof. unfold tid_list_append. by rewrite append_some. Qed.

Lemma tid_list_take_mem l tids : tid_list_take l tids = l ++ default [] tids.
Proof.
  unfold tid_list_take. revert l. induction (default [] tids) as [|t ts IH]; intros l; cbn [foldl].
  { by rewrite app_nil_r. }
  by rewrite IH, tid_list_append_mem, <- app_assoc.
Qed.

Lemma add_copy_contains l t u :
  valid t → tid_list_contains (add_copy l t) u = tid_list_contains l u || same t u.
Proof.
  intros Hv. unfold add_copy. destruct (dup t) as [d|] eqn:Ed.
  - rewrite tid_list_append_mem, contains_app. cbn [tid_list_contains existsb].
    rewrite orb_false_r. f_equal. apply dup_same in Ed; [|done].
    apply eq_true_iff_eq. split; intros; eapply same_trans; eauto using same_sym.
  - destruct (dup_some t) as [d Hd]. congruence.
Qed.

Lemma add_copies_contains k l u :
  Forall valid k →
  tid_list_contains (foldl add_copy l k) u = tid_list_contains l u || tid_list_contains k u.
Proof.
  intros Hk. revert l. induction Hk as [|t k Ht _ IH]; intros l; cbn [foldl].
  { by rewrite orb_false_r. }
  rewrite IH, add_copy_contains by done. cbn [tid_list_contains existsb]. by rewrite orb_assoc.
Qed.

Lemma add_missing_spec k l :
  Forall valid k →
  (distinct l → distinct (foldl add_missing l k)) ∧
  ∀ u, tid_list_contains (foldl add_missing l k) u = tid_list_contains l u || tid_list_contains k u.
Proof.
  intros Hk. revert l. induction Hk as [|t k Ht _ IH]; intros l; cbn [foldl].
  { split; [done|]. intros u. by rewrite orb_false_r. }
  destruct (IH (add_missing l t)) as [Hd Hc]. split.
  - intros Hl. apply Hd. unfold add_missing. destruct (tid_list_contains l t) eqn:E; [done|].
    unfold add_copy. destruct (dup t) as [d|] eqn:Ed; [|done]. rewrite tid_list_append_mem.
    apply dup_same in Ed; [|done].
    apply distinct_app. split_and!; [done|done|]. intros x Hx. cbn. rewrite orb_false_r.
    destruct (same d x) eqn:Edx; [|done].
    assert (tid_list_contains l t = true); [|congruence]. apply contains_spec. exists x.
    split; [done|]. eapply same_trans; [by apply same_sym|done].
  - intros u. rewrite Hc. cbn [tid_list_contains existsb].
    assert (tid_list_contains (add_missing l t) u = tid_list_contains l u || same t u) as ->;
      [|by rewrite orb_assoc].
    unfold add_missing. destruct (tid_list_contains l t) eqn:E; [|by apply add_copy_contains].
    destruct (same t u) eqn:Etu; [|by rewrite orb_false_r].
    by rewrite <- (contains_same l t u Etu), E.
Qed.

End SetFacts.

(** Who has a source. *)
Lemma source_some {T} `{TidOps T} (inv : inventory T) t :
  is_Some (inventory_source inv t) ↔
  (has_source inv t = true ∨
   (tid_list_contains (nbft_iocs inv) t = true ∨ tid_list_contains (cfg_iocs inv) t = true)) ∨
  ∃ e, e ∈ dlp_cache inv ∧
       (tid_list_contains (iocs e) t = true ∨ tid_list_contains (referrals e) t = true) ∧
       dc_desired inv e = true.
Proof.
  unfold inventory_source, has_source.
  destruct (tid_list_contains (nbft_dcs inv) t); cbn [orb]; [split; [tauto|by eexists]|].
  destruct (tid_list_contains (nbft_iocs inv) t); [split; [tauto|by eexists]|].
  destruct (tid_list_contains (cfg_dcs inv) t); cbn [orb]; [split; [tauto|by eexists]|].
  destruct (tid_list_contains (cfg_iocs inv) t); [split; [tauto|by eexists]|].
  destruct (tid_list_contains (discovered_dcs inv) t); [split; [tauto|by eexists]|].
  rewrite fmap_is_Some. split.
  - intros [e He]. right. apply List.find_some in He as [He Hp].
    rewrite andb_true_iff, orb_true_iff, <- list_elem_of_In in *. by exists e.
  - intros [[?|[?|?]]|(e & He & Hc & Hd)]; [done..|].
    destruct (List.find _ (dlp_cache inv)) as [x|] eqn:E; [by eexists|]. exfalso.
    apply List.find_none with (x := e) in E; [|by apply list_elem_of_In].
    rewrite Hd, andb_true_r, orb_false_iff in E. destruct E. destruct Hc; congruence.
Qed.

(** ** Properties of the sets *)

(** C2: [inventory_referral_hops] is the length of the shortest chain of
    referrals from a DC with a source to the DC, when it has at most 8 hops,
    and -1 when there is no such chain; referral loops do not matter. *)
Theorem inventory_referral_hops_spec {T} `{TidOps T} (inv : inventory T) t :
  (∀ n, inventory_referral_hops inv t = Some n ↔
        reach inv n t ∧ (n ≤ 8)%nat ∧ ∀ m, reach inv m t → (n ≤ m)%nat) ∧
  (inventory_referral_hops inv t = None ↔ ∀ n, (n ≤ 8)%nat → ¬ reach inv n t).
Proof.
  unfold inventory_referral_hops, INVENTORY_MAX_REFERRAL_HOPS. split.
  - intros n. split.
    + intros Hn. pose proof (hops_sound _ _ _ _ Hn) as [Hr Hle]. split_and!; [done..|].
      intros m Hm. destruct (decide (m ≤ 8)%nat); [|lia].
      destruct (hops_complete inv 8 t m Hm) as (k & Hk & ?); [done|].
      rewrite Hn in Hk. injection Hk as <-. done.
    + intros (Hr & Hle & Hmin). destruct (hops_complete inv 8 t n Hr Hle) as (k & Hk & ?).
      pose proof (hops_sound _ _ _ _ Hk) as [Hr' _]. apply Hmin in Hr'.
      rewrite Hk. f_equal. lia.
  - rewrite eq_None_not_Some, hops_some. naive_solver.
Qed.

(** A TID is desired exactly when it is an I/O controller of NBFT or the
    configuration, a DC within 8 referral hops of a sourced DC, or an I/O
    controller in the cached log page of such a DC.  Whatever is desired has a
    source, and what has a source is desired unless it is known only as a
    referral of a DC that is itself 8 hops away. *)
Theorem inventory_is_desired_spec {T} `{TidOps T} (inv : inventory T) t :
  (inventory_is_desired inv t = true ↔
   tid_list_contains (nbft_iocs inv) t = true ∨ tid_list_contains (cfg_iocs inv) t = true ∨
   (∃ n, (n ≤ 8)%nat ∧ reach inv n t) ∨
   ∃ e n, e ∈ dlp_cache inv ∧ tid_list_contains (iocs e) t = true ∧ (n ≤ 8)%nat ∧
          reach inv n (dc_tid e)) ∧
  (inventory_is_desired inv t = true → is_Some (inventory_source inv t)) ∧
  (is_Some (inventory_source inv t) → inventory_is_desired inv t = false →
   ∃ e, e ∈ dlp_cache inv ∧ tid_list_contains (referrals e) t = true ∧
        inventory_referral_hops inv (dc_tid e) = Some 8%nat).
Proof.
  assert (Hd : inventory_is_desired inv t = true ↔
   tid_list_contains (nbft_iocs inv) t = true ∨ tid_list_contains (cfg_iocs inv) t = true ∨
   (∃ n, (n ≤ 8)%nat ∧ reach inv n t) ∨
   ∃ e n, e ∈ dlp_cache inv ∧ tid_list_contains (iocs e) t = true ∧ (n ≤ 8)%nat ∧
          reach inv n (dc_tid e)).
  { unfold inventory_is_desired. rewrite !orb_true_iff, bool_decide_eq_true, existsb_exists.
    unfold inventory_referral_hops. rewrite hops_some. setoid_rewrite andb_true_iff.
    setoid_rewrite dc_desired_spec. setoid_rewrite list_elem_of_In. naive_solver. }
  split; [done|]. rewrite source_some. split.
  - intros [Hi|[Hi|[(n & Hn & Hr)|(e & n & He & Hc & Hn & Hr)]]]%Hd; [tauto..| |].
    + destruct Hr as [t Hs|n e t He Hc Hr]; [by left; left|]. right. exists e.
      split_and!; [done|by right|]. apply dc_desired_spec. exists n. split; [lia|done].
    + right. exists e. split_and!; [done|by left|]. apply dc_desired_spec. by exists n.
  - intros Hs Hf. apply not_true_iff_false in Hf. rewrite Hd in Hf.
    destruct Hs as [[Hs|Hs]|(e & He & [Hc|Hc] & Hdc)].
    + destruct Hf. right. right. left. exists 0%nat. split; [lia|by constructor].
    + tauto.
    + destruct Hf. right. right. right. apply dc_desired_spec in Hdc as (n & ? & ?). by exists e, n.
    + exists e. split_and!; [done..|].
      unfold dc_desired in Hdc. apply bool_decide_eq_true in Hdc as [n Hn]. rewrite Hn.
      pose proof (hops_sound _ _ _ _ Hn) as [Hr Hle]. unfold INVENTORY_MAX_REFERRAL_HOPS in Hle.
      destruct (decide (n = 8)%nat) as [->|Hne]; [done|]. destruct Hf. right. right. left.
      exists (S n). split; [lia|]. by eapply reach_referral.
Qed.

(** A chain of nine referrals behind a configured DC. *)
Definition chain : inventory nat :=
  {| nbft_dcs := []; nbft_iocs := []; cfg_dcs := [0]; cfg_iocs := []; discovered_dcs := [];
     dlp_cache := map (λ i, {| dc_tid := i; iocs := []; referrals := [S i] |}) (seq 0 9);
     cfg_conns := []; lookups := []; nr_first_lookups := 0%Z |}%nat.

#[export] Instance nat_tid_ops : TidOps nat :=
  {| same := Nat.eqb; dup := Some; append_ok := λ _, true; calloc_ok := true |}.

(** [inventory_source] and [inventory_is_desired] disagree one hop past the
    limit: for the ninth DC of a chain of referrals the source is the log page
    of the eighth, though the DC is not desired. *)
Theorem inventory_source_past_limit :
  inventory_source chain 9%nat = Some (SrcDlp 8%nat) ∧ inventory_is_desired chain 9%nat = false.
Proof. split; vm_compute; reflexivity. Qed.

(** C4: The log page cache is a map from DCs to their last log page and the
    discovered DCs are a set: both invariants are kept by every operation,
    whichever allocation fails.  [inventory_update_dlp] sets the entry of one
    DC and no other: a DC that has no entry gets one exactly when its memory
    is there, and the entry holds the TIDs given, in their order, less those
    the array had no room for; [inventory_add_discovered_dc] adds one DC, when
    its copy and the room for it are there, and no other; and
    [inventory_forget_dc] removes one DC from both, without any allocation.
    The DC is required to be a TID whose copy compares as the same. *)
Theorem inventory_ops_spec {T} `{TidLaws T} (inv : inventory T) dc io re :
  inv_ok inv → valid dc →
  (let i := inventory_update_dlp inv dc io re in
   inv_ok i ∧ discovered_dcs i = discovered_dcs inv ∧
   ∀ d, if same dc d then
          if is_some (lookup_dlp inv dc) || calloc_ok && is_some (dup dc) then
            ∃ e, lookup_dlp i d = Some e ∧ same (dc_tid e) d = true ∧
                 iocs e `sublist_of` default [] io ∧ referrals e `sublist_of` default [] re ∧
                 ((∀ l : list T, append_ok l = true) → iocs e = default [] io ∧ referrals e = default [] re)
          else lookup_dlp i d = None
        else lookup_dlp i d = lookup_dlp inv d) ∧
  (let i := inventory_add_discovered_dc inv dc in
   inv_ok i ∧ dlp_cache i = dlp_cache inv ∧
   ∀ d, tid_list_contains (discovered_dcs i) d =
        same dc d && is_some (dup dc) && append_ok (discovered_dcs inv) ||
        tid_list_contains (discovered_dcs inv) d) ∧
  (let i := inventory_forget_dc inv dc in
   inv_ok i ∧
   (∀ d, lookup_dlp i d = if same dc d then None else lookup_dlp inv d) ∧
   ∀ d, tid_list_contains (discovered_dcs i) d =
        tid_list_contains (discovered_dcs inv) d && negb (same dc d)).
Proof.
  intros Hinv Hv. split_and!; [by apply update_dlp_spec|by apply add_discovered_spec|].
  destruct Hinv as [Hkeys Hdisc]. cbv zeta.
  unfold inventory_forget_dc, lookup_dlp, inv_ok. cbn [dlp_cache set_cache discovered_dcs set_discovered].
  destruct (tid_list_remove_spec _ dc Hdisc) as [H1 H2].
  destruct (remove_entry_spec _ dc Hkeys) as [H3 H4]. done.
Qed.

#[export] Instance nat_tid_laws : TidLaws nat.
Proof.
  refine {| valid := λ _, True |}; cbn [same dup nat_tid_ops].
  - apply Nat.eqb_refl.
  - intros t u. by rewrite Nat.eqb_sym.
  - intros t u v ->%Nat.eqb_eq. done.
  - intros t u _ [= ->]. apply Nat.eqb_refl.
Defined.

#[export] Instance nat_tid_mem : TidMem nat.
Proof. split; [by eexists|done..]. Qed.

Section Desired.
Context {T : Type} `{TidLaws T} `{!TidMem T}.

Lemma add_copies_eq (l k : list T) :
  Forall valid k → ∃ k', foldl add_copy l k = l ++ k' ∧ Forall2 (λ d t, same d t = true) k' k.
Proof.
  intros Hk. revert l. induction Hk as [|t k Ht _ IH]; intros l; cbn [foldl].
  { exists []. by rewrite app_nil_r. }
  unfold add_copy at 2. destruct (dup_some t) as [d Hd]. rewrite Hd, tid_list_append_mem.
  destruct (IH (l ++ [d])) as (k' & -> & Hs). exists (d :: k'). rewrite <- app_assoc.
  split; [done|]. constructor; [by apply dup_same|done].
Qed.

Lemma distinct_copies (k' k : list T) :
  Forall2 (λ d t, same d t = true) k' k → distinct k → distinct k'.
Proof.
  assert (Hc : ∀ k' k u, Forall2 (λ d t, same d t = true) k' k →
    tid_list_contains k' u = tid_list_contains k u).
  { intros a b u. induction 1 as [|d t a b Hs _ IH]; [done|]. cbn [tid_list_contains existsb].
    unfold tid_list_contains in IH. rewrite IH. f_equal.
    apply eq_true_iff_eq. split; intros; eapply same_trans; eauto using same_sym. }
  induction 1 as [|d t a b Hs Ha IH]; [done|]. cbn [distinct]. intros [Hn Hd].
  split; [|by apply IH]. by rewrite (Hc _ b), (contains_same b d t).
Qed.

Lemma merge_spec (a b : list T) :
  Forall valid a → Forall valid b →
  let l := foldl add_missing (foldl add_copy [] a) b in
  (distinct a → distinct l) ∧
  ∀ u, tid_list_contains l u = tid_list_contains a u || tid_list_contains b u.
Proof.
  intros Ha Hb. cbv zeta. destruct (add_missing_spec b (foldl add_copy [] a) Hb) as [Hd Hc]. split.
  - intros Hda. apply Hd. destruct (add_copies_eq [] a Ha) as (k' & -> & Hk).
    by eapply distinct_copies.
  - intros u. by rewrite Hc, add_copies_contains.
Qed.

End Desired.

(** The startup lists: [inventory_desired_dcs] holds exactly the DCs of
    NBFT, the configuration and discovery, [inventory_desired_iocs] exactly
    the I/O controllers of NBFT and the configuration, and no TID occurs twice
    unless NBFT itself names it twice. *)
Theorem inventory_desired_spec {T} `{TidLaws T} `{!TidMem T} (inv : inventory T) :
  Forall valid (nbft_dcs inv) → Forall valid (cfg_dcs inv) → Forall valid (discovered_dcs inv) →
  Forall valid (nbft_iocs inv) → Forall valid (cfg_iocs inv) →
  (∃ l, inventory_desired_dcs inv = Some l ∧ (distinct (nbft_dcs inv) → distinct l) ∧
        ∀ u, tid_list_contains l u = has_source inv u) ∧
  (∃ l, inventory_desired_iocs inv = Some l ∧ (distinct (nbft_iocs inv) → distinct l) ∧
        ∀ u, tid_list_contains l u =
             tid_list_contains (nbft_iocs inv) u || tid_list_contains (cfg_iocs inv) u).
Proof.
  intros H1 H2 H3 H4 H5. unfold inventory_desired_dcs, inventory_desired_iocs. rewrite calloc_some.
  split; eexists; (split; [done|]).
  - destruct (merge_spec (nbft_dcs inv) (cfg_dcs inv) H1 H2) as [Hd Hc].
    destruct (add_missing_spec (discovered_dcs inv) (foldl add_missing (foldl add_copy [] (nbft_dcs inv))
      (cfg_dcs inv)) H3) as [Hd' Hc'].
    split; [tauto|]. intros u. by rewrite Hc', Hc.
  - apply merge_spec; done.
Qed.

Lemma inventory_desired_spec_witness :
  ∃ l, inventory_desired_dcs chain = Some l ∧ (distinct (nbft_dcs chain) → distinct l) ∧
       ∀ u, tid_list_contains l u = has_source chain u.
Proof.
  apply (inventory_desired_spec chain); repeat constructor.
Defined.

(** ** TIDs implement the interface *)

(** A cached canonical form is the canonical form. *)
Definition coherent (t : libnvmf_tid) : Prop :=
  ∀ c, canonical_cache t = Some c → c = canonical_text t.

Lemma get_canonical_coherent `{Alloc} t :
  coherent t → strdup_ok (canonical_text t) = true →
  snd (libnvmf_tid_get_canonical t) = Some (canonical_text t).
Proof.
  intros Hc Hm. unfold libnvmf_tid_get_canonical. destruct (canonical_cache t) as [c|] eqn:E; cbn [snd].
  - by rewrite <- (Hc c E).
  - unfold strdup. by rewrite Hm.
Qed.

Lemma canonical_text_ext a b : (∀ f, get a f = get b f) → canonical_text a = canonical_text b.
Proof.
  intros Hg. unfold canonical_text. generalize (([], 0%nat) : list Z * nat).
  induction all_fields as [|f fs IH]; intros st; cbn [foldl]; [done|].
  rewrite IH. do 2 f_equal. unfold canonical_append. by rewrite Hg.
Qed.

(** A copy has the fields of the original, and no caches. *)
Lemma tid_dup_fields `{Alloc} t u :
  libnvmf_tid_dup (Some t) = Some u → (∀ f, get u f = get t f) ∧ canonical_cache u = None.
Proof.
  cbn [libnvmf_tid_dup mbind option_bind]. destruct (negb tid_new_ok); [done|].
  unfold copy_fields. cbv zeta. destruct (_ || _) eqn:E; [done|]. rewrite !orb_false_iff in E.
  intros [= <-]. split; [|done].
  intros []; cbn [get]; apply shr_xstrdup_ok; tauto.
Qed.

(** A copy is the same TID where the text of the canonical form can be made. *)
#[export] Instance discoverd_tid_laws `{Alloc} `{Heap} : TidLaws libnvmf_tid.
Proof.
  refine {| valid := λ t, coherent t ∧ strdup_ok (canonical_text t) = true |};
    cbn [same dup discoverd_tid_ops]; unfold tid_same.
  - intros t. apply shr_streq0_refl.
  - intros t u. rewrite !shr_streq0_spec. by intros ->.
  - intros t u v. rewrite !shr_streq0_spec. by intros -> ->.
  - intros t u [Hc Hm] [Hg Hn]%tid_dup_fields. rewrite shr_streq0_spec.
    pose proof (canonical_text_ext _ _ Hg) as Ht.
    rewrite !get_canonical_coherent; [by rewrite Ht|done|done|by intros c; rewrite Hn|by rewrite Ht].
Defined.

(** Two DCs with their log pages, on a machine that has memory for small
    arrays and for no new entry of the cache. *)
Module OpsSample.
Definition small_heap : Heap := {| grow_ok := λ n, (n <? 2)%nat; block_ok := false |}.
Definition dc (a : list Z) : libnvmf_tid :=
  {| transport := Some (lit "tcp"); traddr := Some a; trsvcid := Some (lit "8009");
     subsysnqn := None; host_traddr := None; host_iface := None; hostnqn := None;
     hostid := None; canonical_cache := None; str_cache := None |}.
Definition inv : inventory libnvmf_tid :=
  {| nbft_dcs := []; nbft_iocs := []; cfg_dcs := []; cfg_iocs := []; discovered_dcs := [dc (lit "0a000001")];
     dlp_cache := [{| dc_tid := dc (lit "0a000001"); iocs := []; referrals := [] |};
                   {| dc_tid := dc (lit "0a000002"); iocs := [dc (lit "0a000009")]; referrals := [] |}];
     cfg_conns := []; lookups := []; nr_first_lookups := 0 |}.
Definition ops : TidOps libnvmf_tid := @discoverd_tid_ops all_memory small_heap.
Definition laws : @TidLaws libnvmf_tid ops := @discoverd_tid_laws all_memory small_heap.
End OpsSample.

Lemma inventory_ops_spec_witness :
  let dc1 := OpsSample.dc (lit "0a000001") in
  let dc2 := OpsSample.dc (lit "0a000002") in
  let io := OpsSample.dc (lit "0a000003") in
  let i := @inventory_update_dlp _ OpsSample.ops OpsSample.inv dc1 (Some [io; io; io]) (Some [dc2]) in
  let j := @inventory_forget_dc _ OpsSample.ops OpsSample.inv dc2 in
  @inv_ok _ OpsSample.ops i ∧
  (∃ e, @lookup_dlp _ OpsSample.ops i dc1 = Some e ∧ iocs e `sublist_of` [io; io; io]) ∧
  @lookup_dlp _ OpsSample.ops i dc2 = @lookup_dlp _ OpsSample.ops OpsSample.inv dc2 ∧
  @lookup_dlp _ OpsSample.ops j dc2 = None ∧
  @tid_list_contains _ OpsSample.ops (discovered_dcs j) dc1 = true.
Proof.
  intros dc1 dc2 io i j.
  assert (Hok : @inv_ok _ OpsSample.ops OpsSample.inv) by (vm_compute; repeat split).
  assert (Hv : ∀ a, @valid _ _ OpsSample.laws (OpsSample.dc a)) by (intros a; split; done).
  destruct (@inventory_ops_spec _ OpsSample.ops OpsSample.laws OpsSample.inv dc1 (Some [io; io; io]) (Some [dc2])
              Hok (Hv _)) as ((Hi & _ & Hl) & _).
  destruct (@inventory_ops_spec _ OpsSample.ops OpsSample.laws OpsSample.inv dc2 None None
              Hok (Hv _)) as (_ & _ & _ & Hf & Hc).
  pose proof (Hl dc1) as H1. pose proof (Hl dc2) as H2. pose proof (Hf dc2) as H3. pose proof (Hc dc1) as H4.
  assert (E1 : @same _ OpsSample.ops dc1 dc1 = true) by (vm_compute; reflexivity).
  assert (E2 : @same _ OpsSample.ops dc1 dc2 = false) by (vm_compute; reflexivity).
  assert (E3 : @same _ OpsSample.ops dc2 dc2 = true) by (vm_compute; reflexivity).
  assert (E4 : @same _ OpsSample.ops dc2 dc1 = false) by (vm_compute; reflexivity).
  assert (E5 : is_some (@lookup_dlp _ OpsSample.ops OpsSample.inv dc1) = true) by (vm_compute; reflexivity).
  assert (E6 : @tid_list_contains _ OpsSample.ops (discovered_dcs OpsSample.inv) dc1 = true) by (vm_compute; reflexivity).
  rewrite E1, E5 in H1. rewrite E2 in H2. rewrite E3 in H3. rewrite E4, E6 in H4.
  destruct H1 as (e & He & _ & Hs & _). split; [exact Hi|]. split; [exists e; split; [exact He|exact Hs]|].
  split; [exact H2|]. split; [exact H3|exact H4].
Defined.

(** ** Name lookups *)

(** Lookups whose first query has not ended. *)
Definition first_count (ls : list cfg_lookup) : Z :=
  Z.of_nat (length (List.filter l_first ls)).

(** One lookup: its backoff is in range, it does not wait for a query and a
    timer at once, and its first lookup is a query under way. *)
Definition lookup_ok (l : cfg_lookup) : Prop :=
  LOOKUP_RETRY_MIN_SEC ≤ l_retry_sec l ≤ LOOKUP_RETRY_MAX_SEC ∧
  l_query l && l_timer l = false ∧ (l_first l = true → l_query l = true).

Definition lookups_ok (inv : inventory libnvmf_tid) : Prop :=
  Forall lookup_ok (lookups inv) ∧ nr_first_lookups inv = first_count (lookups inv) ∧
  Z.of_nat (length (lookups inv)) < 2 ^ 32.

Section LookupFacts.
Context `{Alloc} `{Inet} `{Heap}.

(** What the event loop does to the lookups: load a configuration, end a
    query, fire a timer. *)
Inductive lookup_step (dctx : discoverd_ctx) : inventory libnvmf_tid → inventory libnvmf_tid → Prop :=
| step_load inv env :
    Z.of_nat (length (default [] (ctx_fabrics_cfg dctx))) < 2 ^ 32 →
    lookup_step dctx inv (inventory_load_config inv dctx env)
| step_query inv env i l addr :
    lookups inv !! i = Some l → l_query l = true →
    lookup_step dctx inv (fst (on_lookup inv dctx env i addr))
| step_timer inv env i l :
    lookups inv !! i = Some l → l_timer l = true →
    lookup_step dctx inv (retry_lookup inv env i).

Lemma add_config_conn_lookups inv dctx conn addr :
  let inv' := fst (add_config_conn inv dctx conn addr) in
  lookups inv' = lookups inv ∧ nr_first_lookups inv' = nr_first_lookups inv.
Proof. cbv zeta. unfold add_config_conn. repeat case_match; done. Qed.

Lemma schedule_ok env l :
  LOOKUP_RETRY_MIN_SEC ≤ l_retry_sec l ≤ LOOKUP_RETRY_MAX_SEC → l_query l = false → l_first l = false →
  lookup_ok (schedule_lookup_retry env l) ∧ l_first (schedule_lookup_retry env l) = false.
Proof.
  unfold schedule_lookup_retry, lookup_ok, LOOKUP_RETRY_MIN_SEC, LOOKUP_RETRY_MAX_SEC, u32.
  intros Hr Hq Hf. destruct (timer_ok env (l_conn l)); [|rewrite Hq, Hf; by split_and!; try lia].
  cbn [l_retry_sec l_query l_timer l_first]. rewrite Hq, Hf. split_and!; try done;
    destruct (Z.ltb_spec (l_retry_sec l) 300); rewrite ?Z.mod_small by lia;
    destruct (Z.ltb_spec 300 (l_retry_sec l * 2)); destruct (Z.ltb_spec 300 (l_retry_sec l)); try lia.
Qed.

Lemma start_lookup_ok env l :
  LOOKUP_RETRY_MIN_SEC ≤ l_retry_sec l ≤ LOOKUP_RETRY_MAX_SEC →
  l_query l = false → l_timer l = false → l_first l = false →
  lookup_ok (fst (start_lookup env l)) ∧ l_first (fst (start_lookup env l)) = false.
Proof.
  intros Hr Hq Ht Hf. unfold start_lookup. destruct (resolve_ok env (l_conn l)).
  - cbn [fst]. unfold lookup_ok. cbn [l_retry_sec l_query l_timer l_first].
    rewrite Ht, Hf. by split_and!; try lia.
  - by apply schedule_ok.
Qed.

Lemma first_count_app a b : first_count (a ++ b) = first_count a + first_count b.
Proof. unfold first_count. rewrite List.filter_app, length_app. lia. Qed.

Lemma first_count_cons l ls : first_count (l :: ls) = (if l_first l then 1 else 0) + first_count ls.
Proof. unfold first_count. cbn [List.filter]. destruct (l_first l); simpl; lia. Qed.

Lemma first_count_le ls : 0 ≤ first_count ls ≤ Z.of_nat (length ls).
Proof.
  induction ls as [|l ls IH]; [done|]. rewrite first_count_cons. cbn [length].
  destruct (l_first l); lia.
Qed.

Lemma add_lookup_ok inv dctx env conn :
  lookups_ok inv → Z.of_nat (S (length (lookups inv))) < 2 ^ 32 →
  lookups_ok (add_lookup inv dctx env conn) ∧
  (length (lookups (add_lookup inv dctx env conn)) ≤ S (length (lookups inv)))%nat.
Proof.
  intros (Hf & Hn & Hl) Hlt. unfold add_lookup.
  destruct (negb (ctx_resolver dctx)); [split; [done|lia]|].
  destruct (negb block_ok); [split; [done|lia]|].
  set (l0 := {| l_conn := conn; l_query := false; l_timer := false; l_retry_sec := _; l_first := _ |}).
  destruct (start_lookup_ok env l0) as [Hok Hfst]; [done..|].
  pose proof (first_count_le (lookups inv)).
  unfold start_lookup in *. destruct (resolve_ok env (l_conn l0)); cbn [fst] in *;
    cbn [lookups set_lookups nr_first_lookups]; rewrite length_app; cbn [length];
    (split; [|lia]); unfold lookups_ok; cbn [lookups set_lookups nr_first_lookups];
    rewrite first_count_app, first_count_cons, length_app; cbn [length l_first];
    change (first_count []) with 0.
  - split_and!; [|unfold u32; rewrite Z.mod_small; lia|lia].
    apply Forall_app. split; [done|]. repeat constructor; done.
  - rewrite Hfst. split_and!; [|lia|lia].
    apply Forall_app. split; [done|]. by apply list.Forall_singleton.
Qed.

Lemma load_loop_ok dctx env conns inv :
  lookups_ok inv → Z.of_nat (length (lookups inv) + length conns) < 2 ^ 32 →
  lookups_ok (foldl (load_config_conn_callback dctx env) inv conns).
Proof.
  revert inv. induction conns as [|c conns IH]; intros inv Hok Hl; cbn [foldl]; [done|].
  cbn [length] in Hl. unfold load_config_conn_callback at 2. destruct (_ || _).
  - destruct (add_config_conn_lookups inv dctx c (conn_get c Traddr)) as [E1 E2].
    apply IH; unfold lookups_ok; rewrite ?E1, ?E2; [done|lia].
  - destruct (add_lookup_ok inv dctx env c Hok) as [Hok' Hlen]; [lia|]. apply IH; [done|lia].
Qed.

Lemma on_lookup_ok inv dctx env i addr l :
  lookups_ok inv → lookups inv !! i = Some l → lookups_ok (fst (on_lookup inv dctx env i addr)).
Proof.
  intros (Hf & Hn & Hl) Hi. unfold on_lookup. rewrite Hi.
  pose proof (Forall_lookup_1 _ _ _ _ Hf Hi) as (Hr & Hqt & Hfq).
  set (nr := if l_first l then _ else _).
  pose proof (take_drop_middle _ _ _ Hi) as Hsplit.
  assert (Hnr : nr = first_count (take i (lookups inv)) + first_count (drop (S i) (lookups inv))).
  { subst nr. pose proof (first_count_le (lookups inv)). rewrite Hn.
    assert (E : first_count (lookups inv) = first_count (take i (lookups inv)) +
      ((if l_first l then 1 else 0) + first_count (drop (S i) (lookups inv)))).
    { by rewrite <- first_count_cons, <- first_count_app, Hsplit. }
    pose proof (first_count_le (take i (lookups inv))).
    pose proof (first_count_le (drop (S i) (lookups inv))).
    unfold u32. destruct (l_first l); [rewrite Z.mod_small|]; lia. }
  destruct addr as [a|].
  - destruct (add_config_conn_lookups inv dctx (l_conn l) (Some a)) as [E1 _].
    cbn [l_conn]. destruct (add_config_conn _ _ _ _) as [inv' added]. cbn [fst] in E1 |- *.
    unfold lookups_ok. cbn [lookups set_lookups nr_first_lookups]. rewrite E1, first_count_app.
    split_and!; [|done|].
    + apply Forall_app. split; [by apply Forall_take|by apply Forall_drop].
    + rewrite length_app, length_take, length_drop. lia.
  - set (l' := schedule_lookup_retry env _).
    assert (Hl' : lookup_ok l' ∧ l_first l' = false) by (by apply schedule_ok).
    destruct Hl' as [Hl'1 Hl'2]. cbn [fst]. unfold lookups_ok.
    cbn [lookups set_lookups nr_first_lookups]. rewrite length_insert. split_and!; [|  |done].
    + by apply Forall_insert.
    + rewrite insert_take_drop by (by eapply lookup_lt_Some).
      rewrite first_count_app, first_count_cons, Hl'2. lia.
Qed.

Lemma retry_lookup_ok inv env i l :
  lookups_ok inv → lookups inv !! i = Some l → l_timer l = true →
  lookups_ok (retry_lookup inv env i).
Proof.
  intros (Hf & Hn & Hl) Hi Ht. unfold retry_lookup. rewrite Hi.
  pose proof (Forall_lookup_1 _ _ _ _ Hf Hi) as (Hr & Hqt & Hfq).
  rewrite Ht, andb_true_r in Hqt.
  assert (Hfst : l_first l = false).
  { destruct (l_first l); [|done]. rewrite Hfq in Hqt by done. done. }
  set (l' := fst (start_lookup env _)).
  assert (Hl' : lookup_ok l' ∧ l_first l' = false) by (by apply start_lookup_ok).
  destruct Hl' as [Hl'1 Hl'2]. unfold lookups_ok. cbn [lookups set_lookups nr_first_lookups].
  rewrite length_insert. split_and!; [by apply Forall_insert| |done].
  rewrite insert_take_drop by (by eapply lookup_lt_Some).
  rewrite Hn, <- (take_drop_middle _ _ _ Hi) at 1.
  by rewrite !first_count_app, !first_count_cons, Hl'2, Hfst.
Qed.

Lemma lookup_step_ok dctx inv inv' : lookups_ok inv → lookup_step dctx inv inv' → lookups_ok inv'.
Proof.
  intros Hok Hs. inversion Hs; subst; clear Hs.
  - apply load_loop_ok; [|simpl; lia]. by split_and!.
  - by eapply on_lookup_ok.
  - by eapply retry_lookup_ok.
Qed.

End LookupFacts.

(** In every state the event loop can bring the inventory to, each
    lookup's backoff is between 1 and 300 seconds, no lookup waits for both a
    query and a timer, the unsigned counter [nr_first_lookups] is exactly the
    number of lookups whose first query is still under way, so that it never
    wraps, and [inventory_config_pending] says whether there is one. *)
Theorem lookups_invariant `{Alloc} `{Inet} `{Heap} dctx inv :
  rtc (lookup_step dctx) inventory_new inv →
  lookups_ok inv ∧
  (inventory_config_pending inv = true ↔ ∃ l, l ∈ lookups inv ∧ l_first l = true).
Proof.
  intros Hr. assert (Hok : lookups_ok inv).
  { remember inventory_new as i0 eqn:E0. assert (lookups_ok i0) as Hi0 by (by subst; split_and!).
    clear E0. induction Hr as [|x y z Hxy _ IH]; [done|]. apply IH. by eapply lookup_step_ok. }
  split; [done|]. destruct Hok as (_ & Hn & _). unfold inventory_config_pending. rewrite Hn.
  unfold first_count. rewrite Z.ltb_lt. split.
  - intros Hlt. destruct (List.filter l_first (lookups inv)) as [|l ls] eqn:E; [done|].
    exists l. assert (In l (List.filter l_first (lookups inv))) as Hin by (rewrite E; by left).
    apply filter_In in Hin as [? ?]. by rewrite list_elem_of_In.
  - intros (l & Hl & Hf). assert (In l (List.filter l_first (lookups inv))) as Hin.
    { apply filter_In. by rewrite <- list_elem_of_In. }
    destruct (List.filter l_first (lookups inv)); [done|]. simpl. lia.
Qed.

(** A context with one configured DC given by its host name. *)
Definition sample_ctx : discoverd_ctx :=
  {| ctx_hostnqn := None; ctx_hostid := None; ctx_resolver := true;
     ctx_fabrics_cfg := Some [{| conn_is_dc := true; conn_get := λ f,
       match f with Transport => Some (lit "tcp") | Traddr => Some (lit "dc.example")
       | _ => None end |}] |}.

Definition all_heap : Heap := {| grow_ok := λ _, true; block_ok := true |}.

Lemma lookups_invariant_witness :
  let inv := @inventory_load_config all_memory hex_inet all_heap inventory_new sample_ctx
    {| resolve_ok := λ _, true; timer_ok := λ _, true |} in
  inventory_config_pending inv = true ↔ ∃ l, l ∈ lookups inv ∧ l_first l = true.
Proof.
  apply (@lookups_invariant all_memory hex_inet all_heap sample_ctx).
  apply rtc_once. apply step_load. vm_compute. reflexivity.
Defined.
