(* ===== verification/Nbft.v ===== *)
(** * The NBFT parser: [libnvme/src/nvme/nbft.c]

    The NVMe Boot Firmware Table is an ACPI table that the firmware leaves for
    the operating system; libnvme parses it from a file.  The model keeps the
    table as the bytes in memory and every access explicit: a pointer into
    the table is an offset, and a read that is not inside of the table is
    [Fault], with the place in the code that made it.  So that the parser
    never faults is a theorem, not a convention.

    The offsets of the fields are those of [nvme-types-nbft.h]; [inet_ntop]
    is the interface [Inet]; [calloc] may fail at each of its calls. *)

From Stdlib Require Import String.
From stdpp Require Import base list numbers.
From S2P Require Import Prelude.
From S2P Require Import CStr.
From S2P Require Import Nqn.
From S2P Require Import Tid.

(** ** Memory accesses *)

(** The read of the DHCP identity association, a write through a list that
    could not be allocated, a write past the end of [ssns->hfis], and every
    other read. *)
Inductive site := FieldRead | IaidRead | NullWrite | HfisWrite.

Inductive access (A : Type) :=
| Ret (a : A)
| Fault (s : site).
Arguments Ret {A} a.
Arguments Fault {A} s.

#[export] Instance access_ret : MRet access := λ A x, Ret x.
#[export] Instance access_bind : MBind access := λ A B f m,
  match m with Ret x => f x | Fault s => Fault s end.
#[export] Instance access_fmap : FMap access := λ A B f m,
  match m with Ret x => Ret (f x) | Fault s => Fault s end.

(** [n] bytes at the offset [p]. *)
Definition load_at (s : site) (buf : list Z) (p n : Z) : access (list Z) :=
  if (0 <=? p) && (p + n <=? Z.of_nat (length buf))
  then Ret (take (Z.to_nat n) (drop (Z.to_nat p) buf)) else Fault s.
Definition load := load_at FieldRead.

Definition ld8 (buf : list Z) (p : Z) : access Z := le <$> load buf p 1.
Definition ld16 (buf : list Z) (p : Z) : access Z := le <$> load buf p 2.
Definition ld32 (buf : list Z) (p : Z) : access Z := le <$> load buf p 4.

(** A flag of a word is set. *)
Definition flag (w f : Z) : bool := negb (Z.land w f =? 0).

(** A C function with an [int] result: [M A] succeeds, fails or faults. *)
Abbreviation M A := (access (result A)) (only parsing).

(** [ret = m; if (ret) goto fail;] *)
Definition try {A B} (m : M A) (f : A → M B) : M B :=
  r ← m; match r with Ok a => f a | Err e => Ret (Err e) end.
(** [verify(ctx, c, ...)] *)
Definition verify {A} (c : bool) (m : M A) : M A := if c then m else Ret (Err EINVAL).

Declare Scope access_scope.
Delimit Scope access_scope with access.
Notation "'let?' x := m 'in' k" := (try m (λ x, k))
  (at level 10, x pattern, m at level 100, k at level 200) : access_scope.
#[local] Open Scope access_scope.

(** ** Layout *)

Record nbft_heap_obj := { obj_offset : Z; obj_length : Z }.

Definition ld_obj (buf : list Z) (p : Z) : access nbft_heap_obj :=
  off ← ld32 buf p; len ← ld16 buf (p + 4);
  Ret {| obj_offset := off; obj_length := len |}.

Definition NBFT_HEADER_SIG : list Z := lit "NBFT".
Definition sizeof_header : Z := 64.
Definition header_length (buf : list Z) : access Z := ld32 buf 4.
Definition header_major_revision (buf : list Z) : access Z := ld8 buf 8.
Definition header_heap_offset (buf : list Z) : access Z := ld32 buf 36.
Definition header_heap_length (buf : list Z) : access Z := ld32 buf 40.
Definition header_minor_revision (buf : list Z) : access Z := ld8 buf 50.

Definition sizeof_control : Z := 64.
Definition sizeof_host : Z := 32.
Definition sizeof_hfi : Z := 32.
Definition sizeof_hfi_info_tcp : Z := 128.
Definition sizeof_hfi_info_ext : Z := 20.
Definition sizeof_ssns : Z := 128.
Definition sizeof_ssns_ext_info : Z := 23.
Definition offsetof_naed : Z := 18.
Definition sizeof_security : Z := 64.
Definition sizeof_discovery : Z := 32.

Definition NBFT_DESC_CONTROL : Z := 1.
Definition NBFT_DESC_HOST : Z := 2.
Definition NBFT_DESC_HFI : Z := 3.
Definition NBFT_DESC_SSNS : Z := 4.
Definition NBFT_DESC_SECURITY : Z := 5.
Definition NBFT_DESC_DISCOVERY : Z := 6.
Definition NBFT_DESC_HFI_TRINFO : Z := 7.
Definition NBFT_DESC_SSNS_EXT_INFO : Z := 9.
Definition NBFT_DESC_HFI_EXT_INFO : Z := 10.
Definition NBFT_TRTYPE_TCP : Z := 3.

(** The valid bit of every descriptor, and the other flags. *)
Definition NBFT_VALID : Z := 1.
Definition NBFT_HFI_INFO_TCP_DHCP_OVERRIDE : Z := 4.
Definition NBFT_HFI_INFO_EXT_DCI : Z := 2.
Definition NBFT_SSNS_EXTENDED_INFO_IN_USE : Z := 16.
Definition NBFT_SSNS_EXT_INFO_ADMIN_ASQSZ : Z := 2.
Definition NBFT_SECURITY_AUTH_POLICY_LIST_MASK : Z := 24.
Definition NBFT_SECURITY_SEC_POLICY_LIST_MASK : Z := 384.
Definition NBFT_SECURITY_CIPHER_RESTRICTED : Z := 512.
Definition NBFT_SECURITY_AUTH_KX_GROUPS_RESTRICTED : Z := 1024.
Definition NBFT_SECURITY_SEC_HASH_FUNC_POLICY_LIST : Z := 2048.

(** ** The parsed table

    A pointer into the table is its offset, NULL is [None]; a pointer to a
    parsed descriptor is its place in its list. *)

Record libnbft_host := { host_id : Z; host_nqn : Z; host_flags : Z }.

Record libnbft_hfi_info_tcp := {
  pci_sbdf : Z; mac_addr : list Z; vlan : Z; ip_origin : Z; ipaddr : list Z;
  subnet_mask_prefix : Z; gateway_ipaddr : list Z; route_metric : Z;
  primary_dns_ipaddr : list Z; secondary_dns_ipaddr : list Z; dhcp_server_ipaddr : list Z;
  host_name : option Z; tcp_flags : Z; pcie_seg_num : Z; dhcp_iaid : Z; dhcp_duid : list Z }.

Record libnbft_hfi := { hfi_index : Z; hfi_transport : list Z; tcp_info : libnbft_hfi_info_tcp }.

(** A policy list: where it is, and its length. *)
Abbreviation bytes_ref := (option (Z * Z)) (only parsing).

Record libnbft_security := {
  sec_index : Z; sec_flags : Z; secret_type : Z; sec_chan_algs : bytes_ref;
  auth_protocols : bytes_ref; cipher_suites : bytes_ref; kx_groups : bytes_ref;
  sec_hash_funcs : bytes_ref; secret_keypath : option Z }.

Record libnbft_discovery := {
  disc_index : Z; disc_security : option nat; disc_hfi : nat; uri : Z; disc_nqn : option Z }.

Record libnbft_subsystem_ns := {
  ns_index : Z; ns_discovery : option nat; ns_security : option nat; hfis : list nat;
  ns_transport : list Z; ns_traddr : list Z; ns_trsvcid : Z; subsys_port_id : Z; nsid : Z;
  nid_type : Z; nid : Z; subsys_nqn : Z; trflags : Z; controller_id : Z; asqsz : Z;
  dhcp_root_path_string : option Z; naed : Z; cipeec : Z; cto : Z; nceec : Z; ns_flags : Z }.

Record libnbft_info := {
  nbft_host : libnbft_host;
  hfi_list : list libnbft_hfi;
  security_list : list libnbft_security;
  discovery_list : list libnbft_discovery;
  subsystem_ns_list : list libnbft_subsystem_ns }.

(** ** Checks *)

Definition csum (buffer : list Z) : Z := foldl (λ sum b, u8 (sum + b)) 0 buffer.

Definition range_valid (offset length limit : Z) : bool :=
  (offset <=? limit) && (length <=? u64 (limit - offset)).

Definition in_heap (buf : list Z) (obj : nbft_heap_obj) : access bool :=
  heap_offset ← header_heap_offset buf;
  heap_length ← header_heap_length buf;
  table_length ← header_length buf;
  Ret (if obj_length obj =? 0 then true
       else if negb (range_valid heap_offset heap_length table_length) then false
       else if obj_offset obj <? heap_offset then false
       else range_valid (u64 (obj_offset obj - heap_offset)) (obj_length obj) heap_length).

Definition descriptor_list_valid (buf : list Z) (offset length count minimum_length : Z) :
    access bool :=
  table_length ← header_length buf;
  Ret (if (length <? minimum_length) || (offset =? 0) || (table_length <? offset) then false
       else count <=? u64 (table_length - offset) / length).

Definition descriptor_at (array index length : Z) : Z := array + index * length.

Definition trtype_to_string (transport_type : Z) : list Z :=
  if transport_type =? NBFT_TRTYPE_TCP then lit "tcp" else lit "invalid".

(** [strnlen] at the offset [p]. *)
Fixpoint strnlen_at (buf : list Z) (p : Z) (n : nat) : access Z :=
  match n with
  | O => Ret 0
  | S n' => c ← ld8 buf p; if c =? 0 then Ret 0 else (λ k, k + 1) <$> strnlen_at buf (p + 1) n'
  end.

(** [__get_heap_obj]: the offset of the object. *)
Definition get_heap_obj (buf : list Z) (obj : nbft_heap_obj) (is_string : bool) (min_len : Z) : M Z :=
  if obj_length obj =? 0 then Ret (Err ENOENT)
  else
    ok ← in_heap buf obj;
    if negb ok then Ret (Err EINVAL)
    else if negb is_string && (obj_length obj <? min_len) then Ret (Err EINVAL)
    else if is_string then
      table_length ← header_length buf;
      let max := u64 (table_length - obj_offset obj) in
      let n := if obj_length obj + 1 <? max then obj_length obj + 1 else max in
      len ← strnlen_at buf (obj_offset obj) (Z.to_nat n);
      if len =? n then Ret (Err EINVAL) else Ret (Ok (obj_offset obj))
    else Ret (Ok (obj_offset obj)).

(** The place of the element with an index. *)
Definition from_index {A} (index : A → Z) (l : list A) (i : Z) : option nat :=
  fst <$> list_find (λ x, index x = i) l.
Definition discovery_from_index (l : list libnbft_discovery) : Z → option nat := from_index disc_index l.
Definition hfi_from_index (l : list libnbft_hfi) : Z → option nat := from_index hfi_index l.
Definition security_from_index (l : list libnbft_security) : Z → option nat := from_index sec_index l.

Definition opt {A} (r : result A) : option A := match r with Ok a => Some a | Err _ => None end.

Section Nbft.
Context `{Inet}.

(** The calls of [calloc]: of a descriptor at an offset, of [ssns->hfis], of
    a list. *)
Inductive alloc_site := ADescriptor (p : Z) | AHfis (p : Z) | AList (structure_id : Z).
Context (calloc_ok : alloc_site → bool).

(** [format_ip_addr] into a zeroed buffer: [inet_ntop] leaves it alone when
    the text does not fit. *)
Definition format_ip_addr (buflen : nat) (addr : list Z) : list Z :=
  let v4mapped := bool_decide (take 12 addr = replicate 10 0 ++ [255; 255]) in
  match (if v4mapped then ntop4 (drop 12 addr) else ntop6 addr) with
  | Some s => if (length s <? buflen)%nat then s else []
  | None => []
  end.

(** ** Namespaces *)

Definition set_ext_info (ssns : libnbft_subsystem_ns) (asq cid : Z) (root : option Z)
    (na ci ct nc : Z) : libnbft_subsystem_ns :=
  {| ns_index := ns_index ssns; ns_discovery := ns_discovery ssns; ns_security := ns_security ssns;
     hfis := hfis ssns; ns_transport := ns_transport ssns; ns_traddr := ns_traddr ssns;
     ns_trsvcid := ns_trsvcid ssns; subsys_port_id := subsys_port_id ssns; nsid := nsid ssns;
     nid_type := nid_type ssns; nid := nid ssns; subsys_nqn := subsys_nqn ssns;
     trflags := trflags ssns; controller_id := cid; asqsz := asq; dhcp_root_path_string := root;
     naed := na; cipeec := ci; cto := ct; nceec := nc; ns_flags := ns_flags ssns |}.

(** The namespace with the extended information at [p]. *)
Definition read_ssns_exended_info (buf : list Z) (ssns : libnbft_subsystem_ns) (p descriptor_len : Z) :
    M libnbft_subsystem_ns :=
  verify (offsetof_naed <=? descriptor_len) (
  id ← ld8 buf p;
  verify (id =? NBFT_DESC_SSNS_EXT_INFO) (
  version ← ld8 buf (p + 1);
  verify (version =? 1) (
  index ← ld16 buf (p + 2);
  verify (index =? ns_index ssns) (
  flags ← ld32 buf (p + 4);
  if negb (flag flags NBFT_VALID) then Ret (Err EINVAL)
  else
    asq ← (if flag flags NBFT_SSNS_EXT_INFO_ADMIN_ASQSZ then ld16 buf (p + 10) else Ret (asqsz ssns));
    cid ← ld16 buf (p + 8);
    obj ← ld_obj buf (p + 12);
    root ← get_heap_obj buf obj true 0;
    if sizeof_ssns_ext_info <=? descriptor_len then
      na ← ld8 buf (p + 18); ci ← ld8 buf (p + 19); ct ← ld16 buf (p + 20); nc ← ld8 buf (p + 22);
      Ret (Ok (set_ext_info ssns asq cid (opt root) na ci ct nc))
    else
      Ret (Ok (set_ext_info ssns asq cid (opt root) (naed ssns) (cipeec ssns) (cto ssns)
                 (nceec ssns))))))).

(** [ss_hfi_indexes[j]] for a [j] below [i] is [x]. *)
Fixpoint seen_before (buf : list Z) (p : Z) (x : Z) (j i : nat) : access bool :=
  match i with
  | O => Ret false
  | S i' => y ← ld8 buf (p + Z.of_nat j); if x =? y then Ret true else seen_before buf p x (S j) i'
  end.

(** The loop over the secondary HFIs: [n] rounds from [i] on.  [cap] is the
    size of [ssns->hfis]. *)
Fixpoint secondary_hfis (buf : list Z) (hl : list libnbft_hfi) (p primary : Z) (cap : nat)
    (i n : nat) (acc : list nat) : access (list nat) :=
  match n with
  | O => Ret acc
  | S n' =>
      x ← ld8 buf (p + Z.of_nat i);
      dup ← seen_before buf p x 0 i;
      if dup || (x =? primary) then secondary_hfis buf hl p primary cap (S i) n' acc
      else
        match hfi_from_index hl x with
        | None => secondary_hfis buf hl p primary cap (S i) n' acc
        | Some h =>
            if (length acc <? cap)%nat
            then secondary_hfis buf hl p primary cap (S i) n' (acc ++ [h])
            else Fault HfisWrite
        end
  end.

Definition read_ssns (buf : list Z) (hl : list libnbft_hfi) (sl : list libnbft_security)
    (dl : list libnbft_discovery) (p : Z) : M libnbft_subsystem_ns :=
  flags ← ld16 buf (p + 3);
  if negb (flag flags NBFT_VALID) then Ret (Err EINVAL)
  else
    id ← ld8 buf p;
    verify (id =? NBFT_DESC_SSNS) (
    trtype ← ld8 buf (p + 5);
    verify (trtype =? NBFT_TRTYPE_TCP) (
    if negb (calloc_ok (ADescriptor p)) then Ret (Err ENOMEM)
    else
      index ← ld16 buf (p + 1);
      trf ← ld16 buf (p + 6);
      pdc ← ld8 buf (p + 8);
      let disc := if pdc =? 0 then None else discovery_from_index dl pdc in
      traddr_obj ← ld_obj buf (p + 10);
      let? tmp := get_heap_obj buf traddr_obj false 0 in
      if obj_length traddr_obj <? 16 then Ret (Err EINVAL)
      else
        addr ← load buf tmp 16;
        trsvcid_obj ← ld_obj buf (p + 16);
        let? svc := get_heap_obj buf trsvcid_obj true 0 in
        port ← ld16 buf (p + 22);
        ns ← ld32 buf (p + 24);
        nidt ← ld8 buf (p + 28);
        sd ← ld8 buf (p + 45);
        let sec := if sd =? 0 then None else security_from_index sl sd in
        if negb (sd =? 0) && bool_decide (sec = None) then Ret (Err EINVAL)
        else
          sec_obj ← ld_obj buf (p + 48);
          let? ss := get_heap_obj buf sec_obj false 0 in
          if negb (calloc_ok (AHfis p)) then Ret (Err ENOMEM)
          else
            primary ← ld8 buf (p + 46);
            match hfi_from_index hl primary with
            | None => Ret (Err EINVAL)
            | Some h0 =>
                hs ← secondary_hfis buf hl ss primary (Z.to_nat (obj_length sec_obj + 2)) 0
                       (Z.to_nat (obj_length sec_obj)) [h0];
                nqn_obj ← ld_obj buf (p + 54);
                let? nqn := get_heap_obj buf nqn_obj true 0 in
                let ssns :=
                  {| ns_index := index; ns_discovery := disc; ns_security := sec; hfis := hs;
                     ns_transport := trtype_to_string trtype;
                     ns_traddr := format_ip_addr 40 addr; ns_trsvcid := svc; subsys_port_id := port;
                     nsid := ns; nid_type := nidt; nid := p + 29; subsys_nqn := nqn; trflags := trf;
                     controller_id := 0; asqsz := 0; dhcp_root_path_string := None; naed := 0;
                     cipeec := 0; cto := 0; nceec := 0; ns_flags := flags |} in
                if flag flags NBFT_SSNS_EXTENDED_INFO_IN_USE then
                  ext_obj ← ld_obj buf (p + 60);
                  ext ← get_heap_obj buf ext_obj false 0;
                  match ext with
                  | Ok ei =>
                      r ← read_ssns_exended_info buf ssns ei (obj_length ext_obj);
                      Ret (Ok (default ssns (opt r)))
                  | Err _ => Ret (Ok ssns)
                  end
                else Ret (Ok ssns)
            end)).

(** ** Host fabric interfaces *)

Definition set_dhcp (t : libnbft_hfi_info_tcp) (iaid : Z) (duid : list Z) : libnbft_hfi_info_tcp :=
  {| pci_sbdf := pci_sbdf t; mac_addr := mac_addr t; vlan := vlan t; ip_origin := ip_origin t;
     ipaddr := ipaddr t; subnet_mask_prefix := subnet_mask_prefix t;
     gateway_ipaddr := gateway_ipaddr t; route_metric := route_metric t;
     primary_dns_ipaddr := primary_dns_ipaddr t; secondary_dns_ipaddr := secondary_dns_ipaddr t;
     dhcp_server_ipaddr := dhcp_server_ipaddr t; host_name := host_name t; tcp_flags := tcp_flags t;
     pcie_seg_num := pcie_seg_num t; dhcp_iaid := iaid; dhcp_duid := duid |}.

Definition DUID_MAX : Z := 130.

Definition read_hfi_info_dhcp (buf : list Z) (p : Z) (t : libnbft_hfi_info_tcp) :
    access libnbft_hfi_info_tcp :=
  id ← ld8 buf p;
  version ← ld8 buf (p + 1);
  if negb (id =? NBFT_DESC_HFI_EXT_INFO) || negb (version =? 1) then Ret t
  else
    flags ← ld32 buf (p + 4);
    if negb (flag flags NBFT_VALID) then Ret t
    else if negb (flag flags NBFT_HFI_INFO_EXT_DCI) then Ret t
    else
      iaid_obj ← ld_obj buf (p + 8);
      iaid_raw ← get_heap_obj buf iaid_obj false 0;
      iaid ← (match iaid_raw with
              | Ok q => le <$> load_at IaidRead buf q 4
              | Err _ => Ret (dhcp_iaid t)
              end);
      duid_obj ← ld_obj buf (p + 14);
      duid_raw ← get_heap_obj buf duid_obj false 0;
      duid ← (match duid_raw with
              | Ok q => load buf q (Z.min (obj_length duid_obj) DUID_MAX)
              | Err _ => Ret (dhcp_duid t)
              end);
      Ret (set_dhcp t iaid duid).

Definition read_hfi_info_tcp (buf : list Z) (p : Z) : M libnbft_hfi_info_tcp :=
  flags ← ld8 buf (p + 6);
  if negb (flag flags NBFT_VALID) then Ret (Err EINVAL)
  else
    id ← ld8 buf p;
    verify (id =? NBFT_DESC_HFI_TRINFO) (
    version ← ld8 buf (p + 1);
    verify (version =? 1) (
    _ ← ld16 buf (p + 4);
    sbdf ← ld32 buf (p + 7);
    mac ← load buf (p + 11) 6;
    vl ← ld16 buf (p + 17);
    origin ← ld8 buf (p + 19);
    ip ← load buf (p + 20) 16;
    prefix ← ld8 buf (p + 36);
    gw ← load buf (p + 37) 16;
    metric ← ld16 buf (p + 54);
    dns1 ← load buf (p + 56) 16;
    dns2 ← load buf (p + 72) 16;
    dhcp ← (if flag flags NBFT_HFI_INFO_TCP_DHCP_OVERRIDE
            then format_ip_addr 40 <$> load buf (p + 88) 16 else Ret []);
    name_obj ← ld_obj buf (p + 104);
    name ← get_heap_obj buf name_obj true 0;
    trinfo_version ← ld8 buf (p + 3);
    let t seg :=
      {| pci_sbdf := sbdf; mac_addr := mac; vlan := vl; ip_origin := origin;
         ipaddr := format_ip_addr 40 ip; subnet_mask_prefix := prefix;
         gateway_ipaddr := format_ip_addr 40 gw; route_metric := metric;
         primary_dns_ipaddr := format_ip_addr 40 dns1; secondary_dns_ipaddr := format_ip_addr 40 dns2;
         dhcp_server_ipaddr := dhcp; host_name := opt name; tcp_flags := flags;
         pcie_seg_num := seg; dhcp_iaid := 0; dhcp_duid := [] |} in
    if 2 <=? trinfo_version then
      seg ← ld8 buf (p + 116);
      ext_obj ← ld_obj buf (p + 110);
      ext ← get_heap_obj buf ext_obj false sizeof_hfi_info_ext;
      match ext with
      | Ok q => Ok <$> read_hfi_info_dhcp buf q (t seg)
      | Err _ => Ret (Ok (t seg))
      end
    else Ret (Ok (t 0)))).

Definition read_hfi (buf : list Z) (p : Z) : M libnbft_hfi :=
  flags ← ld8 buf (p + 2);
  if negb (flag flags NBFT_VALID) then Ret (Err EINVAL)
  else
    id ← ld8 buf p;
    verify (id =? NBFT_DESC_HFI) (
    if negb (calloc_ok (ADescriptor p)) then Ret (Err ENOMEM)
    else
      index ← ld8 buf (p + 1);
      trtype ← ld8 buf (p + 3);
      if trtype =? NBFT_TRTYPE_TCP then
        obj ← ld_obj buf (p + 16);
        let? q := get_heap_obj buf obj false sizeof_hfi_info_tcp in
        let? t := read_hfi_info_tcp buf q in
        Ret (Ok {| hfi_index := index; hfi_transport := trtype_to_string trtype; tcp_info := t |})
      else Ret (Err EINVAL)).

(** ** Discovery controllers and security profiles *)

Definition read_discovery (buf : list Z) (hl : list libnbft_hfi) (sl : list libnbft_security) (p : Z) :
    M libnbft_discovery :=
  flags ← ld8 buf (p + 1);
  if negb (flag flags NBFT_VALID) then Ret (Err EINVAL)
  else
    id ← ld8 buf p;
    verify (id =? NBFT_DESC_DISCOVERY) (
    if negb (calloc_ok (ADescriptor p)) then Ret (Err ENOMEM)
    else
      index ← ld8 buf (p + 2);
      addr_obj ← ld_obj buf (p + 6);
      addr ← get_heap_obj buf addr_obj true 0;
      match addr with
      | Err _ => Ret (Err EINVAL)
      | Ok u =>
          nqn_obj ← ld_obj buf (p + 12);
          r ← get_heap_obj buf nqn_obj true 0;
          match r with
          | Ok _ | Err ENOENT =>
              h ← ld8 buf (p + 3);
              match hfi_from_index hl h with
              | None => Ret (Err EINVAL)
              | Some hfi =>
                  si ← ld8 buf (p + 4);
                  let sec := if si =? 0 then None else security_from_index sl si in
                  if negb (si =? 0) && bool_decide (sec = None) then Ret (Err EINVAL)
                  else
                    Ret (Ok {| disc_index := index; disc_security := sec; disc_hfi := hfi; uri := u;
                               disc_nqn := opt r |})
              end
          | Err e => Ret (Err e)
          end
      end).

(** One policy list: read when it is [wanted] and not empty. *)
Definition policy_list (buf : list Z) (wanted : bool) (p : Z) : M bytes_ref :=
  if negb wanted then Ret (Ok None)
  else
    obj ← ld_obj buf p;
    if obj_length obj =? 0 then Ret (Ok None)
    else let? q := get_heap_obj buf obj false 0 in Ret (Ok (Some (q, obj_length obj))).

Definition read_security (buf : list Z) (p : Z) : M libnbft_security :=
  flags ← ld16 buf (p + 2);
  if negb (flag flags NBFT_VALID) then Ret (Err EINVAL)
  else
    id ← ld8 buf p;
    verify (id =? NBFT_DESC_SECURITY) (
    if negb (calloc_ok (ADescriptor p)) then Ret (Err ENOMEM)
    else
      index ← ld8 buf (p + 1);
      st ← ld8 buf (p + 4);
      let? chan := policy_list buf (flag flags NBFT_SECURITY_SEC_POLICY_LIST_MASK) (p + 6) in
      let? auth := policy_list buf (flag flags NBFT_SECURITY_AUTH_POLICY_LIST_MASK) (p + 12) in
      let? cipher := policy_list buf (flag flags NBFT_SECURITY_CIPHER_RESTRICTED) (p + 18) in
      let? kx := policy_list buf (flag flags NBFT_SECURITY_AUTH_KX_GROUPS_RESTRICTED) (p + 24) in
      let? hash := policy_list buf (flag flags NBFT_SECURITY_SEC_HASH_FUNC_POLICY_LIST) (p + 30) in
      key_obj ← ld_obj buf (p + 36);
      key ← get_heap_obj buf key_obj true 0;
      match key with
      | Ok _ | Err ENOENT =>
          Ret (Ok {| sec_index := index; sec_flags := flags; secret_type := st; sec_chan_algs := chan;
                     auth_protocols := auth; cipher_suites := cipher; kx_groups := kx;
                     sec_hash_funcs := hash; secret_keypath := opt key |})
      | Err e => Ret (Err e)
      end).

(** ** The table *)

(** The loop of the [read_..._descriptors]: [n] descriptors from [i] on.  A
    descriptor that is read goes to the next entry of the list; [list_ok]
    says that the list could be allocated. *)
Fixpoint read_descriptors {A} (read : Z → M A) (list_ok : bool) (array len : Z) (i : Z) (n : nat)
    (acc : list A) : access (list A) :=
  match n with
  | O => Ret acc
  | S n' =>
      r ← read (descriptor_at array i len);
      match r with
      | Err _ => read_descriptors read list_ok array len (i + 1) n' acc
      | Ok a =>
          if list_ok then read_descriptors read list_ok array len (i + 1) n' (acc ++ [a])
          else Fault NullWrite
      end
  end.

(** A section of the table: the number of descriptors, their place and
    length are fields of the control descriptor at [num], [off] and [len]. *)
Definition read_section {A} (buf : list Z) (read : Z → M A) (id size off len num : Z) : M (list A) :=
  n ← ld8 buf (sizeof_header + num);
  if n =? 0 then Ret (Ok [])
  else
    o ← ld32 buf (sizeof_header + off);
    l ← ld16 buf (sizeof_header + len);
    valid ← descriptor_list_valid buf o l n size;
    verify valid (
    Ok <$> read_descriptors read (calloc_ok (AList id)) o l 0 (Z.to_nat n) []).

(** The bytes of the string at [p]. *)
Definition str_at (buf : list Z) (p : Z) : list Z := buf_str (drop (Z.to_nat p) buf).

(** [shr_nqn_normalize] of the string at [p], in place. *)
Definition normalize_at (buf : list Z) (p : Z) : list Z :=
  match shr_nqn_normalize (Some (str_at buf p)) with
  | Some s => buf_write buf (Z.to_nat p) s
  | None => buf
  end.

(** What [parse_raw_nbft] checks before it reads the host. *)
Definition header_valid (buf : list Z) : M unit :=
  verify (sizeof_header + sizeof_control <=? Z.of_nat (length buf)) (
  verify (csum buf =? 0) (
  sig ← load buf 0 4;
  verify (bool_decide (sig = NBFT_HEADER_SIG)) (
  len ← header_length buf;
  verify (sizeof_header + sizeof_control <=? len) (
  verify (len <=? Z.of_nat (length buf)) (
  major ← header_major_revision buf;
  verify (major =? 1) (
  minor ← header_minor_revision buf;
  verify (minor <=? 1) (
  ho ← header_heap_offset buf;
  hl ← header_heap_length buf;
  verify (range_valid ho hl len) (Ret (Ok tt))))))))).

(** The host, and the table with its NQN normalized. *)
Definition read_host (buf : list Z) : M (list Z * libnbft_host) :=
  cflags ← ld8 buf (sizeof_header + 6);
  verify (flag cflags NBFT_VALID) (
  cid ← ld8 buf sizeof_header;
  verify (cid =? NBFT_DESC_CONTROL) (
  p ← ld32 buf (sizeof_header + 8);
  len ← header_length buf;
  verify (range_valid p sizeof_host len && (sizeof_host <=? p)) (
  flags ← ld8 buf (p + 1);
  verify (flag flags NBFT_VALID) (
  id ← ld8 buf p;
  verify (id =? NBFT_DESC_HOST) (
  obj ← ld_obj buf (p + 18);
  nqn ← get_heap_obj buf obj true 0;
  match nqn with
  | Err _ => Ret (Err EINVAL)
  | Ok n =>
      let buf := normalize_at buf n in
      flags ← ld8 buf (p + 1);
      Ret (Ok (buf, {| host_id := p + 2; host_nqn := n; host_flags := flags |}))
  end))))).

(** The table, which is changed in place, and what it says. *)
Definition parse_raw_nbft (buf : list Z) : M (list Z * libnbft_info) :=
  let? _ := header_valid buf in
  let? (buf, host) := read_host buf in
  let? hl := read_section buf (read_hfi buf) NBFT_DESC_HFI sizeof_hfi 16 20 23 in
  let? sl := read_section buf (read_security buf) NBFT_DESC_SECURITY sizeof_security 32 36 39 in
  let? dl := read_section buf (read_discovery buf hl sl) NBFT_DESC_DISCOVERY sizeof_discovery 40 44 47 in
  let? nl := read_section buf (read_ssns buf hl sl dl) NBFT_DESC_SSNS sizeof_ssns 24 28 31 in
  Ret (Ok (buf, {| nbft_host := host; hfi_list := hl; security_list := sl; discovery_list := dl;
                   subsystem_ns_list := nl |})).

(** [libnvmf_read_nbft] of a file with these bytes; [malloc_ok] and [info_ok]
    are the allocations of the table and of the result.  [fread] counts in
    an [int]. *)
Definition libnvmf_read_nbft (malloc_ok info_ok : bool) (file : option (list Z)) :
    M (list Z * libnbft_info) :=
  match file with
  | None => Ret (Err EINVAL)
  | Some buf =>
      if negb malloc_ok then Ret (Err ENOMEM)
      else if negb (u64 (to_signed 32 (u32 (Z.of_nat (length buf)))) =? Z.of_nat (length buf))
      then Ret (Err EINVAL)
      else if negb info_ok then Ret (Err ENOMEM)
      else
        r ← parse_raw_nbft buf;
        match r with Ok i => Ret (Ok i) | Err _ => Ret (Err EINVAL) end
  end.

End Nbft.

(** ** Safety of accesses *)

(** [m] faults only where [P] allows it, and [Q] holds of what it returns. *)
Definition safe {A} (P : site → Prop) (m : access A) (Q : A → Prop) : Prop :=
  match m with Ret a => Q a | Fault s => P s end.

(** On success. *)
Definition on_ok {A} (Q : A → Prop) (r : result A) : Prop :=
  match r with Ok a => Q a | Err _ => True end.

Lemma reader_safe_ret {A} P (a : A) (Q : A → Prop) : Q a → safe P (Ret a) Q.
Proof. done. Qed.

Lemma reader_safe_bind {A B} P (m : access A) (f : A → access B) Q R :
  safe P m R → (∀ a, R a → safe P (f a) Q) → safe P (m ≫= f) Q.
Proof. destruct m; cbn; auto. Qed.

Lemma safe_fmap {A B} P (m : access A) (f : A → B) Q R :
  safe P m R → (∀ a, R a → Q (f a)) → safe P (f <$> m) Q.
Proof. destruct m; cbn; auto. Qed.

Lemma reader_safe_weaken {A} P (m : access A) (Q R : A → Prop) :
  safe P m R → (∀ a, R a → Q a) → safe P m Q.
Proof. destruct m; cbn; auto. Qed.

Lemma safe_try {A B} P (m : M A) (f : A → M B) (Q : result B → Prop) R :
  safe P m (on_ok R) → (∀ e, Q (Err e)) → (∀ a, R a → safe P (f a) Q) → safe P (try m f) Q.
Proof. intros Hm He Hf. unfold try. eapply reader_safe_bind; [exact Hm|]. intros [a|e]; cbn; auto. Qed.

Lemma safe_verify {A} P c (m : M A) (Q : result A → Prop) :
  Q (Err EINVAL) → (c = true → safe P m Q) → safe P (verify c m) Q.
Proof. unfold verify. destruct c; cbn; auto. Qed.

Section Safety.
Context (P : site → Prop) (buf : list Z).
Hypothesis Hbytes : bytes buf.

Lemma safe_load_at s p n :
  0 ≤ p → 0 ≤ n → p + n ≤ Z.of_nat (length buf) →
  safe P (load_at s buf p n) (λ l, Z.of_nat (length l) = n ∧ bytes l).
Proof using Hbytes.
  intros Hp Hn Hl. unfold load_at.
  replace ((0 <=? p) && (p + n <=? Z.of_nat (length buf))) with true
    by (symmetry; rewrite andb_true_iff; lia).
  cbn [safe]. rewrite length_take, length_drop. split; [lia|auto with nvme].
Qed.

Lemma safe_ld n p :
  0 ≤ p → 0 ≤ n → p + n ≤ Z.of_nat (length buf) →
  safe P (le <$> load buf p n) (λ v, 0 ≤ v < 2 ^ (8 * n)).
Proof using Hbytes.
  intros. eapply safe_fmap; [by apply safe_load_at|]. cbn. intros l [<- Hl]. by apply le_bound.
Qed.

Lemma safe_ld8 p : 0 ≤ p → p + 1 ≤ Z.of_nat (length buf) → safe P (ld8 buf p) (λ v, 0 ≤ v < 256).
Proof using Hbytes. intros. apply (safe_ld 1); lia. Qed.
Lemma safe_ld16 p : 0 ≤ p → p + 2 ≤ Z.of_nat (length buf) → safe P (ld16 buf p) (λ v, 0 ≤ v < 65536).
Proof using Hbytes. intros. apply (safe_ld 2); lia. Qed.
Lemma safe_ld32 p : 0 ≤ p → p + 4 ≤ Z.of_nat (length buf) → safe P (ld32 buf p) (λ v, 0 ≤ v < 4294967296).
Proof using Hbytes. intros. apply (safe_ld 4); lia. Qed.

Definition obj_ok (o : nbft_heap_obj) : Prop :=
  0 ≤ obj_offset o < 4294967296 ∧ 0 ≤ obj_length o < 65536.

Lemma safe_ld_obj p : 0 ≤ p → p + 6 ≤ Z.of_nat (length buf) → safe P (ld_obj buf p) obj_ok.
Proof using Hbytes.
  intros Hp Hl. unfold ld_obj. eapply reader_safe_bind; [apply safe_ld32; lia|]. intros o Ho.
  eapply reader_safe_bind; [apply safe_ld16; lia|]. done.
Qed.

(** A NUL terminated string at [p]. *)
Definition terminated (p : Z) : Prop :=
  0 ≤ p ∧ ∃ k, (Z.to_nat p ≤ k)%nat ∧ buf !! k = Some 0.

Lemma safe_strnlen p n :
  0 ≤ p → p + Z.of_nat n ≤ Z.of_nat (length buf) →
  safe P (strnlen_at buf p n) (λ k, 0 ≤ k ≤ Z.of_nat n ∧ (k < Z.of_nat n → buf !! Z.to_nat (p + k) = Some 0)).
Proof using Hbytes.
  revert p. induction n as [|n IH]; intros p Hp Hn; cbn [strnlen_at]; [cbn; lia|].
  assert (∃ c, ld8 buf p = Ret c ∧ buf !! Z.to_nat p = Some c) as (c & -> & Hc).
  { destruct (lookup_lt_is_Some_2 buf (Z.to_nat p)) as [c Hc]; [lia|]. exists c. split; [|done].
    unfold ld8, load, load_at.
    replace ((0 <=? p) && (p + 1 <=? Z.of_nat (length buf))) with true
      by (symmetry; rewrite andb_true_iff; lia).
    rewrite (drop_S _ _ _ Hc). change (Z.to_nat 1) with 1%nat.
    cbn [take le fmap access_fmap]. rewrite take_0. cbn [le]. f_equal. lia. }
  cbn [mbind access_bind]. destruct (Z.eqb_spec c 0) as [->|Hne].
  - cbn. split; [lia|]. intros _. by rewrite Z.add_0_r.
  - eapply safe_fmap; [apply IH; lia|]. cbn. intros k [Hk Hz]. split; [lia|]. intros Hlt.
    replace (p + (k + 1)) with (p + 1 + k) by lia. apply Hz. lia.
Qed.

(** The header says how long the table is, and it is all there. *)
Context (table_length : Z).
Hypothesis Hlen : header_length buf = Ret table_length.
Hypothesis Htab : 128 ≤ table_length ≤ Z.of_nat (length buf).

Lemma table_length_u32 : table_length < 4294967296.
Proof using P Hbytes Hlen Htab.
  pose proof (safe_ld32 4) as Hs. unfold header_length in Hlen. rewrite Hlen in Hs. cbn in Hs. lia.
Qed.

Lemma safe_in_heap o :
  obj_ok o →
  safe P (in_heap buf o) (λ b, b = true → 0 < obj_length o →
    obj_offset o + obj_length o ≤ table_length).
Proof using Hbytes Hlen Htab.
  intros [Ho Hl]. unfold in_heap, header_heap_offset, header_heap_length.
  pose proof table_length_u32 as Ht.
  eapply reader_safe_bind; [apply safe_ld32; lia|]. intros ho Hho. cbn beta in Hho.
  eapply reader_safe_bind; [apply safe_ld32; lia|]. intros hl Hhl. cbn beta in Hhl.
  rewrite Hlen. cbn [mbind access_bind safe].
  destruct (Z.eqb_spec (obj_length o) 0); [lia|].
  unfold range_valid. destruct (_ && _) eqn:E1; cbn [negb]; [|done]. to_prop.
  destruct (Z.ltb_spec (obj_offset o) ho); [done|]. intros E2 _.
  assert (∀ x, 0 ≤ x < 2 ^ 64 → u64 x = x) as Hu by (intros; by apply Z.mod_small).
  rewrite (Hu (obj_offset o - ho)) in E2 by lia. to_prop.
  rewrite Hu in * by lia. lia.
Qed.

Lemma safe_get_heap_obj o is_string min_len :
  obj_ok o →
  safe P (get_heap_obj buf o is_string min_len) (on_ok (λ q,
    q = obj_offset o ∧ 0 < obj_length o ∧ q + obj_length o ≤ table_length ∧
    (is_string = true → terminated q) ∧ (is_string = false → min_len ≤ obj_length o))).
Proof using Hbytes Hlen Htab.
  intros Hok. pose proof Hok as [Ho Hl]. pose proof table_length_u32 as Ht. unfold get_heap_obj.
  destruct (Z.eqb_spec (obj_length o) 0) as [|Hnz]; [done|].
  eapply reader_safe_bind; [by apply safe_in_heap|]. intros [] Hin; cbn [negb]; [|done].
  specialize (Hin eq_refl ltac:(lia)). destruct is_string; cbn [negb andb].
  - rewrite Hlen. cbn [mbind access_bind].
    assert (u64 (table_length - obj_offset o) = table_length - obj_offset o) as ->
      by (unfold u64; apply Z.mod_small; lia).
    set (n := if _ <? _ then _ else _).
    assert (0 ≤ n ≤ table_length - obj_offset o) as Hn
      by (unfold n; destruct (Z.ltb_spec (obj_length o + 1) (table_length - obj_offset o)); lia).
    eapply reader_safe_bind; [apply safe_strnlen; lia|]. cbn beta. intros k [Hk Hz].
    destruct (Z.eqb_spec k n); [done|]. cbn [safe on_ok]. split_and!; [done|lia|lia| |done].
    intros _. split; [lia|]. exists (Z.to_nat (obj_offset o + k)). split; [lia|]. apply Hz. lia.
  - destruct (Z.ltb_spec (obj_length o) min_len); cbn [safe on_ok]; [done|].
    split_and!; [done|lia|lia|done|done].
Qed.

Definition opt_ok {A} (Q : A → Prop) (o : option A) : Prop := match o with Some a => Q a | None => True end.

Lemma opt_on_ok {A} (Q : A → Prop) r : on_ok Q r → opt_ok Q (opt r).
Proof. by destruct r. Qed.

(** One statement of a reader: a load, a check, a heap object, a branch. *)
Ltac mem_step :=
  lazymatch goal with
  | |- safe _ (ld8 _ _ ≫= _) _ => eapply reader_safe_bind; [apply safe_ld8; lia|cbn beta; intros ? ?]
  | |- safe _ (ld16 _ _ ≫= _) _ => eapply reader_safe_bind; [apply safe_ld16; lia|cbn beta; intros ? ?]
  | |- safe _ (ld32 _ _ ≫= _) _ => eapply reader_safe_bind; [apply safe_ld32; lia|cbn beta; intros ? ?]
  | |- safe _ (load _ _ _ ≫= _) _ => eapply reader_safe_bind; [apply safe_load_at; lia|cbn beta; intros ? ?]
  | |- safe _ (ld_obj _ _ ≫= _) _ => eapply reader_safe_bind; [apply safe_ld_obj; lia|intros ? ?]
  | |- safe _ (get_heap_obj _ _ _ _ ≫= _) _ =>
      eapply reader_safe_bind; [apply safe_get_heap_obj; assumption|intros ? ?]
  | |- safe _ (try (get_heap_obj _ _ _ _) _) _ =>
      eapply safe_try; [apply safe_get_heap_obj; assumption|done|cbn beta; intros ? (? & ? & ? & ? & ?)]
  | |- safe _ (verify _ _) _ => apply safe_verify; [done|intros ?]
  | |- safe _ (if ?b then Ret (Err _) else _) _ => destruct b eqn:?; [done|]
  | |- safe _ (let _ := _ in _) _ => cbv zeta
  end.

(** The heap object whose result the goal looks at. *)
Ltac heap_obj :=
  match goal with |- safe _ (match ?r with Ok _ => _ | Err _ => _ end) _ => destruct r as [?q|] end; [|done];
  match goal with He : on_ok _ (Ok ?q) |- _ => destruct He as (-> & ? & ? & ? & ?) end;
  repeat match goal with Ho : obj_ok _ |- _ => destruct Ho end.

(** A well-formed interface, profile, discovery controller and namespace:
    the strings end inside of the table, the lists are inside of it, and
    references lead to a descriptor. *)
Definition in_table (r : Z * Z) : Prop := 0 ≤ fst r ∧ fst r + snd r ≤ Z.of_nat (length buf).
Definition hfi_wf (h : libnbft_hfi) : Prop := opt_ok terminated (host_name (tcp_info h)).
Definition security_wf (s : libnbft_security) : Prop :=
  opt_ok in_table (sec_chan_algs s) ∧ opt_ok in_table (auth_protocols s) ∧
  opt_ok in_table (cipher_suites s) ∧ opt_ok in_table (kx_groups s) ∧
  opt_ok in_table (sec_hash_funcs s) ∧ opt_ok terminated (secret_keypath s).
Definition discovery_wf (hl : list libnbft_hfi) (sl : list libnbft_security) (d : libnbft_discovery) : Prop :=
  terminated (uri d) ∧ opt_ok terminated (disc_nqn d) ∧ (disc_hfi d < length hl)%nat ∧
  opt_ok (λ i, (i < length sl)%nat) (disc_security d).
Definition ssns_wf (hl : list libnbft_hfi) (sl : list libnbft_security) (dl : list libnbft_discovery)
    (n : libnbft_subsystem_ns) : Prop :=
  terminated (ns_trsvcid n) ∧ terminated (subsys_nqn n) ∧ opt_ok terminated (dhcp_root_path_string n) ∧
  in_table (nid n, 16) ∧ hfis n ≠ [] ∧ NoDup (hfis n) ∧
  Forall (λ i, (i < length hl)%nat) (hfis n) ∧
  opt_ok (λ i, (i < length sl)%nat) (ns_security n) ∧
  opt_ok (λ i, (i < length dl)%nat) (ns_discovery n).

Lemma from_index_lt {A} (index : A → Z) l i k :
  from_index index l i = Some k → ∃ x, l !! k = Some x ∧ index x = i.
Proof.
  unfold from_index. destruct (list_find _ l) as [[j x]|] eqn:E; [|done]. cbn. intros [= <-].
  apply list_find_Some in E as (E1 & E2 & _). by exists x.
Qed.

Lemma from_index_ok {A} (index : A → Z) l i : opt_ok (λ k, (k < length l)%nat) (from_index index l i).
Proof.
  destruct (from_index index l i) as [k|] eqn:E; [|done]. apply from_index_lt in E as (x & E & _).
  by eapply lookup_lt_Some.
Qed.

Context `{Inet} (calloc_ok : alloc_site → bool).
Hypothesis Hiaid : P IaidRead ∨ table_length + 3 ≤ Z.of_nat (length buf).

Lemma safe_iaid q :
  0 ≤ q → q + 1 ≤ table_length → safe P (le <$> load_at IaidRead buf q 4) (λ _, True).
Proof using Hbytes Htab Hiaid.
  intros Hq Hl. destruct Hiaid as [Hi|Hi].
  - unfold load_at. by destruct (_ && _).
  - eapply safe_fmap; [apply safe_load_at; lia|done].
Qed.

Lemma safe_hfi_info_dhcp p t :
  0 ≤ p → p + sizeof_hfi_info_ext ≤ table_length →
  safe P (read_hfi_info_dhcp buf p t) (λ t', host_name t' = host_name t).
Proof using Hbytes Hlen Htab Hiaid.
  intros Hp Hl. unfold sizeof_hfi_info_ext in Hl. unfold read_hfi_info_dhcp. repeat mem_step.
  destruct (_ || _); [done|]. mem_step. destruct (negb _); [done|]. destruct (negb _); [done|].
  mem_step. mem_step. eapply (reader_safe_bind _ _ _ _ (λ _, True)).
  { heap_obj. apply safe_iaid; lia. }
  intros iaid _. mem_step. mem_step. eapply (reader_safe_bind _ _ _ _ (λ _, True)); [|done].
  heap_obj. eapply reader_safe_weaken; [apply safe_load_at; unfold DUID_MAX; lia|done].
Qed.

Lemma safe_hfi_info_tcp p :
  0 ≤ p → p + sizeof_hfi_info_tcp ≤ table_length →
  safe P (read_hfi_info_tcp buf p) (on_ok (λ t, opt_ok terminated (host_name t))).
Proof using Hbytes Hlen Htab Hiaid.
  intros Hp Hl. unfold sizeof_hfi_info_tcp in Hl. unfold read_hfi_info_tcp.
  repeat mem_step. eapply (reader_safe_bind _ _ _ _ (λ _, True)).
  { match goal with |- safe _ (if ?b then _ else _) _ => destruct b end; [|done].
    eapply safe_fmap; [apply safe_load_at; lia|done]. }
  intros dhcp _. mem_step. mem_step. mem_step. cbv zeta.
  match goal with Hn : on_ok _ ?r |- _ => assert (opt_ok terminated (opt r)) as Hname
    by (apply opt_on_ok; destruct r; [destruct Hn as (_ & _ & _ & Hs & _); by apply Hs|done]) end.
  destruct (2 <=? _); [|done]. repeat mem_step.
  heap_obj. match goal with Hm : false = false → _ |- _ => specialize (Hm eq_refl) end.
  eapply safe_fmap; [apply safe_hfi_info_dhcp; lia|]. cbn. by intros t' ->.
Qed.

Lemma safe_hfi p :
  0 ≤ p → p + sizeof_hfi ≤ table_length → safe P (read_hfi calloc_ok buf p) (on_ok hfi_wf).
Proof using Hbytes Hlen Htab Hiaid.
  intros Hp Hl. unfold sizeof_hfi in Hl. unfold read_hfi. repeat mem_step.
  destruct (_ =? NBFT_TRTYPE_TCP); [|done]. repeat mem_step.
  eapply safe_try; [apply safe_hfi_info_tcp|done|done].
  - unfold obj_ok in *. subst. lia.
  - match goal with Hm : false = false → _ |- _ => specialize (Hm eq_refl) end. subst. lia.
Qed.

Lemma safe_policy_list wanted p :
  0 ≤ p → p + 6 ≤ table_length → safe P (policy_list buf wanted p) (on_ok (opt_ok in_table)).
Proof using Hbytes Hlen Htab.
  intros Hp Hl. unfold policy_list. destruct wanted; cbn [negb]; [|done]. mem_step.
  destruct (_ =? 0); [done|]. mem_step. subst. unfold obj_ok in *. unfold in_table. cbn. lia.
Qed.

Lemma safe_security p :
  0 ≤ p → p + sizeof_security ≤ table_length →
  safe P (read_security calloc_ok buf p) (on_ok security_wf).
Proof using Hbytes Hlen Htab.
  intros Hp Hl. unfold sizeof_security in Hl. unfold read_security. repeat mem_step.
  do 5 (eapply safe_try; [apply safe_policy_list; lia|done|intros ? ?]). repeat mem_step.
  match goal with Hn : on_ok _ ?r |- _ => assert (opt_ok terminated (opt r)) as Hkey
    by (apply opt_on_ok; destruct r; [destruct Hn as (_ & _ & _ & Hs & _); by apply Hs|done]) end.
  match goal with |- safe _ (match ?r with _ => _ end) _ => destruct r as [q|[]] end; done.
Qed.

Lemma safe_discovery hl sl p :
  0 ≤ p → p + sizeof_discovery ≤ table_length →
  safe P (read_discovery calloc_ok buf hl sl p) (on_ok (discovery_wf hl sl)).
Proof using Hbytes Hlen Htab.
  intros Hp Hl. unfold sizeof_discovery in Hl. unfold read_discovery. repeat mem_step.
  match goal with |- safe _ (match ?r with _ => _ end) _ => destruct r as [u|] end; [|done].
  match goal with He : on_ok _ (Ok u) |- _ => destruct He as (_ & _ & _ & Hu & _) end.
  mem_step. mem_step.
  match goal with Hn : on_ok _ ?r |- _ => assert (opt_ok terminated (opt r)) as Hn'
    by (apply opt_on_ok; destruct r; [destruct Hn as (_ & _ & _ & Hs & _); by apply Hs|done]) end.
  match goal with |- safe _ (match ?r with _ => _ end) _ =>
    assert (safe P (h ← ld8 buf (p + 3);
      match hfi_from_index hl h with
      | None => Ret (Err EINVAL)
      | Some hfi =>
          si ← ld8 buf (p + 4);
          let sec := if si =? 0 then None else security_from_index sl si in
          if negb (si =? 0) && bool_decide (sec = None) then Ret (Err EINVAL)
          else Ret (Ok {| disc_index := a1; disc_security := sec; disc_hfi := hfi; uri := u;
                          disc_nqn := opt r |})
      end) (on_ok (discovery_wf hl sl))); [|by destruct r as [q|[]]] end.
  mem_step. destruct (hfi_from_index hl _) as [hfi|] eqn:Eh; [|done]. repeat mem_step.
  cbn. split_and!; [by apply Hu|done| |].
  - apply from_index_lt in Eh as (x & Eh & _). by eapply lookup_lt_Some.
  - destruct (_ =? 0); [done|]. apply from_index_ok.
Qed.

Lemma safe_ssns_ext ssns p len :
  0 ≤ p → p + len ≤ table_length → 0 ≤ len →
  safe P (read_ssns_exended_info buf ssns p len) (on_ok (λ s,
    ∃ a c r na ci ct nc, s = set_ext_info ssns a c r na ci ct nc ∧ opt_ok terminated r)).
Proof using Hbytes Hlen Htab.
  intros Hp Hl Hpos. unfold read_ssns_exended_info, offsetof_naed, sizeof_ssns_ext_info.
  mem_step. to_prop. repeat mem_step. eapply (reader_safe_bind _ _ _ _ (λ _, True)).
  { match goal with |- safe _ (if ?b then _ else _) _ => destruct b end; [|done].
    eapply reader_safe_weaken; [apply safe_ld16; lia|done]. }
  intros asq _. repeat mem_step.
  match goal with Hn : on_ok _ ?r |- _ => assert (opt_ok terminated (opt r)) as Hroot
    by (apply opt_on_ok; destruct r; [destruct Hn as (_ & _ & _ & Hs & _); by apply Hs|done]) end.
  destruct (Z.leb_spec 23 len); repeat mem_step; cbn; eauto 10.
Qed.

(** The byte at [p + j]. *)
Lemma ld8_lookup p j :
  0 ≤ p → p + Z.of_nat j + 1 ≤ Z.of_nat (length buf) →
  ∃ c, ld8 buf (p + Z.of_nat j) = Ret c ∧ buf !! (Z.to_nat p + j)%nat = Some c.
Proof using.
  clear. intros Hp Hl. destruct (lookup_lt_is_Some_2 buf (Z.to_nat p + j)) as [c Hc]; [lia|].
  exists c. split; [|done]. unfold ld8, load, load_at.
  replace ((0 <=? p + Z.of_nat j) && (p + Z.of_nat j + 1 <=? Z.of_nat (length buf))) with true
    by (symmetry; rewrite andb_true_iff; lia).
  replace (Z.to_nat (p + Z.of_nat j)) with (Z.to_nat p + j)%nat by lia.
  rewrite (drop_S _ _ _ Hc). change (Z.to_nat 1) with 1%nat.
  cbn [take le fmap access_fmap]. rewrite take_0. cbn [le]. f_equal. lia.
Qed.

Lemma safe_seen_before p x j i :
  0 ≤ p → p + Z.of_nat (j + i) ≤ table_length →
  safe P (seen_before buf p x j i) (λ b, b = false →
    ∀ k, (j ≤ k < j + i)%nat → buf !! (Z.to_nat p + k)%nat ≠ Some x).
Proof using Htab.
  intros Hp. revert j. induction i as [|i IH]; intros j Hl; cbn [seen_before]; [cbn; lia|].
  destruct (ld8_lookup p j) as (c & -> & Hc); [done|lia|]. cbn [mbind access_bind].
  destruct (Z.eqb_spec x c) as [->|Hne]; [done|].
  eapply reader_safe_weaken; [apply IH; lia|]. cbn. intros b Hb Hf k Hk.
  destruct (decide (k = j)) as [->|]; [congruence|]. apply Hb; [done|lia].
Qed.

(** The interfaces found so far are distinct: each has the index of the
    primary or of a byte read. *)
Definition hfis_inv (hl : list libnbft_hfi) (p primary : Z) (i : nat) (acc : list nat) : Prop :=
  acc ≠ [] ∧ NoDup acc ∧ (length acc ≤ S i)%nat ∧
  ∀ h, h ∈ acc → ∃ x, hl !! h = Some x ∧
    (hfi_index x = primary ∨ ∃ k, (k < i)%nat ∧ buf !! (Z.to_nat p + k)%nat = Some (hfi_index x)).

Lemma hfis_inv_S hl p primary i acc : hfis_inv hl p primary i acc → hfis_inv hl p primary (S i) acc.
Proof using.
  clear. intros (? & ? & ? & Hi). split_and!; [done|done|lia|]. intros h Hh.
  destruct (Hi h Hh) as (x & E & [?|(k & ? & ?)]); exists x; split; [done|by left|done|].
  right. exists k. split; [lia|done].
Qed.

Lemma safe_secondary hl p primary cap i n acc :
  0 ≤ p → p + Z.of_nat (i + n) ≤ table_length → (i + n + 2 ≤ cap)%nat →
  hfis_inv hl p primary i acc →
  safe P (secondary_hfis buf hl p primary cap i n acc) (hfis_inv hl p primary (i + n)).
Proof using Htab.
  intros Hp. revert i acc. induction n as [|n IH]; intros i acc Hl Hc Hi; cbn [secondary_hfis].
  { by rewrite Nat.add_0_r. }
  destruct (ld8_lookup p i) as (x & -> & Hx); [done|lia|]. cbn [mbind access_bind].
  eapply reader_safe_bind; [apply safe_seen_before; lia|]. cbn beta. intros dup Hdup.
  rewrite <- Nat.add_succ_comm in *.
  destruct dup; cbn [orb]; [by apply IH; [lia|lia|apply hfis_inv_S]|]. specialize (Hdup eq_refl).
  destruct (Z.eqb_spec x primary) as [|Hne]; [by apply IH; [lia|lia|apply hfis_inv_S]|].
  destruct (hfi_from_index hl x) as [h|] eqn:Eh; [|by apply IH; [lia|lia|apply hfis_inv_S]].
  pose proof Hi as (Hi1 & Hi2 & Hi3 & Hi4).
  replace (length acc <? cap)%nat with true by (symmetry; apply Nat.ltb_lt; lia).
  apply IH; [lia|lia|]. apply from_index_lt in Eh as (y & Ey & Hy). split_and!.
  - by destruct acc.
  - apply list.NoDup_app. split_and!; [done| |apply NoDup_singleton].
    intros h' Hh' ->%list_elem_of_singleton. destruct (Hi4 h Hh') as (z & Ez & Hz).
    assert (z = y) as -> by congruence. destruct Hz as [Hz|(k & Hk & Hz)]; [congruence|].
    apply (Hdup k); [lia|]. by rewrite Hz, Hy.
  - rewrite length_app. cbn [length]. lia.
  - intros h' [Hh'| ->%list_elem_of_singleton]%elem_of_app.
    + destruct (hfis_inv_S hl p primary i acc Hi) as (_ & _ & _ & Hs). by apply Hs.
    + exists y. split; [done|]. right. exists i. split; [lia|]. by rewrite Hy.
Qed.

(** What holds of a namespace before its extended information is read holds
    after it. *)
Lemma ssns_wf_ext hl sl dl ssns r a c na ci ct nc :
  ssns_wf hl sl dl ssns → opt_ok terminated r →
  ssns_wf hl sl dl (set_ext_info ssns a c r na ci ct nc).
Proof using. clear. unfold ssns_wf. cbn. tauto. Qed.

Lemma safe_ext_info hl sl dl ssns p :
  0 ≤ p → p + 6 ≤ table_length → ssns_wf hl sl dl ssns →
  safe P (ext_obj ← ld_obj buf p;
          ext ← get_heap_obj buf ext_obj false 0;
          match ext with
          | Ok ei =>
              r ← read_ssns_exended_info buf ssns ei (obj_length ext_obj);
              Ret (Ok (default ssns (opt r)))
          | Err _ => Ret (Ok ssns)
          end) (on_ok (ssns_wf hl sl dl)).
Proof using Hbytes Hlen Htab.
  intros Hp Hl Hwf. repeat mem_step. heap_obj.
  eapply reader_safe_bind; [apply safe_ssns_ext; lia|]. intros [s|e]; [|done]. cbn.
  intros (? & ? & ? & ? & ? & ? & ? & -> & ?). by apply ssns_wf_ext.
Qed.

Lemma hfis_inv_primary hl p primary h :
  hfi_from_index hl primary = Some h → hfis_inv hl p primary 0 [h].
Proof using.
  clear. intros Eh. apply from_index_lt in Eh as (y & Ey & Hy).
  split_and!; [done|apply NoDup_singleton|cbn; lia|].
  intros h' ->%list_elem_of_singleton. exists y. auto.
Qed.

Lemma hfis_inv_lt hl p primary i acc :
  hfis_inv hl p primary i acc → Forall (λ k, (k < length hl)%nat) acc.
Proof using.
  clear. intros (_ & _ & _ & Hi). apply list.Forall_forall. intros h Hh.
  destruct (Hi h Hh) as (x & E & _). by eapply lookup_lt_Some.
Qed.

Lemma safe_ssns hl sl dl p :
  0 ≤ p → p + sizeof_ssns ≤ table_length →
  safe P (read_ssns calloc_ok buf hl sl dl p) (on_ok (ssns_wf hl sl dl)).
Proof using Hbytes Hlen Htab.
  intros Hp Hl. unfold sizeof_ssns in Hl. unfold read_ssns. repeat mem_step.
  subst a6. match goal with Ho : obj_ok a5 |- _ => destruct Ho end. to_prop.
  repeat mem_step. destruct (hfi_from_index hl _) as [h0|] eqn:Eh; [|done].
  repeat match goal with Hs : true = true → _ |- _ => specialize (Hs eq_refl) end.
  match goal with Ho : obj_ok a13 |- _ => destruct Ho end.
  eapply reader_safe_bind; [apply safe_secondary; [lia|lia|lia|by apply hfis_inv_primary]|].
  cbn beta. intros hs Hhs. repeat mem_step.
  match goal with Hs : true = true → _ |- _ => specialize (Hs eq_refl) end.
  match goal with |- context [if _ then _ else Ret (Ok ?s)] => assert (ssns_wf hl sl dl s) as Hwf end.
  { pose proof (hfis_inv_lt _ _ _ _ _ Hhs). destruct Hhs as (Hh1 & Hh2 & _).
    unfold ssns_wf, in_table. cbn.
    split_and!; try done; [lia|lia| |];
      match goal with |- opt_ok _ (if ?b then _ else _) => destruct b end; first [exact I|apply from_index_ok]. }
  match goal with |- safe _ (if ?b then _ else _) _ => destruct b end; [|done].
  apply safe_ext_info; [lia|lia|done].
Qed.
(** *** Lists of descriptors *)

Lemma safe_read_descriptors {A} (read : Z → M A) (Q : A → Prop) ok array len size i n acc :
  (∀ p, 0 ≤ p → p + size ≤ table_length → safe P (read p) (on_ok Q)) →
  ok = true ∨ P NullWrite →
  0 ≤ array → 0 ≤ size ≤ len → 0 ≤ i → array + (i + Z.of_nat n) * len ≤ table_length → Forall Q acc →
  safe P (read_descriptors read ok array len i n acc) (Forall Q).
Proof using.
  clear -P. intros Hread Hok Ha Hs. revert i acc.
  induction n as [|n IH]; intros i acc Hi Hn HQ; cbn [read_descriptors]; [done|].
  eapply reader_safe_bind; [apply Hread; unfold descriptor_at; nia|]. intros [a|e] Hr; [|apply IH; [lia|lia|done]].
  destruct ok; [apply IH; [lia|lia|]|by destruct Hok].
  apply list.Forall_app. split; [done|]. by apply list.Forall_singleton.
Qed.

Lemma safe_list_valid o l n size :
  0 ≤ o → 0 < size → 0 ≤ l → 0 ≤ n →
  safe P (descriptor_list_valid buf o l n size) (λ b, b = true → size ≤ l ∧ o + n * l ≤ table_length).
Proof using Hbytes Hlen Htab.
  intros Ho Hs Hl Hn. pose proof table_length_u32 as Ht. unfold descriptor_list_valid. rewrite Hlen.
  cbn [mbind access_bind safe]. destruct (_ || _) eqn:E; [done|].
  rewrite !orb_false_iff in E. destruct E as [[E1 E2] E3]. rewrite Z.ltb_ge in E1, E3.
  unfold u64. rewrite Z.mod_small by lia. intros Hc%Z.leb_le. split; [done|].
  pose proof (Z.mul_div_le (table_length - o) l). nia.
Qed.

Lemma safe_read_section {A} (read : Z → M A) (Q : A → Prop) id size off len num :
  (∀ p, 0 ≤ p → p + size ≤ table_length → safe P (read p) (on_ok Q)) →
  calloc_ok (AList id) = true ∨ P NullWrite →
  0 < size → 0 ≤ off ≤ 60 → 0 ≤ len ≤ 60 → 0 ≤ num ≤ 60 →
  safe P (read_section calloc_ok buf read id size off len num) (on_ok (Forall Q)).
Proof using Hbytes Hlen Htab.
  intros Hread Hok Hs Hoff Hln Hnum. unfold read_section, sizeof_header.
  eapply reader_safe_bind; [apply safe_ld8; lia|]. cbn beta. intros n Hn.
  destruct (n =? 0); [by constructor|]. repeat mem_step.
  eapply reader_safe_bind; [apply safe_list_valid; lia|]. cbn beta. intros [] Hv; [|done].
  destruct (Hv eq_refl) as [Hv1 Hv2]. cbn [verify].
  eapply safe_fmap; [|intros x Hx; exact Hx].
  eapply safe_read_descriptors; [exact Hread|done|lia|lia|lia| |by constructor].
  rewrite Z2Nat.id by lia. lia.
Qed.
End Safety.

(** ** The whole table *)

(** Normalizing the NQN rewrites letters past the first 32 bytes, so the
    header and where the strings end stay. *)
Lemma normalize_at_split buf p :
  (32 ≤ length buf)%nat → 0 ≤ p ≤ Z.of_nat (length buf) →
  ∃ A B C, buf = A ++ B ++ C ∧ normalize_at buf p = A ++ map lower_AF B ++ C ∧ (32 ≤ length A)%nat.
Proof.
  intros Hl Hp. unfold normalize_at, shr_nqn_normalize, str_at.
  set (s := buf_str (drop (Z.to_nat p) buf)).
  destruct (has_prefix NQN_UUID_PREFIX s) eqn:E; cbn [negb];
    [|by exists buf, [], []; rewrite !app_nil_r].
  pose proof (take_while_drop_while (λ c, negb (c =? 0)) (drop (Z.to_nat p) buf)) as HC.
  change (take_while _ _) with s in HC. set (C := drop_while _ _) in HC. symmetry in HC. apply has_prefix_spec in E as [t Et].
  rewrite Et, take_app_length, drop_app_length.
  exists (take (Z.to_nat p) buf ++ NQN_UUID_PREFIX), t, C. split_and!.
  - rewrite <- (take_drop (Z.to_nat p) buf) at 1. by rewrite HC, Et, <- !app_assoc.
  - unfold buf_write. rewrite <- !app_assoc. do 3 f_equal.
    rewrite length_app, length_map, <- length_app, <- Et, <- drop_drop, HC. by rewrite drop_app_length.
  - rewrite length_app. change (length NQN_UUID_PREFIX) with 32%nat. lia.
Qed.

Lemma load_prefix s A B B' p n :
  p + n ≤ Z.of_nat (length A) → length B = length B' → 0 ≤ p → 0 ≤ n →
  load_at s (A ++ B) p n = load_at s (A ++ B') p n.
Proof.
  intros Hl HB Hp Hn. unfold load_at. rewrite !length_app, HB. destruct (_ && _); [|done]. f_equal.
  rewrite !drop_app_le, !take_app_le by (rewrite ?length_drop; lia). done.
Qed.

Lemma normalize_at_keeps buf p :
  (32 ≤ length buf)%nat → 0 ≤ p ≤ Z.of_nat (length buf) → bytes buf →
  let buf' := normalize_at buf p in
  length buf' = length buf ∧ bytes buf' ∧ header_length buf' = header_length buf ∧
  ∀ q, terminated buf q → terminated buf' q.
Proof.
  intros Hl Hp Hb. destruct (normalize_at_split buf p Hl Hp) as (A & B & C & -> & -> & HA). cbv zeta.
  assert (length (map lower_AF B ++ C) = length (B ++ C)) as HL by (by rewrite !length_app, length_map).
  split_and!.
  - by rewrite !(length_app A), HL.
  - apply bytes_app in Hb as [HbA Hb]. apply bytes_app in Hb as [HbB HbC].
    apply bytes_app. split; [done|]. apply bytes_app. split; [|done].
    apply Forall_fmap. eapply list.Forall_impl; [exact HbB|]. cbn. intros c Hc.
    unfold is_byte, lower_AF in *. destruct (_ && _) eqn:E; [|done]. to_prop. lia.
  - unfold header_length, ld32, load. f_equal. apply load_prefix; [lia|done|lia|lia].
  - intros q [Hq (k & Hk & E)]. split; [done|]. exists k. split; [done|].
    rewrite !lookup_app in *. destruct (A !! k) as [c|]; [done|].
    change (map lower_AF B) with (lower_AF <$> B). rewrite list_lookup_fmap, length_fmap.
    destruct (B !! (k - length A)%nat) as [c|]; [|done]. cbn. by injection E as ->.
Qed.

(** A well-formed result: the host's identifier and every list are inside of
    the table, strings end inside of it and references lead to descriptors. *)
Definition nbft_wf (buf : list Z) (i : libnbft_info) : Prop :=
  terminated buf (host_nqn (nbft_host i)) ∧ in_table buf (host_id (nbft_host i), 16) ∧
  Forall (hfi_wf buf) (hfi_list i) ∧ Forall (security_wf buf) (security_list i) ∧
  Forall (discovery_wf buf (hfi_list i) (security_list i)) (discovery_list i) ∧
  Forall (ssns_wf buf (hfi_list i) (security_list i) (discovery_list i)) (subsystem_ns_list i).

Lemma safe_header P buf :
  bytes buf →
  safe P (header_valid buf) (on_ok (λ _,
    ∃ len, header_length buf = Ret len ∧ 128 ≤ len ≤ Z.of_nat (length buf))).
Proof.
  intros Hb. unfold header_valid. apply safe_verify; [done|intros Hl]. apply safe_verify; [done|intros _].
  unfold sizeof_header, sizeof_control in *. to_prop.
  eapply reader_safe_bind; [apply safe_load_at; [done|lia..]|]. cbn beta. intros sig _.
  apply safe_verify; [done|intros _].
  assert (safe P (header_length buf) (λ _, True)) as Hlen.
  { eapply reader_safe_weaken; [apply safe_ld32; [done|lia..]|done]. }
  destruct (header_length buf) as [len|]; [|done]. cbn [mbind access_bind].
  apply safe_verify; [done|intros ?]. apply safe_verify; [done|intros ?]. to_prop.
  do 2 (eapply reader_safe_bind; [apply safe_ld8; [done|lia..]|intros ? _]; apply safe_verify; [done|intros _]).
  do 2 (eapply reader_safe_bind; [apply safe_ld32; [done|lia..]|intros ? _]). apply safe_verify; [done|intros _].
  cbn. exists len. split; [done|lia].
Qed.

Lemma safe_host P buf len :
  bytes buf → header_length buf = Ret len → 128 ≤ len ≤ Z.of_nat (length buf) →
  safe P (read_host buf) (on_ok (λ '(b, h),
    length b = length buf ∧ bytes b ∧ header_length b = Ret len ∧
    terminated b (host_nqn h) ∧ in_table b (host_id h, 16))).
Proof.
  intros Hb Hlen Ht. pose proof (table_length_u32 P _ Hb _ Hlen Ht) as Hu.
  unfold read_host, sizeof_header, sizeof_host.
  eapply reader_safe_bind; [apply safe_ld8; [done|lia..]|]. intros cf _. apply safe_verify; [done|intros _].
  eapply reader_safe_bind; [apply safe_ld8; [done|lia..]|]. intros ci _. apply safe_verify; [done|intros _].
  eapply reader_safe_bind; [apply safe_ld32; [done|lia..]|]. cbn beta. intros p Hp.
  rewrite Hlen. cbn [mbind access_bind]. apply safe_verify; [done|intros Hr].
  unfold range_valid in Hr. to_prop. unfold u64 in *. rewrite Z.mod_small in * by lia.
  eapply reader_safe_bind; [apply safe_ld8; [done|lia..]|]. intros fl _. apply safe_verify; [done|intros _].
  eapply reader_safe_bind; [apply safe_ld8; [done|lia..]|]. intros id _. apply safe_verify; [done|intros _].
  eapply reader_safe_bind; [apply safe_ld_obj; [done|lia..]|]. intros obj Hobj.
  eapply reader_safe_bind; [by eapply safe_get_heap_obj|]. intros [n|e] Hn; [|done].
  destruct Hn as (-> & Hn1 & Hn2 & Hs & _). specialize (Hs eq_refl). destruct Hobj as [Ho _].
  destruct (normalize_at_keeps buf (obj_offset obj)) as (Kl & Kb & Kh & Kt); [lia|lia|done|].
  cbv zeta. eapply reader_safe_bind; [apply safe_ld8; [done|lia..]|]. intros fl' _. cbn.
  split_and!; [done|done|by rewrite Kh|by apply Kt|]. unfold in_table. cbn. lia.
Qed.

Section Parse.
Context `{Inet} (calloc_ok : alloc_site → bool).

Lemma safe_parse P buf :
  bytes buf →
  P IaidRead ∨ (∀ len, header_length buf = Ret len → len + 3 ≤ Z.of_nat (length buf)) →
  (∀ id, calloc_ok (AList id) = true) ∨ P NullWrite →
  safe P (parse_raw_nbft calloc_ok buf) (on_ok (λ '(b, i), nbft_wf b i ∧ length b = length buf)).
Proof.
  intros Hb Hi Hc. unfold parse_raw_nbft.
  eapply safe_try; [by apply safe_header|done|]. cbn beta. intros _ (len & Hlen & Ht).
  eapply safe_try; [by eapply safe_host|done|]. intros [b h] (Hl & Hb' & Hlen' & Hn & Hid).
  rewrite <- Hl in Ht. assert (P IaidRead ∨ len + 3 ≤ Z.of_nat (length b)) as Hi'.
  { destruct Hi as [|Hi]; [by left|right]. rewrite Hl. by apply Hi. }
  assert (∀ id, calloc_ok (AList id) = true ∨ P NullWrite) as Hc' by (intros id; naive_solver).
  eapply safe_try; [eapply safe_read_section; [done|done|done|by apply safe_hfi|by apply Hc'|done..]|done|].
  intros hl Hhl.
  eapply safe_try; [eapply safe_read_section; [done|done|done|by apply safe_security|by apply Hc'|done..]|done|].
  intros sl Hsl.
  eapply safe_try; [eapply safe_read_section; [done|done|done|by apply safe_discovery|by apply Hc'|done..]|done|].
  intros dl Hdl.
  eapply safe_try; [eapply safe_read_section; [done|done|done|by apply safe_ssns|by apply Hc'|done..]|done|].
  intros nl Hnl. cbn. split; [|done]. unfold nbft_wf. cbn. by split_and!.
Qed.
End Parse.

(** ** Theorems *)

(** C35: For every content of the file, reading the table makes no access out
    of its bounds except, possibly, for the DHCP identity association: no
    other read leaves the table, [ssns->hfis] never overflows, and with the
    four lists allocated nothing is written through NULL.  When the file
    holds at least 3 bytes after the table, no access at all is out of
    bounds. *)
Theorem nbft_read_safe `{Inet} calloc_ok malloc_ok info_ok buf s :
  bytes buf → (∀ id, calloc_ok (AList id) = true) →
  libnvmf_read_nbft calloc_ok malloc_ok info_ok (Some buf) = Fault s →
  s = IaidRead ∧ ∃ len, header_length buf = Ret len ∧ Z.of_nat (length buf) < len + 3.
Proof.
  intros Hb Hc. unfold libnvmf_read_nbft.
  do 3 (match goal with |- (if ?b then _ else _) = _ → _ => destruct b; [done|] end).
  pose proof (safe_parse calloc_ok (λ s, s = IaidRead) buf Hb ltac:(by left) ltac:(by left)) as Hs.
  destruct (parse_raw_nbft calloc_ok buf) as [[i|e]|s'] eqn:E; cbn; [done|done|].
  intros [= <-]. split; [exact Hs|].
  destruct (header_length buf) as [len|] eqn:Hl.
  - exists len. split; [done|]. destruct (decide (Z.of_nat (length buf) < len + 3)) as [|Hn]; [done|].
    pose proof (safe_parse calloc_ok (λ _, False) buf Hb) as Hs'. rewrite E in Hs'.
    exfalso. apply Hs'; [right|by left]. intros len' E'. rewrite Hl in E'. injection E' as <-. lia.
  - pose proof (safe_parse calloc_ok (λ _, False) buf Hb) as Hs'. rewrite E in Hs'.
    exfalso. apply Hs'; [right|by left]. intros len' E'. by rewrite Hl in E'.
Qed.

(** C36: Whatever allocations fail, a table that is accepted is well-formed:
    every string of the result ends inside of the file, every list of bytes
    is inside of it, a namespace has at least one interface and lists none
    twice, and every reference leads to a descriptor that was read. *)
Theorem nbft_read_wf `{Inet} calloc_ok malloc_ok info_ok buf buf' i :
  bytes buf → libnvmf_read_nbft calloc_ok malloc_ok info_ok (Some buf) = Ret (Ok (buf', i)) →
  nbft_wf buf' i ∧ length buf' = length buf.
Proof.
  intros Hb. unfold libnvmf_read_nbft.
  do 3 (match goal with |- (if ?b then _ else _) = _ → _ => destruct b; [done|] end).
  pose proof (safe_parse calloc_ok (λ _, True) buf Hb ltac:(by left) ltac:(by right)) as Hs.
  destruct (parse_raw_nbft calloc_ok buf) as [[[b j]|e]|s']; cbn in *; [|done|done].
  intros [= <- <-]. exact Hs.
Qed.

(** *** A table *)

Module Sample.

Definition put (b : list Z) (w : Z * list Z) : list Z := buf_write b (Z.to_nat (fst w)) (snd w).
Definition le16 (v : Z) : list Z := [v mod 256; v / 256].
Definition le32 (v : Z) : list Z := le16 (v mod 65536) ++ le16 (v / 65536).
Definition obj (o l : Z) : list Z := le32 o ++ le16 l.

(** A host, an interface with DHCP information and a namespace; the identity
    association is the last object of the table, of [iaid] bytes. *)
Definition table (iaid pad : Z) : list Z :=
  let b := foldl put (replicate (Z.to_nat (500 + iaid + pad)) 0)
    [(0, NBFT_HEADER_SIG); (4, le32 (500 + iaid)); (8, [1]); (36, le32 320); (40, le32 (180 + iaid));
     (64, [1]); (70, [1]); (72, le32 128); (80, le32 160); (84, le16 32); (87, [1]);
     (88, le32 192); (92, le16 128); (95, [1]);
     (128, [2; 1]); (146, obj 320 5);
     (160, [3; 1; 1; 3]); (176, obj 328 128);
     (192, [4; 1; 0; 1; 0; 3]); (202, obj 476 16); (208, obj 492 4); (216, le32 7); (238, [1]);
     (240, obj 497 2); (246, obj 320 5);
     (320, lit "nqn.a");
     (328, [7; 1; 0; 2; 1; 0; 1]); (438, obj 456 20);
     (456, [10; 1; 1; 0; 3]); (464, obj 500 iaid);
     (492, lit "4420"); (497, [1; 9])] in
  put b (9, [u8 (- csum b)]).

Definition all_ok (_ : alloc_site) : bool := true.

End Sample.

(** An identity association of 1 byte at the end of the file is read as 4
    bytes: [get_heap_obj] asks for no more than one byte of it. *)
Theorem nbft_iaid_overread :
  @libnvmf_read_nbft hex_inet Sample.all_ok true true (Some (Sample.table 1 0)) = Fault IaidRead.
Proof. vm_compute. reflexivity. Qed.

(** The list of interfaces is written without a check that it was
    allocated. *)
Theorem nbft_list_null_write :
  @libnvmf_read_nbft hex_inet
    (λ a, match a with AList _ => false | _ => true end) true true (Some (Sample.table 4 0)) =
  Fault NullWrite.
Proof. vm_compute. reflexivity. Qed.

Lemma nbft_read_safe_witness :
  ∃ len, header_length (Sample.table 1 0) = Ret len ∧ Z.of_nat (length (Sample.table 1 0)) < len + 3.
Proof.
  apply (@nbft_read_safe hex_inet Sample.all_ok true true (Sample.table 1 0) IaidRead).
  - apply bytes_forallb. vm_compute. reflexivity.
  - reflexivity.
  - vm_compute. reflexivity.
Defined.

Lemma nbft_read_wf_witness :
  ∃ b i, @libnvmf_read_nbft hex_inet Sample.all_ok true true (Some (Sample.table 4 0)) = Ret (Ok (b, i)) ∧
    length (subsystem_ns_list i) = 1%nat ∧ nbft_wf b i.
Proof.
  assert (∃ b i, @libnvmf_read_nbft hex_inet Sample.all_ok true true (Some (Sample.table 4 0)) =
    Ret (Ok (b, i)) ∧ length (subsystem_ns_list i) = 1%nat) as (b & i & E & Hn).
  { vm_compute. eexists _, _. split; reflexivity. }
  exists b, i. split; [exact E|]. split; [exact Hn|].
  apply (@nbft_read_wf hex_inet Sample.all_ok true true (Sample.table 4 0) b i); [|exact E].
  apply bytes_forallb. vm_compute. reflexivity.
Defined.
