(* ===== verification/Ini.v ===== *)
(** * INI files: [shared/ini-util.c]

    The reader of "[section]" and "key = value" lines behind the fabrics
    configuration.  The callback and its user data are a function and a state
    it threads; it answers [Ok tt] to go on and an error to stop.  The in-place
    parser cuts the text it was given into strings that never overlap, so the
    strings handed to the callback are values here. *)

From Stdlib Require Import String.
From stdpp Require Import base list numbers sets.
From S2P Require Import Prelude.
From S2P Require Import CStr.

(** ** Events *)

(** [callback(event, section, key, value, ...)].  A section event has the name
    as section and key; a junk event has the text of the line as key. *)
Inductive shr_ini_event :=
| SHR_INI_SECTION (name : list Z)
| SHR_INI_KV (section : option (list Z)) (key value : list Z)
| SHR_INI_JUNK (section : option (list Z)) (text : list Z).

#[export] Instance shr_ini_event_eq_dec : EqDecision shr_ini_event.
Proof. solve_decision. Defined.

(** ** The parser *)

(** What [ini_line] reports for the trimmed line [s], and [*section] after it.
    [end == shr_trim(s + 1)] compares positions: the blanks behind the bracket
    reach up to [end]. *)
Definition ini_classify (s : list Z) (section : option (list Z)) :
    option shr_ini_event * option (list Z) :=
  if negb (nonempty s) || (char_at s 0 =? c_hash) then (None, section)
  else if char_at s 0 =? c_lbrack then
    let s1 := drop 1 s in
    match split_char c_rbrack s1 with
    | None => (Some (SHR_INI_JUNK None s), None)
    | Some (name, rest) =>
        if (strspn s1 blanks =? length name)%nat || nonempty (shr_trim rest)
        then (Some (SHR_INI_JUNK None s), None)
        else (Some (SHR_INI_SECTION (shr_trim name)), Some (shr_trim name))
    end
  else
    match split_char c_eq s with
    | None => (Some (SHR_INI_JUNK section s), section)
    | Some (key, value) =>
        if negb (nonempty key) then (Some (SHR_INI_JUNK section s), section)
        else (Some (SHR_INI_KV section (shr_trim key) (shr_trim value)), section)
    end.

Section parse.
Context {U : Type}.
(** [callback(..., line, user_data)] *)
Variable callback : shr_ini_event → Z → U → result () * U.

Definition ini_line (s : list Z) (section : option (list Z)) (line : Z) (user_data : U) :
    result () * option (list Z) * U :=
  let '(ev, section) := ini_classify s section in
  match ev with
  | None => (Ok tt, section, user_data)
  | Some ev => let '(ret, u) := callback ev line user_data in (ret, section, u)
  end.

(** The loop of [parse_lines] over the lines of the text. *)
Fixpoint parse_lines (lines : list (list Z)) (section : option (list Z)) (line : Z)
    (user_data : U) : result () * U :=
  match lines with
  | [] => (Ok tt, user_data)
  | p :: lines =>
      let line := u32 (line + 1) in
      let '(ret, section, u) := ini_line (shr_trim p) section line user_data in
      match ret with
      | Ok _ => parse_lines lines section line u
      | Err e => (Err e, u)
      end
  end.

Definition shr_ini_parse_inplace (text : option (list Z)) (user_data : U) : result () * U :=
  match text with
  | None => (Err EINVAL, user_data)
  | Some text => parse_lines (fields c_nl text) None 0 user_data
  end.

(** The same on a private copy. *)
Definition shr_ini_parse_buf (text : option (list Z)) (user_data : U) : result () * U :=
  match text with
  | None => (Err EINVAL, user_data)
  | Some text => shr_ini_parse_inplace (Some text) user_data
  end.
End parse.

(** ** Reading the file *)

Definition INI_FILE_MAX : Z := 1 * 1024 * 1024.

(** What a path names when the file is opened: why it cannot be opened, a
    directory, another object that is not a regular file, or a regular file:
    its size and the bytes [fread] delivers, [None] when it fails.  [fread] is
    asked for [st_size] bytes, and gets fewer from a file cut meanwhile. *)
Inductive ini_node :=
| IniMissing (e : errno)
| IniDir
| IniSpecial
| IniReg (st_size : Z) (data : option (list Z)).

Definition shr_ini_read_file (n : ini_node) : result (list Z) :=
  match n with
  | IniMissing e => Err e
  | IniDir => Err EISDIR
  | IniSpecial => Err EINVAL
  | IniReg size data =>
      if INI_FILE_MAX <? size then Err EFBIG
      else
        match data with
        | None => Err EIO
        | Some d =>
            let text := take (Z.to_nat size) d in
            if existsb (Z.eqb 0) text then Err EINVAL else Ok text
        end
  end.

Definition shr_ini_parse_file {U} (n : ini_node)
    (callback : shr_ini_event → Z → U → result () * U) (user_data : U) : result () * U :=
  match shr_ini_read_file n with
  | Err e => (Err e, user_data)
  | Ok text => parse_lines callback (fields c_nl text) None 0 user_data
  end.

(** ** Specification: the forms of a line *)

Definition blank (s : list Z) : Prop := forallb isspace s = true.

Definition header_text (p1 name p2 : list Z) : list Z :=
  c_lbrack :: p1 ++ name ++ p2 ++ [c_rbrack].

(** "[name]", blanks allowed inside the brackets. *)
Definition is_header (s name : list Z) : Prop :=
  ∃ p1 p2, s = header_text p1 name p2 ∧ blank p1 ∧ blank p2 ∧
           trimmed name ∧ name ≠ [] ∧ c_rbrack ∉ name.

(** [line_form section s ev section']: the trimmed line [s], read in
    [section], reports [ev] and leaves [section']. *)
Inductive line_form (section : option (list Z)) :
    list Z → option shr_ini_event → option (list Z) → Prop :=
| form_blank : line_form section [] None section
| form_comment s : line_form section (c_hash :: s) None section
| form_header s name :
    is_header s name →
    line_form section s (Some (SHR_INI_SECTION name)) (Some name)
| form_bad_header s :
    (∀ name, ¬ is_header (c_lbrack :: s) name) →
    line_form section (c_lbrack :: s) (Some (SHR_INI_JUNK None (c_lbrack :: s))) None
| form_kv key p1 p2 value :
    key ≠ [] → trimmed key → trimmed value → blank p1 → blank p2 → c_eq ∉ key →
    char_at key 0 ≠ c_hash → char_at key 0 ≠ c_lbrack →
    line_form section (key ++ p1 ++ c_eq :: p2 ++ value)
      (Some (SHR_INI_KV section key value)) section
| form_junk s :
    s ≠ [] → char_at s 0 ≠ c_hash → char_at s 0 ≠ c_lbrack →
    (char_at s 0 = c_eq ∨ c_eq ∉ s) →
    line_form section s (Some (SHR_INI_JUNK section s)) section.

(** The forms of the lines of a text, the section threaded through. *)
Inductive doc_form :
    option (list Z) → list (list Z) → list (option shr_ini_event) → Prop :=
| doc_nil section : doc_form section [] []
| doc_cons section section' p ps ev evs :
    line_form section (shr_trim p) ev section' →
    doc_form section' ps evs →
    doc_form section (p :: ps) (ev :: evs).

(** The callback on the events of the lines after line [line], up to the
    first error. *)
Fixpoint run_events {U} (callback : shr_ini_event → Z → U → result () * U)
    (evs : list (option shr_ini_event)) (line : Z) (u : U) : result () * U :=
  match evs with
  | [] => (Ok tt, u)
  | None :: evs => run_events callback evs (u32 (line + 1)) u
  | Some ev :: evs =>
      match callback ev (u32 (line + 1)) u with
      | (Ok _, u) => run_events callback evs (u32 (line + 1)) u
      | (Err e, u) => (Err e, u)
      end
  end.

(** ** Lemmas *)

Lemma blank_elem c s : blank s → isspace c = false → c ∉ s.
Proof.
  intros Hb Hc Hin. apply forallb_Forall in Hb.
  rewrite list.Forall_forall in Hb. specialize (Hb c Hin). simpl in Hb. congruence.
Qed.

Lemma trimmed_no_head l s : trimmed (l ++ s) → blank l → l = [].
Proof.
  intros [H _]. destruct l as [|c l]; [done|]. unfold blank.
  intros [Hc _]%andb_true_iff. unfold char_at in H. simpl in H. congruence.
Qed.

Lemma trimmed_no_tail s r : trimmed (s ++ r) → blank r → r = [].
Proof.
  intros [_ H]. destruct r as [|c r _] using rev_ind; [done|].
  unfold blank. rewrite forallb_app. intros [_ Hc]%andb_true_iff. simpl in Hc.
  specialize (H (s ++ r) c). rewrite app_assoc in H. rewrite (H eq_refl) in Hc. done.
Qed.

Lemma trim_blank s : shr_trim s = [] ↔ blank s.
Proof.
  split.
  - intros Ht. destruct (shr_trim_split s) as (l & r & Hs & Hl & Hr). rewrite Ht in Hs.
    rewrite Hs. unfold blank. simpl. by rewrite forallb_app, Hl, Hr.
  - intros Hb. rewrite <- (shr_trim_pad s [] [] Hb eq_refl) by (split; [done|by intros [] ?]).
    by rewrite !app_nil_r.
Qed.

Lemma trim_pad_l p s : blank p → trimmed s → shr_trim (p ++ s) = s.
Proof. intros Hp Hs. rewrite <- (app_nil_r s) at 1. by apply shr_trim_pad. Qed.

Lemma trim_pad_r s p : blank p → trimmed s → shr_trim (s ++ p) = s.
Proof. intros Hp Hs. by apply (shr_trim_pad []). Qed.

Lemma char_at_app_l s t : s ≠ [] → char_at (s ++ t) 0 = char_at s 0.
Proof. by destruct s. Qed.

Lemma strspn_blanks s c t : isspace c = false →
  (strspn (s ++ c :: t) blanks =? length s)%nat = forallb isspace s.
Proof.
  intros Hc. unfold strspn. rewrite (take_while_ext _ isspace) by apply in_blanks.
  induction s as [|x s IH]; simpl; [by rewrite Hc|].
  destruct (isspace x); simpl; [exact IH|done].
Qed.

(** The two branches of [ini_classify]. *)
Lemma classify_bracket section s1 :
  ini_classify (c_lbrack :: s1) section =
  match split_char c_rbrack s1 with
  | None => (Some (SHR_INI_JUNK None (c_lbrack :: s1)), None)
  | Some (name, rest) =>
      if (strspn s1 blanks =? length name)%nat || nonempty (shr_trim rest)
      then (Some (SHR_INI_JUNK None (c_lbrack :: s1)), None)
      else (Some (SHR_INI_SECTION (shr_trim name)), Some (shr_trim name))
  end.
Proof. reflexivity. Qed.

Lemma classify_plain section s :
  s ≠ [] → char_at s 0 ≠ c_hash → char_at s 0 ≠ c_lbrack →
  ini_classify s section =
  (match split_char c_eq s with
   | None => Some (SHR_INI_JUNK section s)
   | Some (key, value) =>
       if negb (nonempty key) then Some (SHR_INI_JUNK section s)
       else Some (SHR_INI_KV section (shr_trim key) (shr_trim value))
   end, section).
Proof.
  intros Hne Hh Hb. unfold ini_classify.
  rewrite (proj2 (Z.eqb_neq _ _) Hh), (proj2 (Z.eqb_neq _ _) Hb).
  rewrite (proj2 (nonempty_spec s)) by done. cbn [negb orb].
  destruct (split_char c_eq s) as [[k v]|]; [by destruct (negb (nonempty k))|done].
Qed.

Lemma classify_header section s name :
  is_header s name →
  ini_classify s section = (Some (SHR_INI_SECTION name), Some name).
Proof.
  intros (p1 & p2 & -> & Hp1 & Hp2 & Ht & Hne & Hin).
  unfold header_text. rewrite classify_bracket.
  replace (p1 ++ name ++ p2 ++ [c_rbrack]) with ((p1 ++ name ++ p2) ++ [c_rbrack])
    by by rewrite <- !app_assoc.
  rewrite (proj2 (split_char_spec _ _ (p1 ++ name ++ p2) [])).
  - rewrite strspn_blanks by done.
    rewrite shr_trim_pad by done.
    replace (forallb isspace (p1 ++ name ++ p2)) with false; [done|].
    symmetry. apply not_true_iff_false. intros Hb%trim_blank.
    rewrite shr_trim_pad in Hb; done.
  - split; [done|]. rewrite !elem_of_app.
    intros [H | [H | H]]; [|done|]; by eapply blank_elem in H.
Qed.

Lemma classify_kv section key p1 p2 value :
  key ≠ [] → trimmed key → trimmed value → blank p1 → blank p2 → c_eq ∉ key →
  char_at key 0 ≠ c_hash → char_at key 0 ≠ c_lbrack →
  ini_classify (key ++ p1 ++ c_eq :: p2 ++ value) section =
  (Some (SHR_INI_KV section key value), section).
Proof.
  intros Hne Hk Hv Hp1 Hp2 Heq Hh Hb.
  rewrite classify_plain; [|by destruct key|by rewrite char_at_app_l..].
  rewrite (proj2 (split_char_spec _ _ (key ++ p1) (p2 ++ value))).
  - replace (nonempty (key ++ p1)) with true by by destruct key. cbn [negb].
    by rewrite trim_pad_r, trim_pad_l.
  - split; [by rewrite <- app_assoc|]. rewrite elem_of_app.
    intros [H | H]; [done|]. by eapply blank_elem in H.
Qed.

(** A bracketed line [ini_line] takes for a header is one. *)
Lemma header_of_split name rest :
  trimmed (c_lbrack :: name ++ c_rbrack :: rest) → c_rbrack ∉ name →
  forallb isspace name = false → nonempty (shr_trim rest) = false →
  is_header (c_lbrack :: name ++ c_rbrack :: rest) (shr_trim name).
Proof.
  intros Ht Hin Hname Hrest.
  assert (rest = []) as ->.
  { apply (trimmed_no_tail (c_lbrack :: name ++ [c_rbrack])).
    - simpl. by rewrite <- app_assoc.
    - apply trim_blank. apply not_true_iff_false in Hrest. rewrite nonempty_spec in Hrest.
      destruct (shr_trim rest); [done|]. by destruct Hrest. }
  destruct (shr_trim_split name) as (l & r & Hs & Hl & Hr).
  exists l, r. split; [|split; [done|split; [done|split; [apply shr_trim_trimmed|split]]]].
  - unfold header_text. rewrite Hs at 1. by rewrite <- !app_assoc.
  - intros Hb%trim_blank. unfold blank in Hb. congruence.
  - by intros H%shr_trim_elem.
Qed.

(** The form of a line is what [ini_classify] decides. *)
Lemma classify_complete section s ev section' :
  trimmed s → line_form section s ev section' → ini_classify s section = (ev, section').
Proof.
  intros Ht. destruct 1 as [|s|s name Hh|s Hno|key p1 p2 value|s Hne Hh Hb Hj].
  - done.
  - done.
  - by apply classify_header.
  - rewrite classify_bracket. destruct (split_char c_rbrack s) as [[name rest]|] eqn:Hsp; [|done].
    apply split_char_spec in Hsp as [-> Hin].
    rewrite strspn_blanks by done.
    destruct (forallb isspace name) eqn:Hbl; [done|].
    destruct (nonempty (shr_trim rest)) eqn:Hr; [done|].
    by destruct (Hno (shr_trim name)); apply header_of_split.
  - by apply classify_kv.
  - rewrite classify_plain by done. destruct Hj as [Hj | Hj].
    + destruct s as [|c s]; [done|]. unfold char_at in Hj. simpl in Hj. subst c. done.
    + by rewrite (proj2 (split_char_None _ _)).
Qed.

Lemma kv_form section s key value :
  trimmed s → s ≠ [] → char_at s 0 ≠ c_hash → char_at s 0 ≠ c_lbrack →
  s = key ++ c_eq :: value → c_eq ∉ key → key ≠ [] →
  line_form section s (Some (SHR_INI_KV section (shr_trim key) (shr_trim value))) section.
Proof.
  intros Ht Hne Hh Hb Hs Hin Hk.
  destruct (shr_trim_split key) as (l & p1 & Hkey & Hl & Hp1).
  destruct (shr_trim_split value) as (p2 & r & Hval & Hp2 & Hr).
  assert (l = []) as ->.
  { apply (trimmed_no_head l (shr_trim key ++ p1 ++ c_eq :: value)); [|done].
    rewrite !(app_assoc _ p1), (app_assoc l), <- Hkey, <- Hs. done. }
  assert (r = []) as ->.
  { apply (trimmed_no_tail (key ++ c_eq :: p2 ++ shr_trim value)); [|done].
    rewrite <- app_assoc. simpl. rewrite <- app_assoc, <- Hval, <- Hs. done. }
  simpl in Hkey. rewrite app_nil_r in Hval.
  assert (Hk0 : shr_trim key ≠ []).
  { intros Hz. rewrite Hz in Hkey. simpl in Hkey. subst p1.
    apply Hk, (trimmed_no_head key (c_eq :: value)); congruence. }
  assert (Hc : char_at (shr_trim key) 0 = char_at s 0).
  { rewrite Hs, char_at_app_l by done. rewrite Hkey at 2. by rewrite char_at_app_l. }
  replace s with (shr_trim key ++ p1 ++ c_eq :: p2 ++ shr_trim value)
    by by rewrite <- Hval, app_assoc, <- Hkey.
  apply form_kv; try rewrite Hc; try done; [apply shr_trim_trimmed..|].
  by intros H%shr_trim_elem.
Qed.

Lemma classify_sound section s :
  trimmed s → line_form section s (ini_classify s section).1 (ini_classify s section).2.
Proof.
  intros Ht. destruct s as [|c s]; [constructor|].
  destruct (decide (c = c_hash)) as [->|Hh]; [constructor|].
  destruct (decide (c = c_lbrack)) as [->|Hb].
  - rewrite classify_bracket. destruct (split_char c_rbrack s) as [[name rest]|] eqn:Hsp.
    + apply split_char_spec in Hsp as [-> Hin]. rewrite strspn_blanks by done.
      assert (Hbad : forallb isspace name = true ∨ nonempty (shr_trim rest) = true →
                     ∀ n, ¬ is_header (c_lbrack :: name ++ c_rbrack :: rest) n).
      { intros Hor n Hhd. apply (classify_header section) in Hhd.
        rewrite classify_bracket, (proj2 (split_char_spec _ _ _ _)) in Hhd by done.
        rewrite strspn_blanks in Hhd by done.
        destruct Hor as [Ho | Ho]; rewrite Ho in Hhd; [done|].
        by rewrite orb_true_r in Hhd. }
      destruct (forallb isspace name) eqn:E1; [constructor; by apply Hbad; left|].
      destruct (nonempty (shr_trim rest)) eqn:E2; [constructor; by apply Hbad; right|].
      cbn. constructor. by apply header_of_split.
    + constructor. intros n (p1 & p2 & [= ->] & _).
      apply split_char_None in Hsp. apply Hsp. set_solver.
  - rewrite classify_plain by done.
    destruct (split_char c_eq (c :: s)) as [[k v]|] eqn:Hsp; cbn [fst snd].
    + apply split_char_spec in Hsp as [Hs Hin].
      destruct (nonempty k) eqn:Hk; cbn [negb].
      * apply nonempty_spec in Hk. by apply kv_form.
      * constructor; try done. left. destruct k; [|done]. simpl in Hs. by rewrite Hs.
    + constructor; try done. right. by apply split_char_None.
Qed.

(** Every text has exactly one sequence of forms. *)
Lemma doc_form_total section ps : ∃ evs, doc_form section ps evs.
Proof.
  revert section. induction ps as [|p ps IH]; intros section; [by exists []; constructor|].
  destruct (IH (ini_classify (shr_trim p) section).2) as [evs Hd].
  eexists. econstructor; [|exact Hd]. apply classify_sound, shr_trim_trimmed.
Qed.

Lemma doc_form_functional section ps evs evs' :
  doc_form section ps evs → doc_form section ps evs' → evs = evs'.
Proof.
  intros H. revert evs'. induction H as [|sec sec' p ps ev evs Hl _ IH]; intros evs' H';
    inversion H' as [|? sec'' ? ? ev' evs'' Hl' Hd']; subst; [done|].
  apply classify_complete in Hl, Hl'; [|apply shr_trim_trimmed..].
  rewrite Hl in Hl'. simplify_eq. by rewrite (IH evs'').
Qed.

Lemma parse_lines_run {U} (callback : shr_ini_event → Z → U → result () * U)
    section ps evs line u :
  doc_form section ps evs →
  parse_lines callback ps section line u = run_events callback evs line u.
Proof.
  intros H. revert line u.
  induction H as [|sec sec' p ps ev evs Hl _ IH]; intros line u; simpl; [done|].
  apply classify_complete in Hl; [|apply shr_trim_trimmed].
  unfold ini_line. rewrite Hl. destruct ev as [ev|]; [|apply IH].
  destruct (callback ev (u32 (line + 1)) u) as [[[]|e] u']; [apply IH|done].
Qed.

(** ** Properties *)

(** C29: the INI parser, on any text and with any callback.  Each line, with
    the blanks around it cut off, has exactly one form: blank, comment, header
    "[name]", malformed header, "key = value", or junk; the parser calls the
    callback once for each line that is not blank or a comment, in order, with
    the name, key and value of that form, the section of the last header
    (none after a malformed one) and the number of the line, and stops with the
    error of the first call that fails. *)
Theorem shr_ini_parse_spec {U} (callback : shr_ini_event → Z → U → result () * U) text :
  ∃ evs, doc_form None (fields c_nl text) evs ∧
         (∀ evs', doc_form None (fields c_nl text) evs' → evs' = evs) ∧
         ∀ u, shr_ini_parse_buf callback (Some text) u = run_events callback evs 0 u.
Proof.
  destruct (doc_form_total None (fields c_nl text)) as [evs Hd]. exists evs.
  split; [done|split]; [intros evs' Hd'; by eapply doc_form_functional|].
  intros u. by apply parse_lines_run.
Qed.
