(* ===== verification/Conf.v ===== *)
(** * The fabrics configuration file: [libnvme/src/nvme/config-ini.c]

    The table of keys, the parameter store and the parser of one file.  The
    store is the list of its entries in order of insertion; the parser's state
    is the struct [conf_parse], with the current endpoint as an index into the
    file's endpoints, to the end of which [new_endpoint] adds.  Allocation
    succeeds, and log messages are left out: [conf_err] is its assignment to
    [err]. *)

From Stdlib Require Import String.
From stdpp Require Import base list numbers sets.
From S2P Require Import Prelude.
From S2P Require Import CStr.
From S2P Require Import Parse.
From S2P Require Import Nqn.
From S2P Require Import Ini.

(** ** Keys *)

Inductive libnvmf_key_type :=
| LIBNVMF_KEY_STRING | LIBNVMF_KEY_INT | LIBNVMF_KEY_BOOL | LIBNVMF_KEY_STRENUM.

Inductive libnvmf_key_class :=
| LIBNVMF_KEY_TUNABLE | LIBNVMF_KEY_SECURITY | LIBNVMF_KEY_IDENTITY
| LIBNVMF_KEY_NQN | LIBNVMF_KEY_CONTROLLER | LIBNVMF_KEY_DC_TUNABLE.

#[export] Instance libnvmf_key_type_eq_dec : EqDecision libnvmf_key_type.
Proof. solve_decision. Defined.
#[export] Instance libnvmf_key_class_eq_dec : EqDecision libnvmf_key_class.
Proof. solve_decision. Defined.

Record libnvmf_key := Key {
  k_name : list Z;
  k_type : libnvmf_key_type;
  k_class : libnvmf_key_class;
  k_strenum_validate : list Z → result ();
}.

Inductive libnvmf_persistent :=
| LIBNVMF_PERSISTENT_UNSET | LIBNVMF_PERSISTENT_NO | LIBNVMF_PERSISTENT_AUTO | LIBNVMF_PERSISTENT_FORCE.

Definition _libnvmf_persistent_from_str (str : list Z) : result libnvmf_persistent :=
  if strcaseeq str (lit "no") then Ok LIBNVMF_PERSISTENT_NO
  else if strcaseeq str (lit "auto") then Ok LIBNVMF_PERSISTENT_AUTO
  else if strcaseeq str (lit "force") then Ok LIBNVMF_PERSISTENT_FORCE
  else Err EINVAL.

Definition check_persistent (value : list Z) : result () :=
  (λ _, tt) <$> _libnvmf_persistent_from_str value.

(** A key without [strenum_validate]; it is called on [STRENUM] keys only. *)
Definition plain_key (name : list Z) (ty : libnvmf_key_type) (cl : libnvmf_key_class) :
    libnvmf_key := Key name ty cl (λ _, Err EINVAL).

Definition conf_keys : list libnvmf_key := [
  plain_key (lit "nr-io-queues") LIBNVMF_KEY_INT LIBNVMF_KEY_TUNABLE;
  plain_key (lit "nr-write-queues") LIBNVMF_KEY_INT LIBNVMF_KEY_TUNABLE;
  plain_key (lit "nr-poll-queues") LIBNVMF_KEY_INT LIBNVMF_KEY_TUNABLE;
  plain_key (lit "queue-size") LIBNVMF_KEY_INT LIBNVMF_KEY_TUNABLE;
  plain_key (lit "keep-alive-tmo") LIBNVMF_KEY_INT LIBNVMF_KEY_TUNABLE;
  plain_key (lit "reconnect-delay") LIBNVMF_KEY_INT LIBNVMF_KEY_TUNABLE;
  plain_key (lit "ctrl-loss-tmo") LIBNVMF_KEY_INT LIBNVMF_KEY_TUNABLE;
  plain_key (lit "fast-io-fail-tmo") LIBNVMF_KEY_INT LIBNVMF_KEY_TUNABLE;
  plain_key (lit "tos") LIBNVMF_KEY_INT LIBNVMF_KEY_TUNABLE;
  plain_key (lit "duplicate-connect") LIBNVMF_KEY_BOOL LIBNVMF_KEY_TUNABLE;
  plain_key (lit "disable-sqflow") LIBNVMF_KEY_BOOL LIBNVMF_KEY_TUNABLE;
  plain_key (lit "hdr-digest") LIBNVMF_KEY_BOOL LIBNVMF_KEY_TUNABLE;
  plain_key (lit "data-digest") LIBNVMF_KEY_BOOL LIBNVMF_KEY_TUNABLE;
  Key (lit "persistent") LIBNVMF_KEY_STRENUM LIBNVMF_KEY_DC_TUNABLE check_persistent;
  plain_key (lit "tls") LIBNVMF_KEY_BOOL LIBNVMF_KEY_SECURITY;
  plain_key (lit "concat") LIBNVMF_KEY_BOOL LIBNVMF_KEY_SECURITY;
  plain_key (lit "tls-key") LIBNVMF_KEY_STRING LIBNVMF_KEY_SECURITY;
  plain_key (lit "tls-key-source") LIBNVMF_KEY_STRING LIBNVMF_KEY_SECURITY;
  plain_key (lit "tls-key-identity") LIBNVMF_KEY_STRING LIBNVMF_KEY_SECURITY;
  plain_key (lit "keyring") LIBNVMF_KEY_STRING LIBNVMF_KEY_SECURITY;
  plain_key (lit "kxchap-secret") LIBNVMF_KEY_STRING LIBNVMF_KEY_SECURITY;
  plain_key (lit "kxchap-ctrl-secret") LIBNVMF_KEY_STRING LIBNVMF_KEY_SECURITY;
  plain_key (lit "hostnqn") LIBNVMF_KEY_STRING LIBNVMF_KEY_IDENTITY;
  plain_key (lit "hostid") LIBNVMF_KEY_STRING LIBNVMF_KEY_IDENTITY;
  plain_key (lit "hostsymname") LIBNVMF_KEY_STRING LIBNVMF_KEY_IDENTITY;
  plain_key (lit "nqn") LIBNVMF_KEY_STRING LIBNVMF_KEY_NQN;
  plain_key (lit "controller") LIBNVMF_KEY_STRING LIBNVMF_KEY_CONTROLLER ].

Definition libnvmf_key_lookup (name : list Z) : option libnvmf_key :=
  List.find (λ k, str_eqb (k_name k) name) conf_keys.

Definition check_int (value : list Z) : result () :=
  let r := strtoll 0 value in
  if st_erange r || nonempty (st_end r) || negb (st_conv r) ||
     (st_val r <? - 2 ^ 31) || (2 ^ 31 - 1 <? st_val r)
  then Err EINVAL else Ok tt.

Definition libnvmf_key_check_value (key : libnvmf_key) (value : list Z) : result () :=
  if negb (nonempty value) then Ok tt
  else if existsb (in_set [c_nl; c_cr]) value then Err EINVAL
  else
    match k_type key with
    | LIBNVMF_KEY_INT => check_int value
    | LIBNVMF_KEY_BOOL => (λ _, tt) <$> shr_parse_bool value
    | LIBNVMF_KEY_STRENUM => k_strenum_validate key value
    | LIBNVMF_KEY_STRING => Ok tt
    end.

(** ** The parameter store *)

Abbreviation libnvmf_params := (list (list Z * list Z)) (only parsing).

Definition libnvmf_params_new : libnvmf_params := [].

Definition kv_find (p : libnvmf_params) (key : list Z) : option (list Z * list Z) :=
  List.find (λ e, str_eqb e.1 key) p.

(** [e->value = copy] on the entry [kv_find] returns, the first one. *)
Fixpoint kv_replace (p : libnvmf_params) (key value : list Z) : libnvmf_params :=
  match p with
  | [] => []
  | e :: p => if str_eqb e.1 key then (e.1, value) :: p else e :: kv_replace p key value
  end.

Definition kv_append (p : libnvmf_params) (key value : list Z) : libnvmf_params :=
  p ++ [(key, value)].

Definition libnvmf_params_set (p : libnvmf_params) (key value : list Z) :
    result libnvmf_params :=
  match libnvmf_key_lookup key with
  | None => Err EINVAL
  | Some k =>
      if negb (bool_decide (k_class k = LIBNVMF_KEY_TUNABLE)) &&
         negb (bool_decide (k_class k = LIBNVMF_KEY_SECURITY)) &&
         negb (bool_decide (k_class k = LIBNVMF_KEY_DC_TUNABLE))
      then Err EINVAL
      else
        match libnvmf_key_check_value k value with
        | Err _ => Err EINVAL
        | Ok _ =>
            match kv_find p key with
            | Some _ => Ok (kv_replace p key value)
            | None => Ok (kv_append p key value)
            end
        end
  end.

Definition libnvmf_params_get (p : libnvmf_params) (key : list Z) : option (list Z) :=
  snd <$> kv_find p key.

(** [dst] after the entries of [src]; entries set before a failure stay. *)
Fixpoint libnvmf_params_merge (dst src : libnvmf_params) : result () * libnvmf_params :=
  match src with
  | [] => (Ok tt, dst)
  | e :: src =>
      match libnvmf_params_set dst e.1 e.2 with
      | Ok dst => libnvmf_params_merge dst src
      | Err err => (Err err, dst)
      end
  end.

Definition libnvmf_params_dup (p : libnvmf_params) : option libnvmf_params :=
  match libnvmf_params_merge libnvmf_params_new p with
  | (Ok _, copy) => Some copy
  | (Err _, _) => None
  end.

(** The callback and its user data. *)
Definition libnvmf_params_for_each {U} (p : libnvmf_params)
    (callback : list Z → list Z → U → U) (user_data : U) : U :=
  foldl (λ u e, callback e.1 e.2 u) user_data p.

(** ** The raw model of a file *)

Record libnvmf_conf_path := ConfPath {
  pa_transport : list Z;
  pa_traddr : list Z;
  pa_trsvcid : option (list Z);
  pa_host_traddr : option (list Z);
  pa_host_iface : option (list Z);
  pa_overrides : libnvmf_params;
  pa_line : Z;
}.

Record libnvmf_conf_endpoint := ConfEndpoint {
  ep_is_dc : bool;
  ep_nqn : option (list Z);
  ep_params : libnvmf_params;
  ep_paths : list libnvmf_conf_path;
  ep_line : Z;
}.

Record libnvmf_conf_file := ConfFile {
  cf_path : list Z;
  cf_dc_defaults : option libnvmf_params;
  cf_ioc_defaults : option libnvmf_params;
  cf_has_host : bool;
  cf_hostnqn : option (list Z);
  cf_hostid : option (list Z);
  cf_hostsymname : option (list Z);
  cf_host_params : option libnvmf_params;
  cf_endpoints : list libnvmf_conf_endpoint;
}.

(** [calloc] and [path]. *)
Definition conf_file_new (path : list Z) : libnvmf_conf_file :=
  ConfFile path None None false None None None None [].

Inductive sect :=
| SECT_NONE | SECT_IGNORED | SECT_DC_DEFAULTS | SECT_IOC_DEFAULTS | SECT_HOST
| SECT_DC | SECT_SUBSYS.

#[export] Instance sect_eq_dec : EqDecision sect.
Proof. solve_decision. Defined.

Record conf_parse := ConfParse {
  pc_f : libnvmf_conf_file;
  pc_sect : sect;
  pc_ep : option nat;       (* the current endpoint *)
  pc_err : option errno;
}.

(** Updates of one field. *)
Definition set_dc_defaults (p : libnvmf_params) (f : libnvmf_conf_file) : libnvmf_conf_file :=
  ConfFile (cf_path f) (Some p) (cf_ioc_defaults f) (cf_has_host f) (cf_hostnqn f)
    (cf_hostid f) (cf_hostsymname f) (cf_host_params f) (cf_endpoints f).
Definition set_ioc_defaults (p : libnvmf_params) (f : libnvmf_conf_file) : libnvmf_conf_file :=
  ConfFile (cf_path f) (cf_dc_defaults f) (Some p) (cf_has_host f) (cf_hostnqn f)
    (cf_hostid f) (cf_hostsymname f) (cf_host_params f) (cf_endpoints f).
Definition set_host (p : libnvmf_params) (f : libnvmf_conf_file) : libnvmf_conf_file :=
  ConfFile (cf_path f) (cf_dc_defaults f) (cf_ioc_defaults f) true (cf_hostnqn f)
    (cf_hostid f) (cf_hostsymname f) (Some p) (cf_endpoints f).
Definition set_host_identity (nqn id sym : option (list Z)) (f : libnvmf_conf_file) :
    libnvmf_conf_file :=
  ConfFile (cf_path f) (cf_dc_defaults f) (cf_ioc_defaults f) (cf_has_host f) nqn
    id sym (cf_host_params f) (cf_endpoints f).
Definition set_endpoints (eps : list libnvmf_conf_endpoint) (f : libnvmf_conf_file) :
    libnvmf_conf_file :=
  ConfFile (cf_path f) (cf_dc_defaults f) (cf_ioc_defaults f) (cf_has_host f) (cf_hostnqn f)
    (cf_hostid f) (cf_hostsymname f) (cf_host_params f) eps.
Definition set_f (f : libnvmf_conf_file) (pc : conf_parse) : conf_parse :=
  ConfParse f (pc_sect pc) (pc_ep pc) (pc_err pc).
Definition set_ep_nqn (nqn : list Z) (e : libnvmf_conf_endpoint) : libnvmf_conf_endpoint :=
  ConfEndpoint (ep_is_dc e) (Some nqn) (ep_params e) (ep_paths e) (ep_line e).
Definition set_ep_params (p : libnvmf_params) (e : libnvmf_conf_endpoint) : libnvmf_conf_endpoint :=
  ConfEndpoint (ep_is_dc e) (ep_nqn e) p (ep_paths e) (ep_line e).
Definition add_ep_path (p : libnvmf_conf_path) (e : libnvmf_conf_endpoint) : libnvmf_conf_endpoint :=
  ConfEndpoint (ep_is_dc e) (ep_nqn e) (ep_params e) (ep_paths e ++ [p]) (ep_line e).

(** ** The parser *)

(** [conf_err(pc, ...); return -EINVAL;] *)
Definition conf_err (pc : conf_parse) : result () * conf_parse :=
  (Err EINVAL, ConfParse (pc_f pc) (pc_sect pc) (pc_ep pc) (Some EINVAL)).

(** A write through [pc->ep], which points to an endpoint of the list in the
    two endpoint sections, where alone the parser writes through it. *)
Definition on_ep (g : libnvmf_conf_endpoint → libnvmf_conf_endpoint) (pc : conf_parse) :
    conf_parse :=
  match pc_ep pc with
  | Some i => set_f (set_endpoints (alter g i (cf_endpoints (pc_f pc))) (pc_f pc)) pc
  | None => pc
  end.

Definition new_endpoint (pc : conf_parse) (is_dc : bool) (line : Z) : result () * conf_parse :=
  let eps := cf_endpoints (pc_f pc) in
  let ep := ConfEndpoint is_dc None libnvmf_params_new [] line in
  (Ok tt, ConfParse (set_endpoints (eps ++ [ep]) (pc_f pc)) (pc_sect pc)
            (Some (length eps)) (pc_err pc)).

Definition enter_section (pc : conf_parse) (name : list Z) (line : Z) :
    result () * conf_parse :=
  let f := pc_f pc in
  let at_sect f s := ConfParse f s None (pc_err pc) in    (* pc->ep = NULL *)
  if str_eqb name (lit "Discovery Controller Defaults") then
    (Ok tt, at_sect (match cf_dc_defaults f with
                     | Some _ => f
                     | None => set_dc_defaults libnvmf_params_new f
                     end) SECT_DC_DEFAULTS)
  else if str_eqb name (lit "I/O Controller Defaults") then
    (Ok tt, at_sect (match cf_ioc_defaults f with
                     | Some _ => f
                     | None => set_ioc_defaults libnvmf_params_new f
                     end) SECT_IOC_DEFAULTS)
  else if str_eqb name (lit "Host") then
    if cf_has_host f then conf_err (at_sect f (pc_sect pc))
    else (Ok tt, at_sect (set_host libnvmf_params_new f) SECT_HOST)
  else if str_eqb name (lit "Discovery Controller") then
    new_endpoint (at_sect f SECT_DC) true line
  else if str_eqb name (lit "Subsystem") then
    new_endpoint (at_sect f SECT_SUBSYS) false line
  else (Ok tt, at_sect f SECT_IGNORED).

Record path_addr := PathAddr {
  a_transport : option (list Z);
  a_traddr : option (list Z);
  a_trsvcid : option (list Z);
  a_host_traddr : option (list Z);
  a_host_iface : option (list Z);
}.

(** The field [addr_slot] returns the address of: its value, and the struct
    with it set. *)
Definition addr_slot (a : path_addr) (key : list Z) :
    option (option (list Z) * (list Z → path_addr)) :=
  let '(PathAddr t ta ts ht hi) := a in
  if str_eqb key (lit "transport") then Some (t, λ v, PathAddr (Some v) ta ts ht hi)
  else if str_eqb key (lit "traddr") then Some (ta, λ v, PathAddr t (Some v) ts ht hi)
  else if str_eqb key (lit "trsvcid") then Some (ts, λ v, PathAddr t ta (Some v) ht hi)
  else if str_eqb key (lit "host-traddr") then Some (ht, λ v, PathAddr t ta ts (Some v) hi)
  else if str_eqb key (lit "host-iface") then Some (hi, λ v, PathAddr t ta ts ht (Some v))
  else None.

(** The [LIBNVMF_KEY_TUNABLE] case of [add_path]. *)
Definition path_tunable (k : libnvmf_key) (key val : list Z) (addr : path_addr)
    (overrides : libnvmf_params) : result (path_addr * libnvmf_params) :=
  match libnvmf_key_check_value k val with
  | Err _ => Err EINVAL
  | Ok _ =>
      match libnvmf_params_set overrides key val with
      | Err _ => Err ENOMEM
      | Ok overrides => Ok (addr, overrides)
      end
  end.

(** One token of a "controller =" value.  Every [EINVAL] here comes with a
    [conf_err]; [ENOMEM] does not. *)
Definition path_token (s : sect) (addr : path_addr) (overrides : libnvmf_params)
    (tok : list Z) : result (path_addr * libnvmf_params) :=
  let key := shr_trim tok in
  if negb (nonempty key) then Ok (addr, overrides)
  else
    match split_char c_eq key with
    | None => Err EINVAL
    | Some (k0, v0) =>
        if negb (nonempty k0) then Err EINVAL
        else
          let key := shr_trim k0 in
          let val := shr_trim v0 in
          match addr_slot addr key with
          | Some (slot, write) =>
              if negb (nonempty val) then Err EINVAL
              else match slot with
                   | Some _ => Err EINVAL
                   | None => Ok (write val, overrides)
                   end
          | None =>
              match libnvmf_key_lookup key with
              | None => Err EINVAL
              | Some k =>
                  match k_class k with
                  | LIBNVMF_KEY_DC_TUNABLE =>
                      if bool_decide (s = SECT_DC)
                      then path_tunable k key val addr overrides else Err EINVAL
                  | LIBNVMF_KEY_TUNABLE => path_tunable k key val addr overrides
                  | _ => Err EINVAL
                  end
              end
          end
    end.

(** The [strtok_r] loop of [add_path]. *)
Fixpoint path_tokens (s : sect) (addr : path_addr) (overrides : libnvmf_params)
    (toks : list (list Z)) : result (path_addr * libnvmf_params) :=
  match toks with
  | [] => Ok (addr, overrides)
  | tok :: toks =>
      match path_token s addr overrides tok with
      | Ok (addr, overrides) => path_tokens s addr overrides toks
      | Err e => Err e
      end
  end.

Definition add_path (pc : conf_parse) (value : list Z) (line : Z) : result () * conf_parse :=
  match path_tokens (pc_sect pc) (PathAddr None None None None None) libnvmf_params_new
          (strtok c_semi value) with
  | Err EINVAL => conf_err pc
  | Err e => (Err e, pc)
  | Ok (addr, overrides) =>
      match a_transport addr, a_traddr addr with
      | Some transport, Some traddr =>
          (Ok tt, on_ep (add_ep_path
             (ConfPath transport traddr (a_trsvcid addr) (a_host_traddr addr)
                (a_host_iface addr) overrides line)) pc)
      | _, _ => conf_err pc
      end
  end.

(** [libnvmf_params_set(dest, key, value)] with [dest] one of the stores of
    the file or of the endpoint; [dest] stays NULL in the other sections. *)
Definition set_dest (pc : conf_parse) (key value : list Z) : result () * conf_parse :=
  let store (dest : option libnvmf_params) (put : libnvmf_params → conf_parse) :=
    match dest with
    | None => (Err EINVAL, pc)
    | Some p =>
        match libnvmf_params_set p key value with
        | Ok p => (Ok tt, put p)
        | Err e => (Err e, pc)
        end
    end in
  let f := pc_f pc in
  match pc_sect pc with
  | SECT_DC_DEFAULTS => store (cf_dc_defaults f) (λ p, set_f (set_dc_defaults p f) pc)
  | SECT_IOC_DEFAULTS => store (cf_ioc_defaults f) (λ p, set_f (set_ioc_defaults p f) pc)
  | SECT_HOST =>
      store (cf_host_params f)
        (λ p, set_f (ConfFile (cf_path f) (cf_dc_defaults f) (cf_ioc_defaults f)
           (cf_has_host f) (cf_hostnqn f) (cf_hostid f) (cf_hostsymname f)
           (Some p) (cf_endpoints f)) pc)
  | SECT_DC | SECT_SUBSYS =>
      store (i ← pc_ep pc; ep_params <$> cf_endpoints f !! i)
        (λ p, on_ep (set_ep_params p) pc)
  | SECT_NONE | SECT_IGNORED => (Err EINVAL, pc)
  end.

Definition in_endpoint (s : sect) : bool :=
  bool_decide (s = SECT_DC) || bool_decide (s = SECT_SUBSYS).

Definition conf_kv (pc : conf_parse) (key value : list Z) (line : Z) : result () * conf_parse :=
  let f := pc_f pc in
  let s := pc_sect pc in
  if bool_decide (s = SECT_IGNORED) then (Ok tt, pc)
  else if bool_decide (s = SECT_NONE) then conf_err pc
  else
    match libnvmf_key_lookup key with
    | None => (Ok tt, pc)
    | Some k =>
        match k_class k with
        | LIBNVMF_KEY_CONTROLLER =>
            if in_endpoint s then add_path pc value line else conf_err pc
        | LIBNVMF_KEY_NQN =>
            if negb (in_endpoint s) then conf_err pc
            else if negb (nonempty value) then conf_err pc
            else if negb (shr_nqn_valid (Some value)) then conf_err pc
            else (Ok tt, on_ep (set_ep_nqn value) pc)
        | LIBNVMF_KEY_IDENTITY =>
            if negb (bool_decide (s = SECT_HOST)) then conf_err pc
            else if str_eqb key (lit "hostnqn") then
              if nonempty value && negb (shr_nqn_valid (Some value)) then conf_err pc
              else (Ok tt, set_f (set_host_identity (Some value) (cf_hostid f)
                                    (cf_hostsymname f) f) pc)
            else if str_eqb key (lit "hostid") then
              if nonempty value && negb (shr_hostid_valid (Some value)) then conf_err pc
              else (Ok tt, set_f (set_host_identity (cf_hostnqn f) (Some value)
                                    (cf_hostsymname f) f) pc)
            else (Ok tt, set_f (set_host_identity (cf_hostnqn f) (cf_hostid f)
                                  (Some value) f) pc)
        | LIBNVMF_KEY_DC_TUNABLE =>
            if negb (bool_decide (s = SECT_DC)) && negb (bool_decide (s = SECT_DC_DEFAULTS))
            then conf_err pc
            else if negb (is_ok (libnvmf_key_check_value k value)) then conf_err pc
            else set_dest pc key value
        | LIBNVMF_KEY_TUNABLE | LIBNVMF_KEY_SECURITY =>
            if negb (is_ok (libnvmf_key_check_value k value)) then conf_err pc
            else set_dest pc key value
        end
    end.

Definition conf_event (ev : shr_ini_event) (line : Z) (pc : conf_parse) :
    result () * conf_parse :=
  match ev with
  | SHR_INI_SECTION name => enter_section pc name line
  | SHR_INI_KV _ key value => conf_kv pc key value line
  | SHR_INI_JUNK _ _ => conf_err pc
  end.

(** [!ep->is_dc && !ep->nqn] *)
Definition nameless_subsys (e : libnvmf_conf_endpoint) : bool :=
  negb (ep_is_dc e) && bool_decide (ep_nqn e = None).

(** [node] is what [path] names in the file system. *)
Definition libnvmf_conf_file_parse (path : list Z) (node : ini_node) :
    result libnvmf_conf_file :=
  let pc := ConfParse (conf_file_new path) SECT_NONE None None in
  match shr_ini_parse_file node conf_event pc with
  | (Err e, pc) => Err (default e (pc_err pc))
  | (Ok _, pc) =>
      if existsb nameless_subsys (cf_endpoints (pc_f pc)) then Err EINVAL
      else Ok (pc_f pc)
  end.
