(* ===== verification/ConfSpec.v ===== *)
(** * Properties of the parameter store and of the configuration parser

    The laws of the store of [Conf], the invariant of the parser's state and
    what it gives for a parsed file. *)

From Stdlib Require Import String.
From stdpp Require Import base list numbers sets.
From S2P Require Import Prelude.
From S2P Require Import CStr.
From S2P Require Import Parse.
From S2P Require Import Nqn.
From S2P Require Import Ini.
From S2P Require Import Conf.

(** ** Specification of a store *)

(** The classes of keys a place takes. *)
Definition cls_any (c : libnvmf_key_class) : bool :=
  bool_decide (c = LIBNVMF_KEY_TUNABLE) || bool_decide (c = LIBNVMF_KEY_SECURITY).
Definition cls_sect (is_dc : bool) (c : libnvmf_key_class) : bool :=
  cls_any c || (is_dc && bool_decide (c = LIBNVMF_KEY_DC_TUNABLE)).
Definition cls_path (is_dc : bool) (c : libnvmf_key_class) : bool :=
  bool_decide (c = LIBNVMF_KEY_TUNABLE) ||
  (is_dc && bool_decide (c = LIBNVMF_KEY_DC_TUNABLE)).

(** A known key of a class [cls] takes, with a value of its type. *)
Definition key_ok (cls : libnvmf_key_class → bool) (key value : list Z) : Prop :=
  ∃ k, libnvmf_key_lookup key = Some k ∧ cls (k_class k) = true ∧
       libnvmf_key_check_value k value = Ok tt.

Definition params_ok (cls : libnvmf_key_class → bool) (p : libnvmf_params) : Prop :=
  NoDup p.*1 ∧ Forall (λ e, key_ok cls e.1 e.2) p.

(** The store with [key] set, whatever the key. *)
Definition put (p : libnvmf_params) (key value : list Z) : libnvmf_params :=
  match kv_find p key with
  | Some _ => kv_replace p key value
  | None => kv_append p key value
  end.

(** ** Lemmas on the store *)

Lemma str_eqb_spec a b : str_eqb a b = true ↔ a = b.
Proof. apply bool_decide_eq_true. Qed.
Lemma str_eqb_false a b : str_eqb a b = false ↔ a ≠ b.
Proof. apply bool_decide_eq_false. Qed.

Lemma key_ok_weaken (cls cls' : libnvmf_key_class → bool) key value :
  (∀ c, cls c = true → cls' c = true) → key_ok cls key value → key_ok cls' key value.
Proof. intros H (k & ? & ? & ?). exists k. auto. Qed.

Lemma params_ok_weaken (cls cls' : libnvmf_key_class → bool) p :
  (∀ c, cls c = true → cls' c = true) → params_ok cls p → params_ok cls' p.
Proof.
  intros H [Hn Hf]. split; [done|]. eapply list.Forall_impl; [exact Hf|].
  intros e. by apply key_ok_weaken.
Qed.

Lemma cls_sect_store is_dc c : cls_sect is_dc c = true → cls_sect true c = true.
Proof. by destruct is_dc, c. Qed.
Lemma cls_any_store c : cls_any c = true → cls_sect true c = true.
Proof. by destruct c. Qed.
Lemma cls_path_store is_dc c : cls_path is_dc c = true → cls_sect true c = true.
Proof. by destruct is_dc, c. Qed.
Lemma cls_path_sect is_dc c : cls_path is_dc c = true → cls_sect is_dc c = true.
Proof. by destruct is_dc, c. Qed.
Lemma cls_any_sect is_dc c : cls_any c = true → cls_sect is_dc c = true.
Proof. by destruct is_dc, c. Qed.

#[export] Hint Resolve cls_sect_store cls_any_store cls_path_store cls_path_sect
  cls_any_sect : nvme.

Lemma params_set_put p key value :
  key_ok (cls_sect true) key value → libnvmf_params_set p key value = Ok (put p key value).
Proof.
  intros (k & Hk & Hc & Hv). unfold libnvmf_params_set, put. rewrite Hk, Hv.
  by destruct (k_class k), (kv_find p key).
Qed.

Lemma params_set_Ok p key value p' :
  libnvmf_params_set p key value = Ok p' →
  key_ok (cls_sect true) key value ∧ p' = put p key value.
Proof.
  unfold libnvmf_params_set, put. destruct (libnvmf_key_lookup key) as [k|] eqn:Hk; [|done].
  destruct (libnvmf_key_check_value k value) as [[]|] eqn:Hv; [|by case_match].
  intros H. split; [exists k; split; [done|split; [|done]]|]; destruct (k_class k);
    simpl in *; try done; destruct (kv_find p key); congruence.
Qed.

Lemma kv_find_app p q key :
  kv_find (p ++ q) key = match kv_find p key with Some e => Some e | None => kv_find q key end.
Proof. unfold kv_find. induction p as [|e p IH]; simpl; [done|]. by destruct (str_eqb e.1 key). Qed.

Lemma kv_find_replace p key value key' :
  snd <$> kv_find (kv_replace p key value) key' =
  if bool_decide (key = key') then (λ _, value) <$> kv_find p key else snd <$> kv_find p key'.
Proof.
  induction p as [|[k v] p IH]; simpl; [by case_bool_decide|].
  unfold kv_find in *. unfold str_eqb in *. simpl.
  destruct (bool_decide_reflect (k = key)) as [->|Hk]; simpl.
  - destruct (bool_decide_reflect (key = key')); done.
  - destruct (bool_decide_reflect (k = key')) as [->|Hk']; [|apply IH].
    by rewrite bool_decide_false.
Qed.

Lemma get_put p key value key' :
  libnvmf_params_get (put p key value) key' =
  if bool_decide (key = key') then Some value else libnvmf_params_get p key'.
Proof.
  unfold libnvmf_params_get, put. destruct (kv_find p key) as [e|] eqn:Hf.
  - rewrite kv_find_replace, Hf. by case_bool_decide.
  - unfold kv_append. rewrite kv_find_app. case_bool_decide as Hd; subst.
    + rewrite Hf. unfold kv_find, str_eqb. simpl. by rewrite bool_decide_true.
    + destruct (kv_find p key'); [done|]. unfold kv_find, str_eqb. simpl.
      by rewrite bool_decide_false.
Qed.

Lemma kv_find_None p key : kv_find p key = None ↔ key ∉ p.*1.
Proof.
  unfold kv_find. induction p as [|e p IH]; simpl; [set_solver|].
  destruct (str_eqb e.1 key) eqn:E.
  - apply str_eqb_spec in E. set_solver.
  - apply str_eqb_false in E. rewrite IH, not_elem_of_cons. naive_solver.
Qed.

Lemma kv_replace_keys p key value : (kv_replace p key value).*1 = p.*1.
Proof.
  induction p as [|[k v] p IH]; simpl; [done|]. destruct (str_eqb k key); simpl; [done|]. f_equal; exact IH.
Qed.

Lemma kv_replace_Forall (P : list Z * list Z → Prop) p key value :
  Forall P p → P (key, value) → Forall P (kv_replace p key value).
Proof.
  intros HF Hkv. induction HF as [|[k v] p He HF IH]; simpl; [constructor|].
  destruct (str_eqb k key) eqn:E; [|by constructor].
  apply str_eqb_spec in E. subst. by constructor.
Qed.

Lemma params_ok_nil cls : params_ok cls [].
Proof. split; constructor. Qed.

Lemma params_ok_put cls p key value :
  params_ok cls p → key_ok cls key value → params_ok cls (put p key value).
Proof.
  intros [Hn Hf] Hk. unfold put. destruct (kv_find p key) eqn:E; split.
  - by rewrite kv_replace_keys.
  - by apply kv_replace_Forall.
  - apply kv_find_None in E. unfold kv_append. rewrite fmap_app. simpl.
    apply NoDup_app. split; [done|]. split; [|apply NoDup_singleton]. set_solver.
  - apply Forall_app. split; [done|]. by constructor.
Qed.

#[export] Hint Resolve params_ok_nil params_ok_put : nvme.

(** Merging is setting each entry of the source. *)
Definition overlay (dst src : libnvmf_params) : libnvmf_params :=
  foldl (λ d e, put d e.1 e.2) dst src.

Lemma params_merge_overlay dst src :
  Forall (λ e, key_ok (cls_sect true) e.1 e.2) src →
  libnvmf_params_merge dst src = (Ok tt, overlay dst src).
Proof.
  intros H. revert dst. induction H as [|e src He _ IH]; intros dst; simpl; [done|].
  by rewrite params_set_put.
Qed.

Lemma params_ok_overlay cls dst src :
  params_ok cls dst → params_ok cls src → params_ok cls (overlay dst src).
Proof.
  intros Hd [_ Hs]. revert dst Hd. unfold overlay.
  induction Hs as [|e src He _ IH]; intros dst Hd; simpl; [done|]. auto with nvme.
Qed.

Lemma get_cons k v p key :
  libnvmf_params_get ((k, v) :: p) key =
  if bool_decide (k = key) then Some v else libnvmf_params_get p key.
Proof. unfold libnvmf_params_get, kv_find, str_eqb. simpl. by case_bool_decide. Qed.

Lemma get_None p key : libnvmf_params_get p key = None ↔ key ∉ p.*1.
Proof.
  rewrite <- kv_find_None. unfold libnvmf_params_get. by destruct (kv_find p key).
Qed.

Lemma get_elem p k v : libnvmf_params_get p k = Some v → (k, v) ∈ p.
Proof.
  induction p as [|[k' v'] p IH]; [done|]. rewrite get_cons. case_bool_decide as E.
  - intros [= <-]. subst. left.
  - intros H. right. by apply IH.
Qed.

Lemma stored_key cls p k v : params_ok cls p → libnvmf_params_get p k = Some v → key_ok cls k v.
Proof. intros [_ Hf] Hin%get_elem. rewrite list.Forall_forall in Hf. by apply (Hf (k, v)). Qed.

(** The source wins, the rest is kept. *)
Lemma get_overlay dst src key :
  NoDup src.*1 →
  libnvmf_params_get (overlay dst src) key =
  match libnvmf_params_get src key with
  | Some v => Some v
  | None => libnvmf_params_get dst key
  end.
Proof.
  revert dst. induction src as [|[k v] src IH]; intros dst; [done|].
  cbn [fmap list_fmap fst]. intros [Hn Hnd]%NoDup_cons.
  change (overlay dst ((k, v) :: src)) with (overlay (put dst k v) src).
  rewrite IH, get_cons, get_put by done. case_bool_decide; [|done]. subst.
  by rewrite (proj2 (get_None src key)).
Qed.

Lemma overlay_nil_app acc p : NoDup (acc ++ p).*1 → overlay acc p = acc ++ p.
Proof.
  revert acc. induction p as [|[k v] p IH]; intros acc Hn; [by rewrite app_nil_r|].
  unfold overlay in *. simpl. unfold put at 2.
  rewrite (proj2 (kv_find_None acc k)).
  - unfold kv_append. rewrite IH; rewrite <- app_assoc; done.
  - rewrite fmap_app in Hn. apply NoDup_app in Hn as (_ & Hd & _).
    intros Hin. apply (Hd k Hin). simpl. set_solver.
Qed.

Lemma params_dup_id cls p :
  (∀ c, cls c = true → cls_sect true c = true) → params_ok cls p →
  libnvmf_params_dup p = Some p.
Proof.
  intros Hc Hp. apply (params_ok_weaken _ _ _ Hc) in Hp as [Hn Hf]. unfold libnvmf_params_dup.
  rewrite params_merge_overlay by done. by rewrite overlay_nil_app.
Qed.

(** ** The invariant of the parser *)

Definition nonempty_opt (o : option (list Z)) : Prop := ∀ v, o = Some v → v ≠ [].

(** An identity that is unset, reset or valid. *)
Definition identity_ok (valid : option (list Z) → bool) (o : option (list Z)) : Prop :=
  ∀ v, o = Some v → v = [] ∨ valid (Some v) = true.

Definition store_ok (cls : libnvmf_key_class → bool) (o : option libnvmf_params) : Prop :=
  ∀ p, o = Some p → params_ok cls p.

(** A path has a transport and an address, no empty field, and overrides that
    are tunables. *)
Record path_ok (is_dc : bool) (p : libnvmf_conf_path) : Prop := PathOk {
  path_transport : pa_transport p ≠ [];
  path_traddr : pa_traddr p ≠ [];
  path_trsvcid : nonempty_opt (pa_trsvcid p);
  path_host_traddr : nonempty_opt (pa_host_traddr p);
  path_host_iface : nonempty_opt (pa_host_iface p);
  path_overrides : params_ok (cls_path is_dc) (pa_overrides p);
}.

Record endpoint_ok (e : libnvmf_conf_endpoint) : Prop := EndpointOk {
  endpoint_nqn : ∀ v, ep_nqn e = Some v → shr_nqn_valid (Some v) = true;
  endpoint_params : params_ok (cls_sect (ep_is_dc e)) (ep_params e);
  endpoint_paths : Forall (path_ok (ep_is_dc e)) (ep_paths e);
}.

Record file_ok (f : libnvmf_conf_file) : Prop := FileOk {
  file_dc_defaults : store_ok (cls_sect true) (cf_dc_defaults f);
  file_ioc_defaults : store_ok cls_any (cf_ioc_defaults f);
  file_host_params : store_ok cls_any (cf_host_params f);
  file_hostnqn : identity_ok shr_nqn_valid (cf_hostnqn f);
  file_hostid : identity_ok shr_hostid_valid (cf_hostid f);
  file_host : if cf_has_host f then is_Some (cf_host_params f)
              else cf_hostnqn f = None ∧ cf_hostid f = None ∧
                   cf_hostsymname f = None ∧ cf_host_params f = None;
  file_endpoints : Forall endpoint_ok (cf_endpoints f);
}.

(** The current section has its store, and [pc->ep] is an endpoint of its
    kind in the endpoint sections. *)
Definition sect_ok (pc : conf_parse) : Prop :=
  match pc_sect pc with
  | SECT_NONE | SECT_IGNORED => True
  | SECT_DC_DEFAULTS => is_Some (cf_dc_defaults (pc_f pc))
  | SECT_IOC_DEFAULTS => is_Some (cf_ioc_defaults (pc_f pc))
  | SECT_HOST => cf_has_host (pc_f pc) = true
  | SECT_DC => ∃ i e, pc_ep pc = Some i ∧ cf_endpoints (pc_f pc) !! i = Some e ∧ ep_is_dc e = true
  | SECT_SUBSYS => ∃ i e, pc_ep pc = Some i ∧ cf_endpoints (pc_f pc) !! i = Some e ∧ ep_is_dc e = false
  end.

Definition parse_ok (pc : conf_parse) : Prop := file_ok (pc_f pc) ∧ sect_ok pc.

Record addr_ok (a : path_addr) : Prop := AddrOk {
  addr_transport : nonempty_opt (a_transport a);
  addr_traddr : nonempty_opt (a_traddr a);
  addr_trsvcid : nonempty_opt (a_trsvcid a);
  addr_host_traddr : nonempty_opt (a_host_traddr a);
  addr_host_iface : nonempty_opt (a_host_iface a);
}.

(** ** The invariant is kept *)

Lemma nonempty_opt_Some v : v ≠ [] → nonempty_opt (Some v).
Proof. by intros Hv w [= <-]. Qed.
Lemma nonempty_opt_None : nonempty_opt None.
Proof. by intros v. Qed.
Lemma store_ok_Some cls p : params_ok cls p → store_ok cls (Some p).
Proof. by intros Hp q [= <-]. Qed.
Lemma store_ok_None cls : store_ok cls None.
Proof. by intros p. Qed.
#[export] Hint Resolve nonempty_opt_Some nonempty_opt_None store_ok_Some store_ok_None : nvme.

Lemma addr_slot_write a key slot write val :
  addr_slot a key = Some (slot, write) → addr_ok a → val ≠ [] → addr_ok (write val).
Proof.
  destruct a as [t ta ts ht hi]. cbn [addr_slot]. intros H [H1 H2 H3 H4 H5] Hv.
  repeat (destruct (str_eqb key _); [simplify_eq; split; cbn; auto with nvme|]). done.
Qed.

Lemma path_tunable_ok s k key val a p a' p' :
  libnvmf_key_lookup key = Some k → cls_path (bool_decide (s = SECT_DC)) (k_class k) = true →
  path_tunable k key val a p = Ok (a', p') →
  params_ok (cls_path (bool_decide (s = SECT_DC))) p →
  a' = a ∧ params_ok (cls_path (bool_decide (s = SECT_DC))) p'.
Proof.
  intros Hk Hc. unfold path_tunable.
  destruct (libnvmf_key_check_value k val) as [[]|] eqn:Hv; [|done].
  destruct (libnvmf_params_set p key val) as [q|] eqn:Hs; [|done].
  apply params_set_Ok in Hs as [_ ->]. intros [= <- <-] Hp. split; [done|].
  apply params_ok_put; [done|]. by exists k.
Qed.

Lemma path_token_ok s a p tok a' p' :
  path_token s a p tok = Ok (a', p') →
  addr_ok a ∧ params_ok (cls_path (bool_decide (s = SECT_DC))) p →
  addr_ok a' ∧ params_ok (cls_path (bool_decide (s = SECT_DC))) p'.
Proof.
  unfold path_token. intros H [Ha Hp].
  destruct (nonempty (shr_trim tok)); [|by simplify_eq/=].
  destruct (split_char c_eq (shr_trim tok)) as [[k0 v0]|]; [|done].
  destruct (nonempty k0); [|done]. cbn [negb] in H.
  destruct (addr_slot a (shr_trim k0)) as [[slot write]|] eqn:Hslot.
  - destruct (nonempty (shr_trim v0)) eqn:Hv; [|done]. apply nonempty_spec in Hv.
    destruct slot; [done|]. injection H as <- <-. split; [|done]. by eapply addr_slot_write.
  - destruct (libnvmf_key_lookup (shr_trim k0)) as [k|] eqn:Hk; [|done].
    destruct (k_class k) eqn:Hc; try done.
    + eapply path_tunable_ok in H as [-> Hp']; [done|done|by rewrite Hc|done].
    + destruct (bool_decide (s = SECT_DC)) eqn:Hs; [|done]. rewrite <- Hs in Hp |- *.
      eapply path_tunable_ok in H as [-> Hp']; [done|done|by rewrite Hc, Hs|done].
Qed.

Lemma path_tokens_ok s toks a p a' p' :
  path_tokens s a p toks = Ok (a', p') →
  addr_ok a ∧ params_ok (cls_path (bool_decide (s = SECT_DC))) p →
  addr_ok a' ∧ params_ok (cls_path (bool_decide (s = SECT_DC))) p'.
Proof.
  revert a p. induction toks as [|tok toks IH]; intros a p; simpl; [by intros [= <- <-]|].
  destruct (path_token s a p tok) as [[a1 p1]|] eqn:Ht; [|done].
  intros H Hok. apply (IH _ _ H). by eapply path_token_ok.
Qed.

Lemma sect_ok_ep pc :
  sect_ok pc → in_endpoint (pc_sect pc) = true →
  ∃ i e, pc_ep pc = Some i ∧ cf_endpoints (pc_f pc) !! i = Some e ∧
         ep_is_dc e = bool_decide (pc_sect pc = SECT_DC).
Proof. unfold sect_ok, in_endpoint. by destruct (pc_sect pc). Qed.

Lemma sect_ok_intro pc i e :
  in_endpoint (pc_sect pc) = true → pc_ep pc = Some i →
  cf_endpoints (pc_f pc) !! i = Some e → ep_is_dc e = bool_decide (pc_sect pc = SECT_DC) →
  sect_ok pc.
Proof.
  unfold sect_ok, in_endpoint. intros Hs Hi He Hd.
  destruct (pc_sect pc); try done; exists i, e; split; auto.
Qed.

Lemma file_ok_endpoints f eps :
  file_ok f → Forall endpoint_ok eps → file_ok (set_endpoints eps f).
Proof. by intros [] ?. Qed.

Lemma on_ep_ok g pc :
  parse_ok pc → in_endpoint (pc_sect pc) = true →
  (∀ e, endpoint_ok e → ep_is_dc e = bool_decide (pc_sect pc = SECT_DC) →
        endpoint_ok (g e) ∧ ep_is_dc (g e) = ep_is_dc e) →
  parse_ok (on_ep g pc).
Proof.
  intros [Hf Hs] Hin Hg. destruct (sect_ok_ep pc Hs Hin) as (i & e & Hi & He & Hd).
  pose proof (file_endpoints _ Hf) as Heps.
  unfold on_ep. rewrite Hi. split.
  - apply file_ok_endpoints; [done|]. apply Forall_alter; [done|].
    intros x Hx Hok. rewrite He in Hx. injection Hx as <-. by apply Hg.
  - eapply (sect_ok_intro _ i (g e)); [done|done| |].
    + cbn. by rewrite list_lookup_alter_eq, He.
    + cbn. rewrite (proj2 (Hg e (Forall_lookup_1 _ _ _ _ Heps He) Hd)). done.
Qed.

Lemma new_endpoint_ok pc (is_dc : bool) line :
  file_ok (pc_f pc) → pc_sect pc = (if is_dc then SECT_DC else SECT_SUBSYS) →
  parse_ok (new_endpoint pc is_dc line).2.
Proof.
  intros Hf Hs. cbn. split.
  - apply file_ok_endpoints; [done|]. apply Forall_app. split; [by apply file_endpoints|].
    constructor; [|constructor]. split; cbn; [done|apply params_ok_nil|constructor].
  - eapply sect_ok_intro; cbn; [by rewrite Hs; destruct is_dc|done|by rewrite list_lookup_middle|].
    by rewrite Hs; destruct is_dc.
Qed.

Lemma enter_section_ok pc name line pc' :
  parse_ok pc → enter_section pc name line = (Ok tt, pc') → parse_ok pc'.
Proof.
  intros [Hf Hs]. unfold enter_section.
  destruct (str_eqb name _).
  { intros [= <-]. destruct (cf_dc_defaults (pc_f pc)) eqn:E; (split; [|by eexists]); [done|].
    destruct Hf; split; cbn; auto with nvme. }
  destruct (str_eqb name _).
  { intros [= <-]. destruct (cf_ioc_defaults (pc_f pc)) eqn:E; (split; [|by eexists]); [done|].
    destruct Hf; split; cbn; auto with nvme. }
  destruct (str_eqb name _).
  { destruct (cf_has_host (pc_f pc)); [done|]. intros [= <-]. split; [|done].
    destruct Hf; split; cbn; eauto with nvme. }
  destruct (str_eqb name _).
  { intros [= <-]. by apply (new_endpoint_ok (ConfParse (pc_f pc) SECT_DC None _) true line). }
  destruct (str_eqb name _).
  { intros [= <-]. by apply (new_endpoint_ok (ConfParse (pc_f pc) SECT_SUBSYS None _) false line). }
  by intros [= <-].
Qed.

Lemma add_path_ok pc value line pc' :
  parse_ok pc → in_endpoint (pc_sect pc) = true →
  add_path pc value line = (Ok tt, pc') → parse_ok pc'.
Proof.
  intros Hpc Hin. unfold add_path.
  destruct (path_tokens _ _ _ _) as [[a p]|[]] eqn:Ht; try done.
  apply path_tokens_ok in Ht as [[? ? ? ? ?] Hp]; [|split; [by split|apply params_ok_nil]].
  destruct (a_transport a) as [t|] eqn:Et; [|done].
  destruct (a_traddr a) as [ta|] eqn:Ea; [|done]. intros [= <-].
  apply on_ep_ok; [done|done|]. intros e [H1 H2 H3] Hd. split; [|done].
  split; [done|done|]. apply Forall_app. split; [done|].
  constructor; [|constructor]. cbn. rewrite Hd. split; cbn; auto.
Qed.

Lemma set_ep_params_ok pc p :
  parse_ok pc → in_endpoint (pc_sect pc) = true →
  params_ok (cls_sect (bool_decide (pc_sect pc = SECT_DC))) p →
  parse_ok (on_ep (set_ep_params p) pc).
Proof.
  intros Hpc Hin Hp. apply on_ep_ok; [done|done|]. intros e [H1 H2 H3] Hd.
  split; [|done]. split; [done| |done]. cbn. by rewrite Hd.
Qed.

Lemma ep_params_ok pc p :
  parse_ok pc → in_endpoint (pc_sect pc) = true →
  (i ← pc_ep pc; ep_params <$> cf_endpoints (pc_f pc) !! i) = Some p →
  params_ok (cls_sect (bool_decide (pc_sect pc = SECT_DC))) p.
Proof.
  intros [Hf Hs] Hin. destruct (sect_ok_ep pc Hs Hin) as (i & e & Hi & He & Hd).
  rewrite Hi. cbn. rewrite He. intros [= <-]. rewrite <- Hd.
  apply endpoint_params. by eapply Forall_lookup_1; [apply file_endpoints|].
Qed.

(** A store [set_dest] writes keeps the classes of its section. *)
Lemma set_dest_ok pc key value pc' cls :
  parse_ok pc → set_dest pc key value = (Ok tt, pc') → key_ok cls key value →
  (∀ c, cls c = true →
        (if bool_decide (pc_sect pc = SECT_DC_DEFAULTS) || bool_decide (pc_sect pc = SECT_DC)
         then cls_sect true c else cls_any c) = true) →
  parse_ok pc'.
Proof.
  intros [Hf Hs] H Hk Hc. apply (key_ok_weaken _ _ _ _ Hc) in Hk. unfold set_dest in H.
  assert (Hset : ∀ c p q, params_ok c p → key_ok c key value →
                          libnvmf_params_set p key value = Ok q → params_ok c q).
  { intros c p q Hp Hkv Hq. apply params_set_Ok in Hq as [_ ->]. by apply params_ok_put. }
  destruct (pc_sect pc) eqn:Es; cbn in Hk; try done.
  - destruct (cf_dc_defaults (pc_f pc)) as [p|] eqn:E; [|done].
    destruct (libnvmf_params_set p key value) as [q|] eqn:Eq; [|done]. injection H as <-.
    split; [|by unfold sect_ok; cbn; rewrite Es; eexists].
    destruct Hf as [F1 ? ? ? ? ? ?]; split; cbn; eauto with nvme.
  - destruct (cf_ioc_defaults (pc_f pc)) as [p|] eqn:E; [|done].
    destruct (libnvmf_params_set p key value) as [q|] eqn:Eq; [|done]. injection H as <-.
    split; [|by unfold sect_ok; cbn; rewrite Es; eexists].
    destruct Hf as [? F1 ? ? ? ? ?]; split; cbn; eauto with nvme.
  - destruct (cf_host_params (pc_f pc)) as [p|] eqn:E; [|done].
    destruct (libnvmf_params_set p key value) as [q|] eqn:Eq; [|done]. injection H as <-.
    unfold sect_ok in Hs. rewrite Es in Hs.
    split; [|by unfold sect_ok; cbn; rewrite Es].
    destruct Hf as [? ? F1 ? ? ? ?]; split; cbn; eauto with nvme. by rewrite Hs; eexists.
  - destruct (_ ≫= _) as [p|] eqn:E; [|done].
    apply ep_params_ok in E; [|done|by rewrite Es]. rewrite Es in E. cbn in E.
    destruct (libnvmf_params_set p key value) as [q|] eqn:Eq; [|done]. injection H as <-.
    apply set_ep_params_ok; [done|by rewrite Es|]. rewrite Es. eauto.
  - destruct (_ ≫= _) as [p|] eqn:E; [|done].
    apply ep_params_ok in E; [|done|by rewrite Es]. rewrite Es in E. cbn in E.
    destruct (libnvmf_params_set p key value) as [q|] eqn:Eq; [|done]. injection H as <-.
    apply set_ep_params_ok; [done|by rewrite Es|]. rewrite Es. cbn.
    eapply Hset; [exact E| |exact Eq]. by eapply key_ok_weaken, Hk; auto with nvme.
Qed.

Lemma identity_ok_Some (valid : option (list Z) → bool) v :
  nonempty v && negb (valid (Some v)) = false → identity_ok valid (Some v).
Proof.
  intros H w [= <-]. destruct (nonempty v) eqn:E; [right|left].
  - by apply negb_false_iff.
  - apply not_true_iff_false in E. rewrite nonempty_spec in E. by destruct v; [|destruct E].
Qed.

Lemma conf_kv_identity_ok pc nqn id sym :
  parse_ok pc → pc_sect pc = SECT_HOST →
  identity_ok shr_nqn_valid nqn → identity_ok shr_hostid_valid id →
  parse_ok (set_f (set_host_identity nqn id sym (pc_f pc)) pc).
Proof.
  intros [Hf Hs] Es Hn Hi. unfold sect_ok in Hs. rewrite Es in Hs.
  split; [|by unfold sect_ok; cbn; rewrite Es].
  destruct Hf as [? ? ? ? ? F ?]. split; cbn; try done. by rewrite Hs in F |- *.
Qed.

Lemma conf_kv_ok pc key value line pc' :
  parse_ok pc → conf_kv pc key value line = (Ok tt, pc') → parse_ok pc'.
Proof.
  intros Hpc. unfold conf_kv.
  destruct (bool_decide_reflect (pc_sect pc = SECT_IGNORED)); [by intros [= <-]|].
  destruct (bool_decide_reflect (pc_sect pc = SECT_NONE)); [done|].
  destruct (libnvmf_key_lookup key) as [k|] eqn:Hk; [|by intros [= <-]].
  assert (Hkey : is_ok (libnvmf_key_check_value k value) = true →
                 key_ok (λ c, bool_decide (c = k_class k)) key value).
  { intros Hv. exists k. rewrite bool_decide_true by done.
    by destruct (libnvmf_key_check_value k value) as [[]|]. }
  destruct (k_class k) eqn:Hc.
  - destruct (is_ok _); [|done]. intros H. eapply set_dest_ok; [done|exact H|by apply Hkey|].
    intros c ->%bool_decide_eq_true. by destruct (_ || _).
  - destruct (is_ok _); [|done]. intros H. eapply set_dest_ok; [done|exact H|by apply Hkey|].
    intros c ->%bool_decide_eq_true. by destruct (_ || _).
  - destruct (bool_decide_reflect (pc_sect pc = SECT_HOST)) as [Es|]; [|done]. cbn [negb].
    pose proof (file_hostnqn _ (proj1 Hpc)) as Hnqn. pose proof (file_hostid _ (proj1 Hpc)) as Hid.
    destruct (str_eqb key (lit "hostnqn")); [|destruct (str_eqb key (lit "hostid"))].
    + destruct (nonempty value && _) eqn:E; [done|]. intros [= <-].
      apply conf_kv_identity_ok; [done..|by apply identity_ok_Some|done].
    + destruct (nonempty value && _) eqn:E; [done|]. intros [= <-].
      apply conf_kv_identity_ok; [done..|by apply identity_ok_Some].
    + intros [= <-]. by apply conf_kv_identity_ok.
  - destruct (in_endpoint (pc_sect pc)) eqn:Hin; [|done]. cbn [negb].
    destruct (nonempty value); [|done]. destruct (shr_nqn_valid (Some value)) eqn:Hv; [|done].
    intros [= <-]. apply on_ep_ok; [done|done|]. intros e [H1 H2 H3] Hd.
    split; [|done]. split; [by intros v [= <-]|done|done].
  - destruct (in_endpoint (pc_sect pc)) eqn:Hin; [|done]. by apply add_path_ok.
  - destruct (is_ok _); [|by case_match]. cbn [negb].
    destruct (bool_decide_reflect (pc_sect pc = SECT_DC)) as [Es|];
      [|destruct (bool_decide_reflect (pc_sect pc = SECT_DC_DEFAULTS)) as [Es|]]; [..|done];
      intros H; (eapply set_dest_ok; [done|exact H|by apply Hkey|]);
      intros c ->%bool_decide_eq_true; by rewrite Es.
Qed.

Lemma conf_event_ok ev line pc pc' :
  parse_ok pc → conf_event ev line pc = (Ok tt, pc') → parse_ok pc'.
Proof.
  destruct ev as [name|sec key value|sec text]; cbn; [apply enter_section_ok|apply conf_kv_ok|done].
Qed.

(** A run of the callback keeps an invariant of the callback. *)
Lemma parse_lines_inv {U} (callback : shr_ini_event → Z → U → result () * U) (P : U → Prop) :
  (∀ ev line u u', P u → callback ev line u = (Ok tt, u') → P u') →
  ∀ ps section line u u', P u → parse_lines callback ps section line u = (Ok tt, u') → P u'.
Proof.
  intros Hcb ps. induction ps as [|p ps IH]; intros section line u u' Hu; cbn [parse_lines].
  { by intros [= <-]. }
  unfold ini_line. destruct (ini_classify (shr_trim p) section) as [[ev|] sec]; [|by apply IH].
  destruct (callback ev (u32 (line + 1)) u) as [[[]|e] u1] eqn:E; [|done].
  apply IH. by eapply Hcb.
Qed.

Lemma conf_file_new_ok path : file_ok (conf_file_new path).
Proof. by split; cbn; auto with nvme. Qed.

(** *** Errors *)

(** [err] is [EINVAL] whenever it is set, and so is an error that is returned. *)
Definition err_ok (r : result () * conf_parse) : Prop :=
  (pc_err r.2 = None ∨ pc_err r.2 = Some EINVAL) ∧ ∀ e, r.1 = Err e → e = EINVAL.

Lemma path_token_err s a p tok e : path_token s a p tok = Err e → e = EINVAL.
Proof.
  unfold path_token. destruct (nonempty _); [|done].
  destruct (split_char _ _) as [[k0 v0]|]; [|by intros [= <-]].
  destruct (nonempty k0); [|by intros [= <-]]. cbn [negb].
  destruct (addr_slot _ _) as [[[|] ?]|]; [by destruct (nonempty _); intros [= <-]..|].
  destruct (libnvmf_key_lookup (shr_trim k0)) as [k|] eqn:Hk; [|by intros [= <-]].
  assert (Ht : cls_sect true (k_class k) = true →
               path_tunable k (shr_trim k0) (shr_trim v0) a p = Err e → e = EINVAL).
  { unfold path_tunable. intros Hc.
    destruct (libnvmf_key_check_value k (shr_trim v0)) as [[]|] eqn:Hv; [|by intros [= <-]].
    rewrite params_set_put; [done|]. by exists k. }
  destruct (k_class k); [by apply Ht|by intros [= <-]..|].
  destruct (bool_decide _); [by apply Ht|by intros [= <-]].
Qed.

Lemma path_tokens_err s toks a p e : path_tokens s a p toks = Err e → e = EINVAL.
Proof.
  revert a p. induction toks as [|tok toks IH]; intros a p; simpl; [done|].
  destruct (path_token s a p tok) as [[a1 p1]|e1] eqn:Ht; [apply IH|].
  intros [= <-]. by eapply path_token_err.
Qed.

Lemma conf_err_ok pc : err_ok (conf_err pc).
Proof. split; [by right|by intros e [= <-]]. Qed.

Lemma pure_err_ok pc pc' : err_ok (Ok tt, pc) → pc_err pc' = pc_err pc → err_ok (Ok tt, pc').
Proof. intros [H _] Heq. split; [cbn in *; by rewrite Heq|done]. Qed.

Lemma on_ep_err g pc : pc_err (on_ep g pc) = pc_err pc.
Proof. unfold on_ep. by destruct (pc_ep pc). Qed.

Lemma add_path_err pc value line : err_ok (Ok tt, pc) → err_ok (add_path pc value line).
Proof.
  intros Hpc. unfold add_path. destruct (path_tokens _ _ _ _) as [[a p]|e] eqn:Ht.
  - repeat case_match; try apply conf_err_ok. eapply pure_err_ok; [done|apply on_ep_err].
  - apply path_tokens_err in Ht as ->. apply conf_err_ok.
Qed.

Lemma set_dest_err pc key value : err_ok (Ok tt, pc) → err_ok (set_dest pc key value).
Proof.
  intros Hpc. assert (Hfail : err_ok (Err EINVAL, pc)).
  { split; [apply Hpc|by intros e [= <-]]. }
  assert (Hset : ∀ p e, libnvmf_params_set p key value = Err e → e = EINVAL).
  { unfold libnvmf_params_set. intros p e. repeat case_match; congruence. }
  unfold set_dest. destruct (pc_sect pc); try done;
    repeat match goal with
    | |- context [match ?x with Some _ => _ | None => _ end] => destruct x; [|done]
    | |- context [libnvmf_params_set ?p key value] =>
        destruct (libnvmf_params_set p key value) eqn:E; [|by apply Hset in E as ->]
    end; (eapply pure_err_ok; [done|]); try apply on_ep_err; done.
Qed.

Lemma conf_event_err ev line pc : err_ok (Ok tt, pc) → err_ok (conf_event ev line pc).
Proof.
  intros Hpc. destruct ev as [name|sec key value|sec text]; cbn [conf_event].
  - unfold enter_section.
    repeat (destruct (str_eqb name _);
      [try (destruct (cf_has_host _)); (apply conf_err_ok || by eapply pure_err_ok)|]).
    by eapply pure_err_ok.
  - unfold conf_kv. repeat (destruct (bool_decide _); [done || apply conf_err_ok|]).
    destruct (libnvmf_key_lookup key) as [k|]; [|done].
    pose proof (conf_err_ok pc) as Hce.
    destruct (k_class k); repeat case_match; try done;
      try apply set_dest_err; try apply add_path_err; try done;
      by (eapply pure_err_ok; [done|]); try apply on_ep_err.
  - apply conf_err_ok.
Qed.

Lemma parse_lines_err ps section line pc :
  err_ok (Ok tt, pc) → err_ok (parse_lines conf_event ps section line pc).
Proof.
  revert section line pc. induction ps as [|p ps IH]; intros section line pc Hpc;
    cbn [parse_lines]; [done|].
  unfold ini_line. destruct (ini_classify (shr_trim p) section) as [[ev|] sec]; [|by apply IH].
  pose proof (conf_event_err ev (u32 (line + 1)) pc Hpc) as He.
  destruct (conf_event ev (u32 (line + 1)) pc) as [[[]|e] pc1]; [|done].
  apply IH. by split; [apply He|].
Qed.

Lemma conf_file_parse_ok path node f :
  libnvmf_conf_file_parse path node = Ok f →
  file_ok f ∧ Forall (λ e, ep_is_dc e = true ∨ is_Some (ep_nqn e)) (cf_endpoints f).
Proof.
  unfold libnvmf_conf_file_parse, shr_ini_parse_file.
  destruct (shr_ini_read_file node) as [text|e]; [|done].
  destruct (parse_lines conf_event _ None 0 _) as [[[]|e] pc'] eqn:E; [|done].
  apply (parse_lines_inv _ _ conf_event_ok) in E as [Hf _]; [|split; [apply conf_file_new_ok|done]].
  destruct (existsb nameless_subsys _) eqn:En; [done|]. intros [= <-]. split; [done|].
  apply Forall_lookup. intros i e He. destruct (ep_is_dc e) eqn:Hd; [by left|right].
  destruct (ep_nqn e) eqn:Hn; [by eexists|]. exfalso. apply not_true_iff_false in En.
  apply En, existsb_exists. exists e. split; [by eapply list_elem_of_In, list_elem_of_lookup_2|].
  unfold nameless_subsys. by rewrite Hd, Hn.
Qed.

Lemma conf_file_parse_err path node e :
  libnvmf_conf_file_parse path node = Err e → e = EINVAL ∨ shr_ini_read_file node = Err e.
Proof.
  unfold libnvmf_conf_file_parse, shr_ini_parse_file.
  destruct (shr_ini_read_file node) as [text|e1]; [|by right; simplify_eq/=].
  pose proof (parse_lines_err (fields c_nl text) None 0
    (ConfParse (conf_file_new path) SECT_NONE None None) ltac:(by split; [left|])) as [Hp He].
  destruct (parse_lines conf_event _ None 0 _) as [[[]|e1] pc'].
  - destruct (existsb nameless_subsys _); [|done]. intros [= <-]. by left.
  - intros [= <-]. left. cbn in *. destruct Hp as [-> | ->]; [by apply He|done].
Qed.

(** ** Properties *)

(** C28: a configuration file is either refused, for a reason of the file
    system or with [EINVAL], or it yields a model that obeys the rules on where
    keys may stand: tunables and secrets in every section, "persistent" only
    for discovery controllers, no secret on a "controller =" line, each key at
    most once in a store and with a value of its type; host identities are
    reset or valid and only there with a [Host] section; every NQN is valid,
    every subsystem has one, and every path has a transport and an address. *)
Theorem libnvmf_conf_file_parse_spec path node :
  match libnvmf_conf_file_parse path node with
  | Ok f => file_ok f ∧ Forall (λ e, ep_is_dc e = true ∨ is_Some (ep_nqn e)) (cf_endpoints f)
  | Err e => e = EINVAL ∨ shr_ini_read_file node = Err e
  end.
Proof.
  destruct (libnvmf_conf_file_parse path node) as [f|e] eqn:E.
  - by eapply conf_file_parse_ok.
  - by eapply conf_file_parse_err.
Qed.
