(* ===== verification/ConfResolve.v ===== *)
(** * The resolved configuration: [libnvme/src/nvme/config-resolve.c], [config.c]

    From the raw models of the main file and its drop-ins to the flat list of
    connections, and the questions consumers ask of it.  The file system is two
    functions: what a directory lists and what a path names.  Allocation
    succeeds, so a failed copy or merge (reported as [ENOMEM]) means that a
    store refused a key; the theorems show that this does not happen. *)

From Stdlib Require Import String.
From stdpp Require Import base list numbers sets.
From S2P Require Import Prelude.
From S2P Require Import CStr.
From S2P Require Import Parse.
From S2P Require Import Nqn.
From S2P Require Import Ini.
From S2P Require Import Conf.
From S2P Require Import ConfSpec.

(** ** The resolved model *)

Record libnvmf_config_conn := ConfigConn {
  cc_is_dc : bool;
  cc_transport : list Z;
  cc_traddr : list Z;
  cc_trsvcid : option (list Z);
  cc_host_traddr : option (list Z);
  cc_host_iface : option (list Z);
  cc_subsysnqn : list Z;
  cc_hostnqn : option (list Z);
  cc_hostid : option (list Z);
  cc_params : libnvmf_params;
  cc_hostsymname : option (list Z);
  cc_source : list Z;
  cc_line : Z;
  cc_dlp_dc_params : option libnvmf_params;
  cc_dlp_ioc_params : option libnvmf_params;
}.

Record libnvmf_config_subsys := ConfigSubsys {
  cs_is_dc : bool;
  cs_nqn : list Z;
  cs_source : list Z;
  cs_line : Z;
  cs_keys : libnvmf_params;
  cs_params : libnvmf_params;
}.

Record libnvmf_config_persona := ConfigPersona {
  cp_source : list Z;
  cp_hostnqn : option (list Z);
  cp_dc_params : libnvmf_params;
  cp_ioc_params : libnvmf_params;
}.

Record libnvmf_config := Config {
  conf_conns : list libnvmf_config_conn;
  conf_subsystems : list libnvmf_config_subsys;
  conf_personas : list libnvmf_config_persona;
  conf_top_dc_params : libnvmf_params;
  conf_top_ioc_params : libnvmf_params;
  conf_top_source : list Z;
  conf_top_hostnqn : option (list Z);
  conf_top_hostid : option (list Z);
  conf_top_hostsymname : option (list Z);
}.

(** ** Scopes *)

Record scope := Scope {
  dc_base : libnvmf_params;
  ioc_base : libnvmf_params;
}.

Definition merge_maybe (dst : libnvmf_params) (src : option libnvmf_params) :
    result libnvmf_params :=
  match src with
  | None => Ok dst
  | Some src =>
      match libnvmf_params_merge dst src with
      | (Ok _, dst) => Ok dst
      | (Err e, _) => Err e
      end
  end.

Definition defaults_of (dc : bool) (f : libnvmf_conf_file) : option libnvmf_params :=
  if dc then cf_dc_defaults f else cf_ioc_defaults f.

(** [is_top] is [f == top]; [None] when a merge fails. *)
Definition build_base (top f : libnvmf_conf_file) (is_top dc : bool) : option libnvmf_params :=
  match merge_maybe libnvmf_params_new (defaults_of dc top) with
  | Err _ => None
  | Ok base =>
      match (if is_top then Ok base else merge_maybe base (defaults_of dc f)) with
      | Err _ => None
      | Ok base =>
          match merge_maybe base (cf_host_params f) with
          | Err _ => None
          | Ok base => Some base
          end
      end
  end.

Definition build_scope (top f : libnvmf_conf_file) (is_top : bool) : result scope :=
  match build_base top f is_top true, build_base top f is_top false with
  | Some dc, Some ioc => Ok (Scope dc ioc)
  | _, _ => Err ENOMEM
  end.

Definition base_of (dc : bool) (s : scope) : libnvmf_params :=
  if dc then dc_base s else ioc_base s.

(** ** Resolution *)

Definition real_value (s : option (list Z)) : bool :=
  match s with Some s => nonempty s | None => false end.

(** [real_value(s) ? s : NULL] *)
Definition real_or_null (s : option (list Z)) : option (list Z) :=
  if real_value s then s else None.

Definition resolve_path (f : libnvmf_conf_file) (scope : scope) (ep : libnvmf_conf_endpoint)
    (path : libnvmf_conf_path) : result libnvmf_config_conn :=
  let nqn := default NVME_DISC_SUBSYS_NAME (ep_nqn ep) in
  match libnvmf_params_dup (base_of (ep_is_dc ep) scope) with
  | None => Err ENOMEM
  | Some params =>
      match libnvmf_params_merge params (ep_params ep) with
      | (Err _, _) => Err ENOMEM
      | (Ok _, params) =>
          match libnvmf_params_merge params (pa_overrides path) with
          | (Err _, _) => Err ENOMEM
          | (Ok _, params) =>
              let conn dlp_dc dlp_ioc :=
                ConfigConn (ep_is_dc ep) (pa_transport path) (pa_traddr path)
                  (pa_trsvcid path) (pa_host_traddr path) (pa_host_iface path) nqn
                  (real_or_null (cf_hostnqn f)) (real_or_null (cf_hostid f)) params
                  (real_or_null (cf_hostsymname f)) (cf_path f) (pa_line path)
                  dlp_dc dlp_ioc in
              if ep_is_dc ep then
                match libnvmf_params_dup (dc_base scope), libnvmf_params_dup (ioc_base scope) with
                | Some dc, Some ioc => Ok (conn (Some dc) (Some ioc))
                | _, _ => Err ENOMEM
                end
              else Ok (conn None None)
          end
      end
  end.

Definition subsys_keys : list (list Z) := [lit "kxchap-secret"; lit "kxchap-ctrl-secret"].

Definition subsys_matches (source : list Z) (is_dc : bool) (nqn : list Z)
    (s : libnvmf_config_subsys) : bool :=
  eqb (cs_is_dc s) is_dc && str_eqb (cs_nqn s) nqn && str_eqb (cs_source s) source.

Definition libnvmf_config_subsys_find (subsystems : list libnvmf_config_subsys)
    (source : list Z) (is_dc : bool) (nqn : option (list Z)) : option libnvmf_config_subsys :=
  match nqn with
  | None => None
  | Some nqn => List.find (subsys_matches source is_dc nqn) subsystems
  end.

(** The list with the entry found replaced by what [g] makes of it. *)
Fixpoint subsys_update (source : list Z) (is_dc : bool) (nqn : list Z)
    (g : libnvmf_config_subsys → result libnvmf_config_subsys)
    (l : list libnvmf_config_subsys) : result (list libnvmf_config_subsys) :=
  match l with
  | [] => Ok []
  | s :: l =>
      if subsys_matches source is_dc nqn s then (λ s, s :: l) <$> g s
      else (s ::.) <$> subsys_update source is_dc nqn g l
  end.

(** The loop of [subsys_merge] over [ks]. *)
Fixpoint subsys_merge (keys : libnvmf_params) (ks : list (list Z)) (s : libnvmf_config_subsys) :
    result libnvmf_config_subsys :=
  match ks with
  | [] => Ok s
  | k :: ks =>
      match libnvmf_params_get keys k with
      | None => subsys_merge keys ks s
      | Some value =>
          let old := libnvmf_params_get (cs_keys s) k in
          if bool_decide (is_Some old) && negb (shr_streq0 old (Some value)) then Err EINVAL
          else
            match libnvmf_params_set (cs_keys s) k value with
            | Err _ => Err ENOMEM
            | Ok skeys =>
                match libnvmf_params_set (cs_params s) k value with
                | Err _ => Err ENOMEM
                | Ok sparams =>
                    subsys_merge keys ks
                      (ConfigSubsys (cs_is_dc s) (cs_nqn s) (cs_source s) (cs_line s)
                         skeys sparams)
                end
            end
      end
  end.

(** The loop of [resolve_subsys] that copies the secrets of the section. *)
Fixpoint subsys_copy (params : libnvmf_params) (ks : list (list Z)) (keys : libnvmf_params)
    (found : bool) : result (libnvmf_params * bool) :=
  match ks with
  | [] => Ok (keys, found)
  | k :: ks =>
      match libnvmf_params_get params k with
      | None => subsys_copy params ks keys found
      | Some value =>
          match libnvmf_params_set keys k value with
          | Err _ => Err ENOMEM
          | Ok keys => subsys_copy params ks keys true
          end
      end
  end.

Definition resolve_subsys (f : libnvmf_conf_file) (scope : scope) (ep : libnvmf_conf_endpoint)
    (subsystems : list libnvmf_config_subsys) : result (list libnvmf_config_subsys) :=
  match ep_nqn ep with
  | None => Ok subsystems
  | Some nqn =>
      if ep_is_dc ep && str_eqb nqn NVME_DISC_SUBSYS_NAME then Ok subsystems
      else
        match subsys_copy (ep_params ep) subsys_keys libnvmf_params_new false with
        | Err e => Err e
        | Ok (_, false) => Ok subsystems
        | Ok (keys, true) =>
            match libnvmf_config_subsys_find subsystems (cf_path f) (ep_is_dc ep) (Some nqn) with
            | Some _ =>
                subsys_update (cf_path f) (ep_is_dc ep) nqn (subsys_merge keys subsys_keys)
                  subsystems
            | None =>
                match libnvmf_params_dup (base_of (ep_is_dc ep) scope) with
                | None => Err ENOMEM
                | Some params =>
                    match libnvmf_params_merge params keys with
                    | (Err _, _) => Err ENOMEM
                    | (Ok _, params) =>
                        Ok (subsystems ++ [ConfigSubsys (ep_is_dc ep) nqn (cf_path f)
                                             (ep_line ep) keys params])
                    end
                end
            end
        end
  end.

Definition resolve_persona (f : libnvmf_conf_file) (scope : scope) :
    result libnvmf_config_persona :=
  match libnvmf_params_dup (dc_base scope), libnvmf_params_dup (ioc_base scope) with
  | Some dc, Some ioc => Ok (ConfigPersona (cf_path f) (real_or_null (cf_hostnqn f)) dc ioc)
  | _, _ => Err ENOMEM
  end.

(** The three lists [resolve_file] adds to. *)
Record resolved := Resolved {
  rs_conns : list libnvmf_config_conn;
  rs_subsystems : list libnvmf_config_subsys;
  rs_personas : list libnvmf_config_persona;
}.

Fixpoint resolve_paths (f : libnvmf_conf_file) (scope : scope) (ep : libnvmf_conf_endpoint)
    (paths : list libnvmf_conf_path) (conns : list libnvmf_config_conn) :
    result (list libnvmf_config_conn) :=
  match paths with
  | [] => Ok conns
  | p :: paths =>
      c ← resolve_path f scope ep p;
      resolve_paths f scope ep paths (conns ++ [c])
  end.

Fixpoint resolve_endpoints (f : libnvmf_conf_file) (scope : scope)
    (eps : list libnvmf_conf_endpoint) (r : resolved) : result resolved :=
  match eps with
  | [] => Ok r
  | ep :: eps =>
      ss ← resolve_subsys f scope ep (rs_subsystems r);
      cs ← resolve_paths f scope ep (ep_paths ep) (rs_conns r);
      resolve_endpoints f scope eps (Resolved cs ss (rs_personas r))
  end.

Definition resolve_file (top f : libnvmf_conf_file) (is_top : bool) (r : resolved) :
    result resolved :=
  sc ← build_scope top f is_top;
  p ← resolve_persona f sc;
  resolve_endpoints f sc (cf_endpoints f)
    (Resolved (rs_conns r) (rs_subsystems r) (rs_personas r ++ [p])).

(** ** Personas *)

(** The inner loop of [check_personas] for the files in front of [f]. *)
Fixpoint check_against (f : libnvmf_conf_file) (os : list libnvmf_conf_file) : result () :=
  match os with
  | [] => Ok tt
  | o :: os =>
      if negb (cf_has_host o) then check_against f os
      else if real_value (cf_hostnqn f) && real_value (cf_hostnqn o) &&
              shr_streq0 (cf_hostnqn f) (cf_hostnqn o) then Err EINVAL
      else if real_value (cf_hostid f) && real_value (cf_hostid o) &&
              shr_streq0 (cf_hostid f) (cf_hostid o) &&
              real_value (cf_hostnqn f) && real_value (cf_hostnqn o) &&
              negb (shr_streq0 (cf_hostnqn f) (cf_hostnqn o)) then Err EINVAL
      else check_against f os
  end.

(** [before] is the list of the files [files[0..i-1]]. *)
Fixpoint check_personas (before files : list libnvmf_conf_file) : result () :=
  match files with
  | [] => Ok tt
  | f :: files =>
      if negb (cf_has_host f) then check_personas (before ++ [f]) files
      else if (0 <? length before)%nat && negb (real_value (cf_hostnqn f)) then Err EINVAL
      else if real_value (cf_hostnqn f) && negb (real_value (cf_hostid f)) then Err EINVAL
      else _ ← check_against f before; check_personas (before ++ [f]) files
  end.

(** ** Loading *)

(** [strrchr(s, c)]: what is in front of the last [c], and from it on. *)
Fixpoint strrchr (c : Z) (s : list Z) : option (list Z * list Z) :=
  match s with
  | [] => None
  | x :: s' =>
      match strrchr c s' with
      | Some (a, b) => Some (x :: a, b)
      | None => if x =? c then Some ([], s) else None
      end
  end.

Definition libnvmf_conf_dropin_filter (d_name : list Z) : bool :=
  match strrchr c_dot d_name with
  | Some (a, dot) => nonempty a && str_eqb dot (lit ".conf")
  | None => false
  end.

Section load.
(** The order [alphasort] gives the names of a directory, that of the locale. *)
Variable alphasort : list (list Z) → list (list Z).
(** What a directory lists, or why it cannot be read. *)
Variable readdir : list Z → result (list (list Z)).
(** What a path names. *)
Variable node : list Z → ini_node.

Definition scandir (dirname : list Z) : result (list (list Z)) :=
  (λ l, alphasort (List.filter libnvmf_conf_dropin_filter l)) <$> readdir dirname.

(** The drop-ins, in order, up to the first that fails. *)
Fixpoint parse_dropins (dirname : list Z) (names : list (list Z)) :
    result (list libnvmf_conf_file) :=
  match names with
  | [] => Ok []
  | d :: names =>
      let sub := dirname ++ lit "/" ++ d in
      f ← libnvmf_conf_file_parse sub (node sub);
      fs ← parse_dropins dirname names;
      Ok (f :: fs)
  end.

(** Slot 0 and the drop-ins. *)
Definition load_files (path : list Z) : result (libnvmf_conf_file * list libnvmf_conf_file) :=
  let dirname := path ++ lit ".d" in
  names ← (match scandir dirname with
           | Err ENOENT => Ok []
           | r => r
           end);
  top ← (match libnvmf_conf_file_parse path (node path) with
         | Err ENOENT => Ok (conf_file_new path)
         | r => r
         end);
  dropins ← parse_dropins dirname names;
  Ok (top, dropins).

(** The loop over [files]; [is_top] for the first. *)
Fixpoint resolve_files (top : libnvmf_conf_file) (files : list libnvmf_conf_file) (r : resolved) :
    result resolved :=
  match files with
  | [] => Ok r
  | f :: files => r ← resolve_file top f false r; resolve_files top files r
  end.

Definition libnvmf_config_load (path : list Z) : result libnvmf_config :=
  fs ← load_files path;
  let '(top, dropins) := fs in
  _ ← check_personas [] (top :: dropins);
  r ← resolve_file top top true (Resolved [] [] []);
  r ← resolve_files top dropins r;
  match build_base top top true true, build_base top top true false with
  | Some dc, Some ioc =>
      Ok (Config (rs_conns r) (rs_subsystems r) (rs_personas r) dc ioc (cf_path top)
            (real_or_null (cf_hostnqn top)) (real_or_null (cf_hostid top))
            (real_or_null (cf_hostsymname top)))
  | _, _ => Err ENOMEM
  end.
End load.

(** ** Questions about a configuration *)

Definition libnvmf_config_resolve_discovered (config : libnvmf_config)
    (via_dc : option libnvmf_config_conn) (is_dc : bool) : option libnvmf_params :=
  match via_dc with
  | Some c => if is_dc then cc_dlp_dc_params c else cc_dlp_ioc_params c
  | None => Some (if is_dc then conf_top_dc_params config else conf_top_ioc_params config)
  end.

Definition libnvmf_config_find_subsys (config : libnvmf_config)
    (via_dc : option libnvmf_config_conn) (is_dc : bool) (nqn : option (list Z)) :
    option libnvmf_config_subsys :=
  libnvmf_config_subsys_find (conf_subsystems config)
    (match via_dc with Some c => cc_source c | None => conf_top_source config end) is_dc nqn.

Definition persona_find (config : libnvmf_config) (hostnqn : option (list Z)) :
    option libnvmf_config_persona :=
  List.find (λ p, match hostnqn with
                  | None => str_eqb (cp_source p) (conf_top_source config)
                  | Some _ => shr_streq0 (cp_hostnqn p) hostnqn
                  end) (conf_personas config).

Definition libnvmf_config_get_discovered_params (config : libnvmf_config)
    (hostnqn : option (list Z)) (is_dc : bool) (nqn : option (list Z)) :
    result libnvmf_params :=
  match persona_find config hostnqn with
  | None => Err ENOENT
  | Some p =>
      match libnvmf_config_subsys_find (conf_subsystems config) (cp_source p) is_dc nqn with
      | Some s => Ok (cs_params s)
      | None => Ok (if is_dc then cp_dc_params p else cp_ioc_params p)
      end
  end.

(** ** Specification: the cascade *)

(** The value of [key] in the first of [stores] that has it: the stores are
    listed from the most to the least specific. *)
Fixpoint cascade (stores : list libnvmf_params) (key : list Z) : option (list Z) :=
  match stores with
  | [] => None
  | p :: stores =>
      match libnvmf_params_get p key with
      | Some v => Some v
      | None => cascade stores key
      end
  end.

Definition store_of (o : option libnvmf_params) : libnvmf_params := default [] o.

(** The scope of a file for endpoints of a kind: [Host], its defaults, the
    defaults of the main file. *)
Definition scope_stores (top f : libnvmf_conf_file) (dc : bool) : list libnvmf_params :=
  [store_of (cf_host_params f); store_of (defaults_of dc f); store_of (defaults_of dc top)].

Definition params_of (stores : list libnvmf_params) (p : libnvmf_params) : Prop :=
  ∀ key, libnvmf_params_get p key = cascade stores key.

(** The connection a "controller =" line gives. *)
Definition conn_of (top : libnvmf_conf_file)
    (t : libnvmf_conf_file * libnvmf_conf_endpoint * libnvmf_conf_path)
    (c : libnvmf_config_conn) : Prop :=
  let '(f, ep, path) := t in
  c = ConfigConn (ep_is_dc ep) (pa_transport path) (pa_traddr path) (pa_trsvcid path)
        (pa_host_traddr path) (pa_host_iface path)
        (default NVME_DISC_SUBSYS_NAME (ep_nqn ep))
        (real_or_null (cf_hostnqn f)) (real_or_null (cf_hostid f)) (cc_params c)
        (real_or_null (cf_hostsymname f)) (cf_path f) (pa_line path)
        (cc_dlp_dc_params c) (cc_dlp_ioc_params c) ∧
  params_of (pa_overrides path :: ep_params ep :: scope_stores top f (ep_is_dc ep)) (cc_params c) ∧
  if ep_is_dc ep then
    ∃ dc ioc, cc_dlp_dc_params c = Some dc ∧ cc_dlp_ioc_params c = Some ioc ∧
              params_of (scope_stores top f true) dc ∧ params_of (scope_stores top f false) ioc
  else cc_dlp_dc_params c = None ∧ cc_dlp_ioc_params c = None.

(** The "controller =" lines of a file, in order. *)
Definition file_paths (f : libnvmf_conf_file) :
    list (libnvmf_conf_file * libnvmf_conf_endpoint * libnvmf_conf_path) :=
  mjoin ((λ ep, (λ p, (f, ep, p)) <$> ep_paths ep) <$> cf_endpoints f).

(** ** Lemmas *)

(** A store that [libnvmf_params_set] could have built. *)
Abbreviation stored := (params_ok (cls_sect true)) (only parsing).

Lemma cascade_app l k key :
  cascade (l ++ k) key = match cascade l key with Some v => Some v | None => cascade k key end.
Proof.
  induction l as [|p l IH]; simpl; [done|]. by destruct (libnvmf_params_get p key).
Qed.

Lemma cascade_cons p l key :
  cascade (p :: l) key =
  match libnvmf_params_get p key with Some v => Some v | None => cascade l key end.
Proof. done. Qed.

Lemma merge_of dst src stores :
  stored dst → stored src → params_of stores dst →
  ∃ d, libnvmf_params_merge dst src = (Ok tt, d) ∧ stored d ∧ params_of (src :: stores) d.
Proof.
  intros Hd Hs Hof. exists (overlay dst src).
  split; [apply params_merge_overlay, Hs|]. split; [by apply params_ok_overlay|].
  intros key. rewrite get_overlay by apply Hs. simpl. by rewrite (Hof key).
Qed.

Lemma merge_maybe_of dst src stores :
  stored dst → store_ok (cls_sect true) src → params_of stores dst →
  ∃ d, merge_maybe dst src = Ok d ∧ stored d ∧ params_of (store_of src :: stores) d.
Proof.
  intros Hd Hs Hof. destruct src as [src|]; cbn [merge_maybe].
  - destruct (merge_of dst src stores) as (d & -> & Hok & Hp); [done|by apply Hs|done|].
    by exists d.
  - by exists dst.
Qed.

Lemma dup_stored p : stored p → libnvmf_params_dup p = Some p.
Proof. by apply params_dup_id. Qed.

Lemma store_ok_weaken (cls cls' : libnvmf_key_class → bool) o :
  (∀ c, cls c = true → cls' c = true) → store_ok cls o → store_ok cls' o.
Proof. intros H Ho p Hp. eapply params_ok_weaken; [exact H|by apply Ho]. Qed.

Lemma defaults_ok dc f : file_ok f → store_ok (cls_sect true) (defaults_of dc f).
Proof.
  intros Hf. destruct dc; [apply Hf|]. eapply store_ok_weaken; [|apply Hf]. auto with nvme.
Qed.

Lemma host_params_ok f : file_ok f → store_ok (cls_sect true) (cf_host_params f).
Proof. intros Hf. eapply store_ok_weaken; [|apply Hf]. auto with nvme. Qed.

Lemma build_base_of top f (is_top : bool) dc :
  file_ok top → file_ok f → (is_top = true → f = top) →
  ∃ b, build_base top f is_top dc = Some b ∧ stored b ∧ params_of (scope_stores top f dc) b.
Proof.
  intros Ht Hf Htop. unfold build_base.
  destruct (merge_maybe_of libnvmf_params_new (defaults_of dc top) [])
    as (b1 & -> & H1 & P1); [apply params_ok_nil|by apply defaults_ok|done|].
  assert (∃ b2, (if is_top then Ok b1 else merge_maybe b1 (defaults_of dc f)) = Ok b2 ∧
                stored b2 ∧ params_of [store_of (defaults_of dc f); store_of (defaults_of dc top)] b2)
    as (b2 & -> & H2 & P2).
  { destruct is_top.
    - exists b1. split; [done|]. split; [done|]. rewrite Htop by done. intros key.
      rewrite (P1 key). simpl. by destruct (libnvmf_params_get _ key).
    - by apply merge_maybe_of; [|apply defaults_ok|]. }
  destruct (merge_maybe_of b2 (cf_host_params f) _ H2 (host_params_ok f Hf) P2)
    as (b3 & -> & H3 & P3). by exists b3.
Qed.

(** A scope built for [f]. *)
Definition scope_ok (top f : libnvmf_conf_file) (sc : scope) : Prop :=
  ∀ dc, stored (base_of dc sc) ∧ params_of (scope_stores top f dc) (base_of dc sc).

Lemma build_scope_of top f (is_top : bool) :
  file_ok top → file_ok f → (is_top = true → f = top) →
  ∃ sc, build_scope top f is_top = Ok sc ∧ scope_ok top f sc.
Proof.
  intros Ht Hf Htop. unfold build_scope.
  destruct (build_base_of top f is_top true Ht Hf Htop) as (b1 & -> & H1).
  destruct (build_base_of top f is_top false Ht Hf Htop) as (b2 & -> & H2).
  eexists. split; [done|]. by intros [].
Qed.

Lemma resolve_path_of top f sc ep path :
  scope_ok top f sc → endpoint_ok ep → path_ok (ep_is_dc ep) path →
  ∃ c, resolve_path f sc ep path = Ok c ∧ conn_of top (f, ep, path) c.
Proof.
  intros Hsc Hep Hpath. unfold resolve_path.
  destruct (Hsc (ep_is_dc ep)) as [Hb Pb]. rewrite (dup_stored _ Hb).
  assert (He : stored (ep_params ep)) by
    (eapply params_ok_weaken; [|apply Hep]; eauto with nvme).
  assert (Ho : stored (pa_overrides path)) by
    (eapply params_ok_weaken; [|apply Hpath]; eauto with nvme).
  destruct (merge_of _ _ _ Hb He Pb) as (d1 & -> & H1 & P1).
  destruct (merge_of _ _ _ H1 Ho P1) as (d2 & -> & H2 & P2).
  destruct (Hsc true) as [Hdc Pdc]. destruct (Hsc false) as [Hioc Pioc]. cbn in Hdc, Hioc.
  rewrite (dup_stored _ Hdc), (dup_stored _ Hioc).
  destruct (ep_is_dc ep) eqn:Edc; eexists; (split; [done|]); unfold conn_of; rewrite Edc; cbn.
  - split; [done|]. split; [done|]. by exists (dc_base sc), (ioc_base sc).
  - done.
Qed.

Lemma resolve_paths_of top f sc ep paths conns :
  scope_ok top f sc → endpoint_ok ep → Forall (path_ok (ep_is_dc ep)) paths →
  ∃ cs, resolve_paths f sc ep paths conns = Ok (conns ++ cs) ∧
        Forall2 (conn_of top) ((λ p, (f, ep, p)) <$> paths) cs.
Proof.
  intros Hsc Hep Hp. revert conns. induction Hp as [|p paths Hp _ IH]; intros conns; cbn [resolve_paths].
  { exists []. rewrite app_nil_r. split; [done|constructor]. }
  destruct (resolve_path_of top f sc ep p Hsc Hep Hp) as (c & -> & Hc). cbn.
  destruct (IH (conns ++ [c])) as (cs & -> & Hcs). exists (c :: cs).
  rewrite <- app_assoc. split; [done|]. by constructor.
Qed.
