(* ===== verification/ConfSecrets.v ===== *)
(** * Secrets of subsystems in the resolved configuration

    [resolve_subsys] of [libnvme/src/nvme/config-resolve.c] gathers the secrets
    of the sections with the same NQN.  The invariant of the list it builds,
    relative to the sections seen so far: what the list holds comes from them,
    what they hold is in the list, and it fails exactly on two sections that
    give one secret different values. *)

From Stdlib Require Import String.
From stdpp Require Import base list numbers sets.
From S2P Require Import Prelude.
From S2P Require Import CStr.
From S2P Require Import Parse.
From S2P Require Import Nqn.
From S2P Require Import Ini.
From S2P Require Import Conf.
From S2P Require Import ConfSpec.
From S2P Require Import ConfResolve.

(** ** Specification *)

Abbreviation stored := (params_ok (cls_sect true)) (only parsing).

(** A section of a file. *)
Abbreviation section := (libnvmf_conf_file * libnvmf_conf_endpoint)%type (only parsing).

(** Whose secrets an entry holds: file, kind and NQN. *)
Abbreviation owner := (list Z * bool * list Z)%type (only parsing).

Definition subsys_owner (s : libnvmf_config_subsys) : owner :=
  (cs_source s, cs_is_dc s, cs_nqn s).

(** The owner of the secrets of a section; a discovery controller with the
    well-known NQN or without one is no owner. *)
Definition section_owner (t : section) : option owner :=
  match ep_nqn t.2 with
  | None => None
  | Some nqn =>
      if ep_is_dc t.2 && str_eqb nqn NVME_DISC_SUBSYS_NAME then None
      else Some (cf_path t.1, ep_is_dc t.2, nqn)
  end.

(** Section [t] gives the secret [k] of [o] the value [v]. *)
Definition gives (t : section) (o : owner) (k v : list Z) : Prop :=
  section_owner t = Some o ∧ k ∈ subsys_keys ∧ libnvmf_params_get (ep_params t.2) k = Some v.

(** Two sections give a secret different values. *)
Definition secrets_conflict (ts : list section) : Prop :=
  ∃ t1 t2 o k v1 v2, t1 ∈ ts ∧ t2 ∈ ts ∧ gives t1 o k v1 ∧ gives t2 o k v2 ∧ v1 ≠ v2.

Definition find_owner (o : owner) (ss : list libnvmf_config_subsys) :
    option libnvmf_config_subsys :=
  libnvmf_config_subsys_find ss o.1.1 o.1.2 (Some o.2).

(** An entry: its secrets are those of sections of [ts], and its parameters
    are these over the scope of the file. *)
Definition subsys_ok (top : libnvmf_conf_file) (ts : list section) (s : libnvmf_config_subsys) : Prop :=
  (∀ k v, libnvmf_params_get (cs_keys s) k = Some v →
          ∃ t, t ∈ ts ∧ gives t (subsys_owner s) k v) ∧
  stored (cs_keys s) ∧ stored (cs_params s) ∧
  ∃ t, t ∈ ts ∧ cf_path t.1 = cs_source s ∧
       params_of (cs_keys s :: scope_stores top t.1 (cs_is_dc s)) (cs_params s).

Record subsys_inv (top : libnvmf_conf_file) (ts : list section)
    (ss : list libnvmf_config_subsys) : Prop := SubsysInv {
  inv_entries : ∀ s, s ∈ ss → subsys_ok top ts s;
  inv_given : ∀ t o k v, t ∈ ts → gives t o k v →
              ∃ s, find_owner o ss = Some s ∧ libnvmf_params_get (cs_keys s) k = Some v;
}.

(** ** Lemmas *)

Lemma matches_owner s o :
  subsys_matches o.1.1 o.1.2 o.2 s = bool_decide (subsys_owner s = o).
Proof.
  destruct o as [[src dc] nqn]. unfold subsys_matches, subsys_owner. cbn.
  apply eq_bool_prop_intro. rewrite bool_decide_spec. unfold str_eqb.
  destruct (eqb (cs_is_dc s) dc) eqn:E; cbn.
  - apply eqb_prop in E. rewrite andb_True, !bool_decide_spec. split; [by intros [-> ->]; subst|].
    by intros [= <- <- <-].
  - split; [done|]. intros [= <- <- <-]. by rewrite eqb_reflx in E.
Qed.

Lemma find_owner_cons o s ss :
  find_owner o (s :: ss) = if bool_decide (subsys_owner s = o) then Some s else find_owner o ss.
Proof. unfold find_owner, libnvmf_config_subsys_find. simpl. by rewrite matches_owner. Qed.

Lemma find_owner_app o ss ss' :
  find_owner o (ss ++ ss') = match find_owner o ss with Some s => Some s | None => find_owner o ss' end.
Proof.
  induction ss as [|s ss IH]; [done|]. cbn [app]. rewrite !find_owner_cons, IH.
  by case_bool_decide.
Qed.

Lemma find_owner_Some o ss s : find_owner o ss = Some s → s ∈ ss ∧ subsys_owner s = o.
Proof.
  induction ss as [|s' ss IH]; [done|]. rewrite find_owner_cons. case_bool_decide as E.
  - intros [= <-]. split; [left|done].
  - intros H%IH. split; [right|]; apply H.
Qed.

(** Updating the entry found. *)
Lemma subsys_update_of o g ss s :
  find_owner o ss = Some s →
  match g s with
  | Err e => subsys_update o.1.1 o.1.2 o.2 g ss = Err e
  | Ok s' => subsys_owner s' = subsys_owner s →
      ∃ ss', subsys_update o.1.1 o.1.2 o.2 g ss = Ok ss' ∧
             (∀ x, x ∈ ss' → x ∈ ss ∨ x = s') ∧
             (∀ o', find_owner o' ss' = if bool_decide (o = o') then Some s' else find_owner o' ss)
  end.
Proof.
  induction ss as [|x ss IH]; [done|]. rewrite find_owner_cons. cbn [subsys_update].
  rewrite matches_owner. case_bool_decide as E.
  - intros [= ->]. destruct (g s) as [s'|e]; [|done]. intros Hid.
    exists (s' :: ss). split; [done|]. split; [set_solver|].
    intros o'. rewrite !find_owner_cons, Hid, E. by case_bool_decide.
  - intros Hf. specialize (IH Hf). destruct (g s) as [s'|e]; [|by rewrite IH].
    intros Hid. destruct (IH Hid) as (ss' & -> & Hin & Hfind). exists (x :: ss').
    split; [done|]. split; [set_solver|]. intros o'. rewrite !find_owner_cons, Hfind.
    destruct (bool_decide_reflect (subsys_owner x = o')); [|done].
    rewrite bool_decide_false; [done|]. congruence.
Qed.

(** The value of [k] in [p] when it is one of [ks], and in [q] otherwise. *)
Definition select (ks : list (list Z)) (p q : libnvmf_params) (k : list Z) : option (list Z) :=
  match (if bool_decide (k ∈ ks) then libnvmf_params_get p k else None) with
  | Some v => Some v
  | None => libnvmf_params_get q k
  end.

Lemma select_cons_None k0 ks p q k :
  libnvmf_params_get p k0 = None → select (k0 :: ks) p q k = select ks p q k.
Proof.
  intros H. unfold select. destruct (decide (k = k0)) as [->|Hk].
  - rewrite H. repeat case_bool_decide; done.
  - repeat case_bool_decide; try done; set_solver.
Qed.

Lemma select_cons_put k0 v0 ks p q k :
  libnvmf_params_get p k0 = Some v0 → select ks p (put q k0 v0) k = select (k0 :: ks) p q k.
Proof.
  intros H. unfold select. rewrite get_put. destruct (decide (k = k0)) as [->|Hk].
  - rewrite (bool_decide_true (k0 ∈ k0 :: ks)) by set_solver.
    rewrite (bool_decide_true (k0 = k0)) by done. rewrite H. by case_bool_decide.
  - rewrite (bool_decide_false (k0 = k)) by done. repeat case_bool_decide; try done; set_solver.
Qed.

Lemma subsys_copy_of params ks keys found :
  stored params → stored keys →
  ∃ keys', subsys_copy params ks keys found =
             Ok (keys', found || existsb (λ k, bool_decide (is_Some (libnvmf_params_get params k))) ks) ∧
           stored keys' ∧ ∀ k, libnvmf_params_get keys' k = select ks params keys k.
Proof.
  intros Hp. revert keys found. induction ks as [|k0 ks IH]; intros keys found Hk; cbn [subsys_copy].
  { exists keys. by rewrite orb_false_r. }
  cbn [existsb]. destruct (libnvmf_params_get params k0) as [v0|] eqn:E.
  - pose proof (stored_key _ _ _ _ Hp E) as Hok. rewrite (params_set_put _ _ _ Hok).
    destruct (IH (put keys k0 v0) true (params_ok_put _ _ _ _ Hk Hok)) as (keys' & -> & Hs & Hg).
    exists keys'. split; [by rewrite bool_decide_true, orb_true_r by done|]. split; [done|].
    intros k. rewrite Hg. by apply select_cons_put.
  - destruct (IH keys found Hk) as (keys' & -> & Hs & Hg). exists keys'.
    split; [by rewrite bool_decide_false by (by intros [])|]. split; [done|].
    intros k. by rewrite Hg, select_cons_None.
Qed.

Lemma subsys_merge_of keys ks s :
  stored keys → stored (cs_keys s) → stored (cs_params s) → NoDup ks →
  match subsys_merge keys ks s with
  | Ok s' =>
      subsys_owner s' = subsys_owner s ∧ stored (cs_keys s') ∧ stored (cs_params s') ∧
      (∀ k, libnvmf_params_get (cs_keys s') k = select ks keys (cs_keys s) k) ∧
      (∀ k, libnvmf_params_get (cs_params s') k = select ks keys (cs_params s) k) ∧
      (∀ k v old, k ∈ ks → libnvmf_params_get keys k = Some v →
                  libnvmf_params_get (cs_keys s) k = Some old → old = v)
  | Err e =>
      e = EINVAL ∧ ∃ k v old, k ∈ ks ∧ libnvmf_params_get keys k = Some v ∧
                              libnvmf_params_get (cs_keys s) k = Some old ∧ old ≠ v
  end.
Proof.
  intros Hk. revert s. induction ks as [|k0 ks IH]; intros s Hsk Hsp Hnd; cbn [subsys_merge].
  { split_and!; try done. intros k v old Hin. by apply elem_of_nil in Hin. }
  apply NoDup_cons in Hnd as [Hn0 Hnd].
  destruct (libnvmf_params_get keys k0) as [v0|] eqn:E.
  - destruct (bool_decide (is_Some (libnvmf_params_get (cs_keys s) k0)) &&
              negb (shr_streq0 (libnvmf_params_get (cs_keys s) k0) (Some v0))) eqn:Ec.
    { destruct (libnvmf_params_get (cs_keys s) k0) as [old|] eqn:Eo; [|done].
      split; [done|]. exists k0, v0, old. split; [left|]. split; [done|]. split; [done|].
      by apply negb_true_iff, str_eqb_false in Ec. }
    pose proof (stored_key _ _ _ _ Hk E) as Hok. rewrite !(params_set_put _ _ _ Hok).
    set (s1 := ConfigSubsys _ _ _ _ _ _).
    assert (Hold : ∀ old, libnvmf_params_get (cs_keys s) k0 = Some old → old = v0).
    { intros old Eo. rewrite Eo in Ec. by apply negb_false_iff, str_eqb_spec in Ec. }
    assert (Hother : ∀ k, k ∈ ks → libnvmf_params_get (cs_keys s1) k = libnvmf_params_get (cs_keys s) k).
    { intros k Hin. unfold s1. cbn [cs_keys]. rewrite get_put, bool_decide_false; [done|]. by intros ->. }
    specialize (IH s1 (params_ok_put _ _ _ _ Hsk Hok) (params_ok_put _ _ _ _ Hsp Hok) Hnd).
    destruct (subsys_merge keys ks s1) as [s'|e].
    + destruct IH as (Ho & H1 & H2 & Hgk & Hgp & Hag). split; [done|]. split; [done|]. split; [done|].
      split; [intros k; rewrite Hgk; by apply select_cons_put|].
      split; [intros k; rewrite Hgp; by apply select_cons_put|].
      intros k v old [->|Hin]%elem_of_cons Hv Hs; [rewrite E in Hv; injection Hv as <-; by apply Hold|].
      eapply Hag; [done|done|]. by rewrite Hother.
    + destruct IH as (-> & k & v & old & Hin & Hv & Hs & Hne). split; [done|].
      exists k, v, old. rewrite Hother in Hs by done. split; [by right|done].
  - specialize (IH s Hsk Hsp Hnd). destruct (subsys_merge keys ks s) as [s'|e].
    + destruct IH as (Ho & H1 & H2 & Hgk & Hgp & Hag). split_and!; try done.
      * intros k. by rewrite Hgk, select_cons_None.
      * intros k. by rewrite Hgp, select_cons_None.
      * intros k v old [->|Hin]%elem_of_cons Hv Hs; [congruence|by eapply Hag].
    + destruct IH as (-> & k & v & old & Hin & ?). split; [done|]. exists k, v, old. split; [by right|done].
Qed.

Lemma subsys_ok_weaken top ts ts' s : ts ⊆ ts' → subsys_ok top ts s → subsys_ok top ts' s.
Proof.
  intros Hsub (H1 & H2 & H3 & t & Ht & H4). split_and!; [|done|done|].
  - intros k v (t' & Ht' & Hg)%H1. exists t'. split; [by apply Hsub|done].
  - exists t. split; [by apply Hsub|done].
Qed.

(** A section without secrets changes nothing. *)
Lemma subsys_inv_skip top ts t ss :
  subsys_inv top ts ss → (∀ o k v, ¬ gives t o k v) → subsys_inv top (ts ++ [t]) ss.
Proof.
  intros [He Hg] Hno. split.
  - intros s Hs. eapply subsys_ok_weaken; [|by apply He]. set_solver.
  - intros t' o k v [Ht' | ->%list_elem_of_singleton]%elem_of_app Hgv; [by eapply Hg|].
    by apply Hno in Hgv.
Qed.

Lemma subsys_inv_no_conflict top ts ss : subsys_inv top ts ss → ¬ secrets_conflict ts.
Proof.
  intros [_ Hg] (t1 & t2 & o & k & v1 & v2 & H1 & H2 & G1 & G2 & Hne).
  destruct (Hg _ _ _ _ H1 G1) as (s1 & F1 & K1). destruct (Hg _ _ _ _ H2 G2) as (s2 & F2 & K2).
  congruence.
Qed.

(** The secrets [subsys_copy] takes from a section. *)
Definition secrets_of (ep : libnvmf_conf_endpoint) (keys : libnvmf_params) : Prop :=
  ∀ k v, libnvmf_params_get keys k = Some v ↔
         k ∈ subsys_keys ∧ libnvmf_params_get (ep_params ep) k = Some v.

Lemma select_nil_secrets ep keys :
  (∀ k, libnvmf_params_get keys k = select subsys_keys (ep_params ep) [] k) → secrets_of ep keys.
Proof.
  intros H k v. rewrite H. unfold select. case_bool_decide as Hk; [|naive_solver].
  destruct (libnvmf_params_get (ep_params ep) k); naive_solver.
Qed.

Lemma subsys_inv_new top ts f sc ep ss keys params nqn :
  subsys_inv top ts ss → scope_ok top f sc → stored keys → stored params →
  section_owner (f, ep) = Some (cf_path f, ep_is_dc ep, nqn) → secrets_of ep keys →
  find_owner (cf_path f, ep_is_dc ep, nqn) ss = None →
  params_of (keys :: scope_stores top f (ep_is_dc ep)) params →
  subsys_inv top (ts ++ [(f, ep)])
    (ss ++ [ConfigSubsys (ep_is_dc ep) nqn (cf_path f) (ep_line ep) keys params]).
Proof.
  intros [He Hg] Hsc Hk Hp Ho Hsec Hnone Hof. set (s0 := ConfigSubsys _ _ _ _ _ _). split.
  - intros s [Hs | ->%list_elem_of_singleton]%elem_of_app.
    { eapply subsys_ok_weaken; [|by apply He]. set_solver. }
    split_and!; [|done|done|].
    + intros k v Hkv. exists (f, ep). split; [set_solver|]. split; [exact Ho|]. by apply Hsec.
    + exists (f, ep). split; [set_solver|]. done.
  - intros t o k v [Ht | ->%list_elem_of_singleton]%elem_of_app Hgv.
    + destruct (Hg _ _ _ _ Ht Hgv) as (s & Hf & Hs). exists s. by rewrite find_owner_app, Hf.
    + destruct Hgv as (Ho' & Hgv). rewrite Ho in Ho'. injection Ho' as <-.
      exists s0. split; [|by apply Hsec].
      rewrite find_owner_app, Hnone, find_owner_cons. by rewrite bool_decide_true.
Qed.

Lemma subsys_inv_merge top ts f ep ss ss' s s' keys o :
  subsys_inv top ts ss → section_owner (f, ep) = Some o → secrets_of ep keys →
  find_owner o ss = Some s →
  (∀ x, x ∈ ss' → x ∈ ss ∨ x = s') →
  (∀ o', find_owner o' ss' = if bool_decide (o = o') then Some s' else find_owner o' ss) →
  subsys_owner s' = subsys_owner s → stored (cs_keys s') → stored (cs_params s') →
  (∀ k, libnvmf_params_get (cs_keys s') k = select subsys_keys keys (cs_keys s) k) →
  (∀ k, libnvmf_params_get (cs_params s') k = select subsys_keys keys (cs_params s) k) →
  (∀ k v old, k ∈ subsys_keys → libnvmf_params_get keys k = Some v →
              libnvmf_params_get (cs_keys s) k = Some old → old = v) →
  subsys_inv top (ts ++ [(f, ep)]) ss'.
Proof.
  intros [He Hg] Ho Hsec Hfind Hin Hfind' Hid Hsk Hsp Hgk Hgp Hag.
  destruct (find_owner_Some _ _ _ Hfind) as [Hs Hso].
  destruct (He s Hs) as (HA & _ & _ & t0 & Ht0 & Hpath & HB).
  assert (Hsel : ∀ k q, select subsys_keys keys q k =
            match libnvmf_params_get keys k with Some v => Some v | None => libnvmf_params_get q k end).
  { intros k q. unfold select. case_bool_decide as Hk; [done|].
    destruct (libnvmf_params_get keys k) eqn:E; [|done]. apply Hsec in E as [? _]. done. }
  split.
  - intros x [Hx | ->]%Hin; [eapply subsys_ok_weaken; [|by apply He]; set_solver|].
    split_and!; [|done|done|].
    + intros k v. rewrite Hgk, Hsel. destruct (libnvmf_params_get keys k) as [w|] eqn:E.
      * intros [= ->]. exists (f, ep). split; [set_solver|]. rewrite Hid, Hso.
        split; [exact Ho|]. by apply Hsec.
      * intros (t & Ht & Hgv)%HA. exists t. split; [set_solver|]. by rewrite Hid.
    + exists t0. injection Hid as E1 E2 E3. rewrite E1, E2.
      split; [set_solver|]. split; [done|]. intros k. rewrite Hgp, cascade_cons, Hgk, !Hsel.
      destruct (libnvmf_params_get keys k); [done|]. rewrite (HB k). done.
  - intros t o' k v [Ht | ->%list_elem_of_singleton]%elem_of_app Hgv.
    + destruct (Hg _ _ _ _ Ht Hgv) as (s1 & Hf1 & Hk1). rewrite Hfind'.
      case_bool_decide as Eo; [subst o'|by exists s1]. exists s'. split; [done|].
      rewrite Hfind in Hf1. injection Hf1 as <-. rewrite Hgk, Hsel.
      destruct (libnvmf_params_get keys k) as [w|] eqn:E; [|done].
      f_equal. symmetry. eapply Hag; [apply Hgv|done|done].
    + destruct Hgv as (Ho' & Hgv). rewrite Ho in Ho'. injection Ho' as <-.
      exists s'. rewrite Hfind', bool_decide_true by done. split; [done|].
      rewrite Hgk, Hsel. by rewrite (proj2 (Hsec k v) Hgv).
Qed.

Lemma conflict_app_l ts ts' : secrets_conflict ts → secrets_conflict (ts ++ ts').
Proof.
  intros (t1 & t2 & o & k & v1 & v2 & H1 & H2 & H). exists t1, t2, o, k, v1, v2. set_solver.
Qed.

Lemma found_secrets ep keys (Hsec : secrets_of ep keys) :
  existsb (λ k, bool_decide (is_Some (libnvmf_params_get (ep_params ep) k))) subsys_keys = false →
  ∀ f o k v, ¬ gives (f, ep) o k v.
Proof.
  intros Hno f o k v (_ & Hk & Hv). apply not_true_iff_false in Hno. apply Hno, existsb_exists.
  exists k. split; [by apply list_elem_of_In|]. cbn in Hv. by rewrite Hv, bool_decide_true.
Qed.

Lemma subsys_keys_NoDup : NoDup subsys_keys.
Proof. by apply (bool_decide_unpack _); vm_compute. Qed.

(** One section: the invariant goes on, or it conflicts with an earlier one. *)
Lemma resolve_subsys_of top ts f sc ep ss :
  subsys_inv top ts ss → scope_ok top f sc → endpoint_ok ep →
  match resolve_subsys f sc ep ss with
  | Ok ss' => subsys_inv top (ts ++ [(f, ep)]) ss'
  | Err e => e = EINVAL ∧ secrets_conflict (ts ++ [(f, ep)])
  end.
Proof.
  intros Hinv Hsc Hep. unfold resolve_subsys.
  destruct (ep_nqn ep) as [nqn|] eqn:Hnqn.
  2:{ apply subsys_inv_skip; [done|]. intros o k v (Ho & _). unfold section_owner in Ho.
      cbn in Ho. by rewrite Hnqn in Ho. }
  assert (Hown : section_owner (f, ep) = if ep_is_dc ep && str_eqb nqn NVME_DISC_SUBSYS_NAME
            then None else Some (cf_path f, ep_is_dc ep, nqn)).
  { unfold section_owner. cbn. by rewrite Hnqn. }
  destruct (ep_is_dc ep && str_eqb nqn NVME_DISC_SUBSYS_NAME).
  { apply subsys_inv_skip; [done|]. intros o k v (Ho & _). congruence. }
  assert (Hsp : stored (ep_params ep)) by
    (eapply params_ok_weaken; [|apply Hep]; eauto with nvme).
  destruct (subsys_copy_of (ep_params ep) subsys_keys libnvmf_params_new false Hsp (params_ok_nil _))
    as (keys & -> & Hk & Hg).
  apply select_nil_secrets in Hg as Hsec. cbn [orb].
  destruct (existsb _ subsys_keys) eqn:Hfound.
  2:{ apply subsys_inv_skip; [done|]. by eapply found_secrets. }
  pose proof (subsys_update_of (cf_path f, ep_is_dc ep, nqn) (subsys_merge keys subsys_keys) ss) as Hup.
  change (libnvmf_config_subsys_find ss (cf_path f) (ep_is_dc ep) (Some nqn))
    with (find_owner (cf_path f, ep_is_dc ep, nqn) ss).
  destruct (find_owner _ ss) as [s|] eqn:Hfind.
  - destruct (find_owner_Some _ _ _ Hfind) as [Hs Hso].
    destruct (inv_entries _ _ _ Hinv s Hs) as (HA & H1 & H2 & _).
    specialize (Hup s eq_refl). cbn [fst snd] in Hup.
    pose proof (subsys_merge_of keys subsys_keys s Hk H1 H2 subsys_keys_NoDup) as Hm.
    destruct (subsys_merge keys subsys_keys s) as [s'|e].
    + destruct Hm as (Hid & Hm). destruct (Hup Hid) as (ss' & -> & Hin & Hf').
      by eapply subsys_inv_merge; try apply Hm.
    + rewrite Hup. destruct Hm as (-> & k & v & old & Hin & Hv & Hold & Hne). split; [done|].
      destruct (HA _ _ Hold) as (t & Ht & Hgt). rewrite Hso in Hgt.
      exists t, (f, ep), (cf_path f, ep_is_dc ep, nqn), k, old, v. split_and!; [set_solver..|done| |done].
      split; [done|]. by apply Hsec.
  - destruct (Hsc (ep_is_dc ep)) as [Hb Pb]. rewrite (dup_stored _ Hb).
    destruct (merge_of _ _ _ Hb Hk Pb) as (d & -> & Hd & Pd).
    by eapply subsys_inv_new.
Qed.

(** ** Whole files *)

Definition file_sections (f : libnvmf_conf_file) : list section :=
  (λ ep, (f, ep)) <$> cf_endpoints f.

(** The scope of a file as a persona. *)
Definition persona_of (top f : libnvmf_conf_file) (p : libnvmf_config_persona) : Prop :=
  cp_source p = cf_path f ∧ cp_hostnqn p = real_or_null (cf_hostnqn f) ∧
  params_of (scope_stores top f true) (cp_dc_params p) ∧
  params_of (scope_stores top f false) (cp_ioc_params p).

Definition all_paths (fs : list libnvmf_conf_file) := mjoin (file_paths <$> fs).
Definition all_sections (fs : list libnvmf_conf_file) := mjoin (file_sections <$> fs).

(** What resolving the files [fs] yields. *)
Record resolved_ok (top : libnvmf_conf_file) (fs : list libnvmf_conf_file) (r : resolved) : Prop :=
ResolvedOk {
  res_conns : Forall2 (conn_of top) (all_paths fs) (rs_conns r);
  res_subsystems : subsys_inv top (all_sections fs) (rs_subsystems r);
  res_personas : Forall2 (persona_of top) fs (rs_personas r);
}.

Lemma resolve_endpoints_of top ts f sc eps r :
  subsys_inv top ts (rs_subsystems r) → scope_ok top f sc → Forall endpoint_ok eps →
  match resolve_endpoints f sc eps r with
  | Ok r' =>
      ∃ cs, rs_conns r' = rs_conns r ++ cs ∧
            Forall2 (conn_of top) (mjoin ((λ ep, (λ p, (f, ep, p)) <$> ep_paths ep) <$> eps)) cs ∧
            subsys_inv top (ts ++ ((λ ep, (f, ep)) <$> eps)) (rs_subsystems r') ∧
            rs_personas r' = rs_personas r
  | Err e => e = EINVAL ∧ secrets_conflict (ts ++ ((λ ep, (f, ep)) <$> eps))
  end.
Proof.
  intros Hinv Hsc Heps. revert ts r Hinv.
  induction Heps as [|ep eps Hep _ IH]; intros ts r Hinv; cbn [resolve_endpoints].
  { exists []. rewrite !app_nil_r. split_and!; done. }
  pose proof (resolve_subsys_of top ts f sc ep _ Hinv Hsc Hep) as Hs.
  rewrite (fmap_cons (λ ep, (f, ep))), (cons_middle (f, ep)), (app_assoc ts).
  destruct (resolve_subsys f sc ep (rs_subsystems r)) as [ss|e]; cbn [mbind result_bind].
  2:{ split; [apply Hs|]. apply conflict_app_l, Hs. }
  destruct (resolve_paths_of top f sc ep (ep_paths ep) (rs_conns r) Hsc Hep (endpoint_paths _ Hep))
    as (cs1 & -> & Hcs1). cbn [mbind result_bind].
  specialize (IH (ts ++ [(f, ep)]) (Resolved (rs_conns r ++ cs1) ss (rs_personas r)) Hs).
  destruct (resolve_endpoints f sc eps _) as [r'|e]; [|done].
  destruct IH as (cs & Hc & Hcs & Hi & Hp). exists (cs1 ++ cs).
  cbn [rs_conns rs_personas] in Hc, Hp. rewrite app_assoc. split_and!; try done.
  rewrite fmap_cons. exact (Forall2_app Hcs1 Hcs).
Qed.

Lemma resolve_file_of top fs f (is_top : bool) r :
  file_ok top → file_ok f → (is_top = true → f = top) → resolved_ok top fs r →
  match resolve_file top f is_top r with
  | Ok r' => resolved_ok top (fs ++ [f]) r'
  | Err e => e = EINVAL ∧ secrets_conflict (all_sections (fs ++ [f]))
  end.
Proof.
  intros Ht Hf Htop [Hc Hs Hp]. unfold resolve_file, all_sections, all_paths.
  destruct (build_scope_of top f is_top Ht Hf Htop) as (sc & -> & Hsc). cbn [mbind result_bind].
  destruct (Hsc true) as [Hdc Pdc]. destruct (Hsc false) as [Hioc Pioc]. cbn in Hdc, Hioc.
  unfold resolve_persona. rewrite (dup_stored _ Hdc), (dup_stored _ Hioc). cbn [mbind result_bind].
  set (p := ConfigPersona _ _ _ _).
  pose proof (resolve_endpoints_of top (all_sections fs) f sc (cf_endpoints f)
    (Resolved (rs_conns r) (rs_subsystems r) (rs_personas r ++ [p])) Hs Hsc (file_endpoints _ Hf)) as H.
  assert (Happ : mjoin (file_sections <$> fs ++ [f]) =
                 all_sections fs ++ ((λ ep, (f, ep)) <$> cf_endpoints f)).
  { rewrite fmap_app, join_app. unfold all_sections. cbn. by rewrite app_nil_r. }
  rewrite Happ. destruct (resolve_endpoints f sc (cf_endpoints f) _) as [r'|e]; [|done].
  destruct H as (cs & Hcs & HF & Hi & Hpe). split.
  - unfold all_paths. rewrite fmap_app, join_app, Hcs. cbn. rewrite app_nil_r. by apply Forall2_app.
  - unfold all_sections at 1. by rewrite Happ.
  - rewrite Hpe. cbn. apply Forall2_app; [done|]. by repeat constructor.
Qed.

Lemma resolve_files_of top files fs r :
  file_ok top → Forall file_ok files → resolved_ok top fs r →
  match resolve_files top files r with
  | Ok r' => resolved_ok top (fs ++ files) r'
  | Err e => e = EINVAL ∧ secrets_conflict (all_sections (fs ++ files))
  end.
Proof.
  intros Ht Hfs. revert fs r. induction Hfs as [|f files Hf _ IH]; intros fs r Hr; cbn [resolve_files].
  { by rewrite app_nil_r. }
  pose proof (resolve_file_of top fs f false r Ht Hf ltac:(done) Hr) as H.
  rewrite (cons_middle f), (app_assoc fs).
  destruct (resolve_file top f false r) as [r'|e]; cbn [mbind result_bind]; [by apply IH|].
  destruct H as [-> Hc]. split; [done|]. unfold all_sections in *.
  rewrite fmap_app, join_app. by apply conflict_app_l.
Qed.
