(* ===== verification/ConfLoad.v ===== *)
(** * Properties of the resolved configuration

    [libnvmf_config_load] of [libnvme/src/nvme/config-resolve.c]: the rules on
    personas, the cascade of parameters and the secrets of subsystems, for any
    contents of the file system. *)

From Stdlib Require Import String.
From stdpp Require Import base list numbers sets.
From S2P Require Import Prelude.
From S2P Require Import CStr.
From S2P Require Import Parse.
From S2P Require Import Nqn.
From S2P Require Import Ini.
From S2P Require Import Conf.
From S2P Require Import ConfSpec.
From S2P Require Import ConfResolve.
From S2P Require Import ConfSecrets.

(** ** Specification: personas *)

Definition named (f : libnvmf_conf_file) : Prop := real_value (cf_hostnqn f) = true.

(** Two files with a [Host] section that are different hosts. *)
Definition distinct_hosts (f o : libnvmf_conf_file) : Prop :=
  cf_has_host f = true → cf_has_host o = true → named f → named o →
  cf_hostnqn f ≠ cf_hostnqn o ∧
  (real_value (cf_hostid f) = true → cf_hostid f ≠ cf_hostid o).

Record personas_ok (files : list libnvmf_conf_file) : Prop := PersonasOk {
  personas_named : ∀ i f, files !! S i = Some f → cf_has_host f = true → named f;
  personas_hostid : ∀ i f, files !! i = Some f → cf_has_host f = true → named f →
                    real_value (cf_hostid f) = true;
  personas_distinct : ∀ i j f o, files !! i = Some f → files !! j = Some o → (j < i)%nat →
                      distinct_hosts f o;
}.

(** ** Lemmas *)

Lemma streq0_spec a b : shr_streq0 a b = true ↔ a = b.
Proof.
  destruct a as [a|], b as [b|]; cbn; try done. rewrite str_eqb_spec. naive_solver.
Qed.

Lemma streq0_false a b : shr_streq0 a b = false ↔ a ≠ b.
Proof. rewrite <- not_true_iff_false, streq0_spec. done. Qed.

(** One step of [check_against]. *)
Lemma check_against_cons f o os :
  cf_has_host f = true →
  check_against f (o :: os) = Ok tt ↔ distinct_hosts f o ∧ check_against f os = Ok tt.
Proof.
  intros Hf. cbn [check_against]. unfold distinct_hosts, named.
  destruct (cf_has_host o) eqn:Ho; cbn [negb]; [|naive_solver].
  destruct (real_value (cf_hostnqn f)) eqn:Nf; cbn [andb];
    [|by rewrite !andb_false_r; cbn [andb]; naive_solver].
  destruct (real_value (cf_hostnqn o)) eqn:No; cbn [andb];
    [|by rewrite !andb_false_r; cbn [andb]; naive_solver].
  destruct (shr_streq0 (cf_hostnqn f) (cf_hostnqn o)) eqn:Eq.
  { apply streq0_spec in Eq. naive_solver. }
  apply streq0_false in Eq. cbn [negb]. rewrite !andb_true_r.
  destruct (real_value (cf_hostid f)) eqn:If; cbn [andb]; [|naive_solver].
  destruct (shr_streq0 (cf_hostid f) (cf_hostid o)) eqn:Ei.
  - apply streq0_spec in Ei. rewrite <- Ei, If. cbn [andb]. naive_solver.
  - apply streq0_false in Ei. rewrite andb_false_r. naive_solver.
Qed.

Lemma check_against_spec f os :
  cf_has_host f = true →
  check_against f os = Ok tt ↔ Forall (distinct_hosts f) os.
Proof.
  intros Hf. induction os as [|o os IH].
  - by split; [constructor|].
  - rewrite check_against_cons, IH, list.Forall_cons by done. done.
Qed.

(** What [check_personas] asks of [f] behind the files [before]. *)
Definition persona_step (before : list libnvmf_conf_file) (f : libnvmf_conf_file) : Prop :=
  cf_has_host f = true →
  (before ≠ [] → named f) ∧ (named f → real_value (cf_hostid f) = true) ∧
  Forall (distinct_hosts f) before.

Lemma check_personas_cons before f files :
  check_personas before (f :: files) = Ok tt ↔
  persona_step before f ∧ check_personas (before ++ [f]) files = Ok tt.
Proof.
  cbn [check_personas]. unfold persona_step, named.
  destruct (cf_has_host f) eqn:Hf; cbn [negb]; [|naive_solver].
  destruct ((0 <? length before)%nat && negb (real_value (cf_hostnqn f))) eqn:E1.
  { apply andb_true_iff in E1 as [El En%negb_true_iff]. rewrite En.
    split; [done|]. intros [H _]. destruct (H eq_refl) as [Hb _]. destruct before; [done|].
    by specialize (Hb ltac:(done)). }
  destruct (real_value (cf_hostnqn f) && negb (real_value (cf_hostid f))) eqn:E2.
  { apply andb_true_iff in E2 as [En Ei%negb_true_iff]. rewrite En, Ei.
    split; [done|]. intros [H _]. destruct (H eq_refl) as (_ & Hb & _). by specialize (Hb eq_refl). }
  pose proof (check_against_spec f before Hf) as Hca.
  destruct (check_against f before) as [[]|e]; cbn [mbind result_bind].
  - split; [|naive_solver]. intros Hc. split; [|done]. intros _. split; [|split; [|by apply Hca]].
    + intros Hb. destruct before; [done|]. cbn in E1. by apply negb_false_iff in E1.
    + intros Hn. rewrite Hn in E2. by apply negb_false_iff in E2.
  - split; [done|]. intros [H _]. destruct (H eq_refl) as (_ & _ & Hd). by apply Hca in Hd.
Qed.

Lemma check_personas_steps before files :
  check_personas before files = Ok tt ↔
  ∀ i f, files !! i = Some f → persona_step (before ++ take i files) f.
Proof.
  revert before. induction files as [|f files IH]; intros before.
  { split; [by intros _ i f|done]. }
  rewrite check_personas_cons, IH. split.
  - intros [H0 Hs] [|i] g; cbn; [intros [= <-]; by rewrite app_nil_r|].
    intros Hg. specialize (Hs i g Hg). by rewrite <- app_assoc in Hs.
  - intros H. split.
    + specialize (H 0%nat f eq_refl). by rewrite app_nil_r in H.
    + intros i g Hg. specialize (H (S i) g Hg). by rewrite <- app_assoc.
Qed.

Lemma check_personas_err before files e : check_personas before files = Err e → e = EINVAL.
Proof.
  revert before. induction files as [|f files IH]; intros before; [done|]. cbn [check_personas].
  destruct (cf_has_host f); [|apply IH]. cbn [negb].
  destruct (_ && _); [by intros [= <-]|]. destruct (_ && _); [by intros [= <-]|].
  destruct (check_against f before) as [[]|e1] eqn:E; cbn; [apply IH|]. intros [= <-].
  clear IH. induction before as [|o os IHo]; [done|]. cbn [check_against] in E.
  destruct (cf_has_host o); [|by apply IHo]. cbn [negb] in E.
  destruct (_ && _); [congruence|]. destruct (_ && _); [congruence|]. by apply IHo.
Qed.

Lemma personas_ok_steps files :
  (∀ i f, files !! i = Some f → persona_step (take i files) f) ↔ personas_ok files.
Proof.
  split.
  - intros H. split.
    + intros i f Hf Hh. destruct (H _ _ Hf Hh) as [Hb _]. apply Hb. by destruct files.
    + intros i f Hf Hh. apply (H _ _ Hf Hh).
    + intros i j f o Hf Ho Hji Hh. destruct (H _ _ Hf Hh) as (_ & _ & Hd).
      rewrite list.Forall_forall in Hd. apply (Hd o); [|done].
      eapply list_elem_of_lookup_2. by rewrite lookup_take_lt by done.
  - intros [H1 H2 H3] i f Hf Hh. split_and!.
    + intros Hne. destruct i; [done|]. by eapply H1.
    + by eapply H2.
    + apply Forall_lookup. intros j o Hj. apply lookup_take_Some in Hj as [Hj Hlt]. by eapply H3.
Qed.

Lemma load_files_ok alphasort readdir node path top dropins :
  load_files alphasort readdir node path = Ok (top, dropins) → Forall file_ok (top :: dropins).
Proof.
  unfold load_files. rewrite bind_Ok. intros (names & _ & H).
  apply bind_Ok in H as (t & Ht & H). apply bind_Ok in H as (ds & Hd & [= <- <-]).
  constructor.
  - destruct (libnvmf_conf_file_parse path (node path)) as [f|e] eqn:E.
    + injection Ht as <-. by eapply conf_file_parse_ok.
    + destruct e; try done. injection Ht as <-. apply conf_file_new_ok.
  - clear Ht. revert ds Hd. induction names as [|d names IH]; intros ds; cbn [parse_dropins].
    { intros [= <-]. constructor. }
    rewrite bind_Ok. intros (f & Hf & H). apply bind_Ok in H as (fs & Hfs & [= <-]).
    constructor; [by eapply conf_file_parse_ok|by apply IH].
Qed.

(** The outcome of a load, from the files read. *)
Definition load_outcome (top : libnvmf_conf_file) (dropins : list libnvmf_conf_file)
    (res : result libnvmf_config) : Prop :=
  match res with
  | Ok conf =>
      personas_ok (top :: dropins) ∧
      resolved_ok top (top :: dropins)
        (Resolved (conf_conns conf) (conf_subsystems conf) (conf_personas conf)) ∧
      params_of (scope_stores top top true) (conf_top_dc_params conf) ∧
      params_of (scope_stores top top false) (conf_top_ioc_params conf) ∧
      conf_top_source conf = cf_path top ∧
      conf_top_hostnqn conf = real_or_null (cf_hostnqn top) ∧
      conf_top_hostid conf = real_or_null (cf_hostid top) ∧
      conf_top_hostsymname conf = real_or_null (cf_hostsymname top)
  | Err e =>
      e = EINVAL ∧ (¬ personas_ok (top :: dropins) ∨ secrets_conflict (all_sections (top :: dropins)))
  end.

Lemma config_load_outcome alphasort readdir node path top dropins :
  load_files alphasort readdir node path = Ok (top, dropins) →
  load_outcome top dropins (libnvmf_config_load alphasort readdir node path).
Proof.
  intros Hl. unfold libnvmf_config_load. rewrite Hl. cbn [mbind result_bind].
  apply load_files_ok in Hl as Hok. apply list.Forall_cons in Hok as [Ht Hd].
  destruct (check_personas [] (top :: dropins)) as [[]|e] eqn:Hc; cbn [mbind result_bind].
  2:{ apply check_personas_err in Hc as He. subst e. split; [done|]. left.
      intros Hp. pose proof (proj2 (personas_ok_steps _) Hp) as Hst.
      by rewrite (proj2 (check_personas_steps [] _) Hst) in Hc. }
  pose proof (proj1 (personas_ok_steps _) (proj1 (check_personas_steps [] _) Hc)) as Hp.
  assert (H0 : resolved_ok top [] (Resolved [] [] [])).
  { split; try constructor; intros *; set_solver. }
  pose proof (resolve_file_of top [] top true _ Ht Ht ltac:(done) H0) as H1.
  destruct (resolve_file top top true _) as [r1|e]; cbn [mbind result_bind].
  2:{ destruct H1 as [-> Hconf]. split; [done|]. right. cbn in Hconf |- *.
      unfold all_sections in *. cbn in *. rewrite app_nil_r in Hconf. by apply conflict_app_l. }
  pose proof (resolve_files_of top dropins [top] r1 Ht Hd H1) as H2.
  destruct (resolve_files top dropins r1) as [r2|e]; cbn [mbind result_bind].
  2:{ destruct H2 as [-> Hconf]. split; [done|]. by right. }
  destruct (build_base_of top top true true Ht Ht ltac:(done)) as (b1 & -> & _ & P1).
  destruct (build_base_of top top true false Ht Ht ltac:(done)) as (b2 & -> & _ & P2).
  split_and!; try done. by destruct r2.
Qed.

(** *** Discovered controllers *)

Lemma real_or_null_Some o h : real_or_null o = Some h ↔ o = Some h ∧ real_value o = true.
Proof. unfold real_or_null. destruct (real_value o) eqn:E; naive_solver. Qed.

(** A host NQN names one file. *)
Lemma persona_unique files i j f g h :
  personas_ok files → Forall file_ok files → files !! i = Some f → files !! j = Some g →
  real_or_null (cf_hostnqn f) = Some h → real_or_null (cf_hostnqn g) = Some h → i = j.
Proof.
  intros Hp Hok Hf Hg [Ef Nf]%real_or_null_Some [Eg Ng]%real_or_null_Some.
  assert (Hh : ∀ k x, files !! k = Some x → cf_hostnqn x = Some h → cf_has_host x = true).
  { intros k x Hx Ex. pose proof (file_host _ (Forall_lookup_1 _ _ _ _ Hok Hx)) as H.
    destruct (cf_has_host x); [done|]. destruct H as [H _]. congruence. }
  destruct (lt_eq_lt_dec i j) as [[Hij | ?] | Hij]; [|done|].
  - destruct (personas_distinct _ Hp _ _ _ _ Hg Hf Hij) as [Hd _]; [by eauto..|]. congruence.
  - destruct (personas_distinct _ Hp _ _ _ _ Hf Hg Hij) as [Hd _]; [by eauto..|]. congruence.
Qed.

Lemma persona_find_of top files conf h i f :
  personas_ok files → Forall file_ok files →
  Forall2 (persona_of top) files (conf_personas conf) →
  files !! i = Some f → real_or_null (cf_hostnqn f) = Some h →
  ∃ p, persona_find conf (Some h) = Some p ∧ persona_of top f p.
Proof.
  intros Hp Hok HF Hf Hh. unfold persona_find.
  destruct (List.find _ (conf_personas conf)) as [p|] eqn:E.
  - apply List.find_some in E as [Hin He]. apply streq0_spec in He.
    apply list_elem_of_In, list_elem_of_lookup_1 in Hin as [j Hj].
    destruct (Forall2_lookup_r _ _ _ _ _ HF Hj) as (g & Hg & Hpg).
    assert (Hgh : real_or_null (cf_hostnqn g) = Some h) by (destruct Hpg as (_ & <- & _); done).
    pose proof (persona_unique _ _ _ _ _ _ Hp Hok Hf Hg Hh Hgh) as ->.
    rewrite Hf in Hg. injection Hg as <-. by exists p.
  - destruct (Forall2_lookup_l _ _ _ _ _ HF Hf) as (p & Hj & Hpf).
    apply list_elem_of_lookup_2, list_elem_of_In in Hj.
    apply (List.find_none _ _ E) in Hj. destruct Hpf as (_ & Hn & _).
    by rewrite Hn, Hh, (proj2 (streq0_spec _ _)) in Hj.
Qed.

Lemma all_sections_file files t : t ∈ all_sections files → t.1 ∈ files.
Proof.
  intros (l & Ht & (g & -> & Hg)%list_elem_of_fmap)%list_elem_of_join.
  unfold file_sections in Ht. apply list_elem_of_fmap in Ht as (ep & -> & _). done.
Qed.

Lemma path_unique files f g :
  NoDup (cf_path <$> files) → f ∈ files → g ∈ files → cf_path f = cf_path g → f = g.
Proof.
  intros Hnd [i Hi]%list_elem_of_lookup_1 [j Hj]%list_elem_of_lookup_1 Hp.
  assert (i = j) as ->; [|congruence].
  eapply NoDup_lookup; [exact Hnd|rewrite list_lookup_fmap, Hi; done|].
  rewrite list_lookup_fmap, Hj. cbn. by rewrite Hp.
Qed.

(** ** A sample file system *)

Module ConfSample.
Definition nl : list Z := [c_nl].
Definition lines (l : list string) : list Z := mjoin ((λ s, lit s ++ nl) <$> l).

Definition main_text : list Z := lines
  [ "# defaults"; "[I/O Controller Defaults]"; "queue-size = 64"; "tls = yes"; "";
    "[Subsystem]"; "nqn = nqn.2014-08.org.example:one"; "kxchap-secret = alpha";
    "ctrl-loss-tmo = 5";
    "controller = transport=tcp; traddr=192.0.2.1; queue-size=32";
    "controller = transport=tcp;traddr=192.0.2.2;trsvcid=4420" ]%string.

Definition dropin_text : list Z := lines
  [ "[Host]"; "hostnqn = nqn.2014-08.org.example:host";
    "hostid = 46ba5037-7ce5-41fa-9452-48477bf00080"; "tls = no";
    "[Discovery Controller]"; "persistent = force";
    "controller = transport=tcp;traddr=192.0.2.9" ]%string.

(** The name of the main file, and the directory of its drop-ins. *)
Definition main_path : list Z := lit "/etc/f.conf".
Definition file (text : list Z) : ini_node := IniReg (Z.of_nat (length text)) (Some text).
Definition node (path : list Z) : ini_node :=
  if str_eqb path main_path then file main_text
  else if str_eqb path (main_path ++ lit ".d/10.conf") then file dropin_text
  else IniMissing ENOENT.
Definition readdir (path : list Z) : result (list (list Z)) :=
  if str_eqb path (main_path ++ lit ".d") then Ok [lit "README"; lit "10.conf"; lit ".conf"]
  else Err ENOENT.

Definition files : libnvmf_conf_file * list libnvmf_conf_file :=
  match load_files id readdir node main_path with
  | Ok fs => fs
  | Err _ => (conf_file_new [], [])
  end.
Definition conf : result libnvmf_config := libnvmf_config_load id readdir node main_path.

Definition show (c : libnvmf_config_conn) : list Z * option (list Z) * option (list Z) :=
  (cc_traddr c, libnvmf_params_get (cc_params c) (lit "queue-size"),
   libnvmf_params_get (cc_params c) (lit "tls")).

Example sample_conns :
  (λ c, show <$> conf_conns c) <$> conf =
  Ok [ (lit "192.0.2.1", Some (lit "32"), Some (lit "yes"));
       (lit "192.0.2.2", Some (lit "64"), Some (lit "yes"));
       (lit "192.0.2.9", None, Some (lit "no")) ].
Proof. vm_compute. reflexivity. Qed.
End ConfSample.

(** ** Properties *)

(** C24: the connection list of a configuration.  Whatever the main file and
    its drop-ins hold, once they have been read, the load either fails with
    [EINVAL] because personas clash or a secret is ambiguous, or it yields one
    connection for each "controller =" line, in the order of the files and of
    their lines, with the address of the line, the identity of its file, and
    for every key the value of the most specific place that has one: the line,
    the section, [Host], the defaults of the file, the defaults of the main
    file; a discovery controller carries the last three for what it
    discovers. *)
Theorem config_load_cascade alphasort readdir node path top dropins :
  load_files alphasort readdir node path = Ok (top, dropins) →
  match libnvmf_config_load alphasort readdir node path with
  | Ok conf => Forall2 (conn_of top) (all_paths (top :: dropins)) (conf_conns conf)
  | Err e => e = EINVAL ∧
             (¬ personas_ok (top :: dropins) ∨ secrets_conflict (all_sections (top :: dropins)))
  end.
Proof.
  intros H%config_load_outcome.
  destruct (libnvmf_config_load alphasort readdir node path) as [conf|e]; [|exact H].
  destruct H as (_ & [Hc _ _] & _). exact Hc.
Qed.

Lemma config_load_cascade_witness :
  ∃ conf, libnvmf_config_load id ConfSample.readdir ConfSample.node ConfSample.main_path = Ok conf ∧
          Forall2 (conn_of ConfSample.files.1)
            (all_paths (ConfSample.files.1 :: ConfSample.files.2)) (conf_conns conf) ∧
          length (conf_conns conf) = 3%nat.
Proof.
  assert (Hf : load_files id ConfSample.readdir ConfSample.node ConfSample.main_path
               = Ok (ConfSample.files.1, ConfSample.files.2)) by (vm_compute; reflexivity).
  pose proof (config_load_cascade id ConfSample.readdir ConfSample.node ConfSample.main_path
    ConfSample.files.1 ConfSample.files.2 Hf) as H.
  assert (Hl : (λ c, length (conf_conns c)) <$>
               libnvmf_config_load id ConfSample.readdir ConfSample.node ConfSample.main_path
               = Ok 3%nat) by (vm_compute; reflexivity).
  clear Hf. revert H Hl. generalize ConfSample.files.1 ConfSample.files.2.
  generalize (libnvmf_config_load id ConfSample.readdir ConfSample.node ConfSample.main_path).
  intros [conf|e] top dropins H Hl; [|discriminate Hl]. exists conf.
  split; [reflexivity|]. split; [exact H|]. injection Hl as Hl. exact Hl.
Defined.

(** a configuration is accepted exactly when its personas are sound and its
    secrets unambiguous: every drop-in with a [Host] section names its host,
    every named host has a host identifier, no two files share a host NQN or
    identifier, and no two sections of a file for one NQN give a secret
    different values. *)
Theorem config_load_accepts alphasort readdir node path top dropins :
  load_files alphasort readdir node path = Ok (top, dropins) →
  is_ok (libnvmf_config_load alphasort readdir node path) = true ↔
  personas_ok (top :: dropins) ∧ ¬ secrets_conflict (all_sections (top :: dropins)).
Proof.
  intros H%config_load_outcome.
  destruct (libnvmf_config_load alphasort readdir node path) as [conf|e]; cbn [is_ok].
  - destruct H as (Hp & [_ Hs _] & _). split; [|done]. intros _. split; [done|].
    by eapply subsys_inv_no_conflict.
  - destruct H as [_ H]. split; [done|]. naive_solver.
Qed.

Lemma config_load_accepts_witness :
  personas_ok (ConfSample.files.1 :: ConfSample.files.2) ∧
  ¬ secrets_conflict (all_sections (ConfSample.files.1 :: ConfSample.files.2)).
Proof.
  assert (Hf : load_files id ConfSample.readdir ConfSample.node ConfSample.main_path
               = Ok (ConfSample.files.1, ConfSample.files.2)) by (vm_compute; reflexivity).
  refine (proj1 (config_load_accepts id ConfSample.readdir ConfSample.node ConfSample.main_path
    ConfSample.files.1 ConfSample.files.2 Hf) _).
  vm_compute. reflexivity.
Defined.

(** the parameters of a discovered controller.  In an accepted
    configuration a host NQN names one file, and a controller that discovery
    finds under that persona with some NQN gets: each secret that a section of
    the file for that NQN gives, and for every other key the scope of that file,
    [Host] over its defaults over those of the main file. *)
Theorem config_discovered_params alphasort readdir node path top dropins conf f h is_dc nqn :
  load_files alphasort readdir node path = Ok (top, dropins) →
  libnvmf_config_load alphasort readdir node path = Ok conf →
  NoDup (cf_path <$> top :: dropins) →
  f ∈ top :: dropins → real_or_null (cf_hostnqn f) = Some h →
  ∃ p, libnvmf_config_get_discovered_params conf (Some h) is_dc (Some nqn) = Ok p ∧
       (∀ t k v, t ∈ all_sections (top :: dropins) → gives t (cf_path f, is_dc, nqn) k v →
                 libnvmf_params_get p k = Some v) ∧
       (∀ k, (∀ t v, t ∈ all_sections (top :: dropins) → ¬ gives t (cf_path f, is_dc, nqn) k v) →
             libnvmf_params_get p k = cascade (scope_stores top f is_dc) k).
Proof.
  intros Hl Hc Hnd Hin Hh. apply load_files_ok in Hl as Hok.
  apply config_load_outcome in Hl. rewrite Hc in Hl.
  destruct Hl as (Hp & [_ [He Hg] Hpe] & _). cbn [rs_subsystems rs_personas] in He, Hg, Hpe.
  destruct (list_elem_of_lookup_1 _ _ Hin) as [i Hi].
  destruct (persona_find_of top _ conf h i f Hp Hok Hpe Hi Hh) as (p & Hfind & Hsrc & _ & Pdc & Pioc).
  unfold libnvmf_config_get_discovered_params. rewrite Hfind, Hsrc.
  change (libnvmf_config_subsys_find (conf_subsystems conf) (cf_path f) is_dc (Some nqn))
    with (find_owner (cf_path f, is_dc, nqn) (conf_subsystems conf)).
  destruct (find_owner _ (conf_subsystems conf)) as [s|] eqn:Ef.
  - destruct (find_owner_Some _ _ _ Ef) as [Hs Hso]. destruct (He s Hs) as (HA & _ & _ & t0 & Ht0 & Hpt & HB).
    injection Hso as Es Ed En. rewrite Ed in HB.
    assert (t0.1 = f) as Ht0f.
    { eapply path_unique; [exact Hnd|by apply all_sections_file|done|congruence]. }
    rewrite Ht0f in HB. eexists. split; [done|]. split.
    + intros t k v Ht Hgv. destruct (Hg t _ _ _ Ht Hgv) as (s' & Ef' & Hk).
      rewrite Ef in Ef'. injection Ef' as <-. by rewrite (HB k), cascade_cons, Hk.
    + intros k Hno. rewrite (HB k), cascade_cons.
      destruct (libnvmf_params_get (cs_keys s) k) as [v|] eqn:Ek; [|done].
      apply HA in Ek as (t & Ht & Hgv). destruct (Hno t v Ht).
      unfold subsys_owner in Hgv. by rewrite Es, Ed, En in Hgv.
  - eexists. split; [done|]. split.
    + intros t k v Ht Hgv. destruct (Hg t _ _ _ Ht Hgv) as (s' & Ef' & _). congruence.
    + intros k _. by destruct is_dc.
Qed.

Lemma config_discovered_params_witness :
  ∃ conf p,
    libnvmf_config_load id ConfSample.readdir ConfSample.node ConfSample.main_path = Ok conf ∧
    libnvmf_config_get_discovered_params conf (Some (lit "nqn.2014-08.org.example:host")) false
      (Some (lit "nqn.2014-08.org.example:two")) = Ok p ∧
    libnvmf_params_get p (lit "tls") = Some (lit "no").
Proof.
  assert (Hf : load_files id ConfSample.readdir ConfSample.node ConfSample.main_path
               = Ok (ConfSample.files.1, ConfSample.files.2)) by (vm_compute; reflexivity).
  destruct (libnvmf_config_load id ConfSample.readdir ConfSample.node ConfSample.main_path)
    as [conf|e] eqn:Hc.
  2:{ exfalso. assert (Hok : is_ok (libnvmf_config_load id ConfSample.readdir ConfSample.node
        ConfSample.main_path) = true) by (vm_compute; reflexivity). rewrite Hc in Hok. discriminate. }
  assert (HF : Forall (λ t, section_owner t ≠ Some
            (cf_path (default ConfSample.files.1 (head ConfSample.files.2)), false,
             lit "nqn.2014-08.org.example:two")) (all_sections (ConfSample.files.1 :: ConfSample.files.2))).
  { apply (bool_decide_unpack _). vm_compute. exact I. }
  destruct (config_discovered_params id ConfSample.readdir ConfSample.node ConfSample.main_path
    ConfSample.files.1 ConfSample.files.2 conf
    (default ConfSample.files.1 (head ConfSample.files.2)) (lit "nqn.2014-08.org.example:host") false
    (lit "nqn.2014-08.org.example:two") Hf Hc) as (p & Hp & _ & Hno).
  - apply (bool_decide_unpack _). vm_compute. reflexivity.
  - apply (list_elem_of_lookup_2 _ 1%nat). vm_compute. reflexivity.
  - vm_compute. reflexivity.
  - exists conf, p. split; [reflexivity|]. split; [exact Hp|]. rewrite Hno; [vm_compute; reflexivity|].
    intros t v Ht (Ho & _). rewrite list.Forall_forall in HF. exact (HF t Ht Ho).
Defined.
