(* ===== verification/ConfApply.v ===== *)
(** * Using the parameters of a connection: [libnvme/src/nvme/config.c], second part

    The parameters of a store as arguments of "nvme connect" and as the fields
    of a fabrics context.  A context is the part of the struct that
    [libnvmf_context_apply_params] writes.  [libnvmf_context_set_crypto] derives
    a key from a "pin:" secret with OpenSSL: that function is a parameter. *)

From Stdlib Require Import String.
From stdpp Require Import base list numbers sets.
From S2P Require Import Prelude.
From S2P Require Import CStr.
From S2P Require Import Parse.
From S2P Require Import Conf.
From S2P Require Import ConfSpec.

(** ** Parameters *)

Definition get_param_nonempty (params : libnvmf_params) (key : list Z) : option (list Z) :=
  match libnvmf_params_get params key with
  | Some value => if nonempty value then Some value else None
  | None => None
  end.

Definition tls_key_is_inline (params : libnvmf_params) : bool :=
  match get_param_nonempty params (lit "tls-key-source") with
  | None => true
  | Some src => str_eqb src (lit "inline")
  end.

(** ** Arguments of "nvme connect" *)

Definition emit_arg (key : list Z) (value : option (list Z)) : list Z :=
  lit "--" ++ key ++ match value with Some v => [c_eq] ++ v | None => [] end.

(** What [emit_param] hands to the callback, in order. *)
Definition emit_param (tls_key_inline : bool) (key value : list Z) (args : list (list Z)) :
    list (list Z) :=
  if negb (nonempty value) then args
  else
    match libnvmf_key_lookup key with
    | None => args
    | Some k =>
        if bool_decide (k_class k = LIBNVMF_KEY_DC_TUNABLE) then args
        else if str_eqb key (lit "tls-key-source") then args
        else if str_eqb key (lit "tls-key") && negb tls_key_inline then args
        else if bool_decide (k_type k = LIBNVMF_KEY_BOOL) then
          match shr_parse_bool value with
          | Ok true => args ++ [emit_arg key None]
          | _ => args
          end
        else args ++ [emit_arg key (Some value)]
    end.

(** The fields of the transport ID, in the order they are printed. *)
Record conn_tid := ConnTid {
  ct_transport : option (list Z);
  ct_traddr : option (list Z);
  ct_trsvcid : option (list Z);
  ct_subsysnqn : option (list Z);
  ct_host_traddr : option (list Z);
  ct_host_iface : option (list Z);
  ct_hostnqn : option (list Z);
  ct_hostid : option (list Z);
}.

Definition emit_tid_arg (key : string) (value : option (list Z)) : list (list Z) :=
  match value with Some v => [emit_arg (lit key) (Some v)] | None => [] end.

Definition libnvmf_connect_args_emit (tid : option conn_tid) (params : option libnvmf_params) :
    list (list Z) :=
  let args :=
    match tid with
    | None => []
    | Some t =>
        emit_tid_arg "transport" (ct_transport t) ++ emit_tid_arg "traddr" (ct_traddr t) ++
        emit_tid_arg "trsvcid" (ct_trsvcid t) ++ emit_tid_arg "nqn" (ct_subsysnqn t) ++
        emit_tid_arg "host-traddr" (ct_host_traddr t) ++ emit_tid_arg "host-iface" (ct_host_iface t) ++
        emit_tid_arg "hostnqn" (ct_hostnqn t) ++ emit_tid_arg "hostid" (ct_hostid t)
    end in
  match params with
  | None => args
  | Some p => libnvmf_params_for_each p (emit_param (tls_key_is_inline p)) args
  end.

(** ** The fabrics context *)

(** The [int] and [bool] fields of [struct libnvme_fabrics_config]. *)
Inductive cfg_int :=
| nr_io_queues | nr_write_queues | nr_poll_queues | queue_size | keep_alive_tmo
| reconnect_delay | ctrl_loss_tmo | fast_io_fail_tmo | tos.
Inductive cfg_bool :=
| duplicate_connect | disable_sqflow | hdr_digest | data_digest | cfg_tls | cfg_concat.

#[export] Instance cfg_int_eq_dec : EqDecision cfg_int.
Proof. solve_decision. Defined.
#[export] Instance cfg_bool_eq_dec : EqDecision cfg_bool.
Proof. solve_decision. Defined.

Record libnvmf_context := Context_ {
  fc_int : cfg_int → Z;
  fc_bool : cfg_bool → bool;
  fc_persistent : libnvmf_persistent;
  fc_hostkey : option (list Z);
  fc_ctrlkey : option (list Z);
  fc_keyring : option (list Z);
  fc_tls_key : option (list Z);
  fc_tls_key_identity : option (list Z);
}.

(** The conversion of a [long] to an [int]. *)
Definition long_to_int (v : Z) : Z := to_signed 32 (u32 v).

Definition set_int (x : cfg_int) (v : Z) (c : libnvmf_context) : libnvmf_context :=
  Context_ (λ y, if bool_decide (y = x) then v else fc_int c y) (fc_bool c) (fc_persistent c)
    (fc_hostkey c) (fc_ctrlkey c) (fc_keyring c) (fc_tls_key c) (fc_tls_key_identity c).
Definition set_bool (x : cfg_bool) (v : bool) (c : libnvmf_context) : libnvmf_context :=
  Context_ (fc_int c) (λ y, if bool_decide (y = x) then v else fc_bool c y) (fc_persistent c)
    (fc_hostkey c) (fc_ctrlkey c) (fc_keyring c) (fc_tls_key c) (fc_tls_key_identity c).
Definition set_persistent (v : libnvmf_persistent) (c : libnvmf_context) : libnvmf_context :=
  Context_ (fc_int c) (fc_bool c) v
    (fc_hostkey c) (fc_ctrlkey c) (fc_keyring c) (fc_tls_key c) (fc_tls_key_identity c).

(** The comparisons of [apply_param]: the field a key names. *)
Definition int_keys : list (list Z * cfg_int) := [
  (lit "nr-io-queues", nr_io_queues); (lit "nr-write-queues", nr_write_queues);
  (lit "nr-poll-queues", nr_poll_queues); (lit "queue-size", queue_size);
  (lit "keep-alive-tmo", keep_alive_tmo); (lit "reconnect-delay", reconnect_delay);
  (lit "ctrl-loss-tmo", ctrl_loss_tmo); (lit "fast-io-fail-tmo", fast_io_fail_tmo);
  (lit "tos", tos) ].
Definition bool_keys : list (list Z * cfg_bool) := [
  (lit "duplicate-connect", duplicate_connect); (lit "disable-sqflow", disable_sqflow);
  (lit "hdr-digest", hdr_digest); (lit "data-digest", data_digest); (lit "tls", cfg_tls);
  (lit "concat", cfg_concat) ].

Definition field_of {A} (table : list (list Z * A)) (key : list Z) : option A :=
  snd <$> List.find (λ e, str_eqb key e.1) table.

Definition libnvmf_context_set_persistent (fctx : libnvmf_context) (persistent : list Z) :
    result () * libnvmf_context :=
  match _libnvmf_persistent_from_str persistent with
  | Ok p => (Ok tt, set_persistent p fctx)
  | Err e => (Err e, fctx)
  end.

Definition apply_param (key value : list Z) (fctx : libnvmf_context) : libnvmf_context :=
  if negb (nonempty value) then fctx
  else
    match field_of int_keys key with
    | Some x => set_int x (long_to_int (st_val (strtoll 0 value))) fctx
    | None =>
        match field_of bool_keys key with
        | Some x =>
            match shr_parse_bool value with
            | Ok b => set_bool x b fctx
            | Err _ => fctx
            end
        | None =>
            if str_eqb key (lit "persistent") then (libnvmf_context_set_persistent fctx value).2
            else fctx
        end
    end.

Section apply.
(** The interchange form of the key derived from a "pin:" secret. *)
Variable pin_key : list Z → result (list Z).

Definition libnvmf_context_set_crypto (fctx : libnvmf_context)
    (hostkey ctrlkey keyring tls_key tls_key_identity : option (list Z)) :
    result () * libnvmf_context :=
  let c tls := Context_ (fc_int fctx) (fc_bool fctx) (fc_persistent fctx) hostkey ctrlkey keyring tls
                 tls_key_identity in
  match tls_key with
  | None => (Ok tt, c (fc_tls_key fctx))
  | Some key =>
      if str_eqb (take 4 key) (lit "pin:") then
        match pin_key key with
        | Err e => (Err e, c (fc_tls_key fctx))
        | Ok encoded => (Ok tt, c (Some encoded))
        end
      else (Ok tt, c (Some key))
  end.

Definition libnvmf_context_apply_params (fctx : libnvmf_context) (params : libnvmf_params) :
    result () * libnvmf_context :=
  let fctx := libnvmf_params_for_each params apply_param fctx in
  let get := get_param_nonempty params in
  let hostkey := get (lit "kxchap-secret") in
  let ctrlkey := get (lit "kxchap-ctrl-secret") in
  let keyring := get (lit "keyring") in
  let tls_key := if tls_key_is_inline params then get (lit "tls-key") else None in
  let tls_key_identity := get (lit "tls-key-identity") in
  if existsb (λ o, bool_decide (is_Some o)) [hostkey; ctrlkey; keyring; tls_key; tls_key_identity]
  then libnvmf_context_set_crypto fctx hostkey ctrlkey keyring tls_key tls_key_identity
  else (Ok tt, fctx).
End apply.

(** ** Lemmas *)

(** One field, written for one key only, after all parameters. *)
Lemma for_each_field {A} (π : libnvmf_context → A) (key : list Z) (g : list Z → A) :
  (∀ c value, value ≠ [] → (∃ cls, key_ok cls key value) → π (apply_param key value c) = g value) →
  (∀ c k value, k ≠ key → π (apply_param k value c) = π c) →
  ∀ p c, params_ok (cls_sect true) p →
  π (libnvmf_params_for_each p apply_param c) =
  match get_param_nonempty p key with Some v => g v | None => π c end.
Proof.
  intros Hkey Hother p. unfold libnvmf_params_for_each, get_param_nonempty.
  assert (Hskip : ∀ q c, key ∉ q.*1 →
            π (foldl (λ u e, apply_param e.1 e.2 u) c q) = π c).
  { induction q as [|[k v] q IH]; intros c Hn; cbn; [done|].
    rewrite IH by set_solver. apply Hother. set_solver. }
  induction p as [|[k v] p IH]; intros c [Hnd HF]; [done|].
  rewrite fmap_cons in Hnd. apply NoDup_cons in Hnd as [Hn Hnd]. apply list.Forall_cons in HF as [Hk HF].
  rewrite get_cons. cbn [foldl fst snd] in *. case_bool_decide as E; [subst k|].
  - rewrite Hskip by done. destruct v as [|x v]; [done|]. cbn [nonempty length Nat.eqb negb].
    apply Hkey; [done|eauto].
  - rewrite (IH _ (conj Hnd HF)). by rewrite Hother.
Qed.

Lemma long_to_int_id v : - 2 ^ 31 ≤ v ≤ 2 ^ 31 - 1 → long_to_int v = v.
Proof.
  intros H. unfold long_to_int, to_signed, u32.
  destruct (decide (0 ≤ v)).
  - rewrite Z.mod_small by lia. rewrite (proj2 (Z.ltb_lt _ _)) by lia. done.
  - replace (v mod 2 ^ 32) with (v + 2 ^ 32) by (apply Z.mod_unique with (-1); lia).
    rewrite (proj2 (Z.ltb_ge _ _)) by lia. lia.
Qed.

(** The keys of the tables are integers and booleans, each with its field. *)
Lemma int_key_entry key x :
  (key, x) ∈ int_keys →
  field_of int_keys key = Some x ∧ (∀ k, field_of int_keys k = Some x → k = key) ∧
  ∃ k, libnvmf_key_lookup key = Some k ∧ k_type k = LIBNVMF_KEY_INT.
Proof.
  unfold int_keys at 1. rewrite !elem_of_cons. intros H.
  assert (Hinj : ∀ k y, field_of int_keys k = Some y → (k, y) ∈ int_keys).
  { intros k y Hy. unfold field_of in Hy. destruct (List.find _ int_keys) as [[k' y']|] eqn:E; [|done].
    injection Hy as ->. apply List.find_some in E as [Hin Hk%str_eqb_spec]. cbn in Hk. subst k'.
    by apply list_elem_of_In. }
  repeat destruct H as [[= -> ->] | H]; try (by apply elem_of_nil in H);
    (split; [reflexivity|]); (split; [|eexists; split; reflexivity]);
    intros k Hk%Hinj; unfold int_keys in Hk; rewrite !elem_of_cons in Hk;
    repeat destruct Hk as [[= -> ] | Hk]; try done; by apply elem_of_nil in Hk.
Qed.

Lemma bool_key_entry key x :
  (key, x) ∈ bool_keys →
  field_of int_keys key = None ∧ field_of bool_keys key = Some x ∧
  (∀ k, field_of bool_keys k = Some x → k = key) ∧
  ∃ k, libnvmf_key_lookup key = Some k ∧ k_type k = LIBNVMF_KEY_BOOL.
Proof.
  unfold bool_keys at 1. rewrite !elem_of_cons. intros H.
  assert (Hinj : ∀ k y, field_of bool_keys k = Some y → (k, y) ∈ bool_keys).
  { intros k y Hy. unfold field_of in Hy. destruct (List.find _ bool_keys) as [[k' y']|] eqn:E; [|done].
    injection Hy as ->. apply List.find_some in E as [Hin Hk%str_eqb_spec]. cbn in Hk. subst k'.
    by apply list_elem_of_In. }
  repeat destruct H as [[= -> ->] | H]; try (by apply elem_of_nil in H);
    (split; [reflexivity|]); (split; [reflexivity|]); (split; [|eexists; split; reflexivity]);
    intros k Hk%Hinj; unfold bool_keys in Hk; rewrite !elem_of_cons in Hk;
    repeat destruct Hk as [[= -> ] | Hk]; try done; by apply elem_of_nil in Hk.
Qed.

(** A value of the store that is not empty has the type of its key. *)
Lemma typed_value cls key k value :
  key_ok cls key value → libnvmf_key_lookup key = Some k → value ≠ [] →
  match k_type k with
  | LIBNVMF_KEY_INT => check_int value = Ok tt
  | LIBNVMF_KEY_BOOL => is_ok (shr_parse_bool value) = true
  | LIBNVMF_KEY_STRENUM => k_strenum_validate k value = Ok tt
  | LIBNVMF_KEY_STRING => True
  end.
Proof.
  intros (k' & Hk' & _ & Hv) Hk Hne. rewrite Hk in Hk'. injection Hk' as <-.
  unfold libnvmf_key_check_value in Hv. rewrite (proj2 (nonempty_spec value)) in Hv by done.
  cbn [negb] in Hv. destruct (existsb _ value); [done|]. destruct (k_type k); try done.
  by destruct (shr_parse_bool value).
Qed.

Lemma check_int_range value :
  check_int value = Ok tt → - 2 ^ 31 ≤ st_val (strtoll 0 value) ≤ 2 ^ 31 - 1.
Proof.
  unfold check_int. destruct (_ || (2 ^ 31 - 1 <? _)) eqn:E; [done|]. intros _. to_prop. lia.
Qed.

(** ** Properties *)

(** applying the parameters of a connection to a fabrics context.  Each
    integer field ends with the number its parameter denotes, which fits the
    [int] although it is parsed as a [long]; each boolean field with the truth
    value its parameter denotes; a field whose parameter is unset or reset
    keeps its value. *)
Theorem context_apply_params_spec pin_key fctx p :
  params_ok (cls_sect true) p →
  (∀ key x, (key, x) ∈ int_keys →
     fc_int (libnvmf_context_apply_params pin_key fctx p).2 x =
     match get_param_nonempty p key with
     | Some v => st_val (strtoll 0 v)
     | None => fc_int fctx x
     end) ∧
  (∀ key x, (key, x) ∈ bool_keys →
     match get_param_nonempty p key with
     | Some v => shr_parse_bool v = Ok (fc_bool (libnvmf_context_apply_params pin_key fctx p).2 x)
     | None => fc_bool (libnvmf_context_apply_params pin_key fctx p).2 x = fc_bool fctx x
     end).
Proof.
  intros Hp.
  assert (Hcr : fc_int (libnvmf_context_apply_params pin_key fctx p).2 =
                fc_int (libnvmf_params_for_each p apply_param fctx) ∧
                fc_bool (libnvmf_context_apply_params pin_key fctx p).2 =
                fc_bool (libnvmf_params_for_each p apply_param fctx)).
  { unfold libnvmf_context_apply_params. destruct (existsb _ _); [|done].
    unfold libnvmf_context_set_crypto. repeat case_match; done. }
  destruct Hcr as [-> ->]. split.
  - intros key x (Hf & Huniq & k & Hk & Hty)%int_key_entry.
    apply (for_each_field (λ c, fc_int c x) key (λ v, st_val (strtoll 0 v))); [| |done].
    + intros c v Hv (cls & Hok). pose proof (typed_value _ _ _ _ Hok Hk Hv) as Ht. rewrite Hty in Ht.
      unfold apply_param. rewrite (proj2 (nonempty_spec v)), Hf by done. cbn.
      rewrite bool_decide_true by done. by apply long_to_int_id, check_int_range.
    + intros c k' v Hne. unfold apply_param. destruct (nonempty v); [|done]. cbn [negb].
      destruct (field_of int_keys k') as [y|] eqn:Ef.
      { cbn. rewrite bool_decide_false; [done|]. intros ->. by apply Hne, Huniq. }
      unfold libnvmf_context_set_persistent. repeat case_match; done.
  - intros key x (Hi & Hf & Huniq & k & Hk & Hty)%bool_key_entry.
    pose proof (for_each_field (λ c, fc_bool c x) key
      (λ v, match shr_parse_bool v with Ok b => b | Err _ => false end)) as H.
    cbn beta in H. rewrite (λ Ha Hb, H Ha Hb p fctx Hp); clear H.
    + destruct (get_param_nonempty p key) as [v|] eqn:Ev; [|done].
      unfold get_param_nonempty in Ev. destruct (libnvmf_params_get p key) as [w|] eqn:Eg; [|done].
      destruct (nonempty w) eqn:Ew; [|done]. injection Ev as ->. apply nonempty_spec in Ew.
      pose proof (typed_value _ _ _ _ (stored_key _ _ _ _ Hp Eg) Hk Ew) as Ht. rewrite Hty in Ht.
      by destruct (shr_parse_bool v).
    + intros c v Hv (cls & Hok). pose proof (typed_value _ _ _ _ Hok Hk Hv) as Ht. rewrite Hty in Ht.
      unfold apply_param. rewrite (proj2 (nonempty_spec v)), Hi, Hf by done. cbn [negb].
      destruct (shr_parse_bool v); [|done]. cbn. by rewrite bool_decide_true.
    + intros c k' v Hne. unfold apply_param. destruct (nonempty v); [|done]. cbn [negb].
      destruct (field_of int_keys k'); [done|].
      destruct (field_of bool_keys k') as [y|] eqn:Ef.
      { destruct (shr_parse_bool v); [|done]. cbn. rewrite bool_decide_false; [done|].
        intros ->. by apply Hne, Huniq. }
      unfold libnvmf_context_set_persistent. repeat case_match; done.
Qed.

Lemma context_apply_params_spec_witness :
  let fctx := Context_ (λ _, 0) (λ _, false) LIBNVMF_PERSISTENT_NO None None None None None in
  let p := [(lit "queue-size", lit "0x40"); (lit "tls", lit "yes")] in
  fc_int (libnvmf_context_apply_params (λ _, Err ENOMEM) fctx p).2 queue_size = 64.
Proof.
  intros fctx p.
  assert (Hp : params_ok (cls_sect true) p).
  { split; [apply (bool_decide_unpack _); vm_compute; exact I|].
    constructor; [|constructor; [|constructor]]; (eexists; split; [reflexivity|split; reflexivity]). }
  destruct (context_apply_params_spec (λ _, Err ENOMEM) fctx p Hp) as [H _].
  rewrite (H (lit "queue-size") queue_size); [vm_compute; reflexivity|].
  apply list_elem_of_In. right. right. right. left. reflexivity.
Defined.
