(* ===== verification/ConfEmit.v ===== *)
(** * Writing a configuration: [libnvme/src/nvme/config-emit.c], first part

    The emitter gathers connections by persona and prints each persona as a
    file.  What it does to the file system is in [ConfInstall].  Allocation
    succeeds; messages are left out. *)

From Stdlib Require Import String.
From stdpp Require Import base list numbers sets.
From S2P Require Import Prelude.
From S2P Require Import CStr.
From S2P Require Import Nqn.
From S2P Require Import Ini.
From S2P Require Import Conf.

Record emit_conn := EmitConn {
  ec_is_dc : bool;
  ec_transport : list Z;
  ec_traddr : list Z;
  ec_trsvcid : option (list Z);
  ec_subsysnqn : option (list Z);
  ec_host_traddr : option (list Z);
  ec_host_iface : option (list Z);
  ec_params : option libnvmf_params;
}.

Record emit_persona := EmitPersona {
  ep_hostnqn : option (list Z);
  ep_hostid : option (list Z);
  ep_hostsymname : option (list Z);
  ep_conns : list emit_conn;
}.

(** [struct libnvmf_config_emitter]: its personas, in order of appearance. *)
Abbreviation libnvmf_config_emitter := (list emit_persona) (only parsing).

Definition libnvmf_config_emit_new : libnvmf_config_emitter := [].

(** *** Personas *)

Definition persona_is (hostnqn hostid : option (list Z)) (p : emit_persona) : bool :=
  shr_streq0 (ep_hostnqn p) hostnqn && shr_streq0 (ep_hostid p) hostid.

(** The index of the persona, and the list with it. *)
Fixpoint persona_for (emitter : libnvmf_config_emitter) (hostnqn hostid : option (list Z)) :
    nat * libnvmf_config_emitter :=
  match emitter with
  | [] => (O, [EmitPersona hostnqn hostid None []])
  | p :: ps =>
      if persona_is hostnqn hostid p then (O, p :: ps)
      else let '(i, ps) := persona_for ps hostnqn hostid in (S i, p :: ps)
  end.

(** The loop of [check_persona_identity]. *)
Definition identity_clash (hostnqn hostid : option (list Z)) (p : emit_persona) : bool :=
  (bool_decide (is_Some hostnqn) && bool_decide (is_Some (ep_hostnqn p)) &&
   shr_streq0 hostnqn (ep_hostnqn p) && negb (shr_streq0 hostid (ep_hostid p))) ||
  (bool_decide (is_Some hostid) && bool_decide (is_Some (ep_hostid p)) &&
   shr_streq0 hostid (ep_hostid p) && negb (shr_streq0 hostnqn (ep_hostnqn p))).

Definition check_persona_identity (emitter : libnvmf_config_emitter)
    (hostnqn hostid : option (list Z)) : result () :=
  if bool_decide (is_Some hostid) && bool_decide (hostnqn = None) then Err EINVAL
  else if existsb (identity_clash hostnqn hostid) emitter then Err EINVAL
  else Ok tt.

Definition set_hostsymname (sym : list Z) (p : emit_persona) : emit_persona :=
  EmitPersona (ep_hostnqn p) (ep_hostid p) (Some sym) (ep_conns p).
Definition add_conn (c : emit_conn) (p : emit_persona) : emit_persona :=
  EmitPersona (ep_hostnqn p) (ep_hostid p) (ep_hostsymname p) (ep_conns p ++ [c]).

(** [if (params) conn->params = libnvmf_params_dup(params);]; [None] when the
    copy fails. *)
Definition dup_maybe (params : option libnvmf_params) : option (option libnvmf_params) :=
  match params with
  | None => Some None
  | Some p => Some <$> libnvmf_params_dup p
  end.

(** The end of [libnvmf_config_emit_add]: the connection joins persona [i]. *)
Definition emit_add_conn (ps : libnvmf_config_emitter) (i : nat) (is_dc : bool)
    (transport traddr : list Z) (trsvcid subsysnqn host_traddr host_iface : option (list Z))
    (params : option libnvmf_params) : result () * libnvmf_config_emitter :=
  match dup_maybe params with
  | None => (Err ENOMEM, ps)
  | Some params =>
      (Ok tt, alter (add_conn (EmitConn is_dc transport traddr trsvcid subsysnqn
                                 host_traddr host_iface params)) i ps)
  end.

Definition libnvmf_config_emit_add (emitter : libnvmf_config_emitter) (is_dc : bool)
    (transport traddr trsvcid subsysnqn host_traddr host_iface hostnqn hostid : option (list Z))
    (params : option libnvmf_params) (hostsymname : option (list Z)) :
    result () * libnvmf_config_emitter :=
  match transport, traddr with
  | Some transport, Some traddr =>
      if negb is_dc && bool_decide (subsysnqn = None) then (Err EINVAL, emitter)
      else
        match check_persona_identity emitter hostnqn hostid with
        | Err e => (Err e, emitter)
        | Ok _ =>
            let '(i, ps) := persona_for emitter hostnqn hostid in
            let persona_symname : option (list Z) := p ← ps !! i; ep_hostsymname p in
            let add ps := emit_add_conn ps i is_dc transport traddr trsvcid subsysnqn
                            host_traddr host_iface params in
            match hostsymname, persona_symname with
            | None, _ => add ps
            | Some sym, Some old => if str_eqb old sym then add ps else (Err EINVAL, ps)
            | Some sym, None => add (alter (set_hostsymname sym) i ps)
            end
        end
  | _, _ => (Err EINVAL, emitter)
  end.

(** *** Printing *)

(** What [fprintf] adds to the text. *)
Definition write_param (key value : list Z) (text : list Z) : list Z :=
  text ++
  (if nonempty value then key ++ lit " = " ++ value ++ [c_nl]
   else key ++ lit " =" ++ [c_nl]).

(** ["nqn = %s\n"] and the like. *)
Definition line_kv (key : string) (value : list Z) : list Z := lit key ++ lit " = " ++ value ++ [c_nl].
(** [";trsvcid=%s"] and the like. *)
Definition semi_kv (key : string) (value : list Z) : list Z :=
  [c_semi] ++ lit key ++ [c_eq] ++ value.

Definition write_conn (conn : emit_conn) : list Z :=
  (if ec_is_dc conn then
     lit "[Discovery Controller]" ++ [c_nl] ++
     (match ec_subsysnqn conn with
      | Some nqn => if negb (str_eqb nqn NVME_DISC_SUBSYS_NAME) then line_kv "nqn" nqn else []
      | None => []
      end)
   else
     lit "[Subsystem]" ++ [c_nl] ++ line_kv "nqn" (default (lit "(null)") (ec_subsysnqn conn))) ++
  (match ec_params conn with
   | Some p => libnvmf_params_for_each p write_param []
   | None => []
   end) ++
  lit "controller = transport=" ++ ec_transport conn ++ lit ";traddr=" ++ ec_traddr conn ++
  (match ec_trsvcid conn with Some v => semi_kv "trsvcid" v | None => [] end) ++
  (match ec_host_traddr conn with Some v => semi_kv "host-traddr" v | None => [] end) ++
  (match ec_host_iface conn with Some v => semi_kv "host-iface" v | None => [] end) ++
  [c_nl].

(** The loop of [write_persona]. *)
Fixpoint write_conns (first : bool) (conns : list emit_conn) : list Z :=
  match conns with
  | [] => []
  | c :: conns => (if first then [] else [c_nl]) ++ write_conn c ++ write_conns false conns
  end.

Definition write_persona (p : emit_persona) : list Z :=
  let host := bool_decide (is_Some (ep_hostnqn p)) || bool_decide (is_Some (ep_hostid p)) ||
              bool_decide (is_Some (ep_hostsymname p)) in
  (if host then
     lit "[Host]" ++ [c_nl] ++
     (match ep_hostnqn p with Some v => line_kv "hostnqn" v | None => [] end) ++
     (match ep_hostid p with Some v => line_kv "hostid" v | None => [] end) ++
     (match ep_hostsymname p with Some v => line_kv "hostsymname" v | None => [] end)
   else []) ++
  write_conns (negb host) (ep_conns p).
