(* ===== verification/ConfEmitSpec.v ===== *)
(** * Round trip of the configuration: printing a persona and parsing it

    A persona whose strings survive a line of text is read back as it was
    printed: [write_persona] of [ConfEmit] against [libnvmf_conf_file_parse]
    of [Conf]. *)

From Stdlib Require Import String.
From stdpp Require Import base list numbers sets.
From S2P Require Import Prelude.
From S2P Require Import CStr.
From S2P Require Import Parse.
From S2P Require Import Nqn.
From S2P Require Import Ini.
From S2P Require Import Conf.
From S2P Require Import ConfSpec.
From S2P Require Import ConfEmit.

(** ** Strings that survive *)

(** A value: no blanks around it, no line break in it. *)
Definition value_clean (v : list Z) : Prop := trimmed v ∧ (c_nl ∉ v).
(** A field of a "controller =" line: also not empty and without separator. *)
Definition field_clean (v : list Z) : Prop := value_clean v ∧ v ≠ [] ∧ (c_semi ∉ v).
Definition opt_clean (P : list Z → Prop) (o : option (list Z)) : Prop := ∀ v, o = Some v → P v.

(** The NQN that is printed: the well-known one is left out. *)
Definition printed_nqn (c : emit_conn) : option (list Z) :=
  match ec_subsysnqn c with
  | Some nqn => if ec_is_dc c && str_eqb nqn NVME_DISC_SUBSYS_NAME then None else Some nqn
  | None => None
  end.

Record conn_clean (c : emit_conn) : Prop := ConnClean {
  clean_transport : field_clean (ec_transport c);
  clean_traddr : field_clean (ec_traddr c);
  clean_trsvcid : opt_clean field_clean (ec_trsvcid c);
  clean_host_traddr : opt_clean field_clean (ec_host_traddr c);
  clean_host_iface : opt_clean field_clean (ec_host_iface c);
  clean_nqn : opt_clean (λ v, shr_nqn_valid (Some v) = true) (printed_nqn c);
  clean_subsys : ec_is_dc c = false → is_Some (ec_subsysnqn c);
  clean_params : params_ok (cls_sect (ec_is_dc c)) (default [] (ec_params c));
  clean_values : Forall (λ e, trimmed e.2) (default [] (ec_params c));
}.

Record persona_clean (p : emit_persona) : Prop := PersonaClean {
  clean_hostnqn : opt_clean (λ v, v = [] ∨ shr_nqn_valid (Some v) = true) (ep_hostnqn p);
  clean_hostid : opt_clean (λ v, v = [] ∨ shr_hostid_valid (Some v) = true) (ep_hostid p);
  clean_hostsymname : opt_clean value_clean (ep_hostsymname p);
  clean_conns : Forall conn_clean (ep_conns p);
}.

(** ** What is read back *)

(** The endpoint of a connection: one section with one path. *)
Definition endpoint_of (c : emit_conn) (e : libnvmf_conf_endpoint) : Prop :=
  ep_is_dc e = ec_is_dc c ∧ ep_nqn e = printed_nqn c ∧ ep_params e = default [] (ec_params c) ∧
  ∃ line, ep_paths e = [ConfPath (ec_transport c) (ec_traddr c) (ec_trsvcid c)
                          (ec_host_traddr c) (ec_host_iface c) [] line].

(** Does the persona have a [Host] section? *)
Definition has_identity (p : emit_persona) : bool :=
  bool_decide (is_Some (ep_hostnqn p)) || bool_decide (is_Some (ep_hostid p)) ||
  bool_decide (is_Some (ep_hostsymname p)).

Definition file_of (p : emit_persona) (path : list Z) (f : libnvmf_conf_file) : Prop :=
  cf_path f = path ∧ cf_dc_defaults f = None ∧ cf_ioc_defaults f = None ∧
  cf_has_host f = has_identity p ∧ cf_hostnqn f = ep_hostnqn p ∧ cf_hostid f = ep_hostid p ∧
  cf_hostsymname f = ep_hostsymname p ∧
  cf_host_params f = (if has_identity p then Some [] else None) ∧
  Forall2 endpoint_of (ep_conns p) (cf_endpoints f).

(** ** Lines *)

Definition unlines (ls : list (list Z)) : list Z := mjoin ((λ l, l ++ [c_nl]) <$> ls).

Definition kv_line (key value : list Z) : list Z :=
  if nonempty value then key ++ lit " = " ++ value else key ++ lit " =".

Definition opt_line (key : string) (o : option (list Z)) : list (list Z) :=
  match o with Some v => [lit key ++ lit " = " ++ v] | None => [] end.

(** The tokens of the "controller =" line behind the first. *)
Definition opt_tok (key : string) (o : option (list Z)) : list (list Z) :=
  match o with Some v => [lit key ++ c_eq :: v] | None => [] end.
Definition ctrl_toks (c : emit_conn) : list (list Z) :=
  (lit "traddr" ++ c_eq :: ec_traddr c) :: opt_tok "trsvcid" (ec_trsvcid c) ++
  opt_tok "host-traddr" (ec_host_traddr c) ++ opt_tok "host-iface" (ec_host_iface c).
(** Tokens behind their separators. *)
Definition semis (ts : list (list Z)) : list Z := mjoin ((λ t, c_semi :: t) <$> ts).
Definition ctrl_value (c : emit_conn) : list Z :=
  (lit "transport" ++ c_eq :: ec_transport c) ++ semis (ctrl_toks c).

Definition conn_lines (c : emit_conn) : list (list Z) :=
  (if ec_is_dc c then lit "[Discovery Controller]" else lit "[Subsystem]") ::
  opt_line "nqn" (printed_nqn c) ++
  ((λ e, kv_line e.1 e.2) <$> default [] (ec_params c)) ++
  [lit "controller = " ++ ctrl_value c].

Fixpoint conns_lines (first : bool) (cs : list emit_conn) : list (list Z) :=
  match cs with
  | [] => []
  | c :: cs => (if first then [] else [[]]) ++ conn_lines c ++ conns_lines false cs
  end.

Definition persona_lines (p : emit_persona) : list (list Z) :=
  (if has_identity p then
     lit "[Host]" :: opt_line "hostnqn" (ep_hostnqn p) ++ opt_line "hostid" (ep_hostid p) ++
     opt_line "hostsymname" (ep_hostsymname p)
   else []) ++ conns_lines (negb (has_identity p)) (ep_conns p).

Lemma unlines_app l k : unlines (l ++ k) = unlines l ++ unlines k.
Proof. unfold unlines. by rewrite fmap_app, join_app. Qed.

Lemma unlines_cons l k : unlines (l :: k) = l ++ c_nl :: unlines k.
Proof. unfold unlines. cbn. by rewrite <- app_assoc. Qed.

Lemma unlines_opt key o :
  unlines (opt_line key o) = match o with Some v => line_kv key v | None => [] end.
Proof.
  destruct o as [v|]; [|done]. unfold opt_line. rewrite unlines_cons. unfold line_kv.
  by rewrite <- !app_assoc.
Qed.

Lemma semis_app l k : semis (l ++ k) = semis l ++ semis k.
Proof. unfold semis. by rewrite fmap_app, join_app. Qed.

Lemma semis_cons t ts : semis (t :: ts) = c_semi :: t ++ semis ts.
Proof. done. Qed.

Lemma semis_opt key o :
  semis (opt_tok key o) = match o with Some v => semi_kv key v | None => [] end.
Proof.
  destruct o as [v|]; [|done]. unfold opt_tok. rewrite semis_cons. unfold semi_kv.
  change (semis []) with (@nil Z). by rewrite app_nil_r.
Qed.

Lemma write_params_lines p text :
  libnvmf_params_for_each p write_param text =
  text ++ unlines ((λ e, kv_line e.1 e.2) <$> p).
Proof.
  revert text. induction p as [|[k v] p IH]; intros text; [by rewrite app_nil_r|].
  rewrite fmap_cons, unlines_cons.
  change (libnvmf_params_for_each ((k, v) :: p) write_param text)
    with (libnvmf_params_for_each p write_param (write_param k v text)).
  rewrite IH. unfold write_param. rewrite <- app_assoc. f_equal. cbn [fst snd]. unfold kv_line.
  by destruct (nonempty v); rewrite <- !app_assoc.
Qed.

Lemma write_conn_lines c :
  (ec_is_dc c = false → is_Some (ec_subsysnqn c)) → write_conn c = unlines (conn_lines c).
Proof.
  intros Hs. unfold write_conn, conn_lines, printed_nqn.
  rewrite unlines_cons, !unlines_app, unlines_opt.
  assert (Hp : (match ec_params c with
                | Some p => libnvmf_params_for_each p write_param []
                | None => []
                end) = unlines ((λ e, kv_line e.1 e.2) <$> default [] (ec_params c))).
  { destruct (ec_params c) as [p|]; [|done]. apply write_params_lines. }
  rewrite Hp. clear Hp.
  assert (Ht : lit "controller = transport=" ++ ec_transport c ++ lit ";traddr=" ++ ec_traddr c ++
      (match ec_trsvcid c with Some v => semi_kv "trsvcid" v | None => [] end) ++
      (match ec_host_traddr c with Some v => semi_kv "host-traddr" v | None => [] end) ++
      (match ec_host_iface c with Some v => semi_kv "host-iface" v | None => [] end) ++ [c_nl] =
      unlines [lit "controller = " ++ ctrl_value c]).
  { rewrite unlines_cons. unfold ctrl_value, ctrl_toks. rewrite semis_cons, !semis_app, !semis_opt.
    change (lit "controller = transport=") with (lit "controller = " ++ lit "transport" ++ [c_eq]).
    change (lit ";traddr=") with (c_semi :: lit "traddr" ++ [c_eq]).
    change (unlines []) with (@nil Z).
    rewrite <- !app_assoc. cbn [app]. rewrite <- ?app_assoc. cbn [app]. rewrite <- ?app_assoc. done. }
  rewrite Ht. clear Ht. destruct (ec_is_dc c) eqn:Edc; cbn [andb].
  - destruct (ec_subsysnqn c) as [nqn|]; [destruct (str_eqb nqn _)|]; cbn [negb];
      rewrite <- !app_assoc; done.
  - destruct Hs as [nqn ->]; [done|]. cbn [default from_option]. rewrite <- !app_assoc. done.
Qed.

Lemma write_conns_lines first cs :
  Forall conn_clean cs → write_conns first cs = unlines (conns_lines first cs).
Proof.
  intros H. revert first. induction H as [|c cs Hc _ IH]; intros first; [done|].
  cbn [write_conns conns_lines]. rewrite !unlines_app, <- IH.
  rewrite write_conn_lines by apply Hc. by destruct first.
Qed.

Lemma write_persona_lines p : persona_clean p → write_persona p = unlines (persona_lines p).
Proof.
  intros Hp. unfold write_persona, persona_lines. fold (has_identity p).
  rewrite unlines_app, write_conns_lines by apply Hp. f_equal.
  destruct (has_identity p); [|done].
  rewrite unlines_cons, !unlines_app, !unlines_opt. by rewrite <- ?app_assoc.
Qed.

Lemma fields_unlines ls : Forall (λ l, c_nl ∉ l) ls → fields c_nl (unlines ls) = ls ++ [[]].
Proof.
  induction 1 as [|l ls Hl _ IH]; [done|]. rewrite unlines_cons, fields_sep by done. by rewrite IH.
Qed.

(** ** Cleanliness *)

(** A trimmed string that is not empty. *)
Definition solid (s : list Z) : Prop := trimmed s ∧ s ≠ [].

Lemma solid_ends x m y : solid x → solid y → solid (x ++ m ++ y).
Proof.
  intros [[Hx _] Nx] [[_ Hy] Ny]. split; [split|].
  - by rewrite char_at_app_l.
  - intros l c Heq. destruct y as [|d y _] using rev_ind; [done|].
    rewrite !app_assoc in Heq. apply app_inj_tail in Heq as [_ <-]. by eapply Hy.
  - by destruct x.
Qed.

Lemma solid_app x y : solid x → solid y → solid (x ++ y).
Proof. apply (solid_ends x [] y). Qed.

(** A key as the table has it. *)
Definition good_key (k : list Z) : Prop :=
  solid k ∧ (c_eq ∉ k) ∧ (c_nl ∉ k) ∧ char_at k 0 ≠ c_hash ∧ char_at k 0 ≠ c_lbrack.

Definition good_keyb (k : list Z) : bool :=
  nonempty k && forallb (λ c, negb (isspace c) && negb (c =? c_eq) && negb (c =? c_hash) &&
                              negb (c =? c_lbrack)) k.

Lemma no_space_trimmed s : forallb (λ c, negb (isspace c)) s = true → trimmed s.
Proof.
  rewrite forallb_forall. intros H. split.
  - destruct s as [|c s]; [done|]. apply negb_true_iff, H. by left.
  - intros l c ->. apply negb_true_iff, H. apply in_or_app. right. by left.
Qed.

Lemma good_keyb_spec k : good_keyb k = true → good_key k.
Proof.
  unfold good_keyb. intros [Hn%nonempty_spec Hf]%andb_true_iff.
  pose proof (proj1 (forallb_forall _ _) Hf) as Hall.
  assert (Hsp : forallb (λ c, negb (isspace c)) k = true).
  { apply forallb_forall. intros c Hc%Hall. by to_prop; apply negb_true_iff. }
  split_and!.
  - split; [by apply no_space_trimmed|done].
  - intros Hc%list_elem_of_In%Hall. by vm_compute in Hc.
  - intros Hc%list_elem_of_In%Hall. by vm_compute in Hc.
  - destruct k as [|c k]; [done|]. specialize (Hall c (or_introl eq_refl)).
    intros Hc. unfold char_at in Hc. cbn in Hc. subst c. by vm_compute in Hall.
  - destruct k as [|c k]; [done|]. specialize (Hall c (or_introl eq_refl)).
    intros Hc. unfold char_at in Hc. cbn in Hc. subst c. by vm_compute in Hall.
Qed.

Lemma table_keys_good : forallb (λ k, good_keyb (k_name k)) conf_keys = true.
Proof. vm_compute. reflexivity. Qed.

Lemma lookup_good key k : libnvmf_key_lookup key = Some k → good_key key.
Proof.
  unfold libnvmf_key_lookup. intros [Hin He%str_eqb_spec]%List.find_some. subst key.
  pose proof (proj1 (forallb_forall _ _) table_keys_good k Hin). by apply good_keyb_spec.
Qed.

Lemma solid_key_eq key : solid key → solid (key ++ lit " =").
Proof.
  intros Hk. apply (solid_ends key [c_space] [c_eq]); [done|]. split; [|done].
  by apply no_space_trimmed.
Qed.

(** A line "key = value" is read as such. *)
Lemma classify_line section key value :
  good_key key → trimmed value →
  ini_classify (shr_trim (key ++ lit " = " ++ value)) section =
  (Some (SHR_INI_KV section key value), section).
Proof.
  intros (Hs & He & _ & Hh & Hb) Hv.
  destruct (decide (value = [])) as [->|Hne].
  - assert (Hd : key ++ lit " = " ++ [] = (key ++ lit " =") ++ [c_space]) by by rewrite <- app_assoc.
    rewrite Hd, trim_pad_r; [|done|by apply solid_key_eq].
    apply (classify_kv section key [c_space] [] []); try done; apply Hs.
  - rewrite shr_trim_id by by (apply solid_ends).
    apply (classify_kv section key [c_space] [c_space] value); try done; apply Hs.
Qed.

Lemma classify_kv_line section key value :
  good_key key → trimmed value →
  ini_classify (shr_trim (kv_line key value)) section =
  (Some (SHR_INI_KV section key value), section).
Proof.
  intros Hk Hv. unfold kv_line. destruct (nonempty value) eqn:E; [by apply classify_line|].
  destruct value; [|done]. destruct Hk as (Hs & He & _ & Hh & Hb).
  rewrite shr_trim_id by by apply solid_key_eq.
  apply (classify_kv section key [c_space] [] []); try done; apply Hs.
Qed.

(** Identifiers have no blanks. *)
Definition visible (c : Z) : Prop := isspace c = false ∧ c ≠ c_semi.

Lemma visible_clean v : Forall visible v → value_clean v.
Proof.
  intros H. split.
  - apply no_space_trimmed, forallb_forall. intros c Hc%list_elem_of_In.
    rewrite list.Forall_forall in H. apply negb_true_iff. by apply H.
  - intros Hc. rewrite list.Forall_forall in H. by destruct (H _ Hc).
Qed.

Lemma nqn_valid_clean v : shr_nqn_valid (Some v) = true → value_clean v ∧ v ≠ [].
Proof.
  unfold shr_nqn_valid. destruct (_ <? _)%nat; [done|].
  destruct (has_prefix NQN_PREFIX v) eqn:Hp; [|done].
  destruct (charset_valid v) eqn:Hc; [|done]. intros _. split.
  - split; [apply no_space_trimmed|intros Hin];
      unfold charset_valid in Hc; rewrite forallb_forall in Hc.
    + apply forallb_forall. intros c Hin%Hc. to_prop. unfold isspace.
      apply negb_true_iff, orb_false_iff. split; [apply Z.eqb_neq|apply andb_false_iff; right];
        [|apply Z.leb_gt]; lia.
    + apply list_elem_of_In, Hc in Hin. done.
  - intros ->. by vm_compute in Hp.
Qed.

Definition uuid_char (c : Z) : bool := isxdigit c || (c =? c_minus).

Lemma xdigits_take n s :
  (n ≤ length s)%nat → forallb (λ i, isxdigit (char_at s i)) (seq 0 n) = true →
  Forall (λ c, uuid_char c = true) (take n s).
Proof.
  intros Hn H. rewrite forallb_forall in H. apply Forall_lookup. intros i c Hi.
  apply lookup_take_Some in Hi as [Hi Hlt]. specialize (H i). unfold char_at in H. rewrite Hi in H.
  unfold uuid_char. cbn in H. rewrite H; [done|]. apply in_seq. lia.
Qed.

Lemma uuid_loop_chars gs s :
  length s = (sum_list gs + length gs)%nat → uuid_loop gs false s = true →
  Forall (λ c, uuid_char c = true) s.
Proof.
  revert s. induction gs as [|n gs IH]; intros s Hl; cbn [uuid_loop].
  { by destruct s. }
  cbn [sum_list length] in Hl. destruct s as [|c s]; [cbn in Hl; lia|].
  change (char_at (c :: s) 0) with c. change (drop 1 (c :: s)) with (drop 0 s). rewrite drop_0.
  destruct (c =? c_minus) eqn:Ec; [|done]. cbn [negb andb].
  intros [Hd Hr]%andb_true_iff. cbn in Hl. constructor; [unfold uuid_char; by rewrite Ec, orb_true_r|].
  rewrite <- (take_drop n s). apply Forall_app. split; [apply xdigits_take; [lia|done]|].
  apply IH; [rewrite length_drop; lia|done].
Qed.

Lemma hostid_valid_clean v : shr_hostid_valid (Some v) = true → value_clean v.
Proof.
  unfold shr_hostid_valid. intros [H _]%andb_true_iff. unfold shr_uuid_str_valid in H.
  destruct (length v =? SHR_UUID_LEN_STRING - 1)%nat eqn:Hl; [|done]. apply Nat.eqb_eq in Hl.
  cbn [negb] in H. unfold uuid_groups in H. cbn [uuid_loop andb negb] in H.
  apply andb_true_iff in H as [Hd Hr].
  assert (HF : Forall (λ c, uuid_char c = true) v).
  { rewrite <- (take_drop 8 v). apply Forall_app. unfold SHR_UUID_LEN_STRING in Hl. split.
    - apply xdigits_take; [lia|done].
    - apply (uuid_loop_chars [4; 4; 4; 12]%nat); [rewrite length_drop; cbn; lia|exact Hr]. }
  apply visible_clean. eapply list.Forall_impl; [exact HF|]. intros c Hc.
  unfold uuid_char, isxdigit, isdigit in Hc. unfold visible, isspace.
  repeat match goal with H : (_ || _) = true |- _ => apply orb_true_iff in H as [H | H] end;
    to_prop; (split; [apply orb_false_iff; split; [apply Z.eqb_neq|apply andb_false_iff; right; apply Z.leb_gt]|]); lia.
Qed.

Lemma key_ok_nl cls key value : key_ok cls key value → c_nl ∉ value.
Proof.
  intros (k & _ & _ & Hv) Hin. unfold libnvmf_key_check_value in Hv.
  destruct (nonempty value) eqn:Hn; [|by destruct value; [set_solver|]]. cbn [negb] in Hv.
  rewrite (proj2 (existsb_exists _ _)) in Hv; [done|].
  exists c_nl. split; [by apply list_elem_of_In|done].
Qed.

Lemma key_ok_good cls key value : key_ok cls key value → good_key key.
Proof. intros (k & Hk & _). by eapply lookup_good. Qed.

Lemma not_elem_app (c : Z) x y : c ∉ x → c ∉ y → c ∉ x ++ y.
Proof. set_solver. Qed.
Lemma not_elem_lit (c : Z) (s : string) : existsb (Z.eqb c) (lit s) = false → c ∉ lit s.
Proof.
  intros H Hin%list_elem_of_In. apply not_true_iff_false in H. apply H, existsb_exists.
  exists c. split; [done|apply Z.eqb_refl].
Qed.

(** Proves that no character of a concatenation is a separator. *)
Ltac no_sep :=
  repeat first
    [ assumption | apply not_elem_lit; vm_compute; reflexivity
    | apply not_elem_app | apply not_elem_of_cons; split; [done|] | apply not_elem_of_nil ].

Lemma opt_line_nl key o :
  existsb (Z.eqb c_nl) (lit key) = false → opt_clean (λ v, c_nl ∉ v) o →
  Forall (λ l, c_nl ∉ l) (opt_line key o).
Proof.
  intros Hk Ho. destruct o as [v|]; [|constructor]. specialize (Ho v eq_refl). cbn beta in Ho.
  constructor; [|constructor]. apply not_elem_app; [by apply not_elem_lit|]. no_sep.
Qed.

Lemma opt_tok_sep c key o :
  existsb (Z.eqb c) (lit key) = false → c ≠ c_eq → opt_clean (λ v, c ∉ v) o →
  Forall (λ l, c ∉ l) (opt_tok key o).
Proof.
  intros Hk Hc Ho. destruct o as [v|]; [|constructor]. specialize (Ho v eq_refl). cbn beta in Ho.
  constructor; [|constructor]. apply not_elem_app; [by apply not_elem_lit|].
  apply not_elem_of_cons. by split.
Qed.

Lemma opt_clean_impl (P Q : list Z → Prop) o :
  opt_clean P o → (∀ v, P v → Q v) → opt_clean Q o.
Proof. intros H HPQ v Hv. by apply HPQ, H. Qed.

Lemma ctrl_toks_sep c (s : Z) :
  conn_clean c → s = c_nl ∨ s = c_semi →
  (s ∉ lit "transport" ++ c_eq :: ec_transport c) ∧ Forall (λ l, s ∉ l) (ctrl_toks c).
Proof.
  intros Hc Hs.
  assert (Hf : ∀ v, field_clean v → s ∉ v) by (intros v [[_ ?] [_ ?]]; by destruct Hs as [-> | ->]).
  destruct Hc as [H1 H2 H3 H4 H5 _ _ _ _].
  assert (He : s ≠ c_eq) by (destruct Hs as [-> | ->]; done).
  assert (Hl : ∀ k : string, existsb (Z.eqb c_nl) (lit k) = false →
               existsb (Z.eqb c_semi) (lit k) = false → existsb (Z.eqb s) (lit k) = false)
    by (intros k; by destruct Hs as [-> | ->]).
  split.
  - apply not_elem_app; [by apply not_elem_lit, Hl|]. apply not_elem_of_cons. auto.
  - unfold ctrl_toks. constructor.
    { apply not_elem_app; [by apply not_elem_lit, Hl|]. apply not_elem_of_cons. auto. }
    rewrite !Forall_app. split_and!; apply opt_tok_sep; try (by apply Hl); try done;
      by eapply opt_clean_impl.
Qed.

Lemma semis_nl ts : Forall (λ l, c_nl ∉ l) ts → c_nl ∉ semis ts.
Proof.
  induction 1 as [|t ts Ht _ IH]; [set_solver|]. rewrite semis_cons. no_sep.
Qed.

Lemma conn_lines_nl c : conn_clean c → Forall (λ l, c_nl ∉ l) (conn_lines c).
Proof.
  intros Hc. unfold conn_lines. constructor; [destruct (ec_is_dc c); no_sep|].
  rewrite !Forall_app. split_and!.
  - apply opt_line_nl; [done|]. eapply opt_clean_impl; [apply Hc|].
    intros v Hv%nqn_valid_clean. apply Hv.
  - apply Forall_fmap. eapply list.Forall_impl; [apply (clean_params _ Hc)|].
    intros [k v] Hkv. cbn in *. pose proof (key_ok_nl _ _ _ Hkv).
    destruct (key_ok_good _ _ _ Hkv) as (_ & _ & ? & _).
    unfold compose, kv_line. cbn. destruct (nonempty v); no_sep.
  - constructor; [|constructor].
    destruct (ctrl_toks_sep c c_nl Hc (or_introl eq_refl)) as [H1 H2%semis_nl].
    unfold ctrl_value. no_sep; set_solver.
Qed.

Lemma conns_lines_nl first cs :
  Forall conn_clean cs → Forall (λ l, c_nl ∉ l) (conns_lines first cs).
Proof.
  intros H. revert first. induction H as [|c cs Hc _ IH]; intros first; [constructor|].
  cbn [conns_lines]. rewrite !Forall_app. split_and!; [|by apply conn_lines_nl|apply IH].
  destruct first; repeat constructor. set_solver.
Qed.

Lemma persona_lines_nl p : persona_clean p → Forall (λ l, c_nl ∉ l) (persona_lines p).
Proof.
  intros [H1 H2 H3 H4]. unfold persona_lines. apply Forall_app. split; [|by apply conns_lines_nl].
  destruct (has_identity p); constructor; [no_sep|]. rewrite !Forall_app.
  split_and!; (apply opt_line_nl; [done|]); (eapply opt_clean_impl; [eassumption|]);
    intros v Hv; [| |by apply Hv].
  - destruct Hv as [-> | Hv%nqn_valid_clean]; [set_solver|apply Hv].
  - destruct Hv as [-> | Hv%hostid_valid_clean]; [set_solver|apply Hv].
Qed.

(** ** Reading the lines back *)

Lemma parse_step ps p sec line pc ev sec' pc' :
  ini_classify (shr_trim p) sec = (Some ev, sec') →
  conf_event ev (u32 (line + 1)) pc = (Ok tt, pc') →
  parse_lines conf_event (p :: ps) sec line pc = parse_lines conf_event ps sec' (u32 (line + 1)) pc'.
Proof. intros Hc He. cbn [parse_lines]. unfold ini_line. by rewrite Hc, He. Qed.

(** The parser inside the last endpoint [e] of [eps ++ [e]]. *)
Definition in_ep (f : libnvmf_conf_file) (eps : list libnvmf_conf_endpoint)
    (e : libnvmf_conf_endpoint) : conf_parse :=
  ConfParse (set_endpoints (eps ++ [e]) f) (if ep_is_dc e then SECT_DC else SECT_SUBSYS)
    (Some (length eps)) None.

Lemma alter_last {A} (g : A → A) (l : list A) x : alter g (length l) (l ++ [x]) = l ++ [g x].
Proof. induction l as [|y l IH]; [done|]. cbn. f_equal. exact IH. Qed.

Lemma on_ep_in f eps e g :
  ep_is_dc (g e) = ep_is_dc e → on_ep g (in_ep f eps e) = in_ep f eps (g e).
Proof.
  intros H. unfold on_ep, in_ep. cbn [pc_ep pc_f set_f cf_endpoints set_endpoints].
  rewrite alter_last, H. done.
Qed.

Lemma in_ep_sect f eps e :
  in_endpoint (pc_sect (in_ep f eps e)) = true ∧
  bool_decide (pc_sect (in_ep f eps e) = SECT_IGNORED) = false ∧
  bool_decide (pc_sect (in_ep f eps e) = SECT_NONE) = false ∧
  bool_decide (pc_sect (in_ep f eps e) = SECT_DC) = ep_is_dc e.
Proof. unfold in_ep. cbn. by destruct (ep_is_dc e). Qed.

Lemma section_step ps sec line f eps s ep err (is_dc : bool) :
  cf_endpoints f = eps →
  ∃ sec', parse_lines conf_event
            ((if is_dc then lit "[Discovery Controller]" else lit "[Subsystem]") :: ps) sec line
            (ConfParse f s ep err) =
          parse_lines conf_event ps sec' (u32 (line + 1))
            (ConfParse (set_endpoints (eps ++ [ConfEndpoint is_dc None [] [] (u32 (line + 1))]) f)
               (if is_dc then SECT_DC else SECT_SUBSYS) (Some (length eps)) err).
Proof.
  intros <-. destruct is_dc; eexists; (eapply parse_step; [reflexivity|reflexivity]).
Qed.

Lemma nqn_step ps sec line f eps e nqn :
  shr_nqn_valid (Some nqn) = true →
  parse_lines conf_event ((lit "nqn" ++ lit " = " ++ nqn) :: ps) sec line (in_ep f eps e) =
  parse_lines conf_event ps sec (u32 (line + 1)) (in_ep f eps (set_ep_nqn nqn e)).
Proof.
  intros Hv. destruct (nqn_valid_clean _ Hv) as [[Ht _] Hne].
  eapply parse_step; [apply classify_line; [by eapply lookup_good|done]|].
  cbn [conf_event]. unfold conf_kv. destruct (in_ep_sect f eps e) as (H1 & H2 & H3 & _).
  rewrite H2, H3. change (libnvmf_key_lookup (lit "nqn"))
    with (Some (plain_key (lit "nqn") LIBNVMF_KEY_STRING LIBNVMF_KEY_NQN)). cbn [k_class plain_key].
  rewrite H1, (proj2 (nonempty_spec nqn)), Hv by done. cbn [negb]. by rewrite on_ep_in.
Qed.

Lemma ep_params_in f eps e :
  (i ← pc_ep (in_ep f eps e); ep_params <$> cf_endpoints (pc_f (in_ep f eps e)) !! i) =
  Some (ep_params e).
Proof. unfold in_ep. cbn. by rewrite list_lookup_middle. Qed.

Lemma param_step ps sec line f eps e key value :
  key_ok (cls_sect (ep_is_dc e)) key value → trimmed value → key ∉ (ep_params e).*1 →
  parse_lines conf_event (kv_line key value :: ps) sec line (in_ep f eps e) =
  parse_lines conf_event ps sec (u32 (line + 1))
    (in_ep f eps (set_ep_params (ep_params e ++ [(key, value)]) e)).
Proof.
  intros Hk Ht Hn. pose proof (key_ok_good _ _ _ Hk) as Hg.
  eapply parse_step; [by apply classify_kv_line|].
  assert (Hst : key_ok (cls_sect true) key value) by (eapply key_ok_weaken, Hk; eauto with nvme).
  assert (Hset : set_dest (in_ep f eps e) key value =
                 (Ok tt, in_ep f eps (set_ep_params (ep_params e ++ [(key, value)]) e))).
  { pose proof (ep_params_in f eps e) as Hp. unfold set_dest.
    assert (Hput : libnvmf_params_set (ep_params e) key value = Ok (ep_params e ++ [(key, value)])).
    { rewrite (params_set_put _ _ _ Hst). unfold put. by rewrite (proj2 (kv_find_None _ _) Hn). }
    rewrite <- (on_ep_in f eps e (set_ep_params (ep_params e ++ [(key, value)]))) by done.
    unfold in_ep at 1. cbn [pc_sect]. destruct (ep_is_dc e); rewrite Hp, Hput; done. }
  destruct Hk as (k & Hk & Hc & Hv). cbn [conf_event]. unfold conf_kv.
  destruct (in_ep_sect f eps e) as (H1 & H2 & H3 & H4). rewrite H2, H3, Hk, Hv, H4, Hset.
  cbn [is_ok negb]. destruct (k_class k), (ep_is_dc e); done.
Qed.

(** *** The "controller =" line *)

Lemma fields_semis s ts :
  (c_semi ∉ s) → Forall (λ t, c_semi ∉ t) ts → fields c_semi (s ++ semis ts) = s :: ts.
Proof.
  intros Hs H. revert s Hs. induction H as [|t ts Ht _ IH]; intros s Hs.
  { change (semis []) with (@nil Z). rewrite app_nil_r. by apply fields_single. }
  rewrite semis_cons, fields_sep by done. by rewrite IH.
Qed.

Lemma path_token_field s a p key v write :
  addr_slot a key = Some (None, write) → good_keyb key = true → field_clean v →
  path_token s a p (key ++ c_eq :: v) = Ok (write v, p).
Proof.
  intros Hslot (Hs & He & _)%good_keyb_spec [[Hv _] [Hne _]]. unfold path_token.
  rewrite shr_trim_id by by (apply (solid_ends key [c_eq] v)).
  replace (nonempty (key ++ c_eq :: v)) with true by by destruct key.
  rewrite (proj2 (split_char_spec _ _ key v)) by done.
  rewrite (proj2 (nonempty_spec key)) by apply Hs. cbn [negb].
  rewrite (shr_trim_id key), (shr_trim_id v), Hslot by (done || apply Hs).
  by rewrite (proj2 (nonempty_spec v)).
Qed.

Lemma path_tokens_opt s a p (key : string) o ts write :
  addr_slot a (lit key) = Some (None, write) → good_keyb (lit key) = true → opt_clean field_clean o →
  path_tokens s a p (opt_tok key o ++ ts) =
  path_tokens s (match o with Some v => write v | None => a end) p ts.
Proof.
  intros Hs Hk Ho. destruct o as [v|]; [|done]. cbn [opt_tok app path_tokens].
  by rewrite (path_token_field s a p _ v write Hs Hk (Ho v eq_refl)).
Qed.

Lemma ctrl_value_tokens s c :
  conn_clean c →
  path_tokens s (PathAddr None None None None None) libnvmf_params_new (strtok c_semi (ctrl_value c)) =
  Ok (PathAddr (Some (ec_transport c)) (Some (ec_traddr c)) (ec_trsvcid c) (ec_host_traddr c)
        (ec_host_iface c), []).
Proof.
  intros Hc. destruct (ctrl_toks_sep c c_semi Hc (or_intror eq_refl)) as [H1 H2].
  unfold strtok, ctrl_value. rewrite fields_semis by done.
  assert (Hne : Forall (λ t, nonempty t = true)
                  ((lit "transport" ++ c_eq :: ec_transport c) :: ctrl_toks c)).
  { unfold ctrl_toks. constructor; [done|]. constructor; [done|].
    rewrite !Forall_app. split_and!; [destruct (ec_trsvcid c)|destruct (ec_host_traddr c)|
      destruct (ec_host_iface c)]; repeat constructor. }
  assert (Hf : ∀ l : list (list Z), Forall (λ t, nonempty t = true) l → List.filter nonempty l = l).
  { induction 1 as [|t l Ht _ IH]; [done|]. cbn. by rewrite Ht, IH. }
  rewrite Hf by done. destruct Hc as [C1 C2 C3 C4 C5 _ _ _ _]. unfold ctrl_toks. cbn [path_tokens].
  rewrite (path_token_field s _ _ (lit "transport") (ec_transport c)
             (λ v, PathAddr (Some v) None None None None)); [|reflexivity|reflexivity|done].
  rewrite (path_token_field s _ _ (lit "traddr") (ec_traddr c)
             (λ v, PathAddr (Some (ec_transport c)) (Some v) None None None));
    [|reflexivity|reflexivity|done].
  erewrite path_tokens_opt; [|reflexivity|reflexivity|done].
  destruct (ec_trsvcid c); (erewrite path_tokens_opt; [|reflexivity|reflexivity|done]);
    destruct (ec_host_traddr c);
    rewrite <- (app_nil_r (opt_tok "host-iface" (ec_host_iface c)));
    (erewrite path_tokens_opt; [|reflexivity|reflexivity|done]);
    by destruct (ec_host_iface c).
Qed.

Lemma ctrl_value_solid c : conn_clean c → solid (ctrl_value c).
Proof.
  intros Hc. destruct Hc as [[[H1 _] [N1 _]] [[H2 _] [N2 _]] H3 H4 H5 _ _ _ _].
  assert (Hl : ∀ k : string, good_keyb (lit k) = true → solid (lit k)) by (intros k Hk; by apply good_keyb_spec).
  assert (Htok : ∀ (k : string) o ts, good_keyb (lit k) = true → opt_clean field_clean o →
            ∀ x, solid x → (∀ y, solid y → solid (y ++ semis ts)) → solid (x ++ semis (opt_tok k o ++ ts))).
  { intros k o ts Hk Ho x Hx Hts. rewrite semis_app, semis_opt. destruct o as [v|]; [|by apply Hts].
    destruct (Ho v eq_refl) as [[Hv _] [Nv _]]. rewrite app_assoc. apply Hts.
    unfold semi_kv.
    replace (x ++ [c_semi] ++ lit k ++ [c_eq] ++ v) with (x ++ ([c_semi] ++ lit k ++ [c_eq]) ++ v)
      by by rewrite <- !app_assoc.
    by apply solid_ends. }
  unfold ctrl_value, ctrl_toks. rewrite semis_cons.
  replace ((lit "transport" ++ c_eq :: ec_transport c) ++ c_semi :: (lit "traddr" ++ c_eq :: ec_traddr c) ++
           semis (opt_tok "trsvcid" (ec_trsvcid c) ++ opt_tok "host-traddr" (ec_host_traddr c) ++
                  opt_tok "host-iface" (ec_host_iface c)))
    with ((lit "transport" ++ (c_eq :: ec_transport c ++ c_semi :: lit "traddr" ++ [c_eq]) ++ ec_traddr c) ++
           semis (opt_tok "trsvcid" (ec_trsvcid c) ++ opt_tok "host-traddr" (ec_host_traddr c) ++
                  opt_tok "host-iface" (ec_host_iface c) ++ [])).
  - apply Htok; [done|done|apply solid_ends; [by apply Hl|done]|]. intros y Hy.
    apply Htok; [done|done|done|]. intros z Hz. apply Htok; [done|done|done|].
    intros w Hw. change (semis []) with (@nil Z). by rewrite app_nil_r.
  - rewrite app_nil_r, <- !app_assoc. cbn [app]. rewrite <- !app_assoc. cbn [app].
    rewrite <- !app_assoc. done.
Qed.

Lemma ctrl_step ps sec line f eps e c :
  conn_clean c →
  parse_lines conf_event ((lit "controller = " ++ ctrl_value c) :: ps) sec line (in_ep f eps e) =
  parse_lines conf_event ps sec (u32 (line + 1))
    (in_ep f eps (add_ep_path (ConfPath (ec_transport c) (ec_traddr c) (ec_trsvcid c)
       (ec_host_traddr c) (ec_host_iface c) [] (u32 (line + 1))) e)).
Proof.
  intros Hc. destruct (ctrl_value_solid c Hc) as [Ht _].
  change (lit "controller = ") with (lit "controller" ++ lit " = "). rewrite <- app_assoc.
  eapply parse_step; [apply classify_line; [by eapply lookup_good|done]|].
  cbn [conf_event]. unfold conf_kv. destruct (in_ep_sect f eps e) as (H1 & H2 & H3 & _).
  rewrite H2, H3. change (libnvmf_key_lookup (lit "controller"))
    with (Some (plain_key (lit "controller") LIBNVMF_KEY_STRING LIBNVMF_KEY_CONTROLLER)).
  cbn [k_class plain_key]. rewrite H1. unfold add_path. rewrite ctrl_value_tokens by done.
  cbn [a_transport a_traddr a_trsvcid a_host_traddr a_host_iface]. by rewrite on_ep_in.
Qed.

Lemma params_steps ps sec line f eps e rest :
  Forall (λ kv, key_ok (cls_sect (ep_is_dc e)) kv.1 kv.2) rest → Forall (λ kv, trimmed kv.2) rest →
  NoDup (ep_params e ++ rest).*1 →
  ∃ line', parse_lines conf_event (((λ kv, kv_line kv.1 kv.2) <$> rest) ++ ps) sec line (in_ep f eps e) =
           parse_lines conf_event ps sec line' (in_ep f eps (set_ep_params (ep_params e ++ rest) e)).
Proof.
  revert line e. induction rest as [|[k v] rest IH]; intros line e Hk Ht Hn.
  { exists line. rewrite app_nil_r. by destruct e. }
  apply list.Forall_cons in Hk as [Hk0 Hk], Ht as [Ht0 Ht]. rewrite fmap_cons. cbn [app fst snd].
  assert (Hin : k ∉ (ep_params e).*1).
  { rewrite fmap_app in Hn. apply NoDup_app in Hn as (_ & Hd & _). intros Hin.
    apply (Hd k Hin). left. }
  rewrite param_step by done.
  destruct (IH (u32 (line + 1)) (set_ep_params (ep_params e ++ [(k, v)]) e)) as [line' ->]; [done|done| |].
  { cbn [set_ep_params ep_params]. by rewrite <- app_assoc. }
  exists line'. cbn [set_ep_params ep_params]. by rewrite <- app_assoc.
Qed.

Lemma conn_steps ps sec line f s ep c :
  conn_clean c →
  ∃ sec' line' e,
    parse_lines conf_event (conn_lines c ++ ps) sec line (ConfParse f s ep None) =
    parse_lines conf_event ps sec' line' (in_ep f (cf_endpoints f) e) ∧ endpoint_of c e.
Proof.
  intros Hc. unfold conn_lines. cbn [app].
  destruct (section_step ((opt_line "nqn" (printed_nqn c) ++
      ((λ e, kv_line e.1 e.2) <$> default [] (ec_params c)) ++
      [lit "controller = " ++ ctrl_value c]) ++ ps) sec line f _ s ep None (ec_is_dc c) eq_refl)
    as [sec1 ->].
  set (e0 := ConfEndpoint (ec_is_dc c) None [] [] (u32 (line + 1))).
  change (ConfParse (set_endpoints (cf_endpoints f ++ [e0]) f)
    (if ec_is_dc c then SECT_DC else SECT_SUBSYS) (Some (length (cf_endpoints f))) None)
    with (in_ep f (cf_endpoints f) e0).
  rewrite <- !app_assoc.
  set (e1 := match printed_nqn c with Some nqn => set_ep_nqn nqn e0 | None => e0 end).
  assert (∃ line1, ∀ tl, parse_lines conf_event (opt_line "nqn" (printed_nqn c) ++ tl) sec1
            (u32 (line + 1)) (in_ep f (cf_endpoints f) e0) =
          parse_lines conf_event tl sec1 line1 (in_ep f (cf_endpoints f) e1)) as [line1 Hl1].
  { unfold e1, opt_line. pose proof (clean_nqn _ Hc) as Hq. destruct (printed_nqn c) as [nqn|].
    - eexists. intros tl. cbn [app]. by rewrite nqn_step by by apply Hq.
    - by eexists. }
  rewrite Hl1. assert (Hdc : ep_is_dc e1 = ec_is_dc c) by (unfold e1; by destruct (printed_nqn c)).
  assert (Hp1 : ep_params e1 = []) by (unfold e1; by destruct (printed_nqn c)).
  destruct (params_steps ([lit "controller = " ++ ctrl_value c] ++ ps) sec1 line1 f (cf_endpoints f) e1
    (default [] (ec_params c))) as [line2 ->].
  { rewrite Hdc. apply (clean_params _ Hc). }
  { apply (clean_values _ Hc). }
  { rewrite Hp1. apply (clean_params _ Hc). }
  cbn [app]. rewrite ctrl_step by done. eexists _, _, _. split; [done|].
  unfold endpoint_of. rewrite Hp1. cbn. split_and!; [done| |done|].
  - unfold e1. by destruct (printed_nqn c).
  - exists (u32 (line2 + 1)). unfold e1. by destruct (printed_nqn c).
Qed.

Lemma blank_step ps sec line pc :
  parse_lines conf_event ([] :: ps) sec line pc = parse_lines conf_event ps sec (u32 (line + 1)) pc.
Proof. done. Qed.

Lemma conns_steps ps cs first sec line f s ep :
  Forall conn_clean cs →
  ∃ sec' line' s' ep' es,
    parse_lines conf_event (conns_lines first cs ++ ps) sec line (ConfParse f s ep None) =
    parse_lines conf_event ps sec' line'
      (ConfParse (set_endpoints (cf_endpoints f ++ es) f) s' ep' None) ∧
    Forall2 endpoint_of cs es.
Proof.
  intros H. revert first sec line f s ep.
  induction H as [|c cs Hc _ IH]; intros first sec line f s ep.
  { exists sec, line, s, ep, []. split; [|constructor]. rewrite app_nil_r. by destruct f. }
  cbn [conns_lines]. rewrite <- !app_assoc.
  assert (∃ line1, parse_lines conf_event ((if first then [] else [[]]) ++ conn_lines c ++
            conns_lines false cs ++ ps) sec line (ConfParse f s ep None) =
          parse_lines conf_event (conn_lines c ++ conns_lines false cs ++ ps) sec line1
            (ConfParse f s ep None)) as [line1 ->].
  { destruct first; [by exists line|]. eexists. cbn [app]. apply blank_step. }
  destruct (conn_steps (conns_lines false cs ++ ps) sec line1 f s ep c Hc)
    as (sec2 & line2 & e & -> & He).
  unfold in_ep. destruct (IH false sec2 line2 (set_endpoints (cf_endpoints f ++ [e]) f)
    (if ep_is_dc e then SECT_DC else SECT_SUBSYS) (Some (length (cf_endpoints f))))
    as (sec3 & line3 & s3 & ep3 & es & -> & Hes).
  exists sec3, line3, s3, ep3, (e :: es). split; [|by constructor].
  cbn [set_endpoints cf_endpoints]. by rewrite <- app_assoc.
Qed.

(** *** The [Host] section *)

(** A line of the section sets an identity. *)
Lemma host_step ps sec line f ep key value f' :
  trimmed value → good_key (lit key) →
  conf_kv (ConfParse f SECT_HOST ep None) (lit key) value (u32 (line + 1)) =
    (Ok tt, ConfParse f' SECT_HOST ep None) →
  parse_lines conf_event ((lit key ++ lit " = " ++ value) :: ps) sec line (ConfParse f SECT_HOST ep None) =
  parse_lines conf_event ps sec (u32 (line + 1)) (ConfParse f' SECT_HOST ep None).
Proof. intros Hv Hk He. eapply parse_step; [by apply classify_line|exact He]. Qed.

Lemma identity_trimmed (valid : option (list Z) → bool) v :
  (∀ w, valid (Some w) = true → value_clean w) →
  v = [] ∨ valid (Some v) = true → trimmed v ∧ nonempty v && negb (valid (Some v)) = false.
Proof.
  intros Hw [-> | Hv]; [split; [|done]; split; [done|by intros [] ?]|]. split; [by apply Hw|]. rewrite Hv. apply andb_false_r.
Qed.

Lemma host_steps ps sec line f ep p :
  persona_clean p → cf_hostnqn f = None → cf_hostid f = None → cf_hostsymname f = None →
  ∃ line', parse_lines conf_event (opt_line "hostnqn" (ep_hostnqn p) ++
             opt_line "hostid" (ep_hostid p) ++ opt_line "hostsymname" (ep_hostsymname p) ++ ps) sec line
             (ConfParse f SECT_HOST ep None) =
           parse_lines conf_event ps sec line'
             (ConfParse (set_host_identity (ep_hostnqn p) (ep_hostid p) (ep_hostsymname p) f)
                SECT_HOST ep None).
Proof.
  intros [H1 H2 H3 _] E1 E2 E3.
  assert (G1 : good_key (lit "hostnqn")) by by eapply lookup_good.
  assert (G2 : good_key (lit "hostid")) by by eapply lookup_good.
  assert (G3 : good_key (lit "hostsymname")) by by eapply lookup_good.
  set (f1 := set_host_identity (ep_hostnqn p) None None f).
  set (f2 := set_host_identity (ep_hostnqn p) (ep_hostid p) None f).
  assert (Hf0 : f = set_host_identity None None None f) by (destruct f; cbn in *; by subst).
  assert (∃ l1, ∀ tl, parse_lines conf_event (opt_line "hostnqn" (ep_hostnqn p) ++ tl) sec line
            (ConfParse f SECT_HOST ep None) =
          parse_lines conf_event tl sec l1 (ConfParse f1 SECT_HOST ep None)) as [l1 ->].
  { unfold f1, opt_line. destruct (ep_hostnqn p) as [v|]; [|exists line; by rewrite <- Hf0].
    destruct (identity_trimmed shr_nqn_valid v) as [Ht Hv]; [intros w Hw; by apply nqn_valid_clean|
      by apply H1|].
    eexists. intros tl. cbn [app]. apply host_step; [done|done|].
    change (conf_kv (ConfParse f SECT_HOST ep None) (lit "hostnqn") v (u32 (line + 1))) with
      (if nonempty v && negb (shr_nqn_valid (Some v)) then conf_err (ConfParse f SECT_HOST ep None)
       else (Ok tt, ConfParse (set_host_identity (Some v) (cf_hostid f) (cf_hostsymname f) f)
                      SECT_HOST ep None)).
    by rewrite Hv, E2, E3. }
  assert (∃ l2, ∀ tl, parse_lines conf_event (opt_line "hostid" (ep_hostid p) ++ tl) sec l1
            (ConfParse f1 SECT_HOST ep None) =
          parse_lines conf_event tl sec l2 (ConfParse f2 SECT_HOST ep None)) as [l2 ->].
  { unfold f1, f2, opt_line. destruct (ep_hostid p) as [v|]; [|by exists l1].
    destruct (identity_trimmed shr_hostid_valid v) as [Ht Hv]; [apply hostid_valid_clean|by apply H2|].
    eexists. intros tl. cbn [app]. apply host_step; [done|done|].
    change (conf_kv (ConfParse ?g SECT_HOST ep None) (lit "hostid") v (u32 (l1 + 1))) with
      (if nonempty v && negb (shr_hostid_valid (Some v)) then conf_err (ConfParse g SECT_HOST ep None)
       else (Ok tt, ConfParse (set_host_identity (cf_hostnqn g) (Some v) (cf_hostsymname g) g)
                      SECT_HOST ep None)).
    by rewrite Hv. }
  unfold f2, opt_line. destruct (ep_hostsymname p) as [v|]; [|by exists l2].
  eexists. cbn [app]. apply host_step; [by apply H3|done|]. done.
Qed.

Lemma persona_steps p path :
  persona_clean p →
  ∃ f s ep, parse_lines conf_event (persona_lines p ++ [[]]) None 0
              (ConfParse (conf_file_new path) SECT_NONE None None) = (Ok tt, ConfParse f s ep None) ∧
            file_of p path f.
Proof.
  intros Hp. pose proof (clean_conns _ Hp) as Hcs. unfold persona_lines. rewrite <- app_assoc.
  destruct (has_identity p) eqn:Hid.
  - rewrite <- !app_comm_cons, <- !app_assoc.
    rewrite (parse_step _ (lit "[Host]") None 0 _ (SHR_INI_SECTION (lit "Host")) (Some (lit "Host"))
      (ConfParse (set_host libnvmf_params_new (conf_file_new path)) SECT_HOST None None));
      [|reflexivity|reflexivity].
    destruct (host_steps (conns_lines (negb true) (ep_conns p) ++ [[]]) (Some (lit "Host")) (u32 (0 + 1))
      (set_host libnvmf_params_new (conf_file_new path)) None p Hp eq_refl eq_refl eq_refl) as [l1 ->].
    destruct (conns_steps [[]] (ep_conns p) (negb true) (Some (lit "Host")) l1
      (set_host_identity (ep_hostnqn p) (ep_hostid p) (ep_hostsymname p)
         (set_host libnvmf_params_new (conf_file_new path))) SECT_HOST None Hcs)
      as (sec & l2 & s & ep & es & -> & Hes).
    eexists _, s, ep. split; [done|]. unfold file_of. rewrite Hid. by split_and!.
  - destruct (conns_steps [[]] (ep_conns p) (negb false) None 0 (conf_file_new path) SECT_NONE None Hcs)
      as (sec & l2 & s & ep & es & H & Hes). cbn [app] in H |- *.
    rewrite H. eexists _, s, ep. split; [done|]. unfold file_of. rewrite Hid.
    unfold has_identity in Hid. apply orb_false_iff in Hid as [[E1 E2]%orb_false_iff E3].
    rewrite bool_decide_eq_false, <- eq_None_not_Some in E1, E2, E3. rewrite E1, E2, E3.
    by split_and!.
Qed.

Lemma file_of_named p path f :
  persona_clean p → file_of p path f → existsb nameless_subsys (cf_endpoints f) = false.
Proof.
  intros Hp (_ & _ & _ & _ & _ & _ & _ & _ & HF). apply not_true_iff_false.
  intros (e & Hin & He)%existsb_exists. unfold nameless_subsys in He.
  apply andb_true_iff in He as [Hnd%negb_true_iff Hno%bool_decide_eq_true].
  apply list_elem_of_In, list_elem_of_lookup_1 in Hin as [i Hi].
  destruct (Forall2_lookup_r _ _ _ _ _ HF Hi) as (c & Hc & Hdc & Hnqn & _).
  pose proof (Forall_lookup_1 _ _ _ _ (clean_conns _ Hp) Hc) as Hcc.
  destruct (clean_subsys _ Hcc) as [nqn Hq]; [congruence|].
  unfold printed_nqn in Hnqn. rewrite Hq, <- Hdc, Hnd in Hnqn. cbn in Hnqn. congruence.
Qed.

(** ** Properties *)

(** C25: what the emitter prints for a persona is read back by the parser as
    that persona: the same identity, and for each connection, in order, one
    section of its kind with its NQN (the well-known discovery NQN is left out,
    which means it), its parameters in their order, and one path with its
    address.  The conditions are ([persona_clean]): a host NQN and a host ID
    that are empty or valid, and a symbolic name without blanks around it or a
    line break; for each connection a transport and an address, and where they
    are given a service, a host address and an interface, that are not empty
    and have no blanks around them, no line break and no ";"; a subsystem NQN
    that is valid, if it is printed, and is there if the connection is not one
    to a discovery controller; and parameters whose keys are different, known
    and of that kind of section, with values the key allows and without blanks
    around them; the text has no NUL and at most INI_FILE_MAX bytes.  The
    emitter does not check all of them: it prints an invalid NQN, a leading
    blank or a ";", which do not come back ([InstallSample.unreadable],
    [emit_blank_lost]). *)
Theorem emit_parse_roundtrip p path :
  persona_clean p → (0 ∉ write_persona p) →
  Z.of_nat (length (write_persona p)) ≤ INI_FILE_MAX →
  ∃ f, libnvmf_conf_file_parse path
         (IniReg (Z.of_nat (length (write_persona p))) (Some (write_persona p))) = Ok f ∧
       file_of p path f.
Proof.
  intros Hp Hnul Hlen. unfold libnvmf_conf_file_parse, shr_ini_parse_file, shr_ini_read_file.
  rewrite (proj2 (Z.ltb_ge _ _) Hlen), Nat2Z.id, take_ge by lia.
  replace (existsb (Z.eqb 0) (write_persona p)) with false.
  2:{ symmetry. apply not_true_iff_false. intros (c & Hc%list_elem_of_In & <-%Z.eqb_eq)%existsb_exists.
      done. }
  rewrite write_persona_lines, fields_unlines by (done || by apply persona_lines_nl).
  destruct (persona_steps p path Hp) as (f & s & ep & -> & Hf). cbn [pc_f].
  rewrite (file_of_named p path f) by done. by exists f.
Qed.

Lemma opt_clean_Some (P : list Z → Prop) v : P v → opt_clean P (Some v).
Proof. by intros H w [= <-]. Qed.
Lemma opt_clean_None (P : list Z → Prop) : opt_clean P None.
Proof. by intros w. Qed.

(** A decidable case of [field_clean]. *)
Lemma field_cleanb v :
  nonempty v && forallb (λ c, negb (isspace c) && negb (c =? c_semi)) v = true → field_clean v.
Proof.
  intros [Hn%nonempty_spec Hf]%andb_true_iff.
  assert (HF : Forall visible v).
  { apply list.Forall_forall. intros c Hc%list_elem_of_In.
    apply (proj1 (forallb_forall _ _) Hf) in Hc. by to_prop. }
  split; [by apply visible_clean|]. split; [done|]. intros Hin.
  rewrite list.Forall_forall in HF. by destruct (HF _ Hin).
Qed.

Module EmitSample.
Definition conn : emit_conn :=
  EmitConn false (lit "tcp") (lit "192.0.2.1") (Some (lit "4420"))
    (Some (lit "nqn.2014-08.org.example:one")) None (Some (lit "eth0"))
    (Some [(lit "tls", lit "yes"); (lit "queue-size", [])]).
Definition persona : emit_persona :=
  EmitPersona (Some (lit "nqn.2014-08.org.example:host"))
    (Some (lit "46ba5037-7ce5-41fa-9452-48477bf00080")) None [conn].

Lemma conn_ok : conn_clean conn.
Proof.
  split.
  - apply field_cleanb. vm_compute. reflexivity.
  - apply field_cleanb. vm_compute. reflexivity.
  - apply opt_clean_Some, field_cleanb. vm_compute. reflexivity.
  - apply opt_clean_None.
  - apply opt_clean_Some, field_cleanb. vm_compute. reflexivity.
  - apply (opt_clean_Some _ (lit "nqn.2014-08.org.example:one")). vm_compute. reflexivity.
  - intros _. by eexists.
  - split; [apply (bool_decide_unpack _); vm_compute; exact I|].
    constructor; [|constructor; [|constructor]];
      (eexists; split; [reflexivity|split; reflexivity]).
  - constructor; [|constructor; [|constructor]]; by apply no_space_trimmed.
Qed.

Lemma persona_ok : persona_clean persona.
Proof.
  split; [apply opt_clean_Some; right; vm_compute; reflexivity..|apply opt_clean_None|].
  constructor; [apply conn_ok|constructor].
Qed.
End EmitSample.

Lemma emit_parse_roundtrip_witness :
  ∃ f, libnvmf_conf_file_parse (lit "/f")
         (IniReg (Z.of_nat (length (write_persona EmitSample.persona)))
            (Some (write_persona EmitSample.persona))) = Ok f ∧
       file_of EmitSample.persona (lit "/f") f.
Proof.
  apply (emit_parse_roundtrip EmitSample.persona (lit "/f") EmitSample.persona_ok).
  - apply (bool_decide_unpack _). vm_compute. exact I.
  - vm_compute. discriminate.
Defined.

(** *** Strings that do not survive *)

(** The text of a persona, read back. *)
Definition reread (p : emit_persona) : result libnvmf_conf_file :=
  libnvmf_conf_file_parse (lit "/f")
    (IniReg (Z.of_nat (length (write_persona p))) (Some (write_persona p))).

(** The store takes a value with a leading blank, which
    [libnvmf_key_check_value] means to refuse ("a value must survive a round
    trip through a line-based file"); the file does not keep it. *)
Fact emit_blank_lost :
  let params := [(lit "tls-key", lit " key")] in
  libnvmf_params_set [] (lit "tls-key") (lit " key") = Ok params ∧
  (λ f, ep_params <$> cf_endpoints f) <$>
    reread (EmitPersona None None None
      [EmitConn true (lit "tcp") (lit "a") None None None None (Some params)]) =
  Ok [[(lit "tls-key", lit "key")]].
Proof. split; vm_compute; reflexivity. Qed.

(** An address with a separator is accepted, printed and read back as a
    different connection. *)
Fact emit_address_split :
  let r := libnvmf_config_emit_add [] true (Some (lit "tcp"))
             (Some (lit "192.0.2.1;host-iface=eth9")) None None None None None None None None in
  r.1 = Ok tt ∧
  (λ f, (λ e, (λ p, (pa_traddr p, pa_host_iface p)) <$> ep_paths e) <$> cf_endpoints f) <$>
    reread (default (EmitPersona None None None []) (head r.2)) =
  Ok [[(lit "192.0.2.1", Some (lit "eth9"))]].
Proof. split; vm_compute; reflexivity. Qed.
