(* ===== verification/ConfInstall.v ===== *)
(** * Installing a configuration: [libnvme/src/nvme/config-emit.c], second part

    [libnvmf_config_emit_install] and what it calls, on a file system of
    regular files and directories.  Every system call may fail: [fault] says
    whether and why.  The directory helpers are those of [shared/fs-util.c]. *)

From Stdlib Require Import String.
From stdpp Require Import base list numbers gmap sets.
From S2P Require Import Prelude.
From S2P Require Import CStr.
From S2P Require Import Printf.
From S2P Require Import Nqn.
From S2P Require Import Ini.
From S2P Require Import Conf.
From S2P Require Import ConfResolve.
From S2P Require Import ConfEmit.

(** ** The file system *)

Record fsfile := FsFile { ff_data : list Z; ff_mode : Z }.

Record fsys := Fsys {
  fs_files : gmap (list Z) fsfile;
  fs_dirs : gset (list Z);
}.

Inductive fs_op :=
| OpStat | OpScandir | OpMkdir | OpMkstemp | OpChmod | OpFdopen | OpFlush | OpSync
| OpClose | OpOpen | OpRename | OpUnlink | OpRmdir.

Definition fs_exists (p : list Z) (fs : fsys) : bool :=
  bool_decide (is_Some (fs_files fs !! p)) || bool_decide (p ∈ fs_dirs fs).
Definition put_file (p : list Z) (f : fsfile) (fs : fsys) : fsys :=
  Fsys (<[p := f]> (fs_files fs)) (fs_dirs fs).
Definition del_file (p : list Z) (fs : fsys) : fsys :=
  Fsys (delete p (fs_files fs)) (fs_dirs fs).

Definition slash : Z := 47.

(** The name of [p] in directory [d]. *)
Definition name_in (d p : list Z) : option (list Z) :=
  match shr_startswith p (d ++ [slash]) with
  | Some name => if nonempty name && negb (existsb (Z.eqb slash) name) then Some name else None
  | None => None
  end.

Definition dir_names (d : list Z) (fs : fsys) : list (list Z) :=
  omap (name_in d) ((map_to_list (fs_files fs)).*1 ++ elements (fs_dirs fs)).

(** [struct outfile]: the temporary and the final path. *)
Abbreviation outfile := (list Z * list Z)%type (only parsing).

Section install.
(** Why a call fails on a path, if it does. *)
Variable fault : fs_op → list Z → option errno.
(** The six characters [mkstemp] finds for a template. *)
Variable mktemp : fsys → list Z → list Z.

Definition fs_stat (p : list Z) (fs : fsys) : result () :=
  match fault OpStat p with
  | Some e => Err e
  | None => if fs_exists p fs then Ok tt else Err ENOENT
  end.

(** [scandir(d, &entries, libnvmf_conf_dropin_filter, ...)] *)
Definition fs_scandir (d : list Z) (fs : fsys) : result (list (list Z)) :=
  match fault OpScandir d with
  | Some e => Err e
  | None =>
      if bool_decide (d ∈ fs_dirs fs)
      then Ok (List.filter libnvmf_conf_dropin_filter (dir_names d fs)) else Err ENOENT
  end.

Definition fs_mkdir (p : list Z) (fs : fsys) : result () * fsys :=
  match fault OpMkdir p with
  | Some e => (Err e, fs)
  | None =>
      if fs_exists p fs then (Err EEXIST, fs)
      else (Ok tt, Fsys (fs_files fs) ({[p]} ∪ fs_dirs fs))
  end.

Definition fs_unlink (p : list Z) (fs : fsys) : fsys :=
  match fault OpUnlink p with Some _ => fs | None => del_file p fs end.

Definition fs_rmdir (p : list Z) (fs : fsys) : fsys :=
  match fault OpRmdir p with
  | Some _ => fs
  | None =>
      if bool_decide (dir_names p fs = []) then Fsys (fs_files fs) (fs_dirs fs ∖ {[p]}) else fs
  end.

Definition fs_rename (old new : list Z) (fs : fsys) : result () * fsys :=
  match fault OpRename old with
  | Some e => (Err e, fs)
  | None =>
      match fs_files fs !! old with
      | None => (Err ENOENT, fs)
      | Some f =>
          if bool_decide (new ∈ fs_dirs fs) then (Err EISDIR, fs)
          else (Ok tt, put_file new f (del_file old fs))
      end
  end.

(** What [fopen] and [fread] find at a path. *)
Definition fs_node (p : list Z) (fs : fsys) : ini_node :=
  match fault OpOpen p with
  | Some e => IniMissing e
  | None =>
      match fs_files fs !! p with
      | Some f => IniReg (Z.of_nat (length (ff_data f))) (Some (ff_data f))
      | None => if bool_decide (p ∈ fs_dirs fs) then IniDir else IniMissing ENOENT
      end
  end.

(** ** Directories: [shared/fs-util.c] *)

Definition PATH_MAX : nat := 4096.

(** The loop of [shr_mkdir_p] over the rest [s] of [buf], behind [pre]. *)
Fixpoint mkdir_prefixes (pre s : list Z) (fs : fsys) : result () * fsys :=
  match s with
  | [] => (Ok tt, fs)
  | c :: s =>
      if negb (c =? slash) then mkdir_prefixes (pre ++ [c]) s fs
      else
        match fs_mkdir pre fs with
        | (Err e, fs) =>
            if bool_decide (e = EEXIST) then mkdir_prefixes (pre ++ [c]) s fs else (Err e, fs)
        | (Ok _, fs) => mkdir_prefixes (pre ++ [c]) s fs
        end
  end.

Definition shr_mkdir_p (path : list Z) (fs : fsys) : result () * fsys :=
  let len := length path in
  if (PATH_MAX <=? len)%nat then (Err ENAMETOOLONG, fs)
  else
    let buf := if nonempty path && (char_at path (len - 1) =? slash)
               then take (len - 1) path else path in
    match mkdir_prefixes (take 1 buf) (drop 1 buf) fs with
    | (Err e, fs) => (Err e, fs)
    | (Ok _, fs) =>
        match fs_mkdir buf fs with
        | (Err e, fs) => (if bool_decide (e = EEXIST) then Ok tt else Err e, fs)
        | r => r
        end
    end.

(** POSIX [dirname] *)
Definition rstrip_slash (s : list Z) : list Z := rev (drop_while (Z.eqb slash) (rev s)).
Definition shr_dirname (path : list Z) : list Z :=
  let s := rstrip_slash path in
  if negb (nonempty s) then (if nonempty path then [slash] else lit ".")
  else
    match strrchr slash s with
    | None => lit "."
    | Some (dir, _) => let d := rstrip_slash dir in if nonempty d then d else [slash]
    end.

Definition shr_mkdir_from_fname (file : list Z) (fs : fsys) : result () * fsys :=
  let len := length file in
  if nonempty file && (char_at file (len - 1) =? slash) then shr_mkdir_p file fs
  else shr_mkdir_p (shr_dirname file) fs.

(** ** One file *)

(** The mode given to the file: that of the file it replaces, or 0600.  (Where
    [final] is a directory, the rename fails.) *)
Definition emit_mode (final : list Z) (fs : fsys) : Z :=
  match fault OpStat final, fs_files fs !! final with
  | None, Some f => Z.land (ff_mode f) 4095
  | _, _ => 384
  end.

(** [shr_mkstemp] of [final ++ ".XXXXXX"]: a new, empty file. *)
Definition emit_mkstemp (final : list Z) (fs : fsys) : result (list Z) * fsys :=
  let tmp := final ++ lit "." ++ mktemp fs final in
  match fault OpMkstemp tmp with
  | Some e => (Err e, fs)
  | None =>
      if fs_exists tmp fs then (Err EEXIST, fs)
      else (Ok tmp, put_file tmp (FsFile [] 384) fs)
  end.

(** From [fchmod] to the [fclose] of the written file. *)
Definition emit_write (tmp final : list Z) (persona : emit_persona) (fs : fsys) : result () * fsys :=
  let mode := emit_mode final fs in
  match fault OpChmod tmp with
  | Some e => (Err e, fs)
  | None =>
      let fs := put_file tmp (FsFile [] mode) fs in
      match fault OpFdopen tmp with
      | Some e => (Err e, fs)
      | None =>
          match fault OpFlush tmp with
          | Some _ => (Err EIO, fs)
          | None =>
              let fs := put_file tmp (FsFile (write_persona persona) mode) fs in
              match fault OpSync tmp with
              | Some e => (Err e, fs)
              | None =>
                  match fault OpClose tmp with
                  | Some e => (Err e, fs)
                  | None => (Ok tt, fs)
                  end
              end
          end
      end
  end.

Definition emit_tmpfile (final : list Z) (persona : emit_persona) (fs : fsys) :
    result (list Z) * fsys :=
  match emit_mkstemp final fs with
  | (Err e, fs) => (Err e, fs)
  | (Ok tmp, fs) =>
      match emit_write tmp final persona fs with
      | (Err e, fs) => (Err e, fs_unlink tmp fs)
      | (Ok _, fs) =>
          match libnvmf_conf_file_parse tmp (fs_node tmp fs) with
          | Err e => (Err e, fs_unlink tmp fs)
          | Ok _ => (Ok tmp, fs)
          end
      end
  end.

(** ** Installation *)

Definition target_occupied (file dropin_dir : list Z) (fs : fsys) : result () :=
  match fs_stat file fs with
  | Ok _ => Err EEXIST
  | Err e =>
      if negb (bool_decide (e = ENOENT)) then Err e
      else
        match fs_scandir dropin_dir fs with
        | Err e => if bool_decide (e = ENOENT) then Ok tt else Err e
        | Ok [] => Ok tt
        | Ok _ => Err EEXIST
        end
  end.

(** ["%03u"]; the argument is an [unsigned int]. *)
Definition pad_03 (n : Z) : list Z :=
  let d := decimal 10 n [] in replicate (3 - length d) c_0 ++ d.

Definition dropin_name (dropin_dir : list Z) (index : Z) : list Z :=
  dropin_dir ++ [slash] ++ pad_03 (u32 (100 + index)) ++ lit "-persona.conf".

Definition outfiles_rollback (out : list outfile) (fs : fsys) : fsys :=
  foldl (λ fs o, fs_unlink o.1 (fs_unlink o.2 fs)) fs out.

(** The state of the first loop: [out], [index], [made_ddir], [def]. *)
Record install_state := InstallState {
  is_out : list outfile;
  is_index : Z;
  is_made : bool;
  is_def : option emit_persona;
  is_fs : fsys;
}.

Definition unnamed (p : emit_persona) : bool :=
  bool_decide (ep_hostnqn p = None) && bool_decide (ep_hostid p = None).

(** One persona of the loop that writes the named personas. *)
Definition emit_named (ddir : list Z) (p : emit_persona) (st : install_state) :
    result () * install_state :=
  if unnamed p
  then (Ok tt, InstallState (is_out st) (is_index st) (is_made st) (Some p) (is_fs st))
  else
    let '(r, fs) := if is_made st then (Ok tt, is_fs st)
                    else match fs_mkdir ddir (is_fs st) with
                         | (Err e, fs) => (if bool_decide (e = EEXIST) then Ok tt else Err e, fs)
                         | r => r
                         end in
    match r with
    | Err e => (Err e, InstallState (is_out st) (is_index st) (is_made st) (is_def st) fs)
    | Ok _ =>
        let final := dropin_name ddir (is_index st) in
        let index := u32 (is_index st + 1) in
        match emit_tmpfile final p fs with
        | (Err e, fs) => (Err e, InstallState (is_out st) index true (is_def st) fs)
        | (Ok tmp, fs) =>
            (Ok tt, InstallState (is_out st ++ [(tmp, final)]) index true (is_def st) fs)
        end
    end.

Fixpoint emit_all (ddir : list Z) (ps : list emit_persona) (st : install_state) :
    result () * install_state :=
  match ps with
  | [] => (Ok tt, st)
  | p :: ps =>
      match emit_named ddir p st with
      | (Err e, st) => (Err e, st)
      | (Ok _, st) => emit_all ddir ps st
      end
  end.

(** The loop of renames. *)
Fixpoint install_renames (out : list outfile) (fs : fsys) : result () * fsys :=
  match out with
  | [] => (Ok tt, fs)
  | (tmp, final) :: out =>
      match fs_rename tmp final fs with
      | (Err e, fs) => (Err e, fs)
      | (Ok _, fs) => install_renames out fs
      end
  end.

(** The label [rollback]. *)
Definition rollback (ddir : list Z) (e : errno) (st : install_state) (fs : fsys) : result () * fsys :=
  let fs := outfiles_rollback (is_out st) fs in
  (Err e, if is_made st then fs_rmdir ddir fs else fs).

Definition empty_main : emit_persona := EmitPersona None None None [].

Definition libnvmf_config_emit_install (emitter : list emit_persona) (file : list Z) (force : bool)
    (fs : fsys) : result () * fsys :=
  let ddir := file ++ lit ".d" in
  match (if force then Ok tt else target_occupied file ddir fs) with
  | Err e => (Err e, fs)
  | Ok _ =>
      match shr_mkdir_from_fname file fs with
      | (Err e, fs) => (Err e, fs)
      | (Ok _, fs) =>
          match emit_all ddir emitter (InstallState [] 0 false None fs) with
          | (Err e, st) => rollback ddir e st (is_fs st)
          | (Ok _, st) =>
              match emit_tmpfile file (default empty_main (is_def st)) (is_fs st) with
              | (Err e, fs) => rollback ddir e st fs
              | (Ok tmp, fs) =>
                  let st := InstallState (is_out st ++ [(tmp, file)]) (is_index st) (is_made st)
                              (is_def st) fs in
                  match install_renames (is_out st) fs with
                  | (Err e, fs) => rollback ddir e st fs
                  | (Ok _, fs) => (Ok tt, fs)
                  end
              end
          end
      end
  end.
End install.
