(* ===== verification/ConfInstallSpec.v ===== *)
(** * Properties of the installation of a configuration

    What [libnvmf_config_emit_install] of [ConfInstall] leaves in the file
    system when it fails and when it succeeds. *)

From Stdlib Require Import String.
From stdpp Require Import base list numbers gmap sets.
From S2P Require Import Prelude.
From S2P Require Import CStr.
From S2P Require Import Printf.
From S2P Require Import Nqn.
From S2P Require Import Ini.
From S2P Require Import Conf.
From S2P Require Import ConfSpec.
From S2P Require Import ConfResolve.
From S2P Require Import ConfEmit.
From S2P Require Import ConfInstall.

(** ** Lemmas on names *)

Lemma strrchr_None c s : c ∉ s → strrchr c s = None.
Proof.
  induction s as [|x s IH]; [done|]. intros [Hx Hs]%not_elem_of_cons. cbn [strrchr].
  rewrite IH by done. by rewrite (proj2 (Z.eqb_neq x c)).
Qed.

Lemma strrchr_last c a b : c ∉ b → strrchr c (a ++ c :: b) = Some (a, c :: b).
Proof.
  intros Hb. induction a as [|x a IH]; cbn [app strrchr].
  - rewrite strrchr_None by done. by rewrite Z.eqb_refl.
  - by rewrite IH.
Qed.

Lemma pad_03_digits n : 0 ≤ n → Forall (λ c, isdigit c = true) (pad_03 n).
Proof.
  intros Hn. unfold pad_03. apply Forall_app. split; [apply Forall_replicate; done|].
  by apply decimal_digits.
Qed.

Lemma digits_value_zeros k s : digits_value (replicate k c_0 ++ s) = digits_value s.
Proof.
  induction k as [|k IH]; [done|]. unfold digits_value in *. cbn [replicate app foldl].
  by rewrite Z.sub_diag.
Qed.

Lemma pad_03_inj n m : 0 ≤ n < 2 ^ 32 → 0 ≤ m < 2 ^ 32 → pad_03 n = pad_03 m → n = m.
Proof.
  intros Hn Hm Heq.
  assert (Hv : ∀ k, 0 ≤ k < 2 ^ 32 → digits_value (pad_03 k) = k).
  { intros k Hk. unfold pad_03. rewrite digits_value_zeros, decimal_value; [|cbn; lia|lia].
    change (10 ^ Z.of_nat (length (@nil Z))) with 1. unfold digits_value. cbn. lia. }
  by rewrite <- (Hv n), <- (Hv m), Heq.
Qed.

(** The name of a drop-in inside its directory. *)
Definition dropin_base (index : Z) : list Z := pad_03 (u32 (100 + index)) ++ lit "-persona.conf".

Lemma u32_range z : 0 ≤ u32 z < 2 ^ 32.
Proof. apply Z.mod_pos_bound. lia. Qed.

Lemma dropin_name_eq ddir i : dropin_name ddir i = ddir ++ [slash] ++ dropin_base i.
Proof. done. Qed.

Lemma dropin_base_filter i : libnvmf_conf_dropin_filter (dropin_base i) = true.
Proof.
  unfold libnvmf_conf_dropin_filter, dropin_base.
  change (lit "-persona.conf") with (lit "-persona" ++ c_dot :: lit "conf"). rewrite app_assoc.
  rewrite strrchr_last by (apply (bool_decide_unpack _); vm_compute; exact I).
  apply andb_true_iff. split; [|done]. apply nonempty_spec. by destruct (pad_03 _).
Qed.

Lemma name_in_dropin ddir i : name_in ddir (dropin_name ddir i) = Some (dropin_base i).
Proof.
  unfold name_in, shr_startswith. rewrite dropin_name_eq.
  rewrite app_assoc, take_app_length, drop_app_length, bool_decide_true by done.
  replace (nonempty (dropin_base i)) with true by (symmetry; apply nonempty_spec; unfold dropin_base; by destruct (pad_03 _)).
  replace (existsb (Z.eqb slash) (dropin_base i)) with false; [done|].
  symmetry. apply not_true_iff_false. intros (c & Hc%list_elem_of_In & <-%Z.eqb_eq)%existsb_exists.
  unfold dropin_base in Hc. apply elem_of_app in Hc as [Hc | Hc].
  - pose proof (pad_03_digits (u32 (100 + i)) (proj1 (u32_range _))) as HF.
    rewrite list.Forall_forall in HF. by apply HF in Hc.
  - revert Hc. apply (bool_decide_unpack _). vm_compute. exact I.
Qed.

Lemma dropin_name_inj ddir i j :
  0 ≤ i < 2 ^ 32 - 100 → 0 ≤ j < 2 ^ 32 - 100 → dropin_name ddir i = dropin_name ddir j → i = j.
Proof.
  rewrite !dropin_name_eq. intros Hi Hj H. apply app_inv_head in H. unfold dropin_base in H.
  injection H as H. apply app_inv_tail in H. apply pad_03_inj in H; [|apply u32_range..].
  rewrite !u32_small in H by lia. lia.
Qed.

(** ** What each step does to the files *)

Section effects.
Context (fault : fs_op → list Z → option errno) (mktemp : fsys → list Z → list Z).
(** A temporary file can be removed. *)
Hypothesis Hunlink : ∀ p, fault OpUnlink p = None.

Definition tmp_name (fs : fsys) (final : list Z) : list Z := final ++ lit "." ++ mktemp fs final.

Lemma mkdir_files p fs : fs_files (fs_mkdir fault p fs).2 = fs_files fs.
Proof. unfold fs_mkdir. destruct (fault OpMkdir p); [done|]. by destruct (fs_exists p fs). Qed.

Lemma mkdir_prefixes_files pre s fs : fs_files (mkdir_prefixes fault pre s fs).2 = fs_files fs.
Proof.
  revert pre fs. induction s as [|c s IH]; intros pre fs; cbn [mkdir_prefixes]; [done|].
  destruct (negb (c =? slash)); [apply IH|]. pose proof (mkdir_files pre fs) as Hm.
  destruct (fs_mkdir fault pre fs) as [[[]|e] fs1]; cbn in Hm; [by rewrite IH|].
  destruct (bool_decide _); [by rewrite IH|done].
Qed.

Lemma mkdir_p_files path fs : fs_files (shr_mkdir_p fault path fs).2 = fs_files fs.
Proof.
  unfold shr_mkdir_p. destruct (PATH_MAX <=? _)%nat; [done|].
  match goal with |- context [mkdir_prefixes _ (take 1 ?b) _ _] => set (buf := b) end.
  pose proof (mkdir_prefixes_files (take 1 buf) (drop 1 buf) fs) as H1.
  destruct (mkdir_prefixes fault (take 1 buf) (drop 1 buf) fs) as [[[]|e] fs1]; cbn in *; [|done].
  pose proof (mkdir_files buf fs1) as H2.
  destruct (fs_mkdir fault buf fs1) as [[[]|e] fs2]; cbn in *; congruence.
Qed.

Lemma mkdir_from_fname_files file fs : fs_files (shr_mkdir_from_fname fault file fs).2 = fs_files fs.
Proof. unfold shr_mkdir_from_fname. destruct (_ && _); apply mkdir_p_files. Qed.

Lemma fs_exists_false p fs :
  fs_exists p fs = false → fs_files fs !! p = None ∧ p ∉ fs_dirs fs.
Proof.
  unfold fs_exists. intros [H1 H2]%orb_false_iff.
  by rewrite bool_decide_eq_false, <- eq_None_not_Some in H1; rewrite bool_decide_eq_false in H2.
Qed.

(** The file [emit_tmpfile] leaves for [final]. *)
Definition emitted (final : list Z) (p : emit_persona) (fs : fsys) : fsfile :=
  FsFile (write_persona p) (emit_mode fault final fs).

Lemma emit_mode_put tmp f final fs :
  tmp ≠ final → emit_mode fault final (put_file tmp f fs) = emit_mode fault final fs.
Proof. intros Hne. unfold emit_mode, put_file. cbn. by rewrite lookup_insert_ne. Qed.

Lemma tmp_ne_final fs final : tmp_name fs final ≠ final.
Proof. unfold tmp_name. intros H. apply (f_equal length) in H. rewrite !length_app in H. cbn in H. lia. Qed.

(** One file: on failure the files are as before; on success there is one
    more, it holds the persona and the parser accepts it. *)
Lemma emit_tmpfile_files final p fs :
  match emit_tmpfile fault mktemp final p fs with
  | (Err _, fs') => fs_files fs' = fs_files fs ∧ fs_dirs fs' = fs_dirs fs
  | (Ok tmp, fs') =>
      tmp = tmp_name fs final ∧ fs_files fs !! tmp = None ∧
      fs_files fs' = <[tmp := emitted final p fs]> (fs_files fs) ∧ fs_dirs fs' = fs_dirs fs ∧
      is_ok (libnvmf_conf_file_parse tmp
        (IniReg (Z.of_nat (length (write_persona p))) (Some (write_persona p)))) = true
  end.
Proof.
  unfold emit_tmpfile, emit_mkstemp. fold (tmp_name fs final). set (tmp := tmp_name fs final).
  destruct (fault OpMkstemp tmp); [done|].
  destruct (fs_exists tmp fs) eqn:He; [done|]. apply fs_exists_false in He as [Hnone Hdir].
  unfold emit_write. cbv zeta. rewrite emit_mode_put by apply tmp_ne_final.
  assert (Hdel : ∀ f, fs_files (fs_unlink fault tmp (put_file tmp f fs)) = fs_files fs ∧
                      fs_dirs (fs_unlink fault tmp (put_file tmp f fs)) = fs_dirs fs).
  { intros f. unfold fs_unlink. rewrite Hunlink. cbn. split; [|done].
    rewrite delete_insert_id; done. }
  assert (Hput : ∀ f g, put_file tmp g (put_file tmp f fs) = put_file tmp g fs).
  { intros f g. unfold put_file. cbn. by rewrite insert_insert_eq. }
  destruct (fault OpChmod tmp); [apply Hdel|]. rewrite !Hput.
  destruct (fault OpFdopen tmp); [apply Hdel|].
  destruct (fault OpFlush tmp); [apply Hdel|].
  destruct (fault OpSync tmp); [apply Hdel|]. destruct (fault OpClose tmp); [apply Hdel|].
  unfold fs_node, put_file at 1. cbn [fs_files]. rewrite lookup_insert_eq.
  destruct (fault OpOpen tmp) as [e|] eqn:Eo.
  - change (libnvmf_conf_file_parse tmp (IniMissing e)) with (@Err libnvmf_conf_file e). apply Hdel.
  - cbn [ff_data]. destruct (libnvmf_conf_file_parse tmp _) as [f|e] eqn:Ep; [|apply Hdel]. split_and!; try done. by rewrite Ep.
Qed.

Lemma unlink_files p fs : fs_files (fs_unlink fault p fs) = delete p (fs_files fs).
Proof. unfold fs_unlink. by rewrite Hunlink. Qed.

Lemma rmdir_files p fs : fs_files (fs_rmdir fault p fs) = fs_files fs.
Proof. unfold fs_rmdir. destruct (fault OpRmdir p); [done|]. by destruct (bool_decide _). Qed.

Definition out_names (out : list outfile) : list (list Z) := out.*1 ++ out.*2.

(** [fs] differs from [orig] on names of [out] only, which [orig] lacks. *)
Definition staged (orig : gmap (list Z) fsfile) (out : list outfile) (fs : fsys) : Prop :=
  (∀ p, p ∈ out_names out → orig !! p = None) ∧
  ∀ p, p ∉ out_names out → fs_files fs !! p = orig !! p.

Lemma rollback_lookup out fs p :
  fs_files (outfiles_rollback fault out fs) !! p =
  if bool_decide (p ∈ out_names out) then None else fs_files fs !! p.
Proof.
  unfold outfiles_rollback, out_names. revert fs.
  induction out as [|[t f] out IH]; intros fs; [done|]. cbn [foldl fst snd]. rewrite IH.
  rewrite !unlink_files. rewrite !fmap_cons. cbn [fst snd].
  destruct (decide (p ∈ out.*1 ++ out.*2)) as [Hin|Hin].
  - rewrite !bool_decide_true by set_solver. done.
  - rewrite (bool_decide_false (p ∈ out.*1 ++ out.*2)) by done.
    destruct (decide (p = t)) as [->|Ht]; [rewrite bool_decide_true by set_solver; by rewrite lookup_delete_eq|].
    rewrite lookup_delete_ne by done.
    destruct (decide (p = f)) as [->|Hf]; [rewrite bool_decide_true by set_solver; by rewrite lookup_delete_eq|].
    rewrite lookup_delete_ne, bool_decide_false by (done || set_solver). done.
Qed.

Lemma rollback_restores ddir e st orig fs :
  staged orig (is_out st) fs → fs_files (rollback fault ddir e st fs).2 = orig.
Proof.
  intros [Hn Ho]. unfold rollback. cbn [snd].
  assert (H : fs_files (outfiles_rollback fault (is_out st) fs) = orig).
  { apply map_eq. intros p. rewrite rollback_lookup. case_bool_decide as Hp; [by rewrite Hn|by apply Ho]. }
  destruct (is_made st); [by rewrite rmdir_files|done].
Qed.

Lemma staged_files orig out fs fs' : fs_files fs' = fs_files fs → staged orig out fs → staged orig out fs'.
Proof. intros He [H1 H2]. split; [done|]. by rewrite He. Qed.

Lemma out_names_snoc out tmp final p :
  p ∈ out_names (out ++ [(tmp, final)]) ↔ p ∈ out_names out ∨ p = tmp ∨ p = final.
Proof. unfold out_names. rewrite !fmap_app, !elem_of_app. cbn. set_solver. Qed.

Lemma emit_tmpfile_staged orig out final p fs :
  staged orig out fs → orig !! final = None →
  match emit_tmpfile fault mktemp final p fs with
  | (Err _, fs') => staged orig out fs'
  | (Ok tmp, fs') => staged orig (out ++ [(tmp, final)]) fs'
  end.
Proof.
  intros Hst Hf. pose proof (emit_tmpfile_files final p fs) as H.
  destruct (emit_tmpfile fault mktemp final p fs) as [[tmp|e] fs'].
  - destruct H as (_ & Hnone & Hfs & _). destruct Hst as [H1 H2]. split.
    + intros q [Hq | [-> | ->]]%out_names_snoc; [by apply H1| |done].
      destruct (decide (tmp ∈ out_names out)); [by apply H1|]. by rewrite <- H2.
    + intros q Hq. rewrite Hfs, out_names_snoc in *. rewrite lookup_insert_ne by naive_solver.
      apply H2. naive_solver.
  - destruct H as [Hfs _]. by eapply staged_files.
Qed.

Lemma emit_named_staged orig ddir p st :
  (∀ i, orig !! dropin_name ddir i = None) → staged orig (is_out st) (is_fs st) →
  staged orig (is_out (emit_named fault mktemp ddir p st).2) (is_fs (emit_named fault mktemp ddir p st).2).
Proof.
  intros Hfin Hst. unfold emit_named. destruct (unnamed p); [done|].
  set (m := if is_made st then _ else _).
  assert (Hm : fs_files m.2 = fs_files (is_fs st)).
  { unfold m. destruct (is_made st); [done|]. pose proof (mkdir_files ddir (is_fs st)) as Hk.
    by destruct (fs_mkdir fault ddir (is_fs st)) as [[[]|e] fs1]. }
  destruct m as [[[]|e] fs1]; cbn in Hm; [|by eapply staged_files].
  pose proof (emit_tmpfile_staged orig (is_out st) (dropin_name ddir (is_index st)) p fs1
    (staged_files _ _ _ _ Hm Hst) (Hfin _)) as H.
  by destruct (emit_tmpfile fault mktemp (dropin_name ddir (is_index st)) p fs1) as [[tmp|e] fs2].
Qed.

Lemma emit_all_staged orig ddir ps st :
  (∀ i, orig !! dropin_name ddir i = None) → staged orig (is_out st) (is_fs st) →
  staged orig (is_out (emit_all fault mktemp ddir ps st).2) (is_fs (emit_all fault mktemp ddir ps st).2).
Proof.
  intros Hfin. revert st. induction ps as [|p ps IH]; intros st Hst; cbn [emit_all]; [done|].
  pose proof (emit_named_staged orig ddir p st Hfin Hst) as H.
  destruct (emit_named fault mktemp ddir p st) as [[[]|e] st']; [by apply IH|done].
Qed.

Lemma rename_staged orig out tmp final fs :
  (tmp, final) ∈ out → staged orig out fs → staged orig out (fs_rename fault tmp final fs).2.
Proof.
  intros Hin [H1 H2]. unfold fs_rename. destruct (fault OpRename tmp); [done|].
  destruct (fs_files fs !! tmp) as [f|]; [|done]. destruct (bool_decide _); [done|].
  split; [done|]. intros q Hq. cbn.
  assert (tmp ∈ out_names out ∧ final ∈ out_names out) as [Ht Hf].
  { unfold out_names. rewrite !elem_of_app. split; [left|right]; apply list_elem_of_fmap; by exists (tmp, final). }
  rewrite lookup_insert_ne, lookup_delete_ne by (intros ->; done). by apply H2.
Qed.

Lemma renames_staged orig out rest fs :
  rest ⊆ out → staged orig out fs → staged orig out (install_renames fault rest fs).2.
Proof.
  revert fs. induction rest as [|[tmp final] rest IH]; intros fs Hsub Hst; cbn [install_renames]; [done|].
  pose proof (rename_staged orig out tmp final fs ltac:(set_solver) Hst) as H.
  destruct (fs_rename fault tmp final fs) as [[[]|e] fs']; [|done]. apply IH; [set_solver|done].
Qed.

(** A target that is not occupied has neither the main file nor a drop-in. *)
Lemma target_free file fs :
  (∀ p, fault OpStat p ≠ Some ENOENT) → (∀ p, fault OpScandir p ≠ Some ENOENT) →
  (∀ name, is_Some (fs_files fs !! (file ++ lit ".d" ++ [slash] ++ name)) → file ++ lit ".d" ∈ fs_dirs fs) →
  target_occupied fault file (file ++ lit ".d") fs = Ok tt →
  fs_files fs !! file = None ∧ ∀ i, fs_files fs !! dropin_name (file ++ lit ".d") i = None.
Proof.
  intros Hst Hsc Hwf. unfold target_occupied, fs_stat, fs_scandir.
  specialize (Hst file). destruct (fault OpStat file) as [e|].
  { rewrite bool_decide_false by congruence. done. }
  destruct (fs_exists file fs) eqn:He; [done|]. apply fs_exists_false in He as [Hfile _].
  cbn [negb bool_decide]. specialize (Hsc (file ++ lit ".d")).
  destruct (fault OpScandir (file ++ lit ".d")) as [e|].
  { destruct (bool_decide_reflect (e = ENOENT)) as [->|]; done. }
  intros H. split; [done|]. intros i. apply eq_None_not_Some. intros Hsome.
  assert (Hd : file ++ lit ".d" ∈ fs_dirs fs).
  { apply (Hwf (dropin_base i)). rewrite dropin_name_eq in Hsome. by rewrite <- app_assoc in Hsome. }
  rewrite (bool_decide_true (_ ∈ _)) in H by done.
  assert (Hin : dropin_base i ∈ List.filter libnvmf_conf_dropin_filter (dir_names (file ++ lit ".d") fs)).
  { apply list_elem_of_In, filter_In. split; [|apply dropin_base_filter]. apply list_elem_of_In.
    unfold dir_names. apply list_elem_of_omap. exists (dropin_name (file ++ lit ".d") i).
    split; [|apply name_in_dropin]. apply elem_of_app. left. apply list_elem_of_fmap.
    destruct Hsome as [f Hf]. exists (dropin_name (file ++ lit ".d") i, f). split; [done|].
    by apply elem_of_map_to_list. }
  destruct (List.filter _ _); [by apply elem_of_nil in Hin|done].
Qed.
End effects.

(** ** A successful installation *)

(** The files that are installed: the named personas in the drop-in directory,
    by number, and the default one as the main file. *)
Definition outputs (emitter : list emit_persona) (file : list Z) : list (list Z * emit_persona) :=
  imap (λ i p, (dropin_name (file ++ lit ".d") (Z.of_nat i), p))
    (List.filter (λ p, negb (unnamed p)) emitter) ++
  [(file, default empty_main (last (List.filter unnamed emitter)))].

(** An output on its way: temporary name, final name, file. *)
Abbreviation item := (list Z * list Z * fsfile)%type (only parsing).
Definition it_tmp (it : item) : list Z := it.1.1.
Definition it_final (it : item) : list Z := it.1.2.
Definition it_out (it : item) : outfile := it.1.
Definition installed (items : list item) : gmap (list Z) fsfile :=
  list_to_map ((λ it, (it_final it, it.2)) <$> items).

Section success.
Context (fault : fs_op → list Z → option errno) (mktemp : fsys → list Z → list Z).
Hypothesis Hunlink : ∀ p, fault OpUnlink p = None.
(** [mkstemp] fills in six characters, and no dot. *)
Hypothesis Hmktemp : ∀ fs p, length (mktemp fs p) = 6%nat ∧ (c_dot ∉ mktemp fs p).

(** All temporary files are there, and nothing else changed. *)
Definition written (orig : gmap (list Z) fsfile) (items : list item) (fs : fsys) : Prop :=
  NoDup (it_tmp <$> items) ∧
  (∀ it, it ∈ items → fs_files fs !! it_tmp it = Some it.2 ∧ orig !! it_tmp it = None) ∧
  (∀ p, p ∉ it_tmp <$> items → fs_files fs !! p = orig !! p).

Lemma rename_Ok tmp final fs fs' f :
  fs_rename fault tmp final fs = (Ok tt, fs') → fs_files fs !! tmp = Some f →
  fs_files fs' = <[final := f]> (delete tmp (fs_files fs)).
Proof.
  unfold fs_rename. destruct (fault OpRename tmp); [done|]. intros H Hf. rewrite Hf in H.
  destruct (bool_decide _); [done|]. by injection H as <-.
Qed.

Lemma installed_None items p : p ∉ it_final <$> items → installed items !! p = None.
Proof.
  intros H. apply not_elem_of_list_to_map_1. rewrite <- list_fmap_compose. exact H.
Qed.

Lemma installed_cons t fin f items p :
  installed ((t, fin, f) :: items) !! p = if bool_decide (fin = p) then Some f else installed items !! p.
Proof.
  unfold installed. rewrite fmap_cons, list_to_map_cons. case_bool_decide; subst.
  - apply lookup_insert_eq.
  - by rewrite lookup_insert_ne.
Qed.

Lemma renames_Ok items fs fs' :
  install_renames fault (it_out <$> items) fs = (Ok tt, fs') →
  NoDup (it_tmp <$> items) → NoDup (it_final <$> items) →
  (∀ p, p ∈ it_final <$> items → p ∉ it_tmp <$> items) →
  (∀ it, it ∈ items → fs_files fs !! it_tmp it = Some it.2) →
  ∀ p, fs_files fs' !! p =
       match installed items !! p with
       | Some f => Some f
       | None => if bool_decide (p ∈ it_tmp <$> items) then None else fs_files fs !! p
       end.
Proof.
  revert fs. induction items as [|[[t fin] f] items IH]; intros fs H Ht Hf Hdis Hfs p.
  { injection H as <-. done. }
  cbn [it_tmp it_final it_out fmap list_fmap fst snd install_renames] in H, Ht, Hf, Hdis |- *.
  apply NoDup_cons in Ht as [Ht0 Ht], Hf as [Hf0 Hf].
  assert (Hfin : fin ≠ t ∧ fin ∉ it_tmp <$> items).
  { apply not_elem_of_cons, Hdis. left. }
  destruct (fs_rename fault t fin fs) as [[[]|e] fs1] eqn:E; [|done].
  apply (rename_Ok _ _ _ _ f) in E; [|apply (Hfs (t, fin, f)); left].
  assert (Hdis' : ∀ q, q ∈ it_final <$> items → q ∉ it_tmp <$> items).
  { intros q Hq Hq'. apply (Hdis q); by right. }
  rewrite (IH fs1 H Ht Hf Hdis'), installed_cons.
  2:{ intros it Hit. rewrite E.
      assert (Hin : it_tmp it ∈ it_tmp <$> items) by (apply list_elem_of_fmap; eauto).
      rewrite lookup_insert_ne by (intros Heq; rewrite <- Heq in Hin; by apply Hfin).
      rewrite lookup_delete_ne by (intros Heq; by rewrite <- Heq in Hin). apply Hfs. by right. }
  rewrite E. destruct (bool_decide_reflect (fin = p)) as [<-|Hp].
  - rewrite installed_None by done. rewrite bool_decide_false by apply Hfin. apply lookup_insert_eq.
  - rewrite lookup_insert_ne by done. destruct (installed items !! p); [done|].
    destruct (decide (p = t)) as [->|Hpt].
    + rewrite bool_decide_false, bool_decide_true by (done || left). apply lookup_delete_eq.
    + rewrite lookup_delete_ne by done.
      rewrite (bool_decide_ext (p ∈ t :: (it_tmp <$> items)) (p ∈ it_tmp <$> items)); [done|].
      rewrite elem_of_cons. naive_solver.
Qed.

(** *** Names do not collide *)

Abbreviation tmp_of := (tmp_name mktemp) (only parsing).

Lemma tmp_not_dropin fs final ddir i : tmp_of fs final ≠ dropin_name ddir i.
Proof.
  destruct (Hmktemp fs final) as [Hl Hd]. intros H.
  apply (f_equal (strrchr c_dot)) in H. unfold tmp_name in H.
  change (lit "." ++ mktemp fs final) with (c_dot :: mktemp fs final) in H.
  rewrite strrchr_last, dropin_name_eq in H by done. unfold dropin_base in H.
  change (lit "-persona.conf") with (lit "-persona" ++ c_dot :: lit "conf") in H.
  rewrite !app_assoc, strrchr_last in H by (apply (bool_decide_unpack _); vm_compute; exact I).
  injection H as _ H. rewrite H in Hl. done.
Qed.

Lemma tmp_longer fs final file :
  (length file ≤ length final)%nat → tmp_of fs final ≠ file.
Proof.
  intros Hl H. apply (f_equal length) in H. unfold tmp_name in H. rewrite !length_app in H.
  cbn in H. lia.
Qed.

Lemma dropin_longer file i : (length file < length (dropin_name (file ++ lit ".d") i))%nat.
Proof. rewrite dropin_name_eq, !length_app. cbn. lia. Qed.

Lemma emitted_files final p fs fs' :
  fs_files fs !! final = fs_files fs' !! final → emitted fault final p fs = emitted fault final p fs'.
Proof. intros H. unfold emitted, emit_mode. by rewrite H. Qed.

(** *** Writing *)

Definition readable (p : emit_persona) : Prop :=
  ∃ path, is_ok (libnvmf_conf_file_parse path
    (IniReg (Z.of_nat (length (write_persona p))) (Some (write_persona p)))) = true.

Lemma emit_step items final p fs fs' tmp fs0 :
  written (fs_files fs0) items fs → final ∉ it_tmp <$> items →
  emit_tmpfile fault mktemp final p fs = (Ok tmp, fs') →
  written (fs_files fs0) (items ++ [(tmp, final, emitted fault final p fs0)]) fs' ∧
  tmp = tmp_of fs final ∧ readable p.
Proof.
  intros (Hnd & Hin & Hout) Hfin H. pose proof (emit_tmpfile_files fault mktemp Hunlink final p fs) as He.
  rewrite H in He. destruct He as (Htmp & Hnone & Hfs & _ & Hok).
  assert (Hnew : tmp ∉ it_tmp <$> items).
  { intros (it & -> & Hit)%list_elem_of_fmap. destruct (Hin it Hit) as [Hs _]. congruence. }
  rewrite (emitted_files final p fs fs0) in Hfs by by apply Hout.
  split; [|split; [done|by eexists]]. split_and!.
  - rewrite fmap_app. apply NoDup_app. split; [done|]. split; [|apply NoDup_singleton].
    intros q Hq Hq'%list_elem_of_singleton. by subst.
  - intros it [Hit | ->%list_elem_of_singleton]%elem_of_app; rewrite Hfs.
    + destruct (Hin it Hit) as [H1 H2]. split; [|done]. rewrite lookup_insert_ne; [done|].
      intros ->. apply Hnew, list_elem_of_fmap. eauto.
    + split; [apply lookup_insert_eq|]. cbn. rewrite <- Hout by done. done.
  - intros q Hq. rewrite fmap_app, elem_of_app in Hq. rewrite Hfs, lookup_insert_ne.
    + apply Hout. intros H'. apply Hq. by left.
    + intros ->. apply Hq. right. apply list_elem_of_singleton. done.
Qed.

(** What the loop over the personas has done after [ps]. *)
Definition named_outputs (ddir : list Z) (ps : list emit_persona) : list (list Z * emit_persona) :=
  imap (λ i p, (dropin_name ddir (Z.of_nat i), p)) (List.filter (λ p, negb (unnamed p)) ps).

Definition to_file (fs0 : fsys) (o : list Z * emit_persona) : list Z * fsfile :=
  (o.1, emitted fault o.1 o.2 fs0).

Record emitted_all (fs0 : fsys) (ddir : list Z) (ps : list emit_persona) (st : install_state)
    (items : list item) : Prop := EmittedAll {
  ea_out : is_out st = it_out <$> items;
  ea_written : written (fs_files fs0) items (is_fs st);
  ea_files : (λ it, (it_final it, it.2)) <$> items = to_file fs0 <$> named_outputs ddir ps;
  ea_index : is_index st = Z.of_nat (length items);
  ea_def : is_def st = last (List.filter unnamed ps);
  ea_tmp : Forall (λ it, ∃ fs i, it_tmp it = tmp_of fs (dropin_name ddir i)) items;
  ea_ok : Forall readable (List.filter (λ p, negb (unnamed p)) ps);
}.

Lemma written_files orig items fs fs' :
  fs_files fs' = fs_files fs → written orig items fs → written orig items fs'.
Proof. intros He (H1 & H2 & H3). unfold written. rewrite He. done. Qed.

Lemma filter_snoc {A} (f : A → bool) l x :
  List.filter f (l ++ [x]) = List.filter f l ++ (if f x then [x] else []).
Proof. rewrite List.filter_app. cbn. by destruct (f x). Qed.

Lemma imap_snoc {A B} (f : nat → A → B) l x : imap f (l ++ [x]) = imap f l ++ [f (length l) x].
Proof. rewrite imap_app. cbn. by rewrite Nat.add_0_r. Qed.

Lemma emit_named_Ok fs0 ddir ps p st st' items :
  emitted_all fs0 ddir ps st items → Z.of_nat (length items) < 2 ^ 32 - 100 →
  emit_named fault mktemp ddir p st = (Ok tt, st') →
  ∃ items', emitted_all fs0 ddir (ps ++ [p]) st' items' ∧ (length items' ≤ S (length items))%nat.
Proof.
  intros [H1 H2 H3 H4 H5 H6 H7] Hb. unfold emit_named.
  destruct (unnamed p) eqn:Hu.
  { intros [= <-]. exists items. split; [|lia]. unfold named_outputs in *.
    split; cbn [is_out is_fs is_index is_def]; unfold named_outputs;
      rewrite ?filter_snoc, ?Hu; cbn [negb]; rewrite ?app_nil_r; try done.
    by rewrite last_snoc. }
  set (m := if is_made st then _ else _).
  assert (Hm : fs_files m.2 = fs_files (is_fs st)).
  { unfold m. destruct (is_made st); [done|]. pose proof (mkdir_files fault ddir (is_fs st)) as Hk.
    by destruct (fs_mkdir fault ddir (is_fs st)) as [[[]|e] fs1]. }
  destruct m as [[[]|e] fs1]; cbn in Hm; [|done].
  destruct (emit_tmpfile fault mktemp (dropin_name ddir (is_index st)) p fs1) as [[tmp|e] fs2] eqn:E; [|done].
  intros [= <-]. apply (emit_step items _ _ _ _ _ fs0) in E as (Hw & Ht & Hr);
    [|by eapply written_files|].
  2:{ intros (it & Heq & Hit)%list_elem_of_fmap. rewrite list.Forall_forall in H6.
      destruct (H6 it Hit) as (fs' & i & Hi). rewrite Hi in Heq. by eapply tmp_not_dropin. }
  exists (items ++ [(tmp, dropin_name ddir (is_index st), emitted fault (dropin_name ddir (is_index st)) p fs0)]).
  split; [|rewrite length_app; cbn; lia]. unfold named_outputs in *.
  assert (Hlen : length (List.filter (λ p, negb (unnamed p)) ps) = length items).
  { apply (f_equal length) in H3. by rewrite !length_fmap, length_imap in H3. }
  split; cbn [is_out is_fs is_index is_def]; unfold named_outputs; rewrite ?filter_snoc, ?Hu; cbn [negb].
  - by rewrite H1, fmap_app.
  - done.
  - rewrite imap_snoc, !fmap_app, H3, Hlen, H4. done.
  - rewrite H4, length_app, u32_small by lia. cbn. lia.
  - by rewrite app_nil_r.
  - apply Forall_app. split; [done|]. constructor; [|constructor]. by eexists _, _.
  - apply Forall_app. by split; [|repeat constructor].
Qed.

Lemma emit_all_Ok fs0 ddir ps rest st st' items :
  emitted_all fs0 ddir ps st items →
  Z.of_nat (length items + length rest) < 2 ^ 32 - 100 →
  emit_all fault mktemp ddir rest st = (Ok tt, st') →
  ∃ items', emitted_all fs0 ddir (ps ++ rest) st' items' ∧
            (length items' ≤ length items + length rest)%nat.
Proof.
  revert ps st items. induction rest as [|p rest IH]; intros ps st items Ha Hb H; cbn [emit_all] in H.
  { injection H as <-. exists items. rewrite app_nil_r. split; [done|lia]. }
  cbn [length] in Hb.
  destruct (emit_named fault mktemp ddir p st) as [[[]|e] st1] eqn:E; [|done].
  destruct (emit_named_Ok fs0 ddir ps p st st1 items Ha ltac:(lia) E) as (items1 & Ha1 & Hl1).
  destruct (IH _ _ _ Ha1 ltac:(lia) H) as (items2 & Ha2 & Hl2). exists items2.
  rewrite <- app_assoc in Ha2. split; [done|]. cbn [length]. lia.
Qed.

Lemma named_finals_NoDup ddir ps :
  Z.of_nat (length (List.filter (λ p, negb (unnamed p)) ps)) < 2 ^ 32 - 100 →
  NoDup (named_outputs ddir ps).*1.
Proof.
  intros Hb. unfold named_outputs. apply NoDup_alt. intros i j x Hi Hj.
  rewrite list_lookup_fmap, list_lookup_imap in Hi, Hj.
  destruct (List.filter _ ps !! i) as [p|] eqn:Ei; [|done].
  destruct (List.filter _ ps !! j) as [q|] eqn:Ej; [|done]. cbn in Hi, Hj.
  injection Hi as Hi. injection Hj as Hj. rewrite <- Hj in Hi.
  apply lookup_lt_Some in Ei, Ej. apply dropin_name_inj in Hi; lia.
Qed.

Lemma named_finals_shape ddir ps q : q ∈ (named_outputs ddir ps).*1 → ∃ i, q = dropin_name ddir i.
Proof.
  intros (o & -> & Ho)%list_elem_of_fmap. unfold named_outputs in Ho.
  apply list_elem_of_lookup_1 in Ho as [k Hk]. rewrite list_lookup_imap in Hk.
  destruct (List.filter _ ps !! k); [|done]. injection Hk as <-. by eexists.
Qed.

Lemma outputs_personas emitter file :
  (outputs emitter file).*2 =
  List.filter (λ p, negb (unnamed p)) emitter ++ [default empty_main (last (List.filter unnamed emitter))].
Proof.
  unfold outputs. rewrite fmap_app, fmap_imap. f_equal. apply list_eq. intros k.
  rewrite list_lookup_imap. cbn. by destruct (List.filter _ emitter !! k).
Qed.

(** No final name is the name of a temporary file. *)
Lemma final_not_tmp file ps q fs fin :
  q ∈ (named_outputs (file ++ lit ".d") ps).*1 ++ [file] → (length file ≤ length fin)%nat →
  q ≠ tmp_of fs fin.
Proof.
  intros [[i ->]%named_finals_shape | ->%list_elem_of_singleton]%elem_of_app Hl H; symmetry in H.
  - by eapply tmp_not_dropin.
  - by eapply tmp_longer.
Qed.

Lemma finals_NoDup file ps :
  Z.of_nat (length ps) < 2 ^ 32 - 100 →
  NoDup ((named_outputs (file ++ lit ".d") ps).*1 ++ [file]).
Proof.
  intros Hb. apply NoDup_app. split_and!; [|intros q Hq ->%list_elem_of_singleton|apply NoDup_singleton].
  - apply named_finals_NoDup. pose proof (List.filter_length_le (λ p, negb (unnamed p)) ps). lia.
  - apply named_finals_shape in Hq as [i Hi]. pose proof (dropin_longer file i) as Hlen.
    rewrite <- Hi in Hlen. lia.
Qed.

Lemma install_Ok emitter file force fs fs' :
  Z.of_nat (length emitter) < 2 ^ 32 - 100 →
  libnvmf_config_emit_install fault mktemp emitter file force fs = (Ok tt, fs') →
  fs_files fs' = list_to_map (to_file fs <$> outputs emitter file) ∪ fs_files fs ∧
  Forall readable (outputs emitter file).*2.
Proof.
  intros Hb. unfold libnvmf_config_emit_install. set (ddir := file ++ lit ".d").
  destruct (if force then Ok tt else _) as [[]|e]; [|done].
  pose proof (mkdir_from_fname_files fault file fs) as Hmk.
  destruct (shr_mkdir_from_fname fault file fs) as [[[]|e] fs1]; cbn [snd] in Hmk; [|done].
  destruct (emit_all fault mktemp ddir emitter _) as [[[]|e] st] eqn:Ea; [|done].
  assert (H0 : emitted_all fs ddir [] (InstallState [] 0 false None fs1) []).
  { assert (Hw0 : written (fs_files fs) [] fs1).
    { split; [constructor|]. split; [by intros it []%elem_of_nil|]. intros p _. by rewrite Hmk. }
    split; try done; constructor. }
  destruct (emit_all_Ok fs ddir [] emitter _ _ [] H0 Hb Ea) as (items & [A1 A2 A3 A4 A5 A6 A7] & Hl).
  cbn [app] in A3, A5, A7. cbn [length Nat.add] in Hl.
  destruct (emit_tmpfile fault mktemp file _ (is_fs st)) as [[tmp|e] fs2] eqn:Et; [|done].
  assert (Hfile : file ∉ it_tmp <$> items).
  { intros (it & Heq & Hit)%list_elem_of_fmap. rewrite list.Forall_forall in A6.
    destruct (A6 it Hit) as (g & i & Hi). rewrite Hi in Heq. symmetry in Heq.
    eapply tmp_longer, Heq. pose proof (dropin_longer file i). unfold ddir. lia. }
  apply (emit_step items _ _ _ _ _ fs A2 Hfile) in Et as (Hw & Ht & Hr).
  set (last_it := (tmp, file, emitted fault file (default empty_main (is_def st)) fs)) in Hw.
  cbn [is_out]. rewrite A1. change [(tmp, file)] with (it_out <$> [last_it]). rewrite <- fmap_app.
  destruct (install_renames fault (it_out <$> items ++ [last_it]) fs2) as [[[]|e] fs3] eqn:Er; [|done].
  intros [= <-]. destruct Hw as (Hnd & Hin & Hout).
  assert (Hfiles : (λ it, (it_final it, it.2)) <$> items ++ [last_it] = to_file fs <$> outputs emitter file).
  { rewrite fmap_app, A3. unfold outputs. rewrite fmap_app, <- A5. done. }
  assert (Hfin : it_final <$> items ++ [last_it] = (named_outputs ddir emitter).*1 ++ [file]).
  { transitivity ((to_file fs <$> outputs emitter file).*1); [rewrite <- Hfiles, <- list_fmap_compose; done|].
    rewrite <- list_fmap_compose. unfold outputs. rewrite fmap_app. done. }
  split.
  2:{ rewrite outputs_personas, <- A5. apply Forall_app. split; [done|by repeat constructor]. }
  apply map_eq. intros q.
  rewrite (renames_Ok (items ++ [last_it]) fs2 fs3 Er Hnd); [| | |by intros it Hit; apply Hin].
  - unfold installed. rewrite Hfiles. rewrite lookup_union.
    destruct (list_to_map _ !! q) as [f|]; [by rewrite union_Some_l|]. rewrite (left_id_L None _).
    case_bool_decide as Hq; [|by apply Hout].
    apply list_elem_of_fmap in Hq as (it & -> & Hit). symmetry. by apply Hin.
  - rewrite Hfin. by apply finals_NoDup.
  - intros q'. rewrite Hfin. intros Hq' (it & Heq & Hit)%list_elem_of_fmap.
    apply elem_of_app in Hit as [Hit | ->%list_elem_of_singleton].
    + rewrite list.Forall_forall in A6. destruct (A6 it Hit) as (g & i & Hi). rewrite Hi in Heq.
      eapply final_not_tmp in Heq; [done|done|]. pose proof (dropin_longer file i). unfold ddir. lia.
    + cbn in Heq. rewrite Ht in Heq. by eapply final_not_tmp in Heq.
Qed.
End success.

(** ** Sample runs *)

Module InstallSample.
Definition no_fault (op : fs_op) (p : list Z) : option errno := None.
Definition mktemp (fs : fsys) (p : list Z) : list Z := lit "a1B2c3".
Definition main : list Z := lit "/n/f.conf".
Definition dropin : list Z := lit "/n/f.conf.d/100-persona.conf".
Definition conn (nqn : list Z) : emit_conn :=
  EmitConn false (lit "tcp") (lit "192.0.2.1") None (Some nqn) None None None.
Definition named : emit_persona :=
  EmitPersona (Some (lit "nqn.2014-08.org.example:host"))
    (Some (lit "46ba5037-7ce5-41fa-9452-48477bf00080")) None
    [conn (lit "nqn.2014-08.org.example:one")].
(** Its file is not readable: the NQN is not one. *)
Definition unreadable : emit_persona := EmitPersona None None None [conn (lit "foo")].
Definition fs0 : fsys := Fsys ∅ {[ lit "/n" ]}.
(** A configuration of an earlier installation. *)
Definition fs1 : fsys :=
  Fsys {[ dropin := FsFile (write_persona named) 384; main := FsFile [] 384 ]}
       {[ lit "/n"; lit "/n/f.conf.d" ]}.
Definition install (emitter : list emit_persona) (force : bool) (fs : fsys) :=
  libnvmf_config_emit_install no_fault mktemp emitter main force fs.
End InstallSample.

(** With [force], an installation that fails removes drop-ins of the
    configuration that was there: the rollback takes every complete entry for
    one of its own, also those whose rename never took place. *)
Fact force_failure_loses_config :
  let r := InstallSample.install [InstallSample.named; InstallSample.unreadable] true
             InstallSample.fs1 in
  r.1 = Err EINVAL ∧
  is_Some (fs_files InstallSample.fs1 !! InstallSample.dropin) ∧
  fs_files r.2 !! InstallSample.dropin = None.
Proof. split; [vm_compute; reflexivity|]. split; [by eexists|]. vm_compute. reflexivity. Qed.

(** [check_persona_identity] is there "so the emitter never writes a tree its
    own reader would reject", but it takes a host NQN without an identifier;
    the tree is installed, and [libnvmf_config_load] refuses it. *)
Fact emit_reader_rejects :
  let add := libnvmf_config_emit_add [] false (Some (lit "tcp")) (Some (lit "192.0.2.1")) None
               (Some (lit "nqn.2014-08.org.example:one")) None None
               (Some (lit "nqn.2014-08.org.example:host")) None None None in
  let r := InstallSample.install add.2 false InstallSample.fs0 in
  add.1 = Ok tt ∧ r.1 = Ok tt ∧
  is_ok (libnvmf_conf_file_parse InstallSample.dropin
           (fs_node InstallSample.no_fault InstallSample.dropin r.2)) = true ∧
  libnvmf_config_load id (λ d, Ok (dir_names d r.2)) (λ p, fs_node InstallSample.no_fault p r.2)
    InstallSample.main = Err EINVAL.
Proof. split_and!; vm_compute; reflexivity. Qed.

(** With [force], a drop-in of the configuration that is overwritten stays, and
    is read with the new one. *)
Fact force_keeps_old_dropins :
  let r := InstallSample.install [] true InstallSample.fs1 in
  r.1 = Ok tt ∧
  (λ c, length (conf_conns c)) <$>
    libnvmf_config_load id (λ d, Ok (dir_names d r.2)) (λ p, fs_node InstallSample.no_fault p r.2)
      InstallSample.main = Ok 1%nat.
Proof. split; vm_compute; reflexivity. Qed.

(** ** Properties *)

(** C26: a failed installation without [force] leaves every file as it was.
    Whatever call fails at whatever point (creating a directory or a temporary
    file, writing it, reading it back, renaming it), and whatever the personas
    hold, the error is returned and the files of the file system are those of
    before: no temporary file stays behind, no file of the configuration was
    replaced.  Removing files must not fail, and "no such file" must be told
    for missing files only. *)
Theorem install_failed_restores fault mktemp emitter file fs e fs' :
  (∀ p, fault OpUnlink p = None) →
  (∀ p, fault OpStat p ≠ Some ENOENT) → (∀ p, fault OpScandir p ≠ Some ENOENT) →
  (∀ name, is_Some (fs_files fs !! (file ++ lit ".d" ++ [slash] ++ name)) →
           file ++ lit ".d" ∈ fs_dirs fs) →
  libnvmf_config_emit_install fault mktemp emitter file false fs = (Err e, fs') →
  fs_files fs' = fs_files fs.
Proof.
  intros Hun Hst Hsc Hwf. unfold libnvmf_config_emit_install.
  destruct (target_occupied fault file (file ++ lit ".d") fs) as [[]|e1] eqn:Hocc; [|congruence].
  destruct (target_free fault file fs Hst Hsc Hwf Hocc) as [Hfile Hdrop].
  pose proof (mkdir_from_fname_files fault file fs) as Hmk.
  destruct (shr_mkdir_from_fname fault file fs) as [[[]|e1] fs1]; cbn [snd] in Hmk; [|congruence].
  assert (H0 : staged (fs_files fs) [] fs1) by (split; [intros p Hp; by apply elem_of_nil in Hp|by rewrite Hmk]).
  pose proof (emit_all_staged fault mktemp Hun (fs_files fs) (file ++ lit ".d") emitter
    (InstallState [] 0 false None fs1) Hdrop H0) as H1.
  destruct (emit_all fault mktemp _ emitter _) as [[[]|e1] st]; cbn [snd] in H1.
  2:{ intros [= <- <-]. exact (rollback_restores fault mktemp Hun (file ++ lit ".d") e1 st _ _ H1). }
  pose proof (emit_tmpfile_staged fault mktemp Hun (fs_files fs) (is_out st) file
    (default empty_main (is_def st)) (is_fs st) H1 Hfile) as H2.
  destruct (emit_tmpfile fault mktemp file _ (is_fs st)) as [[tmp|e1] fs2].
  2:{ intros [= <- <-]. exact (rollback_restores fault mktemp Hun (file ++ lit ".d") e1 st _ _ H2). }
  set (st' := InstallState _ _ _ _ _). intros H.
  pose proof (renames_staged fault mktemp Hun (fs_files fs) (is_out st') (is_out st') fs2 ltac:(done) H2) as H3.
  destruct (install_renames fault (is_out st') fs2) as [[[]|e1] fs3]; [done|].
  injection H as <- <-.
  exact (rollback_restores fault mktemp Hun (file ++ lit ".d") e1 st' (fs_files fs) fs3 H3).
Qed.

Lemma install_failed_restores_witness :
  fs_files (InstallSample.install [InstallSample.named; InstallSample.unreadable] false
              InstallSample.fs0).2 = ∅.
Proof.
  apply (install_failed_restores InstallSample.no_fault InstallSample.mktemp
    [InstallSample.named; InstallSample.unreadable] InstallSample.main InstallSample.fs0 EINVAL).
  - intros p. reflexivity.
  - intros p. discriminate.
  - intros p. discriminate.
  - intros name [f Hf]. discriminate Hf.
  - apply injective_projections; [vm_compute; reflexivity|reflexivity].
Defined.

(** C27: a successful installation writes exactly the configuration.  Each named
    persona is in the drop-in directory under its number, the default one (or
    an empty text) in the main file, each file with the text of its persona,
    accepted by the parser, and with the mode of the file it replaced or 0600;
    no other file changed, appeared or disappeared.  [mkstemp] must fill in six
    characters without a dot, and there must be fewer than 2^32 - 100
    personas. *)
Theorem install_success fault mktemp emitter file force fs fs' :
  (∀ p, fault OpUnlink p = None) →
  (∀ fs p, length (mktemp fs p) = 6%nat ∧ (c_dot ∉ mktemp fs p)) →
  Z.of_nat (length emitter) < 2 ^ 32 - 100 →
  libnvmf_config_emit_install fault mktemp emitter file force fs = (Ok tt, fs') →
  fs_files fs' = list_to_map ((λ o, (o.1, FsFile (write_persona o.2) (emit_mode fault o.1 fs))) <$>
                              outputs emitter file) ∪ fs_files fs ∧
  Forall readable (outputs emitter file).*2.
Proof. intros Hu Hm Hb H. by apply (install_Ok fault mktemp Hu Hm emitter file force). Qed.

Lemma install_success_witness :
  fs_files (InstallSample.install [InstallSample.named] false InstallSample.fs0).2 =
  {[ InstallSample.dropin := FsFile (write_persona InstallSample.named) 384;
     InstallSample.main := FsFile [] 384 ]}.
Proof.
  destruct (install_success InstallSample.no_fault InstallSample.mktemp [InstallSample.named]
    InstallSample.main false InstallSample.fs0
    (InstallSample.install [InstallSample.named] false InstallSample.fs0).2) as [H _].
  - intros p. reflexivity.
  - intros fs p. split; [reflexivity|]. apply (bool_decide_unpack _). vm_compute. exact I.
  - vm_compute. reflexivity.
  - apply injective_projections; [vm_compute; reflexivity|reflexivity].
  - rewrite H. vm_compute. reflexivity.
Defined.
