(* ===== verification/Exclusion.v ===== *)
(** * Exclusion lists: [libnvme/src/nvme/exclusion.c]

    The main list and the drop-in lists are text files; the model's state is
    their contents, the drop-ins in the order of [readdir].  Files are text
    (no NUL bytes) and paths fit their buffers.  Every call of the operations
    that change a list can fail ([FileIo]): the directory, the temporary file,
    its mode, its flush, the rename; a write through stdio fails, if at all,
    when it is flushed.  The calls that only read a list succeed on a file that
    is there.  Everything that depends on the contents is modelled: the
    4096-byte line buffer, the sections, the entries, the compare-and-swap of
    [libnvmf_exclusion_write]. *)

From Stdlib Require Import String.
From stdpp Require Import base list numbers sets.
From S2P Require Import Prelude.
From S2P Require Import CStr.
From S2P Require Import Hex.
From S2P Require Import Tid.
From S2P Require Import DTid.

Definition EXCL_SECTION : list Z := lit "exclusions".
Definition EXCL_LINE_KEY : list Z := lit "exclusion".
Definition EXCL_LINE_MAX : nat := 4096.
Definition NAME_MAX : nat := 255.
Definition EXCL_FILE_MAX : Z := 1024 * 1024.

(** [EXCL_HEADER_FMT] with the list's name filled in. *)
Definition excl_header (name : list Z) : list Z :=
  lit "# NVMe-oF exclusion list: " ++ name ++ [c_nl] ++
  lit "# Format: exclusion = key=val;key=val" ++ [c_nl] ++
  lit "# Keys: transport, traddr, trsvcid, nqn, host-traddr, host-iface, hostnqn, hostid" ++
  [c_nl; c_nl] ++ lit "[" ++ EXCL_SECTION ++ lit "]" ++ [c_nl].

(** ** The files *)

(** [exclusions.conf], and the entries of [exclusions.conf.d] with their
    [d_name]. *)
Record excl_fs := {
  fs_main : option (list Z);
  fs_dropins : list (list Z * list Z) }.

Definition dropin_name (name : list Z) : list Z := name ++ lit ".conf".

Definition fs_get (fs : excl_fs) (name : option (list Z)) : option (list Z) :=
  match name with
  | None => fs_main fs
  | Some n => snd <$> List.find (λ d, str_eqb (fst d) (dropin_name n)) (fs_dropins fs)
  end.

(** [rename] onto the list's file: replaced in place, or a new last entry. *)
Fixpoint dropins_set (l : list (list Z * list Z)) (d_name text : list Z) : list (list Z * list Z) :=
  match l with
  | [] => [(d_name, text)]
  | (n, t) :: l' => if str_eqb n d_name then (n, text) :: l' else (n, t) :: dropins_set l' d_name text
  end.

Definition fs_set (fs : excl_fs) (name : option (list Z)) (text : list Z) : excl_fs :=
  match name with
  | None => {| fs_main := Some text; fs_dropins := fs_dropins fs |}
  | Some n => {| fs_main := fs_main fs;
                 fs_dropins := dropins_set (fs_dropins fs) (dropin_name n) text |}
  end.

(** [unlink] *)
Definition fs_unset (fs : excl_fs) (name : option (list Z)) : excl_fs :=
  match name with
  | None => {| fs_main := None; fs_dropins := fs_dropins fs |}
  | Some n => {| fs_main := fs_main fs;
                 fs_dropins := List.filter (λ d, negb (str_eqb (fst d) (dropin_name n)))
                                 (fs_dropins fs) |}
  end.

(** [excl_path]: the name check of every entry point. *)
Definition excl_path_ok (name : option (list Z)) : bool :=
  match name with None => true | Some _ => shr_valid_name name end.

(** The calls of the operations that change a list; the error of one that
    fails.  The temporary file of a failed call is unlinked; were it left
    behind, no reader would open it, for its name does not end in [.conf]. *)
Inductive io_op :=
| IO_MKDIR | IO_CREATE | IO_FOPEN | IO_OPENDIR | IO_FLOCK | IO_MKSTEMP | IO_FCHMOD | IO_FDOPEN
| IO_WRITE | IO_FSYNC | IO_FCLOSE | IO_RENAME | IO_UNLINK.
Class FileIo := io_fault : io_op → option errno.

(** No call fails. *)
Definition all_io : FileIo := λ _, None.

(** The error of the first call of a sequence that fails. *)
Fixpoint first_fault `{FileIo} (ops : list io_op) : option errno :=
  match ops with
  | [] => None
  | op :: ops' => match io_fault op with Some e => Some e | None => first_fault ops' end
  end.

(** ** Lines *)

(** What a loop of [fgets(line, EXCL_LINE_MAX, f)] reads. *)
Fixpoint fgets_from (acc : list Z) (s : list Z) : list (list Z) :=
  match s with
  | [] => match acc with [] => [] | _ => [acc] end
  | c :: s' =>
      let acc := acc ++ [c] in
      if (c =? c_nl) || (length acc =? EXCL_LINE_MAX - 1)%nat
      then acc :: fgets_from [] s' else fgets_from acc s'
  end.
Definition fgets_lines (s : list Z) : list (list Z) := fgets_from [] s.

Inductive excl_line_type :=
| EXCL_LINE_IGNORE
| EXCL_LINE_SECTION
| EXCL_LINE_ENTRY (val : list Z)
| EXCL_LINE_STRAY
| EXCL_LINE_JUNK.

(** The type, and [*in_excl]. *)
Definition classify_line (s : list Z) (in_excl : bool) : excl_line_type * bool :=
  match s with
  | [] => (EXCL_LINE_IGNORE, in_excl)
  | c :: s1 =>
      if c =? c_hash then (EXCL_LINE_IGNORE, in_excl)
      else if c =? c_lbrack then
        match split_char c_rbrack s with
        | None => (EXCL_LINE_JUNK, false)
        | Some (h, _) => (EXCL_LINE_SECTION, str_eqb (shr_trim (drop 1 h)) EXCL_SECTION)
        end
      else
        match split_char c_eq s with
        | None => (EXCL_LINE_IGNORE, in_excl)
        | Some (k, v) =>
            if negb (str_eqb (shr_trim k) EXCL_LINE_KEY) then (EXCL_LINE_IGNORE, in_excl)
            else if negb in_excl then (EXCL_LINE_STRAY, in_excl)
            else (EXCL_LINE_ENTRY (shr_trim v), in_excl)
        end
  end.

Section Exclusion.
Context `{Alloc} `{Inet} `{FileIo}.

(** ** Matching *)

Definition addr_equal (entry_val caller_val : option (list Z)) (transport : option (list Z)) : bool :=
  if shr_streq0 transport (Some (lit "fc")) then shr_streqcase0 entry_val caller_val
  else shr_ipaddrs_eq entry_val caller_val || shr_streq0 entry_val caller_val.

(** A field the entry sets is the target's. *)
Definition field_match (e t : libnvmf_tid) (f : field) : bool :=
  match get e f with Some _ => shr_streq0 (get e f) (get t f) | None => true end.
Definition addr_match (e t : libnvmf_tid) (f : field) : bool :=
  match get e f, get t f with
  | None, _ => true
  | Some _, None => false
  | Some _, Some _ => addr_equal (get e f) (get t f) (transport t)
  end.

Definition tid_subset_match (e t : libnvmf_tid) : bool :=
  field_match e t Transport && addr_match e t Traddr && field_match e t Trsvcid &&
  field_match e t Nqn && addr_match e t HostTraddr && field_match e t HostIface &&
  field_match e t Hostnqn && field_match e t Hostid.

Definition entry_matches (entry : list Z) (t : libnvmf_tid) : bool :=
  match libnvmf_tid_parse_strict (Some entry) with
  | Err _ => false
  | Ok e => if libnvmf_tid_is_empty (Some e) then false else tid_subset_match e t
  end.

Definition entry_valid (entry : option (list Z)) : bool :=
  match libnvmf_tid_parse_strict entry with
  | Err _ => false
  | Ok e => negb (libnvmf_tid_is_empty (Some e))
  end.

(** The loop of [scan_conf_file]; [fn] stops it. *)
Fixpoint scan_lines (fn : list Z → bool) (in_excl : bool) (lines : list (list Z)) : bool :=
  match lines with
  | [] => false
  | line :: lines' =>
      match classify_line (shr_trim line) in_excl with
      | (EXCL_LINE_ENTRY val, in_excl) => if fn val then true else scan_lines fn in_excl lines'
      | (_, in_excl) => scan_lines fn in_excl lines'
      end
  end.

Definition scan_conf_file (text : option (list Z)) (fn : list Z → bool) : bool :=
  match text with
  | None => false
  | Some s => scan_lines fn false (fgets_lines s)
  end.

(** [strrchr(d_name, '.')] is ".conf", and something stands in front of it. *)
Definition is_conf (d_name : list Z) : bool :=
  let n := length d_name in
  (5 <? n)%nat && str_eqb (drop (n - 5) d_name) (lit ".conf").

Definition libnvmf_exclusion_match (fs : excl_fs) (t : libnvmf_tid) : bool :=
  if scan_conf_file (fs_main fs) (λ e, entry_matches e t) then true
  else existsb (λ d, is_conf (fst d) && scan_conf_file (Some (snd d)) (λ e, entry_matches e t))
         (fs_dropins fs).

(** The names [libnvmf_exclusion_list_for_each] calls its callback with;
    they fit [name_buf]. *)
Definition libnvmf_exclusion_list_for_each (fs : excl_fs) : list (list Z) :=
  let conf := List.filter (λ d_name,
    is_conf d_name && (length d_name - 5 <? NAME_MAX)%nat) (fst <$> fs_dropins fs) in
  (λ d_name, take (length d_name - 5) d_name) <$> conf.

(** The entries [libnvmf_exclusion_entry_for_each] calls its callback with. *)
Fixpoint scan_entries (in_excl : bool) (lines : list (list Z)) : list (list Z) :=
  match lines with
  | [] => []
  | line :: lines' =>
      match classify_line (shr_trim line) in_excl with
      | (EXCL_LINE_ENTRY val, in_excl) => val :: scan_entries in_excl lines'
      | (_, in_excl) => scan_entries in_excl lines'
      end
  end.

Definition libnvmf_exclusion_entry_for_each (fs : excl_fs) (name : option (list Z)) :
    result (list (list Z)) :=
  if negb (excl_path_ok name) then Err EINVAL
  else
    match fs_get fs name with
    | None => Err ENOENT
    | Some s => Ok (scan_entries false (fgets_lines s))
    end.

(** ** Changing a list *)

Definition list_title (name : option (list Z)) : list Z := default (lit "default") name.

Definition libnvmf_exclusion_create (fs : excl_fs) (name : option (list Z)) : excl_fs * option errno :=
  match io_fault IO_MKDIR with
  | Some e => (fs, Some e)
  | None =>
      if negb (excl_path_ok name) then (fs, Some EINVAL)
      else
        match fs_get fs name with
        | Some _ => (fs, Some EEXIST)
        | None =>
            match first_fault [IO_CREATE; IO_FCHMOD] with
            | Some e => (fs, Some e)
            | None =>
                (* [dprintf] is not checked *)
                let header := match io_fault IO_WRITE with
                  | Some _ => [] | None => excl_header (list_title name) end in
                (fs_set fs name header, None)
            end
        end
  end.

Definition libnvmf_exclusion_delete (fs : excl_fs) (name : option (list Z)) : excl_fs * option errno :=
  if negb (excl_path_ok name) then (fs, Some EINVAL)
  else
    match fs_get fs name with
    | None => (fs, Some ENOENT)
    | Some _ =>
        match io_fault IO_UNLINK with
        | Some e => (fs, Some e)
        | None => (fs_unset fs name, None)
        end
    end.

(** The copy loop of [libnvmf_exclusion_add]: what it writes, [in_excl] and
    [has_section]. *)
Fixpoint add_copy_lines (in_excl has_section : bool) (lines : list (list Z)) : list Z * bool * bool :=
  match lines with
  | [] => ([], in_excl, has_section)
  | line :: lines' =>
      let in_excl := snd (classify_line (shr_trim line) in_excl) in
      let '(out, i, h) := add_copy_lines in_excl (has_section || in_excl) lines' in
      (line ++ out, i, h)
  end.

(** The new contents of the list. *)
Definition add_text (name : option (list Z)) (old : option (list Z)) (entry : list Z) : list Z :=
  (match old with
   | Some s =>
       let '(out, in_excl, has_section) := add_copy_lines false false (fgets_lines s) in
       out ++ (if negb has_section || negb in_excl
               then [c_nl] ++ lit "[" ++ EXCL_SECTION ++ lit "]" ++ [c_nl] else [])
   | None => excl_header (list_title name)
   end) ++ EXCL_LINE_KEY ++ lit " = " ++ entry ++ [c_nl].

(** [fin = fopen(path, "r")]: a list that cannot be opened is taken for one
    that is not there. *)
Definition fopen_list (fs : excl_fs) (name : option (list Z)) : option (list Z) :=
  match io_fault IO_FOPEN with Some _ => None | None => fs_get fs name end.

Definition libnvmf_exclusion_add (fs : excl_fs) (name : option (list Z)) (entry : option (list Z)) :
    excl_fs * option errno :=
  match entry with
  | Some e =>
      if negb (entry_valid entry) then (fs, Some EINVAL)
      else
        match io_fault IO_MKDIR with
        | Some err => (fs, Some err)
        | None =>
            if negb (excl_path_ok name) then (fs, Some EINVAL)
            else
              match first_fault [IO_MKSTEMP; IO_FCHMOD; IO_FDOPEN] with
              | Some err => (fs, Some err)
              | None =>
                  let text := add_text name (fopen_list fs name) e in
                  match first_fault [IO_WRITE; IO_FSYNC; IO_FCLOSE; IO_RENAME] with
                  | Some err => (fs, Some err)
                  | None => (fs_set fs name text, None)
                  end
              end
        end
  | None => (fs, Some EINVAL)
  end.

(** [excl_entry_from_ctrl]; the fields of the controller. *)
Definition excl_entry_from_ctrl (c : field → option (list Z)) : result (list Z) :=
  match c Transport, c Traddr, c Nqn with
  | Some tr, Some ad, Some nq =>
      let opt key v := match v with Some (x :: v) => lit key ++ x :: v | _ => [] end in
      let s := lit "transport=" ++ tr ++ lit ";traddr=" ++ ad ++ opt ";trsvcid="%string (c Trsvcid) ++
               lit ";nqn=" ++ nq ++ opt ";host-iface="%string (c HostIface) in
      if (length s <? EXCL_LINE_MAX)%nat then Ok s else Err ENAMETOOLONG
  | _, _, _ => Err EINVAL
  end.

Definition libnvmf_exclusion_add_ctrl (fs : excl_fs) (name : option (list Z))
    (c : field → option (list Z)) : excl_fs * option errno :=
  match excl_entry_from_ctrl c with
  | Err e => (fs, Some e)
  | Ok entry => libnvmf_exclusion_add fs name (Some entry)
  end.

Definition libnvmf_exclusion_add_subsysnqn (fs : excl_fs) (name : option (list Z))
    (nqn : option (list Z)) : excl_fs * option errno :=
  match nqn with
  | Some (x :: n) =>
      let entry := lit "nqn=" ++ x :: n in
      if (EXCL_LINE_MAX <=? length entry)%nat then (fs, Some ENAMETOOLONG)
      else libnvmf_exclusion_add fs name (Some entry)
  | _ => (fs, Some EINVAL)
  end.

(** The copy loop of [libnvmf_exclusion_remove]: the output and [removed]. *)
Fixpoint remove_lines (entry : list Z) (in_excl removed : bool) (lines : list (list Z)) : list Z * bool :=
  match lines with
  | [] => ([], removed)
  | line :: lines' =>
      let '(ty, in_excl) := classify_line (shr_trim line) in_excl in
      if match ty with EXCL_LINE_ENTRY val => negb removed && str_eqb val entry | _ => false end
      then remove_lines entry in_excl true lines'
      else let '(out, r) := remove_lines entry in_excl removed lines' in (line ++ out, r)
  end.

Definition libnvmf_exclusion_remove (fs : excl_fs) (name : option (list Z)) (entry : list Z) :
    excl_fs * option errno :=
  if negb (excl_path_ok name) then (fs, Some EINVAL)
  else
    match fopen_list fs name with
    | None => (fs, Some ENOENT)
    | Some s =>
        match first_fault [IO_MKSTEMP; IO_FCHMOD; IO_FDOPEN] with
        | Some e => (fs, Some e)
        | None =>
            let '(out, removed) := remove_lines entry false false (fgets_lines s) in
            match first_fault [IO_WRITE; IO_FSYNC; IO_FCLOSE] with
            | Some e => (fs, Some e)
            | None =>
                if negb removed then (fs, Some ENOENT)
                else
                  match io_fault IO_RENAME with
                  | Some e => (fs, Some e)
                  | None => (fs_set fs name out, None)
                  end
            end
        end
    end.

(** ** Editing: read, validate, compare and swap *)

Definition content_hash (s : list Z) : Z :=
  let h := fnv1a_64 s in if h =? 0 then 1 else h.

(** The buffer [slurp] fills has the size of a copy of the text. *)
Definition slurp (text : option (list Z)) : result (list Z) :=
  match text with
  | None => Err ENOENT
  | Some s =>
      if EXCL_FILE_MAX <? Z.of_nat (length s) then Err EFBIG
      else match strdup s with Some buf => Ok buf | None => Err ENOMEM end
  end.

Definition hash_file (text : option (list Z)) : result Z :=
  match slurp text with
  | Err ENOENT => Ok 0
  | Err e => Err e
  | Ok s => Ok (content_hash s)
  end.

Fixpoint validate_lines (in_excl : bool) (lines : list (list Z)) : bool :=
  match lines with
  | [] => true
  | line :: lines' =>
      match classify_line (shr_trim line) in_excl with
      | (EXCL_LINE_ENTRY val, in_excl) =>
          if entry_valid (Some val) then validate_lines in_excl lines' else false
      | (EXCL_LINE_STRAY, _) | (EXCL_LINE_JUNK, _) => false
      | (_, in_excl) => validate_lines in_excl lines'
      end
  end.

Definition validate_conf_buf (text : list Z) : option errno :=
  match strdup text with
  | None => Some ENOMEM
  | Some copy => if validate_lines false (strtok c_nl copy) then None else Some EINVAL
  end.

Definition libnvmf_exclusion_read (fs : excl_fs) (name : option (list Z)) : result (list Z * Z) :=
  if negb (excl_path_ok name) then Err EINVAL
  else
    match slurp (fs_get fs name) with
    | Err ENOENT => match strdup [] with Some s => Ok (s, 0) | None => Err ENOMEM end
    | Err e => Err e
    | Ok s => Ok (s, content_hash s)
    end.

Definition libnvmf_exclusion_write (fs : excl_fs) (name : option (list Z)) (text : list Z)
    (version : Z) : excl_fs * option errno :=
  match validate_conf_buf text with
  | Some e => (fs, Some e)
  | None =>
      match io_fault IO_MKDIR with
      | Some e => (fs, Some e)
      | None =>
          if negb (excl_path_ok name) then (fs, Some EINVAL)
          else
            match first_fault [IO_OPENDIR; IO_FLOCK] with
            | Some e => (fs, Some e)
            | None =>
                match hash_file (fs_get fs name) with
                | Err e => (fs, Some e)
                | Ok cur =>
                    if negb (cur =? version) then (fs, Some ESTALE)
                    else
                      match first_fault [IO_MKSTEMP; IO_FCHMOD; IO_WRITE; IO_FSYNC; IO_RENAME] with
                      | Some e => (fs, Some e)
                      | None => (fs_set fs name text, None)
                      end
                end
            end
      end
  end.

End Exclusion.

(** ** Lines of a text *)

Lemma fgets_concat s acc : concat (fgets_from acc s) = acc ++ s.
Proof.
  revert acc. induction s as [|c s IH]; intros acc; cbn [fgets_from].
  { destruct acc; [done|]. cbn [concat]. by rewrite !app_nil_r. }
  destruct (_ || _); [cbn [concat]; by rewrite IH, <- app_assoc|].
  by rewrite IH, <- app_assoc.
Qed.

Lemma fgets_lines_concat s : concat (fgets_lines s) = s.
Proof. apply fgets_concat. Qed.

(** A newline ends a line, whatever follows. *)
Lemma fgets_nl acc a b :
  fgets_from acc (a ++ c_nl :: b) = fgets_from acc (a ++ [c_nl]) ++ fgets_lines b.
Proof.
  revert acc. induction a as [|c a IH]; intros acc; cbn [fgets_from app]; [done|].
  destruct (_ || _); [|apply IH]. by rewrite IH.
Qed.

(** A text that ends in a newline, or is empty. *)
Definition ends_line (s : list Z) : Prop := s = [] ∨ ∃ a, s = a ++ [c_nl].

Lemma fgets_app a b : ends_line a → fgets_lines (a ++ b) = fgets_lines a ++ fgets_lines b.
Proof.
  intros [->|[x ->]]; [done|]. unfold fgets_lines at 1. rewrite <- app_assoc. apply fgets_nl.
Qed.

(** One line that fits the buffer. *)
Lemma fgets_one l acc :
  c_nl ∉ l → (length acc + length l < EXCL_LINE_MAX - 1)%nat →
  fgets_from acc (l ++ [c_nl]) = [acc ++ l ++ [c_nl]].
Proof.
  revert acc. induction l as [|c l IH]; intros acc Hn Hl; cbn [fgets_from app]; [done|].
  apply not_elem_of_cons in Hn as [Hc Hn].
  cbn [length] in Hl. destruct (Z.eqb_spec c c_nl); [by subst c|]. cbn [orb].
  rewrite length_app. cbn [length].
  destruct (Nat.eqb_spec (length acc + 1) (EXCL_LINE_MAX - 1)); [lia|].
  rewrite IH; [by rewrite <- app_assoc|done|rewrite length_app; cbn [length]; lia].
Qed.

(** The state behind the lines. *)
Definition scan_state (in_excl : bool) (lines : list (list Z)) : bool :=
  foldl (λ b line, snd (classify_line (shr_trim line) b)) in_excl lines.

Lemma scan_entries_app b l k :
  scan_entries b (l ++ k) = scan_entries b l ++ scan_entries (scan_state b l) k.
Proof.
  revert b. induction l as [|x l IH]; intros b; [done|]. unfold scan_state.
  cbn [app scan_entries foldl].
  destruct (classify_line (shr_trim x) b) as [[] b']; cbn [snd app]; by rewrite IH.
Qed.

Lemma scan_state_app b l k : scan_state b (l ++ k) = scan_state (scan_state b l) k.
Proof. apply foldl_app. Qed.

Lemma scan_lines_entries fn b l : scan_lines fn b l = existsb fn (scan_entries b l).
Proof.
  revert b. induction l as [|x l IH]; intros b; cbn [scan_lines scan_entries existsb]; [done|].
  destruct (classify_line (shr_trim x) b) as [[] b']; try apply IH.
  cbn [existsb]. destruct (fn val); [done|apply IH].
Qed.

Lemma shr_rtrim_unique a r :
  forallb isspace r = true → (∀ l c, a = l ++ [c] → isspace c = false) → shr_rtrim (a ++ r) = a.
Proof.
  intros Hr Ha. destruct (shr_rtrim_split (a ++ r)) as (q & E & Hq).
  pose proof (shr_rtrim_last (a ++ r)) as Hu. set (u := shr_rtrim (a ++ r)) in *.
  apply app_eq_inv in E as [(k & E1 & E2)|(k & E1 & E2)].
  - destruct k as [|c k _] using rev_ind; [by rewrite app_nil_r in E1|].
    assert (isspace c = false) by (eapply Ha; by rewrite E1, app_assoc).
    rewrite E2, !forallb_app in Hq. cbn [forallb] in Hq. to_prop. congruence.
  - destruct k as [|c k _] using rev_ind; [by rewrite app_nil_r in E1|].
    assert (isspace c = false) by (eapply Hu; by rewrite E1, app_assoc).
    rewrite E2, !forallb_app in Hr. cbn [forallb] in Hr. to_prop. congruence.
Qed.

(** [shr_trim] is the trimmed middle. *)
Lemma shr_trim_unique l t r :
  forallb isspace l = true → forallb isspace r = true → t ≠ [] → trimmed t →
  shr_trim (l ++ t ++ r) = t.
Proof.
  intros Hl Hr Hne [Hh Ht]. unfold shr_trim. rewrite app_assoc, shr_rtrim_unique; [|done|].
  - rewrite shr_ltrim_drop_while. induction l as [|c l IH]; cbn [app drop_while].
    + destruct t as [|c t]; [done|]. cbn [drop_while]. by rewrite (Hh : isspace c = false).
    + cbn [forallb] in Hl. to_prop. rewrite (H : isspace c = true). by apply IH.
  - intros x c E. destruct t as [|y t _] using rev_ind; [done|].
    rewrite app_assoc in E. apply app_inj_tail in E as [_ <-]. by eapply Ht.
Qed.

Lemma shr_trim_nl s : shr_trim (s ++ [c_nl]) = shr_trim s.
Proof.
  unfold shr_trim. f_equal. destruct (shr_rtrim_split s) as (r & E & Hr).
  rewrite E at 1. rewrite <- app_assoc. apply shr_rtrim_unique.
  - by rewrite forallb_app, Hr.
  - intros l c. apply shr_rtrim_last.
Qed.

(** A newline at the end of a text changes nothing. *)
Lemma scan_final_nl s acc b :
  scan_entries b (fgets_from acc (s ++ [c_nl])) = scan_entries b (fgets_from acc s) ∧
  scan_state b (fgets_from acc (s ++ [c_nl])) = scan_state b (fgets_from acc s).
Proof.
  revert acc b. induction s as [|c s IH]; intros acc b; cbn [app fgets_from].
  - rewrite Z.eqb_refl. cbn [orb]. destruct acc as [|x acc]; [done|]. unfold scan_state.
    cbn [scan_entries foldl]. by rewrite shr_trim_nl.
  - destruct (_ || _); [|apply IH]. unfold scan_state. cbn [scan_entries foldl].
    destruct (classify_line _ b) as [ty b']. destruct (IH [] b') as [E1 E2]. unfold scan_state in E2.
    cbn [snd]. rewrite E2. split; [|done]. destruct ty; by rewrite E1.
Qed.

Lemma add_copy_lines_spec b h lines :
  add_copy_lines b h lines =
  (concat lines, scan_state b lines, snd (add_copy_lines b h lines)) ∧
  (snd (add_copy_lines b h lines) = false → scan_state b lines = true → h = false ∧ lines = []).
Proof.
  revert b h. induction lines as [|l lines IH]; intros b h; [done|].
  cbn [add_copy_lines concat]. unfold scan_state. cbn [foldl].
  set (b' := snd (classify_line (shr_trim l) b)). destruct (IH b' (h || b')) as [E Hs]. rewrite E.
  cbn [snd]. split; [done|]. intros H1 H2. destruct (Hs H1 H2) as [Ho ->]. unfold scan_state in H2.
  cbn [foldl] in H2. rewrite H2, orb_true_r in Ho. done.
Qed.

(** Whether the text is inside [exclusions] at its end. *)
Definition in_section (s : list Z) : bool := scan_state false (fgets_lines s).

(** The text of the list after an addition. *)
Lemma add_text_spec name s entry :
  add_text name (Some s) entry =
  s ++ (if in_section s then [] else c_nl :: lit "[exclusions]" ++ [c_nl]) ++
  lit "exclusion = " ++ entry ++ [c_nl].
Proof.
  unfold add_text, in_section. destruct (add_copy_lines_spec false false (fgets_lines s)) as [E Hs].
  rewrite E. set (h := snd _) in *. rewrite fgets_lines_concat.
  rewrite <- app_assoc. f_equal.
  assert (negb h || negb (scan_state false (fgets_lines s)) =
          negb (scan_state false (fgets_lines s))) as ->.
  { destruct h; [done|]. destruct (scan_state false (fgets_lines s)) eqn:Es; [|done].
    destruct (Hs eq_refl eq_refl) as [_ En]. by rewrite En in Es. }
  by destruct (scan_state false (fgets_lines s)).
Qed.

(** A text that starts with no space still starts so when trimmed. *)
Lemma shr_trim_cons c x : isspace c = false → ∃ y, shr_trim (c :: x) = c :: y.
Proof.
  intros Hc. destruct (shr_trim_split (c :: x)) as (l & r & E & Hl & Hr).
  assert (∀ k, forallb isspace (c :: k) = true → False) as Hno.
  { intros k Hk. cbn [forallb] in Hk. rewrite Hc in Hk. done. }
  destruct l as [|c' l]; [|injection E as -> _; by destruct (Hno l)].
  destruct (shr_trim (c :: x)) as [|c' t]; [|injection E as -> _; by exists t].
  cbn [app] in E. subst r. by destruct (Hno x).
Qed.

Lemma shr_trim_empty s : shr_trim s = [] → forallb isspace s = true.
Proof.
  intros E. destruct (shr_trim_split s) as (l & r & Es & Hl & Hr). rewrite Es, E.
  by rewrite !forallb_app, Hl, Hr.
Qed.

(** The line that [libnvmf_exclusion_add] writes reads back as the entry. *)
Lemma classify_added e :
  classify_line (shr_trim (lit "exclusion = " ++ e ++ [c_nl])) true =
  (EXCL_LINE_ENTRY (shr_trim e), true).
Proof.
  rewrite app_assoc, shr_trim_nl.
  assert (∀ v, classify_line (lit "exclusion =" ++ v) true = (EXCL_LINE_ENTRY (shr_trim v), true)) as Hc
    by done.
  change (lit "exclusion = ") with (lit "exclusion =" ++ [c_space]).
  destruct (shr_trim_split e) as (l & r & E & Hl & Hr).
  pose proof (shr_trim_trimmed e) as [Th Tl]. destruct (shr_trim e) as [|c t] eqn:Et.
  - assert (shr_trim ((lit "exclusion =" ++ [c_space]) ++ e) = lit "exclusion =" ++ []) as ->.
    { rewrite <- app_assoc. apply (shr_trim_unique [] (lit "exclusion =" ++ [])); try done.
      - cbn [app forallb]. by rewrite (shr_trim_empty _ Et).
      - split; [done|]. intros x y Exy. apply (f_equal last) in Exy.
        rewrite last_snoc in Exy. by injection Exy as <-. }
    by rewrite Hc.
  - assert (shr_trim ((lit "exclusion =" ++ [c_space]) ++ e) =
            lit "exclusion =" ++ [c_space] ++ l ++ c :: t) as ->.
    { rewrite E at 1. rewrite <- (app_assoc (lit _)).
      replace (lit "exclusion =" ++ [c_space] ++ l ++ (c :: t) ++ r)
        with ([] ++ (lit "exclusion =" ++ [c_space] ++ l ++ c :: t) ++ r)
        by (by rewrite app_nil_l, <- !app_assoc).
      apply shr_trim_unique; try done. split; [done|]. intros x y Exy.
      destruct (exists_last (l:=c :: t)) as (t' & z & Ez); [done|].
      rewrite Ez, !app_assoc in Exy. apply app_inj_tail in Exy as [_ <-]. by eapply Tl. }
    rewrite Hc. f_equal. f_equal.
    replace ([c_space] ++ l ++ c :: t) with (([c_space] ++ l) ++ (c :: t) ++ [])
      by (by rewrite app_nil_r).
    by apply shr_trim_unique.
Qed.

(** The header behind its first line. *)
Definition header_rest : list Z := drop 27 (excl_header []).

Lemma excl_header_eq n :
  excl_header n = (lit "# NVMe-oF exclusion list: " ++ n) ++ c_nl :: header_rest.
Proof. unfold excl_header. by rewrite (app_assoc (lit _) n). Qed.

Lemma scan_header_rest :
  scan_entries false (fgets_lines header_rest) = [] ∧
  scan_state false (fgets_lines header_rest) = true ∧ last header_rest = Some c_nl.
Proof. by vm_compute. Qed.

#[global] Opaque header_rest.

(** A comment line. *)
Lemma scan_comment b x lines :
  scan_entries b ((c_hash :: x) :: lines) = scan_entries b lines ∧
  scan_state b ((c_hash :: x) :: lines) = scan_state b lines.
Proof.
  destruct (shr_trim_cons c_hash x eq_refl) as [y Ey]. unfold scan_state.
  cbn [scan_entries foldl]. by rewrite Ey.
Qed.

(** A new list has no entries and ends inside the section. *)
Lemma scan_header n :
  forallb shr_name_char n = true → (length n ≤ NAME_MAX)%nat →
  scan_entries false (fgets_lines (excl_header n)) = [] ∧
  in_section (excl_header n) = true ∧ ends_line (excl_header n).
Proof.
  intros Hn Hl. destruct scan_header_rest as (R1 & R2 & R3). unfold in_section.
  assert (c_nl ∉ lit "# NVMe-oF exclusion list: " ++ n) as Hnl.
  { rewrite forallb_Forall, Forall_forall in Hn. rewrite elem_of_app. intros [Hc|Hc].
    - revert Hc. apply (bool_decide_unpack _). by vm_compute.
    - by apply Hn in Hc. }
  rewrite excl_header_eq. unfold fgets_lines. rewrite fgets_nl, fgets_one; [|done|].
  - change ([] ++ (lit "# NVMe-oF exclusion list: " ++ n) ++ [c_nl])
      with (c_hash :: (lit " NVMe-oF exclusion list: " ++ n) ++ [c_nl]).
    cbn [app]. destruct (scan_comment false ((lit " NVMe-oF exclusion list: " ++ n) ++ [c_nl])
      (fgets_lines header_rest)) as [-> ->]. split; [done|]. split; [done|]. right.
    apply last_Some in R3 as [k ->]. eexists. by rewrite app_comm_cons, app_assoc.
  - rewrite length_app. change (length (lit _)) with 26%nat. unfold EXCL_LINE_MAX, NAME_MAX in *.
    cbn [length]. lia.
Qed.

(** The entries of a text. *)
Definition text_entries (s : list Z) : list (list Z) := scan_entries false (fgets_lines s).

(** The entry is read back wherever the text ends inside the section, on a
    line of its own. *)
Lemma entries_add s e :
  in_section s = true → ends_line s → c_nl ∉ e → (length e + 13 < EXCL_LINE_MAX)%nat →
  text_entries (s ++ lit "exclusion = " ++ e ++ [c_nl]) = text_entries s ++ [shr_trim e].
Proof.
  intros Hs He Hn Hl. unfold text_entries, in_section in *.
  rewrite fgets_app, scan_entries_app, Hs by done. f_equal. rewrite app_assoc.
  unfold fgets_lines. rewrite fgets_one.
  - cbn [scan_entries app]. rewrite <- app_assoc. by rewrite classify_added.
  - rewrite elem_of_app. intros [Hc|Hc]; [|done]. revert Hc. apply (bool_decide_unpack _).
    by vm_compute.
  - rewrite length_app. change (length (lit _)) with 12%nat. cbn [length]. lia.
Qed.

(** Opening the section again. *)
Lemma entries_reopen s :
  text_entries (s ++ c_nl :: lit "[exclusions]" ++ [c_nl]) = text_entries s ∧
  in_section (s ++ c_nl :: lit "[exclusions]" ++ [c_nl]) = true.
Proof.
  unfold text_entries, in_section, fgets_lines. rewrite fgets_nl.
  destruct (scan_final_nl s [] false) as [E1 E2].
  rewrite scan_entries_app, scan_state_app, E1, E2.
  set (b := scan_state false _). clearbody b.
  rewrite <- (app_nil_r (scan_entries false _)) at 2.
  by destruct b; (split; [f_equal|]; by vm_compute).
Qed.

Lemma add_text_entries name old e :
  excl_path_ok name = true → (length (list_title name) ≤ NAME_MAX)%nat →
  c_nl ∉ e → (length e + 13 < EXCL_LINE_MAX)%nat →
  (∀ s, old = Some s → in_section s = false ∨ ends_line s) →
  text_entries (add_text name old e) = default [] (text_entries <$> old) ++ [shr_trim e].
Proof.
  intros Hp Hl Hn He Ho. destruct old as [s|]; cbn [fmap option_fmap option_map default from_option id].
  - rewrite add_text_spec. destruct (in_section s) eqn:Es.
    + cbn [app]. apply entries_add; [done| |done|done].
      destruct (Ho s eq_refl); [congruence|done].
    + destruct (entries_reopen s) as [E1 E2]. rewrite app_assoc, entries_add; [|done| |done|done].
      * by rewrite E1.
      * right. eexists. by rewrite app_comm_cons, app_assoc.
  - destruct (scan_header (list_title name)) as (E1 & E2 & E3); [|done|].
    { destruct name as [n|]; [|done]. cbn in Hp. by to_prop. }
    change (add_text name None e) with
      (excl_header (list_title name) ++ lit "exclusion = " ++ e ++ [c_nl]).
    rewrite entries_add by done. unfold text_entries at 1. by rewrite E1.
Qed.

(** ** The files, read after a write *)

Lemma dropins_find_set l d x :
  List.find (λ p, str_eqb (fst p) d) (dropins_set l d x) = Some (d, x).
Proof.
  induction l as [|[n t] l IH]; cbn [dropins_set List.find fst].
  - unfold str_eqb. by rewrite bool_decide_eq_true_2.
  - destruct (str_eqb n d) eqn:E; cbn [List.find fst]; rewrite E; [|done].
    unfold str_eqb in E. by to_prop; subst.
Qed.

Lemma dropins_find_set_ne l d d' x :
  d ≠ d' →
  List.find (λ p, str_eqb (fst p) d') (dropins_set l d x) = List.find (λ p, str_eqb (fst p) d') l.
Proof.
  intros Hne. induction l as [|[n t] l IH]; cbn [dropins_set List.find fst].
  - unfold str_eqb. by rewrite bool_decide_eq_false_2.
  - destruct (str_eqb n d) eqn:E; cbn [List.find fst]; [|by rewrite IH].
    unfold str_eqb in E. to_prop. subst n. unfold str_eqb. by rewrite bool_decide_eq_false_2.
Qed.

Lemma fs_get_set fs name x : fs_get (fs_set fs name x) name = Some x.
Proof. destruct name as [n|]; [|done]. cbn [fs_get fs_set fs_dropins]. by rewrite dropins_find_set. Qed.

Lemma fs_get_set_ne fs name name' x :
  name ≠ name' → fs_get (fs_set fs name x) name' = fs_get fs name'.
Proof.
  intros Hne. destruct name as [n|], name' as [n'|]; try done. cbn [fs_get fs_set fs_dropins].
  rewrite dropins_find_set_ne; [done|]. intros E. apply Hne. unfold dropin_name in E.
  by apply app_inv_tail in E as ->.
Qed.

Lemma scan_conf_entries s fn : scan_conf_file (Some s) fn = existsb fn (text_entries s).
Proof. apply scan_lines_entries. Qed.

Lemma dropins_exists_set (P : list Z * list Z → bool) l d x b :
  P (d, x) = match List.find (λ p, str_eqb (fst p) d) l with Some p => P p | None => false end || b →
  existsb P (dropins_set l d x) = existsb P l || b.
Proof.
  induction l as [|[n t] l IH]; cbn [dropins_set List.find fst existsb]; intros Hx.
  - by rewrite Hx, orb_false_r.
  - destruct (str_eqb n d) eqn:E; cbn [existsb].
    + unfold str_eqb in E. to_prop. subst n. rewrite Hx.
      by destruct (P (d, t)), b, (existsb P l).
    + rewrite IH by done. by rewrite orb_assoc.
Qed.

Lemma is_conf_dropin n : n ≠ [] → is_conf (dropin_name n) = true.
Proof.
  intros Hn. unfold is_conf, dropin_name. rewrite length_app. change (length (lit ".conf")) with 5%nat.
  rewrite Nat.add_sub, drop_app_length. destruct n as [|c n]; [done|]. cbn [length].
  by replace (5 <? S (length n) + 5)%nat with true by (symmetry; apply Nat.ltb_lt; lia).
Qed.

Section ExclusionSpec.
Context `{Alloc} `{Inet} `{FileIo}.

(** Replacing one list changes the match by what that list matches. *)
Lemma match_set fs name x t b :
  excl_path_ok name = true →
  scan_conf_file (Some x) (λ e, entry_matches e t) =
    scan_conf_file (fs_get fs name) (λ e, entry_matches e t) || b →
  libnvmf_exclusion_match (fs_set fs name x) t = libnvmf_exclusion_match fs t || b.
Proof.
  intros Hp Hx. unfold libnvmf_exclusion_match. destruct name as [n|]; cbn [fs_set fs_main fs_dropins fs_get].
  - destruct (scan_conf_file (fs_main fs) _); [done|]. apply dropins_exists_set.
    cbn [fst snd]. cbn in Hp. to_prop. rewrite is_conf_dropin by (by apply nonempty_spec).
    cbn [andb]. rewrite Hx. cbn [fs_get]. f_equal.
    destruct (List.find _ (fs_dropins fs)) as [[d s]|] eqn:E; [|done].
    apply List.find_some in E as [_ E]. cbn [fst] in E. unfold str_eqb in E. to_prop. subst d.
    cbn [fst snd fmap option_fmap option_map]. by rewrite is_conf_dropin by (by apply nonempty_spec).
  - rewrite Hx. cbn [fs_get]. by destruct (scan_conf_file (fs_main fs) _), b, (existsb _ _).
Qed.

(** The file can take one more line. *)
Definition appendable (fs : excl_fs) (name : option (list Z)) : Prop :=
  ∀ s, fs_get fs name = Some s → in_section s = false ∨ ends_line s.

(** The calls of [libnvmf_exclusion_add] that end it with an error. *)
Definition add_calls : list io_op :=
  [IO_MKDIR; IO_MKSTEMP; IO_FCHMOD; IO_FDOPEN; IO_WRITE; IO_FSYNC; IO_FCLOSE; IO_RENAME].

(** The entries of a list, none when it is absent. *)
Definition list_entries (fs : excl_fs) (name : option (list Z)) : list (list Z) :=
  default [] (text_entries <$> fs_get fs name).

(** The call, for an entry and a list that are valid. *)
Lemma add_unfold fs name e :
  entry_valid (Some e) = true → excl_path_ok name = true →
  libnvmf_exclusion_add fs name (Some e) =
  match first_fault add_calls with
  | Some err => (fs, Some err)
  | None => (fs_set fs name (add_text name (fopen_list fs name) e), None)
  end.
Proof.
  intros Hv Hp. unfold libnvmf_exclusion_add, add_calls. rewrite Hv, Hp. cbn [negb first_fault].
  by destruct (io_fault IO_MKDIR), (io_fault IO_MKSTEMP), (io_fault IO_FCHMOD), (io_fault IO_FDOPEN),
    (io_fault IO_WRITE), (io_fault IO_FSYNC), (io_fault IO_FCLOSE), (io_fault IO_RENAME).
Qed.

Lemma add_entries fs name e :
  entry_valid (Some e) = true → excl_path_ok name = true →
  (length (list_title name) ≤ NAME_MAX)%nat →
  c_nl ∉ e → (length e + 13 < EXCL_LINE_MAX)%nat → appendable fs name → io_fault IO_FOPEN = None →
  first_fault add_calls = None →
  ∃ x, libnvmf_exclusion_add fs name (Some e) = (fs_set fs name x, None) ∧
    text_entries x = list_entries fs name ++ [shr_trim e].
Proof.
  intros Hv Hp Hl Hn He Ha Ho Hc. rewrite add_unfold, Hc by done. unfold fopen_list. rewrite Ho.
  eexists. split; [done|]. by apply add_text_entries.
Qed.

Lemma add_match fs name e t :
  entry_valid (Some e) = true → excl_path_ok name = true →
  (length (list_title name) ≤ NAME_MAX)%nat →
  c_nl ∉ e → (length e + 13 < EXCL_LINE_MAX)%nat → appendable fs name → io_fault IO_FOPEN = None →
  first_fault add_calls = None →
  libnvmf_exclusion_match (fst (libnvmf_exclusion_add fs name (Some e))) t =
  libnvmf_exclusion_match fs t || entry_matches (shr_trim e) t.
Proof.
  intros Hv Hp Hl Hn He Ha Ho Hc. destruct (add_entries fs name e) as (x & -> & Hx); try done. cbn [fst].
  apply match_set; [done|]. rewrite scan_conf_entries, Hx, existsb_app. cbn [existsb].
  rewrite orb_false_r. f_equal. unfold list_entries.
  destruct (fs_get fs name) as [s|]; [|done]. by rewrite scan_conf_entries.
Qed.

(** C40: Adding a valid one-line entry that fits the reader's line buffer to
    a list with a valid name whose file is absent, ends a line, or does not end
    inside the section.  If a call on the files fails (the directory, the
    temporary file, its mode, its flush, sync or close, the rename), the error
    of the first that does is returned and no list changes.  Otherwise the call
    succeeds; the readers of that list then see the entries it had, in order,
    and the new one, trimmed; every other list is untouched; and a target is
    excluded afterwards exactly when it was before or the new entry matches it.
    It is assumed that the old list, where it is there, can be opened; what
    happens otherwise is [exclusion_add_unopened]. *)
Theorem exclusion_add_spec fs name e :
  entry_valid (Some e) = true → excl_path_ok name = true →
  (length (list_title name) ≤ NAME_MAX)%nat →
  c_nl ∉ e → (length e + 13 < EXCL_LINE_MAX)%nat → appendable fs name → io_fault IO_FOPEN = None →
  match first_fault add_calls with
  | Some err => libnvmf_exclusion_add fs name (Some e) = (fs, Some err)
  | None =>
      ∃ fs', libnvmf_exclusion_add fs name (Some e) = (fs', None) ∧
        libnvmf_exclusion_entry_for_each fs' name = Ok (list_entries fs name ++ [shr_trim e]) ∧
        (∀ name', name' ≠ name → fs_get fs' name' = fs_get fs name') ∧
        (∀ t, libnvmf_exclusion_match fs' t =
           libnvmf_exclusion_match fs t || entry_matches (shr_trim e) t)
  end.
Proof.
  intros Hv Hp Hl Hn He Ha Ho. destruct (first_fault add_calls) as [err|] eqn:Hc.
  { by rewrite add_unfold, Hc by done. }
  assert (Hm := λ t, add_match fs name e t Hv Hp Hl Hn He Ha Ho Hc).
  destruct (add_entries fs name e) as (x & E & Hx); try done. rewrite E in Hm.
  exists (fs_set fs name x). split; [done|]. split; [|split; [|done]].
  - unfold libnvmf_exclusion_entry_for_each. rewrite Hp, fs_get_set. cbn [negb]. by rewrite <- Hx.
  - intros name' Hne. by apply fs_get_set_ne.
Qed.

End ExclusionSpec.

(** ** Concrete lists *)

Definition fs_none : excl_fs := {| fs_main := None; fs_dropins := [] |}.

Lemma exclusion_add_spec_witness :
  ∃ fs', @libnvmf_exclusion_add all_memory hex_inet all_io fs_none (Some (lit "lab")) (Some (lit " nqn=a")) =
      (fs', None) ∧
    libnvmf_exclusion_entry_for_each fs' (Some (lit "lab")) = Ok [lit "nqn=a"].
Proof.
  destruct (@exclusion_add_spec all_memory hex_inet all_io fs_none (Some (lit "lab")) (lit " nqn=a"))
    as (fs' & E & En & _).
  - by vm_compute.
  - done.
  - apply (bool_decide_unpack _). by vm_compute.
  - apply (bool_decide_unpack _). by vm_compute.
  - apply (bool_decide_unpack _). by vm_compute.
  - intros s. done.
  - done.
  - exists fs'. split; [done|]. rewrite En. by vm_compute.
Defined.

(** A disk that is full: the error is returned and the lists are as before. *)
Example exclusion_add_full :
  @libnvmf_exclusion_add all_memory hex_inet (λ op, match op with IO_WRITE => Some ENOSPC | _ => None end)
    fs_none (Some (lit "lab")) (Some (lit "nqn=a")) = (fs_none, Some ENOSPC).
Proof. by vm_compute. Qed.

(** A hand-edited list whose last line has no newline. *)
Definition fs_no_newline : excl_fs :=
  {| fs_main := Some (lit "[exclusions]" ++ [c_nl] ++ lit "exclusion = nqn=a"); fs_dropins := [] |}.

(** The target with a subsystem NQN and nothing else. *)
Definition nqn_target (n : list Z) : libnvmf_tid := upd tid_null Nqn (Some n).

(** The code does not end the last line before it appends: adding "nqn=b"
    to a list whose last line "exclusion = nqn=a" has no newline succeeds and
    leaves one line that is neither entry.  The target "a" was excluded and
    is not any more, and "b" is not excluded either. *)
Theorem exclusion_add_no_newline :
  let '(fs', err) := @libnvmf_exclusion_add all_memory hex_inet all_io fs_no_newline None (Some (lit "nqn=b")) in
  err = None ∧
  @libnvmf_exclusion_match all_memory hex_inet fs_no_newline (nqn_target (lit "a")) = true ∧
  @libnvmf_exclusion_match all_memory hex_inet fs' (nqn_target (lit "a")) = false ∧
  @libnvmf_exclusion_match all_memory hex_inet fs' (nqn_target (lit "b")) = false ∧
  libnvmf_exclusion_entry_for_each fs' None = Ok [lit "nqn=aexclusion = nqn=b"].
Proof. by vm_compute. Qed.

(** The code takes a list that it cannot open (too many open files, an error
    of the disk) for one that is not there, and puts a new one in its place:
    the call succeeds, the list has the new entry only, and the target "a" that
    was excluded is not any more. *)
Theorem exclusion_add_unopened :
  let fs := {| fs_main := Some (lit "[exclusions]" ++ [c_nl] ++ lit "exclusion = nqn=a" ++ [c_nl]);
               fs_dropins := [] |} in
  let broken op := match op with IO_FOPEN => Some EIO | _ => None end in
  let '(fs', err) := @libnvmf_exclusion_add all_memory hex_inet broken fs None (Some (lit "nqn=b")) in
  err = None ∧ libnvmf_exclusion_entry_for_each fs' None = Ok [lit "nqn=b"] ∧
  @libnvmf_exclusion_match all_memory hex_inet fs (nqn_target (lit "a")) = true ∧
  @libnvmf_exclusion_match all_memory hex_inet fs' (nqn_target (lit "a")) = false.
Proof. by vm_compute. Qed.

(** ** Removing an entry *)

(** The first occurrence of an entry taken out. *)
Fixpoint remove_entry_once (e : list Z) (l : list (list Z)) : option (list (list Z)) :=
  match l with
  | [] => None
  | x :: l' => if decide (x = e) then Some l' else (x ::.) <$> remove_entry_once e l'
  end.

(** Every line fits the reader's buffer. *)
Definition short_lines (s : list Z) : Prop :=
  Forall (λ l, (length l < EXCL_LINE_MAX - 1)%nat) (fgets_lines s).

Definition whole_line (l : list Z) : Prop :=
  ∃ a, l = a ++ [c_nl] ∧ (c_nl ∉ a) ∧ (length a < EXCL_LINE_MAX - 1)%nat.

(** Whole lines, and a last one without its newline. *)
Definition chunked (ls : list (list Z)) : Prop :=
  ∃ ws tl, ls = ws ++ (match tl with [] => [] | _ => [tl] end) ∧ Forall whole_line ws ∧
    (c_nl ∉ tl) ∧ (length tl < EXCL_LINE_MAX - 1)%nat.

Lemma fgets_tail tl acc :
  c_nl ∉ tl → (length acc + length tl < EXCL_LINE_MAX - 1)%nat →
  fgets_from acc tl = match acc ++ tl with [] => [] | l => [l] end.
Proof.
  revert acc. induction tl as [|c tl IH]; intros acc Hn Hl; cbn [fgets_from].
  { rewrite app_nil_r. by destruct acc. }
  apply not_elem_of_cons in Hn as [Hc Hn].
  cbn [length] in Hl. destruct (Z.eqb_spec c c_nl); [by subst c|]. cbn [orb].
  rewrite length_app. cbn [length].
  destruct (Nat.eqb_spec (length acc + 1) (EXCL_LINE_MAX - 1)); [lia|].
  rewrite IH; [by rewrite <- app_assoc|done|rewrite length_app; cbn [length]; lia].
Qed.

Lemma chunked_fgets ls : chunked ls → fgets_lines (concat ls) = ls.
Proof.
  intros (ws & tl & -> & Hws & Hn & Hl). induction Hws as [|w ws (a & -> & Ha & Hla) Hws IH].
  - cbn [app]. assert (concat (match tl with [] => [] | _ => [tl] end) = tl) as ->.
    { destruct tl; [done|]. cbn [concat]. by rewrite app_nil_r. }
    unfold fgets_lines. rewrite fgets_tail by done. by destruct tl.
  - cbn [app concat]. rewrite fgets_app by (right; by exists a). rewrite IH.
    unfold fgets_lines. by rewrite fgets_one.
Qed.

Lemma fgets_chunked s acc :
  c_nl ∉ acc → (length acc < EXCL_LINE_MAX - 1)%nat →
  Forall (λ l, (length l < EXCL_LINE_MAX - 1)%nat) (fgets_from acc s) → chunked (fgets_from acc s).
Proof.
  revert acc. induction s as [|c s IH]; intros acc Hn Hl Hs; cbn [fgets_from] in *.
  { exists [], acc. split; [by destruct acc|]. done. }
  destruct (Z.eqb_spec c c_nl) as [->|Hc]; cbn [orb] in *.
  - apply list.Forall_cons in Hs as [Ho Hs]. destruct (IH []) as (ws & tl & E & Hws & Ht);
      [apply not_elem_of_nil|cbn; lia|done|].
    rewrite E. exists ((acc ++ [c_nl]) :: ws), tl. split; [done|]. split; [|done].
    constructor; [|done]. by exists acc.
  - destruct (Nat.eqb_spec (length (acc ++ [c])) (EXCL_LINE_MAX - 1)) as [E|E].
    + apply list.Forall_cons in Hs as [Ho _]. cbn beta in Ho. lia.
    + apply IH; [|..|done].
      { rewrite elem_of_app, list_elem_of_singleton. by intros [?|<-]. }
      rewrite length_app in *. cbn [length] in *. lia.
Qed.

Lemma chunked_delete l1 x l2 : chunked (l1 ++ x :: l2) → chunked (l1 ++ l2).
Proof.
  intros (ws & tl & E & Hws & Hn & Hl).
  destruct l2 as [|y l2 _] using rev_ind.
  - rewrite app_nil_r. destruct tl as [|c tl].
    + rewrite app_nil_r in E. subst ws. exists l1, []. rewrite app_nil_r.
      apply Forall_app in Hws as [? _]. split_and!; [done|done|apply not_elem_of_nil|cbn; lia].
    + apply app_inj_tail in E as [-> _]. exists ws, []. rewrite app_nil_r.
      split_and!; [done|done|apply not_elem_of_nil|cbn; lia].
  - rewrite app_comm_cons, app_assoc in E. destruct tl as [|c tl].
    + rewrite app_nil_r in E. subst ws. exists (l1 ++ l2 ++ [y]), []. rewrite app_nil_r.
      split_and!; [done| |apply not_elem_of_nil|cbn; lia].
      rewrite !Forall_app, list.Forall_cons in Hws. rewrite !Forall_app. tauto.
    + apply app_inj_tail in E as [E ->]. exists (l1 ++ l2), (c :: tl).
      split_and!; [by rewrite app_assoc| |done|done].
      subst ws. rewrite Forall_app, list.Forall_cons in Hws. rewrite Forall_app. tauto.
Qed.

Lemma remove_lines_done e b lines : remove_lines e b true lines = (concat lines, true).
Proof.
  revert b. induction lines as [|l lines IH]; intros b; cbn [remove_lines concat]; [done|].
  destruct (classify_line (shr_trim l) b) as [[] b']; cbn [negb andb]; by rewrite IH.
Qed.

Lemma classify_entry s b v b' : classify_line s b = (EXCL_LINE_ENTRY v, b') → b' = b.
Proof.
  unfold classify_line. destruct s as [|c s]; [done|]. repeat case_match; intros; by simplify_eq.
Qed.

(** What the copy loop does to the entries. *)
Lemma remove_lines_spec e b lines :
  match remove_entry_once e (scan_entries b lines) with
  | Some l => ∃ l1 x l2, lines = l1 ++ x :: l2 ∧
      remove_lines e b false lines = (concat (l1 ++ l2), true) ∧ scan_entries b (l1 ++ l2) = l
  | None => snd (remove_lines e b false lines) = false
  end.
Proof.
  revert b. induction lines as [|line lines IH]; intros b; [done|].
  cbn [remove_lines scan_entries].
  destruct (classify_line (shr_trim line) b) as [ty b'] eqn:Ec. cbn [negb andb].
  assert (∀ ls, scan_entries b (line :: ls) =
    match ty with EXCL_LINE_ENTRY v => v :: scan_entries b' ls | _ => scan_entries b' ls end) as Hs.
  { intros ls. cbn [scan_entries]. rewrite Ec. by destruct ty. }
  specialize (IH b'). destruct ty as [| |v| |].
  3:{ cbn [remove_entry_once]. unfold str_eqb. destruct (decide (v = e)) as [->|Hne].
      - rewrite bool_decide_eq_true_2 by done. apply classify_entry in Ec as ->.
        exists [], line, lines. rewrite remove_lines_done. done.
      - rewrite bool_decide_eq_false_2 by done.
        destruct (remove_entry_once e (scan_entries b' lines)) as [l|]; cbn [fmap option_fmap option_map].
        + destruct IH as (l1 & x & l2 & -> & E & El). rewrite E.
          exists (line :: l1), x, l2. cbn [app concat]. by rewrite Hs, El.
        + by destruct (remove_lines e b' false lines). }
  all: destruct (remove_entry_once e (scan_entries b' lines)) as [l|];
    [destruct IH as (l1 & x & l2 & -> & E & El); rewrite E;
     exists (line :: l1), x, l2; cbn [app concat]; by rewrite Hs, El
    |by destruct (remove_lines e b' false lines)].
Qed.

(** Removing an entry from a list whose lines fit the reader's buffer: if
    the list has the entry, its first occurrence is gone and the other
    entries are kept in their order, and every other list is untouched; if
    it does not, the call fails with ENOENT and nothing changes.  No call on
    the files fails. *)
Theorem exclusion_remove_spec `{FileIo} fs name e s :
  (∀ op, io_fault op = None) → excl_path_ok name = true → fs_get fs name = Some s → short_lines s →
  match remove_entry_once e (text_entries s) with
  | Some l =>
      ∃ fs', libnvmf_exclusion_remove fs name e = (fs', None) ∧
        libnvmf_exclusion_entry_for_each fs' name = Ok l ∧
        (∀ name', name' ≠ name → fs_get fs' name' = fs_get fs name')
  | None => libnvmf_exclusion_remove fs name e = (fs, Some ENOENT)
  end.
Proof.
  intros Hio Hp Hg Hs. unfold libnvmf_exclusion_remove, libnvmf_exclusion_entry_for_each, text_entries, fopen_list.
  cbn [first_fault]. rewrite !Hio, Hp, Hg. cbn [negb]. pose proof (remove_lines_spec e false (fgets_lines s)) as Hr.
  destruct (remove_entry_once e (scan_entries false (fgets_lines s))) as [l|].
  - destruct Hr as (l1 & x & l2 & El & -> & Hl). cbn [negb]. eexists. split; [done|].
    rewrite fs_get_set. split; [|intros name' Hne; by apply fs_get_set_ne].
    rewrite chunked_fgets; [by rewrite Hl|]. apply (chunked_delete l1 x). rewrite <- El.
    apply fgets_chunked; [apply not_elem_of_nil|cbn; lia|done].
  - destruct (remove_lines e false false (fgets_lines s)) as [out r]. cbn [snd] in Hr. by subst r.
Qed.

Definition fs_two : excl_fs :=
  {| fs_main := Some (lit "[exclusions]" ++ [c_nl] ++ lit "exclusion = nqn=a" ++ [c_nl] ++
       lit "# kept" ++ [c_nl] ++ lit "exclusion = nqn=b"); fs_dropins := [] |}.

Lemma exclusion_remove_spec_witness :
  ∃ fs', @libnvmf_exclusion_remove all_io fs_two None (lit "nqn=a") = (fs', None) ∧
    libnvmf_exclusion_entry_for_each fs' None = Ok [lit "nqn=b"].
Proof.
  destruct (@exclusion_remove_spec all_io fs_two None (lit "nqn=a")
    (lit "[exclusions]" ++ [c_nl] ++ lit "exclusion = nqn=a" ++ [c_nl] ++
     lit "# kept" ++ [c_nl] ++ lit "exclusion = nqn=b")) as (fs' & E1 & E2 & _).
  - done.
  - done.
  - done.
  - unfold short_lines. apply (bool_decide_unpack _). by vm_compute.
  - exists fs'. split; [done|]. rewrite E2. by vm_compute.
Defined.

(** ** Editing *)

Section Edit.
Context `{AllocOk} `{Inet} `{FileIo}.

Lemma content_hash_nonzero s : content_hash s ≠ 0.
Proof. unfold content_hash. by destruct (Z.eqb_spec (fnv1a_64 s) 0). Qed.

(** The version a reader gets is the one a writer compares with. *)
Lemma read_version fs name s v :
  libnvmf_exclusion_read fs name = Ok (s, v) →
  excl_path_ok name = true ∧ hash_file (fs_get fs name) = Ok v ∧
  s = default [] (fs_get fs name).
Proof.
  unfold libnvmf_exclusion_read, hash_file, slurp. destruct (excl_path_ok name); [|done]. cbn [negb].
  destruct (fs_get fs name) as [x|]; [|rewrite strdup_id; by intros [= <- <-]].
  destruct (_ <? _); [done|]. rewrite strdup_id. by intros [= <- <-].
Qed.

(** Two editors of one list.  Both read the same version; the first writes
    a text that validates, and its write succeeds and is what the list then
    holds.  The second's write is refused with ESTALE and changes nothing,
    unless the first text hashes to the version both read; where the list
    was absent at first it is always refused.  No call on the files fails. *)
Theorem exclusion_write_stale fs name s v t1 t2 :
  (∀ op, io_fault op = None) →
  libnvmf_exclusion_read fs name = Ok (s, v) →
  validate_conf_buf t1 = None → validate_conf_buf t2 = None →
  Z.of_nat (length t1) ≤ EXCL_FILE_MAX →
  ∃ fs1, libnvmf_exclusion_write fs name t1 v = (fs1, None) ∧
    libnvmf_exclusion_read fs1 name = Ok (t1, content_hash t1) ∧
    (content_hash t1 ≠ v → libnvmf_exclusion_write fs1 name t2 v = (fs1, Some ESTALE)) ∧
    (fs_get fs name = None → content_hash t1 ≠ v).
Proof.
  intros Hio (Hp & Hh & _)%read_version V1 V2 Hl.
  assert (slurp (Some t1) = Ok t1) as Hs.
  { unfold slurp. rewrite strdup_id. destruct (Z.ltb_spec EXCL_FILE_MAX (Z.of_nat (length t1))); [lia|done]. }
  unfold libnvmf_exclusion_write, libnvmf_exclusion_read. cbn [first_fault]. rewrite !Hio, V1, V2, Hp, Hh, Z.eqb_refl. cbn [negb].
  eexists. split; [done|]. unfold hash_file. rewrite fs_get_set, Hs. split; [done|]. split.
  - intros Hv. by destruct (Z.eqb_spec (content_hash t1) v).
  - intros Hg. rewrite Hg in Hh. injection Hh as <-. apply content_hash_nonzero.
Qed.

End Edit.

Lemma exclusion_write_stale_witness :
  ∃ fs1, @libnvmf_exclusion_write all_memory hex_inet all_io fs_none None (lit "# one") 0 = (fs1, None) ∧
    @libnvmf_exclusion_write all_memory hex_inet all_io fs1 None (lit "# two") 0 = (fs1, Some ESTALE).
Proof.
  destruct (@exclusion_write_stale all_memory _ hex_inet all_io fs_none None [] 0 (lit "# one") (lit "# two"))
    as (fs1 & E1 & _ & E2 & E3).
  - done.
  - by vm_compute.
  - by vm_compute.
  - by vm_compute.
  - by vm_compute.
  - exists fs1. split; [exact E1|]. apply E2, E3. reflexivity.
Defined.

(** ** Entries from a controller *)

(** The transport ID of the fields that an entry made from a controller
    has. *)
Definition ctrl_tid (c : field → option (list Z)) : libnvmf_tid :=
  let set v := match v with Some (_ :: _) => v | _ => None end in
  {| transport := c Transport; traddr := c Traddr; trsvcid := set (c Trsvcid);
     subsysnqn := c Nqn; host_traddr := None; host_iface := set (c HostIface);
     hostnqn := None; hostid := None; canonical_cache := None; str_cache := None |}.

(** [excl_entry_from_ctrl] writes the canonical form of that ID. *)
Lemma entry_from_ctrl_canonical c :
  is_Some (c Transport) → is_Some (c Traddr) → is_Some (c Nqn) →
  (length (canonical_full (ctrl_tid c)) < EXCL_LINE_MAX)%nat →
  excl_entry_from_ctrl c = Ok (canonical_full (ctrl_tid c)).
Proof.
  intros [tr Htr] [ad Had] [nq Hnq] Hl. unfold excl_entry_from_ctrl. rewrite Htr, Had, Hnq.
  match goal with |- (if (length ?s <? _)%nat then _ else _) = _ =>
    assert (s = canonical_full (ctrl_tid c)) as -> end; [|apply Nat.ltb_lt in Hl; by rewrite Hl].
  unfold canonical_full, ctrl_tid, segs, seg. cbn [omap list_omap all_fields get transport traddr
    trsvcid subsysnqn host_traddr host_iface hostnqn hostid fmap option_fmap option_map].
  rewrite Htr, Had, Hnq.
  destruct (c Trsvcid) as [[|x sv]|], (c HostIface) as [[|y fc]|];
    cbn [fmap option_fmap option_map join key_of]; rewrite ?app_nil_r;
    repeat (rewrite <- app_assoc || cbn [app]); done.
Qed.

Lemma trimmed_tail c pre v : isspace c = false → v ≠ [] → trimmed v → trimmed (c :: pre ++ v).
Proof.
  intros Hc Hv [_ Ht]. split; [done|]. intros l x E.
  destruct v as [|y v _] using rev_ind; [done|].
  rewrite app_comm_cons, app_assoc in E. apply app_inj_tail in E as [_ <-]. by eapply Ht.
Qed.

(** The canonical form of clean fields has no blanks around it. *)
Lemma join_segs_trimmed t fs :
  clean_tid t → segs t fs ≠ [] → trimmed (join c_semi (segs t fs)).
Proof.
  intros Hc. induction fs as [|f fs IH]; [done|]. unfold segs, seg in *. cbn [omap list_omap].
  destruct (get t f) as [v|] eqn:Ev; cbn [fmap option_fmap option_map]; [|done]. intros _.
  destruct (Hc f v Ev) as (Hne & Hv & _).
  assert (∃ k ks, key_of f = k :: ks ∧ isspace k = false) as (k & ks & -> & Hk)
    by (destruct f; eexists _, _; split; done).
  destruct (omap _ fs) as [|s l] eqn:E.
  - cbn [join app].
    replace (k :: ks ++ c_eq :: v) with (k :: (ks ++ [c_eq]) ++ v) by (by rewrite <- app_assoc).
    by apply trimmed_tail.
  - rewrite join_cons by done. cbn [app].
    replace (k :: (ks ++ c_eq :: v) ++ c_semi :: join c_semi (s :: l))
      with (k :: ((ks ++ c_eq :: v) ++ [c_semi]) ++ join c_semi (s :: l))
      by (by rewrite <- (app_assoc _ [c_semi])).
    apply trimmed_tail; [done| |by apply IH].
    assert (s ≠ []) as Hs.
    { assert (s ∈ omap (λ g, (λ w, key_of g ++ c_eq :: w) <$> get t g) fs) as Hin by (rewrite E; by left).
      apply list_elem_of_omap in Hin as (g & _ & Hg). destruct (get t g); [|done].
      injection Hg as <-. by destruct g. }
    destruct l; [done|]. rewrite join_cons by done. by destruct s.
Qed.

Section Ctrl.
Context `{AllocOk} `{InetLaws} `{FileIo}.

Lemma entry_parse p :
  clean_tid p → tid_sanitize_addr p = Ok p → canonical_cache p = None → str_cache p = None →
  is_Some (get p Nqn) →
  entry_valid (Some (canonical_full p)) = true ∧
  (∀ t, entry_matches (canonical_full p) t = tid_subset_match p t).
Proof.
  intros Hc Hs Hcc Hsc [n Hn]. unfold entry_valid, entry_matches, libnvmf_tid_parse_strict.
  rewrite parse_canonical by done.
  assert (libnvmf_tid_is_empty (Some p) = false) as ->.
  { unfold libnvmf_tid_is_empty, all_fields. cbn [forallb]. rewrite Hn.
    rewrite (bool_decide_eq_true_2 (is_Some (Some n))) by done. cbn [negb andb].
    by rewrite !andb_false_r. }
  done.
Qed.

(** An ID matches every target it is a part of. *)
Lemma subset_match_refl p t :
  (∀ f v, get p f = Some v → get t f = Some v) → tid_subset_match p t = true.
Proof.
  intros Hp. unfold tid_subset_match.
  assert (∀ f, field_match p t f = true) as Hf.
  { intros f. unfold field_match. destruct (get p f) as [v|] eqn:E; [|done].
    rewrite (Hp f v E). unfold shr_streq0, str_eqb. by apply bool_decide_eq_true. }
  assert (∀ f, addr_match p t f = true) as Ha.
  { intros f. unfold addr_match. destruct (get p f) as [v|] eqn:E; [|done].
    rewrite (Hp f v E). unfold addr_equal, shr_streq0 at 2, shr_streqcase0, str_eqb, strcaseeq.
    case_match; [by apply bool_decide_eq_true|]. rewrite (bool_decide_eq_true_2 (v = v)) by done.
    by rewrite orb_true_r. }
  by rewrite !Hf, !Ha.
Qed.

(** Excluding a controller excludes it: for a controller whose fields are
    clean and whose address is canonical, [libnvmf_exclusion_add_ctrl]
    succeeds on a list that takes another line, and the exclusion matches
    every transport ID with the controller's transport, address, service,
    subsystem and interface, whatever its host identity is.  No call on the
    files fails. *)
Theorem exclusion_add_ctrl_matches fs name c t :
  (∀ op, io_fault op = None) →
  is_Some (c Transport) → is_Some (c Traddr) → is_Some (c Nqn) →
  clean_tid (ctrl_tid c) → tid_sanitize_addr (ctrl_tid c) = Ok (ctrl_tid c) →
  c_nl ∉ canonical_full (ctrl_tid c) →
  (length (canonical_full (ctrl_tid c)) + 13 < EXCL_LINE_MAX)%nat →
  excl_path_ok name = true → (length (list_title name) ≤ NAME_MAX)%nat → appendable fs name →
  (∀ f, f ∈ [Transport; Traddr; Trsvcid; Nqn; HostIface] → get t f = c f) →
  ∃ fs', libnvmf_exclusion_add_ctrl fs name c = (fs', None) ∧ libnvmf_exclusion_match fs' t = true.
Proof.
  intros Hio Htr Had Hnq Hc Hs Hn Hl Hp Ht Ha Hf.
  assert (first_fault add_calls = None) as Hok by (unfold add_calls; cbn [first_fault]; by rewrite !Hio).
  destruct (entry_parse (ctrl_tid c)) as [Hv Hm]; try done.
  unfold libnvmf_exclusion_add_ctrl. rewrite entry_from_ctrl_canonical by (done || lia).
  destruct (add_entries fs name (canonical_full (ctrl_tid c))) as (x & E & _); try done.
  pose proof (add_match fs name (canonical_full (ctrl_tid c)) t Hv Hp Ht Hn Hl Ha (Hio _) Hok) as Hx.
  rewrite E in *. eexists. split; [done|]. cbn [fst] in Hx. rewrite Hx.
  rewrite shr_trim_id.
  - rewrite Hm, subset_match_refl; [by rewrite orb_true_r|].
    intros f v Hv'. destruct f; try done; cbn in Hv'; (rewrite Hf by set_solver); try done.
    + by destruct (c Trsvcid) as [[]|].
    + by destruct (c HostIface) as [[]|].
  - apply join_segs_trimmed; [done|]. destruct Htr as [tr Htr]. unfold segs, seg.
    cbn [omap list_omap all_fields get ctrl_tid transport]. by rewrite Htr.
Qed.

End Ctrl.

(** A TCP controller on the discovery port. *)
Definition sample_ctrl (f : field) : option (list Z) :=
  match f with
  | Transport => Some (lit "tcp") | Traddr => Some (lit "0a000001") | Trsvcid => Some (lit "4420")
  | Nqn => Some (lit "nqn.a") | HostIface => Some [] | Hostnqn => Some (lit "nqn.host")
  | _ => None
  end.
Definition sample_ctrl_tid : libnvmf_tid :=
  upd (upd (ctrl_tid sample_ctrl) HostIface (Some [])) Hostnqn (Some (lit "nqn.host")).

Lemma exclusion_add_ctrl_matches_witness :
  ∃ fs', @libnvmf_exclusion_add_ctrl all_memory hex_inet all_io fs_none None sample_ctrl = (fs', None) ∧
    @libnvmf_exclusion_match all_memory hex_inet fs' sample_ctrl_tid = true.
Proof.
  apply (@exclusion_add_ctrl_matches all_memory _ hex_inet _ all_io fs_none None sample_ctrl sample_ctrl_tid).
  - done.
  - eexists. reflexivity.
  - eexists. reflexivity.
  - eexists. reflexivity.
  - apply (@tid_parse_clean all_memory _ hex_inet _ true (canonical_full (ctrl_tid sample_ctrl))).
    vm_compute. reflexivity.
  - vm_compute. reflexivity.
  - apply (bool_decide_unpack _). by vm_compute.
  - apply (bool_decide_unpack _). by vm_compute.
  - reflexivity.
  - apply (bool_decide_unpack _). by vm_compute.
  - intros s. done.
  - apply Forall_forall. repeat constructor.
Defined.
