(* ===== verification/Ctrl.v ===== *)
(** * Controllers and the topology tree: [libnvme/src/nvme/tree.c],
    [tree-linux.c] and [tree-fabrics.c]

    A host has subsystems and a subsystem has controllers.  A controller is an
    object the callers point to: it is created apart from the tree, joins a
    subsystem when it is connected, and is unlinked when it is freed.  Here
    the controllers are in a store, and subsystems hold their addresses.

    What the code learns from the kernel (sysfs, /dev/nvme-fabrics) is a
    parameter, an answer per call; what it does to the kernel and tells the
    application is recorded in a list of events. *)

From Stdlib Require Import String.
From stdpp Require Import base list numbers gmap.
From S2P Require Import Prelude.
From S2P Require Import CStr.
From S2P Require Import Printf.
From S2P Require Import Parse.
From S2P Require Import Nqn.
From S2P Require Import Tid.
From S2P Require Import DTid.
From S2P Require Import Discovery.
From S2P Require Import Conf.
From S2P Require Import ConfResolve.
From S2P Require Import ConfApply.
From S2P Require Import Io.

#[local] Open Scope io_scope.

(** ** Return values *)

Inductive libnvme_connect_err :=
| ENVME_CONNECT_RESOLVE | ENVME_CONNECT_ADDRFAM | ENVME_CONNECT_TRADDR | ENVME_CONNECT_TARG
| ENVME_CONNECT_AARG | ENVME_CONNECT_OPEN | ENVME_CONNECT_WRITE | ENVME_CONNECT_READ
| ENVME_CONNECT_PARSE | ENVME_CONNECT_INVAL_TR | ENVME_CONNECT_LOOKUP_SUBSYS_NAME
| ENVME_CONNECT_LOOKUP_SUBSYS | ENVME_CONNECT_ALREADY | ENVME_CONNECT_INVAL
| ENVME_CONNECT_ADDRINUSE | ENVME_CONNECT_NODEV | ENVME_CONNECT_OPNOTSUPP
| ENVME_CONNECT_CONNREFUSED | ENVME_CONNECT_ADDRNOTAVAIL | ENVME_CONNECT_IGNORED
| ENVME_CONNECT_NOKEY | ENVME_CONNECT_DRY_RUN.

#[export] Instance connect_err_eq_dec : EqDecision libnvme_connect_err.
Proof. solve_decision. Defined.

(** The [int] of the functions below: 0, or what stands for an error: [-e] for
    an errno or a connect error, a connect error without its sign, or another
    number. *)
Inductive failure :=
| CErrno (e : errno) | CConn (e : libnvme_connect_err) | CPositive (e : libnvme_connect_err)
| CInt (v : Z).
Inductive code := CSuccess | CFail (e : failure).

#[export] Instance failure_eq_dec : EqDecision failure.
Proof. solve_decision. Defined.
#[export] Instance code_eq_dec : EqDecision code.
Proof. solve_decision. Defined.

Definition is_zero (r : code) : bool := bool_decide (r = CSuccess).

(** ** Data *)

(** [struct libnvme_fabrics_config]; [cfg_int] and [cfg_bool] name its fields. *)
Record libnvme_fabrics_config := Cfg {
  cfg_i : cfg_int → Z;
  cfg_b : cfg_bool → bool;
  cfg_keyring_id : Z;
  cfg_tls_key_id : Z;
  cfg_tls_configured_key_id : Z;
}.

Definition set_cfg_i (x : cfg_int) (v : Z) (c : libnvme_fabrics_config) : libnvme_fabrics_config :=
  Cfg (λ y, if bool_decide (y = x) then v else cfg_i c y) (cfg_b c) (cfg_keyring_id c)
    (cfg_tls_key_id c) (cfg_tls_configured_key_id c).
Definition set_cfg_b (x : cfg_bool) (v : bool) (c : libnvme_fabrics_config) : libnvme_fabrics_config :=
  Cfg (cfg_i c) (λ y, if bool_decide (y = x) then v else cfg_b c y) (cfg_keyring_id c)
    (cfg_tls_key_id c) (cfg_tls_configured_key_id c).

Definition NVMF_DEF_CTRL_LOSS_TMO : Z := 600.

Record libnvme_ctrl_params := CtrlParams {
  p_transport : option (list Z);
  p_traddr : option (list Z);
  p_host_traddr : option (list Z);
  p_host_iface : option (list Z);
  p_trsvcid : option (list Z);
  p_subsysnqn : option (list Z);
  p_cfg : libnvme_fabrics_config;
}.

(** A lazily read attribute: the pointer is NULL, [NO_ATTR] or a string. *)
Inductive attr := NotLoaded | NoAttr | Attr (v : list Z).

#[export] Instance attr_eq_dec : EqDecision attr.
Proof. solve_decision. Defined.

(** [struct libnvme_ctrl] with the attributes the connect path uses; [c_s] is
    the host and the subsystem it is linked to. *)
Record libnvme_ctrl := Ctrl {
  c_s : option (nat * nat);
  c_name : option (list Z);
  c_sysfs_dir : option (list Z);
  c_address : option (list Z);
  c_state : option (list Z);
  c_transport : option (list Z);
  c_subsysnqn : option (list Z);
  c_traddr : option (list Z);
  c_trsvcid : option (list Z);
  c_tls_key_identity : option (list Z);
  c_tls_key : option (list Z);
  c_host_traddr : option (list Z);
  c_host_iface : option (list Z);
  c_discovery_ctrl : bool;
  c_unique_discovery_ctrl : bool;
  c_discovered : bool;
  c_cfg : libnvme_fabrics_config;
  c_kxchap_host_key : attr;
  c_kxchap_ctrl_key : attr;
  c_keyring : attr;
}.

Record libnvme_subsystem := Subsys {
  s_name : option (list Z);
  s_subsysnqn : list Z;
  s_subsystype : option (list Z);
  s_ctrls : list nat;
}.

Record libnvme_host := Host {
  h_hostnqn : list Z;
  h_hostid : list Z;
  h_kxchap_host_key : option (list Z);
  h_subsystems : list libnvme_subsystem;
}.

(** A record of the discovery log page, its strings read. *)
Record nvmf_disc_log_entry := Entry {
  e_trtype : Z;
  e_adrfam : Z;
  e_subtype : Z;
  e_treq : Z;
  e_eflags : Z;
  e_trsvcid : list Z;
  e_subnqn : list Z;
  e_traddr : list Z;
  e_sectype : Z;
}.

(** [struct dc_decision]. *)
Record dc_decision := Decision {
  d_c : option nat;
  d_primary : bool;
  d_already_connected : bool;
  d_connect : bool;
  d_disconnect : bool;
}.

(** ** The state *)

(** What the library did that the outside sees. *)
Inductive event :=
| EvConnect (args : list Z) (r : failure + Z)  (** a write to /dev/nvme-fabrics *)
| EvDelete (c : nat) (r : code)                (** a write to delete_controller *)
| EvLog (c : nat) (r : failure + list (list Z)) (** the discovery log page was read *)
| EvRegClaim (instance : Z) (owner : list Z)
| EvRegClear (instance : Z)
| EvConnected (c : nat)                        (** the hook [connected] *)
| EvAlready (subsysnqn transport traddr trsvcid : option (list Z))
| EvDiscoveryLog (c : nat)                     (** the hook [discovery_log] *)
| EvDecision (e : option nvmf_disc_log_entry) (d : dc_decision).

(** [ctx->options] and [ctx->kernel_options]: the flags that are set, and the
    names the kernel listed. *)
Record kernel_opts := KOpts {
  ko_flags : list (list Z);
  ko_names : option (list (list Z));
}.

Record world := World {
  w_ctrls : gmap nat libnvme_ctrl;
  w_next : nat;
  w_hosts : list libnvme_host;
  w_options : option kernel_opts;
  w_tick : nat;
  w_events : list event;
}.

Abbreviation M A := (world → run world A) (only parsing).

Definition set_ctrls (m : gmap nat libnvme_ctrl) (w : world) : world :=
  World m (w_next w) (w_hosts w) (w_options w) (w_tick w) (w_events w).
Definition set_hosts (hs : list libnvme_host) (w : world) : world :=
  World (w_ctrls w) (w_next w) hs (w_options w) (w_tick w) (w_events w).
Definition set_options (o : option kernel_opts) (w : world) : world :=
  World (w_ctrls w) (w_next w) (w_hosts w) o (w_tick w) (w_events w).
Definition add_event (e : event) (w : world) : world :=
  World (w_ctrls w) (w_next w) (w_hosts w) (w_options w) (w_tick w) (w_events w ++ [e]).
Definition set_tick (n : nat) (w : world) : world :=
  World (w_ctrls w) (w_next w) (w_hosts w) (w_options w) n (w_events w).

(** Dereferencing a pointer to a controller. *)
Definition ctrl (c : nat) : M libnvme_ctrl := λ w,
  match w_ctrls w !! c with Some x => Ret x w | None => Wild end.
Definition upd_ctrl (c : nat) (f : libnvme_ctrl → libnvme_ctrl) : M unit := λ w,
  match w_ctrls w !! c with Some x => Ret tt (set_ctrls (<[c := f x]> (w_ctrls w)) w) | None => Wild end.
Definition emit (e : event) : M unit := modify (add_event e).

(** ** The environment *)

Inductive libnvmf_dev_step := LIBNVMF_DEV_OPEN | LIBNVMF_DEV_WRITE | LIBNVMF_DEV_READ.

(** Each call gets a number of its own, so that an answer may change. *)
Record env := {
  (** [nvmf_dev_xfer]: the failed step and its errno, or the response *)
  dev_xfer : nat → option (list Z) → (libnvmf_dev_step * errno) + list Z;
  (** [libnvme_get_attr] in a directory *)
  sysfs_attr : nat → list Z → list Z → option (list Z);
  (** [opendir] of a controller's directory *)
  dir_exists : nat → list Z → bool;
  (** [libnvme_ctrl_lookup_subsystem_name] *)
  subsystem_name : nat → list Z → option (list Z);
  (** the write to [delete_controller] *)
  delete_controller : nat → list Z → code;
  (** [libnvmf_lookup_keyring], [libnvmf_set_keyring], [libnvmf_lookup_key] of
      a "psk", and [__nvme_import_tls_key] into a keyring *)
  lookup_keyring : nat → list Z → failure + Z;
  set_keyring : nat → Z → code;
  lookup_key : nat → list Z → failure + Z;
  import_tls_key : nat → Z → list Z → list Z → option (list Z) → list Z → failure + Z;
  (** [libnvmf_getifaddrs] *)
  getifaddrs : nat → list ifaddrs;
  (** an append to the list of visited controllers finds memory *)
  visited_append : nat → bool;
  (** [ctx->owner], [ctx->dry_run] and the directory of the controllers *)
  ctx_owner : option (list Z);
  ctx_dry_run : bool;
  ctrl_sysfs_dir : list Z;
  subsys_sysfs_dir : list Z;
}.

(** The next answer of the environment. *)
Definition ask {A} (f : nat → A) : M A := λ w, Ret (f (w_tick w)) (set_tick (S (w_tick w)) w).

(** ** Attributes of a controller *)

Inductive key_attr := KxHostKey | KxCtrlKey | Keyring.

Definition key_of (k : key_attr) (c : libnvme_ctrl) : attr :=
  match k with
  | KxHostKey => c_kxchap_host_key c
  | KxCtrlKey => c_kxchap_ctrl_key c
  | Keyring => c_keyring c
  end.

Definition put_key (k : key_attr) (v : attr) (c : libnvme_ctrl) : libnvme_ctrl :=
  let put k' old := match k, k' with
                    | KxHostKey, KxHostKey | KxCtrlKey, KxCtrlKey | Keyring, Keyring => v
                    | _, _ => old
                    end in
  Ctrl (c_s c) (c_name c) (c_sysfs_dir c) (c_address c) (c_state c) (c_transport c) (c_subsysnqn c)
    (c_traddr c) (c_trsvcid c) (c_tls_key_identity c) (c_tls_key c) (c_host_traddr c)
    (c_host_iface c) (c_discovery_ctrl c) (c_unique_discovery_ctrl c) (c_discovered c) (c_cfg c)
    (put KxHostKey (c_kxchap_host_key c)) (put KxCtrlKey (c_kxchap_ctrl_key c))
    (put Keyring (c_keyring c)).

(** The fields that say which kernel object the controller is. *)
Definition set_device (name sysfs_dir state address : option (list Z)) (c : libnvme_ctrl) :
    libnvme_ctrl :=
  Ctrl (c_s c) name sysfs_dir address state (c_transport c) (c_subsysnqn c)
    (c_traddr c) (c_trsvcid c) (c_tls_key_identity c) (c_tls_key c) (c_host_traddr c)
    (c_host_iface c) (c_discovery_ctrl c) (c_unique_discovery_ctrl c) (c_discovered c) (c_cfg c)
    (c_kxchap_host_key c) (c_kxchap_ctrl_key c) (c_keyring c).
Definition set_link (s : option (nat * nat)) (c : libnvme_ctrl) : libnvme_ctrl :=
  Ctrl s (c_name c) (c_sysfs_dir c) (c_address c) (c_state c) (c_transport c) (c_subsysnqn c)
    (c_traddr c) (c_trsvcid c) (c_tls_key_identity c) (c_tls_key c) (c_host_traddr c)
    (c_host_iface c) (c_discovery_ctrl c) (c_unique_discovery_ctrl c) (c_discovered c) (c_cfg c)
    (c_kxchap_host_key c) (c_kxchap_ctrl_key c) (c_keyring c).
Definition set_tls (identity key : option (list Z)) (c : libnvme_ctrl) : libnvme_ctrl :=
  Ctrl (c_s c) (c_name c) (c_sysfs_dir c) (c_address c) (c_state c) (c_transport c) (c_subsysnqn c)
    (c_traddr c) (c_trsvcid c) identity key (c_host_traddr c)
    (c_host_iface c) (c_discovery_ctrl c) (c_unique_discovery_ctrl c) (c_discovered c) (c_cfg c)
    (c_kxchap_host_key c) (c_kxchap_ctrl_key c) (c_keyring c).
Definition set_addrs (traddr host_traddr : option (list Z)) (c : libnvme_ctrl) : libnvme_ctrl :=
  Ctrl (c_s c) (c_name c) (c_sysfs_dir c) (c_address c) (c_state c) (c_transport c) (c_subsysnqn c)
    traddr (c_trsvcid c) (c_tls_key_identity c) (c_tls_key c) host_traddr
    (c_host_iface c) (c_discovery_ctrl c) (c_unique_discovery_ctrl c) (c_discovered c) (c_cfg c)
    (c_kxchap_host_key c) (c_kxchap_ctrl_key c) (c_keyring c).
Definition set_flags (discovery unique discovered : bool) (c : libnvme_ctrl) : libnvme_ctrl :=
  Ctrl (c_s c) (c_name c) (c_sysfs_dir c) (c_address c) (c_state c) (c_transport c) (c_subsysnqn c)
    (c_traddr c) (c_trsvcid c) (c_tls_key_identity c) (c_tls_key c) (c_host_traddr c)
    (c_host_iface c) discovery unique discovered (c_cfg c)
    (c_kxchap_host_key c) (c_kxchap_ctrl_key c) (c_keyring c).
Definition set_cfg (cfg : libnvme_fabrics_config) (c : libnvme_ctrl) : libnvme_ctrl :=
  Ctrl (c_s c) (c_name c) (c_sysfs_dir c) (c_address c) (c_state c) (c_transport c) (c_subsysnqn c)
    (c_traddr c) (c_trsvcid c) (c_tls_key_identity c) (c_tls_key c) (c_host_traddr c)
    (c_host_iface c) (c_discovery_ctrl c) (c_unique_discovery_ctrl c) (c_discovered c) cfg
    (c_kxchap_host_key c) (c_kxchap_ctrl_key c) (c_keyring c).

(** [libnvme_ctrl_set_discovery_ctrl] and [..._unique_discovery_ctrl]. *)
Definition set_discovery (discovery unique : bool) (c : libnvme_ctrl) : libnvme_ctrl :=
  set_flags discovery unique (c_discovered c) c.

(** The setters of the keys, with a string. *)
Definition libnvme_ctrl_set_key (k : key_attr) (c : nat) (v : list Z) : M unit :=
  upd_ctrl c (put_key k (Attr v)).

(** [libnvme_ctrl_attrs_reset]. *)
Definition libnvme_ctrl_attrs_reset (c : libnvme_ctrl) : libnvme_ctrl :=
  put_key KxHostKey NotLoaded (put_key KxCtrlKey NotLoaded (put_key Keyring NotLoaded c)).

Section Tree.
Context (E : env).

(** [libnvme_get_ctrl_attr]; without a directory the path is of no file of
    sysfs. *)
Definition libnvme_get_ctrl_attr (c : nat) (name : string) : M (option (list Z)) :=
  let! x := ctrl c in
  ask (λ n, sysfs_attr E n (default (lit "(null)") (c_sysfs_dir x)) (lit name)).

(** A secret that is not "none". *)
Definition real_secret (v : option (list Z)) : option (list Z) :=
  match v with
  | Some s => if str_eqb s (lit "none") then None else Some s
  | None => None
  end.

Definition libnvmf_ctrl_load_fabrics_attrs (c : nat) : M unit :=
  let! host_key := libnvme_get_ctrl_attr c "dhchap_secret" in
  do! (match real_secret host_key with
       | Some k => upd_ctrl c (put_key KxHostKey (Attr k))
       | None => ret_ tt
       end) in
  let! ctrl_key := libnvme_get_ctrl_attr c "dhchap_ctrl_secret" in
  do! (match real_secret ctrl_key with
       | Some k => upd_ctrl c (put_key KxCtrlKey (Attr k))
       | None => ret_ tt
       end) in
  let! tls_key := libnvme_get_ctrl_attr c "tls_key" in
  match tls_key with
  | Some _ =>
      let! keyring := libnvme_get_ctrl_attr c "tls_keyring" in
      upd_ctrl c (put_key Keyring (match keyring with Some k => Attr k | None => NotLoaded end))
  | None => ret_ tt
  end.

(** [libnvme_ctrl_get_kxchap_host_key] and the two like it, with a NULL
    default: [None] where they return an error. *)
Definition libnvme_ctrl_get_key (k : key_attr) (c : nat) : M (option (list Z)) :=
  let! x := ctrl c in
  match key_of k x with
  | Attr v => ret_ (Some v)
  | NoAttr => ret_ None
  | NotLoaded =>
      do! libnvmf_ctrl_load_fabrics_attrs c in
      let! x := ctrl c in
      match key_of k x with
      | Attr v => ret_ (Some v)
      | NoAttr => ret_ None
      | NotLoaded => do! upd_ctrl c (put_key k NoAttr) in ret_ None
      end
  end.

Definition libnvme_ctrl_get_state (c : nat) : M (option (list Z)) :=
  let! state := libnvme_get_ctrl_attr c "state" in
  do! upd_ctrl c (λ x, set_device (c_name x) (c_sysfs_dir x) state (c_address x) x) in
  ret_ state.

(** ** Controllers *)

(** What is left of a controller that is not connected. *)
Definition deconfigured (x : libnvme_ctrl) : libnvme_ctrl :=
  libnvme_ctrl_attrs_reset (set_tls None None (set_device None None None None x)).

Definition libnvme_deconfigure_ctrl (c : nat) : M unit := upd_ctrl c deconfigured.

Definition set_subsystems (ss : list libnvme_subsystem) (h : libnvme_host) : libnvme_host :=
  Host (h_hostnqn h) (h_hostid h) (h_kxchap_host_key h) ss.
Definition set_s_ctrls (cs : list nat) (s : libnvme_subsystem) : libnvme_subsystem :=
  Subsys (s_name s) (s_subsysnqn s) (s_subsystype s) cs.

(** Subsystem [s] of host [h]. *)
Definition alter_subsys (h s : nat) (f : libnvme_subsystem → libnvme_subsystem) (w : world) : world :=
  set_hosts (alter (λ x, set_subsystems (alter f s (h_subsystems x)) x) h (w_hosts w)) w.
Definition host_at (h : nat) (w : world) : option libnvme_host := w_hosts w !! h.
Definition subsys_at (h s : nat) (w : world) : option libnvme_subsystem :=
  host_at h w ≫= λ x, h_subsystems x !! s.

(** [list_del_init] of the controller's entry. *)
Definition libnvme_unlink_ctrl (c : nat) : M unit :=
  let! x := ctrl c in
  do! (match c_s x with
       | Some (h, s) => modify (alter_subsys h s (λ y, set_s_ctrls (filter (λ i, i ≠ c) (s_ctrls y)) y))
       | None => ret_ tt
       end) in
  upd_ctrl c (set_link None).

Definition libnvme_free_ctrl (c : nat) : M unit :=
  do! libnvme_unlink_ctrl c in
  do! libnvme_deconfigure_ctrl c in
  modify (λ w, set_ctrls (delete c (w_ctrls w)) w).

(** [strncmp(s, prefix, n)] is 0, with [n] the length of the prefix. *)
Definition has_start (s : list Z) (prefix : string) : bool :=
  str_eqb (take (length (lit prefix)) s) (lit prefix).

Definition new_ctrl (params : libnvme_ctrl_params) : libnvme_ctrl :=
  Ctrl None None None None None (p_transport params) (p_subsysnqn params) (p_traddr params)
    (p_trsvcid params) None None (p_host_traddr params) (p_host_iface params) false false false
    (p_cfg params) NotLoaded NotLoaded NotLoaded.

Definition libnvme_create_ctrl (params : libnvme_ctrl_params) : M (failure + nat) :=
  match p_transport params with
  | None => ret_ (inl (CErrno EINVAL))
  | Some t =>
      if negb (has_start t "loop") && negb (has_start t "pcie") && negb (has_start t "apple-nvme") &&
         bool_decide (p_traddr params = None)
      then ret_ (inl (CErrno EINVAL))
      else if bool_decide (p_subsysnqn params = None) then ret_ (inl (CErrno EINVAL))
      else
        λ w, Ret (inr (w_next w))
               (World (<[w_next w := new_ctrl params]> (w_ctrls w)) (S (w_next w)) (w_hosts w)
                  (w_options w) (w_tick w) (w_events w))
  end.

(** ** Subsystems and hosts *)

(** The address of the first element with the property. *)
Fixpoint index_of {A} (p : A → bool) (l : list A) : option nat :=
  match l with
  | [] => None
  | x :: l => if p x then Some O else S <$> index_of p l
  end.

Definition subsystem_is (name subsysnqn : option (list Z)) (s : libnvme_subsystem) : bool :=
  match subsysnqn with Some n => str_eqb (s_subsysnqn s) n | None => true end &&
  match name, s_name s with Some n, Some m => str_eqb m n | _, _ => true end.

Definition libnvme_lookup_subsystem (h : nat) (name subsysnqn : option (list Z)) : M (option nat) :=
  get (λ w, host_at h w ≫= λ x, index_of (subsystem_is name subsysnqn) (h_subsystems x)).

(** [libnvme_create_subsystem] with a name, and [libnvme_init_subsystem]. *)
Definition libnvme_create_subsystem (h : nat) (name subsysnqn : list Z) : M nat :=
  let! t := ask (λ n, sysfs_attr E n (subsys_sysfs_dir E ++ [47] ++ name) (lit "subsystype")) in
  let subsystype := match t with
                    | Some t => t
                    | None => if str_eqb subsysnqn NVME_DISC_SUBSYS_NAME then lit "discovery"
                              else lit "nvm"
                    end in
  let! k := get (λ w, default 0%nat ((λ x, length (h_subsystems x)) <$> host_at h w)) in
  do! modify (λ w, set_hosts (alter (λ x, set_subsystems (h_subsystems x ++
        [Subsys (Some name) subsysnqn (Some subsystype) []]) x) h (w_hosts w)) w) in
  ret_ k.

Definition libnvme_get_subsystem (h : nat) (name subsysnqn : list Z) : M nat :=
  let! s := libnvme_lookup_subsystem h (Some name) (Some subsysnqn) in
  match s with
  | Some s => ret_ s
  | None => libnvme_create_subsystem h name subsysnqn
  end.

Definition NVME_DEFAULT_HOSTNQN : list Z :=
  lit "nqn.2014-08.org.nvmexpress:uuid:00000000-0000-0000-0000-000000000000".
Definition NVME_DEFAULT_HOSTID : list Z := lit "00000000-0000-0000-0000-000000000000".

(** [libnvme_lookup_host] with both arguments. *)
Definition libnvme_lookup_host (hostnqn hostid : list Z) : M (option nat) :=
  get (λ w, index_of (λ h, str_eqb (h_hostnqn h) hostnqn && str_eqb (h_hostid h) hostid) (w_hosts w)).

(** [libnvme_get_host]; it always gives [libnvme_create_host] both. *)
Definition libnvme_get_host (hostnqn hostid : option (list Z)) : M nat :=
  let hostnqn := default NVME_DEFAULT_HOSTNQN hostnqn in
  let hostid := default NVME_DEFAULT_HOSTID hostid in
  let! h := libnvme_lookup_host hostnqn hostid in
  match h with
  | Some h => ret_ h
  | None =>
      let! k := get (λ w, length (w_hosts w)) in
      do! modify (λ w, set_hosts (w_hosts w ++ [Host hostnqn hostid None []]) w) in
      ret_ k
  end.

(** ** Joining the tree *)

(** [strtol(key, &endptr, 16)] where it converts something. *)
Definition hex_id (key : list Z) : option Z :=
  let r := strtoll 16 key in if st_conv r then Some (st_val r) else None.

Definition libnvmf_read_sysfs_tls (c : nat) : M unit :=
  let! key := libnvme_get_ctrl_attr c "tls_key" in
  match key with
  | None => ret_ tt
  | Some key =>
      do! (match hex_id key with
           | Some id => upd_ctrl c (λ x, set_cfg (Cfg (cfg_i (c_cfg x)) (cfg_b (c_cfg x))
                          (cfg_keyring_id (c_cfg x)) id (cfg_tls_configured_key_id (c_cfg x))) x)
           | None => ret_ tt
           end) in
      let! key := libnvme_get_ctrl_attr c "tls_configured_key" in
      match key ≫= hex_id with
      | Some id => upd_ctrl c (λ x, set_cfg (Cfg (cfg_i (c_cfg x)) (cfg_b (c_cfg x))
                     (cfg_keyring_id (c_cfg x)) (cfg_tls_key_id (c_cfg x)) id) x)
      | None => ret_ tt
      end
  end.

Definition libnvmf_read_sysfs_tls_mode (c : nat) : M unit :=
  let! mode := libnvme_get_ctrl_attr c "tls_mode" in
  match mode with
  | None => ret_ tt
  | Some m =>
      if str_eqb m (lit "tls") then upd_ctrl c (λ x, set_cfg (set_cfg_b cfg_tls true (c_cfg x)) x)
      else if str_eqb m (lit "concat") then upd_ctrl c (λ x, set_cfg (set_cfg_b cfg_concat true (c_cfg x)) x)
      else ret_ tt
  end.

Definition libnvmf_read_sysfs_fabrics_attrs (c : nat) : M unit :=
  do! libnvmf_read_sysfs_tls c in libnvmf_read_sysfs_tls_mode c.

Definition libnvme_reconfigure_ctrl (c : nat) (path name : list Z) : M code :=
  do! upd_ctrl c (λ x, libnvme_ctrl_attrs_reset (set_device None None None (c_address x) x)) in
  let! ok := ask (λ n, dir_exists E n path) in
  if negb ok then ret_ (CFail (CErrno ENODEV))
  else
    do! upd_ctrl c (λ x, set_device (Some name) (Some path) None (c_address x) x) in
    let! _ := libnvme_ctrl_get_state c in
    do! libnvmf_read_sysfs_fabrics_attrs c in
    ret_ CSuccess.

Definition libnvme_init_ctrl (h c : nat) (instance : Z) : M code :=
  let name := lit "nvme" ++ print_int instance in
  let path := ctrl_sysfs_dir E ++ [47] ++ name in
  let! r := libnvme_reconfigure_ctrl c path name in
  if negb (is_zero r) then ret_ r
  else
    let! address := ask (λ n, sysfs_attr E n path (lit "address")) in
    do! upd_ctrl c (λ x, set_device (c_name x) (c_sysfs_dir x) (c_state x) address x) in
    let! x := ctrl c in
    if bool_decide (address = None) && negb (shr_streq0 (c_transport x) (Some (lit "loop")))
    then ret_ (CFail (CConn ENVME_CONNECT_INVAL_TR))
    else
      let! subsys_name := ask (λ n, subsystem_name E n name) in
      match subsys_name with
      | None => ret_ (CFail (CPositive ENVME_CONNECT_LOOKUP_SUBSYS_NAME))
      | Some subsys_name =>
          let! s := libnvme_get_subsystem h subsys_name (default [] (c_subsysnqn x)) in
          let! subsys := get (subsys_at h s) in
          do! (if bool_decide ((subsys ≫= s_subsystype) = Some (lit "discovery"))
               then upd_ctrl c (λ x, set_discovery true (c_unique_discovery_ctrl x) x)
               else ret_ tt) in
          do! upd_ctrl c (set_link (Some (h, s))) in
          do! modify (alter_subsys h s (λ y, set_s_ctrls (s_ctrls y ++ [c]) y)) in
          ret_ CSuccess
      end.
End Tree.
