(* ===== verification/CtrlMatch.v ===== *)
(** * Matching controllers: [libnvme/src/nvme/tree-fabrics.c]

    Is a controller of the tree the one a set of parameters asks for?  For
    TCP the source address and the interface may have to be inferred from
    what the kernel and the interface list say. *)

From Stdlib Require Import String.
From stdpp Require Import base list numbers gmap.
From S2P Require Import Prelude.
From S2P Require Import CStr.
From S2P Require Import Nqn.
From S2P Require Import Tid.
From S2P Require Import DTid.
From S2P Require Import Io.
From S2P Require Import Ctrl.

#[local] Open Scope io_scope.

(** [struct candidate_args]. *)
Record candidate_args := Candidate {
  ca_transport : option (list Z);
  ca_traddr : option (list Z);
  ca_trsvcid : option (list Z);
  ca_subsysnqn : option (list Z);
  ca_host_traddr : option (list Z);
  ca_host_iface : option (list Z);
  ca_iface_list : list ifaddrs;
  ca_addreq : option (list Z) → option (list Z) → bool;
  ca_well_known_nqn : bool;
}.

(** [strstr(s, pat)]: the text behind the first occurrence. *)
Fixpoint behind (pat s : list Z) : option (list Z) :=
  if str_eqb (take (length pat) s) pat then Some (drop (length pat) s)
  else match s with [] => None | _ :: s => behind pat s end.

(** [libnvme_parse_src_addr] with a buffer of [INET6_ADDRSTRLEN] bytes. *)
Definition libnvme_parse_src_addr (address : option (list Z)) : option (list Z) :=
  match address ≫= behind (lit "src_addr=") with
  | None => None
  | Some p =>
      let l := strcspn p [c_comma; c_percent] in
      if (INET6_ADDRSTRLEN <=? l)%nat then None else Some (take l p)
  end.

Section Match.
Context (E : env) `{Alloc} `{Inet}.

Definition given (o : option (list Z)) : bool := bool_decide (is_Some o).

Definition _tcp_ctrl_not_live (c : nat) : M bool :=
  let! x := ctrl c in
  if negb (given (c_sysfs_dir x)) then ret_ false
  else
    let! state := libnvme_ctrl_get_state E c in
    ret_ (match state with Some s => negb (str_eqb s (lit "live")) | None => false end).

Definition _tcp_ctrl_match_host_traddr_no_src_addr (c : nat) (ca : candidate_args) : M bool :=
  let! x := ctrl c in
  match c_host_traddr x, c_host_iface x with
  | Some a, _ => ret_ (ca_addreq ca (ca_host_traddr ca) (Some a))
  | None, Some i => ret_ (shr_iface_primary_addr_matches (ca_iface_list ca) i (ca_host_traddr ca))
  | None, None => let! dead := _tcp_ctrl_not_live c in ret_ (negb dead)
  end.

Definition _tcp_ctrl_match_host_iface_no_src_addr (c : nat) (ca : candidate_args) : M bool :=
  let! x := ctrl c in
  match c_host_iface x, c_host_traddr x with
  | Some i, _ => ret_ (shr_streq0 (ca_host_iface ca) (Some i))
  | None, Some a =>
      ret_ (shr_streq0 (ca_host_iface ca) (shr_iface_matching_addr (ca_iface_list ca) (Some a)))
  | None, None => let! dead := _tcp_ctrl_not_live c in ret_ (negb dead)
  end.

Definition _tcp_opt_params_match_no_src_addr (c : nat) (ca : candidate_args) : M bool :=
  let! a := (if given (ca_host_traddr ca) then _tcp_ctrl_match_host_traddr_no_src_addr c ca
             else ret_ true) in
  if negb a then ret_ false
  else if given (ca_host_iface ca) then _tcp_ctrl_match_host_iface_no_src_addr c ca
  else ret_ true.

Definition _tcp_opt_params_match (c : nat) (ca : candidate_args) : M bool :=
  let! x := ctrl c in
  match libnvme_parse_src_addr (c_address x) with
  | None => _tcp_opt_params_match_no_src_addr c ca
  | Some src =>
      if given (ca_host_traddr ca) && negb (ca_addreq ca (ca_host_traddr ca) (Some src))
      then ret_ false
      else
        let c_iface := shr_iface_matching_addr (ca_iface_list ca) (Some src) in
        ret_ (negb (given (ca_host_iface ca) && negb (shr_streq0 (ca_host_iface ca) c_iface)))
  end.

Definition _tcp_match_ctrl (c : nat) (ca : candidate_args) : M bool :=
  let! x := ctrl c in
  if negb (shr_streq0 (c_transport x) (ca_transport ca)) then ret_ false
  else if negb (shr_streq0 (c_trsvcid x) (ca_trsvcid ca)) then ret_ false
  else if negb (ca_addreq ca (c_traddr x) (ca_traddr ca)) then ret_ false
  else if ca_well_known_nqn ca && negb (c_discovery_ctrl x) then ret_ false
  else if given (ca_subsysnqn ca) && negb (shr_streq0 (c_subsysnqn x) (ca_subsysnqn ca)) then ret_ false
  else if given (ca_host_iface ca) || given (ca_host_traddr ca) then _tcp_opt_params_match c ca
  else ret_ true.

Definition _libnvmf_tree_ctrl_match (c : nat) (ca : candidate_args) : M bool :=
  let! x := ctrl c in
  ret_ (shr_streq0 (c_transport x) (ca_transport ca) &&
        negb (given (ca_traddr ca) && given (c_traddr x) &&
              negb (ca_addreq ca (c_traddr x) (ca_traddr ca))) &&
        negb (given (ca_host_traddr ca) && given (c_host_traddr x) &&
              negb (ca_addreq ca (c_host_traddr x) (ca_host_traddr ca))) &&
        negb (given (ca_host_iface ca) && given (c_host_iface x) &&
              negb (shr_streq0 (c_host_iface x) (ca_host_iface ca))) &&
        negb (given (ca_trsvcid ca) && given (c_trsvcid x) &&
              negb (shr_streq0 (c_trsvcid x) (ca_trsvcid ca))) &&
        negb (ca_well_known_nqn ca && negb (c_discovery_ctrl x)) &&
        negb (given (ca_subsysnqn ca) && negb (shr_streq0 (c_subsysnqn x) (ca_subsysnqn ca)))).

(** ["none"] in any case counts as not given. *)
Definition none_as_null (o : option (list Z)) : option (list Z) :=
  if shr_streqcase0 o (Some (lit "none")) then None else o.

(** [_libnvmf_candidate_init]: the candidate and the function to match it. *)
Definition _libnvmf_candidate_init (params : libnvme_ctrl_params) :
    M (candidate_args * (nat → candidate_args → M bool)) :=
  let well_known := shr_streq0 (p_subsysnqn params) (Some NVME_DISC_SUBSYS_NAME) in
  let mk ifs addreq :=
    Candidate (p_transport params) (p_traddr params) (p_trsvcid params)
      (if well_known then None else p_subsysnqn params)
      (none_as_null (p_host_traddr params)) (none_as_null (p_host_iface params))
      ifs addreq well_known in
  if shr_streq0 (p_transport params) (Some (lit "tcp")) then
    let! ifs := ask (getifaddrs E) in
    ret_ (mk ifs shr_ipaddrs_eq, _tcp_match_ctrl)
  else if shr_streq0 (p_transport params) (Some (lit "rdma")) then
    ret_ (mk [] shr_ipaddrs_eq, _libnvmf_tree_ctrl_match)
  else ret_ (mk [] shr_streqcase0, _libnvmf_tree_ctrl_match).

(** The loop of [libnvme_ctrl_find] over the controllers of a subsystem. *)
Fixpoint find_matching (m : nat → candidate_args → M bool) (ca : candidate_args) (cs : list nat) :
    M (option nat) :=
  match cs with
  | [] => ret_ None
  | c :: cs =>
      let! ok := m c ca in
      if ok then ret_ (Some c) else find_matching m ca cs
  end.

(** [libnvme_ctrl_find] from the start of subsystem [s] of host [h]. *)
Definition libnvme_ctrl_find (h s : nat) (params : libnvme_ctrl_params) : M (option nat) :=
  let! p := _libnvmf_candidate_init params in
  let '(ca, m) := p in
  let! cs := get (λ w, default [] (s_ctrls <$> subsys_at h s w)) in
  find_matching m ca cs.

Definition libnvmf_ctrl_match_config (c : nat) (params : libnvme_ctrl_params) : M bool :=
  let! p := _libnvmf_candidate_init params in
  let '(ca, m) := p in m c ca.

(** [lookup_ctrl] and [lookup_live_ctrl] of [fabrics.c]. *)
Fixpoint lookup_in (h : nat) (ss : list nat) (params : libnvme_ctrl_params) : M (option nat) :=
  match ss with
  | [] => ret_ None
  | s :: ss =>
      let! c := libnvme_ctrl_find h s params in
      match c with Some c => ret_ (Some c) | None => lookup_in h ss params end
  end.

Definition lookup_ctrl (h : nat) (params : libnvme_ctrl_params) : M (option nat) :=
  let! n := get (λ w, default 0%nat ((λ x, length (h_subsystems x)) <$> host_at h w)) in
  lookup_in h (seq 0 n) params.

Definition lookup_live_ctrl (h : nat) (params : libnvme_ctrl_params) : M (option nat) :=
  let! c := lookup_ctrl h params in
  match c with
  | None => ret_ None
  | Some c => let! x := ctrl c in ret_ (if given (c_name x) then Some c else None)
  end.
End Match.
