(* ===== verification/Options.v ===== *)
(** * Connect options: [libnvme/src/nvme/fabrics.c]

    A connection is made by writing one line of comma separated options to
    /dev/nvme-fabrics.  The options the kernel knows are read from the same
    file; the others are left out. *)

From Stdlib Require Import String.
From stdpp Require Import base list numbers gmap.
From S2P Require Import Prelude.
From S2P Require Import CStr.
From S2P Require Import Printf.
From S2P Require Import Parse.
From S2P Require Import Nqn.
From S2P Require Import Tid.
From S2P Require Import ConfApply.
From S2P Require Import Io.
From S2P Require Import Ctrl.

#[local] Open Scope io_scope.

(** ** Merging configurations *)

(** The value of a field that counts as not given. *)
Definition unset_i (x : cfg_int) : Z :=
  match x with ctrl_loss_tmo => NVMF_DEF_CTRL_LOSS_TMO | tos => -1 | _ => 0 end.

Definition merge_config (c n : libnvme_fabrics_config) : libnvme_fabrics_config :=
  Cfg (λ x, if cfg_i c x =? unset_i x then cfg_i n x else cfg_i c x)
      (λ x, if negb (cfg_b c x) then cfg_b n x else cfg_b c x)
      (if cfg_keyring_id c =? 0 then cfg_keyring_id n else cfg_keyring_id c)
      (if cfg_tls_key_id c =? 0 then cfg_tls_key_id n else cfg_tls_key_id c)
      (if cfg_tls_configured_key_id c =? 0 then cfg_tls_configured_key_id n
       else cfg_tls_configured_key_id c).

Definition update_config (c n : libnvme_fabrics_config) : libnvme_fabrics_config :=
  Cfg (λ x, if negb (cfg_i n x =? unset_i x) then cfg_i n x else cfg_i c x)
      (λ x, if cfg_b n x then cfg_b n x else cfg_b c x)
      (if negb (cfg_keyring_id n =? 0) then cfg_keyring_id n else cfg_keyring_id c)
      (if negb (cfg_tls_key_id n =? 0) then cfg_tls_key_id n else cfg_tls_key_id c)
      (if negb (cfg_tls_configured_key_id n =? 0) then cfg_tls_configured_key_id n
       else cfg_tls_configured_key_id c).

Definition libnvmf_default_config (cfg : libnvme_fabrics_config) : libnvme_fabrics_config :=
  set_cfg_i ctrl_loss_tmo NVMF_DEF_CTRL_LOSS_TMO (set_cfg_i tos (-1) cfg).

(** ** The options the kernel knows *)

(** A [strsep] loop: the text between the separators. *)
Fixpoint split_any (set : list Z) (s : list Z) : list (list Z) :=
  match s with
  | [] => [[]]
  | c :: s' =>
      if in_set set c then [] :: split_any set s'
      else match split_any set s' with
           | f :: fs => (c :: f) :: fs
           | [] => [[c]]
           end
  end.

(** The names of [parse_option]. *)
Definition option_names : list (list Z) := lit <$> [
  "cntlid"; "concat"; "ctrl_loss_tmo"; "data_digest"; "dhchap_ctrl_secret"; "dhchap_secret";
  "disable_sqflow"; "discovery"; "duplicate_connect"; "fast_io_fail_tmo"; "hdr_digest";
  "host_iface"; "host_traddr"; "hostid"; "hostnqn"; "instance"; "keep_alive_tmo"; "keyring";
  "nqn"; "nr_io_queues"; "nr_poll_queues"; "nr_write_queues"; "queue_size"; "reconnect_delay";
  "tls"; "tls_key"; "tos"; "traddr"; "transport"; "trsvcid"]%string.

Definition default_supported_options : list (list Z) := lit <$> [
  "ctrl_loss_tmo"; "data_digest"; "disable_sqflow"; "discovery"; "duplicate_connect";
  "fast_io_fail_tmo"; "hdr_digest"; "host_iface"; "host_traddr"; "hostid"; "hostnqn";
  "keep_alive_tmo"; "nqn"; "nr_io_queues"; "nr_poll_queues"; "nr_write_queues"; "queue_size";
  "reconnect_delay"; "tos"; "traddr"; "transport"; "trsvcid"]%string.

Definition name_in (l : list (list Z)) (v : list Z) : bool := existsb (str_eqb v) l.

(** One round of the loop: [v] is the token up to "=" or a blank. *)
Definition parse_option (o : kernel_opts) (p : list Z) : kernel_opts :=
  if negb (nonempty p) then o
  else
    let v := take (strcspn p [c_eq; 32]) p in
    let names := if negb (str_eqb v (lit "instance")) && negb (str_eqb v (lit "cntlid"))
                 then Some (default [] (ko_names o) ++ [v]) else ko_names o in
    KOpts (if name_in option_names v then ko_flags o ++ [v] else ko_flags o) names.

(** The response as a string: [buf] has 4096 bytes. *)
Definition response_text (bytes : list Z) : list Z := buf_str (take 4095 bytes).

Definition parse_options (text : list Z) : kernel_opts :=
  foldl parse_option (KOpts [] None) (split_any [c_comma; c_nl] text).

Section Options.
Context (E : env).

Definition __nvmf_supported_options : M code :=
  let! o := get w_options in
  match o with
  | Some _ => ret_ CSuccess
  | None =>
      let! r := ask (λ n, dev_xfer E n None) in
      match r with
      | inl (LIBNVMF_DEV_OPEN, _) => ret_ (CFail (CConn ENVME_CONNECT_OPEN))
      | inl (_, e) =>
          if bool_decide (e = EINVAL) then
            do! modify (set_options (Some (KOpts default_supported_options None))) in ret_ CSuccess
          else ret_ (CFail (CConn ENVME_CONNECT_READ))
      | inr bytes =>
          do! modify (set_options (Some (parse_options (response_text bytes)))) in ret_ CSuccess
      end
  end.

Definition nvmf_check_option (tok : list Z) : M bool :=
  let! r := __nvmf_supported_options in
  let! o := get w_options in
  ret_ (is_zero r && match o with Some o => name_in (ko_flags o) tok | None => false end).

(** [kernel_options], [libnvmf_kernel_option_supported] and
    [libnvmf_kernel_options_for_each]. *)
Definition kernel_options : M (failure + list (list Z)) :=
  let! r := __nvmf_supported_options in
  match r with
  | CFail e => ret_ (inl e)
  | CSuccess =>
    let! o := get w_options in
    ret_ (match o ≫= ko_names with Some l => inr l | None => inl (CErrno EOPNOTSUPP) end)
  end.

Definition libnvmf_kernel_option_supported (name : list Z) : M (failure + bool) :=
  let! r := kernel_options in
  ret_ (match r with inl e => inl e | inr l => inr (name_in l name) end).

(** ** The argument string *)

Definition join_arg (argstr tok value : list Z) : list Z := argstr ++ [c_comma] ++ tok ++ [c_eq] ++ value.

Definition __add_bool_argument (argstr tok : list Z) (arg : bool) : list Z :=
  if negb arg then argstr else argstr ++ [c_comma] ++ tok.

Definition __add_hex_argument (argstr tok : list Z) (arg : Z) (allow_zero : bool) : list Z :=
  if (arg <? 0) || ((arg =? 0) && negb allow_zero) then argstr
  else join_arg argstr tok (lit "0x" ++ hex_digits arg).

Definition __add_int_argument (argstr tok : list Z) (arg : Z) (allow_zero : bool) : list Z :=
  if (arg <? 0) || ((arg =? 0) && negb allow_zero) then argstr
  else join_arg argstr tok (print_int arg).

Definition __add_int_or_minus_one_argument (argstr tok : list Z) (arg : Z) : list Z :=
  if arg <? -1 then argstr else join_arg argstr tok (print_int arg).

Definition __add_argument (argstr tok : list Z) (arg : option (list Z)) : list Z :=
  match arg with
  | None => argstr
  | Some v => if negb (nonempty v) || str_eqb v (lit "none") then argstr else join_arg argstr tok v
  end.

(** The five macros [add_argument], [add_int_argument] and so on: the option is
    added when the kernel knows it. *)
Inductive arg_value :=
| AStr (v : option (list Z)) | AInt (v : Z) (allow_zero : bool) | AIntOrMinusOne (v : Z)
| AHex (v : Z) (allow_zero : bool) | ABool (v : bool).

Definition add_arg (tok : list Z) (v : arg_value) (argstr : list Z) : list Z :=
  match v with
  | AStr v => __add_argument argstr tok v
  | AInt v z => __add_int_argument argstr tok v z
  | AIntOrMinusOne v => __add_int_or_minus_one_argument argstr tok v
  | AHex v z => __add_hex_argument argstr tok v z
  | ABool v => __add_bool_argument argstr tok v
  end.

(** The operands of the [||] chain, each behind its condition. *)
Fixpoint add_args (l : list (bool * string * arg_value)) (argstr : list Z) : M (list Z) :=
  match l with
  | [] => ret_ argstr
  | (cond, tok, v) :: l =>
      if negb cond then add_args l argstr
      else
        let! ok := nvmf_check_option (lit tok) in
        add_args l (if ok then add_arg (lit tok) v argstr else argstr)
  end.

(** [__libnvmf_import_keys_from_config]: the keyring and the key. *)
Definition __libnvmf_import_keys_from_config (h c : nat) : M (failure + Z * Z) :=
  let! x := ctrl c in
  let! hostnqn := get (λ w, h_hostnqn <$> host_at h w) in
  match hostnqn, c_subsysnqn x with
  | Some hostnqn, Some subsysnqn =>
      let! keyring := libnvme_ctrl_get_key E Keyring c in
      let! kr := (match keyring with
                  | Some k => ask (λ n, lookup_keyring E n k)
                  | None => ret_ (inr (cfg_keyring_id (c_cfg x)))
                  end) in
      match kr with
      | inl e => ret_ (inl e)
      | inr kr_id =>
          match c_tls_key x with
          | None => ret_ (inr (kr_id, 0))
          | Some key =>
              let! kr := (if kr_id =? 0 then ask (λ n, lookup_keyring E n (lit ".nvme"))
                          else ret_ (inr kr_id)) in
              match kr with
              | inl e => ret_ (inl e)
              | inr kr_id =>
                  let! r := ask (λ n, set_keyring E n kr_id) in
                  match r with
                  | CFail e => ret_ (inl e)
                  | CSuccess =>
                    let! id := (match c_tls_key_identity x with
                                | None => ret_ (inr 0)
                                | Some ident =>
                                    let! r := ask (λ n, lookup_key E n ident) in
                                    ret_ (match r with
                                          | inr id => inr id
                                          | inl e => if bool_decide (e = CErrno ENOKEY) ||
                                                        bool_decide (e = CErrno EKEYREVOKED)
                                                     then inr 0 else inl e
                                          end)
                                end) in
                    match id with
                    | inl e => ret_ (inl e)
                    | inr id =>
                        if negb (id =? 0) then ret_ (inr (kr_id, id))
                        else
                          let! r := ask (λ n, import_tls_key E n kr_id hostnqn subsysnqn
                                                (c_tls_key_identity x) key) in
                          ret_ (match r with inl e => inl e | inr id => inr (kr_id, id) end)
                    end
                  end
              end
          end
      end
  | _, _ => ret_ (inl (CErrno EINVAL))
  end.

(** The chain of [build_options]. *)
Definition option_args (x : libnvme_ctrl) (transport : list Z) (discover discovery_nqn : bool)
    (hostnqn hostid hostkey ctrlkey : option (list Z)) (keyring_id key_id : Z) :
    list (bool * string * arg_value) :=
  let i := cfg_i (c_cfg x) in
  let b := cfg_b (c_cfg x) in
  let given o := bool_decide (is_Some o) in
  let no_loop := negb (str_eqb transport (lit "loop")) in
  let tcp := str_eqb transport (lit "tcp") in
  [ (true, "transport", AStr (Some transport));
    (true, "traddr", AStr (c_traddr x));
    (true, "host_traddr", AStr (c_host_traddr x));
    (true, "host_iface", AStr (c_host_iface x));
    (true, "trsvcid", AStr (c_trsvcid x));
    (given hostnqn, "hostnqn", AStr hostnqn);
    (given hostid, "hostid", AStr hostid);
    (discover && negb discovery_nqn, "discovery", ABool true);
    (given hostkey, "dhchap_secret", AStr hostkey);
    (given ctrlkey, "dhchap_ctrl_secret", AStr ctrlkey);
    (negb discover, "nr_io_queues", AInt (i nr_io_queues) false);
    (negb discover, "nr_write_queues", AInt (i nr_write_queues) false);
    (negb discover, "nr_poll_queues", AInt (i nr_poll_queues) false);
    (negb discover, "queue_size", AInt (i queue_size) false);
    (true, "keep_alive_tmo", AInt (i keep_alive_tmo) false);
    (true, "reconnect_delay", AInt (i reconnect_delay) false);
    (no_loop, "ctrl_loss_tmo", AIntOrMinusOne (i ctrl_loss_tmo));
    (no_loop, "fast_io_fail_tmo", AInt (i fast_io_fail_tmo) false);
    (no_loop, "tos", AInt (i tos) true);
    (true, "keyring", AHex (long_to_int keyring_id) false);
    (tcp, "tls_key", AHex (long_to_int key_id) false);
    (true, "duplicate_connect", ABool (b duplicate_connect));
    (true, "disable_sqflow", ABool (b disable_sqflow));
    (tcp, "hdr_digest", ABool (b hdr_digest));
    (tcp, "data_digest", ABool (b data_digest));
    (tcp, "tls", ABool (b cfg_tls));
    (tcp, "concat", ABool (b cfg_concat)) ]%string.

Definition build_options (h c : nat) : M (failure + list Z) :=
  let! x := ctrl c in
  match c_transport x with
  | None => ret_ (inl (CConn ENVME_CONNECT_TARG))
  | Some t =>
      if negb (has_start t "loop") && bool_decide (c_traddr x = None)
      then ret_ (inl (CConn ENVME_CONNECT_AARG))
      else
        let nqn := default [] (c_subsysnqn x) in
        let discovery_nqn := str_eqb nqn NVME_DISC_SUBSYS_NAME in
        do! (if discovery_nqn then upd_ctrl c (set_discovery true false) else ret_ tt) in
        let! x := ctrl c in
        let discover := c_discovery_ctrl x in
        let! host := get (host_at h) in
        let! key := libnvme_ctrl_get_key E KxHostKey c in
        let hostkey := match key with Some k => Some k | None => host ≫= h_kxchap_host_key end in
        let! ctrlkey := (match hostkey with
                         | Some _ => libnvme_ctrl_get_key E KxCtrlKey c
                         | None => ret_ None
                         end) in
        if cfg_b (c_cfg x) cfg_tls && cfg_b (c_cfg x) cfg_concat then ret_ (inl (CConn ENVME_CONNECT_INVAL))
        else if cfg_b (c_cfg x) cfg_concat && bool_decide (hostkey = None)
        then ret_ (inl (CConn ENVME_CONNECT_INVAL))
        else
          let! ids := (if cfg_b (c_cfg x) cfg_tls then __libnvmf_import_keys_from_config h c
                       else ret_ (inr (0, 0))) in
          match ids with
          | inl e => ret_ (inl e)
          | inr (keyring_id, key_id) =>
              let key_id :=
                if cfg_b (c_cfg x) cfg_tls && (key_id =? 0) then
                  if negb (cfg_tls_configured_key_id (c_cfg x) =? 0)
                  then cfg_tls_configured_key_id (c_cfg x) else cfg_tls_key_id (c_cfg x)
                else key_id in
              let! argstr := add_args
                (option_args x t discover discovery_nqn (h_hostnqn <$> host) (h_hostid <$> host)
                   hostkey ctrlkey keyring_id key_id)
                (lit "nqn=" ++ nqn) in
              ret_ (inr argstr)
          end
  end.
End Options.
