(* ===== verification/CtrlSpec.v ===== *)
(** * Rules for programs on the topology tree

    A call keeps the invariant of the tree and only adds to the events; the
    controllers below a bound keep their place and their addresses.  The
    rules here follow the structure of a program, and the lemmas state them
    for the operations of the tree. *)

From Stdlib Require Import String.
From stdpp Require Import base list numbers gmap.
From S2P Require Import Prelude.
From S2P Require Import CStr.
From S2P Require Import Tid.
From S2P Require Import DTid.
From S2P Require Import ConfApply.
From S2P Require Import Io.
From S2P Require Import Ctrl.
From S2P Require Import CtrlMatch.
From S2P Require Import Options.

#[local] Open Scope io_scope.

(** ** The invariant *)

(** A controller's address is below the next one, and what a subsystem lists
    are controllers that are linked to it. *)
Record tree_inv (w : world) : Prop := TreeInv {
  inv_next c x : w_ctrls w !! c = Some x → (c < w_next w)%nat;
  inv_listed h s y c : subsys_at h s w = Some y → c ∈ s_ctrls y →
    ∃ x, w_ctrls w !! c = Some x ∧ c_s x = Some (h, s);
}.

(** The addresses of a controller. *)
Definition addrs (x : libnvme_ctrl) :=
  (c_transport x, c_traddr x, c_trsvcid x, c_host_traddr x, c_host_iface x).

(** What of a controller no call changes while it is linked. *)
Definition same_ctrl (x x' : libnvme_ctrl) : Prop := c_s x' = c_s x ∧ addrs x' = addrs x.

Definition same_host (x x' : libnvme_host) : Prop :=
  h_hostnqn x' = h_hostnqn x ∧ h_hostid x' = h_hostid x.

(** [w'] is [w] some calls later: the new events satisfy [P]. *)
Record step (N : nat) (P : event → Prop) (w w' : world) : Prop := Step {
  step_events : ∃ evs, w_events w' = w_events w ++ evs ∧ Forall P evs;
  step_next : (w_next w ≤ w_next w')%nat;
  step_ctrl c x : (c < N)%nat → w_ctrls w !! c = Some x →
    ∃ x', w_ctrls w' !! c = Some x' ∧ same_ctrl x x';
  step_host h x : host_at h w = Some x → ∃ x', host_at h w' = Some x' ∧ same_host x x';
}.

Lemma step_refl N P w : step N P w w.
Proof.
  split; [exists []; by rewrite app_nil_r|done| |].
  - intros c x _ Hx. exists x. done.
  - intros h x Hx. exists x. done.
Qed.

Lemma step_trans N N' P w1 w2 w3 :
  (N ≤ N')%nat → step N P w1 w2 → step N' P w2 w3 → step N P w1 w3.
Proof.
  intros Hle [(e1 & H1 & F1) n1 c1 h1] [(e2 & H2 & F2) n2 c2 h2]. split.
  - exists (e1 ++ e2). split; [by rewrite H2, H1, app_assoc|by apply Forall_app].
  - lia.
  - intros c x Hc Hx. destruct (c1 _ _ Hc Hx) as (x' & Hx' & [Hs Ht]).
    destruct (c2 c x' ltac:(lia) Hx') as (x'' & Hx'' & [Hs' Ht']).
    exists x''. split; [done|]. split; congruence.
  - intros h x Hx. destruct (h1 _ _ Hx) as (x' & Hx' & [Ha Hb]).
    destruct (h2 _ _ Hx') as (x'' & Hx'' & [Ha' Hb']). exists x''. split; [done|]. split; congruence.
Qed.

Lemma step_mono N N' (P P' : event → Prop) w w' :
  (N ≤ N')%nat → (∀ e, P e → P' e) → step N' P w w' → step N P' w w'.
Proof.
  intros Hle HP [(e & He & F) n c h]. split; [|done| |done].
  - exists e. split; [done|]. by eapply Forall_impl.
  - intros c' x Hc. apply c. lia.
Qed.

(** ** The rules *)

Definition safe (N : nat) (P : event → Prop) {A} (m : M A) (Q : A → world → Prop) (w : world) : Prop :=
  wp m (λ a w', tree_inv w' ∧ step N P w w' ∧ Q a w') w.

(** A controller is there, and where it is linked. *)
Definition has (c : nat) (w : world) : Prop := is_Some (w_ctrls w !! c).
Definition linked (h c : nat) (w : world) : Prop :=
  ∃ x s, w_ctrls w !! c = Some x ∧ c_s x = Some (h, s).
Definition loose (c : nat) (w : world) : Prop := ∃ x, w_ctrls w !! c = Some x ∧ c_s x = None.
(** It is linked nowhere, and has these addresses. *)
Definition loose_at a (c : nat) (w : world) : Prop :=
  ∃ x, w_ctrls w !! c = Some x ∧ c_s x = None ∧ addrs x = a.

Lemma has_step N P c w w' : step N P w w' → (c < N)%nat → has c w → has c w'.
Proof. intros Hs Hc [x Hx]. destruct (step_ctrl _ _ _ _ Hs _ _ Hc Hx) as (x' & Hx' & _). by exists x'. Qed.
Lemma linked_step N P h c w w' : step N P w w' → (c < N)%nat → linked h c w → linked h c w'.
Proof.
  intros Hs Hc (x & s & Hx & Hl). destruct (step_ctrl _ _ _ _ Hs _ _ Hc Hx) as (x' & Hx' & [He _]).
  exists x', s. split; [done|congruence].
Qed.
Lemma loose_step N P c w w' : step N P w w' → (c < N)%nat → loose c w → loose c w'.
Proof.
  intros Hs Hc (x & Hx & Hl). destruct (step_ctrl _ _ _ _ Hs _ _ Hc Hx) as (x' & Hx' & [He _]).
  exists x'. split; [done|congruence].
Qed.
Lemma loose_at_step a N P c w w' : step N P w w' → (c < N)%nat → loose_at a c w → loose_at a c w'.
Proof.
  intros Hs Hc (x & Hx & Hl & Ha). destruct (step_ctrl _ _ _ _ Hs _ _ Hc Hx) as (x' & Hx' & [He Ha']).
  exists x'. split; [done|]. split; congruence.
Qed.
Lemma loose_at_loose a c w : loose_at a c w → loose c w.
Proof. intros (x & Hx & Hl & _). by exists x. Qed.
Lemma loose_has c w : loose c w → has c w.
Proof. intros (x & Hx & _). by exists x. Qed.
Lemma linked_has h c w : linked h c w → has c w.
Proof. intros (x & s & Hx & _). by exists x. Qed.
Lemma has_next c w : tree_inv w → has c w → (c < w_next w)%nat.
Proof. intros Hi [x Hx]. by eapply inv_next. Qed.

Section Rules.
Context (N : nat) (P : event → Prop).

Lemma safe_bind_at N' {A B} (m : M A) (f : A → M B) R Q w :
  (N ≤ N')%nat → safe N' P m R w →
  (∀ a w', tree_inv w' → step N' P w w' → R a w' → safe N P (f a) Q w') →
  safe N P (bind m f) Q w.
Proof.
  intros Hle Hm Hf. eapply wp_bind; [exact Hm|]. intros a w' (Hi & Hs & HR).
  eapply wp_mono; [by apply Hf|]. intros b w'' (Hi' & Hs' & HQ). split; [done|]. split; [|done].
  eapply step_trans; [|by eapply step_mono|exact Hs']. lia.
Qed.

Lemma safe_bind {A B} (m : M A) (f : A → M B) R Q w :
  safe N P m R w → (∀ a w', tree_inv w' → step N P w w' → R a w' → safe N P (f a) Q w') →
  safe N P (bind m f) Q w.
Proof. intros. by eapply safe_bind_at. Qed.

Lemma safe_mono {A} (m : M A) (R Q : A → world → Prop) w :
  safe N P m R w → (∀ a w', tree_inv w' → step N P w w' → R a w' → Q a w') → safe N P m Q w.
Proof. intros Hm HR. eapply wp_mono; [exact Hm|]. intros a w' (Hi & Hs & Ha). eauto. Qed.

Lemma safe_ret {A} (a : A) (Q : A → world → Prop) w : tree_inv w → Q a w → safe N P (ret_ a) Q w.
Proof. intros Hi HQ. split; [done|]. split; [apply step_refl|done]. Qed.

Lemma safe_get {A} (f : world → A) (Q : A → world → Prop) w :
  tree_inv w → Q (f w) w → safe N P (get f) Q w.
Proof. intros Hi HQ. split; [done|]. split; [apply step_refl|done]. Qed.

Lemma safe_ctrl c (Q : libnvme_ctrl → world → Prop) w :
  tree_inv w → has c w → (∀ x, w_ctrls w !! c = Some x → Q x w) → safe N P (ctrl c) Q w.
Proof.
  intros Hi [x Hx] HQ. unfold safe, wp, ctrl. rewrite Hx. split; [done|]. split; [apply step_refl|auto].
Qed.

(** A change of the state that leaves the tree alone. *)
Lemma safe_state {A} (a : A) (f : world → world) (Q : A → world → Prop) w :
  tree_inv w → w_ctrls (f w) = w_ctrls w → w_next (f w) = w_next w → w_hosts (f w) = w_hosts w →
  (∃ evs, w_events (f w) = w_events w ++ evs ∧ Forall P evs) → Q a (f w) →
  safe N P (λ w, Ret a (f w)) Q w.
Proof.
  intros [i1 i2] Hc Hn Hh He HQ. split; [|split; [|exact HQ]].
  - split; rewrite Hc; [by rewrite Hn|]. intros h s y c Hy Hc'. eapply i2; [|exact Hc'].
    unfold subsys_at, host_at in *. by rewrite Hh in Hy.
  - split; [exact He|lia| |].
    + intros c x _ Hx. exists x. rewrite Hc. done.
    + intros h x Hx. exists x. unfold host_at in *. rewrite Hh. done.
Qed.

Lemma safe_ask {A} (f : nat → A) (Q : A → world → Prop) w :
  tree_inv w → (∀ w', w_ctrls w' = w_ctrls w → w_hosts w' = w_hosts w → Q (f (w_tick w)) w') →
  safe N P (ask f) Q w.
Proof.
  intros Hi HQ. apply (safe_state (f (w_tick w)) (λ w, set_tick (S (w_tick w)) w)); try done.
  - exists []. by rewrite app_nil_r.
  - by apply HQ.
Qed.

Lemma safe_emit e (Q : unit → world → Prop) w :
  tree_inv w → P e → (∀ w', w_ctrls w' = w_ctrls w → w_hosts w' = w_hosts w → Q tt w') →
  safe N P (emit e) Q w.
Proof.
  intros Hi He HQ. apply (safe_state tt (add_event e)); try done.
  - exists [e]. split; [done|]. by constructor.
  - by apply HQ.
Qed.

(** A change of a controller that keeps its place. *)
Lemma safe_upd c f (Q : unit → world → Prop) w :
  tree_inv w → has c w → (∀ x, c_s (f x) = c_s x) → ((c < N)%nat → ∀ x, addrs (f x) = addrs x) →
  (∀ x w', w_ctrls w !! c = Some x → w_ctrls w' !! c = Some (f x) → Q tt w') →
  safe N P (upd_ctrl c f) Q w.
Proof.
  intros [i1 i2] [x Hx] Hs Ht HQ. unfold safe, wp, upd_ctrl. rewrite Hx. split; [|split].
  - split; cbn [set_ctrls w_ctrls w_next].
    + intros c' x' Hc'. destruct (decide (c' = c)) as [->|Hne]; [by eapply i1|].
      rewrite lookup_insert_ne in Hc' by done. by eapply i1.
    + intros h s y c' Hy Hc'. destruct (i2 h s y c' Hy Hc') as (x' & Hx' & Hl).
      destruct (decide (c' = c)) as [->|Hne]; [|exists x'; by rewrite lookup_insert_ne].
      exists (f x). rewrite lookup_insert_eq. split; [done|]. rewrite Hs. congruence.
  - split; [exists []; by rewrite app_nil_r|done| |].
    + intros c' x' HN Hc'. cbn [set_ctrls w_ctrls].
      destruct (decide (c' = c)) as [->|Hne]; [|exists x'; by rewrite lookup_insert_ne].
      exists (f x). rewrite lookup_insert_eq. split; [done|]. rewrite Hx in Hc'. injection Hc' as <-.
      split; [apply Hs|by apply Ht].
    + intros h x' Hh. by exists x'.
  - apply (HQ x); [done|]. cbn [set_ctrls w_ctrls]. apply lookup_insert_eq.
Qed.
End Rules.

(** ** Quiet programs *)

(** A program that works on the controllers [S] and links or frees none. *)
Section Quiet.
Context (N : nat) (P : event → Prop).

Definition all_has (S : list nat) (w : world) : Prop := Forall (λ c, (c < N)%nat ∧ has c w) S.

Definition quiet (S : list nat) {A} (m : M A) : Prop :=
  ∀ w, tree_inv w → all_has S w → safe N P m (λ _ _, True) w.

Lemma all_has_step S w w' : step N P w w' → all_has S w → all_has S w'.
Proof.
  intros Hs Ha. eapply Forall_impl; [exact Ha|]. intros c [Hc Hh]. split; [done|]. by eapply has_step.
Qed.

Lemma quiet_bind S {A B} (m : M A) (f : A → M B) :
  quiet S m → (∀ a, quiet S (f a)) → quiet S (bind m f).
Proof.
  intros Hm Hf w Hi Ha. eapply safe_bind; [by apply Hm|]. intros a w' Hi' Hs _.
  apply Hf; [done|]. by eapply all_has_step.
Qed.

Lemma quiet_ret S {A} (a : A) : quiet S (ret_ a).
Proof. intros w Hi _. by apply safe_ret. Qed.
Lemma quiet_get S {A} (f : world → A) : quiet S (get f).
Proof. intros w Hi _. by apply safe_get. Qed.
Lemma quiet_ask S {A} (f : nat → A) : quiet S (ask f).
Proof. intros w Hi _. by apply safe_ask. Qed.
Lemma quiet_emit S e : P e → quiet S (emit e).
Proof. intros He w Hi _. by apply safe_emit. Qed.
Lemma quiet_ctrl S c : c ∈ S → quiet S (ctrl c).
Proof.
  intros Hc w Hi Ha. apply safe_ctrl; [done| |done]. unfold all_has in Ha.
  rewrite Forall_forall in Ha. by apply Ha.
Qed.
Lemma quiet_upd S c f :
  c ∈ S → (∀ x, c_s (f x) = c_s x) → (∀ x, addrs (f x) = addrs x) → quiet S (upd_ctrl c f).
Proof.
  intros Hc Hs Ht w Hi Ha. apply safe_upd; try done. unfold all_has in Ha.
  rewrite Forall_forall in Ha. by apply Ha.
Qed.
Lemma quiet_options S o : quiet S (modify (set_options o)).
Proof.
  intros w Hi _. apply (safe_state N P tt (set_options o)); try done. exists []. by rewrite app_nil_r.
Qed.
End Quiet.

Create HintDb quiet.
#[export] Hint Resolve quiet_ret quiet_get quiet_ask quiet_options : quiet.

(** Follows the program; what it cannot decide is left. *)
Ltac quiet_go :=
  repeat first
    [ progress intros
    | solve [auto with quiet]
    | apply quiet_bind
    | apply quiet_ctrl; solve [assumption | set_solver]
    | apply quiet_upd; [solve [assumption | set_solver]|reflexivity|reflexivity]
    | match goal with
      | |- quiet _ _ _ (match ?x with _ => _ end) => destruct x
      | |- quiet _ _ _ (let '(_, _) := ?x in _) => destruct x
      end ].

Section Ops.
Context (E : env) `{Alloc} `{Inet} (N : nat) (P : event → Prop).

Lemma quiet_get_ctrl_attr S c name : c ∈ S → quiet N P S (libnvme_get_ctrl_attr E c name).
Proof. unfold libnvme_get_ctrl_attr. quiet_go. Qed.
Hint Resolve quiet_get_ctrl_attr : quiet.

Lemma quiet_load_attrs S c : c ∈ S → quiet N P S (libnvmf_ctrl_load_fabrics_attrs E c).
Proof. unfold libnvmf_ctrl_load_fabrics_attrs. quiet_go. Qed.
Hint Resolve quiet_load_attrs : quiet.

Lemma quiet_get_key S k c : c ∈ S → quiet N P S (libnvme_ctrl_get_key E k c).
Proof. unfold libnvme_ctrl_get_key. quiet_go. Qed.
Lemma quiet_set_key S k c v : c ∈ S → quiet N P S (libnvme_ctrl_set_key k c v).
Proof. unfold libnvme_ctrl_set_key. quiet_go. Qed.
Hint Resolve quiet_get_key quiet_set_key : quiet.

Lemma quiet_get_state S c : c ∈ S → quiet N P S (libnvme_ctrl_get_state E c).
Proof. unfold libnvme_ctrl_get_state. quiet_go. Qed.
Hint Resolve quiet_get_state : quiet.

Lemma quiet_deconfigure S c : c ∈ S → quiet N P S (libnvme_deconfigure_ctrl c).
Proof. unfold libnvme_deconfigure_ctrl. quiet_go. Qed.

Lemma quiet_fabrics_attrs S c : c ∈ S → quiet N P S (libnvmf_read_sysfs_fabrics_attrs E c).
Proof.
  unfold libnvmf_read_sysfs_fabrics_attrs, libnvmf_read_sysfs_tls, libnvmf_read_sysfs_tls_mode.
  quiet_go.
Qed.
Hint Resolve quiet_fabrics_attrs : quiet.

Lemma quiet_reconfigure S c path name : c ∈ S → quiet N P S (libnvme_reconfigure_ctrl E c path name).
Proof. unfold libnvme_reconfigure_ctrl. quiet_go. Qed.

(** Matching. *)
Lemma quiet_match S c ca : c ∈ S → quiet N P S (_tcp_match_ctrl E c ca) ∧
  quiet N P S (_libnvmf_tree_ctrl_match c ca).
Proof.
  intros Hc. split; [|unfold _libnvmf_tree_ctrl_match; quiet_go].
  unfold _tcp_match_ctrl, _tcp_opt_params_match, _tcp_opt_params_match_no_src_addr,
    _tcp_ctrl_match_host_traddr_no_src_addr, _tcp_ctrl_match_host_iface_no_src_addr, _tcp_ctrl_not_live.
  quiet_go.
Qed.

Lemma find_matching_ok m ca cs w :
  (∀ S c, c ∈ S → quiet N P S (m c ca)) → tree_inv w → all_has N cs w →
  safe N P (find_matching m ca cs) (λ r _, ∀ c, r = Some c → c ∈ cs) w.
Proof.
  intros Hm. revert w. induction cs as [|c cs IH]; intros w Hi Ha; cbn [find_matching].
  { by apply safe_ret. }
  eapply safe_bind; [apply (Hm (c :: cs)); [set_solver|done|done]|]. intros ok w' Hi' Hs _.
  destruct ok; [apply safe_ret; [done|]; intros ? [= <-]; set_solver|].
  eapply safe_mono; [apply IH; [done|]|].
  - eapply all_has_step; [exact Hs|]. by eapply Forall_inv_tail.
  - intros r w'' _ _ Hr d ->. specialize (Hr d eq_refl). set_solver.
Qed.

Lemma listed_has h s w :
  tree_inv w → (w_next w ≤ N)%nat → all_has N (default [] (s_ctrls <$> subsys_at h s w)) w.
Proof.
  intros Hi HN. apply list.Forall_forall. intros c Hc.
  destruct (subsys_at h s w) as [y|] eqn:Hy; cbn in Hc; [|by apply elem_of_nil in Hc].
  destruct (inv_listed _ Hi _ _ _ _ Hy Hc) as (x & Hx & _). split; [|by exists x].
  pose proof (inv_next _ Hi _ _ Hx). lia.
Qed.

Lemma ctrl_find_ok h s params w :
  tree_inv w → (w_next w ≤ N)%nat →
  safe N P (libnvme_ctrl_find E h s params) (λ r w', ∀ c, r = Some c → linked h c w' ∧ (c < N)%nat) w.
Proof.
  intros Hi HN. unfold libnvme_ctrl_find.
  eapply (safe_bind _ _ _ _ (λ p w', w_ctrls w' = w_ctrls w ∧ w_hosts w' = w_hosts w ∧
    ∀ S c, c ∈ S → quiet N P S (p.2 c p.1))).
  { unfold _libnvmf_candidate_init. case_match.
    - eapply safe_bind; [apply (safe_ask _ _ _ (λ _ w', w_ctrls w' = w_ctrls w ∧ w_hosts w' = w_hosts w)); done|].
      intros ifs w' Hi' _ [Hc Hh]. apply safe_ret; [done|]. split_and!; [done..|].
      intros S c Hc'. by apply quiet_match.
    - case_match; (apply safe_ret; [done|]); split_and!; try done; intros S c Hc'; by apply quiet_match. }
  intros [ca m] w1 Hi1 Hs1 (Hc & Hh & Hm).
  eapply (safe_bind _ _ _ _ (λ cs w', w' = w1 ∧ cs = default [] (s_ctrls <$> subsys_at h s w1)));
    [by apply safe_get|].
  intros cs w' _ _ [-> ->].
  assert (Hall : all_has N (default [] (s_ctrls <$> subsys_at h s w1)) w1).
  { replace (subsys_at h s w1) with (subsys_at h s w) by (unfold subsys_at, host_at; by rewrite Hh).
    eapply all_has_step; [exact Hs1|]. by apply listed_has. }
  eapply safe_mono; [by apply find_matching_ok|].
  intros r w2 _ Hs2 Hr c ->. specialize (Hr c eq_refl).
  destruct (subsys_at h s w1) as [y|] eqn:Hy; cbn in Hr; [|by apply elem_of_nil in Hr].
  destruct (inv_listed _ Hi1 _ _ _ _ Hy Hr) as (x & Hx & Hl).
  unfold all_has in Hall. cbn in Hall. rewrite list.Forall_forall in Hall. destruct (Hall _ Hr) as [Hlt _].
  split; [|done]. eapply linked_step; [exact Hs2|done|]. by exists x, s.
Qed.
End Ops.

(** The bound may be lowered, and the events weakened. *)
Lemma safe_weaken N N' (P P' : event → Prop) {A} (m : M A) Q w :
  (N ≤ N')%nat → (∀ e, P e → P' e) → safe N' P m Q w → safe N P' m Q w.
Proof.
  intros HN HP Hm. eapply wp_mono; [exact Hm|]. intros a w' (Hi & Hs & HQ). split; [done|].
  split; [|done]. by eapply step_mono.
Qed.

#[export] Hint Resolve quiet_get_ctrl_attr quiet_load_attrs quiet_get_key quiet_set_key
  quiet_get_state quiet_deconfigure quiet_fabrics_attrs quiet_reconfigure : quiet.

Section Lookup.
Context (E : env) `{Alloc} `{Inet} (P : event → Prop).

Lemma find_ok N h s params w :
  tree_inv w →
  safe N P (libnvme_ctrl_find E h s params) (λ r w', ∀ c, r = Some c → linked h c w') w.
Proof.
  intros Hi. eapply (safe_weaken _ (max N (w_next w)) P); [lia|done|].
  eapply safe_mono; [apply ctrl_find_ok; [done|lia]|]. cbn. intros r w' _ _ Hr c Hc. by apply Hr.
Qed.

Lemma lookup_ctrl_ok N h params w :
  tree_inv w → safe N P (lookup_ctrl E h params) (λ r w', ∀ c, r = Some c → linked h c w') w.
Proof.
  intros Hi. unfold lookup_ctrl. eapply safe_bind; [by apply (safe_get _ _ _ (λ _ _, True))|].
  intros n w' Hi' _ _. clear Hi w. revert w' Hi'.
  induction (seq 0 n) as [|s ss IH]; intros w Hi; cbn [lookup_in]; [by apply safe_ret|].
  eapply safe_bind; [by apply find_ok|]. intros [c|] w' Hi' _ Hr; [by apply safe_ret|]. by apply IH.
Qed.

Lemma lookup_live_ok N h params w :
  tree_inv w → safe N P (lookup_live_ctrl E h params) (λ r w', ∀ c, r = Some c → linked h c w') w.
Proof.
  intros Hi. unfold lookup_live_ctrl. eapply safe_bind; [by apply lookup_ctrl_ok|].
  intros [c|] w' Hi' _ Hr; [|by apply safe_ret]. specialize (Hr c eq_refl).
  eapply safe_bind; [apply (safe_ctrl _ _ _ (λ _ w'', w'' = w')); [done|by eapply linked_has|done]|].
  intros x w'' _ _ ->. apply safe_ret; [done|]. intros d. destruct (given (c_name x)); [|done].
  by intros [= <-].
Qed.
End Lookup.

(** ** Creating, linking and freeing *)

Section Link.
Context (E : env) (P : event → Prop).

Lemma create_ctrl_ok N params w :
  tree_inv w → (N ≤ w_next w)%nat →
  safe N P (libnvme_create_ctrl params)
    (λ r w', match r with
             | inr c => c = w_next w ∧ w_next w' = S c ∧ loose_at (addrs (new_ctrl params)) c w' ∧
                        w_events w' = w_events w
             | inl e => e = CErrno EINVAL
             end) w.
Proof.
  intros Hi HN. unfold libnvme_create_ctrl. destruct (p_transport params) as [t|]; [|by apply safe_ret].
  case_match; [by apply safe_ret|]. case_match; [by apply safe_ret|].
  unfold safe, wp. cbn. destruct Hi as [i1 i2]. split_and!; try done.
  - split; cbn.
    + intros c x Hx. destruct (decide (c = w_next w)) as [->|Hne]; [lia|].
      rewrite lookup_insert_ne in Hx by done. specialize (i1 _ _ Hx). lia.
    + intros h s y c Hy Hc. destruct (i2 h s y c Hy Hc) as (x & Hx & Hl). exists x. split; [|done].
      rewrite lookup_insert_ne; [done|]. specialize (i1 _ _ Hx). lia.
  - split; cbn; [exists []; by rewrite app_nil_r|lia| |].
    + intros c x Hc Hx. exists x. split; [|done]. rewrite lookup_insert_ne; [done|lia].
    + intros h x Hx. by exists x.
  - exists (new_ctrl params). cbn. by rewrite lookup_insert_eq.
Qed.

(** [host_at] and [subsys_at] after a change of one subsystem. *)
Lemma host_alter h h' f w :
  host_at h' (set_hosts (alter f h (w_hosts w)) w) =
  (if decide (h = h') then f <$> host_at h' w else host_at h' w).
Proof.
  unfold host_at. cbn [set_hosts w_hosts]. case_decide as Hd.
  - subst. by rewrite list_lookup_alter_eq.
  - by rewrite list_lookup_alter_ne.
Qed.

Lemma subsys_alter h s f h' s' w :
  subsys_at h' s' (alter_subsys h s f w) =
  (if decide (h = h' ∧ s = s') then f <$> subsys_at h' s' w else subsys_at h' s' w).
Proof.
  unfold alter_subsys, subsys_at. rewrite host_alter. repeat case_decide; subst; try naive_solver.
  - destruct H0 as [_ ->]. destruct (host_at h' w) as [x|]; [|done]. cbn.
    by rewrite list_lookup_alter_eq.
  - destruct (host_at h' w) as [x|]; [|done]. cbn. rewrite list_lookup_alter_ne; [done|naive_solver].
Qed.

Lemma host_alter_subsys h s f h' w x :
  host_at h' w = Some x →
  ∃ x', host_at h' (alter_subsys h s f w) = Some x' ∧ same_host x x'.
Proof.
  intros Hx. unfold alter_subsys. rewrite host_alter, Hx. case_decide; [|by exists x].
  eexists. split; [done|]. done.
Qed.

(** Where a controller is listed when the one subsystem it is linked to has
    dropped it. *)
Lemma free_ok N c w :
  tree_inv w → has c w → (N ≤ c)%nat →
  safe N P (libnvme_free_ctrl c) (λ _ w', w_events w' = w_events w) w.
Proof.
  intros [i1 i2] [x Hx] HN.
  set (w1 := match c_s x with
             | Some (h, s) => alter_subsys h s (λ y, set_s_ctrls (filter (λ i, i ≠ c) (s_ctrls y)) y) w
             | None => w
             end).
  assert (Hw1 : w_ctrls w1 = w_ctrls w ∧ w_next w1 = w_next w ∧ w_events w1 = w_events w).
  { subst w1. by destruct (c_s x) as [[h s]|]. }
  destruct Hw1 as (Hc1 & Hn1 & He1).
  assert (Hrun : ∃ x1 x2, libnvme_free_ctrl c w =
            Ret tt (set_ctrls (delete c (<[c := x2]> (<[c := x1]> (w_ctrls w)))) w1)).
  { exists (set_link None x), (deconfigured (set_link None x)).
    unfold libnvme_free_ctrl, libnvme_unlink_ctrl, libnvme_deconfigure_ctrl, bind, ctrl, modify,
      upd_ctrl, ret_.
    rewrite Hx. subst w1. destruct (c_s x) as [[h s]|]; cbn [alter_subsys set_hosts w_ctrls];
      rewrite Hx; cbn [set_ctrls w_ctrls]; rewrite lookup_insert_eq; reflexivity. }
  destruct Hrun as (x1 & x2 & Hrun). unfold safe, wp. rewrite Hrun.
  assert (Hlook : ∀ d, d ≠ c → delete c (<[c := x2]> (<[c := x1]> (w_ctrls w))) !! d = w_ctrls w !! d).
  { intros d Hd. by rewrite lookup_delete_ne, !lookup_insert_ne. }
  split; [|split; [|done]].
  - split; cbn [set_ctrls w_ctrls w_next].
    + intros d y Hd. destruct (decide (d = c)) as [->|Hne]; [by rewrite lookup_delete_eq in Hd|].
      rewrite Hlook in Hd by done. rewrite Hn1. by eapply i1.
    + intros h s y d Hy Hd. change (subsys_at h s w1 = Some y) in Hy.
      assert (Hold : ∃ y0, subsys_at h s w = Some y0 ∧ d ∈ s_ctrls y0 ∧ (c_s x = Some (h, s) → d ≠ c)).
      { subst w1. destruct (c_s x) as [[h' s']|]; [|by exists y].
        rewrite subsys_alter in Hy. case_decide as Heq.
        - destruct Heq as [-> ->]. destruct (subsys_at h s w) as [y0|]; [|done].
          cbn in Hy. injection Hy as <-. cbn in Hd. apply list_elem_of_filter in Hd as [? ?].
          exists y0. naive_solver.
        - exists y. split_and!; [done..|]. naive_solver. }
      destruct Hold as (y0 & Hy0 & Hd0 & Hne).
      destruct (i2 _ _ _ _ Hy0 Hd0) as (z & Hz & Hl). exists z. split; [|done].
      rewrite Hlook; [done|]. intros ->. apply Hne; [|done]. congruence.
  - split; cbn [set_ctrls w_ctrls w_next w_events].
    + exists []. by rewrite app_nil_r.
    + by rewrite Hn1.
    + intros d y Hd Hy. exists y. split; [|done]. rewrite Hlook; [done|lia].
    + intros h y Hy. change (∃ x', host_at h w1 = Some x' ∧ same_host y x').
      subst w1. destruct (c_s x) as [[h' s']|]; [by apply host_alter_subsys|by exists y].
Qed.

Lemma get_subsystem_ok N h name nqn w :
  tree_inv w → safe N P (libnvme_get_subsystem E h name nqn) (λ _ w', w_ctrls w' = w_ctrls w) w.
Proof.
  intros Hi. unfold libnvme_get_subsystem. eapply safe_bind; [by apply (safe_get _ _ _ (λ _ w', w' = w))|].
  intros [s|] w' _ _ ->; [by apply safe_ret|]. unfold libnvme_create_subsystem.
  eapply safe_bind; [apply (safe_ask _ _ _ (λ _ w', w_ctrls w' = w_ctrls w)); auto|].
  intros t w1 Hi1 _ H1. eapply safe_bind; [by apply (safe_get _ _ _ (λ _ w', w' = w1))|].
  intros k w' _ _ ->. eapply (safe_bind _ _ _ _ (λ _ w', w_ctrls w' = w_ctrls w)); [|intros ? ? ? _ ?; by apply safe_ret].
  destruct Hi1 as [i1 i2]. split; [|split; [|done]].
  - split; [done|]. intros h' s y c Hy Hc. unfold subsys_at in Hy. rewrite host_alter in Hy.
    case_decide as Hd; [|by eapply i2]. subst h'.
    destruct (host_at h w1) as [z|] eqn:Hz; [|done]. cbn in Hy.
    apply lookup_app_Some in Hy as [Hy|[_ Hy]].
    + eapply i2; [|exact Hc]. unfold subsys_at. rewrite Hz. exact Hy.
    + apply list_lookup_singleton_Some in Hy as [_ <-]. by apply elem_of_nil in Hc.
  - split; [exists []; by rewrite app_nil_r|done|intros c x _ Hx; by exists x|].
    intros h' x Hx. rewrite host_alter, Hx. case_decide; [|by exists x]. eexists. split; [done|]. done.
Qed.

(** A controller that is linked nowhere joins a subsystem. *)
Lemma link_ok N c h s w :
  tree_inv w → loose c w → (N ≤ c)%nat →
  safe N P (do! upd_ctrl c (set_link (Some (h, s))) in
            do! modify (alter_subsys h s (λ y, set_s_ctrls (s_ctrls y ++ [c]) y)) in
            ret_ CSuccess)
    (λ r w', r = CSuccess ∧ linked h c w') w.
Proof.
  intros [i1 i2] (x & Hx & Hl) HN. unfold safe, wp, bind, upd_ctrl, modify, ret_. rewrite Hx.
  assert (Hunlisted : ∀ h' s' y, subsys_at h' s' w = Some y → c ∉ s_ctrls y).
  { intros h' s' y Hy Hc. destruct (i2 _ _ _ _ Hy Hc) as (x' & Hx' & Hl'). congruence. }
  split_and!.
  - split; cbn [alter_subsys set_hosts set_ctrls w_ctrls w_next].
    + intros d y Hd. destruct (decide (d = c)) as [->|Hne]; [by eapply i1|].
      rewrite lookup_insert_ne in Hd by done. by eapply i1.
    + intros h' s' y d Hy Hd. rewrite subsys_alter in Hy.
      change (subsys_at h' s' (set_ctrls (<[c := set_link (Some (h, s)) x]> (w_ctrls w)) w))
        with (subsys_at h' s' w) in Hy.
      destruct (decide (d = c)) as [->|Hne].
      * rewrite lookup_insert_eq. eexists. split; [done|]. cbn.
        case_decide as Heq; [by destruct Heq as [-> ->]|]. exfalso. by eapply Hunlisted.
      * rewrite lookup_insert_ne by done. case_decide as Heq; [|by eapply i2].
        destruct Heq as [-> ->]. destruct (subsys_at h' s' w) as [y0|] eqn:Hy0; [|done]. cbn in Hy.
        injection Hy as <-. cbn in Hd. apply (i2 _ _ _ _ Hy0). set_solver.
  - split; cbn [alter_subsys set_hosts set_ctrls w_ctrls w_next w_events].
    + exists []. by rewrite app_nil_r.
    + done.
    + intros d y Hd Hy. exists y. split; [|done]. rewrite lookup_insert_ne; [done|lia].
    + intros h' y Hy. by apply host_alter_subsys.
  - done.
  - exists (set_link (Some (h, s)) x), s. split; [|done].
    cbn [alter_subsys set_hosts set_ctrls w_ctrls]. apply lookup_insert_eq.
Qed.

(** A quiet program on a controller that is linked nowhere. *)
Lemma quiet_loose_at {A} (m : M A) a c w :
  quiet (S c) P [c] m → tree_inv w → loose_at a c w → safe (S c) P m (λ _ w', loose_at a c w') w.
Proof.
  intros Hm Hi Hl. eapply safe_mono; [apply Hm; [done|]|].
  - constructor; [split; [lia|by eapply loose_has, loose_at_loose]|constructor].
  - intros r w' _ Hs _. by eapply loose_at_step; [exact Hs|lia|].
Qed.

Lemma quiet_loose {A} (m : M A) c w :
  quiet (S c) P [c] m → tree_inv w → loose c w → safe (S c) P m (λ _ w', loose c w') w.
Proof.
  intros Hm Hi Hl. eapply safe_mono; [apply Hm; [done|]|].
  - constructor; [split; [lia|by apply loose_has]|constructor].
  - intros a w' _ Hs _. by eapply loose_step; [exact Hs|lia|].
Qed.

Lemma init_ctrl_ok N h c instance w :
  tree_inv w → loose c w → (N ≤ c)%nat →
  safe N P (libnvme_init_ctrl E h c instance)
    (λ r w', (r = CSuccess → linked h c w') ∧ (r ≠ CSuccess → loose c w')) w.
Proof.
  intros Hi Hl HN. unfold libnvme_init_ctrl.
  set (name := lit "nvme" ++ _). set (path := ctrl_sysfs_dir E ++ _).
  eapply (safe_bind_at _ _ (S c)); [lia| |].
  { apply quiet_loose; [apply quiet_reconfigure; set_solver|done|done]. }
  cbv beta. intros r w1 Hi1 _ Hl1. destruct (is_zero r) eqn:Hr; cbn [negb]; [|apply safe_ret; [done|]].
  2:{ split; [|done]. intros ->. done. }
  eapply (safe_bind_at _ _ (S c)); [lia| |]. { apply quiet_loose; [apply quiet_ask|done|done]. }
  cbv beta. intros address w2 Hi2 _ Hl2.
  eapply (safe_bind_at _ _ (S c)); [lia| |].
  { apply quiet_loose; [apply quiet_upd; [set_solver|done|done]|done|done]. }
  cbv beta. intros _ w3 Hi3 _ Hl3.
  eapply (safe_bind_at _ _ (S c)); [lia| |]. { apply quiet_loose; [apply quiet_ctrl; set_solver|done|done]. }
  cbv beta. intros x w4 Hi4 _ Hl4. case_match; [by apply safe_ret|].
  eapply (safe_bind_at _ _ (S c)); [lia| |]. { apply quiet_loose; [apply quiet_ask|done|done]. }
  cbv beta. intros [sname|] w5 Hi5 _ Hl5; [|by apply safe_ret].
  eapply (safe_bind_at _ _ (S c)); [lia|by apply get_subsystem_ok|]. cbv beta. intros s w6 Hi6 Hs6 Hc6.
  assert (Hl6 : loose c w6) by (eapply loose_step; [exact Hs6|lia|done]).
  eapply (safe_bind_at _ _ (S c)); [lia| |]. { apply quiet_loose; [apply quiet_get|done|done]. }
  cbv beta. intros y w7 Hi7 _ Hl7.
  eapply (safe_bind_at _ _ (S c)); [lia| |].
  { apply quiet_loose; [case_match; [apply quiet_upd; [set_solver|done|done]|apply quiet_ret]|done|done]. }
  cbv beta. intros _ w8 Hi8 _ Hl8. eapply safe_mono; [by apply link_ok|].
  by intros r' w9 _ _ [-> Hlk].
Qed.
End Link.
