(* ===== verification/Connect.v ===== *)
(** * Connecting a controller: [libnvme/src/nvme/fabrics.c]

    [libnvmf_add_ctrl] makes a connection from a controller object and links
    the object to the tree, [libnvmf_disconnect_ctrl] ends it.
    [libnvmf_connect] is the command "nvme connect". *)

From Stdlib Require Import String.
From stdpp Require Import base list numbers gmap.
From S2P Require Import Prelude.
From S2P Require Import CStr.
From S2P Require Import Printf.
From S2P Require Import Parse.
From S2P Require Import Nqn.
From S2P Require Import Tid.
From S2P Require Import DTid.
From S2P Require Import Conf.
From S2P Require Import ConfResolve.
From S2P Require Import ConfApply.
From S2P Require Import Io.
From S2P Require Import Ctrl.
From S2P Require Import CtrlMatch.
From S2P Require Import Options.

#[local] Open Scope io_scope.

(** ** The response of the kernel *)

(** The switch on the errno of the write. *)
Definition write_error (e : errno) : libnvme_connect_err :=
  match e with
  | EALREADY => ENVME_CONNECT_ALREADY
  | EINVAL => ENVME_CONNECT_INVAL
  | EADDRINUSE => ENVME_CONNECT_ADDRINUSE
  | ENODEV => ENVME_CONNECT_NODEV
  | EOPNOTSUPP => ENVME_CONNECT_OPNOTSUPP
  | ECONNREFUSED => ENVME_CONNECT_CONNREFUSED
  | EADDRNOTAVAIL => ENVME_CONNECT_ADDRNOTAVAIL
  | ENOKEY => ENVME_CONNECT_NOKEY
  | _ => ENVME_CONNECT_WRITE
  end.

(** [sscanf(p, "instance=%d", &instance) == 1]. *)
Definition scan_instance (p : list Z) : option Z :=
  rest ← scan_lit (lit "instance=") p;
  let r := strtoll 10 rest in
  if st_conv r then Some (long_to_int (st_val r)) else None.

Fixpoint find_instance (ps : list (list Z)) : option Z :=
  match ps with
  | [] => None
  | p :: ps =>
      if negb (nonempty p) then find_instance ps
      else match scan_instance p with Some i => Some i | None => find_instance ps end
  end.

Inductive registry_action := REG_NONE | REG_CLAIM | REG_CLEAR.

Definition registry_action_on_connect (owner : option (list Z)) (fresh : bool) : registry_action :=
  match owner with
  | Some o => if nonempty o then REG_CLAIM else REG_CLEAR
  | None => if fresh then REG_CLEAR else REG_NONE
  end.

(** [sscanf(name, "nvme%d", &instance)], or -1. *)
Definition ctrl_instance (name : option (list Z)) : Z :=
  match name ≫= scan_lit (lit "nvme") with
  | Some rest => let r := strtoll 10 rest in if st_conv r then long_to_int (st_val r) else -1
  | None => -1
  end.

Section Connect.
Context (E : env) `{Alloc} `{Inet}.

Definition registry_update_on_connect (instance : Z) (fresh : bool) : M unit :=
  match registry_action_on_connect (ctx_owner E) fresh with
  | REG_CLAIM => emit (EvRegClaim instance (default [] (ctx_owner E)))
  | REG_CLEAR => emit (EvRegClear instance)
  | REG_NONE => ret_ tt
  end.

Definition __nvmf_add_ctrl (argstr : list Z) : M (failure + Z) :=
  if ctx_dry_run E then ret_ (inl (CConn ENVME_CONNECT_DRY_RUN))
  else
    let! x := ask (λ n, dev_xfer E n (Some argstr)) in
    let r := match x with
             | inl (LIBNVMF_DEV_OPEN, _) => inl (CConn ENVME_CONNECT_OPEN)
             | inl (LIBNVMF_DEV_WRITE, e) => inl (CConn (write_error e))
             | inl (LIBNVMF_DEV_READ, _) => inl (CConn ENVME_CONNECT_READ)
             | inr bytes =>
                 match find_instance (split_any [c_comma; c_nl] (response_text bytes)) with
                 | Some i => inr i
                 | None => inl (CConn ENVME_CONNECT_PARSE)
                 end
             end in
    do! emit (EvConnect argstr r) in
    do! (match r with inr i => registry_update_on_connect i true | inl _ => ret_ tt end) in
    ret_ r.

(** ** Addresses *)

Definition traddr_is_hostname (transport traddr : option (list Z)) : bool :=
  match traddr, transport with
  | Some a, Some t =>
      if str_eqb a (lit "none") then false
      else if negb (str_eqb t (lit "tcp")) && negb (str_eqb t (lit "rdma")) then false
      else negb (libnvmf_traddr_is_numeric (Some a))
  | _, _ => false
  end.

(** The fields of a TID, from a controller or from parameters. *)
Definition tid_fields (transport traddr trsvcid nqn host_traddr host_iface hostnqn hostid :
    option (list Z)) (f : field) : option (list Z) :=
  match f with
  | Transport => transport
  | Traddr => traddr
  | Trsvcid => trsvcid
  | Tid.Nqn => nqn
  | HostTraddr => host_traddr
  | HostIface => host_iface
  | Hostnqn => hostnqn
  | Hostid => hostid
  end.

Definition nvmf_sanitize_addrs (c : nat) : M code :=
  let! x := ctrl c in
  if traddr_is_hostname (c_transport x) (c_traddr x) then ret_ (CFail (CConn ENVME_CONNECT_TRADDR))
  else if traddr_is_hostname (c_transport x) (c_host_traddr x) then ret_ (CFail (CConn ENVME_CONNECT_TRADDR))
  else
    match libnvmf_tid_from_fields (tid_fields (c_transport x) (c_traddr x) (c_trsvcid x) None
            (c_host_traddr x) (c_host_iface x) None None) with
    | Err e => ret_ (CFail (CErrno e))
    | Ok t =>
        let keep o old := match o with Some v => Some v | None => old end in
        do! upd_ctrl c (λ x, set_addrs (keep (traddr t) (c_traddr x))
                               (keep (host_traddr t) (c_host_traddr x)) x) in
        ret_ CSuccess
    end.

(** ** Adding and removing *)

Definition ctrl_merge_keys (c fc : nat) : M unit :=
  let! key := libnvme_ctrl_get_key E KxHostKey c in
  do! (match key with
       | Some _ => ret_ tt
       | None =>
           let! key := libnvme_ctrl_get_key E KxHostKey fc in
           match key with
           | None => ret_ tt
           | Some key =>
               do! libnvme_ctrl_set_key KxHostKey c key in
               let! key := libnvme_ctrl_get_key E KxCtrlKey fc in
               match key with
               | Some key => libnvme_ctrl_set_key KxCtrlKey c key
               | None => ret_ tt
               end
           end
       end) in
  let! key := libnvme_ctrl_get_key E Keyring c in
  do! (match key with
       | Some _ => ret_ tt
       | None =>
           let! key := libnvme_ctrl_get_key E Keyring fc in
           match key with Some key => libnvme_ctrl_set_key Keyring c key | None => ret_ tt end
       end) in
  let! y := ctrl fc in
  let keep a b := match a with Some v => Some v | None => b end in
  upd_ctrl c (λ x, set_tls (keep (c_tls_key_identity x) (c_tls_key_identity y))
                     (keep (c_tls_key x) (c_tls_key y)) x).

Definition libnvmf_add_ctrl (h c : nat) : M code :=
  let! x := ctrl c in
  if given (c_name x) && negb (cfg_b (c_cfg x) duplicate_connect) then ret_ (CFail (CConn ENVME_CONNECT_ALREADY))
  else
    let! s := libnvme_lookup_subsystem h None (c_subsysnqn x) in
    do! (match s with
         | None => ret_ tt
         | Some s =>
             let params := CtrlParams (c_transport x) (c_traddr x) (c_host_traddr x) (c_host_iface x)
                             (c_trsvcid x) None (Cfg (λ _, 0) (λ _, false) 0 0 0) in
             let! fc := libnvme_ctrl_find E h s params in
             match fc with
             | None => ret_ tt
             | Some fc =>
                 let! y := ctrl fc in
                 do! upd_ctrl c (λ x, set_cfg (merge_config (c_cfg x) (c_cfg y)) x) in
                 ctrl_merge_keys c fc
             end
         end) in
    do! upd_ctrl c (λ x, set_flags (c_discovery_ctrl x) (c_unique_discovery_ctrl x) true x) in
    let! r := nvmf_sanitize_addrs c in
    if negb (is_zero r) then ret_ r
    else
      let! r := build_options E h c in
      match r with
      | inl e => ret_ (CFail e)
      | inr argstr =>
          let! r := __nvmf_add_ctrl argstr in
          match r with
          | inl e => ret_ (CFail e)
          | inr instance =>
              if instance <? 0 then ret_ (CFail (CInt instance)) else libnvme_init_ctrl E h c instance
          end
      end.

Definition libnvmf_disconnect_ctrl (c : nat) : M code :=
  let! x := ctrl c in
  if ctx_dry_run E && bool_decide (is_Some (c_s x)) then ret_ CSuccess
  else
    let! r := ask (λ n, delete_controller E n (default (lit "(null)") (c_sysfs_dir x))) in
    do! emit (EvDelete c r) in
    if negb (is_zero r) then ret_ r
    else do! libnvme_deconfigure_ctrl c in ret_ CSuccess.
End Connect.
