(* ===== verification/ConnectSpec.v ===== *)
(** * Connecting keeps the tree: lemmas about [Connect]

    A controller that is linked nowhere ends up in the tree when it is
    connected, and stays outside when it is not. *)

From Stdlib Require Import String.
From stdpp Require Import base list numbers gmap.
From S2P Require Import Prelude.
From S2P Require Import CStr.
From S2P Require Import Tid.
From S2P Require Import DTid.
From S2P Require Import ConfApply.
From S2P Require Import Io.
From S2P Require Import Ctrl.
From S2P Require Import CtrlMatch.
From S2P Require Import Options.
From S2P Require Import CtrlSpec.
From S2P Require Import Connect.

#[local] Open Scope io_scope.

(** The events of a connect. *)
Definition conn_event (e : event) : Prop :=
  match e with EvConnect _ _ | EvRegClaim _ _ | EvRegClear _ => True | _ => False end.

Section OptionsQuiet.
Context (E : env) (N : nat) (P : event → Prop).

Lemma quiet_supported S : quiet N P S (__nvmf_supported_options E).
Proof. unfold __nvmf_supported_options. quiet_go. Qed.
Hint Resolve quiet_supported : quiet.

Lemma quiet_check_option S tok : quiet N P S (nvmf_check_option E tok).
Proof. unfold nvmf_check_option. quiet_go. Qed.
Hint Resolve quiet_check_option : quiet.

Lemma quiet_add_args S l argstr : quiet N P S (add_args E l argstr).
Proof.
  revert argstr. induction l as [|[[cond tok] v] l IH]; intros argstr; cbn [add_args]; quiet_go; apply IH.
Qed.
Hint Resolve quiet_add_args : quiet.

Lemma quiet_import_keys S h c : c ∈ S → quiet N P S (__libnvmf_import_keys_from_config E h c).
Proof. unfold __libnvmf_import_keys_from_config. quiet_go. Qed.
Hint Resolve quiet_import_keys : quiet.

Lemma quiet_build_options S h c : c ∈ S → quiet N P S (build_options E h c).
Proof. unfold build_options. quiet_go. Qed.
End OptionsQuiet.
#[export] Hint Resolve quiet_supported quiet_check_option quiet_add_args quiet_build_options : quiet.

Section ConnectOk.
Context (E : env) `{Alloc} `{Inet} (P : event → Prop).
Context (HP : ∀ e, conn_event e → P e).

(** A TID can be made from the addresses. *)
Definition addrs_ok (a : option (list Z) * option (list Z) * option (list Z) * option (list Z) * option (list Z)) :
    Prop :=
  let '(tr, ta, svc, hta, hif) := a in
  ∃ t, libnvmf_tid_from_fields (tid_fields tr ta svc None hta hif None None) = Ok t.

Lemma sanitize_ok N a c w :
  tree_inv w → loose_at a c w → (N ≤ c)%nat →
  safe N P (nvmf_sanitize_addrs c)
    (λ r w', loose c w' ∧ (r = CSuccess → addrs_ok a) ∧ r ≠ CFail (CConn ENVME_CONNECT_INVAL)) w.
Proof.
  intros Hi Hl HN. unfold nvmf_sanitize_addrs. destruct Hl as (x & Hx & Hs & <-).
  assert (Hl : loose c w) by (by exists x).
  eapply safe_bind; [apply (safe_ctrl _ _ _ (λ y w', w' = w ∧ y = x)); [done|by exists x|]|].
  { intros y Hy. split; [done|congruence]. }
  intros y w' _ _ [-> ->]. case_match; [by apply safe_ret|]. case_match; [by apply safe_ret|].
  destruct (libnvmf_tid_from_fields _) as [t|e] eqn:Et; [|by apply safe_ret].
  eapply (safe_bind _ _ _ _ (λ _ w', loose c w')).
  { apply safe_upd; [done|by exists x|done|lia|]. intros y w' Hy Hy'. eexists. split; [exact Hy'|]. cbn. congruence. }
  intros _ w' Hi' _ Hl'. apply safe_ret; [done|]. split_and!; [done| |done]. intros _. by exists t.
Qed.

Lemma quiet_merge_keys N S c fc : c ∈ S → fc ∈ S → quiet N P S (ctrl_merge_keys E c fc).
Proof. unfold ctrl_merge_keys. quiet_go. Qed.

Lemma quiet_nvmf_add_ctrl N S argstr : quiet N P S (__nvmf_add_ctrl E argstr).
Proof.
  unfold __nvmf_add_ctrl, registry_update_on_connect. quiet_go; apply quiet_emit; by apply HP.
Qed.

(** The configuration and the keys of a controller that is there already. *)
Lemma carry_over_ok a h c s x w :
  tree_inv w → loose_at a c w →
  safe (S c) P
    (match s with
     | None => ret_ tt
     | Some s =>
         let params := CtrlParams (c_transport x) (c_traddr x) (c_host_traddr x) (c_host_iface x)
                         (c_trsvcid x) None (Cfg (λ _, 0) (λ _, false) 0 0 0) in
         let! fc := libnvme_ctrl_find E h s params in
         match fc with
         | None => ret_ tt
         | Some fc =>
             let! y := ctrl fc in
             do! upd_ctrl c (λ x, set_cfg (merge_config (c_cfg x) (c_cfg y)) x) in
             ctrl_merge_keys E c fc
         end
     end) (λ _ w', loose_at a c w') w.
Proof.
  intros Hi Hl. destruct s as [s|]; [|by apply safe_ret]. cbv zeta.
  eapply safe_bind; [by apply find_ok|]. intros [fc|] w1 Hi1 Hs1 Hfc.
  2:{ apply safe_ret; [done|]. by eapply loose_at_step; [exact Hs1|lia|]. }
  specialize (Hfc fc eq_refl).
  assert (Hl1 : loose_at a c w1) by (by eapply loose_at_step; [exact Hs1|lia|]).
  set (N := S (max c fc)). eapply (safe_weaken _ N P); [subst N; lia|done|].
  eapply safe_mono; [|intros r w2 _ Hs2 _; eapply loose_at_step; [exact Hs2|subst N; lia|exact Hl1]].
  assert (Hq : quiet N P [c; fc] (let! y := ctrl fc in
             do! upd_ctrl c (λ x, set_cfg (merge_config (c_cfg x) (c_cfg y)) x) in
             ctrl_merge_keys E c fc)).
  { quiet_go. }
  apply Hq; [done|]. constructor; [split; [subst N; lia|by eapply loose_has, loose_at_loose]|].
  constructor; [split; [subst N; lia|by eapply linked_has]|constructor].
Qed.

(** A connect that succeeds, or that the kernel refuses for its arguments, had
    addresses a TID can be made from. *)
Lemma add_ctrl_ok N a h c w :
  tree_inv w → loose_at a c w → (N ≤ c)%nat →
  safe N P (libnvmf_add_ctrl E h c)
    (λ r w', (r = CSuccess → linked h c w') ∧ (r ≠ CSuccess → loose c w') ∧
             (r = CSuccess ∨ r = CFail (CConn ENVME_CONNECT_INVAL) → addrs_ok a)) w.
Proof.
  intros Hi Hl HN. unfold libnvmf_add_ctrl.
  eapply (safe_bind_at _ _ (S c)); [lia|apply (quiet_loose_at _ _ a); [apply quiet_ctrl; set_solver|done..]|].
  cbv beta. intros x w1 Hi1 _ Hl1.
  case_match; [apply safe_ret; [done|]; split_and!; [done|by intros _; eapply loose_at_loose|by intros [|]]|].
  eapply (safe_bind_at _ _ (S c)); [lia|apply (quiet_loose_at _ _ a); [apply quiet_get|done..]|].
  cbv beta. intros s w2 Hi2 _ Hl2.
  eapply (safe_bind_at _ _ (S c)); [lia|by apply (carry_over_ok a)|]. cbv beta. intros _ w3 Hi3 _ Hl3.
  eapply (safe_bind_at _ _ (S c)); [lia|apply (quiet_loose_at _ _ a); [apply quiet_upd; [set_solver|done|done]|done..]|].
  cbv beta. intros _ w4 Hi4 _ Hl4.
  eapply safe_bind; [by apply (sanitize_ok _ a)|].
  cbv beta. intros r w5 Hi5 _ (Hl5 & Hok & Hno). destruct (is_zero r) eqn:Hr; cbn [negb].
  2:{ apply safe_ret; [done|]. split_and!; [by intros ->|done|]. intros [->|?]; done. }
  apply bool_decide_eq_true in Hr. specialize (Hok Hr).
  eapply (safe_bind_at _ _ (S c)); [lia|apply quiet_loose; [apply quiet_build_options; set_solver|done..]|].
  cbv beta. intros [e|argstr] w6 Hi6 _ Hl6; [by apply safe_ret|].
  eapply (safe_bind_at _ _ (S c)); [lia|apply quiet_loose; [apply quiet_nvmf_add_ctrl|done..]|].
  cbv beta. intros [e|i] w7 Hi7 _ Hl7; [by apply safe_ret|].
  case_match; [by apply safe_ret|]. eapply safe_mono; [by apply init_ctrl_ok|]. cbv beta. naive_solver.
Qed.
End ConnectOk.
