(* ===== verification/Walk.v ===== *)
(** * The discovery walk: [libnvme/src/nvme/fabrics.c]

    "nvme discover" and "nvme connect-all" read the discovery log page of a
    discovery controller, connect the I/O controllers it lists and go on to
    the discovery controllers it refers to, which are connected for the walk
    and disconnected again unless they are to persist. *)

From Stdlib Require Import String.
From stdpp Require Import base list numbers gmap.
From S2P Require Import Prelude.
From S2P Require Import CStr.
From S2P Require Import Nqn.
From S2P Require Import Tid.
From S2P Require Import DTid.
From S2P Require Import Discovery.
From S2P Require Import Exclusion.
From S2P Require Import Conf.
From S2P Require Import ConfResolve.
From S2P Require Import ConfApply.
From S2P Require Import Io.
From S2P Require Import Ctrl.
From S2P Require Import CtrlMatch.
From S2P Require Import Options.
From S2P Require Import Connect.

#[local] Open Scope io_scope.

(** ** Constants *)

Definition NVMF_TRTYPE_RDMA : Z := 1.
Definition NVMF_TRTYPE_TCP : Z := 3.
Definition NVMF_TRTYPE_LOOP : Z := 254.
Definition NVMF_ADDR_FAMILY_IP4 : Z := 1.
Definition NVMF_ADDR_FAMILY_IP6 : Z := 2.
Definition NVMF_ADDR_FAMILY_FC : Z := 4.
Definition NVME_NQN_DISC : Z := 1.
Definition NVME_NQN_NVME : Z := 2.
Definition NVME_NQN_CURR : Z := 3.
Definition NVMF_TREQ_REQUIRED : Z := 1.
Definition NVMF_TREQ_NOT_REQUIRED : Z := 2.
Definition NVMF_TREQ_DISABLE_SQFLOW : Z := 4.
Definition NVMF_TCP_SECTYPE_NONE : Z := 0.
Definition NVMF_DISC_EFLAGS_EPCSD : Z := 2.
Definition NVMF_MAX_REFERRAL_DEPTH : nat := 8.

Definition libnvmf_trtype_str (trtype : Z) : list Z :=
  if trtype =? NVMF_TRTYPE_RDMA then lit "rdma"
  else if trtype =? NVMF_TRTYPE_FC then lit "fc"
  else if trtype =? NVMF_TRTYPE_TCP then lit "tcp"
  else if trtype =? NVMF_TRTYPE_LOOP then lit "loop"
  else lit "unrecognized".

(** A bit of a field is set. *)
Definition has_bit (v bit : Z) : bool := negb (Z.land v bit =? 0).

(** ** The context *)

(** The part of [struct libnvmf_context] that discovery uses; the flags say
    whether a hook is set. *)
Record fabrics_ctx := FabricsCtx {
  f_params : libnvme_ctrl_params;
  f_default_keep_alive_timeout : Z;
  f_persistent : libnvmf_persistent;
  f_device : option (list Z);
  f_connect : bool;
  f_no_reuse : bool;
  f_hostnqn : option (list Z);
  f_hostid : option (list Z);
  f_hostkey : option (list Z);
  f_ctrlkey : option (list Z);
  f_config : option libnvmf_config;
  f_conn : option libnvmf_config_conn;
  f_hook_connected : bool;
  f_hook_already : bool;
  f_hook_log : bool;
}.

Inductive dc_ownership := DC_OWNED | DC_BORROWED.

#[export] Instance dc_ownership_eq_dec : EqDecision dc_ownership.
Proof. solve_decision. Defined.

(** ** Entries *)

(** The strings of a record that was made safe. *)
Definition decode_entry (e : list Z) : nvmf_disc_log_entry :=
  Entry (nth off_trtype e 0) (nth 1 e 0) (nth 2 e 0) (nth 3 e 0) (nth 10 e 0 + 256 * nth 11 e 0)
    (buf_str (take NVMF_TRSVCID_SIZE (drop off_trsvcid e)))
    (buf_str (take NVME_NQN_LENGTH (drop off_subnqn e)))
    (buf_str (take NVMF_TRADDR_SIZE (drop off_traddr e)))
    (nth 768 e 0).

Definition set_e_traddr (a : list Z) (e : nvmf_disc_log_entry) : nvmf_disc_log_entry :=
  Entry (e_trtype e) (e_adrfam e) (e_subtype e) (e_treq e) (e_eflags e) (e_trsvcid e) (e_subnqn e) a
    (e_sectype e).

(** The parameters for an entry. *)
Definition params_at (transport traddr trsvcid nqn : option (list Z)) (p : libnvme_ctrl_params) :
    libnvme_ctrl_params :=
  CtrlParams transport traddr (p_host_traddr p) (p_host_iface p) trsvcid nqn (p_cfg p).
Definition set_p_cfg (cfg : libnvme_fabrics_config) (p : libnvme_ctrl_params) : libnvme_ctrl_params :=
  CtrlParams (p_transport p) (p_traddr p) (p_host_traddr p) (p_host_iface p) (p_trsvcid p)
    (p_subsysnqn p) cfg.

(** [set_discovery_kato]: the old timeout, and the parameters. *)
Definition set_discovery_kato (fctx : fabrics_ctx) (params : libnvme_ctrl_params) :
    Z * libnvme_ctrl_params :=
  let tmo := cfg_i (p_cfg params) keep_alive_tmo in
  let wants_kato := match f_persistent fctx with
                    | LIBNVMF_PERSISTENT_AUTO | LIBNVMF_PERSISTENT_FORCE => true
                    | _ => false
                    end in
  let set v := set_p_cfg (set_cfg_i keep_alive_tmo v (p_cfg params)) params in
  (tmo, if wants_kato && (tmo =? 0) then set (f_default_keep_alive_timeout fctx)
        else if negb wants_kato && (0 <? tmo) then set 0
        else params).

Definition dc_decide (persistent : libnvmf_persistent) (own : dc_ownership) (self_seen : bool)
    (self_eflags : Z) (parent_eflags : option Z) : bool :=
  match own with
  | DC_BORROWED => false
  | DC_OWNED =>
      let eflags := if self_seen then self_eflags else default 0 parent_eflags in
      match persistent with
      | LIBNVMF_PERSISTENT_FORCE => false
      | LIBNVMF_PERSISTENT_AUTO => negb (has_bit eflags NVMF_DISC_EFLAGS_EPCSD)
      | _ => true
      end
  end.

Section Walk.
Context (E : env) `{Alloc} `{Inet}.

(** The exclusion list, and the outcome of [nvme_discovery_log] on the device
    of a controller: an error or the records. *)
Context (excl : excl_fs) (dlp : nat → option (list Z) → failure + list (list Z)).

(** The hook [connect_leaf], where it is set. *)
Context (connect_leaf : option (nat → nvmf_disc_log_entry → libnvme_ctrl_params → M (code * option nat))).

(** ** Connecting an entry *)

Definition nvmf_update_tls_concat (e : nvmf_disc_log_entry) (c : nat) : M unit :=
  if negb (e_trtype e =? NVMF_TRTYPE_TCP) || (e_sectype e =? NVMF_TCP_SECTYPE_NONE) then ret_ tt
  else if has_bit (e_treq e) NVMF_TREQ_REQUIRED
  then upd_ctrl c (λ x, set_cfg (set_cfg_b cfg_tls true (c_cfg x)) x)
  else if has_bit (e_treq e) NVMF_TREQ_NOT_REQUIRED
  then upd_ctrl c (λ x, set_cfg (set_cfg_b cfg_concat true (c_cfg x)) x)
  else ret_ tt.

Definition excluded_fields (src : field → option (list Z)) : bool :=
  match libnvmf_tid_from_fields src with
  | Err _ => false
  | Ok t => libnvmf_exclusion_match excl t
  end.

(** [nvmf_excluded] for the parameters of an entry and the host. *)
Definition nvmf_excluded (h : nat) (params : libnvme_ctrl_params) : M bool :=
  let! host := get (host_at h) in
  ret_ (excluded_fields (tid_fields (p_transport params) (p_traddr params) (p_trsvcid params)
          (p_subsysnqn params) (p_host_traddr params) (p_host_iface params)
          (h_hostnqn <$> host) (h_hostid <$> host))).

Definition dc_inherit_keys (fctx : fabrics_ctx) (dc c : nat) : M unit :=
  let! x := ctrl c in
  let s := config ← f_config fctx;
           libnvmf_config_find_subsys config (f_conn fctx) (c_discovery_ctrl x) (c_subsysnqn x) in
  let hostkey := s ≫= λ s, libnvmf_params_get (cs_keys s) (lit "kxchap-secret") in
  let ctrlkey := s ≫= λ s, libnvmf_params_get (cs_keys s) (lit "kxchap-ctrl-secret") in
  let hostkey := match hostkey with Some k => Some k | None => f_hostkey fctx end in
  let! hostkey := (match hostkey with
                   | Some k => ret_ (Some k)
                   | None => libnvme_ctrl_get_key E KxHostKey dc
                   end) in
  do! (match hostkey with
       | Some k => if nonempty k then libnvme_ctrl_set_key KxHostKey c k else ret_ tt
       | None => ret_ tt
       end) in
  do! (match ctrlkey with
       | Some k => if nonempty k then libnvme_ctrl_set_key KxCtrlKey c k else ret_ tt
       | None => ret_ tt
       end) in
  let! keyring := libnvme_ctrl_get_key E Keyring dc in
  match keyring with Some k => libnvme_ctrl_set_key Keyring c k | None => ret_ tt end.

(** The first switch of [nvmf_connect_disc_entry]: the parameters, or the
    transport or address family is not supported. *)
Definition entry_params (e : nvmf_disc_log_entry) (params : libnvme_ctrl_params) :
    option libnvme_ctrl_params :=
  let mk traddr trsvcid :=
    Some (params_at (Some (libnvmf_trtype_str (e_trtype e))) traddr trsvcid (Some (e_subnqn e)) params) in
  if (e_trtype e =? NVMF_TRTYPE_RDMA) || (e_trtype e =? NVMF_TRTYPE_TCP) then
    if (e_adrfam e =? NVMF_ADDR_FAMILY_IP4) || (e_adrfam e =? NVMF_ADDR_FAMILY_IP6)
    then mk (Some (e_traddr e)) (Some (e_trsvcid e)) else None
  else if e_trtype e =? NVMF_TRTYPE_FC then
    if e_adrfam e =? NVMF_ADDR_FAMILY_FC then mk (Some (e_traddr e)) (p_trsvcid params) else None
  else if e_trtype e =? NVMF_TRTYPE_LOOP then
    mk (if nonempty (e_traddr e) then Some (e_traddr e) else None) (p_trsvcid params)
  else None.

(** What [nvmf_connect_disc_entry] does with the new controller [c]. *)
Definition connect_entry (fctx : fabrics_ctx) (h dc c : nat) (e : nvmf_disc_log_entry) :
    M (code * option nat) :=
  do! upd_ctrl c (if e_subtype e =? NVME_NQN_DISC
                  then set_discovery true (negb (str_eqb (e_subnqn e) NVME_DISC_SUBSYS_NAME))
                  else set_discovery false false) in
  let! sqflow := (if has_bit (e_treq e) NVMF_TREQ_DISABLE_SQFLOW
                  then nvmf_check_option E (lit "disable_sqflow") else ret_ false) in
  do! (if sqflow then upd_ctrl c (λ x, set_cfg (set_cfg_b disable_sqflow true (c_cfg x)) x)
       else ret_ tt) in
  do! nvmf_update_tls_concat e c in
  do! dc_inherit_keys fctx dc c in
  let! r := libnvmf_add_ctrl E h c in
  if is_zero r then ret_ (CSuccess, Some c)
  else
    let! x := ctrl c in
    let! r := (if bool_decide (r = CFail (CConn ENVME_CONNECT_INVAL)) && cfg_b (c_cfg x) disable_sqflow
               then do! upd_ctrl c (λ x, set_cfg (set_cfg_b disable_sqflow false (c_cfg x)) x) in
                    libnvmf_add_ctrl E h c
               else ret_ r) in
    if is_zero r then ret_ (CSuccess, Some c)
    else do! libnvme_free_ctrl c in ret_ (CFail (CErrno ENOENT), None).

(** The result, the controller, and the caller's parameters as they are left. *)
Definition nvmf_connect_disc_entry (fctx : fabrics_ctx) (h dc : nat) (e : nvmf_disc_log_entry)
    (params : libnvme_ctrl_params) : M (code * option nat * libnvme_ctrl_params) :=
  match entry_params e params with
  | None => ret_ (CFail (CErrno EINVAL), None, params)
  | Some params =>
      let! ex := nvmf_excluded h params in
      if ex then ret_ (CFail (CErrno EPERM), None, params)
      else
        let! r := libnvme_create_ctrl params in
        match r with
        | inl e => ret_ (CFail e, None, params)
        | inr c => let! rc := connect_entry fctx h dc c e in ret_ (rc, params)
        end
  end.

(** ** Visited controllers *)

Definition dc_visited_has (v : list libnvmf_tid) (tid : libnvmf_tid) : bool :=
  match (libnvmf_tid_get_canonical tid).2 with
  | None => false
  | Some canon =>
      existsb (λ t, match (libnvmf_tid_get_canonical t).2 with
                    | Some seen => str_eqb seen canon
                    | None => false
                    end) v
  end.

(** [dc_visited_append]: the array after the call, as it was when memory is
    short. *)
Definition dc_visited_append (v : list libnvmf_tid) (t : libnvmf_tid) : M (list libnvmf_tid) :=
  let! ok := ask (visited_append E) in
  ret_ (if ok then v ++ [t] else v).

(** The identity of a connected controller. *)
Definition ctrl_tid (x : libnvme_ctrl) (fctx : fabrics_ctx) : result libnvmf_tid :=
  libnvmf_tid_from_fields (tid_fields (c_transport x) (c_traddr x) (c_trsvcid x)
    (c_subsysnqn x) (c_host_traddr x) (c_host_iface x) (f_hostnqn fctx) (f_hostid fctx)).

(** [dc_visited_register]: what becomes of the array. *)
Definition dc_visited_register (v : list libnvmf_tid) (x : libnvme_ctrl) (fctx : fabrics_ctx) :
    M (list libnvmf_tid) :=
  match ctrl_tid x fctx with
  | Err _ => ret_ v
  | Ok t => dc_visited_append v t
  end.

Definition no_decision : dc_decision := Decision None false false false false.
Definition dc_log_decision (e : option nvmf_disc_log_entry) (d : dc_decision) : M unit :=
  emit (EvDecision e d).

Definition dc_already_connected (fctx : fabrics_ctx) (e : nvmf_disc_log_entry) : M unit :=
  if f_hook_already fctx
  then emit (EvAlready (Some (e_subnqn e)) (Some (libnvmf_trtype_str (e_trtype e)))
               (Some (e_traddr e)) (Some (e_trsvcid e)))
  else ret_ tt.

Definition hook_connected (fctx : fabrics_ctx) (c : nat) : M unit :=
  if f_hook_connected fctx then emit (EvConnected c) else ret_ tt.

(** ** Entries of the page *)

Definition dc_connect_leaf_entry (fctx : fabrics_ctx) (h dc : nat) (e : nvmf_disc_log_entry)
    (params : libnvme_ctrl_params) : M unit :=
  if negb (f_connect fctx) then dc_log_decision (Some e) no_decision
  else
    let! rc := (match connect_leaf with
                | Some f => f h e params
                | None =>
                    let! x := nvmf_connect_disc_entry fctx h dc e params in
                    let '(r, c, _) := x in
                    do! (match c with Some c => hook_connected fctx c | None => ret_ tt end) in
                    ret_ (r, c)
                end) in
    let '(r, c) := rc in
    match c with
    | Some c => dc_log_decision (Some e) (Decision (Some c) false false true false)
    | None =>
        if bool_decide (r = CFail (CConn ENVME_CONNECT_ALREADY)) then dc_already_connected fctx e
        else dc_log_decision (Some e) no_decision
    end.

(** A referral; [discover] is [_nvmf_discover]. *)
Definition dc_walk_referral
    (discover : libnvme_ctrl_params → nat → dc_ownership → nat → list libnvmf_tid → option Z →
                M (code * list libnvmf_tid * bool))
    (fctx : fabrics_ctx) (h dc : nat) (e : nvmf_disc_log_entry) (params : libnvme_ctrl_params)
    (depth : nat) (visited : list libnvmf_tid) : M (list libnvmf_tid) :=
  if (NVMF_MAX_REFERRAL_DEPTH <=? depth)%nat
  then do! dc_log_decision (Some e) no_decision in ret_ visited
  else
    match libnvmf_tid_from_fields (tid_fields (p_transport params) (p_traddr params)
            (p_trsvcid params) (p_subsysnqn params) (p_host_traddr params) (p_host_iface params)
            (f_hostnqn fctx) (f_hostid fctx)) with
    | Err _ => do! dc_log_decision (Some e) no_decision in ret_ visited
    | Ok tid =>
        if dc_visited_has visited tid
        then do! dc_log_decision (Some e) no_decision in ret_ visited
        else
          let! cl := lookup_live_ctrl E h params in
          let! found :=
            (match cl with
             | Some c => ret_ (inr (c, DC_BORROWED, params))
             | None =>
                 let '(tmo, kparams) := set_discovery_kato fctx params in
                 let! x := nvmf_connect_disc_entry fctx h dc e kparams in
                 let '(r, c, params) := x in
                 let params := set_p_cfg (set_cfg_i keep_alive_tmo tmo (p_cfg params)) params in
                 match c with
                 | None => ret_ (inl r)
                 | Some c => do! hook_connected fctx c in ret_ (inr (c, DC_OWNED, params))
                 end
             end) in
          match found with
          | inl r =>
              do! (if bool_decide (r = CFail (CConn ENVME_CONNECT_ALREADY)) then dc_already_connected fctx e
                   else dc_log_decision (Some e) no_decision) in
              ret_ visited
          | inr (c, own, params) =>
              do! dc_log_decision (Some e)
                    (Decision (Some c) false (bool_decide (own = DC_BORROWED)) true false) in
              let! visited := dc_visited_append visited tid in
              let! x := discover params c own (S depth) visited (Some (e_eflags e)) in
              let '(_, visited, disconnected) := x in
              do! (if disconnected then libnvme_free_ctrl c else ret_ tt) in
              ret_ visited
          end
    end.

(** [dc_scope_link_local_entry]; [traddr] is that of the controller. *)
Definition dc_scope_link_local_entry (traddr : option (list Z)) (e : nvmf_disc_log_entry) :
    nvmf_disc_log_entry :=
  if negb (e_adrfam e =? NVMF_ADDR_FAMILY_IP6) || in_set (e_traddr e) c_percent then e
  else
    match traddr ≫= split_char c_percent with
    | None => e
    | Some (_, rest) =>
        let scope := c_percent :: rest in
        if negb (shr_ipv6_is_link_local traddr) || negb (shr_ipv6_is_link_local (Some (e_traddr e)))
        then e
        else if (NVMF_TRADDR_SIZE <=? length (e_traddr e) + length scope)%nat then e
        else set_e_traddr (e_traddr e ++ scope) e
    end.

Definition dc_prepare_entries (x : libnvme_ctrl) (log : list (list Z)) : list nvmf_disc_log_entry :=
  (λ e, dc_scope_link_local_entry (c_traddr x) (decode_entry (sanitize_discovery_log_entry e))) <$> log.

Definition dc_entry_is_self (x : libnvme_ctrl) (e : nvmf_disc_log_entry) : bool :=
  if negb (e_subtype e =? NVME_NQN_CURR) ||
     negb (shr_streq0 (c_transport x) (Some (libnvmf_trtype_str (e_trtype e)))) ||
     negb (shr_streq0 (c_trsvcid x) (Some (e_trsvcid e)))
  then false
  else if shr_streq0 (c_traddr x) (Some (e_traddr e)) then true
  else ((e_trtype e =? NVMF_TRTYPE_TCP) || (e_trtype e =? NVMF_TRTYPE_RDMA)) &&
       shr_ipaddrs_eq (c_traddr x) (Some (e_traddr e)).

(** The last self entry. *)
Definition self_entry (x : libnvme_ctrl) (es : list nvmf_disc_log_entry) : option nvmf_disc_log_entry :=
  foldl (λ s e, if dc_entry_is_self x e then Some e else s) None es.

Definition dc_survey_self_entry (fctx : fabrics_ctx) (c : nat) (x : libnvme_ctrl) (own : dc_ownership)
    (primary : bool) (parent_eflags : option Z) (es : list nvmf_disc_log_entry) : M bool :=
  let self := self_entry x es in
  let disconnect := dc_decide (f_persistent fctx) own (bool_decide (is_Some self))
                      (default 0 (e_eflags <$> self)) parent_eflags in
  do! dc_log_decision self
        (Decision (Some c) primary (bool_decide (own = DC_BORROWED)) false disconnect) in
  ret_ disconnect.

(** [ctrl_params_dup]. *)
Definition ctrl_params_dup (p : libnvme_ctrl_params) : libnvme_ctrl_params :=
  CtrlParams (p_transport p) (p_traddr p) (p_host_traddr p) (shr_xstrdup (p_host_iface p))
    (p_trsvcid p) (p_subsysnqn p) (p_cfg p).

(** Pass 2: the loop over the entries. *)
Fixpoint walk_entries
    (discover : libnvme_ctrl_params → nat → dc_ownership → nat → list libnvmf_tid → option Z →
                M (code * list libnvmf_tid * bool))
    (fctx : fabrics_ctx) (ctrl_params : libnvme_ctrl_params) (h c depth : nat)
    (es : list nvmf_disc_log_entry) (visited : list libnvmf_tid) : M (list libnvmf_tid) :=
  match es with
  | [] => ret_ visited
  | e :: es =>
      if e_subtype e =? NVME_NQN_CURR
      then walk_entries discover fctx ctrl_params h c depth es visited
      else
        let transport := libnvmf_trtype_str (e_trtype e) in
        let! x := ctrl c in
        let! visited :=
          (if negb (shr_streq0 (c_transport x) (Some transport))
           then do! dc_log_decision (Some e) no_decision in ret_ visited
           else
             let params := params_at (Some transport) (Some (e_traddr e)) (Some (e_trsvcid e))
                             (Some (e_subnqn e)) (ctrl_params_dup ctrl_params) in
             if e_subtype e =? NVME_NQN_NVME
             then do! dc_connect_leaf_entry fctx h c e params in ret_ visited
             else dc_walk_referral discover fctx h c e params depth visited) in
        walk_entries discover fctx ctrl_params h c depth es visited
  end.

(** The result, the visited controllers, and whether [c] was disconnected. *)
Fixpoint _nvmf_discover (fuel : nat) (fctx : fabrics_ctx) (ctrl_params : libnvme_ctrl_params)
    (c : nat) (own : dc_ownership) (depth : nat) (visited : list libnvmf_tid)
    (parent_eflags : option Z) : M (code * list libnvmf_tid * bool) :=
  match fuel with
  | O => λ _, NoFuel
  | S fuel =>
      let! x := ctrl c in
      match c_s x with
      | None => λ _, Wild
      | Some (h, _) =>
          let! r := ask (λ n, dlp n (c_name x)) in
          do! emit (EvLog c r) in
          match r with
          | inl err => ret_ (CFail err, visited, false)
          | inr log =>
              do! (if f_hook_log fctx then emit (EvDiscoveryLog c) else ret_ tt) in
              let! visited := dc_visited_register visited x fctx in
              let es := dc_prepare_entries x log in
              let! disconnect := dc_survey_self_entry fctx c x own
                                   (bool_decide (parent_eflags = None)) parent_eflags es in
              do! (if disconnect then do! libnvmf_disconnect_ctrl E c in ret_ tt else ret_ tt) in
              let! visited := walk_entries (_nvmf_discover fuel fctx) fctx ctrl_params h c depth es
                                visited in
              ret_ (CSuccess, visited, disconnect)
          end
      end
  end.

(** A walk has at most nine levels. *)
Definition walk_levels : nat := S NVMF_MAX_REFERRAL_DEPTH.

Definition dc_walk (fctx : fabrics_ctx) (c : nat) (own : dc_ownership) : M code :=
  let! x := _nvmf_discover walk_levels fctx (f_params fctx) c own 0 [] None in
  ret_ x.1.1.
End Walk.
