(* ===== verification/WalkSpec.v ===== *)
(** * What a discovery walk does

    The walk returns, touches no controller that is gone, visits a discovery
    controller once, and disconnects exactly what it connected and what is
    not to persist. *)

From Stdlib Require Import String.
From stdpp Require Import base list numbers gmap.
From S2P Require Import Prelude.
From S2P Require Import CStr.
From S2P Require Import Nqn.
From S2P Require Import Tid.
From S2P Require Import DTid.
From S2P Require Import Exclusion.
From S2P Require Import Conf.
From S2P Require Import ConfResolve.
From S2P Require Import ConfApply.
From S2P Require Import Io.
From S2P Require Import Ctrl.
From S2P Require Import CtrlMatch.
From S2P Require Import Options.
From S2P Require Import CtrlSpec.
From S2P Require Import Connect.
From S2P Require Import ConnectSpec.
From S2P Require Import Walk.

#[local] Open Scope io_scope.

(** ** TIDs *)

Lemma copy_fields_all `{AllocOk} src :
  copy_fields src = Some {| transport := src Transport; traddr := src Traddr; trsvcid := src Trsvcid;
    subsysnqn := src Nqn; host_traddr := src HostTraddr; host_iface := src HostIface;
    hostnqn := src Hostnqn; hostid := src Hostid; canonical_cache := None; str_cache := None |}.
Proof.
  unfold copy_fields. cbv zeta.
  assert (Hx : ∀ s, shr_xstrdup s = s) by (intros [s|]; [apply strdup_id|done]).
  rewrite !Hx. cbn [Tid.get transport traddr trsvcid subsysnqn host_traddr host_iface hostnqn hostid].
  assert (Hc : ∀ s, copy_failed s s = false) by (by intros [s|]). by rewrite !Hc.
Qed.

(** With memory, whether a TID can be made is a matter of the transport and the
    two addresses. *)
Lemma from_fields_ok `{AllocOk} `{Inet} src src' t :
  src' Transport = src Transport → src' Traddr = src Traddr → src' HostTraddr = src HostTraddr →
  libnvmf_tid_from_fields src = Ok t → ∃ t', libnvmf_tid_from_fields src' = Ok t'.
Proof.
  intros Ht Ha Hh. unfold libnvmf_tid_from_fields. rewrite tid_new_all, !copy_fields_all. cbn [negb].
  unfold tid_sanitize_addr. cbn [transport]. rewrite Ht. destruct (src Transport) as [tr|]; [|eauto].
  case_match.
  { cbn. rewrite Ha, Hh. repeat case_decide; try done.
    destruct (src Traddr) as [x|], (src HostTraddr) as [y|]; cbn;
      repeat match goal with |- context [negb ?b] => destruct b; cbn end; intros; try discriminate; eauto. }
  case_match; [eauto|]. unfold canon_field. cbn [Tid.get traddr host_traddr]. rewrite Ha, Hh.
  destruct (src Traddr) as [x|]; cbn; [destruct (canon_ip x); cbn; [|by intros]|];
    repeat case_decide; try done; rewrite ?Hh;
    (destruct (src HostTraddr) as [y|]; cbn; [destruct (canon_ip y); cbn; [eauto|by intros]|eauto]).
Qed.

(** ** Connecting an entry *)

Section ConnectEntry.
Context (E : env) `{AllocOk} `{Inet} (excl : excl_fs).

(** A quiet program on a controller outside of the tree and another one. *)
Lemma quiet_loose2 {A} (P : event → Prop) (m : M A) a c d w :
  quiet (S (max c d)) P [c; d] m → tree_inv w → loose_at a c w → has d w →
  safe (S (max c d)) P m (λ _ w', loose_at a c w' ∧ has d w') w.
Proof.
  intros Hm Hi Hl Hd. eapply safe_mono; [apply Hm; [done|]|].
  - constructor; [split; [lia|by eapply loose_has, loose_at_loose]|]. constructor; [split; [lia|done]|constructor].
  - intros r w' _ Hs _. split; [by eapply loose_at_step; [exact Hs|lia|]|].
    by eapply has_step; [exact Hs|lia|].
Qed.

(** The part of [connect_entry] in front of the connection. *)
Lemma connect_entry_ok N a fctx h dc c e w :
  tree_inv w → loose_at a c w → has dc w → (N ≤ c)%nat →
  safe N conn_event (connect_entry E fctx h dc c e)
    (λ rc w', (rc = (CSuccess, Some c) ∧ linked h c w' ∧ addrs_ok a) ∨ rc = (CFail (CErrno ENOENT), None)) w.
Proof.
  intros Hi Hl Hd HN. unfold connect_entry.
  assert (Hq : ∀ {A} (m : M A) w, quiet (S (max c dc)) conn_event [c; dc] m → tree_inv w → loose_at a c w → has dc w →
    safe (S (max c dc)) conn_event m (λ _ w', loose_at a c w' ∧ has dc w') w) by (intros; by apply quiet_loose2).
  eapply (safe_bind_at _ _ (S (max c dc))); [lia|apply Hq; [case_match; (apply quiet_upd; [set_solver|done|done])|done..]|].
  cbv beta. intros _ w1 Hi1 _ [Hl1 Hd1].
  eapply (safe_bind_at _ _ (S (max c dc))); [lia|apply Hq; [case_match; auto with quiet|done..]|].
  cbv beta. intros sq w2 Hi2 _ [Hl2 Hd2].
  eapply (safe_bind_at _ _ (S (max c dc))); [lia|apply Hq; [quiet_go|done..]|].
  cbv beta. intros _ w3 Hi3 _ [Hl3 Hd3].
  eapply (safe_bind_at _ _ (S (max c dc))); [lia|apply Hq; [unfold nvmf_update_tls_concat; quiet_go|done..]|].
  cbv beta. intros _ w4 Hi4 _ [Hl4 Hd4].
  eapply (safe_bind_at _ _ (S (max c dc))); [lia|apply Hq; [unfold dc_inherit_keys; quiet_go|done..]|].
  cbv beta. intros _ w5 Hi5 _ [Hl5 Hd5].
  eapply safe_bind; [by apply (add_ctrl_ok E conn_event (λ _ He, He) N a)|]. intros r w6 Hi6 _ (Hok & Hbad & Ha).
  destruct (is_zero r) eqn:Hr.
  { apply bool_decide_eq_true in Hr. subst r. apply safe_ret; [done|]. left. auto. }
  apply bool_decide_eq_false in Hr. specialize (Hbad Hr).
  eapply (safe_bind_at _ _ (S c)); [lia|apply quiet_loose; [apply quiet_ctrl; set_solver|done..]|].
  cbv beta. intros x w7 Hi7 _ Hl7.
  eapply (safe_bind _ _ _ _ (λ r w', (r = CSuccess → linked h c w' ∧ addrs_ok a) ∧ (r ≠ CSuccess → loose c w'))).
  { case_match eqn:Hagain; [|by apply safe_ret]. apply andb_true_iff in Hagain as [Hinv%bool_decide_eq_true _].
    eapply (safe_bind_at _ _ (S c)); [lia|apply quiet_loose; [apply quiet_upd; [set_solver|done|done]|done..]|].
    cbv beta. intros _ w8 Hi8 _ (x8 & Hx8 & Hs8).
    eapply safe_mono; [apply (add_ctrl_ok E conn_event (λ _ He, He) N (addrs x8)); [done|by exists x8|done]|]. cbv beta. naive_solver. }
  intros r' w8 Hi8 _ [Hok' Hbad']. destruct (is_zero r') eqn:Hr'.
  { apply bool_decide_eq_true in Hr'. subst r'. apply safe_ret; [done|]. left. auto. }
  apply bool_decide_eq_false in Hr'. specialize (Hbad' Hr').
  eapply safe_bind; [apply free_ok; [done|by apply loose_has|done]|].
  intros _ w9 Hi9 _ _. apply safe_ret; [done|]. by right.
Qed.

(** The host of a parameter set, and of the context. *)
Definition host_ids (h : nat) (w : world) : option (list Z) * option (list Z) :=
  (h_hostnqn <$> host_at h w, h_hostid <$> host_at h w).

(** The exclusion list was asked about the TID of the parameters, and does not
    match it. *)
Definition allowed (ids : option (list Z) * option (list Z)) (p : libnvme_ctrl_params) : Prop :=
  ∃ t, libnvmf_tid_from_fields (tid_fields (p_transport p) (p_traddr p) (p_trsvcid p) (p_subsysnqn p)
         (p_host_traddr p) (p_host_iface p) ids.1 ids.2) = Ok t ∧ libnvmf_exclusion_match excl t = false.

(** An entry whose TID cannot be made is let through by the check, but no
    connect of its addresses succeeds. *)
Lemma addrs_allowed ids p :
  excluded_fields excl (tid_fields (p_transport p) (p_traddr p) (p_trsvcid p) (p_subsysnqn p)
    (p_host_traddr p) (p_host_iface p) ids.1 ids.2) = false →
  addrs_ok (addrs (new_ctrl p)) → allowed ids p.
Proof.
  unfold excluded_fields, allowed. intros He [t Ht]. cbn in Ht.
  set (src := tid_fields (p_transport p) _ _ _ _ _ _ _) in *.
  destruct (λ E1 E2 E3, from_fields_ok _ src t E1 E2 E3 Ht) as [t' Ht']; [done..|]. rewrite Ht' in *. by exists t'.
Qed.

Lemma entry_params_host e p p' :
  entry_params e p = Some p' → p_host_traddr p' = p_host_traddr p ∧ p_host_iface p' = p_host_iface p.
Proof. unfold entry_params. intros Hp. repeat case_match; simplify_eq/=; done. Qed.

Lemma connect_disc_entry_ok N fctx h dc e params w :
  tree_inv w → has dc w → (N ≤ w_next w)%nat →
  safe N conn_event (nvmf_connect_disc_entry E excl fctx h dc e params)
    (λ x w', let '(r, c, p') := x in
       p_host_traddr p' = p_host_traddr params ∧ p_host_iface p' = p_host_iface params ∧
       match c with
       | Some c => r = CSuccess ∧ linked h c w' ∧ (w_next w ≤ c)%nat ∧
                   entry_params e params = Some p' ∧ allowed (host_ids h w) p'
       | None => r ≠ CFail (CConn ENVME_CONNECT_ALREADY)
       end) w.
Proof.
  intros Hi Hd HN. unfold nvmf_connect_disc_entry.
  destruct (entry_params e params) as [p'|] eqn:Hp; [|by apply safe_ret].
  destruct (entry_params_host _ _ _ Hp) as [Ht Hif].
  unfold nvmf_excluded.
  eapply (safe_bind _ _ _ _ (λ ex w', w' = w ∧
    (ex = false → addrs_ok (addrs (new_ctrl p')) → allowed (host_ids h w) p'))).
  { eapply safe_bind; [by apply (safe_get _ _ _ (λ x w', w' = w ∧ x = host_at h w))|].
    intros x w' _ _ [-> ->]. apply safe_ret; [done|]. split; [done|]. intros He. by apply addrs_allowed. }
  intros ex w' _ _ [-> Hex]. destruct ex; [by apply safe_ret|].
  eapply (safe_bind_at _ _ (w_next w)); [done|by apply create_ctrl_ok|]. intros [f|c] w1 Hi1 Hs1 Hc.
  { subst f. by apply safe_ret. }
  destruct Hc as (-> & Hn1 & Hl1 & _).
  assert (Hd1 : has dc w1).
  { eapply has_step; [exact Hs1| |done]. by apply has_next. }
  eapply safe_bind; [by apply connect_entry_ok|]. intros [r oc] w2 Hi2 _ Hr. apply safe_ret; [done|].
  split_and!; [done..|]. destruct Hr as [([= -> ->] & Hl & Ha) | [= -> ->]]; [|done]. by auto 6.
Qed.
End ConnectEntry.

(** ** The events of a walk *)

Section Facts.
Context `{Alloc} `{Inet} (excl : excl_fs) (fctx : fabrics_ctx).

(** The host side of every connection of the walk, and the identity of the
    host in the tree. *)
Context (ht hi : option (list Z)) (ids : option (list Z) * option (list Z)).

(** Memory for the list of the visited controllers suffices. *)
Context (room : Prop).

Definition canon (t : libnvmf_tid) : option (list Z) := (libnvmf_tid_get_canonical t).2.

(** The identity a walk gives to an entry. *)
Definition entry_fields (e : nvmf_disc_log_entry) : field → option (list Z) :=
  tid_fields (Some (libnvmf_trtype_str (e_trtype e))) (Some (e_traddr e)) (Some (e_trsvcid e))
    (Some (e_subnqn e)) ht hi (f_hostnqn fctx) (f_hostid fctx).
Definition entry_canon (e : nvmf_disc_log_entry) : option (list Z) :=
  match libnvmf_tid_from_fields (entry_fields e) with Ok t => canon t | Err _ => None end.

(** The entry of a referral the walk went down, with its controller and
    whether that was connected before. *)
Definition descent (ev : event) : option (nvmf_disc_log_entry * nat * bool) :=
  match ev with
  | EvDecision (Some e) (Decision (Some c) _ already true _) =>
      if e_subtype e =? NVME_NQN_NVME then None else Some (e, c, already)
  | _ => None
  end.
Definition descents (evs : list event) : list (nvmf_disc_log_entry * nat * bool) := omap descent evs.

(** The discovery controllers the walk connected, and those it disconnected. *)
Definition owned (evs : list event) (c : nat) : Prop := ∃ e, (e, c, false) ∈ descents evs.
Definition deleted (evs : list event) (c : nat) : Prop := EvDelete c CSuccess ∈ evs.
(** The walk wrote to [delete_controller], successfully or not. *)
Definition delete_tried (evs : list event) (c : nat) : Prop := ∃ r, EvDelete c r ∈ evs.
Definition delete_failed (evs : list event) (c : nat) : Prop := ∃ f, EvDelete c (CFail f) ∈ evs.
Definition log_failed (evs : list event) (c : nat) : Prop := ∃ f, EvLog c (inl f) ∈ evs.

(** The entry of a connection the walk made: neither a hook nor the tree had
    it, and the exclusion list was asked about it. *)
Definition connected (ev : event) : option nvmf_disc_log_entry :=
  match ev with
  | EvDecision (Some e) (Decision (Some _) _ false true _) => Some e
  | _ => None
  end.

Definition keeps_none (p : libnvmf_persistent) : Prop :=
  p = LIBNVMF_PERSISTENT_NO ∨ p = LIBNVMF_PERSISTENT_UNSET.

(** The parameters the walk has for an entry, and those it asks the exclusion
    list about. *)
Definition walk_params (e : nvmf_disc_log_entry) (p : libnvme_ctrl_params) : libnvme_ctrl_params :=
  params_at (Some (libnvmf_trtype_str (e_trtype e))) (Some (e_traddr e)) (Some (e_trsvcid e))
    (Some (e_subnqn e)) p.
Definition may_connect (e : nvmf_disc_log_entry) : Prop :=
  ∃ p p', entry_params e (walk_params e p) = Some p' ∧ p_host_traddr p' = ht ∧
          p_host_iface p' = hi ∧ allowed excl ids p'.

(** A stretch of the walk: [v] and [v'] are the visited controllers before
    and after, [mine] those the caller may disconnect as well. *)
Record block (mine : list nat) (v v' : list libnvmf_tid) (evs : list event) : Prop := Block {
  bk_mono k : k ∈ omap canon v → k ∈ omap canon v';
  bk_once : room → NoDup (omap (λ d, entry_canon d.1.1) (descents evs));
  bk_new e c b : room → (e, c, b) ∈ descents evs →
    ∃ k, entry_canon e = Some k ∧ (k ∉ omap canon v) ∧ k ∈ omap canon v';
  bk_deleted c : delete_tried evs c → c ∈ mine ∨ owned evs c;
  bk_closed c : keeps_none (f_persistent fctx) → owned evs c → delete_tried evs c ∨ log_failed evs c;
  bk_force : f_persistent fctx = LIBNVMF_PERSISTENT_FORCE → ∀ c, ¬ delete_tried evs c;
  bk_allowed ev e : ev ∈ evs → connected ev = Some e →
    may_connect e;
  bk_already a b c d : EvAlready a b c d ∉ evs;
}.

Lemma descents_app a b : descents (a ++ b) = descents a ++ descents b.
Proof. apply omap_app. Qed.

Lemma owned_app a b c : owned (a ++ b) c ↔ owned a c ∨ owned b c.
Proof. unfold owned. rewrite descents_app. setoid_rewrite elem_of_app. naive_solver. Qed.
Lemma delete_tried_app a b c : delete_tried (a ++ b) c ↔ delete_tried a c ∨ delete_tried b c.
Proof. unfold delete_tried. setoid_rewrite elem_of_app. naive_solver. Qed.
Lemma log_failed_app a b c : log_failed (a ++ b) c ↔ log_failed a c ∨ log_failed b c.
Proof. unfold log_failed. setoid_rewrite elem_of_app. naive_solver. Qed.

Lemma block_app m1 m2 v1 v2 v3 a b :
  block m1 v1 v2 a → block m2 v2 v3 b → block (m1 ++ m2) v1 v3 (a ++ b).
Proof.
  intros A B. split.
  - intros k Hk. by apply (bk_mono _ _ _ _ B), (bk_mono _ _ _ _ A).
  - intros Hroom. rewrite descents_app, omap_app. apply NoDup_app. split_and!; [by apply A| |by apply B].
    intros k (d & Hd & Hk)%list_elem_of_omap (d' & Hd' & Hk')%list_elem_of_omap.
    destruct d as [[e c] b1], d' as [[e' c'] b2]. cbn in Hk, Hk'.
    destruct (bk_new _ _ _ _ A _ _ _ Hroom Hd) as (k1 & He1 & _ & Hin).
    destruct (bk_new _ _ _ _ B _ _ _ Hroom Hd') as (k2 & He2 & Hnin & _). naive_solver.
  - intros e c b0 Hroom. rewrite descents_app, elem_of_app. intros [Hd|Hd].
    + destruct (bk_new _ _ _ _ A _ _ _ Hroom Hd) as (k & ? & ? & ?). exists k. split_and!; [done..|].
      by apply (bk_mono _ _ _ _ B).
    + destruct (bk_new _ _ _ _ B _ _ _ Hroom Hd) as (k & ? & Hn & ?). exists k. split_and!; [done| |done].
      intros Hk. by apply Hn, (bk_mono _ _ _ _ A).
  - intros c. rewrite delete_tried_app, owned_app, elem_of_app.
    intros [Hd|Hd]; [apply A in Hd|apply B in Hd]; naive_solver.
  - intros c Hm. rewrite delete_tried_app, owned_app, log_failed_app.
    intros [Ho|Ho]; [apply A in Ho|apply B in Ho]; naive_solver.
  - intros Hf c. rewrite delete_tried_app.
    intros [Hd|Hd]; [by apply (bk_force _ _ _ _ A Hf c)|by apply (bk_force _ _ _ _ B Hf c)].
  - intros ev e. rewrite elem_of_app. intros [Hin|Hin];
      [by apply (bk_allowed _ _ _ _ A)|by apply (bk_allowed _ _ _ _ B)].
  - intros x y z t. rewrite elem_of_app. intros [Hin|Hin];
      [by apply (bk_already _ _ _ _ A) in Hin|by apply (bk_already _ _ _ _ B) in Hin].
Qed.

(** Events that say nothing of the walk itself. *)
Definition neutral (ev : event) : Prop :=
  match ev with
  | EvDelete _ _ | EvAlready _ _ _ _ => False
  | EvDecision _ d => d_connect d = false
  | _ => True
  end.

Lemma neutral_facts evs :
  Forall neutral evs → descents evs = [] ∧ (∀ c, ¬ delete_tried evs c) ∧
  (∀ ev, ev ∈ evs → connected ev = None) ∧ (∀ a b c d, EvAlready a b c d ∉ evs).
Proof.
  intros Hn. rewrite list.Forall_forall in Hn. split_and!.
  - unfold descents. induction evs as [|ev evs IH]; [done|]. cbn.
    assert (Hd : descent ev = None).
    { specialize (Hn ev ltac:(set_solver)). destruct ev as [| | | | | | | |[e|] [[c|] p a k t]]; cbn in *; try done.
      by subst k. }
    rewrite Hd. apply IH. intros x Hx. apply Hn. set_solver.
  - intros c [r Hr]. by apply (Hn _ Hr).
  - intros ev Hev. specialize (Hn ev Hev).
    destruct ev as [| | | | | | | |[e|] [[c|] p a k t]]; cbn in *; try done. subst k. by destruct a.
  - intros a b c d Hin. by apply (Hn _ Hin).
Qed.

Lemma block_neutral mine v v' evs :
  Forall neutral evs → (∀ k, k ∈ omap canon v → k ∈ omap canon v') → block mine v v' evs.
Proof.
  intros (Hd & Hdel & Hco & Hal)%neutral_facts Hm.
  assert (Ho : ∀ c, ¬ owned evs c).
  { intros c [e He]. rewrite Hd in He. by apply elem_of_nil in He. }
  split; try done.
  - intros _. rewrite Hd. apply NoDup_nil_2.
  - intros e c b _. rewrite Hd. intros Hin. by apply elem_of_nil in Hin.
  - intros c Hc. by apply Hdel in Hc.
  - intros c _ Hc. by apply Ho in Hc.
  - intros ev e Hin. rewrite Hco by done. done.
Qed.

Lemma block_mine mine mine' v v' evs :
  (∀ c, c ∈ mine → c ∈ mine') → block mine v v' evs → block mine' v v' evs.
Proof. intros Hm B. split; try apply B. intros c Hc. apply B in Hc. naive_solver. Qed.
End Facts.

Section WalkOk.
Context (E : env) `{AllocOk} `{Inet} (excl : excl_fs).
Context (dlp : nat → option (list Z) → failure + list (list Z)) (fctx : fabrics_ctx).
Context (h : nat) (ht hi : option (list Z)) (ids : option (list Z) * option (list Z)).
Context (Hdry : ctx_dry_run E = false).

Abbreviation room := (∀ n, visited_append E n = true).
Abbreviation blk := (block excl fctx ht hi ids room).
Abbreviation any := (λ _ : event, True).

Definition host_is (w : world) : Prop := is_Some (host_at h w) ∧ host_ids h w = ids.

Lemma host_is_step N P w w' : step N P w w' → host_is w → host_is w'.
Proof.
  intros Hs [[x Hx] Hid]. destruct (step_host _ _ _ _ Hs _ _ Hx) as (x' & Hx' & [Ha Hb]).
  split; [by exists x'|]. unfold host_ids in *. rewrite Hx in Hid. rewrite Hx'. cbn in *. by rewrite Ha, Hb.
Qed.

Lemma canon_some t : ∃ k, canon t = Some k.
Proof.
  unfold canon, libnvmf_tid_get_canonical. destruct (canonical_cache t) as [k|]; [by exists k|].
  cbn. rewrite strdup_id. eauto.
Qed.

Lemma visited_has_false v t k :
  canon t = Some k → dc_visited_has v t = false → k ∉ omap canon v.
Proof.
  intros Hk Hv (t' & Ht' & Hk')%list_elem_of_omap. unfold dc_visited_has in Hv. fold (canon t) in Hv.
  rewrite Hk in Hv. apply not_true_iff_false in Hv. apply Hv, existsb_exists. exists t'.
  split; [by apply list_elem_of_In|]. fold (canon t'). rewrite Hk'. by apply bool_decide_eq_true.
Qed.

(** One more referral, and the walk below it. *)
Lemma block_descend e c (already : bool) t k v v1 v' pre evs :
  libnvmf_tid_from_fields (entry_fields fctx ht hi e) = Ok t → canon t = Some k →
  (k ∉ omap canon v) → (e_subtype e =? NVME_NQN_NVME) = false →
  (∀ j, j ∈ omap canon v → j ∈ omap canon v1) → (room → v1 = v ++ [t]) →
  Forall neutral pre → blk (if already then [] else [c]) v1 v' evs →
  (already = false → keeps_none (f_persistent fctx) → delete_tried evs c ∨ log_failed evs c) →
  (already = false → may_connect excl ht hi ids e) →
  blk [] v v' (pre ++ EvDecision (Some e) (Decision (Some c) false already true false) :: evs).
Proof.
  intros Ht Hk Hnew Hsub Hv Hv1 Hpre B Hclosed Hallow.
  apply (block_app excl fctx ht hi ids room [] [] v v); [by apply block_neutral|].
  set (ev := EvDecision _ _).
  assert (Hd : descents (ev :: evs) = (e, c, already) :: descents evs).
  { unfold descents. cbn. by rewrite Hsub. }
  assert (He : entry_canon fctx ht hi e = Some k) by (unfold entry_canon; by rewrite Ht).
  assert (Hkt : room → k ∈ omap canon v1).
  { intros ->%Hv1. rewrite omap_app. cbn. rewrite Hk. set_solver. }
  assert (Hown : ∀ d, owned (ev :: evs) d ↔ (d = c ∧ already = false) ∨ owned evs d).
  { intros d. unfold owned. rewrite Hd. setoid_rewrite elem_of_cons. naive_solver. }
  assert (Hdel : ∀ d, delete_tried (ev :: evs) d ↔ delete_tried evs d).
  { intros d. unfold delete_tried. setoid_rewrite elem_of_cons. naive_solver. }
  split.
  - intros j Hj. by apply (bk_mono _ _ _ _ _ _ _ _ _ _ B), Hv.
  - intros Hroom. rewrite Hd. cbn. rewrite He. apply NoDup_cons. split; [|by apply B]. specialize (Hkt Hroom).
    intros ([[e' c'] b'] & Hin & Hk')%list_elem_of_omap. cbn in Hk'.
    destruct (bk_new _ _ _ _ _ _ _ _ _ _ B _ _ _ Hroom Hin) as (k' & Hk'' & Hn & _). naive_solver.
  - intros e' c' b' Hroom. specialize (Hkt Hroom). rewrite Hd, elem_of_cons. intros [[= -> -> ->] | Hin].
    + exists k. split_and!; [done|done|]. by apply (bk_mono _ _ _ _ _ _ _ _ _ _ B).
    + destruct (bk_new _ _ _ _ _ _ _ _ _ _ B _ _ _ Hroom Hin) as (k' & ? & Hn & ?). exists k'.
      split_and!; [done| |done]. intros Hj. by apply Hn, Hv.
  - intros d. rewrite Hdel, Hown. intros Hx. apply B in Hx. destruct already; set_solver.
  - intros d Hm. rewrite Hdel, Hown. intros [[-> Ha] | Ho].
    + destruct (Hclosed Ha Hm) as [?|[f Hf]]; [by left|]. right. exists f. set_solver.
    + destruct (bk_closed _ _ _ _ _ _ _ _ _ _ B d Hm Ho) as [?|[f Hf]]; [by left|]. right. exists f. set_solver.
  - intros Hf d. rewrite Hdel. by apply B.
  - intros ev' e'. rewrite elem_of_cons. intros [-> | Hin]; [|by apply B].
    subst ev. cbn. destruct already; [done|]. intros [= <-]. auto.
  - intros a b d f. rewrite elem_of_cons. intros [?|Hin]; [done|]. by apply B in Hin.
Qed.

(** Programs that say nothing of the walk. *)
Lemma neutral_ok N {A} (m : M A) Q w :
  safe N neutral m Q w →
  safe N any m (λ a w', Q a w' ∧ ∃ evs, w_events w' = w_events w ++ evs ∧ Forall neutral evs) w.
Proof.
  intros Hm. eapply (safe_weaken _ N neutral); [reflexivity|done|].
  eapply safe_mono; [exact Hm|]. intros a w' _ Hs HQ. split; [exact HQ|]. apply Hs.
Qed.

Lemma emit_ok N (P : event → Prop) e w :
  tree_inv w → P e → safe N P (emit e) (λ _ w', w_events w' = w_events w ++ [e]) w.
Proof.
  intros Hi He. apply (safe_state N P tt (add_event e)); try done. exists [e]. split; [done|].
  by constructor.
Qed.

(** A program without events. *)
Lemma silent_events N {A} (m : M A) Q w :
  safe N (λ _, False) m Q w → safe N any m (λ a w', Q a w' ∧ w_events w' = w_events w) w.
Proof.
  intros Hm. eapply (safe_weaken _ N (λ _, False)); [reflexivity|done|].
  eapply safe_mono; [exact Hm|]. intros a w' _ Hs HQ. split; [exact HQ|].
  destruct (step_events _ _ _ _ Hs) as ([|ev evs] & He & Hf); [by rewrite app_nil_r in He|].
  by inversion Hf.
Qed.

Lemma safe_assoc N (P : event → Prop) {A B C} (m : M A) (f : A → M B) (g : B → M C) Q w :
  safe N P (bind (bind m f) g) Q w → safe N P (bind m (λ a, bind (f a) g)) Q w.
Proof. unfold safe, wp, bind. by destruct (m w). Qed.

(** The event of a disconnect. *)
Lemma disconnect_ok N c w :
  tree_inv w → has c w →
  safe N any (libnvmf_disconnect_ctrl E c) (λ _ w', ∃ r, w_events w' = w_events w ++ [EvDelete c r]) w.
Proof.
  intros Hi Hc. unfold libnvmf_disconnect_ctrl. eapply (safe_weaken _ (max N (S c)) any); [lia|done|].
  eapply safe_bind; [apply (safe_ctrl _ _ _ (λ _ w', w' = w)); done|]. intros x w' _ _ ->.
  rewrite Hdry. cbn [andb].
  eapply safe_bind; [apply (silent_events _ _ (λ _ _, True)); by apply safe_ask|]. intros r w1 Hi1 Hs1 [_ He1].
  assert (Hc1 : has c w1) by (eapply has_step; [exact Hs1|lia|done]).
  eapply safe_bind; [by apply emit_ok|]. intros [] w2 Hi2 Hs2 He2.
  assert (Hc2 : has c w2) by (eapply has_step; [exact Hs2|lia|done]).
  destruct (is_zero r); cbn [negb]; [|apply safe_ret; [done|]; exists r; congruence].
  eapply safe_bind; [apply (silent_events _ _ (λ _ _, True)); apply (quiet_deconfigure _ _ [c]); [set_solver|done|]|].
  { constructor; [split; [lia|done]|constructor]. }
  intros [] w3 Hi3 _ [_ He3]. apply safe_ret; [done|]. exists r. congruence.
Qed.

(** ** The entries *)

Lemma block_leaf e c v pre post :
  (e_subtype e =? NVME_NQN_NVME) = true → may_connect excl ht hi ids e →
  Forall neutral pre → Forall neutral post →
  blk [] v v (pre ++ EvDecision (Some e) (Decision (Some c) false false true false) :: post).
Proof.
  intros Hsub Hmay Hpre Hpost. apply (block_app excl fctx ht hi ids room [] [] v v); [by apply block_neutral|].
  apply (block_app excl fctx ht hi ids room [] [] v v v [_]); [|by apply block_neutral].
  set (ev := EvDecision _ _).
  assert (Hd : descents [ev] = []) by (unfold descents; cbn; by rewrite Hsub).
  assert (Ho : ∀ d, ¬ owned [ev] d).
  { intros d [e' He']. rewrite Hd in He'. by apply elem_of_nil in He'. }
  assert (Hdel : ∀ d, ¬ delete_tried [ev] d).
  { intros d [r Hr]. by apply list_elem_of_singleton in Hr. }
  split; try done.
  - intros _. rewrite Hd. apply NoDup_nil_2.
  - intros e' c' b _. rewrite Hd. intros Hin. by apply elem_of_nil in Hin.
  - intros d Hc. by apply Hdel in Hc.
  - intros d _ Hc. by apply Ho in Hc.
  - intros ev' e'. rewrite list_elem_of_singleton. intros ->. cbn. by intros [= <-].
  - intros a b d f Hin. by apply list_elem_of_singleton in Hin.
Qed.

Definition grown (mine : list nat) (v v' : list libnvmf_tid) (w w' : world) : Prop :=
  ∃ evs, w_events w' = w_events w ++ evs ∧ blk mine v v' evs.

Lemma grown_trans v1 v2 v3 w1 w2 w3 :
  grown [] v1 v2 w1 w2 → grown [] v2 v3 w2 w3 → grown [] v1 v3 w1 w3.
Proof.
  intros (a & Ha & A) (b & Hb & B). exists (a ++ b). split; [by rewrite Hb, Ha, app_assoc|].
  by apply (block_app excl fctx ht hi ids room [] [] v1 v2 v3).
Qed.

Lemma grown_neutral mine v w w' evs :
  w_events w' = w_events w ++ evs → Forall neutral evs → grown mine v v w w'.
Proof. intros He Hn. exists evs. split; [done|]. by apply block_neutral. Qed.

Lemma conn_neutral e : conn_event e → neutral e.
Proof. by destruct e. Qed.

(** A decision not to connect. *)
Lemma skip_ok N e v w :
  tree_inv w → safe N any (dc_log_decision e no_decision) (λ _ w', grown [] v v w w') w.
Proof.
  intros Hi. eapply safe_mono; [by apply emit_ok|]. cbv beta. intros u w' _ _ He.
  eapply grown_neutral; [exact He|]. by repeat constructor.
Qed.

(** The connection of an entry. *)
Lemma connect_ok N dc e params w :
  tree_inv w → has dc w → host_is w → (N ≤ w_next w)%nat →
  p_host_traddr params = ht → p_host_iface params = hi →
  safe N neutral (nvmf_connect_disc_entry E excl fctx h dc e (walk_params e params))
    (λ x w', let '(r, c, p') := x in
       p_host_traddr p' = ht ∧ p_host_iface p' = hi ∧
       match c with
       | Some c => linked h c w' ∧ (w_next w ≤ c)%nat ∧ may_connect excl ht hi ids e
       | None => r ≠ CFail (CConn ENVME_CONNECT_ALREADY)
       end) w.
Proof.
  intros Hi Hd [_ Hids] HN Ht Hif.
  eapply safe_mono; [eapply safe_weaken; [reflexivity|exact conn_neutral|by apply connect_disc_entry_ok]|].
  cbv beta. intros [[r c] p'] w1 Hi1 Hs1 (Ht' & Hif' & Hc). cbn in Ht', Hif'.
  split_and!; [congruence..|]. destruct c as [c|]; [|done].
  destruct Hc as (-> & Hl & Hn & Hp & Hal). split_and!; [done..|].
  exists params, p'. split_and!; [done|congruence|congruence|]. by rewrite <- Hids.
Qed.

Lemma hook_ok N c w :
  tree_inv w → safe N neutral (hook_connected fctx c) (λ _ _, True) w.
Proof.
  intros Hi. unfold hook_connected. case_match; [by apply safe_emit|by apply safe_ret].
Qed.

Abbreviation none := (None : option (nat → nvmf_disc_log_entry → libnvme_ctrl_params → M (code * option nat))).

Lemma leaf_ok N dc e params v w :
  tree_inv w → has dc w → host_is w → (N ≤ w_next w)%nat →
  p_host_traddr params = ht → p_host_iface params = hi → (e_subtype e =? NVME_NQN_NVME) = true →
  safe N any (dc_connect_leaf_entry E excl none fctx h dc e (walk_params e params))
    (λ _ w', grown [] v v w w') w.
Proof.
  intros Hi Hd Hh HN Ht Hif Hsub. unfold dc_connect_leaf_entry. case_match; [by apply skip_ok|].
  eapply safe_bind; [apply neutral_ok; eapply safe_bind; [by apply connect_ok|]|].
  { intros [[r c] p'] w1 Hi1 _ (_ & _ & Hc).
    eapply safe_bind; [|intros [] w2 Hi2 _ _; apply safe_ret; [done|]].
    { destruct c; [by apply hook_ok|by apply (safe_ret _ _ _ (λ _ _, True))]. }
    instantiate (1 := λ rc _, match rc.2 with
                              | Some _ => may_connect excl ht hi ids e
                              | None => rc.1 ≠ CFail (CConn ENVME_CONNECT_ALREADY)
                              end). destruct c; [by apply Hc|done]. }
  cbv beta. intros [r c] w1 Hi1 _ [Hc (pre & Hpre & Fpre)]. cbn in Hc. destruct c as [c|].
  - eapply safe_mono; [by apply emit_ok|]. cbv beta. intros u w2 _ _ He2.
    eexists. split; [by rewrite He2, Hpre, <- app_assoc|]. by apply block_leaf.
  - rewrite bool_decide_false by done. eapply safe_mono; [by apply (skip_ok _ _ v)|]. cbv beta.
    intros u w2 _ _ G. eapply grown_trans; [by eapply grown_neutral|exact G].
Qed.

(** What the walk below a controller does. *)
Definition mine (own : dc_ownership) (c : nat) : list nat :=
  match own with DC_OWNED => [c] | DC_BORROWED => [] end.

(** No referral below leads back to the controller itself. *)
Definition below (v : list libnvmf_tid) (x : libnvme_ctrl) (evs : list event) : Prop :=
  room → ∀ e d b, (e, d, b) ∈ descents evs →
    ∃ k, entry_canon fctx ht hi e = Some k ∧ (k ∉ omap canon v) ∧
      ∀ t, ctrl_tid x fctx = Ok t → canon t ≠ Some k.

Definition discover_ok
    (discover : libnvme_ctrl_params → nat → dc_ownership → nat → list libnvmf_tid → option Z →
                M (code * list libnvmf_tid * bool)) (depth : nat) : Prop :=
  ∀ p c own v pe w, tree_inv w → linked h c w → host_is w →
    p_host_traddr p = ht → p_host_iface p = hi →
    safe (w_next w) any (discover p c own depth v pe)
      (λ x w', let '(_, v', disc) := x in
         (disc = true → own = DC_OWNED) ∧
         ∃ evs, w_events w' = w_events w ++ evs ∧ blk (mine own c) v v' evs ∧
           (own = DC_OWNED → keeps_none (f_persistent fctx) → delete_tried evs c ∨ log_failed evs c) ∧
           ∀ x, w_ctrls w !! c = Some x → below v x evs) w.

(** What an append leaves, and a registration. *)
Definition extends (v : list libnvmf_tid) (r : result libnvmf_tid) (v' : list libnvmf_tid) : Prop :=
  (∀ k, k ∈ omap canon v → k ∈ omap canon v') ∧ (room → ∀ t, r = Ok t → v' = v ++ [t]).

Lemma append_ok N v t w :
  tree_inv w →
  safe N any (dc_visited_append E v t) (λ v' w', extends v (Ok t) v' ∧ w_events w' = w_events w) w.
Proof.
  intros Hi. apply silent_events. unfold dc_visited_append.
  eapply safe_bind; [apply (safe_ask _ _ _ (λ ok _, ok = visited_append E (w_tick w))); done|].
  intros ok w' Hi' _ ->. apply safe_ret; [done|]. split.
  - intros k Hk. case_match; [|done]. rewrite omap_app. set_solver.
  - intros Hroom t' [= <-]. by rewrite Hroom.
Qed.

Lemma register_ok N v x w :
  tree_inv w →
  safe N any (dc_visited_register E v x fctx)
    (λ v' w', extends v (ctrl_tid x fctx) v' ∧ w_events w' = w_events w) w.
Proof.
  intros Hi. unfold dc_visited_register. destruct (ctrl_tid x fctx); [by apply append_ok|].
  by apply safe_ret.
Qed.

(** The controller of a referral, found or connected. *)
Lemma found_ok N dc e params w :
  tree_inv w → has dc w → host_is w → (N ≤ w_next w)%nat → (dc < N)%nat →
  p_host_traddr params = ht → p_host_iface params = hi →
  safe N neutral
    (let! cl := lookup_live_ctrl E h (walk_params e params) in
     match cl with
     | Some c => ret_ (inr (c, DC_BORROWED, walk_params e params))
     | None =>
         let '(tmo, kparams) := set_discovery_kato fctx (walk_params e params) in
         let! x := nvmf_connect_disc_entry E excl fctx h dc e kparams in
         let '(r, c, params) := x in
         let params := set_p_cfg (set_cfg_i keep_alive_tmo tmo (p_cfg params)) params in
         match c with
         | None => ret_ (inl r)
         | Some c => do! hook_connected fctx c in ret_ (inr (c, DC_OWNED, params))
         end
     end)
    (λ x w', match x with
             | inl r => r ≠ CFail (CConn ENVME_CONNECT_ALREADY)
             | inr (c, own, p') =>
                 p_host_traddr p' = ht ∧ p_host_iface p' = hi ∧ linked h c w' ∧
                 (own = DC_OWNED → (N ≤ c)%nat ∧ may_connect excl ht hi ids e)
             end) w.
Proof.
  intros Hi Hd Hh HN Hdc Ht Hif. eapply safe_bind; [by apply lookup_live_ok|].
  cbv beta. intros [c|] w1 Hi1 Hs1 Hc; [apply safe_ret; [done|]; split_and!; [done|done|by apply Hc|done]|].
  assert (Hd1 : has dc w1) by (eapply has_step; [exact Hs1|lia|done]).
  assert (Hh1 : host_is w1) by (by eapply host_is_step).
  pose proof (step_next _ _ _ _ Hs1) as Hn1.
  assert (∃ p1, (set_discovery_kato fctx (walk_params e params)).2 = walk_params e p1 ∧
            p_host_traddr p1 = ht ∧ p_host_iface p1 = hi) as (p1 & Hk & Ht1 & Hif1).
  { unfold set_discovery_kato. cbn [snd]. repeat case_match; eexists; split_and!;
      try (match goal with |- set_p_cfg ?c _ = _ => instantiate (1 := set_p_cfg c params) end);
      try reflexivity; done. }
  destruct (set_discovery_kato fctx (walk_params e params)) as [tmo kparams]. cbn in Hk. subst kparams.
  eapply safe_bind; [apply connect_ok; [done..|lia|done|done]|].
  cbv beta. intros [[r c] p'] w2 Hi2 Hs2 (Ht' & Hif' & Hc'). destruct c as [c|]; [|by apply safe_ret].
  destruct Hc' as (Hl & Hle & Hm). eapply (safe_bind_at _ _ (S (max N c))); [lia|by apply hook_ok|].
  cbv beta. intros _ w3 Hi3 Hs3 _. apply safe_ret; [done|]. split_and!; [done..| |].
  - eapply linked_step; [exact Hs3|lia|done].
  - intros _. split; [lia|done].
Qed.

Lemma referral_ok N discover dc e params depth v w :
  ((depth < NVMF_MAX_REFERRAL_DEPTH)%nat → discover_ok discover (S depth)) →
  tree_inv w → has dc w → host_is w → (N ≤ w_next w)%nat → (dc < N)%nat →
  p_host_traddr params = ht → p_host_iface params = hi → (e_subtype e =? NVME_NQN_NVME) = false →
  safe N any (dc_walk_referral E excl discover fctx h dc e (walk_params e params) depth v)
    (λ v' w', grown [] v v' w w') w.
Proof.
  intros HD Hi Hd Hh HN Hdc Ht Hif Hsub. unfold dc_walk_referral.
  assert (Hskip : safe N any (do! dc_log_decision (Some e) no_decision in ret_ v)
                    (λ v' w', grown [] v v' w w') w).
  { eapply safe_bind; [by apply (skip_ok _ _ v)|]. cbv beta. intros [] w' Hi' _ G. by apply safe_ret. }
  destruct (Nat.leb_spec NVMF_MAX_REFERRAL_DEPTH depth) as [_|Hdepth]; [exact Hskip|].
  specialize (HD Hdepth). cbn [walk_params params_at p_transport p_traddr p_trsvcid p_subsysnqn
    p_host_traddr p_host_iface]. rewrite Ht, Hif. fold (entry_fields fctx ht hi e).
  destruct (libnvmf_tid_from_fields (entry_fields fctx ht hi e)) as [t|] eqn:Etid; [|exact Hskip].
  destruct (dc_visited_has v t) eqn:Hv; [exact Hskip|].
  destruct (canon_some t) as [k Hk]. pose proof (visited_has_false _ _ _ Hk Hv) as Hnew.
  apply safe_assoc. eapply safe_bind; [apply neutral_ok; by apply found_ok|].
  cbv beta. intros [r|[[c own] p']] w1 Hi1 Hs1 [Hx (pre & Hpre & Fpre)].
  { rewrite bool_decide_false by done. eapply safe_bind; [by apply (skip_ok _ _ v)|].
    cbv beta. intros [] w2 Hi2 _ G. apply safe_ret; [done|].
    eapply grown_trans; [by eapply grown_neutral|exact G]. }
  destruct Hx as (Ht' & Hif' & Hl & Hown).
  eapply (safe_bind_at _ _ (S (max N c))); [lia|by apply emit_ok|]. cbv beta. intros [] w2 Hi2 Hs2 He2.
  assert (Hl2 : linked h c w2) by (eapply linked_step; [exact Hs2|lia|done]).
  assert (Hh2 : host_is w2) by (eapply host_is_step; [exact Hs2|]; by eapply host_is_step).
  pose proof (step_next _ _ _ _ Hs1). pose proof (step_next _ _ _ _ Hs2).
  eapply (safe_bind_at _ _ (S (max N c))); [lia|by apply (append_ok _ v t)|].
  cbv beta. intros v1 w2' Hi2' Hs2' [[Hv1 Hr1] He2'].
  assert (Hl2' : linked h c w2') by (eapply linked_step; [exact Hs2'|lia|done]).
  assert (Hh2' : host_is w2') by (by eapply host_is_step). pose proof (step_next _ _ _ _ Hs2').
  eapply (safe_bind_at _ _ (w_next w2')); [lia|by apply HD|].
  cbv beta. intros [[r v'] disc] w3 Hi3 Hs3 [Hdisc (evs & He3 & B & Hcl & _)]. rewrite He2' in He3.
  assert (Hl3 : linked h c w3).
  { eapply linked_step; [exact Hs3| |done]. by apply has_next; [|eapply linked_has]. }
  assert (G : grown [] v v' w w3).
  { eexists. split; [by rewrite He3, He2, Hpre, <- !app_assoc|]. cbn [app].
    replace (bool_decide (own = DC_BORROWED)) with (match own with DC_OWNED => false | DC_BORROWED => true end)
      by by destruct own.
    eapply (block_descend _ _ _ t k v v1); try done; destruct own; try done; auto.
    intros _. by apply Hown. }
  destruct disc; [|by apply safe_ret].
  eapply safe_bind; [apply (free_ok any); [done|by eapply linked_has|by apply Hown, Hdisc]|].
  cbv beta. intros _ w4 Hi4 _ He4. apply safe_ret; [done|]. unfold grown. by rewrite He4.
Qed.

Lemma entries_ok N discover params c depth es v w :
  ((depth < NVMF_MAX_REFERRAL_DEPTH)%nat → discover_ok discover (S depth)) →
  tree_inv w → has c w → host_is w → (N ≤ w_next w)%nat → (c < N)%nat →
  p_host_traddr params = ht → p_host_iface params = hi →
  safe N any (walk_entries E excl none discover fctx params h c depth es v)
    (λ v' w', grown [] v v' w w') w.
Proof.
  intros HD Hi Hc Hh HN HcN Ht Hif. revert v w Hi Hc Hh HN.
  induction es as [|e es IH]; intros v w Hi Hc Hh HN; cbn [walk_entries].
  { apply safe_ret; [done|]. apply (grown_neutral _ _ _ _ []); [by rewrite app_nil_r|constructor]. }
  case_match; [by apply IH|].
  eapply safe_bind; [apply (safe_ctrl _ _ _ (λ _ w', w' = w)); done|]. intros x w' _ _ ->.
  eapply (safe_bind _ _ _ _ (λ v' w', grown [] v v' w w')).
  - assert (Hdup : ctrl_params_dup params = params).
    { destruct params as [? ? ? [i|] ? ? ?]; unfold ctrl_params_dup; cbn; [by rewrite strdup_id|done]. }
    rewrite Hdup. fold (walk_params e params). case_match.
    { eapply safe_bind; [by apply (skip_ok _ _ v)|]. cbv beta. intros [] w' Hi' _ G. by apply safe_ret. }
    destruct (e_subtype e =? NVME_NQN_NVME) eqn:Hsub; [|by apply referral_ok].
    eapply safe_bind; [by apply (leaf_ok _ _ _ _ v)|]. cbv beta. intros [] w' Hi' _ G. by apply safe_ret.
  - intros v1 w1 Hi1 Hs1 G1. pose proof (step_next _ _ _ _ Hs1).
    eapply safe_mono; [apply IH; [done|by eapply has_step|by eapply host_is_step|lia]|].
    cbv beta. intros v2 w2 _ _ G2. by eapply grown_trans.
Qed.

(** ** A discovery controller *)

Lemma block_delete c r v :
  f_persistent fctx ≠ LIBNVMF_PERSISTENT_FORCE → blk [c] v v [EvDelete c r].
Proof.
  intros Hf. assert (Ho : ∀ d, ¬ owned [EvDelete c r] d) by (intros d [e He]; by apply elem_of_nil in He).
  split; try done.
  - intros _. apply NoDup_nil_2.
  - intros e d b _ Hin. by apply elem_of_nil in Hin.
  - intros d [r' Hr]. apply list_elem_of_singleton in Hr as [= -> _]. left. set_solver.
  - intros d _ Hc. by apply Ho in Hc.
  - intros ev e. rewrite list_elem_of_singleton. by intros ->.
  - intros a b d f Hin. by apply list_elem_of_singleton in Hin.
Qed.

Lemma decide_facts own seen eflags pe :
  (dc_decide (f_persistent fctx) own seen eflags pe = true →
     own = DC_OWNED ∧ f_persistent fctx ≠ LIBNVMF_PERSISTENT_FORCE) ∧
  (own = DC_OWNED → keeps_none (f_persistent fctx) →
     dc_decide (f_persistent fctx) own seen eflags pe = true).
Proof.
  unfold keeps_none. destruct own; cbn; [|done].
  split; [by destruct (f_persistent fctx)|]. by intros _ [-> | ->].
Qed.

(** The hook for the log page, and the survey. *)
Lemma log_hook_ok N c w :
  tree_inv w →
  safe N any (if f_hook_log fctx then emit (EvDiscoveryLog c) else ret_ tt)
    (λ _ w', True ∧ ∃ evs, w_events w' = w_events w ++ evs ∧ Forall neutral evs) w.
Proof.
  intros Hi. apply (neutral_ok _ _ (λ _ _, True)). case_match; [by apply safe_emit|by apply safe_ret].
Qed.

Lemma survey_ok N c x own primary pe es w :
  tree_inv w →
  safe N neutral (dc_survey_self_entry fctx c x own primary pe es)
    (λ d _, ∃ seen eflags, d = dc_decide (f_persistent fctx) own seen eflags pe) w.
Proof.
  intros Hi. unfold dc_survey_self_entry.
  eapply safe_bind; [by apply (safe_emit _ _ _ (λ _ _, True))|]. cbv beta. intros _ w2 Hi2 _ _.
  apply safe_ret; [done|]. by eauto.
Qed.

Lemma release_ok N c (own : dc_ownership) (d : bool) v w :
  tree_inv w → has c w → (d = true → own = DC_OWNED ∧ f_persistent fctx ≠ LIBNVMF_PERSISTENT_FORCE) →
  safe N any (if d then do! libnvmf_disconnect_ctrl E c in ret_ tt else ret_ tt)
    (λ _ w', ∃ evs, w_events w' = w_events w ++ evs ∧ blk (mine own c) v v evs ∧
                    (d = true → delete_tried evs c)) w.
Proof.
  intros Hi Hc Hd. destruct d.
  - destruct Hd as [-> Hf]; [done|]. eapply safe_bind; [by apply disconnect_ok|].
    cbv beta. intros _ w' Hi' _ [r He]. apply safe_ret; [done|]. exists [EvDelete c r].
    split_and!; [done|by apply block_delete|]. intros _. exists r. set_solver.
  - apply safe_ret; [done|]. exists []. split_and!; [by rewrite app_nil_r| |done].
    by apply block_neutral.
Qed.

Lemma discover_fuel fuel depth :
  (walk_levels ≤ fuel + depth)%nat → (depth ≤ NVMF_MAX_REFERRAL_DEPTH)%nat →
  discover_ok (_nvmf_discover E excl dlp none fuel fctx) depth.
Proof.
  revert depth. induction fuel as [|fuel IH]; intros depth Hf Hdepth.
  { unfold walk_levels in Hf. lia. }
  intros p c own v pe w Hi Hl Hh Ht Hif. cbn [_nvmf_discover].
  pose proof (has_next _ _ Hi (linked_has _ _ _ Hl)) as Hc.
  destruct Hl as (x0 & s0 & Hx0 & Hs0).
  eapply safe_bind; [apply (safe_ctrl _ _ _ (λ x w', w' = w ∧ x = x0)); [done|by exists x0|]|].
  { intros x Hx. rewrite Hx in Hx0. by injection Hx0. }
  intros x w' _ _ [-> ->]. rewrite Hs0.
  eapply safe_bind; [apply (silent_events _ _ (λ _ _, True)); by apply safe_ask|].
  cbv beta. intros r w1 Hi1 Hs1 [_ He1].
  eapply safe_bind; [by apply emit_ok|]. cbv beta. intros [] w2 Hi2 Hs2 He2. rewrite He1 in He2.
  destruct r as [err|log].
  { apply safe_ret; [done|]. split; [done|]. exists [EvLog c (inl err)].
    split_and!; [done| | |].
    - apply block_neutral; [by repeat constructor|done].
    - intros _ _. right. exists err. set_solver.
    - intros x _ _ e d b Hin. by apply elem_of_nil in Hin. }
  eapply safe_bind; [apply (log_hook_ok _ c); done|]. cbv beta. intros [] w2a Hi2a Hs2a [_ (prea & Hprea & Fprea)].
  eapply safe_bind; [by apply (register_ok _ v x0)|]. cbv beta. intros v1 w2b Hi2b Hs2b [[Hv1 Hr1] He2b].
  eapply safe_bind; [apply neutral_ok; by apply survey_ok|].
  cbv beta. intros d w3 Hi3 Hs3 [(seen & eflags & ->) (preb & Hpreb & Fpreb)].
  set (pre := prea ++ preb). assert (Fpre : Forall neutral pre) by (by apply list.Forall_app).
  assert (Hpre : w_events w3 = w_events w2 ++ pre) by (subst pre; by rewrite Hpreb, He2b, Hprea, app_assoc).
  set (d := dc_decide _ _ _ _ _). destruct (decide_facts own seen eflags pe) as [Hd1 Hd2]. fold d in Hd1, Hd2.
  assert (Hs03 : step (w_next w) any w w3).
  { eapply step_trans; [reflexivity|exact Hs1|]. eapply step_trans; [reflexivity|exact Hs2|].
    eapply step_trans; [reflexivity|exact Hs2a|]. by eapply step_trans. }
  assert (Hc3 : has c w3) by (eapply has_step; [exact Hs03|done|by exists x0]).
  eapply safe_bind; [by apply (release_ok _ c own d v1)|].
  cbv beta. intros [] w4 Hi4 Hs4 (del & Hdel & Bdel & Hdd).
  assert (Hs04 : step (w_next w) any w w4) by (by eapply step_trans).
  eapply safe_bind; [apply (entries_ok (w_next w)); try done|].
  - intros Hlt. apply IH; lia.
  - eapply has_step; [exact Hs04|done|by exists x0].
  - by eapply host_is_step.
  - by apply (step_next _ _ _ _ Hs04).
  - cbv beta. intros v2 w5 Hi5 _ (evs & Hevs & B). apply safe_ret; [done|].
    split; [by intros [? _]%Hd1|].
    exists (([EvLog c (inr log)] ++ pre) ++ del ++ evs). split.
    { by rewrite Hevs, Hdel, Hpre, He2, <- !app_assoc. }
    assert (B' : blk (mine own c) v1 v2 (del ++ evs)).
    { rewrite <- (app_nil_r (mine own c)). by eapply block_app. }
    assert (Fpre' : Forall neutral ([EvLog c (inr log)] ++ pre)) by by repeat constructor.
    split_and!.
    + apply (block_app excl fctx ht hi ids room [] (mine own c) v v1); [|done].
      by apply block_neutral.
    + intros Ho Hk. left. rewrite !delete_tried_app. right. left. auto.
    + intros x Hx Hroom e dd b. rewrite Hx in Hx0. injection Hx0 as ->.
      destruct (neutral_facts _ Fpre') as [Hn _]. rewrite descents_app, Hn. cbn [app]. intros Hin.
      destruct (bk_new _ _ _ _ _ _ _ _ _ _ B' _ _ _ Hroom Hin) as (k & ? & Hk & _). exists k.
      split_and!; [done|by intros ?%Hv1|]. intros t Htid Hkt. apply Hk. rewrite (Hr1 Hroom t Htid), omap_app. cbn.
      rewrite Hkt. set_solver.
Qed.
End WalkOk.
