(* ===== verification/WalkResult.v ===== *)
(** * The discovery walk as a whole

    What [dc_walk] promises to [libnvmf_discover] and to "nvme connect-all",
    from the lemmas of [WalkSpec]. *)

From Stdlib Require Import String.
From stdpp Require Import base list numbers gmap.
From S2P Require Import Prelude.
From S2P Require Import CStr.
From S2P Require Import Nqn.
From S2P Require Import Printf.
From S2P Require Import Tid.
From S2P Require Import DTid.
From S2P Require Import Exclusion.
From S2P Require Import Conf.
From S2P Require Import ConfResolve.
From S2P Require Import ConfApply.
From S2P Require Import Io.
From S2P Require Import Ctrl.
From S2P Require Import CtrlMatch.
From S2P Require Import Options.
From S2P Require Import CtrlSpec.
From S2P Require Import Connect.
From S2P Require Import ConnectSpec.
From S2P Require Import Walk.
From S2P Require Import WalkSpec.

(** ** The theorems *)

Section Results.
Context (E : env) `{AllocOk} `{Inet} (excl : excl_fs).
Context (dlp : nat → option (list Z) → failure + list (list Z)).
Context (fctx : fabrics_ctx) (h c : nat) (own : dc_ownership) (w : world).

Context (Hdry : ctx_dry_run E = false) (Htree : tree_inv w).
Context (Hlink : linked h c w) (Hhost : is_Some (host_at h w)).

(** The host side of the connections of the walk. *)
Abbreviation ht := (p_host_traddr (f_params fctx)).
Abbreviation hi := (p_host_iface (f_params fctx)).

Lemma walk_ok :
  ∃ r w' v' evs, dc_walk E excl dlp None fctx c own w = Ret r w' ∧ tree_inv w' ∧
    step (w_next w) (λ _, True) w w' ∧ w_events w' = w_events w ++ evs ∧
    block excl fctx ht hi (host_ids h w) (∀ n, visited_append E n = true) (mine own c) [] v' evs ∧
    (own = DC_OWNED → keeps_none (f_persistent fctx) → delete_tried evs c ∨ log_failed evs c) ∧
    ∀ x, w_ctrls w !! c = Some x → below E fctx ht hi [] x evs.
Proof.
  assert (Hd := discover_fuel E excl dlp fctx h ht hi (host_ids h w) Hdry walk_levels 0
                  ltac:(unfold walk_levels; lia) ltac:(lia)
                  (f_params fctx) c own [] None w Htree Hlink (conj Hhost eq_refl) eq_refl eq_refl).
  unfold safe, wp in Hd. unfold dc_walk, bind, ret_.
  destruct (_nvmf_discover _ _ _ _ _ _ _ _ _ _ _ _ w) as [[[r v'] disc] w'| |]; [|done|done].
  destruct Hd as (Hi & Hs & _ & evs & He & B & Hcl & Hb). exists r, w', v', evs. by auto 10.
Qed.

(** A controller whose deletion was tried was deleted, or the write failed. *)
Lemma tried_cases evs d : delete_tried evs d → deleted evs d ∨ delete_failed evs d.
Proof. intros [[|f] Hr]; [by left|right; by exists f]. Qed.

(** C10: A discovery walk comes back, however the discovery controllers refer
    to one another and whatever the kernel answers: nine levels of
    recursion are enough, also when the list of the visited controllers cannot
    grow, no controller that was freed is used again, the topology tree stays
    sound, and every controller that was in it before the walk is still there,
    linked to the same subsystem.  It is assumed that the walk starts from a
    sound tree with the controller and its host in it, is no dry run, has no
    hook for the I/O controllers (that of the NBFT), and that there is memory
    for copies of strings. *)
Theorem walk_returns :
  ∃ r w', dc_walk E excl dlp None fctx c own w = Ret r w' ∧ tree_inv w' ∧
    ∀ d x, w_ctrls w !! d = Some x →
      ∃ x', w_ctrls w' !! d = Some x' ∧ c_s x' = c_s x ∧ c_transport x' = c_transport x.
Proof.
  destruct walk_ok as (r & w' & v' & evs & Hr & Hi & Hs & _). exists r, w'. split_and!; [done..|].
  intros d x Hx. destruct (step_ctrl _ _ _ _ Hs d x) as (x' & Hx' & Hl & [=Ht _ _ _ _]); [by eapply inv_next|done|].
  by exists x'.
Qed.

(** C11: A walk goes down to a discovery controller at most once: the
    referrals it follows have different canonical transport IDs, none of
    them that of the controller it started from.  This needs the memory for
    the list of the visited controllers: where an append to it fails a
    referral is followed again, up to the depth limit
    ([walk_visits_again]).  It is assumed further that the walk starts from a
    sound tree with the controller and its host in it, is no dry run, has no
    hook for the I/O controllers (that of the NBFT), and that there is memory
    for copies of strings. *)
Theorem walk_visits_once :
  (∀ n, visited_append E n = true) →
  ∃ r w' evs, dc_walk E excl dlp None fctx c own w = Ret r w' ∧ w_events w' = w_events w ++ evs ∧
    NoDup (omap (λ d, entry_canon fctx ht hi d.1.1) (descents evs)) ∧
    ∀ x, w_ctrls w !! c = Some x → ∀ e d b, (e, d, b) ∈ descents evs →
      ∃ k, entry_canon fctx ht hi e = Some k ∧ ∀ t, ctrl_tid x fctx = Ok t → canon t ≠ Some k.
Proof.
  intros Hroom. destruct walk_ok as (r & w' & v' & evs & Hr & _ & _ & He & B & _ & Hb).
  exists r, w', evs. split_and!; [done..|by apply B|].
  intros x Hx e d b Hin. destruct (Hb x Hx Hroom e d b Hin) as (k & ? & _ & ?). by exists k.
Qed.

(** C12: A walk tries to disconnect no controller that was connected before
    it: what it writes to [delete_controller] for is a discovery controller it
    connected itself, or the one it was given as its own.  Without persistence
    each of these is disconnected, or the write failed (the walk ignores
    that), or its log page could not be read (the walk then leaves it
    connected); with forced persistence it does not try to disconnect any.  It
    is assumed that the walk starts from a sound tree with the controller and
    its host in it, is no dry run (which disconnects nothing), has no hook for
    the I/O controllers (that of the NBFT), and that there is memory for
    copies of strings. *)
Theorem walk_disconnects :
  ∃ r w' evs, dc_walk E excl dlp None fctx c own w = Ret r w' ∧ w_events w' = w_events w ++ evs ∧
    (∀ d, delete_tried evs d → (d = c ∧ own = DC_OWNED) ∨ owned evs d) ∧
    (keeps_none (f_persistent fctx) → ∀ d, (d = c ∧ own = DC_OWNED) ∨ owned evs d →
       deleted evs d ∨ delete_failed evs d ∨ log_failed evs d) ∧
    (f_persistent fctx = LIBNVMF_PERSISTENT_FORCE → ∀ d, ¬ delete_tried evs d).
Proof.
  destruct walk_ok as (r & w' & v' & evs & Hr & _ & _ & He & B & Hcl & _).
  exists r, w', evs. split_and!; [done..| | |apply B].
  - intros d Hd. destruct (bk_deleted _ _ _ _ _ _ _ _ _ _ B d Hd) as [Hm|Ho]; [left|by right].
    destruct own; cbn in Hm; [|by apply elem_of_nil in Hm]. by apply list_elem_of_singleton in Hm.
  - intros Hk d Hd. assert (Hc : delete_tried evs d ∨ log_failed evs d).
    { destruct Hd as [[-> Ho]|Ho]; [by apply Hcl|by apply (bk_closed _ _ _ _ _ _ _ _ _ _ B)]. }
    destruct Hc as [[?|?]%tried_cases|?]; auto.
Qed.

(** C13: A walk connects no controller that the exclusion list names: for
    every entry it reports as connected, an I/O controller or a referral, a
    transport ID was made of the transport, the addresses and the NQN of the
    entry with the host's own identity, the list was asked about it, and it
    did not match.  (The check lets an entry through whose transport ID cannot
    be made, but the connect then refuses its addresses.)  It is assumed that
    the walk starts from a sound tree with the controller and its host in it,
    is no dry run, has no hook for the I/O controllers (that of the NBFT,
    which connects them itself), and that there is memory for copies of
    strings. *)
Theorem walk_excludes :
  ∃ r w' evs, dc_walk E excl dlp None fctx c own w = Ret r w' ∧ w_events w' = w_events w ++ evs ∧
    ∀ ev e, ev ∈ evs → connected ev = Some e → may_connect excl ht hi (host_ids h w) e.
Proof.
  destruct walk_ok as (r & w' & v' & evs & Hr & _ & _ & He & B & _).
  exists r, w', evs. split_and!; [done..|]. apply B.
Qed.

(** The hook [already_connected] is never called: the failed connect of an
    entry is reported to the walk as [-ENOENT]. *)
Theorem walk_no_already_hook :
  ∃ r w' evs, dc_walk E excl dlp None fctx c own w = Ret r w' ∧ w_events w' = w_events w ++ evs ∧
    ∀ s t a i, EvAlready s t a i ∉ evs.
Proof.
  destruct walk_ok as (r & w' & v' & evs & Hr & _ & _ & He & B & _).
  exists r, w', evs. split_and!; [done..|]. apply B.
Qed.
End Results.

(** ** A walk

    Two discovery controllers that refer to one another, each with an I/O
    controller. *)
Module WalkSample.
Definition cfg : libnvme_fabrics_config := libnvmf_default_config (Cfg (λ _, 0) (λ _, false) 0 0 0).

Definition padded (n : nat) (s : list Z) : list Z := s ++ replicate (n - length s) 0.
Definition record (subtype : Z) (traddr trsvcid nqn : string) : list Z :=
  [NVMF_TRTYPE_TCP; NVMF_ADDR_FAMILY_IP4; subtype] ++ replicate 29 0 ++ padded 32 (lit trsvcid) ++
  replicate 192 0 ++ padded 256 (lit nqn) ++ padded 256 (lit traddr) ++ replicate 256 0.

Definition disc : string := "nqn.2014-08.org.nvmexpress.discovery".

(** The log pages of 10.0.0.1, which is nvme0, and of 10.0.0.2. *)
Definition dlp (n : nat) (name : option (list Z)) : failure + list (list Z) :=
  inr (if bool_decide (name = Some (lit "nvme0"))
       then [record NVME_NQN_CURR "0a000001" "8009" disc; record NVME_NQN_DISC "0a000002" "8009" disc;
             record NVME_NQN_DISC "0a000002" "8009" disc; record NVME_NQN_NVME "0a000001" "4420" "nqn.a"]
       else [record NVME_NQN_DISC "0a000001" "8009" disc; record NVME_NQN_NVME "0a000002" "4420" "nqn.b"]).

Definition E' (append : bool) : env := {|
  dev_xfer n args := match args with
                     | Some _ => inr (lit "instance=" ++ print_int (Z.of_nat n) ++ lit ",cntlid=1")
                     | None => inl (LIBNVMF_DEV_READ, EINVAL)
                     end;
  sysfs_attr n dir name := if str_eqb name (lit "address") then Some (lit "traddr=0a000002") else None;
  dir_exists n dir := true;
  subsystem_name n name := Some (lit "nvme-subsys" ++ drop 4 name);
  delete_controller n dir := CSuccess;
  lookup_keyring n k := inl (CErrno ENOENT);
  set_keyring n k := CSuccess;
  lookup_key n k := inl (CErrno ENOENT);
  import_tls_key n k a b d e := inl (CErrno ENOENT);
  getifaddrs n := [];
  visited_append n := append;
  ctx_owner := None;
  ctx_dry_run := false;
  ctrl_sysfs_dir := lit "/sys/class/nvme";
  subsys_sysfs_dir := lit "/sys/class/nvme-subsystem" |}.

Definition E : env := E' true.

Definition params : libnvme_ctrl_params :=
  CtrlParams (Some (lit "tcp")) (Some (lit "0a000001")) None None (Some (lit "8009"))
    (Some (lit disc)) cfg.

Definition primary : libnvme_ctrl :=
  set_link (Some (0, 0)%nat)
    (set_device (Some (lit "nvme0")) (Some (lit "/sys/class/nvme/nvme0")) None None (new_ctrl params)).

Definition start : world :=
  World {[0%nat := primary]} 1
    [Host (lit "nqn.host") (lit "id") None [Subsys (Some (lit "nvme-subsys0")) (lit disc) None [0%nat]]]
    None 1 [].

Definition fctx (p : libnvmf_persistent) : fabrics_ctx :=
  FabricsCtx params 30 p None true false (Some (lit "nqn.host")) (Some (lit "id")) None None None None
    true true true.

Definition walk (p : libnvmf_persistent) : run world code :=
  @dc_walk E all_memory hex_inet fs_none dlp None (fctx p) 0 DC_OWNED start.

(** The same with no memory for the list of the visited controllers. *)
Definition forgetful : run world code :=
  @dc_walk (E' false) all_memory hex_inet fs_none dlp None (fctx LIBNVMF_PERSISTENT_NO) 0 DC_OWNED start.

(** What a walk did, in short. *)
Definition summary (ev : event) : option (Z * nat) :=
  match ev with
  | EvLog c _ => Some (0, c)
  | EvDelete c _ => Some (1, c)
  | EvDecision _ (Decision (Some c) _ _ true _) => Some (2, c)
  | EvDecision _ (Decision None _ _ _ _) => Some (3, 0%nat)
  | _ => None
  end.

Lemma tree_sound : tree_inv start.
Proof.
  split.
  - intros c x Hx. change (({[0%nat := primary]} : gmap nat libnvme_ctrl) !! c = Some x) in Hx. apply lookup_singleton_Some in Hx as [<- _]. cbn. lia.
  - intros [|h] [|s] y c Hy Hc; try done. cbn in Hy. injection Hy as <-.
    apply list_elem_of_singleton in Hc as ->. by exists primary.
Qed.
Lemma primary_linked : linked 0 0 start.
Proof. by exists primary, 0%nat. Qed.
Lemma host_known : is_Some (host_at 0 start).
Proof. by eexists. Qed.
End WalkSample.

Lemma walk_returns_witness :
  ∃ r w', WalkSample.walk LIBNVMF_PERSISTENT_NO = Ret r w' ∧ is_Some (w_ctrls w' !! 0%nat).
Proof.
  destruct (@walk_returns WalkSample.E all_memory _ hex_inet fs_none WalkSample.dlp
    (WalkSample.fctx LIBNVMF_PERSISTENT_NO) 0 0 DC_OWNED WalkSample.start eq_refl WalkSample.tree_sound
    WalkSample.primary_linked WalkSample.host_known) as (r & w' & Hr & _ & Hc).
  exists r, w'. split; [exact Hr|].
  destruct (Hc 0%nat WalkSample.primary eq_refl) as (x' & Hx' & _). by exists x'.
Defined.

(** The referral back and the second referral to 10.0.0.2 are not followed. *)
Lemma walk_visits_once_witness :
  ∃ r w' evs, WalkSample.walk LIBNVMF_PERSISTENT_NO = Ret r w' ∧ w_events w' = evs ∧
    NoDup (omap (λ d, @entry_canon all_memory hex_inet (WalkSample.fctx LIBNVMF_PERSISTENT_NO) None None d.1.1) (descents evs)).
Proof.
  destruct (@walk_visits_once WalkSample.E all_memory _ hex_inet fs_none WalkSample.dlp
    (WalkSample.fctx LIBNVMF_PERSISTENT_NO) 0 0 DC_OWNED WalkSample.start eq_refl WalkSample.tree_sound
    WalkSample.primary_linked WalkSample.host_known (λ _, eq_refl)) as (r & w' & evs & Hr & He & Hn & _).
  exists r, w', evs. split; [exact Hr|]. split; [exact He|exact Hn].
Defined.

Lemma walk_disconnects_witness :
  ∃ r w' evs, WalkSample.walk LIBNVMF_PERSISTENT_FORCE = Ret r w' ∧ w_events w' = evs ∧
    ∀ d, ¬ delete_tried evs d.
Proof.
  destruct (@walk_disconnects WalkSample.E all_memory _ hex_inet fs_none WalkSample.dlp
    (WalkSample.fctx LIBNVMF_PERSISTENT_FORCE) 0 0 DC_OWNED WalkSample.start eq_refl WalkSample.tree_sound
    WalkSample.primary_linked WalkSample.host_known) as (r & w' & evs & Hr & He & _ & _ & Hf).
  exists r, w', evs. split; [exact Hr|]. split; [exact He|]. by apply Hf.
Defined.

Lemma walk_excludes_witness :
  ∃ r w' evs, WalkSample.walk LIBNVMF_PERSISTENT_NO = Ret r w' ∧ w_events w' = evs ∧
    ∀ ev e, ev ∈ evs → connected ev = Some e →
      @may_connect all_memory hex_inet fs_none None None (host_ids 0 WalkSample.start) e.
Proof.
  destruct (@walk_excludes WalkSample.E all_memory _ hex_inet fs_none WalkSample.dlp
    (WalkSample.fctx LIBNVMF_PERSISTENT_NO) 0 0 DC_OWNED WalkSample.start eq_refl WalkSample.tree_sound
    WalkSample.primary_linked WalkSample.host_known) as (r & w' & evs & Hr & He & Hc).
  exists r, w', evs. split; [exact Hr|]. split; [exact He|exact Hc].
Defined.

(** The walk of the sample: the primary controller is disconnected once its
    page is read, 10.0.0.2 is connected, walked and disconnected, the
    referrals that were followed before are skipped, and both I/O
    controllers are connected. *)
Fact walk_sample :
  ∃ w', WalkSample.walk LIBNVMF_PERSISTENT_NO = Ret CSuccess w' ∧
    omap WalkSample.summary (w_events w') =
      [(0, 0%nat); (1, 0%nat); (2, 1%nat); (0, 1%nat); (1, 1%nat); (3, 0%nat); (2, 2%nat); (3, 0%nat);
       (2, 3%nat)].
Proof. eexists. split; vm_compute; reflexivity. Qed.

(** The referrals of the walk when no append succeeds: the two controllers are
    visited again and again, to the depth limit. *)
Fact walk_visits_again :
  ∃ r w', WalkSample.forgetful = Ret r w' ∧ (8 < length (descents (w_events w')))%nat ∧
    ¬ NoDup (omap (λ d, @entry_canon all_memory hex_inet (WalkSample.fctx LIBNVMF_PERSISTENT_NO) None None d.1.1)
               (descents (w_events w'))).
Proof.
  eexists _, _. split; [vm_compute; reflexivity|]. split; [vm_compute; lia|].
  match goal with |- ¬ NoDup ?l => let l' := eval vm_compute in l in change (¬ NoDup l') end.
  intros Hn. apply list.NoDup_cons in Hn as [Hn _]. set_solver.
Qed.
