(* ===== verification/Psk.v ===== *)
(** * The PSK interchange format: [libnvme/src/nvme/crypto.c]

    A TLS key is written as "NVMeTLSkey-<v>:<xx>:<s>:" where [s] is the base64
    text of the key followed by its CRC-32.  The file also has the secrets a
    user gives as digits or as a PIN. *)

From Stdlib Require Import String.
From stdpp Require Import base list numbers.
From S2P Require Import Prelude.
From S2P Require Import CStr.
From S2P Require Import Hex.
From S2P Require Import Base64.
From S2P Require Import Crc32.
From S2P Require Import Parse.
From S2P Require Import Tid.
From S2P Require Import ConfApply.

(** ** Data *)

Inductive libnvmf_hmac_alg :=
| LIBNVMF_HMAC_ALG_NONE | LIBNVMF_HMAC_ALG_SHA2_256 | LIBNVMF_HMAC_ALG_SHA2_384
| LIBNVMF_HMAC_ALG_SHA2_512.

#[export] Instance hmac_alg_eq_dec : EqDecision libnvmf_hmac_alg.
Proof. solve_decision. Defined.

Definition alg_value (a : libnvmf_hmac_alg) : Z :=
  match a with
  | LIBNVMF_HMAC_ALG_NONE => 0
  | LIBNVMF_HMAC_ALG_SHA2_256 => 1
  | LIBNVMF_HMAC_ALG_SHA2_384 => 2
  | LIBNVMF_HMAC_ALG_SHA2_512 => 3
  end.

Definition KEY_BUF_LEN : nat := 128.

(** A call that may write outside of a buffer: [None] when it does. *)
Abbreviation buffered A := (option (result A)) (only parsing).

(** ** Export *)

(** ["%x"] and ["%02x"] of a byte. *)
Definition print_x (v : Z) : list Z :=
  if v <? 16 then [hex_digit_lc v] else [hex_digit_lc (v / 16); hex_digit_lc (v mod 16)].
Definition print_02x (v : Z) : list Z := [hex_digit_lc (v / 16); hex_digit_lc (v mod 16)].

(** The switch on the hash: the lengths of a key. *)
Definition export_len_ok (hmac : libnvmf_hmac_alg) (key_len : nat) : bool :=
  match hmac with
  | LIBNVMF_HMAC_ALG_NONE => (key_len =? 32)%nat || (key_len =? 48)%nat
  | LIBNVMF_HMAC_ALG_SHA2_256 => (key_len =? 32)%nat
  | LIBNVMF_HMAC_ALG_SHA2_384 => (key_len =? 48)%nat
  | LIBNVMF_HMAC_ALG_SHA2_512 => false
  end.

Definition crc_bytes (crc : Z) : list Z :=
  [Z.land crc 0xff; Z.land (Z.shiftr crc 8) 0xff; Z.land (Z.shiftr crc 16) 0xff;
   Z.land (Z.shiftr crc 24) 0xff].

Definition key_header (version hmac : Z) : list Z :=
  lit "NVMeTLSkey-" ++ print_x version ++ [c_colon] ++ print_02x hmac ++ [c_colon].

Section PskText.
(** Whether [malloc] of a size succeeds. *)
Context (malloc : nat → bool).

Definition libnvmf_export_tls_key_versioned (version : Z) (hmac : libnvmf_hmac_alg) (key_data : list Z) :
    buffered (list Z) :=
  if negb (export_len_ok hmac (length key_data)) then Some (Err EINVAL)
  else
    let raw_secret := key_data ++ crc_bytes (shr_crc32 (shr_crc32 0 []) key_data) in
    if (KEY_BUF_LEN <? length raw_secret)%nat then None
    else
      let encoded_len := (length raw_secret * 2 + 20)%nat in
      if negb (malloc encoded_len) then Some (Err ENOMEM)
      else
        let encoded_key := key_header version (alg_value hmac) ++ shr_base64_encode raw_secret ++ [c_colon] in
        if (encoded_len <? length encoded_key + 1)%nat then None else Some (Ok encoded_key).

Definition libnvmf_export_tls_key (key_data : list Z) : buffered (list Z) :=
  libnvmf_export_tls_key_versioned 1
    (if (length key_data =? 32)%nat then LIBNVMF_HMAC_ALG_SHA2_256 else LIBNVMF_HMAC_ALG_SHA2_384)
    key_data.

(** ** Import *)

(** ["%02x"] of [sscanf]: at most two characters behind the blanks. *)
Definition scan_02x (s : list Z) : option Z :=
  match drop_while isspace s with
  | a :: rest =>
      let b := char_at rest 0 in
      if isxdigit a then
        if isxdigit b then Some (digit_val a * 16 + digit_val b)
        else if (a =? c_0) && ((b =? c_x) || (b =? 88)) then None
        else Some (digit_val a)
      else if a =? c_plus then if isxdigit b then Some (digit_val b) else None
      else if a =? c_minus then if isxdigit b then Some (- digit_val b) else None
      else None
  | [] => None
  end.

(** [sscanf(s, "NVMeTLSkey-%d:%02x:*s", ...) == 2]: what follows the second
    number has no part in the result. *)
Definition scan_header (s : list Z) : option (Z * Z) :=
  rest ← scan_lit (lit "NVMeTLSkey-") s;
  let r := strtoll 10 rest in
  if negb (st_conv r) then None
  else
    rest ← scan_lit [c_colon] (st_end r);
    hmac ← scan_02x rest;
    Some (long_to_int (st_val r), hmac).

(** The switch on the hash: the algorithm, when the length of the text fits. *)
Definition import_alg (hmac : Z) (len : nat) : option libnvmf_hmac_alg :=
  if hmac =? 0 then
    if (len =? 65)%nat || (len =? 89)%nat then Some LIBNVMF_HMAC_ALG_NONE else None
  else if hmac =? 1 then if (len =? 65)%nat then Some LIBNVMF_HMAC_ALG_SHA2_256 else None
  else if hmac =? 2 then if (len =? 89)%nat then Some LIBNVMF_HMAC_ALG_SHA2_384 else None
  else None.

(** Offset of the base64 text, and the framing around it. *)
Definition key_offset : nat := 16.
Definition key_framing : nat := 17.

(** The most bytes [shr_base64_decode] writes for a text. *)
Definition decode_room (len : nat) : nat := (len * 6 / 8)%nat.

Definition libnvmf_import_tls_key_versioned (encoded_key : list Z) :
    buffered (Z * libnvmf_hmac_alg * list Z) :=
  match scan_header encoded_key with
  | None => Some (Err EINVAL)
  | Some (version, hmac) =>
      if negb (version =? 1) then Some (Err EINVAL)
      else
        let len := length encoded_key in
        match import_alg hmac len with
        | None => Some (Err EINVAL)
        | Some alg =>
            if (KEY_BUF_LEN <? decode_room (len - key_framing))%nat then None
            else
              match shr_base64_decode (take (len - key_framing) (drop key_offset encoded_key)) with
              | Err _ => Some (Err ENOKEY)
              | Ok decoded =>
                  let decoded_len := Z.of_nat (length decoded) - 4 in
                  if negb (decoded_len =? 32) && negb (decoded_len =? 48) then Some (Err ENOKEY)
                  else
                    let key := take (Z.to_nat decoded_len) decoded in
                    let key_crc := le (drop (Z.to_nat decoded_len) decoded) in
                    if negb (key_crc =? shr_crc32 (shr_crc32 0 []) key) then Some (Err ENOKEY)
                    else if negb (malloc (length key)) then Some (Err ENOMEM)
                    else Some (Ok (version, alg, key))
              end
        end
  end.

Definition libnvmf_import_tls_key (encoded_key : list Z) : buffered (libnvmf_hmac_alg * list Z) :=
  match libnvmf_import_tls_key_versioned encoded_key with
  | None => None
  | Some (Err e) => Some (Err e)
  | Some (Ok (_, hmac, key)) => Some (Ok (hmac, key))
  end.
End PskText.

(** ** Secrets *)

Section Secret.
(** [getrandom_bytes], the SHA-256 of OpenSSL, and [malloc]. *)
Context (getrandom_bytes : nat → result (list Z)) (sha256 : list Z → option (list Z)).
Context (malloc : nat → bool).

(** Big-endian bytes of the counter. *)
Definition be32 (v : Z) : list Z := rev (to_le 4 v).

(** The loop of [getswordfish], with the bytes that are left to copy. *)
Fixpoint swordfish_loop (fuel : nat) (seed : list Z) (left : nat) (counter : Z) : result (list Z) :=
  match fuel with
  | O => Err EIO
  | S fuel =>
      if (left =? 0)%nat then Ok []
      else
        match sha256 (seed ++ be32 counter) with
        | None => Err EIO
        | Some hash =>
            let to_copy := if (length hash <? left)%nat then length hash else left in
            rest ← swordfish_loop fuel seed (left - to_copy) (u32 (counter + 1));
            Ok (take to_copy hash ++ rest)
        end
  end.

(** Each round copies a byte or more. *)
Definition getswordfish (seed : list Z) (buflen : nat) : result (list Z) :=
  swordfish_loop (S buflen) seed buflen 0.

(** The loop over the digits: [n] bytes are in the buffer. *)
Fixpoint hex_secret (secret : list Z) (key_len n : nat) : result (list Z) :=
  match secret with
  | [] => Ok []
  | a :: rest =>
      let hi := shr_hex_to_int a in
      let lo := shr_hex_to_int (char_at rest 0) in
      if (hi <? 0) || (lo <? 0) then Err EINVAL
      else if (key_len <=? n)%nat then Ok []
      else
        match rest with
        | _ :: rest => bs ← hex_secret rest key_len (S n); Ok (Z.lor (Z.shiftl hi 4) lo :: bs)
        | [] => Err EINVAL
        end
  end.

Definition libnvmf_create_raw_secret (secret : option (list Z)) (key_len : nat) : result (list Z) :=
  if negb (key_len =? 32)%nat && negb (key_len =? 48)%nat && negb (key_len =? 64)%nat then Err EINVAL
  else
    buf ← match secret with
          | None => getrandom_bytes key_len
          | Some s =>
              if (length s <? 4)%nat then Err EINVAL
              else if bool_decide (take 4 s = lit "pin:") then getswordfish (drop 4 s) key_len
              else
                bs ← hex_secret s key_len 0;
                if (length bs =? key_len)%nat then Ok bs else Err EINVAL
          end;
    if malloc key_len then Ok buf else Err ENOMEM.
End Secret.

(** ** Lemmas *)

Lemma encode_length bs : length (Rfc4648.encode bs) = (4 * ((length bs + 2) / 3))%nat.
Proof.
  induction bs as [| | |a b c bs IH] using triple_ind; [done..|].
  cbn [Rfc4648.encode app length]. rewrite IH.
  replace (S (S (S (length bs))) + 2)%nat with (length bs + 2 + 1 * 3)%nat by lia.
  rewrite Nat.div_add by lia. lia.
Qed.

Lemma crc_bytes_bytes crc : bytes (crc_bytes crc).
Proof. unfold crc_bytes. repeat constructor; unfold is_byte; change 0xff with (Z.ones 8);
  rewrite Z.land_ones by lia; apply Z.mod_pos_bound; lia. Qed.

Lemma crc_bytes_le crc : word32 crc → le (crc_bytes crc) = crc.
Proof.
  intros Hw. unfold crc_bytes. change 0xff with (Z.ones 8). rewrite !Z.land_ones, !Z.shiftr_div_pow2 by lia.
  unfold le. unfold word32 in Hw. divmod.
Qed.

Lemma crc_word key : bytes key → word32 (shr_crc32 (shr_crc32 0 []) key).
Proof.
  intros Hk. unfold shr_crc32. rewrite crc32_loop_spec by done.
  apply word32_lxor; [|done]. apply word32_foldl; [apply poly_degree| |done]. vm_compute. done.
Qed.

(** The lengths the format allows. *)
Lemma export_len_cases hmac n :
  export_len_ok hmac n = true →
  (n = 32%nat ∨ n = 48%nat) ∧ import_alg (alg_value hmac) (17 + 4 * ((n + 6) / 3))%nat = Some hmac.
Proof.
  destruct hmac; cbn; [|intros ->%Nat.eqb_eq; auto..|done].
  intros [->%Nat.eqb_eq | ->%Nat.eqb_eq]%orb_true_iff; auto.
Qed.

(** A text with the framing of a key. *)
Lemma header_length version hmac :
  length (key_header version hmac) = if version <? 16 then 16%nat else 17%nat.
Proof. unfold key_header, print_x. by destruct (version <? 16). Qed.

Lemma scan_key_header hmac rest :
  scan_header (key_header 1 (alg_value hmac) ++ rest) = Some (1, alg_value hmac).
Proof. by destruct hmac. Qed.

Section Format.
Context (malloc : nat → bool) (Hmalloc : ∀ n, malloc n = true).

(** The bytes that are encoded. *)
Definition sealed (key : list Z) : list Z := key ++ crc_bytes (shr_crc32 (shr_crc32 0 []) key).

Lemma sealed_length key : length (sealed key) = (length key + 4)%nat.
Proof. unfold sealed. by rewrite length_app. Qed.

Lemma sealed_bytes key : bytes key → bytes (sealed key).
Proof. intros Hk. unfold sealed. apply bytes_app. split; [done|apply crc_bytes_bytes]. Qed.

Lemma sealed_text key :
  bytes key → length (shr_base64_encode (sealed key)) = (4 * ((length key + 6) / 3))%nat.
Proof.
  intros Hk. rewrite shr_base64_encode_rfc by by apply sealed_bytes.
  rewrite encode_length, sealed_length. do 2 f_equal. lia.
Qed.

(** Decoding, the length and the CRC. *)
Lemma unseal decoded :
  bytes decoded →
  (let decoded_len := Z.of_nat (length decoded) - 4 in
   (decoded_len =? 32) || (decoded_len =? 48) = true ∧
   le (drop (Z.to_nat decoded_len) decoded) =
     shr_crc32 (shr_crc32 0 []) (take (Z.to_nat decoded_len) decoded)) ↔
  ∃ key, decoded = sealed key ∧ (length key = 32 ∨ length key = 48)%nat.
Proof.
  intros Hb. cbv zeta. split.
  - intros [Hl Hcrc]. set (n := Z.to_nat (Z.of_nat (length decoded) - 4)) in *.
    exists (take n decoded).
    assert (Hn : (n = 32 ∨ n = 48)%nat ∧ length decoded = (n + 4)%nat).
    { apply orb_true_iff in Hl. rewrite !Z.eqb_eq in Hl. lia. }
    destruct Hn as [Hn Hlen]. split; [|rewrite length_take; lia].
    unfold sealed. rewrite <- (take_drop n decoded) at 1. f_equal. rewrite <- Hcrc.
    assert (Hd : bytes (drop n decoded)) by by apply Forall_drop.
    assert (Hd4 : length (drop n decoded) = 4%nat) by (rewrite length_drop; lia).
    rewrite <- (to_le_le _ Hd) at 1. rewrite Hd4.
    pose proof (le_bound _ Hd) as Hle. rewrite Hd4 in Hle.
    rewrite <- (crc_bytes_le (le (drop n decoded))) at 1 by (unfold word32; exact Hle).
    apply (to_le_le (crc_bytes _)), crc_bytes_bytes.
  - intros (key & -> & Hk). rewrite sealed_length.
    replace (Z.to_nat (Z.of_nat (length key + 4) - 4)) with (length key) by lia.
    split.
    + apply orb_true_iff. rewrite !Z.eqb_eq. lia.
    + unfold sealed. rewrite take_app_length, drop_app_length. apply crc_bytes_le, crc_word.
      apply bytes_app in Hb. by apply Hb.
Qed.

Lemma import_alg_inv hmac len a :
  import_alg hmac len = Some a →
  hmac = alg_value a ∧ ((len = 65%nat ∧ export_len_ok a 32 = true) ∨ (len = 89%nat ∧ export_len_ok a 48 = true)).
Proof.
  unfold import_alg. intros Ha.
  repeat match type of Ha with
         | (if ?b then _ else _) = _ => destruct b eqn:?
         end; try done; injection Ha as <-;
    rewrite ?orb_true_iff, ?Nat.eqb_eq, ?Z.eqb_eq in *; (split; [done|]); naive_solver.
Qed.

Lemma body_length (s : list Z) : (17 ≤ length s)%nat →
  length (take (length s - key_framing) (drop key_offset s)) = (length s - 17)%nat.
Proof. intros Hl. unfold key_framing, key_offset. rewrite length_take, length_drop. lia. Qed.

(** What [libnvmf_import_tls_key_versioned] accepts. *)
Definition key_text (s : list Z) (a : libnvmf_hmac_alg) (key : list Z) : Prop :=
  bytes key ∧ export_len_ok a (length key) = true ∧ scan_header s = Some (1, alg_value a) ∧
  length s = (17 + 4 * ((length key + 6) / 3))%nat ∧
  take (length s - key_framing) (drop key_offset s) = shr_base64_encode (sealed key).

Lemma import_complete s a key :
  key_text s a key → libnvmf_import_tls_key_versioned malloc s = Some (Ok (1, a, key)).
Proof.
  intros (Hb & Hok & Hh & Hl & Ht). destruct (export_len_cases _ _ Hok) as [Hn Ha].
  unfold libnvmf_import_tls_key_versioned. rewrite Hh. cbn [Z.eqb negb Pos.eqb]. rewrite Ht, Hl, Ha.
  replace (KEY_BUF_LEN <? _)%nat with false by (by destruct Hn as [-> | ->]).
  assert (Hd : shr_base64_decode (shr_base64_encode (sealed key)) = Ok (sealed key)).
  { apply shr_base64_decode_iff. split; [by apply sealed_bytes|done]. }
  rewrite Hd. cbv zeta.
  destruct (proj2 (unseal (sealed key) (sealed_bytes _ Hb)) (ex_intro _ key (conj eq_refl Hn))) as [Hlen Hcrc].
  cbv zeta in Hlen, Hcrc. rewrite Hcrc, Z.eqb_refl, Hmalloc, <- negb_orb, Hlen. cbn [negb].
  unfold sealed at 1 2. rewrite length_app.
  replace (Z.to_nat _) with (length key) by (cbn [crc_bytes length]; lia). by rewrite take_app_length.
Qed.

Lemma import_sound s v a key :
  libnvmf_import_tls_key_versioned malloc s = Some (Ok (v, a, key)) → v = 1 ∧ key_text s a key.
Proof.
  unfold libnvmf_import_tls_key_versioned. destruct (scan_header s) as [[v' h]|] eqn:Hh; [|done].
  destruct (Z.eqb_spec v' 1) as [->|]; [|done]. cbn [negb].
  destruct (import_alg h (length s)) as [a'|] eqn:Ha; [|done]. case_match; [done|].
  destruct (shr_base64_decode _) as [decoded|] eqn:Hd; [|done].
  apply shr_base64_decode_iff in Hd as [Hb Ht]. rewrite <- negb_orb.
  destruct (_ || _) eqn:Hlen; [|done]. cbn [negb].
  destruct (Z.eqb_spec (le (drop (Z.to_nat (Z.of_nat (length decoded) - 4)) decoded))
    (shr_crc32 (shr_crc32 0 []) (take (Z.to_nat (Z.of_nat (length decoded) - 4)) decoded))) as [Hcrc|]; [|done].
  rewrite Hmalloc. cbn [negb]. intros [= <- <- <-]. split; [done|].
  destruct (proj1 (unseal decoded Hb) (conj Hlen Hcrc)) as (key & -> & Hk).
  assert (Hbk : bytes key) by (apply bytes_app in Hb; by apply Hb).
  rewrite sealed_length. replace (Z.to_nat _) with (length key) by lia.
  assert (Htk : take (length key) (sealed key) = key) by (unfold sealed; apply take_app_length). rewrite Htk.
  destruct (import_alg_inv _ _ _ Ha) as [-> Hcase].
  pose proof (f_equal length Ht) as Hlt.
  rewrite body_length, sealed_text in Hlt by (done || lia).
  destruct Hk as [Hk|Hk]; rewrite Hk in *; cbn in Hlt;
    (destruct Hcase as [[Hs Hok]|[Hs Hok]]; [|]); try lia; split_and!; try done; by rewrite ?Hs, Hk.
Qed.
End Format.

Lemma export_text malloc version hmac key :
  (∀ n, malloc n = true) → bytes key → export_len_ok hmac (length key) = true →
  libnvmf_export_tls_key_versioned malloc version hmac key =
    Some (Ok (key_header version (alg_value hmac) ++ shr_base64_encode (sealed key) ++ [c_colon])).
Proof.
  intros Hm Hb Hok. unfold libnvmf_export_tls_key_versioned. rewrite Hok. cbn [negb].
  fold (sealed key). rewrite Hm, sealed_length. cbn [negb].
  rewrite !length_app, header_length, sealed_text by done.
  destruct (export_len_cases _ _ Hok) as [[-> | ->] _]; by destruct (version <? 16).
Qed.

Lemma exported_key_text hmac key :
  bytes key → export_len_ok hmac (length key) = true →
  key_text (key_header 1 (alg_value hmac) ++ shr_base64_encode (sealed key) ++ [c_colon]) hmac key.
Proof.
  intros Hb Hok. destruct (export_len_cases _ _ Hok) as [Hn _].
  assert (Hlen : length (key_header 1 (alg_value hmac) ++ shr_base64_encode (sealed key) ++ [c_colon]) =
            (17 + 4 * ((length key + 6) / 3))%nat).
  { rewrite !length_app, header_length, sealed_text by done. cbn [Z.ltb length]. cbn. lia. }
  split_and!; [done|done|apply scan_key_header|done|]. rewrite Hlen. unfold key_framing.
  replace (17 + 4 * ((length key + 6) / 3) - 17)%nat with (length (shr_base64_encode (sealed key)))
    by (rewrite sealed_text by done; lia).
  replace key_offset with (length (key_header 1 (alg_value hmac))) by by rewrite header_length.
  by rewrite drop_app_length, take_app_length.
Qed.

(** No call writes outside of its buffers, whatever the text. *)
Lemma import_in_bounds malloc s : libnvmf_import_tls_key_versioned malloc s ≠ None.
Proof.
  unfold libnvmf_import_tls_key_versioned.
  destruct (scan_header s) as [[v h]|]; [|done]. case_match; [done|].
  destruct (import_alg h (length s)) as [a|] eqn:Ha; [|done].
  replace (KEY_BUF_LEN <? _)%nat with false
    by (by destruct (import_alg_inv _ _ _ Ha) as [_ [[-> _]|[-> _]]]).
  repeat case_match; done.
Qed.

Lemma hex_digits_lor hi lo : 0 ≤ hi < 16 → 0 ≤ lo < 16 → Z.lor (Z.shiftl hi 4) lo = 16 * hi + lo.
Proof.
  intros Hh Hl. rewrite Z.shiftl_mul_pow2 by lia. pose proof (Z.add_lor_land (hi * 2 ^ 4) lo) as Ha.
  replace (Z.land (hi * 2 ^ 4) lo) with 0 in Ha; [lia|]. symmetry.
  rewrite <- (Z.mod_small lo (2 ^ 4)), <- Z.land_ones, (Z.land_comm lo), Z.land_assoc, Z.land_ones by lia.
  by rewrite Z.mod_mul.
Qed.

(** The digits of a secret: those of the key, and the pair behind them. *)
Lemma hex_secret_spec key_len m n secret bs :
  (n + m = key_len)%nat →
  (hex_secret secret key_len n = Ok bs ∧ length bs = m) ↔
  (HexSpec.pairs (take (2 * m) secret) = Some bs ∧ length bs = m ∧
   is_Some (HexSpec.pairs (take 2 (drop (2 * m) secret)))).
Proof.
  assert (Hr := shr_hex_to_int_range).
  revert n secret bs. induction m as [|m IH]; intros n secret bs Hn.
  - change (2 * 0)%nat with 0%nat. rewrite take_0, drop_0.
    destruct secret as [|x [|y s]]; cbn [hex_secret HexSpec.pairs take].
    + naive_solver.
    + replace (shr_hex_to_int (char_at [] 0) <? 0) with true by done. rewrite orb_true_r.
      split; [naive_solver|]. intros (_ & _ & []). done.
    + unfold HexSpec.digit. change (char_at (y :: s) 0) with y.
      destruct (shr_hex_to_int x <? 0); [split; [naive_solver|intros (_ & _ & [z Hz]); cbn in Hz; discriminate Hz]|].
      destruct (shr_hex_to_int y <? 0); [split; [naive_solver|intros (_ & _ & [z Hz]); cbn in Hz; discriminate Hz]|].
      cbn [orb mbind option_bind]. replace (key_len <=? n)%nat with true by (symmetry; apply Nat.leb_le; lia).
      naive_solver.
  - replace (2 * S m)%nat with (S (S (2 * m))) by lia.
    destruct secret as [|x [|y s]]; cbn [hex_secret HexSpec.pairs take drop].
    + split; [intros [[= <-] ?]; done|intros ([= <-] & ? & _); done].
    + replace (shr_hex_to_int (char_at [] 0) <? 0) with true by done. rewrite orb_true_r. naive_solver.
    + change (char_at (y :: s) 0) with y. unfold HexSpec.digit.
      destruct (Z.ltb_spec (shr_hex_to_int x) 0); [naive_solver|].
      destruct (Z.ltb_spec (shr_hex_to_int y) 0); [naive_solver|]. cbn [orb mbind option_bind].
      replace (key_len <=? n)%nat with false by (symmetry; apply Nat.leb_gt; lia).
      rewrite hex_digits_lor by (split; [done|apply Hr]). split.
      * intros [Hs Hl]. apply bind_Ok in Hs as (bs' & Hs & [= <-]). cbn in Hl.
        assert (Hl' : length bs' = m) by lia. assert (Hn' : (S n + m)%nat = key_len) by lia.
        destruct (proj1 (IH (S n) s bs' Hn') (conj Hs Hl')) as (Hp & _ & Hd). rewrite Hp. cbn. auto.
      * intros (Hs & Hl & Hd). destruct (HexSpec.pairs (take (2 * m) s)) as [bs'|] eqn:Hp; [|done].
        cbn in Hs. injection Hs as <-. cbn in Hl.
        assert (Hl' : length bs' = m) by lia. assert (Hn' : (S n + m)%nat = key_len) by lia.
        destruct (proj2 (IH (S n) s bs' Hn') (conj Hp (conj Hl' Hd))) as [Hs _]. rewrite Hs. cbn. auto.
Qed.

(** ** Properties *)

(** C21: A key that is exported in the interchange format is imported back
    with its hash and its bytes, for each hash and each key length the format
    has; neither call writes outside of its buffers. *)
Theorem psk_roundtrip malloc hmac key :
  (∀ n, malloc n = true) → bytes key → export_len_ok hmac (length key) = true →
  ∃ text, libnvmf_export_tls_key_versioned malloc 1 hmac key = Some (Ok text) ∧
          libnvmf_import_tls_key_versioned malloc text = Some (Ok (1, hmac, key)).
Proof.
  intros Hm Hb Hok. eexists. split; [by apply export_text|].
  apply import_complete; [done|]. by apply exported_key_text.
Qed.

Lemma psk_roundtrip_witness :
  ∃ text, libnvmf_export_tls_key_versioned (λ _, true) 1 LIBNVMF_HMAC_ALG_SHA2_256 (replicate 32 7) = Some (Ok text) ∧
    libnvmf_import_tls_key_versioned (λ _, true) text = Some (Ok (1, LIBNVMF_HMAC_ALG_SHA2_256, replicate 32 7)).
Proof.
  apply (psk_roundtrip (λ _, true) LIBNVMF_HMAC_ALG_SHA2_256 (replicate 32 7)); [done| |done].
  apply Forall_replicate. unfold is_byte. lia.
Defined.

(** *** The header [sscanf] reads *)

(** What ["%02x"] reads of a text: two hexadecimal digits, one that no other
    follows, or a sign and one digit. *)
Inductive hash_field : list Z → list Z → Z → Prop :=
| hash_two a b rest : isxdigit a = true → isxdigit b = true →
    hash_field [a; b] rest (16 * digit_val a + digit_val b)
| hash_one a rest : isxdigit a = true → isxdigit (char_at rest 0) = false →
    ¬ (a = 48 ∧ (char_at rest 0 = 120 ∨ char_at rest 0 = 88)) → hash_field [a] rest (digit_val a)
| hash_plus b rest : isxdigit b = true → hash_field [c_plus; b] rest (digit_val b)
| hash_minus b rest : isxdigit b = true → hash_field [c_minus; b] rest (- digit_val b).

(** The texts whose header is read as version 1 and a hash: blanks are allowed
    in front of both, signs too, and the version counts modulo [2^32]. *)
Definition header_text (s : list Z) (hash : Z) : Prop :=
  ∃ b1 sign ds b2 h rest,
    s = lit "NVMeTLSkey-" ++ b1 ++ sign ++ ds ++ [c_colon] ++ b2 ++ h ++ rest ∧
    forallb isspace b1 = true ∧ forallb isspace b2 = true ∧ ds ≠ [] ∧ forallb isdigit ds = true ∧
    (∃ v, (((sign = [] ∨ sign = [c_plus]) ∧ v = Numeral.value 10 ds) ∨
           (sign = [c_minus] ∧ v = - Numeral.value 10 ds)) ∧ (- 2 ^ 63 ≤ v < 2 ^ 63) ∧ v mod 2 ^ 32 = 1) ∧
    hash_field h rest hash.

Lemma isxdigit_not c : isxdigit c = true → isspace c = false ∧ c ≠ c_plus ∧ c ≠ c_minus.
Proof.
  unfold isxdigit, isdigit, isspace. intros Hx. repeat rewrite ?orb_true_iff, ?andb_true_iff, ?Z.leb_le in Hx.
  rewrite orb_false_iff, andb_false_iff, Z.eqb_neq, !Z.leb_gt. lia.
Qed.

Lemma scan_02x_field s v :
  scan_02x s = Some v ↔ ∃ b h rest, s = b ++ h ++ rest ∧ forallb isspace b = true ∧ hash_field h rest v.
Proof.
  unfold scan_02x. split.
  - destruct (drop_while isspace s) as [|a t] eqn:E; [done|]. intros Hv.
    assert (Hs : s = take_while isspace s ++ a :: t) by (by rewrite <- E, take_while_drop_while).
    assert (Hb : forallb isspace (take_while isspace s) = true).
    { clear. induction s as [|c s IH]; [done|]. cbn [take_while]. destruct (isspace c) eqn:E; [|done].
      cbn [forallb]. by rewrite E. }
    exists (take_while isspace s). clear E. destruct (isxdigit a) eqn:Ea.
    + destruct (isxdigit (char_at t 0)) eqn:Eb.
      * destruct t as [|b t]; [done|]. cbn in Eb. exists [a; b], t. split_and!; [done..|].
        injection Hv as <-. rewrite Z.mul_comm. by constructor.
      * destruct (_ && _) eqn:Ex; [done|]. injection Hv as <-. exists [a], t. split_and!; [done..|].
        constructor; [done..|]. intros [-> Hx]. cbn in Ex. rewrite orb_false_iff, !Z.eqb_neq in Ex. tauto.
    + destruct (Z.eqb_spec a c_plus) as [->|].
      { destruct (isxdigit (char_at t 0)) eqn:Eb; [|done]. destruct t as [|b t]; [done|].
        injection Hv as <-. exists [c_plus; b], t. split_and!; [done..|]. by constructor. }
      destruct (Z.eqb_spec a c_minus) as [->|]; [|done].
      destruct (isxdigit (char_at t 0)) eqn:Eb; [|done]. destruct t as [|b t]; [done|].
      injection Hv as <-. exists [c_minus; b], t. split_and!; [done..|]. by constructor.
  - intros (b & h & rest & -> & Hb & Hh). destruct Hh as [a c rest Ha Hc|a rest Ha Hr Hx|c rest Hc|c rest Hc].
    + rewrite drop_while_app by (done || (right; by apply isxdigit_not)). cbn. rewrite Ha, Hc. do 2 f_equal. lia.
    + rewrite drop_while_app by (done || (right; by apply isxdigit_not)). cbn [app]. rewrite Ha, Hr.
      replace (_ && _) with false; [done|]. symmetry. apply andb_false_iff. rewrite orb_false_iff, !Z.eqb_neq.
      destruct (decide (a = 48)); [right|by left]. tauto.
    + rewrite drop_while_app by (done || by right). cbn. by rewrite Hc.
    + rewrite drop_while_app by (done || by right). cbn. by rewrite Hc.
Qed.

Lemma scan_lit_iff l s r : scan_lit l s = Some r ↔ s = l ++ r.
Proof.
  unfold scan_lit. split.
  - case_bool_decide as E; [|done]. intros [= <-]. rewrite <- E at 1. by rewrite take_drop.
  - intros ->. by rewrite take_app_length, drop_app_length, bool_decide_true.
Qed.

Lemma long_to_int_one v : long_to_int v = 1 ↔ v mod 2 ^ 32 = 1.
Proof.
  unfold long_to_int, to_signed, u32. pose proof (Z.mod_pos_bound v (2 ^ 32) ltac:(lia)).
  destruct (Z.ltb_spec (v mod 2 ^ 32) (2 ^ (32 - 1))); lia.
Qed.

(** The version: in the range of a [long], and 1 as an [int]. *)
Lemma strtoll_one s rest :
  (let r := strtoll 10 s in st_conv r = true ∧ st_end r = rest ∧ long_to_int (st_val r) = 1) ↔
  ∃ neg m, scan_int 10 s = Some (neg, m, rest) ∧
    (let v := if neg then - m else m in (- 2 ^ 63 ≤ v < 2 ^ 63) ∧ v mod 2 ^ 32 = 1).
Proof.
  unfold strtoll. cbv zeta. destruct (scan_int 10 s) as [[[neg m] r]|]; [|cbn; naive_solver].
  set (v := if neg then - m else m). unfold INT64_MAX, INT64_MIN.
  assert (Hv : ∀ P : Prop, (∃ neg0 m0, Some (neg, m, r) = Some (neg0, m0, rest) ∧
      (let v := if neg0 then - m0 else m0 in (- 2 ^ 63 ≤ v < 2 ^ 63) ∧ v mod 2 ^ 32 = 1)) ↔
      r = rest ∧ (- 2 ^ 63 ≤ v < 2 ^ 63) ∧ v mod 2 ^ 32 = 1) by naive_solver.
  rewrite (Hv True). destruct (Z.ltb_spec (2 ^ 63 - 1) v); cbn [st_conv st_end st_val].
  { split; [|lia]. intros (_ & _ & Hl). by vm_compute in Hl. }
  destruct (Z.ltb_spec v (- 2 ^ 63)); cbn [st_conv st_end st_val].
  { split; [|lia]. intros (_ & _ & Hl). by vm_compute in Hl. }
  rewrite long_to_int_one. split; intros; split_and!; try tauto; lia.
Qed.

Lemma header_text_iff s hash : scan_header s = Some (1, hash) ↔ header_text s hash.
Proof.
  unfold scan_header. split.
  - destruct (scan_lit (lit "NVMeTLSkey-") s) as [t|] eqn:E1; [|done]. apply scan_lit_iff in E1 as ->.
    cbn [mbind option_bind]. cbv zeta. destruct (st_conv (strtoll 10 t)) eqn:Ec; [|done]. cbn [negb].
    destruct (scan_lit [c_colon] _) as [u|] eqn:E2; [|done]. cbn [mbind option_bind]. apply scan_lit_iff in E2.
    destruct (scan_02x u) as [h|] eqn:E3; [|done]. cbn [mbind option_bind]. intros [= Hl <-].
    destruct (proj1 (strtoll_one t (st_end (strtoll 10 t)))) as (neg & m & Hs & Hv); [done|].
    apply scan_int_10 in Hs as (b1 & sign & ds & Ht & Hb1 & Hne & Hd & _ & -> & Hsign).
    apply scan_02x_field in E3 as (b2 & hh & rest & -> & Hb2 & Hh).
    exists b1, sign, ds, b2, hh, rest. rewrite Ht, E2. split_and!; [done..| |done].
    exists (if neg then - Numeral.value 10 ds else Numeral.value 10 ds). split; [|exact Hv].
    destruct neg; [right|left]; done.
  - intros (b1 & sign & ds & b2 & h & rest & -> & Hb1 & Hb2 & Hne & Hd & (v & Hs & Hr & Hv) & Hh).
    set (t := b1 ++ sign ++ ds ++ [c_colon] ++ b2 ++ h ++ rest).
    replace (scan_lit (lit "NVMeTLSkey-") _) with (Some t) by (symmetry; by apply scan_lit_iff).
    cbn [mbind option_bind]. cbv zeta.
    destruct (proj2 (strtoll_one t ([c_colon] ++ b2 ++ h ++ rest))) as (Hc & He & Hl).
    { exists (bool_decide (sign = [c_minus])), (Numeral.value 10 ds). split.
      - apply scan_int_10. exists b1, sign, ds. split_and!; try done.
        destruct Hs as [[Hs _]|[-> _]]; [|by rewrite bool_decide_true].
        rewrite bool_decide_false by (by destruct Hs as [-> | ->]). done.
      - destruct Hs as [[Hs ->]|[-> ->]]; [|by rewrite bool_decide_true].
        rewrite bool_decide_false by (by destruct Hs as [-> | ->]). done. }
    rewrite Hc, He, Hl. cbn [negb].
    replace (scan_lit [c_colon] _) with (Some (b2 ++ h ++ rest)) by (symmetry; by apply scan_lit_iff).
    cbn [mbind option_bind]. rewrite (proj2 (scan_02x_field (b2 ++ h ++ rest) hash)); [done|].
    by exists b2, h, rest.
Qed.

(** A key of the interchange format: its hash and its length, and the bytes that
    are encoded: the key and its CRC-32, the low byte first. *)
Definition key_of_hash (a : libnvmf_hmac_alg) (key : list Z) : Prop :=
  bytes key ∧
  match a with
  | LIBNVMF_HMAC_ALG_NONE => length key = 32%nat ∨ length key = 48%nat
  | LIBNVMF_HMAC_ALG_SHA2_256 => length key = 32%nat
  | LIBNVMF_HMAC_ALG_SHA2_384 => length key = 48%nat
  | LIBNVMF_HMAC_ALG_SHA2_512 => False
  end.
Definition key_base64 (key : list Z) : list Z := Rfc4648.encode (key ++ to_le 4 (shr_crc32 0 key)).

(** The format of the comment: version 1, two digits of the hash, the key. *)
Definition interchange (a : libnvmf_hmac_alg) (key : list Z) : list Z :=
  lit "NVMeTLSkey-1:0" ++ [48 + alg_value a] ++ lit ":" ++ key_base64 key ++ lit ":".

Lemma key_of_hash_ok a key : key_of_hash a key ↔ bytes key ∧ export_len_ok a (length key) = true.
Proof. unfold key_of_hash. destruct a; cbn; rewrite ?orb_true_iff, ?Nat.eqb_eq; naive_solver. Qed.

Lemma key_base64_sealed key : bytes key → key_base64 key = shr_base64_encode (sealed key).
Proof.
  intros Hb. rewrite shr_base64_encode_rfc by by apply sealed_bytes. unfold key_base64, sealed. do 2 f_equal.
  change (shr_crc32 0 []) with 0. pose proof (crc_word key Hb) as Hw. change (shr_crc32 0 []) with 0 in Hw.
  rewrite <- (crc_bytes_le _ Hw) at 1. apply (to_le_le (crc_bytes _)), crc_bytes_bytes.
Qed.

Lemma key_text_iff s a key :
  key_text s a key ↔
  key_of_hash a key ∧ header_text s (alg_value a) ∧ length s = (17 + length (key_base64 key))%nat ∧
  take (length (key_base64 key)) (drop 16 s) = key_base64 key.
Proof.
  unfold key_text. rewrite key_of_hash_ok, <- header_text_iff. split.
  - intros (Hb & Hok & Hh & Hl & Ht). rewrite key_base64_sealed by done.
    assert (Hlen : length (shr_base64_encode (sealed key)) = (length s - 17)%nat)
      by (rewrite sealed_text by done; lia).
    rewrite Hlen. split_and!; try done. lia.
  - intros ([Hb Hok] & Hh & Hl & Ht). rewrite key_base64_sealed in * by done.
    rewrite sealed_text in Hl by done. split_and!; try done. etransitivity; [|exact Ht]. f_equal.
    rewrite sealed_text by done. unfold key_framing. lia.
Qed.

(** One digit of the version and two of the hash. *)
Lemma scan_digits_header c x y t :
  isdigit c = true → isdigit x = true → isdigit y = true →
  scan_header (lit "NVMeTLSkey-" ++ [c; c_colon; x; y; c_colon] ++ t) =
  Some (c - 48, 16 * (x - 48) + (y - 48)).
Proof.
  intros Hc Hx Hy. unfold scan_header.
  replace (scan_lit (lit "NVMeTLSkey-") _) with (Some ([c; c_colon; x; y; c_colon] ++ t))
    by (symmetry; by apply scan_lit_iff).
  cbn [mbind option_bind]. cbv zeta. unfold strtoll.
  assert (Hs : scan_int 10 ([c; c_colon; x; y; c_colon] ++ t) = Some (false, c - 48, [c_colon; x; y; c_colon] ++ t)).
  { apply scan_int_10. exists [], [], [c]. split_and!; try done; [by cbn; rewrite Hc| |by left].
    unfold Numeral.value. cbn. by rewrite digit_val_of_digit. }
  rewrite Hs. apply isdigit_range in Hc. unfold INT64_MAX, INT64_MIN.
  rewrite !(proj2 (Z.ltb_ge _ _)) by lia. cbn [st_conv st_end st_val negb].
  replace (scan_lit [c_colon] _) with (Some ([x; y; c_colon] ++ t)) by (symmetry; by apply scan_lit_iff).
  cbn [mbind option_bind].
  assert (Hxd : ∀ d, isdigit d = true → isxdigit d = true) by (intros d Hd; unfold isxdigit; by rewrite Hd).
  rewrite (proj2 (scan_02x_field _ (16 * digit_val x + digit_val y))).
  - cbn [mbind option_bind]. rewrite !digit_val_of_digit by done. by rewrite long_to_int_id by lia.
  - exists [], [x; y], (c_colon :: t). split_and!; [done..|]. constructor; auto.
Qed.

Lemma interchange_header a key : interchange a key = key_header 1 (alg_value a) ++ key_base64 key ++ [c_colon].
Proof. by destruct a. Qed.

Lemma framed_iff s a key c x y t :
  s = lit "NVMeTLSkey-" ++ [c; c_colon; x; y; c_colon] ++ t ++ [c_colon] →
  isdigit c = true → isdigit x = true → isdigit y = true →
  key_text s a key ↔ key_of_hash a key ∧ s = interchange a key.
Proof.
  intros Hs Hc Hx Hy. split.
  - intros Ht. pose proof Ht as (_ & _ & Hh & _). apply key_text_iff in Ht as (Hk & _ & Hl & Hb).
    split; [done|]. rewrite Hs, scan_digits_header in Hh by done. injection Hh as Hv Ha.
    rewrite interchange_header. rewrite isdigit_range in *.
    rewrite Hs in Hl, Hb. rewrite !length_app in Hl. cbn [length] in Hl.
    change (length (lit "NVMeTLSkey-")) with 11%nat in Hl.
    replace (drop 16 _) with (t ++ [c_colon]) in Hb by done.
    rewrite take_app_le, take_ge in Hb by lia. rewrite Hs, Hb.
    assert (c = 49) as -> by lia. assert (x = 48 ∧ y = 48 + alg_value a) as [-> ->] by (destruct a; cbn in *; lia).
    by destruct a.
  - intros [Hk ->]. apply key_of_hash_ok in Hk as [Hb Hok].
    rewrite interchange_header, key_base64_sealed by done. by apply exported_key_text.
Qed.

(** C22: What the importer accepts, when memory for the key is there.  A text
    of the documented shape, "NVMeTLSkey-", a digit, a colon, two digits, a
    colon, anything and a colon, is accepted exactly when it is the text of a
    key: version 1, the hash of the key, and the base64 text of the key with
    its CRC-32.  The importer accepts more than the documented shape, and
    exactly this: a header that [sscanf] reads as version 1 and a hash, with
    blanks and signs in front of either number and one digit instead of two; the
    length of the text of a key of that hash; and, behind the first sixteen
    characters, the base64 text of the key with its CRC-32 and one
    character of any kind.  So a text has one key.  It writes outside of its
    buffer for no text. *)
Theorem psk_import_iff malloc s v a key :
  (∀ n, malloc n = true) →
  libnvmf_import_tls_key_versioned malloc s ≠ None ∧
  (libnvmf_import_tls_key_versioned malloc s = Some (Ok (v, a, key)) ↔
   v = 1 ∧ key_of_hash a key ∧ header_text s (alg_value a) ∧ length s = (17 + length (key_base64 key))%nat ∧
   take (length (key_base64 key)) (drop 16 s) = key_base64 key) ∧
  (∀ c x y t, s = lit "NVMeTLSkey-" ++ [c; c_colon; x; y; c_colon] ++ t ++ [c_colon] →
   isdigit c = true → isdigit x = true → isdigit y = true →
   libnvmf_import_tls_key_versioned malloc s = Some (Ok (v, a, key)) ↔
   v = 1 ∧ key_of_hash a key ∧ s = interchange a key).
Proof.
  intros Hm. assert (Hi : libnvmf_import_tls_key_versioned malloc s = Some (Ok (v, a, key)) ↔ v = 1 ∧ key_text s a key).
  { split; [by apply import_sound|]. intros [-> Ht]. by apply import_complete. }
  split; [apply import_in_bounds|]. split; [by rewrite Hi, key_text_iff|].
  intros c x y t Hs Hc Hx Hy. rewrite Hi. by rewrite (framed_iff s a key c x y t).
Qed.

Definition zero_key_text : list Z :=
  lit "NVMeTLSkey-1:01:AAAAAAAAAAAAAAAAAAAAAAAAAAAAAAAAAAAAAAAAAACtVQoZ:".

Lemma psk_import_iff_witness :
  libnvmf_import_tls_key_versioned (λ _, true) zero_key_text =
    Some (Ok (1, LIBNVMF_HMAC_ALG_SHA2_256, replicate 32 0)) ∧
  zero_key_text = interchange LIBNVMF_HMAC_ALG_SHA2_256 (replicate 32 0).
Proof.
  assert (Hi : libnvmf_import_tls_key_versioned (λ _, true) zero_key_text =
    Some (Ok (1, LIBNVMF_HMAC_ALG_SHA2_256, replicate 32 0))) by (vm_compute; reflexivity).
  split; [exact Hi|].
  destruct (psk_import_iff (λ _, true) zero_key_text 1 LIBNVMF_HMAC_ALG_SHA2_256 (replicate 32 0)) as (_ & _ & Hd);
    [done|].
  apply (Hd 49 48 49 (take 48 (drop 16 zero_key_text)));
    [vm_compute; reflexivity|reflexivity|reflexivity|reflexivity|exact Hi].
Defined.

(** The CRC catches a change of one byte of the key: the text with the
    changed byte and the CRC of the key is refused. *)
Theorem psk_detects_byte malloc hmac p b1 b2 q :
  bytes p → bytes q → is_byte b1 → is_byte b2 → b1 ≠ b2 →
  export_len_ok hmac (length (p ++ b1 :: q)) = true →
  libnvmf_import_tls_key_versioned malloc
    (key_header 1 (alg_value hmac) ++
     shr_base64_encode ((p ++ b2 :: q) ++ crc_bytes (shr_crc32 (shr_crc32 0 []) (p ++ b1 :: q))) ++ [c_colon]) =
    Some (Err ENOKEY).
Proof.
  intros Hp Hq H1 H2 Hne Hok. set (k1 := p ++ b1 :: q) in *. set (k2 := p ++ b2 :: q).
  set (raw := k2 ++ crc_bytes (shr_crc32 (shr_crc32 0 []) k1)).
  assert (Hlk : length k1 = length k2) by (subst k1 k2; by rewrite !length_app).
  assert (Hb1 : bytes k1) by (subst k1; by rewrite bytes_app, bytes_cons).
  assert (Hb2 : bytes k2) by (subst k2; by rewrite bytes_app, bytes_cons).
  assert (Hraw : bytes raw) by (apply bytes_app; split; [done|apply crc_bytes_bytes]).
  assert (Hlr : length raw = (length k1 + 4)%nat) by (subst raw; rewrite length_app, Hlk; done).
  assert (Hle : length (shr_base64_encode raw) = (4 * ((length k1 + 6) / 3))%nat).
  { rewrite shr_base64_encode_rfc, encode_length, Hlr by done. do 2 f_equal. lia. }
  assert (Hlen : length (key_header 1 (alg_value hmac) ++ shr_base64_encode raw ++ [c_colon]) =
            (17 + 4 * ((length k1 + 6) / 3))%nat).
  { rewrite !length_app, header_length, Hle. cbn [Z.ltb length]. cbn. lia. }
  destruct (export_len_cases _ _ Hok) as [Hn Ha].
  unfold libnvmf_import_tls_key_versioned. rewrite scan_key_header. cbn [Z.eqb negb Pos.eqb].
  rewrite Hlen, Ha. replace (KEY_BUF_LEN <? _)%nat with false by (by destruct Hn as [-> | ->]).
  replace (take _ _) with (shr_base64_encode raw).
  2:{ replace key_offset with (length (key_header 1 (alg_value hmac))) by by rewrite header_length.
      rewrite drop_app_length. unfold key_framing.
      replace (17 + 4 * ((length k1 + 6) / 3) - 17)%nat with (length (shr_base64_encode raw)) by lia.
      by rewrite take_app_length. }
  rewrite (proj2 (shr_base64_decode_iff _ raw) (conj Hraw eq_refl)), Hlr.
  replace (Z.of_nat (length k1 + 4) - 4) with (Z.of_nat (length k1)) by lia.
  case_match; [done|]. rewrite Nat2Z.id. subst raw. rewrite Hlk, take_app_length, drop_app_length.
  rewrite crc_bytes_le by by apply crc_word.
  destruct (Z.eqb_spec (shr_crc32 (shr_crc32 0 []) k1) (shr_crc32 (shr_crc32 0 []) k2)) as [Heq|]; [|done].
  exfalso. revert Heq. subst k1 k2. by apply shr_crc32_detects_byte_error.
Qed.

(** The secret of digits is the bytes of its first [2 * key_len] digits; what
    follows them is ignored but for the next pair, which must be digits. *)
Theorem raw_secret_digits getrandom_bytes sha256 malloc s key_len key :
  (∀ n, malloc n = true) → (4 ≤ length s)%nat → take 4 s ≠ lit "pin:" →
  key_len ∈ [32; 48; 64]%nat →
  libnvmf_create_raw_secret getrandom_bytes sha256 malloc (Some s) key_len = Ok key ↔
  HexSpec.pairs (take (2 * key_len) s) = Some key ∧ length key = key_len ∧
  is_Some (HexSpec.pairs (take 2 (drop (2 * key_len) s))).
Proof.
  intros Hm H4 Hpin Hk. rewrite <- (hex_secret_spec key_len key_len 0) by lia.
  unfold libnvmf_create_raw_secret.
  replace (negb _ && negb _ && negb _) with false.
  2:{ rewrite !elem_of_cons in Hk. by destruct Hk as [-> | [-> | [-> | []%elem_of_nil]]]. }
  replace (length s <? 4)%nat with false by (symmetry; apply Nat.ltb_ge; lia).
  rewrite bool_decide_false, Hm by done. destruct (hex_secret s key_len 0) as [bs|e]; cbn; [|naive_solver].
  destruct (Nat.eqb_spec (length bs) key_len); cbn; naive_solver.
Qed.

(** The text need not end with a colon, nor have both digits of the hash. *)
Fact psk_import_lenient :
  libnvmf_import_tls_key_versioned (λ _, true)
    (lit "NVMeTLSkey-1:1::AAAAAAAAAAAAAAAAAAAAAAAAAAAAAAAAAAAAAAAAAACtVQoZ?") =
  Some (Ok (1, LIBNVMF_HMAC_ALG_SHA2_256, replicate 32 0)).
Proof. vm_compute. reflexivity. Qed.
