(* ===== verification/TlsKey.v ===== *)
(** * TLS keys and their identities: [libnvme/src/nvme/crypto.c]

    A retained key and a TLS key are derived from a configured one with HKDF;
    the identity under which the key is stored names the two NQNs and, in
    version 1, a digest of the key. *)

From Stdlib Require Import String.
From stdpp Require Import base list numbers.
From S2P Require Import Prelude.
From S2P Require Import CStr.
From S2P Require Import Printf.
From S2P Require Import Hex.
From S2P Require Import Base64.
From S2P Require Import Psk.

(** ** Calls that write into buffers *)

Definition buf_bind {A B} (m : option (result A)) (f : A → option (result B)) : option (result B) :=
  match m with
  | None => None
  | Some (Err e) => Some (Err e)
  | Some (Ok a) => f a
  end.

Declare Scope buf_scope.
Notation "'let?' x ':=' m 'in' k" := (buf_bind m (λ x, k))
  (at level 10, x pattern, m at level 100, k at level 200) : buf_scope.
#[local] Open Scope buf_scope.

(** Fails unless the condition holds; is outside of a buffer unless it holds. *)
Definition need (b : bool) (e : errno) : option (result unit) := Some (if b then Ok tt else Err e).
Definition in_room (b : bool) : option (result unit) := if b then Some (Ok tt) else None.

(** ** OpenSSL *)

(** HKDF with SHA-256 or SHA-384, HMAC with an output buffer of a size, and
    whether the contexts can be made and take the digest and the key. *)
Class Ossl := {
  hkdf : libnvmf_hmac_alg → list Z → list Z → nat → option (list Z);
  hmac_final : libnvmf_hmac_alg → list Z → list Z → nat → option (list Z);
  ctx_new : bool;
  hkdf_setup : libnvmf_hmac_alg → list Z → bool;
  ossl_malloc : nat → bool }.

(** The size of the output of a hash. *)
Definition md_size (a : libnvmf_hmac_alg) : nat :=
  match a with
  | LIBNVMF_HMAC_ALG_NONE => 0
  | LIBNVMF_HMAC_ALG_SHA2_256 => 32
  | LIBNVMF_HMAC_ALG_SHA2_384 => 48
  | LIBNVMF_HMAC_ALG_SHA2_512 => 64
  end.

(** HKDF gives as many bytes as it was asked for, HMAC as many as the hash has. *)
Class OsslLaws `{Ossl} : Prop := {
  hkdf_bytes a key info n r : hkdf a key info n = Some r → length r = n ∧ bytes r;
  hmac_bytes a key msg n r : hmac_final a key msg n = Some r → length r = md_size a ∧ bytes r }.

(** ** Derivation *)

Definition HKDF_INFO_MAX_LEN : nat := 514.
Definition HKDF_INFO_LABEL_MAX : nat := 256.
Definition HKDF_INFO_CONTEXT_MAX : nat := 256.
Definition USHRT_MAX : Z := 65535.

Definition default_hmac (key_len : nat) : libnvmf_hmac_alg :=
  if (key_len =? 32)%nat then LIBNVMF_HMAC_ALG_SHA2_256
  else if (key_len =? 48)%nat then LIBNVMF_HMAC_ALG_SHA2_384
  else if (key_len =? 64)%nat then LIBNVMF_HMAC_ALG_SHA2_512
  else LIBNVMF_HMAC_ALG_NONE.

(** [select_hmac] knows the hash. *)
Definition select_hmac (a : libnvmf_hmac_alg) : bool :=
  match a with LIBNVMF_HMAC_ALG_SHA2_256 | LIBNVMF_HMAC_ALG_SHA2_384 => true | _ => false end.

(** [snprintf(pos, max + 1, ...)] at the end of [info], and the test of its
    result: what is written ends in a NUL and is in the buffer. *)
Definition add_info (max : nat) (info text : list Z) : option (result (list Z)) :=
  let? _ := in_room (length info + min (length text) max + 1 <=? HKDF_INFO_MAX_LEN + 1)%nat in
  let? _ := need ((0 <? length text)%nat && (length text <=? max)%nat) ENOKEY in
  Some (Ok (info ++ text)).

(** ["%c%s"] with the length. *)
Definition counted (s : list Z) : list Z := u8 (Z.of_nat (length s)) :: s.
(** [htons] and [cpu_to_le16]. *)
Definition be16 (n : nat) : list Z := [Z.of_nat n / 256 mod 256; Z.of_nat n mod 256].
Definition le16 (n : nat) : list Z := [Z.of_nat n mod 256; Z.of_nat n / 256 mod 256].
(** ["%02d"]. *)
Definition print_02d (v : Z) : list Z := if v <? 10 then [c_0; c_0 + v] else print_int v.

Section Derive.
Context `{Ossl}.

Definition malloc_ (n : nat) : option (result unit) := need (ossl_malloc n) ENOMEM.
Definition derive (a : libnvmf_hmac_alg) (key info : list Z) : option (result (list Z)) :=
  Some (match hkdf a key info (length key) with Some r => Ok r | None => Err ENOKEY end).

Definition derive_retained_key (hmac : libnvmf_hmac_alg) (hostnqn configured : list Z) :
    option (result (list Z)) :=
  let key_len := length configured in
  let? _ := malloc_ (HKDF_INFO_MAX_LEN + 1) in
  if bool_decide (hmac = LIBNVMF_HMAC_ALG_NONE) then Some (Ok configured)
  else
    let? _ := need (select_hmac hmac) EINVAL in
    let? _ := need ctx_new ENOMEM in
    let? _ := need (hkdf_setup hmac configured) ENOKEY in
    let? _ := need (Z.of_nat key_len <=? USHRT_MAX) EINVAL in
    let? info := add_info HKDF_INFO_LABEL_MAX (be16 key_len) (counted (lit "tls13 HostNQN")) in
    let? info := add_info HKDF_INFO_CONTEXT_MAX info (counted hostnqn) in
    derive hmac configured info.

Definition derive_retained_key_compat (hmac : libnvmf_hmac_alg) (hostnqn configured : list Z) :
    option (result (list Z)) :=
  if bool_decide (hmac = LIBNVMF_HMAC_ALG_NONE) then Some (Ok configured)
  else
    let? _ := need (select_hmac hmac) EINVAL in
    let? _ := need ctx_new ENOMEM in
    let? _ := need (hkdf_setup hmac configured) ENOKEY in
    let? _ := malloc_ (HKDF_INFO_MAX_LEN + 1) in
    let? info := add_info HKDF_INFO_LABEL_MAX (le16 (length configured)) (lit "tls13 HostNQN" ++ hostnqn) in
    derive hmac configured info.

(** The context of the TLS key in each version. *)
Definition tls_context (version : Z) (cipher : libnvmf_hmac_alg) (context : list Z) : option (list Z) :=
  if version =? 0 then Some context
  else if version =? 1 then Some (print_02d (alg_value cipher) ++ [32] ++ context)
  else None.

Definition derive_tls_key (version : Z) (cipher : libnvmf_hmac_alg) (context retained : list Z) :
    option (result (list Z)) :=
  let key_len := length retained in
  let? _ := malloc_ (HKDF_INFO_MAX_LEN + 1) in
  let? _ := need (select_hmac cipher) EINVAL in
  let? _ := need ctx_new ENOMEM in
  let? _ := need (hkdf_setup cipher retained) ENOKEY in
  let? _ := need (Z.of_nat key_len <=? USHRT_MAX) EINVAL in
  let? info := add_info HKDF_INFO_LABEL_MAX (be16 key_len) (counted (lit "tls13 nvme-tls-psk")) in
  match tls_context version cipher context with
  | None => Some (Err ENOKEY)
  | Some c =>
      let? info := add_info HKDF_INFO_CONTEXT_MAX info (counted c) in
      derive cipher retained info
  end.

Definition derive_tls_key_compat (version : Z) (cipher : libnvmf_hmac_alg) (context retained : list Z) :
    option (result (list Z)) :=
  let? _ := need (select_hmac cipher) EINVAL in
  let? _ := need ctx_new ENOMEM in
  let? _ := need (hkdf_setup cipher retained) ENOKEY in
  let? _ := malloc_ (HKDF_INFO_MAX_LEN + 1) in
  let? info := add_info HKDF_INFO_LABEL_MAX (le16 (length retained)) (lit "tls13 nvme-tls-psk") in
  match tls_context version cipher context with
  | None => Some (Err ENOKEY)
  | Some c =>
      let? info := add_info HKDF_INFO_CONTEXT_MAX info c in
      derive cipher retained info
  end.

Definition hmac_seed : list Z := lit "NVMe-over-Fabrics".

(** [libnvmf_gen_kxchap_key] with a secret and a buffer of [key_len] bytes. *)
Definition libnvmf_gen_kxchap_key (hostnqn : list Z) (hmac : libnvmf_hmac_alg) (secret : list Z) :
    option (result (list Z)) :=
  let? _ := need ctx_new ENOMEM in
  if bool_decide (hmac = LIBNVMF_HMAC_ALG_NONE) then Some (Ok secret)
  else
    match hmac_final hmac secret (hostnqn ++ hmac_seed) (length secret) with
    | None => Some (Err ENOKEY)
    | Some key => let? _ := need (length key =? length secret)%nat EMSGSIZE in Some (Ok key)
    end.

(** [derive_psk_digest]: the text in [digest]. *)
Definition derive_psk_digest (hostnqn subsysnqn : list Z) (cipher : libnvmf_hmac_alg)
    (retained : list Z) (digest_len : nat) : option (result (list Z)) :=
  let key_len := length retained in
  let? _ := need ctx_new ENOMEM in
  let? _ := need (select_hmac cipher) EINVAL in
  let? _ := malloc_ key_len in
  match hmac_final cipher retained (hostnqn ++ [32] ++ subsysnqn ++ [32] ++ hmac_seed) key_len with
  | None => Some (Err ENOKEY)
  | Some mac =>
      let? _ := need (length mac <=? key_len)%nat EMSGSIZE in
      let? _ := need (2 * length mac <=? digest_len)%nat EINVAL in
      let text := shr_base64_encode mac in
      let? _ := in_room (length text <? digest_len)%nat in
      Some (Ok text)
  end.

(** [gen_tls_identity] into a buffer of [size] bytes. *)
Definition gen_tls_identity (hostnqn subsysnqn : list Z) (version : Z) (cipher : libnvmf_hmac_alg)
    (digest : option (list Z)) (size : nat) : option (result (list Z)) :=
  let head := lit "NVMe" ++ print_int version ++ lit "R" ++ print_02d (alg_value cipher) ++ [32] ++
              hostnqn ++ [32] ++ subsysnqn in
  let put text := let? _ := in_room (length text + 1 <=? size)%nat in Some (Ok text) in
  if version =? 0 then put head
  else
    match digest with
    | Some d => if 1 <? version then Some (Err EINVAL) else put (head ++ [32] ++ d)
    | None => Some (Err EINVAL)
    end.

(** [derive_nvme_keys]: the identity, in a buffer of [identity_size] bytes, and
    the TLS key. *)
Definition derive_nvme_keys (hostnqn subsysnqn : list Z) (identity_size : nat) (version : Z)
    (hmac : libnvmf_hmac_alg) (configured : list Z) (compat : bool) :
    option (result (list Z * list Z)) :=
  let key_len := length configured in
  let? _ := need ((0 <? key_len)%nat && (key_len <=? KEY_BUF_LEN)%nat) EINVAL in
  let? retained := (if compat then derive_retained_key_compat hmac hostnqn configured
                    else derive_retained_key hmac hostnqn configured) in
  let cipher := if bool_decide (hmac = LIBNVMF_HMAC_ALG_NONE) then default_hmac key_len else hmac in
  let? digest :=
    (if version =? 1 then
       let digest_len := (2 * key_len)%nat in
       let? _ := malloc_ digest_len in
       let? d := derive_psk_digest hostnqn subsysnqn cipher retained digest_len in
       Some (Ok (Some d))
     else Some (Ok None)) in
  let? identity := gen_tls_identity hostnqn subsysnqn version cipher digest identity_size in
  let context := default identity digest in
  let? psk := (if compat then derive_tls_key_compat version cipher context retained
               else derive_tls_key version cipher context retained) in
  Some (Ok (identity, psk)).

Definition nvme_identity_len (hmac : libnvmf_hmac_alg) (version : Z) (hostnqn subsysnqn : list Z) :
    result nat :=
  let len := (length hostnqn + length subsysnqn + 12)%nat in
  if version =? 1 then
    Ok (len + 66 + (if bool_decide (hmac = LIBNVMF_HMAC_ALG_SHA2_384) then 32 else 0))%nat
  else if 1 <? version then Err EINVAL
  else Ok len.

(** [libnvmf_generate_tls_key_identity] and the one for compatibility. *)
Definition generate_identity (compat : bool) (hostnqn subsysnqn : list Z) (version : Z)
    (hmac : libnvmf_hmac_alg) (configured : list Z) : option (result (list Z)) :=
  let key_len := length configured in
  match nvme_identity_len hmac version hostnqn subsysnqn with
  | Err _ => Some (Err EINVAL)
  | Ok identity_len =>
      let? _ := malloc_ identity_len in
      let? _ := need ((0 <? key_len)%nat && (key_len <=? KEY_BUF_LEN)%nat) EINVAL in
      let? r := derive_nvme_keys hostnqn subsysnqn identity_len version hmac configured compat in
      let? _ := need (length r.2 =? key_len)%nat ENOKEY in
      Some (Ok r.1)
  end.

Definition libnvmf_generate_tls_key_identity := generate_identity false.
Definition libnvmf_generate_tls_key_identity_compat := generate_identity true.
End Derive.

(** ** Reference *)

(** The [HkdfLabel] of RFC 8446. *)
Definition HkdfLabel (len : nat) (label context : list Z) : list Z :=
  be16 len ++ counted (lit "tls13 " ++ label) ++ counted context.

(** ** Lemmas *)

(** The call stays in its buffers, and its result satisfies [Q]. *)
Definition bounded {A} (m : option (result A)) (Q : A → Prop) : Prop :=
  match m with None => False | Some (Err _) => True | Some (Ok a) => Q a end.

Lemma bounded_bind {A B} (m : option (result A)) (f : A → option (result B)) R Q :
  bounded m R → (∀ a, R a → bounded (f a) Q) → bounded (buf_bind m f) Q.
Proof. destruct m as [[a|e]|]; cbn; auto. Qed.

Lemma bounded_need b e (Q : unit → Prop) : (b = true → Q tt) → bounded (need b e) Q.
Proof. destruct b; cbn; auto. Qed.
Lemma bounded_room b (Q : unit → Prop) : b = true → Q tt → bounded (in_room b) Q.
Proof. by intros ->. Qed.
Lemma bounded_mono {A} (m : option (result A)) (R Q : A → Prop) :
  bounded m R → (∀ a, R a → Q a) → bounded m Q.
Proof. destruct m as [[a|e]|]; cbn; auto. Qed.
Lemma bounded_Ok {A} (m : option (result A)) Q a : bounded m Q → m = Some (Ok a) → Q a.
Proof. by intros Hm ->. Qed.

Section Bounds.
Context `{OsslLaws}.

Lemma bounded_add_info max info text :
  (length info + max ≤ HKDF_INFO_MAX_LEN)%nat →
  bounded (add_info max info text) (λ r, r = info ++ text ∧ (length text ≤ max)%nat).
Proof.
  intros Hl. unfold add_info. eapply (bounded_bind _ _ (λ _, True)).
  { apply bounded_room; [|done]. apply Nat.leb_le. lia. }
  intros _ _. eapply (bounded_bind _ _ (λ _, (length text ≤ max)%nat)).
  { apply bounded_need. intros [_ Hm%Nat.leb_le]%andb_true_iff. done. }
  intros _ Hm. done.
Qed.

Lemma bounded_derive a key info : bounded (derive a key info) (λ r, hkdf a key info (length key) = Some r).
Proof. unfold derive. by destruct (hkdf a key info (length key)) eqn:E. Qed.

Lemma bounded_malloc n : bounded (malloc_ n) (λ _, True).
Proof. by apply bounded_need. Qed.

(** The parts that only fail or go on. *)
Ltac pass := eapply (bounded_bind _ _ (λ _, True)); [first [apply bounded_malloc | by apply bounded_need]|intros _ _].

Lemma retained_ok hmac hostnqn configured :
  bounded (derive_retained_key hmac hostnqn configured)
    (λ r, if bool_decide (hmac = LIBNVMF_HMAC_ALG_NONE) then r = configured
          else hkdf hmac configured (HkdfLabel (length configured) (lit "HostNQN") hostnqn)
                 (length configured) = Some r).
Proof.
  unfold derive_retained_key. pass. case_bool_decide; [done|]. do 4 pass.
  eapply bounded_bind; [by apply bounded_add_info; apply Nat.leb_le; vm_compute|].
  intros info [-> _]. eapply bounded_bind; [by apply bounded_add_info; apply Nat.leb_le; vm_compute|].
  intros info [-> _]. eapply bounded_mono; [apply bounded_derive|]. intros r Hr.
  unfold HkdfLabel. rewrite <- app_assoc in Hr. exact Hr.
Qed.

Lemma retained_compat_ok hmac hostnqn configured :
  bounded (derive_retained_key_compat hmac hostnqn configured)
    (λ r, if bool_decide (hmac = LIBNVMF_HMAC_ALG_NONE) then r = configured
          else hkdf hmac configured (le16 (length configured) ++ lit "tls13 HostNQN" ++ hostnqn)
                 (length configured) = Some r).
Proof.
  unfold derive_retained_key_compat. case_bool_decide; [done|]. do 4 pass.
  eapply bounded_bind; [by apply bounded_add_info; apply Nat.leb_le; vm_compute|].
  intros info [-> _]. apply bounded_derive.
Qed.

Lemma tls_key_ok version cipher context retained :
  bounded (derive_tls_key version cipher context retained)
    (λ r, ∃ c, tls_context version cipher context = Some c ∧ (length c ≤ 255)%nat ∧
       hkdf cipher retained (HkdfLabel (length retained) (lit "nvme-tls-psk") c) (length retained) = Some r).
Proof.
  unfold derive_tls_key. do 5 pass.
  eapply bounded_bind; [by apply bounded_add_info; apply Nat.leb_le; vm_compute|].
  intros info [-> _]. destruct (tls_context version cipher context) as [c|]; [|done].
  eapply bounded_bind; [by apply bounded_add_info; apply Nat.leb_le; vm_compute|].
  intros info [-> Hc]. eapply bounded_mono; [apply bounded_derive|]. intros r Hr. exists c.
  cbn [counted length] in Hc. unfold HKDF_INFO_CONTEXT_MAX in Hc. split_and!; [done|lia|].
  unfold HkdfLabel. rewrite <- app_assoc in Hr. exact Hr.
Qed.

Lemma tls_key_compat_ok version cipher context retained :
  bounded (derive_tls_key_compat version cipher context retained) (λ r, length r = length retained).
Proof.
  unfold derive_tls_key_compat. do 4 pass.
  eapply bounded_bind; [by apply bounded_add_info; apply Nat.leb_le; vm_compute|].
  intros info [-> _]. destruct (tls_context version cipher context) as [c|]; [|done].
  eapply bounded_bind; [by apply bounded_add_info; apply Nat.leb_le; vm_compute|].
  intros info _. eapply bounded_mono; [apply bounded_derive|]. intros r Hr. by apply hkdf_bytes in Hr as [? _].
Qed.

(** The digest of version 1: a text of 44 or 64 characters. *)
Definition digest_size (cipher : libnvmf_hmac_alg) : nat :=
  if bool_decide (cipher = LIBNVMF_HMAC_ALG_SHA2_384) then 64 else 44.

(** The digest of a retained key: the base64 text of the HMAC of both NQNs and
    the seed of the specification. *)
Definition psk_digest (cipher : libnvmf_hmac_alg) (retained hostnqn subsysnqn digest : list Z) : Prop :=
  ∃ mac, hmac_final cipher retained (hostnqn ++ lit " " ++ subsysnqn ++ lit " NVMe-over-Fabrics")
           (length retained) = Some mac ∧
         digest = Rfc4648.encode mac.

Lemma psk_digest_ok hostnqn subsysnqn cipher retained :
  bounded (derive_psk_digest hostnqn subsysnqn cipher retained (2 * length retained))
    (λ d, psk_digest cipher retained hostnqn subsysnqn d ∧ length d = digest_size cipher ∧ (cipher = LIBNVMF_HMAC_ALG_SHA2_256 ∨ cipher = LIBNVMF_HMAC_ALG_SHA2_384)).
Proof.
  unfold derive_psk_digest. pass.
  eapply (bounded_bind _ _ (λ _, select_hmac cipher = true)); [by apply bounded_need|]. intros _ Hc. pass.
  destruct (hmac_final _ _ _ _) as [mac|] eqn:Hm; [|done]. pose proof Hm as [Hl Hb]%hmac_bytes.
  eapply (bounded_bind _ _ (λ _, (length mac ≤ length retained)%nat)).
  { apply bounded_need. apply Nat.leb_le. }
  intros _ Hle. pass.
  assert (Hd : length (shr_base64_encode mac) = digest_size cipher ∧
               (digest_size cipher < 2 * length mac)%nat).
  { rewrite shr_base64_encode_rfc, encode_length, Hl by done. unfold digest_size.
    destruct cipher; try done; (split; [reflexivity|apply Nat.ltb_lt; reflexivity]). }
  destruct Hd as [Hd Hlt]. eapply (bounded_bind _ _ (λ _, True)).
  { apply bounded_room; [|done]. apply Nat.ltb_lt. lia. }
  intros _ _. cbn [bounded]. split; [exists mac; split; [exact Hm|by apply shr_base64_encode_rfc]|].
  split; [done|]. destruct cipher; try done; auto.
Qed.

(** The text of an identity. *)
Definition identity_text (version : Z) (cipher : libnvmf_hmac_alg) (hostnqn subsysnqn : list Z)
    (digest : option (list Z)) : list Z :=
  lit "NVMe" ++ print_int version ++ lit "R" ++ print_02d (alg_value cipher) ++ [32] ++
  hostnqn ++ [32] ++ subsysnqn ++ match digest with Some d => [32] ++ d | None => [] end.

Lemma identity_length version cipher hostnqn subsysnqn digest :
  version = 0 ∨ version = 1 →
  length (identity_text version cipher hostnqn subsysnqn digest) =
  (10 + length hostnqn + length subsysnqn + match digest with Some d => 1 + length d | None => 0 end)%nat.
Proof.
  intros Hv. unfold identity_text. rewrite !length_app.
  replace (length (print_int version)) with 1%nat by (destruct Hv as [-> | ->]; reflexivity).
  replace (length (print_02d (alg_value cipher))) with 2%nat by (by destruct cipher).
  destruct digest; cbn; lia.
Qed.

Lemma gen_identity_ok hostnqn subsysnqn version cipher digest size :
  (version = 0 → (11 + length hostnqn + length subsysnqn ≤ size)%nat) →
  (version = 1 → ∀ d, digest = Some d → (12 + length hostnqn + length subsysnqn + length d ≤ size)%nat) →
  (version < 0 → digest = None) →
  bounded (gen_tls_identity hostnqn subsysnqn version cipher digest size)
    (λ t, (version = 0 ∧ t = identity_text 0 cipher hostnqn subsysnqn None) ∨
          (version = 1 ∧ is_Some digest ∧ t = identity_text 1 cipher hostnqn subsysnqn digest)).
Proof.
  intros Hz Hone Hneg. unfold gen_tls_identity.
  assert (Hput : ∀ t : list Z, (length t + 1 ≤ size)%nat →
    bounded (let? _ := in_room (length t + 1 <=? size)%nat in Some (Ok t)) (λ x, x = t)).
  { intros t Ht. eapply (bounded_bind _ _ (λ _, True)); [|done]. apply bounded_room; [|done]. by apply Nat.leb_le. }
  destruct (Z.eqb_spec version 0) as [->|Hne].
  - specialize (Hz eq_refl). pose proof (identity_length 0 cipher hostnqn subsysnqn None ltac:(auto)) as Hl.
    unfold identity_text in Hl. rewrite !app_nil_r in Hl. eapply bounded_mono; [apply Hput; lia|].
    intros t ->. left. split; [done|]. unfold identity_text. by rewrite !app_nil_r.
  - destruct digest as [d|]; [|done]. destruct (Z.ltb_spec 1 version); [done|].
    assert (version = 1) as -> by (destruct (decide (version < 0)); [by specialize (Hneg l)|lia]).
    specialize (Hone eq_refl d eq_refl).
    pose proof (identity_length 1 cipher hostnqn subsysnqn (Some d) ltac:(auto)) as Hl.
    assert (Happ : ∀ a b c e f g i : list Z, (a ++ b ++ c ++ e ++ [32] ++ f ++ [32] ++ g) ++ i = a ++ b ++ c ++ e ++ [32] ++ f ++ [32] ++ g ++ i).
    { intros. by rewrite <- !app_assoc. }
    rewrite Happ. fold (identity_text 1 cipher hostnqn subsysnqn (Some d)).
    eapply bounded_mono; [apply Hput; rewrite Hl; lia|]. intros t ->. right. auto.
Qed.

(** The keys of the transport specification: the retained key is the
    configured one or HKDF-Expand-Label of it, and the TLS key that of the
    retained one.  For compatibility, the label is the one of older versions:
    its length is the low byte first, and the parts are not counted. *)
Definition retained_from (compat : bool) (hmac : libnvmf_hmac_alg) (hostnqn configured retained : list Z) : Prop :=
  if bool_decide (hmac = LIBNVMF_HMAC_ALG_NONE) then retained = configured
  else hkdf hmac configured
         (if compat then le16 (length configured) ++ lit "tls13 HostNQN" ++ hostnqn
          else HkdfLabel (length configured) (lit "HostNQN") hostnqn) (length configured) = Some retained.

(** The digest an identity of this version has. *)
Definition identity_digest (version : Z) (cipher : libnvmf_hmac_alg) (retained hostnqn subsysnqn : list Z)
    (digest : option (list Z)) : Prop :=
  (version = 0 ∧ digest = None) ∨
  (version = 1 ∧ ∃ d, digest = Some d ∧ psk_digest cipher retained hostnqn subsysnqn d).

Definition expand_label (hostnqn : list Z) (version : Z) (hmac : libnvmf_hmac_alg) (configured : list Z)
    (cipher : libnvmf_hmac_alg) (digest : option (list Z)) (r : list Z * list Z) : Prop :=
  ∃ retained context, retained_from false hmac hostnqn configured retained ∧
    context = match digest with
              | None => r.1
              | Some d => print_02d (alg_value cipher) ++ [32] ++ d
              end ∧
    hkdf cipher retained (HkdfLabel (length retained) (lit "nvme-tls-psk") context) (length retained) = Some r.2.

(** The identity and the TLS key of a configured key. *)
Lemma nvme_keys_ok hostnqn subsysnqn version hmac configured compat size :
  nvme_identity_len hmac version hostnqn subsysnqn = Ok size →
  bounded (derive_nvme_keys hostnqn subsysnqn size version hmac configured compat)
    (λ r, length r.2 = length configured ∧ ∃ cipher retained digest,
       cipher = (if bool_decide (hmac = LIBNVMF_HMAC_ALG_NONE) then default_hmac (length configured) else hmac) ∧
       retained_from compat hmac hostnqn configured retained ∧
       identity_digest version cipher retained hostnqn subsysnqn digest ∧
       r.1 = identity_text version cipher hostnqn subsysnqn digest ∧
       (compat = false → expand_label hostnqn version hmac configured cipher digest r)).
Proof.
  intros Hsize. unfold derive_nvme_keys. pass.
  eapply (bounded_bind _ _ (λ r, length r = length configured ∧ retained_from compat hmac hostnqn configured r)).
  { assert (Hlen : ∀ r, retained_from compat hmac hostnqn configured r → length r = length configured).
    { intros r. unfold retained_from. case_bool_decide; [by intros ->|]. by intros [? _]%hkdf_bytes. }
    eapply (bounded_mono _ (retained_from compat hmac hostnqn configured)); [|auto].
    destruct compat; [apply retained_compat_ok|apply retained_ok]. }
  intros retained [Hr Hfrom]. set (cipher := if bool_decide _ then _ else _).
  eapply (bounded_bind _ _ (λ d, match d with
                                 | Some d => version = 1 ∧ psk_digest cipher retained hostnqn subsysnqn d ∧
                                             length d = digest_size cipher ∧
                                             (cipher = LIBNVMF_HMAC_ALG_SHA2_256 ∨ cipher = LIBNVMF_HMAC_ALG_SHA2_384)
                                 | None => version ≠ 1
                                 end)).
  { destruct (Z.eqb_spec version 1); [|done]. pass. rewrite <- Hr.
    eapply bounded_bind; [apply psk_digest_ok|]. intros d Hd. cbn. auto. }
  intros digest Hd. eapply bounded_bind.
  { apply gen_identity_ok.
    - intros ->. unfold nvme_identity_len in Hsize. cbn in Hsize. injection Hsize as <-. lia.
    - intros -> d ->. destruct Hd as (_ & _ & Hd & Hc). rewrite Hd. unfold nvme_identity_len in Hsize. cbn in Hsize.
      injection Hsize as <-. unfold digest_size.
      destruct Hc as [Hc|Hc]; rewrite Hc; repeat case_bool_decide; try done; lia.
    - intros Hneg. destruct digest; [|done]. lia. }
  cbv beta. intros ident Hid. eapply (bounded_bind _ _ (λ p, length p = length retained ∧
    (compat = false → ∃ c, tls_context version cipher (default ident digest) = Some c ∧
       hkdf cipher retained (HkdfLabel (length retained) (lit "nvme-tls-psk") c) (length retained) = Some p))).
  { destruct compat.
    - eapply bounded_mono; [apply tls_key_compat_ok|]. done.
    - eapply bounded_mono; [apply tls_key_ok|]. intros r (c & Hc & _ & Hk).
      split; [by apply hkdf_bytes in Hk as [? _]|]. eauto. }
  intros psk [Hp Hpsk]. cbn. split; [congruence|]. destruct Hid as [[-> ->]|(-> & [d ->] & ->)].
  - destruct digest as [d|]; [by destruct Hd|]. exists cipher, retained, None.
    split_and!; [done|done|by left|done|].
    intros Hcompat. destruct (Hpsk Hcompat) as (c & [= <-] & Hk). exists retained, (identity_text 0 cipher hostnqn subsysnqn None).
    subst compat. split_and!; [done|done|exact Hk].
  - destruct Hd as (_ & Hd & _). exists cipher, retained, (Some d).
    split_and!; [done|done|right; eauto|done|].
    intros Hcompat. destruct (Hpsk Hcompat) as (c & [= <-] & Hk). eexists retained, _.
    subst compat. split_and!; [done|reflexivity|exact Hk].
Qed.

(** The text of an identity. *)
Lemma identity_ok compat hostnqn subsysnqn version hmac configured :
  bounded (generate_identity compat hostnqn subsysnqn version hmac configured) (λ ident,
    ∃ cipher retained digest,
      cipher = (if bool_decide (hmac = LIBNVMF_HMAC_ALG_NONE) then default_hmac (length configured) else hmac) ∧
      retained_from compat hmac hostnqn configured retained ∧
      identity_digest version cipher retained hostnqn subsysnqn digest ∧
      ident = identity_text version cipher hostnqn subsysnqn digest).
Proof.
  unfold generate_identity. destruct (nvme_identity_len _ _ _ _) as [size|] eqn:Hsize; [|done].
  eapply (bounded_bind _ _ (λ _, True)); [apply bounded_malloc|]. intros _ _.
  eapply (bounded_bind _ _ (λ _, True)); [by apply bounded_need|]. intros _ _.
  eapply bounded_bind; [by apply nvme_keys_ok|]. cbv beta. intros r (_ & cipher & retained & digest & Hr).
  eapply (bounded_bind _ _ (λ _, True)); [by apply bounded_need|]. intros _ _.
  exists cipher, retained, digest. tauto.
Qed.
End Bounds.

(** ** Properties *)

(** C23: The identity of a TLS key is written into the buffer that was
    allocated for it, and every other text of the derivation into its own,
    for any NQNs, key and hash.  The identity is "NVMe<v>R<xx> <host NQN>
    <subsystem NQN>" with the hash of the key, or the one of its length when
    none is named; in version 1 a blank and a digest follow: the base64 text of
    the HMAC, with the retained key, of "<host NQN> <subsystem NQN>
    NVMe-over-Fabrics".  The retained key is the configured one when no hash is
    named, else HKDF-Expand-Label of it with the label "HostNQN" and the host
    NQN, or the older label where that is asked for.  HKDF and HMAC are those
    of OpenSSL, of which only the lengths of their results are required. *)
Theorem tls_identity_in_bounds `{OsslLaws} compat hostnqn subsysnqn version hmac configured :
  generate_identity compat hostnqn subsysnqn version hmac configured ≠ None ∧
  ∀ ident, generate_identity compat hostnqn subsysnqn version hmac configured = Some (Ok ident) →
    ∃ cipher retained digest,
      cipher = (if bool_decide (hmac = LIBNVMF_HMAC_ALG_NONE) then default_hmac (length configured) else hmac) ∧
      retained_from compat hmac hostnqn configured retained ∧
      identity_digest version cipher retained hostnqn subsysnqn digest ∧
      ident = identity_text version cipher hostnqn subsysnqn digest.
Proof.
  pose proof (identity_ok compat hostnqn subsysnqn version hmac configured) as Hb.
  split; [by intros Hn; rewrite Hn in Hb|]. intros ident Hi. by rewrite Hi in Hb.
Qed.

(** An OpenSSL that always answers. *)
Definition sample_ossl : Ossl := {|
  hkdf a key info n := Some (replicate n 1);
  hmac_final a key msg n := if (n <? md_size a)%nat then None else Some (replicate (md_size a) 2);
  ctx_new := true;
  hkdf_setup a key := true;
  ossl_malloc n := true |}.

#[export] Instance sample_ossl_laws : @OsslLaws sample_ossl.
Proof.
  split; cbn.
  - intros a key info n r [= <-]. rewrite length_replicate. split; [done|].
    apply Forall_replicate. unfold is_byte. lia.
  - intros a key msg n r. case_match; [done|]. intros [= <-]. rewrite length_replicate. split; [done|].
    apply Forall_replicate. unfold is_byte. lia.
Qed.

Lemma tls_identity_in_bounds_witness :
  ∃ ident d, @generate_identity sample_ossl false (lit "nqn.host") (lit "nqn.subsys") 1
             LIBNVMF_HMAC_ALG_NONE (replicate 48 7) = Some (Ok ident) ∧ length ident = 93%nat ∧
    @psk_digest sample_ossl LIBNVMF_HMAC_ALG_SHA2_384 (replicate 48 7) (lit "nqn.host") (lit "nqn.subsys") d ∧
    ident = identity_text 1 LIBNVMF_HMAC_ALG_SHA2_384 (lit "nqn.host") (lit "nqn.subsys") (Some d).
Proof.
  destruct (@tls_identity_in_bounds sample_ossl sample_ossl_laws false (lit "nqn.host") (lit "nqn.subsys") 1
    LIBNVMF_HMAC_ALG_NONE (replicate 48 7)) as [_ Hid].
  assert (Hg : ∃ ident, @generate_identity sample_ossl false (lit "nqn.host") (lit "nqn.subsys") 1
    LIBNVMF_HMAC_ALG_NONE (replicate 48 7) = Some (Ok ident) ∧ length ident = 93%nat)
    by (eexists; split; vm_compute; reflexivity).
  destruct Hg as (ident & Hg & Hl). destruct (Hid ident Hg) as (cipher & retained & digest & -> & Hr & Hd & Hi).
  assert (E : (if bool_decide (LIBNVMF_HMAC_ALG_NONE = LIBNVMF_HMAC_ALG_NONE)
               then default_hmac (length (replicate 48 7)) else LIBNVMF_HMAC_ALG_NONE) = LIBNVMF_HMAC_ALG_SHA2_384)
    by (vm_compute; reflexivity).
  rewrite E in Hd, Hi. unfold retained_from in Hr. rewrite bool_decide_true in Hr by reflexivity. subst retained.
  destruct Hd as [[Hv _]|(_ & d & -> & Hd)]; [discriminate Hv|].
  exists ident, d. split; [exact Hg|]. split; [exact Hl|]. split; [exact Hd|exact Hi].
Defined.

(** The TLS key is derived as the transport specification says. *)
Theorem tls_key_expand_label `{OsslLaws} hostnqn subsysnqn size version hmac configured r :
  nvme_identity_len hmac version hostnqn subsysnqn = Ok size →
  derive_nvme_keys hostnqn subsysnqn size version hmac configured false = Some (Ok r) →
  ∃ cipher digest,
    cipher = (if bool_decide (hmac = LIBNVMF_HMAC_ALG_NONE) then default_hmac (length configured) else hmac) ∧
    (version = 0 ∧ digest = None ∨ version = 1 ∧ is_Some digest) ∧
    r.1 = identity_text version cipher hostnqn subsysnqn digest ∧
    expand_label hostnqn version hmac configured cipher digest r.
Proof.
  intros Hsize Hd. pose proof (nvme_keys_ok _ _ _ _ configured false _ Hsize) as Hk. rewrite Hd in Hk.
  destruct Hk as (_ & cipher & retained & digest & Hc & _ & Hv & Hi & He). exists cipher, digest.
  split_and!; [done| |done|by apply He]. destruct Hv as [?|(? & d & -> & _)]; eauto.
Qed.
