(* ===== verification/KeyRing.v ===== *)
(** * Keys in the kernel key ring: [libnvme/src/nvme/crypto.c] and
      [keysd/src/import.c]

    The key daemon imports the keys of the connections of the configuration:
    it stores each under its ident in a key ring and revokes the older
    keys of the same pair of NQNs. *)

From Stdlib Require Import String.
From stdpp Require Import base list numbers.
From S2P Require Import Prelude.
From S2P Require Import CStr.
From S2P Require Import Parse.
From S2P Require Import Tid.
From S2P Require Import Conf.
From S2P Require Import ConfResolve.
From S2P Require Import Psk.
From S2P Require Import TlsKey.

(** ** The key ring *)

(** The calls of keyutils on a state of the kernel; a serial is positive. *)
Class Keyutils (K : Type) := {
  find_keyring : list Z → K → result Z;
  keyctl_link : Z → K → result unit * K;
  keyctl_search : Z → list Z → list Z → K → result Z;
  session_search : list Z → list Z → K → result Z;
  keyctl_revoke : Z → K → result unit * K;
  add_key : list Z → list Z → list Z → Z → K → result Z * K;
  (** the serials and the descriptions that [recursive_key_scan] visits *)
  key_scan : Z → K → list (Z * list Z) }.

Section KeyRing.
Context {K : Type} `{Keyutils K} `{Ossl}.

Definition NVME_TLS_DEFAULT_KEYRING : list Z := lit ".nvme".
Definition psk_type : list Z := lit "psk".

Definition libnvmf_lookup_keyring (keyring : option (list Z)) (k : K) : result Z :=
  find_keyring (default NVME_TLS_DEFAULT_KEYRING keyring) k.

Definition libnvmf_set_keyring (key_id : Z) (k : K) : result unit * K :=
  match (if key_id =? 0 then match libnvmf_lookup_keyring None k with
                             | Ok id => Ok id
                             | Err _ => Err ENOKEY
                             end
         else Ok key_id) with
  | Err e => (Err e, k)
  | Ok id => keyctl_link id k
  end.

Definition libnvmf_update_key (keyring_id : Z) (key_type ident key_data : list Z) (k : K) :
    result Z * K :=
  match keyctl_search keyring_id key_type ident k with
  | Ok key =>
      if 0 <? key then
        match keyctl_revoke key k with
        | (Err e, k) => (Err e, k)
        | (Ok _, k) => add_key key_type ident key_data keyring_id k
        end
      else add_key key_type ident key_data keyring_id k
  | Err _ => add_key key_type ident key_data keyring_id k
  end.

Definition libnvmf_revoke_tls_key (keyring : option (list Z)) (key_type ident : list Z) (k : K) :
    result unit * K :=
  match libnvmf_lookup_keyring keyring k with
  | Err e => (Err e, k)
  | Ok keyring_id =>
      match keyctl_search keyring_id key_type ident k with
      | Err e => (Err e, k)
      | Ok key => keyctl_revoke key k
      end
  end.

(** ** Scanning *)

(** A number of [sscanf] of at most [width] characters, and the rest. *)
Definition scan_num (base : Z) (width : nat) (s : list Z) : option (list Z) :=
  let s := drop_while isspace s in
  let t := take width s in
  let r := strtoll base t in
  if st_conv r then Some (drop (length t - length (st_end r)) s) else None.

(** [sscanf(desc, "psk;%d;%d;%08x;NVMe%01d%c%02d %*s", ...) == 6]. *)
Definition is_psk_desc (desc : list Z) : bool :=
  match (s ← scan_lit (lit "psk;") desc; s ← scan_num 10 (length s) s;
         s ← scan_lit (lit ";") s; s ← scan_num 10 (length s) s;
         s ← scan_lit (lit ";") s; s ← scan_num 16 8 s;
         s ← scan_lit (lit ";NVMe") s; s ← scan_num 10 1 s;
         scan_num 10 2 (drop 1 s)) with
  | Some _ => true
  | None => false
  end.

(** [strchr(s, ';')], and the text behind it. *)
Definition behind_semi (s : list Z) : option (list Z) :=
  match split_char c_semi s with Some (_, rest) => Some rest | None => None end.

(** [__scan_keys_cb]: the description it passes on. *)
Definition scan_keys_cb (desc : list Z) : option (list Z) :=
  if (length desc <? 6)%nat || negb (is_psk_desc desc) then None
  else s ← behind_semi desc; s ← behind_semi s; s ← behind_semi s; behind_semi s.

(** [libnvmf_scan_tls_keys] with a callback that only collects. *)
Definition libnvmf_scan_tls_keys (keyring : option (list Z)) (k : K) : result (list (list Z)) * K :=
  match libnvmf_lookup_keyring keyring k with
  | Err e => (Err e, k)
  | Ok keyring_id =>
      if keyring_id =? 0 then (Err EINVAL, k)
      else
        match libnvmf_set_keyring keyring_id k with
        | (Err e, k) => (Err e, k)
        | (Ok _, k) => (Ok (omap (λ e, scan_keys_cb e.2) (key_scan keyring_id k)), k)
        end
  end.

(** ** Importing a key *)

(** [__nvme_insert_tls_key]: the call, or an error of the derivation. *)
Definition insert_tls_key (keyring_id : Z) (key_type hostnqn subsysnqn : list Z) (version : Z)
    (hmac : libnvmf_hmac_alg) (configured : list Z) (compat : bool) (k : K) : option (result Z * K) :=
  let key_len := length configured in
  match nvme_identity_len hmac version hostnqn subsysnqn with
  | Err e => Some (Err e, k)
  | Ok identity_len =>
      if negb (ossl_malloc identity_len) then Some (Err ENOMEM, k)
      else if negb ((0 <? key_len)%nat && (key_len <=? KEY_BUF_LEN)%nat) then Some (Err EINVAL, k)
      else
        match derive_nvme_keys hostnqn subsysnqn identity_len version hmac configured compat with
        | None => None
        | Some (Err e) => Some (Err e, k)
        | Some (Ok (ident, psk)) =>
            if negb (length psk =? key_len)%nat then Some (Err ENOKEY, k)
            else Some (libnvmf_update_key keyring_id key_type ident psk k)
        end
  end.

Definition libnvmf_insert_tls_key_versioned (keyring : option (list Z)) (key_type hostnqn subsysnqn : list Z)
    (version : Z) (hmac : libnvmf_hmac_alg) (configured : list Z) (k : K) : option (result Z * K) :=
  match libnvmf_lookup_keyring keyring k with
  | Err e => Some (Err e, k)
  | Ok keyring_id =>
      match libnvmf_set_keyring keyring_id k with
      | (Err e, k) => Some (Err e, k)
      | (Ok _, k) => insert_tls_key keyring_id key_type hostnqn subsysnqn version hmac configured false k
      end
  end.

(** Whether a description names the pair, as [collect_other_key] takes it
    apart. *)
Definition names_pair (hostnqn subsysnqn desc : list Z) : bool :=
  match strtok 32 desc with
  | _ :: host :: subsys :: _ => str_eqb host hostnqn && str_eqb subsys subsysnqn
  | _ => false
  end.

(** The calls of [collect_other_key]: the identities to revoke, and [rc->err];
    it collects no more of them once memory is short. *)
Fixpoint collect_other_key (hostnqn subsysnqn keep : list Z) (identities descs : list (list Z)) :
    list (list Z) * option errno :=
  match descs with
  | [] => (identities, None)
  | desc :: descs =>
      if str_eqb desc keep then collect_other_key hostnqn subsysnqn keep identities descs
      else if negb (ossl_malloc (S (length desc))) then (identities, Some ENOMEM)
      else if negb (names_pair hostnqn subsysnqn desc) then
        collect_other_key hostnqn subsysnqn keep identities descs
      else if negb (ossl_malloc (8 * S (length identities))) then (identities, Some ENOMEM)
      else collect_other_key hostnqn subsysnqn keep (identities ++ [desc]) descs
  end.

(** The errors [revoke_other_keys] logs. *)
Inductive revoke_log :=
| LogCannotScan (e : errno)
| LogCannotRevoke (identity : list Z) (e : errno).

(** The loop of [revoke_other_keys]. *)
Fixpoint revoke_all (keyring : option (list Z)) (identities : list (list Z)) (k : K) : K * list revoke_log :=
  match identities with
  | [] => (k, [])
  | i :: identities =>
      match libnvmf_revoke_tls_key keyring psk_type i k with
      | (Err e, k) => let '(k, log) := revoke_all keyring identities k in (k, LogCannotRevoke i e :: log)
      | (Ok _, k) => revoke_all keyring identities k
      end
  end.

Definition revoke_other_keys (keyring : option (list Z)) (hostnqn subsysnqn keep : list Z) (k : K) :
    K * list revoke_log :=
  match libnvmf_scan_tls_keys keyring k with
  | (Err e, k) => (k, [LogCannotScan e])
  | (Ok descs, k) =>
      let '(identities, err) := collect_other_key hostnqn subsysnqn keep [] descs in
      let '(k, log) := revoke_all keyring identities k in
      (k, match err with Some e => LogCannotScan e :: log | None => log end)
  end.

(** [import_psk]: the result, the key ring and what revoking logs; [None] when
    a buffer is overrun. *)
Definition import_psk (keyring : option (list Z)) (hostnqn subsysnqn encoded : list Z) (k : K) :
    option (result unit * (K * list revoke_log)) :=
  match libnvmf_import_tls_key_versioned ossl_malloc encoded with
  | None => None
  | Some (Err e) => Some (Err e, (k, []))
  | Some (Ok (version, hmac, psk)) =>
      match libnvmf_generate_tls_key_identity hostnqn subsysnqn version hmac psk with
      | None => None
      | Some (Err e) => Some (Err e, (k, []))
      | Some (Ok ident) =>
          match libnvmf_lookup_keyring keyring k with
          | Err e => Some (Err e, (k, []))
          | Ok keyring_id =>
              match libnvmf_set_keyring keyring_id k with
              | (Err e, k) => Some (Err e, (k, []))
              | (Ok _, k) =>
                  match session_search psk_type ident k with
                  | Ok _ => Some (Ok tt, revoke_other_keys keyring hostnqn subsysnqn ident k)
                  | Err _ =>
                      match libnvmf_insert_tls_key_versioned keyring psk_type hostnqn subsysnqn
                              version hmac psk k with
                      | None => None
                      | Some (Err e, k) => Some (Err e, (k, []))
                      | Some (Ok _, k) => Some (Ok tt, revoke_other_keys keyring hostnqn subsysnqn ident k)
                      end
                  end
              end
          end
      end
  end.

(** ** The keys of a configuration *)

(** A key to get from a KMS; the KMS by its name. *)
Record kmip_job := KmipJob {
  job_keyring : option (list Z);
  job_hostnqn : list Z;
  job_subsysnqn : list Z;
  job_name : list Z;
  job_kms : list Z;
}.

(** [struct import_ctx] and the key ring. *)
Record import_ctx := ImportCtx {
  ic_keys : K;
  ic_jobs : list kmip_job;
  ic_done : list (list Z);
}.

(** The names of the KMSes of the daemon's configuration, the outcome of
    [creds_decrypt] for a name, and [libnvmf_host_get_ids]. *)
Context (kmses : list (list Z)) (creds_decrypt : list Z → result (list Z)).
Context (default_hostnqn : option (list Z)).

Definition param (params : libnvmf_params) (key : list Z) : option (list Z) :=
  v ← libnvmf_params_get params key; if nonempty v then Some v else None.

Definition pair_text (hostnqn subsysnqn : list Z) : list Z := hostnqn ++ [32] ++ subsysnqn.

(** [first_time]: whether the pair is new, and the pairs seen. *)
Definition first_time (done : list (list Z)) (hostnqn subsysnqn : list Z) : bool * list (list Z) :=
  let pair := pair_text hostnqn subsysnqn in
  if existsb (str_eqb pair) done then (false, done) else (true, done ++ [pair]).

Definition cred_name_valid (name : list Z) : bool :=
  negb (char_at name 0 =? c_dot) && negb (existsb (Z.eqb 47) name).

(** [find_kms]. *)
Definition find_kms (src : list Z) : option (list Z) :=
  match shr_startswith src (lit "kmip:") with
  | None => match kmses with [m] => Some m | _ => None end
  | Some name => if existsb (str_eqb name) kmses then Some name else None
  end.

Definition import_conn (conn : libnvmf_config_conn) (ic : import_ctx) : option import_ctx :=
  let params := cc_params conn in
  match param params (lit "tls-key-source") with
  | None => Some ic
  | Some src =>
      if str_eqb src (lit "inline") then Some ic
      else
        match (match cc_hostnqn conn with Some n => Some n | None => default_hostnqn end) with
        | None => Some ic
        | Some hostnqn =>
            let subsysnqn := cc_subsysnqn conn in
            let '(new, done) := first_time (ic_done ic) hostnqn subsysnqn in
            let ic := ImportCtx (ic_keys ic) (ic_jobs ic) done in
            if negb new then Some ic
            else
              match param params (lit "tls-key") with
              | None => Some ic
              | Some name =>
                  let keyring := param params (lit "keyring") in
                  if str_eqb src (lit "kmip") || bool_decide (is_Some (shr_startswith src (lit "kmip:"))) then
                    match find_kms src with
                    | None => Some ic
                    | Some kms =>
                        Some (ImportCtx (ic_keys ic)
                                (ic_jobs ic ++ [KmipJob keyring hostnqn subsysnqn name kms]) (ic_done ic))
                    end
                  else if str_eqb src (lit "systemd-creds") then
                    if negb (cred_name_valid name) then Some ic
                    else
                      match creds_decrypt name with
                      | Err _ => Some ic
                      | Ok encoded =>
                          match import_psk keyring hostnqn subsysnqn encoded (ic_keys ic) with
                          | None => None
                          | Some (_, (k, _)) => Some (ImportCtx k (ic_jobs ic) (ic_done ic))
                          end
                      end
                  else Some ic
              end
        end
  end.

(** [import_keys] on the connections of the configuration. *)
Fixpoint import_keys (conns : list libnvmf_config_conn) (ic : import_ctx) : option import_ctx :=
  match conns with
  | [] => Some ic
  | c :: conns => match import_conn c ic with None => None | Some ic => import_keys conns ic end
  end.

(** [import_kmip_psk]: the key a KMS gave for a job. *)
Definition import_kmip_psk (job : kmip_job) (encoded : list Z) (ic : import_ctx) :
    option (result unit * import_ctx) :=
  match import_psk (job_keyring job) (job_hostnqn job) (job_subsysnqn job) encoded (ic_keys ic) with
  | None => None
  | Some (r, (k, _)) => Some (r, ImportCtx k (ic_jobs ic) (ic_done ic))
  end.
End KeyRing.
