(* ===== verification/KeyRingSpec.v ===== *)
(** * What an import leaves in the key ring

    The key ring is known by the laws of its calls; after an import the new
    key can be used, and no older key of the same pair of NQNs is left. *)

From Stdlib Require Import String.
From stdpp Require Import base list numbers countable.
From S2P Require Import Prelude.
From S2P Require Import CStr.
From S2P Require Import Printf.
From S2P Require Import Parse.
From S2P Require Import Tid.
From S2P Require Import Conf.
From S2P Require Import ConfResolve.
From S2P Require Import Psk.
From S2P Require Import TlsKey.
From S2P Require Import KeyRing.

(** ** Scanning descriptions *)

(** Where a number ends. *)
Definition at_semi (s : list Z) : Prop := s = [] ∨ ∃ r, s = c_semi :: r.

Lemma xdigit_facts c :
  (digit_val c <? 16) = true → isspace c = false ∧ c ≠ c_minus ∧ c ≠ c_plus ∧ c ≠ c_x ∧ c ≠ c_X.
Proof.
  intros Hc. rewrite digit_val_hex in Hc.
  assert (Hr : 48 ≤ c ≤ 57 ∨ 65 ≤ c ≤ 70 ∨ 97 ≤ c ≤ 102).
  { unfold isxdigit, isdigit in Hc. rewrite !orb_true_iff, !andb_true_iff, !Z.leb_le in Hc. lia. }
  split; [|lia]. unfold isspace. apply orb_false_iff.
  rewrite Z.eqb_neq, andb_false_iff, !Z.leb_gt. lia.
Qed.

Lemma digit_semi base : base ≤ 16 → (digit_val c_semi <? base) = false.
Proof. intros Hb. apply Z.ltb_ge. change (digit_val c_semi) with 36. lia. Qed.

Lemma scan_int_run base ds rest :
  base = 10 ∨ base = 16 → ds ≠ [] → forallb (λ c, digit_val c <? base) ds = true → at_semi rest →
  ∃ m, scan_int base (ds ++ rest) = Some (false, m, rest).
Proof.
  intros Hb Hne Hd Hr. destruct ds as [|c ds]; [done|]. pose proof Hd as Hd'. cbn in Hd.
  apply andb_true_iff in Hd as [Hc Hds].
  assert (H16 : ∀ d, (digit_val d <? base) = true → (digit_val d <? 16) = true).
  { intros d. rewrite !Z.ltb_lt. destruct Hb; lia. }
  destruct (xdigit_facts c (H16 c Hc)) as (Hsp & Hm & Hp & _ & _).
  unfold scan_int. cbn [app drop_while]. rewrite Hsp. change (char_at (c :: ds ++ rest) 0) with c.
  replace (c =? c_minus) with false by (symmetry; by apply Z.eqb_neq).
  replace (c =? c_plus) with false by (symmetry; by apply Z.eqb_neq).
  assert (Hbase : detect_base base (c :: ds ++ rest) = (base, c :: ds ++ rest)).
  { unfold detect_base. set (x := char_at (c :: ds ++ rest) 1).
    assert (Hx : x ≠ c_x ∧ x ≠ c_X).
    { subst x. destruct ds as [|e ds]; cbn [app].
      - destruct Hr as [-> | [r ->]]; done.
      - cbn in Hds. apply andb_true_iff in Hds as [He _].
        destruct (xdigit_facts e (H16 e He)) as (_ & _ & _ & ? & ?). done. }
    destruct Hx as [Hx1 Hx2]. replace (x =? c_x) with false by (symmetry; by apply Z.eqb_neq).
    replace (x =? c_X) with false by (symmetry; by apply Z.eqb_neq). rewrite !andb_false_r. cbn [andb].
    by destruct Hb as [-> | ->]. }
  rewrite Hbase. change (char_at (c :: ds ++ rest) 0) with c. rewrite Hc.
  change (c :: ds ++ rest) with ((c :: ds) ++ rest). rewrite scan_digits_app by done.
  destruct Hr as [-> | [r ->]]; cbn [scan_digits]; [eauto|]. rewrite digit_semi; [eauto|].
  destruct Hb; lia.
Qed.

Lemma scan_num_run base w ds rest :
  base = 10 ∨ base = 16 → ds ≠ [] → forallb (λ c, digit_val c <? base) ds = true → at_semi rest →
  w = length ds ∨ w = length (ds ++ rest) → scan_num base w (ds ++ rest) = Some rest.
Proof.
  intros Hb Hne Hd Hr Hw. unfold scan_num.
  assert (Hds : drop_while isspace (ds ++ rest) = ds ++ rest).
  { destruct ds as [|c ds]; [done|]. cbn in *. apply andb_true_iff in Hd as [Hc _].
    assert (H16 : (digit_val c <? 16) = true) by (rewrite Z.ltb_lt in *; destruct Hb; lia).
    by destruct (xdigit_facts c H16) as [-> _]. }
  rewrite Hds.
  assert (Ht : ∃ r', take w (ds ++ rest) = ds ++ r' ∧ at_semi r').
  { destruct Hw as [-> | ->].
    - exists []. rewrite app_nil_r. split; [by apply take_app_length|by left].
    - exists rest. by rewrite take_ge by lia. }
  destruct Ht as (r' & Ht & Hr'). rewrite Ht.
  destruct (scan_int_run base ds r' Hb Hne Hd Hr') as [m Hm].
  assert (Hst : st_conv (strtoll base (ds ++ r')) = true ∧ st_end (strtoll base (ds ++ r')) = r').
  { unfold strtoll. rewrite Hm. destruct (INT64_MAX <? m); [done|]. by destruct (m <? INT64_MIN). }
  destruct Hst as [-> ->]. rewrite length_app.
  replace (length ds + length r' - length r')%nat with (length ds) by lia. by rewrite drop_app_length.
Qed.

(** The description of a key as the kernel prints it. *)
Record printed (uid gid perm : list Z) : Prop := {
  pr_uid : uid ≠ [] ∧ forallb (λ c, digit_val c <? 10) uid = true;
  pr_gid : gid ≠ [] ∧ forallb (λ c, digit_val c <? 10) gid = true;
  pr_perm : length perm = 8%nat ∧ forallb (λ c, digit_val c <? 16) perm = true }.

Definition printed_desc (uid gid perm desc : list Z) : list Z :=
  lit "psk;" ++ uid ++ c_semi :: gid ++ c_semi :: perm ++ c_semi :: desc.

(** The description of a TLS key. *)
Definition tls_desc (desc : list Z) : bool :=
  match (s ← scan_lit (lit "NVMe") desc; s ← scan_num 10 1 s; scan_num 10 2 (drop 1 s)) with
  | Some _ => true
  | None => false
  end.

Lemma scan_lit_app l s : scan_lit l (l ++ s) = Some s.
Proof. unfold scan_lit. by rewrite take_app_length, drop_app_length, bool_decide_true. Qed.

Lemma scan_lit_cons c l s : scan_lit (c :: l) (c :: s) = scan_lit l s.
Proof.
  unfold scan_lit. cbn [length take drop].
  destruct (decide (take (length l) s = l)) as [E|E]; [by rewrite !bool_decide_true by congruence|].
  by rewrite !bool_decide_false by congruence.
Qed.

Lemma split_char_app c s rest : c ∉ s → split_char c (s ++ c :: rest) = Some (s, rest).
Proof.
  induction s as [|x s IH]; cbn [app split_char]; intros Hn; [by rewrite Z.eqb_refl|].
  apply not_elem_of_cons in Hn as [Hx Hs]. replace (x =? c) with false by (symmetry; apply Z.eqb_neq; done).
  by rewrite IH.
Qed.

Lemma run_no_semi base ds : base ≤ 16 → forallb (λ c, digit_val c <? base) ds = true → c_semi ∉ ds.
Proof.
  intros Hb Hd Hin. rewrite forallb_forall in Hd. apply list_elem_of_In in Hin. apply Hd in Hin.
  by rewrite digit_semi in Hin.
Qed.

Lemma printed_tail uid gid perm desc :
  printed uid gid perm →
  (s ← behind_semi (printed_desc uid gid perm desc); s ← behind_semi s; s ← behind_semi s; behind_semi s) = Some desc.
Proof.
  intros [[Hu1 Hu2] [Hg1 Hg2] [Hp1 Hp2]]. unfold behind_semi, printed_desc.
  change (lit "psk;" ++ ?x) with (lit "psk" ++ c_semi :: x).
  rewrite split_char_app by (apply (bool_decide_unpack _); by vm_compute). cbn [mbind option_bind].
  rewrite split_char_app by (by apply (run_no_semi 10)). cbn [mbind option_bind].
  rewrite split_char_app by (by apply (run_no_semi 10)). cbn [mbind option_bind].
  by rewrite split_char_app by (by apply (run_no_semi 16)).
Qed.

Lemma scan_printed uid gid perm desc :
  printed uid gid perm →
  scan_keys_cb (printed_desc uid gid perm desc) = (if tls_desc desc then Some desc else None).
Proof.
  intros [[Hu1 Hu2] [Hg1 Hg2] [Hp1 Hp2]]. unfold scan_keys_cb.
  replace (length (printed_desc uid gid perm desc) <? 6)%nat with false.
  2:{ symmetry. apply Nat.ltb_ge. unfold printed_desc. rewrite !length_app. cbn. rewrite length_app. cbn.
      rewrite length_app, Hp1. lia. }
  assert (Hs : is_psk_desc (printed_desc uid gid perm desc) = tls_desc desc).
  { unfold is_psk_desc, printed_desc. rewrite scan_lit_app. cbn [mbind option_bind].
    rewrite scan_num_run; [|auto|done|done|right; eauto|auto]. cbn [mbind option_bind].
    change (c_semi :: gid ++ ?x) with (lit ";" ++ gid ++ x). rewrite scan_lit_app. cbn [mbind option_bind].
    rewrite scan_num_run; [|auto|done|done|right; eauto|auto]. cbn [mbind option_bind].
    change (c_semi :: perm ++ ?x) with (lit ";" ++ perm ++ x). rewrite scan_lit_app. cbn [mbind option_bind].
    rewrite scan_num_run; [|auto|by destruct perm|done|right; eauto|by left]. cbn [mbind option_bind].
    change (lit ";NVMe") with (c_semi :: lit "NVMe"). by rewrite scan_lit_cons. }
  rewrite Hs. destruct (tls_desc desc); [|done]. cbn [orb negb]. by apply printed_tail.
Qed.

(** ** The laws of the key ring *)

(** The descriptions of the live "psk" keys of a key ring, and of those the
    session key ring reaches; whether a key ring is linked to the session. *)
Class KeyView (K : Type) := {
  psks : K → Z → list (list Z);
  session : K → list (list Z);
  linked : K → Z → Prop }.

(** A change that leaves a key ring as it is, but for some keys. *)
Record keeps {K} `{Keyutils K, KeyView K} (k k' : K) : Prop := {
  keep_find n : find_keyring n k' = find_keyring n k;
  keep_session d : d ∈ session k → d ∈ session k';
  keep_linked kr : linked k kr → linked k' kr }.

(** What keyctl(2) and add_key(2) document: a call that fails changes nothing,
    a key that was revoked is gone, and a key that was added is there.  Every
    call may fail. *)
Class KeyLaws (K : Type) `{Keyutils K, KeyView K} : Prop := {
  find_serial n k id : find_keyring n k = Ok id → 0 < id;
  link_law id k : let '(r, k') := keyctl_link id k in
    keeps k k' ∧ (∀ kr, psks k' kr = psks k kr) ∧ (r = Ok tt → linked k' id);
  linked_law kr k d : linked k kr → d ∈ psks k kr → d ∈ session k;
  search_law kr d k s : keyctl_search kr psk_type d k = Ok s → 0 < s ∧ d ∈ psks k kr;
  session_law d k s : session_search psk_type d k = Ok s → d ∈ session k;
  revoke_law kr d k s : keyctl_search kr psk_type d k = Ok s →
    let '(r, k') := keyctl_revoke s k in
    (∀ n, find_keyring n k' = find_keyring n k) ∧ (∀ kr, linked k kr → linked k' kr) ∧
    (∀ x, x ∈ psks k' kr ↔ x ∈ psks k kr ∧ (r = Ok tt → x ≠ d)) ∧
    (∀ x, x ∈ session k → (r = Ok tt → x ≠ d) → x ∈ session k');
  add_law d p kr k s k' : add_key psk_type d p kr k = (Ok s, k') →
    keeps k k' ∧ (∀ x, x ∈ psks k' kr ↔ x = d ∨ x ∈ psks k kr);
  scan_law kr k d : d ∈ psks k kr ↔
    ∃ s uid gid perm, (s, printed_desc uid gid perm d) ∈ key_scan kr k ∧ printed uid gid perm;
  scan_form kr k e : e ∈ key_scan kr k →
    scan_keys_cb e.2 = None ∨ ∃ uid gid perm d, printed uid gid perm ∧ e.2 = printed_desc uid gid perm d }.

Section KeyImport.
Context {K : Type} `{KeyLaws K} `{OsslLaws}.

Lemma set_keyring_ok id k k' :
  0 < id → libnvmf_set_keyring id k = (Ok tt, k') →
  keeps k k' ∧ (∀ kr, psks k' kr = psks k kr) ∧ linked k' id.
Proof.
  intros Hid. unfold libnvmf_set_keyring. replace (id =? 0) with false by (symmetry; apply Z.eqb_neq; lia).
  intros Hl. pose proof (link_law id k) as Hk. rewrite Hl in Hk. naive_solver.
Qed.

(** The descriptions a scan reports. *)
Lemma scanned kr k d :
  d ∈ omap (λ e : Z * list Z, scan_keys_cb e.2) (key_scan kr k) ↔ d ∈ psks k kr ∧ tls_desc d = true.
Proof.
  rewrite list_elem_of_omap. split.
  - intros (e & He & Hd). destruct (scan_form _ _ _ He) as [Hn|(uid & gid & perm & d' & Hp & Heq)]; [congruence|].
    rewrite Heq, scan_printed in Hd by done. destruct (tls_desc d') eqn:Ht; [|done]. injection Hd as <-.
    split; [|done]. apply scan_law. exists e.1, uid, gid, perm. split; [|done]. by rewrite <- Heq, <- surjective_pairing.
  - intros [Hd Ht]. apply scan_law in Hd as (s & uid & gid & perm & Hin & Hp).
    exists (s, printed_desc uid gid perm d). split; [done|].
    change (scan_keys_cb (printed_desc uid gid perm d) = Some d). by rewrite scan_printed, Ht.
Qed.

(** Revoking a list of keys: what is left of them was logged. *)
Lemma revoke_all_ok keyring kr ids k k' log :
  libnvmf_lookup_keyring keyring k = Ok kr → revoke_all keyring ids k = (k', log) →
  (∀ x, x ∈ psks k' kr → x ∈ psks k kr ∧ (x ∈ ids → ∃ e, LogCannotRevoke x e ∈ log)) ∧
  (∀ x, x ∈ psks k kr → x ∉ ids → x ∈ psks k' kr) ∧
  (∀ x, x ∈ session k → x ∉ ids → x ∈ session k').
Proof.
  revert k log. induction ids as [|i ids IH]; intros k log Hk; cbn [revoke_all].
  { intros [= <- <-]. split_and!; [|done..]. intros x Hx. split; [done|]. by intros ?%elem_of_nil. }
  unfold libnvmf_revoke_tls_key. rewrite Hk.
  destruct (keyctl_search kr psk_type i k) as [s|e] eqn:Es.
  - pose proof (revoke_law _ _ _ _ Es) as Hr. destruct (keyctl_revoke s k) as [r k1].
    destruct Hr as (Hf & _ & Hp & Hse).
    assert (Hk1 : libnvmf_lookup_keyring keyring k1 = Ok kr) by (unfold libnvmf_lookup_keyring in *; by rewrite Hf).
    destruct r as [[]|e].
    + intros Hrun. destruct (IH k1 log Hk1 Hrun) as (R1 & R2 & R3). split_and!.
      * intros x Hx. destruct (R1 x Hx) as [Hx1 Hl]. apply Hp in Hx1 as [Hx1 Hd]. split; [done|].
        intros [->|Hi]%elem_of_cons; [by destruct (Hd eq_refl)|auto].
      * intros x Hx [? ?]%not_elem_of_cons. apply R2; [|done]. by apply Hp.
      * intros x Hx [? ?]%not_elem_of_cons. auto.
    + destruct (revoke_all keyring ids k1) as [k2 log1] eqn:Hrun. intros [= <- <-].
      destruct (IH k1 log1 Hk1 Hrun) as (R1 & R2 & R3). split_and!.
      * intros x Hx. destruct (R1 x Hx) as [Hx1 Hl]. apply Hp in Hx1 as [Hx1 _]. split; [done|].
        intros [->|Hi]%elem_of_cons; [exists e; apply list_elem_of_here|].
        destruct (Hl Hi) as [e' He']. exists e'. by apply list_elem_of_further.
      * intros x Hx [? ?]%not_elem_of_cons. apply R2; [|done]. by apply Hp.
      * intros x Hx [? ?]%not_elem_of_cons. apply R3; [|done]. by apply Hse.
  - destruct (revoke_all keyring ids k) as [k2 log1] eqn:Hrun. intros [= <- <-].
    destruct (IH k log1 Hk Hrun) as (R1 & R2 & R3). split_and!.
    + intros x Hx. destruct (R1 x Hx) as [Hx1 Hl]. split; [done|].
      intros [->|Hi]%elem_of_cons; [exists e; apply list_elem_of_here|].
      destruct (Hl Hi) as [e' He']. exists e'. by apply list_elem_of_further.
    + intros x Hx [? ?]%not_elem_of_cons. auto.
    + intros x Hx [? ?]%not_elem_of_cons. auto.
Qed.

(** The identities that are collected; all of them unless memory was short. *)
Lemma collected hostnqn subsysnqn keep acc descs ids err x :
  collect_other_key hostnqn subsysnqn keep acc descs = (ids, err) →
  let other := x ∈ acc ∨ x ∈ descs ∧ x ≠ keep ∧ names_pair hostnqn subsysnqn x = true in
  (x ∈ ids → other) ∧ (err = None → other → x ∈ ids).
Proof.
  cbv zeta. revert acc. induction descs as [|d descs IH]; intros acc; cbn [collect_other_key].
  { intros [= <- <-]. rewrite elem_of_nil. tauto. }
  unfold str_eqb at 1. rewrite elem_of_cons. case_bool_decide as Hd.
  { intros Hc%IH. assert (x = d → x = keep) by congruence. tauto. }
  destruct (negb (ossl_malloc _)). { intros [= <- <-]. split; [tauto|done]. }
  destruct (names_pair hostnqn subsysnqn d) eqn:Hp; cbn [negb].
  - destruct (negb (ossl_malloc _)). { intros [= <- <-]. split; [tauto|done]. }
    intros Hc%IH. rewrite elem_of_app, list_elem_of_singleton in Hc.
    assert (x = d → x ≠ keep ∧ names_pair hostnqn subsysnqn x = true) by (by intros ->). tauto.
  - intros Hc%IH. assert (x = d → names_pair hostnqn subsysnqn x ≠ true) by (intros ->; by rewrite Hp). tauto.
Qed.

(** The older keys of the pair are revoked, and no others; what is not revoked
    was logged. *)
Lemma revoke_others_ok keyring kr hostnqn subsysnqn keep k k' log :
  libnvmf_lookup_keyring keyring k = Ok kr → revoke_other_keys keyring hostnqn subsysnqn keep k = (k', log) →
  let other x := tls_desc x = true ∧ x ≠ keep ∧ names_pair hostnqn subsysnqn x = true in
  (∀ x, x ∈ psks k' kr → x ∈ psks k kr ∧
        (other x → (∃ e, LogCannotRevoke x e ∈ log) ∨ ∃ e, LogCannotScan e ∈ log)) ∧
  (∀ x, x ∈ psks k kr → ¬ other x → x ∈ psks k' kr) ∧
  (keep ∈ session k → keep ∈ session k').
Proof.
  intros Hk. pose proof (find_serial _ _ _ Hk) as Hpos. cbv zeta.
  unfold revoke_other_keys, libnvmf_scan_tls_keys, libnvmf_set_keyring. rewrite Hk.
  replace (kr =? 0) with false by (symmetry; apply Z.eqb_neq; lia).
  pose proof (link_law kr k) as Hl. destruct (keyctl_link kr k) as [[[]|e] k1]; destruct Hl as ([Hf Hse _] & Hps & _).
  2:{ intros [= <- <-]. split_and!; [|intros x; by rewrite Hps|by apply Hse].
      intros x. rewrite Hps. intros Hx. split; [done|]. intros _. right. exists e. apply list_elem_of_here. }
  assert (Hk1 : libnvmf_lookup_keyring keyring k1 = Ok kr) by (unfold libnvmf_lookup_keyring in *; by rewrite Hf).
  destruct (collect_other_key _ _ _ _ _) as [ids err] eqn:Hc.
  destruct (revoke_all keyring ids k1) as [k2 log1] eqn:Hrun. intros [= <- <-].
  destruct (revoke_all_ok keyring kr ids k1 k2 log1 Hk1 Hrun) as (R1 & R2 & R3).
  assert (Hids : ∀ x, (x ∈ ids → (x ∈ psks k kr ∧ tls_desc x = true) ∧ x ≠ keep ∧ names_pair hostnqn subsysnqn x = true) ∧
    (err = None → (x ∈ psks k kr ∧ tls_desc x = true) ∧ x ≠ keep ∧ names_pair hostnqn subsysnqn x = true → x ∈ ids)).
  { intros x. pose proof (collected _ _ _ _ _ _ _ x Hc) as Hx. cbv zeta in Hx.
    rewrite scanned, elem_of_nil, Hps in Hx. tauto. }
  split_and!.
  - intros x Hx. destruct (R1 x Hx) as [Hx1 Hlog]. rewrite Hps in Hx1. split; [done|]. intros Ho.
    destruct err as [e|]; [right; exists e; apply list_elem_of_here|]. left. apply Hlog.
    apply (proj2 (Hids x)); tauto.
  - intros x Hx Hno. rewrite <- Hps in Hx. apply R2; [done|]. intros Hi%Hids. tauto.
  - intros Hin. apply R3; [by apply Hse|]. intros Hi%Hids. tauto.
Qed.

(** A key that is stored replaces the one of its description. *)
Lemma update_key_ok kr d p k s k' :
  libnvmf_update_key kr psk_type d p k = (Ok s, k') →
  (∀ n, find_keyring n k' = find_keyring n k) ∧ (∀ r, linked k r → linked k' r) ∧
  (∀ x, x ∈ psks k' kr ↔ x = d ∨ x ∈ psks k kr).
Proof.
  unfold libnvmf_update_key.
  assert (Hadd : ∀ k0, add_key psk_type d p kr k0 = (Ok s, k') → 
            (∀ n, find_keyring n k' = find_keyring n k0) ∧ (∀ r, linked k0 r → linked k' r) ∧
            (∀ x, x ∈ psks k' kr ↔ x = d ∨ x ∈ psks k0 kr)).
  { intros k0 ([? _ ?] & ?)%add_law. done. }
  destruct (keyctl_search kr psk_type d k) as [key|e] eqn:E; [|by apply Hadd].
  destruct (search_law _ _ _ _ E) as [Hpos Hin]. replace (0 <? key) with true by (symmetry; by apply Z.ltb_lt).
  pose proof (revoke_law _ _ _ _ E) as Hr. destruct (keyctl_revoke key k) as [[[]|e] k1]; [|done].
  destruct Hr as (Hf & Hl & Hp & _). intros (Hf' & Hl' & Hp')%Hadd.
  split_and!; [intros n; by rewrite Hf'|auto|]. intros x. rewrite Hp', Hp.
  destruct (decide (x = d)) as [->|]; naive_solver.
Qed.

(** The key that is inserted has the identity that was generated before. *)
Lemma insert_ident kr hostnqn subsysnqn version hmac psk ident k :
  generate_identity false hostnqn subsysnqn version hmac psk = Some (Ok ident) →
  ∃ tls, insert_tls_key kr psk_type hostnqn subsysnqn version hmac psk false k =
         Some (libnvmf_update_key kr psk_type ident tls k).
Proof.
  unfold generate_identity, insert_tls_key.
  destruct (nvme_identity_len _ _ _ _) as [size|]; [|done]. unfold malloc_, need.
  destruct (ossl_malloc size); [|done]. cbn [buf_bind negb].
  destruct ((0 <? length psk)%nat && _); [|done]. cbn [buf_bind negb].
  destruct (derive_nvme_keys _ _ _ _ _ _ _) as [[[i t]|]|]; [|done..]. cbn [buf_bind fst snd].
  destruct (length t =? length psk)%nat; [|done]. cbn [buf_bind negb]. intros [= ->]. eauto.
Qed.

(** ** Identities *)

Lemma tls_desc_identity version cipher hostnqn subsysnqn digest :
  version = 0 ∨ version = 1 → tls_desc (identity_text version cipher hostnqn subsysnqn digest) = true.
Proof. by intros [-> | ->]; destruct cipher. Qed.

Lemma strtok_sep c s r : c ∉ s → s ≠ [] → strtok c (s ++ c :: r) = s :: strtok c r.
Proof. intros Hs Hne. unfold strtok. rewrite fields_sep by done. cbn. by destruct s. Qed.

Lemma strtok_single c s : c ∉ s → s ≠ [] → strtok c s = [s].
Proof. intros Hs Hne. unfold strtok. rewrite fields_single by done. cbn. by destruct s. Qed.

(** An NQN: a text with no space. *)
Definition nqn_text (s : list Z) : Prop := s ≠ [] ∧ (32 ∉ s).

Lemma names_pair_identity hostnqn subsysnqn version cipher host subsys digest :
  version = 0 ∨ version = 1 → nqn_text host → nqn_text subsys →
  names_pair hostnqn subsysnqn (identity_text version cipher host subsys digest) = true ↔
  host = hostnqn ∧ subsys = subsysnqn.
Proof.
  intros Hv [Hh Hh'] [Hs Hs']. unfold names_pair, identity_text.
  set (t := match digest with Some d => _ | None => _ end).
  replace (lit "NVMe" ++ _) with
    ((lit "NVMe" ++ print_int version ++ lit "R" ++ print_02d (alg_value cipher)) ++ 32 :: host ++ 32 :: subsys ++ t)
    by (by rewrite <- !app_assoc).
  rewrite strtok_sep.
  2:{ apply (bool_decide_unpack _). destruct Hv as [-> | ->]; by destruct cipher. }
  2:{ done. }
  rewrite strtok_sep by done.
  assert (Ht : ∃ rest, strtok 32 (subsys ++ t) = subsys :: rest).
  { subst t. destruct digest as [d|]; [|rewrite app_nil_r, strtok_single by done; eauto].
    change ([32] ++ d) with (32 :: d). rewrite strtok_sep by done. eauto. }
  destruct Ht as [rest ->]. unfold str_eqb. rewrite andb_true_iff, !bool_decide_eq_true. done.
Qed.

(** What an import leaves, once the key is in the session. *)
Definition left_keys (hostnqn subsysnqn ident : list Z) (kr : Z) (k k' : K) (log : list revoke_log) : Prop :=
  ∀ v cipher host subsys digest (d := identity_text v cipher host subsys digest),
    v = 0 ∨ v = 1 → nqn_text host → nqn_text subsys → d ≠ ident →
    if bool_decide ((host, subsys) = (hostnqn, subsysnqn)) then
      d ∈ psks k' kr → d ∈ psks k kr ∧ ((∃ e, LogCannotRevoke d e ∈ log) ∨ ∃ e, LogCannotScan e ∈ log)
    else d ∈ psks k' kr ↔ d ∈ psks k kr.

Lemma import_ends keyring kr hostnqn subsysnqn ident k k' log :
  libnvmf_lookup_keyring keyring k = Ok kr → ident ∈ session k →
  revoke_other_keys keyring hostnqn subsysnqn ident k = (k', log) →
  ident ∈ session k' ∧ left_keys hostnqn subsysnqn ident kr k k' log.
Proof.
  intros Hk Hin Hr. destruct (revoke_others_ok keyring kr _ _ _ _ _ _ Hk Hr) as (R1 & R2 & R3).
  split; [auto|]. intros version cipher host subsys digest d Hv Hh Hsub Hd.
  pose proof (tls_desc_identity version cipher host subsys digest Hv) as Ht.
  pose proof (names_pair_identity hostnqn subsysnqn version cipher host subsys digest Hv Hh Hsub) as Hn. fold d in Ht, Hn.
  assert ((host, subsys) = (hostnqn, subsysnqn) ↔ host = hostnqn ∧ subsys = subsysnqn)
    by (split; [by intros [= -> ->]|by intros [-> ->]]).
  case_bool_decide as Hp.
  - intros Hx. destruct (R1 d Hx) as [Hx1 Hl]. split; [done|]. apply Hl. tauto.
  - split; [by intros [? _]%R1|]. intros Hx. apply R2; [done|]. tauto.
Qed.

End KeyImport.

(** ** A key ring *)

(** One key ring with the serial 1, linked to the session.  A key has its text
    as its serial; the kernel refuses to revoke a key that is pinned. *)
Module SampleRing.
Definition ring : Type := list (list Z).

Definition perm_text : list Z := lit "3f010000".
Definition desc_text (d : list Z) : list Z := printed_desc (lit "0") (lit "0") perm_text d.

Definition serial (d : list Z) : Z := Zpos (encode d).
Definition pinned : list Z := lit "NVMe0R02 nqn.host nqn.subsys".
#[global] Arguments serial : simpl never.
#[global] Arguments pinned : simpl never.

#[export] Instance calls : Keyutils ring := {|
  find_keyring n k := if str_eqb n NVME_TLS_DEFAULT_KEYRING then Ok 1 else Err ENOKEY;
  keyctl_link id k := if id =? 1 then (Ok tt, k) else (Err ENOKEY, k);
  keyctl_search id t d k :=
    if (id =? 1) && str_eqb t psk_type && existsb (str_eqb d) k then Ok (serial d) else Err ENOKEY;
  session_search t d k := if str_eqb t psk_type && existsb (str_eqb d) k then Ok (serial d) else Err ENOKEY;
  keyctl_revoke s k := if s =? serial pinned then (Err EACCES, k)
                       else (Ok tt, List.filter (λ d, negb (serial d =? s)) k);
  add_key t d p id k := if (id =? 1) && str_eqb t psk_type then (Ok (serial d), k ++ [d]) else (Err ENOKEY, k);
  key_scan id k := if id =? 1 then (λ d, (serial d, desc_text d)) <$> k else [] |}.

#[export] Instance view : KeyView ring := {|
  psks k kr := if kr =? 1 then k else [];
  session k := k;
  linked k kr := kr = 1 |}.

Lemma exists_str d (k : ring) : existsb (str_eqb d) k = true ↔ d ∈ k.
Proof.
  rewrite existsb_exists, list_elem_of_In. unfold str_eqb. split.
  - intros (x & Hx & ->%bool_decide_eq_true). done.
  - intros Hd. exists d. by rewrite bool_decide_true.
Qed.

Lemma perm_printed : printed (lit "0") (lit "0") perm_text.
Proof. by split; split. Qed.

Lemma keeps_refl (k : ring) : keeps k k.
Proof. by split. Qed.

Lemma printed_inj uid gid perm d d' :
  printed uid gid perm → printed_desc uid gid perm d = desc_text d' → d = d'.
Proof.
  intros Hp E. pose proof (printed_tail _ _ _ d Hp) as H1. rewrite E in H1. unfold desc_text in H1.
  rewrite (printed_tail _ _ _ _ perm_printed) in H1. congruence.
Qed.

#[export] Instance laws : KeyLaws ring.
Proof.
  split; cbn.
  - intros n k id. case_match; [intros [= <-]; lia|done].
  - intros id k. destruct (Z.eqb_spec id 1) as [->|]; cbn; (split_and!; [apply keeps_refl|done|done]).
  - intros kr k d ->. done.
  - intros kr d k s. destruct (Z.eqb_spec kr 1) as [->|]; cbn; [|done].
    destruct (existsb (str_eqb d) k) eqn:E; cbn; [|done]. intros [= <-].
    apply exists_str in E. split; [done|exact E].
  - intros d k s. destruct (existsb (str_eqb d) k) eqn:E; cbn; [|done]. by rewrite <- exists_str.
  - intros kr d k s. destruct (Z.eqb_spec kr 1) as [->|]; [|done]. cbn.
    destruct (existsb (str_eqb d) k) eqn:E; [|done]. intros Hser. injection Hser as <-.
    assert (Hf : ∀ x, x ∈ List.filter (λ y, negb (serial y =? serial d)) k ↔ x ∈ k ∧ x ≠ d).
    { intros x. rewrite list_elem_of_In, filter_In, <- list_elem_of_In, negb_true_iff, Z.eqb_neq. unfold serial.
      split; intros [? Hx]; (split; [done|]); [congruence|]. by intros [= ?%(inj _)]. }
    destruct (serial d =? serial pinned); cbn beta iota.
    + split_and!; [done..| |done]. intros x. naive_solver.
    + split_and!; [done..| |]; intros x; rewrite Hf; naive_solver.
  - intros d p kr k s k'. destruct (Z.eqb_spec kr 1) as [->|]; [|done]. cbn. intros [= <- <-]. split.
    + split; [done| |done]. cbn. intros x ?. rewrite elem_of_app. auto.
    + intros x. rewrite elem_of_app, list_elem_of_singleton. tauto.
  - intros kr k d. destruct (Z.eqb_spec kr 1) as [->|].
    + split.
      * intros Hd. exists (serial d), (lit "0"), (lit "0"), perm_text. split; [|apply perm_printed].
        apply list_elem_of_fmap. exists d. done.
      * intros (s & uid & gid & perm & (d' & E & Hd)%list_elem_of_fmap & Hp). apply (f_equal snd) in E.
        by rewrite (printed_inj _ _ _ _ _ Hp E).
    + split; [by intros ?%elem_of_nil|by intros (? & ? & ? & ? & ?%elem_of_nil & _)].
  - intros kr k e. destruct (Z.eqb_spec kr 1) as [->|]; [|by intros ?%elem_of_nil].
    intros (d & -> & _)%list_elem_of_fmap. right. exists (lit "0"), (lit "0"), perm_text, d.
    split; [apply perm_printed|done].
Qed.

(** A ring with an older key of the pair, one that is pinned, and a key of
    another pair. *)
Definition older : list Z := lit "NVMe0R01 nqn.host nqn.subsys".
Definition another : list Z := lit "NVMe0R01 nqn.host nqn.other".
Definition import_into (k : ring) : option (result unit * (ring * list revoke_log)) :=
  @import_psk ring calls sample_ossl None (lit "nqn.host") (lit "nqn.subsys") zero_key_text k.
Definition run : option (result unit * (ring * list revoke_log)) := import_into [older; pinned; another].
Definition after : ring := match run with Some (_, (k, _)) => k | None => [] end.
End SampleRing.

