(* ===== verification/KmipPsk.v ===== *)
(** * Keys from a KMS: [keysd/src/kmip-psk.c]

    The object a KMS answers with becomes a key in the interchange format; the
    servers of a KMS are asked one after the other. *)

From Stdlib Require Import String.
From stdpp Require Import base list numbers.
From S2P Require Import Prelude.
From S2P Require Import CStr.
From S2P Require Import Crc32.
From S2P Require Import Base64.
From S2P Require Import Ttlv.
From S2P Require Import Kmip.
From S2P Require Import Psk.

Definition KMIP_PSK_MAX : nat := 128.
Definition KMIP_MSG_MAX : Z := 16384.
Definition KMIP_KEY_MAX : Z := 256.

(** ** Objects *)

(** The loop that drops line ends. *)
Definition drop_newlines (data : list Z) : list Z := rev (drop_while (in_set [c_nl; c_cr]) (rev data)).

Section Get.
(** Whether [malloc] of a size succeeds, and the one of TTLV buffers. *)
Context (malloc : nat → bool) (ttlv_malloc : Z → bool).

Definition psk_from_secret_data (data : list Z) : buffered (list Z) :=
  let data := drop_newlines data in
  if (length data =? 0)%nat || (KMIP_PSK_MAX <=? length data)%nat || existsb (Z.eqb 0) data
  then Some (Err EMEDIUMTYPE)
  else
    match libnvmf_import_tls_key_versioned malloc data with
    | None => None
    | Some (Err _) => Some (Err EMEDIUMTYPE)
    | Some (Ok _) => Some (Ok data)
    end.

Definition psk_from_symmetric_key (data : list Z) : buffered (list Z) :=
  if negb (length data =? 32)%nat && negb (length data =? 48)%nat then Some (Err EMEDIUMTYPE)
  else
    match libnvmf_export_tls_key malloc data with
    | None => None
    | Some (Err e) => Some (Err e)
    | Some (Ok encoded) =>
        if (length encoded <? KMIP_PSK_MAX)%nat then Some (Ok encoded) else Some (Err EMEDIUMTYPE)
    end.

Definition kmip_psk_from_object (obj_type : Z) (data : list Z) : buffered (list Z) :=
  if obj_type =? KMIP_OBJ_SECRET_DATA then psk_from_secret_data data
  else if obj_type =? KMIP_OBJ_SYMMETRIC_KEY then psk_from_symmetric_key data
  else Some (Err EMEDIUMTYPE).

(** ** One server *)

(** [kmip_tls_connect] and [kmip_tls_exchange] of a connection: the response
    to a request. *)
Record kmip_tls := KmipTls {
  tls_connect : result unit;
  tls_exchange : list Z → result (list Z);
}.

Definition exchange (t : kmip_tls) (req : ttlv_buf * option errno) : result (list Z) :=
  match req with
  | (_, Some e) => Err e
  | (req, None) => tls_exchange t (data req)
  end.

Definition get_from_server (t : kmip_tls) (name : list Z) : buffered (list Z) :=
  if negb (malloc (Z.to_nat KMIP_MSG_MAX)) then Some (Err ENOMEM)
  else
    match tls_connect t with
    | Err e => Some (Err e)
    | Ok _ =>
        match (resp ← exchange t (kmip_build_locate ttlv_malloc ttlv_buf_init kmip_v1_4 name KMIP_STATE_ACTIVE);
               (kmip_parse_locate resp kmip_v1_4 128).2) with
        | Err e => Some (Err e)
        | Ok uid =>
            match (resp ← exchange t (kmip_build_get ttlv_malloc ttlv_buf_init kmip_v1_4 uid);
                   (kmip_parse_get resp kmip_v1_4 KMIP_KEY_MAX).2) with
            | Err e => Some (Err (if bool_decide (e = EOPNOTSUPP) then EMEDIUMTYPE else e))
            | Ok (obj_type, key) => kmip_psk_from_object obj_type key
            end
        end
    end.

(** ** The servers of a KMS *)

Definition final_error (err : errno) : bool :=
  match err with ENOENT | ENOTUNIQ | EMEDIUMTYPE | ENOMEM => true | _ => false end.

(** The outcome of a name lookup: the error of the system, another error, or
    addresses. *)
Inductive lookup :=
| EAI_SYSTEM (err : option errno)
| EAI_OTHER
| RESOLVED.

(** What happens with a server: whether its lookup starts, the lookup, the
    time left when it ends, and the connection. *)
Record attempt := Attempt {
  at_start : result unit;
  at_lookup : lookup;
  at_left : Z;
  at_tls : kmip_tls;
}.

(** [kms->servers], what happens with a server of that name, and the name of
    the key. *)
Context (servers : list (list Z)) (E : list Z → attempt) (name : list Z).

Definition nr_servers : nat := length servers.

(** The changing part of [struct kmip_get]. *)
Record kmip_get := KmipGet { g_first : nat; g_n : nat; g_ret : errno }.

Definition server_index (g : kmip_get) : nat := ((g_first g + g_n g) mod nr_servers)%nat.

(** [kms->servers[server_index(g)]] *)
Definition server (g : kmip_get) : list Z := nth (server_index g) servers [].

(** The loop of [next_server] with [todo] servers to try: [Ok] when a lookup
    has started. *)
Fixpoint next_server (todo : nat) (g : kmip_get) : result kmip_get :=
  match todo with
  | O => Err (g_ret g)
  | S todo =>
      match at_start (E (server g)) with
      | Ok _ => Ok g
      | Err e => next_server todo (KmipGet (g_first g) (S (g_n g)) e)
      end
  end.

(** The first part of [on_resolved]: what the server answers. *)
Definition server_answer (a : attempt) : buffered (list Z) :=
  match at_lookup a with
  | EAI_SYSTEM err => Some (Err (default EHOSTUNREACH err))
  | EAI_OTHER => Some (Err EHOSTUNREACH)
  | RESOLVED => if at_left a <=? 0 then Some (Err ETIMEDOUT) else get_from_server (at_tls a) name
  end.

(** [on_resolved] and the lookups it starts, to the call of [done]: its result
    and its index of a server. *)
Fixpoint on_resolved (fuel : nat) (g : kmip_get) : option (buffered (list Z) * nat) :=
  match fuel with
  | O => None
  | S fuel =>
      match server_answer (E (server g)) with
      | Some (Err e) =>
          if final_error e then Some (Some (Err e), server_index g)
          else
            let g := KmipGet (g_first g) (S (g_n g)) e in
            match next_server (nr_servers - g_n g) g with
            | Ok g => on_resolved fuel g
            | Err e => Some (Some (Err e), ((g_first g + nr_servers) mod nr_servers)%nat)
            end
      | r => Some (r, server_index g)
      end
  end.

(** How [kmip_get_psk] ends: it fails, or [done] is called. *)
Inductive get_result :=
| Failed (e : errno)
| Called (r : buffered (list Z)) (server : nat)
| Hangs.

Definition kmip_get_psk (first : nat) (key_path : option (list Z)) : get_result :=
  if (nr_servers =? 0)%nat then Failed EHOSTUNREACH
  else if negb (malloc 96 && malloc (length name + 1) &&
                 match key_path with Some p => malloc (length p + 1)%nat | None => true end) then Failed ENOMEM
  else
    let first := if (first <? nr_servers)%nat then first else 0%nat in
    match next_server nr_servers (KmipGet first 0 EHOSTUNREACH) with
    | Err e => Failed e
    | Ok g => match on_resolved nr_servers g with Some (r, i) => Called r i | None => Hangs end
    end.
End Get.

(** ** Objects give keys *)

Lemma symmetric_text malloc d :
  (∀ n, malloc n = true) → bytes d → length d = 32%nat ∨ length d = 48%nat →
  ∃ hmac text, psk_from_symmetric_key malloc d = Some (Ok text) ∧ key_text text hmac d ∧ (length text < 128)%nat.
Proof.
  intros Hm Hb Hl. unfold psk_from_symmetric_key, libnvmf_export_tls_key.
  set (hmac := if (_ =? 32)%nat then _ else _).
  assert (Hok : export_len_ok hmac (length d) = true) by (subst hmac; by destruct Hl as [-> | ->]).
  replace (negb (length d =? 32)%nat && negb (length d =? 48)%nat) with false by (by destruct Hl as [-> | ->]).
  rewrite export_text by done. set (text := key_header _ _ ++ _).
  assert (Ht : key_text text hmac d) by (by apply exported_key_text).
  assert (Hlen : (length text < KMIP_PSK_MAX)%nat).
  { destruct Ht as (_ & _ & _ & -> & _). destruct Hl as [-> | ->]; apply Nat.ltb_lt; reflexivity. }
  exists hmac, text. replace (length text <? KMIP_PSK_MAX)%nat with true by (symmetry; by apply Nat.ltb_lt). done.
Qed.

(** A key object gives a text in the interchange format that is imported, for a
    symmetric key with the bytes of the object; it overruns no buffer. *)
Theorem kmip_psk_valid malloc t d :
  (∀ n, malloc n = true) → bytes d →
  kmip_psk_from_object malloc t d ≠ None ∧
  (t = KMIP_OBJ_SYMMETRIC_KEY → length d = 32%nat ∨ length d = 48%nat →
   ∃ psk, kmip_psk_from_object malloc t d = Some (Ok psk)) ∧
  ∀ psk, kmip_psk_from_object malloc t d = Some (Ok psk) →
    (length psk < KMIP_PSK_MAX)%nat ∧
    ∃ v hmac key, libnvmf_import_tls_key_versioned malloc psk = Some (Ok (v, hmac, key)) ∧
      (t = KMIP_OBJ_SYMMETRIC_KEY → key = d).
Proof.
  intros Hm Hb. unfold kmip_psk_from_object.
  destruct (Z.eqb_spec t KMIP_OBJ_SECRET_DATA) as [->|_]; [|destruct (Z.eqb_spec t KMIP_OBJ_SYMMETRIC_KEY) as [->|]].
  - unfold psk_from_secret_data. pose proof (import_in_bounds malloc (drop_newlines d)) as Hi.
    destruct (Nat.leb_spec KMIP_PSK_MAX (length (drop_newlines d))) as [Hle|Hlt]; rewrite ?orb_true_r, ?orb_false_r.
    { by split_and!. }
    case_match; [by split_and!|].
    destruct (libnvmf_import_tls_key_versioned malloc (drop_newlines d)) as [[[[v h] k]|e]|] eqn:Ei; [|by split_and!|done].
    split_and!; [done..|]. intros psk [= <-]. split; [done|]. exists v, h, k. done.
  - destruct (decide (length d = 32%nat ∨ length d = 48%nat)) as [Hl|Hl].
    + destruct (symmetric_text malloc d Hm Hb Hl) as (hmac & text & -> & Ht & Hlen).
      split_and!; [done|eauto|]. intros psk [= <-]. split; [done|]. exists 1, hmac, d.
      split; [by apply import_complete|done].
    + unfold psk_from_symmetric_key.
      replace (negb (length d =? 32)%nat && negb (length d =? 48)%nat) with true; [by split_and!|].
      symmetry. apply andb_true_iff. rewrite !negb_true_iff, !Nat.eqb_neq. tauto.
  - by split_and!.
Qed.

(** ** Which server answers *)

Lemma find_seq_first (p : nat → bool) len m :
  List.find p (seq 0 len) = Some m → (m < len)%nat ∧ p m = true ∧ ∀ i, (i < m)%nat → p i = false.
Proof.
  enough (G : ∀ s, List.find p (seq s len) = Some m → (s ≤ m < s + len)%nat ∧ p m = true ∧ ∀ i, (s ≤ i < m)%nat → p i = false).
  { intros (? & ? & Hf)%G. split_and!; [lia|done|]. intros i Hi. apply Hf. lia. }
  induction len as [|len IH]; intros s; cbn [seq List.find]; [done|].
  destruct (p s) eqn:E; [intros [= <-]; split_and!; [lia..|done|lia]|].
  intros (? & ? & Hf)%IH. split_and!; [lia..|done|]. intros i Hi.
  destruct (decide (i = s)) as [->|]; [done|]. apply Hf. lia.
Qed.

Section Servers.
Context (malloc : nat → bool) (ttlv_malloc : Z → bool).
Context (servers : list (list Z)) (E : list Z → attempt) (name : list Z).
Abbreviation n := (length servers).

(** The place of the first server, as the caller asks for it, and the [i]-th
    server from there, around the list. *)
Definition first_of (first : nat) : nat := if (first <? n)%nat then first else 0%nat.
Definition place (first i : nat) : nat := ((first_of first + i) mod n)%nat.
Definition tried (first i : nat) : attempt := E (nth (place first i) servers []).

(** Its answer, when its name can be looked up. *)
Definition answer (first i : nat) : buffered (list Z) := server_answer malloc ttlv_malloc name (tried first i).

(** The errors that another server would answer with too: the key is not
    there, is there more than once, or is no key; and there is no memory. *)
Definition same_everywhere : list errno := [ENOENT; ENOTUNIQ; EMEDIUMTYPE; ENOMEM].

(** The answer of the [i]-th server is given to the caller: its lookup starts,
    and it has a key or one of these errors. *)
Definition stops (first i : nat) : bool :=
  is_ok (at_start (tried first i)) &&
  match answer first i with
  | Some (Err e) => bool_decide (e ∈ same_everywhere)
  | _ => true
  end.

(** The error of one that does not answer. *)
Definition trouble (first i : nat) : errno :=
  match at_start (tried first i), answer first i with
  | Err e, _ => e
  | Ok _, Some (Err e) => e
  | Ok _, _ => EHOSTUNREACH
  end.

(** What [kmip_get_psk] allocates itself. *)
Definition own_memory (key_path : option (list Z)) : bool :=
  malloc 96 && malloc (length name + 1)%nat &&
  match key_path with Some p => malloc (length p + 1)%nat | None => true end.

Definition run (todo fuel : nat) (g : kmip_get) : option (buffered (list Z) * nat) :=
  match next_server servers E todo g with
  | Ok g => on_resolved malloc ttlv_malloc servers E name fuel g
  | Err e => Some (Some (Err e), ((g_first g + n) mod n)%nat)
  end.

Lemma final_errors e : final_error e = bool_decide (e ∈ same_everywhere).
Proof. by destruct e; vm_compute. Qed.

Context (first : nat).

Lemma server_tried g : g_first g = first_of first → E (server servers g) = tried first (g_n g).
Proof. intros Hf. unfold tried, server, server_index, place, nr_servers. by rewrite Hf. Qed.

(** One server more. *)
Lemma run_step todo fuel g :
  g_first g = first_of first → (g_n g + S todo = n)%nat → (S todo ≤ fuel)%nat →
  run (S todo) fuel g =
  if stops first (g_n g) then Some (answer first (g_n g), place first (g_n g))
  else run todo (match at_start (tried first (g_n g)) with Ok _ => pred fuel | Err _ => fuel end)
         (KmipGet (g_first g) (S (g_n g)) (trouble first (g_n g))).
Proof.
  intros Hg Hn Hf. unfold run at 1, stops, trouble. cbn [next_server]. rewrite server_tried by done.
  destruct (at_start (tried first (g_n g))) as [u|e] eqn:Es; [|done].
  destruct fuel as [|fuel]; [lia|]. cbn [on_resolved pred is_ok andb]. rewrite server_tried by done.
  unfold answer, place, server_index, nr_servers. rewrite Hg.
  destruct (server_answer _ _ _ _) as [[psk|e]|] eqn:Ea; [done| |done].
  rewrite final_errors. case_bool_decide; [done|]. cbn [g_n g_first].
  replace (n - S (g_n g))%nat with todo by lia. unfold run.
  destruct (next_server _ _ todo _) as [g'|e'] eqn:En; [done|]. cbn [g_first]. done.
Qed.

Lemma run_spec todo fuel g :
  g_first g = first_of first → (g_n g + todo = n)%nat → (todo ≤ fuel)%nat →
  (∀ m, (g_n g ≤ m < n)%nat → stops first m = true → (∀ i, (g_n g ≤ i < m)%nat → stops first i = false) →
     run todo fuel g = Some (answer first m, place first m)) ∧
  ((∀ i, (g_n g ≤ i < n)%nat → stops first i = false) →
     run todo fuel g = Some (Some (Err (if (todo =? 0)%nat then g_ret g else trouble first (n - 1))),
                             place first n)).
Proof.
  revert fuel g. induction todo as [|todo IH]; intros fuel g Hg Hn Hf.
  { split; [lia|]. unfold run, place. cbn. by rewrite Hg. }
  rewrite run_step by done. set (g' := KmipGet _ _ _).
  destruct (IH (match at_start (tried first (g_n g)) with Ok _ => pred fuel | Err _ => fuel end) g') as [IH1 IH2];
    [done|cbn; lia|destruct (at_start _); lia|]. split.
  - intros m Hm Hs Hfirst. destruct (decide (m = g_n g)) as [->|Hne]; [by rewrite Hs|].
    rewrite (Hfirst (g_n g)) by lia. apply IH1; cbn; [lia|done|]. intros i Hi. apply Hfirst. lia.
  - intros Hall. rewrite (Hall (g_n g)) by lia. rewrite IH2 by (cbn; intros i Hi; apply Hall; lia).
    cbn [g_first g_ret]. destruct todo as [|todo]; [|done]. cbn [Nat.eqb].
    by replace (n - 1)%nat with (g_n g) by lia.
Qed.

Lemma get_psk_run key_path :
  own_memory key_path = true → (0 < n)%nat →
  kmip_get_psk malloc ttlv_malloc servers E name first key_path =
  match next_server servers E n (KmipGet (first_of first) 0 EHOSTUNREACH) with
  | Err e => Failed e
  | Ok _ => match run n n (KmipGet (first_of first) 0 EHOSTUNREACH) with
            | Some (r, i) => Called r i
            | None => Hangs
            end
  end.
Proof.
  intros Hm Hn. unfold kmip_get_psk, run, first_of, nr_servers.
  replace (n =? 0)%nat with false by (symmetry; apply Nat.eqb_neq; lia).
  unfold own_memory in Hm. rewrite Hm. cbn [negb]. by destruct (next_server _ _ n _).
Qed.

Lemma next_all_fail todo g :
  g_first g = first_of first →
  (∀ i, (g_n g ≤ i < g_n g + todo)%nat → ∃ e, at_start (tried first i) = Err e) ↔
  ∃ e, next_server servers E todo g = Err e.
Proof.
  revert g. induction todo as [|todo IH]; intros g Hg; cbn [next_server].
  { split; [eauto|]. intros _ i Hi. lia. }
  rewrite server_tried by done. destruct (at_start (tried first (g_n g))) as [u|e] eqn:Es.
  - split; [|by intros [e ?]]. intros Ha. destruct (Ha (g_n g)) as [e He]; [lia|]. congruence.
  - rewrite <- IH by done. cbn [g_n]. split; intros Ha i Hi.
    + apply Ha. lia.
    + destruct (decide (i = g_n g)) as [->|]; [eauto|]. apply Ha. lia.
Qed.

Lemma next_error todo g e :
  g_first g = first_of first → next_server servers E todo g = Err e →
  e = (if (todo =? 0)%nat then g_ret g else trouble first (g_n g + todo - 1)).
Proof.
  revert g. induction todo as [|todo IH]; intros g Hg; cbn [next_server]; [by intros [= <-]|].
  rewrite server_tried by done. destruct (at_start (tried first (g_n g))) as [u|e'] eqn:Es; [done|].
  intros ->%IH; [|done]. cbn [g_n g_ret Nat.eqb].
  destruct todo as [|todo]; cbn [Nat.eqb].
  - unfold trouble. replace (g_n g + 1 - 1)%nat with (g_n g) by lia. by rewrite Es.
  - f_equal. lia.
Qed.

Lemma place_around : (0 < n)%nat → place first n = first_of first.
Proof.
  intros Hn. unfold place. assert (first_of first < n)%nat
    by (unfold first_of; destruct (Nat.ltb_spec first n); lia).
  replace (first_of first + n)%nat with (first_of first + 1 * n)%nat by lia.
  rewrite Nat.Div0.mod_add. by apply Nat.mod_small.
Qed.

(** All servers are asked in vain. *)
Lemma get_psk_vain key_path :
  own_memory key_path = true → (0 < n)%nat → (∀ i, (i < n)%nat → stops first i = false) →
  kmip_get_psk malloc ttlv_malloc servers E name first key_path =
  let e := trouble first (n - 1) in
  if forallb (λ i, negb (is_ok (at_start (tried first i)))) (seq 0 n) then Failed e
  else Called (Some (Err e)) (first_of first).
Proof.
  intros Hm Hn Hall. rewrite get_psk_run by done. set (g := KmipGet _ _ _).
  destruct (run_spec n n g eq_refl eq_refl (Nat.le_refl _)) as [_ H2].
  rewrite H2 by (intros i Hi; apply Hall; lia). rewrite place_around by done.
  pose proof (next_all_fail n g eq_refl) as Hfail. cbn [g g_n Nat.add] in Hfail.
  assert (Hb : forallb (λ i, negb (is_ok (at_start (tried first i)))) (seq 0 n) = true ↔
               ∃ e, next_server servers E n g = Err e).
  { rewrite <- Hfail, forallb_forall. split.
    - intros Ha i Hi. specialize (Ha i ltac:(apply in_seq; lia)). destruct (at_start (tried first i)); [done|eauto].
    - intros Ha i Hi%in_seq. destruct (Ha i ltac:(lia)) as [e ->]. done. }
  replace (n =? 0)%nat with false by (symmetry; apply Nat.eqb_neq; lia).
  destruct (next_server servers E n g) as [g'|e] eqn:En.
  - destruct (forallb _ _); [by destruct (proj1 Hb eq_refl)|]. done.
  - rewrite (proj2 Hb) by eauto. apply next_error in En; [|done]. cbn [g g_n Nat.add] in En.
    replace (n =? 0)%nat with false in En by (symmetry; apply Nat.eqb_neq; lia). by rewrite En.
Qed.

(** C20: The servers of a KMS are asked one after the other, from the one at the
    place the caller names on and around the list, or from the first when
    there is no such place.  The caller gets the answer of the first server
    that has a key or says one of ENOENT, ENOTUNIQ, EMEDIUMTYPE and ENOMEM,
    with the place of that server in the list; no server behind it is asked.
    When none does, each has been asked once, and the caller gets the error of
    the last one: from the callback, or as the result of the call when no
    lookup could be started.  Without servers the error is EHOSTUNREACH, and
    without memory for the request ENOMEM.  So the lookups end, and the
    callback is called at most once. *)
Theorem kmip_get_psk_asks key_path :
  kmip_get_psk malloc ttlv_malloc servers E name first key_path =
  if (n =? 0)%nat then Failed EHOSTUNREACH
  else if negb (own_memory key_path) then Failed ENOMEM
  else
    match List.find (stops first) (seq 0 n) with
    | Some m => Called (answer first m) (place first m)
    | None =>
        let e := trouble first (n - 1) in
        if forallb (λ i, negb (is_ok (at_start (tried first i)))) (seq 0 n) then Failed e
        else Called (Some (Err e)) (first_of first)
    end.
Proof.
  destruct (Nat.eqb_spec n 0) as [Hz|Hn].
  { unfold kmip_get_psk, nr_servers. by rewrite Hz. }
  destruct (own_memory key_path) eqn:Hm; cbn [negb].
  2:{ unfold kmip_get_psk, nr_servers, own_memory in *. rewrite Hm.
      by rewrite (proj2 (Nat.eqb_neq _ _) Hn). }
  destruct (List.find (stops first) (seq 0 n)) as [m|] eqn:Ef.
  - apply find_seq_first in Ef as (Hlt & Hs & Hfirst).
    rewrite get_psk_run by (done || lia). set (g := KmipGet _ _ _).
    destruct (run_spec n n g eq_refl eq_refl (Nat.le_refl _)) as [H1 _].
    rewrite (H1 m) by (cbn; auto with lia).
    destruct (next_server servers E n g) as [g'|e] eqn:En; [done|]. exfalso.
    pose proof (next_all_fail n g eq_refl) as Hfail. cbn [g g_n Nat.add] in Hfail.
    destruct (proj2 Hfail (ex_intro _ e En) m ltac:(lia)) as [e' He']. unfold stops in Hs. by rewrite He' in Hs.
  - apply get_psk_vain; [done|lia|]. intros i Hi. apply (List.find_none _ _ Ef). apply in_seq. lia.
Qed.

End Servers.

(** ** Three servers *)

Module KmipPskSample.
Import Tree KmipSpec.
Definition key : list Z := replicate 32 7.
(** A server that holds the key. *)
Definition good : kmip_tls := KmipTls (Ok tt) (λ req,
  if bool_decide (req = encode (get_request kmip_v1_4 (lit "id-7"))) then
    Ok (encode_all (sample_response KMIP_OP_GET
      [Leaf KMIP_TAG_OBJECT_TYPE (VEnum KMIP_OBJ_SYMMETRIC_KEY);
       Leaf KMIP_TAG_UNIQUE_IDENTIFIER (VText (lit "id-7"));
       Struct KMIP_TAG_SYMMETRIC_KEY [Struct KMIP_TAG_KEY_BLOCK
         [Leaf KMIP_TAG_KEY_FORMAT_TYPE (VEnum KMIP_KEY_FORMAT_RAW);
          Struct KMIP_TAG_KEY_VALUE [Leaf KMIP_TAG_KEY_MATERIAL (VBytes key)]]]]))
  else if bool_decide (req = encode (locate_request kmip_v1_4 (lit "k") KMIP_STATE_ACTIVE)) then
    Ok (encode_all (sample_response KMIP_OP_LOCATE [Leaf KMIP_TAG_UNIQUE_IDENTIFIER (VText (lit "id-7"))]))
  else Err EIO).
Definition bad : kmip_tls := KmipTls (Err ECONNREFUSED) (λ _, Err EIO).

(** The first cannot be looked up, the second refuses, the third has the key. *)
Definition servers : list (list Z) := [lit "a"; lit "b"; lit "c"].
Definition E (server : list Z) : attempt :=
  if bool_decide (server = lit "a") then Attempt (Err EIO) EAI_OTHER 0 bad
  else if bool_decide (server = lit "b") then Attempt (Ok tt) RESOLVED 500 bad
  else Attempt (Ok tt) RESOLVED 500 good.
Definition psk : list Z :=
  match server_answer (λ _, true) (λ _, true) (lit "k") (E (lit "c")) with Some (Ok p) => p | _ => [] end.
End KmipPskSample.

(** From the first on, the third is the first to answer; and from the third on
    the others are not asked. *)
Example kmip_get_psk_rotates :
  kmip_get_psk (λ _, true) (λ _, true) KmipPskSample.servers KmipPskSample.E (lit "k") 0 None =
    Called (Some (Ok KmipPskSample.psk)) 2 ∧
  kmip_get_psk (λ _, true) (λ _, true) KmipPskSample.servers KmipPskSample.E (lit "k") 2 None =
    Called (Some (Ok KmipPskSample.psk)) 2 ∧
  libnvmf_import_tls_key_versioned (λ _, true) KmipPskSample.psk =
    Some (Ok (1, LIBNVMF_HMAC_ALG_SHA2_256, KmipPskSample.key)).
Proof. split_and!; vm_compute; reflexivity. Qed.
