(* ===== verification/Registry.v ===== *)
(** * The registry of connections: [libnvme/src/nvme/registry.c]

    A directory with one directory per controller, and in it one file per
    attribute.  Several programs read it without a lock, so what counts is
    every state of the file system on the way: each system call is one step,
    may fail, and leaves a state in the trace. *)

From Stdlib Require Import String.
From stdpp Require Import base list numbers gmap.
From S2P Require Import Prelude.
From S2P Require Import CStr.
From S2P Require Import Printf.

(** ** Names *)

Definition valid_device (device : list Z) : bool :=
  match shr_startswith device (lit "nvme") with
  | Some p => nonempty p && forallb isdigit p
  | None => false
  end.

Definition attr_char (c : Z) : bool :=
  ((97 <=? c) && (c <=? 122)) || ((65 <=? c) && (c <=? 90)) || isdigit c || (c =? c_under) || (c =? c_minus).

Definition valid_attr (attr : list Z) : bool := nonempty attr && forallb attr_char attr.

(** [strstr(s, sub)] *)
Fixpoint strstr (s sub : list Z) : bool :=
  bool_decide (take (length sub) s = sub) || match s with [] => false | _ :: s => strstr s sub end.

(** ** The file system *)

(** The files of an entry, and the entries of the registry, once it exists. *)
Abbreviation dir := (gmap (list Z) (list Z)).
Abbreviation fs := (option (gmap (list Z) dir)).

Record rst := Rst { r_fs : fs; r_tick : nat; r_trace : list fs }.

Definition nl : list Z := [c_nl].

Section Registry.
(** The fault of the n-th call, and how many bytes a failed write has written;
    the random part of a name; the text of /sys/kernel/uevent_seqnum. *)
Context (fault : nat → option errno) (partial : nat → nat) (random : nat → list Z).
Context (uevent_seqnum : option (list Z)).

(** A system call. *)
Definition sys {A} (op : fs → result A * fs) (s : rst) : result A * rst :=
  match fault (r_tick s) with
  | Some e => (Err e, Rst (r_fs s) (S (r_tick s)) (r_trace s))
  | None => let '(r, f) := op (r_fs s) in (r, Rst f (S (r_tick s)) (f :: r_trace s))
  end.

(** A change of the directory [d] that exists. *)
Definition in_dir {A} (d : list Z) (op : dir → result A * dir) (f : fs) : result A * fs :=
  match f with
  | None => (Err ENOENT, f)
  | Some m =>
      match m !! d with
      | None => (Err ENOENT, f)
      | Some D => let '(r, D) := op D in (r, Some (<[d := D]> m))
      end
  end.

Definition op_root (f : fs) : result unit * fs := (Ok tt, Some (default ∅ f)).
Definition op_mkdir (n : list Z) (f : fs) : result unit * fs :=
  match f with
  | None => (Err ENOENT, f)
  | Some m => match m !! n with Some _ => (Err EEXIST, f) | None => (Ok tt, Some (<[n := ∅]> m)) end
  end.
Definition op_nothing (d : list Z) : fs → result unit * fs := in_dir d (λ D, (Ok tt, D)).
Definition op_create (d n : list Z) : fs → result unit * fs :=
  in_dir d (λ D, match D !! n with Some _ => (Err EEXIST, D) | None => (Ok tt, <[n := []]> D) end).
Definition op_append (d n data : list Z) : fs → result unit * fs :=
  in_dir d (λ D, (Ok tt, alter (λ c, c ++ data) n D)).
Definition op_rename (d n n' : list Z) : fs → result unit * fs :=
  in_dir d (λ D, match D !! n with Some c => (Ok tt, <[n' := c]> (delete n D)) | None => (Err ENOENT, D) end).
Definition op_unlink (d n : list Z) : fs → result unit * fs :=
  in_dir d (λ D, match D !! n with Some _ => (Ok tt, delete n D) | None => (Err ENOENT, D) end).
(** A directory replaces one that is absent or empty. *)
Definition op_rename_dir (n n' : list Z) (f : fs) : result unit * fs :=
  match f with
  | None => (Err ENOENT, f)
  | Some m =>
      match m !! n with
      | None => (Err ENOENT, f)
      | Some D => if bool_decide (default ∅ (m !! n') = ∅) then (Ok tt, Some (<[n' := D]> (delete n m)))
                  else (Err ENOTEMPTY, f)
      end
  end.
Definition op_rmdir (n : list Z) (f : fs) : result unit * fs :=
  match f with
  | None => (Err ENOENT, f)
  | Some m =>
      match m !! n with
      | None => (Err ENOENT, f)
      | Some D => if bool_decide (D = ∅) then (Ok tt, Some (delete n m)) else (Err ENOTEMPTY, f)
      end
  end.

(** [shr_write_all]; what was written before an error stays. *)
Definition write_all (d n data : list Z) (s : rst) : result unit * rst :=
  match fault (r_tick s) with
  | Some e =>
      let f := (op_append d n (take (partial (r_tick s)) data) (r_fs s)).2 in
      (Err e, Rst f (S (r_tick s)) (f :: r_trace s))
  | None => sys (op_append d n data) s
  end.

(** ** Attributes *)

Definition tmp_mark : list Z := lit ".tmp.".

(** [write_attr_atomic]; [dir_fd] is the directory [d]. *)
Definition write_attr_atomic (d attr : list Z) (value : option (list Z)) (s : rst) : result unit * rst :=
  if negb (valid_attr attr) then (Err EINVAL, s)
  else
    match value with
    | None =>
        match sys (op_unlink d attr) s with
        | (Err e, s) => if bool_decide (e = ENOENT) then (Ok tt, (sys (op_nothing d) s).2) else (Err e, s)
        | (Ok _, s) => (Ok tt, (sys (op_nothing d) s).2)
        end
    | Some value =>
        let tmp := attr ++ tmp_mark ++ random (r_tick s) in
        let undo e s := (Err e, (sys (op_unlink d tmp) s).2) in
        match sys (op_create d tmp) s with
        | (Err e, s) => (Err e, s)
        | (Ok _, s) =>
            match sys (op_nothing d) s with
            | (Err e, s) => undo e s
            | (Ok _, s) =>
                match write_all d tmp value s with
                | (Err e, s) => undo e s
                | (Ok _, s) =>
                    match write_all d tmp nl s with
                    | (Err e, s) => undo e s
                    | (Ok _, s) =>
                        match sys (op_rename d tmp attr) s with
                        | (Err e, s) => undo e s
                        | (Ok _, s) => (Ok tt, (sys (op_nothing d) s).2)
                        end
                    end
                end
            end
        end
    end.

(** The loop that strips line ends. *)
Definition strip_newlines (v : list Z) : list Z := rev (drop_while (in_set [c_nl; c_cr]) (rev v)).

(** [read_uevent_seqnum] *)
Definition read_uevent_seqnum : option (list Z) :=
  match uevent_seqnum with
  | None => None
  | Some t => let v := strip_newlines (take 31 t) in if nonempty v then Some v else None
  end.

(** [read_attr_fd] of a file. *)
Definition read_attr_fd (content : list Z) : result (list Z) :=
  if negb (nonempty content) then Err ENOENT else Ok (strip_newlines content).

(** ** Entries *)

(** The loop of [delete_dir]: the last error. *)
Fixpoint unlink_all (d : list Z) (names : list (list Z)) (ret : option errno) (s : rst) : option errno * rst :=
  match names with
  | [] => (ret, s)
  | n :: names =>
      if char_at n 0 =? c_dot then unlink_all d names ret s
      else
        match sys (op_unlink d n) s with
        | (Err e, s) => unlink_all d names (if bool_decide (e = ENOENT) then ret else Some e) s
        | (Ok _, s) => unlink_all d names ret s
        end
  end.

Definition dir_names (d : list Z) (f : fs) : list (list Z) :=
  match f with Some m => (map_to_list (default ∅ (m !! d))).*1 | None => [] end.

Definition delete_dir (d : list Z) (s : rst) : result unit * rst :=
  match sys (op_nothing d) s with
  | (Err e, s) => (Err e, s)
  | (Ok _, s) =>
      match unlink_all d (dir_names d (r_fs s)) None s with
      | (Some e, s) => (Err e, s)
      | (None, s) =>
          match sys (op_rmdir d) s with
          | (Err e, s) => if bool_decide (e = ENOENT) then (Ok tt, s) else (Err e, s)
          | (Ok _, s) => (Ok tt, s)
          end
      end
  end.

Definition delete_dir_atomic (path : list Z) (s : rst) : result unit * rst :=
  let trash := lit ".trash." ++ random (r_tick s) in
  match sys (op_mkdir trash) s with
  | (Err e, s) => (Err e, s)
  | (Ok _, s) =>
      match sys (op_rename_dir path trash) s with
      | (Err e, s) => (Err e, (sys (op_rmdir trash) s).2)
      | (Ok _, s) => delete_dir trash s
      end
  end.

Definition create_entry (device attr : list Z) (value : option (list Z)) (replace : bool) (s : rst) :
    result unit * rst :=
  match sys op_root s with
  | (Err e, s) => (Err e, s)
  | (Ok _, s) =>
      let tmp := lit "." ++ device ++ tmp_mark ++ random (r_tick s) in
      let undo e s := (Err e, (delete_dir tmp s).2) in
      match sys (op_mkdir tmp) s with
      | (Err e, s) => (Err e, s)
      | (Ok _, s) =>
          match sys (op_nothing tmp) s with
          | (Err e, s) => undo e s
          | (Ok _, s) =>
              match sys (op_nothing tmp) s with
              | (Err e, s) => undo e s
              | (Ok _, s) =>
                  let s := match read_uevent_seqnum with
                           | Some seqnum => (write_attr_atomic tmp (lit "seqnum") (Some seqnum) s).2
                           | None => s
                           end in
                  match write_attr_atomic tmp attr value s with
                  | (Err e, s) => undo e s
                  | (Ok _, s) =>
                      let s := if replace then (delete_dir_atomic device s).2 else s in
                      match sys (op_rename_dir tmp device) s with
                      | (Err e, s) => undo (if bool_decide (e = ENOTEMPTY) then EEXIST else e) s
                      | (Ok _, s) => (Ok tt, s)
                      end
                  end
              end
          end
      end
  end.

Definition libnvmf_registry_create_instance (instance : Z) (owner : option (list Z)) (s : rst) : result unit * rst :=
  create_entry (lit "nvme" ++ print_int instance) (lit "owner") owner true s.

(** [libnvmf_registry_update]: writes the attribute of an entry that exists,
    or creates the entry with it. *)
Definition libnvmf_registry_update (device attr : list Z) (value : option (list Z)) (s : rst) : result unit * rst :=
  if negb (valid_device device) || negb (valid_attr attr) then (Err EINVAL, s)
  else
    match sys (op_nothing device) s with
    | (Ok _, s) => write_attr_atomic device attr value s
    | (Err e, s) =>
        if negb (bool_decide (e = ENOENT)) then (Err e, s)
        else
          match value with
          | None => (Ok tt, s)
          | Some _ =>
              match create_entry device attr value false s with
              | (Err EEXIST, s) =>
                  match sys (op_nothing device) s with
                  | (Err e, s) => (Err e, s)
                  | (Ok _, s) => write_attr_atomic device attr value s
                  end
              | r => r
              end
          end
    end.

Definition libnvmf_registry_delete (device : list Z) (s : rst) : result unit * rst :=
  if negb (valid_device device) then (Err EINVAL, s) else delete_dir_atomic device s.

Definition libnvmf_registry_delete_instance (instance : Z) (s : rst) : result unit * rst :=
  match libnvmf_registry_delete (lit "nvme" ++ print_int instance) s with
  | (Err ENOENT, s) => (Ok tt, s)
  | r => r
  end.
End Registry.

(** ** Readers *)

(** [libnvmf_registry_retrieve] in a state of the file system.  The code does
    not check [attr]; this is its result for a name without a slash. *)
Definition libnvmf_registry_retrieve (device attr : list Z) (f : fs) : result (list Z) :=
  if negb (valid_device device) then Err EINVAL
  else
    match (m ← f; D ← m !! device; D !! attr) with
    | None => Err ENOENT
    | Some content => read_attr_fd content
    end.

(** [libnvmf_registry_attr_equal]: whether the attribute differs. *)
Definition libnvmf_registry_attr_equal (device attr : list Z) (value : option (list Z)) (f : fs) : result bool :=
  match libnvmf_registry_retrieve device attr f with
  | Err e => if bool_decide (e = ENOENT) then Ok (bool_decide (is_Some value)) else Err e
  | Ok stored => Ok (negb (bool_decide (value = Some stored)))
  end.

(** [libnvmf_registry_device_for_each]: the devices the callback is called
    with; [exists_] tells the nodes of /dev. *)
Definition libnvmf_registry_device_for_each (exists_ : list Z → bool) (f : fs) : list (list Z) :=
  match f with
  | None => []
  | Some m => List.filter (λ n, negb (char_at n 0 =? c_dot) && exists_ n) (map_to_list m).*1
  end.

(** [libnvmf_registry_attr_for_each]: the attributes and values. *)
Definition libnvmf_registry_attr_for_each (device : list Z) (f : fs) : result (list (list Z * list Z)) :=
  if negb (valid_device device) then Err EINVAL
  else
    match (m ← f; m !! device) with
    | None => Err ENOENT
    | Some D =>
        Ok (omap (λ e : list Z * list Z,
              if (char_at e.1 0 =? c_dot) || strstr e.1 tmp_mark then None
              else match read_attr_fd e.2 with Ok v => Some (e.1, v) | Err _ => None end) (map_to_list D))
    end.
