(* ===== verification/RegistrySpec.v ===== *)
(** * Readers of the registry see whole entries

    In every state between the system calls of an operation, whichever of them
    fail, an entry is absent, or as it was, or as it will be. *)

From Stdlib Require Import String.
From stdpp Require Import base list numbers gmap.
From S2P Require Import Prelude.
From S2P Require Import CStr.
From S2P Require Import Printf.
From S2P Require Import Registry.

(** ** Names *)

Lemma strstr_found a sub b : strstr (a ++ sub ++ b) sub = true.
Proof.
  induction a as [|c a IH]; cbn [app].
  - assert (Hs : ∀ s, take (length sub) s = sub → strstr s sub = true).
    { intros s Hs. destruct s; cbn [strstr]; by rewrite bool_decide_true. }
    apply Hs, take_app_length.
  - cbn [strstr]. rewrite IH. apply orb_true_r.
Qed.

Lemma strstr_elem s c sub : strstr s (c :: sub) = true → c ∈ s.
Proof.
  induction s as [|x s IH]; cbn [strstr]; intros H%orb_true_iff.
  - destruct H as [H|H]; [|done]. by apply bool_decide_eq_true in H.
  - destruct H as [H%bool_decide_eq_true|H]; [|right; auto]. cbn in H. injection H as -> _. left.
Qed.

Lemma valid_attr_name attr : valid_attr attr = true → strstr attr tmp_mark = false.
Proof.
  intros [_ Ha]%andb_true_iff. apply not_true_iff_false. intros Hs%strstr_elem.
  apply list_elem_of_In in Hs. rewrite forallb_forall in Ha. by apply Ha in Hs.
Qed.

(** ** Views *)

(** The attributes of an entry: the files that are not being written. *)
Definition dview (D : dir) : dir := filter (λ e, strstr e.1 tmp_mark = false) D.

Lemma dview_lookup D n : dview D !! n = if strstr n tmp_mark then None else D !! n.
Proof.
  unfold dview. destruct (strstr n tmp_mark) eqn:E.
  - apply map_lookup_filter_None. right. intros x _ Hx. cbn [fst] in Hx. congruence.
  - destruct (D !! n) as [c|] eqn:Ed; [by apply map_lookup_filter_Some|]. apply map_lookup_filter_None. by left.
Qed.

Lemma dview_tmp D D' n :
  strstr n tmp_mark = true → (∀ i, i ≠ n → D' !! i = D !! i) → dview D' = dview D.
Proof.
  intros Hn Hd. apply map_eq. intros i. rewrite !dview_lookup.
  destruct (decide (i = n)) as [->|Hi]; [by rewrite Hn|]. by rewrite Hd.
Qed.

Definition upd (attr : list Z) (value : option (list Z)) (V : dir) : dir :=
  match value with Some v => <[attr := v ++ nl]> V | None => delete attr V end.

Lemma dview_insert D attr c : strstr attr tmp_mark = false → dview (<[attr := c]> D) = <[attr := c]> (dview D).
Proof.
  intros Ha. apply map_eq. intros i. rewrite dview_lookup. destruct (decide (i = attr)) as [->|Hi].
  - by rewrite !lookup_insert_eq, Ha.
  - by rewrite !lookup_insert_ne, dview_lookup by done.
Qed.

Lemma dview_delete D n : dview (delete n D) = delete n (dview D).
Proof.
  apply map_eq. intros i. rewrite dview_lookup. destruct (decide (i = n)) as [->|Hi].
  - rewrite !lookup_delete_eq. by destruct (strstr n tmp_mark).
  - by rewrite !lookup_delete_ne, dview_lookup by done.
Qed.

Definition look (f : fs) (n : list Z) : option dir := m ← f; m !! n.

(** ** Traces *)

(** The states on the way from [s] to [s'], and the last one. *)
Definition tr (P : fs → Prop) (s s' : rst) : Prop :=
  (r_tick s ≤ r_tick s')%nat ∧ ∃ new, r_trace s' = new ++ r_trace s ∧ Forall P new ∧ P (r_fs s').

Lemma tr_refl P s : P (r_fs s) → tr P s s.
Proof. intros Hp. split; [done|]. by exists []. Qed.

Lemma tr_tick P s s' : tr P s s' → (r_tick s ≤ r_tick s')%nat.
Proof. by intros [? _]. Qed.

Lemma tr_trans P s1 s2 s3 : tr P s1 s2 → tr P s2 s3 → tr P s1 s3.
Proof.
  intros (T1 & n1 & E1 & H1 & _) (T2 & n2 & E2 & H2 & Hp). split; [lia|]. exists (n2 ++ n1). rewrite E2, E1, app_assoc.
  split; [done|]. split; [by apply list.Forall_app|done].
Qed.

Lemma tr_mono (P Q : fs → Prop) s s' : (∀ f, P f → Q f) → tr P s s' → tr Q s s'.
Proof.
  intros Hpq (T & n & E & H1 & Hp). split; [done|]. exists n. split; [done|]. split; [by eapply list.Forall_impl|auto].
Qed.

Lemma tr_last P s s' : tr P s s' → P (r_fs s').
Proof. by intros (_ & _ & _ & _ & ?). Qed.

Section Spec.
Context (fault : nat → option errno) (partial : nat → nat) (random : nat → list Z).
Context (uevent_seqnum : option (list Z)).
(** That a file is absent is known from the state, and no other fault. *)
Context (Hfault : ∀ n, fault n ≠ Some ENOENT).

Lemma sys_cases {A} (op : fs → result A * fs) s r s' :
  sys fault op s = (r, s') →
  ((∃ e, r = Err e ∧ e ≠ ENOENT ∧ r_fs s' = r_fs s) ∨ op (r_fs s) = (r, r_fs s')) ∧
  ∀ P : fs → Prop, P (r_fs s) → P (r_fs s') → tr P s s'.
Proof.
  unfold sys. pose proof (Hfault (r_tick s)). destruct (fault (r_tick s)) as [e|].
  - intros [= <- <-]. split; [left; exists e; split_and!; [done|congruence|done]|]. intros P Hp _. split; [cbn; lia|]. exists []. done.
  - destruct (op (r_fs s)) as [r0 f] eqn:E. intros [= <- <-]. cbn. split; [by right|].
    intros P _ Hp. split; [cbn; lia|]. exists [f]. split; [done|]. split; [by constructor|done].
Qed.

(** *** Inside one entry *)

Section Entry.
Context (m : gmap (list Z) dir) (d : list Z).

Definition holds (Q : dir → Prop) (f : fs) : Prop := ∃ D, f = Some (<[d := D]> m) ∧ Q D.

Lemma in_dir_at {A} (op : dir → result A * dir) D :
  in_dir d op (Some (<[d := D]> m)) = let '(r, D') := op D in (r, Some (<[d := D']> m)).
Proof. cbn. rewrite lookup_insert_eq. destruct (op D). by rewrite insert_insert_eq. Qed.

Lemma sys_in_dir {A} (op : dir → result A * dir) s D r s' :
  r_fs s = Some (<[d := D]> m) → sys fault (in_dir d op) s = (r, s') →
  ∃ D', r_fs s' = Some (<[d := D']> m) ∧ ((∃ e, r = Err e ∧ e ≠ ENOENT ∧ D' = D) ∨ op D = (r, D')) ∧
        ∀ Q : dir → Prop, Q D → Q D' → tr (holds Q) s s'.
Proof.
  intros Hs [Hc Ht]%sys_cases. destruct Hc as [(e & -> & He & Hf)|Hop].
  - exists D. rewrite Hf. split; [done|]. split; [left; eauto|]. intros Q HQ _.
    apply Ht; [by exists D|]. rewrite Hf. by exists D.
  - rewrite Hs, in_dir_at in Hop. destruct (op D) as [r' D'] eqn:E. injection Hop as -> Hf.
    exists D'. split; [done|]. split; [by right|]. intros Q H1 H2. apply Ht; [by exists D|]. rewrite <- Hf. by exists D'.
Qed.

Lemma write_all_at n data s D r s' :
  r_fs s = Some (<[d := D]> m) → write_all fault partial d n data s = (r, s') →
  ∃ D', r_fs s' = Some (<[d := D']> m) ∧ (r = Ok tt → D' = alter (λ c, c ++ data) n D) ∧
        (∀ i, i ≠ n → D' !! i = D !! i) ∧ ∀ Q : dir → Prop, Q D → Q D' → tr (holds Q) s s'.
Proof.
  intros Hs. unfold write_all. destruct (fault (r_tick s)) as [e|] eqn:Ef.
  - unfold op_append. rewrite Hs, in_dir_at. cbn [snd]. intros [= <- <-].
    eexists. split; [done|]. split; [done|]. split; [intros i Hi; by rewrite lookup_alter_ne|].
    intros Q _ HQ. split; [cbn; lia|]. eexists [_]. split; [done|]. split; [constructor; [by eexists|constructor]|by eexists].
  - intros (D' & Hf & Hc & Ht)%(sys_in_dir _ _ D); [|done]. exists D'. split; [done|].
    destruct Hc as [(e & -> & _ & ->)|[= <- <-]]; split_and!; try done. intros i Hi. by rewrite lookup_alter_ne.
Qed.

(** Calls on a file that is being written. *)
Lemma tmp_call {A} (op : dir → result A * dir) n s D D0 r s' :
  r_fs s = Some (<[d := D]> m) → strstr n tmp_mark = true → dview D = dview D0 →
  (∀ i, i ≠ n → (op D).2 !! i = D !! i) → sys fault (in_dir d op) s = (r, s') →
  tr (holds (λ X, dview X = dview D0)) s s' ∧
  ∃ D', r_fs s' = Some (<[d := D']> m) ∧ dview D' = dview D0 ∧ (is_ok r = true → op D = (r, D')).
Proof.
  intros Hs Hn Hv Hop (D' & Hf & Hc & Ht)%(sys_in_dir _ _ D); [|done].
  assert (Hv' : dview D' = dview D0).
  { destruct Hc as [(e & _ & _ & ->)|E]; [done|]. rewrite <- Hv. apply (dview_tmp _ _ n Hn). by rewrite E in Hop. }
  split; [by apply Ht|]. exists D'. split_and!; [done..|]. intros Hr.
  destruct Hc as [(e & -> & _)|E]; [done|exact E].
Qed.

(** The states of a write of an attribute. *)
Definition written (attr : list Z) (value : option (list Z)) (D D' : dir) : Prop :=
  dview D' = dview D ∨ dview D' = upd attr value (dview D).

Lemma clear_attr_ok attr s D r s' :
  r_fs s = Some (<[d := D]> m) → valid_attr attr = true →
  write_attr_atomic fault partial random d attr None s = (r, s') →
  tr (holds (written attr None D)) s s' ∧
  ∃ D', r_fs s' = Some (<[d := D']> m) ∧ dview D' = if is_ok r then upd attr None (dview D) else dview D.
Proof.
  intros Hs Hv. unfold write_attr_atomic. rewrite Hv. cbn [negb]. apply valid_attr_name in Hv.
  destruct (sys fault (op_unlink d attr) s) as [r1 s1] eqn:E1.
  apply (sys_in_dir _ _ D) in E1 as (D1 & H1 & Hc & Ht); [|done].
  assert (Hd1 : (r1 = Ok tt ∨ r1 = Err ENOENT) ∧ dview D1 = delete attr (dview D) ∨
                (∃ e, r1 = Err e ∧ e ≠ ENOENT) ∧ dview D1 = dview D).
  { destruct Hc as [(e & -> & He & ->)|Hop]; [right; eauto|]. left. destruct (D !! attr) eqn:Ea; injection Hop as <- <-.
    - split; [by left|apply dview_delete].
    - split; [by right|]. symmetry. apply delete_id. by rewrite dview_lookup, Hv, Ea. }
  assert (Ht1 : tr (holds (written attr None D)) s s1) by (apply Ht; [by left|destruct Hd1 as [[_ ?]|[_ ?]]; [by right|by left]]).
  destruct Hd1 as [[Hr Hd]|[(e & -> & He) Hd]].
  - assert (Hres : (r, s') = (Ok tt, (sys fault (op_nothing d) s1).2) → 
      tr (holds (written attr None D)) s s' ∧ ∃ D', r_fs s' = Some (<[d := D']> m) ∧ dview D' = if is_ok r then upd attr None (dview D) else dview D).
    { intros [= -> ->]. destruct (sys fault (op_nothing d) s1) as [r2 s2] eqn:E2.
      apply (sys_in_dir _ _ D1) in E2 as (D2 & H2 & Hc2 & Ht2); [|done].
      assert (D2 = D1) as -> by (destruct Hc2 as [(_ & _ & _ & ->)|[= _ <-]]; done).
      split; [|by exists D1]. eapply tr_trans; [done|]. apply Ht2; by right. }
    destruct Hr as [-> | ->]; [|rewrite bool_decide_true by done]; intros H; apply Hres; by symmetry.
  - rewrite bool_decide_false by done. intros [= <- <-]. split; [done|]. by exists D1.
Qed.

(** The removal of a file that was being written. *)
Lemma undo_ok n s D D0 :
  r_fs s = Some (<[d := D]> m) → strstr n tmp_mark = true → dview D = dview D0 →
  let s' := (sys fault (op_unlink d n) s).2 in
  tr (holds (λ X, dview X = dview D0)) s s' ∧ ∃ D', r_fs s' = Some (<[d := D']> m) ∧ dview D' = dview D0.
Proof.
  intros Hs Hn Hv. destruct (sys fault (op_unlink d n) s) as [r s'] eqn:E.
  eapply (tmp_call _ n s D D0) in E as (Ht & D' & ? & ? & _); [|done..|].
  - split; [done|]. by exists D'.
  - intros i Hi. destruct (D !! n); cbn [snd]; [by rewrite lookup_delete_ne|done].
Qed.

(** What a failed write of an attribute leaves. *)
Lemma set_attr_undo n attr v s s1 D D1 e (r : result unit) s' :
  tr (holds (λ X, dview X = dview D)) s s1 → r_fs s1 = Some (<[d := D1]> m) → dview D1 = dview D →
  strstr n tmp_mark = true → (Err e, (sys fault (op_unlink d n) s1).2) = (r, s') →
  tr (holds (written attr (Some v) D)) s s' ∧
  ∃ D', r_fs s' = Some (<[d := D']> m) ∧ dview D' = if is_ok r then upd attr (Some v) (dview D) else dview D.
Proof.
  intros Ht Hs Hv Hn [= <- <-]. destruct (undo_ok n s1 D1 D Hs Hn Hv) as (Ht1 & D' & HD & HDv).
  split; [|by exists D']. eapply tr_mono; [|by eapply tr_trans]. intros f (X & -> & HX). exists X. split; [done|]. by left.
Qed.

(** The end of a write: the file gets its name. *)
Lemma set_attr_rename n attr v s s1 D D1 (r : result unit) s' :
  tr (holds (λ X, dview X = dview D)) s s1 → r_fs s1 = Some (<[d := D1]> m) → dview D1 = dview D →
  strstr n tmp_mark = true → strstr attr tmp_mark = false → D1 !! n = Some (v ++ nl) →
  match sys fault (op_rename d n attr) s1 with
  | (Err e, s) => (Err e, (sys fault (op_unlink d n) s).2)
  | (Ok _, s) => (Ok tt, (sys fault (op_nothing d) s).2)
  end = (r, s') →
  tr (holds (written attr (Some v) D)) s s' ∧
  ∃ D', r_fs s' = Some (<[d := D']> m) ∧ dview D' = if is_ok r then upd attr (Some v) (dview D) else dview D.
Proof.
  intros Ht Hs Hv Hn Ha Hc. destruct (sys fault (op_rename d n attr) s1) as [r2 s2] eqn:E2.
  apply (sys_in_dir _ _ D1) in E2 as (D2 & H2 & Hcase & Ht2); [|done]. rewrite Hc in Hcase.
  destruct Hcase as [(e & -> & _ & ->)|[= <- <-]].
  { intros Hr. eapply (set_attr_undo n attr v s s2 D D1 e); [|done..]. eapply tr_trans; [done|]. by apply Ht2. }
  set (D2 := <[attr := v ++ nl]> (delete n D1)) in *.
  assert (Hv2 : dview D2 = upd attr (Some v) (dview D)).
  { unfold D2. rewrite dview_insert, dview_delete, Hv by done. cbn. f_equal. apply delete_id.
    by rewrite dview_lookup, Hn. }
  destruct (sys fault (op_nothing d) s2) as [r3 s3] eqn:E3. intros [= <- <-]. cbn [snd].
  apply (sys_in_dir _ _ D2) in E3 as (D3 & H3 & Hcase3 & Ht3); [|done].
  assert (D3 = D2) as -> by (destruct Hcase3 as [(_ & _ & _ & ->)|[= _ <-]]; done).
  split; [|by exists D2]. eapply tr_trans; [eapply tr_mono; [|exact Ht]|].
  - intros f (X & -> & HX). exists X. split; [done|]. by left.
  - eapply tr_trans; [apply Ht2; [by left|by right]|]. apply Ht3; by right.
Qed.

Lemma set_attr_ok attr v s D r s' :
  r_fs s = Some (<[d := D]> m) → valid_attr attr = true →
  write_attr_atomic fault partial random d attr (Some v) s = (r, s') →
  tr (holds (written attr (Some v) D)) s s' ∧
  ∃ D', r_fs s' = Some (<[d := D']> m) ∧ dview D' = if is_ok r then upd attr (Some v) (dview D) else dview D.
Proof.
  intros Hs Hva. unfold write_attr_atomic. rewrite Hva. cbn [negb]. apply valid_attr_name in Hva.
  set (n := attr ++ tmp_mark ++ random (r_tick s)).
  assert (Hn : strstr n tmp_mark = true) by apply strstr_found.
  assert (Hne : attr ≠ n) by (intros E; rewrite E, Hn in Hva; done). clearbody n.
  destruct (sys fault (op_create d n) s) as [[u|e] s1] eqn:E1.
  2:{ intros [= <- <-]. eapply (tmp_call _ n s D D) in E1 as (Ht & D' & H1 & Hv1 & _); [|done..|].
      - split; [|by exists D']. eapply tr_mono; [|done]. intros f (X & -> & HX). exists X. split; [done|]. by left.
      - intros i Hi. destruct (D !! n); cbn [snd]; [done|]. by rewrite lookup_insert_ne. }
  eapply (tmp_call _ n s D D) in E1 as (Ht1 & D1 & H1 & Hv1 & Hop); [|done..|].
  2:{ intros i Hi. destruct (D !! n); cbn [snd]; [done|]. by rewrite lookup_insert_ne. }
  specialize (Hop eq_refl). destruct (D !! n) eqn:En; [done|]. injection Hop as _ HD1.
  destruct (sys fault (op_nothing d) s1) as [r2 s2] eqn:E2.
  destruct (tmp_call (λ D, (Ok tt, D)) n s1 D1 D r2 s2 H1 Hn Hv1 (λ _ _, eq_refl) E2) as (Ht2 & D2 & H2 & Hv2 & Hop2).
  destruct r2 as [u2|e].
  2:{ by apply (set_attr_undo n attr v s s2 D D2 e r s' (tr_trans _ _ _ _ Ht1 Ht2) H2 Hv2 Hn). }
  specialize (Hop2 eq_refl). injection Hop2 as _ HD2.
  pose proof (tr_trans _ _ _ _ Ht1 Ht2) as Ht12.
  destruct (write_all fault partial d n v s2) as [[u3|e] s3] eqn:E3;
    apply (write_all_at n v s2 D2) in E3 as (D3 & H3 & Hok3 & Ho3 & Ht3); try done;
    assert (Hv3 : dview D3 = dview D) by (rewrite <- Hv2; by apply (dview_tmp _ _ n));
    specialize (Ht3 (λ X, dview X = dview D) Hv2 Hv3); pose proof (tr_trans _ _ _ _ Ht12 Ht3) as Ht123.
  2:{ by apply (set_attr_undo n attr v s s3 D D3 e r s' Ht123 H3 Hv3 Hn). }
  destruct (write_all fault partial d n nl s3) as [[u4|e] s4] eqn:E4;
    apply (write_all_at n nl s3 D3) in E4 as (D4 & H4 & Hok4 & Ho4 & Ht4); try done;
    assert (Hv4 : dview D4 = dview D) by (rewrite <- Hv3; by apply (dview_tmp _ _ n));
    specialize (Ht4 (λ X, dview X = dview D) Hv3 Hv4); pose proof (tr_trans _ _ _ _ Ht123 Ht4) as Ht1234.
  2:{ by apply (set_attr_undo n attr v s s4 D D4 e r s' Ht1234 H4 Hv4 Hn). }
  apply (set_attr_rename n attr v s s4 D D4); [done..|].
  destruct u3, u4. rewrite Hok4, Hok3, <- HD2, <- HD1 by done.
  by rewrite !lookup_alter_eq, lookup_insert_eq.
Qed.

Lemma write_attr_ok attr value s D r s' :
  r_fs s = Some (<[d := D]> m) → write_attr_atomic fault partial random d attr value s = (r, s') →
  tr (holds (written attr value D)) s s' ∧
  ∃ D', r_fs s' = Some (<[d := D']> m) ∧ dview D' = if is_ok r then upd attr value (dview D) else dview D.
Proof.
  intros Hs. destruct (valid_attr attr) eqn:Hv.
  - destruct value as [v|]; [by apply set_attr_ok|by apply clear_attr_ok].
  - unfold write_attr_atomic. rewrite Hv. intros [= <- <-].
    split; [apply tr_refl; exists D; by split; [|left]|by exists D].
Qed.
End Entry.

(** *** Several entries *)

(** Only the entries that satisfy [N] differ. *)
Definition frame (N : list Z → Prop) (f0 f : fs) : Prop := ∀ n, ¬ N n → look f n = look f0 n.

Lemma frame_trans N f0 f1 f2 : frame N f0 f1 → frame N f1 f2 → frame N f0 f2.
Proof. intros H1 H2 n Hn. by rewrite H2, H1. Qed.

Lemma frame_mono (N N' : list Z → Prop) f0 f : (∀ n, N n → N' n) → frame N f0 f → frame N' f0 f.
Proof. intros Hi Hf n Hn. apply Hf. auto. Qed.

Lemma frame_in_dir {A} (d : list Z) (op : dir → result A * dir) (f : fs) : frame (λ n, n = d) f (in_dir d op f).2.
Proof.
  intros n Hn. unfold in_dir, look. destruct f as [m|]; [|done]. destruct (m !! d) as [D|] eqn:E; [|done].
  destruct (op D) as [r D']. cbn. by rewrite lookup_insert_ne.
Qed.

Lemma frame_mkdir (d : list Z) f : frame (λ n, n = d) f (op_mkdir d f).2.
Proof.
  intros n Hn. unfold op_mkdir, look. destruct f as [m|]; [|done]. destruct (m !! d); [done|]. cbn. by rewrite lookup_insert_ne.
Qed.

Lemma frame_rmdir (d : list Z) f : frame (λ n, n = d) f (op_rmdir d f).2.
Proof.
  intros n Hn. unfold op_rmdir, look. destruct f as [m|]; [|done]. destruct (m !! d) as [D|]; [|done].
  case_bool_decide; [|done]. cbn. by rewrite lookup_delete_ne.
Qed.

Lemma sys_frame {A} (N : list Z → Prop) (op : fs → result A * fs) (f0 : fs) s :
  (∀ f, frame N f (op f).2) → frame N f0 (r_fs s) → tr (frame N f0) s (sys fault op s).2.
Proof.
  intros Hop Hs. destruct (sys fault op s) as [r s'] eqn:E. apply sys_cases in E as [Hc Ht]. apply Ht; [done|].
  destruct Hc as [(e & _ & _ & ->)|Hr]; [done|]. eapply frame_trans; [done|]. specialize (Hop (r_fs s)). by rewrite Hr in Hop.
Qed.

Lemma unlink_all_frame (d : list Z) names ret s f0 :
  frame (λ n, n = d) f0 (r_fs s) → tr (frame (λ n, n = d) f0) s (unlink_all fault d names ret s).2.
Proof.
  revert ret s. induction names as [|n names IH]; intros ret s Hs; cbn [unlink_all]; [by apply tr_refl|].
  destruct (char_at n 0 =? c_dot); [by apply IH|].
  pose proof (sys_frame _ (op_unlink d n) f0 s (frame_in_dir d _) Hs) as Ht.
  destruct (sys fault (op_unlink d n) s) as [[u|e] s1]; (eapply tr_trans; [exact Ht|]); apply IH; by apply tr_last in Ht.
Qed.

Lemma delete_dir_frame (d : list Z) s f0 :
  frame (λ n, n = d) f0 (r_fs s) → tr (frame (λ n, n = d) f0) s (delete_dir fault d s).2.
Proof.
  intros Hs. unfold delete_dir. pose proof (sys_frame _ (op_nothing d) f0 s (frame_in_dir d _) Hs) as Ht.
  destruct (sys fault (op_nothing d) s) as [[u|e] s1]; [|done].
  pose proof (unlink_all_frame d (dir_names d (r_fs s1)) None s1 f0 (tr_last _ _ _ Ht)) as Ht1.
  destruct (unlink_all _ _ _ _ _) as [[e|] s2]; [by eapply tr_trans|].
  pose proof (sys_frame _ (op_rmdir d) f0 s2 (frame_rmdir d) (tr_last _ _ _ Ht1)) as Ht2.
  destruct (sys fault (op_rmdir d) s2) as [[u'|e] s3]; [|case_bool_decide];
    (eapply tr_trans; [exact Ht|]); by eapply tr_trans.
Qed.

(** The entry disappears in one step. *)
Definition trash_name (s : rst) : list Z := lit ".trash." ++ random (r_tick s).

Definition gone (path trash : list Z) (f0 f : fs) : Prop :=
  frame (λ n, n = trash ∨ n = path) f0 f ∧ (look f path = look f0 path ∨ look f path = None).

Lemma delete_atomic_ok path s :
  path ≠ trash_name s →
  let '(r, s') := delete_dir_atomic fault random path s in
  tr (gone path (trash_name s) (r_fs s)) s s' ∧ (r = Ok tt → look (r_fs s') path = None).
Proof.
  intros Hne. unfold delete_dir_atomic. fold (trash_name s). set (t := trash_name s) in *. set (f0 := r_fs s).
  assert (Hgone : ∀ f, frame (λ n, n = t) f0 f → gone path t f0 f).
  { intros f Hf. split; [by eapply frame_mono; [|exact Hf]; auto|left; by apply Hf]. }
  pose proof (sys_frame _ (op_mkdir t) f0 s (frame_mkdir t) ltac:(done)) as Ht.
  destruct (sys fault (op_mkdir t) s) as [[u|e] s1]; [|split; [exact (tr_mono _ _ _ _ Hgone Ht)|done]]. cbn [snd] in Ht.
  pose proof (tr_last _ _ _ Ht) as Hs1. destruct (sys fault (op_rename_dir path t) s1) as [r2 s2] eqn:E2.
  apply sys_cases in E2 as [Hc Ht2].
  assert (Hc' : (∃ e, r2 = Err e) ∧ r_fs s2 = r_fs s1 ∨
                r2 = Ok tt ∧ frame (λ n, n = t ∨ n = path) f0 (r_fs s2) ∧ look (r_fs s2) path = None).
  { destruct Hc as [(e & -> & _ & ->)|Hop]; [left; eauto|]. unfold op_rename_dir in Hop.
    destruct (r_fs s1) as [m|] eqn:Em; [|injection Hop as <- <-; left; eauto].
    destruct (m !! path) as [D|] eqn:Ep; [|injection Hop as <- <-; left; eauto].
    case_bool_decide; injection Hop as <- <-; [|left; eauto]. right. split; [done|]. split.
    - intros n Hn. assert (t ≠ n ∧ path ≠ n) as [? ?] by (split; intros ->; apply Hn; auto).
      cbn. rewrite lookup_insert_ne, lookup_delete_ne by done. apply Hs1. auto.
    - cbn. by rewrite lookup_insert_ne, lookup_delete_eq by done. }
  destruct Hc' as [[[e ->] Hf]|(-> & Hf & Hp)].
  - cbn [snd]. split; [|done]. pose proof (sys_frame _ (op_rmdir t) f0 s2 (frame_rmdir t) ltac:(by rewrite Hf)) as Ht3.
    eapply tr_trans; [exact (tr_mono _ _ _ _ Hgone Ht)|]. eapply tr_trans; [|exact (tr_mono _ _ _ _ Hgone Ht3)].
    apply Ht2; [by apply Hgone|]. rewrite Hf. by apply Hgone.
  - pose proof (delete_dir_frame t s2 (r_fs s2) ltac:(done)) as Ht3.
    destruct (delete_dir fault t s2) as [r3 s3]. cbn [snd] in Ht3.
    assert (Hg : ∀ f, frame (λ n, n = t) (r_fs s2) f → gone path t f0 f).
    { intros f Hff. split; [|right; by rewrite Hff]. intros n Hn. rewrite Hff by tauto. by apply Hf. }
    split; [|intros _; by rewrite (tr_last _ _ _ Ht3)].
    eapply tr_trans; [exact (tr_mono _ _ _ _ Hgone Ht)|]. eapply tr_trans; [|exact (tr_mono _ _ _ _ Hg Ht3)].
    apply Ht2; [by apply Hgone|by apply Hg].
Qed.

(** *** A new entry *)

Definition hidden (n : list Z) : bool := char_at n 0 =? c_dot.

(** Some call between the two states fails. *)
Definition call_failed (s s' : rst) : Prop :=
  ∃ n, (r_tick s ≤ n < r_tick s')%nat ∧ is_Some (fault n).

(** The attributes of a new entry: the stamp and the attribute; the stamp is
    missing only when the sequence number cannot be read, or a call failed. *)
Definition new_entry (failed : Prop) (attr : list Z) (value : option (list Z)) (V : dir) : Prop :=
  ∃ stamp, V = upd attr value (upd (lit "seqnum") stamp ∅) ∧
    (stamp = read_uevent_seqnum uevent_seqnum ∨ stamp = None ∧ failed).

Lemma sys_tick {A} (op : fs → result A * fs) s : r_tick (sys fault op s).2 = S (r_tick s).
Proof. unfold sys. destruct (fault (r_tick s)); [done|]. by destruct (op (r_fs s)). Qed.

Lemma sys_ok {A} (op : fs → result A * fs) s r s' :
  sys fault op s = (r, s') →
  r_tick s' = S (r_tick s) ∧ (is_Some (fault (r_tick s)) ∨ op (r_fs s) = (r, r_fs s')).
Proof.
  unfold sys. destruct (fault (r_tick s)) as [e|]; [intros [= <- <-]; eauto|].
  destruct (op (r_fs s)) as [r0 f]. intros [= <- <-]. auto.
Qed.

Lemma write_all_ok d n data s r s' :
  write_all fault partial d n data s = (r, s') →
  r_tick s' = S (r_tick s) ∧ (is_Some (fault (r_tick s)) ∨ op_append d n data (r_fs s) = (r, r_fs s')).
Proof.
  unfold write_all. destruct (fault (r_tick s)) as [e|] eqn:E; [intros [= <- <-]; eauto|].
  intros Hs. apply sys_ok in Hs. by rewrite E in Hs.
Qed.

(** The calls that are left of a write take their ticks. *)
Ltac later_calls :=
  repeat match goal with
  | |- context [match ?c with _ => _ end = _] =>
      let E := fresh "E" in
      destruct c as [[?|?] ?] eqn:E; first [apply sys_ok in E as [? _]|apply write_all_ok in E as [? _]]
  end;
  intros [= _ <-]; rewrite ?sys_tick; lia.

(** In a directory that is empty a write of an attribute fails only when a call
    does. *)
Lemma stamp_written m d attr v s r s' :
  r_fs s = Some (<[d := ∅]> m) → valid_attr attr = true →
  write_attr_atomic fault partial random d attr (Some v) s = (r, s') → is_ok r = true ∨ call_failed s s'.
Proof.
  intros Hs Hv. unfold write_attr_atomic. rewrite Hv. cbn [negb]. set (n := attr ++ tmp_mark ++ random (r_tick s)).
  assert (Hat : ∀ s1 : rst, (r_tick s ≤ r_tick s1)%nat → is_Some (fault (r_tick s1)) →
                (r_tick s1 < r_tick s')%nat → is_ok r = true ∨ call_failed s s').
  { intros s1 Hle Hft Hlt. right. by exists (r_tick s1). }
  destruct (sys fault (op_create d n) s) as [r1 s1] eqn:E1. apply sys_ok in E1 as [T1 [H1|H1]].
  { intros Hr. apply (Hat s); [done..|]. revert Hr. destruct r1; later_calls. }
  unfold op_create in H1. rewrite Hs, in_dir_at, lookup_empty in H1. injection H1 as <- Hf1. symmetry in Hf1.
  destruct (sys fault (op_nothing d) s1) as [r2 s2] eqn:E2. apply sys_ok in E2 as [T2 [H2|H2]].
  { intros Hr. apply (Hat s1); [lia|done|]. revert Hr. destruct r2; later_calls. }
  unfold op_nothing in H2. rewrite Hf1, in_dir_at in H2. injection H2 as <- Hf2. symmetry in Hf2.
  destruct (write_all _ _ d n v s2) as [r3 s3] eqn:E3. apply write_all_ok in E3 as [T3 [H3|H3]].
  { intros Hr. apply (Hat s2); [lia|done|]. revert Hr. destruct r3; later_calls. }
  unfold op_append in H3. rewrite Hf2, in_dir_at in H3. injection H3 as <- Hf3. symmetry in Hf3.
  destruct (write_all _ _ d n nl s3) as [r4 s4] eqn:E4. apply write_all_ok in E4 as [T4 [H4|H4]].
  { intros Hr. apply (Hat s3); [lia|done|]. revert Hr. destruct r4; later_calls. }
  unfold op_append in H4. rewrite Hf3, in_dir_at in H4. injection H4 as <- Hf4. symmetry in Hf4.
  destruct (sys fault (op_rename d n attr) s4) as [r5 s5] eqn:E5. apply sys_ok in E5 as [T5 [H5|H5]].
  { intros Hr. apply (Hat s4); [lia|done|]. revert Hr. destruct r5; later_calls. }
  unfold op_rename in H5. rewrite Hf4, in_dir_at, !lookup_alter_eq, lookup_insert_eq in H5. injection H5 as <- _.
  intros [= <- _]. by left.
Qed.

Lemma look_root f n : look (Some (default ∅ f)) n = look f n.
Proof. by destruct f. Qed.

Section Create.
Context (failed : Prop) (device attr : list Z) (value : option (list Z)) (replace : bool) (f0 : fs).
Context (Hdev : hidden device = false) (Hdev0 : char_at device 0 = 110).

(** The states of a creation. *)
Definition creating (f : fs) : Prop :=
  (∀ n, hidden n = false → n ≠ device → look f n = look f0 n) ∧
  (look f device = look f0 device ∨ replace = true ∧ look f device = None ∨
   ∃ D, look f device = Some D ∧ new_entry failed attr value (dview D)).

(** And those before the entry shows. *)
Definition not_yet (f : fs) : Prop :=
  (∀ n, hidden n = false → n ≠ device → look f n = look f0 n) ∧
  (look f device = look f0 device ∨ replace = true ∧ look f device = None).

Lemma not_yet_creating f : not_yet f → creating f.
Proof. intros [H1 H2]. split; [done|]. tauto. Qed.

Lemma hidden_ne (d n : list Z) : hidden d = true → hidden n = false → n ≠ d.
Proof. intros H1 H2 ->. congruence. Qed.

Lemma not_yet_hidden (d : list Z) f f' : hidden d = true → not_yet f → frame (λ n, n = d) f f' → not_yet f'.
Proof.
  intros Hd [H1 H2] Hf. split.
  - intros n Hn Hne. rewrite Hf by (by apply hidden_ne). by apply H1.
  - by rewrite Hf by (by apply hidden_ne).
Qed.

Lemma hidden_tr (d : list Z) s s' : hidden d = true → not_yet (r_fs s) → tr (frame (λ n, n = d) (r_fs s)) s s' → tr not_yet s s'.
Proof. intros Hd Hs. apply tr_mono. intros f. by apply not_yet_hidden. Qed.

Lemma hidden_sys {A} (d : list Z) (op : fs → result A * fs) s r s' :
  hidden d = true → not_yet (r_fs s) → (∀ f, frame (λ n, n = d) f (op f).2) →
  sys fault op s = (r, s') → tr not_yet s s'.
Proof.
  intros Hd Hs Hop E. pose proof (sys_frame _ op (r_fs s) s Hop ltac:(done)) as Ht. rewrite E in Ht. by eapply hidden_tr.
Qed.

(** A failure removes the hidden entry. *)
Lemma create_undo (d : list Z) e s0 s (r : result unit) s' :
  hidden d = true → tr not_yet s0 s → (Err e, (delete_dir fault d s).2) = (r, s') →
  tr not_yet s0 s' ∧ is_ok r = false.
Proof.
  intros Hd Ht [= <- <-]. split; [|done]. eapply tr_trans; [exact Ht|].
  apply (hidden_tr d); [done|by apply tr_last in Ht|]. by apply delete_dir_frame.
Qed.

(** The entry shows. *)
Lemma create_reveal (d : list Z) (s0 s : rst) (D : dir) (r : result unit) (s' : rst) :
  hidden d = true → tr not_yet s0 s → look (r_fs s) d = Some D → new_entry failed attr value (dview D) →
  match sys fault (op_rename_dir d device) s with
  | (Err e, s) => (Err (if bool_decide (e = ENOTEMPTY) then EEXIST else e), (delete_dir fault d s).2)
  | (Ok _, s) => (Ok tt, s)
  end = (r, s') →
  tr creating s0 s' ∧
  if is_ok r then ∃ D, look (r_fs s') device = Some D ∧ new_entry failed attr value (dview D) else not_yet (r_fs s').
Proof.
  intros Hd Ht HD Hnew. pose proof (tr_last _ _ _ Ht) as Hs.
  destruct (sys fault (op_rename_dir d device) s) as [r1 s1] eqn:E1. apply sys_cases in E1 as [Hc Ht1].
  assert (Hc' : (∃ e, r1 = Err e) ∧ r_fs s1 = r_fs s ∨
                r1 = Ok tt ∧ creating (r_fs s1) ∧ look (r_fs s1) device = Some D).
  { destruct Hc as [(e & -> & _ & ->)|Hop]; [left; eauto|]. unfold op_rename_dir in Hop.
    destruct (r_fs s) as [m|] eqn:Em; [|done]. cbn in HD. rewrite HD in Hop.
    case_bool_decide; injection Hop as <- <-; [|left; eauto]. right. split; [done|].
    assert (Hl : look (Some (<[device := D]> (delete d m))) device = Some D) by apply lookup_insert_eq.
    split; [|done]. split; [|right; right; eauto]. intros n Hn Hne. cbn.
    assert (d ≠ n) by (intros ->; congruence). rewrite lookup_insert_ne, lookup_delete_ne by done.
    by apply Hs. }
  destruct Hc' as [[[e ->] Hf]|(-> & Hcr & Hl)].
  - intros Hr. assert (Ht2 : tr not_yet s0 s1).
    { eapply tr_trans; [exact Ht|]. apply Ht1; [done|]. by rewrite Hf. }
    apply (create_undo d _ s0 s1 r s' Hd Ht2) in Hr as [Htr ->]. split; [|by apply tr_last in Htr].
    eapply tr_mono; [apply not_yet_creating|done].
  - intros [= <- <-]. split; [|by exists D]. eapply tr_trans; [eapply tr_mono; [apply not_yet_creating|exact Ht]|].
    apply Ht1; [by apply not_yet_creating|done].
Qed.

(** A write in the hidden entry. *)
Lemma hidden_write m d a v s D r s' :
  hidden d = true → not_yet (r_fs s) → r_fs s = Some (<[d := D]> m) →
  write_attr_atomic fault partial random d a v s = (r, s') →
  tr not_yet s s' ∧
  ∃ D', r_fs s' = Some (<[d := D']> m) ∧ dview D' = if is_ok r then upd a v (dview D) else dview D.
Proof.
  intros Hd Hs Hf Hw. destruct (write_attr_ok m d a v s D r s' Hf Hw) as [Ht HD]. split; [|done].
  apply (hidden_tr d); [done..|]. eapply tr_mono; [|exact Ht]. intros f (X & -> & _) n Hn. rewrite Hf. cbn.
  by rewrite !lookup_insert_ne by done.
Qed.

(** The end of a creation, when the hidden entry is written. *)
Lemma create_end (m : gmap (list Z) dir) (d : list Z) (s0 s : rst) (D : dir) (r : result unit) (s' : rst) :
  hidden d = true → d ≠ trash_name s → tr not_yet s0 s → r_fs s = Some (<[d := D]> m) →
  new_entry failed attr value (dview D) →
  match sys fault (op_rename_dir d device)
          (if replace then (delete_dir_atomic fault random device s).2 else s) with
  | (Err e, s) => (Err (if bool_decide (e = ENOTEMPTY) then EEXIST else e), (delete_dir fault d s).2)
  | (Ok _, s) => (Ok tt, s)
  end = (r, s') →
  tr creating s0 s' ∧
  if is_ok r then ∃ D, look (r_fs s') device = Some D ∧ new_entry failed attr value (dview D) else not_yet (r_fs s').
Proof.
  intros Hd Hnt Ht Hf Hnew.
  assert (Hh : hidden (trash_name s) = true) by done.
  assert (Hs1 : ∀ s1, s1 = (if replace then (delete_dir_atomic fault random device s).2 else s) →
                tr not_yet s0 s1 ∧ look (r_fs s1) d = Some D).
  { intros s1 ->. destruct replace eqn:Er; [|split; [done|rewrite Hf; apply lookup_insert_eq]].
    pose proof (delete_atomic_ok device s (hidden_ne _ _ Hh Hdev)) as Hdel.
    destruct (delete_dir_atomic fault random device s) as [r1 s1]. destruct Hdel as [Htd _]. cbn [snd]. split.
    - eapply tr_trans; [exact Ht|]. eapply tr_mono; [|exact Htd]. intros f [Hg Hp].
      destruct (tr_last _ _ _ Ht) as [Hn1 Hn2]. split.
      + intros n Hn Hne. rewrite Hg; [by apply Hn1|]. intros [-> | ->]; [congruence|done].
      + rewrite Er in *. destruct Hp as [-> | ->]; tauto.
    - destruct (tr_last _ _ _ Htd) as [Hg _]. rewrite Hg, Hf; [apply lookup_insert_eq|].
      intros [-> | ->]; [done|congruence]. }
  destruct (Hs1 _ eq_refl) as [Ht1 HD]. by apply create_reveal with D.
Qed.

Lemma create_fails s (r : result unit) (s' : rst) :
  tr not_yet s s' ∧ is_ok r = false →
  tr creating s s' ∧
  if is_ok r then ∃ D, look (r_fs s') device = Some D ∧ new_entry failed attr value (dview D) else not_yet (r_fs s').
Proof.
  intros [Ht ->]. split; [|by apply tr_last in Ht]. eapply tr_mono; [apply not_yet_creating|exact Ht].
Qed.

(** Calls that leave the hidden entry as it is. *)
Lemma hidden_nothing (m : gmap (list Z) dir) (d : list Z) (s0 s : rst) (D : dir) r s' :
  hidden d = true → tr not_yet s0 s → r_fs s = Some (<[d := D]> m) → sys fault (op_nothing d) s = (r, s') →
  tr not_yet s0 s' ∧ r_fs s' = Some (<[d := D]> m).
Proof.
  intros Hd Ht Hf E. split.
  - eapply tr_trans; [exact Ht|]. eapply (hidden_sys d); [done|by apply tr_last in Ht| |done]. apply frame_in_dir.
  - apply (sys_in_dir m d _ s D) in E as (D' & -> & Hc & _); [|done]. by destruct Hc as [(_ & _ & _ & ->)|[= _ <-]].
Qed.

(** The end takes its calls too. *)
Lemma create_end_tick (d : list Z) (s : rst) (r : result unit) (s' : rst) :
  match sys fault (op_rename_dir d device)
          (if replace then (delete_dir_atomic fault random device s).2 else s) with
  | (Err e, s) => (Err (if bool_decide (e = ENOTEMPTY) then EEXIST else e), (delete_dir fault d s).2)
  | (Ok _, s) => (Ok tt, s)
  end = (r, s') → (r_tick s ≤ r_tick s')%nat.
Proof.
  set (s1 := if replace then _ else s).
  assert (Hs1 : (r_tick s ≤ r_tick s1)%nat).
  { subst s1. destruct replace; [|done]. assert (Hh : hidden (trash_name s) = true) by done.
    pose proof (delete_atomic_ok device s (hidden_ne _ _ Hh Hdev)) as Hdel.
    destruct (delete_dir_atomic fault random device s) as [r1 s2]. destruct Hdel as [Ht _]. by apply tr_tick in Ht. }
  destruct (sys fault (op_rename_dir d device) s1) as [r2 s2] eqn:E2. apply sys_ok in E2 as [T2 _].
  pose proof (tr_tick _ _ _ (delete_dir_frame d s2 (r_fs s2) ltac:(done))) as T3.
  destruct r2; intros [= _ <-]; lia.
Qed.

Lemma create_entry_ok (s : rst) (r : result unit) (s' : rst) :
  (call_failed s s' → failed) → f0 = r_fs s → create_entry fault partial random uevent_seqnum device attr value replace s = (r, s') →
  tr creating s s' ∧
  if is_ok r then ∃ D, look (r_fs s') device = Some D ∧ new_entry failed attr value (dview D) else not_yet (r_fs s').
Proof.
  intros Hfail Hf0. unfold create_entry.
  assert (Hyet : not_yet (r_fs s)) by (rewrite <- Hf0; split; [done|by left]).
  destruct (sys fault op_root s) as [r1 s1] eqn:E1. apply sys_cases in E1 as [Hc1 Ht1].
  assert (Hy1 : not_yet (r_fs s1)).
  { destruct Hc1 as [(e & _ & _ & ->)|[= _ <-]]; [done|]. rewrite <- Hf0.
    split; [intros n _ _; apply look_root|left; apply look_root]. }
  specialize (Ht1 not_yet Hyet Hy1). destruct r1 as [u1|e]; [|intros [= <- <-]; by apply create_fails].
  set (d := lit "." ++ device ++ tmp_mark ++ random (r_tick s1)).
  assert (Hd : hidden d = true) by done.
  assert (Hdt : ∀ s, d ≠ trash_name s).
  { intros s2. unfold d. destruct device as [|x dv]; [done|]. cbn in Hdev0. subst x. done. }
  clearbody d. destruct (sys fault (op_mkdir d) s1) as [r2 s2] eqn:E2.
  pose proof (hidden_sys d _ _ _ _ Hd Hy1 (frame_mkdir d) E2) as Ht2.
  pose proof (tr_trans _ _ _ _ Ht1 Ht2) as Ht12. apply sys_cases in E2 as [Hc2 _].
  destruct r2 as [u2|e]; [|intros [= <- <-]; by apply create_fails].
  assert (Hf2 : ∃ m, r_fs s2 = Some (<[d := ∅]> m)).
  { destruct Hc2 as [(e & He & _)|Hop]; [done|]. unfold op_mkdir in Hop. destruct (r_fs s1) as [m|]; [|done].
    destruct (m !! d); [done|]. injection Hop as _ <-. by exists m. }
  destruct Hf2 as [m Hf2]. destruct (sys fault (op_nothing d) s2) as [r3 s3] eqn:E3.
  destruct (hidden_nothing m d s s2 ∅ r3 s3 Hd Ht12 Hf2 E3) as [Ht3 Hf3].
  destruct r3 as [u3|e]; [|intros Hr; apply create_fails; by eapply create_undo].
  destruct (sys fault (op_nothing d) s3) as [r4 s4] eqn:E4.
  destruct (hidden_nothing m d s s3 ∅ r4 s4 Hd Ht3 Hf3 E4) as [Ht4 Hf4].
  destruct r4 as [u4|e]; [|intros Hr; apply create_fails; by eapply create_undo].
  set (s5 := match read_uevent_seqnum uevent_seqnum with Some q => _ | None => s4 end).
  assert (H5 : tr not_yet s s5 ∧ ∃ D stamp, r_fs s5 = Some (<[d := D]> m) ∧
    dview D = upd (lit "seqnum") stamp ∅ ∧
    (stamp = read_uevent_seqnum uevent_seqnum ∨ stamp = None ∧ call_failed s s5)).
  { subst s5. destruct (read_uevent_seqnum uevent_seqnum) as [q|]; [|split; [done|exists ∅, None; auto]].
    destruct (write_attr_atomic fault partial random d (lit "seqnum") (Some q) s4) as [r5 s5] eqn:E5.
    destruct (hidden_write m d _ _ s4 ∅ r5 s5 Hd (tr_last _ _ _ Ht4) Hf4 E5) as (Ht5 & D & HD & HDv).
    split; [by eapply tr_trans|]. exists D, (if is_ok r5 then Some q else None). split; [done|].
    destruct (stamp_written m d (lit "seqnum") q s4 r5 s5 Hf4 eq_refl E5) as [Hok|(n & Hn & Hfn)]; [rewrite Hok in *; auto|].
    destruct (is_ok r5); [auto|]. split; [done|]. right. split; [done|]. exists n. split; [|done].
    apply tr_tick in Ht4. cbn [snd]. lia. }
  clearbody s5. destruct H5 as (Ht5 & D5 & stamp & Hf5 & Hv5 & Hst).
  destruct (write_attr_atomic fault partial random d attr value s5) as [r6 s6] eqn:E6.
  destruct (hidden_write m d _ _ s5 D5 r6 s6 Hd (tr_last _ _ _ Ht5) Hf5 E6) as (Ht6 & D6 & Hf6 & Hv6).
  pose proof (tr_trans _ _ _ _ Ht5 Ht6) as Ht56.
  destruct r6 as [u6|e]; [|intros Hr; apply create_fails; by eapply create_undo]. cbn [is_ok] in Hv6.
  intros Hend. apply (create_end m d s s6 D6); [done..| |exact Hend]. rewrite Hv6, Hv5. exists stamp. split; [done|].
  destruct Hst as [?|[? (n & Hn & Hfn)]]; [by left|right]. split; [done|]. apply Hfail. exists n. split; [|done].
  apply create_end_tick in Hend. apply tr_tick in Ht6. lia.
Qed.
End Create.

(** ** Properties *)

Lemma valid_device_name device : valid_device device = true → hidden device = false ∧ char_at device 0 = 110.
Proof.
  unfold valid_device, shr_startswith. case_bool_decide as H; [|done]. intros _.
  destruct device as [|x d]; [done|]. cbn in H. injection H as -> _. done.
Qed.

(** What a reader may see of an entry during an update. *)
Definition updating (failed : Prop) (device attr : list Z) (value : option (list Z)) (f0 f : fs) : Prop :=
  (∀ n, hidden n = false → n ≠ device → look f n = look f0 n) ∧
  match look f0 device with
  | Some D => ∃ D', look f device = Some D' ∧ written attr value D D'
  | None => look f device = None ∨ ∃ D', look f device = Some D' ∧ new_entry failed attr value (dview D')
  end.

Definition updated (failed : Prop) (device attr : list Z) (value : option (list Z)) (f0 f : fs) : Prop :=
  match look f0 device with
  | Some D => ∃ D', look f device = Some D' ∧ dview D' = upd attr value (dview D)
  | None => value = None ∧ look f device = None ∨ ∃ D', look f device = Some D' ∧ new_entry failed attr value (dview D')
  end.

Lemma write_attr_tick d attr value s r s' :
  write_attr_atomic fault partial random d attr value s = (r, s') → (r_tick s ≤ r_tick s')%nat.
Proof.
  unfold write_attr_atomic. destruct (negb (valid_attr attr)); [by intros [= _ <-]|].
  destruct value as [v|]; [later_calls|].
  destruct (sys fault (op_unlink d attr) s) as [[]s1] eqn:E1; apply sys_ok in E1 as [? _]; [|case_bool_decide];
    intros [= _ <-]; rewrite ?sys_tick; lia.
Qed.

(** The update of an entry that exists. *)
Lemma update_there (failed : Prop) (device attr : list Z) (value : option (list Z)) (s s1 : rst) (D : dir) (r : result unit) (s' : rst) :
  look (r_fs s) device = Some D → tr (λ f, f = r_fs s) s s1 →
  write_attr_atomic fault partial random device attr value s1 = (r, s') →
  tr (updating failed device attr value (r_fs s)) s s' ∧ (r = Ok tt → updated failed device attr value (r_fs s) (r_fs s')).
Proof.
  intros Hl Ht Hw. pose proof (tr_last _ _ _ Ht) as Hs1. cbn in Hs1. unfold updating, updated. rewrite Hl.
  assert (Hf : ∃ m, r_fs s = Some (<[device := D]> m)).
  { destruct (r_fs s) as [m|]; [|done]. exists m. f_equal. symmetry. by apply insert_id. }
  destruct Hf as [m Hf]. rewrite Hf in *.
  destruct (write_attr_ok m device attr value s1 D r s' Hs1 Hw) as (Htw & D' & HD' & Hv). split.
  - eapply tr_trans; [eapply tr_mono; [|exact Ht]|eapply tr_mono; [|exact Htw]].
    + intros f ->. split; [done|]. exists D. split; [apply lookup_insert_eq|by left].
    + intros f (X & -> & HX). split.
      * intros n _ Hne. cbn. by rewrite !lookup_insert_ne by done.
      * exists X. split; [apply lookup_insert_eq|done].
  - intros ->. exists D'. rewrite HD'. split; [apply lookup_insert_eq|done].
Qed.

(** The open of an entry. *)
Lemma open_entry (device : list Z) (s : rst) r (s1 : rst) :
  sys fault (op_nothing device) s = (r, s1) →
  r_fs s1 = r_fs s ∧ (∀ P : fs → Prop, P (r_fs s) → tr P s s1) ∧
  (r = Ok tt → is_Some (look (r_fs s) device)) ∧ (r = Err ENOENT → look (r_fs s) device = None).
Proof.
  intros [Hc Ht]%sys_cases.
  assert (Hf : r_fs s1 = r_fs s ∧ (r = Ok tt → is_Some (look (r_fs s) device)) ∧
               (r = Err ENOENT → look (r_fs s) device = None)).
  { destruct Hc as [(e & -> & He & ->)|Hop]; [split_and!; [done..|congruence]|]. unfold op_nothing, in_dir in Hop.
    destruct (r_fs s) as [m|] eqn:Em; [|injection Hop as <- <-; done].
    destruct (m !! device) as [D|] eqn:Ed; injection Hop as <- <-; cbn; rewrite Ed; split_and!; try done.
    by rewrite insert_id. }
  destruct Hf as (Hf & H1 & H2). split_and!; try done. intros P HP. apply Ht; [done|by rewrite Hf].
Qed.

Lemma updating_refl (failed : Prop) (device attr : list Z) (value : option (list Z)) (f : fs) : updating failed device attr value f f.
Proof.
  split; [done|]. destruct (look f device) as [D|] eqn:E; [exists D; by split; [|left]|by left].
Qed.

(** The update of an entry that does not exist: it is created. *)
Lemma update_absent (failed : Prop) (device attr : list Z) v (s : rst) (r : result unit) (s' : rst) :
  (call_failed s s' → failed) → valid_device device = true → look (r_fs s) device = None →
  match create_entry fault partial random uevent_seqnum device attr (Some v) false s with
  | (Err EEXIST, s) =>
      match sys fault (op_nothing device) s with
      | (Err e, s) => (Err e, s)
      | (Ok _, s) => write_attr_atomic fault partial random device attr (Some v) s
      end
  | r => r
  end = (r, s') →
  tr (updating failed device attr (Some v) (r_fs s)) s s' ∧ (r = Ok tt → updated failed device attr (Some v) (r_fs s) (r_fs s')).
Proof.
  intros Hfail [Hh Hn]%valid_device_name Hno.
  destruct (create_entry fault partial random uevent_seqnum device attr (Some v) false s) as [r2 s2] eqn:E2.
  intros Hrun. assert (T2 : (r_tick s2 ≤ r_tick s')%nat).
  { revert Hrun. destruct r2 as [|e]; [by intros [= _ <-]|]. destruct e; try by intros [= _ <-].
    destruct (sys fault (op_nothing device) s2) as [r3 s3] eqn:E3. apply sys_ok in E3 as [T3 _].
    destruct r3; [|intros [= _ <-]; lia]. intros Hw. apply write_attr_tick in Hw. lia. }
  assert (Hf2 : call_failed s s2 → failed).
  { intros (n & Hn' & ?). apply Hfail. exists n. split; [lia|done]. }
  revert Hrun. destruct (create_entry_ok failed device attr (Some v) false (r_fs s) Hh Hn s r2 s2 Hf2 eq_refl E2) as [Htc Hres].
  assert (Hcr : ∀ f, creating failed device attr (Some v) false (r_fs s) f → updating failed device attr (Some v) (r_fs s) f).
  { intros f [H1 H2]. split; [done|]. rewrite Hno in *. destruct H2 as [?|[[? _]|?]]; [by left|done|by right]. }
  pose proof (tr_mono _ _ _ _ Hcr Htc) as Ht2. destruct r2 as [[]|e].
  { intros [= <- <-]. split; [done|]. intros _. unfold updated. rewrite Hno. by right. }
  cbn [is_ok] in Hres. destruct Hres as [_ Hdev].
  assert (Hnone : look (r_fs s2) device = None) by (destruct Hdev as [->|[? _]]; done).
  destruct e; try (intros [= <- <-]; by split).
  destruct (sys fault (op_nothing device) s2) as [r3 s3] eqn:E3.
  apply open_entry in E3 as (Hf3 & Ht3 & Hok & _). destruct r3 as [[]|e].
  { rewrite Hnone in Hok. by destruct (Hok eq_refl). }
  intros [= <- <-]. split; [|done]. eapply tr_trans; [exact Ht2|]. apply Ht3. by apply tr_last in Ht2.
Qed.

Lemma update_spec (device attr : list Z) (value : option (list Z)) (s : rst) r s' (failed := call_failed s s') :
  libnvmf_registry_update fault partial random uevent_seqnum device attr value s = (r, s') →
  tr (updating failed device attr value (r_fs s)) s s' ∧ (r = Ok tt → updated failed device attr value (r_fs s) (r_fs s')).
Proof.
  unfold libnvmf_registry_update. destruct (valid_device device) eqn:Hv, (valid_attr attr) eqn:Ha; cbn [negb orb].
  2-4: intros [= <- <-]; split; [apply tr_refl, updating_refl|done].
  destruct (sys fault (op_nothing device) s) as [r1 s1] eqn:E1. apply open_entry in E1 as (Hf1 & Ht1 & Hok & Hno).
  destruct r1 as [[]|e].
  { destruct (Hok eq_refl) as [D HD]. apply (update_there _ _ _ _ _ _ D); [done|]. by apply Ht1. }
  pose proof (Ht1 _ (updating_refl failed device attr value (r_fs s))) as Hsame.
  case_bool_decide as He; cbn [negb]; [|intros [= <- <-]; by split]. subst e. specialize (Hno eq_refl).
  destruct value as [v|].
  2:{ intros [= <- <-]. split; [done|]. intros _. unfold updated. rewrite Hf1, Hno. by left. }
  rewrite <- Hf1 in *. intros Hr. apply (update_absent failed) in Hr as [Ht Hu]; [| |done..].
  2:{ intros (n & Hn & ?). exists n. split; [|done]. apply tr_tick in Hsame. lia. }
  split; [by eapply tr_trans|done].
Qed.

(** C17: While an attribute of an entry is written or removed, in each state
    between two system calls and whichever of them fails, a reader finds the
    attributes of the entry as they were or as they will be, never a part of
    them; an entry that is created by the update appears in one step with the
    attribute and the stamp, and has no stamp only when the sequence number of
    the kernel could not be read or a call of this update failed.  The other
    entries are never touched.  A result of success means that the change is
    there.  It is assumed that a call does not say that a file is missing
    (ENOENT) when it is there, and that no other process writes to the
    registry meanwhile. *)
Theorem registry_update_atomic (device attr : list Z) (value : option (list Z)) (s : rst) r s' :
  libnvmf_registry_update fault partial random uevent_seqnum device attr value s = (r, s') →
  tr (λ f, updating (call_failed s s') device attr value (r_fs s) f ∧
           ∀ n a, n ≠ device → libnvmf_registry_retrieve n a f = libnvmf_registry_retrieve n a (r_fs s)) s s' ∧
  (r = Ok tt → updated (call_failed s s') device attr value (r_fs s) (r_fs s')).
Proof.
  intros [Ht Hu]%update_spec. split; [|done]. eapply tr_mono; [|exact Ht]. intros f Hf. split; [done|].
  intros n a Hne. unfold libnvmf_registry_retrieve. destruct (valid_device n) eqn:Hv; [|done]. cbn [negb].
  apply valid_device_name in Hv as [Hh _]. pose proof (proj1 Hf n Hh Hne) as Hl. unfold look in Hl.
  destruct f as [m|], (r_fs s) as [m0|]; cbn in *; rewrite ?Hl; try done; by rewrite <- Hl.
Qed.

(** While an entry is deleted it is as it was or absent; the others are never
    touched. *)
Theorem registry_delete_atomic (device : list Z) (s : rst) r s' :
  libnvmf_registry_delete fault random device s = (r, s') →
  tr (λ f, (∀ n, hidden n = false → n ≠ device → look f n = look (r_fs s) n) ∧
           (look f device = look (r_fs s) device ∨ look f device = None)) s s' ∧
  (r = Ok tt → look (r_fs s') device = None).
Proof.
  unfold libnvmf_registry_delete. destruct (valid_device device) eqn:Hv; cbn [negb].
  2:{ intros [= <- <-]. split; [|done]. apply tr_refl. split; [done|by left]. }
  apply valid_device_name in Hv as [Hh _]. intros E. assert (Ht : hidden (trash_name s) = true) by done.
  pose proof (delete_atomic_ok device s (hidden_ne _ _ Ht Hh)) as Hd. rewrite E in Hd. destruct Hd as [Htr Hok].
  split; [|done]. eapply tr_mono; [|exact Htr]. intros f [Hf Hp]. split; [|done].
  intros n Hn Hne. apply Hf. intros [-> | ->]; [congruence|done].
Qed.

(** The entry of a controller that was just connected: the old one, none or
    the new one, with the owner and the stamp. *)
Theorem registry_create_atomic (instance : Z) (owner : option (list Z)) (s : rst) r s' :
  let device := lit "nvme" ++ print_int instance in
  libnvmf_registry_create_instance fault partial random uevent_seqnum instance owner s = (r, s') →
  tr (creating (call_failed s s') device (lit "owner") owner true (r_fs s)) s s' ∧
  (r = Ok tt → ∃ D, look (r_fs s') device = Some D ∧ new_entry (call_failed s s') (lit "owner") owner (dview D)).
Proof.
  intros device E. destruct (create_entry_ok (call_failed s s') device (lit "owner") owner true (r_fs s)
    eq_refl eq_refl s r s' id eq_refl E)
    as [Ht Hr]. split; [done|]. intros ->. done.
Qed.

(** ** Round trip *)

Lemma strip_newline v : in_set [c_nl; c_cr] (char_at (rev v) 0) = false ∨ v = [] → strip_newlines (v ++ nl) = v.
Proof.
  intros Hv. unfold strip_newlines, nl. rewrite rev_app_distr. cbn [rev app drop_while].
  change (in_set [c_nl; c_cr] c_nl) with true. cbn iota.
  destruct (rev v) as [|x t] eqn:E.
  - cbn. apply (f_equal (@rev Z)) in E. by rewrite rev_involutive in E.
  - destruct Hv as [Hx| ->]; [|done]. change (char_at (x :: t) 0) with x in Hx. cbn [drop_while]. rewrite Hx.
    rewrite <- E. apply rev_involutive.
Qed.

(** What was written is read back, unless it ends in a line end. *)
Theorem registry_roundtrip (device attr v : list Z) (s : rst) s' :
  in_set [c_nl; c_cr] (char_at (rev v) 0) = false ∨ v = [] →
  libnvmf_registry_update fault partial random uevent_seqnum device attr (Some v) s = (Ok tt, s') →
  libnvmf_registry_retrieve device attr (r_fs s') = Ok v.
Proof.
  intros Hv E.
  assert (Hva : valid_device device = true ∧ valid_attr attr = true).
  { unfold libnvmf_registry_update in E. by destruct (valid_device device), (valid_attr attr). }
  destruct Hva as [Hd Ha%valid_attr_name].
  assert (Hu : updated (call_failed s s') device attr (Some v) (r_fs s) (r_fs s')) by (by apply update_spec in E as [_ ?]; auto).
  assert (HD : ∃ D, look (r_fs s') device = Some D ∧ D !! attr = Some (v ++ nl)).
  { assert (Hin : ∀ D (V : dir), dview D = upd attr (Some v) V → D !! attr = Some (v ++ nl)).
    { intros D V HD. apply (f_equal (λ M : dir, M !! attr)) in HD. cbn in HD.
      rewrite dview_lookup, Ha, lookup_insert_eq in HD. done. }
    unfold updated in Hu. destruct (look (r_fs s) device) as [D0|].
    - destruct Hu as (D & HD & Hvw). eauto.
    - destruct Hu as [[? _]|(D & HD & stamp & Hvw & _)]; [done|eauto]. }
  destruct HD as (D & HD & Hf). unfold libnvmf_registry_retrieve. rewrite Hd. cbn [negb].
  unfold look in HD. destruct (r_fs s') as [m|]; [|done]. cbn in HD |- *. rewrite HD. cbn. rewrite Hf.
  unfold read_attr_fd. destruct (v ++ nl) as [|x t] eqn:Ex; [by destruct v|]. cbn [nonempty length Nat.eqb negb].
  rewrite <- Ex. f_equal. by apply strip_newline.
Qed.
End Spec.

(** ** An update *)

Module RegistrySample.
Definition fault (n : nat) : option errno := if (n =? 4)%nat then Some EIO else None.
Definition random (n : nat) : list Z := [97 + Z.of_nat n].
(** An entry with an owner, and another one. *)
Definition start : rst :=
  Rst (Some {[ lit "nvme0" := {[ lit "owner" := lit "me" ++ nl ]}; lit "nvme1" := ∅ ]}) 0 [].
(** The fifth call, the write of the line end, fails. *)
Definition run := libnvmf_registry_update fault (λ _, 0%nat) random (Some (lit "77" ++ nl)) (lit "nvme0") (lit "owner")
                    (Some (lit "you")) start.
(** A new entry, and no call fails. *)
Definition run2 := libnvmf_registry_update (λ _, None) (λ _, 0%nat) random (Some (lit "77" ++ nl)) (lit "nvme7")
                     (lit "owner") (Some (lit "you")) start.
End RegistrySample.

Lemma registry_update_atomic_witness :
  RegistrySample.run.1 = Err EIO ∧
  libnvmf_registry_retrieve (lit "nvme0") (lit "owner") (r_fs RegistrySample.run.2) = Ok (lit "me") ∧
  tr (updating (Some (lit "77" ++ nl))
        (call_failed RegistrySample.fault RegistrySample.start RegistrySample.run.2)
        (lit "nvme0") (lit "owner") (Some (lit "you")) (r_fs RegistrySample.start))
    RegistrySample.start RegistrySample.run.2.
Proof.
  split; [vm_compute; reflexivity|]. split; [vm_compute; reflexivity|].
  assert (Hf : ∀ n, RegistrySample.fault n ≠ Some ENOENT).
  { intros n. unfold RegistrySample.fault. by destruct (n =? 4)%nat. }
  destruct (registry_update_atomic RegistrySample.fault (λ _, 0%nat) RegistrySample.random (Some (lit "77" ++ nl)) Hf
              (lit "nvme0") (lit "owner") (Some (lit "you")) RegistrySample.start _ _
              (surjective_pairing RegistrySample.run)) as [Ht _].
  eapply tr_mono; [|exact Ht]. intros f [Hu _]. exact Hu.
Defined.

(** A new entry has its stamp. *)
Example registry_new_entry :
  RegistrySample.run2.1 = Ok tt ∧
  libnvmf_registry_retrieve (lit "nvme7") (lit "owner") (r_fs RegistrySample.run2.2) = Ok (lit "you") ∧
  libnvmf_registry_retrieve (lit "nvme7") (lit "seqnum") (r_fs RegistrySample.run2.2) = Ok (lit "77").
Proof. split_and!; vm_compute; reflexivity. Qed.
