(* ===== verification/Time.v ===== *)
(** * Time spans: [shared/time-util.c]

    [shr_parse_time] reads terms like "3 days 5 hours", "1.5h" or "20" and
    adds them up in microseconds of 64 bits. *)

From Stdlib Require Import String.
From stdpp Require Import base list numbers.
From S2P Require Import Prelude.
From S2P Require Import CStr.
From S2P Require Import Parse.
From S2P Require Import Tid.

Definition SHR_USEC_PER_MSEC : Z := 1000.
Definition SHR_USEC_PER_SEC : Z := 1000000.
Definition SHR_USEC_PER_MINUTE : Z := 60 * SHR_USEC_PER_SEC.
Definition SHR_USEC_PER_HOUR : Z := 60 * SHR_USEC_PER_MINUTE.
Definition SHR_USEC_PER_DAY : Z := 24 * SHR_USEC_PER_HOUR.
Definition SHR_USEC_PER_WEEK : Z := 7 * SHR_USEC_PER_DAY.
Definition SHR_USEC_PER_MONTH : Z := 2629800 * SHR_USEC_PER_SEC.
Definition SHR_USEC_PER_YEAR : Z := 31557600 * SHR_USEC_PER_SEC.
Definition SHR_USEC_INFINITY : Z := UINT64_MAX.

Definition WHITESPACE : list Z := [32; 9; 10; 13].
Definition skip_ws (s : list Z) : list Z := drop (strspn s WHITESPACE) s.

(** The table of [extract_multiplier]; the last two are the Greek mu and the
    micro sign. *)
Definition time_units : list (list Z * Z) := [
  (lit "seconds", SHR_USEC_PER_SEC); (lit "second", SHR_USEC_PER_SEC); (lit "sec", SHR_USEC_PER_SEC);
  (lit "s", SHR_USEC_PER_SEC); (lit "minutes", SHR_USEC_PER_MINUTE); (lit "minute", SHR_USEC_PER_MINUTE);
  (lit "min", SHR_USEC_PER_MINUTE); (lit "months", SHR_USEC_PER_MONTH); (lit "month", SHR_USEC_PER_MONTH);
  (lit "M", SHR_USEC_PER_MONTH); (lit "msec", SHR_USEC_PER_MSEC); (lit "ms", SHR_USEC_PER_MSEC);
  (lit "m", SHR_USEC_PER_MINUTE); (lit "hours", SHR_USEC_PER_HOUR); (lit "hour", SHR_USEC_PER_HOUR);
  (lit "hr", SHR_USEC_PER_HOUR); (lit "h", SHR_USEC_PER_HOUR); (lit "days", SHR_USEC_PER_DAY);
  (lit "day", SHR_USEC_PER_DAY); (lit "d", SHR_USEC_PER_DAY); (lit "weeks", SHR_USEC_PER_WEEK);
  (lit "week", SHR_USEC_PER_WEEK); (lit "w", SHR_USEC_PER_WEEK); (lit "years", SHR_USEC_PER_YEAR);
  (lit "year", SHR_USEC_PER_YEAR); (lit "y", SHR_USEC_PER_YEAR); (lit "usec", 1); (lit "us", 1);
  ([206; 188; 115], 1); ([194; 181; 115], 1)].

(** The loop over the table: the unit and what follows it. *)
Fixpoint find_unit (table : list (list Z * Z)) (p : list Z) : option (Z * list Z) :=
  match table with
  | [] => None
  | (suffix, usec) :: table =>
      match shr_startswith p suffix with
      | Some e => Some (usec, e)
      | None => find_unit table p
      end
  end.

Definition extract_multiplier (p : list Z) (ret : Z) : Z * list Z :=
  default (ret, p) (find_unit time_units p).

(** The digits behind the point, [m] the value of the first. *)
Fixpoint add_fraction (m : Z) (b : list Z) (usec : Z) : result Z :=
  match b with
  | c :: b =>
      if isdigit c then
        let k := u64 ((c - c_0) * m) in
        if SHR_USEC_INFINITY - usec <=? k then Err ERANGE
        else add_fraction (m / 10) b (usec + k)
      else Ok usec
  | [] => Ok usec
  end.

(** One term of the text at [p]: the sum and what follows the term. *)
Definition time_term (p : list Z) (usec default_unit : Z) : result (Z * list Z) :=
  if char_at p 0 =? c_minus then Err ERANGE
  else
    let r := strtoll 10 p in
    let e := st_end r in
    if st_erange r || (st_val r <? 0) then Err ERANGE
    else
      let dot := char_at e 0 =? c_dot in
      if negb dot && negb (st_conv r) then Err EINVAL
      else
        let p := if dot then drop_while isdigit (drop 1 e) else e in
        let '(multiplier, s) := extract_multiplier (skip_ws p) default_unit in
        if (length s =? length p)%nat && nonempty s then Err EINVAL
        else if SHR_USEC_INFINITY / multiplier <=? st_val r then Err ERANGE
        else
          let k := u64 (st_val r * multiplier) in
          if SHR_USEC_INFINITY - usec <=? k then Err ERANGE
          else if dot then
            match add_fraction (multiplier / 10) (drop 1 e) (usec + k) with
            | Err x => Err x
            | Ok usec => if isdigit (char_at e 1) then Ok (usec, s) else Err EINVAL
            end
          else Ok (usec + k, s).

(** The loop; [None] when [fuel] is short. *)
Fixpoint time_loop (fuel : nat) (p : list Z) (usec : Z) (something : bool) (default_unit : Z) :
    option (result Z) :=
  match fuel with
  | O => None
  | S fuel =>
      let p := skip_ws p in
      if negb (nonempty p) then Some (if something then Ok usec else Err EINVAL)
      else
        match time_term p usec default_unit with
        | Err x => Some (Err x)
        | Ok (usec, s) => time_loop fuel s usec true default_unit
        end
  end.

Definition shr_parse_time (str : list Z) (default_unit : Z) : option (result Z) :=
  if default_unit =? 0 then Some (Err EINVAL)
  else
    match shr_startswith (skip_ws str) (lit "infinity") with
    | Some s => Some (if nonempty (skip_ws s) then Err EINVAL else Ok SHR_USEC_INFINITY)
    | None => time_loop (S (length str)) str 0 false default_unit
    end.

(** [shr_elapsed_utime] on the seconds and microseconds of two times: the
    difference of 64 bits. *)
Definition shr_elapsed_utime (start_sec start_usec end_sec end_usec : Z) : Z :=
  u64 ((end_sec - start_sec) * 1000000 + (end_usec - start_usec)).

(** ** Termination *)

Lemma skip_ws_while s : skip_ws s = drop_while (in_set WHITESPACE) s.
Proof. apply drop_take_while. Qed.

Lemma drop_while_length (p : Z → bool) s : (length (drop_while p s) ≤ length s)%nat.
Proof. rewrite <- (take_while_drop_while p s) at 2. rewrite length_app. lia. Qed.

Lemma skip_ws_length s : (length (skip_ws s) ≤ length s)%nat.
Proof. rewrite skip_ws_while. apply drop_while_length. Qed.

Lemma find_unit_length table p u s : find_unit table p = Some (u, s) → (length s ≤ length p)%nat.
Proof.
  induction table as [|[suf v] table IH]; cbn [find_unit]; [done|]. unfold shr_startswith at 1.
  case_bool_decide; [|done]. intros [= _ <-]. rewrite length_drop. lia.
Qed.

Lemma multiplier_length p d u s : extract_multiplier p d = (u, s) → (length s ≤ length p)%nat.
Proof.
  unfold extract_multiplier. destruct (find_unit time_units p) as [[v t]|] eqn:E; cbn.
  - intros [= <- <-]. by eapply find_unit_length.
  - by intros [= _ <-].
Qed.

Lemma strtoll_end p :
  (length (st_end (strtoll 10 p)) ≤ length p)%nat ∧
  (st_conv (strtoll 10 p) = true → length (st_end (strtoll 10 p)) < length p)%nat.
Proof.
  assert (Hs : ∀ neg m rest, scan_int 10 p = Some (neg, m, rest) → (length rest < length p)%nat).
  { intros neg m rest. unfold scan_int. pose proof (drop_while_length isspace p) as Hw.
    destruct (if char_at (drop_while isspace p) 0 =? c_minus then _ else _) as [n s] eqn:Es.
    assert (Hle : (length s ≤ length p)%nat).
    { destruct (char_at _ 0 =? c_minus); [|destruct (char_at _ 0 =? c_plus)]; injection Es as <- <-;
        rewrite ?length_drop; lia. }
    assert (Hd : detect_base 10 s = (10, s)) by done. rewrite Hd.
    destruct (digit_val (char_at s 0) <? 10) eqn:Edig; [|done].
    destruct (scan_digits_spec 10 0 s) as (ds & r & Hsplit & Hds & -> & Hr). intros [= _ _ <-].
    destruct ds as [|c ds].
    - cbn in Hsplit. subst r. destruct Hr as [->|Hr]; [done|]. by rewrite Edig in Hr.
    - rewrite Hsplit in Hle. cbn in Hle. rewrite length_app in Hle. lia. }
  unfold strtoll. destruct (scan_int 10 p) as [[[neg m] rest]|]; [|cbn; split; [lia|done]].
  specialize (Hs _ _ _ eq_refl). repeat case_match; cbn; lia.
Qed.

Lemma behind_dot e : (char_at e 0 =? c_dot) = true → (length (drop_while isdigit (drop 1 e)) < length e)%nat.
Proof.
  destruct e as [|c e]; [done|]. intros _. pose proof (drop_while_length isdigit e).
  change (drop 1 (c :: e)) with (drop 0 e). rewrite drop_0. cbn [length]. lia.
Qed.

Lemma time_term_length p usec d v s :
  time_term p usec d = Ok (v, s) → (length s < length p)%nat.
Proof.
  unfold time_term. destruct (strtoll_end p) as [Hle Hlt]. set (r := strtoll 10 p) in *.
  case_match; [done|]. case_match; [done|].
  destruct (char_at (st_end r) 0 =? c_dot) eqn:Edot, (st_conv r) eqn:Econv; cbn [negb andb]; try done.
  1,2: assert (Hq : (length (drop_while isdigit (drop 1 (st_end r))) < length p)%nat)
    by (apply behind_dot in Edot; lia);
    destruct (extract_multiplier _ d) as [m t] eqn:Em; apply multiplier_length in Em;
    pose proof (skip_ws_length (drop_while isdigit (drop 1 (st_end r))));
    repeat case_match; intros; simplify_eq; lia.
  - specialize (Hlt eq_refl).
    destruct (extract_multiplier _ d) as [m t] eqn:Em. apply multiplier_length in Em.
    pose proof (skip_ws_length (st_end r)). repeat case_match; intros; simplify_eq; lia.
Qed.

(** Enough fuel: each term takes a character. *)
Lemma time_loop_returns fuel p usec something d :
  (length p < fuel)%nat → time_loop fuel p usec something d ≠ None.
Proof.
  revert p usec something. induction fuel as [|fuel IH]; intros p usec something Hl; [lia|]. cbn [time_loop].
  destruct (nonempty (skip_ws p)) eqn:E; [|done]. cbn [negb].
  destruct (time_term (skip_ws p) usec d) as [[v s]|x] eqn:Et; [|done].
  apply time_term_length in Et. pose proof (skip_ws_length p). apply IH. lia.
Qed.

(** ** Reference *)

(** A term: its digits, those behind the point, and a unit of the table. *)
Record span := Span {
  sp_num : list Z;
  sp_frac : list Z;
  sp_unit : option (list Z * Z);
}.

Definition span_text (t : span) : list Z :=
  sp_num t ++ (match sp_frac t with [] => [] | f => c_dot :: f end) ++
  match sp_unit t with Some (suffix, _) => suffix | None => [] end.

Definition span_unit (d : Z) (t : span) : Z := match sp_unit t with Some (_, u) => u | None => d end.

(** The digits behind the point: a tenth of the unit, rounded down, and so on. *)
Fixpoint frac_value (m : Z) (ds : list Z) : Z :=
  match ds with [] => 0 | c :: ds => (c - c_0) * m + frac_value (m / 10) ds end.

Definition span_value (d : Z) (t : span) : Z :=
  Numeral.value 10 (sp_num t) * span_unit d t + frac_value (span_unit d t / 10) (sp_frac t).

Record span_ok (d : Z) (t : span) : Prop := {
  sk_num : sp_num t ≠ [] ∧ forallb isdigit (sp_num t) = true;
  sk_frac : forallb isdigit (sp_frac t) = true;
  sk_unit : ∀ x, sp_unit t = Some x → x ∈ time_units;
  sk_small : Numeral.value 10 (sp_num t) ≤ INT64_MAX ∧ Numeral.value 10 (sp_num t) < SHR_USEC_INFINITY / span_unit d t }.

(** What may follow a term: nothing, or a space and the next one. *)
Definition term_end (tail : list Z) : Prop := tail = [] ∨ ∃ c r, tail = 32 :: c :: r ∧ isdigit c = true.

(** ** Lemmas *)

Lemma units_pos x : x ∈ time_units → 0 < x.2.
Proof.
  assert (H : Forall (λ x, 0 < x.2) time_units) by (repeat constructor).
  rewrite list.Forall_forall in H. auto.
Qed.

Lemma unit_found x tail : x ∈ time_units → term_end tail → find_unit time_units (x.1 ++ tail) = Some (x.2, tail).
Proof.
  intros Hx Ht.
  assert (H : Forall (λ x, find_unit time_units (x.1 ++ tail) = Some (x.2, tail)) time_units).
  { destruct Ht as [->|(c & r & -> & _)]; repeat constructor; vm_compute; reflexivity. }
  rewrite list.Forall_forall in H. auto.
Qed.

Lemma digit_not_ws c : isdigit c = true → in_set WHITESPACE c = false.
Proof.
  rewrite isdigit_range. intros Hc. unfold in_set, WHITESPACE. cbn.
  repeat (rewrite (proj2 (Z.eqb_neq _ _)) by lia; cbn). done.
Qed.

Lemma no_unit c r : isdigit c = true → find_unit time_units (c :: r) = None.
Proof.
  intros Hc%isdigit_range.
  assert (Hn : ∀ x, x ∈ time_units → shr_startswith (c :: r) x.1 = None).
  { assert (Hh : Forall (λ x : list Z * Z, 58 ≤ char_at x.1 0 ∧ (0 < length x.1)%nat) time_units)
      by (repeat constructor; cbn; lia).
    intros [suf u] Hx. rewrite list.Forall_forall in Hh. destruct (Hh _ Hx) as [Hs Hl]. cbn [fst] in *.
    unfold shr_startswith. rewrite bool_decide_false; [done|]. destruct suf as [|x suf]; [cbn in Hl; lia|].
    change (char_at (x :: suf) 0) with x in Hs. cbn. intros [= -> _]. lia. }
  revert Hn. generalize time_units. induction l as [|[suf u] l IH]; intros Hn; [done|]. cbn [find_unit].
  pose proof (Hn (suf, u) ltac:(left)) as H. cbn [fst] in H. rewrite H. apply IH. intros x Hx. apply Hn. by right.
Qed.

Lemma frac_nonneg m ds : 0 ≤ m → forallb isdigit ds = true → 0 ≤ frac_value m ds.
Proof.
  revert m. induction ds as [|c ds IH]; intros m Hm; cbn; [lia|]. intros [Hc%isdigit_range Hds]%andb_true_iff.
  specialize (IH (m / 10) ltac:(apply Z.div_pos; lia) Hds). nia.
Qed.

Lemma add_fraction_ok m ds rest usec :
  0 ≤ m → forallb isdigit ds = true → (rest = [] ∨ isdigit (char_at rest 0) = false) → 0 ≤ usec →
  usec + frac_value m ds < SHR_USEC_INFINITY →
  add_fraction m (ds ++ rest) usec = Ok (usec + frac_value m ds).
Proof.
  revert m usec. induction ds as [|c ds IH]; intros m usec Hm Hds Hr Hu Hlt; cbn [app].
  - cbn [frac_value]. rewrite Z.add_0_r. destruct rest as [|x rest]; [done|]. cbn [add_fraction].
    destruct Hr as [?|Hr]; [done|]. change (char_at (x :: rest) 0) with x in Hr. by rewrite Hr.
  - cbn in Hds. apply andb_true_iff in Hds as [Hc Hds]. cbn [add_fraction frac_value] in *. rewrite Hc.
    pose proof (frac_nonneg (m / 10) ds ltac:(apply Z.div_pos; lia) Hds) as Hf.
    apply isdigit_range in Hc. unfold SHR_USEC_INFINITY, UINT64_MAX in *.
    assert (Hk : u64 ((c - c_0) * m) = (c - c_0) * m) by (unfold u64; apply Z.mod_small; nia).
    rewrite Hk. replace (_ <=? _) with false by (symmetry; apply Z.leb_gt; lia).
    rewrite IH; [f_equal; lia|apply Z.div_pos; lia|done|done|nia|lia].
Qed.

Lemma strtoll_num ds rest :
  ds ≠ [] → forallb isdigit ds = true → (rest = [] ∨ isdigit (char_at rest 0) = false) →
  Numeral.value 10 ds ≤ INT64_MAX →
  strtoll 10 (ds ++ rest) = Strto (Numeral.value 10 ds) false rest true.
Proof.
  intros Hne Hd Hr Hv. unfold strtoll.
  assert (Hh : isdigit (char_at (ds ++ rest) 0) = true).
  { destruct ds as [|c ds]; [done|]. cbn in Hd. by apply andb_true_iff in Hd as [? _]. }
  rewrite scan_int_digit by done. change (detect_base 10 (ds ++ rest)) with (10, ds ++ rest). cbn iota beta.
  rewrite digit_val_dec, Hh.
  assert (Hds : forallb (λ c, digit_val c <? 10) ds = true) by (by rewrite (forallb_ext _ isdigit) by apply digit_val_dec).
  rewrite scan_digits_app by done. fold (Numeral.value 10 ds).
  assert (Hz : scan_digits 10 (Numeral.value 10 ds) rest = (Numeral.value 10 ds, rest)).
  { destruct rest as [|x rest]; [done|]. cbn [scan_digits]. rewrite digit_val_dec.
    destruct Hr as [?|Hr]; [done|]. change (char_at (x :: rest) 0) with x in Hr. by rewrite Hr. }
  rewrite Hz. pose proof (value_nonneg 10 0 ds ltac:(lia) ltac:(lia)) as Hnn. fold (Numeral.value 10 ds) in Hnn.
  replace (INT64_MAX <? _) with false by (symmetry; apply Z.ltb_ge; lia).
  replace (_ <? INT64_MIN) with false by (symmetry; apply Z.ltb_ge; unfold INT64_MIN; lia). done.
Qed.

(** A unit, or what follows a term, starts with no digit. *)
Lemma unit_head x tail : x ∈ time_units →
  ∃ c r, x.1 ++ tail = c :: r ∧ isdigit c = false ∧ in_set WHITESPACE c = false ∧ c ≠ c_dot.
Proof.
  assert (H : Forall (λ x : list Z * Z, ∃ c r, x.1 = c :: r ∧ isdigit c = false ∧
                        in_set WHITESPACE c = false ∧ c ≠ c_dot) time_units).
  { repeat constructor; eexists _, _; (split; [reflexivity|]); by vm_compute. }
  rewrite list.Forall_forall in H. intros Hx. destruct (H _ Hx) as (c & r & -> & ?).
  exists c, (r ++ tail). done.
Qed.

(** The unit of a term and what follows it. *)
Lemma multiplier_ok d t tail (q := match sp_unit t with Some (suf, _) => suf | None => [] end ++ tail) :
  (∀ x, sp_unit t = Some x → x ∈ time_units) → term_end tail →
  (q = [] ∨ isdigit (char_at q 0) = false ∧ char_at q 0 ≠ c_dot) ∧
  ∃ tail', extract_multiplier (skip_ws q) d = (span_unit d t, tail') ∧ skip_ws tail' = skip_ws tail ∧
    (length tail' = length q → tail' = []).
Proof.
  intros Hu Ht. unfold q, span_unit, extract_multiplier. clear q. destruct (sp_unit t) as [[suf u]|].
  - specialize (Hu _ eq_refl). pose proof (unit_found _ tail Hu Ht) as Hf. cbn [fst snd] in Hf.
    destruct (unit_head _ tail Hu) as (c & r & E & Hc & Hw & Hdot). cbn [fst] in E. split.
    + right. rewrite E. done.
    + exists tail. replace (skip_ws (suf ++ tail)) with (suf ++ tail)
        by (rewrite skip_ws_while, E; cbn [drop_while]; by rewrite Hw).
      rewrite Hf. cbn. split_and!; [done..|]. rewrite length_app. destruct suf; [|cbn; lia].
      by pose proof (units_pos _ Hu); cbn in E; destruct Ht as [->|(? & ? & -> & ?)].
  - cbn [app]. destruct Ht as [->|(c & r & -> & Hc)].
    + split; [by left|]. exists []. done.
    + split; [right; done|]. exists (c :: r). pose proof (digit_not_ws c Hc) as Hw.
      assert (Hs : skip_ws (32 :: c :: r) = c :: r) by (rewrite skip_ws_while; cbn [drop_while]; change (in_set WHITESPACE 32) with true; by rewrite Hw).
      rewrite Hs, no_unit by done. split; [done|]. split; [|cbn; lia].
      rewrite skip_ws_while. cbn [drop_while]. by rewrite Hw.
Qed.

(** One term. *)
Lemma time_term_ok d t tail usec :
  0 < d → span_ok d t → term_end tail → 0 ≤ usec → usec + span_value d t < SHR_USEC_INFINITY →
  ∃ tail', time_term (span_text t ++ tail) usec d = Ok (usec + span_value d t, tail') ∧
           skip_ws tail' = skip_ws tail.
Proof.
  intros Hd [[Hn1 Hn2] Hf Hu [Hs1 Hs2]] Ht Hus Hlt.
  destruct (multiplier_ok d t tail Hu Ht) as (Hq & tail' & Hm & Hskip & Hlen). exists tail'. split; [|done].
  set (q := match sp_unit t with Some _ => _ | None => _ end ++ tail) in *.
  assert (Hpos : 0 < span_unit d t).
  { unfold span_unit. destruct (sp_unit t) as [[suf u]|] eqn:E; [|done]. by apply (units_pos _ (Hu _ eq_refl)). }
  set (e := match sp_frac t with [] => [] | f => c_dot :: f end ++ q).
  assert (Htext : span_text t ++ tail = sp_num t ++ e) by (unfold span_text, e, q; by rewrite <- !app_assoc).
  assert (He : e = [] ∨ isdigit (char_at e 0) = false).
  { subst e. destruct (sp_frac t); [destruct Hq as [->|[? _]]; [by left|by right]|by right]. }
  unfold time_term. rewrite Htext, strtoll_num by done. cbn [st_erange st_val st_end st_conv orb negb].
  assert (Hh : (char_at (sp_num t ++ e) 0 =? c_minus) = false).
  { destruct (sp_num t) as [|c n]; [done|]. cbn in Hn2. apply andb_true_iff in Hn2 as [Hc _].
    apply isdigit_range in Hc. apply Z.eqb_neq. cbn. lia. }
  pose proof (value_nonneg 10 0 (sp_num t) ltac:(lia) ltac:(lia)) as Hnn. fold (Numeral.value 10 (sp_num t)) in Hnn.
  rewrite Hh. replace (_ <? 0) with false by (symmetry; apply Z.ltb_ge; lia). rewrite andb_false_r.
  pose proof (frac_nonneg (span_unit d t / 10) (sp_frac t) ltac:(apply Z.div_pos; lia) Hf) as Hfn.
  unfold span_value in *. set (v := Numeral.value 10 (sp_num t)) in *. set (m := span_unit d t) in *.
  assert (Hk : u64 (v * m) = v * m).
  { unfold u64. apply Z.mod_small. unfold SHR_USEC_INFINITY, UINT64_MAX in Hlt. nia. }
  assert (Hrest : (length tail' =? length q)%nat && nonempty tail' = false).
  { destruct (Nat.eqb_spec (length tail') (length q)) as [E|]; [|done]. by rewrite (Hlen E). }
  assert (Hg1 : (SHR_USEC_INFINITY / m <=? v) = false) by (apply Z.leb_gt; lia).
  assert (Hg2 : (SHR_USEC_INFINITY - usec <=? v * m) = false) by (apply Z.leb_gt; lia).
  subst e. destruct (sp_frac t) as [|f fs] eqn:Ef.
  - cbn [app]. assert (Hdot : (char_at q 0 =? c_dot) = false).
    { destruct Hq as [->|[_ ?]]; [done|]. by apply Z.eqb_neq. }
    rewrite Hdot, Hm, Hrest, Hg1, Hk, Hg2. cbn [frac_value]. do 2 f_equal. lia.
  - cbn [app]. change (char_at (c_dot :: f :: fs ++ q) 0 =? c_dot) with true. cbn iota.
    change (drop 1 (c_dot :: f :: fs ++ q)) with ((f :: fs) ++ q).
    assert (Hdw : drop_while isdigit ((f :: fs) ++ q) = q).
    { rewrite drop_while_app_all by done. destruct q as [|x q']; [done|]. destruct Hq as [?|[Hx _]]; [done|].
      cbn [drop_while]. change (char_at (x :: q') 0) with x in Hx. by rewrite Hx. }
    rewrite Hdw, Hm, Hrest, Hg1, Hk, Hg2.
    rewrite add_fraction_ok; [|apply Z.div_pos; lia|done|destruct Hq as [?|[? _]]; auto|nia|lia].
    change (char_at (c_dot :: f :: fs ++ q) 1) with f. cbn in Hf. apply andb_true_iff in Hf as [-> _].
    do 2 f_equal. lia.
Qed.

Definition tail_text (ts : list span) : list Z := concat ((λ t, 32 :: span_text t) <$> ts).
Definition spans_value (d : Z) (ts : list span) : Z := foldr (λ t a, span_value d t + a) 0 ts.

Lemma span_head d t rest : span_ok d t → ∃ c r, span_text t ++ rest = c :: r ∧ isdigit c = true.
Proof.
  intros [[Hn Hd] _ _ _]. unfold span_text. destruct (sp_num t) as [|c n]; [done|].
  cbn in Hd. apply andb_true_iff in Hd as [Hc _]. eexists c, _. by split.
Qed.

Lemma span_nonneg d t : 0 < d → span_ok d t → 0 ≤ span_value d t.
Proof.
  intros Hd [_ Hf Hu _]. unfold span_value. pose proof (value_nonneg 10 0 (sp_num t) ltac:(lia) ltac:(lia)).
  fold (Numeral.value 10 (sp_num t)) in *.
  assert (0 < span_unit d t).
  { unfold span_unit. destruct (sp_unit t) as [[suf u]|] eqn:E; [|done]. by apply (units_pos _ (Hu _ eq_refl)). }
  pose proof (frac_nonneg (span_unit d t / 10) (sp_frac t) ltac:(apply Z.div_pos; lia) Hf). nia.
Qed.

Lemma spans_nonneg d ts : 0 < d → Forall (span_ok d) ts → 0 ≤ spans_value d ts.
Proof. intros Hd. induction 1 as [|t ts Ht _ IH]; [done|]. pose proof (span_nonneg d t Hd Ht). cbn. fold (spans_value d ts). lia. Qed.

Lemma skip_ws_digit c r : isdigit c = true → skip_ws (c :: r) = c :: r ∧ skip_ws (32 :: c :: r) = c :: r.
Proof.
  intros Hc%digit_not_ws. rewrite !skip_ws_while. cbn [drop_while].
  change (in_set WHITESPACE 32) with true. by rewrite Hc.
Qed.

Lemma time_loop_ok d ts fuel p usec something :
  0 < d → Forall (span_ok d) ts → (length ts < fuel)%nat → skip_ws p = skip_ws (tail_text ts) →
  0 ≤ usec → usec + spans_value d ts < SHR_USEC_INFINITY → (ts = [] → something = true) →
  time_loop fuel p usec something d = Some (Ok (usec + spans_value d ts)).
Proof.
  intros Hd Hts. revert fuel p usec something.
  induction Hts as [|t ts Ht Hts IH]; intros fuel p usec something Hf Hp Hu Hlt Hs;
    (destruct fuel as [|fuel]; [cbn in Hf; lia|]); cbn [time_loop]; rewrite Hp.
  { rewrite (Hs eq_refl). cbn. do 2 f_equal. lia. }
  destruct (span_head d t (tail_text ts) Ht) as (c & r & Hcr & Hc).
  assert (Hend : term_end (tail_text ts)).
  { destruct Hts as [|t' ts' Ht' _]; [by left|right]. cbn.
    destruct (span_head d t' (tail_text ts') Ht') as (c' & r' & E & ?). exists c', r'. by rewrite <- E. }
  change (tail_text (t :: ts)) with (32 :: span_text t ++ tail_text ts). rewrite Hcr.
  destruct (skip_ws_digit c r Hc) as [_ ->]. cbn [nonempty length Nat.eqb negb]. rewrite <- Hcr.
  pose proof (spans_nonneg d ts Hd Hts). cbn in Hlt. fold (spans_value d ts) in Hlt.
  pose proof (span_nonneg d t Hd Ht).
  destruct (time_term_ok d t (tail_text ts) usec Hd Ht Hend Hu ltac:(lia)) as (tail' & -> & Htail).
  rewrite IH; [cbn; fold (spans_value d ts); do 2 f_equal; lia|cbn in Hf; lia|done|lia|lia|done].
Qed.

Lemma tail_text_length d ts : Forall (span_ok d) ts → (2 * length ts ≤ length (tail_text ts))%nat.
Proof.
  induction 1 as [|t ts Ht _ IH]; [done|].
  change (tail_text (t :: ts)) with (32 :: span_text t ++ tail_text ts). cbn [length]. rewrite length_app.
  destruct Ht as [[Hn _] _ _ _]. unfold span_text. rewrite length_app. destruct (sp_num t); [done|]. cbn [length]. lia.
Qed.

(** ** Properties *)

(** The sum of the terms of a text, each a number with an optional fraction
    and an optional unit of the table, as long as it fits. *)
Theorem parse_time_terms d t ts :
  0 < d → Forall (span_ok d) (t :: ts) → spans_value d (t :: ts) < SHR_USEC_INFINITY →
  shr_parse_time (span_text t ++ tail_text ts) d = Some (Ok (spans_value d (t :: ts))).
Proof.
  intros Hd Hts Hlt. unfold shr_parse_time. replace (d =? 0) with false by (symmetry; apply Z.eqb_neq; lia).
  pose proof Hts as [Ht Hts']%list.Forall_cons.
  destruct (span_head d t (tail_text ts) Ht) as (c & r & Hcr & Hc). rewrite Hcr.
  destruct (skip_ws_digit c r Hc) as [-> Hsp].
  assert (Hinf : shr_startswith (c :: r) (lit "infinity") = None).
  { unfold shr_startswith. rewrite bool_decide_false; [done|]. cbn. intros [= -> _]. done. }
  rewrite Hinf, (time_loop_ok d (t :: ts)); [done|done|done| | |lia|done|done].
  - rewrite <- Hcr. pose proof (tail_text_length d (t :: ts) Hts) as Hl.
    change (tail_text (t :: ts)) with (32 :: span_text t ++ tail_text ts) in Hl. cbn [length] in *.
    lia.
  - change (tail_text (t :: ts)) with (32 :: span_text t ++ tail_text ts). rewrite Hcr, Hsp.
    by destruct (skip_ws_digit c r Hc).
Qed.

Lemma add_fraction_bounds m b usec v :
  0 ≤ usec < SHR_USEC_INFINITY → add_fraction m b usec = Ok v → 0 ≤ v < SHR_USEC_INFINITY.
Proof.
  revert m usec. induction b as [|c b IH]; intros m usec Hu; cbn [add_fraction]; [by intros [= <-]|].
  destruct (isdigit c); [|by intros [= <-]]. destruct (Z.leb_spec (SHR_USEC_INFINITY - usec) (u64 ((c - c_0) * m))); [done|].
  apply IH. assert (0 ≤ u64 ((c - c_0) * m)) by (unfold u64; apply Z.mod_pos_bound; lia). lia.
Qed.

Lemma time_term_bounds p usec d v s :
  0 ≤ usec < SHR_USEC_INFINITY → time_term p usec d = Ok (v, s) → 0 ≤ v < SHR_USEC_INFINITY.
Proof.
  intros Hu. unfold time_term. case_match; [done|]. case_match; [done|]. case_match; [done|].
  destruct (extract_multiplier _ d) as [m t]. destruct (_ && nonempty t); [done|].
  destruct (_ / m <=? _); [done|].
  assert (Hk : 0 ≤ u64 (st_val (strtoll 10 p) * m)) by (unfold u64; apply Z.mod_pos_bound; lia).
  destruct (Z.leb_spec (SHR_USEC_INFINITY - usec) (u64 (st_val (strtoll 10 p) * m))); [done|].
  destruct (char_at (st_end _) 0 =? c_dot); [|by intros [= <- _]; lia].
  destruct (add_fraction _ _ _) as [w|] eqn:E; [|done]. case_match; [|done]. intros [= <- _].
  apply add_fraction_bounds in E; [done|lia].
Qed.

Lemma time_loop_bounds fuel p usec something d v :
  0 ≤ usec < SHR_USEC_INFINITY → time_loop fuel p usec something d = Some (Ok v) → 0 ≤ v < SHR_USEC_INFINITY.
Proof.
  revert p usec something. induction fuel as [|fuel IH]; intros p usec something Hu; cbn [time_loop]; [done|].
  case_match; [destruct something; [by intros [= <-]|done]|].
  destruct (time_term _ usec d) as [[w s]|] eqn:E; [|done]. apply IH. by eapply time_term_bounds.
Qed.

(** Every text gives a span or an error, and only "infinity" gives the span
    without an end. *)
Theorem parse_time_bounded str d :
  shr_parse_time str d ≠ None ∧
  ∀ v, shr_parse_time str d = Some (Ok v) →
    0 ≤ v < SHR_USEC_INFINITY ∨ v = SHR_USEC_INFINITY ∧ is_Some (shr_startswith (skip_ws str) (lit "infinity")).
Proof.
  unfold shr_parse_time. case_match; [done|].
  destruct (shr_startswith (skip_ws str) (lit "infinity")) as [s|].
  - split; [done|]. case_match; [done|]. intros v [= <-]. eauto.
  - split; [apply time_loop_returns; lia|]. intros v Hv. left. by eapply time_loop_bounds in Hv.
Qed.

(** Months and minutes, a fraction, and a text that stops before its end. *)
Fact parse_time_samples :
  shr_parse_time (lit "1M 2m 1.5h 20") SHR_USEC_PER_SEC =
    Some (Ok (SHR_USEC_PER_MONTH + 2 * SHR_USEC_PER_MINUTE + 5400 * SHR_USEC_PER_SEC + 20 * SHR_USEC_PER_SEC)) ∧
  shr_parse_time (lit "12.34.56") SHR_USEC_PER_SEC = Some (Err EINVAL) ∧
  shr_parse_time (lit " infinity ") SHR_USEC_PER_SEC = Some (Ok SHR_USEC_INFINITY).
Proof. vm_compute. done. Qed.
