(* ===== verification/KeysdConfig.v ===== *)
(** * The configuration of the key daemon: [keysd/src/config.c]

    The "[kmip:name]" sections name the key management servers.  A bad line is
    skipped; what is left is complete and well formed. *)

From Stdlib Require Import String.
From stdpp Require Import base list numbers.
From S2P Require Import Prelude.
From S2P Require Import CStr.
From S2P Require Import Parse.
From S2P Require Import Ini.
From S2P Require Import Time.

Definition KMIP_SECTION : list Z := lit "kmip:".
Definition KMIP_TIMEOUT_MAX_MS : Z := 10 * 60 * 1000.
Definition KEYSD_KMIP_PORT : list Z := lit "5696".
Definition KEYSD_KMIP_TIMEOUT_MS : Z := 10000.

(** ** Log levels *)

Definition level_names : list (list Z) := [lit "err"; lit "warn"; lit "info"; lit "debug"].
Definition DMN_DEFAULT_LOGLEVEL : Z := 2.

(** The loop of [dmn_parse_log_level], from the level [i]. *)
Fixpoint level_from (i : Z) (names : list (list Z)) (name : list Z) : result Z :=
  match names with
  | [] => Err EINVAL
  | n :: names => if strcaseeq name n then Ok i else level_from (i + 1) names name
  end.
Definition dmn_parse_log_level (name : list Z) : result Z := level_from 0 level_names name.

(** ** Data *)

Record keysd_kmip := Kmip {
  km_name : list Z;
  km_servers : list (list Z);
  km_port : list Z;
  km_ca : option (list Z);
  km_client_cert : option (list Z);
  km_client_key : option (list Z);
  km_timeout_ms : Z;
}.

Record keysd_config := KeysdConfig {
  kc_debug_level : Z;
  kc_kmip : list keysd_kmip;
}.

Definition set_servers (l : list (list Z)) (k : keysd_kmip) : keysd_kmip :=
  Kmip (km_name k) l (km_port k) (km_ca k) (km_client_cert k) (km_client_key k) (km_timeout_ms k).
Definition set_port (v : list Z) (k : keysd_kmip) : keysd_kmip :=
  Kmip (km_name k) (km_servers k) v (km_ca k) (km_client_cert k) (km_client_key k) (km_timeout_ms k).
Definition set_ca (v : list Z) (k : keysd_kmip) : keysd_kmip :=
  Kmip (km_name k) (km_servers k) (km_port k) (Some v) (km_client_cert k) (km_client_key k) (km_timeout_ms k).
Definition set_client_cert (v : list Z) (k : keysd_kmip) : keysd_kmip :=
  Kmip (km_name k) (km_servers k) (km_port k) (km_ca k) (Some v) (km_client_key k) (km_timeout_ms k).
Definition set_client_key (v : list Z) (k : keysd_kmip) : keysd_kmip :=
  Kmip (km_name k) (km_servers k) (km_port k) (km_ca k) (km_client_cert k) (Some v) (km_timeout_ms k).
Definition set_timeout (v : Z) (k : keysd_kmip) : keysd_kmip :=
  Kmip (km_name k) (km_servers k) (km_port k) (km_ca k) (km_client_cert k) (km_client_key k) v.

(** ** Values *)

Definition config_set_defaults : keysd_config := KeysdConfig DMN_DEFAULT_LOGLEVEL [].

Definition apply_global_key (cfg : keysd_config) (key val : list Z) : keysd_config :=
  if str_eqb key (lit "debug-level") then
    match dmn_parse_log_level val with
    | Ok level => KeysdConfig level (kc_kmip cfg)
    | Err _ => cfg
    end
  else cfg.

(** [strpbrk(s, " \t")] *)
Definition has_blank (s : list Z) : bool := existsb (in_set [32; 9]) s.

Definition name_valid (name : list Z) : bool :=
  nonempty name && negb (char_at name 0 =? c_dot) && negb (existsb (Z.eqb 47) name) && negb (has_blank name).

Definition parse_port (val : list Z) : result unit :=
  let r := strtoull 10 val in
  if st_erange r || negb (st_conv r) || nonempty (st_end r) || (st_val r =? 0) || (65535 <? st_val r)
  then Err EINVAL else Ok tt.

(** The fuel of [shr_parse_time] is enough, see [parse_time_bounded]. *)
Definition parse_timeout (val : list Z) : result Z :=
  match default (Err EINVAL) (shr_parse_time val SHR_USEC_PER_SEC) with
  | Err e => Err e
  | Ok usec =>
      if (usec <? SHR_USEC_PER_MSEC) || (KMIP_TIMEOUT_MAX_MS <? usec / SHR_USEC_PER_MSEC) then Err ERANGE
      else Ok (u32 (usec / SHR_USEC_PER_MSEC))
  end.

Section Config.
(** Whether an allocation of this size succeeds. *)
Variable malloc : nat → bool.

Definition add_server (kms : keysd_kmip) (server : list Z) : result keysd_kmip :=
  if existsb (str_eqb server) (km_servers kms) then Ok kms
  else if negb (malloc ((length (km_servers kms) + 1) * 8)) then Err ENOMEM
  else if negb (malloc (length server + 1)) then Err ENOMEM
  else Ok (set_servers (km_servers kms ++ [server]) kms).

Definition set_str (set : list Z → keysd_kmip → keysd_kmip) (val : list Z) (kms : keysd_kmip) : result keysd_kmip :=
  if negb (malloc (length val + 1)) then Err ENOMEM else Ok (set val kms).

(** The value of a known key, or [Err EINVAL]. *)
Definition kmip_value (kms : keysd_kmip) (key val : list Z) : option (result keysd_kmip) :=
  if str_eqb key (lit "server") then
    Some (if nonempty val && negb (has_blank val) then add_server kms val else Err EINVAL)
  else if str_eqb key (lit "port") then
    Some (match parse_port val with Ok _ => set_str set_port val kms | Err e => Err e end)
  else if str_eqb key (lit "ca") then
    Some (if char_at val 0 =? 47 then set_str set_ca val kms else Err EINVAL)
  else if str_eqb key (lit "client-cert") then
    Some (if char_at val 0 =? 47 then set_str set_client_cert val kms else Err EINVAL)
  else if str_eqb key (lit "client-key") then
    Some (if name_valid val then set_str set_client_key val kms else Err EINVAL)
  else if str_eqb key (lit "timeout") then
    Some (match parse_timeout val with Ok ms => Ok (set_timeout ms kms) | Err e => Err e end)
  else None.

(** [apply_kmip_key]: the only error is [ENOMEM]; a bad value changes nothing. *)
Definition apply_kmip_key (kms : keysd_kmip) (key val : list Z) : result keysd_kmip :=
  match kmip_value kms key val with
  | None => Ok kms
  | Some (Ok kms) => Ok kms
  | Some (Err e) => if bool_decide (e = ENOMEM) then Err ENOMEM else Ok kms
  end.

Definition config_find_kmip (cfg : keysd_config) (name : list Z) : option keysd_kmip :=
  List.find (λ k, str_eqb (km_name k) name) (kc_kmip cfg).

(** [sizeof(struct keysd_kmip)] *)
Definition sizeof_kmip : nat := 64.

(** [add_kmip]: [Ok None] when the section is ignored, else the
    configuration with the new entry at its end. *)
Definition add_kmip (cfg : keysd_config) (name : list Z) : result (option keysd_config) :=
  if negb (name_valid name) then Ok None
  else if bool_decide (is_Some (config_find_kmip cfg name)) then Ok None
  else if negb (malloc ((length (kc_kmip cfg) + 1) * sizeof_kmip)) then Err ENOMEM
  else if negb (malloc (length name + 1) && malloc (length KEYSD_KMIP_PORT + 1)) then Err ENOMEM
  else Ok (Some (KeysdConfig (kc_debug_level cfg)
                   (kc_kmip cfg ++ [Kmip name [] KEYSD_KMIP_PORT None None None KEYSD_KMIP_TIMEOUT_MS]))).

(** What [check_kmip] keeps. *)
Definition complete (kms : keysd_kmip) : bool :=
  negb (length (km_servers kms) =? 0)%nat &&
  bool_decide (is_Some (km_client_cert kms) ↔ is_Some (km_client_key kms)).
Definition check_kmip (cfg : keysd_config) : keysd_config :=
  KeysdConfig (kc_debug_level cfg) (List.filter complete (kc_kmip cfg)).

(** ** The file *)

(** [struct config_parse_ctx]; the current KMS by its place. *)
Record config_parse_ctx := ParseCtx {
  pc_cfg : keysd_config;
  pc_kms : option nat;
}.

Definition config_event (event : shr_ini_event) (line : Z) (pc : config_parse_ctx) :
    result () * config_parse_ctx :=
  let cfg := pc_cfg pc in
  match event with
  | SHR_INI_SECTION key =>
      match shr_startswith key KMIP_SECTION with
      | Some name =>
          match add_kmip cfg name with
          | Err e => (Err e, ParseCtx cfg None)
          | Ok None => (Ok tt, ParseCtx cfg None)
          | Ok (Some cfg') => (Ok tt, ParseCtx cfg' (Some (length (kc_kmip cfg))))
          end
      | None => (Ok tt, ParseCtx cfg None)
      end
  | SHR_INI_KV section key value =>
      match (i ← pc_kms pc; k ← kc_kmip cfg !! i; Some (i, k)) with
      | Some (i, kms) =>
          match apply_kmip_key kms key value with
          | Err e => (Err e, pc)
          | Ok kms => (Ok tt, ParseCtx (KeysdConfig (kc_debug_level cfg) (<[i := kms]> (kc_kmip cfg))) (pc_kms pc))
          end
      | None =>
          if bool_decide (section = Some (lit "Global"))
          then (Ok tt, ParseCtx (apply_global_key cfg key value) (pc_kms pc))
          else (Ok tt, pc)
      end
  | SHR_INI_JUNK _ _ => (Ok tt, pc)
  end.

Definition sizeof_config : nat := 24.

(** [config_load]; [None] is NULL. *)
Definition config_load (node : ini_node) : option keysd_config :=
  if negb (malloc sizeof_config) then None
  else
    let '(ret, pc) := shr_ini_parse_file node config_event (ParseCtx config_set_defaults None) in
    match ret with
    | Err ENOMEM => None
    | _ => Some (check_kmip (pc_cfg pc))
    end.
End Config.

(** ** Invariant *)

(** The number a text of decimal digits stands for. *)
Definition decimal (ds : list Z) : Z := foldl (λ v c, 10 * v + (c - 48)) 0 ds.

(** A text that stands for a port to [strtoul]: blanks, a sign or none, and
    digits.  With a minus sign the number is taken from [2^64]. *)
Definition port_text (s : list Z) : Prop :=
  ∃ blanks sign ds, s = blanks ++ sign ++ ds ∧ Forall (λ c, c = 32 ∨ (9 ≤ c ≤ 13)) blanks ∧
    ds ≠ [] ∧ Forall (λ c, 48 ≤ c ≤ 57) ds ∧
    (((sign = [] ∨ sign = [c_plus]) ∧ (1 ≤ decimal ds ≤ 65535)) ∨
     (sign = [c_minus] ∧ (1 ≤ 2 ^ 64 - decimal ds ≤ 65535))).

(** The name of a KMS or of a file: not empty, no "." in front, no "/", no
    blank and no tab. *)
Definition good_name (s : list Z) : Prop :=
  s ≠ [] ∧ (∀ t, s ≠ 46 :: t) ∧ (47 ∉ s) ∧ (32 ∉ s) ∧ (9 ∉ s).

Definition absolute (s : list Z) : Prop := ∃ t, s = 47 :: t.

Record kms_ok (k : keysd_kmip) : Prop := {
  ko_name : good_name (km_name k);
  ko_servers : NoDup (km_servers k) ∧ Forall (λ s, s ≠ [] ∧ (32 ∉ s) ∧ (9 ∉ s)) (km_servers k);
  ko_port : port_text (km_port k);
  ko_ca : ∀ v, km_ca k = Some v → absolute v;
  ko_cert : ∀ v, km_client_cert k = Some v → absolute v;
  ko_key : ∀ v, km_client_key k = Some v → good_name v;
  ko_timeout : 1 ≤ km_timeout_ms k ≤ 600000 }.

Record config_ok (cfg : keysd_config) : Prop := {
  co_level : 0 ≤ kc_debug_level cfg ≤ 3;
  co_names : NoDup (km_name <$> kc_kmip cfg);
  co_kmip : Forall kms_ok (kc_kmip cfg) }.

Lemma digits_value_decimal ds : ∀ acc, Forall (λ c, 48 ≤ c ≤ 57) ds →
  foldl (λ a c, a * 10 + digit_val c) acc ds = foldl (λ v c, 10 * v + (c - 48)) acc ds.
Proof.
  induction ds as [|c ds IH]; intros acc Hd; [done|]. inversion Hd; subst. cbn [foldl].
  rewrite digit_val_of_digit by (apply isdigit_range; lia).
  rewrite IH by done. f_equal. lia.
Qed.

Lemma decimal_nonneg ds : Forall (λ c, 48 ≤ c ≤ 57) ds → 0 ≤ decimal ds.
Proof. intros Hd. unfold decimal. rewrite <- digits_value_decimal by done. apply value_nonneg; lia. Qed.

Lemma digits_forallb ds : forallb isdigit ds = true ↔ Forall (λ c, 48 ≤ c ≤ 57) ds.
Proof.
  induction ds as [|c ds IH]; [done|].
  cbn [forallb]. by rewrite andb_true_iff, IH, list.Forall_cons, isdigit_range.
Qed.

Lemma blanks_forallb s : forallb isspace s = true ↔ Forall (λ c, c = 32 ∨ (9 ≤ c ≤ 13)) s.
Proof.
  induction s as [|c s IH]; [done|]. cbn [forallb]. rewrite andb_true_iff, IH, list.Forall_cons.
  unfold isspace. by rewrite orb_true_iff, andb_true_iff, Z.eqb_eq, !Z.leb_le.
Qed.

Lemma parse_port_text val : parse_port val = Ok tt → port_text val.
Proof.
  unfold parse_port, strtoull. destruct (scan_int 10 val) as [[[neg m] rest]|] eqn:E; [|done].
  destruct (Z.ltb_spec UINT64_MAX m) as [|Hm]; [done|]. cbn [st_erange st_conv st_end st_val negb orb].
  destruct rest; [|done]. cbn [nonempty orb].
  apply scan_int_10 in E as (bl & sg & ds & -> & Hb & Hne & Hd & _ & Hv & Hs). rewrite app_nil_r.
  apply blanks_forallb in Hb. apply digits_forallb in Hd. unfold Numeral.value in Hv.
  rewrite digits_value_decimal in Hv by done. fold (decimal ds) in Hv. subst m. pose proof (decimal_nonneg ds Hd).
  unfold UINT64_MAX in Hm. set (v := if neg then _ else _).
  destruct (Z.eqb_spec v 0); [done|]. destruct (Z.ltb_spec 65535 v); [done|]. intros _.
  exists bl, sg, ds. split_and!; [done..|]. subst v. destruct neg; [right|left; split; [done|lia]].
  split; [done|]. unfold u64 in *. destruct (decide (decimal ds = 0)) as [E|]; [by rewrite E in *|].
  assert (Hmod : (- decimal ds) mod 2 ^ 64 = 2 ^ 64 - decimal ds).
  { symmetry. apply (Z.mod_unique _ _ (-1)); [left|]; lia. }
  rewrite Hmod in *. lia.
Qed.

Lemma existsb_false_elem (c : Z) s : existsb (Z.eqb c) s = false → c ∉ s.
Proof.
  intros He Hin. apply not_true_iff_false in He. apply He, existsb_exists. exists c.
  split; [by apply list_elem_of_In|apply Z.eqb_refl].
Qed.

Lemma has_blank_false s : has_blank s = false → (32 ∉ s) ∧ (9 ∉ s).
Proof.
  unfold has_blank. intros Hb. split; intros Hin; apply not_true_iff_false in Hb; apply Hb, existsb_exists;
    eexists; (split; [by apply list_elem_of_In|done]).
Qed.

Lemma name_valid_good s : name_valid s = true → good_name s.
Proof.
  unfold name_valid. rewrite !andb_true_iff, !negb_true_iff. intros [[[Hn Hd] Hs] Hb].
  apply has_blank_false in Hb as [? ?]. apply existsb_false_elem in Hs. split_and!; try done.
  - by intros ->.
  - by intros t ->.
Qed.

Lemma char_at_absolute s : char_at s 0 = 47 → absolute s.
Proof. destruct s as [|c t]; [done|]. intros Hc. exists t. by f_equal. Qed.

Lemma level_range name l : dmn_parse_log_level name = Ok l → 0 ≤ l ≤ 3.
Proof.
  unfold dmn_parse_log_level, level_names. cbn [level_from].
  repeat case_match; intros; simplify_eq; lia.
Qed.

Lemma timeout_range val ms : parse_timeout val = Ok ms → 1 ≤ ms ≤ 600000.
Proof.
  unfold parse_timeout. destruct (default _ _) as [usec|e]; [|done].
  destruct (Z.ltb_spec usec SHR_USEC_PER_MSEC) as [|Hlo]; [done|]. cbn [orb].
  destruct (Z.ltb_spec KMIP_TIMEOUT_MAX_MS (usec / SHR_USEC_PER_MSEC)) as [|Hhi]; [done|]. intros [= <-].
  unfold SHR_USEC_PER_MSEC, KMIP_TIMEOUT_MAX_MS in *.
  assert (1 ≤ usec / 1000) by (apply Z.div_le_lower_bound; lia).
  unfold u32. rewrite Z.mod_small by lia. lia.
Qed.

Lemma existsb_str s l : existsb (str_eqb s) l = false → s ∉ l.
Proof.
  intros He Hin. apply not_true_iff_false in He. apply He, existsb_exists. exists s.
  split; [by apply list_elem_of_In|]. unfold str_eqb. by rewrite bool_decide_true.
Qed.

Lemma filter_NoDup_fmap {A B} (f : A → B) (p : A → bool) l : NoDup (f <$> l) → NoDup (f <$> List.filter p l).
Proof.
  induction l as [|x l IH]; cbn [fmap list_fmap List.filter]; [done|].
  intros [Hx Hl]%list.NoDup_cons. destruct (p x); [|by apply IH]. apply list.NoDup_cons. split; [|by apply IH].
  intros (y & Hy & Hin)%list_elem_of_fmap. apply Hx. apply list_elem_of_fmap. exists y. split; [done|].
  apply list_elem_of_In, filter_In in Hin as [Hin _]. by apply list_elem_of_In.
Qed.

Section Invariant.
Variable malloc : nat → bool.

Lemma add_server_ok k s k' :
  kms_ok k → s ≠ [] → (32 ∉ s) ∧ (9 ∉ s) → add_server malloc k s = Ok k' →
  kms_ok k' ∧ km_name k' = km_name k.
Proof.
  intros Hk Hs Hb. unfold add_server. destruct (existsb (str_eqb s) (km_servers k)) eqn:E; [by intros [= <-]|].
  repeat (case_match; [done|]). intros [= <-]. split; [|done]. destruct Hk as [? [Hnd Hall] ? ? ? ? ?].
  split; try done. cbn. split.
  - apply list.NoDup_app. split_and!; [done| |apply NoDup_singleton].
    intros x Hx ->%list_elem_of_singleton. by apply existsb_str in E.
  - apply list.Forall_app. split; [done|]. by apply list.Forall_singleton.
Qed.

Lemma kmip_value_ok k key val k' :
  kms_ok k → kmip_value malloc k key val = Some (Ok k') → kms_ok k' ∧ km_name k' = km_name k.
Proof.
  intros Hk. unfold kmip_value, set_str.
  destruct (str_eqb key (lit "server")).
  { destruct (nonempty val) eqn:En, (has_blank val) eqn:Eb; cbn [negb andb]; try done.
    intros [= H]. apply add_server_ok in H; [done..| |by apply has_blank_false]. by intros ->. }
  destruct (str_eqb key (lit "port")).
  { destruct (parse_port val) as [[]|] eqn:Ep; [|done]. case_match; [done|]. intros [= <-].
    split; [|done]. apply parse_port_text in Ep. by destruct Hk. }
  destruct (str_eqb key (lit "ca")).
  { destruct (Z.eqb_spec (char_at val 0) 47); [|done]. case_match; [done|]. intros [= <-].
    split; [|done]. destruct Hk. split; try done. cbn. intros v [= <-]. by apply char_at_absolute. }
  destruct (str_eqb key (lit "client-cert")).
  { destruct (Z.eqb_spec (char_at val 0) 47); [|done]. case_match; [done|]. intros [= <-].
    split; [|done]. destruct Hk. split; try done. cbn. intros v [= <-]. by apply char_at_absolute. }
  destruct (str_eqb key (lit "client-key")).
  { destruct (name_valid val) eqn:En; [|done]. case_match; [done|]. intros [= <-].
    split; [|done]. destruct Hk. split; try done. cbn. intros v [= <-]. by apply name_valid_good. }
  destruct (str_eqb key (lit "timeout")); [|done].
  destruct (parse_timeout val) as [ms|] eqn:Et; [|done]. intros [= <-].
  split; [|done]. apply timeout_range in Et. by destruct Hk.
Qed.

Lemma apply_key_ok k key val k' :
  kms_ok k → apply_kmip_key malloc k key val = Ok k' → kms_ok k' ∧ km_name k' = km_name k.
Proof.
  intros Hk. unfold apply_kmip_key. destruct (kmip_value malloc k key val) as [[k1|e]|] eqn:E.
  - intros [= <-]. by eapply kmip_value_ok.
  - case_bool_decide; [done|]. by intros [= <-].
  - by intros [= <-].
Qed.

Lemma add_kmip_ok cfg name cfg' :
  config_ok cfg → add_kmip malloc cfg name = Ok (Some cfg') → config_ok cfg'.
Proof.
  intros [Hl Hn Hk]. unfold add_kmip. destruct (name_valid name) eqn:En; [|done]. cbn [negb].
  case_bool_decide as Hf; [done|]. repeat (case_match; [done|]). intros [= <-]. split; [done|..]; cbn [kc_kmip].
  - rewrite fmap_app. apply list.NoDup_app. split_and!; [done| |apply NoDup_singleton].
    intros x Hx ->%list_elem_of_singleton. apply Hf. apply list_elem_of_fmap in Hx as (k & Hkn & Hin).
    unfold config_find_kmip. destruct (List.find _ _) eqn:Ef; [done|].
    apply list_elem_of_In in Hin. pose proof (find_none _ _ Ef k Hin) as Hnone.
    cbn in Hkn, Hnone. unfold str_eqb in Hnone. by rewrite bool_decide_true in Hnone.
  - apply list.Forall_app. split; [done|]. apply list.Forall_singleton. split; cbn; try done.
    + by apply name_valid_good.
    + split; [apply NoDup_nil_2|constructor].
    + by apply parse_port_text.
Qed.

Lemma config_event_ok ev line pc :
  config_ok (pc_cfg pc) → config_ok (pc_cfg (config_event malloc ev line pc).2).
Proof.
  intros Hpc. destruct ev as [key|section key value|section text]; cbn [config_event]; [|..|done].
  - destruct (shr_startswith key KMIP_SECTION) as [name|]; [|done].
    destruct (add_kmip malloc (pc_cfg pc) name) as [[cfg'|]|e] eqn:E; [|done..]. by eapply add_kmip_ok.
  - destruct (_ ≫= _) as [[i k]|] eqn:E.
    + destruct (pc_kms pc) as [j|] eqn:Ej; [|done]. cbn in E.
      destruct (kc_kmip (pc_cfg pc) !! j) as [k0|] eqn:Hk0; [|done]. cbn in E. injection E as <- <-.
      destruct (apply_kmip_key malloc k0 key value) as [k'|e] eqn:Ea; [|done]. destruct Hpc as [Hl Hn Hk].
      destruct (apply_key_ok k0 key value k') as [Hk' Hname]; [by eapply list.Forall_lookup_1|done|].
      split; [done|..]; cbn.
      * rewrite list_fmap_insert, Hname, list_insert_id; [done|]. by rewrite list_lookup_fmap, Hk0.
      * by apply list.Forall_insert.
    + case_bool_decide; [|done]. destruct Hpc as [Hl Hn Hk]. unfold apply_global_key.
      destruct (str_eqb key (lit "debug-level")); [|done].
      destruct (dmn_parse_log_level value) as [l|] eqn:El; [|done]. apply level_range in El. by split.
Qed.

Lemma config_lines_ok ps section line pc :
  config_ok (pc_cfg pc) → config_ok (pc_cfg (parse_lines (config_event malloc) ps section line pc).2).
Proof.
  revert section line pc. induction ps as [|p ps IH]; intros section line pc Hpc; cbn [parse_lines]; [done|].
  unfold ini_line. destruct (ini_classify (shr_trim p) section) as [[ev|] sec]; [|by apply IH].
  pose proof (config_event_ok ev (u32 (line + 1)) pc Hpc) as He.
  destruct (config_event malloc ev (u32 (line + 1)) pc) as [[[]|e] pc1]; [|done]. by apply IH.
Qed.

Lemma config_defaults_ok : config_ok config_set_defaults.
Proof. split; cbn; [unfold DMN_DEFAULT_LOGLEVEL; lia|apply NoDup_nil_2|constructor]. Qed.

(** C19: Whatever the file holds, and whichever allocation fails, the
    configuration that is loaded is well formed: the names of the KMSes are
    distinct, and none is empty, starts with a dot or has a slash, blank or tab;
    each KMS has at least one server, none of them twice, empty or with a
    blank; its CA and client certificate are absolute paths; it has a client
    certificate and a client key or neither, and its timeout is between 1 and
    600000 milliseconds.  Its port is the text of a number from 1 to 65535, or,
    as the text is not checked for a sign, one with a minus sign and a number
    that is one of these less than 2^64. *)
Theorem keysd_config_wf node cfg :
  config_load malloc node = Some cfg →
  config_ok cfg ∧
  Forall (λ k, km_servers k ≠ [] ∧ (is_Some (km_client_cert k) ↔ is_Some (km_client_key k))) (kc_kmip cfg).
Proof.
  unfold config_load. case_match; [done|]. unfold shr_ini_parse_file. intros Hl.
  assert (Hok : ∃ cfg0, config_ok cfg0 ∧ cfg = check_kmip cfg0).
  { destruct (shr_ini_read_file node) as [text|e].
    - pose proof (config_lines_ok (fields c_nl text) None 0 (ParseCtx config_set_defaults None) config_defaults_ok) as Hp.
      destruct (parse_lines _ _ _ _ _) as [[u|[]] pc]; try done; injection Hl as <-; eauto.
    - exists config_set_defaults. split; [apply config_defaults_ok|]. destruct e; (discriminate Hl || (injection Hl as <-; done)). }
  destruct Hok as (cfg0 & [Hlv Hn Hk] & ->). split; [split; [done|..]|]; cbn [kc_kmip check_kmip].
  - by apply filter_NoDup_fmap.
  - rewrite list.Forall_forall in *. intros k Hin. apply list_elem_of_In, filter_In in Hin as [Hin _].
    apply Hk. by apply list_elem_of_In.
  - apply list.Forall_forall. intros k Hin. apply list_elem_of_In, filter_In in Hin as [_ Hc].
    unfold complete in Hc. apply andb_true_iff in Hc as [Hs Hb%bool_decide_eq_true]. split; [|done].
    intros E. by rewrite E in Hs.
Qed.
End Invariant.

(** ** An example *)

Module KeysdSample.
Definition nl : list Z := [c_nl].
Definition text : list Z :=
  lit "[Global]" ++ nl ++ lit "debug-level = Debug" ++ nl ++
  lit "[kmip:one]" ++ nl ++ lit "server = a" ++ nl ++ lit "server = b" ++ nl ++ lit "server = a" ++ nl ++
  lit "port = 0" ++ nl ++ lit "timeout = 1.5" ++ nl ++
  lit "[kmip:two]" ++ nl ++ lit "server = c" ++ nl ++ lit "client-cert = /c.pem" ++ nl.
Definition node : ini_node := IniReg (Z.of_nat (length text)) (Some text).
Definition cfg : keysd_config :=
  KeysdConfig 3 [Kmip (lit "one") [lit "a"; lit "b"] (lit "5696") None None None 1500].
End KeysdSample.

Lemma keysd_config_wf_witness :
  config_load (λ _, true) KeysdSample.node = Some KeysdSample.cfg ∧ config_ok KeysdSample.cfg.
Proof.
  assert (H : config_load (λ _, true) KeysdSample.node = Some KeysdSample.cfg) by (vm_compute; reflexivity).
  split; [exact H|]. exact (proj1 (keysd_config_wf (λ _, true) KeysdSample.node KeysdSample.cfg H)).
Defined.

(** A missing file gives the defaults. *)
Theorem keysd_config_missing malloc :
  malloc sizeof_config = true → config_load malloc (IniMissing ENOENT) = Some (KeysdConfig 2 []).
Proof. intros Hm. unfold config_load. by rewrite Hm. Qed.

(** The second kind of port is accepted: the minus sign of [strtoul]. *)
Fact keysd_port_negative : parse_port (lit "-18446744073709551615") = Ok tt.
Proof. vm_compute. reflexivity. Qed.
