(* ===== verification/DiscoverdConfig.v ===== *)
(** * The configuration of the discovery daemon: [discoverd/src/config.c]

    The sections "[Global]" and "[Discovery]" set the knobs of the daemon.  A
    line that is not understood is skipped, and the knob keeps its value. *)

From Stdlib Require Import String.
From stdpp Require Import base list numbers.
From S2P Require Import Prelude.
From S2P Require Import CStr.
From S2P Require Import Parse.
From S2P Require Import Ini.
From S2P Require Import Time.
From S2P Require Import KeysdConfig.

Definition DMN_LOG_INFO : Z := 2.
Definition UINT_MAX : Z := 2 ^ 32 - 1.

Record discoverd_config := DiscoverdConfig {
  dc_nbft : bool;
  dc_debug_level : Z;
  dc_fc_kickstart_interval_minutes : Z;
  dc_epcsd_poll_interval_minutes : Z;
  dc_giveup_timeout_usec : Z;
  dc_zeroconf : bool;
}.

Definition config_set_defaults : discoverd_config :=
  DiscoverdConfig true DMN_LOG_INFO 0 15 (72 * SHR_USEC_PER_HOUR) false.

Definition set_nbft (v : bool) (c : discoverd_config) : discoverd_config :=
  DiscoverdConfig v (dc_debug_level c) (dc_fc_kickstart_interval_minutes c) (dc_epcsd_poll_interval_minutes c)
    (dc_giveup_timeout_usec c) (dc_zeroconf c).
Definition set_debug_level (v : Z) (c : discoverd_config) : discoverd_config :=
  DiscoverdConfig (dc_nbft c) v (dc_fc_kickstart_interval_minutes c) (dc_epcsd_poll_interval_minutes c)
    (dc_giveup_timeout_usec c) (dc_zeroconf c).
Definition set_fc_kickstart (v : Z) (c : discoverd_config) : discoverd_config :=
  DiscoverdConfig (dc_nbft c) (dc_debug_level c) v (dc_epcsd_poll_interval_minutes c)
    (dc_giveup_timeout_usec c) (dc_zeroconf c).
Definition set_epcsd_poll (v : Z) (c : discoverd_config) : discoverd_config :=
  DiscoverdConfig (dc_nbft c) (dc_debug_level c) (dc_fc_kickstart_interval_minutes c) v
    (dc_giveup_timeout_usec c) (dc_zeroconf c).
Definition set_giveup (v : Z) (c : discoverd_config) : discoverd_config :=
  DiscoverdConfig (dc_nbft c) (dc_debug_level c) (dc_fc_kickstart_interval_minutes c)
    (dc_epcsd_poll_interval_minutes c) v (dc_zeroconf c).
Definition set_zeroconf (v : bool) (c : discoverd_config) : discoverd_config :=
  DiscoverdConfig (dc_nbft c) (dc_debug_level c) (dc_fc_kickstart_interval_minutes c)
    (dc_epcsd_poll_interval_minutes c) (dc_giveup_timeout_usec c) v.

(** ** Values *)

Definition parse_uint (val : list Z) : result Z :=
  if char_at val 0 =? c_minus then Err EINVAL
  else
    let r := strtoull 10 val in
    if negb (st_conv r) || nonempty (st_end r) || (UINT_MAX <? st_val r) then Err EINVAL else Ok (st_val r).

Definition parse_epcsd_poll_interval (val : list Z) : result Z :=
  match parse_uint val with
  | Err e => Err e
  | Ok v => if v =? 0 then Err EINVAL else Ok v
  end.

(** A value for a field: an error leaves the configuration. *)
Definition field_value {A} (r : result A) (set : A → discoverd_config → discoverd_config)
    (cfg : discoverd_config) : discoverd_config :=
  match r with Ok v => set v cfg | Err _ => cfg end.

(** [None] when the key is not one of the section. *)
Definition apply_global_key (cfg : discoverd_config) (key val : list Z) : option discoverd_config :=
  if str_eqb key (lit "nbft") then Some (field_value (shr_parse_bool val) set_nbft cfg)
  else if str_eqb key (lit "debug-level") then Some (field_value (dmn_parse_log_level val) set_debug_level cfg)
  else None.

(** The fuel of [shr_parse_time] is enough, see [parse_time_bounded]. *)
Definition apply_discovery_key (cfg : discoverd_config) (key val : list Z) : option discoverd_config :=
  if str_eqb key (lit "epcsd-poll-interval-minutes")
  then Some (field_value (parse_epcsd_poll_interval val) set_epcsd_poll cfg)
  else if str_eqb key (lit "fc-kickstart-interval-minutes")
  then Some (field_value (parse_uint val) set_fc_kickstart cfg)
  else if str_eqb key (lit "dc-giveup-timeout")
  then Some (field_value (default (Err EINVAL) (shr_parse_time val SHR_USEC_PER_SEC)) set_giveup cfg)
  else if str_eqb key (lit "zeroconf") then Some (field_value (shr_parse_bool val) set_zeroconf cfg)
  else None.

Definition apply_key (cfg : discoverd_config) (global : bool) (key val : list Z) : discoverd_config :=
  default cfg (if global then apply_global_key cfg key val else apply_discovery_key cfg key val).

(** ** The file *)

Definition config_event (event : shr_ini_event) (line : Z) (cfg : discoverd_config) :
    result () * discoverd_config :=
  match event with
  | SHR_INI_KV (Some section) key value =>
      if str_eqb section (lit "Global") || str_eqb section (lit "Discovery")
      then (Ok tt, apply_key cfg (str_eqb section (lit "Global")) key value)
      else (Ok tt, cfg)
  | _ => (Ok tt, cfg)
  end.

(** [config_load]; [None] is NULL. *)
Definition config_load (calloc : bool) (node : ini_node) : option discoverd_config :=
  if negb calloc then None else Some (shr_ini_parse_file node config_event config_set_defaults).2.

(** ** What every file gives *)

Record config_ok (c : discoverd_config) : Prop := {
  dk_level : 0 ≤ dc_debug_level c ≤ 3;
  dk_kickstart : 0 ≤ dc_fc_kickstart_interval_minutes c ≤ UINT_MAX;
  dk_poll : 1 ≤ dc_epcsd_poll_interval_minutes c ≤ UINT_MAX;
  dk_giveup : 0 ≤ dc_giveup_timeout_usec c ≤ SHR_USEC_INFINITY }.

Lemma scan_ten_nonneg s neg m rest : scan_int 10 s = Some (neg, m, rest) → 0 ≤ m.
Proof.
  unfold scan_int, detect_base. cbn [Z.eqb Pos.eqb andb]. destruct (if _ : bool then _ else _) as [n t].
  destruct (_ <? 10); [|done]. destruct (scan_digits 10 0 t) as [v r] eqn:E. intros [= _ <- _].
  by eapply scan_digits_nonneg in E.
Qed.

Lemma parse_uint_range val v : parse_uint val = Ok v → 0 ≤ v ≤ UINT_MAX.
Proof.
  unfold parse_uint. destruct (char_at val 0 =? c_minus); [done|]. cbv zeta.
  destruct (Z.ltb_spec UINT_MAX (st_val (strtoull 10 val))); [by rewrite orb_true_r|].
  case_match; [done|]. intros [= <-]. split; [|done]. unfold strtoull.
  destruct (scan_int 10 val) as [[[neg m] rest]|] eqn:E; [|done]. apply scan_ten_nonneg in E.
  destruct (UINT64_MAX <? m); [done|]. cbn. destruct neg; [|done]. apply Z.mod_pos_bound. lia.
Qed.

(** A value that is set keeps the configuration well formed. *)
Lemma field_value_ok {A} (r : result A) set c :
  config_ok c → (∀ v, r = Ok v → config_ok (set v c)) → config_ok (field_value r set c).
Proof. intros Hc Hs. unfold field_value. destruct r; [by apply Hs|done]. Qed.

Lemma apply_key_wf c global key val : config_ok c → config_ok (apply_key c global key val).
Proof.
  intros Hc. pose proof Hc as [Hl Hk Hp Hg]. unfold apply_key, apply_global_key, apply_discovery_key.
  destruct global; repeat case_match; cbn [default]; try done; apply field_value_ok; try done; intros v Hv;
    split; cbn; try done.
  - by apply level_range in Hv.
  - unfold parse_epcsd_poll_interval in Hv. destruct (parse_uint val) as [u|] eqn:E; [|done].
    apply parse_uint_range in E. destruct (Z.eqb_spec u 0); [done|]. injection Hv as <-.
    unfold UINT_MAX in *. lia.
  - by apply parse_uint_range in Hv.
  - destruct (parse_time_bounded val SHR_USEC_PER_SEC) as [Hn Hb].
    destruct (shr_parse_time val SHR_USEC_PER_SEC) as [r|]; [|done]. cbn in Hv. subst r.
    destruct (Hb v eq_refl) as [|[-> _]]; [lia|]. split; [done|reflexivity].
Qed.

Lemma discoverd_lines_ok ps section line c :
  config_ok c → config_ok (parse_lines config_event ps section line c).2.
Proof.
  revert section line c. induction ps as [|p ps IH]; intros section line c Hc; cbn [parse_lines]; [done|].
  unfold ini_line. destruct (ini_classify (shr_trim p) section) as [[ev|] sec]; [|by apply IH].
  assert (He : config_ok (config_event ev (u32 (line + 1)) c).2).
  { destruct ev as [|[s|] key value|]; cbn [config_event]; try done. case_match; [by apply apply_key_wf|done]. }
  destruct (config_event ev (u32 (line + 1)) c) as [[[]|e] c1]; [|done]. by apply IH.
Qed.

(** Whatever the file holds, the daemon waits between two checks of a parked
    controller, and every knob is in the range of its type. *)
Theorem discoverd_config_wf node cfg : config_load true node = Some cfg → config_ok cfg.
Proof.
  cbn [config_load negb]. intros [= <-]. unfold shr_ini_parse_file.
  assert (Hd : config_ok config_set_defaults) by (by split).
  destruct (shr_ini_read_file node) as [text|e]; [|done]. unfold shr_ini_parse_buf. by apply discoverd_lines_ok.
Qed.

(** The keys of "[Discovery]" are not known in "[Global]". *)
Fact discovery_key_in_global cfg val :
  apply_key cfg true (lit "zeroconf") val = cfg ∧ apply_key cfg true (lit "dc-giveup-timeout") val = cfg.
Proof. done. Qed.

Fact discoverd_config_sample :
  config_load true (let text := lit "[Discovery]" ++ [c_nl] ++ lit "dc-giveup-timeout = 2h 30min" ++ [c_nl] ++
                      lit "epcsd-poll-interval-minutes = 0" ++ [c_nl] ++ lit "zeroconf = yes" in
                    IniReg (Z.of_nat (length text)) (Some text)) =
  Some (DiscoverdConfig true 2 0 15 9000000000 true).
Proof. vm_compute. reflexivity. Qed.
