(* ===== verification/Dlp.v ===== *)
(** * Log pages in the discovery daemon: [discoverd/src/dlp.c]

    The entries of a discovery log page become transport IDs, which the daemon
    is told of one by one. *)

From Stdlib Require Import String.
From stdpp Require Import base list numbers.
From S2P Require Import Prelude.
From S2P Require Import CStr.
From S2P Require Import Tid.
From S2P Require Import DTid.
From S2P Require Import Discovery.
From S2P Require Import Ctrl.
From S2P Require Import Walk.

(** The callbacks of [dlp_process_log]. *)
Inductive dlp_call :=
| IocCallback (t : libnvmf_tid)
| DcCallback (t : libnvmf_tid) (epcsd : bool)
| SelfCallback (epcsd : bool).

Section Dlp.
Context `{Alloc} `{Inet}.

(** The field of the DC, if there is one. *)
Definition of_dc (dc_tid : option libnvmf_tid) (f : field) : option (list Z) := dc_tid ≫= λ t, Tid.get t f.

Definition dlpe_fields (e : nvmf_disc_log_entry) (dc_tid : option libnvmf_tid) (traddr : list Z) (f : field) :
    option (list Z) :=
  match f with
  | Transport => Some (libnvmf_trtype_str (e_trtype e))
  | Traddr => Some traddr
  | Trsvcid => if nonempty (e_trsvcid e) then Some (e_trsvcid e) else None
  | Nqn => Some (e_subnqn e)
  | HostTraddr | HostIface | Hostnqn | Hostid => of_dc dc_tid f
  end.

Definition tid_from_dlpe (e : nvmf_disc_log_entry) (dc_tid : option libnvmf_tid) : option libnvmf_tid :=
  traddr ← tid_scope_link_local (e_traddr e) (dc_tid ≫= tid_link_local_scope);
  tid_new (dlpe_fields e dc_tid traddr) (e_subtype e =? NVME_NQN_DISC).

(** One round of the loop: the callback, if any. *)
Definition dlpe_call (dc_tid : option libnvmf_tid) (e : nvmf_disc_log_entry) : option dlp_call :=
  t ← tid_from_dlpe e dc_tid;
  let skip :=
    match dc_tid with
    | None => false
    | Some dc =>
        if e_subtype e =? NVME_NQN_CURR then negb (tid_target_same dc t)
        else negb (shr_streq0 (transport dc) (transport t))
    end in
  let epcsd := has_bit (e_eflags e) NVMF_DISC_EFLAGS_EPCSD in
  if skip then None
  else if e_subtype e =? NVME_NQN_NVME then Some (IocCallback t)
  else if e_subtype e =? NVME_NQN_DISC then Some (DcCallback t epcsd)
  else if e_subtype e =? NVME_NQN_CURR then Some (SelfCallback epcsd)
  else None.

(** The records of a log page that was made safe. *)
Definition log_entries (log : list Z) : list nvmf_disc_log_entry :=
  map (λ i, decode_entry (entry log i)) (seq 0 (Z.to_nat (numrec log))).

(** [dlp_process_log]: the callbacks, in their order. *)
Definition dlp_process_log (log : list nvmf_disc_log_entry) (dc_tid : option libnvmf_tid) : list dlp_call :=
  omap (dlpe_call dc_tid) log.

(** The TID a callback is called with. *)
Definition call_tid (c : dlp_call) : option libnvmf_tid :=
  match c with IocCallback t | DcCallback t _ => Some t | SelfCallback _ => None end.
End Dlp.

(** ** What the entries inherit *)

Lemma canon_field_other `{Alloc} `{Inet} u u' f g : canon_field u g = Ok u' → f ≠ g → Tid.get u' f = Tid.get u f.
Proof.
  unfold canon_field. destruct (Tid.get u g) as [a|]; [|by intros [= <-]].
  destruct (canon_ip a) as [c|]; [|done]. intros [= <-] Hne. by destruct f, g.
Qed.

Lemma sanitize_fields `{Alloc} `{Inet} t t' f :
  tid_sanitize_addr t = Ok t' → f ≠ Traddr → f ≠ HostTraddr → Tid.get t' f = Tid.get t f.
Proof.
  intros Hs Hf Hf'. unfold tid_sanitize_addr in Hs. destruct (transport t) as [tr|]; [|by injection Hs as <-].
  destruct (str_eqb tr (lit "fc")).
  { destruct (match _ with Some a => _ | None => _ end) in Hs; [done|].
    destruct (match _ with Some a => _ | None => _ end) in Hs; [done|]. injection Hs as <-. by destruct f. }
  destruct (_ && _) in Hs; [by injection Hs as <-|]. destruct (canon_field t Traddr) as [u|] eqn:E; [|done].
  cbn in Hs. by rewrite (canon_field_other u t' f HostTraddr), (canon_field_other t u f Traddr).
Qed.

(** The port of a new TID. *)
Definition new_trsvcid (src : field → option (list Z)) (is_dc : bool) : option (list Z) :=
  match src Trsvcid with
  | Some (_ :: _) => src Trsvcid
  | _ => libnvmf_get_default_trsvcid (src Transport) is_dc
  end.

Lemma tid_new_field `{AllocOk} `{Inet} src is_dc t f :
  tid_new src is_dc = Some t → f ≠ Traddr → f ≠ HostTraddr →
  Tid.get t f = if decide (f = Trsvcid) then new_trsvcid src is_dc else src f.
Proof.
  unfold tid_new, libnvmf_tid_from_fields. rewrite tid_new_all. cbn [negb]. cbv zeta.
  fold (new_trsvcid src is_dc). set (src' := λ g, if decide (g = Trsvcid) then _ else src g).
  destruct (copy_fields src') as [u|] eqn:Ec; [|done].
  destruct (tid_sanitize_addr u) as [t'|] eqn:Es; [|done]. intros [= ->] Hf Hf'.
  rewrite (sanitize_fields u t f Es Hf Hf'). change (Tid.get u f = src' f).
  unfold copy_fields in Ec. cbv zeta in Ec.
  assert (Hx : ∀ s, shr_xstrdup s = s) by (intros [s|]; [apply strdup_id|done]).
  rewrite !Hx in Ec. destruct (_ || _); [done|]. injection Ec as <-. by destruct f.
Qed.

(** Every connection a log page names is of the kind of the connection the
    page was read through, and from the same host: the transport, the
    interface, the host NQN and the host ID of the discovery controller. *)
Theorem dlp_inherits `{AllocOk} `{Inet} log dc c t :
  c ∈ dlp_process_log log (Some dc) → call_tid c = Some t →
  ∃ e, e ∈ log ∧ subsysnqn t = Some (e_subnqn e) ∧ transport t = transport dc ∧
    host_iface t = host_iface dc ∧ hostnqn t = hostnqn dc ∧ hostid t = hostid dc.
Proof.
  unfold dlp_process_log. intros (e & He & Hc)%list_elem_of_omap Ht. exists e. split; [done|].
  unfold dlpe_call in Hc. destruct (tid_from_dlpe e (Some dc)) as [u|] eqn:Eu; [|done]. cbn in Hc.
  unfold tid_from_dlpe in Eu. destruct (tid_scope_link_local _ _) as [a|]; [|done]. cbn in Eu.
  pose proof (tid_new_field _ _ u Nqn Eu) as Hn. pose proof (tid_new_field _ _ u HostIface Eu) as Hi.
  pose proof (tid_new_field _ _ u Hostnqn Eu) as Hq. pose proof (tid_new_field _ _ u Hostid Eu) as Hh.
  destruct (e_subtype e =? NVME_NQN_CURR) eqn:Es.
  - assert (e_subtype e = 3) as E3 by (apply Z.eqb_eq in Es; exact Es). rewrite E3 in Hc.
    cbn in Hc. destruct (negb _); [done|]. by injection Hc as <-.
  - destruct (shr_streq0 (transport dc) (transport u)) eqn:Et; [|done]. apply shr_streq0_spec in Et.
    assert (u = t) as ->.
    { cbn in Hc. destruct (_ =? NVME_NQN_NVME); [by injection Hc as <-; injection Ht as ->|].
      destruct (_ =? NVME_NQN_DISC); [by injection Hc as <-; injection Ht as ->|done]. }
    split_and!; [by apply Hn|done|by apply Hi|by apply Hq|by apply Hh].
Qed.

(** An entry of a TCP controller for itself that names no port is given the
    port of I/O connections, so a controller at the port of discovery does not
    find its entry. *)
Fact dlp_self_without_port `{AllocOk} `{Inet} dc e :
  trsvcid dc = Some (lit "8009") → e_subtype e = NVME_NQN_CURR → e_trtype e = NVMF_TRTYPE_TCP →
  e_trsvcid e = [] → dlpe_call (Some dc) e = None.
Proof.
  intros Hdc Hs Hty Hp. unfold dlpe_call. destruct (tid_from_dlpe e (Some dc)) as [u|] eqn:Eu; [|done]. cbn.
  rewrite Hs. change (NVME_NQN_CURR =? NVME_NQN_CURR) with true. cbn iota.
  unfold tid_from_dlpe in Eu. destruct (tid_scope_link_local _ _) as [a|]; [|done]. cbn in Eu.
  apply (tid_new_field _ _ u Trsvcid) in Eu; [|done..]. rewrite decide_True in Eu by done.
  unfold new_trsvcid, dlpe_fields in Eu. rewrite Hty, Hp, Hs in Eu. cbn in Eu.
  unfold tid_target_same. rewrite Hdc, Eu.
  replace (shr_streq0 (Some (lit "8009")) (Some (lit "4420"))) with false by reflexivity. by rewrite andb_false_r.
Qed.
