(* ===== verification/Daemon.v ===== *)
(** * The discovery daemon: [discoverd/src/main.c]

    The daemon tracks the connections it has asked systemd for.  Everything it
    does is the handling of one event of its loop: a job of systemd ends, a
    device comes or goes, a timer fires, a log page was read, a lookup ended,
    the configuration is loaded again.

    A controller is known by the name of its unit.  Memory suffices for the
    daemon's own records.  What systemd, the kernel, the registry and the state
    files answer is a parameter, a function of what the daemon has done so
    far. *)

From Stdlib Require Import String.
From stdpp Require Import base list numbers.
From S2P Require Import Prelude.
From S2P Require Import CStr.
From S2P Require Import Nqn.
From S2P Require Import Tid.
From S2P Require Import DTid.
From S2P Require Import Inventory.
From S2P Require Import Conf.
From S2P Require Import ConfResolve.
From S2P Require Import Ctrl.
From S2P Require Import Time.
From S2P Require Import DiscoverdConfig.
From S2P Require Import Dlp.

(** ** State *)

Definition RETRY_INITIAL_DELAY_SEC : Z := 1.
Definition RETRY_MAX_DELAY_SEC : Z := 300.

(** [struct active_ctrl].  A timer is the time it fires at; [a_read] says
    that a read of the log page runs. *)
Record active_ctrl := ActiveCtrl {
  a_unit : list Z;
  a_devname : option (list Z);
  a_tid : libnvmf_tid;
  a_is_dc : bool;
  a_attempts : Z;
  a_giveup_at : Z;
  a_retry : option Z;
  a_parent_epcsd : option bool;
  a_force_persistent : bool;
  a_poll : option Z;
  a_desired : bool;
  a_dlp_fetched : bool;
  a_read : bool;
  a_again : bool;
}.

(** [struct saved_ctrl] *)
Record saved_ctrl := SavedCtrl {
  s_source : list Z;
  s_tid : libnvmf_tid;
  s_parent : option libnvmf_tid;
}.

(** What the daemon does to the world: it starts (with the result), restarts
    and stops units, removes state files, clears the owner in the registry,
    has a log page read, and so on. *)
Inductive devent :=
| EvStart (unit_name : list Z) (t : libnvmf_tid) (is_dc is_nbft ok : bool)
| EvRestart (unit_name : list Z) (ok : bool)
| EvStop (unit_name : list Z)
| EvRemoveDevid (unit_name : list Z)
| EvRemoveCtrl (devname : list Z)
| EvClearOwner (devname : list Z)
| EvConnectAll (devname : list Z)
| EvKickstart
| EvReadLog (devname : list Z)
| EvSave (content : list Z).

Record dstate := DState {
  d_ctrls : list active_ctrl;
  d_saved : list saved_ctrl;
  d_inv : inventory libnvmf_tid;
  d_cfg : discoverd_config;
  d_ctx : discoverd_ctx;
  d_fabrics : option libnvmf_config;
  d_release_pending : bool;
  d_check_exclusions : bool;
  d_deferred : list (list Z);
  d_mdns : bool;
  d_events : list devent;
}.

(** The answers of the world. *)
Record denv := DEnv {
  v_excluded : list devent → libnvmf_tid → bool;
  v_owner : list devent → list Z → result (list Z);
  v_unit_exists : list devent → list Z → bool;
  v_devid : list devent → list Z → option (list Z);
  v_state_unit : list devent → list Z → option (list Z);
  v_present : list devent → list Z → bool;
  v_sysfs_state : list devent → list Z → option (list Z);
  v_sysfs_tid : list devent → list Z → option (libnvmf_tid * bool);
  v_sysfs_names : list devent → list (list Z);
  v_ifaddrs : list devent → list ifaddrs;
  v_start : list devent → list Z → bool;
  v_restart : list devent → list Z → bool;
  v_now : list devent → option Z;
  v_timer : list devent → bool;
  v_defer : list devent → bool;
  v_submit : list devent → bool;
  v_kernel_nqn : list devent → bool;
  v_mdns_start : list devent → bool;
  v_conn_params : config_conn → libnvmf_params;
}.

(** *** Setters *)

Definition set_ctrls (l : list active_ctrl) (s : dstate) : dstate :=
  DState l (d_saved s) (d_inv s) (d_cfg s) (d_ctx s) (d_fabrics s) (d_release_pending s) (d_check_exclusions s)
    (d_deferred s) (d_mdns s) (d_events s).
Definition set_saved (l : list saved_ctrl) (s : dstate) : dstate :=
  DState (d_ctrls s) l (d_inv s) (d_cfg s) (d_ctx s) (d_fabrics s) (d_release_pending s) (d_check_exclusions s)
    (d_deferred s) (d_mdns s) (d_events s).
Definition set_inv (i : inventory libnvmf_tid) (s : dstate) : dstate :=
  DState (d_ctrls s) (d_saved s) i (d_cfg s) (d_ctx s) (d_fabrics s) (d_release_pending s) (d_check_exclusions s)
    (d_deferred s) (d_mdns s) (d_events s).
Definition set_release (pending check : bool) (s : dstate) : dstate :=
  DState (d_ctrls s) (d_saved s) (d_inv s) (d_cfg s) (d_ctx s) (d_fabrics s) pending check
    (d_deferred s) (d_mdns s) (d_events s).
Definition set_deferred (l : list (list Z)) (s : dstate) : dstate :=
  DState (d_ctrls s) (d_saved s) (d_inv s) (d_cfg s) (d_ctx s) (d_fabrics s) (d_release_pending s)
    (d_check_exclusions s) l (d_mdns s) (d_events s).
Definition set_config (c : discoverd_config) (x : discoverd_ctx) (f : option libnvmf_config) (s : dstate) : dstate :=
  DState (d_ctrls s) (d_saved s) (d_inv s) c x f (d_release_pending s) (d_check_exclusions s)
    (d_deferred s) (d_mdns s) (d_events s).
Definition set_mdns (b : bool) (s : dstate) : dstate :=
  DState (d_ctrls s) (d_saved s) (d_inv s) (d_cfg s) (d_ctx s) (d_fabrics s) (d_release_pending s)
    (d_check_exclusions s) (d_deferred s) b (d_events s).
Definition did (e : devent) (s : dstate) : dstate :=
  DState (d_ctrls s) (d_saved s) (d_inv s) (d_cfg s) (d_ctx s) (d_fabrics s) (d_release_pending s)
    (d_check_exclusions s) (d_deferred s) (d_mdns s) (e :: d_events s).

Definition a_set_devname (v : option (list Z)) (e : active_ctrl) : active_ctrl :=
  ActiveCtrl (a_unit e) v (a_tid e) (a_is_dc e) (a_attempts e) (a_giveup_at e) (a_retry e) (a_parent_epcsd e)
    (a_force_persistent e) (a_poll e) (a_desired e) (a_dlp_fetched e) (a_read e) (a_again e).
Definition a_set_attempts (v g : Z) (e : active_ctrl) : active_ctrl :=
  ActiveCtrl (a_unit e) (a_devname e) (a_tid e) (a_is_dc e) v g (a_retry e) (a_parent_epcsd e)
    (a_force_persistent e) (a_poll e) (a_desired e) (a_dlp_fetched e) (a_read e) (a_again e).
Definition a_set_retry (v : option Z) (e : active_ctrl) : active_ctrl :=
  ActiveCtrl (a_unit e) (a_devname e) (a_tid e) (a_is_dc e) (a_attempts e) (a_giveup_at e) v (a_parent_epcsd e)
    (a_force_persistent e) (a_poll e) (a_desired e) (a_dlp_fetched e) (a_read e) (a_again e).
Definition a_set_parent_epcsd (v : bool) (e : active_ctrl) : active_ctrl :=
  ActiveCtrl (a_unit e) (a_devname e) (a_tid e) (a_is_dc e) (a_attempts e) (a_giveup_at e) (a_retry e) (Some v)
    (a_force_persistent e) (a_poll e) (a_desired e) (a_dlp_fetched e) (a_read e) (a_again e).
Definition a_set_poll (v : option Z) (e : active_ctrl) : active_ctrl :=
  ActiveCtrl (a_unit e) (a_devname e) (a_tid e) (a_is_dc e) (a_attempts e) (a_giveup_at e) (a_retry e)
    (a_parent_epcsd e) (a_force_persistent e) v (a_desired e) (a_dlp_fetched e) (a_read e) (a_again e).
Definition a_set_desired (v : bool) (e : active_ctrl) : active_ctrl :=
  ActiveCtrl (a_unit e) (a_devname e) (a_tid e) (a_is_dc e) (a_attempts e) (a_giveup_at e) (a_retry e)
    (a_parent_epcsd e) (a_force_persistent e) (a_poll e) v (a_dlp_fetched e) (a_read e) (a_again e).
Definition a_set_fetched (e : active_ctrl) : active_ctrl :=
  ActiveCtrl (a_unit e) (a_devname e) (a_tid e) (a_is_dc e) (a_attempts e) (a_giveup_at e) (a_retry e)
    (a_parent_epcsd e) (a_force_persistent e) (a_poll e) (a_desired e) true (a_read e) (a_again e).
Definition a_set_read (v again : bool) (e : active_ctrl) : active_ctrl :=
  ActiveCtrl (a_unit e) (a_devname e) (a_tid e) (a_is_dc e) (a_attempts e) (a_giveup_at e) (a_retry e)
    (a_parent_epcsd e) (a_force_persistent e) (a_poll e) (a_desired e) (a_dlp_fetched e) v again.

(** ** Tracked controllers *)

Definition ctrl_find_by_unit (u : list Z) (s : dstate) : option active_ctrl :=
  List.find (λ e, str_eqb (a_unit e) u) (d_ctrls s).
Definition ctrl_find_by_devname (devname : list Z) (s : dstate) : option active_ctrl :=
  List.find (λ e, shr_streq0 (a_devname e) (Some devname)) (d_ctrls s).

(** A change of the fields of the controller [u]. *)
Definition alter_ctrl (u : list Z) (f : active_ctrl → active_ctrl) (s : dstate) : dstate :=
  set_ctrls (map (λ e, if str_eqb (a_unit e) u then f e else e) (d_ctrls s)) s.

Section Daemon.
Context `{Alloc} `{Inet} `{Heap}.
Context (E : denv).

Definition schedule_release (check_exclusions : bool) (s : dstate) : dstate :=
  let check := d_check_exclusions s || check_exclusions in
  if d_release_pending s then set_release true check s
  else set_release (v_defer E (d_events s)) check s.

Definition ctrl_add (u : list Z) (t : libnvmf_tid) (is_dc : bool) (params : option libnvmf_params) (s : dstate) :
    dstate :=
  match ctrl_find_by_unit u s, libnvmf_tid_dup (Some t) with
  | None, Some d =>
      let force := shr_streqcase0 (params ≫= λ p, libnvmf_params_get p (lit "persistent")) (Some (lit "force")) in
      let e := ActiveCtrl u None d is_dc 0 0 None None force None (inventory_is_desired (d_inv s) t)
                 false false false in
      schedule_release false (set_ctrls (e :: d_ctrls s) s)
  | _, _ => s
  end.

Definition ctrl_remove (u : list Z) (s : dstate) : dstate :=
  schedule_release false (set_ctrls (List.filter (λ e, negb (str_eqb (a_unit e) u)) (d_ctrls s)) s).

Definition release_unit (u : list Z) (devname : option (list Z)) (s : dstate) : dstate :=
  let s := did (EvRemoveDevid u) s in
  let s := match devname with
           | Some d => if shr_streq0 (v_state_unit E (d_events s) d) (Some u) then did (EvRemoveCtrl d) s else s
           | None => s
           end in
  let s := if v_unit_exists E (d_events s) u then did (EvStop u) s else s in
  match devname with
  | Some d => match v_owner E (d_events s) d with
              | Ok owner => if str_eqb owner (lit "discoverd") then did (EvClearOwner d) s else s
              | Err _ => s
              end
  | None => s
  end.

Definition ctrl_release (e : active_ctrl) (s : dstate) : dstate :=
  let devname := match a_devname e with
                 | Some d => Some d
                 | None => v_devid E (d_events s) (a_unit e)
                 end in
  ctrl_remove (a_unit e) (release_unit (a_unit e) devname s).

(** ** Connections that exist *)

(** [sysfs_read_tid]: the TID, whether it is a DC and whether it is live. *)
Definition sysfs_read_tid (devname : list Z) (h : list devent) : option (libnvmf_tid * bool * bool) :=
  let live := shr_streq0 (v_sysfs_state E h devname) (Some (lit "live")) in
  '(t, is_dc) ← v_sysfs_tid E h devname; Some (t, is_dc, live).

Definition devname_matches_tid (devname : list Z) (t : libnvmf_tid) (s : dstate) : bool :=
  match sysfs_read_tid devname (d_events s) with
  | None => false
  | Some (existing, is_dc, live) => tid_matches_existing t existing is_dc live (v_ifaddrs E (d_events s))
  end.

(** [struct conn_scan] *)
Record conn_scan := ConnScan {
  sc_ifaces : list ifaddrs;
  sc_ctrls : list (list Z * (libnvmf_tid * bool * bool));
}.

Definition conn_scan_load (s : dstate) : conn_scan :=
  ConnScan (v_ifaddrs E (d_events s))
    (omap (λ n, if char_at n 0 =? c_dot then None else (λ x, (n, x)) <$> sysfs_read_tid n (d_events s))
       (v_sysfs_names E (d_events s))).

Definition find_devname_for_tid (scan : conn_scan) (t : libnvmf_tid) : option (list Z) :=
  fst <$> List.find (λ c, let '(existing, is_dc, live) := snd c in
                          tid_matches_existing t existing is_dc live (sc_ifaces scan)) (sc_ctrls scan).

(** [should_connect] *)
Definition should_connect (scan : option conn_scan) (t : libnvmf_tid) (known : option (list Z)) (s : dstate) : bool :=
  if v_excluded E (d_events s) t then false
  else
    let devname := match known with
                   | Some d => Some d
                   | None => find_devname_for_tid (default (conn_scan_load s) scan) t
                   end in
    match devname with
    | None => true
    | Some d =>
        match v_owner E (d_events s) d with
        | Err e => bool_decide (e = ENOENT)
        | Ok owner => str_eqb owner (lit "discoverd") || str_eqb owner (lit "nbft")
        end
    end.

(** ** The saved controllers *)

Definition decide_saved (c : saved_ctrl) (s : dstate) : bool * dstate :=
  match tid_unit_name (s_tid c) with
  | None => (true, s)
  | Some u =>
      if bool_decide (is_Some (ctrl_find_by_unit u s)) || inventory_is_desired (d_inv s) (s_tid c) then (true, s)
      else
        let waits :=
          match s_parent c with
          | Some p =>
              str_eqb (s_source c) (lit "dlp") && inventory_is_desired (d_inv s) p &&
              match (dc_unit ← tid_unit_name p; ctrl_find_by_unit dc_unit s) with
              | Some dc => negb (a_dlp_fetched dc)
              | None => true
              end
          | None => false
          end in
        if waits then (false, s)
        else
          let devname := match v_devid E (d_events s) u with
                         | Some d => if devname_matches_tid d (s_tid c) s then Some d else None
                         | None => None
                         end in
          if negb (bool_decide (is_Some devname)) && negb (v_unit_exists E (d_events s) u) then (true, s)
          else (true, release_unit u devname s)
  end.

(** The loop over the saved controllers: those that are not decided stay. *)
Fixpoint decide_all (l : list saved_ctrl) (s : dstate) : list saved_ctrl * dstate :=
  match l with
  | [] => ([], s)
  | c :: l =>
      let '(decided, s) := decide_saved c s in
      let '(rest, s) := decide_all l s in
      (if decided then rest else c :: rest, s)
  end.

Definition canonical (t : libnvmf_tid) : list Z := default (lit "(null)") (snd (libnvmf_tid_get_canonical t)).

(** A line of the file of desired controllers. *)
Definition saved_line (source : list Z) (t : libnvmf_tid) (parent : option libnvmf_tid) : list Z :=
  source ++ [c_tab] ++ canonical t ++ [c_tab] ++ match parent with Some p => canonical p | None => lit "-" end ++
  [c_nl].

Definition source_text (src : source libnvmf_tid) : list Z * option libnvmf_tid :=
  match src with
  | SrcNbft => (lit "nbft", None)
  | SrcConfig => (lit "config", None)
  | SrcDiscovered => (lit "discovered", None)
  | SrcDlp p => (lit "dlp", Some p)
  end.

Definition desired_text (s : dstate) : list Z :=
  concat (map (λ e, if negb (a_desired e) then []
                    else match inventory_source (d_inv s) (a_tid e) with
                         | None => []
                         | Some src => saved_line (source_text src).1 (a_tid e) (source_text src).2
                         end) (d_ctrls s)) ++
  concat (map (λ c, saved_line (s_source c) (s_tid c) (s_parent c)) (d_saved s)).

Definition save_desired (s : dstate) : dstate := did (EvSave (desired_text s)) s.

(** A line of the file that was saved: the controller it names. *)
Definition saved_of (line : list Z) : option saved_ctrl :=
  match strtok c_tab line with
  | source :: canon :: parent :: _ =>
      match libnvmf_tid_parse (Some canon) with
      | Err _ => None
      | Ok t =>
          if str_eqb parent (lit "-") then Some (SavedCtrl source t None)
          else match libnvmf_tid_parse (Some parent) with
               | Ok p => Some (SavedCtrl source t (Some p))
               | Err _ => None
               end
      end
  | _ => None
  end.

(** [load_saved], line by line. *)
Definition load_saved (content : list Z) (s : dstate) : dstate :=
  foldl (λ s line,
    match saved_of line with
    | None => s
    | Some c =>
        if str_eqb (s_source c) (lit "discovered")
        then set_inv (inventory_add_discovered_dc (d_inv s) (s_tid c)) s
        else set_saved (d_saved s ++ [c]) s
    end) s (fields c_nl content).

(** ** Releasing *)

(** One round of the loop over the tracked controllers. *)
Definition release_one (check_exclusions : bool) (s : dstate) (e : active_ctrl) : dstate :=
  let desired := inventory_is_desired (d_inv s) (a_tid e) in
  if inventory_is_nbft (d_inv s) (a_tid e) then s
  else if check_exclusions && v_excluded E (d_events s) (a_tid e) then ctrl_release e s
  else if a_desired e && negb desired then ctrl_release e s
  else alter_ctrl (a_unit e) (a_set_desired desired) s.

Definition release_undesired (s : dstate) : dstate :=
  let s := set_release false (d_check_exclusions s) s in
  if inventory_config_pending (d_inv s) then s
  else
    let check := d_check_exclusions s in
    let s := set_release (d_release_pending s) false s in
    let s := foldl (release_one check) s (d_ctrls s) in
    let '(saved, s) := decide_all (d_saved s) s in
    save_desired (set_saved saved s).

Definition refresh_desired (s : dstate) : dstate :=
  set_ctrls (map (λ e, a_set_desired (inventory_is_desired (d_inv s) (a_tid e)) e) (d_ctrls s)) s.

(** ** Reading log pages *)

Definition dlp_fetch (u : list Z) (s : dstate) : dstate :=
  match (e ← ctrl_find_by_unit u s; d ← a_devname e; Some (e, d)) with
  | None => s
  | Some (e, d) =>
      if a_read e then alter_ctrl u (a_set_read true true) s
      else if v_submit E (d_events s) then alter_ctrl u (a_set_read true (a_again e)) (did (EvReadLog d) s)
      else s
  end.

(** ** Starting *)

Definition params_for (t : libnvmf_tid) (is_dc : bool) (via_dc : option config_conn) (s : dstate) :
    option libnvmf_params :=
  match inventory_config_conn_for (d_inv s) t with
  | Some conn => Some (v_conn_params E conn)
  | None =>
      cfg ← d_fabrics s;
      match libnvmf_config_get_discovered_params cfg (via_dc ≫= λ c, conn_get c Hostnqn) is_dc (subsysnqn t) with
      | Ok p => Some p
      | Err _ => None
      end
  end.

Definition adopt_ctrl (u : list Z) (t : libnvmf_tid) (is_dc : bool) (params : option libnvmf_params)
    (devname : list Z) (s : dstate) : dstate :=
  let s := ctrl_add u t is_dc params s in
  match ctrl_find_by_unit u s with
  | None => s
  | Some _ =>
      let s := alter_ctrl u (a_set_devname (Some devname)) s in
      if is_dc then
        if v_defer E (d_events s) then set_deferred (d_deferred s ++ [u]) s else dlp_fetch u s
      else s
  end.

(** [unit_start_dc] or [unit_start_ioc] *)
Definition unit_start (u : list Z) (t : libnvmf_tid) (is_dc is_nbft : bool) (s : dstate) : bool * dstate :=
  let ok := v_start E (d_events s) u in (ok, did (EvStart u t is_dc is_nbft ok) s).

Definition start_ctrl (t : libnvmf_tid) (is_dc : bool) (via_dc : option config_conn) (s : dstate) : dstate :=
  match tid_unit_name t with
  | None => s
  | Some u =>
      if bool_decide (is_Some (ctrl_find_by_unit u s)) then s
      else
        let params := params_for t is_dc via_dc s in
        let adopted :=
          if v_unit_exists E (d_events s) u then
            d ← v_devid E (d_events s) u; if devname_matches_tid d t s then Some d else None
          else None in
        match adopted with
        | Some d => adopt_ctrl u t is_dc params d s
        | None =>
            let s :=
              if v_unit_exists E (d_events s) u then
                let devname := v_devid E (d_events s) u in
                let s := did (EvRemoveDevid u) s in
                match devname with
                | Some d =>
                    if shr_streq0 (v_state_unit E (d_events s) d) (Some u) then did (EvRemoveCtrl d) s else s
                | None => s
                end
              else s in
            let '(ok, s) := unit_start u t is_dc (inventory_is_nbft (d_inv s) t) s in
            if ok then ctrl_add u t is_dc params s else s
        end
  end.

(** ** Log pages *)

(** [struct dlp_fetch_ctx] *)
Record dlp_fetch_ctx := FetchCtx {
  f_via_dc : option config_conn;
  f_scan : conn_scan;
  f_iocs : list libnvmf_tid;
  f_referrals : list libnvmf_tid;
  f_hops : option nat;
  f_self : option bool;
}.

Definition f_add_ioc (t : libnvmf_tid) (f : dlp_fetch_ctx) : dlp_fetch_ctx :=
  FetchCtx (f_via_dc f) (f_scan f) (f_iocs f ++ [t]) (f_referrals f) (f_hops f) (f_self f).
Definition f_add_referral (t : libnvmf_tid) (f : dlp_fetch_ctx) : dlp_fetch_ctx :=
  FetchCtx (f_via_dc f) (f_scan f) (f_iocs f) (f_referrals f ++ [t]) (f_hops f) (f_self f).
Definition f_set_self (b : bool) (f : dlp_fetch_ctx) : dlp_fetch_ctx :=
  FetchCtx (f_via_dc f) (f_scan f) (f_iocs f) (f_referrals f) (f_hops f) (Some b).

Definition dlp_ioc_callback (t : libnvmf_tid) (f : dlp_fetch_ctx) (s : dstate) : dlp_fetch_ctx * dstate :=
  match libnvmf_tid_dup (Some t) with
  | None => (f, s)
  | Some d =>
      (f_add_ioc d f, if should_connect (Some (f_scan f)) t None s then start_ctrl t false (f_via_dc f) s else s)
  end.

Definition record_parent_epcsd (t : libnvmf_tid) (epcsd : bool) (s : dstate) : dstate :=
  match tid_unit_name t with
  | None => s
  | Some u => alter_ctrl u (a_set_parent_epcsd epcsd) s
  end.

Definition dlp_dc_callback (t : libnvmf_tid) (epcsd : bool) (f : dlp_fetch_ctx) (s : dstate) :
    dlp_fetch_ctx * dstate :=
  let f := match libnvmf_tid_dup (Some t) with Some d => f_add_referral d f | None => f end in
  match f_hops f with
  | None => (f, s)
  | Some hops =>
      if (INVENTORY_MAX_REFERRAL_HOPS <=? hops)%nat then (f, s)
      else if should_connect (Some (f_scan f)) t None s
      then (f, record_parent_epcsd t epcsd (start_ctrl t true (f_via_dc f) s))
      else (f, s)
  end.

Definition dlp_callback (fs : dlp_fetch_ctx * dstate) (c : dlp_call) : dlp_fetch_ctx * dstate :=
  let '(f, s) := fs in
  match c with
  | IocCallback t => dlp_ioc_callback t f s
  | DcCallback t epcsd => dlp_dc_callback t epcsd f s
  | SelfCallback epcsd => (f_set_self epcsd f, s)
  end.

Definition dc_effective_epcsd (f : dlp_fetch_ctx) (e : active_ctrl) : bool :=
  match f_self f with
  | Some b => b
  | None => default false (a_parent_epcsd e)
  end.

Definition epcsd_park (u : list Z) (s : dstate) : dstate :=
  match ctrl_find_by_unit u s with
  | None => s
  | Some e =>
      match a_poll e with
      | Some _ => s
      | None =>
          let s := did (EvStop u) s in
          match v_now E (d_events s) with
          | None => s
          | Some now =>
              let interval := u64 (dc_epcsd_poll_interval_minutes (d_cfg s) * 60 * 1000000) in
              if v_timer E (d_events s) then alter_ctrl u (a_set_poll (Some (u64 (now + interval)))) s else s
          end
      end
  end.

Definition process_dlp (u : list Z) (log : list nvmf_disc_log_entry) (s : dstate) : dstate :=
  match ctrl_find_by_unit u s with
  | None => s
  | Some e =>
      let dc := a_tid e in
      let f := FetchCtx (inventory_config_conn_for (d_inv s) dc) (conn_scan_load s) [] []
                 (inventory_referral_hops (d_inv s) dc) None in
      let '(f, s) := foldl dlp_callback (f, s) (dlp_process_log log (Some dc)) in
      let s := match ctrl_find_by_unit u s with
               | Some e => if a_is_dc e && negb (dc_effective_epcsd f e) && negb (a_force_persistent e)
                           then epcsd_park u s else s
               | None => s
               end in
      let s := set_inv (inventory_update_dlp (d_inv s) dc (Some (f_iocs f)) (Some (f_referrals f))) s in
      schedule_release false (alter_ctrl u a_set_fetched s)
  end.

(** [on_dlp_read]; [None] is a read that failed. *)
Definition on_dlp_read (u : list Z) (log : option (list nvmf_disc_log_entry)) (s : dstate) : dstate :=
  match ctrl_find_by_unit u s with
  | None => s
  | Some e =>
      let s := alter_ctrl u (a_set_read false (a_again e)) s in
      let s := match log with Some log => process_dlp u log s | None => s end in
      match ctrl_find_by_unit u s with
      | Some e => if a_again e then dlp_fetch u (alter_ctrl u (a_set_read (a_read e) false) s) else s
      | None => s
      end
  end.

Definition adopted_dc_fetch (u : list Z) (s : dstate) : dstate := dlp_fetch u s.

(** ** Failures *)

Definition ctrl_arm_giveup (e : active_ctrl) (s : dstate) : Z :=
  if negb (a_giveup_at e =? 0) || negb (a_is_dc e) then a_giveup_at e
  else if inventory_is_nbft (d_inv s) (a_tid e) ||
          bool_decide (is_Some (inventory_config_conn_for (d_inv s) (a_tid e))) then a_giveup_at e
  else if dc_giveup_timeout_usec (d_cfg s) =? SHR_USEC_INFINITY then a_giveup_at e
  else
    match v_now E (d_events s) with
    | None => a_giveup_at e
    | Some now =>
        if u64 (SHR_USEC_INFINITY - now) <=? dc_giveup_timeout_usec (d_cfg s) then a_giveup_at e
        else u64 (now + dc_giveup_timeout_usec (d_cfg s))
    end.

(** The loop of [backoff_delay_usec]; 9 rounds reach the largest delay. *)
Fixpoint backoff_loop (fuel : nat) (attempts sec : Z) : Z :=
  match fuel with
  | O => sec
  | S fuel => if (0 <? attempts) && (sec <? RETRY_MAX_DELAY_SEC) then backoff_loop fuel (attempts - 1) (u64 (sec * 2))
              else sec
  end.
Definition backoff_delay_usec (attempts : Z) : Z :=
  let sec := backoff_loop 9 attempts RETRY_INITIAL_DELAY_SEC in
  let sec := if RETRY_MAX_DELAY_SEC <? sec then RETRY_MAX_DELAY_SEC else sec in
  u64 (sec * 1000000).

(** [schedule_retry], and whether it succeeds. *)
Definition schedule_retry (u : list Z) (s : dstate) : bool * dstate :=
  match ctrl_find_by_unit u s with
  | None => (false, s)
  | Some e =>
      match a_retry e with
      | Some _ => (true, s)
      | None =>
          let giveup := ctrl_arm_giveup e s in
          match v_now E (d_events s) with
          | None => (false, alter_ctrl u (a_set_attempts (a_attempts e) giveup) s)
          | Some now =>
              let delay := backoff_delay_usec (a_attempts e) in
              let s := alter_ctrl u (a_set_attempts (u32 (a_attempts e + 1)) giveup) s in
              if v_timer E (d_events s) then (true, alter_ctrl u (a_set_retry (Some (u64 (now + delay)))) s)
              else (false, s)
          end
      end
  end.

(** [restart_or_start], and whether it succeeds. *)
Definition restart_or_start (e : active_ctrl) (s : dstate) : bool * dstate :=
  let ok := v_restart E (d_events s) (a_unit e) in
  let s := did (EvRestart (a_unit e) ok) s in
  if ok then (true, s)
  else unit_start (a_unit e) (a_tid e) (a_is_dc e) (inventory_is_nbft (d_inv s) (a_tid e)) s.

Definition restart_or_retry (e : active_ctrl) (s : dstate) : dstate :=
  let '(ok, s) := restart_or_start e s in
  if ok then s else (schedule_retry (a_unit e) s).2.

Definition retry_timeout (u : list Z) (s : dstate) : dstate :=
  match ctrl_find_by_unit u s with
  | None => s
  | Some e =>
      let s := alter_ctrl u (a_set_retry None) s in
      if negb (inventory_is_desired (d_inv s) (a_tid e)) then ctrl_remove u s
      else
        let over := negb (a_giveup_at e =? 0) &&
                    match v_now E (d_events s) with Some now => a_giveup_at e <=? now | None => false end in
        if over then
          let s := if a_is_dc e then refresh_desired (set_inv (inventory_forget_dc (d_inv s) (a_tid e)) s) else s in
          ctrl_remove u s
        else restart_or_retry e s
  end.

Definition epcsd_poll_timeout (u : list Z) (s : dstate) : dstate :=
  match ctrl_find_by_unit u s with
  | None => s
  | Some e =>
      let s := alter_ctrl u (a_set_poll None) s in
      if negb (inventory_is_desired (d_inv s) (a_tid e)) then ctrl_remove u s
      else restart_or_retry e s
  end.

(** ** Events *)

Definition dc_connected (u devname : list Z) (s : dstate) : dstate :=
  match ctrl_find_by_unit u s with
  | None => s
  | Some e => if bool_decide (is_Some (a_devname e)) then s
              else dlp_fetch u (alter_ctrl u (a_set_devname (Some devname)) s)
  end.

Definition on_job_done (u : list Z) (success : bool) (s : dstate) : dstate :=
  match ctrl_find_by_unit u s with
  | None => s
  | Some e =>
      if success then
        let s := alter_ctrl u (a_set_attempts 0 0) s in
        if a_is_dc e then
          match v_devid E (d_events s) u with Some d => dc_connected u d s | None => s end
        else if bool_decide (is_Some (a_devname e)) then s
        else match v_devid E (d_events s) u with
             | Some d => alter_ctrl u (a_set_devname (Some d)) s
             | None => s
             end
      else (schedule_retry u s).2
  end.

Definition on_dc_add (devname : list Z) (s : dstate) : dstate :=
  match v_state_unit E (d_events s) devname with
  | None => s
  | Some u => dc_connected u devname s
  end.

Definition dc_changed_unowned (devname : list Z) (s : dstate) : dstate :=
  match v_owner E (d_events s) devname with
  | Err e => if bool_decide (e = ENOENT) then did (EvConnectAll devname) s else s
  | Ok _ => s
  end.

Definition on_dc_changed (devname : list Z) (s : dstate) : dstate :=
  match ctrl_find_by_devname devname s with
  | None => dc_changed_unowned devname s
  | Some e => dlp_fetch (a_unit e) s
  end.

Definition on_ioc_add (devname : list Z) (s : dstate) : dstate :=
  match v_state_unit E (d_events s) devname with
  | None => s
  | Some u =>
      match ctrl_find_by_unit u s with
      | None => s
      | Some e => if bool_decide (is_Some (a_devname e)) then s else alter_ctrl u (a_set_devname (Some devname)) s
      end
  end.

Definition sysfs_ctrl_deleting (devname : list Z) (s : dstate) : bool :=
  match v_sysfs_state E (d_events s) devname with
  | None => true
  | Some state => bool_decide (is_Some (shr_startswith state (lit "deleting")))
  end.

Definition on_nvme_remove (devname : list Z) (s : dstate) : dstate :=
  if v_present E (d_events s) devname && negb (sysfs_ctrl_deleting devname s) then s
  else
    let found := ctrl_find_by_devname devname s in
    let s := did (EvRemoveCtrl devname) s in
    match found with
    | None => s
    | Some e =>
        let u := a_unit e in
        let s := alter_ctrl u (a_set_devname None) (did (EvRemoveDevid u) s) in
        if negb (should_connect None (a_tid e) (Some devname) s) then ctrl_remove u (did (EvStop u) s)
        else if bool_decide (is_Some (a_poll e)) then s
        else if negb (inventory_is_desired (d_inv s) (a_tid e)) then ctrl_remove u s
        else if shr_streq0 (transport (a_tid e)) (Some (lit "fc"))
        then did EvKickstart (ctrl_remove u (did (EvStop u) s))
        else restart_or_retry e s
    end.

(** A timer that is to fire now: its time is the current one. *)
Definition ctrl_retry_now (u : list Z) (now : Z) (s : dstate) : dstate :=
  match ctrl_find_by_unit u s with
  | None => s
  | Some e =>
      match a_poll e, a_retry e with
      | Some _, _ => alter_ctrl u (a_set_poll (Some now)) s
      | None, Some _ => alter_ctrl u (a_set_retry (Some now)) s
      | None, None => s
      end
  end.

Definition with_host (t : libnvmf_tid) (s : dstate) : option libnvmf_tid := with_default_host (d_ctx s) (Some t).

Definition on_fc_discovery (t : libnvmf_tid) (now : Z) (s : dstate) : dstate :=
  match (d ← libnvmf_tid_dup (Some t); with_host d s) with
  | None => s
  | Some t =>
      let s := set_inv (inventory_add_discovered_dc (d_inv s) t) s in
      match (u ← tid_unit_name t; e ← ctrl_find_by_unit u s; Some u) with
      | Some u => ctrl_retry_now u now s
      | None => if should_connect None t None s then start_ctrl t true None s else s
      end
  end.

Definition on_mdns_add (traddr trsvcid transport : list Z) (nqn ifname : option (list Z)) (s : dstate) : dstate :=
  let is_tcp := shr_streq0 (Some transport) (Some (lit "tcp")) in
  let subsysnqn := match nqn with
                   | Some n => if v_kernel_nqn E (d_events s) then n else NVME_DISC_SUBSYS_NAME
                   | None => NVME_DISC_SUBSYS_NAME
                   end in
  let t :=
    scoped ← tid_scope_link_local traddr ifname;
    t ← tid_new (λ f, match f with
                      | Transport => Some transport
                      | Traddr => Some scoped
                      | Trsvcid => Some trsvcid
                      | Nqn => Some subsysnqn
                      | HostIface => if is_tcp then ifname else None
                      | HostTraddr | Hostnqn | Hostid => None
                      end) true;
    with_host t s in
  match t with
  | None => s
  | Some t =>
      let s := set_inv (inventory_add_discovered_dc (d_inv s) t) s in
      if should_connect None t None s then start_ctrl t true None s else s
  end.

Definition connect_one (scan : conn_scan) (is_dc : bool) (s : dstate) (t : libnvmf_tid) : dstate :=
  if should_connect (Some scan) t None s then start_ctrl t is_dc None s else s.

Definition connect_desired (s : dstate) : dstate :=
  let scan := conn_scan_load s in
  let s := foldl (connect_one scan true) s (default [] (inventory_desired_dcs (d_inv s))) in
  foldl (connect_one scan false) s (default [] (inventory_desired_iocs (d_inv s))).

(** A lookup of the inventory has ended: [i] is the inventory after it. *)
Definition on_config_lookup (i : inventory libnvmf_tid) (added : bool) (s : dstate) : dstate :=
  let s := set_inv i s in
  schedule_release false (if added then connect_desired s else s).

Definition apply_zeroconf (s : dstate) : dstate :=
  if dc_zeroconf (d_cfg s) && negb (d_mdns s) then set_mdns (v_mdns_start E (d_events s)) s
  else if negb (dc_zeroconf (d_cfg s)) && d_mdns s then set_mdns false s
  else s.

(** [reload_config], with what was read: the daemon's configuration, and the
    fabrics configuration or [None] when it cannot be read. *)
Definition reload_config (new_cfg : option discoverd_config)
    (new_fabrics : option (libnvmf_config * list config_conn)) (net : net_env) (s : dstate) : dstate :=
  match new_cfg with
  | None => s
  | Some cfg =>
      let s :=
        match new_fabrics with
        | Some (f, conns) =>
            let x := d_ctx s in
            set_config cfg {| ctx_hostnqn := ctx_hostnqn x; ctx_hostid := ctx_hostid x;
                              ctx_resolver := ctx_resolver x; ctx_fabrics_cfg := Some conns |} (Some f) s
        | None => set_config cfg (d_ctx s) (d_fabrics s) s
        end in
      let s := set_inv (inventory_load_config (d_inv s) (d_ctx s) net) s in
      apply_zeroconf (schedule_release true (connect_desired s))
  end.

(** What the event loop hands to the daemon. *)
Inductive input :=
| JobDone (u : list Z) (success : bool)
| DcAdd (devname : list Z)
| DcChanged (devname : list Z)
| IocAdd (devname : list Z)
| NvmeRemove (devname : list Z)
| FcDiscovery (t : libnvmf_tid) (now : Z)
| MdnsAdd (traddr trsvcid transport : list Z) (nqn ifname : option (list Z))
| RetryTimeout (u : list Z)
| PollTimeout (u : list Z)
| DlpRead (u : list Z) (log : option (list nvmf_disc_log_entry))
| AdoptedFetch (u : list Z)
| ReleasePass
| ConfigLookup (i : inventory libnvmf_tid) (added : bool)
| Reload (cfg : option discoverd_config) (fabrics : option (libnvmf_config * list config_conn)) (net : net_env).

Definition handle_input (i : input) (s : dstate) : dstate :=
  match i with
  | JobDone u success => on_job_done u success s
  | DcAdd devname => on_dc_add devname s
  | DcChanged devname => on_dc_changed devname s
  | IocAdd devname => on_ioc_add devname s
  | NvmeRemove devname => on_nvme_remove devname s
  | FcDiscovery t now => on_fc_discovery t now s
  | MdnsAdd traddr trsvcid transport nqn ifname => on_mdns_add traddr trsvcid transport nqn ifname s
  | RetryTimeout u => retry_timeout u s
  | PollTimeout u => epcsd_poll_timeout u s
  | DlpRead u log => on_dlp_read u log s
  | AdoptedFetch u => adopted_dc_fetch u (set_deferred (List.filter (λ v, negb (str_eqb v u)) (d_deferred s)) s)
  | ReleasePass => release_undesired s
  | ConfigLookup i added => on_config_lookup i added s
  | Reload cfg fabrics net => reload_config cfg fabrics net s
  end.
End Daemon.
