(* ===== verification/DaemonSpec.v ===== *)
(** * What the discovery daemon does

    Each event is handled so that every controller the daemon tracks waits for
    something that will happen, that a controller is added only when it may be
    connected, and dropped only for a reason. *)

From Stdlib Require Import String.
From stdpp Require Import base list numbers relations.
From S2P Require Import Prelude.
From S2P Require Import CStr.
From S2P Require Import Nqn.
From S2P Require Import Tid.
From S2P Require Import DTid.
From S2P Require Import Inventory.
From S2P Require Import Conf.
From S2P Require Import ConfResolve.
From S2P Require Import Ctrl.
From S2P Require Import Time.
From S2P Require Import DiscoverdConfig.
From S2P Require Import Dlp.
From S2P Require Import Daemon.

(** ** States *)

(** The units for which systemd has accepted a job, in what was done. *)
Definition job_of (e : devent) : option (list Z) :=
  match e with
  | EvStart u _ _ _ true | EvRestart u true => Some u
  | _ => None
  end.
Definition jobs_of (l : list devent) : list (list Z) := omap job_of l.

(** What a controller waits for: its device to go, a timer, or its job. *)
Definition waits (J : list (list Z)) (e : active_ctrl) : Prop :=
  is_Some (a_devname e) ∨ is_Some (a_retry e) ∨ is_Some (a_poll e) ∨ a_unit e ∈ J.

(** The invariant, with the jobs [J]; the controller [x], if any, may wait for
    nothing.  That they wait is under the condition [C]. *)
Record good (C : Prop) (x : option (list Z)) (J : list (list Z)) (s : dstate) : Prop := {
  g_units : NoDup (a_unit <$> d_ctrls s);
  g_waits e : C → e ∈ d_ctrls s → x ≠ Some (a_unit e) → waits J e;
  g_giveup e : e ∈ d_ctrls s → a_giveup_at e ≠ 0 → a_is_dc e = true }.

Definition tracked (u : list Z) (s : dstate) : Prop := u ∈ a_unit <$> d_ctrls s.

(** The same controller, whatever else has changed. *)
Definition same_ctrl (e e' : active_ctrl) : Prop :=
  a_unit e = a_unit e' ∧ a_tid e = a_tid e' ∧ a_is_dc e = a_is_dc e'.

Section Spec.
Context `{Alloc} `{Inet} `{Heap}.
Context (E : denv).

(** The clock and the timers work. *)
Definition calm : Prop := ∀ h, is_Some (v_now E h) ∧ v_timer E h = true.
Context (C : Prop) (HC : C → calm).

(** What the daemon had done when the event came. *)
Context (B : list devent).

(** The connections that exist when [h] has been done. *)
Definition scan_at (h : list devent) : conn_scan :=
  ConnScan (v_ifaddrs E h)
    (omap (λ n, if char_at n 0 =? c_dot then None else (λ x, (n, x)) <$> sysfs_read_tid E n h) (v_sysfs_names E h)).

(** The owner of a device is the daemon, the firmware, or nobody. *)
Definition ours (h : list devent) (d : list Z) : Prop :=
  v_owner E h d = Err ENOENT ∨ v_owner E h d = Ok (lit "discoverd") ∨ v_owner E h d = Ok (lit "nbft").

(** The controller may be connected when [h] has been done: it is not excluded
    then, and the device that was connected to it, when the connections were
    read at [h0], has no other owner. *)
Definition may_connect (h0 h : list devent) (t : libnvmf_tid) : Prop :=
  v_excluded E h t = false ∧ ∀ d, find_devname_for_tid (scan_at h0) t = Some d → ours h d.

(** A new controller comes with a TID that might be connected at a moment of
    the handling of the event, up to the moment [h'], and the connections were
    read during that handling, too. *)
Definition admitted (h' : list devent) (e : active_ctrl) : Prop :=
  ∃ t h0 h, B `suffix_of` h0 ∧ h0 `suffix_of` h ∧ h `suffix_of` h' ∧ may_connect h0 h t ∧
    libnvmf_tid_dup (Some t) = Some (a_tid e).

Lemma admitted_later h h' e e' : h `suffix_of` h' → a_tid e = a_tid e' → admitted h e → admitted h' e'.
Proof.
  intros Hh Ht (t & h0 & h1 & H0' & H1' & H2' & Hm & Hd). exists t, h0, h1. rewrite <- Ht.
  split_and!; try done. by etrans.
Qed.

(** The decision was made during the handling, up to now. *)
Definition allowed_now (s : dstate) (t : libnvmf_tid) : Prop :=
  ∃ h0 h, B `suffix_of` h0 ∧ h0 `suffix_of` h ∧ h `suffix_of` d_events s ∧ may_connect h0 h t.

Lemma allowed_later s s' t : d_events s `suffix_of` d_events s' → allowed_now s t → allowed_now s' t.
Proof. intros Hs (h0 & h & ? & ? & ? & ?). exists h0, h. split_and!; try done. by etrans. Qed.

(** From [s] to [s']: the invariant is kept, only the controllers [G] are
    dropped, and those that are added may be. *)
Record moves (x x' : option (list Z)) (G : list Z → Prop) (s s' : dstate) : Prop := {
  m_good : ∃ l, d_events s' = l ++ d_events s ∧ ∀ J, good C x J s → good C x' (jobs_of l ++ J) s';
  m_keep e : e ∈ d_ctrls s → tracked (a_unit e) s' ∨ G (a_unit e);
  m_new e' : e' ∈ d_ctrls s' → (∃ e, e ∈ d_ctrls s ∧ same_ctrl e e') ∨ admitted (d_events s') e' }.

Lemma moves_trans x y z G s s1 s2 : moves x y G s s1 → moves y z G s1 s2 → moves x z G s s2.
Proof.
  intros [(l1 & E1 & G1) K1 N1] [(l2 & E2 & G2) K2 N2]. split.
  - exists (l2 ++ l1). rewrite E2, E1, app_assoc. split; [done|]. intros J HJ. unfold jobs_of.
    rewrite omap_app, <- app_assoc. by apply G2, G1.
  - intros e He. destruct (K1 e He) as [Ht|]; [|by right].
    apply list_elem_of_fmap in Ht as (e1 & Hu & He1). rewrite Hu. by apply K2.
  - intros e2 He2. destruct (N2 e2 He2) as [(e1 & He1 & Hs1)|]; [|by right].
    destruct (N1 e1 He1) as [(e & He & Hs)|Ha].
    + left. exists e. split; [done|]. destruct Hs as (?&?&?), Hs1 as (?&?&?). split_and!; congruence.
    + right. eapply admitted_later; [by exists l2|by destruct Hs1 as (_ & ? & _)|exact Ha].
Qed.

(** What leaves the controllers alone. *)
Lemma moves_quiet x G s s' :
  d_ctrls s' = d_ctrls s → (∃ l, d_events s' = l ++ d_events s) → moves x x G s s'.
Proof.
  intros Hc [l Hl]. split.
  - exists l. split; [done|]. intros J [Hu Hw Hg]. split; rewrite ?Hc; try done.
    intros e HC' He Hx. destruct (Hw e HC' He Hx) as [|[|[|]]]; unfold waits; auto.
    right; right; right. apply elem_of_app. by right.
  - intros e He. left. unfold tracked. rewrite Hc. apply list_elem_of_fmap. by exists e.
  - intros e He. left. exists e. rewrite Hc in He. by split_and!.
Qed.

(** The history only grows. *)
Lemma moves_events x x' G s s' : moves x x' G s s' → d_events s `suffix_of` d_events s'.
Proof. intros [(l & -> & _) _ _]. by exists l. Qed.

Lemma moves_refl x G s : moves x x G s s.
Proof. apply moves_quiet; [done|by exists []]. Qed.

Lemma moves_did x G s ev : moves x x G s (did ev s).
Proof. apply moves_quiet; [done|by exists [ev]]. Qed.

Lemma moves_release x G s b : moves x x G s (schedule_release E b s).
Proof. unfold schedule_release. destruct (d_release_pending s); (apply moves_quiet; [done|by exists []]). Qed.

Lemma moves_set_inv x G i s : moves x x G s (set_inv i s).
Proof. apply moves_quiet; [done|by exists []]. Qed.

Lemma find_unit_spec u s e : ctrl_find_by_unit u s = Some e → e ∈ d_ctrls s ∧ a_unit e = u.
Proof.
  unfold ctrl_find_by_unit. intros [Hin Hu]%find_some. split; [by apply list_elem_of_In|].
  by apply bool_decide_eq_true in Hu.
Qed.

Lemma find_unit_none u s : ctrl_find_by_unit u s = None → ¬ tracked u s.
Proof.
  unfold ctrl_find_by_unit. intros Hn (e & -> & He)%list_elem_of_fmap.
  apply list_elem_of_In in He. pose proof (find_none _ _ Hn e He) as Hf. cbn in Hf.
  unfold str_eqb in Hf. by rewrite bool_decide_true in Hf.
Qed.

Lemma find_unit_tracked u s : tracked u s → is_Some (ctrl_find_by_unit u s).
Proof. intros Ht. destruct (ctrl_find_by_unit u s) eqn:Ef; [done|]. by apply find_unit_none in Ef. Qed.

Lemma find_unique u s e : NoDup (a_unit <$> d_ctrls s) → e ∈ d_ctrls s → a_unit e = u → ctrl_find_by_unit u s = Some e.
Proof.
  intros HU He Hu. destruct (find_unit_tracked u s) as [e' He'].
  { apply list_elem_of_fmap. by exists e. }
  pose proof He' as [Hin' Hu']%find_unit_spec. rewrite He'. f_equal.
  apply list_elem_of_lookup in He as [i Hi], Hin' as [j Hj].
  assert (i = j) as ->; [|congruence]. eapply NoDup_lookup; [exact HU|rewrite list_lookup_fmap, Hi; done|].
  rewrite list_lookup_fmap, Hj. cbn. by rewrite Hu, Hu'.
Qed.

(** An altered controller: [y] is what may wait for nothing afterwards. *)
Lemma moves_alter x y G u f s :
  (∀ e, same_ctrl e (f e)) →
  (∀ J e, C → NoDup (a_unit <$> d_ctrls s) → ctrl_find_by_unit u s = Some e → (x ≠ Some u → waits J e) → y ≠ Some u → waits J (f e)) →
  (∀ v, v ≠ u → x = Some v → y = Some v) →
  (∀ e, ctrl_find_by_unit u s = Some e → (a_giveup_at e ≠ 0 → a_is_dc e = true) → a_giveup_at (f e) ≠ 0 → a_is_dc e = true) →
  moves x y G s (alter_ctrl u f s).
Proof.
  intros Hs Hw Hxy Hg.
  assert (Hin : ∀ e', e' ∈ d_ctrls (alter_ctrl u f s) →
            ∃ e, e ∈ d_ctrls s ∧ e' = if str_eqb (a_unit e) u then f e else e).
  { intros e' He. cbn in He. apply list_elem_of_In, in_map_iff in He as (e & <- & He). exists e.
    split; [by apply list_elem_of_In|done]. }
  assert (Hunits : a_unit <$> d_ctrls (alter_ctrl u f s) = a_unit <$> d_ctrls s).
  { cbn. rewrite <- list_fmap_compose. apply list_fmap_ext. intros i e _. cbn.
    destruct (str_eqb (a_unit e) u); [|done]. by destruct (Hs e) as [-> _]. }
  split.
  - exists []. split; [done|]. intros J [HU HW HG]. cbn [jobs_of omap list_omap app].
    split; [by rewrite Hunits|intros e' HC'; revert e'|..]; intros e' (e & He & ->)%Hin;
      unfold str_eqb; case_bool_decide as Hu; try (pose proof (find_unique u s e HU He Hu) as Hf).
    + intros Hy. destruct (Hs e) as [Heq _]. rewrite <- Heq, Hu in Hy. apply Hw; try done.
      intros Hx. apply HW; [done..|]. by rewrite Hu.
    + intros Hy. apply HW; [done..|]. intros Hx. by apply Hy, Hxy.
    + intros Hne. destruct (Hs e) as (_ & _ & <-). apply (Hg e Hf); [by apply HG|done].
    + by apply HG.
  - intros e He. left. unfold tracked. rewrite Hunits. apply list_elem_of_fmap. by exists e.
  - intros e' (e & He & ->)%Hin. left. exists e. split; [done|]. case_match; [apply Hs|done].
Qed.

(** A controller that is added behind the events [l]: its job is among them,
    or it may wait for nothing. *)
Lemma moves_add y G u t is_dc p l s0 s :
  d_ctrls s = d_ctrls s0 → d_events s = l ++ d_events s0 → allowed_now s0 t →
  (y = Some u ∨ y = None ∧ u ∈ jobs_of l) → moves None y G s0 (ctrl_add E u t is_dc p s).
Proof.
  intros Hc Hl Ht Hy. unfold ctrl_add.
  assert (Hq : moves None None G s0 s) by (apply moves_quiet; eauto).
  assert (Hweak : moves None y G s0 s).
  { destruct Hq as [(l' & E' & Hg) K N]. split; [|done..]. exists l'. split; [done|]. intros J HJ.
    destruct (Hg J HJ) as [HU HW HG]. split; try done. intros e HC' He _. by apply HW. }
  destruct (ctrl_find_by_unit u s) eqn:Ef; [done|]. destruct (libnvmf_tid_dup (Some t)) as [d|] eqn:Ed; [|done].
  eapply moves_trans; [|apply moves_release]. set (e0 := ActiveCtrl _ _ _ _ _ _ _ _ _ _ _ _ _ _).
  assert (Hnew : ¬ tracked u s) by (by apply find_unit_none). split.
  - exists l. split; [done|]. intros J [HU HW HG]. rewrite <- Hc in *. split; cbn.
    + apply list.NoDup_cons. by split.
    + intros e HC' [->|He]%elem_of_cons Hne; [|].
      * destruct Hy as [->|[_ Hj]]; [done|]. right; right; right. apply elem_of_app. by left.
      * destruct (HW e HC' He) as [|[|[|]]]; [done|unfold waits; auto..].
        right; right; right. apply elem_of_app. by right.
    + intros e [->|He]%elem_of_cons; [done|]. by apply HG.
  - intros e He. left. unfold tracked. cbn. apply elem_of_cons. right. rewrite Hc.
    apply list_elem_of_fmap. by exists e.
  - cbn. intros e [->|He]%elem_of_cons; [right|left; exists e; rewrite <- Hc; by split_and!].
    destruct Ht as (h0 & h & ? & ? & ? & ?). exists t, h0, h. split_and!; try done. etrans; [done|by exists l].
Qed.

Lemma moves_remove x G u s : (∀ v, x = Some v → v = u) → G u → moves x None G s (ctrl_remove E u s).
Proof.
  intros Hx HG. unfold ctrl_remove. eapply moves_trans; [|apply moves_release].
  assert (Hin : ∀ e, e ∈ List.filter (λ e, negb (str_eqb (a_unit e) u)) (d_ctrls s) ↔ e ∈ d_ctrls s ∧ a_unit e ≠ u).
  { intros e. rewrite !list_elem_of_In, filter_In. unfold str_eqb. case_bool_decide; naive_solver. }
  split.
  - exists []. split; [done|]. intros J [HU HW HG']. split; cbn.
    + by apply KeysdConfig.filter_NoDup_fmap.
    + intros e HC' [He Hne]%Hin _. apply HW; [done..|]. intros Hxe. by apply Hne, Hx.
    + intros e [He _]%Hin. by apply HG'.
  - intros e He. destruct (decide (a_unit e = u)) as [->|Hne]; [by right|]. left. unfold tracked. cbn.
    apply list_elem_of_fmap. exists e. split; [done|]. by apply Hin.
  - cbn. intros e [He _]%Hin. left. exists e. by split_and!.
Qed.

(** ** Helpers *)

(** A controller that is not tracked need not wait. *)
Lemma moves_forget x G u s : x = None ∨ x = Some u → ¬ tracked u s → moves x None G s s.
Proof.
  intros Hx Hu. destruct (moves_refl x G s) as [_ K N]. split; [|done..]. exists []. split; [done|].
  intros J [HU HW HG]. split; try done. intros e HC' He _. apply HW; [done..|]. intros Hxe.
  destruct Hx as [->| ->]; [done|]. injection Hxe as ->. apply Hu, list_elem_of_fmap. by exists e.
Qed.

(** A change that does not touch what a controller waits for. *)
Lemma moves_alter_same x G u f s :
  (∀ e, same_ctrl e (f e)) →
  (∀ e, a_devname (f e) = a_devname e ∧ a_retry (f e) = a_retry e ∧ a_poll (f e) = a_poll e) →
  (∀ e, a_giveup_at (f e) = a_giveup_at e ∨ a_giveup_at (f e) = 0) →
  moves x x G s (alter_ctrl u f s).
Proof.
  intros Hs Hw Hg. apply moves_alter; [done|..].
  - intros J e _ _ Hf Hwe Hx. specialize (Hwe Hx). unfold waits in *. destruct (Hw e) as (-> & -> & ->).
    by destruct (Hs e) as [<- _].
  - done.
  - intros e _ He. destruct (Hg e) as [->| ->]; [done|]. by intros [].
Qed.

Ltac same_fields := first [done | by intros ?; split_and! | by intros ?; left].

Lemma moves_fetch x G u s : moves x x G s (dlp_fetch E u s).
Proof.
  unfold dlp_fetch. destruct (_ ≫= _) as [[e d]|] eqn:Ef; [|apply moves_refl].
  destruct (ctrl_find_by_unit u s) as [e1|] eqn:Eu; [|done]. cbn in Ef.
  destruct (a_devname e1) as [d1|]; [|done]. cbn in Ef. injection Ef as -> ->.
  apply find_unit_spec in Eu as [Hin Hu]. destruct (a_read e).
  - apply moves_alter_same; same_fields.
  - case_match; [|apply moves_refl]. eapply moves_trans; [apply moves_did|].
    apply moves_alter_same; same_fields.
Qed.

(** A device name, or a timer, is something to wait for. *)
Lemma moves_settle x G u f s :
  (∀ e, same_ctrl e (f e)) → (x = None ∨ x = Some u) →
  (∀ e, is_Some (a_devname (f e)) ∨ is_Some (a_retry (f e)) ∨ is_Some (a_poll (f e))) →
  (∀ e, a_giveup_at (f e) = a_giveup_at e) →
  moves x None G s (alter_ctrl u f s).
Proof.
  intros Hs Hx Hw Ha. apply moves_alter; [done|..].
  - intros J e _ _ _ _ _. unfold waits. destruct (Hw e) as [|[|]]; auto.
  - intros v Hv ->. by destruct Hx as [|[= ->]].
  - intros e _. by rewrite (Ha e).
Qed.

Lemma moves_devname x G u d s :
  x = None ∨ x = Some u → moves x None G s (alter_ctrl u (a_set_devname (Some d)) s).
Proof. intros Hx. apply moves_settle; [same_fields|done|intros e; left; by eexists|same_fields]. Qed.

Lemma moves_adopt G u t is_dc p d s : allowed_now s t → moves None None G s (adopt_ctrl E u t is_dc p d s).
Proof.
  intros Ht. unfold adopt_ctrl.
  assert (Ha : moves None (Some u) G s (ctrl_add E u t is_dc p s)).
  { by apply (moves_add (Some u) G u t is_dc p [] s s); [..|left]. }
  destruct (ctrl_find_by_unit u (ctrl_add E u t is_dc p s)) eqn:Ef.
  2:{ eapply moves_trans; [exact Ha|]. apply (moves_forget _ G u); [by right|by apply find_unit_none]. }
  eapply moves_trans; [exact Ha|]. eapply moves_trans; [apply moves_devname; by right|].
  destruct is_dc; [|apply moves_refl]. case_match; [|apply moves_fetch]. apply moves_quiet; [done|by exists []].
Qed.

Lemma moves_stale x G u d s :
  moves x x G s (match d with
                 | Some d => if shr_streq0 (v_state_unit E (d_events s) d) (Some u) then did (EvRemoveCtrl d) s else s
                 | None => s
                 end).
Proof. repeat case_match; first [apply moves_did|apply moves_refl]. Qed.

(** [start_ctrl] adds at most the controller it is called for. *)
Lemma moves_start G t is_dc via s : allowed_now s t → moves None None G s (start_ctrl E t is_dc via s).
Proof.
  intros Ht. unfold start_ctrl. destruct (tid_unit_name t) as [u|]; [|apply moves_refl].
  case_bool_decide; [apply moves_refl|]. case_match; [by apply moves_adopt|].
  set (s1 := if v_unit_exists E (d_events s) u then _ else s).
  assert (Hs1 : moves None None G s s1).
  { subst s1. destruct (v_unit_exists E (d_events s) u); [|apply moves_refl].
    eapply moves_trans; [apply moves_did|]. apply (moves_stale None G u (v_devid E (d_events s) u)). }
  eapply moves_trans; [exact Hs1|]. unfold unit_start. cbn iota beta.
  destruct (v_start E (d_events s1) u); [|apply moves_did].
  eapply (moves_add None G u t is_dc _ [EvStart u t is_dc (inventory_is_nbft (d_inv s1) t) true] s1);
    [done..|by eapply allowed_later; [by eapply moves_events|]|].
  right. split; [done|]. cbn. by left.
Qed.

(** ** Log pages *)

(** A scan of the connections during the handling. *)
Definition scanned (scan : option conn_scan) (s : dstate) : Prop :=
  ∀ sc, scan = Some sc → ∃ h0, B `suffix_of` h0 ∧ h0 `suffix_of` d_events s ∧ sc = scan_at h0.

Lemma scanned_load s : B `suffix_of` d_events s → scanned (Some (conn_scan_load E s)) s.
Proof. intros Hb sc [= <-]. by exists (d_events s). Qed.

Lemma scanned_later scan s s' : d_events s `suffix_of` d_events s' → scanned scan s → scanned scan s'.
Proof.
  intros Hs Hsc sc Hscan. destruct (Hsc sc Hscan) as (h0 & ? & ? & ->). exists h0. split_and!; try done. by etrans.
Qed.

(** What [should_connect] promises. *)
Lemma should_connect_spec scan t s :
  B `suffix_of` d_events s → scanned scan s → should_connect E scan t None s = true → allowed_now s t.
Proof.
  intros Hb Hsc. unfold should_connect. destruct (v_excluded E (d_events s) t) eqn:Ex; [done|]. intros Hs.
  assert (Hscan : ∃ h0, B `suffix_of` h0 ∧ h0 `suffix_of` d_events s ∧ default (conn_scan_load E s) scan = scan_at h0).
  { destruct scan as [sc|]; [by apply Hsc|by exists (d_events s)]. }
  destruct Hscan as (h0 & ? & ? & Hscan). exists h0, (d_events s). split_and!; [done..|]. split; [done|].
  intros d Hd. rewrite Hscan, Hd in Hs.
  unfold ours. destruct (v_owner E (d_events s) d) as [owner|e]; [|by apply bool_decide_eq_true in Hs as ->; left].
  right. unfold str_eqb in Hs. apply orb_true_iff in Hs as [->%bool_decide_eq_true| ->%bool_decide_eq_true]; auto.
Qed.

Lemma moves_connect G scan t is_dc via s :
  B `suffix_of` d_events s → scanned scan s →
  moves None None G s (if should_connect E scan t None s then start_ctrl E t is_dc via s else s).
Proof.
  intros Hb Hsc. destruct (should_connect E scan t None s) eqn:Es; [|apply moves_refl].
  apply moves_start. by eapply should_connect_spec.
Qed.

Lemma moves_callback G fs c :
  B `suffix_of` d_events fs.2 → scanned (Some (f_scan fs.1)) fs.2 →
  moves None None G fs.2 (dlp_callback E fs c).2 ∧ f_scan (dlp_callback E fs c).1 = f_scan fs.1.
Proof.
  destruct fs as [f s]. cbn [fst snd]. intros Hb Hsc. destruct c as [t|t b|b]; cbn [dlp_callback].
  - unfold dlp_ioc_callback. destruct (libnvmf_tid_dup (Some t)); [|split; [apply moves_refl|done]].
    split; [by apply moves_connect|done].
  - unfold dlp_dc_callback. set (f' := match libnvmf_tid_dup (Some t) with Some _ => _ | None => _ end).
    assert (Hf' : f_scan f' = f_scan f) by (subst f'; by destruct (libnvmf_tid_dup (Some t))).
    destruct (f_hops f'); [|split; [apply moves_refl|done]]. case_match; [split; [apply moves_refl|done]|].
    rewrite Hf'. destruct (should_connect E (Some (f_scan f)) t None s) eqn:Es; [|split; [apply moves_refl|done]].
    split; [|done]. cbn [snd]. eapply moves_trans; [apply moves_start; by eapply should_connect_spec|].
    unfold record_parent_epcsd. destruct (tid_unit_name t); [|apply moves_refl].
    apply moves_alter_same; same_fields.
  - split; [apply moves_refl|done].
Qed.

Lemma moves_callbacks G cs fs :
  B `suffix_of` d_events fs.2 → scanned (Some (f_scan fs.1)) fs.2 →
  moves None None G fs.2 (foldl (dlp_callback E) fs cs).2.
Proof.
  revert fs. induction cs as [|c cs IH]; intros fs Hb Hsc; cbn [foldl]; [apply moves_refl|].
  destruct (moves_callback G fs c Hb Hsc) as [Hm Hf]. pose proof (moves_events _ _ _ _ _ Hm) as Hev.
  eapply moves_trans; [exact Hm|]. apply IH; [by etrans|]. rewrite Hf. by eapply scanned_later.
Qed.

Lemma moves_park G u s : moves None None G s (epcsd_park E u s).
Proof.
  unfold epcsd_park. destruct (ctrl_find_by_unit u s) as [e|]; [|apply moves_refl].
  destruct (a_poll e); [apply moves_refl|]. eapply moves_trans; [apply moves_did|].
  destruct (v_now E (d_events (did (EvStop u) s))); [|apply moves_refl].
  case_match; [|apply moves_refl].
  apply moves_settle; [same_fields|by left|intros ?; right; right; by eexists|same_fields].
Qed.

Lemma moves_process G u log s : B `suffix_of` d_events s → moves None None G s (process_dlp E u log s).
Proof.
  intros Hb. unfold process_dlp. destruct (ctrl_find_by_unit u s) as [e|]; [|apply moves_refl].
  set (f0 := FetchCtx _ _ _ _ _ _).
  pose proof (moves_callbacks G (dlp_process_log log (Some (a_tid e))) (f0, s) Hb (scanned_load s Hb)) as Hc. cbn [snd] in Hc.
  destruct (foldl _ _ _) as [f s1]. cbn [snd] in Hc. eapply moves_trans; [exact Hc|].
  set (s2 := match ctrl_find_by_unit u s1 with Some _ => _ | None => _ end).
  assert (Hp : moves None None G s1 s2).
  { subst s2. destruct (ctrl_find_by_unit u s1) as [e1|]; [|apply moves_refl].
    case_match; [apply moves_park|apply moves_refl]. }
  eapply moves_trans; [exact Hp|]. eapply moves_trans; [apply moves_set_inv|].
  eapply moves_trans; [|apply moves_release]. apply moves_alter_same; same_fields.
Qed.

(** ** Failures *)

Lemma giveup_dc e s : a_giveup_at e = 0 ∨ a_is_dc e = true → ctrl_arm_giveup E e s ≠ 0 → a_is_dc e = true.
Proof.
  unfold ctrl_arm_giveup. intros Ho. destruct (Z.eqb_spec (a_giveup_at e) 0); cbn [negb orb].
  - destruct (a_is_dc e); [done|]. by cbn [negb].
  - by destruct Ho.
Qed.

(** The controller has a timer afterwards, if the timers work. *)
Lemma moves_retry x G u s : x = None ∨ x = Some u → moves x None G s (schedule_retry E u s).2.
Proof.
  intros Hx. unfold schedule_retry. destruct (ctrl_find_by_unit u s) as [e|] eqn:Eu.
  2:{ apply (moves_forget x G u); [done|by apply find_unit_none]. }
  destruct (a_retry e) as [r|] eqn:Er.
  { cbn [snd]. destruct (moves_refl x G s) as [_ K N]. split; [|done..]. exists []. split; [done|].
    intros J [HU HW HG]. split; try done. intros e' HC' He' _.
    destruct (decide (a_unit e' = u)) as [Hu'|Hne]; [|apply HW; [done..|]; destruct Hx as [->| ->]; congruence].
    pose proof (find_unique u s e' HU He' Hu') as Hf. rewrite Hf in Eu. injection Eu as ->.
    right; left. by rewrite Er. }
  assert (Hg : ∀ e0 : active_ctrl, ctrl_find_by_unit u s = Some e0 → (a_giveup_at e0 ≠ 0 → a_is_dc e0 = true) →
               ctrl_arm_giveup E e s ≠ 0 → a_is_dc e0 = true).
  { intros e0 He0 Ho. rewrite Eu in He0. injection He0 as <-. apply giveup_dc.
    destruct (decide (a_giveup_at e = 0)); [by left|right; by apply Ho]. }
  assert (Hxv : ∀ v, v ≠ u → x = Some v → None = Some v).
  { intros v Hv ->. destruct Hx as [|[= ->]]; done. }
  destruct (v_now E (d_events s)) as [now|] eqn:En.
  2:{ cbn [snd]. apply moves_alter; [same_fields| |done|done].
      intros J e0 HC'. destruct (HC HC' (d_events s)) as [[? Hn] _]. by rewrite En in Hn. }
  set (s1 := alter_ctrl u _ s).
  assert (H1' : moves x x G s s1).
  { apply moves_alter; [same_fields|intros J e0 _ _ _ Hw Hne; exact (Hw Hne)|done|done]. }
  destruct (v_timer E (d_events s1)) eqn:Et.
  - cbn [snd]. eapply moves_trans; [exact H1'|].
    apply moves_settle; [same_fields|done|intros ?; right; left; by eexists|same_fields].
  - cbn [snd]. apply moves_alter; [same_fields| |done|done].
    intros J e0 HC'. destruct (HC HC' (d_events s1)) as [_ Hn]. by rewrite Et in Hn.
Qed.

(** A job is something to wait for. *)
Lemma moves_job x G u ev s : x = None ∨ x = Some u → job_of ev = Some u → moves x None G s (did ev s).
Proof.
  intros Hx Hj. destruct (moves_did x G s ev) as [_ K N]. split; [|done..]. exists [ev]. split; [done|].
  intros J [HU HW HG]. cbn [jobs_of omap list_omap]. rewrite Hj. split; try done. intros e HC' He _.
  destruct (decide (a_unit e = u)) as [Hu|Hne]; [right; right; right; rewrite Hu; by left|].
  destruct (HW e HC' He) as [|[|[|]]]; [destruct Hx as [->| ->]; congruence|unfold waits; auto..].
  right; right; right. by right.
Qed.

Lemma moves_restart x G e s :
  x = None ∨ x = Some (a_unit e) → moves x None G s (restart_or_retry E e s).
Proof.
  intros Hx. unfold restart_or_retry, restart_or_start, unit_start.
  destruct (v_restart E (d_events s) (a_unit e)); [by apply (moves_job x G (a_unit e))|].
  eapply moves_trans; [apply (moves_did x G s (EvRestart (a_unit e) false))|].
  set (s1 := did (EvRestart (a_unit e) false) s).
  destruct (v_start E (d_events s1) (a_unit e)); [by apply (moves_job x G (a_unit e))|].
  eapply moves_trans; [apply moves_did|]. by apply moves_retry.
Qed.

(** The controller [u] is dropped when it is not desired, or when its deadline
    has passed. *)
Definition not_desired (s : dstate) (u : list Z) : Prop :=
  ∃ e, ctrl_find_by_unit u s = Some e ∧ inventory_is_desired (d_inv s) (a_tid e) = false.
Definition given_up (s : dstate) (u : list Z) : Prop :=
  ∃ e now, ctrl_find_by_unit u s = Some e ∧ a_giveup_at e ≠ 0 ∧ v_now E (d_events s) = Some now ∧ a_giveup_at e ≤ now.

(** A timer that fires is gone. *)
Lemma moves_fired G u f s :
  (∀ e, same_ctrl e (f e)) → (∀ e, a_giveup_at (f e) = a_giveup_at e) → moves None (Some u) G s (alter_ctrl u f s).
Proof.
  intros Hs Hg. apply moves_alter; [done|..].
  - intros J e _ _ _ _ Hy. by destruct Hy.
  - done.
  - intros e _. by rewrite Hg.
Qed.

Lemma moves_refresh x G s : moves x x G s (refresh_desired s).
Proof.
  assert (Hin : ∀ e', e' ∈ d_ctrls (refresh_desired s) →
            ∃ e, e ∈ d_ctrls s ∧ e' = a_set_desired (inventory_is_desired (d_inv s) (a_tid e)) e).
  { intros e' (e & <- & He)%list_elem_of_In%in_map_iff. exists e. by rewrite list_elem_of_In. }
  assert (Hu : a_unit <$> d_ctrls (refresh_desired s) = a_unit <$> d_ctrls s).
  { cbn. rewrite <- list_fmap_compose. by apply list_fmap_ext. }
  split.
  - exists []. split; [done|]. intros J [HU HW HG]. split; [by rewrite Hu|intros e' HC'; revert e'|..];
      intros e' (e & He & ->)%Hin; [exact (HW e HC' He)|exact (HG e He)].
  - intros e He. left. unfold tracked. rewrite Hu. apply list_elem_of_fmap. by exists e.
  - intros e' (e & He & ->)%Hin. left. by exists e.
Qed.

Lemma moves_retry_timeout G u s :
  (∀ v, not_desired s u ∨ given_up s u → v = u → G v) → moves None None G s (retry_timeout E u s).
Proof.
  intros HG. unfold retry_timeout. destruct (ctrl_find_by_unit u s) as [e|] eqn:Eu; [|apply moves_refl].
  pose proof Eu as [_ Hu]%find_unit_spec.
  eapply moves_trans; [apply (moves_fired G u (a_set_retry None)); same_fields|].
  set (s1 := alter_ctrl u _ s). destruct (inventory_is_desired (d_inv s1) (a_tid e)) eqn:Ed; cbn [negb].
  2:{ apply moves_remove; [by intros v [= ->]|]. apply HG; [left; by exists e|done]. }
  destruct (Z.eqb_spec (a_giveup_at e) 0) as [_|Hne]; cbn [negb andb].
  { apply moves_restart. right. by rewrite Hu. }
  destruct (v_now E (d_events s1)) as [now|] eqn:En; [|apply moves_restart; right; by rewrite Hu].
  destruct (Z.leb_spec (a_giveup_at e) now); [|apply moves_restart; right; by rewrite Hu].
  assert (Hg : G u) by (apply HG; [right; by exists e, now|done]).
  destruct (a_is_dc e); [|apply moves_remove; [by intros v [= ->]|done]].
  eapply moves_trans; [apply moves_set_inv|]. eapply moves_trans; [apply moves_refresh|].
  apply moves_remove; [by intros v [= ->]|done].
Qed.

Lemma moves_poll_timeout G u s :
  (∀ v, not_desired s u → v = u → G v) → moves None None G s (epcsd_poll_timeout E u s).
Proof.
  intros HG. unfold epcsd_poll_timeout. destruct (ctrl_find_by_unit u s) as [e|] eqn:Eu; [|apply moves_refl].
  pose proof Eu as [_ Hu]%find_unit_spec.
  eapply moves_trans; [apply (moves_fired G u (a_set_poll None)); same_fields|].
  set (s1 := alter_ctrl u _ s). destruct (inventory_is_desired (d_inv s1) (a_tid e)) eqn:Ed; cbn [negb].
  - apply moves_restart. right. by rewrite Hu.
  - apply moves_remove; [by intros v [= ->]|]. apply HG; [by exists e|done].
Qed.

(** ** Events *)

(** The controller waits already. *)
Lemma moves_known x G u e s :
  x = None ∨ x = Some u → ctrl_find_by_unit u s = Some e →
  is_Some (a_devname e) ∨ is_Some (a_retry e) ∨ is_Some (a_poll e) → moves x None G s s.
Proof.
  intros Hx Hf Hw. destruct (moves_refl x G s) as [_ K N]. split; [|done..]. exists []. split; [done|].
  intros J [HU HW HG]. split; try done. intros e' HC' He' _.
  destruct (decide (a_unit e' = u)) as [Hu'|Hne]; [|apply HW; [done..|]; destruct Hx as [->| ->]; congruence].
  pose proof (find_unique u s e' HU He' Hu') as Hf'. rewrite Hf in Hf'. injection Hf' as ->.
  unfold waits. destruct Hw as [|[|]]; auto.
Qed.

(** Without the condition nothing is promised. *)
Lemma moves_absurd x y G s : ¬ C → moves x y G s s.
Proof.
  intros Hc. destruct (moves_refl x G s) as [_ K N]. split; [|done..]. exists []. split; [done|].
  intros J [HU HW HG]. by split.
Qed.

Lemma find_alter u f s e :
  (∀ e, same_ctrl e (f e)) → ctrl_find_by_unit u s = Some e → ctrl_find_by_unit u (alter_ctrl u f s) = Some (f e).
Proof.
  intros Hs. unfold ctrl_find_by_unit. cbn. induction (d_ctrls s) as [|a l IH]; [done|].
  cbn [map List.find]. destruct (str_eqb (a_unit a) u) eqn:Ea.
  - destruct (Hs a) as [<- _]. rewrite Ea. by intros [= ->].
  - rewrite Ea. exact IH.
Qed.

Lemma moves_connected x G u d s : x = None ∨ x = Some u → moves x None G s (dc_connected E u d s).
Proof.
  intros Hx. unfold dc_connected. destruct (ctrl_find_by_unit u s) as [e|] eqn:Eu.
  2:{ apply (moves_forget x G u); [done|by apply find_unit_none]. }
  case_bool_decide as Hd; [by apply (moves_known x G u e); [..|left]|].
  eapply moves_trans; [by apply moves_devname|apply moves_fetch].
Qed.

Lemma moves_job_done G u b s :
  (C → b = true → is_Some (v_devid E (d_events s) u)) → moves (Some u) None G s (on_job_done E u b s).
Proof.
  intros Hdev. unfold on_job_done. destruct (ctrl_find_by_unit u s) as [e|] eqn:Eu.
  2:{ apply (moves_forget _ G u); [by right|by apply find_unit_none]. }
  destruct b; [|apply moves_retry; by right].
  eapply moves_trans; [apply (moves_alter_same (Some u) G u (a_set_attempts 0 0)); [same_fields..|by right]|].
  set (s1 := alter_ctrl u _ s).
  assert (Hf : ctrl_find_by_unit u s1 = Some (a_set_attempts 0 0 e)) by (apply find_alter; [same_fields|done]).
  assert (Hno : v_devid E (d_events s1) u = None → moves (Some u) None G s1 s1).
  { intros Hn. apply moves_absurd. intros HC'. destruct (Hdev HC' eq_refl) as [d Hd].
    change (d_events s1) with (d_events s) in Hn. by rewrite Hd in Hn. }
  destruct (a_is_dc e).
  - destruct (v_devid E (d_events s1) u) as [d|]; [apply moves_connected; by right|by apply Hno].
  - case_bool_decide as Hd; [by apply (moves_known _ G u _ s1 (or_intror eq_refl) Hf); left|].
    destruct (v_devid E (d_events s1) u) as [d|]; [apply moves_devname; by right|by apply Hno].
Qed.

Lemma moves_dlp_read G u log s : B `suffix_of` d_events s → moves None None G s (on_dlp_read E u log s).
Proof.
  intros Hb. unfold on_dlp_read. destruct (ctrl_find_by_unit u s) as [e|]; [|apply moves_refl].
  eapply moves_trans; [apply (moves_alter_same None G u (a_set_read false (a_again e))); same_fields|].
  set (s1 := alter_ctrl u _ s). set (s2 := match log with Some log => _ | None => _ end).
  assert (Hs2 : moves None None G s1 s2) by (subst s2; destruct log; [by apply moves_process|apply moves_refl]).
  eapply moves_trans; [exact Hs2|]. destruct (ctrl_find_by_unit u s2) as [e2|]; [|apply moves_refl].
  destruct (a_again e2); [|apply moves_refl]. eapply moves_trans; [|apply moves_fetch].
  apply moves_alter_same; same_fields.
Qed.

Lemma moves_ioc_add G d s : moves None None G s (on_ioc_add E d s).
Proof.
  unfold on_ioc_add. destruct (v_state_unit E (d_events s) d) as [u|]; [|apply moves_refl].
  destruct (ctrl_find_by_unit u s) as [e|]; [|apply moves_refl].
  case_bool_decide; [apply moves_refl|]. apply moves_devname. by left.
Qed.

(** The controller must not be connected when [h] has been done: it is
    excluded, or its device has another owner, or who owns it cannot be read. *)
Definition barred (h : list devent) (d : list Z) (t : libnvmf_tid) : Prop :=
  v_excluded E h t = true ∨
  (∃ o, v_owner E h d = Ok o ∧ o ≠ lit "discoverd" ∧ o ≠ lit "nbft") ∨
  (∃ er, v_owner E h d = Err er ∧ er ≠ ENOENT).

Lemma should_not_connect t d s : should_connect E None t (Some d) s = false → barred (d_events s) d t.
Proof.
  unfold should_connect. destruct (v_excluded E (d_events s) t) eqn:Ex; [intros _; by left|].
  intros Hs. right. destruct (v_owner E (d_events s) d) as [o|er]; [left|right].
  - exists o. unfold str_eqb in Hs. apply orb_false_iff in Hs as [Hd%bool_decide_eq_false Hn%bool_decide_eq_false].
    by split_and!.
  - exists er. by apply bool_decide_eq_false in Hs.
Qed.

Lemma find_devname_spec d s e : ctrl_find_by_devname d s = Some e → e ∈ d_ctrls s ∧ a_devname e = Some d.
Proof.
  unfold ctrl_find_by_devname. intros [Hin Hd]%find_some. split; [by apply list_elem_of_In|].
  by apply shr_streq0_spec in Hd.
Qed.

(** Why a controller is dropped when its device [d] goes; the daemon decides
    that when it has removed the state files of the connection. *)
Definition removed (d : list Z) (s : dstate) (u : list Z) : Prop :=
  ∃ e, e ∈ d_ctrls s ∧ a_unit e = u ∧ a_devname e = Some d ∧
    (barred (EvRemoveDevid u :: EvRemoveCtrl d :: d_events s) d (a_tid e) ∨
     inventory_is_desired (d_inv s) (a_tid e) = false ∨ transport (a_tid e) = Some (lit "fc")).

Lemma moves_nvme_remove d s : moves None None (removed d s) s (on_nvme_remove E d s).
Proof.
  unfold on_nvme_remove. case_match; [apply moves_refl|].
  destruct (ctrl_find_by_devname d s) as [e|] eqn:Ed; [|apply moves_did].
  apply find_devname_spec in Ed as [Hin Hdev]. set (u := a_unit e). set (G := removed d s).
  set (s1 := alter_ctrl u (a_set_devname None) _).
  assert (Hdid : moves None None G s (did (EvRemoveDevid u) (did (EvRemoveCtrl d) s))).
  { eapply moves_trans; [apply moves_did|]. apply moves_did. }
  assert (Hs1 : moves None (Some u) G s s1).
  { eapply moves_trans; [exact Hdid|]. apply moves_fired; same_fields. }
  assert (HG : barred (EvRemoveDevid u :: EvRemoveCtrl d :: d_events s) d (a_tid e) ∨ inventory_is_desired (d_inv s) (a_tid e) = false ∨
               transport (a_tid e) = Some (lit "fc") → G u) by (intros; by exists e).
  destruct (should_connect E None (a_tid e) (Some d) s1) eqn:Es; cbn [negb].
  2:{ eapply moves_trans; [exact Hs1|]. eapply moves_trans; [apply moves_did|].
      apply moves_remove; [by intros v [= ->]|]. apply HG. left. by apply should_not_connect in Es. }
  case_bool_decide as Hp.
  { eapply moves_trans; [exact Hdid|]. apply moves_alter; [same_fields| |done|same_fields].
    intros J e0 _ HU Hf _ _. rewrite (find_unique u _ e HU Hin eq_refl) in Hf. injection Hf as <-.
    right; right; left. exact Hp. }
  eapply moves_trans; [exact Hs1|]. destruct (inventory_is_desired (d_inv s1) (a_tid e)) eqn:Ei; cbn [negb].
  2:{ apply moves_remove; [by intros v [= ->]|]. apply HG. by right; left. }
  destruct (shr_streq0 (transport (a_tid e)) (Some (lit "fc"))) eqn:Ef.
  - apply shr_streq0_spec in Ef. eapply moves_trans; [apply moves_did|].
    eapply moves_trans; [|apply moves_did]. apply moves_remove; [by intros v [= ->]|]. apply HG. by right; right.
  - apply moves_restart. by right.
Qed.

(** ** The release pass *)

Lemma moves_release_unit x G u d s : moves x x G s (release_unit E u d s).
Proof.
  unfold release_unit. set (s0 := did (EvRemoveDevid u) s).
  set (s1 := match d with Some d => if shr_streq0 _ _ then _ else s0 | None => s0 end).
  assert (Hs1 : moves x x G s s1) by (eapply moves_trans; [apply moves_did|apply (moves_stale x G u d s0)]).
  eapply moves_trans; [exact Hs1|].
  set (s2 := if v_unit_exists E (d_events s1) u then _ else _).
  assert (Hs2 : moves x x G s1 s2) by (subst s2; case_match; [apply moves_did|apply moves_refl]).
  eapply moves_trans; [exact Hs2|]. destruct d as [d|]; [|apply moves_refl].
  destruct (v_owner E (d_events s2) d); [|apply moves_refl]. case_match; [apply moves_did|apply moves_refl].
Qed.

(** Why the pass releases a controller: the firmware does not name it, and it
    is excluded or not desired any more. *)
Definition released (check : bool) (inv : inventory libnvmf_tid) (e : active_ctrl) : Prop :=
  inventory_is_nbft inv (a_tid e) = false ∧
  (check = true ∧ (∃ h, B `suffix_of` h ∧ v_excluded E h (a_tid e) = true) ∨
   a_desired e = true ∧ inventory_is_desired inv (a_tid e) = false).

Lemma moves_release_one G check inv e s :
  B `suffix_of` d_events s → d_inv s = inv → (released check inv e → G (a_unit e)) →
  moves None None G s (release_one E check s e) ∧ d_inv (release_one E check s e) = inv.
Proof.
  intros Hb Hi HG. unfold release_one. rewrite Hi.
  assert (Hrel : G (a_unit e) → moves None None G s (ctrl_release E e s) ∧ d_inv (ctrl_release E e s) = inv).
  { intros Hg. unfold ctrl_release. set (d := match a_devname e with Some _ => _ | None => _ end). split.
    - eapply moves_trans; [apply moves_release_unit|]. by apply moves_remove.
    - unfold ctrl_remove, schedule_release, release_unit. repeat case_match; done. }
  destruct (inventory_is_nbft inv (a_tid e)) eqn:En; [split; [apply moves_refl|done]|].
  destruct (check && v_excluded E (d_events s) (a_tid e)) eqn:Ex.
  { apply andb_true_iff in Ex as [-> Ex]. apply Hrel, HG. split; [done|]. left. split; [done|by eexists]. }
  destruct (a_desired e && negb (inventory_is_desired inv (a_tid e))) eqn:Ed.
  { apply andb_true_iff in Ed as [Ed Ei%negb_true_iff]. apply Hrel, HG. split; [done|by right]. }
  split; [|done]. apply moves_alter_same; same_fields.
Qed.

Lemma moves_release_all G check inv l s :
  B `suffix_of` d_events s → d_inv s = inv → (∀ e, e ∈ l → released check inv e → G (a_unit e)) →
  moves None None G s (foldl (release_one E check) s l).
Proof.
  revert s. induction l as [|e l IH]; intros s Hb Hi HG; cbn [foldl]; [apply moves_refl|].
  destruct (moves_release_one G check inv e s Hb Hi) as [Hm Hi'].
  { apply HG. by left. }
  eapply moves_trans; [exact Hm|]. apply IH; [etrans; [exact Hb|by eapply moves_events]|done|]. intros e' He'. apply HG. by right.
Qed.

Lemma moves_decide x G l s : moves x x G s (decide_all E l s).2.
Proof.
  revert s. induction l as [|c l IH]; intros s; cbn [decide_all]; [apply moves_refl|].
  assert (Hd : moves x x G s (decide_saved E c s).2).
  { unfold decide_saved. destruct (tid_unit_name (s_tid c)) as [u|]; [|apply moves_refl].
    case_match; [apply moves_refl|]. case_match; [apply moves_refl|].
    set (d := match v_devid E (d_events s) u with Some _ => _ | None => _ end).
    destruct (_ && _); [apply moves_refl|]. apply moves_release_unit. }
  destruct (decide_saved E c s) as [decided s1]. cbn [snd] in Hd. specialize (IH s1).
  destruct (decide_all E l s1) as [rest s2]. cbn [snd] in *. by eapply moves_trans.
Qed.

Lemma moves_undesired G s :
  B `suffix_of` d_events s → (∀ e, e ∈ d_ctrls s → released (d_check_exclusions s) (d_inv s) e → G (a_unit e)) →
  moves None None G s (release_undesired E s).
Proof.
  intros Hb HG. unfold release_undesired. cbn [d_inv set_release d_check_exclusions].
  assert (Hq : ∀ b c s, moves None None G s (set_release b c s)) by (intros; apply moves_quiet; [done|by exists []]).
  destruct (inventory_config_pending (d_inv s)); [apply Hq|].
  eapply moves_trans; [apply Hq|]. eapply moves_trans; [apply Hq|]. set (s1 := set_release _ false _).
  eapply moves_trans; [apply (moves_release_all G (d_check_exclusions s) (d_inv s) (d_ctrls s1) s1 Hb eq_refl HG)|].
  set (s2 := foldl _ s1 _). pose proof (moves_decide None G (d_saved s2) s2) as Hd.
  change (d_ctrls (set_release false (d_check_exclusions s) s)) with (d_ctrls s1) in *.
  match goal with |- moves _ _ _ _ (let '(_, _) := ?p in _) => change p with (decide_all E (d_saved s2) s2) end.
  destruct (decide_all E (d_saved s2) s2) as [saved s3]. cbn [snd] in Hd.
  eapply moves_trans; [exact Hd|]. eapply moves_trans; [|apply moves_did].
  apply moves_quiet; [done|by exists []].
Qed.

(** ** Configuration *)

Lemma moves_connect_all G scan is_dc l s :
  B `suffix_of` d_events s → scanned (Some scan) s → moves None None G s (foldl (connect_one E scan is_dc) s l).
Proof.
  revert s. induction l as [|t l IH]; intros s Hb Hsc; cbn [foldl]; [apply moves_refl|].
  pose proof (moves_connect G (Some scan) t is_dc None s Hb Hsc) as Hm. pose proof (moves_events _ _ _ _ _ Hm) as Hev.
  eapply moves_trans; [exact Hm|]. apply IH; [by etrans|by eapply scanned_later].
Qed.

Lemma moves_connect_desired G s : B `suffix_of` d_events s → moves None None G s (connect_desired E s).
Proof.
  intros Hb. unfold connect_desired. pose proof (scanned_load s Hb) as Hsc.
  pose proof (moves_connect_all G _ true (default [] (inventory_desired_dcs (d_inv s))) s Hb Hsc) as Hm.
  pose proof (moves_events _ _ _ _ _ Hm) as Hev.
  eapply moves_trans; [exact Hm|]. apply moves_connect_all; [by etrans|by eapply scanned_later].
Qed.

(** A new scan is made for the decision. *)
Lemma scanned_none s : scanned None s.
Proof. done. Qed.

Lemma moves_fc G t now s : B `suffix_of` d_events s → moves None None G s (on_fc_discovery E t now s).
Proof.
  intros Hb. unfold on_fc_discovery. destruct (_ ≫= _) as [t'|]; [|apply moves_refl].
  set (s1 := set_inv (inventory_add_discovered_dc (d_inv s) t') s).
  eapply (moves_trans None None None G s s1); [apply moves_set_inv|].
  destruct (_ ≫= _) as [u|]; [|by apply moves_connect; [|apply scanned_none]]. unfold ctrl_retry_now.
  destruct (ctrl_find_by_unit u s1) as [e|]; [|apply moves_refl].
  destruct (a_poll e); [|destruct (a_retry e); [|apply moves_refl]].
  - apply moves_settle; [same_fields|by left|intros ?; right; right; by eexists|same_fields].
  - apply moves_settle; [same_fields|by left|intros ?; right; left; by eexists|same_fields].
Qed.

Lemma moves_mdns G traddr trsvcid transport nqn ifname s :
  B `suffix_of` d_events s → moves None None G s (on_mdns_add E traddr trsvcid transport nqn ifname s).
Proof.
  intros Hb. unfold on_mdns_add. cbv zeta. destruct (_ ≫= _) as [t|]; [|apply moves_refl].
  eapply moves_trans; [apply moves_set_inv|]. by apply moves_connect; [|apply scanned_none].
Qed.

Lemma moves_reload G cfg fabrics net s :
  B `suffix_of` d_events s → moves None None G s (reload_config E cfg fabrics net s).
Proof.
  intros Hb. unfold reload_config. destruct cfg as [c|]; [|apply moves_refl].
  set (s1 := match fabrics with Some _ => _ | None => _ end).
  assert (Hs1 : moves None None G s s1) by (apply moves_quiet; [by destruct fabrics as [[]|]|exists []; by destruct fabrics as [[]|]]).
  eapply moves_trans; [exact Hs1|]. eapply moves_trans; [apply moves_set_inv|].
  eapply moves_trans; [apply moves_connect_desired; etrans; [exact Hb|exact (moves_events _ _ _ _ _ Hs1)]|].
  eapply moves_trans; [apply moves_release|].
  unfold apply_zeroconf. repeat case_match; try apply moves_refl; (apply moves_quiet; [done|by exists []]).
Qed.

(** ** Every event *)

(** Why the event [i] may drop the controller [u]. *)
Definition why_dropped (i : input) (s : dstate) (u : list Z) : Prop :=
  match i with
  | RetryTimeout v => u = v ∧ (not_desired s u ∨ given_up s u)
  | PollTimeout v => u = v ∧ not_desired s u
  | NvmeRemove d => removed d s u
  | ReleasePass => ∃ e, e ∈ d_ctrls s ∧ a_unit e = u ∧ released (d_check_exclusions s) (d_inv s) e
  | _ => False
  end.

(** The unit whose job ends. *)
Definition job_end (i : input) : option (list Z) := match i with JobDone u _ => Some u | _ => None end.

(** A job that ends well has left the name of its device. *)
Definition job_ok (i : input) (s : dstate) : Prop :=
  match i with JobDone u true => is_Some (v_devid E (d_events s) u) | _ => True end.

Lemma handle_moves i s :
  B `suffix_of` d_events s → (C → job_ok i s) → moves (job_end i) None (why_dropped i s) s (handle_input E i s).
Proof.
  intros Hb Hj. destruct i as [u b|d|d|d|d|t now|? ? ? ? ?|u|u|u log|u| |inv added|cfg fabrics net];
    cbn [job_end handle_input].
  - apply moves_job_done. intros HC' ->. by apply Hj.
  - unfold on_dc_add. case_match; [|apply moves_refl]. apply moves_connected. by left.
  - unfold on_dc_changed. destruct (ctrl_find_by_devname d s); [apply moves_fetch|].
    unfold dc_changed_unowned. repeat case_match; first [apply moves_did|apply moves_refl].
  - apply moves_ioc_add.
  - apply moves_nvme_remove.
  - by apply moves_fc.
  - by apply moves_mdns.
  - apply moves_retry_timeout. by intros v Hw ->.
  - apply moves_poll_timeout. by intros v Hw ->.
  - by apply moves_dlp_read.
  - eapply moves_trans; [|apply moves_fetch]. apply moves_quiet; [done|by exists []].
  - apply moves_undesired; [done|]. intros e He Hr. by exists e.
  - unfold on_config_lookup. eapply moves_trans; [apply moves_set_inv|]. eapply moves_trans; [|apply moves_release].
    destruct added; [by apply moves_connect_desired|apply moves_refl].
  - by apply moves_reload.
Qed.
End Spec.

(** ** Runs *)

(** What was done between two states, and the jobs that are not over: those
    that are over before the event is handled are gone. *)
Definition new_events (s s' : dstate) : list devent :=
  take (length (d_events s') - length (d_events s)) (d_events s').
Definition jobs_after (i : input) (l : list devent) (J : list (list Z)) : list (list Z) :=
  jobs_of l ++ match job_end i with
               | Some u => List.filter (λ v, negb (str_eqb v u)) J
               | None => J
               end.

(** One event.  The answers of the world may be any, and others at the next
    event; when [ok] is true the clock and the timers work, and a job that ends
    well has left the name of its device. *)
Inductive dstep `{Alloc} `{Inet} `{Heap} (ok : bool) : dstate * list (list Z) → dstate * list (list Z) → Prop :=
| dstep_handle E i s J :
    (ok = true → calm E ∧ job_ok E i s) →
    dstep ok (s, J) (handle_input E i s, jobs_after i (new_events s (handle_input E i s)) J).

Lemma good_job_end C i J s : good C None J s → good C (job_end i) (jobs_after i [] J) s.
Proof.
  intros [HU HW HG]. split; try done. unfold jobs_after. cbn [jobs_of omap list_omap app].
  intros e HC' He Hx. destruct (HW e HC' He) as [|[|[|Hj]]]; [done|unfold waits; auto..].
  right; right; right. destruct (job_end i) as [u|]; [|done]. apply list_elem_of_In, filter_In.
  split; [by apply list_elem_of_In|]. unfold str_eqb. rewrite bool_decide_false; [done|]. congruence.
Qed.

Lemma dstep_good `{Alloc} `{Inet} `{Heap} ok x y :
  dstep ok x y → good (ok = true) None x.2 x.1 → good (ok = true) None y.2 y.1.
Proof.
  intros [E i s J HE] Hg. cbn [fst snd] in *.
  destruct (handle_moves E (ok = true) (λ Ho, proj1 (HE Ho)) (d_events s) i s ltac:(done) (λ Ho, proj2 (HE Ho)))
    as [(l & El & Hm) _ _].
  unfold new_events. rewrite El, length_app, Nat.add_sub, take_app_length.
  exact (Hm _ (good_job_end _ i J s Hg)).
Qed.

(** C15: A controller the daemon tracks is not stuck.  In every state the
    daemon can get to, from a start without controllers and with any sequence
    of events and any answers of systemd, the kernel and the files, no unit is
    tracked twice and only discovery controllers have a time after which the
    daemon gives up.  In a run during which the clock can be read, timers can
    be set, and each job that systemd reports as done has left the name of its
    device in its state file, each tracked controller is moreover connected,
    or waits for a timer, or for a job systemd has accepted.  Without these
    conditions a controller can be left behind: [daemon_stuck_without_timer],
    [daemon_stuck_without_device].  Memory for the daemon's records suffices. *)
Theorem daemon_never_stuck `{Alloc} `{Inet} `{Heap} (ok : bool) s0 s J :
  d_ctrls s0 = [] → rtc (dstep ok) (s0, []) (s, J) →
  NoDup (a_unit <$> d_ctrls s) ∧
  ∀ e, e ∈ d_ctrls s → (ok = true → waits J e) ∧ (a_giveup_at e ≠ 0 → a_is_dc e = true).
Proof.
  intros H0' Hr. assert (Hg : good (ok = true) None J s).
  { assert (Hstart : good (ok = true) None (s0, @nil (list Z)).2 (s0, @nil (list Z)).1).
    { split; cbn; rewrite H0'; [apply NoDup_nil_2|by intros ? _ ?%elem_of_nil|by intros ? ?%elem_of_nil]. }
    change (good (ok = true) None (s, J).2 (s, J).1). revert Hstart. clear H0'.
    induction Hr as [|x y z Hxy _ IH]; [done|]. intros Hx. apply IH. by eapply dstep_good. }
  destruct Hg as [HU HW HG]. split; [done|]. intros e He. split; [intros Ho; by apply HW|by apply HG].
Qed.

(** C16: Whatever the event and the answers of the world, the daemon drops a
    controller only for a reason, and adds one only when it may.  Dropped are:
    by the timer of a failed connection, the controller it is for, when it is
    not desired any more or its time to give up has come by the clock; by the
    poll timer, when it is not desired any more; when a device goes, the
    controller that had it, when it is excluded or the device has another
    owner (or an owner that cannot be read) at that moment, is not desired, or
    is a Fibre Channel one, to be discovered anew; by the release pass, one
    that the firmware does not name and that is excluded, if exclusions are to
    be checked, or was desired and is not any more.  Added is only a controller
    for which, while this event was handled, the exclusion list was asked and
    did not match and the connections of the kernel were read; when one of them
    is that of the controller, its owner at the moment of the decision is the
    daemon, the firmware or nobody. *)
Theorem daemon_reasons `{Alloc} `{Inet} `{Heap} E i s :
  (∀ e, e ∈ d_ctrls s → tracked (a_unit e) (handle_input E i s) ∨ why_dropped E (d_events s) i s (a_unit e)) ∧
  (∀ e', e' ∈ d_ctrls (handle_input E i s) →
     (∃ e, e ∈ d_ctrls s ∧ same_ctrl e e') ∨ admitted E (d_events s) (d_events (handle_input E i s)) e').
Proof.
  destruct (handle_moves E False (λ F, match F with end) (d_events s) i s ltac:(done) (λ F, match F with end))
    as [_ Hk Hn].
  by split.
Qed.

(** ** Backoff *)

(** The delay doubles from one second to five minutes. *)
Theorem backoff_spec n : 0 ≤ n → backoff_delay_usec n = Z.min (2 ^ n) 300 * 1000000.
Proof.
  intros Hn. destruct (Z_lt_ge_dec n 9) as [Hlt|Hge].
  - assert (Hc : n = 0 ∨ n = 1 ∨ n = 2 ∨ n = 3 ∨ n = 4 ∨ n = 5 ∨ n = 6 ∨ n = 7 ∨ n = 8) by lia.
    destruct Hc as [->|[->|[->|[->|[->|[->|[->|[->| ->]]]]]]]]; vm_compute; reflexivity.
  - rewrite Z.min_r by (transitivity (2 ^ 9); [done|apply Z.pow_le_mono_r; lia]).
    assert (Hl : ∀ k m sec, (0 < m) → backoff_loop (S k) m sec =
              if sec <? RETRY_MAX_DELAY_SEC then backoff_loop k (m - 1) (u64 (sec * 2)) else sec).
    { intros k m sec Hm. cbn [backoff_loop]. by rewrite (proj2 (Z.ltb_lt 0 m) Hm). }
    unfold backoff_delay_usec. do 9 (rewrite Hl by lia; cbn [RETRY_INITIAL_DELAY_SEC RETRY_MAX_DELAY_SEC]).
    vm_compute. reflexivity.
Qed.

(** ** The release pass settles *)

(** What the pass leaves of a controller. *)
Definition settled `{Alloc} `{Heap} (inv : inventory libnvmf_tid) (e : active_ctrl) : Prop :=
  inventory_is_nbft inv (a_tid e) = true ∨ a_desired e = inventory_is_desired inv (a_tid e).

Section Settle.
Context `{Alloc} `{Inet} `{Heap}.
Context (E : denv).

Lemma release_unit_ctrls u d s : d_ctrls (release_unit E u d s) = d_ctrls s ∧ d_inv (release_unit E u d s) = d_inv s.
Proof. unfold release_unit. repeat case_match; done. Qed.

Lemma ctrl_release_ctrls e s :
  d_ctrls (ctrl_release E e s) = List.filter (λ e', negb (str_eqb (a_unit e') (a_unit e))) (d_ctrls s) ∧
  d_inv (ctrl_release E e s) = d_inv s.
Proof.
  unfold ctrl_release, ctrl_remove, schedule_release. set (d := match a_devname e with Some _ => _ | None => _ end).
  destruct (release_unit_ctrls (a_unit e) d s) as [Hc Hi]. case_match; cbn; by rewrite ?Hc, ?Hi.
Qed.

(** One round settles its controller, and leaves the others. *)
Lemma release_one_settles check inv e s e' :
  d_inv s = inv → (∀ e0, e0 ∈ d_ctrls s → a_unit e0 = a_unit e → a_tid e0 = a_tid e) →
  e' ∈ d_ctrls (release_one E check s e) →
  if decide (a_unit e' = a_unit e) then a_tid e' = a_tid e ∧ settled inv e' else e' ∈ d_ctrls s.
Proof.
  intros Hi Ht. unfold release_one. rewrite Hi.
  assert (Hrel : e' ∈ d_ctrls (ctrl_release E e s) →
            if decide (a_unit e' = a_unit e) then a_tid e' = a_tid e ∧ settled inv e' else e' ∈ d_ctrls s).
  { rewrite (proj1 (ctrl_release_ctrls e s)). intros [He Hn]%list_elem_of_In%filter_In.
    unfold str_eqb in Hn. case_bool_decide as Hu; [done|]. rewrite decide_False by done. by apply list_elem_of_In. }
  destruct (inventory_is_nbft inv (a_tid e)) eqn:En.
  { intros He. case_decide as Hu; [|done]. rewrite (Ht e' He Hu). split; [done|]. left. by rewrite (Ht e' He Hu). }
  destruct (check && _); [exact Hrel|]. destruct (a_desired e && _); [exact Hrel|]. cbn.
  intros (e0 & <- & He0)%list_elem_of_In%in_map_iff. apply list_elem_of_In in He0. unfold str_eqb.
  case_bool_decide as Hu.
  - rewrite decide_True by done. cbn. split; [by apply Ht|]. right. cbn. by rewrite (Ht e0 He0 Hu).
  - by rewrite decide_False.
Qed.

Lemma release_all_settles check inv l s :
  d_inv s = inv → NoDup (a_unit <$> l) →
  (∀ e0 e, e0 ∈ d_ctrls s → e ∈ l → a_unit e0 = a_unit e → a_tid e0 = a_tid e) →
  ∀ e', e' ∈ d_ctrls (foldl (release_one E check) s l) →
    settled inv e' ∨ (a_unit e' ∉ a_unit <$> l) ∧ e' ∈ d_ctrls s.
Proof.
  revert s. induction l as [|e l IH]; intros s Hi Hnd Ht e' He'; cbn [foldl] in He'.
  { right. split; [apply not_elem_of_nil|done]. }
  apply list.NoDup_cons in Hnd as [Hnew Hnd].
  assert (Hone : ∀ x, x ∈ d_ctrls (release_one E check s e) →
            if decide (a_unit x = a_unit e) then a_tid x = a_tid e ∧ settled inv x else x ∈ d_ctrls s).
  { intros x Hx. eapply release_one_settles; [done| |exact Hx]. intros e0 He0. apply Ht; [done|by left]. }
  destruct (IH (release_one E check s e)) with (e' := e') as [|[Hu Hin]]; [|done|..|done|by left|].
  - unfold release_one. repeat case_match; try done; by rewrite (proj2 (ctrl_release_ctrls e s)).
  - intros e0 e1 He0 He1 Hu. specialize (Hone e0 He0). case_decide as Hc; [|by apply Ht; [|right|]].
    exfalso. apply Hnew. rewrite <- Hc, Hu. apply list_elem_of_fmap. by exists e1.
  - specialize (Hone e' Hin). case_decide as Hc; [left; apply Hone|]. right. split; [|done].
    intros [|]%elem_of_cons; done.
Qed.

Lemma release_all_inv check l s : d_inv (foldl (release_one E check) s l) = d_inv s.
Proof.
  revert s. induction l as [|a l IH]; intros s; cbn [foldl]; [done|]. rewrite IH.
  unfold release_one. repeat case_match; try done; by rewrite (proj2 (ctrl_release_ctrls a s)).
Qed.

(** After a release pass no controller is left that was desired and is not any
    more: a further pass without a change of the inventory or the exclusions
    drops nothing. *)
Theorem release_settles s e :
  NoDup (a_unit <$> d_ctrls s) → inventory_config_pending (d_inv s) = false →
  e ∈ d_ctrls (release_undesired E s) →
  settled (d_inv (release_undesired E s)) e ∧ ¬ released E [] false (d_inv (release_undesired E s)) e.
Proof.
  intros Hnd Hp He.
  assert (Hs : settled (d_inv (release_undesired E s)) e).
  { unfold release_undesired in *. cbn [d_inv set_release d_check_exclusions] in *. rewrite Hp in *.
    set (s1 := set_release _ false _) in *. set (s2 := foldl _ s1 _) in *.
    assert (Hd : ∀ l s, d_ctrls (decide_all E l s).2 = d_ctrls s ∧ d_inv (decide_all E l s).2 = d_inv s).
    { induction l as [|c l IH]; intros s'; cbn [decide_all]; [done|].
      assert (Hc : d_ctrls (decide_saved E c s').2 = d_ctrls s' ∧ d_inv (decide_saved E c s').2 = d_inv s').
      { unfold decide_saved. repeat case_match; try done; apply release_unit_ctrls. }
      destruct (decide_saved E c s') as [decided s'']. specialize (IH s'').
      destruct (decide_all E l s'') as [rest s3]. cbn [snd] in *. destruct Hc, IH. split; congruence. }
    specialize (Hd (d_saved s2) s2). destruct (decide_all E (d_saved s2) s2) as [saved s3].
    cbn [snd] in Hd. destruct Hd as [Hc Hi]. cbn in He |- *. rewrite Hc in He. rewrite Hi.
    assert (Hi2 : d_inv s2 = d_inv s) by (subst s2; by rewrite release_all_inv).
    rewrite Hi2. subst s2.
    destruct (release_all_settles (d_check_exclusions s) (d_inv s) (d_ctrls s) s1) with (e' := e)
      as [|[Hn Hin]]; [done|done| |done|done|].
    - intros e0 e1 H0' H1' Hu. assert (e0 = e1) as ->; [|done].
      pose proof (find_unique _ s e0 Hnd H0' Hu) as Hf. rewrite (find_unique _ s e1 Hnd H1' eq_refl) in Hf. congruence.
    - exfalso. apply Hn, list_elem_of_fmap. by exists e. }
  split; [done|]. intros [Hn [[? _]|[Hde Hdi]]]; [done|]. destruct Hs as [Hs|Hs]; congruence.
Qed.
End Settle.

(** ** The file of desired controllers *)

(** A TID that the file can hold: it is one the parser gives, its text fits and
    has no separator of the file. *)
Record plain_tid `{Alloc} `{Inet} (t : libnvmf_tid) : Prop := {
  pt_clean : clean_tid t;
  pt_addr : tid_sanitize_addr t = Ok t;
  pt_cache : canonical_cache t = None ∧ str_cache t = None;
  pt_fits : (length (canonical_full t) < CANONICAL_MAX)%nat;
  pt_chars : (c_tab ∉ canonical_full t) ∧ (c_nl ∉ canonical_full t);
  pt_text : canonical_full t ≠ [] ∧ canonical_full t ≠ lit "-" }.

Section Saved.
Context `{AllocOk} `{InetLaws} `{Heap}.

Lemma plain_canonical t : plain_tid t → canonical t = canonical_full t ∧ libnvmf_tid_parse (Some (canonical t)) = Ok t.
Proof.
  intros [Hc Ha [Hcc Hsc] Hf _ _].
  assert (Ht : canonical t = canonical_full t).
  { unfold canonical, libnvmf_tid_get_canonical. rewrite Hcc. cbn [snd].
    rewrite strdup_id, canonical_text_spec, take_ge by lia. done. }
  split; [done|]. rewrite Ht. by apply parse_canonical.
Qed.

Lemma strtok_three a b c :
  c_tab ∉ a → c_tab ∉ b → c_tab ∉ c → a ≠ [] → b ≠ [] → c ≠ [] →
  strtok c_tab (a ++ [c_tab] ++ b ++ [c_tab] ++ c) = [a; b; c].
Proof.
  intros Ha Hb Hc Na Nb Nc. unfold strtok. cbn [app]. rewrite fields_sep, fields_sep, fields_single by done.
  by destruct a, b, c.
Qed.

(** A line is read back. *)
Lemma saved_line_back c line :
  plain_tid (s_tid c) → (∀ p, s_parent c = Some p → plain_tid p) →
  c_tab ∉ s_source c → s_source c ≠ [] →
  saved_line (s_source c) (s_tid c) (s_parent c) = line ++ [c_nl] → saved_of line = Some c.
Proof.
  intros Ht Hp Hs Hne E. unfold saved_line in E. rewrite !app_assoc in E. apply app_inj_tail in E as [<- _].
  rewrite <- !app_assoc. destruct (plain_canonical _ Ht) as [Hct Hpt]. destruct Ht as [_ _ _ _ [Hct1 _] [Hct2 _]].
  rewrite <- Hct in Hct1, Hct2. destruct c as [src t [p|]]; cbn [s_source s_tid s_parent] in *.
  - destruct (plain_canonical p) as [Hcp Hpp]; [by apply Hp|].
    destruct (Hp p eq_refl) as [_ _ _ _ [Hp1 _] [Hp2 Hp3]]. rewrite <- Hcp in Hp1, Hp2, Hp3.
    unfold saved_of. rewrite strtok_three by done. rewrite Hpt. unfold str_eqb. rewrite bool_decide_false by done.
    by rewrite Hpp.
  - unfold saved_of. change (lit "-") with [45].
    rewrite strtok_three; [|done|done|by intros ?%list_elem_of_singleton|done..]. by rewrite Hpt.
Qed.

(** The lines of the saved controllers, read again, give them back: what a
    restarted daemon has to decide is what the last one had not decided. *)
Theorem saved_roundtrip (l : list saved_ctrl) s :
  Forall (λ c, plain_tid (s_tid c) ∧ (∀ p, s_parent c = Some p → plain_tid p) ∧
               (c_tab ∉ s_source c) ∧ (c_nl ∉ s_source c) ∧ s_source c ≠ [] ∧ s_source c ≠ lit "discovered") l →
  d_saved (load_saved (concat (map (λ c, saved_line (s_source c) (s_tid c) (s_parent c)) l)) s) = d_saved s ++ l.
Proof.
  unfold load_saved. revert s. induction l as [|c l IH]; intros s.
  { intros _. cbn. by rewrite app_nil_r. }
  intros [(Ht & Hp & Htab & Hnl & Hne & Hdis) Hl]%list.Forall_cons. cbn [map concat].
  assert (Hline : ∃ line, saved_line (s_source c) (s_tid c) (s_parent c) = line ++ [c_nl] ∧ (c_nl ∉ line)).
  { unfold saved_line. rewrite !app_assoc. eexists. split; [reflexivity|].
    rewrite (proj1 (plain_canonical _ Ht)). destruct Ht as [_ _ _ _ [_ Hn] _].
    rewrite !elem_of_app, !list_elem_of_singleton. intros [[[[|]|]|]|Hin]; try done.
    destruct (s_parent c) as [p|] eqn:Ep; [|change (lit "-") with [45] in Hin; by apply list_elem_of_singleton in Hin].
    rewrite (proj1 (plain_canonical p (Hp p eq_refl))) in Hin. by destruct (Hp p eq_refl) as [_ _ _ _ [_ ?] _]. }
  destruct Hline as (line & E & Hline). rewrite E, <- app_assoc. cbn [app]. rewrite fields_sep by done.
  cbn [foldl]. rewrite (saved_line_back c line) by done. unfold str_eqb. rewrite bool_decide_false by done.
  rewrite IH by done. cbn. by rewrite <- app_assoc.
Qed.
End Saved.

(** ** A run *)

Module DaemonSample.
#[local] Existing Instance all_memory.
#[local] Existing Instance hex_inet.
#[local] Existing Instance all_heap.
Definition E' (timer : bool) (device : option (list Z)) : denv :=
  DEnv (λ _ _, false) (λ _ _, Err ENOENT) (λ _ _, false) (λ _ _, device) (λ _ _, None) (λ _ _, false)
    (λ _ _, None) (λ _ _, None) (λ _, []) (λ _, []) (λ _ _, true) (λ _ _, false) (λ _, Some 5) (λ _, timer) (λ _, true)
    (λ _, true) (λ _, false) (λ _, true) (λ _, []).
Definition E : denv := E' true (Some (lit "nvme3")).
Definition ctx : discoverd_ctx :=
  {| ctx_hostnqn := Some (lit "nqn.host"); ctx_hostid := Some (lit "id"); ctx_resolver := true;
     ctx_fabrics_cfg := None |}.
Definition start : dstate :=
  DState [] [] inventory_new DiscoverdConfig.config_set_defaults ctx None false false [] true [].
(** A discovery controller is announced, its connection fails, and is tried
    again. *)
Definition s1 := handle_input E (MdnsAdd (lit "0a000001") (lit "8009") (lit "tcp") None None) start.
Definition u : list Z := default [] (head (a_unit <$> d_ctrls s1)).
Definition s2 := handle_input E (JobDone u false) s1.
Definition s3 := handle_input E (RetryTimeout u) s2.
(** The failure when no timer can be set, and a job that ends well without the
    name of a device. *)
Definition no_timer := handle_input (E' false None) (JobDone u false) s1.
Definition no_device := handle_input (E' true None) (JobDone u true) s1.
End DaemonSample.

Lemma daemon_never_stuck_witness :
  match d_ctrls DaemonSample.s3 with
  | e :: _ => waits [DaemonSample.u] e ∧ a_retry e = None ∧ a_giveup_at e ≠ 0
  | [] => False
  end.
Proof.
  assert (Hcalm : calm DaemonSample.E) by (intros h; split; [by eexists|done]).
  assert (H1 : @dstep all_memory hex_inet all_heap true (DaemonSample.start, [])
                 (DaemonSample.s1, jobs_after (MdnsAdd (lit "0a000001") (lit "8009") (lit "tcp") None None)
                    (new_events DaemonSample.start DaemonSample.s1) [])) by (by constructor).
  assert (H2 : @dstep all_memory hex_inet all_heap true (DaemonSample.s1, [DaemonSample.u])
                 (DaemonSample.s2, jobs_after (JobDone DaemonSample.u false)
                    (new_events DaemonSample.s1 DaemonSample.s2) [DaemonSample.u])) by (by constructor).
  assert (H3 : @dstep all_memory hex_inet all_heap true (DaemonSample.s2, [])
                 (DaemonSample.s3, jobs_after (RetryTimeout DaemonSample.u)
                    (new_events DaemonSample.s2 DaemonSample.s3) [])) by (by constructor).
  assert (E1 : jobs_after (MdnsAdd (lit "0a000001") (lit "8009") (lit "tcp") None None)
                 (new_events DaemonSample.start DaemonSample.s1) [] = [DaemonSample.u]) by (vm_compute; reflexivity).
  assert (E2 : jobs_after (JobDone DaemonSample.u false) (new_events DaemonSample.s1 DaemonSample.s2)
                 [DaemonSample.u] = []) by (vm_compute; reflexivity).
  assert (E3 : jobs_after (RetryTimeout DaemonSample.u) (new_events DaemonSample.s2 DaemonSample.s3) [] =
               [DaemonSample.u]) by (vm_compute; reflexivity).
  rewrite E1 in H1. rewrite E2 in H2. rewrite E3 in H3.
  destruct (@daemon_never_stuck all_memory hex_inet all_heap true DaemonSample.start DaemonSample.s3 [DaemonSample.u]
              eq_refl (rtc_l _ _ _ _ H1 (rtc_l _ _ _ _ H2 (rtc_once _ _ H3)))) as [_ Hall].
  assert (Hshape : match d_ctrls DaemonSample.s3 with e :: _ => a_retry e = None ∧ a_giveup_at e = 259200000005
                   | [] => False end) by (vm_compute; split; reflexivity).
  destruct (d_ctrls DaemonSample.s3) as [|e l]; [exact Hshape|]. destruct Hshape as [Hr Hg].
  split; [exact (proj1 (Hall e (list_elem_of_here _ _)) eq_refl)|]. split; [exact Hr|]. rewrite Hg. discriminate.
Defined.

(** The controller waits neither for a device to go, nor for a timer or a job. *)
Fact daemon_stuck_without_timer :
  match d_ctrls DaemonSample.no_timer with e :: _ => ¬ waits [] e | [] => False end.
Proof. vm_compute. intros [[? [=]]|[[? [=]]|[[? [=]]|Hj]]]. inversion Hj. Qed.
Fact daemon_stuck_without_device :
  match d_ctrls DaemonSample.no_device with e :: _ => ¬ waits [] e | [] => False end.
Proof. vm_compute. intros [[? [=]]|[[? [=]]|[[? [=]]|Hj]]]. inversion Hj. Qed.
