(* ===== verification/Sha256.v ===== *)
(** * SHA-256 and HMAC-SHA256: [shared/sha256-util.c]

    The hash takes a message in pieces of any size, at any address, and keeps
    what is not a whole block in a buffer of 128 bytes.  [Fips180] states the
    hash as the standard does; the constants are computed from the primes. *)

From Stdlib Require Import String.
From stdpp Require Import base list numbers.
From S2P Require Import Prelude.
From S2P Require Import CStr.

(** ** Words *)

(** [SWAP] of a word in memory, and the word in memory of [SWAP]. *)
Fixpoint be_words (bs : list Z) : list Z :=
  match bs with
  | a :: b :: c :: d :: bs => le [d; c; b; a] :: be_words bs
  | _ => []
  end.
Definition be_word (w : Z) : list Z := rev (to_le 4 w).

Definition CYCLIC (w s : Z) : Z := Z.lor (Z.shiftr w s) (u32 (Z.shiftl w (32 - s))).
Definition Ch (x y z : Z) : Z := Z.lxor (Z.land x y) (Z.land (u32 (Z.lnot x)) z).
Definition Maj (x y z : Z) : Z := Z.lxor (Z.lxor (Z.land x y) (Z.land x z)) (Z.land y z).
Definition S0 (x : Z) : Z := Z.lxor (Z.lxor (CYCLIC x 2) (CYCLIC x 13)) (CYCLIC x 22).
Definition S1 (x : Z) : Z := Z.lxor (Z.lxor (CYCLIC x 6) (CYCLIC x 11)) (CYCLIC x 25).
Definition R0 (x : Z) : Z := Z.lxor (Z.lxor (CYCLIC x 7) (CYCLIC x 18)) (Z.shiftr x 3).
Definition R1 (x : Z) : Z := Z.lxor (Z.lxor (CYCLIC x 17) (CYCLIC x 19)) (Z.shiftr x 10).

Definition row (a b c d : Z) : list Z := [a; b; c; d].
Definition K : list Z :=
  row 0x428a2f98 0x71374491 0xb5c0fbcf 0xe9b5dba5 ++ row 0x3956c25b 0x59f111f1 0x923f82a4 0xab1c5ed5 ++
  row 0xd807aa98 0x12835b01 0x243185be 0x550c7dc3 ++ row 0x72be5d74 0x80deb1fe 0x9bdc06a7 0xc19bf174 ++
  row 0xe49b69c1 0xefbe4786 0x0fc19dc6 0x240ca1cc ++ row 0x2de92c6f 0x4a7484aa 0x5cb0a9dc 0x76f988da ++
  row 0x983e5152 0xa831c66d 0xb00327c8 0xbf597fc7 ++ row 0xc6e00bf3 0xd5a79147 0x06ca6351 0x14292967 ++
  row 0x27b70a85 0x2e1b2138 0x4d2c6dfc 0x53380d13 ++ row 0x650a7354 0x766a0abb 0x81c2c92e 0x92722c85 ++
  row 0xa2bfe8a1 0xa81a664b 0xc24b8b70 0xc76c51a3 ++ row 0xd192e819 0xd6990624 0xf40e3585 0x106aa070 ++
  row 0x19a4c116 0x1e376c08 0x2748774c 0x34b0bcb5 ++ row 0x391c0cb3 0x4ed8aa4a 0x5b9cca4f 0x682e6ff3 ++
  row 0x748f82ee 0x78a5636f 0x84c87814 0x8cc70208 ++ row 0x90befffa 0xa4506ceb 0xbef9a3f7 0xc67178f2.

(** ** Blocks *)

(** The variables a to h, and [ctx->H]. *)
Record regs := Regs { ra : Z; rb : Z; rc : Z; rd : Z; re : Z; rf : Z; rg : Z; rh : Z }.

(** The second loop of the message schedule, [n] more words behind [W]. *)
Fixpoint schedule (n : nat) (W : list Z) : list Z :=
  match n with
  | O => W
  | S n =>
      let t := length W in
      schedule n (W ++ [u32 (R1 (W !!! (t - 2)%nat) + W !!! (t - 7)%nat +
                             R0 (W !!! (t - 15)%nat) + W !!! (t - 16)%nat)])
  end.

(** The body of the loop of step 3. *)
Definition sha_step (r : regs) (t : Z * Z) : regs :=
  let '(k, w) := t in
  let T1 := u32 (rh r + S1 (re r) + Ch (re r) (rf r) (rg r) + k + w) in
  let T2 := u32 (S0 (ra r) + Maj (ra r) (rb r) (rc r)) in
  Regs (u32 (T1 + T2)) (ra r) (rb r) (rc r) (u32 (rd r + T1)) (re r) (rf r) (rg r).

Definition add_regs (r s : regs) : regs :=
  Regs (u32 (ra r + ra s)) (u32 (rb r + rb s)) (u32 (rc r + rc s)) (u32 (rd r + rd s))
       (u32 (re r + re s)) (u32 (rf r + rf s)) (u32 (rg r + rg s)) (u32 (rh r + rh s)).

(** The body of the outer loop for the 64 bytes of a block. *)
Definition process_one (r : regs) (block : list Z) : regs :=
  add_regs (foldl sha_step r (zip K (schedule 48 (be_words block)))) r.

(** The outer loop; [None] when it reads behind the end of [bs]. *)
Fixpoint process_loop (fuel : nat) (bs : list Z) (nwords : Z) (r : regs) : option regs :=
  if nwords =? 0 then Some r
  else
    match fuel with
    | O => None
    | S fuel =>
        if (length bs <? 64)%nat then None
        else process_loop fuel (drop 64 bs) (u64 (nwords - 16)) (process_one r (take 64 bs))
    end.

(** [struct shr_sha256_ctx]; the buffer as bytes. *)
Record shr_sha256_ctx := Sha {
  sha_H : regs;
  sha_total64 : Z;
  sha_buflen : nat;
  sha_buffer : list Z;
}.

Definition sha256_process_block (buffer : list Z) (len : nat) (ctx : shr_sha256_ctx) : option shr_sha256_ctx :=
  r ← process_loop (length buffer) buffer (Z.of_nat len / 4) (sha_H ctx);
  Some (Sha r (u64 (sha_total64 ctx + Z.of_nat len)) (sha_buflen ctx) (sha_buffer ctx)).

(** ** Messages *)

Definition shr_sha256_init (buffer : list Z) : shr_sha256_ctx :=
  Sha (Regs 0x6a09e667 0xbb67ae85 0x3c6ef372 0xa54ff53a 0x510e527f 0x9b05688c 0x1f83d9ab 0x5be0cd19) 0 0 buffer.

(** [memcpy] and [memmove] into [ctx->buffer]; [None] outside of it. *)
Definition sha_put (off : nat) (data : list Z) (ctx : shr_sha256_ctx) : option shr_sha256_ctx :=
  if (off + length data <=? length (sha_buffer ctx))%nat
  then Some (Sha (sha_H ctx) (sha_total64 ctx) (sha_buflen ctx) (buf_write (sha_buffer ctx) off data))
  else None.
Definition set_buflen (n : nat) (ctx : shr_sha256_ctx) : shr_sha256_ctx :=
  Sha (sha_H ctx) (sha_total64 ctx) n (sha_buffer ctx).

(** [n & ~63] *)
Definition round64 (n : nat) : nat := (n - n mod 64)%nat.

(** The first part of [shr_sha256_update], with bytes in the buffer: how many
    bytes of [data] it takes. *)
Definition fill_buffer (data : list Z) (ctx : shr_sha256_ctx) : option (nat * shr_sha256_ctx) :=
  let left_over := sha_buflen ctx in
  let add := if (length data <? 128 - left_over)%nat then length data else (128 - left_over)%nat in
  ctx ← sha_put left_over (take add data) ctx;
  let ctx := set_buflen (left_over + add) ctx in
  if (64 <? sha_buflen ctx)%nat then
    ctx ← sha256_process_block (sha_buffer ctx) (round64 (sha_buflen ctx)) ctx;
    let ctx := set_buflen (sha_buflen ctx mod 64) ctx in
    ctx ← sha_put 0 (take (sha_buflen ctx) (drop (round64 (left_over + add)) (sha_buffer ctx))) ctx;
    Some (add, ctx)
  else Some (add, ctx).

(** The loop over data that is not aligned: what is left of it. *)
Fixpoint copy_blocks (fuel : nat) (data : list Z) (ctx : shr_sha256_ctx) : option (list Z * shr_sha256_ctx) :=
  if (64 <? length data)%nat then
    match fuel with
    | O => None
    | S fuel =>
        ctx ← sha_put 0 (take 64 data) ctx;
        ctx ← sha256_process_block (sha_buffer ctx) 64 ctx;
        copy_blocks fuel (drop 64 data) ctx
    end
  else Some (data, ctx).

(** The second part. *)
Definition whole_blocks (addr : Z) (data : list Z) (ctx : shr_sha256_ctx) : option (list Z * shr_sha256_ctx) :=
  if (64 <=? length data)%nat then
    if addr mod 4 =? 0 then
      let n := round64 (length data) in
      ctx ← sha256_process_block data n ctx;
      Some (drop n data, ctx)
    else copy_blocks (length data) data ctx
  else Some (data, ctx).

(** The third part. *)
Definition keep_rest (data : list Z) (ctx : shr_sha256_ctx) : option shr_sha256_ctx :=
  if (0 <? length data)%nat then
    let left_over := sha_buflen ctx in
    ctx ← sha_put left_over data ctx;
    let left_over := (left_over + length data)%nat in
    if (64 <=? left_over)%nat then
      ctx ← sha256_process_block (sha_buffer ctx) 64 ctx;
      let left_over := (left_over - 64)%nat in
      ctx ← sha_put 0 (take left_over (drop 64 (sha_buffer ctx))) ctx;
      Some (set_buflen left_over ctx)
    else Some (set_buflen left_over ctx)
  else Some ctx.

(** [shr_sha256_update] of the bytes [data] at the address [addr]. *)
Definition shr_sha256_update (addr : Z) (data : list Z) (ctx : shr_sha256_ctx) : option shr_sha256_ctx :=
  '(add, ctx) ← (if (sha_buflen ctx =? 0)%nat then Some (0%nat, ctx) else fill_buffer data ctx);
  '(data, ctx) ← whole_blocks (addr + Z.of_nat add) (drop add data) ctx;
  keep_rest data ctx.

Definition fillbuf : list Z := 0x80 :: replicate 63 0.

Definition digest (r : regs) : list Z :=
  concat (be_word <$> [ra r; rb r; rc r; rd r; re r; rf r; rg r; rh r]).

Definition shr_sha256_final (ctx : shr_sha256_ctx) : option (list Z) :=
  let bytes := sha_buflen ctx in
  let total64 := u64 (sha_total64 ctx + Z.of_nat bytes) in
  let ctx := Sha (sha_H ctx) total64 (sha_buflen ctx) (sha_buffer ctx) in
  let pad := if (56 <=? bytes)%nat then (64 + 56 - bytes)%nat else (56 - bytes)%nat in
  let low := u32 total64 in
  let high := total64 / 2 ^ 32 in
  ctx ← (if (pad <=? 64)%nat then sha_put bytes (take pad fillbuf) ctx else None);
  ctx ← sha_put ((bytes + pad + 4) / 4 * 4) (be_word (u32 (Z.shiftl low 3))) ctx;
  ctx ← sha_put ((bytes + pad) / 4 * 4) (be_word (Z.lor (u32 (Z.shiftl high 3)) (Z.shiftr low 29))) ctx;
  ctx ← sha256_process_block (sha_buffer ctx) (bytes + pad + 8) ctx;
  Some (digest (sha_H ctx)).

(** [shr_sha256] of the bytes at [addr]; [buffer] is what the memory of a
    context holds before it is written. *)
Definition shr_sha256 (buffer : list Z) (addr : Z) (data : list Z) : option (list Z) :=
  ctx ← shr_sha256_update addr data (shr_sha256_init buffer);
  shr_sha256_final ctx.

(** ** HMAC *)

Definition HMAC_BLOCK_SIZE : nat := 64.
Definition INNER_PADDING_BYTE : Z := 0x36.
Definition OUTER_PADDING_BYTE : Z := 0x5c.

Definition xor_byte (p : Z) (bs : list Z) : list Z := Z.lxor p <$> bs.

(** [shr_hmac_sha256_raw]; the arguments that are addresses are those of the
    key, the data, the two paddings and the result.  A key of no bytes fails
    the assertion. *)
Definition shr_hmac_sha256_raw (buffer : list Z) (a_key a_data a_inner a_outer a_out : Z)
    (key data : list Z) : option (list Z) :=
  if (length key =? 0)%nat then None
  else
    key ← (if (HMAC_BLOCK_SIZE <? length key)%nat then shr_sha256 buffer a_key key else Some key);
    let padding := buf_write (replicate HMAC_BLOCK_SIZE 0) 0 key in
    ctx ← shr_sha256_update a_inner (xor_byte INNER_PADDING_BYTE padding) (shr_sha256_init buffer);
    ctx ← shr_sha256_update a_data data ctx;
    out ← shr_sha256_final ctx;
    ctx ← shr_sha256_update a_outer (xor_byte OUTER_PADDING_BYTE padding) (shr_sha256_init buffer);
    ctx ← shr_sha256_update a_out out ctx;
    shr_sha256_final ctx.

(** ** The standard *)

Module Fips180.
Definition ROTR (n x : Z) : Z := x / 2 ^ n + x mod 2 ^ n * 2 ^ (32 - n).
Definition SHR (n x : Z) : Z := x / 2 ^ n.
Definition Not (x : Z) : Z := 2 ^ 32 - 1 - x.
Definition xor3 (x y z : Z) : Z := Z.lxor (Z.lxor x y) z.

Definition choose (x y z : Z) : Z := Z.lxor (Z.land x y) (Z.land (Not x) z).
Definition majority (x y z : Z) : Z := xor3 (Z.land x y) (Z.land x z) (Z.land y z).
Definition Sigma0 (x : Z) : Z := xor3 (ROTR 2 x) (ROTR 13 x) (ROTR 22 x).
Definition Sigma1 (x : Z) : Z := xor3 (ROTR 6 x) (ROTR 11 x) (ROTR 25 x).
Definition sigma0 (x : Z) : Z := xor3 (ROTR 7 x) (ROTR 18 x) (SHR 3 x).
Definition sigma1 (x : Z) : Z := xor3 (ROTR 17 x) (ROTR 19 x) (SHR 10 x).

(** The word of the schedule that follows [W]. *)
Definition next_word (W : list Z) : Z :=
  let w n := W !!! (length W - n)%nat in
  (sigma1 (w 2%nat) + w 7%nat + sigma0 (w 15%nat) + w 16%nat) mod 2 ^ 32.

Definition round (r : regs) (t : Z * Z) : regs :=
  let T1 := rh r + Sigma1 (re r) + choose (re r) (rf r) (rg r) + t.1 + t.2 in
  let T2 := Sigma0 (ra r) + majority (ra r) (rb r) (rc r) in
  Regs ((T1 + T2) mod 2 ^ 32) (ra r) (rb r) (rc r) ((rd r + T1) mod 2 ^ 32) (re r) (rf r) (rg r).

Definition compress (r : regs) (block : list Z) : regs :=
  let W := Nat.iter 48 (λ W, W ++ [next_word W]) (be_words block) in
  add_regs (foldl round r (zip K W)) r.

Definition blocks (M : list Z) : list (list Z) :=
  (λ i, take 64 (drop (64 * i) M)) <$> seq 0 (length M / 64).

(** The message, a 1, zeros up to 8 bytes before the end of a block and the
    number of bits of the message. *)
Definition pad (M : list Z) : list Z :=
  let len := Z.of_nat (length M) in
  M ++ 0x80 :: replicate (Z.to_nat ((55 - len) mod 64)) 0 ++ rev (to_le 8 (8 * len)).

Definition H0 : regs :=
  Regs 0x6a09e667 0xbb67ae85 0x3c6ef372 0xa54ff53a 0x510e527f 0x9b05688c 0x1f83d9ab 0x5be0cd19.

Definition hash (M : list Z) : list Z := digest (foldl compress H0 (blocks (pad M))).

(** HMAC of FIPS 198. *)
Definition hmac (key text : list Z) : list Z :=
  let k := if (64 <? length key)%nat then hash key else key in
  let k := k ++ replicate (64 - length k) 0 in
  hash (xor_byte 0x5c k ++ hash (xor_byte 0x36 k ++ text)).
End Fips180.
