(* ===== verification/Sha256Spec.v ===== *)
(** * The hash of [shared/sha256-util.c] is the one of the standard

    Whatever the pieces a message comes in and the addresses they are at, the
    buffer is never overrun and the result is the hash of the whole message. *)

From Stdlib Require Import String Znumtheory.
From stdpp Require Import base list numbers.
From S2P Require Import Prelude.
From S2P Require Import CStr.
From S2P Require Import Crc32.
From S2P Require Import Sha256.

(** ** The functions on words *)

Lemma u32_word x : word32 (u32 x).
Proof. unfold word32, u32. apply Z.mod_pos_bound. lia. Qed.

Lemma CYCLIC_ROTR w s : word32 w → 0 ≤ s ≤ 32 → CYCLIC w s = Fips180.ROTR s w.
Proof.
  intros Hw Hs. unfold CYCLIC, Fips180.ROTR, u32.
  assert (Hu : Z.shiftl w (32 - s) mod 2 ^ 32 = w mod 2 ^ s * 2 ^ (32 - s)).
  { rewrite Z.shiftl_mul_pow2 by lia. replace (2 ^ 32) with (2 ^ s * 2 ^ (32 - s))
      by (rewrite <- Z.pow_add_r by lia; f_equal; lia).
    apply Z.mul_mod_distr_r; apply Z.pow_nonzero; lia. }
  rewrite Hu.
  assert (Hd : Z.land (Z.shiftr w s) (w mod 2 ^ s * 2 ^ (32 - s)) = 0).
  { apply Z.bits_inj'. intros i Hi. rewrite Z.land_spec, Z.bits_0, Z.shiftr_spec by lia.
    rewrite <- Z.shiftl_mul_pow2, Z.shiftl_spec by lia.
    destruct (decide (i < 32 - s)); [by rewrite (Z.testbit_neg_r _ (i - (32 - s))), andb_false_r by lia|].
    apply word32_bits in Hw as [_ Hw]. by rewrite Hw by lia. }
  rewrite <- Z.lxor_lor, <- Z.add_nocarry_lxor, Z.shiftr_div_pow2 by (done || lia). done.
Qed.

Lemma u32_not x : word32 x → u32 (Z.lnot x) = Fips180.Not x.
Proof.
  intros Hx. unfold u32, Fips180.Not, Z.lnot, word32 in *. symmetry.
  apply (Z.mod_unique _ _ (-1)); lia.
Qed.

Ltac rotations := intros; rewrite ?Z.shiftr_div_pow2, !CYCLIC_ROTR by (done || lia); reflexivity.

Lemma S0_Sigma0 x : word32 x → S0 x = Fips180.Sigma0 x.
Proof. unfold S0. rotations. Qed.
Lemma S1_Sigma1 x : word32 x → S1 x = Fips180.Sigma1 x.
Proof. unfold S1. rotations. Qed.
Lemma R0_sigma0 x : word32 x → R0 x = Fips180.sigma0 x.
Proof. unfold R0. rotations. Qed.
Lemma R1_sigma1 x : word32 x → R1 x = Fips180.sigma1 x.
Proof. unfold R1. rotations. Qed.
Lemma Ch_choose x y z : word32 x → Ch x y z = Fips180.choose x y z.
Proof. intros Hx. unfold Ch. by rewrite u32_not. Qed.

(** ** Blocks *)

Definition regs_ok (r : regs) : Prop :=
  Forall word32 [ra r; rb r; rc r; rd r; re r; rf r; rg r; rh r].

Lemma regs_ok_inv r : regs_ok r →
  word32 (ra r) ∧ word32 (rb r) ∧ word32 (rc r) ∧ word32 (rd r) ∧
  word32 (re r) ∧ word32 (rf r) ∧ word32 (rg r) ∧ word32 (rh r).
Proof. unfold regs_ok. rewrite !list.Forall_cons. tauto. Qed.

Lemma sha_step_round r t : regs_ok r → sha_step r t = Fips180.round r t ∧ regs_ok (sha_step r t).
Proof.
  intros (Ha & Hb & Hc & Hd & He & Hf & Hg & Hh)%regs_ok_inv. destruct t as [k w]. unfold sha_step. split.
  - unfold Fips180.round. cbn [fst snd].
    rewrite S0_Sigma0, S1_Sigma1, Ch_choose by done. change Maj with Fips180.majority.
    unfold u32. f_equal; [|by rewrite Zplus_mod_idemp_r].
    by rewrite Zplus_mod_idemp_l, Zplus_mod_idemp_r.
  - unfold regs_ok. cbn. auto 12 using list.Forall_cons_2, u32_word.
Qed.

Lemma rounds_ok ts r :
  regs_ok r → foldl sha_step r ts = foldl Fips180.round r ts ∧ regs_ok (foldl sha_step r ts).
Proof.
  revert r. induction ts as [|t ts IH]; intros r Hr; cbn [foldl]; [done|].
  destruct (sha_step_round r t Hr) as [<- Hok]. by apply IH.
Qed.

Lemma total_word W i : Forall word32 W → word32 (W !!! i).
Proof.
  intros HW. rewrite list_lookup_total_alt. destruct (W !! i) eqn:E; cbn.
  - by eapply list.Forall_lookup_1.
  - by unfold word32.
Qed.

Lemma schedule_iter n W :
  Forall word32 W → schedule n W = Nat.iter n (λ W, W ++ [Fips180.next_word W]) W.
Proof.
  revert W. induction n as [|n IH]; intros W HW; [done|]. rewrite Nat.iter_succ_r. cbn [schedule].
  rewrite <- IH.
  - unfold Fips180.next_word. by rewrite R1_sigma1, R0_sigma0 by (by apply total_word).
  - apply list.Forall_app. split; [done|]. apply list.Forall_singleton. apply Z.mod_pos_bound. lia.
Qed.

Lemma be_words_word bs : bytes bs → Forall word32 (be_words bs).
Proof.
  induction bs as [bs IH] using (induction_ltof1 _ length). unfold ltof in IH.
  destruct bs as [|a [|b [|c [|d bs]]]]; try (constructor; fail).
  unfold bytes, is_byte. rewrite !list.Forall_cons. intros (Ha & Hb & Hc & Hd & Hbs). constructor.
  - cbn. unfold word32. lia.
  - apply IH; [cbn; lia|done].
Qed.

Lemma process_one_ok r b : regs_ok r → bytes b →
  process_one r b = Fips180.compress r b ∧ regs_ok (process_one r b).
Proof.
  intros Hr Hb. unfold process_one, Fips180.compress. rewrite schedule_iter by (by apply be_words_word).
  destruct (rounds_ok (zip K (Nat.iter 48 (λ W, W ++ [Fips180.next_word W]) (be_words b))) r Hr) as [<- _].
  split; [done|]. unfold regs_ok, add_regs. cbn [ra rb rc rd re rf rg rh].
  repeat (apply list.Forall_cons_2; [apply u32_word|]). constructor.
Qed.

(** ** Hashing of whole blocks *)

Definition hash_from (r : regs) (bs : list Z) : regs := foldl process_one r (Fips180.blocks bs).

Lemma hash_nil r : hash_from r [] = r.
Proof. done. Qed.

Lemma hash_cons r b bs : length b = 64%nat → hash_from r (b ++ bs) = hash_from (process_one r b) bs.
Proof.
  intros Hb. unfold hash_from, Fips180.blocks. rewrite length_app, Hb.
  replace ((64 + length bs) / 64)%nat with (S (length bs / 64))
    by (change (64 + length bs)%nat with (1 * 64 + length bs)%nat; rewrite Nat.div_add_l by lia; lia).
  cbn [seq fmap list_fmap foldl]. rewrite Nat.mul_0_r, drop_0, take_app_length' by done. f_equal.
  rewrite <- fmap_S_seq, <- list_fmap_compose. apply list_fmap_ext. intros i x _. cbn [compose].
  replace (64 * S x)%nat with (length b + 64 * x)%nat by lia. by rewrite drop_app_add.
Qed.

(** Induction on the blocks of a text. *)
Lemma blocks_ind (P : list Z → Prop) :
  P [] → (∀ b bs, length b = 64%nat → P bs → P (b ++ bs)) → ∀ n bs, length bs = (64 * n)%nat → P bs.
Proof.
  intros Hnil Hcons. induction n as [|n IH]; intros bs Hl; [by destruct bs|].
  rewrite <- (take_drop 64 bs). apply Hcons; [|apply IH]; rewrite ?length_take, ?length_drop; lia.
Qed.

Lemma hash_app r n a b : length a = (64 * n)%nat → hash_from r (a ++ b) = hash_from (hash_from r a) b.
Proof.
  intros Ha. revert r. revert n a Ha. apply (blocks_ind (λ a, ∀ r, hash_from r (a ++ b) = hash_from (hash_from r a) b)).
  - intros r. done.
  - intros c bs Hc IH r. rewrite <- app_assoc, hash_cons, (hash_cons r c bs) by done. apply IH.
Qed.

Lemma hash_compress r bs : regs_ok r → bytes bs →
  hash_from r bs = foldl Fips180.compress r (Fips180.blocks bs).
Proof.
  intros Hr Hb. unfold hash_from.
  assert (Hbl : Forall bytes (Fips180.blocks bs)).
  { apply list.Forall_fmap, list.Forall_forall. intros i _. cbn. by apply list.Forall_take, list.Forall_drop. }
  revert r Hr. induction Hbl as [|b bl Hb' _ IH]; intros r Hr; [done|]. cbn [foldl].
  destruct (process_one_ok r b Hr Hb') as [<- Hok]. by apply IH.
Qed.

Lemma process_loop_ok n bs : length bs = (64 * n)%nat → Z.of_nat (length bs) < 2 ^ 64 →
  ∀ fuel rest r, (n ≤ fuel)%nat →
  process_loop fuel (bs ++ rest) (16 * Z.of_nat n) r = Some (hash_from r bs).
Proof.
  revert bs. induction n as [|n IH]; intros bs Hl Hlt fuel rest r Hf.
  { destruct bs; [|done]. by destruct fuel. }
  destruct fuel as [|fuel]; [lia|]. cbn [process_loop].
  replace (16 * Z.of_nat (S n) =? 0) with false by (symmetry; apply Z.eqb_neq; lia).
  rewrite length_app. replace (_ <? 64)%nat with false by (symmetry; apply Nat.ltb_ge; lia).
  rewrite take_app_le, drop_app_le by lia.
  replace (u64 (16 * Z.of_nat (S n) - 16)) with (16 * Z.of_nat n)
    by (unfold u64; rewrite Z.mod_small by lia; lia).
  rewrite IH; [|rewrite length_drop; lia..|lia].
  rewrite <- (take_drop 64 bs) at 3. rewrite hash_cons; [done|]. rewrite length_take. lia.
Qed.

(** A call of the block function on the first bytes of a buffer. *)
Lemma process_block_ok buf n c : (64 * n ≤ length buf)%nat → Z.of_nat (64 * n) < 2 ^ 64 →
  sha256_process_block buf (64 * n) c =
  Some (Sha (hash_from (sha_H c) (take (64 * n) buf)) (u64 (sha_total64 c + Z.of_nat (64 * n)))
            (sha_buflen c) (sha_buffer c)).
Proof.
  intros Hl Hlt. unfold sha256_process_block.
  replace (Z.of_nat (64 * n) / 4) with (16 * Z.of_nat n)
    by (rewrite Nat2Z.inj_mul; apply Z.div_unique_exact; lia).
  rewrite <- (take_drop (64 * n) buf) at 2.
  rewrite process_loop_ok; [done|..]; rewrite ?length_take; lia.
Qed.

(** ** Pieces of a message *)

(** The blocks of [done] are in the hash. *)
Record summed (c : shr_sha256_ctx) (done : list Z) : Prop := {
  su_blocks : ∃ n, length done = (64 * n)%nat;
  su_size : length (sha_buffer c) = 128%nat;
  su_total : sha_total64 c = u64 (Z.of_nat (length done));
  su_H : sha_H c = hash_from Fips180.H0 done }.

(** And [tail] is in the buffer. *)
Record holds (c : shr_sha256_ctx) (done tail : list Z) : Prop := {
  ho_sum : summed c done;
  ho_len : sha_buflen c = length tail;
  ho_le : (length tail ≤ 64)%nat;
  ho_buf : take (length tail) (sha_buffer c) = tail }.

Lemma summed_set c done n : summed c done → summed (set_buflen n c) done.
Proof. by intros []. Qed.

Lemma summed_put c done off d : summed c done → (off + length d ≤ 128)%nat →
  ∃ c', sha_put off d c = Some c' ∧ summed c' done ∧ sha_buflen c' = sha_buflen c ∧
        sha_buffer c' = buf_write (sha_buffer c) off d.
Proof.
  intros [Hb Hs Ht HH] Hl. unfold sha_put.
  replace (_ <=? _)%nat with true by (symmetry; apply Nat.leb_le; lia). eexists. split; [done|].
  split; [|done]. split; cbn; try done. rewrite buf_write_length; lia.
Qed.

Lemma u64_add a b : u64 (u64 a + b) = u64 (a + b).
Proof. unfold u64. by rewrite Zplus_mod_idemp_l. Qed.

Lemma summed_block c done buf n : summed c done → (64 * n ≤ length buf)%nat → Z.of_nat (64 * n) < 2 ^ 64 →
  ∃ c', sha256_process_block buf (64 * n) c = Some c' ∧ summed c' (done ++ take (64 * n) buf) ∧
        sha_buflen c' = sha_buflen c ∧ sha_buffer c' = sha_buffer c.
Proof.
  intros [[m Hm] Hs Ht HH] Hl Hlt. rewrite process_block_ok by done. eexists. split; [done|].
  split; [|done]. split; cbn [sha_H sha_total64 sha_buffer].
  - exists (m + n)%nat. rewrite length_app, length_take. lia.
  - done.
  - rewrite Ht, u64_add. f_equal. rewrite length_app, length_take. lia.
  - by rewrite HH, (hash_app _ m).
Qed.

Lemma take_buf_write b off d :
  (off ≤ length b)%nat → take (off + length d) (buf_write b off d) = take off b ++ d.
Proof.
  intros Ho. unfold buf_write. rewrite app_assoc. apply take_app_length'.
  rewrite length_app, length_take. lia.
Qed.

Lemma round64_div n : round64 n = (64 * (n / 64))%nat.
Proof. unfold round64. pose proof (Nat.div_mod_eq n 64). lia. Qed.

(** The first [n] blocks of the buffer are hashed and the rest moves to its
    front. *)
Lemma shift_blocks c done L n :
  summed c done → (64 * n ≤ length L)%nat → (length L ≤ 128)%nat → (length L - 64 * n ≤ 64)%nat →
  take (length L) (sha_buffer c) = L →
  ∃ c1 c2, sha256_process_block (sha_buffer c) (64 * n) c = Some c1 ∧
    sha_buflen c1 = sha_buflen c ∧ sha_buffer c1 = sha_buffer c ∧
    sha_put 0 (take (length L - 64 * n) (drop (64 * n) (sha_buffer c1)))
      (set_buflen (length L - 64 * n) c1) = Some c2 ∧
    holds c2 (done ++ take (64 * n) L) (drop (64 * n) L).
Proof.
  intros Hsum Hn Hl Hr HL. pose proof (su_size _ _ Hsum) as Hs.
  destruct (summed_block c done (sha_buffer c) n Hsum) as (c1 & Hp & Hsum1 & Hlen & Hbuf); [lia..|].
  assert (Ht : take (64 * n) (sha_buffer c) = take (64 * n) L).
  { rewrite <- HL, take_take. f_equal. lia. }
  assert (Hd : take (length L - 64 * n) (drop (64 * n) (sha_buffer c)) = drop (64 * n) L).
  { rewrite <- HL at 2. rewrite skipn_firstn_comm. done. }
  rewrite Ht in Hsum1. exists c1.
  destruct (summed_put (set_buflen (length L - 64 * n) c1) (done ++ take (64 * n) L) 0 (drop (64 * n) L))
    as (c2 & Hput & Hsum2 & Hlen2 & Hbuf2).
  { by apply summed_set. }
  { rewrite length_drop. lia. }
  exists c2. rewrite Hbuf, Hd. do 4 (split; [done|]). split; [done|..]; rewrite ?length_drop.
  - by rewrite Hlen2.
  - done.
  - rewrite Hbuf2, <- length_drop. apply (take_buf_write _ 0). lia.
Qed.

Lemma put_set off d n c : sha_put off d (set_buflen n c) = set_buflen n <$> sha_put off d c.
Proof. unfold sha_put. cbn. by destruct (_ <=? _)%nat. Qed.

Lemma fill_ok c done tail data :
  holds c done tail →
  ∃ add c' done' tail', fill_buffer data c = Some (add, c') ∧ holds c' done' tail' ∧
    done' ++ tail' = (done ++ tail) ++ take add data ∧ (drop add data = [] ∨ tail' = []).
Proof.
  intros [Hsum Hlen Hle Hbuf]. unfold fill_buffer. rewrite Hlen.
  set (add := if (_ <? _)%nat then _ else _).
  assert (Hadd : (add ≤ length data)%nat ∧ (length tail + add ≤ 128)%nat ∧
                 (drop add data = [] ∨ length tail + add = 128)%nat).
  { subst add. destruct (Nat.ltb_spec (length data) (128 - length tail)).
    - split_and!; [lia..|]. left. by rewrite drop_all.
    - split_and!; [lia..|]. right. lia. }
  destruct Hadd as (Ha & Hb & Hc). clearbody add.
  assert (Hta : length (take add data) = add) by (rewrite length_take; lia).
  destruct (summed_put c done (length tail) (take add data) Hsum) as (c1 & -> & Hsum1 & Hlen1 & Hbuf1); [lia|].
  cbn [mbind option_bind]. set (L := tail ++ take add data).
  assert (HL : length L = (length tail + add)%nat) by (subst L; rewrite length_app; lia).
  assert (HbufL : take (length L) (sha_buffer c1) = L).
  { rewrite HL, Hbuf1. rewrite <- Hta at 1. rewrite take_buf_write by (rewrite (su_size _ _ Hsum); lia).
    by rewrite Hbuf. }
  cbn [sha_buflen set_buflen sha_buffer]. rewrite <- HL.
  destruct (Nat.ltb_spec 64 (length L)) as [Hgt|Hgt].
  - rewrite !round64_div. pose proof (Nat.div_mod_eq (length L) 64) as Hdm.
    pose proof (Nat.mod_upper_bound (length L) 64 ltac:(lia)) as Hmod.
    destruct (shift_blocks (set_buflen (length L) c1) done L (length L / 64))
      as (c2 & c3 & Hp & Hl2 & _ & Hput & Hh); [by apply summed_set|lia..|done|].
    change (sha_buffer c1) with (sha_buffer (set_buflen (length L) c1)). rewrite Hp. cbn [mbind option_bind].
    rewrite Hl2. cbn [sha_buflen set_buflen].
    replace (length L - 64 * (length L / 64))%nat with (length L mod 64)%nat in * by lia.
    rewrite Hput. cbn [mbind option_bind].
    eexists add, c3, _, _. split; [done|]. split; [exact Hh|]. split.
    + rewrite <- !app_assoc. by rewrite take_drop.
    + destruct Hc as [?|Hc]; [by left|right]. apply nil_length_inv. rewrite length_drop, HL, Hc. done.
  - exists add, (set_buflen (length L) c1), done, L. split; [done|]. split.
    + split; [by apply summed_set|done|lia|done].
    + split; [by rewrite <- app_assoc|]. left. destruct Hc as [?|?]; [done|lia].
Qed.

Lemma copy_blocks_ok fuel data c done :
  holds c done [] → (length data ≤ fuel)%nat →
  ∃ pre rest c', copy_blocks fuel data c = Some (rest, c') ∧ data = pre ++ rest ∧
    (length rest ≤ 64)%nat ∧ holds c' (done ++ pre) [].
Proof.
  revert data c done. induction fuel as [|fuel IH]; intros data c done Hh Hf; cbn [copy_blocks].
  { destruct data; [|cbn in Hf; lia]. exists [], [], c. rewrite (app_nil_r done). split_and!; [done..|cbn; lia|done]. }
  destruct (Nat.ltb_spec 64 (length data)) as [Hgt|Hgt].
  2:{ exists [], data, c. rewrite (app_nil_r done). split_and!; [done..|lia|done]. }
  destruct Hh as [Hsum Hlen _ _]. assert (Ht : length (take 64 data) = 64%nat) by (rewrite length_take; lia).
  destruct (summed_put c done 0 (take 64 data) Hsum) as (c1 & -> & Hsum1 & Hlen1 & Hbuf1); [lia|].
  cbn [mbind option_bind]. pose proof (su_size _ _ Hsum1) as Hs1.
  destruct (summed_block c1 done (sha_buffer c1) 1 Hsum1) as (c2 & Hp & Hsum2 & Hlen2 & Hbuf2); [lia..|].
  change (64 * 1)%nat with 64%nat in *. rewrite Hp. cbn [mbind option_bind].
  assert (Hb : take 64 (sha_buffer c1) = take 64 data).
  { rewrite Hbuf1. rewrite <- Ht at 1. apply (take_buf_write _ 0). lia. }
  rewrite Hb in Hsum2.
  destruct (IH (drop 64 data) c2 (done ++ take 64 data)) as (pre & rest & c' & -> & Hd & Hr & Hh).
  { split; [done|congruence|cbn; lia|done]. }
  { rewrite length_drop. lia. }
  exists (take 64 data ++ pre), rest, c'. split; [done|]. split; [|by rewrite app_assoc].
  rewrite <- app_assoc, <- Hd. by rewrite take_drop.
Qed.

Lemma whole_ok addr data c done tail :
  holds c done tail → (data = [] ∨ tail = []) → Z.of_nat (length data) < 2 ^ 64 →
  ∃ pre rest c', whole_blocks addr data c = Some (rest, c') ∧ data = pre ++ rest ∧
    (length rest ≤ 64)%nat ∧ (rest = [] ∨ tail = []) ∧ (pre = [] ∨ tail = []) ∧ holds c' (done ++ pre) tail.
Proof.
  intros Hh Hor Hlt. unfold whole_blocks. destruct (Nat.leb_spec 64 (length data)) as [Hge|Hge].
  2:{ exists [], data, c. rewrite (app_nil_r done). split_and!; try done; [lia|by left]. }
  destruct Hor as [-> | ->]; [cbn in Hge; lia|]. destruct (addr mod 4 =? 0).
  - rewrite round64_div. destruct Hh as [Hsum Hlen _ _]. pose proof (Nat.div_mod_eq (length data) 64) as Hdm.
    pose proof (Nat.mod_upper_bound (length data) 64 ltac:(lia)) as Hmod.
    destruct (summed_block c done data (length data / 64) Hsum) as (c1 & -> & Hsum1 & Hlen1 & Hbuf1); [lia..|].
    eexists _, _, c1. split; [done|]. split; [by rewrite take_drop|]. rewrite length_drop.
    split; [lia|]. split; [by right|]. split; [by right|]. split; [done|congruence|cbn; lia|done].
  - destruct (copy_blocks_ok (length data) data c done Hh) as (pre & rest & c' & Hc & Hd & Hr & Hh'); [lia|].
    exists pre, rest, c'. split_and!; auto.
Qed.

Lemma rest_ok data c done tail :
  holds c done tail → (data = [] ∨ tail = []) → (length data ≤ 64)%nat →
  ∃ c' done' tail', keep_rest data c = Some c' ∧ holds c' done' tail' ∧
    done' ++ tail' = (done ++ tail) ++ data.
Proof.
  intros Hh Hor Hl. unfold keep_rest. destruct (Nat.ltb_spec 0 (length data)) as [Hgt|Hgt].
  2:{ destruct data; [|cbn in Hgt; lia]. exists c, done, tail. by rewrite app_nil_r. }
  destruct Hor as [-> | ->]; [cbn in Hgt; lia|]. destruct Hh as [Hsum Hlen _ _]. rewrite Hlen. cbn [length Nat.add].
  destruct (summed_put c done 0 data Hsum) as (c1 & -> & Hsum1 & Hlen1 & Hbuf1); [lia|]. cbn [mbind option_bind].
  assert (Hb : take (length data) (sha_buffer c1) = data).
  { rewrite Hbuf1. apply (take_buf_write _ 0). lia. }
  rewrite app_nil_r. destruct (Nat.leb_spec 64 (length data)) as [Hge|Hge].
  - destruct (shift_blocks c1 done data 1) as (c2 & c3 & Hp & _ & _ & Hput & Hh); [done|lia..|done|].
    change (64 * 1)%nat with 64%nat in *. rewrite Hp. cbn [mbind option_bind]. rewrite put_set in Hput.
    destruct (sha_put 0 _ c2) as [c4|]; [|done]. injection Hput as <-.
    eexists _, _, _. split; [done|]. split; [exact Hh|]. rewrite <- app_assoc. by rewrite take_drop.
  - exists (set_buflen (length data) c1), done, data. split; [done|]. split; [|done].
    split; [by apply summed_set|done|lia|done].
Qed.

(** One piece. *)
Lemma update_ok addr data c done tail :
  holds c done tail → Z.of_nat (length data) < 2 ^ 64 →
  ∃ c' done' tail', shr_sha256_update addr data c = Some c' ∧ holds c' done' tail' ∧
    done' ++ tail' = (done ++ tail) ++ data.
Proof.
  intros Hh Hlt. unfold shr_sha256_update. rewrite (ho_len _ _ _ Hh).
  assert (Hfill : ∃ add c1 done1 tail1,
    (if (length tail =? 0)%nat then Some (0%nat, c) else fill_buffer data c) = Some (add, c1) ∧
    holds c1 done1 tail1 ∧ done1 ++ tail1 = (done ++ tail) ++ take add data ∧ (drop add data = [] ∨ tail1 = [])).
  { destruct tail as [|x tail]; [|by apply fill_ok].
    exists 0%nat, c, done, []. rewrite take_0, !app_nil_r. auto. }
  destruct Hfill as (add & c1 & done1 & tail1 & -> & Hh1 & Heq & Hor). cbn [mbind option_bind].
  destruct (whole_ok (addr + Z.of_nat add) (drop add data) c1 done1 tail1 Hh1 Hor)
    as (pre & rest & c2 & -> & Hd & Hr & Hor2 & Hor3 & Hh2); [rewrite length_drop; lia|]. cbn [mbind option_bind].
  destruct (rest_ok rest c2 (done1 ++ pre) tail1 Hh2 Hor2 Hr) as (c3 & done3 & tail3 & -> & Hh3 & Heq3).
  exists c3, done3, tail3. split; [done|]. split; [done|]. rewrite Heq3.
  transitivity ((done1 ++ tail1) ++ pre ++ rest).
  - destruct Hor3 as [-> | ->]; rewrite ?app_nil_r, <- ?app_assoc; done.
  - rewrite Heq, <- Hd, <- (app_assoc (done ++ tail)). by rewrite take_drop.
Qed.

(** ** The end of a message *)

Lemma buf_write_seq b o x y :
  (o + length x ≤ length b)%nat → buf_write (buf_write b o x) (o + length x) y = buf_write b o (x ++ y).
Proof.
  intros Hl. unfold buf_write at 1. rewrite take_buf_write by lia. unfold buf_write.
  rewrite length_app, Nat.add_assoc, <- !app_assoc. do 3 f_equal.
  rewrite app_assoc, drop_app_ge by (rewrite length_app, length_take; lia).
  rewrite length_app, length_take, drop_drop. f_equal. lia.
Qed.

Lemma buf_write_pair b o x y :
  (o + length x ≤ length b)%nat → buf_write (buf_write b (o + length x) y) o x = buf_write b o (x ++ y).
Proof.
  intros Hl. unfold buf_write at 1 3. rewrite <- app_assoc. f_equal.
  { unfold buf_write. rewrite take_app_le by (rewrite length_take; lia). rewrite take_take. f_equal. lia. }
  f_equal. unfold buf_write. rewrite drop_app_length' by (rewrite length_take; lia).
  f_equal. f_equal. rewrite length_app. lia.
Qed.

Lemma to_le_mod n v : to_le n (v mod 2 ^ (8 * Z.of_nat n)) = to_le n v.
Proof.
  revert v. induction n as [|n IH]; intros v; [done|]. cbn [to_le].
  replace (8 * Z.of_nat (S n)) with (8 + 8 * Z.of_nat n) by lia. rewrite Z.pow_add_r by lia.
  rewrite Z.rem_mul_r by (try apply Z.pow_nonzero; lia). change (2 ^ 8) with 256. f_equal.
  - rewrite Z.mul_comm, Z_mod_plus_full. apply Z.mod_mod. lia.
  - rewrite Z.mul_comm, Z.div_add by lia. rewrite (Z.div_small (v mod 256)) by (apply Z.mod_pos_bound; lia). apply IH.
Qed.

Lemma to_le_split v : to_le 8 v = to_le 4 v ++ to_le 4 (v / 2 ^ 32).
Proof.
  cbn [to_le app]. change (2 ^ 32) with (256 * (256 * (256 * 256))). rewrite <- !Z.div_div by lia. done.
Qed.

(** The length of a message in bits, as two words. *)
Lemma bit_length_words len (T := u64 len) :
  be_word (Z.lor (u32 (Z.shiftl (T / 2 ^ 32) 3)) (Z.shiftr (u32 T) 29)) ++ be_word (u32 (Z.shiftl (u32 T) 3)) =
  rev (to_le 8 (8 * len)).
Proof.
  rewrite to_le_split, rev_app_distr. unfold be_word, u32. rewrite !Z.shiftl_mul_pow2, Z.shiftr_div_pow2 by lia.
  set (q := len / 2 ^ 64). set (h := T / 2 ^ 32). set (l := T mod 2 ^ 32). set (a := l / 2 ^ 29). set (b := l mod 2 ^ 29).
  assert (HT : len = 2 ^ 64 * q + T) by (apply Z.div_mod; lia).
  assert (Hh : T = 2 ^ 32 * h + l) by (apply Z.div_mod; lia).
  assert (Hl : l = 2 ^ 29 * a + b) by (apply Z.div_mod; lia).
  assert (Hb : 0 ≤ b < 2 ^ 29) by (apply Z.mod_pos_bound; lia).
  assert (Hl' : 0 ≤ l < 2 ^ 32) by (apply Z.mod_pos_bound; lia).
  clearbody q h l a b. clearbody T. f_equal; f_equal.
  - assert (Hd : Z.lor (h * 2 ^ 3 mod 2 ^ 32) a = (8 * len / 2 ^ 32) mod 2 ^ 32).
    { assert (Hm : h * 2 ^ 3 mod 2 ^ 32 = h mod 2 ^ 29 * 2 ^ 3).
      { change (2 ^ 32) with (2 ^ 29 * 2 ^ 3). apply Z.mul_mod_distr_r; lia. }
      rewrite Hm. assert (Ha : 0 ≤ a < 2 ^ 3) by lia.
      rewrite <- Z.shiftl_mul_pow2 by lia.
      assert (Hland : Z.land (Z.shiftl (h mod 2 ^ 29) 3) a = 0).
      { apply Z.bits_inj'. intros i Hi. rewrite Z.land_spec, Z.bits_0. destruct (decide (i < 3)).
        - by rewrite Z.shiftl_spec_low.
        - rewrite <- (Z.mod_small a (2 ^ 3)) by lia. by rewrite Z.mod_pow2_bits_high, andb_false_r by lia. }
      rewrite <- Z.lxor_lor, <- Z.add_nocarry_lxor, Z.shiftl_mul_pow2 by (done || lia).
      pose proof (Z.mod_pos_bound h (2 ^ 29) ltac:(lia)).
      replace (8 * len / 2 ^ 32) with (2 ^ 35 * q + 8 * h + a) by (apply (Z.div_unique _ _ _ (8 * b)); lia).
      apply (Z.mod_unique _ _ (8 * q + h / 2 ^ 29)); [lia|]. pose proof (Z.div_mod h (2 ^ 29) ltac:(lia)). lia. }
    rewrite Hd. apply (to_le_mod 4).
  - rewrite <- (to_le_mod 4 (8 * len)). f_equal. change (8 * Z.of_nat 4) with 32.
    replace (8 * len) with (l * 2 ^ 3 + (2 ^ 35 * q + 8 * h) * 2 ^ 32) by lia. by rewrite Z_mod_plus_full.
Qed.

(** The three writes of the end are one. *)
Lemma puts_ok {A} o pad P hi lo c (k : shr_sha256_ctx → option A) :
  length P = pad → length hi = 4%nat → length lo = 4%nat → ((o + pad) mod 4 = 0)%nat →
  (o + pad + 8 ≤ length (sha_buffer c))%nat →
  (c ← sha_put o P c; c ← sha_put ((o + pad + 4) / 4 * 4) lo c; c ← sha_put ((o + pad) / 4 * 4) hi c; k c) =
  (c ← sha_put o (P ++ hi ++ lo) c; k c).
Proof.
  intros HP Hhi Hlo H4 Hl.
  replace ((o + pad) / 4 * 4)%nat with (o + pad)%nat by (pose proof (Nat.div_mod_eq (o + pad) 4); lia).
  replace ((o + pad + 4) / 4 * 4)%nat with (o + pad + 4)%nat.
  2:{ pose proof (Nat.div_mod_eq (o + pad) 4). change 4%nat with (1 * 4)%nat at 2.
      rewrite Nat.div_add by lia. lia. }
  unfold sha_put. rewrite !length_app.
  do 2 (replace (_ <=? length (sha_buffer c))%nat with true by (symmetry; apply Nat.leb_le; lia)).
  cbn [mbind option_bind sha_buffer]. rewrite buf_write_length by lia.
  replace (_ <=? _)%nat with true by (symmetry; apply Nat.leb_le; lia).
  cbn [mbind option_bind sha_buffer]. rewrite buf_write_length by (rewrite buf_write_length by lia; lia).
  rewrite buf_write_length by lia. replace (_ <=? _)%nat with true by (symmetry; apply Nat.leb_le; lia).
  cbn [mbind option_bind]. do 2 f_equal. rewrite <- Hhi. rewrite buf_write_pair by (rewrite buf_write_length by lia; lia).
  rewrite <- HP. apply buf_write_seq. lia.
Qed.

(** The padding fills a block, as many zeros as the standard asks for. *)
Lemma pad_fits (done tail : list Z) m
    (pad := if (56 <=? length tail)%nat then (64 + 56 - length tail)%nat else (56 - length tail)%nat) :
  length done = (64 * m)%nat → (length tail ≤ 64)%nat →
  ∃ n, (length tail + pad + 8 = 64 * n)%nat ∧ (n ≤ 2)%nat ∧ (1 ≤ pad ≤ 64)%nat ∧
       Z.of_nat (pad - 1) = (55 - Z.of_nat (length (done ++ tail))) mod 64.
Proof.
  intros Hm Hle. subst pad.
  destruct (Nat.leb_spec 56 (length tail)); rewrite length_app, Hm; [exists 2%nat|exists 1%nat];
    (split_and!; [lia..|]).
  - apply (Z.mod_unique_pos _ _ (- 1 - Z.of_nat m)); lia.
  - apply (Z.mod_unique_pos _ _ (- Z.of_nat m)); lia.
Qed.

Lemma final_ok c done tail :
  holds c done tail →
  shr_sha256_final c = Some (digest (hash_from Fips180.H0 (Fips180.pad (done ++ tail)))).
Proof.
  intros [Hsum Hlen Hle Hbuf]. unfold shr_sha256_final. rewrite Hlen. destruct (su_blocks _ _ Hsum) as [m Hm].
  set (pad := if (_ <=? _)%nat then _ else _). pose proof (pad_fits done tail m Hm Hle) as Hp. fold pad in Hp.
  destruct Hp as (n & Hn & Hn2 & Hpad & Hz). clearbody pad.
  rewrite (su_total _ _ Hsum), u64_add, <- Nat2Z.inj_add, <- length_app.
  pose proof (bit_length_words (Z.of_nat (length (done ++ tail)))) as Hbits. cbv zeta in Hbits.
  set (lo := be_word (u32 (Z.shiftl _ 3))) in *. set (hi := be_word (Z.lor _ _)) in *.
  set (c0 := Sha _ _ _ _). assert (Hs0 : length (sha_buffer c0) = 128%nat) by apply (su_size _ _ Hsum).
  replace (pad <=? 64)%nat with true by (symmetry; apply Nat.leb_le; lia).
  assert (Hfb : length (take pad fillbuf) = pad) by (rewrite length_take; cbn; lia).
  rewrite (puts_ok (length tail) pad) by (done || (rewrite Hs0; lia) ||
    (replace (length tail + pad)%nat with (0 + (16 * n - 2) * 4)%nat by lia; by rewrite Nat.Div0.mod_add)).
  assert (Hend : length (take pad fillbuf ++ hi ++ lo) = (pad + 8)%nat) by (rewrite !length_app, Hfb; done).
  unfold sha_put. rewrite Hend, Hs0. replace (_ <=? 128)%nat with true by (symmetry; apply Nat.leb_le; lia).
  cbn [mbind option_bind sha_buffer c0 sha_H sha_total64 sha_buflen]. rewrite Hn.
  rewrite process_block_ok; [|rewrite buf_write_length; rewrite ?Hend, (su_size _ _ Hsum); lia|lia].
  cbn [mbind option_bind sha_H]. rewrite (su_H _ _ Hsum), <- (hash_app _ m) by done. do 3 f_equal.
  replace (64 * n)%nat with (length tail + length (take pad fillbuf ++ hi ++ lo))%nat by lia.
  rewrite take_buf_write, Hbuf by (rewrite (su_size _ _ Hsum); lia).
  unfold Fips180.pad. rewrite <- Hbits, <- Hz, Nat2Z.id, <- !app_assoc. do 2 f_equal.
  rewrite app_comm_cons. f_equal. unfold fillbuf. destruct pad as [|pad]; [lia|]. cbn [take]. f_equal.
  rewrite take_replicate. f_equal. lia.
Qed.

(** ** Properties *)

Definition piece_ok (p : Z * list Z) : Prop := bytes p.2 ∧ Z.of_nat (length p.2) < 2 ^ 64.

(** The updates with the pieces of a message, each at its address. *)
Definition updates (pieces : list (Z * list Z)) (c : shr_sha256_ctx) : option shr_sha256_ctx :=
  foldl (λ c p, c ← c; shr_sha256_update p.1 p.2 c) (Some c) pieces.

Lemma updates_cons p pieces c :
  updates (p :: pieces) c = (c ← shr_sha256_update p.1 p.2 c; updates pieces c).
Proof.
  unfold updates. cbn [foldl mbind option_bind]. destruct (shr_sha256_update p.1 p.2 c); [done|].
  cbn [mbind option_bind]. by induction pieces.
Qed.

Lemma updates_ok pieces c done tail :
  holds c done tail → Forall piece_ok pieces →
  ∃ c' done' tail', updates pieces c = Some c' ∧ holds c' done' tail' ∧
    done' ++ tail' = (done ++ tail) ++ concat pieces.*2.
Proof.
  intros Hh Hp. revert c done tail Hh. induction Hp as [|p pieces [_ Hp] _ IH]; intros c done tail Hh.
  { exists c, done, tail. by rewrite app_nil_r. }
  rewrite updates_cons. destruct (update_ok p.1 p.2 c done tail Hh Hp) as (c1 & done1 & tail1 & -> & Hh1 & Heq).
  cbn [mbind option_bind]. destruct (IH c1 done1 tail1 Hh1) as (c2 & done2 & tail2 & -> & Hh2 & Heq2).
  exists c2, done2, tail2. split; [done|]. split; [done|]. rewrite Heq2, Heq. cbn. by rewrite <- app_assoc.
Qed.

Lemma init_holds buffer : length buffer = 128%nat → holds (shr_sha256_init buffer) [] [].
Proof. intros Hb. split; [|done|cbn; lia|done]. split; [by exists 0%nat|done..]. Qed.

Lemma H0_ok : regs_ok Fips180.H0.
Proof. unfold regs_ok. repeat (apply list.Forall_cons_2; [unfold word32; cbn; lia|]). constructor. Qed.

Lemma pad_bytes M : bytes M → bytes (Fips180.pad M).
Proof.
  intros HM. unfold Fips180.pad. apply list.Forall_app. split; [done|].
  constructor; [unfold is_byte; lia|]. apply list.Forall_app. split.
  - apply list.Forall_replicate. unfold is_byte. lia.
  - apply Forall_rev, to_le_bytes.
Qed.

Lemma pieces_bytes pieces : Forall piece_ok pieces → bytes (concat pieces.*2).
Proof. induction 1 as [|p pieces [Hp _] _ IH]; [constructor|]. cbn. apply list.Forall_app. done. Qed.

(** The result for what was taken in. *)
Lemma final_hash c done tail :
  holds c done tail → bytes (done ++ tail) → shr_sha256_final c = Some (Fips180.hash (done ++ tail)).
Proof.
  intros Hh Hb. rewrite (final_ok _ _ _ Hh), hash_compress; [done|apply H0_ok|by apply pad_bytes].
Qed.

Lemma one_piece buffer addr data :
  length buffer = 128%nat → bytes data → Z.of_nat (length data) < 2 ^ 64 →
  shr_sha256 buffer addr data = Some (Fips180.hash data).
Proof.
  intros Hb Hd Hl. unfold shr_sha256.
  destruct (update_ok addr data _ _ _ (init_holds _ Hb) Hl) as (c & done & tail & -> & Hh & Heq).
  cbn [mbind option_bind]. cbn in Heq. rewrite <- Heq in *. by apply final_hash.
Qed.

(** C18: The hash of a message does not depend on the pieces it comes in nor on
    the addresses they are at: whatever the updates, no access is outside of
    the buffer and the result is the SHA-256 of the standard of all the bytes. *)
Theorem sha256_pieces buffer pieces :
  length buffer = 128%nat → Forall piece_ok pieces →
  (c ← updates pieces (shr_sha256_init buffer); shr_sha256_final c) = Some (Fips180.hash (concat pieces.*2)).
Proof.
  intros Hb Hp. destruct (updates_ok pieces _ _ _ (init_holds _ Hb) Hp) as (c & done & tail & -> & Hh & Heq).
  cbn [mbind option_bind]. cbn [app] in Heq. rewrite <- Heq. apply final_hash; [done|].
  rewrite Heq. by apply pieces_bytes.
Qed.

Lemma sha256_pieces_witness :
  (c ← updates [(0, lit "a"); (3, replicate 130 98); (4, lit "c")] (shr_sha256_init (replicate 128 255));
   shr_sha256_final c) = Some (Fips180.hash (lit "a" ++ replicate 130 98 ++ lit "c")).
Proof.
  refine (sha256_pieces (replicate 128 255) [(0, lit "a"); (3, replicate 130 98); (4, lit "c")] eq_refl _).
  repeat constructor; unfold is_byte; cbn; lia.
Defined.

Lemma lxor_byte p b : is_byte p → is_byte b → is_byte (Z.lxor p b).
Proof.
  intros Hp Hb. unfold is_byte in *. split; [apply Z.lxor_nonneg; lia|].
  assert (Z.lxor p b = Z.lxor p b mod 2 ^ 8) as ->; [|apply Z.mod_pos_bound; lia].
  apply Z.bits_inj'. intros i Hi. destruct (Z.ltb_spec i 8); [by rewrite Z.mod_pow2_bits_low|].
  rewrite Z.mod_pow2_bits_high, Z.lxor_spec by lia.
  rewrite <- (Z.mod_small p (2 ^ 8)), <- (Z.mod_small b (2 ^ 8)) by (cbn; lia).
  by rewrite !Z.mod_pow2_bits_high by lia.
Qed.

Lemma xor_bytes p bs : is_byte p → bytes bs → bytes (xor_byte p bs).
Proof. intros Hp Hb. apply list.Forall_fmap. eapply list.Forall_impl; [done|]. intros b. by apply lxor_byte. Qed.

Lemma hash_facts M : bytes (Fips180.hash M) ∧ length (Fips180.hash M) = 32%nat.
Proof.
  unfold Fips180.hash. destruct (foldl _ _ _) as [a b c d e f g h]. unfold digest, be_word. split; [|done].
  apply Forall_concat, list.Forall_fmap, list.Forall_forall. intros w _. apply Forall_rev, to_le_bytes.
Qed.

Lemma two_pieces buffer a1 d1 a2 d2 :
  length buffer = 128%nat → piece_ok (a1, d1) → piece_ok (a2, d2) →
  (c ← shr_sha256_update a1 d1 (shr_sha256_init buffer); c ← shr_sha256_update a2 d2 c; shr_sha256_final c) =
  Some (Fips180.hash (d1 ++ d2)).
Proof.
  intros Hb [H1 H1l] [H2 H2l].
  destruct (update_ok a1 d1 _ _ _ (init_holds _ Hb) H1l) as (c1 & done1 & tail1 & -> & Hh1 & Heq1).
  cbn [mbind option_bind]. destruct (update_ok a2 d2 _ _ _ Hh1 H2l) as (c2 & done2 & tail2 & -> & Hh2 & Heq2).
  cbn [mbind option_bind]. rewrite Heq1 in Heq2. cbn [app] in Heq2. rewrite <- Heq2. apply final_hash; [done|].
  rewrite Heq2. by apply list.Forall_app.
Qed.

(** The keyed hash is the HMAC-SHA256 of FIPS 198, for a key of any length but
    none: a longer key is hashed first, a shorter one padded with zeros. *)
Theorem hmac_sha256_spec buffer a_key a_data a_inner a_outer a_out key data :
  length buffer = 128%nat → key ≠ [] → piece_ok (a_key, key) → piece_ok (a_data, data) →
  shr_hmac_sha256_raw buffer a_key a_data a_inner a_outer a_out key data = Some (Fips180.hmac key data).
Proof.
  intros Hb Hne [Hkb Hkl] [Hdb Hdl]. unfold shr_hmac_sha256_raw, Fips180.hmac.
  replace (length key =? 0)%nat with false by (by destruct key).
  set (k := if (_ <? length key)%nat then Fips180.hash key else key).
  assert (Hk : (if (HMAC_BLOCK_SIZE <? length key)%nat then shr_sha256 buffer a_key key else Some key) = Some k
               ∧ bytes k ∧ (length k ≤ 64)%nat).
  { subst k. unfold HMAC_BLOCK_SIZE. destruct (Nat.ltb_spec 64 (length key)); [|done].
    rewrite one_piece by done. destruct (hash_facts key) as [? ->]. split_and!; [done..|lia]. }
  destruct Hk as (-> & Hkb' & Hkl'). clearbody k. cbn [mbind option_bind].
  replace (buf_write _ 0 k) with (k ++ replicate (64 - length k) 0)
    by (unfold buf_write; cbn [take app]; by rewrite drop_replicate).
  assert (Hpad : ∀ p, is_byte p → ∀ a, piece_ok (a, xor_byte p (k ++ replicate (64 - length k) 0))).
  { intros p Hp a. split.
    - apply xor_bytes; [done|]. apply list.Forall_app. split; [done|]. apply list.Forall_replicate. unfold is_byte. lia.
    - cbn [snd]. unfold xor_byte. rewrite length_fmap, length_app, length_replicate. lia. }
  pose proof (two_pieces buffer a_inner _ a_data data Hb (Hpad INNER_PADDING_BYTE ltac:(unfold is_byte, INNER_PADDING_BYTE; lia) a_inner)
                (conj Hdb Hdl)) as Hin.
  destruct (shr_sha256_update a_inner _ _) as [c1|]; [|done]. cbn [mbind option_bind] in *.
  destruct (shr_sha256_update a_data _ _) as [c2|]; [|done]. cbn [mbind option_bind] in *.
  rewrite Hin. cbn [mbind option_bind]. apply two_pieces; [done|..].
  - apply Hpad. unfold is_byte, OUTER_PADDING_BYTE. lia.
  - destruct (hash_facts (xor_byte 0x36 (k ++ replicate (64 - length k) 0) ++ data)) as [Hhb Hhl].
    split; [done|]. cbn [snd]. by rewrite Hhl.
Qed.

(** The key of one byte and the one of 65. *)
Fact hmac_sha256_keys :
  shr_hmac_sha256_raw (replicate 128 0) 0 1 0 0 0 (lit "k") (lit "data") = Some (Fips180.hmac (lit "k") (lit "data")) ∧
  shr_hmac_sha256_raw (replicate 128 0) 2 1 0 0 0 (replicate 65 7) [] = Some (Fips180.hmac (replicate 65 7) []).
Proof.
  split; apply hmac_sha256_spec; try done; (split; [repeat constructor; unfold is_byte; cbn; lia|cbn; lia]).
Qed.

(** ** The constants *)

(** [k] is the first 32 bits of the fractional part of the root of [p]. *)
Definition root_bits (e p k : Z) : Prop :=
  ∃ i, 0 ≤ k < 2 ^ 32 ∧ (i * 2 ^ 32 + k) ^ e ≤ p * 2 ^ (32 * e) < (i * 2 ^ 32 + k + 1) ^ e.

Definition root_bitsb (e p k : Z) : bool :=
  existsb (λ i, (0 <=? k) && (k <? 2 ^ 32) && ((i * 2 ^ 32 + k) ^ e <=? p * 2 ^ (32 * e)) &&
                (p * 2 ^ (32 * e) <? (i * 2 ^ 32 + k + 1) ^ e)) (seqZ 1 20).

Definition has_divisor (p : Z) : bool := existsb (λ d, p mod d =? 0) (seqZ 2 (p - 2)).
Definition primes : list Z := List.filter (λ p, negb (has_divisor p)) (seqZ 2 310).

Lemma primes_spec p : p ∈ primes ↔ Z.prime p ∧ p ≤ 311.
Proof.
  unfold primes. rewrite list_elem_of_In, filter_In, <- list_elem_of_In, elem_of_seqZ, negb_true_iff.
  assert (Hd : 2 ≤ p → has_divisor p = false ↔ Z.prime p).
  { intros Hp. unfold Z.prime, has_divisor. rewrite <- not_true_iff_false, existsb_exists.
    split.
    - intros Hn. split; [lia|]. intros d Hd [q Hq]. apply Hn. exists d. rewrite <- list_elem_of_In, elem_of_seqZ.
      split; [lia|]. apply Z.eqb_eq. rewrite Hq. apply Z_mod_mult.
    - intros [_ Hn] (d & Hin & Hm). apply list_elem_of_In, elem_of_seqZ in Hin. apply Z.eqb_eq in Hm.
      apply (Hn d); [lia|]. apply Z.mod_divide; [lia|done]. }
  split.
  - intros [Hr Hp]. split; [apply Hd; [lia|done]|lia].
  - intros [Hp Hle]. pose proof (Z.prime_ge_2 _ Hp). split; [lia|]. by apply Hd.
Qed.

Lemma root_bitsb_ok e ps ks :
  forallb (λ x, root_bitsb e x.1 x.2) (zip ps ks) = true → length ps = length ks → Forall2 (root_bits e) ps ks.
Proof.
  revert ks. induction ps as [|p ps IH]; intros [|k ks]; try done. cbn [zip zip_with forallb fst snd].
  intros [Hb Hr]%andb_true_iff [= Hl]. constructor; [|by apply IH].
  apply existsb_exists in Hb as (i & _ & Hb). rewrite !andb_true_iff, !Z.leb_le, !Z.ltb_lt in Hb.
  exists i. tauto.
Qed.

(** The constants are those of the standard: the first 32 bits of the
    fractional parts of the cube roots of the first 64 primes, and of the
    square roots of the first 8. *)
Theorem sha256_constants :
  Forall2 (root_bits 3) primes K ∧
  Forall2 (root_bits 2) (take 8 primes)
    (let r := sha_H (shr_sha256_init []) in [ra r; rb r; rc r; rd r; re r; rf r; rg r; rh r]).
Proof. split; apply root_bitsb_ok; vm_compute; reflexivity. Qed.

(** The message "abc" of the standard. *)
Fact sha256_abc :
  shr_sha256 (replicate 128 0) 0 (lit "abc") =
  Some (concat (be_word <$> [0xba7816bf; 0x8f01cfea; 0x414140de; 0x5dae2223;
                             0xb00361a3; 0x96177a9c; 0xb410ff61; 0xf20015ad])).
Proof. vm_compute. reflexivity. Qed.
