(* ===== verification/MachineId.v ===== *)
(** * The machine ID: [shared/machine-id-util-linux.c]

    A UUID that is derived from the machine ID for one application, so that
    the machine ID itself is not given away. *)

From Stdlib Require Import String.
From stdpp Require Import base list numbers.
From S2P Require Import Prelude.
From S2P Require Import CStr.
From S2P Require Import Sha256.
From S2P Require Import Sha256Spec.

Definition MACHINE_ID_LEN_STRING : nat := 32.
Definition ID_LEN : nat := 16.

Definition parse_hex_digit (c : Z) : option Z :=
  if (c_0 <=? c) && (c <=? 57) then Some (c - c_0)
  else if (97 <=? c) && (c <=? 102) then Some (c - 97 + 10)
  else if (65 <=? c) && (c <=? 70) then Some (c - 65 + 10)
  else None.

(** The loop: [n] bytes of the ID. *)
Fixpoint id_bytes (n : nat) (s : list Z) : option (list Z) :=
  match n, s with
  | O, _ => Some []
  | S n, hi :: lo :: s =>
      hi ← parse_hex_digit hi; lo ← parse_hex_digit lo;
      id ← id_bytes n s; Some (Z.lor (Z.shiftl hi 4) lo :: id)
  | S _, _ => None
  end.

(** [read_machine_id] of a file that is opened with the result [file]. *)
Definition read_machine_id (file : result (list Z)) : result (list Z) :=
  match file with
  | Err e => Err e
  | Ok text =>
      let buf := take (MACHINE_ID_LEN_STRING + 1) text in
      if (length buf <? MACHINE_ID_LEN_STRING)%nat then Err EINVAL
      else
        match id_bytes ID_LEN buf with
        | None => Err EINVAL
        | Some id => if forallb (Z.eqb 0) id then Err EINVAL else Ok id
        end
  end.

(** The version and the variant of a UUID. *)
Definition set_version (u : list Z) : list Z :=
  let u := <[6%nat := Z.lor (Z.land (u !!! 6%nat) 0x0f) 0x40]> u in
  <[8%nat := Z.lor (Z.land (u !!! 8%nat) 0x3f) 0x80]> u.

(** [shr_machine_id_app_specific]; [buffer] and the addresses are those of the
    HMAC; [None] when it fails. *)
Definition shr_machine_id_app_specific (buffer : list Z) (a_id a_app a_inner a_outer a_out : Z)
    (file : result (list Z)) (app_id : list Z) : option (result (list Z)) :=
  match read_machine_id file with
  | Err e => Some (Err e)
  | Ok id =>
      hmac ← shr_hmac_sha256_raw buffer a_id a_app a_inner a_outer a_out id app_id;
      Some (Ok (set_version (take ID_LEN hmac)))
  end.

(** ** Properties *)

Lemma hex_digit_range c d : parse_hex_digit c = Some d → 0 ≤ d < 16.
Proof.
  unfold parse_hex_digit. intros H.
  repeat case_match; rewrite ?andb_true_iff, ?Z.leb_le in *; simplify_eq; lia.
Qed.

Lemma id_bytes_ok n s id : id_bytes n s = Some id → bytes id ∧ length id = n.
Proof.
  revert s id. induction n as [|n IH]; intros s id; cbn [id_bytes].
  { intros [= <-]. split; [constructor|done]. }
  destruct s as [|h [|l s]]; [done..|]. destruct (parse_hex_digit h) as [hi|] eqn:Eh; [|done].
  destruct (parse_hex_digit l) as [lo|] eqn:El; [|done]. cbn [mbind option_bind].
  destruct (id_bytes n s) as [t|] eqn:Et; [|done]. intros [= <-].
  destruct (IH _ _ Et) as [Ht <-]. split; [|done]. constructor; [|done].
  apply hex_digit_range in Eh, El. rewrite Z.shiftl_mul_pow2 by lia. unfold is_byte.
  assert (Z.land (hi * 2 ^ 4) lo = 0).
  { rewrite <- Z.shiftl_mul_pow2 by lia. apply Z.bits_inj'. intros i Hi. rewrite Z.land_spec, Z.bits_0.
    destruct (decide (i < 4)); [by rewrite Z.shiftl_spec_low|].
    rewrite <- (Z.mod_small lo (2 ^ 4)) by lia. by rewrite Z.mod_pow2_bits_high, andb_false_r by lia. }
  rewrite <- Z.lxor_lor, <- Z.add_nocarry_lxor by done. lia.
Qed.

Lemma machine_id_ok file id : read_machine_id file = Ok id →
  bytes id ∧ length id = 16%nat ∧ ¬ Forall (λ b, b = 0) id.
Proof.
  unfold read_machine_id. destruct file as [text|]; [|done]. case_match; [done|].
  destruct (id_bytes _ _) as [i|] eqn:E; [|done]. destruct (forallb (Z.eqb 0) i) eqn:Ez; [done|]. intros [= <-].
  apply id_bytes_ok in E as [? ?]. split_and!; [done..|]. intros Hz.
  apply not_true_iff_false in Ez. apply Ez, forallb_forall. intros x Hx%list_elem_of_In. apply Z.eqb_eq.
  rewrite list.Forall_forall in Hz. by rewrite (Hz x Hx).
Qed.

(** The UUID is the first half of the HMAC of the application's ID under the
    machine ID, a UUID of version 4; a file without an ID is an error. *)
Theorem machine_id_app_specific buffer a_id a_app a_inner a_outer a_out file app_id :
  length buffer = 128%nat → bytes app_id → length app_id = 16%nat →
  shr_machine_id_app_specific buffer a_id a_app a_inner a_outer a_out file app_id =
  Some match read_machine_id file with
       | Err e => Err e
       | Ok id => Ok (set_version (take 16 (Fips180.hmac id app_id)))
       end.
Proof.
  intros Hb Ha Hl. unfold shr_machine_id_app_specific. destruct (read_machine_id file) as [id|e] eqn:E; [|done].
  destruct (machine_id_ok _ _ E) as (Hi & Hil & _). rewrite (hmac_sha256_spec buffer a_id a_app a_inner a_outer a_out); [done..| | |].
  - by destruct id.
  - split; [done|]. cbn [snd]. rewrite Hil. lia.
  - split; [done|]. cbn [snd]. rewrite Hl. lia.
Qed.
