(* ===== verification/Work.v ===== *)
(** * The worker pool: [daemon-util/work.c]

    Blocking work runs in worker threads and its end is reported from the
    event loop.  The state is the shared structure, the works that are
    allocated, where each worker thread is, and where the event loop is; a
    step is one critical section of a thread, or one piece of the event loop
    between two accesses to the shared state, so every interleaving of the
    locked sections is a sequence of steps.  Which waiting thread a signal
    wakes, whether an allocation, a timer or a thread can be had, and
    spurious wakeups are choices of the environment.  The counters are
    integers: fewer than 2^32 works are queued at a time, and the theorems
    show that none is ever decremented below zero. *)

From stdpp Require Import base list gmap numbers sets relations.
From S2P Require Import Prelude.

(** ** Data *)

Inductive work_state := WORK_QUEUED | WORK_RUNNING | WORK_DONE | WORK_DROPPED.

#[export] Instance work_state_eq_dec : EqDecision work_state.
Proof. solve_decision. Defined.

Record shared := {
  queued : list nat;
  done_list : list nat;
  max_workers : Z;
  nr_workers : Z;
  nr_idle : Z;
  nr_queued : Z;
  refs : Z;
  closing : bool;
  fd : Z }.

(** A work: whether it has a timer, and its state. *)
Record dmn_work := { timer : bool; wstate : work_state }.

(** Where a worker thread is, between two critical sections: about to take
    the lock, in [pthread_cond_wait] (and whether it was woken), running a
    work, or freeing one. *)
Inductive worker_pc :=
| Ready
| Waiting (woken : bool)
| Running (w : nat)
| Freeing (w : nat).

(** Where the event loop is: waiting for events, or in the caller's code;
    in the loop of [on_done]; in [finish] before [detach]; in a done callback,
    with what [finish] frees after it; in [destroy], and the callback it
    returns to. *)
Inductive ev_pc :=
| EvIdle
| EvDispatch
| EvFinish (w : nat) (timed_out : bool)
| EvCallback (w : option nat)
| EvDestroy (callback : option (option nat)).

(** [alive]: the pool is not freed.  [next] counts the works submitted so
    far.  The last five fields record what happened: the done callbacks, the
    works cancelled, the works whose function was started and ended, and the
    works freed. *)
Record state := {
  sh : shared;
  heap : gmap nat dmn_work;
  workers : list worker_pc;
  active : list nat;
  dispatching : bool;
  free_pending : bool;
  alive : bool;
  ev : ev_pc;
  next : nat;
  calls : list (nat * bool);
  cancelled : list nat;
  started : list nat;
  ended : list nat;
  freed : list nat }.

(** *** Field updates *)

Definition set_sh (f : shared → shared) (st : state) : state :=
  {| sh := f (sh st); heap := heap st; workers := workers st; active := active st;
     dispatching := dispatching st; free_pending := free_pending st; alive := alive st; ev := ev st;
     next := next st; calls := calls st; cancelled := cancelled st; started := started st;
     ended := ended st; freed := freed st |}.
Definition set_workers (f : list worker_pc → list worker_pc) (st : state) : state :=
  {| sh := sh st; heap := heap st; workers := f (workers st); active := active st;
     dispatching := dispatching st; free_pending := free_pending st; alive := alive st; ev := ev st;
     next := next st; calls := calls st; cancelled := cancelled st; started := started st;
     ended := ended st; freed := freed st |}.
Definition set_heap (f : gmap nat dmn_work → gmap nat dmn_work) (st : state) : state :=
  {| sh := sh st; heap := f (heap st); workers := workers st; active := active st;
     dispatching := dispatching st; free_pending := free_pending st; alive := alive st; ev := ev st;
     next := next st; calls := calls st; cancelled := cancelled st; started := started st;
     ended := ended st; freed := freed st |}.
Definition set_active (f : list nat → list nat) (st : state) : state :=
  {| sh := sh st; heap := heap st; workers := workers st; active := f (active st);
     dispatching := dispatching st; free_pending := free_pending st; alive := alive st; ev := ev st;
     next := next st; calls := calls st; cancelled := cancelled st; started := started st;
     ended := ended st; freed := freed st |}.
(** The event loop's own variables. *)
Definition set_ev (d f a : bool) (e : ev_pc) (st : state) : state :=
  {| sh := sh st; heap := heap st; workers := workers st; active := active st;
     dispatching := d; free_pending := f; alive := a; ev := e;
     next := next st; calls := calls st; cancelled := cancelled st; started := started st;
     ended := ended st; freed := freed st |}.
Definition set_next (n : nat) (st : state) : state :=
  {| sh := sh st; heap := heap st; workers := workers st; active := active st;
     dispatching := dispatching st; free_pending := free_pending st; alive := alive st; ev := ev st;
     next := n; calls := calls st; cancelled := cancelled st; started := started st;
     ended := ended st; freed := freed st |}.
(** What is recorded. *)
Definition log (c : list (nat * bool)) (k b e f : list nat) (st : state) : state :=
  {| sh := sh st; heap := heap st; workers := workers st; active := active st;
     dispatching := dispatching st; free_pending := free_pending st; alive := alive st; ev := ev st;
     next := next st; calls := c ++ calls st; cancelled := k ++ cancelled st;
     started := b ++ started st; ended := e ++ ended st; freed := f ++ freed st |}.

Definition set_lists (q d : list nat) (nq : Z) (s : shared) : shared :=
  {| queued := q; done_list := d; max_workers := max_workers s; nr_workers := nr_workers s;
     nr_idle := nr_idle s; nr_queued := nq; refs := refs s; closing := closing s; fd := fd s |}.
Definition set_idle (n : Z) (s : shared) : shared :=
  {| queued := queued s; done_list := done_list s; max_workers := max_workers s;
     nr_workers := nr_workers s; nr_idle := n; nr_queued := nr_queued s; refs := refs s;
     closing := closing s; fd := fd s |}.
Definition set_refs (r n : Z) (s : shared) : shared :=
  {| queued := queued s; done_list := done_list s; max_workers := max_workers s;
     nr_workers := n; nr_idle := nr_idle s; nr_queued := nr_queued s; refs := r;
     closing := closing s; fd := fd s |}.
Definition set_closing (s : shared) : shared :=
  {| queued := queued s; done_list := done_list s; max_workers := max_workers s;
     nr_workers := nr_workers s; nr_idle := nr_idle s; nr_queued := nr_queued s; refs := refs s;
     closing := true; fd := fd s |}.
Definition set_fd (n : Z) (s : shared) : shared :=
  {| queued := queued s; done_list := done_list s; max_workers := max_workers s;
     nr_workers := nr_workers s; nr_idle := nr_idle s; nr_queued := nr_queued s; refs := refs s;
     closing := closing s; fd := n |}.

(** [w->state = x] *)
Definition with_state (x : work_state) (k : dmn_work) : dmn_work := {| timer := timer k; wstate := x |}.
Definition set_wstate (w : nat) (x : work_state) (st : state) : state :=
  set_heap (alter (with_state x) w) st.
Definition state_of (w : nat) (m : gmap nat dmn_work) : option work_state := wstate <$> m !! w.

(** ** Operations *)

Definition work_free (w : option nat) (st : state) : state :=
  match w with
  | None => st
  | Some w => log [] [] [] [] [w] (set_heap (delete w) st)
  end.

(** The reference of the pool is dropped; the structure is freed when [refs]
    is 0. *)
Definition shared_unref_unlock (st : state) : state :=
  set_sh (λ s, set_refs (refs s - 1) (nr_workers s) s) st.

(** The worker [i] with the lock, at the head of its loop, until it releases
    the lock. *)
Definition worker_loop (i : nat) (st : state) : state :=
  let s := sh st in
  if closing s then
    shared_unref_unlock (set_workers (λ l, take i l ++ drop (S i) l) st)
  else
    match queued s with
    | [] =>
        set_workers (<[i := Waiting false]>) (set_sh (set_idle (nr_idle s + 1)) st)
    | w :: q =>
        let st := set_sh (set_lists q (done_list s) (nr_queued s - 1)) st in
        log [] [] [w] [] [] (set_workers (<[i := Running w]>) (set_wstate w WORK_RUNNING st))
    end.

(** The next critical section of worker [i]; a thread that waits goes on once
    it was woken. *)
Definition worker (i : nat) (st : state) : option state :=
  match workers st !! i with
  | Some Ready => Some (worker_loop i st)
  | Some (Waiting true) =>
      Some (worker_loop i (set_workers (<[i := Ready]>) (set_sh (set_idle (nr_idle (sh st) - 1)) st)))
  | Some (Running w) =>
      let st := log [] [] [] [w] [] st in
      if bool_decide (state_of w (heap st) = Some WORK_DROPPED) then
        Some (set_workers (<[i := Freeing w]>) st)
      else
        let st := set_wstate w WORK_DONE st in
        let st := set_sh (λ s, set_fd (fd s + 1)
                    (set_lists (queued s) (done_list s ++ [w]) (nr_queued s) s)) st in
        Some (worker_loop i (set_workers (<[i := Ready]>) st))
  | Some (Freeing w) => Some (set_workers (<[i := Ready]>) (work_free (Some w) st))
  | _ => None
  end.

Definition asleep (pc : worker_pc) : bool := match pc with Waiting false => true | _ => false end.

(** A spurious wakeup. *)
Definition wake (i : nat) (st : state) : state :=
  match workers st !! i with
  | Some (Waiting false) => set_workers (<[i := Waiting true]>) st
  | _ => st
  end.

Fixpoint wake_first (l : list worker_pc) : list worker_pc :=
  match l with
  | [] => []
  | pc :: l' => if asleep pc then Waiting true :: l' else pc :: wake_first l'
  end.

(** [pthread_cond_signal] wakes one thread that waits, [pick] if it does. *)
Definition cond_signal (pick : nat) (st : state) : state :=
  match workers st !! pick with
  | Some (Waiting false) => wake pick st
  | _ => set_workers wake_first st
  end.

Definition cond_broadcast (st : state) : state :=
  set_workers (fmap (λ pc, if asleep pc then Waiting true else pc)) st.

(** [thread_err]: why no thread can be had. *)
Definition start_worker (thread_err : option errno) (st : state) : state * option errno :=
  match thread_err with
  | Some _ => (st, thread_err)
  | None =>
      (set_workers (λ l, l ++ [Ready])
         (set_sh (λ s, set_refs (refs s + 1) (nr_workers s + 1) s) st), None)
  end.

Definition list_del (w : nat) (l : list nat) : list nat := List.filter (λ x, negb (x =? w)%nat) l.

Definition detach (w : nat) (st : state) : state * option nat :=
  let st := set_active (list_del w) st in
  let running := bool_decide (state_of w (heap st) = Some WORK_RUNNING) in
  let st :=
    if running then set_wstate w WORK_DROPPED st
    else set_sh (λ s, set_lists (list_del w (queued s)) (list_del w (done_list s)) (nr_queued s) s) st in
  let st :=
    if bool_decide (state_of w (heap st) = Some WORK_QUEUED)
    then set_sh (λ s, set_lists (queued s) (done_list s) (nr_queued s - 1) s) st else st in
  (st, if running then None else Some w).

(** [dmn_work_cancel], and a round of the loop of [destroy]. *)
Definition dmn_work_cancel (w : nat) (st : state) : state :=
  let '(st, r) := detach w st in log [] [w] [] [] [] (work_free r st).

(** The end of [destroy]; the callback or the loop goes on. *)
Definition destroy_end (callback : option (option nat)) (st : state) : state :=
  let st := set_ev (dispatching st) (free_pending st) false
              (match callback with Some w => EvCallback w | None => EvIdle end) st in
  shared_unref_unlock (cond_broadcast (set_sh set_closing st)).

Definition set_pc (e : ev_pc) (st : state) : state :=
  set_ev (dispatching st) (free_pending st) (alive st) e st.

(** The event loop goes on where it is. *)
Definition event_loop (st : state) : option state :=
  match ev st with
  | EvIdle => None
  | EvDispatch =>
      if free_pending st then Some (set_ev false (free_pending st) (alive st) (EvDestroy None) st)
      else
        match done_list (sh st) with
        | [] => Some (set_ev false (free_pending st) (alive st) EvIdle st)
        | w :: _ => Some (set_pc (EvFinish w false) st)
        end
  | EvFinish w timed_out =>
      let '(st, r) := detach w st in
      Some (log [(w, timed_out)] [] [] [] [] (set_pc (EvCallback r) st))
  | EvCallback r =>
      Some (set_pc (if dispatching st then EvDispatch else EvIdle) (work_free r st))
  | EvDestroy callback =>
      match active st with
      | w :: _ => Some (dmn_work_cancel w st)
      | [] => Some (destroy_end callback st)
      end
  end.

(** The eventfd is readable. *)
Definition on_done (st : state) : state :=
  set_ev true (free_pending st) (alive st) EvDispatch (set_sh (set_fd 0) st).

(** The timer of [w] expires. *)
Definition on_timeout (w : nat) (st : state) : state :=
  if bool_decide (state_of w (heap st) = Some WORK_DONE) then st
  else set_pc (EvFinish w true) st.

(** A pool; the callers of [dmn_work_pool_new] get one when memory, the
    eventfd and its event source can be had. *)
Definition new_pool (max : Z) : state :=
  {| sh := {| queued := []; done_list := []; max_workers := max; nr_workers := 0; nr_idle := 0;
              nr_queued := 0; refs := 1; closing := false; fd := 0 |};
     heap := ∅; workers := []; active := []; dispatching := false; free_pending := false;
     alive := true; ev := EvIdle; next := 0; calls := []; cancelled := []; started := [];
     ended := []; freed := [] |}.
Definition dmn_work_pool_new (max : Z) : result state :=
  if max =? 0 then Err EINVAL else Ok (new_pool max).

Definition dmn_work_pool_free (st : state) : state :=
  if dispatching st then set_ev (dispatching st) true (alive st) (ev st) st
  else set_pc (EvDestroy (match ev st with EvCallback r => Some r | _ => None end)) st.

(** What the environment refuses a submission, and the thread its signal
    wakes. *)
Record submit_env := {
  mem_ok : bool; timer_err : option errno; thread_err : option errno; pick : nat }.

(** No worker would ever run the work. *)
Definition submit_undo (w : nat) (st : state) : state :=
  set_heap (delete w)
    (set_sh (λ s, set_lists (list_del w (queued s)) (done_list s) (nr_queued s - 1) s) st).
Definition submit_end (w pick : nat) (st : state) : state :=
  set_next (S w) (set_active (λ l, l ++ [w]) (cond_signal pick st)).

Definition dmn_work_submit (timeout : bool) (e : submit_env) (st : state) : state * result nat :=
  if negb (mem_ok e) then (st, Err ENOMEM)
  else
    match (if timeout then timer_err e else None) with
    | Some x => (st, Err x)
    | None =>
        let w := next st in
        let s := sh st in
        let st := set_sh (set_lists (queued s ++ [w]) (done_list s) (nr_queued s + 1))
                    (set_heap (<[w := {| timer := timeout; wstate := WORK_QUEUED |}]>) st) in
        let '(st, err) :=
          if (nr_idle (sh st) <? nr_queued (sh st)) && (nr_workers (sh st) <? max_workers (sh st))
          then start_worker (thread_err e) st else (st, None) in
        match err with
        | Some x =>
            if nr_workers (sh st) =? 0 then (submit_undo w st, Err x)
            else (submit_end w (pick e) st, Ok w)
        | None => (submit_end w (pick e) st, Ok w)
        end
    end.

Definition dmn_work_pool_busy (st : state) : bool :=
  match active st with [] => false | _ => true end.

(** ** Interleavings *)

(** The caller's code runs: outside of the pool or in a done callback; and
    it has not freed the pool. *)
Definition in_caller (st : state) : bool :=
  alive st && negb (free_pending st) &&
  match ev st with EvIdle | EvCallback _ => true | _ => false end.

Inductive step : state → state → Prop :=
| step_worker i st st' : worker i st = Some st' → step st st'
| step_wake i st : step st (wake i st)
| step_event_loop st st' : event_loop st = Some st' → step st st'
| step_on_done st : alive st = true → ev st = EvIdle → 0 < fd (sh st) → step st (on_done st)
| step_on_timeout w k st :
    alive st = true → ev st = EvIdle → w ∈ active st → heap st !! w = Some k → timer k = true →
    step st (on_timeout w st)
| step_submit timeout e st : in_caller st = true → step st (fst (dmn_work_submit timeout e st))
| step_cancel w st : in_caller st = true → w ∈ active st → step st (dmn_work_cancel w st)
| step_pool_free st : in_caller st = true → step st (dmn_work_pool_free st).

Definition reachable (max : Z) (st : state) : Prop :=
  ∃ st0, dmn_work_pool_new max = Ok st0 ∧ rtc step st0 st.

(** ** The invariant *)

Abbreviation cnt := (count_occ Nat.eq_dec) (only parsing).

Definition b2n (b : bool) : nat := if b then 1 else 0.

(** The works the workers run and free, and the one in the hands of the event
    loop. *)
Definition running (pc : worker_pc) : list nat := match pc with Running w => [w] | _ => [] end.
Definition freeing (pc : worker_pc) : list nat := match pc with Freeing w => [w] | _ => [] end.
Definition hand (e : ev_pc) : list nat :=
  match e with EvCallback (Some w) | EvDestroy (Some (Some w)) => [w] | _ => [] end.
(** A work whose done callback was called because it ended. *)
Definition reported (c : nat * bool) : list nat := if snd c then [] else [fst c].

Definition waiting (pc : worker_pc) : bool := match pc with Waiting _ => true | _ => false end.
Definition count_pc (p : worker_pc → bool) (l : list worker_pc) : nat := length (List.filter p l).

(** Where a work in state [s] is, by how often it occurs in [s->queued], in
    [s->done], with a running and a freeing worker, in the hands of the event
    loop and in [p->active]: in one place. *)
Definition placed (s : option work_state) (q d r f hd a : nat) : Prop :=
  match s with
  | None => q = 0 ∧ d = 0 ∧ r = 0 ∧ f = 0 ∧ hd = 0 ∧ a = 0
  | Some WORK_QUEUED => q = a ∧ q + hd = 1 ∧ d = 0 ∧ r = 0 ∧ f = 0
  | Some WORK_RUNNING => r = 1 ∧ a = 1 ∧ q = 0 ∧ d = 0 ∧ f = 0 ∧ hd = 0
  | Some WORK_DONE => d = a ∧ d + hd = 1 ∧ q = 0 ∧ r = 0 ∧ f = 0
  | Some WORK_DROPPED => r + f = 1 ∧ q = 0 ∧ d = 0 ∧ hd = 0 ∧ a = 0
  end%nat.

(** Whether it is allocated. *)
Definition live (s : option work_state) : nat := match s with Some _ => 1 | None => 0 end.

(** The work [x]: it is in the place its state says; once submitted it is
    pending, was reported, or was cancelled; it is freed once, when it is
    not allocated any more; its function is started once at most; and its end
    is reported only after it ended. *)
Definition work_ok (x : nat) (h : list nat) (st : state) : Prop :=
  let n := b2n (x <? next st)%nat in
  placed (state_of x (heap st)) (cnt (queued (sh st)) x) (cnt (done_list (sh st)) x)
    (cnt (flat_map running (workers st)) x) (cnt (flat_map freeing (workers st)) x)
    (cnt h x) (cnt (active st) x) ∧
  (cnt (active st) x + cnt (calls st).*1 x + cnt (cancelled st) x = n)%nat ∧
  (cnt (freed st) x + live (state_of x (heap st)) = n)%nat ∧
  (cnt (started st) x + cnt (queued (sh st)) x ≤ n)%nat ∧
  (state_of x (heap st) = Some WORK_DONE → 0 < cnt (ended st) x)%nat ∧
  (0 < cnt (flat_map reported (calls st)) x → 0 < cnt (ended st) x)%nat.

Record counters_ok (st : state) : Prop := {
  ok_queued : nr_queued (sh st) = Z.of_nat (length (queued (sh st)));
  ok_idle : nr_idle (sh st) = Z.of_nat (count_pc waiting (workers st));
  ok_refs : refs (sh st) = Z.of_nat (b2n (alive st) + length (workers st));
  ok_closing : closing (sh st) = negb (alive st);
  ok_workers : alive st = true →
    nr_workers (sh st) = Z.of_nat (length (workers st)) ∧ nr_workers (sh st) ≤ max_workers (sh st);
  ok_dead : alive st = false → active st = [] }.

(** [h] are the works the event loop holds in its local variables. *)
Definition inv (h : list nat) (st : state) : Prop := (∀ x, work_ok x h st) ∧ counters_ok st.

(** ** Simplification *)

Ltac ws :=
  cbn [sh heap workers active dispatching free_pending alive ev next calls cancelled started ended
       freed queued done_list max_workers nr_workers nr_idle nr_queued refs closing fd
       set_sh set_workers set_heap set_active set_ev set_next log set_lists set_idle set_refs
       set_closing set_fd set_wstate shared_unref_unlock timer wstate app fmap list_fmap fst snd] in *.

Lemma cnt_app (l k : list nat) x : cnt (l ++ k) x = (cnt l x + cnt k x)%nat.
Proof. apply count_occ_app. Qed.

Lemma cnt_cons (y : nat) l x : cnt (y :: l) x = (b2n (bool_decide (y = x)) + cnt l x)%nat.
Proof. cbn [count_occ]. destruct (Nat.eq_dec y x); [rewrite bool_decide_eq_true_2|rewrite bool_decide_eq_false_2]; done. Qed.

Lemma cnt_nil (x : nat) : cnt [] x = 0%nat.
Proof. done. Qed.

Lemma cnt_In (l : list nat) x : x ∈ l ↔ (0 < cnt l x)%nat.
Proof. rewrite list_elem_of_In, (count_occ_In Nat.eq_dec). lia. Qed.

Lemma cnt_list_del w l x : cnt (list_del w l) x = if decide (x = w) then 0%nat else cnt l x.
Proof.
  unfold list_del. induction l as [|y l IH]; cbn [List.filter]; [by case_decide|].
  destruct (Nat.eqb_spec y w) as [->|Hy]; cbn [negb]; rewrite ?cnt_cons, IH; case_decide.
  - done.
  - by rewrite bool_decide_eq_false_2.
  - subst. by rewrite bool_decide_eq_false_2.
  - done.
Qed.

Lemma list_del_notin w l : w ∉ l → list_del w l = l.
Proof.
  unfold list_del. induction l as [|y l IH]; [done|]. cbn [List.filter]. intros Hn.
  apply not_elem_of_cons in Hn as [Hy Hn]. destruct (Nat.eqb_spec y w); [done|]. cbn [negb]. by rewrite IH.
Qed.

Lemma length_list_del w l : length (list_del w l) = (length l - cnt l w)%nat.
Proof.
  pose proof (count_occ_bound Nat.eq_dec w) as Hb. unfold list_del.
  induction l as [|y l IH]; [done|]. specialize (Hb l). cbn [List.filter]. rewrite cnt_cons.
  destruct (Nat.eqb_spec y w); cbn [negb length];
    [rewrite bool_decide_eq_true_2 by done|rewrite bool_decide_eq_false_2 by done];
    cbn [b2n]; rewrite IH; lia.
Qed.

Lemma lookup_split (l : list worker_pc) i x :
  l !! i = Some x →
  ∃ l1 l2, l = l1 ++ x :: l2 ∧ (∀ y, <[i := y]> l = l1 ++ y :: l2) ∧ take i l ++ drop (S i) l = l1 ++ l2.
Proof.
  intros H. apply list_elem_of_split_length in H as (l1 & l2 & -> & ->). exists l1, l2.
  split; [done|]. split.
  - intros y. by rewrite insert_app_r_alt, Nat.sub_diag by lia.
  - rewrite take_app_length. f_equal. rewrite drop_app_ge by lia.
    by replace (S (length l1) - length l1)%nat with 1%nat by lia.
Qed.

Lemma count_pc_app p l k : count_pc p (l ++ k) = (count_pc p l + count_pc p k)%nat.
Proof. unfold count_pc. by rewrite List.filter_app, length_app. Qed.
Lemma count_pc_nil p : count_pc p [] = 0%nat.
Proof. done. Qed.
Lemma count_pc_cons p c l : count_pc p (c :: l) = (b2n (p c) + count_pc p l)%nat.
Proof. unfold count_pc. cbn [List.filter]. by destruct (p c). Qed.

Lemma state_of_alter w x y m :
  state_of y (alter (with_state x) w m) =
  if decide (y = w) then (λ _, x) <$> state_of w m else state_of y m.
Proof.
  unfold state_of. case_decide as E.
  - subst y. rewrite lookup_alter_eq. by destruct (m !! w).
  - by rewrite lookup_alter_ne.
Qed.

Lemma state_of_delete w y m : state_of y (delete w m) = if decide (y = w) then None else state_of y m.
Proof.
  unfold state_of. case_decide as E; [subst y; by rewrite lookup_delete_eq|by rewrite lookup_delete_ne].
Qed.

Lemma state_of_insert w k y m :
  state_of y (<[w := k]> m) = if decide (y = w) then Some (wstate k) else state_of y m.
Proof.
  unfold state_of. case_decide as E; [subst y; by rewrite lookup_insert_eq|by rewrite lookup_insert_ne].
Qed.

Lemma state_of_Some w m s : state_of w m = Some s → ∃ k, m !! w = Some k.
Proof. unfold state_of. destruct (m !! w) as [k|]; [by exists k|done]. Qed.

Lemma flat_map_mid {A} (f : worker_pc → list A) l1 pc l2 :
  flat_map f (l1 ++ pc :: l2) = flat_map f l1 ++ f pc ++ flat_map f l2.
Proof. by rewrite flat_map_app. Qed.

(** *** Proof steps *)

(** Counts, for [lia]. *)
Ltac counts :=
  repeat progress (rewrite ?flat_map_mid, ?flat_map_app, ?cnt_app, ?cnt_cons, ?length_app, ?count_pc_app,
    ?count_pc_cons, ?fmap_app, ?fmap_cons, ?cnt_list_del, ?cnt_nil, ?count_pc_nil in *;
    cbn [flat_map running freeing reported waiting length app fst snd negb] in * ).

(** The state of [y] decides where it is. *)
Ltac by_state :=
  cbn [b2n] in *;
  match goal with H : placed ?s _ _ _ _ _ _ |- _ => destruct s as [[]|] end;
  cbn [placed live wstate fmap option_fmap option_map] in *;
  repeat match goal with H : Some _ = Some _ → _ |- _ => first [specialize (H eq_refl)|clear H] end;
  try (split_and!; intros; first [lia|done|congruence]).

(** One work [x], beside the work [w] of the step. *)
Ltac one_work W x w :=
  destruct (W x) as (Hp & Ho & Hf & Hs & He & Hr); clear W;
  unfold work_ok; ws; rewrite ?state_of_alter, ?state_of_delete, ?state_of_insert;
  destruct (decide (x = w)) as [->|Hne]; counts;
  [rewrite ?(bool_decide_eq_true_2 (w = w)), ?(decide_True (P:=w = w)) in * by done
  |rewrite ?(bool_decide_eq_false_2 (w = x)), ?(decide_False (P:=x = w)) in * by congruence];
  by_state.

(** Every work, in a step that changes none. *)
Ltac any_work W x :=
  destruct (W x) as (Hp & Ho & Hf & Hs & He & Hr); clear W; unfold work_ok; ws; counts; by_state.

Ltac counters := counts; cbn [b2n] in *; first [done|lia|intros; congruence|intros; intuition lia].

(** Opens the invariant at worker [i]. *)
Ltac at_worker Hi W C :=
  let l1 := fresh "l1" in let l2 := fresh "l2" in
  apply lookup_split in Hi as (l1 & l2 & El & Ei & Ed); destruct C as [C1 C2 C3 C4 C5 C6];
  unfold work_ok in W; rewrite El in W, C2, C3, C5.

Section Workers.
Context (h : list nat) (st : state) (i : nat).
Hypotheses (W : ∀ x, work_ok x h st) (C : counters_ok st).

(** A worker takes the first queued work. *)
Lemma inv_take w q :
  workers st !! i = Some Ready → alive st = true → queued (sh st) = w :: q →
  inv h (worker_loop i st).
Proof using W C.
  intros Hi Ha Hq. unfold worker_loop. rewrite (ok_closing _ C), Ha, Hq. cbn [negb].
  at_worker Hi W C. rewrite Hq in W, C1. split.
  - intros x. unfold work_ok. ws. rewrite Ei. one_work W x w.
  - constructor; ws; rewrite ?Ei; counters.
Qed.

(** There is none: it waits. *)
Lemma inv_wait :
  workers st !! i = Some Ready → alive st = true → queued (sh st) = [] →
  inv h (worker_loop i st).
Proof using W C.
  intros Hi Ha Hq. unfold worker_loop. rewrite (ok_closing _ C), Ha, Hq. cbn [negb].
  at_worker Hi W C. split.
  - intros x. unfold work_ok. ws. rewrite Ei. any_work W x.
  - constructor; ws; rewrite ?Ei; counters.
Qed.

(** The pool is gone: it ends. *)
Lemma inv_exit : workers st !! i = Some Ready → alive st = false → inv h (worker_loop i st).
Proof using W C.
  intros Hi Ha. unfold worker_loop. rewrite (ok_closing _ C), Ha. cbn [negb].
  at_worker Hi W C. split.
  - intros x. unfold work_ok. ws. rewrite Ed. any_work W x.
  - constructor; ws; rewrite ?Ed; counters.
Qed.

Lemma inv_worker_loop : workers st !! i = Some Ready → inv h (worker_loop i st).
Proof using W C.
  intros Hi. destruct (alive st) eqn:Ha; [|by apply inv_exit].
  destruct (queued (sh st)) as [|w q] eqn:Hq; [by apply inv_wait|by eapply inv_take].
Qed.

Lemma inv_resume :
  workers st !! i = Some (Waiting true) →
  inv h (set_workers (<[i := Ready]>) (set_sh (set_idle (nr_idle (sh st) - 1)) st)).
Proof using W C.
  intros Hi. at_worker Hi W C. split.
  - intros x. unfold work_ok. ws. rewrite Ei. any_work W x.
  - constructor; ws; rewrite ?Ei; counters.
Qed.

(** A work that was dropped while it ran. *)
Lemma inv_end_dropped w :
  workers st !! i = Some (Running w) → state_of w (heap st) = Some WORK_DROPPED →
  inv h (set_workers (<[i := Freeing w]>) (log [] [] [] [w] [] st)).
Proof using W C.
  intros Hi Hw. at_worker Hi W C. split.
  - intros x. unfold work_ok. ws. rewrite Ei. one_work W x w.
  - constructor; ws; rewrite ?Ei; counters.
Qed.

Lemma inv_end_done w :
  workers st !! i = Some (Running w) → state_of w (heap st) ≠ Some WORK_DROPPED →
  inv h (set_workers (<[i := Ready]>)
    (set_sh (λ s, set_fd (fd s + 1) (set_lists (queued s) (done_list s ++ [w]) (nr_queued s) s))
      (set_wstate w WORK_DONE (log [] [] [] [w] [] st)))).
Proof using W C.
  intros Hi Hw. at_worker Hi W C. split.
  - intros x. unfold work_ok. ws. rewrite Ei. one_work W x w.
  - constructor; ws; rewrite ?Ei; counters.
Qed.

Lemma inv_worker_free w :
  workers st !! i = Some (Freeing w) →
  inv h (set_workers (<[i := Ready]>) (work_free (Some w) st)).
Proof using W C.
  intros Hi. unfold work_free. at_worker Hi W C. split.
  - intros x. unfold work_ok. ws. rewrite Ei. one_work W x w.
  - constructor; ws; rewrite ?Ei; counters.
Qed.

End Workers.

Section EventLoop.
Context (h : list nat) (st : state).
Hypotheses (W : ∀ x, work_ok x h st) (C : counters_ok st).

(** Threads that wait, woken or not. *)
Lemma inv_rewake l :
  Forall2 (λ a b, a = b ∨ waiting a = true ∧ waiting b = true) (workers st) l →
  inv h (set_workers (λ _, l) st).
Proof using W C.
  intros Hl. unfold work_ok in W. destruct C as [C1 C2 C3 C4 C5 C6].
  assert (flat_map running (workers st) = flat_map running l ∧
          flat_map freeing (workers st) = flat_map freeing l ∧
          count_pc waiting (workers st) = count_pc waiting l ∧
          length (workers st) = length l) as (E1 & E2 & E3 & E4).
  { clear W C1 C2 C3 C4 C5 C6.
    induction Hl as [|a b k l Hab _ (I1 & I2 & I3 & I4)]; [done|].
    rewrite !count_pc_cons. cbn [flat_map length]. rewrite I1, I2, I3, I4.
    destruct Hab as [->|[Ha Hb]]; [done|]. by destruct a, b. }
  rewrite E1, E2 in W. rewrite E3 in C2. rewrite E4 in C3, C5.
  split; [intros x; by apply W|by constructor].
Qed.

Lemma inv_wake i : inv h (wake i st).
Proof using W C.
  unfold wake. destruct (workers st !! i) as [[| [] | |]|] eqn:Hi; try (by split).
  apply (inv_rewake (<[i := Waiting true]> (workers st))).
  apply lookup_split in Hi as (l1 & l2 & -> & -> & _).
  apply Forall2_app; [|constructor; [by right|]]; apply Forall_Forall2_diag, Forall_forall; by left.
Qed.

Lemma inv_signal i : inv h (cond_signal i st).
Proof using W C.
  unfold cond_signal. assert (inv h (set_workers wake_first st)) as Hf.
  { apply (inv_rewake (wake_first (workers st))).
    induction (workers st) as [|pc l IH]; [constructor|]. cbn [wake_first].
    destruct (asleep pc) eqn:Ea; constructor; [|..|done].
    - right. by destruct pc as [| [] | |].
    - apply Forall_Forall2_diag, Forall_forall; by left.
    - by left. }
  destruct (workers st !! i) as [[| [] | |]|]; try done. apply inv_wake.
Qed.

Lemma inv_broadcast : inv h (cond_broadcast st).
Proof using W C.
  unfold cond_broadcast.
  apply (inv_rewake ((λ pc, if asleep pc then Waiting true else pc) <$> workers st)).
  induction (workers st) as [|pc l IH]; constructor; [|done].
  destruct pc as [| [] | |]; by (by left) || (by right).
Qed.

Lemma inv_start_worker e :
  alive st = true → nr_workers (sh st) < max_workers (sh st) → inv h (fst (start_worker e st)).
Proof using W C.
  intros Ha Hm. unfold start_worker. destruct e; [by split|]. cbn [fst].
  unfold work_ok in W. destruct C as [C1 C2 C3 C4 C5 C6]. split.
  - intros x. any_work W x.
  - constructor; ws; counters.
Qed.

(** A work joins the queue and the active works. *)
Definition enqueue (timeout : bool) (st : state) : state :=
  set_next (S (next st)) (set_active (λ l, l ++ [next st])
    (set_sh (λ s, set_lists (queued s ++ [next st]) (done_list s) (nr_queued s + 1) s)
      (set_heap (<[next st := {| timer := timeout; wstate := WORK_QUEUED |}]>) st))).

Lemma next_fresh : state_of (next st) (heap st) = None.
Proof using W.
  destruct (W (next st)) as (_ & _ & Hf & _). rewrite Nat.ltb_irrefl in Hf. cbn [b2n] in Hf.
  destruct (state_of (next st) (heap st)); cbn [live] in Hf; [lia|done].
Qed.

Lemma inv_enqueue timeout : alive st = true → inv h (enqueue timeout st).
Proof using W C.
  intros Ha. pose proof next_fresh as Hn. unfold enqueue, work_ok in *.
  destruct C as [C1 C2 C3 C4 C5 C6]. split.
  - intros x.
    assert (b2n (x <? S (next st)) = b2n (x <? next st) + b2n (bool_decide (next st = x)))%nat as E.
    { destruct (Nat.ltb_spec x (S (next st))), (Nat.ltb_spec x (next st)); case_bool_decide; cbn; lia. }
    unfold work_ok. ws. rewrite E. clear E. one_work W x (next st).
  - constructor; ws; counters.
Qed.

(** The event loop takes a work out of its list: it is reported or
    cancelled. *)
Definition outcome_log (w : nat) (o : option bool) : state → state :=
  match o with
  | Some timed_out => log [(w, timed_out)] [] [] [] []
  | None => log [] [w] [] [] []
  end.

Lemma inv_detach w o :
  w ∈ active st → (o = Some false → w ∈ done_list (sh st)) →
  inv (match snd (detach w st) with Some w => w :: h | None => h end)
    (outcome_log w o (fst (detach w st))).
Proof using W C.
  intros Ha Hd. unfold detach. apply cnt_In in Ha.
  assert (o = Some false → 0 < cnt (done_list (sh st)) w)%nat as Hd' by (intros; apply cnt_In; auto).
  unfold work_ok in W. destruct C as [C1 C2 C3 C4 C5 C6]. ws.
  assert (alive st = false → list_del w (active st) = []) as C6' by (intros E; by rewrite (C6 E)).
  case_bool_decide as Hw; cbn [snd fst].
  - rewrite bool_decide_eq_false_2; [|ws; rewrite state_of_alter, decide_True, Hw; done]. split.
    + intros x. destruct o as [[]|]; cbn [outcome_log]; one_work W x w.
    + destruct o as [[]|]; cbn [outcome_log]; by constructor; ws.
  - ws. assert (length (list_del w (queued (sh st))) =
      length (queued (sh st)) - b2n (bool_decide (state_of w (heap st) = Some WORK_QUEUED)))%nat as El.
    { rewrite length_list_del. f_equal. destruct (W w) as (Hp & _).
      destruct (state_of w (heap st)) as [[]|]; cbn [placed] in Hp;
        case_bool_decide; cbn [b2n]; first [congruence|lia]. }
    assert (state_of w (heap st) = Some WORK_QUEUED → 0 < length (queued (sh st)))%nat as Hl.
    { intros Hq. destruct (W w) as (Hp & _). rewrite Hq in Hp. cbn [placed] in Hp.
      destruct (queued (sh st)); cbn [count_occ length] in *; lia. }
    case_bool_decide as Hq; cbn [b2n] in El; split.
    + clear El Hl. intros x. destruct o as [[]|]; cbn [outcome_log]; one_work W x w.
    + specialize (Hl Hq). destruct o as [[]|]; cbn [outcome_log]; constructor; ws; try done; lia.
    + intros x. destruct o as [[]|]; cbn [outcome_log]; one_work W x w.
    + destruct o as [[]|]; cbn [outcome_log]; constructor; ws; try done; lia.
Qed.
End EventLoop.

(** The event loop frees the work it holds. *)
Lemma inv_free h w st : inv (w :: h) st → inv h (work_free (Some w) st).
Proof.
  intros [W C]. unfold work_free, work_ok in *. destruct C as [C1 C2 C3 C4 C5 C6]. split.
  - intros x. one_work W x w.
  - constructor; ws; done.
Qed.

Lemma inv_cancel h w st : inv h st → w ∈ active st → inv h (dmn_work_cancel w st).
Proof.
  intros [W C] Ha. pose proof (inv_detach h st W C w None Ha ltac:(done)) as Hd.
  unfold dmn_work_cancel. destruct (detach w st) as [st' [x|]]; cbn [fst snd] in Hd; [|exact Hd].
  exact (inv_free h x _ Hd).
Qed.

Lemma inv_worker h i st st' : inv h st → worker i st = Some st' → inv h st'.
Proof.
  intros [W C]. unfold worker.
  destruct (workers st !! i) as [[|[]|w|w]|] eqn:Hi; try done.
  - intros [= <-]. by apply inv_worker_loop.
  - intros H%(inj Some). subst st'. destruct (inv_resume h st i W C Hi) as [W' C'].
    apply inv_worker_loop; [done|done|]. ws. apply list_lookup_insert_eq. by eapply lookup_lt_Some.
  - change (heap (log [] [] [] [w] [] st)) with (heap st). case_bool_decide as Hw; intros H%(inj Some); subst st'.
    + by apply inv_end_dropped.
    + destruct (inv_end_done h st i W C w Hi Hw) as [W' C'].
      apply inv_worker_loop; [done|done|]. ws. apply list_lookup_insert_eq. by eapply lookup_lt_Some.
  - intros H%(inj Some). subst st'. by apply inv_worker_free.
Qed.

(** A submission is [enqueue], [start_worker] and [pthread_cond_signal], or
    nothing. *)
Lemma submit_cases timeout e st :
  state_of (next st) (heap st) = None → next st ∉ queued (sh st) →
  let st' := fst (dmn_work_submit timeout e st) in
  st' = st ∨
  (st' = cond_signal (pick e) (enqueue timeout st) ∧
   (nr_workers (sh st) ≠ 0 ∨ nr_queued (sh st) < nr_idle (sh st) ∨
    max_workers (sh st) ≤ nr_workers (sh st))) ∨
  (nr_workers (sh st) < max_workers (sh st) ∧
   st' = cond_signal (pick e) (fst (start_worker None (enqueue timeout st)))).
Proof.
  intros Hn Hq. unfold dmn_work_submit. destruct (mem_ok e); cbn [negb]; [|by left].
  destruct (if timeout then timer_err e else None); [by left|]. ws.
  assert (∀ f g p s0, set_next f (set_active g (cond_signal p s0)) =
    cond_signal p (set_next f (set_active g s0))) as Hc.
  { intros. unfold cond_signal, wake. cbn. by destruct (workers s0 !! p) as [[| [] | |]|]. }
  destruct (_ && _) eqn:Em; cbv zeta; unfold submit_end.
  - to_prop. unfold start_worker. destruct (thread_err e) as [x|]; ws.
    + destruct (Z.eqb_spec (nr_workers (sh st)) 0); cbn [fst].
      * left. unfold submit_undo, set_heap, set_sh, set_lists.
        destruct st as [[q] m ? ? ? ? ? ? n]. ws. f_equal.
        -- f_equal; [|lia]. unfold list_del. rewrite List.filter_app.
           cbn [List.filter]. rewrite Nat.eqb_refl. cbn [negb]. rewrite app_nil_r.
           by apply list_del_notin.
        -- apply delete_insert_id. unfold state_of in Hn. by destruct (m !! n).
      * right. left. rewrite Hc. split; [done|by left].
    + right. right. split; [lia|]. by rewrite Hc.
  - right. left. cbn [fst]. rewrite Hc. split; [done|]. apply andb_false_iff in Em as [?|?]; to_prop; lia.
Qed.

(** *** The event loop's place *)

Definition ev_ok (st : state) : Prop :=
  (dispatching st = true → alive st = true) ∧
  match ev st with
  | EvIdle | EvCallback _ => True
  | EvDispatch => alive st = true
  | EvFinish w timed_out =>
      alive st = true ∧ w ∈ active st ∧ (timed_out = false → w ∈ done_list (sh st))
  | EvDestroy _ => alive st = true ∧ dispatching st = false
  end.

Definition ok (st : state) : Prop := inv (hand (ev st)) st ∧ ev_ok st.

(** What the workers leave to the event loop. *)
Lemma worker_frame i st st' :
  worker i st = Some st' →
  ev st' = ev st ∧ alive st' = alive st ∧ dispatching st' = dispatching st ∧ active st' = active st ∧
  ∃ l, done_list (sh st') = done_list (sh st) ++ l.
Proof.
  assert (∀ st, let st' := worker_loop i st in
    ev st' = ev st ∧ alive st' = alive st ∧ dispatching st' = dispatching st ∧ active st' = active st ∧
    done_list (sh st') = done_list (sh st)) as Hl.
  { intros s. unfold worker_loop. destruct (closing (sh s)); [done|]. by destruct (queued (sh s)). }
  unfold worker. destruct (workers st !! i) as [[|[]|w|w]|]; try done.
  - intros E%(inj Some). subst st'. destruct (Hl st) as (-> & -> & -> & -> & ->).
    split_and!; try done. exists []. by rewrite app_nil_r.
  - intros E%(inj Some). subst st'.
    match goal with |- context [worker_loop i ?s] => destruct (Hl s) as (-> & -> & -> & -> & ->) end.
    split_and!; try done. exists []. by rewrite app_nil_r.
  - case_bool_decide; intros E%(inj Some); subst st'.
    + split_and!; try done. exists []. by rewrite app_nil_r.
    + match goal with |- context [worker_loop i ?s] => destruct (Hl s) as (-> & -> & -> & -> & ->) end.
      split_and!; try done. by exists [w].
  - intros E%(inj Some). subst st'. split_and!; try done. exists []. by rewrite app_nil_r.
Qed.

Lemma ok_worker i st st' : ok st → worker i st = Some st' → ok st'.
Proof.
  intros [I [E1 E2]] Hw. pose proof (inv_worker _ _ _ _ I Hw) as I'.
  apply worker_frame in Hw as (Ee & Ea & Ed & Ec & l & El). split; [by rewrite Ee|].
  unfold ev_ok. rewrite Ee, Ea, Ed, Ec, El. split; [done|]. destruct (ev st); try done.
  destruct E2 as (? & ? & Hd). split_and!; try done. intros Ht. apply elem_of_app. left. by apply Hd.
Qed.

Lemma inv_set_ev h d f e st :
  inv h st → inv h (set_ev d f (alive st) e st).
Proof. intros [W [C1 C2 C3 C4 C5 C6]]. split; [exact W|by constructor]. Qed.

(** The end of [destroy]. *)
Lemma inv_destroy_end h d f e st :
  inv h st → alive st = true → active st = [] →
  inv h (shared_unref_unlock (cond_broadcast (set_sh set_closing (set_ev d f false e st)))).
Proof.
  intros I Ha Hn. destruct I as [W C].
  destruct (inv_broadcast h st W C) as [W' [C1 C2 C3 C4 C5 C6]]. clear W C. split; [exact W'|].
  unfold cond_broadcast in *. ws. rewrite Ha in *. constructor; ws; try done. rewrite C3. cbn [b2n]. lia.
Qed.

Lemma ok_event_loop st st' : ok st → event_loop st = Some st' → ok st'.
Proof.
  intros [I [E1 E2]]. unfold event_loop. destruct (ev st) as [| |w t|r|k] eqn:Ee; try done.
  - destruct (free_pending st); [|destruct (done_list (sh st)) as [|w l] eqn:Ed];
      intros H%(inj Some); subst st'; (split; [by apply inv_set_ev|]); split; cbn; try done.
    split_and!; try done; [|rewrite Ed; by left].
    destruct I as [W _]. destruct (W w) as (Hp & _). rewrite Ed in Hp. apply cnt_In. cbn [hand] in Hp.
    rewrite cnt_cons, bool_decide_eq_true_2 in Hp by done.
    destruct (state_of w (heap st)) as [[]|]; cbn [placed b2n] in Hp; lia.
  - destruct E2 as (Ha & Hw & Hd). destruct I as [W C].
    pose proof (inv_detach _ st W C w (Some t) Hw ltac:(naive_solver)) as I'.
    assert (alive (fst (detach w st)) = alive st ∧ dispatching (fst (detach w st)) = dispatching st) as [Ea Ed].
    { unfold detach. cbn. by repeat case_bool_decide. }
    destruct (detach w st) as [st1 r] eqn:Er. cbn [fst snd] in *.
    intros H%(inj Some). subst st'. split; [|by split; cbn; rewrite ?Ea, ?Ed].
    apply (inv_set_ev _ (dispatching st1) (free_pending st1) (EvCallback r)) in I'. by destruct r.
  - intros H%(inj Some). subst st'. assert (inv [] (work_free r st)) as I'.
    { destruct r as [w|]; [by apply inv_free|done]. }
    apply (inv_set_ev _ (dispatching (work_free r st)) (free_pending (work_free r st))
      (if dispatching st then EvDispatch else EvIdle)) in I'.
    assert (alive (work_free r st) = alive st ∧ dispatching (work_free r st) = dispatching st) as [Ea Ed]
      by (by destruct r).
    split; [by destruct (dispatching st)|]. split; cbn; rewrite ?Ea, ?Ed; [done|].
    destruct (dispatching st); auto.
  - destruct E2 as [Ha Hdis]. destruct (active st) as [|w l] eqn:Eac; intros H%(inj Some); subst st'.
    + split; [|split; cbn; [by rewrite Hdis|by destruct k]].
      unfold destroy_end. replace (hand _) with (hand (EvDestroy k)) by (by destruct k as [[]|]).
      by apply inv_destroy_end.
    + assert (w ∈ active st) as Hw by (rewrite Eac; by left).
      pose proof (inv_cancel _ _ _ I Hw) as I'.
      assert (alive (dmn_work_cancel w st) = alive st ∧
        dispatching (dmn_work_cancel w st) = dispatching st ∧ ev (dmn_work_cancel w st) = ev st) as (Ea & Ed & Ev).
      { unfold dmn_work_cancel, detach. cbn. by repeat case_bool_decide. }
      split; [by rewrite Ev, Ee|]. split; [by rewrite Ed, Hdis|]. by rewrite Ev, Ee, Ea, Ed.
Qed.

Lemma ok_submit timeout e st :
  ok st → in_caller st = true → ok (fst (dmn_work_submit timeout e st)).
Proof.
  intros [[W C] [E1 E2]] Hc. unfold in_caller in Hc. to_prop.
  assert (inv (hand (ev st)) (enqueue timeout st)) as [W1 C1] by (by apply inv_enqueue).
  pose proof (next_fresh _ st W) as Hn.
  assert (next st ∉ queued (sh st)) as Hq.
  { intros Hx%cnt_In. destruct (W (next st)) as (_ & _ & _ & Hs & _).
    rewrite Nat.ltb_irrefl in Hs. cbn [b2n] in Hs. lia. }
  assert (∀ s, ev s = ev st → alive s = true → inv (hand (ev st)) s → ok s) as Hok.
  { intros s Ee Ea I. split; [by rewrite Ee|]. split; [done|]. rewrite Ee. by destruct (ev st). }
  assert (∀ p s, ev (cond_signal p s) = ev s ∧ alive (cond_signal p s) = alive s) as Hsig.
  { intros p s. unfold cond_signal, wake. by destruct (workers s !! p) as [[| [] | |]|]. }
  destruct (submit_cases timeout e st Hn Hq) as [->|[[-> _]|[Hm ->]]]; [by apply Hok|..];
    match goal with |- ok (cond_signal ?p ?s) => destruct (Hsig p s) as [Ee Ea] end; apply Hok.
  1: by rewrite Ee. 1: by rewrite Ea. 1: by apply inv_signal.
  1: by rewrite Ee. 1: by rewrite Ea.
  destruct (inv_start_worker _ _ W1 C1 None) as [W2 C2]; [done|done|]. by apply inv_signal.
Qed.

Lemma ok_step st st' : ok st → step st st' → ok st'.
Proof.
  intros Hok Hs. destruct Hs as [i st st' Hw|i st|st st' He|st Ha Ee Hf|w k st Ha Ee Hw Hk Ht
    |timeout e st Hc|w st Hc Hw|st Hc].
  - by eapply ok_worker.
  - destruct Hok as [[W C] E]. assert (ev (wake i st) = ev st ∧ ev_ok (wake i st)) as [Ee Eok].
    { unfold wake. by destruct (workers st !! i) as [[| [] | |]|]. }
    split; [rewrite Ee; by apply inv_wake|done].
  - by eapply ok_event_loop.
  - destruct Hok as [[W [C1 C2 C3 C4 C5 C6]] _]. rewrite Ee in W.
    split; [split; [exact W|by constructor]|by split].
  - unfold on_timeout. case_bool_decide as Hd; [done|]. destruct Hok as [I E]. rewrite Ee in I.
    split; [by apply inv_set_ev|]. by split; [apply E|].
  - by apply ok_submit.
  - destruct Hok as [I [E1 E2]]. assert (ev (dmn_work_cancel w st) = ev st ∧
      alive (dmn_work_cancel w st) = alive st ∧
      dispatching (dmn_work_cancel w st) = dispatching st) as (Ee & Ea & Ed).
    { unfold dmn_work_cancel, detach. cbn. by repeat case_bool_decide. }
    split; [rewrite Ee; by apply inv_cancel|]. unfold ev_ok. rewrite Ee, Ea, Ed. split; [done|].
    unfold in_caller in Hc. to_prop. by destruct (ev st).
  - destruct Hok as [I [E1 E2]]. unfold in_caller in Hc. to_prop.
    unfold dmn_work_pool_free. destruct (dispatching st) eqn:Ed.
    + split; [by apply inv_set_ev|]. split; [done|]. cbn. by destruct (ev st).
    + split; [|split; cbn; [by rewrite Ed|done]]. apply inv_set_ev. by destruct (ev st).
Qed.

Lemma reachable_ok max st : 0 ≤ max → reachable max st → ok st.
Proof.
  intros Hm (st0 & H0 & Hs). unfold dmn_work_pool_new in H0. destruct (max =? 0); [done|].
  injection H0 as <-. unfold new_pool in Hs. refine (rtc_ind_r ok _ _ _ _ Hs); [|intros; by eapply ok_step].
  split; [|by split]. split; [|by constructor]. intros x. unfold work_ok. ws.
  by replace (x <? 0)%nat with false by (symmetry; apply Nat.ltb_ge; lia).
Qed.

(** C5: Every interleaving of the workers, the event loop and the caller keeps
    each submitted work in one place: while it is allocated, it is queued,
    with one worker, done, or in the hands of the event loop, never in two of
    them, and its state says which; it is freed once, when nobody holds it
    any more; its done callback runs at most once and never for a work that
    was cancelled; its function is started once at most; and "not timed out"
    is only reported of a work whose function has returned. *)
Theorem work_pool_safe max st x :
  0 ≤ max → reachable max st →
  placed (state_of x (heap st)) (cnt (queued (sh st)) x) (cnt (done_list (sh st)) x)
    (cnt (flat_map running (workers st)) x) (cnt (flat_map freeing (workers st)) x)
    (cnt (hand (ev st)) x) (cnt (active st) x) ∧
  (x ∈ freed st → state_of x (heap st) = None) ∧
  NoDup (freed st) ∧ NoDup ((calls st).*1 ++ cancelled st) ∧ NoDup (started st) ∧
  ((x, false) ∈ calls st → x ∈ ended st).
Proof.
  intros Hm [[W _] _]%reachable_ok; [|done].
  assert (∀ n, (b2n n ≤ 1)%nat) as Hb by (intros []; cbn; lia).
  split_and!.
  - apply W.
  - intros Hx%cnt_In. destruct (W x) as (_ & _ & Hf & _). specialize (Hb (x <? next st)%nat).
    destruct (state_of x (heap st)); cbn [live] in Hf; [lia|done].
  - apply NoDup_ListNoDup, (NoDup_count_occ Nat.eq_dec). intros y.
    destruct (W y) as (_ & _ & Hf & _). specialize (Hb (y <? next st)%nat). lia.
  - apply NoDup_ListNoDup, (NoDup_count_occ Nat.eq_dec). intros y. rewrite cnt_app.
    destruct (W y) as (_ & Ho & _). specialize (Hb (y <? next st)%nat). lia.
  - apply NoDup_ListNoDup, (NoDup_count_occ Nat.eq_dec). intros y.
    destruct (W y) as (_ & _ & _ & Hs & _). specialize (Hb (y <? next st)%nat). lia.
  - intros Hx. apply cnt_In. destruct (W x) as (_ & _ & _ & _ & _ & Hr). apply Hr, cnt_In.
    rewrite list_elem_of_In, in_flat_map. exists (x, false). split; [by apply list_elem_of_In|by left].
Qed.

(** ** Progress *)

Definition woken (pc : worker_pc) : bool := match pc with Waiting true => true | _ => false end.

(** While the pool lives: a thread sleeps only if a woken one is there for
    each queued work, and a queued work has a thread.  Once it is gone, no
    thread sleeps. *)
Definition awake (st : state) : Prop :=
  0 < max_workers (sh st) ∧
  if alive st then
    (count_pc asleep (workers st) = 0%nat ∨
     (length (queued (sh st)) ≤ count_pc woken (workers st))%nat) ∧
    (queued (sh st) ≠ [] → workers st ≠ [])
  else count_pc asleep (workers st) = 0%nat.

(** At the head of its loop, with [k] works accounted for. *)
Lemma awake_worker_loop i st :
  closing (sh st) = negb (alive st) → workers st !! i = Some Ready →
  0 < max_workers (sh st) →
  (if alive st then count_pc asleep (workers st) = 0%nat ∨ queued (sh st) = [] ∨
     (length (queued (sh st)) ≤ S (count_pc woken (workers st)))%nat
   else count_pc asleep (workers st) = 0%nat) →
  awake (worker_loop i st).
Proof.
  intros Hc Hi Hm Hq. apply lookup_split in Hi as (l1 & l2 & El & Ei & Ed).
  unfold worker_loop. rewrite Hc. destruct (alive st) eqn:Ha; cbn [negb].
  - destruct (queued (sh st)) as [|w q] eqn:E; unfold awake; ws; rewrite Ha, Ei; (split; [done|]).
    + rewrite E. split; [right; cbn; lia|done].
    + rewrite El in Hq. rewrite ?count_pc_app, ?count_pc_cons in *. cbn [asleep woken b2n length] in *.
      split; [|by destruct l1]. destruct Hq as [Hq|[Hq|Hq]]; [left; lia|done|right; lia].
  - unfold awake. ws. rewrite Ha, Ed. split; [done|]. rewrite El in Hq.
    rewrite ?count_pc_app, ?count_pc_cons in *. cbn [asleep b2n] in *. lia.
Qed.

Lemma count_pc_le p l : (count_pc p l ≤ length l)%nat.
Proof. induction l as [|c l IH]; [done|]. rewrite count_pc_cons. cbn [length]. destruct (p c); cbn; lia. Qed.

Lemma awake_worker i st st' : ok st → awake st → worker i st = Some st' → awake st'.
Proof.
  intros [[_ C] _] [Hm Ha]. pose proof (ok_closing _ C) as Hc. unfold worker.
  destruct (workers st !! i) as [[|[]|w|w]|] eqn:Hi; try done.
  - intros E%(inj Some); subst st'. apply awake_worker_loop; try done.
    destruct (alive st); [|done]. destruct Ha as [[?|?] _]; [by left|right; right; lia].
  - intros E%(inj Some); subst st'. apply awake_worker_loop; ws; try done.
    { apply list_lookup_insert_eq. by eapply lookup_lt_Some. }
    apply lookup_split in Hi as (l1 & l2 & El & Ei & _). rewrite Ei. rewrite El in Ha.
    rewrite ?count_pc_app, ?count_pc_cons in *. cbn [asleep woken b2n] in *.
    destruct (alive st); [|lia]. destruct Ha as [[?|?] _]; [left; lia|right; right; lia].
  - pose proof Hi as Hl%lookup_lt_Some. apply lookup_split in Hi as (l1 & l2 & El & Ei & _).
    case_bool_decide; intros E%(inj Some); subst st'.
    + unfold awake. ws. rewrite Ei. rewrite El in Ha. split; [done|].
      rewrite ?count_pc_app, ?count_pc_cons in *. cbn [asleep woken b2n] in *.
      destruct (alive st); [|done]. destruct Ha as [? _]. split; [done|by destruct l1].
    + apply awake_worker_loop; ws; try done; [by apply list_lookup_insert_eq|].
      rewrite Ei. rewrite El in Ha. rewrite ?count_pc_app, ?count_pc_cons in *. cbn [asleep woken b2n] in *.
      destruct (alive st); [|lia]. destruct Ha as [[?|?] _]; [left; lia|right; right; lia].
  - intros E%(inj Some); subst st'. apply lookup_split in Hi as (l1 & l2 & El & Ei & _).
    unfold awake, work_free. ws. rewrite Ei. rewrite El in Ha. split; [done|].
    rewrite ?count_pc_app, ?count_pc_cons in *. cbn [asleep woken b2n] in *.
    destruct (alive st); [|done]. destruct Ha as [? _]. split; [done|by destruct l1].
Qed.

Lemma list_del_length w l : (length (list_del w l) ≤ length l)%nat.
Proof. rewrite length_list_del. lia. Qed.

(** Fewer queued works. *)
Lemma awake_detach w st : awake st → awake (fst (detach w st)).
Proof.
  intros [Hm Ha]. unfold detach, awake. pose proof (list_del_length w (queued (sh st))) as Hl.
  assert (list_del w (queued (sh st)) ≠ [] → queued (sh st) ≠ []) as Hn
    by (intros H1 H2; by rewrite H2 in H1).
  repeat case_bool_decide; ws; (split; [done|]); destruct (alive st); try done;
    (split; [destruct Ha as [[?|?] _]; [by left|right; lia]|naive_solver]).
Qed.

Lemma awake_cancel w st : awake st → awake (dmn_work_cancel w st).
Proof.
  intros Ha%(awake_detach w). unfold dmn_work_cancel. destruct (detach w st) as [st' [x|]]; exact Ha.
Qed.

Lemma wake_counts i st :
  workers st !! i = Some (Waiting false) →
  count_pc asleep (workers st) = S (count_pc asleep (workers (wake i st))) ∧
  count_pc woken (workers (wake i st)) = S (count_pc woken (workers st)) ∧
  length (workers (wake i st)) = length (workers st).
Proof.
  intros Hi. unfold wake. rewrite Hi. ws. rewrite length_insert.
  apply lookup_split in Hi as (l1 & l2 & -> & -> & _). rewrite !count_pc_app, !count_pc_cons.
  cbn [asleep woken b2n]. lia.
Qed.

Lemma wake_first_counts l :
  length (wake_first l) = length l ∧
  (count_pc asleep (wake_first l) = 0%nat ∨ count_pc woken (wake_first l) = S (count_pc woken l)).
Proof.
  induction l as [|pc l [IH1 IH2]]; [by split; [|left]|]. cbn [wake_first].
  destruct (asleep pc) eqn:Ea; cbn [length]; rewrite !count_pc_cons.
  - split; [done|]. right. by destruct pc as [| [] | |].
  - split; [by rewrite IH1|]. rewrite Ea. cbn [b2n]. destruct IH2 as [?|?]; [left|right]; lia.
Qed.

(** A signal leaves no thread asleep, or wakes one. *)
Lemma signal_counts p st :
  length (workers (cond_signal p st)) = length (workers st) ∧
  (count_pc asleep (workers (cond_signal p st)) = 0%nat ∨
   count_pc woken (workers (cond_signal p st)) = S (count_pc woken (workers st))).
Proof.
  unfold cond_signal. destruct (workers st !! p) as [[| [] | |]|] eqn:Hp; try apply wake_first_counts.
  apply wake_counts in Hp as (_ & -> & ->). by split; [|right].
Qed.

Lemma awake_signal p s :
  alive s = true → 0 < max_workers (sh s) → (0 < length (workers s))%nat →
  count_pc asleep (workers s) = 0%nat ∨ (length (queued (sh s)) ≤ S (count_pc woken (workers s)))%nat →
  awake (cond_signal p s).
Proof.
  intros Ha Hm Hw Hq. destruct (signal_counts p s) as [El Es].
  assert (sh (cond_signal p s) = sh s ∧ alive (cond_signal p s) = alive s) as [E1 E2].
  { unfold cond_signal, wake. by destruct (workers s !! p) as [[| [] | |]|]. }
  unfold awake. rewrite E1, E2, Ha. split; [done|]. split.
  - destruct Hq as [Hq|Hq]; [|destruct Es; [by left|right; lia]]. left.
    clear - Hq. unfold cond_signal. destruct (workers s !! p) as [[| [] | |]|] eqn:Hp; ws;
      try (apply wake_counts in Hp as (E & _); lia).
    all: clear Hp; induction (workers s) as [|pc l IH]; [done|]; cbn [wake_first];
      rewrite count_pc_cons in Hq; destruct (asleep pc) eqn:Ea; cbn [b2n] in Hq; [lia|];
      rewrite count_pc_cons, Ea; cbn [b2n]; apply IH; lia.
  - intros _ E. rewrite E in El. cbn [length] in El. lia.
Qed.

Lemma awake_submit timeout e st :
  ok st → awake st → in_caller st = true → awake (fst (dmn_work_submit timeout e st)).
Proof.
  intros [[W C] _] Haw Hc. unfold in_caller in Hc. to_prop. pose proof Haw as [Hm Ha].
  rename H into Hal. rewrite Hal in Ha. destruct Ha as [Ha _].
  pose proof (next_fresh _ st W) as Hn.
  assert (next st ∉ queued (sh st)) as Hq.
  { intros Hx%cnt_In. destruct (W (next st)) as (_ & _ & _ & Hs & _).
    rewrite Nat.ltb_irrefl in Hs. cbn [b2n] in Hs. lia. }
  destruct C as [C1 C2 C3 C4 C5 C6]. destruct (C5 Hal) as [C7 C8].
  pose proof (count_pc_le waiting (workers st)) as Hw.
  destruct (submit_cases timeout e st Hn Hq) as [->|[[-> Hk]|[Hlt ->]]]; [done|..]; apply awake_signal;
    unfold start_worker, enqueue; ws; rewrite ?length_app, ?count_pc_app, ?count_pc_cons, ?count_pc_nil;
    cbn [length asleep woken b2n]; try done; try lia.
Qed.

Lemma broadcast_awake l :
  count_pc asleep ((λ pc, if asleep pc then Waiting true else pc) <$> l) = 0%nat.
Proof.
  induction l as [|pc l IH]; [done|]. rewrite fmap_cons, count_pc_cons, IH.
  by destruct pc as [| [] | |].
Qed.

Lemma awake_step st st' : ok st → awake st → step st st' → awake st'.
Proof.
  intros Hok Haw Hs. destruct Hs as [i st st' Hw|i st|st st' He|st Ha Ee Hf|w k st Ha Ee Hw Hk Ht
    |timeout e st Hc|w st Hc Hw|st Hc].
  - by eapply awake_worker.
  - unfold wake. destruct (workers st !! i) as [[| [] | |]|] eqn:Hi; try done.
    pose proof (wake_counts i st Hi) as (E1 & E2 & E3). unfold wake in *. rewrite Hi in *.
    destruct Haw as [Hm Ha]. unfold awake. ws. split; [done|]. destruct (alive st); [|lia].
    destruct Ha as [Ha Hn]. split; [destruct Ha; [left|right]; lia|].
    intros Hq%Hn E. rewrite E in E3. by destruct (workers st).
  - unfold event_loop in He. destruct (ev st) as [| |w t|r|k]; try done.
    + destruct (free_pending st); [|destruct (done_list (sh st))]; injection He as <-; exact Haw.
    + pose proof (awake_detach w st Haw) as Hd. destruct (detach w st). injection He as <-. exact Hd.
    + injection He as <-. destruct r; exact Haw.
    + destruct (active st) as [|w l]; injection He as <-; [|by apply awake_cancel].
      destruct Haw as [Hm _]. split; [exact Hm|]. exact (broadcast_awake (workers st)).
  - exact Haw.
  - unfold on_timeout. by case_bool_decide.
  - by apply awake_submit.
  - by apply awake_cancel.
  - unfold dmn_work_pool_free. by destruct (dispatching st).
Qed.

Lemma reachable_awake max st : 0 ≤ max → reachable max st → ok st ∧ awake st.
Proof.
  intros Hm Hr. split; [by eapply reachable_ok|]. destruct Hr as (st0 & H0 & Hs).
  assert (ok st0 ∧ awake st0) as [O0 A0].
  { split; [apply (reachable_ok max); [done|by exists st0]|].
    unfold dmn_work_pool_new in H0. destruct (Z.eqb_spec max 0); [done|]. injection H0 as <-.
    unfold awake. cbn. split; [lia|]. by split; [left|]. }
  clear H0. refine (proj2 (rtc_ind_r (λ s, ok s ∧ awake s) _ _ _ _ Hs)); [done|].
  intros y z _ Hyz [Hy1 Hy2]. split; [by eapply ok_step|by eapply awake_step].
Qed.

(** Executions in which [n] critical sections of workers are counted, among any
    other steps. *)
Inductive worked : nat → state → state → Prop :=
| worked_refl st : worked 0 st st
| worked_worker i n st st1 st' : worker i st = Some st1 → worked n st1 st' → worked (S n) st st'
| worked_step n st st1 st' : step st st1 → worked n st1 st' → worked n st st'.

(** How many critical sections a worker has left once the pool is closing:
    running, freeing, and the one in which it ends. *)
Definition pc_left (pc : worker_pc) : nat :=
  match pc with Ready | Waiting _ => 1 | Freeing _ => 2 | Running _ => 3 end.
Definition left_over (st : state) : nat := sum_list (pc_left <$> workers st).

Lemma left_over_le st : (left_over st ≤ 3 * length (workers st))%nat.
Proof. unfold left_over. induction (workers st) as [|pc l IH]; [done|]. cbn. destruct pc; cbn; lia. Qed.

Lemma sum_pc_app l k : sum_list (pc_left <$> l ++ k) = (sum_list (pc_left <$> l) + sum_list (pc_left <$> k))%nat.
Proof. induction l as [|pc l IH]; [done|]. cbn in *. lia. Qed.

Lemma closed_worker i st st' :
  closing (sh st) = true → worker i st = Some st' →
  (left_over st' < left_over st)%nat ∧ alive st' = alive st.
Proof.
  intros Hc. unfold worker. destruct (workers st !! i) as [pc|] eqn:Hi; [|done].
  apply lookup_split in Hi as (l1 & l2 & El & Ei & Ed).
  unfold worker_loop, left_over. destruct pc as [|[]|w|w]; try done; [| |case_bool_decide|];
    intros E%(inj Some); subst st'; unfold work_free; ws; rewrite ?Hc; ws;
    rewrite ?take_insert_ge, ?drop_insert_lt by lia; rewrite ?Ed, ?Ei, ?El, ?sum_pc_app;
    (split; [|done]); cbn; try lia.
Qed.

Lemma closed_step st st' :
  alive st = false → closing (sh st) = true → step st st' →
  (left_over st' ≤ left_over st)%nat ∧ alive st' = false.
Proof.
  intros Ha Hc Hs. destruct Hs as [i st st' Hw|i st|st st' He|st Ha' _ _|w k st Ha' _ _ _ _
    |timeout e st Hc'|w st Hc' Hw|st Hc']; try congruence;
    try (unfold in_caller in Hc'; rewrite Ha in Hc'; discriminate).
  - destruct (closed_worker i st st' Hc Hw) as [? ->]. by split; [lia|].
  - unfold wake. destruct (workers st !! i) as [[| [] | |]|] eqn:Hi; try done.
    unfold left_over. apply lookup_split in Hi as (l1 & l2 & El & Ei & _).
    ws. rewrite Ei, El, !sum_pc_app. cbn. split; [lia|done].
  - unfold event_loop in He. destruct (ev st) as [| |w t|r|k]; try done.
    + destruct (free_pending st); [|destruct (done_list (sh st))]; injection He as <-; by split.
    + unfold detach in He. injection He as <-. unfold left_over. repeat case_bool_decide; by ws.
    + injection He as <-. destruct r; by split.
    + destruct (active st) as [|w l]; injection He as <-.
      * unfold left_over, destroy_end, cond_broadcast. ws. split; [|done].
        induction (workers st) as [|pc l IH]; [done|]. cbn in *. destruct pc as [|[]| |]; cbn; lia.
      * unfold dmn_work_cancel, detach, left_over. repeat case_bool_decide; by ws.
Qed.

Lemma awake_can_run i pc st : workers st !! i = Some pc → asleep pc = false → is_Some (worker i st).
Proof.
  intros Hi Hpc. unfold worker. rewrite Hi. destruct pc as [| [] |w|w]; try done; try case_bool_decide; eauto.
Qed.

Lemma none_asleep i pc st :
  count_pc asleep (workers st) = 0%nat → workers st !! i = Some pc → asleep pc = false.
Proof.
  intros Hn Hi. destruct (asleep pc) eqn:E; [|done]. apply lookup_split in Hi as (l1 & l2 & El & _).
  rewrite El, count_pc_app, count_pc_cons, E in Hn. cbn in Hn. lia.
Qed.

Lemma worked_closed n st st' :
  worked n st st' → ok st → awake st → alive st = false →
  (n + left_over st' ≤ left_over st)%nat ∧ ok st' ∧ awake st' ∧ alive st' = false.
Proof.
  induction 1 as [st|i n st st1 st' Hw _ IH|n st st1 st' Hs _ IH]; intros Hok Haw Ha; [by split; [lia|]|..].
  - assert (Hc : closing (sh st) = true) by (rewrite (ok_closing _ (proj2 (proj1 Hok))), Ha; done).
    destruct (closed_worker i st st1 Hc Hw) as [Hlt Ha1]. pose proof (step_worker i st st1 Hw) as Hs.
    destruct IH as [Hl IH]; [by eapply ok_step|by eapply awake_step|congruence|]. split; [lia|done].
  - assert (Hc : closing (sh st) = true) by (rewrite (ok_closing _ (proj2 (proj1 Hok))), Ha; done).
    destruct (closed_step st st1 Ha Hc Hs) as [Hle Ha1].
    destruct IH as [Hl IH]; [by eapply ok_step|by eapply awake_step|done|]. split; [lia|done].
Qed.

(** C37: No work is stranded, in any interleaving.  While the pool lives and
    works are queued, there are worker threads, and either none of them sleeps
    or as many as there are works queued have been woken; and every thread
    that is not asleep can run its next critical section.  Once the pool is
    freed every worker that is left can run, in each state of every execution
    from then on, and all workers together run at most three more critical
    sections each, so all of them end. *)
Theorem work_pool_progress max st :
  0 ≤ max → reachable max st →
  (∀ i pc, workers st !! i = Some pc → asleep pc = false → is_Some (worker i st)) ∧
  (alive st = true → queued (sh st) ≠ [] → workers st ≠ [] ∧
     (Forall (λ pc, asleep pc = false) (workers st) ∨
      (length (queued (sh st)) ≤ count_pc woken (workers st))%nat)) ∧
  (alive st = false → ∀ n st', worked n st st' →
     (n ≤ 3 * length (workers st))%nat ∧
     ∀ i, (i < length (workers st'))%nat → is_Some (worker i st')).
Proof.
  intros Hm [Hok Haw]%reachable_awake; [|done]. split; [by intros; eapply awake_can_run|]. split.
  - intros Ha Hq. destruct Haw as [_ Haw]. rewrite Ha in Haw. destruct Haw as [Hs Hw].
    split; [by apply Hw|]. destruct Hs as [Hs|Hs]; [left|by right].
    apply Forall_lookup_2. intros i pc Hi. by eapply none_asleep.
  - intros Ha n st' Hw. destruct (worked_closed n st st' Hw Hok Haw Ha) as (Hl & _ & [_ Haw'] & Ha').
    pose proof (left_over_le st). split; [lia|]. intros i [pc Hi]%lookup_lt_is_Some.
    rewrite Ha' in Haw'. eapply awake_can_run; [done|]. by eapply none_asleep.
Qed.

(** The counters are what they count: [nr_queued] the queued works, [nr_idle]
    the waiting threads, and [refs] the pool and its threads, so none
    is decremented below zero; a pool never has more than [max_workers]
    threads.  The shared structure is freed ([refs] reaches 0) exactly when
    the pool is freed and every worker has ended, and then nothing leaks:
    outside of a done callback, every work ever submitted has been freed. *)
Theorem work_pool_counters max st :
  0 ≤ max → reachable max st →
  nr_queued (sh st) = Z.of_nat (length (queued (sh st))) ∧
  nr_idle (sh st) = Z.of_nat (count_pc waiting (workers st)) ∧
  (alive st = true → Z.of_nat (length (workers st)) ≤ max_workers (sh st)) ∧
  (refs (sh st) = 0 ↔ alive st = false ∧ workers st = []) ∧
  (refs (sh st) = 0 → hand (ev st) = [] →
   heap st = ∅ ∧ ∀ x, (x < next st)%nat → x ∈ freed st).
Proof.
  intros Hm [[W C] _]%reachable_ok; [|done]. destruct C as [C1 C2 C3 C4 C5 C6].
  assert (refs (sh st) = 0 ↔ alive st = false ∧ workers st = []) as Hr.
  { rewrite C3. destruct (alive st), (workers st); cbn [b2n length]; split; try lia; naive_solver lia. }
  split_and!; [done|done|intros Ha; destruct (C5 Ha); lia|done|].
  intros [Ha Hw]%Hr Hh. specialize (C6 Ha).
  assert (∀ x, state_of x (heap st) = None) as Hn.
  { intros x. destruct (W x) as (Hp & _). rewrite Hw, Hh, C6 in Hp.
    destruct (state_of x (heap st)) as [[]|]; cbn [placed flat_map count_occ] in Hp; [lia..|done]. }
  split.
  - apply map_empty. intros x. specialize (Hn x). unfold state_of in Hn. by destruct (heap st !! x).
  - intros x Hx. destruct (W x) as (_ & _ & Hf & _). rewrite Hn in Hf. apply Nat.ltb_lt in Hx.
    rewrite Hx in Hf. apply cnt_In. cbn [live b2n] in Hf. lia.
Qed.

(** ** A run

    A work with a timer is submitted and taken by the first worker, is
    cancelled while it runs, and the pool is freed. *)

Definition env_ok : submit_env :=
  {| mem_ok := true; timer_err := None; thread_err := None; pick := 0 |}.
Definition run1 : state := fst (dmn_work_submit true env_ok (new_pool 1)).
Definition run2 : state := default run1 (worker 0 run1).
Definition run3 : state := dmn_work_cancel 0 run2.
Definition run4 : state := default run3 (worker 0 run3).
Definition run5 : state := default run4 (worker 0 run4).
Definition run6 : state := dmn_work_pool_free run5.
Definition run7 : state := default run6 (event_loop run6).
Definition run8 : state := default run7 (worker 0 run7).

Lemma run1_reachable : reachable 1 run1.
Proof. exists (new_pool 1). split; [done|]. apply rtc_once. by constructor. Qed.

Lemma run7_reachable : reachable 1 run7.
Proof.
  destruct run1_reachable as (s0 & H0 & H1). exists s0. split; [done|].
  eapply (transitivity (R:=rtc step)); [exact H1|].
  eapply rtc_l; [apply (step_worker 0 run1 run2); by vm_compute|].
  eapply rtc_l; [apply (step_cancel 0 run2); [by vm_compute|apply (bool_decide_unpack _); by vm_compute]|].
  eapply rtc_l; [apply (step_worker 0 run3 run4); by vm_compute|].
  eapply rtc_l; [apply (step_worker 0 run4 run5); by vm_compute|].
  eapply rtc_l; [apply (step_pool_free run5); by vm_compute|].
  eapply rtc_l; [apply (step_event_loop run6 run7); by vm_compute|]. apply rtc_refl.
Qed.

Lemma run8_reachable : reachable 1 run8.
Proof.
  destruct run7_reachable as (s0 & H0 & H1). exists s0. split; [done|].
  eapply rtc_r; [exact H1|]. apply (step_worker 0 run7 run8). by vm_compute.
Qed.

Lemma work_pool_safe_witness : freed run8 = [0%nat] ∧ NoDup (freed run8).
Proof.
  split; [by vm_compute|]. apply (work_pool_safe 1 run8 0); [lia|apply run8_reachable].
Defined.

Lemma work_pool_progress_witness :
  is_Some (worker 0 run1) ∧ is_Some (worker 0 run7) ∧ alive run7 = false ∧ workers run8 = [].
Proof.
  destruct (work_pool_progress 1 run1 ltac:(lia) run1_reachable) as (Hrun & _ & _).
  destruct (work_pool_progress 1 run7 ltac:(lia) run7_reachable) as (_ & _ & Hfree).
  assert (Ha : alive run7 = false) by (vm_compute; reflexivity).
  split; [apply (Hrun 0%nat Ready); vm_compute; reflexivity|].
  split; [apply (proj2 (Hfree Ha 0%nat run7 (worked_refl run7))); vm_compute; lia|].
  split; [exact Ha|vm_compute; reflexivity].
Defined.

Lemma work_pool_counters_witness : refs (sh run8) = 0 ∧ heap run8 = ∅.
Proof.
  split; [by vm_compute|]. apply (work_pool_counters 1 run8); [lia|apply run8_reachable|by vm_compute..].
Defined.
